(* ===== verification/_CoqProject ===== *)
-Q . S2P
Prelude.v
Utf8.v
WidthTables.v
RuneWidth.v
VtBuf.v
VtParse.v
Decimal.v
VtState.v
VtOps.v
VtSeq.v
VtClient.v
VtDump.v
VtTyped.v
VtAlt.v
VtKgfx.v
Txl.v
Render.v
RenderCorrect.v
Tile.v
TileTree.v
TileHeap.v
TileSpec.v
TileCorrect.v
TileSession.v
TileRefine.v
TileComposite.v
TileScreen.v
TileBorder.v
TileFrame.v
TileDisplay.v
Microser.v
LumiMsg.v
IpcMsg.v
AttrStore.v
AttrSpec.v
AttrCorrect.v
AttrFile.v
AttrWire.v
Mserver.v
MserverSteps.v
MserverQueue.v
MserverTotal.v
MserverActs.v
MserverHandlers.v
MserverClient.v
MserverSession.v
MserverReplay.v
Window.v
Server.v
Theme.v
Wm.v
WmText.v
WmPicture.v
WmSession.v
WmGrid.v
WmDisplay.v
WmSafe.v
WmRun.v
TurboDisplay.v
Text.v
TextEdit.v
TextSpec.v
TextHistory.v
TextUndo.v
TextFile.v
TextSession.v
TextCorrect.v
