(* ===== verification/Prelude.v ===== *)
(** * lumimux: a verification development

    lumimux is a terminal multiplexer.  A server process keeps each window's
    program running and interprets its output on a virtual terminal; clients
    attach, are sent a dump of the screen, and then see the same output.  This
    development models the virtual terminal (src/libvt), the text library under
    it (src/libutf8), the renderer that brings a client's terminal up to date
    (src/librender, src/libtxl), the panes of the tiled display (src/libtile),
    the floating windows (src/libwm, with the themes of src/libtui), the editor's
    text buffer (src/libtext),
    the messages between client and server (src/libipc), the session's
    attributes (src/libattr), the window (src/libsession/window.c) and the server
    process that ties these together (src/cmd/mserver/mserver.c), and proves them
    correct, alone and together.

    ** The program's parts and the files that model them

    - Prelude.v: this header; bytes and string literals, C integers at their
      width ([u8], [u32], [i32], bit operations as in C on [Z]), arrays as lists
      indexed at [Z] ([aget], [aset] answer [None] out of range), counting loops
      ([for_up], [for_down]) with their invariant rules and closed forms, and
      the predicate [yields m P]: [m] does not trap and its result has [P].
    - Utf8.v: src/libutf8/utf8.c, the codec and the truncation routine.
    - WidthTables.v, RuneWidth.v: src/libutf8/width_tables.c and rune_width.c,
      the generated tables as data and the binary search over them.
    - VtBuf.v: src/libvt/vt_cell.c and vt_buf.c, the grid and the scrollback
      ring.  [buf_repr R C b h] says that the buffer [b] is an [R] by [C]
      screen whose history is the list [h], oldest first.
    - VtParse.v: src/libvt/vt_parse.c, the escape sequence state machine.  The
      code's table of operations becomes a list of events, in order.
    - Decimal.v: the decimal formatters of vt_state.c and of printf's %d.
    - VtState.v: src/libvt/vt_state.c without the dump: targets, cursor, modes,
      tab stops, keyboard and title stacks, alternate screen, resize, printing.
      [wf_state R C st] is the invariant.
    - VtOps.v: src/libvt/vt_ops.c, every handler, and the whole path from bytes
      to the screen ([vt_feed]); sessions as a step relation ([session_step],
      [reachable]).
    - VtSeq.v: control sequences as text, and what playing bytes to a terminal
      does ([plays]).
    - VtDump.v: vt_state_dump, and what a client makes of it.
    - VtClient.v: what each sequence the server or the renderer writes does to a
      client's terminal, step by step ([client], [row_cells]).
    - VtTyped.v: the colours of a terminal stay bytes, whatever it is fed.
    - VtAlt.v: the alternate screen under any bytes and resizes between entering
      and leaving it ([alt_run], [on_alt]).
    - VtKgfx.v: vt_kgfx_account of vt_state.c, what an image shown with the Kitty
      graphics protocol does to the cursor; the head of a file it names is given.
    - Txl.v: src/libtxl/txl.c, terminal capabilities with their ANSI fallbacks.
    - Render.v: src/librender/render.c, the shadow of the client's screen and the
      two ways to bring it up to date.  RenderCorrect.v: the interface
      [Capabilities] a terminal description must have, and the invariant
      [tracks] between the renderer and the terminal that reads its bytes.
    - Tile.v: src/libtile/tile.c, the panes of a tiled window, as a heap of nodes
      with every allocation and free.  TileTree.v, TileHeap.v: the tree a heap
      stands for, its layout, and each pointer walk as a function on trees.
      TileSpec.v: the manager as its user sees it.  TileCorrect.v,
      TileSession.v, TileRefine.v: each operation, then sessions of them, refine
      that ([reps t T]: the heap of [t] is exactly the nodes of [T]).
    - TileComposite.v: src/libtile/tile_composite.c, the panes' terminals and the
      lines between them drawn on one screen.  TileScreen.v, TileBorder.v: the
      copying and the lines as functions of the cell.  TileFrame.v,
      TileDisplay.v: a frame as attach.c's [tiled_render] makes it, and sessions
      of frames through the renderer to the client's terminal.
    - Theme.v: src/libtui/tui_theme.c, the themes built in.  Wm.v:
      src/libwm/wm.c, the floating windows: their order and focus, drawing them,
      hit testing, dragging, the grid; [float] is IEEE single precision (the
      Standard Library's [SpecFloat]).  WmText.v: strings on the screen, as
      overlays ([draws P o]: the routine [P] draws [o]).  WmPicture.v: every part
      of a window as an overlay, and that its routine draws it.  WmSession.v: the
      invariant [wm_ok], what is hit, where a drag ends.  WmGrid.v: the grid.
      WmDisplay.v: the picture of all windows ([scene]), and the rows that
      changed.  WmSafe.v: composing traps on less than it takes to be right
      ([composable]).  WmRun.v: sessions of all operations, the themes, and limits.
      TurboDisplay.v: a frame as attach.c's [turbo_render] makes it, and sessions
      of frames through the renderer to the client's terminal.
    - Text.v: src/libtext/text.c, the editor's text buffer with undo and redo;
      allocations answer from a schedule ([t_mem]).  TextEdit.v: the primitives on
      the lines a text holds ([holds]), and their inverses.  TextSpec.v: an editor
      as its lines and the versions before and after them ([edoc], [doc_step]).
      TextHistory.v, TextUndo.v, TextFile.v: edits, undo and redo, loading and
      saving against it ([fits], [rel], [simulates]).  TextSession.v: sessions.
      TextCorrect.v: what is promised, and where the promises end.
    - Microser.v: src/libipc/microser.h and the frame every message has, as the
      interface [Message] with its laws [MessageLaws].  LumiMsg.v: the ten
      messages of src/libipc/lumi_msg.c as instances.
    - IpcMsg.v: src/libipc/ipc_msg.c, messages on a descriptor whose reads and
      writes are a schedule ([rd], [wr]), and the attach handshake.
    - AttrStore.v: src/libattr/attr_store.c, the transactional store of
      attributes.  AttrSpec.v: transactions as observations replayed on a map.
      AttrCorrect.v: sessions of many clients ([attr_session]) and their
      invariant.  AttrFile.v: the file, and the store's limits.  AttrWire.v:
      what the store holds fits the messages that carry it.
    - Mserver.v: src/cmd/mserver/mserver.c, the clients, their output queues and
      input runs, roles, and every handler of the event loop; the window is
      behind the interface [Window], sockets, the PTY, the clock and realloc
      answer from schedules.  A run is a list of events ([run]).
      MserverSteps.v: the invariant [wf], the laws a window must have
      ([WindowLaws]) and the relations every step is one of.  MserverQueue.v: one
      client's queue.  MserverTotal.v: calls that drop clients call each other,
      and how deep they nest.  MserverActs.v, MserverHandlers.v: each handler.
      MserverClient.v: what one client is sent.  MserverSession.v: sessions.
      MserverReplay.v: the greeting of a client that attaches.
    - Window.v: src/libsession/window.c and pty_resize of src/libpty/pty.c; the
      instance of [Window] made of the parser and the terminal above, and its
      laws.  Server.v: the server on that window, and its theorems.

    ** How state and failure are modelled

    A C structure is a [Record]; an operation is a function from the state (and
    arguments) to [option] of the new state, where [None] is a trap: an array
    access out of range, a NULL dereference, a write past a fixed buffer.  So
    "never traps" is a theorem, not an assumption.  A pointer to a row or a cell
    is its index, since rows are owned by one slot at a time.  Callbacks are
    parameters: the terminal's DCS callback is an argument with the class
    [DcsHandler] stating what it must promise ([DcsTyped] for the colours,
    [DcsStays] for the alternate screen); the one window.c installs discharges
    them.  The server is proved against the
    classes [Window] and [WindowLaws], which the window of Window.v implements.

    The program reads from its PTY what the server writes there ([pty_out],
    [pty_wr]: as sent, and the schedule of what [write] answers) and what the
    terminal answers it on the same descriptor ([reply_out], to the server
    [win_answers]); the two are separate lists, whose order is not kept.  A file
    that is written is what a [disk] leaves of the text: opening, closing and
    renaming may fail, and [written] is what the [fprintf] calls got through.

    Loops are structural recursions on the number of turns or on the input; the
    few with fuel ([range_search_loop], [utf8_trunc_loop], [digits_rev],
    [sgr_loop]) are given a measure of their input, running out is a trap or is
    shown not to matter, and the specifications prove that it never happens.
    Sending to a client may drop it, which tells the others, which may drop them:
    these functions of mserver.c call each other and have one fuel for the depth
    of their calls, [DEPTH]; every drop closes a slot, so that [group_ends] holds
    with the fuel the table's size asks for.

    ** What the theorems show

    - Utf8, RuneWidth: decoding inverts encoding, accepts canonical encodings
      only and reads in bounds; truncation keeps the longest clean prefix; the
      width search agrees with the tables.
    - VtBuf: scrolling refines a screen with a bounded history; the ring keeps
      the most recent lines; resizing and the scrollback viewer are exact.
    - VtParse, VtSeq: any bytes are safe and give bounded events; chunking does
      not matter; text, CSI and OSC sequences are read back as what they were
      printed from; ST resynchronises.
    - VtState, VtOps: every reachable terminal is well formed and traps on no
      input; printing, scrolling, erasing, inserting, tabs, the stacks and the
      alternate screen do what their names say.
    - VtDump: the dump overruns no buffer, and playing it reproduces the screen
      on the client, for screens laid out as printing leaves them, with styles the
      parser can read back; the limits of that are theorems too.
    - VtAlt: whatever a program does on the alternate screen, the primary one is
      there when it leaves, with the cursor where it was saved last.
    - Render: for every sequence of frames of narrow cells the bytes written leave
      the terminal showing the last one; where wide characters and predictions
      break that is a theorem too.
    - Tile: every session of operations is memory safe, leaks nothing and does
      what the specification says; the panes and separators divide the screen;
      splitting and closing is the identity; moving the focus is a cycle; what
      happens with shared ids and too small screens.
    - TileComposite: the composed screen cell by cell, and, with the renderer,
      that the client sees the panes.
    - The window manager: no session whose operations are given what they need
      traps, and the invariant holds; what the
      mouse hits is what is seen there; a drag ends where the pointer does;
      maximizing twice is the identity; the grid covers the screen; composing
      draws the windows by height, marks exactly the rows that changed, and, with
      the renderer, the client sees the last picture asked for; the themes built in can be
      drawn; what small windows and failed allocations break is a theorem.
    - The text buffer: every session with memory does what the description says,
      cursor places and files included; without memory nothing traps and a failed
      edit changes nothing; redoing reverses undoing, undoing everything gives the
      text loaded, files are kept; what the header promises and the code does not
      keep is a theorem.
    - Messages: round trips for every message, safety of decoding and receiving
      on any bytes, compatibility of the handshake with older peers; what is
      received is a prefix of what was sent, over any schedule of reads and writes,
      and all of it if nothing fails.
    - Attributes: transactions are serializable by the first reads of each, and
      commit when undisturbed; the file gives the store back if its strings have no
      newlines and it was written whole; where these fail is a theorem too.
    - The server: every run from a new window ends without a trap; queues, their
      allocations and input runs stay bounded; only who holds the keyboard, or
      may inject, makes the server write to the program or the attributes, and the
      terminal answers the program only when fed its output; a listening client is
      sent every chunk of output once, whole, in order; an input run is one write;
      the window has the size of its smallest voting client; the keyboard is
      handed on when its holder goes; reading the PTY follows the clients, but
      for one event; a client that attaches sees the screen.  Where the code
      breaks the rule of one writer, or leaves the program unread, is a theorem.

    ** Bounds

    Screens are at most 2^30 rows and columns, so that cursor arithmetic stays
    in an [int]; keyboard flags are below 2^20, which the parser's parameters
    guarantee; the dump's replay and the renderer are for screens within the
    parser's largest parameter, 655349.  The walks over the tile manager's heap
    have fuel for each node of the heap and one more, which a walk over a tree
    never uses up; the layout's arithmetic is in [Z], its operands within the
    screen's sizes times 256.  The server's table has eight slots, the calls that
    drop clients go at most four deep for each client still connected and a few
    more ([need]), and [DEPTH] is 64; the window manager's coordinates are in [Z]
    and its windows and screens of the minimal size at least; an allocation doubles from 4 or 8 KiB up to
    its limit, in at most 64 turns.  A text and its history take less
    than 2^58 bytes, so that no size wraps.  Sessions of the attribute store are shorter than
    2^32 operations, so that ids and generations do not wrap.

    ** Not modelled

    Memory management outside the tile manager (allocation is taken to succeed
    except in Wm.v, Text.v and the server, frees are tracked only in Tile.v, whose allocator is a parameter
    answering an unused address; the server's [realloc] answers from a schedule),
    [write] in the terminal and the renderer (their output is collected), [memcmp] on cells (a parameter: it sees padding), what ti_parm
    makes of a terminfo string (a parameter), of the server its registration in
    the run directory, SIGHUP, its environment and command line, and of the window
    opening the PTY and starting the program; the network (src/libnet/netchan.c
    is a vendored copy), the client's main loop and user interface, the
    parser of theme colors (its [sscanf] is not specified that far), the editor over the text buffer,
    the interpreter and vendored libraries. *)

From stdpp Require Export base list option numbers list_numbers strings.
From Stdlib Require Export ZArith Lia.

Open Scope Z_scope.

Create HintDb lumi.

(** ** Characters and bytes

    A C [char] or [uint8_t] is a [Z]; a C string literal is the list of its
    byte values, without the terminating NUL. *)

Definition ch (s : string) : Z :=
  match s with
  | String a _ => Z.of_N (Ascii.N_of_ascii a)
  | EmptyString => 0
  end.

Fixpoint str (s : string) : list Z :=
  match s with
  | EmptyString => []
  | String a s' => Z.of_N (Ascii.N_of_ascii a) :: str s'
  end.

Arguments ch _ : simpl never.
Arguments str _ : simpl never.

(** [strlen]: [None] when there is no NUL in the object. *)
Fixpoint strlen (s : list Z) : option Z :=
  match s with
  | [] => None
  | c :: s => if c =? 0 then Some 0 else n ← strlen s; Some (n + 1)
  end.

(** The bytes of a C string: those before the first NUL. *)
Fixpoint c_string (s : list Z) : list Z :=
  match s with
  | [] => []
  | c :: s => if c =? 0 then [] else c :: c_string s
  end.

(** Replace character literals by their codes. *)
Ltac chs :=
  repeat match goal with
  | |- context [ch ?s] => let v := eval vm_compute in (ch s) in change (ch s) with v in *
  | H : context [ch ?s] |- _ => let v := eval vm_compute in (ch s) in change (ch s) with v in *
  end.

(** A byte value. *)
Definition is_byte (b : Z) : Prop := 0 <= b < 256.

(** Bytes, checked by computation. *)
Lemma bytes_ok l : forallb (λ b, (0 <=? b) && (b <? 256)) l = true → Forall is_byte l.
Proof. intros H. apply Forall_forall. intros b Hb%list_elem_of_In. rewrite forallb_forall in H.
  specialize (H b Hb). unfold is_byte. lia. Qed.

(** ** Machine integers: conversions to a width, written out *)

Definition u8 (z : Z) : Z := z mod 2 ^ 8.
Definition u16 (z : Z) : Z := z mod 2 ^ 16.
Definition u32 (z : Z) : Z := z mod 2 ^ 32.
Definition u64 (z : Z) : Z := z mod 2 ^ 64.
(** two's complement, for the places where an [int] can leave its range *)
Definition i32 (z : Z) : Z := (z + 2 ^ 31) mod 2 ^ 32 - 2 ^ 31.

Definition INT_MAX : Z := 2 ^ 31 - 1.

(** [c ? 1 : 0] *)
Definition b2z (b : bool) : Z := if b then 1 else 0.

(** [x & mask] read as a truth value *)
Definition has_bits (x mask : Z) : bool := negb (Z.land x mask =? 0).
(** [x |= mask] and [x &= ~mask] *)
Definition set_bits (x mask : Z) : Z := Z.lor x mask.
Definition clear_bits (x mask : Z) : Z := Z.ldiff x mask.

(** ** The trap monad

    A step of the code is an [option]: [None] is a trap, that is undefined
    behaviour of the C program (an array access out of bounds, a NULL or
    dangling pointer followed).  stdpp's [x ← m; k] sequences steps.
    [yields m Q] is the weakest precondition: the step does not trap and its
    result satisfies [Q]. *)

Definition yields {A} (m : option A) (Q : A → Prop) : Prop :=
  match m with Some a => Q a | None => False end.

Section Yields.
Context {A B : Type}.
Implicit Types (m : option A) (Q : A → Prop).

Lemma yields_ret (a : A) Q : Q a → yields (Some a) Q.
Proof. done. Qed.

Lemma yields_bind m (k : A → option B) (Q : B → Prop) :
  yields m (λ a, yields (k a) Q) → yields (m ≫= k) Q.
Proof. by destruct m. Qed.

Lemma yields_mono m Q Q' : yields m Q → (∀ a, Q a → Q' a) → yields m Q'.
Proof. destruct m; simpl; eauto. Qed.

Lemma yields_seq m (k : A → option B) (Q : A → Prop) (R : B → Prop) :
  yields m Q → (∀ a, Q a → yields (k a) R) → yields (m ≫= k) R.
Proof. destruct m; simpl; eauto. Qed.

Lemma yields_eq m a : yields m (eq a) ↔ m = Some a.
Proof. destruct m; simpl; split; [by intros -> | by intros [= ->] | done | done]. Qed.

Lemma yields_Some m Q : yields m Q ↔ ∃ a, m = Some a ∧ Q a.
Proof.
  destruct m as [a|]; simpl; split; [by exists a | by intros (? & [= <-] & ?) | done |].
  by intros (? & ? & ?).
Qed.

Lemma yields_and m Q Q' :
  yields m Q → yields m Q' → yields m (λ a, Q a ∧ Q' a).
Proof. by destruct m. Qed.
End Yields.

(** ** Arrays at a C index *)

Definition aget {A} (l : list A) (i : Z) : option A :=
  if 0 <=? i then l !! Z.to_nat i else None.

Definition aset {A} (l : list A) (i : Z) (x : A) : option (list A) :=
  if (0 <=? i) && (i <? Z.of_nat (length l))
  then Some (<[Z.to_nat i := x]> l) else None.

(** the length of an array, as the C code counts *)
Definition zlen {A} (l : list A) : Z := Z.of_nat (length l).

(** ** Counted loops

    [for_up lo hi body s] is [for (i = lo; i < hi; i++) s = body(i, s)] and
    [for_down hi lo body s] is [for (i = hi; i >= lo; i--) s = body(i, s)];
    in both the bounds are computed once. *)

Section Loops.
Context {S : Type}.

Fixpoint loop_up (n : nat) (i : Z) (body : Z → S → option S) (s : S) : option S :=
  match n with
  | O => Some s
  | Datatypes.S n' => s' ← body i s; loop_up n' (i + 1) body s'
  end.

Fixpoint loop_down (n : nat) (i : Z) (body : Z → S → option S) (s : S) : option S :=
  match n with
  | O => Some s
  | Datatypes.S n' => s' ← body i s; loop_down n' (i - 1) body s'
  end.

Definition for_up (lo hi : Z) := loop_up (Z.to_nat (hi - lo)) lo.
Definition for_down (hi lo : Z) := loop_down (Z.to_nat (hi - lo + 1)) hi.

(** Hoare rules: an invariant indexed by the loop variable. *)
Lemma loop_up_inv (Inv : Z → S → Prop) n lo body s :
  Inv lo s →
  (∀ i s, lo <= i < lo + Z.of_nat n → Inv i s → yields (body i s) (Inv (i + 1))) →
  yields (loop_up n lo body s) (Inv (lo + Z.of_nat n)).
Proof.
  revert lo s; induction n as [|n IH]; intros lo s H0 Hstep; simpl.
  { rewrite Z.add_0_r. exact H0. }
  eapply yields_seq; [apply Hstep; [lia | done] |].
  intros s' Hs'. replace (lo + Z.of_nat (Datatypes.S n)) with (lo + 1 + Z.of_nat n) by lia.
  apply IH; [done |]. intros i s'' Hi. apply Hstep. lia.
Qed.

Lemma loop_down_inv (Inv : Z → S → Prop) n hi body s :
  Inv hi s →
  (∀ i s, hi - Z.of_nat n < i <= hi → Inv i s → yields (body i s) (Inv (i - 1))) →
  yields (loop_down n hi body s) (Inv (hi - Z.of_nat n)).
Proof.
  revert hi s; induction n as [|n IH]; intros hi s H0 Hstep; simpl.
  { rewrite Z.sub_0_r. exact H0. }
  eapply yields_seq; [apply Hstep; [lia | done] |].
  intros s' Hs'. replace (hi - Z.of_nat (Datatypes.S n)) with (hi - 1 - Z.of_nat n) by lia.
  apply IH; [done |]. intros i s'' Hi. apply Hstep. lia.
Qed.

Lemma for_up_inv (Inv : Z → S → Prop) lo hi body s :
  lo <= hi →
  Inv lo s →
  (∀ i s, lo <= i < hi → Inv i s → yields (body i s) (Inv (i + 1))) →
  yields (for_up lo hi body s) (Inv hi).
Proof.
  intros Hle H0 Hstep. unfold for_up.
  replace hi with (lo + Z.of_nat (Z.to_nat (hi - lo))) at 2 by lia.
  apply loop_up_inv; [done |]. intros i s' Hi. apply Hstep. lia.
Qed.

Lemma for_down_inv (Inv : Z → S → Prop) hi lo body s :
  lo - 1 <= hi →
  Inv hi s →
  (∀ i s, lo <= i <= hi → Inv i s → yields (body i s) (Inv (i - 1))) →
  yields (for_down hi lo body s) (Inv (lo - 1)).
Proof.
  intros Hle H0 Hstep. unfold for_down.
  replace (lo - 1) with (hi - Z.of_nat (Z.to_nat (hi - lo + 1))) at 1 by lia.
  apply loop_down_inv; [done |]. intros i s' Hi. apply Hstep. lia.
Qed.

Lemma for_up_nop lo hi body (s : S) : hi <= lo → for_up lo hi body s = Some s.
Proof. intros H. unfold for_up. by replace (Z.to_nat (hi - lo)) with O by lia. Qed.

Lemma for_down_nop hi lo body (s : S) : hi < lo → for_down hi lo body s = Some s.
Proof. intros H. unfold for_down. by replace (Z.to_nat (hi - lo + 1)) with O by lia. Qed.

Lemma for_up_ext lo hi (body body' : Z → S → option S) s :
  (∀ i s, lo <= i < hi → body i s = body' i s) → for_up lo hi body s = for_up lo hi body' s.
Proof.
  intros Hext. unfold for_up.
  assert (∀ n i s, lo <= i → i + Z.of_nat n <= Z.max lo hi → loop_up n i body s = loop_up n i body' s) as H.
  { induction n as [|n IH]; intros i s' Hi Hn; simpl; [done |].
    rewrite Hext by lia. destruct (body' i s'); simpl; [| done]. apply IH; lia. }
  apply H; lia.
Qed.

(** an invariant that does not depend on the loop variable *)
Lemma for_up_keep (I : S → Prop) lo hi body s :
  I s →
  (∀ i s, lo <= i < hi → I s → yields (body i s) I) →
  yields (for_up lo hi body s) I.
Proof.
  intros H0 Hstep. destruct (decide (lo <= hi)).
  - by apply (for_up_inv (λ _, I)).
  - rewrite for_up_nop by lia. done.
Qed.
End Loops.

(** ** Array lemmas *)

Section Arrays.
Context {A : Type}.
Implicit Types (l : list A) (i j : Z) (x : A).

Lemma aget_lookup l i : 0 <= i → aget l i = l !! Z.to_nat i.
Proof. intros H. unfold aget. by rewrite (proj2 (Z.leb_le 0 i) H). Qed.

Lemma aget_nat l (n : nat) : aget l (Z.of_nat n) = l !! n.
Proof. rewrite aget_lookup by lia. by rewrite Nat2Z.id. Qed.

Lemma aget_in l i : 0 <= i < zlen l → ∃ x, aget l i = Some x.
Proof.
  intros H. rewrite aget_lookup by lia. apply lookup_lt_is_Some_2.
  unfold zlen in H. lia.
Qed.

Lemma aget_Some l i x : aget l i = Some x → 0 <= i < zlen l.
Proof.
  unfold aget, zlen. destruct (0 <=? i) eqn:E; [| done].
  intros ?%lookup_lt_Some. lia.
Qed.

Lemma aget_None l i : aget l i = None ↔ i < 0 ∨ zlen l <= i.
Proof.
  unfold aget, zlen. destruct (0 <=? i) eqn:E.
  - rewrite lookup_ge_None. lia.
  - split; [lia | done].
Qed.

Lemma aset_in l i x :
  0 <= i < zlen l → aset l i x = Some (<[Z.to_nat i := x]> l).
Proof.
  unfold aset, zlen. intros H.
  by rewrite (proj2 (Z.leb_le 0 i)), (proj2 (Z.ltb_lt i _)) by lia.
Qed.

Lemma aset_Some l i x l' :
  aset l i x = Some l' → 0 <= i < zlen l ∧ l' = <[Z.to_nat i := x]> l.
Proof.
  unfold aset, zlen. destruct (0 <=? i) eqn:E1; [| done].
  destruct (i <? _) eqn:E2; [| done]. simpl. intros [= <-]. split; [lia | done].
Qed.

Lemma zlen_insert l (n : nat) x : zlen (<[n := x]> l) = zlen l.
Proof. unfold zlen. by rewrite length_insert. Qed.

Lemma zlen_nonneg l : 0 <= zlen l.
Proof. unfold zlen. lia. Qed.

Lemma zlen_app l1 l2 : zlen (l1 ++ l2) = zlen l1 + zlen l2.
Proof. unfold zlen. rewrite length_app. lia. Qed.

Lemma zlen_cons x l : zlen (x :: l) = zlen l + 1.
Proof. unfold zlen. simpl. lia. Qed.

Lemma zlen_nil : zlen (@nil A) = 0.
Proof. done. Qed.

Lemma zlen_replicate n x : 0 <= n → zlen (replicate (Z.to_nat n) x) = n.
Proof. intros. unfold zlen. rewrite length_replicate. lia. Qed.

Lemma zlen_map {B} (f : A → B) l : zlen (map f l) = zlen l.
Proof. unfold zlen. by rewrite length_map. Qed.

(** [zmap f l] applies [f] to each index (as a C index) and element: the
    closed form of a loop over an array. *)
Definition zmap (f : Z → A → A) l : list A := imap (λ n, f (Z.of_nat n)) l.

Lemma zlen_zmap f l : zlen (zmap f l) = zlen l.
Proof. unfold zlen, zmap. by rewrite length_imap. Qed.

Lemma lookup_zmap f l (n : nat) : zmap f l !! n = f (Z.of_nat n) <$> l !! n.
Proof. unfold zmap. by rewrite list_lookup_imap. Qed.

Lemma aget_zmap f l i : aget (zmap f l) i = f i <$> aget l i.
Proof.
  unfold aget. destruct (0 <=? i) eqn:E; [| done].
  rewrite lookup_zmap. by rewrite Z2Nat.id by lia.
Qed.

Lemma zmap_ext f g l :
  (∀ i x, aget l i = Some x → f i x = g i x) → zmap f l = zmap g l.
Proof.
  intros H. apply list_eq. intros n. rewrite !lookup_zmap.
  destruct (l !! n) eqn:E; simpl; [| done]. f_equal. apply H. by rewrite aget_nat.
Qed.

Lemma zmap_id f l : (∀ i x, aget l i = Some x → f i x = x) → zmap f l = l.
Proof.
  intros H. apply list_eq. intros n. rewrite lookup_zmap.
  destruct (l !! n) eqn:E; simpl; [| done]. f_equal. apply H. by rewrite aget_nat.
Qed.

Lemma zmap_zmap f g l : zmap f (zmap g l) = zmap (λ i x, f i (g i x)) l.
Proof.
  apply list_eq. intros n. rewrite !lookup_zmap.
  by destruct (l !! n).
Qed.

(** Two arrays are equal when they agree at every C index. *)
Lemma aget_ext l l' : (∀ i, aget l i = aget l' i) → l = l'.
Proof. intros H. apply list_eq. intros n. by rewrite <- !aget_nat. Qed.

Lemma aget_insert l i j x :
  0 <= i < zlen l →
  aget (<[Z.to_nat i := x]> l) j = if decide (i = j) then Some x else aget l j.
Proof.
  unfold zlen. intros H. unfold aget. destruct (0 <=? j) eqn:E.
  - destruct (decide (i = j)) as [<-|Hne].
    + rewrite list_lookup_insert_eq by lia. done.
    + rewrite list_lookup_insert_ne by lia. done.
  - rewrite decide_False by lia. done.
Qed.

(** Closed form of [for (i = lo; i < hi; i++) l[i] = x]. *)
Definition fill (lo hi : Z) x l : list A :=
  zmap (λ i y, if (lo <=? i) && (i <? hi) then x else y) l.

Lemma zlen_fill lo hi x l : zlen (fill lo hi x l) = zlen l.
Proof. apply zlen_zmap. Qed.

Lemma aget_fill lo hi x l i :
  aget (fill lo hi x l) i =
  (λ y, if (lo <=? i) && (i <? hi) then x else y) <$> aget l i.
Proof. unfold fill. by rewrite aget_zmap. Qed.
End Arrays.

Create Rewrite HintDb zlen.
#[export] Hint Rewrite @zlen_insert @zlen_app @zlen_zmap @zlen_fill @zlen_map @zlen_nil @zlen_cons : zlen.

(** Case analysis on the boolean comparisons of a goal, then [lia]. *)
Ltac zbool :=
  repeat match goal with
  | |- context [?a <=? ?b] => destruct (Z.leb_spec a b)
  | |- context [?a <? ?b] => destruct (Z.ltb_spec a b)
  | |- context [?a =? ?b] => destruct (Z.eqb_spec a b)
  | H : context [?a <=? ?b] |- _ => destruct (Z.leb_spec a b)
  | H : context [?a <? ?b] |- _ => destruct (Z.ltb_spec a b)
  | H : context [?a =? ?b] |- _ => destruct (Z.eqb_spec a b)
  end; simpl in *; try lia; try done.

(** Linear arithmetic with division and remainder by constants. *)
Ltac euclid := Z.to_euclidean_division_equations; lia.

Section ArrayLoops.
Context {A : Type}.
Implicit Types (l : list A).

(** A loop that stores [g i v] at index [i], where [v] is what the array
    held at [i + c] before the loop.  Reading ahead ([0 <= c], upwards) sees
    the old contents, so the closed form reads the original array. *)
Lemma for_up_move (c : Z) (lo hi : Z) l :
  0 <= c → 0 <= lo → hi + c <= zlen l →
  for_up lo hi (λ i l', v ← aget l' (i + c); aset l' i v) l =
  Some (zmap (λ i y, if (lo <=? i) && (i <? hi)
                     then default y (aget l (i + c)) else y) l).
Proof.
  intros Hc Hlo Hhi. destruct (decide (lo <= hi)) as [Hle|Hgt].
  2: { rewrite for_up_nop by lia. f_equal. symmetry. apply zmap_id.
       intros i x _. zbool. }
  apply yields_eq.
  set (F := λ k, zmap (λ i y, if (lo <=? i) && (i <? k)
                     then default y (aget l (i + c)) else y) l).
  eapply yields_mono.
  - apply (for_up_inv (λ k l', l' = F k)); [done | |].
    + symmetry. apply zmap_id. intros i x _. zbool.
    + intros i ? Hi ->.
      destruct (aget_in l (i + c)) as [v Hv]; [lia |].
      assert (aget (F i) (i + c) = Some v) as ->.
      { unfold F. rewrite aget_zmap, Hv. simpl. f_equal. zbool. }
      simpl. rewrite aset_in by (unfold F; rewrite zlen_zmap; lia). simpl.
      apply aget_ext. intros j. rewrite aget_insert by (unfold F; rewrite zlen_zmap; lia).
      unfold F. rewrite !aget_zmap.
      destruct (decide (i = j)) as [<-|Hne].
      * destruct (aget_in l i) as [y ->]; [lia |]. simpl. rewrite Hv. simpl.
        f_equal. zbool.
      * destruct (aget l j); simpl; [| done]. f_equal. zbool.
  - intros l' ->. done.
Qed.

Lemma for_down_move (c : Z) (hi lo : Z) l :
  0 <= c → 0 <= lo - c → hi < zlen l →
  for_down hi lo (λ i l', v ← aget l' (i - c); aset l' i v) l =
  Some (zmap (λ i y, if (lo <=? i) && (i <=? hi)
                     then default y (aget l (i - c)) else y) l).
Proof.
  intros Hc Hlo Hhi. destruct (decide (lo - 1 <= hi)) as [Hle|Hgt].
  2: { rewrite for_down_nop by lia. f_equal. symmetry. apply zmap_id.
       intros i x _. zbool. }
  apply yields_eq.
  set (F := λ k, zmap (λ i y, if (k <? i) && (i <=? hi)
                     then default y (aget l (i - c)) else y) l).
  eapply yields_mono.
  - apply (for_down_inv (λ k l', l' = F k)); [done | |].
    + symmetry. apply zmap_id. intros i x _. zbool.
    + intros i ? Hi ->.
      destruct (aget_in l (i - c)) as [v Hv]; [lia |].
      assert (aget (F i) (i - c) = Some v) as ->.
      { unfold F. rewrite aget_zmap, Hv. simpl. f_equal. zbool. }
      simpl. rewrite aset_in by (unfold F; rewrite zlen_zmap; lia). simpl.
      apply aget_ext. intros j. rewrite aget_insert by (unfold F; rewrite zlen_zmap; lia).
      unfold F. rewrite !aget_zmap.
      destruct (decide (i = j)) as [<-|Hne].
      * destruct (aget_in l i) as [y ->]; [lia |]. simpl. rewrite Hv. simpl.
        f_equal. zbool.
      * destruct (aget l j); simpl; [| done]. f_equal. zbool.
  - intros l' ->. unfold F. apply zmap_ext. intros. zbool.
Qed.

(** [for (i = lo; i < hi; i++) l[i] = g(i, l[i])] *)
Lemma for_up_upd (g : Z → A → A) (lo hi : Z) l :
  0 <= lo → hi <= zlen l →
  for_up lo hi (λ i l', v ← aget l' i; aset l' i (g i v)) l =
  Some (zmap (λ i y, if (lo <=? i) && (i <? hi) then g i y else y) l).
Proof.
  intros Hlo Hhi. destruct (decide (lo <= hi)) as [Hle|Hgt].
  2: { rewrite for_up_nop by lia. f_equal. symmetry. apply zmap_id.
       intros i x _. zbool. }
  apply yields_eq.
  set (F := λ k, zmap (λ i y, if (lo <=? i) && (i <? k) then g i y else y) l).
  eapply yields_mono.
  - apply (for_up_inv (λ k l', l' = F k)); [done | |].
    + symmetry. apply zmap_id. intros i x _. zbool.
    + intros i ? Hi ->. destruct (aget_in l i) as [v Hv]; [lia |].
      assert (aget (F i) i = Some v) as ->.
      { unfold F. rewrite aget_zmap, Hv. simpl. f_equal. zbool. }
      simpl. rewrite aset_in by (unfold F; rewrite zlen_zmap; lia). simpl.
      apply aget_ext. intros j. rewrite aget_insert by (unfold F; rewrite zlen_zmap; lia).
      unfold F. rewrite !aget_zmap.
      destruct (decide (i = j)) as [<-|Hne].
      * rewrite Hv. simpl. f_equal. zbool.
      * destruct (aget l j); simpl; [| done]. f_equal. zbool.
  - intros l' ->. done.
Qed.

(** [for (i = lo; i < hi; i++) l[i] = x] *)
Lemma for_up_fill (x : A) (lo hi : Z) l :
  0 <= lo → hi <= zlen l →
  for_up lo hi (λ i l', aset l' i x) l = Some (fill lo hi x l).
Proof.
  intros Hlo Hhi. destruct (decide (lo <= hi)) as [Hle|Hgt].
  2: { rewrite for_up_nop by lia. f_equal. symmetry. apply zmap_id.
       intros i y _. zbool. }
  apply yields_eq.
  eapply yields_mono.
  - apply (for_up_inv (λ k l', l' = fill lo k x l)); [done | |].
    + symmetry. apply zmap_id. intros i y _. zbool.
    + intros i ? Hi ->. rewrite aset_in by (rewrite zlen_fill; lia). simpl.
      apply aget_ext. intros j. rewrite aget_insert by (rewrite zlen_fill; lia).
      rewrite !aget_fill. destruct (decide (i = j)) as [<-|Hne].
      * destruct (aget_in l i) as [y ->]; [lia |]. simpl. f_equal. zbool.
      * destruct (aget l j); simpl; [| done]. f_equal. zbool.
  - intros l' ->. done.
Qed.
End ArrayLoops.

(** ** Bits *)

Lemma forall_range (P : Z → bool) (n : Z) :
  forallb P (seqZ 0 n) = true → ∀ b, 0 <= b < n → P b = true.
Proof.
  rewrite forallb_forall. intros H b Hb. apply H.
  apply list_elem_of_In, elem_of_seqZ. lia.
Qed.

(** [a | b] is [a + b] when [a] only has bits above those of [b]. *)
Lemma lor_add (k n b : Z) :
  0 <= n → 0 <= b < 2 ^ n → Z.lor (k * 2 ^ n) b = k * 2 ^ n + b.
Proof.
  intros Hn Hb. rewrite Z.add_nocarry_lxor.
  - symmetry. apply Z.lxor_lor. apply Z.bits_inj'. intros i Hi.
    rewrite Z.land_spec, Z.bits_0.
    destruct (Z.ltb_spec i n).
    + rewrite Z.mul_pow2_bits_low by lia. done.
    + rewrite <- (Z.mod_small b (2 ^ n)), Z.mod_pow2_bits_high by lia.
      apply andb_false_r.
  - apply Z.bits_inj'. intros i Hi. rewrite Z.land_spec, Z.bits_0.
    destruct (Z.ltb_spec i n).
    + rewrite Z.mul_pow2_bits_low by lia. done.
    + rewrite <- (Z.mod_small b (2 ^ n)), Z.mod_pow2_bits_high by lia.
      apply andb_false_r.
Qed.

Lemma land_low (x n : Z) : 0 <= n → Z.land x (2 ^ n - 1) = x mod 2 ^ n.
Proof. intros. rewrite <- Z.land_ones by lia. by rewrite Z.ones_equiv, Z.sub_1_r. Qed.

(** Numbers of [n] bits are closed under the bit operations. *)
Lemma bits_range (n x : Z) : 0 <= n → (0 <= x < 2 ^ n ↔ Z.land x (Z.ones n) = x).
Proof.
  intros Hn. rewrite Z.land_ones by lia. split.
  - apply Z.mod_small.
  - intros <-. apply Z.mod_pos_bound. lia.
Qed.

Lemma lor_range (n a b : Z) : 0 <= n → 0 <= a < 2 ^ n → 0 <= b < 2 ^ n → 0 <= Z.lor a b < 2 ^ n.
Proof.
  intros Hn. rewrite !bits_range by lia. intros Ha Hb. by rewrite Z.land_lor_distr_l, Ha, Hb.
Qed.

Lemma ldiff_range (n a b : Z) : 0 <= n → 0 <= a < 2 ^ n → 0 <= Z.ldiff a b < 2 ^ n.
Proof.
  intros Hn. rewrite !bits_range by lia. intros Ha. rewrite <- Ha at 2.
  apply Z.bits_inj'. intros i Hi. rewrite !Z.land_spec, !Z.ldiff_spec, Z.land_spec.
  by destruct (Z.testbit a i), (Z.testbit b i), (Z.testbit (Z.ones n) i).
Qed.

Lemma u8_small z : 0 <= z < 256 → u8 z = z.
Proof. intros. unfold u8. by apply Z.mod_small. Qed.
Lemma u16_small z : 0 <= z < 65536 → u16 z = z.
Proof. intros. unfold u16. by apply Z.mod_small. Qed.
Lemma u32_small z : 0 <= z < 4294967296 → u32 z = z.
Proof. intros. unfold u32. by apply Z.mod_small. Qed.

Lemma u8_range z : 0 <= u8 z < 256.
Proof. unfold u8. apply Z.mod_pos_bound. lia. Qed.
Lemma u16_range z : 0 <= u16 z < 65536.
Proof. unfold u16. apply Z.mod_pos_bound. lia. Qed.
Lemma u32_range z : 0 <= u32 z < 4294967296.
Proof. unfold u32. apply Z.mod_pos_bound. lia. Qed.
Lemma i32_range z : - 2 ^ 31 <= i32 z <= INT_MAX.
Proof. unfold i32, INT_MAX. pose proof (Z.mod_pos_bound (z + 2 ^ 31) (2 ^ 32)). lia. Qed.
Lemma i32_small z : - 2 ^ 31 <= z <= INT_MAX → i32 z = z.
Proof. unfold i32, INT_MAX. intros. rewrite Z.mod_small by lia. lia. Qed.

#[export] Hint Resolve u8_range u16_range u32_range : lumi.

(** ** More array lemmas *)

Lemma aget_app {A} (l1 l2 : list A) i :
  0 <= i → aget (l1 ++ l2) i = if i <? zlen l1 then aget l1 i else aget l2 (i - zlen l1).
Proof.
  intros Hi. unfold zlen. rewrite !aget_lookup by lia.
  destruct (Z.ltb_spec i (Z.of_nat (length l1))).
  - apply lookup_app_l. lia.
  - rewrite aget_lookup by lia. rewrite lookup_app_r by lia. f_equal. lia.
Qed.

Lemma aget_drop {A} (l : list A) n i :
  0 <= n → 0 <= i → aget (drop (Z.to_nat n) l) i = aget l (n + i).
Proof.
  intros. rewrite !aget_lookup by lia. rewrite lookup_drop. f_equal. lia.
Qed.

Lemma aget_take {A} (l : list A) n i :
  aget (take (Z.to_nat n) l) i = if i <? n then aget l i else None.
Proof.
  unfold aget. destruct (Z.leb_spec 0 i); [| by case_match].
  destruct (Z.ltb_spec i n).
  - apply lookup_take_lt. lia.
  - apply lookup_take_ge. lia.
Qed.

Lemma aget_map {A B} (f : A → B) l i : aget (map f l) i = f <$> aget l i.
Proof. unfold aget. case_match; [apply list_lookup_fmap | done]. Qed.

Lemma aget_replicate {A} (x : A) n i :
  aget (replicate (Z.to_nat n) x) i = if (0 <=? i) && (i <? n) then Some x else None.
Proof.
  unfold aget. destruct (Z.leb_spec 0 i); simpl; [| done].
  destruct (Z.ltb_spec i n).
  - apply lookup_replicate_2. lia.
  - apply lookup_ge_None. rewrite length_replicate. lia.
Qed.

Lemma Forall_aget {A} (P : A → Prop) l :
  Forall P l ↔ ∀ i x, aget l i = Some x → P x.
Proof.
  rewrite Forall_lookup. split; intros H i x Hx.
  - pose proof (aget_Some _ _ _ Hx). rewrite aget_lookup in Hx by lia. eauto.
  - apply (H (Z.of_nat i)). by rewrite aget_nat.
Qed.

Lemma zlen_drop {A} (l : list A) n :
  0 <= n <= zlen l → zlen (drop (Z.to_nat n) l) = zlen l - n.
Proof. unfold zlen. intros. rewrite length_drop. lia. Qed.

Lemma zlen_take {A} (l : list A) n :
  0 <= n <= zlen l → zlen (take (Z.to_nat n) l) = n.
Proof. unfold zlen. intros. rewrite length_take. lia. Qed.

Lemma aget_cons_pos {A} (x : A) l i : 0 < i → aget (x :: l) i = aget l (i - 1).
Proof.
  intros Hi. rewrite !aget_lookup by lia. replace (Z.to_nat i) with (S (Z.to_nat (i - 1))) by lia. done.
Qed.

(** ** Grids kept as flat arrays *)

Lemma cell_index {R C} row col : 0 <= row < R → 0 <= col < C → 0 <= row * C + col < R * C.
Proof. nia. Qed.

Lemma cell_index_inj {C} row col row' col' :
  0 <= col < C → 0 <= col' < C → row * C + col = row' * C + col' → row = row' ∧ col = col'.
Proof. intros. assert (row = row') by nia. nia. Qed.

Lemma row_index {R C} i : 0 < C → 0 <= i < R * C → ∃ row col, 0 <= row < R ∧ 0 <= col < C ∧ i = row * C + col.
Proof.
  intros HC0 Hi. exists (i / C), (i mod C).
  pose proof (Z.mod_pos_bound i C ltac:(lia)). pose proof (Z.div_mod i C ltac:(lia)).
  split; [| lia]. split; [apply Z.div_pos; lia | apply Z.div_lt_upper_bound; lia].
Qed.

(** [paints R C s f]: the array [s] holds [f row col] at each cell of the grid. *)
Definition paints {A} (R C : Z) (s : list A) (f : Z → Z → A) : Prop :=
  zlen s = R * C ∧ ∀ row col, 0 <= row < R → 0 <= col < C → aget s (row * C + col) = Some (f row col).

Section Paints.
Context {A : Type} {R C : Z}.
Implicit Types (s : list A) (f g : Z → Z → A).

Lemma paints_ext s f g :
  paints R C s f → (∀ row col, 0 <= row < R → 0 <= col < C → f row col = g row col) → paints R C s g.
Proof. intros [Hz H] Hfg. split; [done |]. intros row col Hr Hc. by rewrite H, Hfg. Qed.

Lemma paints_set s f row col x :
  paints R C s f → 0 <= row < R → 0 <= col < C →
  yields (aset s (row * C + col) x)
    (λ s', paints R C s' (λ i k, if (i =? row) && (k =? col) then x else f i k)).
Proof.
  intros [Hz H] Hr Hc. pose proof (cell_index row col Hr Hc).
  rewrite aset_in by lia. cbn [yields]. split; [by rewrite zlen_insert |].
  intros i k Hi Hk. pose proof (cell_index i k Hi Hk). rewrite aget_insert by lia.
  destruct (Z.eqb_spec i row) as [->|Hne]; cbn [andb].
  - destruct (Z.eqb_spec k col) as [->|]; [by rewrite decide_True by lia |].
    rewrite decide_False by lia. by apply H.
  - rewrite decide_False; [by apply H |]. intros E. by destruct (cell_index_inj row col i k Hc Hk E).
Qed.

Lemma paints_exists s (x : A) : zlen s = R * C → ∃ f, paints R C s f.
Proof.
  intros Hz. exists (λ row col, default x (aget s (row * C + col))). split; [done |]. intros row col Hr Hc.
  pose proof (cell_index row col Hr Hc). by destruct (aget_in s (row * C + col)) as [y ->]; [lia |].
Qed.

Lemma paints_eq s s' f : 0 < C → paints R C s f → paints R C s' f → s = s'.
Proof.
  intros HC [Hz H] [Hz' H']. apply aget_ext. intros i. destruct (decide (0 <= i < R * C)) as [Hi|Hi].
  - destruct (row_index i HC Hi) as (row & col & Hr & Hc & ->). by rewrite H, H'.
  - rewrite (proj2 (aget_None s i)), (proj2 (aget_None s' i)) by lia. done.
Qed.
End Paints.
