(* ===== verification/Utf8.v ===== *)
(** * UTF-8 encoding and decoding (src/libutf8/utf8.c, utf8.h)

    The decoder, the encoder, the length function and the truncation routine,
    and what they promise each other: decoding inverts encoding, an accepted
    sequence is the one canonical encoding, no byte past [len] is read, and
    truncation keeps the longest clean prefix. *)

From S2P Require Import Prelude.

Definition UTF8_RUNE_ERROR : Z := 0xFFFD.
Definition UTF8_RUNE_MAX : Z := 0x10FFFF.

(** ** Definitions *)

(** The continuation loop of [utf8_decode]: [n] bytes from index [i].  The
    inner [None] is the early [return 1] on a byte that is not 10xxxxxx. *)
Fixpoint utf8_cont (s : list Z) (n : nat) (i v : Z) : option (option Z) :=
  match n with
  | O => Some (Some v)
  | S n' =>
      c ← aget s i;
      if Z.land c 0xC0 =? 0x80
      then utf8_cont s n' (i + 1) (Z.lor (Z.shiftl v 6) (Z.land c 0x3F))
      else Some None
  end.

(** The bits and the sequence length a lead byte announces. *)
Definition utf8_lead (s0 : Z) : option (Z * Z) :=
  if Z.land s0 0xE0 =? 0xC0 then Some (Z.land s0 0x1F, 2)
  else if Z.land s0 0xF0 =? 0xE0 then Some (Z.land s0 0x0F, 3)
  else if Z.land s0 0xF8 =? 0xF0 then Some (Z.land s0 0x07, 4)
  else None.

(** The overlong, surrogate and range checks. *)
Definition utf8_bad (need v : Z) : bool :=
  ((need =? 2) && (v <? 0x80)) || ((need =? 3) && (v <? 0x800)) ||
  ((need =? 4) && (v <? 0x10000)) ||
  ((0xD800 <=? v) && (v <=? 0xDFFF)) || (UTF8_RUNE_MAX <? v).

(** [utf8_decode(&rune, s, len)]: the rune stored and the value returned. *)
Definition utf8_decode (s : list Z) (len : Z) : option (Z * Z) :=
  if len =? 0 then Some (UTF8_RUNE_ERROR, 0) else
  s0 ← aget s 0;
  if s0 <? 0x80 then Some (s0, 1) else
  match utf8_lead s0 with
  | None => Some (UTF8_RUNE_ERROR, 1)
  | Some (v, need) =>
      if len <? need then Some (UTF8_RUNE_ERROR, 1) else
      r ← utf8_cont s (Z.to_nat (need - 1)) 1 v;
      match r with
      | None => Some (UTF8_RUNE_ERROR, 1)
      | Some v =>
          if utf8_bad need v then Some (UTF8_RUNE_ERROR, 1)
          else Some (v, need)
      end
  end.

(** [utf8_encode(buf, rune)]: the bytes written; the value returned is their
    number, so [[]] is the [return 0] for an invalid codepoint. *)
Definition utf8_encode (rune : Z) : list Z :=
  if rune <=? 0x7F then [u8 rune]
  else if rune <=? 0x7FF then
    [u8 (Z.lor 0xC0 (Z.shiftr rune 6)); u8 (Z.lor 0x80 (Z.land rune 0x3F))]
  else if rune <=? 0xFFFF then
    if (0xD800 <=? rune) && (rune <=? 0xDFFF) then []
    else [u8 (Z.lor 0xE0 (Z.shiftr rune 12));
          u8 (Z.lor 0x80 (Z.land (Z.shiftr rune 6) 0x3F));
          u8 (Z.lor 0x80 (Z.land rune 0x3F))]
  else if rune <=? UTF8_RUNE_MAX then
    [u8 (Z.lor 0xF0 (Z.shiftr rune 18));
     u8 (Z.lor 0x80 (Z.land (Z.shiftr rune 12) 0x3F));
     u8 (Z.lor 0x80 (Z.land (Z.shiftr rune 6) 0x3F));
     u8 (Z.lor 0x80 (Z.land rune 0x3F))]
  else [].

Definition utf8_runelen (rune : Z) : Z :=
  if rune <=? 0x7F then 1
  else if rune <=? 0x7FF then 2
  else if rune <=? 0xFFFF then
    if (0xD800 <=? rune) && (rune <=? 0xDFFF) then 0 else 3
  else if rune <=? UTF8_RUNE_MAX then 4 else 0.

(** The loop of [utf8_trunc], [maxbytes] already reduced by one.  Every turn
    advances [safe], so [maxbytes] turns are enough fuel; running out of fuel
    would be a trap. *)
Fixpoint utf8_trunc_loop (fuel : nat) (s : list Z) (maxbytes safe : Z) : option Z :=
  if safe <? maxbytes then
    c ← aget s safe;
    if c =? 0 then Some safe else
    '(cp, n) ← utf8_decode (drop (Z.to_nat safe) s) (maxbytes - safe);
    if (n <=? 0) || (cp =? UTF8_RUNE_ERROR) then Some safe else
    match fuel with
    | O => None
    | S fuel' => utf8_trunc_loop fuel' s maxbytes (safe + n)
    end
  else Some safe.

Definition utf8_trunc (s : list Z) (maxbytes : Z) : option Z :=
  if maxbytes =? 0 then Some 0
  else utf8_trunc_loop (Z.to_nat maxbytes) s (maxbytes - 1) 0.

(** A Unicode scalar value: what UTF-8 can carry. *)
Definition valid_rune (r : Z) : Prop :=
  0 <= r <= UTF8_RUNE_MAX ∧ ¬ (0xD800 <= r <= 0xDFFF).

Definition encode_all (rs : list Z) : list Z := concat (map utf8_encode rs).

(** ** Arithmetic readings of the bit operations *)

Lemma lead_byte_arith s0 :
  0 <= s0 < 256 → 0x80 <= s0 →
  utf8_lead s0 =
    if s0 <? 0xC0 then None
    else if s0 <? 0xE0 then Some (s0 - 0xC0, 2)
    else if s0 <? 0xF0 then Some (s0 - 0xE0, 3)
    else if s0 <? 0xF8 then Some (s0 - 0xF0, 4)
    else None.
Proof.
  intros Hb Hge.
  set (rhs := if s0 <? 0xC0 then _ else _).
  enough (bool_decide (utf8_lead s0 = rhs) || (s0 <? 0x80) = true) as H.
  { apply orb_true_iff in H as [H|H]; [by apply bool_decide_eq_true in H | lia]. }
  subst rhs. clear Hge. revert s0 Hb.
  apply (forall_range (λ s0, bool_decide (utf8_lead s0 = _) || (s0 <? 0x80))).
  vm_compute. reflexivity.
Qed.

Lemma cont_byte_arith c :
  0 <= c < 256 →
  (Z.land c 0xC0 =? 0x80) = (0x80 <=? c) && (c <? 0xC0) ∧ Z.land c 0x3F = c mod 64.
Proof.
  intros Hb. split; [| apply (land_low c 6); lia].
  apply Bool.eqb_prop. revert c Hb.
  apply (forall_range (λ c, Bool.eqb (Z.land c 0xC0 =? 0x80) ((0x80 <=? c) && (c <? 0xC0)))).
  vm_compute. reflexivity.
Qed.

Lemma cont_shift v c :
  0 <= v → 0 <= c < 64 → Z.lor (Z.shiftl v 6) c = v * 64 + c.
Proof.
  intros. rewrite Z.shiftl_mul_pow2 by lia. apply lor_add; lia.
Qed.

Lemma utf8_encode_arith r :
  valid_rune r →
  utf8_encode r =
    if r <=? 0x7F then [r]
    else if r <=? 0x7FF then [0xC0 + r / 64; 0x80 + r mod 64]
    else if r <=? 0xFFFF then
      [0xE0 + r / 4096; 0x80 + (r / 64) mod 64; 0x80 + r mod 64]
    else [0xF0 + r / 262144; 0x80 + (r / 4096) mod 64;
          0x80 + (r / 64) mod 64; 0x80 + r mod 64].
Proof.
  unfold valid_rune, utf8_encode, UTF8_RUNE_MAX. intros [Hr Hs].
  assert (∀ x, Z.land x 0x3F = x mod 64) as L by (intros; apply (land_low _ 6); lia).
  assert (∀ x, u8 (Z.lor 0x80 (x mod 64)) = 0x80 + x mod 64) as C.
  { intros x. pose proof (Z.mod_pos_bound x 64 ltac:(lia)).
    rewrite (lor_add 2 6) by lia. apply u8_small. lia. }
  rewrite !L, !C, !Z.shiftr_div_pow2 by lia.
  change (2 ^ 6) with 64. change (2 ^ 12) with 4096. change (2 ^ 18) with 262144.
  destruct (Z.leb_spec r 0x7F); [by rewrite u8_small by lia |].
  destruct (Z.leb_spec r 0x7FF).
  { pose proof (Z.div_lt_upper_bound r 64 32). pose proof (Z.div_pos r 64).
    rewrite (lor_add 6 5), u8_small by lia. done. }
  destruct (Z.leb_spec r 0xFFFF).
  { replace ((0xD800 <=? r) && (r <=? 0xDFFF)) with false by (symmetry; zbool).
    pose proof (Z.div_lt_upper_bound r 4096 16). pose proof (Z.div_pos r 4096).
    rewrite (lor_add 14 4), u8_small by lia. done. }
  destruct (Z.leb_spec r 0x10FFFF); [| lia].
  pose proof (Z.div_lt_upper_bound r 262144 5). pose proof (Z.div_pos r 262144).
  rewrite (lor_add 30 3), u8_small by lia. done.
Qed.

(** ** Decoding inverts encoding *)

Lemma utf8_encode_length r : zlen (utf8_encode r) = utf8_runelen r.
Proof. unfold utf8_encode, utf8_runelen. repeat case_match; done. Qed.

Lemma utf8_encode_bytes r : Forall is_byte (utf8_encode r).
Proof.
  unfold utf8_encode. repeat case_match; repeat constructor; apply u8_range.
Qed.

Lemma utf8_encode_first r :
  valid_rune r → ∃ b bs, utf8_encode r = b :: bs ∧
    (r < 0x80 → b = r ∧ bs = []) ∧ (0x80 <= r → 0xC0 <= b < 0xF8).
Proof.
  intros Hv. rewrite utf8_encode_arith by done. destruct Hv as [Hr _].
  unfold UTF8_RUNE_MAX in Hr.
  destruct (Z.leb_spec r 0x7F); [eexists _, _; split; [done | split; [done | lia]] |].
  destruct (Z.leb_spec r 0x7FF); [| destruct (Z.leb_spec r 0xFFFF)];
    (eexists _, _; split; [done |]; split; [lia | intros _]).
  - pose proof (Z.div_lt_upper_bound r 64 32). pose proof (Z.div_pos r 64). lia.
  - pose proof (Z.div_lt_upper_bound r 4096 16). pose proof (Z.div_pos r 4096). lia.
  - pose proof (Z.div_lt_upper_bound r 262144 5). pose proof (Z.div_pos r 262144). lia.
Qed.

Lemma utf8_encode_nonempty r : valid_rune r → 1 <= zlen (utf8_encode r) <= 4.
Proof.
  rewrite utf8_encode_length. unfold valid_rune, utf8_runelen, UTF8_RUNE_MAX. zbool.
Qed.

Lemma utf8_cont_step s n i v c :
  aget s i = Some (0x80 + c) → 0 <= c < 64 → 0 <= v →
  utf8_cont s (S n) i v = utf8_cont s n (i + 1) (v * 64 + c).
Proof.
  intros Hg Hc Hv. simpl. rewrite Hg. simpl.
  destruct (cont_byte_arith (0x80 + c) ltac:(lia)) as [E1 E2].
  rewrite E1, E2. replace ((128 <=? 128 + c) && (128 + c <? 192)) with true by (symmetry; zbool).
  replace ((128 + c) mod 64) with c.
  - by rewrite cont_shift.
  - replace (128 + c) with (c + 2 * 64) by lia. rewrite Z_mod_plus_full.
    symmetry. by apply Z.mod_small.
Qed.

(** One multi-byte decode, once the lead byte and the payload are known. *)
Lemma utf8_decode_multi s len s0 v n w :
  aget s 0 = Some s0 → 0x80 <= s0 → Z.of_nat (S n) <= len →
  utf8_lead s0 = Some (v, Z.of_nat (S n)) →
  utf8_cont s n 1 v = Some (Some w) →
  utf8_bad (Z.of_nat (S n)) w = false →
  utf8_decode s len = Some (w, Z.of_nat (S n)).
Proof.
  intros H0 Hge Hlen Hlead Hcont Hbad. unfold utf8_decode.
  destruct (Z.eqb_spec len 0); [lia |]. rewrite H0. cbn [mbind option_bind].
  destruct (Z.ltb_spec s0 128); [lia |]. rewrite Hlead.
  destruct (Z.ltb_spec len (Z.of_nat (S n))); [lia |].
  replace (Z.to_nat (Z.of_nat (S n) - 1)) with n by lia.
  rewrite Hcont. cbn [mbind option_bind]. by rewrite Hbad.
Qed.

Lemma utf8_decode_encode r rest len :
  valid_rune r → zlen (utf8_encode r) <= len →
  utf8_decode (utf8_encode r ++ rest) len = Some (r, zlen (utf8_encode r)).
Proof.
  intros Hv Hlen. rewrite utf8_encode_length in *. rewrite utf8_encode_arith by done.
  unfold utf8_runelen, valid_rune, UTF8_RUNE_MAX in *. destruct Hv as [Hr Hs].
  pose proof (Z.mod_pos_bound r 64 ltac:(lia)).
  pose proof (Z.mod_pos_bound (r / 64) 64 ltac:(lia)).
  pose proof (Z.mod_pos_bound (r / 4096) 64 ltac:(lia)).
  pose proof (Z.div_mod r 64 ltac:(lia)).
  pose proof (Z.div_mod (r / 64) 64 ltac:(lia)) as D2.
  pose proof (Z.div_mod (r / 4096) 64 ltac:(lia)) as D3.
  rewrite Z.div_div in D2, D3 by lia. change (64 * 64) with 4096 in *.
  change (4096 * 64) with 262144 in *.
  destruct (Z.leb_spec r 0x7F).
  { unfold utf8_decode. destruct (Z.eqb_spec len 0); [lia |]. simpl.
    destruct (Z.ltb_spec r 128); [done | lia]. }
  destruct (Z.leb_spec r 0x7FF); [| destruct (Z.leb_spec r 0xFFFF)].
  - apply (utf8_decode_multi _ _ (192 + r / 64) (r / 64) 1); [done | lia | lia | | |].
    + rewrite lead_byte_arith by lia. zbool. repeat f_equal. lia.
    + rewrite (utf8_cont_step _ _ _ _ (r mod 64)) by (done || lia).
      simpl. repeat f_equal. lia.
    + unfold utf8_bad, UTF8_RUNE_MAX. zbool.
  - replace ((55296 <=? r) && (r <=? 57343)) with false in * by (symmetry; zbool).
    apply (utf8_decode_multi _ _ (224 + r / 4096) (r / 4096) 2); [done | lia | lia | | |].
    + rewrite lead_byte_arith by lia. zbool. repeat f_equal. lia.
    + rewrite (utf8_cont_step _ _ _ _ ((r / 64) mod 64)) by (done || lia).
      rewrite (utf8_cont_step _ _ _ _ (r mod 64)) by (done || lia).
      simpl. repeat f_equal. lia.
    + unfold utf8_bad, UTF8_RUNE_MAX. zbool.
  - replace (r <=? 1114111) with true in * by (symmetry; zbool).
    apply (utf8_decode_multi _ _ (240 + r / 262144) (r / 262144) 3); [done | lia | lia | | |].
    + rewrite lead_byte_arith by lia. zbool. repeat f_equal. lia.
    + rewrite (utf8_cont_step _ _ _ _ ((r / 4096) mod 64)) by (done || lia).
      rewrite (utf8_cont_step _ _ _ _ ((r / 64) mod 64)) by (done || lia).
      rewrite (utf8_cont_step _ _ _ _ (r mod 64)) by (done || lia).
      simpl. repeat f_equal. lia.
    + unfold utf8_bad, UTF8_RUNE_MAX. zbool.
Qed.

(** ** The decoder is safe, and what it accepts is canonical *)

Lemma utf8_cont_inv s n i v :
  Forall is_byte s → 0 <= i → i + Z.of_nat n <= zlen s → 0 <= v →
  yields (utf8_cont s n i v) (λ o, ∀ w, o = Some w →
    ∃ cs, length cs = n ∧ Forall (λ c, 0 <= c < 64) cs ∧
          take n (drop (Z.to_nat i) s) = map (Z.add 0x80) cs ∧
          w = foldl (λ v c, v * 64 + c) v cs).
Proof.
  intros Hs. revert i v; induction n as [|n IH]; intros i v Hi Hn Hv.
  { intros w [= <-]. by exists []. }
  destruct (aget_in s i) as [b Hb]; [lia |].
  rewrite aget_lookup in Hb by lia.
  assert (is_byte b) as Hbyte by (by eapply Forall_lookup_1).
  destruct (cont_byte_arith b Hbyte) as [E1 E2].
  cbn [utf8_cont]. rewrite aget_lookup, Hb by lia. cbn [mbind option_bind]. rewrite E1, E2.
  destruct (Z.leb_spec 128 b); [| done]. destruct (Z.ltb_spec b 192); [| done]. cbn [andb].
  assert (b mod 64 = b - 128) as -> by (Z.to_euclidean_division_equations; lia).
  rewrite cont_shift by lia.
  eapply yields_mono; [apply (IH (i + 1)); lia |].
  intros o Ho w Hw. destruct (Ho w Hw) as (cs & Hl & Hc & Ht & ->).
  exists ((b - 128) :: cs). simpl. split_and!; [congruence | constructor; [lia | done] | | done].
  rewrite (drop_S _ _ _ Hb). simpl.
  replace (Z.to_nat (i + 1)) with (S (Z.to_nat i)) in Ht by lia. rewrite Ht.
  f_equal. lia.
Qed.

(** What a decode of [len] bytes at [s] may answer. *)
Definition decode_ok (s : list Z) (len : Z) (rn : Z * Z) : Prop :=
  let '(r, n) := rn in
  (len = 0 ∧ r = UTF8_RUNE_ERROR ∧ n = 0) ∨
  (1 <= len ∧ r = UTF8_RUNE_ERROR ∧ n = 1) ∨
  (1 <= n <= len ∧ valid_rune r ∧ take (Z.to_nat n) s = utf8_encode r).

Lemma utf8_bad_false need w :
  utf8_bad need w = false → 0 <= w →
  valid_rune w ∧ (need = 2 → 0x80 <= w) ∧ (need = 3 → 0x800 <= w) ∧
  (need = 4 → 0x10000 <= w).
Proof. unfold utf8_bad, valid_rune, UTF8_RUNE_MAX. intros. zbool. Qed.

Lemma encode2 a b :
  0 <= a -> 0 <= b < 64 -> 0x80 <= a * 64 + b <= 0x7FF → utf8_encode (a * 64 + b) = [0xC0 + a; 0x80 + b].
Proof.
  intros. rewrite utf8_encode_arith by (unfold valid_rune, UTF8_RUNE_MAX; lia). zbool.
  repeat f_equal; euclid.
Qed.

Lemma encode3 a b c :
  0 <= a -> 0 <= b < 64 -> 0 <= c < 64 ->
  0x800 <= (a * 64 + b) * 64 + c <= 0xFFFF → valid_rune ((a * 64 + b) * 64 + c) →
  utf8_encode ((a * 64 + b) * 64 + c) = [0xE0 + a; 0x80 + b; 0x80 + c].
Proof.
  intros. rewrite utf8_encode_arith by done. zbool.
  repeat f_equal; euclid.
Qed.

Lemma encode4 a b c d :
  0 <= a -> 0 <= b < 64 -> 0 <= c < 64 -> 0 <= d < 64 ->
  0x10000 <= ((a * 64 + b) * 64 + c) * 64 + d → valid_rune (((a * 64 + b) * 64 + c) * 64 + d) →
  utf8_encode (((a * 64 + b) * 64 + c) * 64 + d) = [0xF0 + a; 0x80 + b; 0x80 + c; 0x80 + d].
Proof.
  intros. rewrite utf8_encode_arith by done. zbool.
  repeat f_equal; euclid.
Qed.

(** The encoding of [foldl] over a lead payload and its continuations. *)
Lemma encode_foldl s0 cs v need :
  Forall (λ c, 0 <= c < 64) cs → 0x80 <= s0 < 256 →
  utf8_lead s0 = Some (v, need) → need = zlen cs + 1 →
  utf8_bad need (foldl (λ v c, v * 64 + c) v cs) = false →
  let w := foldl (λ v c, v * 64 + c) v cs in
  valid_rune w ∧ utf8_encode w = s0 :: map (Z.add 0x80) cs.
Proof.
  intros Hcs Hs0 Hlead Hneed Hbad. rewrite lead_byte_arith in Hlead by lia.
  unfold zlen in Hneed.
  destruct (Z.ltb_spec s0 192); [done |].
  destruct (Z.ltb_spec s0 224); [| destruct (Z.ltb_spec s0 240);
    [| destruct (Z.ltb_spec s0 248); [| done]]]; injection Hlead as <- <-;
    destruct cs as [|c1 [|c2 [|c3 [|]]]]; simpl in Hneed; try lia;
    repeat match goal with
    | H : Forall _ (_ :: _) |- _ => apply Forall_cons in H as [? ?]
    end; simpl in *;
    (apply utf8_bad_false in Hbad as (Hv & P2 & P3 & P4); [| lia]); (split; [done |]).
  - rewrite encode2 by (unfold valid_rune in Hv; lia). repeat f_equal. lia.
  - rewrite encode3 by (done || lia). repeat f_equal. lia.
  - rewrite encode4 by (done || lia). repeat f_equal. lia.
Qed.

Lemma lead_range s0 v need :
  0x80 <= s0 < 256 → utf8_lead s0 = Some (v, need) → 2 <= need <= 4 ∧ 0 <= v.
Proof. intros Hs0. rewrite lead_byte_arith by lia. repeat case_match; intros; simplify_eq; lia. Qed.

Lemma utf8_decode_sound s len :
  Forall is_byte s → 0 <= len <= zlen s → yields (utf8_decode s len) (decode_ok s len).
Proof.
  intros Hs Hlen. unfold utf8_decode.
  destruct (Z.eqb_spec len 0) as [->|Hne]; [by left |].
  destruct s as [|s0 s]; [unfold zlen in Hlen; simpl in Hlen; lia |].
  pose proof (Forall_inv Hs) as Hb. unfold is_byte in Hb.
  assert (decode_ok (s0 :: s) len (UTF8_RUNE_ERROR, 1)) as Herr by (right; left; lia).
  simpl. destruct (Z.ltb_spec s0 128).
  { assert (valid_rune s0) as Hv by (unfold valid_rune, UTF8_RUNE_MAX; lia).
    right; right. split; [lia |]. split; [done |]. rewrite utf8_encode_arith by done. zbool. }
  destruct (utf8_lead s0) as [[v need]|] eqn:Hlead; [| done].
  destruct (lead_range s0 v need) as [Hn Hv]; [lia | done |].
  destruct (Z.ltb_spec len need); [done |].
  eapply yields_seq; [apply utf8_cont_inv; [done | lia | lia | done] |].
  intros [w|] Hw; [| done]. destruct (Hw w eq_refl) as (cs & Hl & Hcs & Ht & ->).
  destruct (utf8_bad need _) eqn:Hbad; [done |].
  destruct (encode_foldl s0 cs v need) as [Hval Henc]; [done | lia | done | unfold zlen; lia | done |].
  right; right. split; [lia |]. split; [done |]. rewrite Henc.
  replace (Z.to_nat need) with (S (Z.to_nat (need - 1))) by lia. simpl. by rewrite <- Ht.
Qed.

(** ** Truncation *)

(** A rune that ordinary text holds: not NUL, and not U+FFFD, which the loop
    cannot tell from a decoding error. *)
Definition text_rune (r : Z) : Prop := valid_rune r ∧ r ≠ 0 ∧ r ≠ UTF8_RUNE_ERROR.

(** Why truncation stops at [n]: no room, the terminator, or no text rune
    that fits starts there. *)
Definition trunc_stop (s : list Z) (maxb n : Z) : Prop :=
  n = maxb ∨ aget s n = Some 0 ∨
  ∀ r, text_rune r → ¬ utf8_encode r `prefix_of` take (Z.to_nat (maxb - n)) (drop (Z.to_nat n) s).

Lemma encode_all_app rs1 rs2 : encode_all (rs1 ++ rs2) = encode_all rs1 ++ encode_all rs2.
Proof. unfold encode_all. by rewrite map_app, concat_app. Qed.

Lemma no_text_rune s m n :
  0 <= n <= m → m <= zlen s → ∀ cp k, utf8_decode (drop (Z.to_nat n) s) (m - n) = Some (cp, k) →
  (k <=? 0) || (cp =? UTF8_RUNE_ERROR) = true → trunc_stop s m n.
Proof.
  intros Hn Hm cp k Hd Hstop. right; right. intros r (Hv & _ & Hne) [rest Hp].
  pose proof (utf8_encode_nonempty r Hv) as Hlen.
  assert (zlen (utf8_encode r) <= m - n) as Hfit.
  { apply (f_equal zlen) in Hp. rewrite zlen_app in Hp.
    pose proof (zlen_nonneg rest). unfold zlen in *. rewrite length_take, length_drop in Hp. lia. }
  assert (drop (Z.to_nat n) s = utf8_encode r ++ rest ++ drop (Z.to_nat (m - n)) (drop (Z.to_nat n) s))
    as E by (by rewrite app_assoc, <- Hp, take_drop).
  rewrite E, utf8_decode_encode in Hd by done.
  injection Hd as <- <-. apply orb_true_iff in Hstop as [?|?]; lia.
Qed.

Lemma drop_drop_Z {A} (s : list A) i n :
  0 <= i → 0 <= n → drop (Z.to_nat n) (drop (Z.to_nat i) s) = drop (Z.to_nat (i + n)) s.
Proof. intros. rewrite drop_drop. f_equal. lia. Qed.

Lemma utf8_trunc_loop_spec fuel s m safe :
  Forall is_byte s → 0 <= safe <= m → m <= zlen s → m - safe <= Z.of_nat fuel →
  yields (utf8_trunc_loop fuel s m safe) (λ n,
    safe <= n <= m ∧ trunc_stop s m n ∧
    ∃ rs, Forall text_rune rs ∧
          take (Z.to_nat (n - safe)) (drop (Z.to_nat safe) s) = encode_all rs).
Proof.
  intros Hs. revert safe; induction fuel as [|fuel IH]; intros safe Hsafe Hm Hfuel;
    cbn [utf8_trunc_loop]; destruct (Z.ltb_spec safe m); simpl;
    try lia; try (simpl; split_and!; [lia | lia | left; lia | exists []; by rewrite Z.sub_diag]).
  destruct (aget_in s safe) as [c Hc]; [lia |]. rewrite Hc. simpl.
  assert (trunc_stop s m safe → yields (Some safe) (λ n, safe <= n <= m ∧ trunc_stop s m n ∧
    ∃ rs, Forall text_rune rs ∧ take (Z.to_nat (n - safe)) (drop (Z.to_nat safe) s) = encode_all rs))
    as Hret by (intros; simpl; split_and!; [lia | lia | done | exists []; by rewrite Z.sub_diag]).
  destruct (Z.eqb_spec c 0) as [->|Hc0]; [apply Hret; by right; left |].
  pose proof (utf8_decode_sound (drop (Z.to_nat safe) s) (m - safe)) as Hsound.
  destruct (utf8_decode _ _) as [[cp n]|] eqn:Hd.
  2: { destruct Hsound; [by apply Forall_drop | unfold zlen in *; rewrite length_drop; lia]. }
  cbn [mbind option_bind].
  destruct ((n <=? 0) || (cp =? UTF8_RUNE_ERROR)) eqn:Hst.
  { apply Hret. eapply no_text_rune; [lia | done | exact Hd | done]. }
  apply orb_false_iff in Hst as [Hn0 Hne].
  destruct Hsound as [?|[?|(Hn & Hv & Ht)]]; [by apply Forall_drop | unfold zlen in *;
    rewrite length_drop; lia | lia | lia |].
  eapply yields_mono; [apply IH; lia |].
  intros k (Hk & Hstop & rs & Hrs & Htake). split_and!; [lia | lia | done |].
  exists (cp :: rs). split.
  - constructor; [| done]. split; [done |]. split; [| lia]. intros ->.
    destruct (utf8_encode_first 0 Hv) as (b & bs & Hb & Hsmall & _).
    destruct Hsmall as [-> _]; [lia |]. rewrite Hb in Ht.
    rewrite aget_lookup in Hc by lia. rewrite (drop_S _ _ _ Hc) in Ht.
    replace (Z.to_nat n) with (S (Z.to_nat (n - 1))) in Ht by lia. simpl in Ht. congruence.
  - unfold encode_all in *. simpl. rewrite <- Ht, <- Htake.
    replace (Z.to_nat (k - safe)) with (Z.to_nat n + Z.to_nat (k - (safe + n)))%nat by lia.
    rewrite <- drop_drop_Z by lia. by rewrite take_take_drop.
Qed.

(** The loop steps over text runes one by one. *)
Lemma utf8_trunc_loop_skip fuel rs pre rest m :
  Forall text_rune rs → zlen pre + zlen (encode_all rs) <= m →
  utf8_trunc_loop (length rs + fuel) (pre ++ encode_all rs ++ rest) m (zlen pre)
  = utf8_trunc_loop fuel (pre ++ encode_all rs ++ rest) m (zlen pre + zlen (encode_all rs)).
Proof.
  revert pre; induction rs as [|r rs IH]; intros pre Hrs Hm.
  { unfold encode_all; simpl. by rewrite Z.add_0_r. }
  apply Forall_cons in Hrs as [(Hv & H0 & Hne) Hrs].
  pose proof (utf8_encode_nonempty r Hv) as Hlen.
  unfold encode_all in *. cbn [map concat] in *. rewrite zlen_app in *.
  pose proof (zlen_nonneg (concat (map utf8_encode rs))) as Hge.
  cbn [utf8_trunc_loop length Nat.add]. destruct (Z.ltb_spec (zlen pre) m); [| lia].
  assert (∀ l : list Z, drop (Z.to_nat (zlen pre)) (pre ++ l) = l) as Hdrop
    by (intros l; unfold zlen; by rewrite Nat2Z.id, drop_app_length).
  assert (aget (pre ++ (utf8_encode r ++ concat (map utf8_encode rs)) ++ rest) (zlen pre)
          = aget (utf8_encode r) 0) as ->.
  { destruct (utf8_encode_first r Hv) as (b & bs & -> & _ & _).
    unfold zlen. rewrite aget_nat. rewrite lookup_app_r by lia.
    by rewrite Nat.sub_diag. }
  destruct (utf8_encode_first r Hv) as (b & bs & Hb & Hsm & Hlg). rewrite Hb at 1. simpl.
  destruct (Z.eqb_spec b 0) as [->|Hb0].
  { exfalso. unfold valid_rune in Hv. destruct (Z.lt_ge_cases r 128); [| lia].
    destruct Hsm; lia. }
  rewrite Hdrop, <- app_assoc, utf8_decode_encode by (done || lia). cbn [mbind option_bind].
  destruct (Z.leb_spec (zlen (utf8_encode r)) 0); [lia |].
  destruct (Z.eqb_spec r UTF8_RUNE_ERROR); [done |]. simpl.
  specialize (IH (pre ++ utf8_encode r) Hrs). rewrite zlen_app, <- app_assoc in IH.
  rewrite IH by lia. f_equal. lia.
Qed.

Lemma encode_all_length rs : Forall text_rune rs → Z.of_nat (length rs) <= zlen (encode_all rs).
Proof.
  induction 1 as [|r rs (Hv & _) _ IH]; [done |]. pose proof (utf8_encode_nonempty r Hv).
  change (encode_all (r :: rs)) with (utf8_encode r ++ encode_all rs). rewrite zlen_app. simpl. lia.
Qed.

(** Truncating clean text whose terminator is in reach keeps all of it. *)
Lemma utf8_trunc_loop_text fuel rs pre rest :
  Forall text_rune rs → zlen (encode_all rs) <= Z.of_nat fuel →
  utf8_trunc_loop fuel (pre ++ encode_all rs ++ rest) (zlen pre + zlen (encode_all rs)) (zlen pre)
  = Some (zlen pre + zlen (encode_all rs)).
Proof.
  intros Hrs Hfuel. pose proof (encode_all_length rs Hrs).
  replace fuel with (length rs + (fuel - length rs))%nat by lia.
  rewrite utf8_trunc_loop_skip by (done || lia).
  destruct (fuel - length rs)%nat; simpl; by rewrite Z.ltb_irrefl.
Qed.

(** It stops at the first place where the decoder answers U+FFFD. *)
Lemma utf8_trunc_loop_stop fuel rs c rest m n :
  Forall text_rune rs → Z.of_nat (length rs) <= Z.of_nat fuel → zlen (encode_all rs) < m →
  c ≠ 0 → utf8_decode (c :: rest) (m - zlen (encode_all rs)) = Some (UTF8_RUNE_ERROR, n) →
  utf8_trunc_loop fuel (encode_all rs ++ c :: rest) m 0 = Some (zlen (encode_all rs)).
Proof.
  intros Hrs Hfuel Hm Hc Hd. replace fuel with (length rs + (fuel - length rs))%nat by lia.
  pose proof (utf8_trunc_loop_skip (fuel - length rs) rs [] (c :: rest) m Hrs) as E.
  rewrite zlen_nil, Z.add_0_l, !app_nil_l in E. rewrite E by lia.
  pose proof (zlen_nonneg (encode_all rs)).
  assert (drop (Z.to_nat (zlen (encode_all rs))) (encode_all rs ++ c :: rest) = c :: rest) as Hdrop
    by (unfold zlen; by rewrite Nat2Z.id, drop_app_length).
  assert (aget (encode_all rs ++ c :: rest) (zlen (encode_all rs)) = Some c) as Ha.
  { rewrite aget_app, Z.ltb_irrefl, Z.sub_diag by lia. done. }
  destruct (fuel - length rs)%nat; cbn [utf8_trunc_loop app]; rewrite Hdrop, Ha, Hd;
    destruct (Z.ltb_spec (zlen (encode_all rs)) m); try lia; cbn [mbind option_bind];
    (destruct (Z.eqb_spec c 0); [done |]); by rewrite Z.eqb_refl, orb_true_r.
Qed.

(** ** Correctness *)

(** Every Unicode scalar value survives encoding and decoding: the encoder
    writes [utf8_runelen] bytes, and the decoder, given at least those bytes
    and anything after them, returns the rune and exactly that length. *)
Theorem utf8_roundtrip r rest len :
  valid_rune r → utf8_runelen r <= len →
  zlen (utf8_encode r) = utf8_runelen r ∧
  utf8_decode (utf8_encode r ++ rest) len = Some (r, utf8_runelen r).
Proof.
  intros Hr Hlen. rewrite <- utf8_encode_length in *. split; [done |]. by apply utf8_decode_encode.
Qed.

Lemma utf8_roundtrip_witness :
  zlen (utf8_encode 0x20AC) = utf8_runelen 0x20AC ∧
  utf8_decode (utf8_encode 0x20AC ++ [65]) 4 = Some (0x20AC, utf8_runelen 0x20AC).
Proof.
  apply (utf8_roundtrip 0x20AC [65] 4).
  - unfold valid_rune, UTF8_RUNE_MAX. lia.
  - vm_compute. discriminate.
Defined.

(** Decoding any bytes never reads past [len], and accepts nothing but
    canonical encodings: the answer is U+FFFD with length 0 (no bytes) or 1
    (one byte to skip), or a scalar value whose one encoding is exactly the
    bytes consumed, so overlong forms, surrogates and values above U+10FFFF
    are refused. *)
Theorem utf8_decode_safe s len :
  Forall is_byte s → 0 <= len <= zlen s →
  ∃ r n, utf8_decode s len = Some (r, n) ∧
    ((len = 0 ∧ r = UTF8_RUNE_ERROR ∧ n = 0) ∨
     (1 <= len ∧ r = UTF8_RUNE_ERROR ∧ n = 1) ∨
     (1 <= n <= len ∧ valid_rune r ∧ take (Z.to_nat n) s = utf8_encode r)).
Proof.
  intros Hs Hlen. pose proof (utf8_decode_sound s len Hs Hlen) as H.
  destruct (utf8_decode s len) as [[r n]|]; [| done]. by exists r, n.
Qed.

Lemma utf8_decode_safe_witness :
  ∃ r n, utf8_decode [0xE0; 0x80; 0x80] 3 = Some (r, n) ∧
    ((3 = 0 ∧ r = UTF8_RUNE_ERROR ∧ n = 0) ∨
     (1 <= 3 ∧ r = UTF8_RUNE_ERROR ∧ n = 1) ∨
     (1 <= n <= 3 ∧ valid_rune r ∧ take (Z.to_nat n) [0xE0; 0x80; 0x80] = utf8_encode r)).
Proof.
  apply (utf8_decode_safe [0xE0; 0x80; 0x80] 3).
  - repeat constructor; discriminate.
  - vm_compute. split; discriminate.
Defined.

(** [utf8_trunc] on a buffer of [maxbytes] bytes returns, reads only that
    buffer, leaves room for the terminator, keeps whole characters only, and
    stops no earlier than it must: at the limit, at a NUL, or where no further
    text character fits. *)
Theorem utf8_trunc_longest s maxbytes :
  Forall is_byte s → 1 <= maxbytes <= zlen s + 1 →
  ∃ n, utf8_trunc s maxbytes = Some n ∧ 0 <= n < maxbytes ∧ trunc_stop s (maxbytes - 1) n ∧
    ∃ rs, Forall text_rune rs ∧ take (Z.to_nat n) s = encode_all rs.
Proof.
  intros Hs Hmax. unfold utf8_trunc. destruct (Z.eqb_spec maxbytes 0) as [|_]; [lia |].
  pose proof (utf8_trunc_loop_spec (Z.to_nat maxbytes) s (maxbytes - 1) 0 Hs
                ltac:(lia) ltac:(lia) ltac:(lia)) as H.
  destruct (utf8_trunc_loop _ _ _ _) as [n|]; [| done].
  destruct H as (Hn & Hstop & rs & Hrs & Htake). exists n. split_and!; [done | lia | lia | done |].
  exists rs. split; [done |]. by rewrite Z.sub_0_r in Htake.
Qed.

Lemma utf8_trunc_longest_witness :
  ∃ n, utf8_trunc (97 :: utf8_encode 0x20AC) 4 = Some n ∧ 0 <= n < 4 ∧
    trunc_stop (97 :: utf8_encode 0x20AC) (4 - 1) n ∧
    ∃ rs, Forall text_rune rs ∧ take (Z.to_nat n) (97 :: utf8_encode 0x20AC) = encode_all rs.
Proof.
  apply (utf8_trunc_longest (97 :: utf8_encode 0x20AC) 4).
  - vm_compute. repeat constructor; discriminate.
  - vm_compute. split; discriminate.
Defined.

(** The header says the loop returns the largest prefix that does not split
    a sequence; in fact it also stops for good at the first byte it cannot
    decode and at a genuine U+FFFD, however much clean text follows. *)
Theorem utf8_trunc_stops_at_error pre c post :
  Forall text_rune pre → 0x80 <= c < 0xC0 →
  utf8_trunc (encode_all pre ++ c :: post) (zlen (encode_all pre ++ c :: post) + 1)
    = Some (zlen (encode_all pre)) ∧
  utf8_trunc (encode_all pre ++ utf8_encode UTF8_RUNE_ERROR ++ post)
    (zlen (encode_all pre ++ utf8_encode UTF8_RUNE_ERROR ++ post) + 1) = Some (zlen (encode_all pre)).
Proof.
  intros Hpre Hc. pose proof (encode_all_length pre Hpre). pose proof (zlen_nonneg post).
  unfold utf8_trunc. rewrite !zlen_app. change (zlen (utf8_encode UTF8_RUNE_ERROR)) with 3.
  rewrite zlen_cons. rewrite !(proj2 (Z.eqb_neq _ 0)) by lia. rewrite !Z.add_simpl_r. split.
  - apply (utf8_trunc_loop_stop _ _ _ _ _ 1); [done | lia | lia | lia |].
    unfold utf8_decode. rewrite (proj2 (Z.eqb_neq _ 0)) by lia. simpl.
    rewrite (proj2 (Z.ltb_ge c 128)) by lia. rewrite lead_byte_arith by lia. by rewrite (proj2 (Z.ltb_lt c 0xC0)) by lia.
  - change (utf8_encode UTF8_RUNE_ERROR ++ post) with (0xEF :: 0xBF :: 0xBD :: post).
    apply (utf8_trunc_loop_stop _ _ _ _ _ 3); [done | lia | lia | lia |].
    change (0xEF :: 0xBF :: 0xBD :: post) with (utf8_encode UTF8_RUNE_ERROR ++ post).
    apply utf8_decode_encode; [unfold valid_rune, UTF8_RUNE_ERROR, UTF8_RUNE_MAX; lia |].
    change (zlen (utf8_encode UTF8_RUNE_ERROR)) with 3. lia.
Qed.

Lemma utf8_trunc_stops_at_error_witness :
  utf8_trunc (encode_all [97] ++ 0x80 :: [98; 99]) (zlen (encode_all [97] ++ 0x80 :: [98; 99]) + 1)
    = Some (zlen (encode_all [97])) ∧
  utf8_trunc (encode_all [97] ++ utf8_encode UTF8_RUNE_ERROR ++ [98; 99])
    (zlen (encode_all [97] ++ utf8_encode UTF8_RUNE_ERROR ++ [98; 99]) + 1) = Some (zlen (encode_all [97])).
Proof.
  apply (utf8_trunc_stops_at_error [97] 0x80 [98; 99]); [| lia].
  repeat constructor; unfold UTF8_RUNE_MAX, UTF8_RUNE_ERROR; lia.
Defined.
