(* ===== verification/WidthTables.v ===== *)
(** * The built-in character width tables (src/libutf8/width_tables.c)

    The data of the three Unicode versions the program ships, range by range,
    and the registry that lists them oldest first. *)

From S2P Require Import Prelude.

(** [struct rune_range]: a closed range of codepoints. *)
Record rune_range := R { range_first : Z; range_last : Z }.

(** [struct rune_width_table]; the two counts are the lengths of the lists. *)
Record rune_width_table := {
  version : list Z;
  zero : list rune_range;
  wide : list rune_range;
}.

Definition zero_9_0_0 : list rune_range :=
  [
   R 0x00AD 0x00AD; R 0x0300 0x036F; R 0x0483 0x0489; R 0x0591 0x05BD;
   R 0x05BF 0x05BF; R 0x05C1 0x05C2; R 0x05C4 0x05C5; R 0x05C7 0x05C7;
   R 0x0600 0x0605; R 0x0610 0x061A; R 0x061C 0x061C; R 0x064B 0x065F;
   R 0x0670 0x0670; R 0x06D6 0x06DD; R 0x06DF 0x06E4; R 0x06E7 0x06E8;
   R 0x06EA 0x06ED; R 0x070F 0x070F; R 0x0711 0x0711; R 0x0730 0x074A;
   R 0x07A6 0x07B0; R 0x07EB 0x07F3; R 0x0816 0x0819; R 0x081B 0x0823;
   R 0x0825 0x0827; R 0x0829 0x082D; R 0x0859 0x085B; R 0x08D4 0x0902;
   R 0x093A 0x093A; R 0x093C 0x093C; R 0x0941 0x0948; R 0x094D 0x094D;
   R 0x0951 0x0957; R 0x0962 0x0963; R 0x0981 0x0981; R 0x09BC 0x09BC;
   R 0x09C1 0x09C4; R 0x09CD 0x09CD; R 0x09E2 0x09E3; R 0x0A01 0x0A02;
   R 0x0A3C 0x0A3C; R 0x0A41 0x0A42; R 0x0A47 0x0A48; R 0x0A4B 0x0A4D;
   R 0x0A51 0x0A51; R 0x0A70 0x0A71; R 0x0A75 0x0A75; R 0x0A81 0x0A82;
   R 0x0ABC 0x0ABC; R 0x0AC1 0x0AC5; R 0x0AC7 0x0AC8; R 0x0ACD 0x0ACD;
   R 0x0AE2 0x0AE3; R 0x0B01 0x0B01; R 0x0B3C 0x0B3C; R 0x0B3F 0x0B3F;
   R 0x0B41 0x0B44; R 0x0B4D 0x0B4D; R 0x0B56 0x0B56; R 0x0B62 0x0B63;
   R 0x0B82 0x0B82; R 0x0BC0 0x0BC0; R 0x0BCD 0x0BCD; R 0x0C00 0x0C00;
   R 0x0C3E 0x0C40; R 0x0C46 0x0C48; R 0x0C4A 0x0C4D; R 0x0C55 0x0C56;
   R 0x0C62 0x0C63; R 0x0C81 0x0C81; R 0x0CBC 0x0CBC; R 0x0CBF 0x0CBF;
   R 0x0CC6 0x0CC6; R 0x0CCC 0x0CCD; R 0x0CE2 0x0CE3; R 0x0D01 0x0D01;
   R 0x0D41 0x0D44; R 0x0D4D 0x0D4D; R 0x0D62 0x0D63; R 0x0DCA 0x0DCA;
   R 0x0DD2 0x0DD4; R 0x0DD6 0x0DD6; R 0x0E31 0x0E31; R 0x0E34 0x0E3A;
   R 0x0E47 0x0E4E; R 0x0EB1 0x0EB1; R 0x0EB4 0x0EB9; R 0x0EBB 0x0EBC;
   R 0x0EC8 0x0ECD; R 0x0F18 0x0F19; R 0x0F35 0x0F35; R 0x0F37 0x0F37;
   R 0x0F39 0x0F39; R 0x0F71 0x0F7E; R 0x0F80 0x0F84; R 0x0F86 0x0F87;
   R 0x0F8D 0x0F97; R 0x0F99 0x0FBC; R 0x0FC6 0x0FC6; R 0x102D 0x1030;
   R 0x1032 0x1037; R 0x1039 0x103A; R 0x103D 0x103E; R 0x1058 0x1059;
   R 0x105E 0x1060; R 0x1071 0x1074; R 0x1082 0x1082; R 0x1085 0x1086;
   R 0x108D 0x108D; R 0x109D 0x109D; R 0x1160 0x11FF; R 0x135D 0x135F;
   R 0x1712 0x1714; R 0x1732 0x1734; R 0x1752 0x1753; R 0x1772 0x1773;
   R 0x17B4 0x17B5; R 0x17B7 0x17BD; R 0x17C6 0x17C6; R 0x17C9 0x17D3;
   R 0x17DD 0x17DD; R 0x180B 0x180E; R 0x1885 0x1886; R 0x18A9 0x18A9;
   R 0x1920 0x1922; R 0x1927 0x1928; R 0x1932 0x1932; R 0x1939 0x193B;
   R 0x1A17 0x1A18; R 0x1A1B 0x1A1B; R 0x1A56 0x1A56; R 0x1A58 0x1A5E;
   R 0x1A60 0x1A60; R 0x1A62 0x1A62; R 0x1A65 0x1A6C; R 0x1A73 0x1A7C;
   R 0x1A7F 0x1A7F; R 0x1AB0 0x1ABE; R 0x1B00 0x1B03; R 0x1B34 0x1B34;
   R 0x1B36 0x1B3A; R 0x1B3C 0x1B3C; R 0x1B42 0x1B42; R 0x1B6B 0x1B73;
   R 0x1B80 0x1B81; R 0x1BA2 0x1BA5; R 0x1BA8 0x1BA9; R 0x1BAB 0x1BAD;
   R 0x1BE6 0x1BE6; R 0x1BE8 0x1BE9; R 0x1BED 0x1BED; R 0x1BEF 0x1BF1;
   R 0x1C2C 0x1C33; R 0x1C36 0x1C37; R 0x1CD0 0x1CD2; R 0x1CD4 0x1CE0;
   R 0x1CE2 0x1CE8; R 0x1CED 0x1CED; R 0x1CF4 0x1CF4; R 0x1CF8 0x1CF9;
   R 0x1DC0 0x1DF5; R 0x1DFB 0x1DFF; R 0x200B 0x200F; R 0x202A 0x202E;
   R 0x2060 0x2064; R 0x2066 0x206F; R 0x20D0 0x20F0; R 0x2CEF 0x2CF1;
   R 0x2D7F 0x2D7F; R 0x2DE0 0x2DFF; R 0x302A 0x302D; R 0x3099 0x309A;
   R 0xA66F 0xA672; R 0xA674 0xA67D; R 0xA69E 0xA69F; R 0xA6F0 0xA6F1;
   R 0xA802 0xA802; R 0xA806 0xA806; R 0xA80B 0xA80B; R 0xA825 0xA826;
   R 0xA8C4 0xA8C5; R 0xA8E0 0xA8F1; R 0xA926 0xA92D; R 0xA947 0xA951;
   R 0xA980 0xA982; R 0xA9B3 0xA9B3; R 0xA9B6 0xA9B9; R 0xA9BC 0xA9BC;
   R 0xA9E5 0xA9E5; R 0xAA29 0xAA2E; R 0xAA31 0xAA32; R 0xAA35 0xAA36;
   R 0xAA43 0xAA43; R 0xAA4C 0xAA4C; R 0xAA7C 0xAA7C; R 0xAAB0 0xAAB0;
   R 0xAAB2 0xAAB4; R 0xAAB7 0xAAB8; R 0xAABE 0xAABF; R 0xAAC1 0xAAC1;
   R 0xAAEC 0xAAED; R 0xAAF6 0xAAF6; R 0xABE5 0xABE5; R 0xABE8 0xABE8;
   R 0xABED 0xABED; R 0xFB1E 0xFB1E; R 0xFE00 0xFE0F; R 0xFE20 0xFE2F;
   R 0xFEFF 0xFEFF; R 0xFFF9 0xFFFB; R 0x101FD 0x101FD; R 0x102E0 0x102E0;
   R 0x10376 0x1037A; R 0x10A01 0x10A03; R 0x10A05 0x10A06; R 0x10A0C 0x10A0F;
   R 0x10A38 0x10A3A; R 0x10A3F 0x10A3F; R 0x10AE5 0x10AE6; R 0x11001 0x11001;
   R 0x11038 0x11046; R 0x1107F 0x11081; R 0x110B3 0x110B6; R 0x110B9 0x110BA;
   R 0x110BD 0x110BD; R 0x11100 0x11102; R 0x11127 0x1112B; R 0x1112D 0x11134;
   R 0x11173 0x11173; R 0x11180 0x11181; R 0x111B6 0x111BE; R 0x111CA 0x111CC;
   R 0x1122F 0x11231; R 0x11234 0x11234; R 0x11236 0x11237; R 0x1123E 0x1123E;
   R 0x112DF 0x112DF; R 0x112E3 0x112EA; R 0x11300 0x11301; R 0x1133C 0x1133C;
   R 0x11340 0x11340; R 0x11366 0x1136C; R 0x11370 0x11374; R 0x11438 0x1143F;
   R 0x11442 0x11444; R 0x11446 0x11446; R 0x114B3 0x114B8; R 0x114BA 0x114BA;
   R 0x114BF 0x114C0; R 0x114C2 0x114C3; R 0x115B2 0x115B5; R 0x115BC 0x115BD;
   R 0x115BF 0x115C0; R 0x115DC 0x115DD; R 0x11633 0x1163A; R 0x1163D 0x1163D;
   R 0x1163F 0x11640; R 0x116AB 0x116AB; R 0x116AD 0x116AD; R 0x116B0 0x116B5;
   R 0x116B7 0x116B7; R 0x1171D 0x1171F; R 0x11722 0x11725; R 0x11727 0x1172B;
   R 0x11C30 0x11C36; R 0x11C38 0x11C3D; R 0x11C3F 0x11C3F; R 0x11C92 0x11CA7;
   R 0x11CAA 0x11CB0; R 0x11CB2 0x11CB3; R 0x11CB5 0x11CB6; R 0x16AF0 0x16AF4;
   R 0x16B30 0x16B36; R 0x16F8F 0x16F92; R 0x1BC9D 0x1BC9E; R 0x1BCA0 0x1BCA3;
   R 0x1D167 0x1D169; R 0x1D173 0x1D182; R 0x1D185 0x1D18B; R 0x1D1AA 0x1D1AD;
   R 0x1D242 0x1D244; R 0x1DA00 0x1DA36; R 0x1DA3B 0x1DA6C; R 0x1DA75 0x1DA75;
   R 0x1DA84 0x1DA84; R 0x1DA9B 0x1DA9F; R 0x1DAA1 0x1DAAF; R 0x1E000 0x1E006;
   R 0x1E008 0x1E018; R 0x1E01B 0x1E021; R 0x1E023 0x1E024; R 0x1E026 0x1E02A;
   R 0x1E8D0 0x1E8D6; R 0x1E944 0x1E94A; R 0xE0001 0xE0001; R 0xE0020 0xE007F;
   R 0xE0100 0xE01EF
  ].

Definition wide_9_0_0 : list rune_range :=
  [
   R 0x1100 0x115F; R 0x231A 0x231B; R 0x2329 0x232A; R 0x23E9 0x23EC;
   R 0x23F0 0x23F0; R 0x23F3 0x23F3; R 0x25FD 0x25FE; R 0x2614 0x2615;
   R 0x2648 0x2653; R 0x267F 0x267F; R 0x2693 0x2693; R 0x26A1 0x26A1;
   R 0x26AA 0x26AB; R 0x26BD 0x26BE; R 0x26C4 0x26C5; R 0x26CE 0x26CE;
   R 0x26D4 0x26D4; R 0x26EA 0x26EA; R 0x26F2 0x26F3; R 0x26F5 0x26F5;
   R 0x26FA 0x26FA; R 0x26FD 0x26FD; R 0x2705 0x2705; R 0x270A 0x270B;
   R 0x2728 0x2728; R 0x274C 0x274C; R 0x274E 0x274E; R 0x2753 0x2755;
   R 0x2757 0x2757; R 0x2795 0x2797; R 0x27B0 0x27B0; R 0x27BF 0x27BF;
   R 0x2B1B 0x2B1C; R 0x2B50 0x2B50; R 0x2B55 0x2B55; R 0x2E80 0x2E99;
   R 0x2E9B 0x2EF3; R 0x2F00 0x2FD5; R 0x2FF0 0x2FFB; R 0x3000 0x303E;
   R 0x3041 0x3096; R 0x3099 0x30FF; R 0x3105 0x312D; R 0x3131 0x318E;
   R 0x3190 0x31BA; R 0x31C0 0x31E3; R 0x31F0 0x321E; R 0x3220 0x3247;
   R 0x3250 0x32FE; R 0x3300 0x4DBF; R 0x4E00 0xA48C; R 0xA490 0xA4C6;
   R 0xA960 0xA97C; R 0xAC00 0xD7A3; R 0xF900 0xFAFF; R 0xFE10 0xFE19;
   R 0xFE30 0xFE52; R 0xFE54 0xFE66; R 0xFE68 0xFE6B; R 0xFF01 0xFF60;
   R 0xFFE0 0xFFE6; R 0x16FE0 0x16FE0; R 0x17000 0x187EC; R 0x18800 0x18AF2;
   R 0x1B000 0x1B001; R 0x1F004 0x1F004; R 0x1F0CF 0x1F0CF; R 0x1F18E 0x1F18E;
   R 0x1F191 0x1F19A; R 0x1F1E6 0x1F202; R 0x1F210 0x1F23B; R 0x1F240 0x1F248;
   R 0x1F250 0x1F251; R 0x1F300 0x1F320; R 0x1F32D 0x1F335; R 0x1F337 0x1F37C;
   R 0x1F37E 0x1F393; R 0x1F3A0 0x1F3CA; R 0x1F3CF 0x1F3D3; R 0x1F3E0 0x1F3F0;
   R 0x1F3F4 0x1F3F4; R 0x1F3F8 0x1F43E; R 0x1F440 0x1F440; R 0x1F442 0x1F4FC;
   R 0x1F4FF 0x1F53D; R 0x1F54B 0x1F54E; R 0x1F550 0x1F567; R 0x1F57A 0x1F57A;
   R 0x1F595 0x1F596; R 0x1F5A4 0x1F5A4; R 0x1F5FB 0x1F64F; R 0x1F680 0x1F6C5;
   R 0x1F6CC 0x1F6CC; R 0x1F6D0 0x1F6D2; R 0x1F6EB 0x1F6EC; R 0x1F6F4 0x1F6F6;
   R 0x1F910 0x1F91E; R 0x1F920 0x1F927; R 0x1F930 0x1F930; R 0x1F933 0x1F93E;
   R 0x1F940 0x1F94B; R 0x1F950 0x1F95E; R 0x1F980 0x1F991; R 0x1F9C0 0x1F9C0;
   R 0x20000 0x2FFFD; R 0x30000 0x3FFFD
  ].

Definition zero_12_1_0 : list rune_range :=
  [
   R 0x00AD 0x00AD; R 0x0300 0x036F; R 0x0483 0x0489; R 0x0591 0x05BD;
   R 0x05BF 0x05BF; R 0x05C1 0x05C2; R 0x05C4 0x05C5; R 0x05C7 0x05C7;
   R 0x0600 0x0605; R 0x0610 0x061A; R 0x061C 0x061C; R 0x064B 0x065F;
   R 0x0670 0x0670; R 0x06D6 0x06DD; R 0x06DF 0x06E4; R 0x06E7 0x06E8;
   R 0x06EA 0x06ED; R 0x070F 0x070F; R 0x0711 0x0711; R 0x0730 0x074A;
   R 0x07A6 0x07B0; R 0x07EB 0x07F3; R 0x07FD 0x07FD; R 0x0816 0x0819;
   R 0x081B 0x0823; R 0x0825 0x0827; R 0x0829 0x082D; R 0x0859 0x085B;
   R 0x08D3 0x0902; R 0x093A 0x093A; R 0x093C 0x093C; R 0x0941 0x0948;
   R 0x094D 0x094D; R 0x0951 0x0957; R 0x0962 0x0963; R 0x0981 0x0981;
   R 0x09BC 0x09BC; R 0x09C1 0x09C4; R 0x09CD 0x09CD; R 0x09E2 0x09E3;
   R 0x09FE 0x09FE; R 0x0A01 0x0A02; R 0x0A3C 0x0A3C; R 0x0A41 0x0A42;
   R 0x0A47 0x0A48; R 0x0A4B 0x0A4D; R 0x0A51 0x0A51; R 0x0A70 0x0A71;
   R 0x0A75 0x0A75; R 0x0A81 0x0A82; R 0x0ABC 0x0ABC; R 0x0AC1 0x0AC5;
   R 0x0AC7 0x0AC8; R 0x0ACD 0x0ACD; R 0x0AE2 0x0AE3; R 0x0AFA 0x0AFF;
   R 0x0B01 0x0B01; R 0x0B3C 0x0B3C; R 0x0B3F 0x0B3F; R 0x0B41 0x0B44;
   R 0x0B4D 0x0B4D; R 0x0B56 0x0B56; R 0x0B62 0x0B63; R 0x0B82 0x0B82;
   R 0x0BC0 0x0BC0; R 0x0BCD 0x0BCD; R 0x0C00 0x0C00; R 0x0C04 0x0C04;
   R 0x0C3E 0x0C40; R 0x0C46 0x0C48; R 0x0C4A 0x0C4D; R 0x0C55 0x0C56;
   R 0x0C62 0x0C63; R 0x0C81 0x0C81; R 0x0CBC 0x0CBC; R 0x0CBF 0x0CBF;
   R 0x0CC6 0x0CC6; R 0x0CCC 0x0CCD; R 0x0CE2 0x0CE3; R 0x0D00 0x0D01;
   R 0x0D3B 0x0D3C; R 0x0D41 0x0D44; R 0x0D4D 0x0D4D; R 0x0D62 0x0D63;
   R 0x0DCA 0x0DCA; R 0x0DD2 0x0DD4; R 0x0DD6 0x0DD6; R 0x0E31 0x0E31;
   R 0x0E34 0x0E3A; R 0x0E47 0x0E4E; R 0x0EB1 0x0EB1; R 0x0EB4 0x0EBC;
   R 0x0EC8 0x0ECD; R 0x0F18 0x0F19; R 0x0F35 0x0F35; R 0x0F37 0x0F37;
   R 0x0F39 0x0F39; R 0x0F71 0x0F7E; R 0x0F80 0x0F84; R 0x0F86 0x0F87;
   R 0x0F8D 0x0F97; R 0x0F99 0x0FBC; R 0x0FC6 0x0FC6; R 0x102D 0x1030;
   R 0x1032 0x1037; R 0x1039 0x103A; R 0x103D 0x103E; R 0x1058 0x1059;
   R 0x105E 0x1060; R 0x1071 0x1074; R 0x1082 0x1082; R 0x1085 0x1086;
   R 0x108D 0x108D; R 0x109D 0x109D; R 0x1160 0x11FF; R 0x135D 0x135F;
   R 0x1712 0x1714; R 0x1732 0x1734; R 0x1752 0x1753; R 0x1772 0x1773;
   R 0x17B4 0x17B5; R 0x17B7 0x17BD; R 0x17C6 0x17C6; R 0x17C9 0x17D3;
   R 0x17DD 0x17DD; R 0x180B 0x180E; R 0x1885 0x1886; R 0x18A9 0x18A9;
   R 0x1920 0x1922; R 0x1927 0x1928; R 0x1932 0x1932; R 0x1939 0x193B;
   R 0x1A17 0x1A18; R 0x1A1B 0x1A1B; R 0x1A56 0x1A56; R 0x1A58 0x1A5E;
   R 0x1A60 0x1A60; R 0x1A62 0x1A62; R 0x1A65 0x1A6C; R 0x1A73 0x1A7C;
   R 0x1A7F 0x1A7F; R 0x1AB0 0x1ABE; R 0x1B00 0x1B03; R 0x1B34 0x1B34;
   R 0x1B36 0x1B3A; R 0x1B3C 0x1B3C; R 0x1B42 0x1B42; R 0x1B6B 0x1B73;
   R 0x1B80 0x1B81; R 0x1BA2 0x1BA5; R 0x1BA8 0x1BA9; R 0x1BAB 0x1BAD;
   R 0x1BE6 0x1BE6; R 0x1BE8 0x1BE9; R 0x1BED 0x1BED; R 0x1BEF 0x1BF1;
   R 0x1C2C 0x1C33; R 0x1C36 0x1C37; R 0x1CD0 0x1CD2; R 0x1CD4 0x1CE0;
   R 0x1CE2 0x1CE8; R 0x1CED 0x1CED; R 0x1CF4 0x1CF4; R 0x1CF8 0x1CF9;
   R 0x1DC0 0x1DF9; R 0x1DFB 0x1DFF; R 0x200B 0x200F; R 0x202A 0x202E;
   R 0x2060 0x2064; R 0x2066 0x206F; R 0x20D0 0x20F0; R 0x2CEF 0x2CF1;
   R 0x2D7F 0x2D7F; R 0x2DE0 0x2DFF; R 0x302A 0x302D; R 0x3099 0x309A;
   R 0xA66F 0xA672; R 0xA674 0xA67D; R 0xA69E 0xA69F; R 0xA6F0 0xA6F1;
   R 0xA802 0xA802; R 0xA806 0xA806; R 0xA80B 0xA80B; R 0xA825 0xA826;
   R 0xA8C4 0xA8C5; R 0xA8E0 0xA8F1; R 0xA8FF 0xA8FF; R 0xA926 0xA92D;
   R 0xA947 0xA951; R 0xA980 0xA982; R 0xA9B3 0xA9B3; R 0xA9B6 0xA9B9;
   R 0xA9BC 0xA9BD; R 0xA9E5 0xA9E5; R 0xAA29 0xAA2E; R 0xAA31 0xAA32;
   R 0xAA35 0xAA36; R 0xAA43 0xAA43; R 0xAA4C 0xAA4C; R 0xAA7C 0xAA7C;
   R 0xAAB0 0xAAB0; R 0xAAB2 0xAAB4; R 0xAAB7 0xAAB8; R 0xAABE 0xAABF;
   R 0xAAC1 0xAAC1; R 0xAAEC 0xAAED; R 0xAAF6 0xAAF6; R 0xABE5 0xABE5;
   R 0xABE8 0xABE8; R 0xABED 0xABED; R 0xFB1E 0xFB1E; R 0xFE00 0xFE0F;
   R 0xFE20 0xFE2F; R 0xFEFF 0xFEFF; R 0xFFF9 0xFFFB; R 0x101FD 0x101FD;
   R 0x102E0 0x102E0; R 0x10376 0x1037A; R 0x10A01 0x10A03; R 0x10A05 0x10A06;
   R 0x10A0C 0x10A0F; R 0x10A38 0x10A3A; R 0x10A3F 0x10A3F; R 0x10AE5 0x10AE6;
   R 0x10D24 0x10D27; R 0x10F46 0x10F50; R 0x11001 0x11001; R 0x11038 0x11046;
   R 0x1107F 0x11081; R 0x110B3 0x110B6; R 0x110B9 0x110BA; R 0x110BD 0x110BD;
   R 0x110CD 0x110CD; R 0x11100 0x11102; R 0x11127 0x1112B; R 0x1112D 0x11134;
   R 0x11173 0x11173; R 0x11180 0x11181; R 0x111B6 0x111BE; R 0x111C9 0x111CC;
   R 0x1122F 0x11231; R 0x11234 0x11234; R 0x11236 0x11237; R 0x1123E 0x1123E;
   R 0x112DF 0x112DF; R 0x112E3 0x112EA; R 0x11300 0x11301; R 0x1133B 0x1133C;
   R 0x11340 0x11340; R 0x11366 0x1136C; R 0x11370 0x11374; R 0x11438 0x1143F;
   R 0x11442 0x11444; R 0x11446 0x11446; R 0x1145E 0x1145E; R 0x114B3 0x114B8;
   R 0x114BA 0x114BA; R 0x114BF 0x114C0; R 0x114C2 0x114C3; R 0x115B2 0x115B5;
   R 0x115BC 0x115BD; R 0x115BF 0x115C0; R 0x115DC 0x115DD; R 0x11633 0x1163A;
   R 0x1163D 0x1163D; R 0x1163F 0x11640; R 0x116AB 0x116AB; R 0x116AD 0x116AD;
   R 0x116B0 0x116B5; R 0x116B7 0x116B7; R 0x1171D 0x1171F; R 0x11722 0x11725;
   R 0x11727 0x1172B; R 0x1182F 0x11837; R 0x11839 0x1183A; R 0x119D4 0x119D7;
   R 0x119DA 0x119DB; R 0x119E0 0x119E0; R 0x11A01 0x11A0A; R 0x11A33 0x11A38;
   R 0x11A3B 0x11A3E; R 0x11A47 0x11A47; R 0x11A51 0x11A56; R 0x11A59 0x11A5B;
   R 0x11A8A 0x11A96; R 0x11A98 0x11A99; R 0x11C30 0x11C36; R 0x11C38 0x11C3D;
   R 0x11C3F 0x11C3F; R 0x11C92 0x11CA7; R 0x11CAA 0x11CB0; R 0x11CB2 0x11CB3;
   R 0x11CB5 0x11CB6; R 0x11D31 0x11D36; R 0x11D3A 0x11D3A; R 0x11D3C 0x11D3D;
   R 0x11D3F 0x11D45; R 0x11D47 0x11D47; R 0x11D90 0x11D91; R 0x11D95 0x11D95;
   R 0x11D97 0x11D97; R 0x11EF3 0x11EF4; R 0x13430 0x13438; R 0x16AF0 0x16AF4;
   R 0x16B30 0x16B36; R 0x16F4F 0x16F4F; R 0x16F8F 0x16F92; R 0x1BC9D 0x1BC9E;
   R 0x1BCA0 0x1BCA3; R 0x1D167 0x1D169; R 0x1D173 0x1D182; R 0x1D185 0x1D18B;
   R 0x1D1AA 0x1D1AD; R 0x1D242 0x1D244; R 0x1DA00 0x1DA36; R 0x1DA3B 0x1DA6C;
   R 0x1DA75 0x1DA75; R 0x1DA84 0x1DA84; R 0x1DA9B 0x1DA9F; R 0x1DAA1 0x1DAAF;
   R 0x1E000 0x1E006; R 0x1E008 0x1E018; R 0x1E01B 0x1E021; R 0x1E023 0x1E024;
   R 0x1E026 0x1E02A; R 0x1E130 0x1E136; R 0x1E2EC 0x1E2EF; R 0x1E8D0 0x1E8D6;
   R 0x1E944 0x1E94A; R 0xE0001 0xE0001; R 0xE0020 0xE007F; R 0xE0100 0xE01EF
  ].

Definition wide_12_1_0 : list rune_range :=
  [
   R 0x1100 0x115F; R 0x231A 0x231B; R 0x2329 0x232A; R 0x23E9 0x23EC;
   R 0x23F0 0x23F0; R 0x23F3 0x23F3; R 0x25FD 0x25FE; R 0x2614 0x2615;
   R 0x2648 0x2653; R 0x267F 0x267F; R 0x2693 0x2693; R 0x26A1 0x26A1;
   R 0x26AA 0x26AB; R 0x26BD 0x26BE; R 0x26C4 0x26C5; R 0x26CE 0x26CE;
   R 0x26D4 0x26D4; R 0x26EA 0x26EA; R 0x26F2 0x26F3; R 0x26F5 0x26F5;
   R 0x26FA 0x26FA; R 0x26FD 0x26FD; R 0x2705 0x2705; R 0x270A 0x270B;
   R 0x2728 0x2728; R 0x274C 0x274C; R 0x274E 0x274E; R 0x2753 0x2755;
   R 0x2757 0x2757; R 0x2795 0x2797; R 0x27B0 0x27B0; R 0x27BF 0x27BF;
   R 0x2B1B 0x2B1C; R 0x2B50 0x2B50; R 0x2B55 0x2B55; R 0x2E80 0x2E99;
   R 0x2E9B 0x2EF3; R 0x2F00 0x2FD5; R 0x2FF0 0x2FFB; R 0x3000 0x303E;
   R 0x3041 0x3096; R 0x3099 0x30FF; R 0x3105 0x312F; R 0x3131 0x318E;
   R 0x3190 0x31BA; R 0x31C0 0x31E3; R 0x31F0 0x321E; R 0x3220 0x3247;
   R 0x3250 0x4DBF; R 0x4E00 0xA48C; R 0xA490 0xA4C6; R 0xA960 0xA97C;
   R 0xAC00 0xD7A3; R 0xF900 0xFAFF; R 0xFE10 0xFE19; R 0xFE30 0xFE52;
   R 0xFE54 0xFE66; R 0xFE68 0xFE6B; R 0xFF01 0xFF60; R 0xFFE0 0xFFE6;
   R 0x16FE0 0x16FE3; R 0x17000 0x187F7; R 0x18800 0x18AF2; R 0x1B000 0x1B11E;
   R 0x1B150 0x1B152; R 0x1B164 0x1B167; R 0x1B170 0x1B2FB; R 0x1F004 0x1F004;
   R 0x1F0CF 0x1F0CF; R 0x1F18E 0x1F18E; R 0x1F191 0x1F19A; R 0x1F1E6 0x1F202;
   R 0x1F210 0x1F23B; R 0x1F240 0x1F248; R 0x1F250 0x1F251; R 0x1F260 0x1F265;
   R 0x1F300 0x1F320; R 0x1F32D 0x1F335; R 0x1F337 0x1F37C; R 0x1F37E 0x1F393;
   R 0x1F3A0 0x1F3CA; R 0x1F3CF 0x1F3D3; R 0x1F3E0 0x1F3F0; R 0x1F3F4 0x1F3F4;
   R 0x1F3F8 0x1F43E; R 0x1F440 0x1F440; R 0x1F442 0x1F4FC; R 0x1F4FF 0x1F53D;
   R 0x1F54B 0x1F54E; R 0x1F550 0x1F567; R 0x1F57A 0x1F57A; R 0x1F595 0x1F596;
   R 0x1F5A4 0x1F5A4; R 0x1F5FB 0x1F64F; R 0x1F680 0x1F6C5; R 0x1F6CC 0x1F6CC;
   R 0x1F6D0 0x1F6D2; R 0x1F6D5 0x1F6D5; R 0x1F6EB 0x1F6EC; R 0x1F6F4 0x1F6FA;
   R 0x1F7E0 0x1F7EB; R 0x1F90D 0x1F971; R 0x1F973 0x1F976; R 0x1F97A 0x1F9A2;
   R 0x1F9A5 0x1F9AA; R 0x1F9AE 0x1F9CA; R 0x1F9CD 0x1F9FF; R 0x1FA70 0x1FA73;
   R 0x1FA78 0x1FA7A; R 0x1FA80 0x1FA82; R 0x1FA90 0x1FA95; R 0x20000 0x2FFFD;
   R 0x30000 0x3FFFD
  ].

Definition zero_15_1_0 : list rune_range :=
  [
   R 0x00AD 0x00AD; R 0x0300 0x036F; R 0x0483 0x0489; R 0x0591 0x05BD;
   R 0x05BF 0x05BF; R 0x05C1 0x05C2; R 0x05C4 0x05C5; R 0x05C7 0x05C7;
   R 0x0600 0x0605; R 0x0610 0x061A; R 0x061C 0x061C; R 0x064B 0x065F;
   R 0x0670 0x0670; R 0x06D6 0x06DD; R 0x06DF 0x06E4; R 0x06E7 0x06E8;
   R 0x06EA 0x06ED; R 0x070F 0x070F; R 0x0711 0x0711; R 0x0730 0x074A;
   R 0x07A6 0x07B0; R 0x07EB 0x07F3; R 0x07FD 0x07FD; R 0x0816 0x0819;
   R 0x081B 0x0823; R 0x0825 0x0827; R 0x0829 0x082D; R 0x0859 0x085B;
   R 0x0890 0x0891; R 0x0898 0x089F; R 0x08CA 0x0902; R 0x093A 0x093A;
   R 0x093C 0x093C; R 0x0941 0x0948; R 0x094D 0x094D; R 0x0951 0x0957;
   R 0x0962 0x0963; R 0x0981 0x0981; R 0x09BC 0x09BC; R 0x09C1 0x09C4;
   R 0x09CD 0x09CD; R 0x09E2 0x09E3; R 0x09FE 0x09FE; R 0x0A01 0x0A02;
   R 0x0A3C 0x0A3C; R 0x0A41 0x0A42; R 0x0A47 0x0A48; R 0x0A4B 0x0A4D;
   R 0x0A51 0x0A51; R 0x0A70 0x0A71; R 0x0A75 0x0A75; R 0x0A81 0x0A82;
   R 0x0ABC 0x0ABC; R 0x0AC1 0x0AC5; R 0x0AC7 0x0AC8; R 0x0ACD 0x0ACD;
   R 0x0AE2 0x0AE3; R 0x0AFA 0x0AFF; R 0x0B01 0x0B01; R 0x0B3C 0x0B3C;
   R 0x0B3F 0x0B3F; R 0x0B41 0x0B44; R 0x0B4D 0x0B4D; R 0x0B55 0x0B56;
   R 0x0B62 0x0B63; R 0x0B82 0x0B82; R 0x0BC0 0x0BC0; R 0x0BCD 0x0BCD;
   R 0x0C00 0x0C00; R 0x0C04 0x0C04; R 0x0C3C 0x0C3C; R 0x0C3E 0x0C40;
   R 0x0C46 0x0C48; R 0x0C4A 0x0C4D; R 0x0C55 0x0C56; R 0x0C62 0x0C63;
   R 0x0C81 0x0C81; R 0x0CBC 0x0CBC; R 0x0CBF 0x0CBF; R 0x0CC6 0x0CC6;
   R 0x0CCC 0x0CCD; R 0x0CE2 0x0CE3; R 0x0D00 0x0D01; R 0x0D3B 0x0D3C;
   R 0x0D41 0x0D44; R 0x0D4D 0x0D4D; R 0x0D62 0x0D63; R 0x0D81 0x0D81;
   R 0x0DCA 0x0DCA; R 0x0DD2 0x0DD4; R 0x0DD6 0x0DD6; R 0x0E31 0x0E31;
   R 0x0E34 0x0E3A; R 0x0E47 0x0E4E; R 0x0EB1 0x0EB1; R 0x0EB4 0x0EBC;
   R 0x0EC8 0x0ECE; R 0x0F18 0x0F19; R 0x0F35 0x0F35; R 0x0F37 0x0F37;
   R 0x0F39 0x0F39; R 0x0F71 0x0F7E; R 0x0F80 0x0F84; R 0x0F86 0x0F87;
   R 0x0F8D 0x0F97; R 0x0F99 0x0FBC; R 0x0FC6 0x0FC6; R 0x102D 0x1030;
   R 0x1032 0x1037; R 0x1039 0x103A; R 0x103D 0x103E; R 0x1058 0x1059;
   R 0x105E 0x1060; R 0x1071 0x1074; R 0x1082 0x1082; R 0x1085 0x1086;
   R 0x108D 0x108D; R 0x109D 0x109D; R 0x1160 0x11FF; R 0x135D 0x135F;
   R 0x1712 0x1714; R 0x1732 0x1733; R 0x1752 0x1753; R 0x1772 0x1773;
   R 0x17B4 0x17B5; R 0x17B7 0x17BD; R 0x17C6 0x17C6; R 0x17C9 0x17D3;
   R 0x17DD 0x17DD; R 0x180B 0x180F; R 0x1885 0x1886; R 0x18A9 0x18A9;
   R 0x1920 0x1922; R 0x1927 0x1928; R 0x1932 0x1932; R 0x1939 0x193B;
   R 0x1A17 0x1A18; R 0x1A1B 0x1A1B; R 0x1A56 0x1A56; R 0x1A58 0x1A5E;
   R 0x1A60 0x1A60; R 0x1A62 0x1A62; R 0x1A65 0x1A6C; R 0x1A73 0x1A7C;
   R 0x1A7F 0x1A7F; R 0x1AB0 0x1ACE; R 0x1B00 0x1B03; R 0x1B34 0x1B34;
   R 0x1B36 0x1B3A; R 0x1B3C 0x1B3C; R 0x1B42 0x1B42; R 0x1B6B 0x1B73;
   R 0x1B80 0x1B81; R 0x1BA2 0x1BA5; R 0x1BA8 0x1BA9; R 0x1BAB 0x1BAD;
   R 0x1BE6 0x1BE6; R 0x1BE8 0x1BE9; R 0x1BED 0x1BED; R 0x1BEF 0x1BF1;
   R 0x1C2C 0x1C33; R 0x1C36 0x1C37; R 0x1CD0 0x1CD2; R 0x1CD4 0x1CE0;
   R 0x1CE2 0x1CE8; R 0x1CED 0x1CED; R 0x1CF4 0x1CF4; R 0x1CF8 0x1CF9;
   R 0x1DC0 0x1DFF; R 0x200B 0x200F; R 0x202A 0x202E; R 0x2060 0x2064;
   R 0x2066 0x206F; R 0x20D0 0x20F0; R 0x2CEF 0x2CF1; R 0x2D7F 0x2D7F;
   R 0x2DE0 0x2DFF; R 0x302A 0x302D; R 0x3099 0x309A; R 0xA66F 0xA672;
   R 0xA674 0xA67D; R 0xA69E 0xA69F; R 0xA6F0 0xA6F1; R 0xA802 0xA802;
   R 0xA806 0xA806; R 0xA80B 0xA80B; R 0xA825 0xA826; R 0xA82C 0xA82C;
   R 0xA8C4 0xA8C5; R 0xA8E0 0xA8F1; R 0xA8FF 0xA8FF; R 0xA926 0xA92D;
   R 0xA947 0xA951; R 0xA980 0xA982; R 0xA9B3 0xA9B3; R 0xA9B6 0xA9B9;
   R 0xA9BC 0xA9BD; R 0xA9E5 0xA9E5; R 0xAA29 0xAA2E; R 0xAA31 0xAA32;
   R 0xAA35 0xAA36; R 0xAA43 0xAA43; R 0xAA4C 0xAA4C; R 0xAA7C 0xAA7C;
   R 0xAAB0 0xAAB0; R 0xAAB2 0xAAB4; R 0xAAB7 0xAAB8; R 0xAABE 0xAABF;
   R 0xAAC1 0xAAC1; R 0xAAEC 0xAAED; R 0xAAF6 0xAAF6; R 0xABE5 0xABE5;
   R 0xABE8 0xABE8; R 0xABED 0xABED; R 0xFB1E 0xFB1E; R 0xFE00 0xFE0F;
   R 0xFE20 0xFE2F; R 0xFEFF 0xFEFF; R 0xFFF9 0xFFFB; R 0x101FD 0x101FD;
   R 0x102E0 0x102E0; R 0x10376 0x1037A; R 0x10A01 0x10A03; R 0x10A05 0x10A06;
   R 0x10A0C 0x10A0F; R 0x10A38 0x10A3A; R 0x10A3F 0x10A3F; R 0x10AE5 0x10AE6;
   R 0x10D24 0x10D27; R 0x10EAB 0x10EAC; R 0x10EFD 0x10EFF; R 0x10F46 0x10F50;
   R 0x10F82 0x10F85; R 0x11001 0x11001; R 0x11038 0x11046; R 0x11070 0x11070;
   R 0x11073 0x11074; R 0x1107F 0x11081; R 0x110B3 0x110B6; R 0x110B9 0x110BA;
   R 0x110BD 0x110BD; R 0x110C2 0x110C2; R 0x110CD 0x110CD; R 0x11100 0x11102;
   R 0x11127 0x1112B; R 0x1112D 0x11134; R 0x11173 0x11173; R 0x11180 0x11181;
   R 0x111B6 0x111BE; R 0x111C9 0x111CC; R 0x111CF 0x111CF; R 0x1122F 0x11231;
   R 0x11234 0x11234; R 0x11236 0x11237; R 0x1123E 0x1123E; R 0x11241 0x11241;
   R 0x112DF 0x112DF; R 0x112E3 0x112EA; R 0x11300 0x11301; R 0x1133B 0x1133C;
   R 0x11340 0x11340; R 0x11366 0x1136C; R 0x11370 0x11374; R 0x11438 0x1143F;
   R 0x11442 0x11444; R 0x11446 0x11446; R 0x1145E 0x1145E; R 0x114B3 0x114B8;
   R 0x114BA 0x114BA; R 0x114BF 0x114C0; R 0x114C2 0x114C3; R 0x115B2 0x115B5;
   R 0x115BC 0x115BD; R 0x115BF 0x115C0; R 0x115DC 0x115DD; R 0x11633 0x1163A;
   R 0x1163D 0x1163D; R 0x1163F 0x11640; R 0x116AB 0x116AB; R 0x116AD 0x116AD;
   R 0x116B0 0x116B5; R 0x116B7 0x116B7; R 0x1171D 0x1171F; R 0x11722 0x11725;
   R 0x11727 0x1172B; R 0x1182F 0x11837; R 0x11839 0x1183A; R 0x1193B 0x1193C;
   R 0x1193E 0x1193E; R 0x11943 0x11943; R 0x119D4 0x119D7; R 0x119DA 0x119DB;
   R 0x119E0 0x119E0; R 0x11A01 0x11A0A; R 0x11A33 0x11A38; R 0x11A3B 0x11A3E;
   R 0x11A47 0x11A47; R 0x11A51 0x11A56; R 0x11A59 0x11A5B; R 0x11A8A 0x11A96;
   R 0x11A98 0x11A99; R 0x11C30 0x11C36; R 0x11C38 0x11C3D; R 0x11C3F 0x11C3F;
   R 0x11C92 0x11CA7; R 0x11CAA 0x11CB0; R 0x11CB2 0x11CB3; R 0x11CB5 0x11CB6;
   R 0x11D31 0x11D36; R 0x11D3A 0x11D3A; R 0x11D3C 0x11D3D; R 0x11D3F 0x11D45;
   R 0x11D47 0x11D47; R 0x11D90 0x11D91; R 0x11D95 0x11D95; R 0x11D97 0x11D97;
   R 0x11EF3 0x11EF4; R 0x11F00 0x11F01; R 0x11F36 0x11F3A; R 0x11F40 0x11F40;
   R 0x11F42 0x11F42; R 0x13430 0x13440; R 0x13447 0x13455; R 0x16AF0 0x16AF4;
   R 0x16B30 0x16B36; R 0x16F4F 0x16F4F; R 0x16F8F 0x16F92; R 0x16FE4 0x16FE4;
   R 0x1BC9D 0x1BC9E; R 0x1BCA0 0x1BCA3; R 0x1CF00 0x1CF2D; R 0x1CF30 0x1CF46;
   R 0x1D167 0x1D169; R 0x1D173 0x1D182; R 0x1D185 0x1D18B; R 0x1D1AA 0x1D1AD;
   R 0x1D242 0x1D244; R 0x1DA00 0x1DA36; R 0x1DA3B 0x1DA6C; R 0x1DA75 0x1DA75;
   R 0x1DA84 0x1DA84; R 0x1DA9B 0x1DA9F; R 0x1DAA1 0x1DAAF; R 0x1E000 0x1E006;
   R 0x1E008 0x1E018; R 0x1E01B 0x1E021; R 0x1E023 0x1E024; R 0x1E026 0x1E02A;
   R 0x1E08F 0x1E08F; R 0x1E130 0x1E136; R 0x1E2AE 0x1E2AE; R 0x1E2EC 0x1E2EF;
   R 0x1E4EC 0x1E4EF; R 0x1E8D0 0x1E8D6; R 0x1E944 0x1E94A; R 0xE0001 0xE0001;
   R 0xE0020 0xE007F; R 0xE0100 0xE01EF
  ].

Definition wide_15_1_0 : list rune_range :=
  [
   R 0x1100 0x115F; R 0x231A 0x231B; R 0x2329 0x232A; R 0x23E9 0x23EC;
   R 0x23F0 0x23F0; R 0x23F3 0x23F3; R 0x25FD 0x25FE; R 0x2614 0x2615;
   R 0x2648 0x2653; R 0x267F 0x267F; R 0x2693 0x2693; R 0x26A1 0x26A1;
   R 0x26AA 0x26AB; R 0x26BD 0x26BE; R 0x26C4 0x26C5; R 0x26CE 0x26CE;
   R 0x26D4 0x26D4; R 0x26EA 0x26EA; R 0x26F2 0x26F3; R 0x26F5 0x26F5;
   R 0x26FA 0x26FA; R 0x26FD 0x26FD; R 0x2705 0x2705; R 0x270A 0x270B;
   R 0x2728 0x2728; R 0x274C 0x274C; R 0x274E 0x274E; R 0x2753 0x2755;
   R 0x2757 0x2757; R 0x2795 0x2797; R 0x27B0 0x27B0; R 0x27BF 0x27BF;
   R 0x2B1B 0x2B1C; R 0x2B50 0x2B50; R 0x2B55 0x2B55; R 0x2E80 0x2E99;
   R 0x2E9B 0x2EF3; R 0x2F00 0x2FD5; R 0x2FF0 0x303E; R 0x3041 0x3096;
   R 0x3099 0x30FF; R 0x3105 0x312F; R 0x3131 0x318E; R 0x3190 0x31E3;
   R 0x31EF 0x321E; R 0x3220 0x3247; R 0x3250 0x4DBF; R 0x4E00 0xA48C;
   R 0xA490 0xA4C6; R 0xA960 0xA97C; R 0xAC00 0xD7A3; R 0xF900 0xFAFF;
   R 0xFE10 0xFE19; R 0xFE30 0xFE52; R 0xFE54 0xFE66; R 0xFE68 0xFE6B;
   R 0xFF01 0xFF60; R 0xFFE0 0xFFE6; R 0x16FE0 0x16FE4; R 0x16FF0 0x16FF1;
   R 0x17000 0x187F7; R 0x18800 0x18CD5; R 0x18D00 0x18D08; R 0x1AFF0 0x1AFF3;
   R 0x1AFF5 0x1AFFB; R 0x1AFFD 0x1AFFE; R 0x1B000 0x1B122; R 0x1B132 0x1B132;
   R 0x1B150 0x1B152; R 0x1B155 0x1B155; R 0x1B164 0x1B167; R 0x1B170 0x1B2FB;
   R 0x1F004 0x1F004; R 0x1F0CF 0x1F0CF; R 0x1F18E 0x1F18E; R 0x1F191 0x1F19A;
   R 0x1F1E6 0x1F202; R 0x1F210 0x1F23B; R 0x1F240 0x1F248; R 0x1F250 0x1F251;
   R 0x1F260 0x1F265; R 0x1F300 0x1F320; R 0x1F32D 0x1F335; R 0x1F337 0x1F37C;
   R 0x1F37E 0x1F393; R 0x1F3A0 0x1F3CA; R 0x1F3CF 0x1F3D3; R 0x1F3E0 0x1F3F0;
   R 0x1F3F4 0x1F3F4; R 0x1F3F8 0x1F43E; R 0x1F440 0x1F440; R 0x1F442 0x1F4FC;
   R 0x1F4FF 0x1F53D; R 0x1F54B 0x1F54E; R 0x1F550 0x1F567; R 0x1F57A 0x1F57A;
   R 0x1F595 0x1F596; R 0x1F5A4 0x1F5A4; R 0x1F5FB 0x1F64F; R 0x1F680 0x1F6C5;
   R 0x1F6CC 0x1F6CC; R 0x1F6D0 0x1F6D2; R 0x1F6D5 0x1F6D7; R 0x1F6DC 0x1F6DF;
   R 0x1F6EB 0x1F6EC; R 0x1F6F4 0x1F6FC; R 0x1F7E0 0x1F7EB; R 0x1F7F0 0x1F7F0;
   R 0x1F90C 0x1F93A; R 0x1F93C 0x1F945; R 0x1F947 0x1F9FF; R 0x1FA70 0x1FA7C;
   R 0x1FA80 0x1FA88; R 0x1FA90 0x1FABD; R 0x1FABF 0x1FAC5; R 0x1FACE 0x1FADB;
   R 0x1FAE0 0x1FAE8; R 0x1FAF0 0x1FAF8; R 0x20000 0x2FFFD; R 0x30000 0x3FFFD
  ].

Definition table_9_0_0 : rune_width_table :=
  {| version := str "9.0.0"; zero := zero_9_0_0; wide := wide_9_0_0 |}.
Definition table_12_1_0 : rune_width_table :=
  {| version := str "12.1.0"; zero := zero_12_1_0; wide := wide_12_1_0 |}.
Definition table_15_1_0 : rune_width_table :=
  {| version := str "15.1.0"; zero := zero_15_1_0; wide := wide_15_1_0 |}.

Definition rune_width_builtin : list rune_width_table :=
  [table_9_0_0; table_12_1_0; table_15_1_0].
