(* ===== verification/RuneWidth.v ===== *)
(** * Character width (src/libutf8/rune_width.c)

    The binary search over the width tables, the selection of the current
    table and [rune_width] itself.  The search is proved equal to plain
    membership on sorted tables, and the shipped tables are proved sorted. *)

From S2P Require Import Prelude WidthTables.

(** ** Definitions *)

(** The loop of [range_search].  The window halves, so [count] turns are more
    than enough fuel. *)
Fixpoint range_search_loop (fuel : nat) (table : list rune_range) (lo hi cp : Z) : option bool :=
  if lo <? hi then
    let mid := lo + (hi - lo) / 2 in
    r ← aget table mid;
    match fuel with
    | O => None
    | S fuel' =>
        if range_last r <? cp then range_search_loop fuel' table (mid + 1) hi cp
        else if cp <? range_first r then range_search_loop fuel' table lo mid cp
        else Some true
    end
  else Some false.

Definition range_search (table : list rune_range) (count cp : Z) : option bool :=
  range_search_loop (Z.to_nat count) table 0 count cp.

Definition find_table (ver : list Z) : option rune_width_table :=
  find (λ t, bool_decide (version t = ver)) rune_width_builtin.

Definition latest_table : option rune_width_table := list.last rune_width_builtin.

(** The static [current] pointer is the state; the environment variable is an
    argument.  Both functions answer the new state and the return code. *)
Definition rune_width_init (env : option (list Z)) : option rune_width_table * Z :=
  match env with
  | Some (c :: env') =>
      match find_table (c :: env') with
      | Some t => (Some t, 0)
      | None => (latest_table, -1)
      end
  | _ => (latest_table, 0)
  end.

Definition rune_width_set (current : option rune_width_table) (ver : list Z)
  : option rune_width_table * Z :=
  match find_table ver with
  | None => (current, -1)
  | Some t => (Some t, 0)
  end.

(** [rune_width(cp)] once a table is current. *)
Definition rune_width_in (t : rune_width_table) (cp : Z) : option Z :=
  if cp =? 0 then Some 0 else
  if (cp <? 0x20) || ((0x7F <=? cp) && (cp <? 0xA0)) then Some (-1) else
  z ← range_search (zero t) (zlen (zero t)) cp;
  if (z : bool) then Some 0 else
  w ← range_search (wide t) (zlen (wide t)) cp;
  if (w : bool) then Some 2 else Some 1.

(** [rune_width(cp)]: initialises the table on first use. *)
Definition rune_width (env : option (list Z)) (current : option rune_width_table) (cp : Z)
  : option (option rune_width_table * Z) :=
  let current := match current with None => fst (rune_width_init env) | c => c end in
  t ← current; w ← rune_width_in t cp; Some (Some t, w).

(** ** Specification *)

Definition in_range (cp : Z) (r : rune_range) : bool :=
  (range_first r <=? cp) && (cp <=? range_last r).

Definition in_table (cp : Z) (table : list rune_range) : bool := existsb (in_range cp) table.

(** Sorted, disjoint, non-empty ranges. *)
Definition table_sorted (table : list rune_range) : Prop :=
  ∀ i j ri rj, aget table i = Some ri → aget table j = Some rj →
  (i < j → range_last ri < range_first rj) ∧ (i = j → range_first ri <= range_last ri).

(** An executable test for it. *)
Fixpoint sortedb_from (low : Z) (table : list rune_range) : bool :=
  match table with
  | [] => true
  | r :: table' => (low <? range_first r) && (range_first r <=? range_last r)
                   && sortedb_from (range_last r) table'
  end.

Definition width_spec (t : rune_width_table) (cp : Z) : Z :=
  if cp =? 0 then 0
  else if (cp <? 0x20) || ((0x7F <=? cp) && (cp <? 0xA0)) then -1
  else if in_table cp (zero t) then 0
  else if in_table cp (wide t) then 2 else 1.

(** What the terminal needs of the table in use: its tables are sorted and
    leave ASCII alone. *)
Class WidthTable (t : rune_width_table) : Prop := {
  zero_sorted : table_sorted (zero t);
  wide_sorted : table_sorted (wide t);
  zero_above_ascii : ∀ cp, cp < 0xA0 → in_table cp (zero t) = false;
  wide_above_ascii : ∀ cp, cp < 0xA0 → in_table cp (wide t) = false;
}.

(** ** Proofs *)

Lemma sortedb_above low table i r :
  sortedb_from low table = true → aget table i = Some r → low < range_first r.
Proof.
  revert low i; induction table as [|r0 table IH]; intros low i; simpl;
    [intros _ H%aget_Some; unfold zlen in H; simpl in H; lia |].
  rewrite !andb_true_iff. intros [[H1 H2] H3] Hi.
  pose proof (aget_Some _ _ _ Hi). destruct (decide (i = 0)) as [->|].
  - injection Hi as ->. lia.
  - rewrite aget_lookup in Hi by lia.
    replace (Z.to_nat i) with (S (Z.to_nat (i - 1))) in Hi by lia. simpl in Hi.
    rewrite <- aget_lookup in Hi by lia. specialize (IH _ _ H3 Hi). lia.
Qed.

Lemma sortedb_sorted low table : sortedb_from low table = true → table_sorted table.
Proof.
  revert low; induction table as [|r0 table IH]; intros low; simpl.
  { intros _ i j ri rj H%aget_Some. unfold zlen in H. simpl in H. lia. }
  rewrite !andb_true_iff. intros [[H1 H2] H3] i j ri rj Hi Hj.
  pose proof (aget_Some _ _ _ Hi). pose proof (aget_Some _ _ _ Hj).
  assert (∀ k r, 0 < k → aget (r0 :: table) k = Some r → aget table (k - 1) = Some r) as Htl.
  { intros k r Hk. rewrite !aget_lookup by lia.
    by replace (Z.to_nat k) with (S (Z.to_nat (k - 1))) by lia. }
  destruct (decide (i = 0)) as [->|], (decide (j = 0)) as [->|].
  - injection Hi as ->. split; lia.
  - injection Hi as ->. split; [intros _ | lia].
    apply (sortedb_above _ table (j - 1)); [done | apply Htl; [lia | done]].
  - split; lia.
  - destruct (IH _ H3 (i - 1) (j - 1) ri rj) as [A B]; [apply Htl; [lia | done] .. |].
    split; [intros; apply A; lia | intros; apply B; lia].
Qed.

Lemma existsb_aget (P : rune_range → bool) l :
  existsb P l = true ↔ ∃ i r, aget l i = Some r ∧ P r = true.
Proof.
  rewrite existsb_exists. split.
  - intros (r & Hin & HP). apply list_elem_of_In, list_elem_of_lookup in Hin as [n Hn].
    exists (Z.of_nat n), r. by rewrite aget_nat.
  - intros (i & r & Hi & HP). exists r. split; [| done].
    apply list_elem_of_In, list_elem_of_lookup. pose proof (aget_Some _ _ _ Hi).
    rewrite aget_lookup in Hi by lia. eauto.
Qed.

Lemma range_search_loop_spec table cp fuel lo hi :
  table_sorted table → 0 <= lo → hi <= zlen table → hi - lo <= Z.of_nat fuel →
  (∀ i r, aget table i = Some r → in_range cp r = true → lo <= i < hi) →
  range_search_loop fuel table lo hi cp = Some (in_table cp table).
Proof.
  intros Hsort. revert lo hi; induction fuel as [|fuel IH]; intros lo hi Hlo Hhi Hf Hwin;
    cbn [range_search_loop].
  { destruct (Z.ltb_spec lo hi); [lia |]. f_equal. symmetry. apply not_true_iff_false.
    intros (i & r & Hi & Hr)%existsb_aget. specialize (Hwin _ _ Hi Hr). lia. }
  destruct (Z.ltb_spec lo hi).
  2: { f_equal. symmetry. apply not_true_iff_false.
       intros (i & r & Hi & Hr)%existsb_aget. specialize (Hwin _ _ Hi Hr). lia. }
  set (mid := lo + (hi - lo) / 2).
  assert (lo <= mid < hi) as Hmid.
  { unfold mid. pose proof (Z.div_lt_upper_bound (hi - lo) 2 (hi - lo)).
    pose proof (Z.div_pos (hi - lo) 2). lia. }
  destruct (aget_in table mid) as [r Hr]; [lia |]. rewrite Hr. cbn [mbind option_bind].
  assert (∀ i r', aget table i = Some r' → in_range cp r' = true →
    (i < mid → cp < range_first r) ∧ (mid < i → range_last r < cp)) as Hside.
  { intros i r' Hi Hin. unfold in_range in Hin. split; intros Hlt.
    - destruct (Hsort i mid r' r) as [S1 _]; [done .. |]. specialize (S1 Hlt). lia.
    - destruct (Hsort mid i r r') as [S1 _]; [done .. |]. specialize (S1 Hlt). lia. }
  destruct (Hsort mid mid r r Hr Hr) as [_ Hne]. specialize (Hne eq_refl).
  destruct (Z.ltb_spec (range_last r) cp); [| destruct (Z.ltb_spec cp (range_first r))].
  - apply IH; [lia .. |]. intros i r' Hi Hin. specialize (Hwin _ _ Hi Hin).
    destruct (Hside _ _ Hi Hin) as [S1 _]. destruct (decide (i <= mid)); [| lia].
    exfalso. destruct (decide (i = mid)) as [->|]; [| lia].
    rewrite Hr in Hi. simplify_eq. unfold in_range in Hin. lia.
  - apply IH; [lia .. |]. intros i r' Hi Hin. specialize (Hwin _ _ Hi Hin).
    destruct (Hside _ _ Hi Hin) as [_ S2]. destruct (decide (mid <= i)); [| lia].
    exfalso. destruct (decide (i = mid)) as [->|]; [| lia].
    rewrite Hr in Hi. simplify_eq. unfold in_range in Hin. lia.
  - f_equal. symmetry. apply existsb_aget. exists mid, r. split; [done |].
    unfold in_range. lia.
Qed.

Lemma range_search_member table cp :
  table_sorted table → range_search table (zlen table) cp = Some (in_table cp table).
Proof.
  intros Hs. unfold range_search. apply range_search_loop_spec; [done | lia | lia | unfold zlen; lia |].
  intros i r Hi _. by apply aget_Some in Hi.
Qed.

Section Table.
Context (t : rune_width_table) `{!WidthTable t}.

Lemma rune_width_in_spec cp : rune_width_in t cp = Some (width_spec t cp).
Proof.
  unfold rune_width_in, width_spec.
  rewrite (range_search_member (zero t) cp zero_sorted).
  rewrite (range_search_member (wide t) cp wide_sorted). cbn [mbind option_bind].
  by repeat case_match.
Qed.

Lemma width_spec_range cp : -1 <= width_spec t cp <= 2.
Proof. unfold width_spec. repeat case_match; lia. Qed.

Lemma width_ascii cp : 0x20 <= cp < 0x7F → width_spec t cp = 1.
Proof.
  intros H. unfold width_spec. rewrite zero_above_ascii, wide_above_ascii by lia. zbool.
Qed.
End Table.

Lemma sortedb_low_ascii table :
  sortedb_from 0x9F table = true → ∀ cp, cp < 0xA0 → in_table cp table = false.
Proof.
  intros Hs cp Hcp. apply not_true_iff_false. intros (i & r & Hi & Hr)%existsb_aget.
  pose proof (sortedb_above _ _ _ _ Hs Hi). unfold in_range in Hr. lia.
Qed.

Lemma width_table_intro t :
  sortedb_from 0x9F (zero t) = true → sortedb_from 0x9F (wide t) = true → WidthTable t.
Proof. split; eauto using sortedb_sorted, sortedb_low_ascii. Qed.

#[export] Instance table_9_0_0_ok : WidthTable table_9_0_0.
Proof. apply width_table_intro; vm_compute; reflexivity. Qed.
#[export] Instance table_12_1_0_ok : WidthTable table_12_1_0.
Proof. apply width_table_intro; vm_compute; reflexivity. Qed.
#[export] Instance table_15_1_0_ok : WidthTable table_15_1_0.
Proof. apply width_table_intro; vm_compute; reflexivity. Qed.

Lemma builtin_ok t : t ∈ rune_width_builtin → WidthTable t.
Proof.
  unfold rune_width_builtin. rewrite !elem_of_cons, elem_of_nil.
  intros [->|[->|[->|[]]]]; apply _.
Qed.

Lemma find_table_builtin ver t : find_table ver = Some t → t ∈ rune_width_builtin ∧ version t = ver.
Proof.
  unfold find_table. intros H. apply find_some in H as [Hin Hv].
  split; [by apply list_elem_of_In | by apply bool_decide_eq_true in Hv].
Qed.

Lemma init_builtin env : ∃ t, fst (rune_width_init env) = Some t ∧ t ∈ rune_width_builtin.
Proof.
  assert (∃ t, latest_table = Some t ∧ t ∈ rune_width_builtin) as Hlatest.
  { exists table_15_1_0. split; [reflexivity |]. apply list_elem_of_In. simpl. auto. }
  unfold rune_width_init. destruct env as [[|c env]|]; [exact Hlatest | | exact Hlatest].
  destruct (find_table (c :: env)) eqn:E; [| exact Hlatest].
  eexists. split; [done |]. by apply find_table_builtin in E as [? _].
Qed.

(** [rune_width] never traps from the initial or any selected state, and
    its binary searches answer exactly what membership in the current
    table's ranges says: 0 for NUL and zero-width characters, -1 for controls,
    2 for wide characters, 1 otherwise. *)
Theorem rune_width_correct env current cp :
  (∀ t, current = Some t → t ∈ rune_width_builtin) →
  ∃ t, t ∈ rune_width_builtin ∧
       (∀ t', current = Some t' → t = t') ∧
       rune_width env current cp = Some (Some t, width_spec t cp).
Proof.
  intros Hcur. unfold rune_width.
  assert (∃ t, t ∈ rune_width_builtin ∧ (∀ t', current = Some t' → t = t') ∧
    (match current with None => fst (rune_width_init env) | c => c end) = Some t) as (t & Hin & Ht & E).
  { destruct current as [t|].
    - exists t. split; [by apply Hcur |]. split; [| done]. by intros t' [= ->].
    - destruct (init_builtin env) as (t & E & Hin). exists t. by split_and!. }
  exists t. split_and!; [done | done |]. rewrite E. cbn [mbind option_bind].
  pose proof (builtin_ok t Hin). rewrite rune_width_in_spec by done. done.
Qed.

Lemma rune_width_correct_witness :
  ∃ t, t ∈ rune_width_builtin ∧ (∀ t', Some table_15_1_0 = Some t' → t = t') ∧
       rune_width None (Some table_15_1_0) 0x4E00 = Some (Some t, width_spec t 0x4E00).
Proof.
  apply (rune_width_correct None (Some table_15_1_0) 0x4E00).
  intros t [= <-]. unfold rune_width_builtin. rewrite !elem_of_cons. auto.
Defined.
