(* ===== verification/VtBuf.v ===== *)
(** * Terminal grid and scrollback (src/libvt/vt_cell.c, vt_buf.c)

    Cells, rows, the visible grid and the scrollback ring.  Every row of the
    C code is owned by exactly one slot of one array, so a row is a value
    here; an access outside an array is a trap.  The ring is proved to
    implement a bounded queue of rows ([ring_repr]), and each operation is
    given its closed form on well-formed buffers. *)

From S2P Require Import Prelude.

(** ** Data *)

Definition VT_ATTR_BOLD : Z := 1.
Definition VT_ATTR_UNDERLINE : Z := 2.
Definition VT_ATTR_REVERSE : Z := 4.
Definition VT_ATTR_ITALIC : Z := 8.
Definition VT_ATTR_BLINK : Z := 16.
Definition VT_ATTR_UNDERCURL : Z := 32.
Definition VT_ATTR_DIM : Z := 64.
Definition VT_ATTR_HIDDEN : Z := 128.
Definition VT_ATTR_STRIKE : Z := 256.
Definition VT_ATTR_PREDICTED : Z := 512.

(** [struct vt_color]: the tag and the union member it selects. *)
Inductive vt_color :=
  | VT_COLOR_DEFAULT
  | VT_COLOR_INDEXED (index : Z)
  | VT_COLOR_RGB (r g b : Z).

#[export] Instance vt_color_eq_dec : EqDecision vt_color.
Proof. solve_decision. Defined.

Record vt_cell := mk_cell {
  codepoint : Z;
  cell_fg : vt_color;
  cell_bg : vt_color;
  cell_attrs : Z;
  cell_width : Z;
}.

#[export] Instance vt_cell_eq_dec : EqDecision vt_cell.
Proof. solve_decision. Defined.

(** [vt_cell_clear(c)] and [vt_cell_erase(c, bg)]: the cell's new contents. *)
Definition vt_cell_clear : vt_cell :=
  mk_cell (ch " ") VT_COLOR_DEFAULT VT_COLOR_DEFAULT 0 1.

Definition vt_cell_erase (bg : vt_color) : vt_cell :=
  {| vt_cell_clear with cell_bg := bg |}.

Definition VT_ROW_WRAPPED : Z := 1.
Definition VT_ROW_DIRTY : Z := 2.

Record vt_row := mk_row { cells : list vt_cell; row_flags : Z }.

#[export] Instance vt_row_eq_dec : EqDecision vt_row.
Proof. solve_decision. Defined.

Definition row_dirty (r : vt_row) : vt_row :=
  {| r with row_flags := set_bits (row_flags r) VT_ROW_DIRTY |}.

Record vt_buf := mk_buf {
  buf_rows : Z;
  buf_cols : Z;
  grid : list vt_row;
  ring : list (option vt_row);   (* None is a NULL slot *)
  ring_cap : Z;
  ring_len : Z;
  ring_head : Z;
  scroll_gen : Z;
}.

(** ** Rows *)

Definition row_alloc (cols : Z) : vt_row :=
  mk_row (replicate (Z.to_nat cols) vt_cell_clear) 0.

Definition row_alloc_bg (cols : Z) (bg : vt_color) : vt_row :=
  {| (row_alloc cols) with
     cells := map (λ c, {| c with cell_bg := bg |}) (cells (row_alloc cols)) |}.

Definition row_resize (r : vt_row) (old_cols new_cols : Z) : vt_row :=
  row_dirty {| r with
    cells := take (Z.to_nat new_cols) (cells r)
             ++ replicate (Z.to_nat (new_cols - old_cols)) vt_cell_clear |}.

(** ** The buffer *)

Definition vt_buf_new (rows cols scrollback : Z) : vt_buf :=
  {| buf_rows := rows; buf_cols := cols;
     grid := replicate (Z.to_nat rows) (row_alloc cols);
     ring := replicate (Z.to_nat scrollback) None;
     ring_cap := scrollback; ring_len := 0; ring_head := 0; scroll_gen := 0 |}.

Definition upd_grid (b : vt_buf) (f : list vt_row → option (list vt_row)) : option vt_buf :=
  g ← f (grid b); Some {| b with grid := g |}.

Definition vt_buf_resize (b : vt_buf) (rows cols : Z) : option vt_buf :=
  let old_rows := buf_rows b in
  let old_cols := buf_cols b in
  b ← (if cols =? old_cols then Some b else
       g ← for_up 0 (Z.min old_rows rows)
             (λ i g, r ← aget g i; aset g i (row_resize r old_cols cols)) (grid b);
       k ← for_up 0 (ring_cap b)
             (λ i k, o ← aget k i;
                match o with
                | Some r => aset k i (Some (row_resize r old_cols cols))
                | None => Some k
                end) (ring b);
       Some {| b with grid := g; ring := k |});
  let g :=
    if old_rows <? rows
    then grid b ++ replicate (Z.to_nat (rows - old_rows)) (row_alloc cols)
    else if rows <? old_rows then take (Z.to_nat rows) (grid b)
    else grid b in
  Some {| b with grid := g; buf_rows := rows; buf_cols := cols |}.

(** [vt_buf_row] answers a row pointer: here the row's index, [None] for NULL. *)
Definition vt_buf_row (b : vt_buf) (row : Z) : option Z :=
  if (row <? 0) || (buf_rows b <=? row) then None else Some row.

(** [vt_buf_cell] answers a cell pointer: the row and column, [None] for NULL. *)
Definition vt_buf_cell (b : vt_buf) (row col : Z) : option (Z * Z) :=
  if (row <? 0) || (buf_rows b <=? row) then None
  else if (col <? 0) || (buf_cols b <=? col) then None
  else Some (row, col).

Definition vt_buf_scrollback_row (b : vt_buf) (offset : Z) : option (option vt_row) :=
  if (0 <=? offset) || (ring_len b <? - offset) then Some None
  else aget (ring b) (Z.rem (ring_head b + offset + ring_cap b) (ring_cap b)).

Definition ring_push (b : vt_buf) (r : vt_row) : option vt_buf :=
  if ring_cap b =? 0 then Some b else
  k ← aset (ring b) (ring_head b) (Some r);
  Some {| b with
    ring := k;
    ring_head := Z.rem (ring_head b + 1) (ring_cap b);
    ring_len := if ring_len b <? ring_cap b then ring_len b + 1 else ring_len b |}.

(** The final loop of [vt_buf_scroll]. *)
Definition dirty_rows (lo hi : Z) (g : list vt_row) : option (list vt_row) :=
  for_up lo hi (λ i g, r ← aget g i; aset g i (row_dirty r)) g.

Definition vt_buf_scroll_up (b : vt_buf) (top bottom count : Z) (bg : vt_color) : option vt_buf :=
  let count := if bottom - top <? count then bottom - top else count in
  b ← for_up top (top + count)
        (λ i b, r ← aget (grid b) i; if top =? 0 then ring_push b r else Some b) b;
  upd_grid b (λ g,
    g ← for_up top (bottom - count) (λ i g, v ← aget g (i + count); aset g i v) g;
    for_up (bottom - count) bottom (λ i g, aset g i (row_alloc_bg (buf_cols b) bg)) g).

Definition vt_buf_scroll_down (b : vt_buf) (top bottom count : Z) (bg : vt_color) : option vt_buf :=
  let count := if bottom - top <? count then bottom - top else count in
  upd_grid b (λ g,
    g ← for_down (bottom - 1) (top + count) (λ i g, v ← aget g (i - count); aset g i v) g;
    for_up top (top + count) (λ i g, aset g i (row_alloc_bg (buf_cols b) bg)) g).

Definition vt_buf_scroll (b : vt_buf) (top bottom count : Z) (bg : vt_color) : option vt_buf :=
  let top := if top <? 0 then 0 else top in
  let bottom := if buf_rows b <? bottom then buf_rows b else bottom in
  if (bottom <=? top) || (count =? 0) then Some b else
  let b := {| b with scroll_gen := u32 (scroll_gen b + 1) |} in
  b ← (if 0 <? count then vt_buf_scroll_up b top bottom count bg
       else vt_buf_scroll_down b top bottom (- count) bg);
  upd_grid b (dirty_rows top bottom).

(** [for (j = lo; j < hi; j++) vt_cell_erase(&r->cells[j], bg)] *)
Definition row_erase (lo hi : Z) (bg : vt_color) (r : vt_row) : option vt_row :=
  cs ← for_up lo hi (λ j cs, aset cs j (vt_cell_erase bg)) (cells r);
  Some {| r with cells := cs |}.

Definition vt_buf_clear_rows (b : vt_buf) (from to : Z) (bg : vt_color) : option vt_buf :=
  let from := if from <? 0 then 0 else from in
  let to := if buf_rows b <? to then buf_rows b else to in
  upd_grid b (for_up from to (λ i g,
    r ← aget g i;
    r ← row_erase 0 (buf_cols b) bg r;
    aset g i {| r with row_flags := VT_ROW_DIRTY |})).

Definition vt_buf_dirty_all (b : vt_buf) : option vt_buf :=
  upd_grid b (dirty_rows 0 (buf_rows b)).

Definition copy_cells (n : Z) (src dst : list vt_cell) : option (list vt_cell) :=
  for_up 0 n (λ j d, c ← aget src j; aset d j c) dst.

Definition vt_buf_push_rows (dst src : vt_buf) (from count : Z) : option vt_buf :=
  if (ring_cap dst =? 0) || (count <=? 0) then Some dst else
  let from := if from <? 0 then 0 else from in
  let n := if buf_rows src <? from + count then buf_rows src - from else count in
  if n <=? 0 then Some dst else
  let cc := if buf_cols src <? buf_cols dst then buf_cols src else buf_cols dst in
  dst ← for_up 0 n (λ i dst,
    sr ← aget (grid src) (from + i);
    cs ← copy_cells cc (cells sr) (cells (row_alloc (buf_cols dst)));
    ring_push dst (mk_row cs VT_ROW_DIRTY)) dst;
  Some {| dst with scroll_gen := u32 (scroll_gen dst + 1) |}.

(** [None] inside is the NULL answer. *)
Definition history_row (b : vt_buf) (line : Z) : option (option vt_row) :=
  let sb := ring_len b in
  if line <? 0 then Some None
  else if line <? sb then
    let off := - (sb - line) in
    aget (ring b) (Z.rem (ring_head b + off + ring_cap b) (ring_cap b))
  else
    let line := line - sb in
    if line <? buf_rows b then r ← aget (grid b) line; Some (Some r)
    else Some None.

(** The body of the loop of [vt_buf_copy_scrollback] for one destination row. *)
Definition copy_line (dst_cols src_cols : Z) (sr : option vt_row) (dr : vt_row) : option vt_row :=
  cs ← for_up 0 dst_cols (λ j cs, aset cs j vt_cell_clear) (cells dr);
  cs ← match sr with
       | None => Some cs
       | Some sr => copy_cells (if dst_cols <? src_cols then dst_cols else src_cols) (cells sr) cs
       end;
  Some (row_dirty {| dr with cells := cs |}).

Fixpoint copy_scrollback_loop (n : nat) (i : Z) (dst src : vt_buf) (dst_row src_offset : Z)
  : option vt_buf :=
  match n with
  | O => Some dst
  | S n' =>
      match vt_buf_row dst (dst_row + i) with
      | None => Some dst        (* break *)
      | Some dri =>
          sr ← history_row src (src_offset + i);
          dst ← upd_grid dst (λ g,
            dr ← aget g dri;
            dr ← copy_line (buf_cols dst) (buf_cols src) sr dr;
            aset g dri dr);
          copy_scrollback_loop n' (i + 1) dst src dst_row src_offset
      end
  end.

Definition vt_buf_copy_scrollback (dst src : vt_buf) (dst_row src_offset count : Z) : option vt_buf :=
  copy_scrollback_loop (Z.to_nat count) 0 dst src dst_row src_offset.

(** ** The ring as a bounded queue *)

(** Appending to a queue that keeps the [cap] most recent rows. *)
Definition push_bounded {A} (cap : Z) (h : list A) (r : A) : list A :=
  if cap =? 0 then h
  else if zlen h <? cap then h ++ [r] else drop 1 h ++ [r].

Definition push_all {A} (cap : Z) (h rs : list A) : list A := foldl (push_bounded cap) h rs.

(** The slot of the [k]-th oldest line. *)
Definition ring_at (b : vt_buf) (k : Z) : Z :=
  Z.rem (ring_head b + (k - ring_len b) + ring_cap b) (ring_cap b).

(** The ring of [b] holds the lines [h], oldest first. *)
Record ring_repr (b : vt_buf) (h : list vt_row) : Prop := {
  rr_size : zlen (ring b) = ring_cap b;
  rr_len : zlen h = ring_len b;
  rr_cap : ring_len b <= ring_cap b;
  rr_head : 0 <= ring_head b ∧ (ring_head b < ring_cap b ∨ (ring_cap b = 0 ∧ ring_head b = 0));
  rr_at : ∀ k r, aget h k = Some r → aget (ring b) (ring_at b k) = Some (Some r);
}.

Definition row_ok (C : Z) (r : vt_row) : Prop := zlen (cells r) = C.

(** A well-formed [R] by [C] buffer whose history is [h]. *)
Record buf_repr (R C : Z) (b : vt_buf) (h : list vt_row) : Prop := {
  br_rows : buf_rows b = R;
  br_cols : buf_cols b = C;
  br_dims : 0 <= R ∧ 0 <= C;
  br_size : zlen (grid b) = R;
  br_grid : Forall (row_ok C) (grid b);
  br_ring : ring_repr b h;
  br_hist : Forall (row_ok C) h;
}.

Lemma rem_wrap c x : 0 <= x < 2 * c → Z.rem x c = if x <? c then x else x - c.
Proof.
  intros H. rewrite Z.rem_mod_nonneg by lia. destruct (Z.ltb_spec x c).
  - apply Z.mod_small. lia.
  - symmetry. apply (Z.mod_unique_pos x c 1); lia.
Qed.

Lemma zlen_push_bounded {A} cap (h : list A) r :
  0 <= cap → zlen h <= cap → zlen (push_bounded cap h r) = if cap =? 0 then zlen h else Z.min cap (zlen h + 1).
Proof.
  intros. unfold push_bounded. destruct (Z.eqb_spec cap 0); [done |].
  destruct (Z.ltb_spec (zlen h) cap).
  - rewrite zlen_app. unfold zlen at 2. simpl. lia.
  - rewrite zlen_app. change (drop 1 h) with (drop (Z.to_nat 1) h).
    rewrite zlen_drop by lia. unfold zlen at 2. simpl. lia.
Qed.

(** [ring_push] implements [push_bounded] and touches nothing else. *)
Lemma ring_push_spec b h r :
  ring_repr b h →
  yields (ring_push b r) (λ b',
    ring_repr b' (push_bounded (ring_cap b) h r) ∧
    ring_cap b' = ring_cap b ∧
    grid b' = grid b ∧ buf_rows b' = buf_rows b ∧ buf_cols b' = buf_cols b ∧
    scroll_gen b' = scroll_gen b).
Proof.
  intros [Hs Hl Hc Hh Hat]. unfold ring_push.
  pose proof (zlen_nonneg h) as Hlen0.
  assert (∀ k r0, aget h k = Some r0 → 0 <= k < ring_len b) as Hk
    by (intros k r0 ?%aget_Some; lia).
  destruct (Z.eqb_spec (ring_cap b) 0) as [E|Hne].
  { simpl. split_and!; try done. unfold push_bounded. rewrite E. by constructor. }
  rewrite aset_in by lia. simpl. split_and!; try done.
  pose proof (zlen_push_bounded (ring_cap b) h r ltac:(lia) ltac:(lia)) as Hpl.
  constructor; simpl.
  - by rewrite zlen_insert.
  - rewrite Hpl. zbool.
  - zbool.
  - rewrite rem_wrap by lia. zbool.
  - intros k r' Hr'. pose proof (aget_Some _ _ _ Hr') as Hkr. rewrite Hpl in Hkr.
    unfold ring_at in *. simpl. rewrite aget_insert by lia.
    rewrite (rem_wrap _ (ring_head b + 1)) by lia.
    unfold push_bounded in Hr'. destruct (Z.eqb_spec (ring_cap b) 0); [lia |].
    destruct (Z.ltb_spec (zlen h) (ring_cap b)).
    + destruct (Z.ltb_spec (ring_len b) (ring_cap b)); [| lia].
      rewrite aget_app in Hr' by lia. destruct (Z.ltb_spec k (zlen h)).
      * specialize (Hat _ _ Hr'). rewrite rem_wrap in Hat by lia.
        rewrite decide_False by (rewrite rem_wrap by zbool; zbool).
        rewrite <- Hat. f_equal. rewrite rem_wrap by zbool. zbool.
      * replace (k - zlen h) with 0 in Hr' by lia. injection Hr' as ->.
        rewrite decide_True by (rewrite rem_wrap by zbool; zbool). done.
    + destruct (Z.ltb_spec (ring_len b) (ring_cap b)); [lia |].
      change (drop 1 h) with (drop (Z.to_nat 1) h) in Hr'.
      rewrite aget_app, zlen_drop in Hr' by lia. destruct (Z.ltb_spec k (zlen h - 1)).
      * rewrite aget_drop in Hr' by lia.
        specialize (Hat _ _ Hr'). rewrite rem_wrap in Hat by lia.
        rewrite decide_False by (rewrite rem_wrap by zbool; zbool).
        rewrite <- Hat. f_equal. rewrite rem_wrap by zbool. zbool.
      * replace (k - (zlen h - 1)) with 0 in Hr' by lia. injection Hr' as ->.
        rewrite decide_True by (rewrite rem_wrap by zbool; zbool). done.
Qed.

Lemma push_bounded_Forall {A} (P : A → Prop) cap h r :
  Forall P h → P r → Forall P (push_bounded cap h r).
Proof.
  intros. unfold push_bounded. repeat case_match; [done | |];
    apply Forall_app; eauto using Forall_drop.
Qed.

(** Pushing a whole list keeps the most recent [cap] of everything. *)
Lemma push_all_drop {A} cap (h rs : list A) :
  0 < cap → zlen h <= cap →
  push_all cap h rs = drop (Z.to_nat (zlen h + zlen rs - cap)) (h ++ rs).
Proof.
  intros Hcap. unfold push_all. revert h; induction rs as [|r rs IH]; intros h Hh; simpl.
  { rewrite app_nil_r. unfold zlen in *. simpl. by replace (Z.to_nat _) with 0%nat by lia. }
  pose proof (zlen_push_bounded cap h r ltac:(lia) Hh) as Hpl.
  rewrite IH, Hpl by (rewrite Hpl; zbool).
  destruct (Z.eqb_spec cap 0); [lia |].
  unfold push_bounded. destruct (Z.eqb_spec cap 0); [lia |].
  rewrite zlen_cons. destruct (Z.ltb_spec (zlen h) cap).
  - rewrite <- app_assoc. simpl. f_equal. lia.
  - rewrite <- app_assoc. simpl. change (drop 1 h) with (drop (Z.to_nat 1) h).
    pose proof (zlen_nonneg rs). pose proof (zlen_nonneg h).
    replace (Z.to_nat (zlen h + (zlen rs + 1) - cap))
      with (Z.to_nat 1 + Z.to_nat (Z.min cap (zlen h + 1) + zlen rs - cap))%nat by lia.
    rewrite <- (drop_drop (h ++ r :: rs)). f_equal. rewrite drop_app_le; [done |].
    unfold zlen in *. lia.
Qed.

(** ** Closed forms of the operations on well-formed buffers *)

Lemma row_ok_alloc C : 0 <= C → row_ok C (row_alloc C).
Proof. intros. unfold row_ok. simpl. by rewrite zlen_replicate. Qed.

Lemma row_ok_alloc_bg C bg : 0 <= C → row_ok C (row_alloc_bg C bg).
Proof. intros. unfold row_ok. simpl. by rewrite zlen_map, zlen_replicate. Qed.

Lemma row_ok_dirty C r : row_ok C (row_dirty r) ↔ row_ok C r.
Proof. done. Qed.

Lemma row_ok_resize C C' r : 0 <= C' → row_ok C r → row_ok C' (row_resize r C C').
Proof.
  unfold row_ok, zlen. intros HC' H. simpl.
  rewrite length_app, length_take, length_replicate. lia.
Qed.

#[export] Hint Resolve row_ok_alloc row_ok_alloc_bg row_ok_resize : lumi.

Lemma vt_buf_new_repr R C sb :
  0 <= R → 0 <= C → 0 <= sb → buf_repr R C (vt_buf_new R C sb) [].
Proof.
  intros. constructor; simpl; try done.
  - by rewrite zlen_replicate.
  - apply Forall_replicate. auto with lumi.
  - constructor; simpl; try lia.
    + by rewrite zlen_replicate.
    + done.
    + intros k r Hk%aget_Some. unfold zlen in Hk; simpl in Hk. lia.
Qed.

Lemma buf_repr_row R C b h i r : buf_repr R C b h → aget (grid b) i = Some r → row_ok C r.
Proof. intros Hb. apply Forall_aget. apply Hb. Qed.

Lemma buf_repr_row_in R C b h i :
  buf_repr R C b h → 0 <= i < R → ∃ r, aget (grid b) i = Some r ∧ row_ok C r.
Proof.
  intros Hb Hi. destruct (aget_in (grid b) i) as [r Hr]; [by rewrite (br_size _ _ _ _ Hb) |].
  exists r. eauto using buf_repr_row.
Qed.

(** Replacing the grid by one of the same shape. *)
Lemma buf_repr_grid R C b h g :
  buf_repr R C b h → zlen g = R → Forall (row_ok C) g → buf_repr R C {| b with grid := g |} h.
Proof. intros [? ? ? ? ? [? ? ? ? ?] ?] ? ?. constructor; try done; by constructor. Qed.

Lemma buf_repr_zmap R C b h f :
  buf_repr R C b h → (∀ i r, aget (grid b) i = Some r → row_ok C r → row_ok C (f i r)) →
  buf_repr R C {| b with grid := zmap f (grid b) |} h.
Proof.
  intros Hb Hf. apply buf_repr_grid; [done | rewrite zlen_zmap; apply Hb |].
  apply Forall_aget. intros i r. rewrite aget_zmap.
  destruct (aget (grid b) i) eqn:E; [| done]. intros [= <-].
  apply Hf; [done |]. by eapply buf_repr_row.
Qed.

Lemma buf_repr_gen R C b h n : buf_repr R C b h → buf_repr R C {| b with scroll_gen := n |} h.
Proof. intros [? ? ? ? ? [? ? ? ? ?] ?]. constructor; try done; by constructor. Qed.

(** The visible grid after a scroll by [n] inside [top, bottom). *)
Definition scrolled_up (top bottom n : Z) (blank : vt_row) (g : list vt_row) : list vt_row :=
  zmap (λ i r, if (top <=? i) && (i <? bottom)
               then row_dirty (if i <? bottom - n then default r (aget g (i + n)) else blank)
               else r) g.

Definition scrolled_down (top bottom n : Z) (blank : vt_row) (g : list vt_row) : list vt_row :=
  zmap (λ i r, if (top <=? i) && (i <? bottom)
               then row_dirty (if top + n <=? i then default r (aget g (i - n)) else blank)
               else r) g.

Lemma scrolled_up_ok C top bottom n blank g :
  row_ok C blank → Forall (row_ok C) g → Forall (row_ok C) (scrolled_up top bottom n blank g).
Proof.
  intros Hbl Hg. apply Forall_aget. intros i r. unfold scrolled_up. rewrite aget_zmap.
  destruct (aget g i) as [r0|] eqn:E; [| done]. intros [= <-].
  rewrite Forall_aget in Hg. case_match; [apply row_ok_dirty | eauto].
  case_match; [| done]. destruct (aget g (i + n)) eqn:E2; simpl; eauto.
Qed.

Lemma scrolled_down_ok C top bottom n blank g :
  row_ok C blank → Forall (row_ok C) g → Forall (row_ok C) (scrolled_down top bottom n blank g).
Proof.
  intros Hbl Hg. apply Forall_aget. intros i r. unfold scrolled_down. rewrite aget_zmap.
  destruct (aget g i) as [r0|] eqn:E; [| done]. intros [= <-].
  rewrite Forall_aget in Hg. case_match; [apply row_ok_dirty | eauto].
  case_match; [| done]. destruct (aget g (i - n)) eqn:E2; simpl; eauto.
Qed.

Lemma dirty_rows_eq lo hi g :
  0 <= lo → hi <= zlen g →
  dirty_rows lo hi g = Some (zmap (λ i r, if (lo <=? i) && (i <? hi) then row_dirty r else r) g).
Proof. intros. unfold dirty_rows. by apply (for_up_upd (λ _ r, row_dirty r)). Qed.

(** The rows leaving at the top go to the ring, oldest first. *)
Lemma push_rows_loop R C b h top n :
  buf_repr R C b h → 0 <= top → top + n <= R → 0 <= n →
  yields (for_up top (top + n)
    (λ i b, r ← aget (grid b) i; if top =? 0 then ring_push b r else Some b) b) (λ b',
    buf_repr R C b' (if top =? 0 then push_all (ring_cap b) h (take (Z.to_nat n) (grid b)) else h) ∧
    grid b' = grid b ∧ ring_cap b' = ring_cap b ∧ scroll_gen b' = scroll_gen b).
Proof.
  intros Hb Htop Hn Hn0.
  eapply yields_mono.
  - apply (for_up_inv (λ i b',
      buf_repr R C b' (if top =? 0 then push_all (ring_cap b) h (take (Z.to_nat i) (grid b)) else h) ∧
      grid b' = grid b ∧ ring_cap b' = ring_cap b ∧ scroll_gen b' = scroll_gen b)); [lia | |].
    + destruct (Z.eqb_spec top 0) as [->|]; split_and!; done.
    + intros i b' Hi (Hb' & Hg & Hc & Hsg).
      destruct (buf_repr_row_in _ _ _ _ i Hb') as (r & Hr & Hok); [lia |].
      rewrite Hr. cbn [mbind option_bind]. destruct (Z.eqb_spec top 0) as [->|]; [| done].
      destruct Hb' as [Br Bc Bd Bs Bg Bring Bh].
      eapply yields_mono; [apply ring_push_spec, Bring |].
      intros b'' (Hrr & Hc' & Hg' & Hr' & Hcc & Hs'). split_and!; [| congruence ..].
      rewrite Hg in Hr. rewrite aget_lookup in Hr by lia.
      replace (Z.to_nat (i + 1)) with (S (Z.to_nat i)) by lia.
      rewrite (take_S_r _ _ _ Hr). unfold push_all in *. rewrite foldl_app. simpl.
      rewrite Hc in Hrr. constructor; try congruence; try done.
      by apply push_bounded_Forall.
  - intros b'. simpl. destruct (Z.eqb_spec top 0) as [->|]; [by rewrite Z.add_0_l | done].
Qed.

Lemma vt_buf_scroll_up_spec R C b h top bottom n bg :
  buf_repr R C b h → 0 <= top < bottom → bottom <= R → 0 < n →
  let n' := Z.min n (bottom - top) in
  yields (vt_buf_scroll_up b top bottom n bg ≫= λ b, upd_grid b (dirty_rows top bottom)) (λ b',
    buf_repr R C b' (if top =? 0 then push_all (ring_cap b) h (take (Z.to_nat n') (grid b)) else h) ∧
    grid b' = scrolled_up top bottom n' (row_alloc_bg C bg) (grid b) ∧
    ring_cap b' = ring_cap b ∧ scroll_gen b' = scroll_gen b).
Proof.
  intros Hb Htop Hbot Hn n'. unfold vt_buf_scroll_up.
  replace (if bottom - top <? n then bottom - top else n) with n' by (unfold n'; zbool).
  assert (0 < n' <= bottom - top) as Hn' by lia. clearbody n'.
  apply yields_bind. eapply yields_seq; [eapply push_rows_loop; [done | lia ..] |].
  intros b1 (Hb1 & Hg & Hcap & Hsg). pose proof (br_size _ _ _ _ Hb) as Hsz.
  unfold upd_grid. cbn [mbind option_bind]. rewrite Hg.
  rewrite (for_up_move n') by lia. cbn [mbind option_bind].
  rewrite for_up_fill by (rewrite ?zlen_zmap; lia). cbn [mbind option_bind].
  simpl. rewrite dirty_rows_eq by (rewrite ?zlen_fill, ?zlen_zmap; lia). simpl.
  assert (zmap (λ i r, if (top <=? i) && (i <? bottom) then row_dirty r else r)
    (fill (bottom - n') bottom (row_alloc_bg (buf_cols b1) bg)
      (zmap (λ i y, if (top <=? i) && (i <? bottom - n') then default y (aget (grid b) (i + n')) else y)
        (grid b))) = scrolled_up top bottom n' (row_alloc_bg C bg) (grid b)) as ->.
  { unfold fill, scrolled_up. rewrite !zmap_zmap. rewrite (br_cols _ _ _ _ Hb1).
    apply zmap_ext. intros i r Hi. zbool. }
  split_and!; [| done ..].
  apply (buf_repr_grid _ _ b1); [done | unfold scrolled_up; by rewrite zlen_zmap |].
  apply scrolled_up_ok; [apply row_ok_alloc_bg, Hb | apply Hb].
Qed.

Lemma vt_buf_scroll_down_spec R C b h top bottom n bg :
  buf_repr R C b h → 0 <= top < bottom → bottom <= R → 0 < n →
  let n' := Z.min n (bottom - top) in
  yields (vt_buf_scroll_down b top bottom n bg ≫= λ b, upd_grid b (dirty_rows top bottom)) (λ b',
    buf_repr R C b' h ∧
    grid b' = scrolled_down top bottom n' (row_alloc_bg C bg) (grid b) ∧
    ring_cap b' = ring_cap b ∧ scroll_gen b' = scroll_gen b).
Proof.
  intros Hb Htop Hbot Hn n'. unfold vt_buf_scroll_down.
  replace (if bottom - top <? n then bottom - top else n) with n' by (unfold n'; zbool).
  assert (0 < n' <= bottom - top) as Hn' by lia. clearbody n'.
  pose proof (br_size _ _ _ _ Hb) as Hsz.
  unfold upd_grid. rewrite (for_down_move n') by lia. cbn [mbind option_bind].
  rewrite for_up_fill by (rewrite ?zlen_zmap; lia). cbn [mbind option_bind].
  simpl. rewrite dirty_rows_eq by (rewrite ?zlen_fill, ?zlen_zmap; lia). simpl.
  match goal with |- buf_repr _ _ {| grid := ?g |} _ ∧ _ =>
    assert (g = scrolled_down top bottom n' (row_alloc_bg C bg) (grid b)) as -> end.
  { unfold fill, scrolled_down. rewrite !zmap_zmap. rewrite (br_cols _ _ _ _ Hb).
    apply zmap_ext. intros i r Hi. zbool. }
  split_and!; [| done ..].
  apply (buf_repr_grid _ _ b); [done | unfold scrolled_down; by rewrite zlen_zmap |].
  apply scrolled_down_ok; [apply row_ok_alloc_bg, Hb | apply Hb].
Qed.

(** What a scroll leaves: the grid and the history, for any arguments. *)
Definition scroll_result (R C cap : Z) (h g : list vt_row) (top bottom count : Z) (bg : vt_color)
  : list vt_row * list vt_row :=
  let t := Z.max 0 top in
  let bt := Z.min R bottom in
  if (bt <=? t) || (count =? 0) then (h, g)
  else
    let n := Z.min (Z.abs count) (bt - t) in
    if 0 <? count
    then (if t =? 0 then push_all cap h (take (Z.to_nat n) g) else h,
          scrolled_up t bt n (row_alloc_bg C bg) g)
    else (h, scrolled_down t bt n (row_alloc_bg C bg) g).

Lemma vt_buf_scroll_spec R C b h top bottom count bg :
  buf_repr R C b h →
  yields (vt_buf_scroll b top bottom count bg) (λ b',
    let '(h', g') := scroll_result R C (ring_cap b) h (grid b) top bottom count bg in
    buf_repr R C b' h' ∧ grid b' = g' ∧ ring_cap b' = ring_cap b).
Proof.
  intros Hb. unfold vt_buf_scroll, scroll_result.
  replace (if top <? 0 then 0 else top) with (Z.max 0 top) by zbool.
  replace (if buf_rows b <? bottom then buf_rows b else bottom) with (Z.min R bottom)
    by (rewrite (br_rows _ _ _ _ Hb); zbool).
  destruct ((_ <=? _) || _) eqn:E; [done |].
  apply orb_false_iff in E as [E1 E2].
  destruct (Z.ltb_spec 0 count).
  - rewrite Z.abs_eq by lia.
    eapply yields_mono; [eapply vt_buf_scroll_up_spec; [by apply buf_repr_gen | lia ..] |].
    intros b' (H1 & H2 & H3 & _). by split_and!.
  - rewrite Z.abs_neq by lia.
    eapply yields_mono; [eapply vt_buf_scroll_down_spec; [by apply buf_repr_gen | lia ..] |].
    intros b' (H1 & H2 & H3 & _). by split_and!.
Qed.

(** Erasing part of a row. *)
Definition erased (lo hi : Z) (bg : vt_color) (r : vt_row) : vt_row :=
  {| r with cells := fill lo hi (vt_cell_erase bg) (cells r) |}.

Lemma row_erase_eq C lo hi bg r :
  row_ok C r → 0 <= lo → hi <= C → row_erase lo hi bg r = Some (erased lo hi bg r).
Proof. unfold row_ok, row_erase. intros. by rewrite for_up_fill by lia. Qed.

Lemma row_ok_erased C lo hi bg r : row_ok C r → row_ok C (erased lo hi bg r).
Proof. unfold row_ok, erased. simpl. by rewrite zlen_fill. Qed.
#[export] Hint Resolve row_ok_erased : lumi.

Definition cleared (C : Z) (bg : vt_color) : vt_row :=
  mk_row (replicate (Z.to_nat C) (vt_cell_erase bg)) VT_ROW_DIRTY.

Lemma erased_all C bg r :
  row_ok C r → 0 <= C →
  {| (erased 0 C bg r) with row_flags := VT_ROW_DIRTY |} = cleared C bg.
Proof.
  unfold row_ok, cleared, erased. simpl. intros Hr HC. f_equal. apply aget_ext. intros i.
  rewrite aget_fill, aget_replicate. destruct (aget (cells r) i) eqn:E; simpl.
  - pose proof (aget_Some _ _ _ E). zbool.
  - apply aget_None in E. zbool.
Qed.

Lemma vt_buf_clear_rows_spec R C b h from to bg :
  buf_repr R C b h →
  vt_buf_clear_rows b from to bg =
    Some {| b with grid := zmap (λ i r, if (from <=? i) && (i <? to) then cleared C bg else r) (grid b) |}.
Proof.
  intros Hb. unfold vt_buf_clear_rows.
  replace (if from <? 0 then 0 else from) with (Z.max 0 from) by zbool.
  replace (if buf_rows b <? to then buf_rows b else to) with (Z.min R to)
    by (rewrite (br_rows _ _ _ _ Hb); zbool).
  unfold upd_grid. destruct (Z.ltb_spec (Z.min R to) (Z.max 0 from)).
  { rewrite for_up_nop by lia. simpl. f_equal. destruct b; simpl. f_equal. symmetry.
    apply zmap_id. intros i r Hi. apply aget_Some in Hi.
    pose proof (br_size _ _ _ _ Hb). simpl in *. zbool. }
  set (F := λ k, zmap (λ i r, if (Z.max 0 from <=? i) && (i <? k) then cleared C bg else r) (grid b)).
  pose proof (br_size _ _ _ _ Hb) as Hsz. destruct (br_dims _ _ _ _ Hb) as [HR HC].
  match goal with |- for_up ?lo ?hi ?f ?s ≫= _ = _ =>
    assert (for_up lo hi f s = Some (F hi)) as -> end.
  { apply yields_eq. eapply yields_mono.
    - apply (for_up_inv (λ k g, g = F k)); [lia | |].
      + symmetry. apply zmap_id. intros i r _. zbool.
      + intros i ? Hi ->. destruct (buf_repr_row_in _ _ _ _ i Hb) as (r & Hr & Hok); [lia |].
        assert (aget (F i) i = Some r) as -> by (unfold F; rewrite aget_zmap, Hr; simpl; f_equal; zbool).
        cbn [mbind option_bind]. rewrite (br_cols _ _ _ _ Hb), (row_erase_eq C) by (done || lia).
        cbn [mbind option_bind]. rewrite erased_all by done.
        rewrite aset_in by (unfold F; rewrite zlen_zmap; lia). simpl. apply aget_ext. intros j.
        rewrite aget_insert by (unfold F; rewrite zlen_zmap; lia). unfold F. rewrite !aget_zmap.
        destruct (decide (i = j)) as [<-|].
        * rewrite Hr. simpl. f_equal. zbool.
        * destruct (aget (grid b) j); simpl; [| done]. f_equal. zbool.
    - intros g ->. done. }
  simpl. f_equal. f_equal. apply zmap_ext. intros i r Hi%aget_Some. zbool.
Qed.

Lemma row_ok_cleared C bg : 0 <= C → row_ok C (cleared C bg).
Proof. intros. unfold row_ok, cleared. simpl. by rewrite zlen_replicate. Qed.
#[export] Hint Resolve row_ok_cleared : lumi.

Lemma vt_buf_clear_rows_repr R C b h from to bg :
  buf_repr R C b h →
  yields (vt_buf_clear_rows b from to bg) (λ b',
    buf_repr R C b' h ∧ ring_cap b' = ring_cap b ∧
    grid b' = zmap (λ i r, if (from <=? i) && (i <? to) then cleared C bg else r) (grid b)).
Proof.
  intros Hb. erewrite vt_buf_clear_rows_spec by done. simpl. split_and!; [| done ..].
  apply buf_repr_zmap; [done |]. intros i r _ Hr. case_match; [| done].
  apply row_ok_cleared, Hb.
Qed.

Lemma vt_buf_dirty_all_repr R C b h :
  buf_repr R C b h →
  yields (vt_buf_dirty_all b) (λ b', buf_repr R C b' h ∧ ring_cap b' = ring_cap b ∧
    grid b' = map row_dirty (grid b)).
Proof.
  intros Hb. unfold vt_buf_dirty_all, upd_grid. pose proof (br_size _ _ _ _ Hb) as Hsz.
  pose proof (br_rows _ _ _ _ Hb) as Hrows.
  rewrite dirty_rows_eq by lia. simpl. split_and!; [| done |].
  - apply buf_repr_zmap; [done |]. intros i r _ Hr. by case_match.
  - apply aget_ext. intros i. rewrite aget_zmap, aget_map.
    destruct (aget (grid b) i) eqn:E; [| done]. apply aget_Some in E. simpl. f_equal. zbool.
Qed.

(** ** Resizing *)

Lemma for_up_ring_resize C C' cap k :
  cap = zlen k →
  for_up 0 cap (λ i k, o ← aget k i;
     match o with Some r => aset k i (Some (row_resize r C C')) | None => Some k end) k
  = Some (map (fmap (λ r, row_resize r C C')) k).
Proof.
  intros ->.
  rewrite (for_up_ext _ _ _ (λ i k, o ← aget k i; aset k i (fmap (λ r, row_resize r C C') o))).
  - rewrite (for_up_upd (λ _, fmap (λ r, row_resize r C C'))) by lia. f_equal.
    apply aget_ext. intros i. rewrite aget_zmap, aget_map.
    destruct (aget k i) eqn:E; [| done]. apply aget_Some in E. simpl. f_equal. zbool.
  - intros i l Hi. destruct (aget l i) as [[r|]|] eqn:E; [done | | done]. simpl.
    pose proof (aget_Some _ _ _ E). rewrite aset_in by done. f_equal. symmetry.
    apply list_insert_id. by rewrite aget_lookup in E by lia.
Qed.

Definition resized_rows (R R' C C' : Z) (g : list vt_row) : list vt_row :=
  let g := if C' =? C then g else map (λ r, row_resize r C C') (take (Z.to_nat (Z.min R R')) g)
                                  ++ drop (Z.to_nat (Z.min R R')) g in
  take (Z.to_nat R') g ++ replicate (Z.to_nat (R' - R)) (row_alloc C').

Lemma resize_grid_loop C C' n g :
  0 <= n <= zlen g →
  for_up 0 n (λ i g, r ← aget g i; aset g i (row_resize r C C')) g
  = Some (map (λ r, row_resize r C C') (take (Z.to_nat n) g) ++ drop (Z.to_nat n) g).
Proof.
  intros Hn. rewrite (for_up_upd (λ _ r, row_resize r C C')) by lia. f_equal.
  apply aget_ext. intros i. rewrite aget_zmap. destruct (Z.ltb_spec i 0) as [Hi|Hi].
  { assert (∀ A (l : list A), aget l i = None) as Hneg by (intros; apply aget_None; lia).
    by rewrite !Hneg. }
  rewrite aget_app, zlen_map, zlen_take by lia.
  destruct (Z.ltb_spec i n).
  - rewrite aget_map, aget_take. destruct (aget g i); simpl; [| by case_match]. f_equal. zbool.
  - rewrite aget_drop by lia. replace (n + (i - n)) with i by lia.
    destruct (aget g i); simpl; [| done]. f_equal. zbool.
Qed.

Lemma ring_repr_resize b h C C' :
  ring_repr b h →
  ring_repr {| b with ring := map (fmap (λ r, row_resize r C C')) (ring b) |}
            (map (λ r, row_resize r C C') h).
Proof.
  intros [? ? ? ? Hat]. constructor; simpl; rewrite ?zlen_map; try done.
  intros k r. rewrite !aget_map. destruct (aget h k) eqn:E; [| done]. intros [= <-].
  change (ring_at _ k) with (ring_at b k). by rewrite (Hat _ _ E).
Qed.

(** A resize gives a well-formed buffer of the new size; the history and the
    surviving rows are cut or padded to the new width. *)
Lemma vt_buf_resize_repr R C b h R' C' :
  buf_repr R C b h → 0 <= R' → 0 <= C' →
  yields (vt_buf_resize b R' C') (λ b',
    buf_repr R' C' b' (if C' =? C then h else map (λ r, row_resize r C C') h) ∧
    grid b' = resized_rows R R' C C' (grid b) ∧ ring_cap b' = ring_cap b).
Proof.
  intros [Br Bc Bd Bs Bg Bring Bh] HR' HC'. subst R C. unfold vt_buf_resize.
  set (R := buf_rows b) in *. set (C := buf_cols b) in *.
  set (b1 := if C' =? C then b else {| b with
     grid := map (λ r, row_resize r C C') (take (Z.to_nat (Z.min R R')) (grid b))
             ++ drop (Z.to_nat (Z.min R R')) (grid b);
     ring := map (fmap (λ r, row_resize r C C')) (ring b) |}).
  match goal with |- yields (?m ≫= _) _ => assert (m = Some b1) as -> end.
  { unfold b1. destruct (Z.eqb_spec C' C); [done |].
    rewrite resize_grid_loop by lia. cbn [mbind option_bind].
    rewrite for_up_ring_resize by (symmetry; apply Bring). done. }
  cbn [mbind option_bind].
  assert (zlen (grid b1) = R) as Hsz.
  { unfold b1. case_match; [done |]. simpl. rewrite zlen_app, zlen_map, zlen_take, zlen_drop by lia. lia. }
  set (g2 := if R <? R' then _ else _).
  assert (g2 = resized_rows R R' C C' (grid b)) as Hg2.
  { unfold resized_rows. replace (if C' =? C then grid b else _) with (grid b1)
      by (unfold b1; by case_match). unfold g2.
    destruct (Z.ltb_spec R R'); [| destruct (Z.ltb_spec R' R)].
    - f_equal. symmetry. apply take_ge. unfold zlen in Hsz. lia.
    - replace (Z.to_nat (R' - R)) with 0%nat by lia. by rewrite app_nil_r.
    - replace (Z.to_nat (R' - R)) with 0%nat by lia. rewrite app_nil_r.
      symmetry. apply take_ge. unfold zlen in Hsz. lia. }
  simpl. split_and!; [| done | by unfold b1; case_match].
  assert (Forall (row_ok C') (take (Z.to_nat R') (grid b1))) as Hok.
  { unfold b1. destruct (Z.eqb_spec C' C) as [->|]; [by apply Forall_take |]. simpl.
    apply Forall_aget. intros i r. rewrite aget_take. destruct (Z.ltb_spec i R'); [| done].
    intros Hr. pose proof (aget_Some _ _ _ Hr) as Hi.
    rewrite zlen_app, zlen_map, zlen_take, zlen_drop in Hi by lia.
    rewrite aget_app, zlen_map, zlen_take in Hr by lia.
    destruct (Z.ltb_spec i (R `min` R')); [| lia].
    rewrite aget_map, aget_take in Hr. destruct (aget (grid b) i) eqn:E; [| by case_match].
    case_match; [| done]. simplify_eq/=. apply row_ok_resize; [done |].
    rewrite Forall_aget in Bg. by eapply Bg. }
  constructor; simpl; try done.
  - rewrite Hg2. unfold resized_rows. replace (if C' =? C then grid b else _) with (grid b1)
      by (unfold b1; by case_match).
    rewrite zlen_app. unfold zlen in *. rewrite length_take, length_replicate. lia.
  - rewrite Hg2. unfold resized_rows. replace (if C' =? C then grid b else _) with (grid b1)
      by (unfold b1; by case_match).
    apply Forall_app. split; [done |]. apply Forall_replicate. auto with lumi.
  - unfold b1. destruct (Z.eqb_spec C' C).
    + destruct Bring. by constructor.
    + destruct (ring_repr_resize b h C C' Bring). by constructor.
  - destruct (Z.eqb_spec C' C) as [->|]; [done |]. apply Forall_map.
    eapply Forall_impl; [done |]. intros r Hr. by apply row_ok_resize.
Qed.

(** ** History: pushing rows, and reading them back *)

(** Copying the first [n] cells of one row over another. *)
Lemma copy_cells_eq n src dst :
  0 <= n → n <= zlen src → n <= zlen dst →
  copy_cells n src dst = Some (take (Z.to_nat n) src ++ drop (Z.to_nat n) dst).
Proof.
  intros Hn Hs Hd. unfold copy_cells.
  transitivity (Some (zmap (λ i y, if i <? n then default y (aget src i) else y) dst)).
  - apply yields_eq.
    eapply yields_mono.
    + apply (for_up_inv (λ k d, d = zmap (λ i y, if i <? k then default y (aget src i) else y) dst));
        [lia | |].
      * symmetry. apply zmap_id. intros i x Hx%aget_Some. zbool.
      * intros i ? Hi ->. destruct (aget_in src i) as [c Hc]; [lia |]. rewrite Hc. simpl.
        rewrite aset_in by (rewrite zlen_zmap; lia). simpl. apply aget_ext. intros j.
        rewrite aget_insert by (rewrite zlen_zmap; lia). rewrite !aget_zmap.
        destruct (decide (i = j)) as [<-|].
        -- destruct (aget_in dst i) as [y ->]; [lia |]. simpl. rewrite Hc. simpl. f_equal. zbool.
        -- destruct (aget dst j); simpl; [| done]. f_equal. zbool.
    + intros d ->. done.
  - f_equal. apply aget_ext. intros i. rewrite aget_zmap. destruct (Z.ltb_spec i 0) as [Hi|Hi].
    { assert (∀ A (l : list A), aget l i = None) as Hneg by (intros; apply aget_None; lia).
      by rewrite !Hneg. }
    rewrite aget_app, zlen_take by lia. destruct (Z.ltb_spec i n).
    + rewrite aget_take. destruct (Z.ltb_spec i n); [| lia].
      destruct (aget_in src i) as [c ->]; [lia |]. destruct (aget_in dst i) as [d ->]; [lia |]. done.
    + rewrite aget_drop by lia. replace (n + (i - n)) with i by lia. by destruct (aget dst i).
Qed.

(** A row clipped or padded with blanks to [C'] columns. *)
Definition clip (C' : Z) (cs : list vt_cell) : list vt_cell :=
  take (Z.to_nat C') cs ++ replicate (Z.to_nat (C' - zlen cs)) vt_cell_clear.

Lemma zlen_clip C' cs : 0 <= C' → zlen (clip C' cs) = C'.
Proof. intros. unfold clip, zlen. rewrite length_app, length_take, length_replicate. lia. Qed.

Lemma copy_cells_clip C C' cs n :
  zlen cs = C → 0 <= C' → n = Z.min C C' →
  copy_cells n cs (replicate (Z.to_nat C') vt_cell_clear) = Some (clip C' cs).
Proof.
  intros Hcs HC' ->. pose proof (zlen_nonneg cs).
  rewrite copy_cells_eq by (rewrite ?zlen_replicate; lia). f_equal. unfold clip. f_equal.
  - unfold zlen in *. destruct (Z.le_ge_cases C C').
    + rewrite !take_ge by lia. done.
    + by rewrite Z.min_r by lia.
  - rewrite drop_replicate. f_equal. lia.
Qed.

(** The history line at [line] of the virtual concatenation of scrollback and
    screen. *)
Lemma history_row_spec R C b h line :
  buf_repr R C b h → history_row b line = Some (aget (h ++ grid b) line).
Proof.
  intros [Br Bc Bd Bs Bg [Hs Hl Hc Hh Hat] Bh]. unfold history_row.
  destruct (Z.ltb_spec line 0); [symmetry; f_equal; apply aget_None; lia |].
  rewrite aget_app, Hl by lia. destruct (Z.ltb_spec line (ring_len b)).
  - destruct (aget_in h line) as [r Hr]; [lia |]. specialize (Hat _ _ Hr). rewrite Hr, <- Hat.
    unfold ring_at. f_equal. f_equal. lia.
  - destruct (Z.ltb_spec (line - ring_len b) (buf_rows b)).
    + destruct (aget_in (grid b) (line - ring_len b)) as [r Hr]; [lia |]. by rewrite Hr.
    + symmetry. f_equal. apply aget_None. lia.
Qed.

Lemma vt_buf_scrollback_row_spec R C b h offset :
  buf_repr R C b h →
  vt_buf_scrollback_row b offset = Some (if offset <? 0 then aget h (zlen h + offset) else None).
Proof.
  intros [Br Bc Bd Bs Bg [Hs Hl Hc Hh Hat] Bh]. unfold vt_buf_scrollback_row.
  destruct (Z.leb_spec 0 offset); [by zbool |]. simpl.
  destruct (Z.ltb_spec offset 0); [| lia]. rewrite Hl.
  destruct (Z.ltb_spec (ring_len b) (- offset)).
  - symmetry. f_equal. apply aget_None. lia.
  - destruct (aget_in h (ring_len b + offset)) as [r Hr]; [lia |].
    specialize (Hat _ _ Hr). rewrite Hr, <- Hat. unfold ring_at. f_equal. f_equal. lia.
Qed.

(** [vt_buf_push_rows]: the alternate screen's rows join the history. *)
Lemma vt_buf_push_rows_spec R C R' C' dst src h h' count :
  buf_repr R C dst h → buf_repr R' C' src h' →
  yields (vt_buf_push_rows dst src 0 count) (λ b',
    buf_repr R C b'
      (push_all (ring_cap dst) h
         (map (λ r, mk_row (clip C (cells r)) VT_ROW_DIRTY) (take (Z.to_nat count) (grid src)))) ∧
    grid b' = grid dst ∧ ring_cap b' = ring_cap dst).
Proof.
  intros Hd Hs. unfold vt_buf_push_rows. simpl.
  destruct ((ring_cap dst =? 0) || (count <=? 0)) eqn:E.
  { simpl. split_and!; [| done ..]. destruct (Z.eqb_spec (ring_cap dst) 0) as [E0|].
    - replace (push_all _ _ _) with h; [done |]. rewrite E0. unfold push_all.
      by induction (map _ _).
    - replace (Z.to_nat count) with 0%nat by lia. done. }
  apply orb_false_iff in E as [E1 E2].
  rewrite Z.add_0_l, Z.sub_0_r.
  set (n := if buf_rows src <? count then _ else count).
  assert (n = Z.min count R') as Hn by (unfold n; rewrite (br_rows _ _ _ _ Hs); zbool).
  pose proof (br_size _ _ _ _ Hs) as Hsz. destruct (br_dims _ _ _ _ Hs) as [HR' HC'].
  destruct (br_dims _ _ _ _ Hd) as [HR HC].
  assert (take (Z.to_nat count) (grid src) = take (Z.to_nat n) (grid src)) as ->.
  { rewrite Hn. unfold zlen in Hsz. destruct (Z.le_ge_cases count R').
    - by rewrite Z.min_l by lia.
    - rewrite !take_ge by lia. done. }
  clearbody n. destruct (Z.leb_spec n 0).
  { simpl. replace (Z.to_nat n) with 0%nat by lia. done. }
  eapply yields_seq.
  - apply (for_up_inv (λ i b', buf_repr R C b' (push_all (ring_cap dst) h
         (map (λ r, mk_row (clip C (cells r)) VT_ROW_DIRTY) (take (Z.to_nat i) (grid src)))) ∧
      grid b' = grid dst ∧ ring_cap b' = ring_cap dst)); [lia | done |].
    intros i b' Hi (Hb' & Hg & Hc).
    destruct (buf_repr_row_in _ _ _ _ i Hs) as (r & Hr & Hok); [lia |].
    rewrite Z.add_0_l, Hr. cbn [mbind option_bind]. unfold row_ok in Hok.
    rewrite (br_cols _ _ _ _ Hb'), (br_cols _ _ _ _ Hs).
    simpl. rewrite (copy_cells_clip C') by (try done; rewrite (br_cols _ _ _ _ Hd); zbool).
    cbn [mbind option_bind].
    destruct Hb' as [Br Bc Bd Bs Bg Bring Bh].
    eapply yields_mono; [apply ring_push_spec, Bring |].
    intros b'' (Hrr & Hc' & Hg' & Hr' & Hcc & Hs'). split_and!; [| congruence ..].
    rewrite aget_lookup in Hr by lia.
    replace (Z.to_nat (i + 1)) with (S (Z.to_nat i)) by lia.
    rewrite (take_S_r _ _ _ Hr), map_app. unfold push_all in *. rewrite foldl_app. simpl.
    rewrite Hc in Hrr. constructor; try congruence; try done.
    apply push_bounded_Forall; [done |]. by apply zlen_clip.
  - intros b' (Hb' & Hg & Hc). simpl. split_and!; [by apply buf_repr_gen | done ..].
Qed.

(** A row as the scrollback viewer shows it: the history line cut or padded
    to the viewer's width, blank where there is no line. *)
Definition shown (C : Z) (o : option vt_row) (dr : vt_row) : vt_row :=
  row_dirty {| dr with
    cells := clip C (match o with Some r => cells r | None => [] end) |}.

Lemma copy_line_eq C C' o dr :
  0 <= C' → row_ok C dr → (∀ r, o = Some r → row_ok C' r) →
  copy_line C C' o dr = Some (shown C o dr).
Proof.
  unfold row_ok. intros HC' Hdr Ho. unfold copy_line. pose proof (zlen_nonneg (cells dr)).
  rewrite for_up_fill by lia. cbn [mbind option_bind].
  assert (fill 0 C vt_cell_clear (cells dr) = replicate (Z.to_nat C) vt_cell_clear) as ->.
  { apply aget_ext. intros i. rewrite aget_fill, aget_replicate.
    destruct (aget (cells dr) i) eqn:E; simpl.
    - apply aget_Some in E. zbool.
    - apply aget_None in E. zbool. }
  destruct o as [r|]; cbn [mbind option_bind].
  - rewrite (copy_cells_clip C') by (try lia; try (by apply Ho); zbool). done.
  - unfold shown, clip. rewrite take_nil. simpl. by rewrite Z.sub_0_r.
Qed.

Lemma row_ok_shown C o dr : 0 <= C → row_ok C (shown C o dr).
Proof. intros. unfold row_ok, shown. simpl. by apply zlen_clip. Qed.

(** The loop of [vt_buf_copy_scrollback]: the destination rows it reaches show
    the history lines they stand for, the others are untouched. *)
Lemma copy_scrollback_loop_spec R C R' C' src h' n i dst h dst_row off :
  buf_repr R C dst h → buf_repr R' C' src h' → 0 <= dst_row + i →
  yields (copy_scrollback_loop n i dst src dst_row off) (λ b',
    buf_repr R C b' h ∧ ring_cap b' = ring_cap dst ∧
    grid b' = zmap (λ j r, if (dst_row + i <=? j) && (j <? dst_row + i + Z.of_nat n)
                           then shown C (aget (h' ++ grid src) (off + (j - dst_row))) r else r)
                   (grid dst)).
Proof.
  intros Hd Hs. revert i dst Hd; induction n as [|n IH]; intros i dst Hd Hi; cbn [copy_scrollback_loop].
  { simpl. split_and!; [done | done |]. symmetry. apply zmap_id. intros j r _. zbool. }
  unfold vt_buf_row. rewrite (br_rows _ _ _ _ Hd). pose proof (br_size _ _ _ _ Hd) as Hsz.
  destruct (Z.ltb_spec (dst_row + i) 0); [lia |]. simpl.
  destruct (Z.leb_spec R (dst_row + i)).
  { simpl. split_and!; [done | done |]. symmetry. apply zmap_id. intros j r Hj%aget_Some. zbool. }
  rewrite (history_row_spec _ _ _ _ _ Hs). cbn [mbind option_bind].
  destruct (buf_repr_row_in _ _ _ _ (dst_row + i) Hd) as (dr & Hdr & Hok); [lia |].
  unfold upd_grid. rewrite Hdr. cbn [mbind option_bind].
  assert (copy_line (buf_cols dst) (buf_cols src) (aget (h' ++ grid src) (off + i)) dr
          = Some (shown C (aget (h' ++ grid src) (off + i)) dr)) as ->.
  { rewrite (br_cols _ _ _ _ Hd), (br_cols _ _ _ _ Hs).
    apply copy_line_eq; [apply Hs | done |].
    intros r Hr. destruct Hs as [? ? ? ? Bg ? Bh].
       assert (Forall (row_ok C') (h' ++ grid src)) as Hall by (by apply Forall_app).
       rewrite Forall_aget in Hall. eauto. }
  cbn [mbind option_bind]. rewrite aset_in by lia. cbn [mbind option_bind].
  eapply yields_mono.
  { apply IH; [| lia]. apply buf_repr_grid; [done | by rewrite zlen_insert |].
    apply Forall_insert; [apply Hd | apply row_ok_shown, Hd]. }
  intros b' (Hb' & Hc & Hg). split_and!; [done | done |]. rewrite Hg. simpl.
  apply aget_ext. intros j. rewrite !aget_zmap, aget_insert by lia.
  destruct (decide (dst_row + i = j)) as [<-|].
  - rewrite Hdr. simpl. f_equal. replace (dst_row + i - dst_row) with i by lia. zbool.
  - destruct (aget (grid dst) j); simpl; [| done]. f_equal. zbool.
Qed.

(** ** Correctness *)

(** Pushing rows one after the other. *)
Fixpoint ring_push_rows (b : vt_buf) (rs : list vt_row) : option vt_buf :=
  match rs with
  | [] => Some b
  | r :: rs => b ← ring_push b r; ring_push_rows b rs
  end.

Lemma ring_push_rows_spec R C rs b h :
  buf_repr R C b h → Forall (row_ok C) rs →
  yields (ring_push_rows b rs) (λ b',
    buf_repr R C b' (push_all (ring_cap b) h rs) ∧ grid b' = grid b ∧ ring_cap b' = ring_cap b).
Proof.
  revert b h; induction rs as [|r rs IH]; intros b h Hb Hrs; [done |].
  apply Forall_cons in Hrs as [Hr Hrs]. destruct Hb as [Br Bc Bd Bs Bg Bring Bh].
  cbn [ring_push_rows]. eapply yields_seq; [apply ring_push_spec, Bring |].
  intros b1 (Hb1 & Hcap & Hg & Hr1 & Hc1 & _).
  assert (buf_repr R C b1 (push_bounded (ring_cap b) h r)) as Hb1'.
  { constructor; rewrite ?Hg; try done; try congruence. by apply push_bounded_Forall. }
  eapply yields_mono; [by apply IH |]. intros b' (Hb' & Hg' & Hcap'). rewrite Hcap in *.
  split_and!; [exact Hb' | congruence | done].
Qed.

(** The scrollback ring is a queue of the most recent lines: after any rows
    are pushed onto a buffer with room for [cap > 0] lines, asking for the row
    [k] lines back gives the [k]-th last line ever pushed for every [k] up to
    [cap], and NULL beyond what was pushed or kept; the screen is untouched. *)
Theorem scrollback_keeps_recent R C b h rs :
  buf_repr R C b h → Forall (row_ok C) rs → 0 < ring_cap b →
  ∃ b', ring_push_rows b rs = Some b' ∧ grid b' = grid b ∧
    ∀ k, vt_buf_scrollback_row b' (- k) =
      Some (if (1 <=? k) && (k <=? ring_cap b) then aget (h ++ rs) (zlen (h ++ rs) - k) else None).
Proof.
  intros Hb Hrs Hcap. pose proof (ring_push_rows_spec R C rs b h Hb Hrs) as H.
  apply yields_Some in H as (b' & E & Hb' & Hg & Hc). exists b'. split_and!; [done | done |].
  intros k. rewrite (vt_buf_scrollback_row_spec _ _ _ _ _ Hb'). f_equal.
  pose proof (br_ring _ _ _ _ Hb) as [_ Hlen Hle _ _]. rewrite push_all_drop by lia.
  pose proof (zlen_nonneg h). pose proof (zlen_nonneg rs). rewrite zlen_app.
  set (d := zlen h + zlen rs - ring_cap b).
  destruct (Z.ltb_spec (- k) 0); [| by zbool].
  assert (zlen (drop (Z.to_nat d) (h ++ rs)) = zlen h + zlen rs - Z.max 0 d) as ->
    by (unfold zlen in *; rewrite length_drop, length_app; lia).
  destruct (Z.leb_spec 1 k), (Z.leb_spec k (ring_cap b)); simpl; try lia.
  - destruct (Z.leb_spec k (zlen h + zlen rs - Z.max 0 d)).
    + replace (Z.to_nat d) with (Z.to_nat (Z.max 0 d)) by lia. rewrite aget_drop by lia. f_equal. lia.
    + assert (∀ A (l : list A) i, i < 0 → aget l i = None) as Hneg by (intros; apply aget_None; lia).
      rewrite !Hneg by lia. done.
  - apply aget_None. unfold zlen in *. rewrite length_drop, length_app. lia.
Qed.

(** A small concrete buffer for the examples. *)
Definition demo_row (cp : Z) : vt_row :=
  mk_row [mk_cell cp VT_COLOR_DEFAULT VT_COLOR_DEFAULT 0 1; vt_cell_clear] 0.
Definition demo_buf : vt_buf := vt_buf_new 3 2 2.

Lemma demo_repr : buf_repr 3 2 demo_buf [].
Proof. apply vt_buf_new_repr; lia. Qed.

Lemma scrollback_keeps_recent_witness :
  ∃ b', ring_push_rows demo_buf [demo_row 65; demo_row 66; demo_row 67] = Some b' ∧ grid b' = grid demo_buf ∧
    ∀ k, vt_buf_scrollback_row b' (- k) =
      Some (if (1 <=? k) && (k <=? ring_cap demo_buf)
            then aget ([] ++ [demo_row 65; demo_row 66; demo_row 67])
                   (zlen ([] ++ [demo_row 65; demo_row 66; demo_row 67]) - k) else None).
Proof.
  apply (scrollback_keeps_recent 3 2 demo_buf [] [demo_row 65; demo_row 66; demo_row 67]).
  - apply demo_repr.
  - repeat constructor.
  - reflexivity.
Defined.

(** [vt_buf_scroll] never indexes outside the grid, whatever its region and
    count, and refines this picture of a screen with a history: out-of-range
    regions are clamped and empty ones ignored; scrolling up by [n] moves rows
    [n] up and blanks the bottom [n], scrolling down the reverse, rows outside
    the region stay, and exactly the rows leaving at the top of the screen (and
    not of a lower region) join the history, which keeps its most recent
    [ring_cap] lines. *)
Theorem vt_buf_scroll_refines R C b h top bottom count bg :
  buf_repr R C b h →
  let t := Z.max 0 top in
  let bt := Z.min R bottom in
  let n := Z.min (Z.abs count) (bt - t) in
  let idle := (bt <=? t) || (count =? 0) in
  ∃ b', vt_buf_scroll b top bottom count bg = Some b' ∧ ring_cap b' = ring_cap b ∧
    buf_repr R C b'
      (if negb idle && (0 <? count) && (t =? 0)
       then push_all (ring_cap b) h (take (Z.to_nat n) (grid b)) else h) ∧
    ∀ i r, aget (grid b) i = Some r →
      aget (grid b') i =
        Some (if negb idle && (t <=? i) && (i <? bt) then
                row_dirty (if 0 <? count
                           then if i <? bt - n then default r (aget (grid b) (i + n)) else row_alloc_bg C bg
                           else if t + n <=? i then default r (aget (grid b) (i - n)) else row_alloc_bg C bg)
              else r).
Proof.
  intros Hb t bt n idle. pose proof (vt_buf_scroll_spec R C b h top bottom count bg Hb) as H.
  apply yields_Some in H as (b' & E & H). exists b'. split; [done |].
  unfold scroll_result in H. fold t bt in H. fold idle n in H. destruct idle; simpl in *.
  { destruct H as (H1 & H2 & H3). split_and!; [done | done |]. intros i r Hi. by rewrite H2. }
  destruct (0 <? count); simpl in *; destruct H as (H1 & H2 & H3); split_and!; try done;
    intros i r Hi; rewrite H2; unfold scrolled_up, scrolled_down; by rewrite aget_zmap, Hi.
Qed.

Lemma vt_buf_scroll_refines_witness :
  ∃ b', vt_buf_scroll demo_buf (-1) 9 1 VT_COLOR_DEFAULT = Some b' ∧ ring_cap b' = ring_cap demo_buf ∧
    buf_repr 3 2 b' (push_all 2 [] (take 1 (grid demo_buf))) ∧
    ∀ i r, aget (grid demo_buf) i = Some r →
      aget (grid b') i =
        Some (if (0 <=? i) && (i <? 3) then
                row_dirty (if i <? 2 then default r (aget (grid demo_buf) (i + 1))
                           else row_alloc_bg 2 VT_COLOR_DEFAULT)
              else r).
Proof. exact (vt_buf_scroll_refines 3 2 demo_buf [] (-1) 9 1 VT_COLOR_DEFAULT demo_repr). Defined.

Lemma aget_resized_rows R R' C C' g i :
  zlen g = R → 0 <= i < R' →
  aget (resized_rows R R' C C' g) i =
    if i <? R then (λ r, if C' =? C then r else row_resize r C C') <$> aget g i else Some (row_alloc C').
Proof.
  intros Hg Hi. unfold resized_rows. pose proof (zlen_nonneg g).
  set (g' := if C' =? C then g else _).
  assert (zlen g' = R ∧ (i < R → aget g' i = (λ r, if C' =? C then r else row_resize r C C') <$> aget g i))
    as [Hg' Hi'].
  { unfold g'. destruct (Z.eqb_spec C' C); [split; [done |]; intros; by destruct (aget g i) |].
    rewrite zlen_app, zlen_map, zlen_take, zlen_drop by lia. split; [lia |]. intros HR.
    rewrite aget_app, zlen_map, zlen_take by lia. destruct (Z.ltb_spec i (Z.min R R')); [| lia].
    rewrite aget_map, aget_take. by destruct (Z.ltb_spec i (Z.min R R')); [| lia]. }
  assert (zlen (take (Z.to_nat R') g') = Z.min R' R) as Ht
    by (unfold zlen in *; rewrite length_take; lia).
  rewrite aget_app, Ht by lia. destruct (Z.ltb_spec i R).
  - destruct (Z.ltb_spec i (Z.min R' R)); [| lia]. rewrite aget_take.
    destruct (Z.ltb_spec i R'); [auto | lia].
  - destruct (Z.ltb_spec i (Z.min R' R)); [lia |]. rewrite aget_replicate. zbool.
Qed.

(** A resize never traps and gives a well-formed buffer of the new size:
    surviving rows and every history line are cut or padded with blanks to the
    new width, new rows at the bottom are blank, rows past the new height are
    dropped, and nothing is lost when the size grows. *)
Theorem vt_buf_resize_correct R C b h R' C' :
  buf_repr R C b h → 0 <= R' → 0 <= C' →
  ∃ b', vt_buf_resize b R' C' = Some b' ∧ ring_cap b' = ring_cap b ∧
    buf_repr R' C' b' (if C' =? C then h else map (λ r, row_resize r C C') h) ∧
    ∀ i, 0 <= i < R' →
      aget (grid b') i =
        (if i <? R then (λ r, if C' =? C then r else row_resize r C C') <$> aget (grid b) i
         else Some (row_alloc C')).
Proof.
  intros Hb HR' HC'. pose proof (vt_buf_resize_repr R C b h R' C' Hb HR' HC') as H.
  apply yields_Some in H as (b' & E & Hb' & Hg & Hc). exists b'. split_and!; [done ..|].
  intros i Hi. rewrite Hg. apply aget_resized_rows; [apply Hb | done].
Qed.

Lemma vt_buf_resize_correct_witness :
  ∃ b', vt_buf_resize demo_buf 4 3 = Some b' ∧ ring_cap b' = ring_cap demo_buf ∧
    buf_repr 4 3 b' (if 3 =? 2 then [] else map (λ r, row_resize r 2 3) []) ∧
    ∀ i, 0 <= i < 4 →
      aget (grid b') i =
        (if i <? 3 then (λ r, if 3 =? 2 then r else row_resize r 2 3) <$> aget (grid demo_buf) i
         else Some (row_alloc 3)).
Proof. apply (vt_buf_resize_correct 3 2 demo_buf [] 4 3 demo_repr); lia. Defined.

(** The scrollback viewer shows the right lines: copying [count] lines from
    line [off] of the source (history followed by screen) to row [dr] of a
    buffer of any size never traps; each destination row in reach shows the
    line it stands for, cut or padded to the destination's width and blank
    where there is no such line, and every other row and the history of the
    destination are untouched. *)
Theorem vt_buf_copy_scrollback_correct R C R' C' dst h src h' dr off count :
  buf_repr R C dst h → buf_repr R' C' src h' → 0 <= dr → 0 <= count →
  ∃ b', vt_buf_copy_scrollback dst src dr off count = Some b' ∧ buf_repr R C b' h ∧
    ∀ j r, aget (grid dst) j = Some r →
      aget (grid b') j =
        Some (if (dr <=? j) && (j <? dr + count)
              then row_dirty (mk_row (clip C (match aget (h' ++ grid src) (off + (j - dr)) with
                                              | Some l => cells l | None => [] end)) (row_flags r))
              else r).
Proof.
  intros Hd Hs Hdr Hcount.
  pose proof (copy_scrollback_loop_spec R C R' C' src h' (Z.to_nat count) 0 dst h dr off Hd Hs ltac:(lia)) as H.
  apply yields_Some in H as (b' & E & Hb' & _ & Hg). exists b'. split_and!; [done | done |].
  intros j r Hj. rewrite Hg, aget_zmap, Hj. simpl. by rewrite Z.add_0_r, Z2Nat.id by lia.
Qed.

Lemma vt_buf_copy_scrollback_correct_witness :
  ∃ b', vt_buf_copy_scrollback (vt_buf_new 2 4 0) demo_buf 0 1 2 = Some b' ∧ buf_repr 2 4 b' [] ∧
    ∀ j r, aget (grid (vt_buf_new 2 4 0)) j = Some r →
      aget (grid b') j =
        Some (if (0 <=? j) && (j <? 0 + 2)
              then row_dirty (mk_row (clip 4 (match aget ([] ++ grid demo_buf) (1 + (j - 0)) with
                                              | Some l => cells l | None => [] end)) (row_flags r))
              else r).
Proof.
  apply (vt_buf_copy_scrollback_correct 2 4 3 2 (vt_buf_new 2 4 0) [] demo_buf [] 0 1 2); try lia.
  - apply vt_buf_new_repr; lia.
  - apply demo_repr.
Defined.
