(* ===== verification/VtParse.v ===== *)
(** * The escape sequence parser (src/libvt/vt_parse.c)

    The VT500-style state machine that turns program output into actions.
    The callback table becomes a list of events, in call order; the callbacks
    never re-enter the parser, so running them after the byte that produced
    them is what the code does.  The buffers carry their capacities, so that a
    write past an allocation is a trap. *)

From S2P Require Import Prelude Utf8 WidthTables RuneWidth.

(** ** Data *)

Inductive parse_state :=
  | ST_GROUND | ST_ESCAPE | ST_ESCAPE_INTERMED | ST_CSI_ENTRY | ST_CSI_PARAM
  | ST_CSI_INTERMED | ST_CSI_IGNORE | ST_OSC_STRING | ST_DCS_PASSTHRU.

#[export] Instance parse_state_eq_dec : EqDecision parse_state.
Proof. solve_decision. Defined.

Definition VT_MAX_PARAMS : Z := 16.
Definition VT_OSC_INIT : Z := 256.
Definition VT_OSC_MAX : Z := 256 * 1024.
Definition VT_DCS_INIT : Z := 4096.
Definition VT_DCS_MAX : Z := 16 * 1024 * 1024.

(** The calls through [struct vt_ops], the OSC observer and the DCS callback.
    [EvOsc] stands for [ops->osc] followed by [osc_cb], which get the same
    arguments. *)
Inductive vt_event :=
  | EvPrint (cp width : Z)
  | EvExecute (c : Z)
  | EvCsi (params : list Z) (intermed final : Z)
  | EvEsc (intermed final : Z)
  | EvOsc (data : list Z)
  | EvDcs (introducer : Z) (data : list Z).

(** [struct vt_parse].  [params], [osc_buf], [dcs_buf] and [utf8_buf] are the
    parts of the arrays in use, so [nparam], [osc_len], [dcs_len] and
    [utf8_len] are their lengths. *)
Record vt_parse := mk_parse {
  p_state : parse_state;
  params : list Z;
  cur_param : Z;
  has_digit : bool;
  intermed : Z;
  osc_buf : list Z;
  osc_cap : Z;
  dcs_buf : list Z;
  dcs_cap : Z;
  dcs_introducer : Z;
  dcs_cb : bool;           (* a DCS callback is set *)
  utf8_buf : list Z;
  utf8_need : Z;
}.

Definition vt_parse_new : vt_parse :=
  {| p_state := ST_GROUND; params := []; cur_param := 0; has_digit := false; intermed := 0;
     osc_buf := []; osc_cap := 0; dcs_buf := []; dcs_cap := 0; dcs_introducer := 0;
     dcs_cb := false; utf8_buf := []; utf8_need := 0 |}.

Definition vt_parse_set_dcs_cb (p : vt_parse) (on : bool) : vt_parse := {| p with dcs_cb := on |}.

Definition vt_parse_reset (p : vt_parse) : vt_parse :=
  {| vt_parse_new with osc_cap := osc_cap p; dcs_cap := dcs_cap p; dcs_cb := dcs_cb p |}.

Definition set_state (p : vt_parse) (s : parse_state) : vt_parse := {| p with p_state := s |}.
Definition set_intermed (p : vt_parse) (c : Z) : vt_parse := {| p with intermed := c |}.

(** ** CSI parameters *)

Definition csi_reset (p : vt_parse) : vt_parse :=
  {| p with params := []; cur_param := 0; has_digit := false; intermed := 0 |}.

Definition csi_finish_param (p : vt_parse) : vt_parse :=
  {| p with
     params := if zlen (params p) <? VT_MAX_PARAMS
               then params p ++ [if has_digit p then cur_param p else -1] else params p;
     cur_param := 0; has_digit := false |}.

(** ** OSC and DCS strings

    [realloc] is taken to succeed. *)

Definition osc_append (p : vt_parse) (c : Z) : option vt_parse :=
  let len := zlen (osc_buf p) in
  if VT_OSC_MAX <=? len + 1 then Some p else
  let cap :=
    if osc_cap p <=? len + 1 then
      let newcap := if osc_cap p =? 0 then VT_OSC_INIT else osc_cap p * 2 in
      if VT_OSC_MAX <? newcap then VT_OSC_MAX else newcap
    else osc_cap p in
  if len <? cap then Some {| p with osc_buf := osc_buf p ++ [c]; osc_cap := cap |} else None.

Definition emit_osc (p : vt_parse) : option (vt_parse * list vt_event) :=
  if osc_cap p =? 0 then Some (p, [EvOsc []]) else
  if zlen (osc_buf p) <? osc_cap p then
    n ← utf8_trunc (osc_buf p ++ [0]) (zlen (osc_buf p) + 1);
    let data := take (Z.to_nat n) (osc_buf p) in
    Some ({| p with osc_buf := data |}, [EvOsc data])
  else None.

Definition dcs_reset (p : vt_parse) : vt_parse := {| p with dcs_buf := [] |}.

Definition dcs_append (p : vt_parse) (c : Z) : option vt_parse :=
  let len := zlen (dcs_buf p) in
  if VT_DCS_MAX <=? len then Some p else
  let cap :=
    if dcs_cap p <=? len then
      let newcap := if dcs_cap p =? 0 then VT_DCS_INIT else dcs_cap p * 2 in
      if VT_DCS_MAX <? newcap then VT_DCS_MAX else newcap
    else dcs_cap p in
  if len <? cap then Some {| p with dcs_buf := dcs_buf p ++ [c]; dcs_cap := cap |} else None.

Definition emit_dcs (p : vt_parse) : vt_parse * list vt_event :=
  (dcs_reset p,
   if dcs_cb p && (0 <? zlen (dcs_buf p)) then [EvDcs (dcs_introducer p) (dcs_buf p)] else []).

Definition in_rng (lo hi c : Z) : bool := (lo <=? c) && (c <=? hi).

Section Parser.
(** the width table in use *)
Context (tbl : rune_width_table).

Definition emit_print (cp : Z) : option (list vt_event) :=
  w ← rune_width_in tbl cp;
  Some [EvPrint cp (if w <? 0 then 1 else w)].

(** The part of [process_ground] below the continuation handling. *)
Definition ground_byte (p : vt_parse) (c : Z) : option (vt_parse * list vt_event) :=
  if c <? 0x20 then Some (p, [EvExecute c])
  else if c =? 0x7F then Some (p, [])
  else if c <? 0x80 then ev ← emit_print c; Some (p, ev)
  else
    let p1 := {| p with utf8_buf := [c] |} in
    if Z.land c 0xE0 =? 0xC0 then Some ({| p1 with utf8_need := 2 |}, [])
    else if Z.land c 0xF0 =? 0xE0 then Some ({| p1 with utf8_need := 3 |}, [])
    else if Z.land c 0xF8 =? 0xF0 then Some ({| p1 with utf8_need := 4 |}, [])
    else ev ← emit_print 0xFFFD;
         Some ({| p1 with utf8_need := 0; utf8_buf := [] |}, ev).

Definition process_ground (p : vt_parse) (c : Z) : option (vt_parse * list vt_event) :=
  if 0 <? utf8_need p then
    if Z.land c 0xC0 =? 0x80 then
      if zlen (utf8_buf p) <? 4 then
        let p1 := {| p with utf8_buf := utf8_buf p ++ [c] |} in
        if utf8_need p1 <=? zlen (utf8_buf p1) then
          '(rune, _) ← utf8_decode (utf8_buf p1) (zlen (utf8_buf p1));
          ev ← emit_print rune;
          Some ({| p1 with utf8_need := 0; utf8_buf := [] |}, ev)
        else Some (p1, [])
      else None
    else
      ev1 ← emit_print 0xFFFD;
      '(p', ev2) ← ground_byte {| p with utf8_need := 0; utf8_buf := [] |} c;
      Some (p', ev1 ++ ev2)
  else ground_byte p c.

Definition st_escape (p : vt_parse) (c : Z) : vt_parse * list vt_event :=
  if c =? ch "[" then (set_state (csi_reset p) ST_CSI_ENTRY, [])
  else if c =? ch "]" then ({| p with osc_buf := []; p_state := ST_OSC_STRING |}, [])
  else if (c =? ch "P") || (c =? ch "X") || (c =? ch "^") || (c =? ch "_") then
    (set_state (dcs_reset {| p with dcs_introducer := c |}) ST_DCS_PASSTHRU, [])
  else if in_rng 0x20 0x2F c then (set_state (set_intermed p c) ST_ESCAPE_INTERMED, [])
  else if in_rng 0x30 0x7E c then (set_state p ST_GROUND, [EvEsc (intermed p) c])
  else (set_state p ST_GROUND, []).

Definition st_escape_intermed (p : vt_parse) (c : Z) : vt_parse * list vt_event :=
  if in_rng 0x20 0x2F c then (set_intermed p c, [])
  else if in_rng 0x30 0x7E c then (set_state p ST_GROUND, [EvEsc (intermed p) c])
  else (set_state p ST_GROUND, []).

Definition emit_csi (p : vt_parse) (final : Z) : list vt_event :=
  [EvCsi (params p) (intermed p) final].

Definition st_csi_entry (p : vt_parse) (c : Z) : vt_parse * list vt_event :=
  if in_rng (ch "0") (ch "9") c then
    ({| p with cur_param := c - ch "0"; has_digit := true; p_state := ST_CSI_PARAM |}, [])
  else if c =? ch ";" then (set_state (csi_finish_param p) ST_CSI_PARAM, [])
  else if in_rng 0x3C 0x3F c then (set_state (set_intermed p c) ST_CSI_PARAM, [])
  else if in_rng 0x20 0x2F c then (set_state (set_intermed p c) ST_CSI_INTERMED, [])
  else if in_rng 0x40 0x7E c then
    let p := csi_finish_param p in (set_state p ST_GROUND, emit_csi p c)
  else (set_state p ST_GROUND, []).

Definition st_csi_param (p : vt_parse) (c : Z) : vt_parse * list vt_event :=
  if in_rng (ch "0") (ch "9") c then
    ({| p with
        cur_param := if cur_param p <? 65535 then cur_param p * 10 + (c - ch "0") else cur_param p;
        has_digit := true |}, [])
  else if c =? ch ";" then (csi_finish_param p, [])
  else if in_rng 0x20 0x2F c then
    (set_state (set_intermed (csi_finish_param p) c) ST_CSI_INTERMED, [])
  else if in_rng 0x40 0x7E c then
    let p := csi_finish_param p in (set_state p ST_GROUND, emit_csi p c)
  else if in_rng 0x3C 0x3F c then (set_state p ST_CSI_IGNORE, [])
  else (set_state p ST_GROUND, []).

Definition st_csi_intermed (p : vt_parse) (c : Z) : vt_parse * list vt_event :=
  if in_rng 0x20 0x2F c then (p, [])
  else if in_rng 0x40 0x7E c then (set_state p ST_GROUND, emit_csi p c)
  else (set_state p ST_CSI_IGNORE, []).

Definition st_csi_ignore (p : vt_parse) (c : Z) : vt_parse * list vt_event :=
  if in_rng 0x40 0x7E c then (set_state p ST_GROUND, []) else (p, []).

Definition st_osc_string (p : vt_parse) (c : Z) : option (vt_parse * list vt_event) :=
  if c =? 0x07 then '(p, ev) ← emit_osc p; Some (set_state p ST_GROUND, ev)
  else p ← osc_append p c; Some (p, []).

(** The ESC byte, in any state. *)
Definition process_esc (p : vt_parse) : option (vt_parse * list vt_event) :=
  let '(p, ev1) := if decide (p_state p = ST_DCS_PASSTHRU) then emit_dcs p else (p, []) in
  '(p, ev2) ← (if decide (p_state p = ST_OSC_STRING) then emit_osc p else Some (p, []));
  Some ({| p with utf8_need := 0; utf8_buf := []; p_state := ST_ESCAPE; intermed := 0 |},
        ev1 ++ ev2).

Definition process_byte (p : vt_parse) (c : Z) : option (vt_parse * list vt_event) :=
  if c =? 0x1B then process_esc p
  else if negb (bool_decide (p_state p = ST_GROUND)) && negb (bool_decide (p_state p = ST_OSC_STRING))
          && in_rng 0x07 0x0D c
  then Some (p, [EvExecute c])
  else match p_state p with
  | ST_GROUND => process_ground p c
  | ST_ESCAPE => Some (st_escape p c)
  | ST_ESCAPE_INTERMED => Some (st_escape_intermed p c)
  | ST_CSI_ENTRY => Some (st_csi_entry p c)
  | ST_CSI_PARAM => Some (st_csi_param p c)
  | ST_CSI_INTERMED => Some (st_csi_intermed p c)
  | ST_CSI_IGNORE => Some (st_csi_ignore p c)
  | ST_DCS_PASSTHRU => p ← dcs_append p c; Some (p, [])
  | ST_OSC_STRING => st_osc_string p c
  end.

(** [vt_parse_feed]: the events of a chunk, in order. *)
Fixpoint vt_parse_feed (p : vt_parse) (data : list Z) : option (vt_parse * list vt_event) :=
  match data with
  | [] => Some (p, [])
  | c :: data' =>
      '(p, ev1) ← process_byte p c;
      '(p, ev2) ← vt_parse_feed p data';
      Some (p, ev1 ++ ev2)
  end.
End Parser.

Example parse_sgr :
  snd <$> vt_parse_feed table_15_1_0 vt_parse_new (27 :: str "[38;5;196mA")
  = Some [EvCsi [38; 5; 196] 0 (ch "m"); EvPrint (ch "A") 1].
Proof. vm_compute. reflexivity. Qed.

Example parse_osc_title :
  snd <$> vt_parse_feed table_15_1_0 vt_parse_new (27 :: str "]2;hi" ++ [27] ++ str "\")
  = Some [EvOsc (str "2;hi"); EvEsc 0 (ch "\")].
Proof. vm_compute. reflexivity. Qed.

(** ** The invariant of the parser, and what its events may carry *)

(** Bounds of an accumulated CSI parameter: 65534 * 10 + 9. *)
Definition PARAM_MAX : Z := 655349.
Definition param_ok (n : Z) : Prop := -1 <= n <= PARAM_MAX.

Record wf_parse (p : vt_parse) : Prop := {
  wp_params : zlen (params p) <= VT_MAX_PARAMS ∧ Forall param_ok (params p);
  wp_cur : 0 <= cur_param p <= PARAM_MAX;
  wp_intermed : is_byte (intermed p);
  wp_osc : (osc_cap p = 0 ∧ osc_buf p = []) ∨ zlen (osc_buf p) + 1 <= osc_cap p <= VT_OSC_MAX;
  wp_osc_bytes : Forall is_byte (osc_buf p);
  wp_dcs : zlen (dcs_buf p) <= dcs_cap p <= VT_DCS_MAX;
  wp_utf8 : (utf8_need p = 0 ∧ utf8_buf p = []) ∨
    (2 <= utf8_need p <= 4 ∧ zlen (utf8_buf p) < utf8_need p ∧
     ∃ b bs, utf8_buf p = b :: bs ∧ 0x80 <= b ∧ Forall is_byte (utf8_buf p));
}.

(** A codepoint that may be printed. *)
Definition print_rune (r : Z) : Prop := valid_rune r ∧ 0x20 <= r.

Definition event_ok (ev : vt_event) : Prop :=
  match ev with
  | EvPrint cp w => print_rune cp ∧ 0 <= w <= 2
  | EvExecute c => 0 <= c < 0x20
  | EvCsi ps i f => zlen ps <= VT_MAX_PARAMS ∧ Forall param_ok ps ∧ is_byte i ∧ 0x40 <= f <= 0x7E
  | EvEsc i f => is_byte i ∧ 0x30 <= f <= 0x7E
  | EvOsc data => zlen data < VT_OSC_MAX ∧ ∃ rs, Forall text_rune rs ∧ data = encode_all rs
  | EvDcs _ data => 1 <= zlen data <= VT_DCS_MAX
  end.

Definition parsed (r : vt_parse * list vt_event) : Prop :=
  wf_parse r.1 ∧ Forall event_ok r.2.

Lemma wf_parse_new : wf_parse vt_parse_new.
Proof.
  constructor; simpl; try lia; unfold zlen, is_byte, PARAM_MAX, VT_MAX_PARAMS, VT_DCS_MAX; simpl; try lia; auto.
  split; [lia | constructor].
Qed.

Lemma wf_parse_reset p : wf_parse p → wf_parse (vt_parse_reset p).
Proof.
  intros [? ? ? Ho ? Hd ?]. pose proof (zlen_nonneg (osc_buf p)). pose proof (zlen_nonneg (dcs_buf p)).
  destruct wf_parse_new. constructor; simpl; try done.
  - destruct Ho as [[? _]|?]; [by left | right]. unfold zlen in *. simpl. lia.
  - unfold zlen in *. simpl. lia.
Qed.

Ltac unfold_rng := unfold in_rng, is_byte, param_ok, PARAM_MAX in *.

Lemma wf_finish_param p : wf_parse p → wf_parse (csi_finish_param p).
Proof.
  intros [[? ?] ? ? ? ? ? ?]. unfold csi_finish_param. constructor; simpl; try done; unfold_rng; try lia.
  case_match; [| done]. rewrite zlen_app. unfold zlen at 2. simpl.
  split; [unfold VT_MAX_PARAMS in *; lia |].
  apply Forall_app. split; [done |]. constructor; [| done]. case_match; lia.
Qed.

Lemma finish_param_nonempty p : params (csi_finish_param p) ≠ [].
Proof.
  unfold csi_finish_param. simpl. destruct (Z.ltb_spec (zlen (params p)) VT_MAX_PARAMS).
  - by destruct (params p).
  - intros E. rewrite E in *. unfold zlen, VT_MAX_PARAMS in *. simpl in *. lia.
Qed.

Lemma wf_set_state p s : wf_parse p → wf_parse (set_state p s).
Proof. intros []. by constructor. Qed.

Lemma wf_set_intermed p c : is_byte c → wf_parse p → wf_parse (set_intermed p c).
Proof. intros ? []. by constructor. Qed.

Lemma wf_csi_reset p : wf_parse p → wf_parse (csi_reset p).
Proof.
  intros []. constructor; simpl; try done; unfold_rng; try lia.
Qed.

#[export] Hint Resolve wf_finish_param wf_set_state wf_set_intermed wf_csi_reset : lumi.

Lemma parsed_nil p : wf_parse p → parsed (p, []).
Proof. by split. Qed.

Lemma parsed_csi p c :
  wf_parse p → 0x40 <= c <= 0x7E → parsed (set_state p ST_GROUND, emit_csi p c).
Proof.
  intros Hp Hc. split; simpl; [auto with lumi |]. constructor; [| done].
  destruct Hp as [[? ?] ? ? ? ? ? ?]. simpl. tauto.
Qed.

Lemma parsed_esc p c :
  wf_parse p → 0x30 <= c <= 0x7E → parsed (set_state p ST_GROUND, [EvEsc (intermed p) c]).
Proof.
  intros Hp Hc. split; simpl; [auto with lumi |]. constructor; [| done].
  destruct Hp. simpl. tauto.
Qed.

#[export] Hint Resolve parsed_nil parsed_csi parsed_esc : lumi.

(** Close a transition of the string-free states. *)
Ltac transition :=
  repeat case_match; unfold in_rng in *; auto 6 with lumi;
  try (apply parsed_csi; [auto with lumi | lia]);
  try (apply parsed_esc; [auto with lumi | lia]).

Lemma st_escape_ok p c : wf_parse p → is_byte c → parsed (st_escape p c).
Proof.
  intros Hp Hc. unfold st_escape. transition; apply parsed_nil.
  - destruct Hp as [? ? ? Ho ? ? ?]. constructor; simpl; try done.
    destruct Ho as [[? ?]|?]; [by left | right].
    pose proof (zlen_nonneg (osc_buf p)). unfold zlen in *. simpl. lia.
  - apply wf_set_state. destruct Hp as [? ? ? ? ? Hd ?]. constructor; simpl; try done.
    pose proof (zlen_nonneg (dcs_buf p)). unfold zlen in *. simpl. lia.
Qed.

Lemma st_escape_intermed_ok p c : wf_parse p → is_byte c → parsed (st_escape_intermed p c).
Proof. intros Hp Hc. unfold st_escape_intermed. transition. Qed.

Lemma st_csi_entry_ok p c : wf_parse p → is_byte c → parsed (st_csi_entry p c).
Proof.
  intros Hp Hc. unfold st_csi_entry. transition. apply parsed_nil.
  destruct Hp. constructor; simpl; try done. unfold_rng. chs. lia.
Qed.

Lemma st_csi_param_ok p c : wf_parse p → is_byte c → parsed (st_csi_param p c).
Proof.
  intros Hp Hc. unfold st_csi_param. transition; apply parsed_nil;
    destruct Hp; constructor; simpl; try done; unfold_rng; chs; zbool.
Qed.

Lemma st_csi_intermed_ok p c : wf_parse p → is_byte c → parsed (st_csi_intermed p c).
Proof. intros Hp Hc. unfold st_csi_intermed. transition. Qed.

Lemma st_csi_ignore_ok p c : wf_parse p → is_byte c → parsed (st_csi_ignore p c).
Proof. intros Hp Hc. unfold st_csi_ignore. transition. Qed.

(** ** The string states *)

Lemma osc_append_ok p c :
  wf_parse p → is_byte c → yields (osc_append p c) wf_parse.
Proof.
  intros Hp Hc. destruct Hp as [? ? ? Ho Hb ? ?]. unfold osc_append.
  pose proof (zlen_nonneg (osc_buf p)).
  destruct (Z.leb_spec VT_OSC_MAX (zlen (osc_buf p) + 1)); [by constructor |].
  set (cap := if osc_cap p <=? zlen (osc_buf p) + 1 then _ else _).
  assert (zlen (osc_buf p) + 2 <= cap <= VT_OSC_MAX) as Hcap.
  { unfold cap. assert (osc_cap p = 0 → zlen (osc_buf p) = 0) as Hempty.
    { intros E. destruct Ho as [[_ ->]|?]; [done | lia]. }
    unfold VT_OSC_INIT, VT_OSC_MAX in *. zbool. }
  clearbody cap. destruct (Z.ltb_spec (zlen (osc_buf p)) cap); [| lia].
  constructor; simpl; try done.
  - right. rewrite zlen_app. unfold zlen at 2. simpl. lia.
  - apply Forall_app. split; [done | by apply Forall_singleton].
Qed.

Lemma emit_osc_ok p : wf_parse p → yields (emit_osc p) parsed.
Proof.
  intros Hp. unfold emit_osc. pose proof Hp as [? ? ? Ho Hb ? ?].
  pose proof (zlen_nonneg (osc_buf p)) as Hlen.
  destruct (Z.eqb_spec (osc_cap p) 0).
  { split; [done |]. constructor; [| done]. simpl. unfold VT_OSC_MAX, zlen. simpl.
    split; [lia | by exists []]. }
  destruct Ho as [[? _]|Ho]; [done |].
  destruct (Z.ltb_spec (zlen (osc_buf p)) (osc_cap p)); [| lia].
  unfold utf8_trunc. destruct (Z.eqb_spec (zlen (osc_buf p) + 1) 0); [lia |].
  replace (zlen (osc_buf p) + 1 - 1) with (zlen (osc_buf p)) by lia.
  eapply yields_seq.
  { apply utf8_trunc_loop_spec; [| lia | rewrite zlen_app; unfold zlen; simpl; lia | lia].
    apply Forall_app. split; [done |]. constructor; [unfold is_byte; lia | done]. }
  intros k (Hk & _ & rs & Hrs & Ht). rewrite Z.sub_0_r in Ht. change (Z.to_nat 0) with 0%nat in Ht.
  rewrite drop_0, take_app_le in Ht by (unfold zlen in *; lia). rewrite Ht.
  assert (zlen (encode_all rs) = k) as Hz by (rewrite <- Ht; apply zlen_take; lia).
  split; simpl.
  - constructor; simpl; try done; [right; lia |].
    rewrite <- Ht. by apply Forall_take.
  - constructor; [| done]. simpl. split; [unfold VT_OSC_MAX in *; lia | eauto].
Qed.

Lemma dcs_append_ok p c : wf_parse p → yields (dcs_append p c) wf_parse.
Proof.
  intros Hp. destruct Hp as [? ? ? ? ? Hd ?]. unfold dcs_append.
  pose proof (zlen_nonneg (dcs_buf p)).
  destruct (Z.leb_spec VT_DCS_MAX (zlen (dcs_buf p))); [by constructor |].
  set (cap := if dcs_cap p <=? zlen (dcs_buf p) then _ else _).
  assert (zlen (dcs_buf p) + 1 <= cap <= VT_DCS_MAX) as Hcap
    by (unfold cap, VT_DCS_INIT, VT_DCS_MAX in *; zbool).
  clearbody cap. destruct (Z.ltb_spec (zlen (dcs_buf p)) cap); [| lia].
  constructor; simpl; try done. rewrite zlen_app. unfold zlen at 2. simpl. lia.
Qed.

Lemma emit_dcs_ok p : wf_parse p → parsed (emit_dcs p).
Proof.
  intros [? ? ? ? ? Hd ?]. pose proof (zlen_nonneg (dcs_buf p)). split; simpl.
  - constructor; simpl; try done. unfold zlen in *. simpl. lia.
  - destruct (dcs_cb p); [| constructor]. destruct (Z.ltb_spec 0 (zlen (dcs_buf p))); [| constructor].
    constructor; [simpl; lia | constructor].
Qed.

(** ** Ground state and the whole byte step *)

Section ParserOk.
Context (tbl : rune_width_table) `{!WidthTable tbl}.

(** The width an event carries. *)
Definition print_width (cp : Z) : Z := if width_spec tbl cp <? 0 then 1 else width_spec tbl cp.

Lemma emit_print_eq cp : emit_print tbl cp = Some [EvPrint cp (print_width cp)].
Proof. unfold emit_print. by rewrite rune_width_in_spec. Qed.

Lemma print_width_range cp : 0 <= print_width cp <= 2.
Proof. unfold print_width. pose proof (width_spec_range tbl cp). zbool. Qed.

Lemma event_print_ok cp : print_rune cp → event_ok (EvPrint cp (print_width cp)).
Proof. split; [done | apply print_width_range]. Qed.

Lemma print_rune_error : print_rune UTF8_RUNE_ERROR.
Proof. unfold print_rune, valid_rune, UTF8_RUNE_ERROR, UTF8_RUNE_MAX. lia. Qed.

Lemma wf_utf8_clear p : wf_parse p → wf_parse {| p with utf8_need := 0; utf8_buf := [] |}.
Proof. intros []. constructor; simpl; try done. by left. Qed.

Lemma wf_utf8_start p c n :
  wf_parse p → is_byte c → 0x80 <= c → 2 <= n <= 4 →
  wf_parse {| p with utf8_buf := [c]; utf8_need := n |}.
Proof.
  intros [] ? ? ?. constructor; simpl; try done. right. unfold zlen. simpl.
  split_and!; [lia | lia | lia |]. exists c, []. split_and!; [done | done | by apply Forall_singleton].
Qed.

Lemma ground_byte_ok p c : wf_parse p → is_byte c → utf8_need p = 0 → yields (ground_byte tbl p c) parsed.
Proof.
  intros Hp Hc Hneed. unfold ground_byte. rewrite !emit_print_eq. cbn [mbind option_bind].
  unfold is_byte in Hc. repeat case_match; simpl.
  - split; [done |]. constructor; [simpl; lia | constructor].
  - by apply parsed_nil.
  - split; [done |]. constructor; [apply event_print_ok | constructor].
    unfold print_rune, valid_rune, UTF8_RUNE_MAX. lia.
  - apply parsed_nil. apply (wf_utf8_start p c 2); (done || lia).
  - apply parsed_nil. apply (wf_utf8_start p c 3); (done || lia).
  - apply parsed_nil. apply (wf_utf8_start p c 4); (done || lia).
  - split; [by apply wf_utf8_clear |].
    constructor; [apply event_print_ok, print_rune_error | constructor].
Qed.

(** What a complete multi-byte buffer decodes to may be printed. *)
Lemma decode_print_rune s r n :
  decode_ok s (zlen s) (r, n) → (∃ b bs, s = b :: bs ∧ 0x80 <= b) → print_rune r.
Proof.
  intros [(_ & -> & _)|[(_ & -> & _)|(Hn & Hv & Ht)]] (b & bs & -> & Hb);
    [apply print_rune_error .. |].
  split; [done |]. destruct (utf8_encode_first r Hv) as (b' & bs' & E & Hsm & _).
  rewrite E in Ht. replace (Z.to_nat n) with (S (Z.to_nat (n - 1))) in Ht by lia.
  simpl in Ht. injection Ht as -> _. destruct (Z.lt_ge_cases r 128); [| lia].
  destruct Hsm; lia.
Qed.

Lemma process_ground_ok p c : wf_parse p → is_byte c → yields (process_ground tbl p c) parsed.
Proof.
  intros Hp Hc. unfold process_ground.
  destruct (Z.ltb_spec 0 (utf8_need p)) as [Hn|Hn].
  2: { apply ground_byte_ok; [done | done |]. destruct Hp as [? ? ? ? ? ? [[? _]|?]]; lia. }
  destruct (cont_byte_arith c Hc) as [Econt _]. rewrite Econt.
  rewrite !emit_print_eq. cbn [mbind option_bind].
  destruct ((128 <=? c) && (c <? 192)) eqn:E.
  - destruct Hp as [? ? ? ? ? ? [[? _]|(Hneed & Hlt & b & bs & Hbuf & Hb & Hbs)]]; [lia |].
    destruct (Z.ltb_spec (zlen (utf8_buf p)) 4); [| lia]. cbn [utf8_buf utf8_need].
    assert (Forall is_byte (utf8_buf p ++ [c])) as Hall by (apply Forall_app; split; [done | by apply Forall_singleton]).
    destruct (Z.leb_spec (utf8_need p) (zlen (utf8_buf p ++ [c]))) as [Hfull|Hmore].
    + eapply yields_seq; [apply utf8_decode_sound; [done | unfold zlen; lia] |].
      intros [r n] Hd. rewrite emit_print_eq. cbn [mbind option_bind]. split; simpl.
      * constructor; simpl; try done. by left.
      * constructor; [apply event_print_ok | constructor].
        eapply decode_print_rune; [exact Hd |]. rewrite Hbuf. simpl. eauto.
    + apply parsed_nil. constructor; simpl; try done. right. split_and!; [lia | lia | done |].
      rewrite Hbuf. simpl. exists b, (bs ++ [c]). split_and!; [done | done |]. by rewrite Hbuf in Hall.
  - eapply yields_seq; [apply ground_byte_ok; [by apply wf_utf8_clear | done | done] |].
    intros [p' ev] [Hp' Hev]. split; [done |]. simpl.
    constructor; [apply event_print_ok, print_rune_error | done].
Qed.

Lemma wf_esc p :
  wf_parse p →
  wf_parse {| p with utf8_need := 0; utf8_buf := []; p_state := ST_ESCAPE; intermed := 0 |}.
Proof. intros []. constructor; simpl; try done. by left. Qed.

Lemma process_esc_ok p : wf_parse p → yields (process_esc p) parsed.
Proof.
  intros Hp. unfold process_esc.
  destruct (decide (p_state p = ST_DCS_PASSTHRU)) as [E|E].
  - pose proof (emit_dcs_ok p Hp) as [Hp1 Hev1]. destruct (emit_dcs p) as [p1 ev1] eqn:Ed.
    assert (p_state p1 = ST_DCS_PASSTHRU) as E1 by (unfold emit_dcs in Ed; by simplify_eq/=).
    rewrite decide_False by (rewrite E1; done). cbn [mbind option_bind]. rewrite app_nil_r.
    split; [by apply wf_esc | done].
  - destruct (decide (p_state p = ST_OSC_STRING)).
    + eapply yields_seq; [by apply emit_osc_ok |]. intros [p1 ev1] [Hp1 Hev1].
      split; [by apply wf_esc | done].
    + split; [by apply wf_esc | constructor].
Qed.

Lemma process_byte_ok p c : wf_parse p → is_byte c → yields (process_byte tbl p c) parsed.
Proof.
  intros Hp Hc. unfold process_byte. case_match; [by apply process_esc_ok |].
  case_match.
  { split; [done |]. constructor; [| constructor]. simpl. unfold in_rng in *. lia. }
  destruct (p_state p); simpl.
  - by apply process_ground_ok.
  - by apply st_escape_ok.
  - by apply st_escape_intermed_ok.
  - by apply st_csi_entry_ok.
  - by apply st_csi_param_ok.
  - by apply st_csi_intermed_ok.
  - by apply st_csi_ignore_ok.
  - unfold st_osc_string. case_match.
    + eapply yields_seq; [by apply emit_osc_ok |]. intros [p1 ev1] [Hp1 Hev1].
      split; simpl; [auto with lumi | done].
    + eapply yields_seq; [by apply osc_append_ok |]. intros p1 Hp1. by apply parsed_nil.
  - eapply yields_seq; [by apply dcs_append_ok |]. intros p1 Hp1. by apply parsed_nil.
Qed.

Lemma vt_parse_feed_ok p data :
  wf_parse p → Forall is_byte data → yields (vt_parse_feed tbl p data) parsed.
Proof.
  intros Hp Hd. revert p Hp; induction Hd as [|c data Hc Hd IH]; intros p Hp; cbn [vt_parse_feed].
  { by apply parsed_nil. }
  eapply yields_seq; [by apply process_byte_ok |]. intros [p1 ev1] [Hp1 Hev1].
  eapply yields_seq; [by apply IH |]. intros [p2 ev2] [Hp2 Hev2].
  split; [done |]. simpl. by apply Forall_app.
Qed.

Lemma vt_parse_feed_app p d1 d2 :
  vt_parse_feed tbl p (d1 ++ d2) =
  ('(p1, ev1) ← vt_parse_feed tbl p d1;
   '(p2, ev2) ← vt_parse_feed tbl p1 d2;
   Some (p2, ev1 ++ ev2)).
Proof.
  revert p; induction d1 as [|c d1 IH]; intros p; simpl.
  { destruct (vt_parse_feed tbl p d2) as [[? ?]|]; done. }
  destruct (process_byte tbl p c) as [[p1 ev1]|]; simpl; [| done]. rewrite IH.
  destruct (vt_parse_feed tbl p1 d1) as [[p2 ev2]|]; simpl; [| done].
  destruct (vt_parse_feed tbl p2 d2) as [[p3 ev3]|]; simpl; [| done]. by rewrite app_assoc.
Qed.
End ParserOk.

(** ** Text: UTF-8 in the ground state becomes its codepoints *)

Lemma utf8_encode_conts r b bs :
  valid_rune r → utf8_encode r = b :: bs → Forall (λ c, 0x80 <= c < 0xC0) bs.
Proof.
  intros Hv. rewrite utf8_encode_arith by done. intros E.
  repeat case_match; injection E as <- <-; repeat constructor; euclid.
Qed.

Lemma utf8_encode_lead r b bs :
  valid_rune r → 0x80 <= r → utf8_encode r = b :: bs →
  ∃ v, utf8_lead b = Some (v, zlen (b :: bs)).
Proof.
  intros Hv Hr. pose proof Hv as [[_ Hmax] _]. unfold UTF8_RUNE_MAX in Hmax.
  rewrite utf8_encode_arith by done. intros E.
  assert (0 <= b < 256 ∧ 0x80 <= b) as [Hb Hb'] by (repeat case_match; injection E as <- <-; euclid).
  rewrite lead_byte_arith by done.
  repeat case_match; injection E as <- <-;
    first [eexists; reflexivity | exfalso; euclid].
Qed.

Definition ground (p : vt_parse) : Prop :=
  p_state p = ST_GROUND ∧ utf8_need p = 0 ∧ utf8_buf p = [].

(** A codepoint that is printed as it is: no control. *)
Definition plain_rune (r : Z) : Prop := print_rune r ∧ r ≠ 0x7F.

Section Text.
Context (tbl : rune_width_table) `{!WidthTable tbl}.

Lemma process_byte_ground p c :
  p_state p = ST_GROUND → c ≠ 0x1B → process_byte tbl p c = process_ground tbl p c.
Proof.
  intros Hs Hc. unfold process_byte. destruct (Z.eqb_spec c 27); [done |].
  rewrite bool_decide_true by done. simpl. by rewrite Hs.
Qed.

Lemma feed_conts p rest buf need r :
  p_state p = ST_GROUND → utf8_need p = need → utf8_buf p = buf →
  rest ≠ [] → Forall (λ c, 0x80 <= c < 0xC0) rest →
  zlen buf + zlen rest = need → 1 <= zlen buf → need <= 4 →
  utf8_decode (buf ++ rest) need = Some (r, need) →
  vt_parse_feed tbl p rest =
  Some ({| p with utf8_need := 0; utf8_buf := [] |}, [EvPrint r (print_width tbl r)]).
Proof.
  revert p buf; induction rest as [|c rest IH]; intros p buf Hs Hn Hb Hne Hc Hlen Hpos Hmax Hd; [done |].
  apply Forall_cons in Hc as [Hc Hrest]. rewrite zlen_cons in Hlen.
  pose proof (zlen_nonneg rest). cbn [vt_parse_feed].
  rewrite process_byte_ground by (done || lia). unfold process_ground. rewrite Hn, Hb.
  destruct (Z.ltb_spec 0 need); [| lia].
  destruct (cont_byte_arith c) as [-> _]; [lia |].
  destruct (Z.leb_spec 128 c); [| lia]. destruct (Z.ltb_spec c 192); [| lia]. cbn [andb].
  destruct (Z.ltb_spec (zlen buf) 4); [| lia]. cbn [utf8_buf utf8_need].
  rewrite zlen_app, zlen_cons, zlen_nil.
  destruct rest as [|c' rest].
  - rewrite zlen_nil in Hlen. destruct (Z.leb_spec need (zlen buf + (0 + 1))); [| lia].
    replace (zlen buf + (0 + 1)) with need by lia. rewrite Hd. cbn [mbind option_bind].
    rewrite emit_print_eq by done. cbn. done.
  - rewrite zlen_cons in Hlen. pose proof (zlen_nonneg rest).
    destruct (Z.leb_spec need (zlen buf + (0 + 1))); [lia |]. cbn [mbind option_bind].
    rewrite (IH _ (buf ++ [c])); [done | done | done | done | done | done | | | done |].
    + rewrite zlen_app, !zlen_cons, zlen_nil. lia.
    + rewrite zlen_app. pose proof (zlen_nonneg [c]). lia.
    + by rewrite <- app_assoc.
Qed.

Lemma feed_rune p r :
  ground p → plain_rune r →
  vt_parse_feed tbl p (utf8_encode r) = Some (p, [EvPrint r (print_width tbl r)]).
Proof.
  intros (Hs & Hn & Hb) [[Hv Hr] Hdel].
  destruct (utf8_encode_first r Hv) as (b & bs & E & Hsmall & Hbig).
  pose proof (utf8_encode_conts r b bs Hv E) as Hconts. rewrite E. cbn [vt_parse_feed].
  assert ({| p with utf8_need := 0; utf8_buf := [] |} = p) as Hp by (destruct p; simpl in *; by subst).
  rewrite process_byte_ground by (done || lia). unfold process_ground. rewrite Hn.
  destruct (Z.ltb_spec 0 0); [lia |]. unfold ground_byte.
  destruct (Z.ltb_spec b 32); [lia |]. destruct (Z.eqb_spec b 127); [lia |].
  destruct (Z.lt_ge_cases r 128) as [Hlt|Hge].
  - destruct (Hsmall Hlt) as [-> ->]. destruct (Z.ltb_spec r 128); [| lia].
    rewrite emit_print_eq by done. done.
  - specialize (Hbig Hge). destruct (Z.ltb_spec b 128); [lia |].
    destruct (utf8_encode_lead r b bs Hv Hge E) as [v Hlead].
    pose proof (utf8_encode_nonempty r Hv) as Hlen. rewrite E in Hlen.
    pose proof (utf8_decode_encode r [] (zlen (utf8_encode r)) Hv ltac:(lia)) as Hd.
    rewrite app_nil_r, E in Hd.
    assert (∀ n, zlen (b :: bs) = n → n ≠ 1 →
      vt_parse_feed tbl {| p with utf8_buf := [b]; utf8_need := n |} bs =
      Some (p, [EvPrint r (print_width tbl r)])) as Hfeed.
    { intros m Hz Hn1. rewrite zlen_cons in Hz, Hlen. pose proof (zlen_nonneg bs).
      assert (bs ≠ []) by (intros ->; rewrite zlen_nil in Hz; lia).
      rewrite zlen_cons, Hz in Hd. etransitivity.
      - apply (feed_conts _ bs [b] m r); try done; rewrite ?zlen_cons, ?zlen_nil; lia.
      - f_equal. f_equal. exact Hp. }
    unfold utf8_lead in Hlead. remember (zlen (b :: bs)) as z eqn:Ez. clear Ez Hlen Hd.
    destruct (Z.land b 224 =? 192); [| destruct (Z.land b 240 =? 224);
      [| destruct (Z.land b 248 =? 240); [| done]]];
      injection Hlead as _ Hz; cbn -[vt_parse_feed];
      rewrite (Hfeed _ (eq_sym Hz)) by lia; done.
Qed.

Lemma feed_text p rs :
  ground p → Forall plain_rune rs →
  vt_parse_feed tbl p (encode_all rs) = Some (p, map (λ r, EvPrint r (print_width tbl r)) rs).
Proof.
  intros Hp. induction 1 as [|r rs Hr Hrs IH]; [done |].
  change (encode_all (r :: rs)) with (utf8_encode r ++ encode_all rs).
  rewrite vt_parse_feed_app, feed_rune by done. cbn. by rewrite IH.
Qed.
End Text.

(** ** Correctness *)

(** The parser is memory-safe on arbitrary input and bounds what it hands
    on: whatever bytes arrive, in whatever state, no buffer is overrun, the
    invariant holds again, and every event is within its bounds: at most 16
    parameters below 655350, printable scalar values of width 0 to 2, final
    bytes in range, OSC payloads that are clean UTF-8 below 256 KiB, DCS
    payloads of at most 16 MiB. *)
Theorem vt_parse_feed_safe tbl p data :
  WidthTable tbl → wf_parse p → Forall is_byte data →
  ∃ p' evs, vt_parse_feed tbl p data = Some (p', evs) ∧ wf_parse p' ∧ Forall event_ok evs.
Proof.
  intros Ht Hp Hd. pose proof (vt_parse_feed_ok tbl p data Hp Hd) as H.
  destruct (vt_parse_feed tbl p data) as [[p' evs]|]; [| done]. by exists p', evs.
Qed.

(** The bytes of the witnesses below are bytes. *)
Ltac all_bytes := repeat (apply Forall_cons_2; [unfold is_byte; chs; lia |]); apply Forall_nil_2.

Lemma vt_parse_feed_safe_witness :
  ∃ p' evs, vt_parse_feed table_15_1_0 vt_parse_new [27; ch "P"; 255; 27; ch "\"; 0xE2; 0x82] = Some (p', evs) ∧
    wf_parse p' ∧ Forall event_ok evs.
Proof.
  apply (vt_parse_feed_safe table_15_1_0 vt_parse_new).
  - apply builtin_ok. unfold rune_width_builtin. rewrite !elem_of_cons. auto.
  - apply wf_parse_new.
  - all_bytes.
Defined.

(** Feeding chunk after chunk. *)
Fixpoint feed_chunks (tbl : rune_width_table) (p : vt_parse) (chunks : list (list Z))
  : option (vt_parse * list vt_event) :=
  match chunks with
  | [] => Some (p, [])
  | d :: chunks' =>
      '(p, ev1) ← vt_parse_feed tbl p d;
      '(p, ev2) ← feed_chunks tbl p chunks';
      Some (p, ev1 ++ ev2)
  end.

(** How the input is cut into reads makes no difference: the final parser
    state and the events, in order, depend on the bytes alone, also when a cut
    falls inside a UTF-8 character or a control sequence. *)
Theorem vt_parse_chunking tbl p chunks :
  feed_chunks tbl p chunks = vt_parse_feed tbl p (concat chunks).
Proof.
  revert p; induction chunks as [|d chunks IH]; intros p; [done |]. simpl.
  rewrite vt_parse_feed_app. destruct (vt_parse_feed tbl p d) as [[p1 ev1]|]; simpl; [| done].
  by rewrite IH.
Qed.

(** In the ground state, UTF-8 text without controls is printed codepoint
    by codepoint with the width of the table in use, and leaves the parser as
    it was. *)
Theorem vt_parse_text_prints tbl p rs :
  WidthTable tbl → ground p → Forall plain_rune rs →
  vt_parse_feed tbl p (encode_all rs) = Some (p, map (λ r, EvPrint r (print_width tbl r)) rs).
Proof. intros Ht. by apply feed_text. Qed.

Lemma vt_parse_text_prints_witness :
  vt_parse_feed table_9_0_0 vt_parse_new (encode_all [72; 0xE9; 0x4E00; 0x1F600]) =
  Some (vt_parse_new, map (λ r, EvPrint r (print_width table_9_0_0 r)) [72; 0xE9; 0x4E00; 0x1F600]).
Proof.
  apply (vt_parse_text_prints table_9_0_0 vt_parse_new).
  - apply builtin_ok. unfold rune_width_builtin. rewrite !elem_of_cons. auto.
  - by split_and!.
  - repeat constructor; unfold UTF8_RUNE_MAX; lia.
Defined.

(** What ESC does in any state. *)
Definition string_event (ev : vt_event) : Prop := (∃ i d, ev = EvDcs i d) ∨ ∃ d, ev = EvOsc d.

Lemma emit_osc_shape p : wf_parse p → ∃ p' d, emit_osc p = Some (p', [EvOsc d]).
Proof.
  intros Hp. pose proof (emit_osc_ok p Hp) as Ho. unfold emit_osc in *.
  case_match; [eauto |]. case_match; [| done].
  destruct (utf8_trunc _ _); [| done]. cbn [mbind option_bind]. eauto.
Qed.

Lemma process_esc_shape p :
  wf_parse p →
  ∃ p' evs, process_esc p = Some (p', evs) ∧ Forall string_event evs ∧
    p_state p' = ST_ESCAPE ∧ intermed p' = 0 ∧ utf8_need p' = 0 ∧ utf8_buf p' = [].
Proof.
  intros Hp. unfold process_esc.
  destruct (decide (p_state p = ST_DCS_PASSTHRU)) as [E|E].
  - unfold emit_dcs. rewrite decide_False by (simpl; rewrite E; done). cbn [mbind option_bind].
    eexists _, _. split; [done |]. split; [| by split_and!]. rewrite app_nil_r.
    case_match; [| apply Forall_nil_2]. apply Forall_cons_2; [left; eauto | apply Forall_nil_2].
  - destruct (decide (p_state p = ST_OSC_STRING)).
    + destruct (emit_osc_shape p Hp) as (p1 & d & ->). cbn [mbind option_bind].
      eexists _, _. split; [done |]. split; [| by split_and!].
      apply Forall_cons_2; [right; eauto | apply Forall_nil_2].
    + eexists _, _. split; [done |]. split; [apply Forall_nil_2 | by split_and!].
Qed.

(** The parser resynchronises: from any well-formed state, in the middle of
    any sequence or string, the two bytes of ST bring it back to the ground
    state with nothing pending; all they emit besides themselves is the string
    that they end. *)
Theorem vt_parse_resync tbl p :
  wf_parse p →
  ∃ p' evs, vt_parse_feed tbl p [27; ch "\"] = Some (p', evs ++ [EvEsc 0 (ch "\")]) ∧ ground p' ∧
    ∀ ev, ev ∈ evs → (∃ i d, ev = EvDcs i d) ∨ ∃ d, ev = EvOsc d.
Proof.
  intros Hp. destruct (process_esc_shape p Hp) as (p1 & evs & E & Hevs & Hs & Hi & Hn & Hb).
  exists (set_state p1 ST_GROUND), evs. split; [| split; [by split_and! |]].
  - cbn [vt_parse_feed]. change (process_byte tbl p 27) with (process_esc p). rewrite E.
    cbn [mbind option_bind]. unfold process_byte. rewrite Hs. unfold st_escape. rewrite Hi. reflexivity.
  - intros ev Hev. rewrite Forall_forall in Hevs. by apply Hevs.
Qed.

Lemma vt_parse_resync_witness :
  ∃ p' evs, vt_parse_feed table_9_0_0 {| vt_parse_new with p_state := ST_CSI_PARAM |} [27; ch "\"]
      = Some (p', evs ++ [EvEsc 0 (ch "\")]) ∧ ground p' ∧
    ∀ ev, ev ∈ evs → (∃ i d, ev = EvDcs i d) ∨ ∃ d, ev = EvOsc d.
Proof.
  apply (vt_parse_resync table_9_0_0 {| vt_parse_new with p_state := ST_CSI_PARAM |}).
  destruct wf_parse_new. by constructor.
Defined.
