(* ===== verification/Decimal.v ===== *)
(** * Decimal numbers in text

    What [snprintf] does for [%d] (the Standard C Library's documented
    behaviour), [dump_fmt_int] of src/libvt/vt_state.c, and reading digits
    back the way the parsers of the program do. *)

From S2P Require Import Prelude.

(** The digits of a positive number, least significant first.  [fuel] bounds
    the number of digits; a number has at most as many as it has bits. *)
Fixpoint digits_rev (fuel : nat) (n : Z) : list Z :=
  match fuel with
  | O => []
  | S fuel' => if n <=? 0 then [] else (48 + n mod 10) :: digits_rev fuel' (n / 10)
  end.

Definition digit_fuel (n : Z) : nat := S (Z.to_nat (Z.log2 n)).

(** [dump_fmt_int]: [tmp] holds the digits in reverse. *)
Definition dump_fmt_int (n : Z) : list Z :=
  if n <=? 0 then [48] else rev (digits_rev (digit_fuel n) n).

(** [%d] *)
Definition fmt_d (n : Z) : list Z :=
  if n <? 0 then 45 :: dump_fmt_int (- n) else dump_fmt_int n.

Definition is_digit (c : Z) : Prop := 48 <= c <= 57.

(** [num = num * 10 + (c - '0')] over a digit string, from [v]. *)
Definition digits_value (v : Z) (ds : list Z) : Z := foldl (λ v c, v * 10 + (c - 48)) v ds.

Lemma log2_div10 n : 10 <= n → Z.log2 (n / 10) < Z.log2 n.
Proof.
  intros H. apply Z.log2_lt_pow2; [euclid |].
  pose proof (Z.log2_spec n ltac:(lia)) as [_ Hs]. rewrite Z.pow_succ_r in Hs by apply Z.log2_nonneg.
  euclid.
Qed.

Lemma digits_rev_spec fuel n :
  0 <= n → (n = 0 ∨ (Z.to_nat (Z.log2 n) < fuel)%nat) →
  Forall is_digit (digits_rev fuel n) ∧
  digits_value 0 (rev (digits_rev fuel n)) = n ∧ (0 < n → digits_rev fuel n ≠ []).
Proof.
  revert n; induction fuel as [|fuel IH]; intros n Hn Hf; simpl.
  { destruct Hf as [->|]; [| lia]. split_and!; [constructor | done | lia]. }
  destruct (Z.leb_spec n 0).
  { assert (n = 0) as -> by lia. split_and!; [constructor | done | lia]. }
  destruct (IH (n / 10)) as (Hd & Hv & _); [euclid | |].
  { destruct (decide (n < 10)); [left; euclid | right].
    pose proof (log2_div10 n ltac:(lia)). pose proof (Z.log2_nonneg (n / 10)). lia. }
  split_and!; [| | done].
  - constructor; [unfold is_digit; euclid | done].
  - simpl. unfold digits_value in *. rewrite foldl_app. simpl. rewrite Hv. euclid.
Qed.

Lemma dump_fmt_int_spec n :
  0 <= n →
  Forall is_digit (dump_fmt_int n) ∧ digits_value 0 (dump_fmt_int n) = n ∧ dump_fmt_int n ≠ [].
Proof.
  intros Hn. unfold dump_fmt_int. destruct (Z.leb_spec n 0).
  { assert (n = 0) as -> by lia. split_and!; [| done | done]. repeat constructor; unfold is_digit; lia. }
  destruct (digits_rev_spec (digit_fuel n) n) as (Hd & Hv & Hne); [lia | right; unfold digit_fuel; lia |].
  split_and!; [| done |].
  - by apply Forall_rev.
  - intros E. apply (f_equal (@rev Z)) in E. rewrite rev_involutive in E. by apply Hne.
Qed.

(** The number of digits. *)
Lemma digits_rev_length fuel k n :
  0 <= k → n < 10 ^ k → zlen (digits_rev fuel n) <= k.
Proof.
  revert k n; induction fuel as [|fuel IH]; intros k n Hk Hn; simpl; [unfold zlen; simpl; lia |].
  destruct (Z.leb_spec n 0); [unfold zlen; simpl; lia |]. rewrite zlen_cons.
  assert (k ≠ 0) by (intros ->; simpl in Hn; lia).
  assert (zlen (digits_rev fuel (n / 10)) <= k - 1); [| lia].
  apply IH; [lia |]. replace k with (k - 1 + 1) in Hn by lia.
  rewrite Z.pow_add_r in Hn by lia. euclid.
Qed.

Lemma dump_fmt_int_length k n : 1 <= k → n < 10 ^ k → 1 <= zlen (dump_fmt_int n) <= k.
Proof.
  intros Hk Hn. unfold dump_fmt_int. destruct (Z.leb_spec n 0); [unfold zlen; simpl; lia |].
  unfold zlen. rewrite length_rev. fold (zlen (digits_rev (digit_fuel n) n)). split.
  - destruct (digits_rev_spec (digit_fuel n) n) as (_ & _ & Hne); [lia | right; unfold digit_fuel; lia |].
    specialize (Hne ltac:(lia)). destruct (digits_rev _ _); [done |]. rewrite zlen_cons.
    pose proof (zlen_nonneg l). lia.
  - apply digits_rev_length; lia.
Qed.

Lemma fmt_d_nonneg n : 0 <= n → fmt_d n = dump_fmt_int n.
Proof. intros. unfold fmt_d. zbool. Qed.

Example fmt_examples : fmt_d 0 = str "0" ∧ fmt_d 65535 = str "65535" ∧ fmt_d (-17) = str "-17".
Proof. vm_compute. done. Qed.
