(* ===== verification/VtState.v ===== *)
(** * Terminal state (src/libvt/vt_state.c)

    The screen state of one terminal: render targets, cursor, scroll region,
    modes, tab stops, keyboard protocol and title stacks, and the operations
    on them.  A pointer into a target is the target's name plus a row or
    column; following it when the target is gone is a trap.  The invariant
    [wf_state] is what keeps every access of these operations in bounds. *)

From S2P Require Import Prelude VtBuf.

(** ** Data *)

Definition DEFAULT_SCROLLBACK : Z := 2000.
Definition DEFAULT_TAB_WIDTH : Z := 8.

Inductive vt_target := VT_TARGET_PRIMARY | VT_TARGET_ALT | VT_TARGET_SCROLLBACK.

#[export] Instance vt_target_eq_dec : EqDecision vt_target.
Proof. solve_decision. Defined.

Definition VT_MODE_AUTOWRAP : Z := 1.
Definition VT_MODE_CURSOR_VIS : Z := 2.
Definition VT_MODE_ORIGIN : Z := 4.
Definition VT_MODE_INSERT : Z := 8.
Definition VT_MODE_ALTSCREEN : Z := 16.
Definition VT_MODE_BRACKETPASTE : Z := 32.
Definition VT_MODE_DECCKM : Z := 64.
Definition VT_MODE_DECKPAM : Z := 128.
Definition VT_MODE_MOUSE : Z := 256.

Definition VT_KITTY_KBD_STACK_MAX : Z := 16.
Definition TITLE_STACK_MAX : Z := 16.

Record vt_saved_cursor := mk_saved {
  saved_row : Z; saved_col : Z; saved_attrs : Z; saved_fg : vt_color; saved_bg : vt_color;
}.

(** [struct vt_state].  [buf] of the C code is always
    [targets[active_target]] and is computed from it ([cur_buf]).  A C string
    is the list of its bytes, [None] for NULL; [title_stack] holds the
    entries in use, so its length is [title_stack_len].  [reply_out] and
    [bells] record what was handed to [write] on [reply_fd] and how often
    [bell_cb] was called. *)
Record vt_state := mk_state {
  tgt_primary : option vt_buf;
  tgt_alt : option vt_buf;
  tgt_scrollback : option vt_buf;
  active_target : vt_target;
  cursor_row : Z;
  cursor_col : Z;
  saved : vt_saved_cursor;
  scroll_top : Z;
  scroll_bot : Z;
  modes : Z;
  capture_alt_scroll : bool;
  attrs : Z;
  fg : vt_color;
  bg : vt_color;
  cursor_shape : Z;
  charset : Z;
  g0_set : Z;
  g1_set : Z;
  tabstops : list Z;
  reply_fd : Z;
  bell_cb : bool;
  mouse_mode : Z;
  kitty_kbd_flags : Z;
  kitty_kbd_stack : list Z;
  kitty_kbd_depth : Z;
  modify_other_keys : Z;
  term_fg : option (list Z);
  term_bg : option (list Z);
  title : option (list Z);
  title_stack : list (option (list Z));
  title_stack_cap : Z;
  reply_out : list Z;
  bells : Z;
}.

Definition target (st : vt_state) (t : vt_target) : option vt_buf :=
  match t with
  | VT_TARGET_PRIMARY => tgt_primary st
  | VT_TARGET_ALT => tgt_alt st
  | VT_TARGET_SCROLLBACK => tgt_scrollback st
  end.

(** Field updates.  Each is a function of its own so that a chain of them
    stays small. *)
Definition set_cursor (st : vt_state) (r c : Z) : vt_state :=
  {| st with cursor_row := r; cursor_col := c |}.
Definition set_row (st : vt_state) (r : Z) : vt_state := {| st with cursor_row := r |}.
Definition set_col (st : vt_state) (c : Z) : vt_state := {| st with cursor_col := c |}.
Definition set_region (st : vt_state) (top bot : Z) : vt_state :=
  {| st with scroll_top := top; scroll_bot := bot |}.
Definition set_modes (st : vt_state) (m : Z) : vt_state := {| st with modes := m |}.
Definition set_pen (st : vt_state) (a : Z) (f b : vt_color) : vt_state :=
  {| st with attrs := a; fg := f; bg := b |}.
Definition set_saved (st : vt_state) (s : vt_saved_cursor) : vt_state := {| st with saved := s |}.
Definition set_active (st : vt_state) (t : vt_target) : vt_state := {| st with active_target := t |}.
Definition set_tabs (st : vt_state) (ts : list Z) : vt_state := {| st with tabstops := ts |}.

Definition put_target (st : vt_state) (t : vt_target) (b : option vt_buf) : vt_state :=
  {| st with
     tgt_primary := match t with VT_TARGET_PRIMARY => b | _ => tgt_primary st end;
     tgt_alt := match t with VT_TARGET_ALT => b | _ => tgt_alt st end;
     tgt_scrollback := match t with VT_TARGET_SCROLLBACK => b | _ => tgt_scrollback st end |}.

(** [st->buf]; following it when the target is gone is a trap. *)
Definition cur_buf (st : vt_state) : option vt_buf := target st (active_target st).

Definition upd_buf (st : vt_state) (f : vt_buf → option vt_buf) : option vt_state :=
  b ← cur_buf st; b ← f b; Some (put_target st (active_target st) (Some b)).

(** [r = vt_buf_row(st->buf, row); if (r) ...] where the dots change the row. *)
Definition upd_row (b : vt_buf) (row : Z) (f : vt_row → option vt_row) : option vt_buf :=
  match vt_buf_row b row with
  | None => Some b
  | Some i => upd_grid b (λ g, r ← aget g i; r ← f r; aset g i r)
  end.

Definition with_row (st : vt_state) (row : Z) (f : vt_row → option vt_row) : option vt_state :=
  upd_buf st (λ b, upd_row b row f).

(** [c = vt_buf_cell(b, row, col)] followed by a store of the whole cell. *)
Definition put_cell (b : vt_buf) (row col : Z) (c : vt_cell) : option vt_buf :=
  match vt_buf_cell b row col with
  | None => Some b
  | Some (i, j) =>
      upd_grid b (λ g, r ← aget g i; cs ← aset (cells r) j c; aset g i {| r with cells := cs |})
  end.

(** ** Tab stops *)

(** [for (i = 0; i < cols; i += 8) ts[i] = 1] *)
Definition tabs_every8 (cols : Z) (ts : list Z) : option (list Z) :=
  for_up 0 ((cols + (DEFAULT_TAB_WIDTH - 1)) / DEFAULT_TAB_WIDTH)
    (λ k ts, aset ts (k * DEFAULT_TAB_WIDTH) 1) ts.

Definition tabstops_init (st : vt_state) : option vt_state :=
  b ← cur_buf st;
  ts ← tabs_every8 (buf_cols b) (replicate (Z.to_nat (buf_cols b)) 0);
  Some (set_tabs st ts).

Definition vt_state_tab_clear_all (st : vt_state) : option vt_state :=
  b ← cur_buf st;
  ts ← for_up 0 (buf_cols b) (λ i ts, aset ts i 0) (tabstops st);
  Some (set_tabs st ts).

Definition vt_state_tab_reset (st : vt_state) : option vt_state :=
  b ← cur_buf st;
  ts ← for_up 0 (buf_cols b) (λ i ts, aset ts i 0) (tabstops st);
  ts ← tabs_every8 (buf_cols b) ts;
  Some (set_tabs st ts).

Definition vt_state_tab_put (st : vt_state) (col v : Z) : option vt_state :=
  b ← cur_buf st;
  if (0 <=? col) && (col <? buf_cols b) then
    ts ← aset (tabstops st) col v; Some (set_tabs st ts)
  else Some st.

Definition vt_state_tab_set (st : vt_state) (col : Z) : option vt_state := vt_state_tab_put st col 1.
Definition vt_state_tab_clear (st : vt_state) (col : Z) : option vt_state := vt_state_tab_put st col 0.

(** [n] turns of a search from [i] by [d]; the inner [None] is "none found". *)
Fixpoint tab_search (ts : list Z) (n : nat) (i d : Z) : option (option Z) :=
  match n with
  | O => Some None
  | S n' => t ← aget ts i; if t =? 0 then tab_search ts n' (i + d) d else Some (Some i)
  end.

Definition vt_state_tab_next (st : vt_state) (col : Z) : option Z :=
  b ← cur_buf st;
  o ← tab_search (tabstops st) (Z.to_nat (buf_cols b - (col + 1))) (col + 1) 1;
  Some (match o with Some i => i | None => buf_cols b - 1 end).

Definition vt_state_tab_prev (st : vt_state) (col : Z) : option Z :=
  o ← tab_search (tabstops st) (Z.to_nat col) (col - 1) (-1);
  Some (match o with Some i => i | None => 0 end).

(** ** Construction and setters *)

(** The zeroed structure of [xcalloc], before the fields are set. *)
Definition zero_state : vt_state :=
  {| tgt_primary := None; tgt_alt := None; tgt_scrollback := None;
     active_target := VT_TARGET_PRIMARY; cursor_row := 0; cursor_col := 0;
     saved := mk_saved 0 0 0 VT_COLOR_DEFAULT VT_COLOR_DEFAULT;
     scroll_top := 0; scroll_bot := 0; modes := 0; capture_alt_scroll := false;
     attrs := 0; fg := VT_COLOR_DEFAULT; bg := VT_COLOR_DEFAULT; cursor_shape := 0;
     charset := 0; g0_set := 0; g1_set := 0; tabstops := []; reply_fd := 0; bell_cb := false;
     mouse_mode := 0; kitty_kbd_flags := 0;
     kitty_kbd_stack := replicate (Z.to_nat VT_KITTY_KBD_STACK_MAX) 0; kitty_kbd_depth := 0;
     modify_other_keys := 0; term_fg := None; term_bg := None; title := None;
     title_stack := []; title_stack_cap := 0; reply_out := []; bells := 0 |}.

Definition vt_state_new (rows cols scrollback : Z) : option vt_state :=
  let scrollback := if scrollback <? 0 then DEFAULT_SCROLLBACK else scrollback in
  tabstops_init {| zero_state with
    tgt_primary := Some (vt_buf_new rows cols scrollback);
    active_target := VT_TARGET_PRIMARY;
    scroll_top := 0; scroll_bot := rows;
    modes := set_bits VT_MODE_AUTOWRAP VT_MODE_CURSOR_VIS;
    reply_fd := -1 |}.

Definition vt_state_set_reply_fd (st : vt_state) (fd : Z) : vt_state := {| st with reply_fd := fd |}.
Definition vt_state_set_bell_cb (st : vt_state) (cb : bool) : vt_state := {| st with bell_cb := cb |}.
Definition vt_state_set_altscreen_scrollback (st : vt_state) (on : bool) : vt_state :=
  {| st with capture_alt_scroll := on |}.

(** ** Kitty keyboard stack *)

Definition set_kitty (st : vt_state) (s : list Z) (depth flags : Z) : vt_state :=
  {| st with kitty_kbd_stack := s; kitty_kbd_depth := depth; kitty_kbd_flags := flags |}.

Definition vt_state_kitty_push (st : vt_state) (flags : Z) : option vt_state :=
  let '(s, depth) :=
    if kitty_kbd_depth st =? VT_KITTY_KBD_STACK_MAX then
      (* memmove of the upper 15 entries onto the lower 15 *)
      (take 15 (drop 1 (kitty_kbd_stack st)) ++ drop 15 (kitty_kbd_stack st), kitty_kbd_depth st - 1)
    else (kitty_kbd_stack st, kitty_kbd_depth st) in
  s ← aset s depth flags;
  Some (set_kitty st s (depth + 1) flags).

Definition vt_state_kitty_pop (st : vt_state) (count : Z) : option vt_state :=
  let count := if count <? 1 then 1 else count in
  let count := if kitty_kbd_depth st <? count then kitty_kbd_depth st else count in
  let depth := kitty_kbd_depth st - count in
  f ← (if depth =? 0 then Some 0 else aget (kitty_kbd_stack st) (depth - 1));
  Some (set_kitty st (kitty_kbd_stack st) depth f).

Definition vt_state_kitty_set (st : vt_state) (flags mode : Z) : option vt_state :=
  let cur :=
    if mode =? 3 then clear_bits (kitty_kbd_flags st) flags
    else if mode =? 2 then set_bits (kitty_kbd_flags st) flags
    else flags in
  s ← (if kitty_kbd_depth st =? 0 then Some (kitty_kbd_stack st)
       else aset (kitty_kbd_stack st) (kitty_kbd_depth st - 1) cur);
  Some (set_kitty st s (kitty_kbd_depth st) cur).

(** ** Titles

    [strdup] and [realloc] are taken to succeed. *)

(** [(s && s[0]) ? strdup(s) : NULL] *)
Definition dup_nonempty (s : option (list Z)) : option (list Z) :=
  match s with Some (c :: s') => Some (c :: s') | _ => None end.

Definition vt_state_title (st : vt_state) : option (list Z) := title st.

Definition vt_state_set_title (st : vt_state) (s : option (list Z)) : vt_state :=
  {| st with title := dup_nonempty s |}.

Definition vt_state_set_term_colors (st : vt_state) (f b : option (list Z)) : vt_state :=
  {| st with term_fg := dup_nonempty f; term_bg := dup_nonempty b |}.

Definition vt_state_title_push (st : vt_state) : option vt_state :=
  let len := zlen (title_stack st) in
  if TITLE_STACK_MAX <=? len then Some st else
  let cap :=
    if title_stack_cap st <=? len then
      let newcap := if title_stack_cap st =? 0 then 4 else title_stack_cap st * 2 in
      if TITLE_STACK_MAX <? newcap then TITLE_STACK_MAX else newcap
    else title_stack_cap st in
  (* the store at index [len] of an array of [cap] entries *)
  if len <? cap
  then Some {| st with title_stack := title_stack st ++ [title st]; title_stack_cap := cap |}
  else None.

Definition vt_state_title_pop (st : vt_state) : option vt_state :=
  let len := zlen (title_stack st) in
  if len <=? 0 then Some st else
  t ← aget (title_stack st) (len - 1);
  Some {| st with title := t; title_stack := take (Z.to_nat (len - 1)) (title_stack st) |}.

(** ** Targets, cursor, resize *)

Definition vt_state_set_target (st : vt_state) (t : vt_target) : vt_state :=
  match target st t with
  | None => st
  | Some _ => set_active st t
  end.

Definition vt_state_cursor_save (st : vt_state) : vt_state :=
  set_saved st (mk_saved (cursor_row st) (cursor_col st) (attrs st) (fg st) (bg st)).

(** Two bounds applied in the code's order: first below 0, then above [n - 1]. *)
Definition clamp (n x : Z) : Z :=
  let x := if x <? 0 then 0 else x in if n <=? x then n - 1 else x.

Definition vt_state_cursor_clamp (st : vt_state) : option vt_state :=
  b ← cur_buf st;
  Some (set_cursor st (clamp (buf_rows b) (cursor_row st)) (clamp (buf_cols b) (cursor_col st))).

Definition vt_state_cursor_restore (st : vt_state) : option vt_state :=
  let s := saved st in
  vt_state_cursor_clamp
    (set_pen (set_cursor st (saved_row s) (saved_col s)) (saved_attrs s) (saved_fg s) (saved_bg s)).

(** Resize one target, if it is there. *)
Definition resize_target (t : option vt_buf) (rows cols : Z) : option (option vt_buf) :=
  match t with
  | None => Some None
  | Some b => b ← vt_buf_resize b rows cols; Some (Some b)
  end.

Definition vt_state_resize (st : vt_state) (rows cols : Z) : option vt_state :=
  b ← cur_buf st;
  let old_cols := buf_cols b in
  t0 ← resize_target (tgt_primary st) rows cols;
  t1 ← resize_target (tgt_alt st) rows cols;
  t2 ← resize_target (tgt_scrollback st) rows cols;
  let st := put_target (put_target (put_target st VT_TARGET_PRIMARY t0) VT_TARGET_ALT t1)
                       VT_TARGET_SCROLLBACK t2 in
  st ← (if cols =? old_cols then Some st else tabstops_init st);
  vt_state_cursor_clamp (set_region st 0 rows).

(** ** Alternate screen *)

Definition vt_state_altscreen_enter (st : vt_state) : option vt_state :=
  if has_bits (modes st) VT_MODE_ALTSCREEN then Some st else
  let st := vt_state_cursor_save st in
  let st := set_modes st (set_bits (modes st) VT_MODE_ALTSCREEN) in
  p ← tgt_primary st;
  let rows := buf_rows p in
  let cols := buf_cols p in
  let st := match tgt_alt st with
            | None => put_target st VT_TARGET_ALT (Some (vt_buf_new rows cols 0))
            | Some _ => st
            end in
  let st := vt_state_set_target st VT_TARGET_ALT in
  st ← upd_buf st (λ b, vt_buf_clear_rows b 0 rows (bg st));
  Some (set_region (set_cursor st 0 0) 0 rows).

(** [for (c = 0; c < cols; c++)] with its [break]: does the row hold a
    codepoint other than a blank or 0 among its first [n] cells from [c]? *)
Fixpoint row_has_text (cs : list vt_cell) (n : nat) (c : Z) : option bool :=
  match n with
  | O => Some false
  | S n' =>
      x ← aget cs c;
      if negb (codepoint x =? ch " ") && negb (codepoint x =? 0) then Some true
      else row_has_text cs n' (c + 1)
  end.

Definition alt_content_rows (b : vt_buf) : option Z :=
  last ← for_up 0 (buf_rows b) (λ r last,
    row ← aget (grid b) r;
    t ← row_has_text (cells row) (Z.to_nat (buf_cols b)) 0;
    Some (if (t : bool) then r else last)) (-1);
  Some (last + 1).

(** The block that saves the alternate screen as history, when enabled. *)
Definition capture_alt (st : vt_state) : option vt_state :=
  match tgt_alt st with
  | Some alt =>
      if capture_alt_scroll st then
        n ← alt_content_rows alt;
        if 0 <? n then
          p ← tgt_primary st;
          p ← vt_buf_push_rows p alt 0 n;
          Some (put_target st VT_TARGET_PRIMARY (Some p))
        else Some st
      else Some st
  | None => Some st
  end.

Definition vt_state_altscreen_leave (st : vt_state) : option vt_state :=
  if negb (has_bits (modes st) VT_MODE_ALTSCREEN) then Some st else
  let st := set_modes st (clear_bits (modes st) VT_MODE_ALTSCREEN) in
  st ← capture_alt st;
  let st := put_target st VT_TARGET_ALT None in
  let st := vt_state_set_target st VT_TARGET_PRIMARY in
  b ← cur_buf st;
  vt_state_cursor_restore (set_region st 0 (buf_rows b)).

(** ** Moving down and up a line *)

Definition vt_state_index (st : vt_state) : option vt_state :=
  b ← cur_buf st;
  let rows := buf_rows b in
  if cursor_row st =? scroll_bot st - 1 then
    upd_buf st (λ b, vt_buf_scroll b (scroll_top st) (scroll_bot st) 1 (bg st))
  else if cursor_row st <? rows - 1 then Some (set_row st (cursor_row st + 1))
  else Some st.

Definition vt_state_reverse_index (st : vt_state) : option vt_state :=
  if cursor_row st =? scroll_top st then
    upd_buf st (λ b, vt_buf_scroll b (scroll_top st) (scroll_bot st) (-1) (bg st))
  else if 0 <? cursor_row st then Some (set_row st (cursor_row st - 1))
  else Some st.

(** ** Writing a character *)

Definition put_wrap (st : vt_state) (cols width : Z) : option vt_state :=
  if cols <? cursor_col st + width then
    if has_bits (modes st) VT_MODE_AUTOWRAP then
      st ← with_row st (cursor_row st)
             (λ r, Some {| r with row_flags := set_bits (row_flags r) VT_ROW_WRAPPED |});
      vt_state_index (set_col st 0)
    else Some (set_col st (if width <? cols then cols - width else 0))
  else Some st.

Definition put_insert (st : vt_state) (cols width : Z) : option vt_state :=
  if has_bits (modes st) VT_MODE_INSERT then
    with_row st (cursor_row st) (λ r,
      cs ← for_down (cols - 1) (cursor_col st + width)
             (λ i cs, v ← aget cs (i - width); aset cs i v) (cells r);
      Some {| r with cells := cs |})
  else Some st.

(** The cell at the cursor, its continuation, and the cursor's advance. *)
Definition put_glyph (st : vt_state) (cols cp width : Z) : option vt_state :=
  b ← cur_buf st;
  match vt_buf_cell b (cursor_row st) (cursor_col st) with
  | None => Some st
  | Some _ =>
      st ← upd_buf st (λ b, put_cell b (cursor_row st) (cursor_col st)
             (mk_cell cp (fg st) (bg st) (attrs st) (u8 width)));
      st ← (if (width =? 2) && (cursor_col st + 1 <? cols)
            then upd_buf st (λ b, put_cell b (cursor_row st) (cursor_col st + 1)
                   {| vt_cell_clear with cell_width := 0 |})
            else Some st);
      st ← with_row st (cursor_row st) (λ r, Some (row_dirty r));
      let col := cursor_col st + width in
      let col := if cols <? col then cols else col in
      let col := if negb (has_bits (modes st) VT_MODE_AUTOWRAP) && (cols <=? col)
                 then cols - 1 else col in
      Some (set_col st col)
  end.

Definition vt_state_putchar (st : vt_state) (cp width : Z) : option vt_state :=
  b ← cur_buf st;
  let cols := buf_cols b in
  st ← put_wrap st cols width;
  st ← put_insert st cols width;
  put_glyph st cols cp width.

(** ** The invariant *)

Definition buf_wf (R C : Z) (b : vt_buf) : Prop := ∃ h, buf_repr R C b h.
Definition opt_wf (R C : Z) (o : option vt_buf) : Prop := ∀ b, o = Some b → buf_wf R C b.

(** The screen sizes considered: far above a real terminal, and small enough
    that no row or column computation leaves [int]. *)
Definition DIM_MAX : Z := 2 ^ 30.

(** The keyboard flags come from CSI parameters, which stay below this. *)
Definition FLAGS_MAX : Z := 2 ^ 20 - 1.
Definition flags_ok (f : Z) : Prop := 0 <= f <= FLAGS_MAX.

Record wf_state (R C : Z) (st : vt_state) : Prop := {
  ws_dims : 0 < R <= DIM_MAX ∧ 0 < C <= DIM_MAX;
  ws_cursor : 0 <= cursor_row st < R ∧ 0 <= cursor_col st <= C;
  ws_region : 0 <= scroll_top st < scroll_bot st ∧ scroll_bot st <= R;
  ws_tabs : zlen (tabstops st) = C;
  ws_kitty : zlen (kitty_kbd_stack st) = VT_KITTY_KBD_STACK_MAX ∧
             0 <= kitty_kbd_depth st <= VT_KITTY_KBD_STACK_MAX;
  ws_flags : flags_ok (kitty_kbd_flags st) ∧ Forall flags_ok (kitty_kbd_stack st) ∧
             flags_ok (modify_other_keys st) ∧ 0 <= cursor_shape st <= 6;
  ws_titles : zlen (title_stack st) <= title_stack_cap st <= TITLE_STACK_MAX;
  ws_primary : opt_wf R C (tgt_primary st) ∧ is_Some (tgt_primary st);
  ws_alt : opt_wf R C (tgt_alt st);
  ws_sb : opt_wf R C (tgt_scrollback st);
  ws_active : is_Some (cur_buf st);
  ws_alt_mode : has_bits (modes st) VT_MODE_ALTSCREEN = bool_decide (is_Some (tgt_alt st));
}.

(** An update of fields the invariant does not read, or reads with bounds
    that [lia] sees. *)
Ltac wf_fields :=
  cbn [yields]; match goal with H : wf_state _ _ _ |- wf_state _ _ _ =>
    destruct H; constructor; simpl in *; try done; try lia end.

Section StateLemmas.
Context (R C : Z).
Implicit Types (st : vt_state) (b : vt_buf).

Lemma opt_wf_Some b : buf_wf R C b → opt_wf R C (Some b).
Proof. by intros ? ? [= <-]. Qed.

Lemma opt_wf_None : opt_wf R C None.
Proof. done. Qed.

Lemma ws_target st t : wf_state R C st → opt_wf R C (target st t).
Proof. intros Hwf. destruct t; apply Hwf. Qed.

Lemma cur_buf_ok st : wf_state R C st → ∃ b, cur_buf st = Some b ∧ buf_wf R C b.
Proof.
  intros Hwf. destruct (ws_active _ _ _ Hwf) as [b Hb]. exists b. split; [done |].
  by eapply ws_target.
Qed.

Lemma target_put st t o : target (put_target st t o) t = o.
Proof. by destruct t. Qed.

Lemma target_put_ne st t t' o : t ≠ t' → target (put_target st t o) t' = target st t'.
Proof. by destruct t, t'. Qed.

Lemma cur_buf_put st o : cur_buf (put_target st (active_target st) o) = o.
Proof. unfold cur_buf. apply target_put. Qed.

Lemma wf_put_target st b :
  wf_state R C st → buf_wf R C b → wf_state R C (put_target st (active_target st) (Some b)).
Proof.
  intros [? ? ? ? ? ? ? [Hp [p Ep]] Ha Hs Hact Hmode] Hb. pose proof (opt_wf_Some b Hb) as Hob.
  unfold cur_buf, target in Hact.
  destruct (active_target st) eqn:E; constructor; simpl; try done; unfold cur_buf, target; simpl;
    rewrite ?E; try done; try (split; [done | by eexists]).
  destruct Hact as [a Ea]. rewrite Ea in Hmode. by rewrite Hmode.
Qed.

(** The step of an operation that changes the current target. *)
Lemma upd_buf_ok st f (Q : vt_buf → vt_buf → Prop) :
  wf_state R C st →
  (∀ b h, cur_buf st = Some b → buf_repr R C b h → yields (f b) (λ b', buf_wf R C b' ∧ Q b b')) →
  yields (upd_buf st f) (λ st', wf_state R C st' ∧
    ∃ b b', cur_buf st = Some b ∧ Q b b' ∧ st' = put_target st (active_target st) (Some b')).
Proof.
  intros Hwf Hf. destruct (cur_buf_ok st Hwf) as (b & Hb & h & Hrepr).
  unfold upd_buf. rewrite Hb. cbn [mbind option_bind].
  specialize (Hf b h Hb Hrepr). destruct (f b) as [b'|] eqn:E; [| done]. destruct Hf as [Hb' HQ].
  split; [by apply wf_put_target |]. by exists b, b'.
Qed.

Lemma upd_buf_wf st f :
  wf_state R C st →
  (∀ b h, cur_buf st = Some b → buf_repr R C b h → yields (f b) (buf_wf R C)) →
  yields (upd_buf st f) (wf_state R C).
Proof.
  intros Hwf Hf. eapply yields_mono; [apply (upd_buf_ok _ _ (λ _ _, True)); [done |] |].
  - intros b h Hb Hr. eapply yields_mono; [by apply (Hf b h) | done].
  - by intros ? [? _].
Qed.

Lemma vt_buf_row_in R' C' b h row :
  buf_repr R' C' b h → 0 <= row < R' → vt_buf_row b row = Some row.
Proof.
  intros Hb Hrow. pose proof (br_rows _ _ _ _ Hb). unfold vt_buf_row.
  by destruct (Z.ltb_spec row 0), (Z.leb_spec (buf_rows b) row); try lia.
Qed.

Lemma vt_buf_cell_in R' C' b h row col :
  buf_repr R' C' b h → 0 <= row < R' → 0 <= col < C' → vt_buf_cell b row col = Some (row, col).
Proof.
  intros Hb Hrow Hcol. pose proof (br_rows _ _ _ _ Hb). pose proof (br_cols _ _ _ _ Hb).
  unfold vt_buf_cell. by zbool.
Qed.

Lemma vt_buf_cell_out b row col : buf_cols b <= col → vt_buf_cell b row col = None.
Proof. intros. unfold vt_buf_cell. by zbool. Qed.

(** One row of a buffer. *)
Lemma upd_row_ok b h row f :
  buf_repr R C b h → 0 <= row < R →
  (∀ r, aget (grid b) row = Some r → row_ok C r → yields (f r) (row_ok C)) →
  yields (upd_row b row f) (λ b', buf_repr R C b' h ∧
    ∃ r r', aget (grid b) row = Some r ∧ row_ok C r ∧ f r = Some r' ∧
            b' = {| b with grid := <[Z.to_nat row := r']> (grid b) |}).
Proof.
  intros Hb Hrow Hf. unfold upd_row. rewrite (vt_buf_row_in _ _ _ _ _ Hb Hrow).
  destruct (buf_repr_row_in _ _ _ _ row Hb Hrow) as (r & Hr & Hok).
  unfold upd_grid. rewrite Hr. cbn [mbind option_bind].
  rewrite Hr in Hf. specialize (Hf r eq_refl Hok). destruct (f r) as [r'|] eqn:E; [| done]. simpl in Hf.
  cbn [mbind option_bind]. pose proof (br_size _ _ _ _ Hb) as Hsz. rewrite aset_in by lia. simpl. split.
  - apply buf_repr_grid; [done | by rewrite zlen_insert |]. by apply Forall_insert; [apply Hb |].
  - by exists r, r'.
Qed.

Lemma with_row_ok st row f :
  wf_state R C st → 0 <= row < R →
  (∀ r, row_ok C r → yields (f r) (row_ok C)) →
  yields (with_row st row f) (λ st', wf_state R C st' ∧
    ∃ b r r', cur_buf st = Some b ∧ aget (grid b) row = Some r ∧ row_ok C r ∧ f r = Some r' ∧
      st' = put_target st (active_target st)
              (Some {| b with grid := <[Z.to_nat row := r']> (grid b) |})).
Proof.
  intros Hwf Hrow Hf. unfold with_row.
  eapply yields_mono.
  - apply (upd_buf_ok st _ (λ b b', ∃ r r', aget (grid b) row = Some r ∧ row_ok C r ∧
      f r = Some r' ∧ b' = {| b with grid := <[Z.to_nat row := r']> (grid b) |})); [done |].
    intros b h Hb Hrepr. eapply yields_mono; [apply (upd_row_ok b h row); [done | done |] |].
    + intros r _. apply Hf.
    + intros b' [Hb' HQ]. split; [by exists h | done].
  - intros st' (Hwf' & b & b' & Hb & (r & r' & ? & ? & ? & ->) & ->). split; [done |].
    by exists b, r, r'.
Qed.

Lemma with_row_wf st row f :
  wf_state R C st → 0 <= row < R → (∀ r, row_ok C r → yields (f r) (row_ok C)) →
  yields (with_row st row f) (wf_state R C).
Proof. intros. eapply yields_mono; [by apply with_row_ok |]. by intros ? [? _]. Qed.
End StateLemmas.

(** ** Tab stops *)

Lemma tabs_every8_eq cols ts :
  0 <= cols → zlen ts = cols →
  tabs_every8 cols ts = Some (zmap (λ i x, if i mod 8 =? 0 then 1 else x) ts).
Proof.
  intros Hc Hts. unfold tabs_every8, DEFAULT_TAB_WIDTH. change (8 - 1) with 7.
  set (n := (cols + 7) / 8).
  assert (8 * n <= cols + 7 < 8 * n + 8) as Hn by (unfold n; euclid). clearbody n.
  apply yields_eq. eapply yields_mono.
  - apply (for_up_inv (λ k ts', ts' = zmap (λ i x, if (i mod 8 =? 0) && (i <? 8 * k) then 1 else x) ts));
      [lia | |].
    + symmetry. apply zmap_id. intros i x Hi%aget_Some. zbool.
    + intros k ? Hk ->. rewrite aset_in by (rewrite zlen_zmap; lia). simpl. apply aget_ext. intros i.
      rewrite aget_insert by (rewrite zlen_zmap; lia). rewrite !aget_zmap.
      destruct (decide (k * 8 = i)) as [<-|Hne].
      * destruct (aget_in ts (k * 8)) as [x ->]; [lia |]. simpl. rewrite Z.mod_mul by lia. f_equal. zbool.
      * destruct (aget ts i); simpl; [| done]. f_equal.
        destruct (Z.eqb_spec (i mod 8) 0); simpl; [| done].
        pose proof (Z.div_mod i 8). zbool.
  - intros ts' ->. apply zmap_ext. intros i x Hi%aget_Some. zbool.
Qed.

(** The default tab stops of a [C]-column screen. *)
Definition default_tabs (C : Z) : list Z :=
  zmap (λ i _, if i mod 8 =? 0 then 1 else 0) (replicate (Z.to_nat C) 0).

Lemma zlen_default_tabs C : 0 <= C → zlen (default_tabs C) = C.
Proof. intros. unfold default_tabs. by rewrite zlen_zmap, zlen_replicate. Qed.

Lemma tabs_every8_zero C :
  0 <= C → tabs_every8 C (replicate (Z.to_nat C) 0) = Some (default_tabs C).
Proof.
  intros. rewrite tabs_every8_eq by (rewrite ?zlen_replicate; lia). f_equal.
  apply zmap_ext. intros i x. rewrite aget_replicate. case_match; [| done]. intros [= <-]. done.
Qed.

Lemma clear_tabs_eq C (ts : list Z) :
  zlen ts = C → for_up 0 C (λ i ts, aset ts i 0) ts = Some (replicate (Z.to_nat C) 0).
Proof.
  intros <-. pose proof (zlen_nonneg ts). rewrite for_up_fill by lia. f_equal.
  apply aget_ext. intros i. rewrite aget_fill, aget_replicate.
  destruct (aget ts i) eqn:E; simpl.
  - apply aget_Some in E. zbool.
  - apply aget_None in E. zbool.
Qed.

(** The search answers the first stop it meets. *)
Lemma tab_search_spec ts n i d :
  (d = 1 ∧ 0 <= i ∧ (n = 0%nat ∨ i + Z.of_nat n <= zlen ts)) ∨ (d = -1 ∧ i < zlen ts ∧ 0 <= i + 1 - Z.of_nat n) →
  yields (tab_search ts n i d) (λ o,
    match o with
    | Some k => ∃ m : nat, (m < n)%nat ∧ k = i + d * Z.of_nat m ∧
                  (∃ t, aget ts k = Some t ∧ t ≠ 0) ∧
                  ∀ m' : nat, (m' < m)%nat → aget ts (i + d * Z.of_nat m') = Some 0
    | None => ∀ m' : nat, (m' < n)%nat → aget ts (i + d * Z.of_nat m') = Some 0
    end).
Proof.
  revert i; induction n as [|n IH]; intros i Hd; cbn [tab_search]; [intros m' Hm'; lia |].
  destruct (aget_in ts i) as [t Ht]; [lia |]. rewrite Ht. cbn [mbind option_bind].
  destruct (Z.eqb_spec t 0) as [->|Hne].
  - eapply yields_mono; [apply (IH (i + d)); lia |].
    assert (∀ m, i + d * Z.of_nat (S m) = i + d + d * Z.of_nat m) as Hshift by lia.
    intros [k|].
    + intros (m & Hm & -> & Hk & Hz). exists (S m). rewrite Hshift. split_and!; [lia | done | done |].
      intros [|m'] Hm'; [by rewrite Z.mul_0_r, Z.add_0_r | rewrite Hshift; apply Hz; lia].
    + intros Hz [|m'] Hm'; [by rewrite Z.mul_0_r, Z.add_0_r | rewrite Hshift; apply Hz; lia].
  - exists 0%nat. rewrite Z.mul_0_r, Z.add_0_r. split_and!; [lia | done | by exists t | intros m' Hm'; lia].
Qed.

Section TabLemmas.
Context (R C : Z).
Implicit Types (st : vt_state).

(** An update of the tab stops that keeps their number. *)
Lemma wf_tabs st ts : wf_state R C st → zlen ts = C → wf_state R C (set_tabs st (ts)).
Proof. intros. wf_fields. Qed.

Lemma tabstops_init_ok st :
  wf_state R C (set_tabs st (default_tabs C)) →
  tabstops_init st = Some (set_tabs st (default_tabs C)).
Proof.
  intros Hwf. unfold tabstops_init.
  destruct (cur_buf_ok _ _ _ Hwf) as (b & Hb & h & Hr).
  change (cur_buf _) with (cur_buf st) in Hb. rewrite Hb. cbn [mbind option_bind].
  rewrite (br_cols _ _ _ _ Hr). rewrite tabs_every8_zero by apply Hr. done.
Qed.

Lemma vt_state_tab_clear_all_ok st :
  wf_state R C st →
  vt_state_tab_clear_all st = Some (set_tabs st (replicate (Z.to_nat C) 0)).
Proof.
  intros Hwf. unfold vt_state_tab_clear_all. destruct (cur_buf_ok _ _ _ Hwf) as (b & Hb & h & Hr).
  rewrite Hb. cbn [mbind option_bind]. rewrite (br_cols _ _ _ _ Hr).
  by rewrite clear_tabs_eq by apply Hwf.
Qed.

Lemma vt_state_tab_reset_ok st :
  wf_state R C st →
  vt_state_tab_reset st = Some (set_tabs st (default_tabs C)).
Proof.
  intros Hwf. unfold vt_state_tab_reset. destruct (cur_buf_ok _ _ _ Hwf) as (b & Hb & h & Hr).
  rewrite Hb. cbn [mbind option_bind]. rewrite (br_cols _ _ _ _ Hr).
  rewrite clear_tabs_eq by apply Hwf. cbn [mbind option_bind].
  by rewrite tabs_every8_zero by apply Hr.
Qed.

Lemma vt_state_tab_put_ok st col v :
  wf_state R C st → yields (vt_state_tab_put st col v) (λ st', wf_state R C st' ∧
    st' = if (0 <=? col) && (col <? C)
          then (set_tabs st (<[Z.to_nat col := v]> (tabstops st))) else st).
Proof.
  intros Hwf. unfold vt_state_tab_put. destruct (cur_buf_ok _ _ _ Hwf) as (b & Hb & h & Hr).
  rewrite Hb. cbn [mbind option_bind]. rewrite (br_cols _ _ _ _ Hr).
  pose proof (ws_tabs _ _ _ Hwf) as Ht.
  destruct ((0 <=? col) && (col <? C)) eqn:E; [| done].
  rewrite aset_in by lia. simpl. split; [| done]. apply wf_tabs; [done | by rewrite zlen_insert].
Qed.

(** The next stop is to the right on the screen, or the last column. *)
Lemma vt_state_tab_next_ok st col :
  wf_state R C st → 0 <= col <= C →
  yields (vt_state_tab_next st col) (λ k,
    0 <= k < C ∧
    ((col < k ∧ (∃ t, aget (tabstops st) k = Some t ∧ t ≠ 0) ∨ k = C - 1)) ∧
    ∀ j, col < j < k → aget (tabstops st) j = Some 0).
Proof.
  intros Hwf Hcol. unfold vt_state_tab_next. destruct (cur_buf_ok _ _ _ Hwf) as (b & Hb & h & Hr).
  rewrite Hb. cbn [mbind option_bind]. rewrite (br_cols _ _ _ _ Hr).
  pose proof (ws_tabs _ _ _ Hwf) as Ht. pose proof (ws_dims _ _ _ Hwf).
  eapply yields_seq; [apply tab_search_spec; left; lia |].
  assert (∀ j, col < j → col + 1 + 1 * Z.of_nat (Z.to_nat (j - (col + 1))) = j) as Hj by lia.
  intros [k|]; simpl.
  - intros (m & Hm & -> & Hk & Hz). split_and!; [lia | lia | left; split; [lia | done] |].
    intros j Hj'. specialize (Hz (Z.to_nat (j - (col + 1))) ltac:(lia)). rewrite Hj in Hz by lia. done.
  - intros Hz. split_and!; [lia | lia | by right |].
    intros j Hj'. specialize (Hz (Z.to_nat (j - (col + 1))) ltac:(lia)). rewrite Hj in Hz by lia. done.
Qed.

Lemma vt_state_tab_prev_ok st col :
  wf_state R C st → 0 <= col <= C →
  yields (vt_state_tab_prev st col) (λ k,
    0 <= k < C ∧
    ((k < col ∧ (∃ t, aget (tabstops st) k = Some t ∧ t ≠ 0) ∨ k = 0)) ∧
    ∀ j, k < j < col → aget (tabstops st) j = Some 0).
Proof.
  intros Hwf Hcol. unfold vt_state_tab_prev.
  pose proof (ws_tabs _ _ _ Hwf) as Ht. pose proof (ws_dims _ _ _ Hwf).
  eapply yields_seq; [apply tab_search_spec; right; lia |].
  assert (∀ j, j < col → col - 1 + -1 * Z.of_nat (Z.to_nat (col - 1 - j)) = j) as Hj by lia.
  intros [k|]; cbn [yields].
  - intros (m & Hm & -> & Hk & Hz). split_and!; [lia | lia | left; split; [lia | done] |].
    intros j Hj'. specialize (Hz (Z.to_nat (col - 1 - j)) ltac:(lia)). rewrite Hj in Hz by lia. done.
  - intros Hz. split_and!; [lia | lia | by right |].
    intros j Hj'. specialize (Hz (Z.to_nat (col - 1 - j)) ltac:(lia)). rewrite Hj in Hz by lia. done.
Qed.
End TabLemmas.

(** ** Mode bits *)

Lemma has_bits_set m x y : has_bits (set_bits m x) y = has_bits m y || has_bits x y.
Proof.
  unfold has_bits, set_bits. rewrite Z.land_lor_distr_l, <- negb_andb. f_equal.
  apply Bool.eq_iff_eq_true. rewrite andb_true_iff, !Z.eqb_eq. apply Z.lor_eq_0_iff.
Qed.

Lemma has_bits_clear m x y : Z.land x y = 0 → has_bits (clear_bits m x) y = has_bits m y.
Proof.
  unfold has_bits, clear_bits. intros H. do 2 f_equal. apply Z.bits_inj'. intros i Hi.
  rewrite !Z.land_spec, Z.ldiff_spec.
  assert (Z.testbit (Z.land x y) i = false) as Hb by (rewrite H; apply Z.bits_0).
  rewrite Z.land_spec in Hb. by destruct (Z.testbit m i), (Z.testbit x i), (Z.testbit y i).
Qed.

Lemma has_bits_cleared m x : has_bits (clear_bits m x) x = false.
Proof.
  unfold has_bits, clear_bits. replace (Z.land (Z.ldiff m x) x) with 0; [done |].
  symmetry. apply Z.bits_inj'. intros i Hi. rewrite Z.land_spec, Z.ldiff_spec, Z.bits_0.
  by destruct (Z.testbit m i), (Z.testbit x i).
Qed.

(** ** Stacks *)

Section StackLemmas.
Context (R C : Z).
Implicit Types (st : vt_state).

(** The entries of the keyboard stack in use, oldest first. *)
Definition kitty_entries st : list Z := take (Z.to_nat (kitty_kbd_depth st)) (kitty_kbd_stack st).

Lemma wf_set_kitty st s depth f :
  wf_state R C st → zlen s = VT_KITTY_KBD_STACK_MAX → 0 <= depth <= VT_KITTY_KBD_STACK_MAX →
  Forall flags_ok s → flags_ok f → wf_state R C (set_kitty st s depth f).
Proof. intros. wf_fields. tauto. Qed.

(** Pushing keeps the 16 most recent entries. *)
Lemma vt_state_kitty_push_ok st flags :
  wf_state R C st → flags_ok flags →
  yields (vt_state_kitty_push st flags) (λ st', wf_state R C st' ∧
    kitty_kbd_flags st' = flags ∧
    kitty_entries st' = push_bounded VT_KITTY_KBD_STACK_MAX (kitty_entries st) flags).
Proof.
  intros Hwf Hf. pose proof (ws_kitty _ _ _ Hwf) as [Hs Hd]. unfold VT_KITTY_KBD_STACK_MAX in *.
  pose proof (ws_flags _ _ _ Hwf) as (_ & Hfs & _).
  unfold vt_state_kitty_push, kitty_entries, push_bounded, VT_KITTY_KBD_STACK_MAX. simpl.
  rewrite zlen_take by lia.
  destruct (Z.eqb_spec (kitty_kbd_depth st) 16) as [E|Hne].
  - destruct (Z.ltb_spec (kitty_kbd_depth st) 16); [lia |]. simpl. rewrite E.
    set (s1 := take 15 (drop 1 (kitty_kbd_stack st)) ++ drop 15 (kitty_kbd_stack st)).
    assert (zlen s1 = 16) as Hs1
      by (unfold s1, zlen in *; rewrite length_app, length_take, !length_drop; lia).
    rewrite aset_in by lia. simpl. split_and!; [| done |].
    + apply wf_set_kitty; rewrite ?zlen_insert; try (done || unfold VT_KITTY_KBD_STACK_MAX; lia).
      apply Forall_insert; [| done]. apply Forall_app. split; [apply Forall_take |]; by apply Forall_drop.
    + change (Pos.to_nat 15) with 15%nat. change (Pos.to_nat 16) with 16%nat.
      rewrite (take_ge (kitty_kbd_stack st)) by (unfold zlen in *; lia).
      rewrite take_ge by (rewrite length_insert; unfold zlen in *; lia).
      unfold s1. rewrite insert_app_r_alt by (rewrite length_take, length_drop; unfold zlen in *; lia).
      replace (15 - length _)%nat with 0%nat by (rewrite length_take, length_drop; unfold zlen in *; lia).
      rewrite take_ge by (rewrite length_drop; unfold zlen in *; lia).
      destruct (drop 15 (kitty_kbd_stack st)) as [|x [|? ?]] eqn:Ed; [| done |];
        apply (f_equal length) in Ed; rewrite length_drop in Ed; unfold zlen in *; simpl in Ed; lia.
  - destruct (Z.ltb_spec (kitty_kbd_depth st) 16); [| lia]. simpl.
    rewrite aset_in by lia. simpl. split_and!; [| done |].
    + apply wf_set_kitty; rewrite ?zlen_insert; try (done || unfold VT_KITTY_KBD_STACK_MAX; lia).
      by apply Forall_insert.
    + replace (Z.to_nat (kitty_kbd_depth st + 1)) with (S (Z.to_nat (kitty_kbd_depth st))) by lia.
      rewrite (take_S_r _ _ flags).
      * by rewrite take_insert_ge by lia.
      * apply list_lookup_insert_eq. unfold zlen in *. lia.
Qed.

(** Popping drops the [count] most recent entries; the flags in effect are
    the new top, or none. *)
Lemma vt_state_kitty_pop_ok st count :
  wf_state R C st →
  yields (vt_state_kitty_pop st count) (λ st', wf_state R C st' ∧
    kitty_entries st' =
      take (length (kitty_entries st) - Z.to_nat (Z.max 1 count)) (kitty_entries st) ∧
    kitty_kbd_flags st' = default 0 (last (kitty_entries st'))).
Proof.
  intros Hwf. pose proof (ws_kitty _ _ _ Hwf) as [Hs Hd]. unfold VT_KITTY_KBD_STACK_MAX in *.
  unfold vt_state_kitty_pop.
  replace (if count <? 1 then 1 else count) with (Z.max 1 count) by zbool.
  set (n := if kitty_kbd_depth st <? Z.max 1 count then _ else _).
  assert (n = Z.min (kitty_kbd_depth st) (Z.max 1 count)) as Hn by (unfold n; zbool). clearbody n.
  assert (length (kitty_entries st) = Z.to_nat (kitty_kbd_depth st)) as Hlen
    by (unfold kitty_entries, zlen in *; rewrite length_take; lia).
  pose proof (ws_flags _ _ _ Hwf) as (_ & Hfs & _).
  assert (∀ f, flags_ok f → wf_state R C (set_kitty st (kitty_kbd_stack st) (kitty_kbd_depth st - n) f))
    as Hwf' by (intros f Hf; apply wf_set_kitty; unfold VT_KITTY_KBD_STACK_MAX; (done || lia)).
  assert (take (Z.to_nat (kitty_kbd_depth st - n)) (kitty_kbd_stack st) =
    take (length (kitty_entries st) - Z.to_nat (Z.max 1 count)) (kitty_entries st)) as Htake.
  { unfold kitty_entries at 2. rewrite take_take. f_equal. rewrite Hlen. lia. }
  destruct (Z.eqb_spec (kitty_kbd_depth st - n) 0) as [E|Hne]; simpl.
  - split_and!; [by apply Hwf' | done |]. unfold kitty_entries. simpl. by rewrite E.
  - destruct (aget_in (kitty_kbd_stack st) (kitty_kbd_depth st - n - 1)) as [f Hf]; [lia |].
    rewrite Hf. simpl. split_and!; [| done |].
    { apply Hwf'. rewrite Forall_aget in Hfs. eauto. }
    unfold kitty_entries. simpl.
    replace (Z.to_nat (kitty_kbd_depth st - n)) with (S (Z.to_nat (kitty_kbd_depth st - n - 1))) by lia.
    rewrite aget_lookup in Hf by lia. rewrite (take_S_r _ _ _ Hf), last_snoc. done.
Qed.

Lemma vt_state_kitty_set_ok st flags mode :
  wf_state R C st → flags_ok flags → yields (vt_state_kitty_set st flags mode) (wf_state R C).
Proof.
  intros Hwf Hf. pose proof (ws_kitty _ _ _ Hwf) as [Hs Hd]. unfold vt_state_kitty_set.
  pose proof (ws_flags _ _ _ Hwf) as (Hcur & Hfs & _).
  set (cur := if mode =? 3 then _ else _).
  assert (flags_ok cur) as Hcur'.
  { unfold cur, flags_ok, FLAGS_MAX, clear_bits, set_bits in *.
    pose proof (ldiff_range 20 (kitty_kbd_flags st) flags).
    pose proof (lor_range 20 (kitty_kbd_flags st) flags). repeat case_match; lia. }
  clearbody cur. destruct (Z.eqb_spec (kitty_kbd_depth st) 0); simpl; [by apply wf_set_kitty |].
  rewrite aset_in by lia. simpl. apply wf_set_kitty; rewrite ?zlen_insert; try done.
  by apply Forall_insert.
Qed.

Lemma vt_state_title_push_ok st :
  wf_state R C st →
  yields (vt_state_title_push st) (λ st', wf_state R C st' ∧ title st' = title st ∧
    title_stack st' = if zlen (title_stack st) <? TITLE_STACK_MAX
                      then title_stack st ++ [title st] else title_stack st).
Proof.
  intros Hwf. pose proof (ws_titles _ _ _ Hwf) as Ht. unfold vt_state_title_push, TITLE_STACK_MAX in *.
  pose proof (zlen_nonneg (title_stack st)).
  destruct (Z.leb_spec 16 (zlen (title_stack st))), (Z.ltb_spec (zlen (title_stack st)) 16); try lia; [done |].
  set (cap := if title_stack_cap st <=? _ then _ else _).
  assert (zlen (title_stack st) + 1 <= cap <= 16) by (unfold cap; zbool).
  clearbody cap. destruct (Z.ltb_spec (zlen (title_stack st)) cap); [| lia]. simpl. split_and!; [| done ..].
  wf_fields. rewrite zlen_app. unfold zlen at 2. simpl. unfold TITLE_STACK_MAX. lia.
Qed.

Lemma vt_state_title_pop_ok st :
  wf_state R C st →
  yields (vt_state_title_pop st) (λ st', wf_state R C st' ∧
    match last (title_stack st) with
    | None => st' = st
    | Some t => title st' = t ∧ title_stack st = title_stack st' ++ [t]
    end).
Proof.
  intros Hwf. pose proof (ws_titles _ _ _ Hwf) as Ht. unfold vt_state_title_pop, TITLE_STACK_MAX in *.
  destruct (title_stack st) as [|t l _] eqn:E using rev_ind; [done |].
  assert (zlen (l ++ [t]) = zlen l + 1) as Hz by (rewrite zlen_app; done).
  rewrite last_snoc, !Hz. pose proof (zlen_nonneg l).
  destruct (Z.leb_spec (zlen l + 1) 0); [lia |].
  replace (zlen l + 1 - 1) with (zlen l) by lia.
  rewrite aget_app, Z.ltb_irrefl, Z.sub_diag by lia. simpl.
  replace (Z.to_nat (zlen l)) with (length l) by (unfold zlen; lia). rewrite take_app_length.
  split_and!; [| done | done]. wf_fields.
Qed.
End StackLemmas.

(** ** Cursor, resize and construction *)

Lemma clamp_range n x : 0 < n → 0 <= clamp n x < n.
Proof. unfold clamp. zbool. Qed.

Lemma clamp_id n x : 0 <= x < n → clamp n x = x.
Proof. unfold clamp. zbool. Qed.

Section CursorLemmas.
Context (R C : Z).
Implicit Types (st : vt_state).

Lemma vt_state_cursor_clamp_ok st :
  wf_state R C (set_cursor st 0 0) →
  vt_state_cursor_clamp st =
    Some (set_cursor st (clamp R (cursor_row st)) (clamp C (cursor_col st))) ∧
  wf_state R C (set_cursor st (clamp R (cursor_row st)) (clamp C (cursor_col st))).
Proof.
  intros Hwf. destruct (cur_buf_ok _ _ _ Hwf) as (b & Hb & h & Hr).
  change (cur_buf _) with (cur_buf st) in Hb. unfold vt_state_cursor_clamp.
  rewrite Hb. cbn [mbind option_bind]. rewrite (br_rows _ _ _ _ Hr), (br_cols _ _ _ _ Hr).
  split; [done |]. pose proof (ws_dims _ _ _ Hwf) as [HR HC].
  pose proof (clamp_range R (cursor_row st) ltac:(lia)). pose proof (clamp_range C (cursor_col st) ltac:(lia)).
  wf_fields.
Qed.

(** The state a cursor restore leaves. *)
Definition restored st : vt_state :=
  let s := saved st in
  set_cursor (set_pen (set_cursor st (saved_row s) (saved_col s)) (saved_attrs s) (saved_fg s) (saved_bg s))
             (clamp R (saved_row s)) (clamp C (saved_col s)).

Lemma vt_state_cursor_restore_ok st :
  wf_state R C st →
  vt_state_cursor_restore st = Some (restored st) ∧ wf_state R C (restored st).
Proof.
  intros Hwf. unfold vt_state_cursor_restore.
  match goal with |- vt_state_cursor_clamp ?s = _ ∧ _ =>
    destruct (vt_state_cursor_clamp_ok s) as [-> Hw] end; [| done].
  pose proof (ws_dims _ _ _ Hwf). wf_fields.
Qed.

Lemma wf_cursor_save st : wf_state R C st → wf_state R C (vt_state_cursor_save st).
Proof. intros. unfold vt_state_cursor_save. wf_fields. Qed.

Lemma wf_set_target st t : wf_state R C st → wf_state R C (vt_state_set_target st t).
Proof.
  intros Hwf. unfold vt_state_set_target. destruct (target st t) eqn:E; [| done].
  wf_fields.
Qed.
End CursorLemmas.

Section ResizeLemmas.
Context (R C R' C' : Z).
Implicit Types (st : vt_state).

Definition resized_to (o o' : option vt_buf) : Prop :=
  match o, o' with
  | None, None => True
  | Some b, Some b' => grid b' = resized_rows R R' C C' (grid b) ∧ ring_cap b' = ring_cap b ∧
      ∀ h, buf_repr R C b h →
        buf_repr R' C' b' (if C' =? C then h else map (λ r, row_resize r C C') h)
  | _, _ => False
  end.

Lemma resize_target_ok o :
  opt_wf R C o → 0 < R' → 0 < C' →
  yields (resize_target o R' C') (λ o', resized_to o o' ∧ opt_wf R' C' o').
Proof.
  intros Ho HR HC. destruct o as [b|]; simpl; [| done].
  destruct (Ho b eq_refl) as [h Hb].
  pose proof (vt_buf_resize_repr R C b h R' C' Hb ltac:(lia) ltac:(lia)) as H.
  destruct (vt_buf_resize b R' C') as [b'|] eqn:E; [| done]. simpl in *.
  destruct H as (Hb' & Hg & Hc). split; [| apply opt_wf_Some; by eexists].
  split_and!; [done | done |]. intros h0 Hh0.
  pose proof (vt_buf_resize_repr R C b h0 R' C' Hh0 ltac:(lia) ltac:(lia)) as H.
  rewrite E in H. apply H.
Qed.

Lemma resized_is_Some o o' : resized_to o o' → is_Some o ↔ is_Some o'.
Proof. destruct o, o'; simpl; intros; try done; split; intros []; try done; by eexists. Qed.

(** A resize makes every target [R'] by [C'], opens the scroll region,
    clamps the cursor, and gives the default tab stops when the width
    changed. *)
Lemma vt_state_resize_ok st :
  wf_state R C st → 0 < R' <= DIM_MAX → 0 < C' <= DIM_MAX →
  yields (vt_state_resize st R' C') (λ st', wf_state R' C' st' ∧
    resized_to (tgt_primary st) (tgt_primary st') ∧
    resized_to (tgt_alt st) (tgt_alt st') ∧
    resized_to (tgt_scrollback st) (tgt_scrollback st') ∧
    active_target st' = active_target st ∧
    scroll_top st' = 0 ∧ scroll_bot st' = R' ∧
    cursor_row st' = clamp R' (cursor_row st) ∧ cursor_col st' = clamp C' (cursor_col st) ∧
    tabstops st' = if C' =? C then tabstops st else default_tabs C').
Proof.
  intros Hwf HR HC. destruct (cur_buf_ok _ _ _ Hwf) as (b & Hb & h & Hr).
  unfold vt_state_resize. rewrite Hb. cbn [mbind option_bind]. rewrite (br_cols _ _ _ _ Hr).
  pose proof Hwf as [Hdims Hcur Hreg Htabs Hkit Hfl Htit [Hp Hps] Ha Hs Hact Hmode].
  eapply yields_seq; [apply resize_target_ok; done || lia |]. intros t0 [Ht0 Hw0].
  eapply yields_seq; [apply resize_target_ok; done || lia |]. intros t1 [Ht1 Hw1].
  eapply yields_seq; [apply resize_target_ok; done || lia |]. intros t2 [Ht2 Hw2].
  pose proof (resized_is_Some _ _ Ht0) as S0. pose proof (resized_is_Some _ _ Ht1) as S1.
  pose proof (resized_is_Some _ _ Ht2) as S2.
  set (st1 := put_target (put_target (put_target st VT_TARGET_PRIMARY t0) VT_TARGET_ALT t1)
                         VT_TARGET_SCROLLBACK t2).
  set (ts := if C' =? C then tabstops st else default_tabs C').
  assert (wf_state R' C' (set_cursor (set_region (set_tabs st1 ts) 0 R') 0 0)) as Hwf1.
  { constructor; simpl; try done; try lia.
    - unfold ts. destruct (Z.eqb_spec C' C) as [->|]; [done | apply zlen_default_tabs; lia].
    - split; [done |]. by apply S0.
    - unfold cur_buf, target in *. simpl. destruct (active_target st); [by apply S0 | by apply S1 | by apply S2].
    - rewrite Hmode. by apply bool_decide_ext. }
  match goal with |- yields (?m ≫= _) _ => assert (m = Some (set_tabs st1 ts)) as -> end.
  { unfold ts. destruct (Z.eqb_spec C' C); [reflexivity |].
    destruct (cur_buf_ok _ _ _ Hwf1) as (b1 & Hb1 & h1 & Hr1).
    change (cur_buf _) with (cur_buf st1) in Hb1. unfold tabstops_init. rewrite Hb1.
    cbn [mbind option_bind]. rewrite (br_cols _ _ _ _ Hr1), tabs_every8_zero by lia. done. }
  cbn [mbind option_bind].
  match goal with |- yields (vt_state_cursor_clamp ?s) _ =>
    destruct (vt_state_cursor_clamp_ok R' C' s) as [-> Hw]; [exact Hwf1 |] end.
  simpl. split_and!; done.
Qed.
End ResizeLemmas.

Lemma vt_state_new_ok R C sb :
  0 < R <= DIM_MAX → 0 < C <= DIM_MAX →
  yields (vt_state_new R C sb) (λ st, wf_state R C st ∧
    tgt_primary st = Some (vt_buf_new R C (if sb <? 0 then DEFAULT_SCROLLBACK else sb)) ∧
    tabstops st = default_tabs C).
Proof.
  intros HR HC. unfold vt_state_new.
  set (cap := if sb <? 0 then DEFAULT_SCROLLBACK else sb).
  assert (0 <= cap) by (unfold cap, DEFAULT_SCROLLBACK; zbool). clearbody cap.
  match goal with |- yields (tabstops_init ?s) _ => set (st0 := s) end.
  assert (wf_state R C (set_tabs st0 (default_tabs C))) as Hwf.
  { constructor; simpl; try done; try lia.
    - apply zlen_default_tabs. lia.
    - split_and!; repeat constructor; unfold FLAGS_MAX; lia.
    - split; [| by eexists]. apply opt_wf_Some. exists []. apply vt_buf_new_repr; lia. }
  rewrite (tabstops_init_ok _ _ st0 Hwf). simpl. by split_and!.
Qed.

(** ** The alternate screen *)

Definition has_text (c : vt_cell) : bool := negb (codepoint c =? ch " ") && negb (codepoint c =? 0).
Definition row_text (r : vt_row) : bool := existsb has_text (cells r).

Lemma row_has_text_eq cs n c :
  0 <= c → c + Z.of_nat n = zlen cs →
  row_has_text cs n c = Some (existsb has_text (drop (Z.to_nat c) cs)).
Proof.
  revert c; induction n as [|n IH]; intros c Hc Hn; cbn [row_has_text].
  { by rewrite drop_ge by (unfold zlen in *; lia). }
  destruct (aget_in cs c) as [x Hx]; [lia |]. rewrite Hx. cbn [mbind option_bind].
  rewrite aget_lookup in Hx by lia. rewrite (drop_S _ _ _ Hx). simpl. unfold has_text at 1.
  destruct (negb (codepoint x =? ch " ") && negb (codepoint x =? 0)); [done |]. simpl.
  rewrite IH by lia. by replace (Z.to_nat (c + 1)) with (S (Z.to_nat c)) by lia.
Qed.

(** The number of leading rows up to the last one with text. *)
Lemma alt_content_rows_ok R C b h :
  buf_repr R C b h →
  yields (alt_content_rows b) (λ n, 0 <= n <= R ∧
    (∀ i r, aget (grid b) i = Some r → n <= i → row_text r = false) ∧
    (0 < n → ∃ r, aget (grid b) (n - 1) = Some r ∧ row_text r = true)).
Proof.
  intros Hb. unfold alt_content_rows. pose proof (br_size _ _ _ _ Hb) as Hsz.
  destruct (br_dims _ _ _ _ Hb) as [HR HC]. rewrite (br_rows _ _ _ _ Hb), (br_cols _ _ _ _ Hb).
  eapply yields_seq.
  - apply (for_up_inv (λ k last, -1 <= last < k ∧
      (∀ i r, aget (grid b) i = Some r → last < i < k → row_text r = false) ∧
      (0 <= last → ∃ r, aget (grid b) last = Some r ∧ row_text r = true))); [lia | |].
    + split_and!; [lia | lia | intros; lia | lia].
    + intros i last Hi (Hl & Hz & Ht).
      destruct (buf_repr_row_in _ _ _ _ i Hb Hi) as (r & Hr & Hok). rewrite Hr. cbn [mbind option_bind].
      unfold row_ok in Hok. rewrite row_has_text_eq by lia. cbn [mbind option_bind]. rewrite drop_0.
      fold (row_text r). destruct (row_text r) eqn:E; simpl.
      * split_and!; [lia | lia | intros; lia |]. intros _. by exists r.
      * split_and!; [lia | lia | | done]. intros j r' Hr' Hj.
        destruct (decide (j = i)) as [->|]; [congruence | apply (Hz j); [done | lia]].
  - intros last (Hl & Hz & Ht). simpl. split_and!; [lia | lia | |].
    + intros i r Hr Hi. pose proof (aget_Some _ _ _ Hr). apply (Hz i); [done | lia].
    + intros Hn. replace (last + 1 - 1) with last by lia. apply Ht. lia.
Qed.

Section AltLemmas.
Context (R C : Z).
Implicit Types (st : vt_state).

(** The alternate screen as it is entered: blank in the current background. *)
Definition blank_screen (b : vt_buf) (bgc : vt_color) : Prop :=
  grid b = replicate (Z.to_nat R) (cleared C bgc).

Lemma cleared_all R' C' bgc g :
  zlen g = R' →
  zmap (λ i r, if (0 <=? i) && (i <? R') then cleared C' bgc else r) g
  = replicate (Z.to_nat R') (cleared C' bgc).
Proof.
  intros <-. apply aget_ext. intros i. rewrite aget_zmap, aget_replicate.
  destruct (aget g i) eqn:E; simpl.
  - apply aget_Some in E. zbool.
  - apply aget_None in E. zbool.
Qed.

Lemma set_target_eq st t b :
  target st t = Some b → vt_state_set_target st t = set_active st t.
Proof. unfold vt_state_set_target. by intros ->. Qed.

Lemma vt_state_altscreen_enter_ok st :
  wf_state R C st →
  yields (vt_state_altscreen_enter st) (λ st', wf_state R C st' ∧
    if has_bits (modes st) VT_MODE_ALTSCREEN then st' = st
    else ∃ b, blank_screen b (bg st) ∧
      st' = set_region (set_cursor (put_target (set_active
              (set_modes (vt_state_cursor_save st) (set_bits (modes st) VT_MODE_ALTSCREEN))
              VT_TARGET_ALT) VT_TARGET_ALT (Some b)) 0 0) 0 R).
Proof.
  intros Hwf. unfold vt_state_altscreen_enter.
  destruct (has_bits (modes st) VT_MODE_ALTSCREEN) eqn:Em; [done |].
  pose proof Hwf as [[HR HC] Hcur Hreg Htabs Hkit Hfl Htit [Hp [p Ep]] Ha Hs Hact Hmode].
  rewrite Em in Hmode. symmetry in Hmode. apply bool_decide_eq_false in Hmode.
  destruct (tgt_alt st) as [a|] eqn:Ea; [by destruct Hmode; eexists |].
  simpl. rewrite Ep. cbn [mbind option_bind]. rewrite Ea.
  destruct (Hp p Ep) as [h Hpr]. rewrite (br_rows _ _ _ _ Hpr), (br_cols _ _ _ _ Hpr).
  rewrite (set_target_eq _ VT_TARGET_ALT (vt_buf_new R C 0)) by done.
  pose proof (vt_buf_new_repr R C 0 ltac:(lia) ltac:(lia) ltac:(lia)) as Hnew.
  pose proof (vt_buf_clear_rows_repr R C _ [] 0 R (bg st) Hnew) as H.
  apply yields_Some in H as (b' & E & Hb' & _ & Hg).
  unfold upd_buf, cur_buf. simpl. rewrite E. simpl.
  rewrite cleared_all in Hg by apply Hnew. split; [| by exists b'].
  constructor; simpl; try done; try lia; rewrite ?Ep; try (split; [by rewrite <- Ep | by eexists]).
  - apply opt_wf_Some. by eexists.
  - by rewrite has_bits_set, Em.
Qed.

Definition history_clipped (b : vt_buf) (n : Z) : list vt_row :=
  map (λ r, mk_row (clip C (cells r)) VT_ROW_DIRTY) (take (Z.to_nat n) (grid b)).

Lemma capture_alt_ok st p alt ha :
  tgt_primary st = Some p → tgt_alt st = Some alt → buf_wf R C p → buf_repr R C alt ha →
  ∃ p' n, capture_alt st = Some (put_target st VT_TARGET_PRIMARY (Some p')) ∧ 0 <= n <= R ∧
    (∀ i r, aget (grid alt) i = Some r → n <= i → row_text r = false) ∧
    grid p' = grid p ∧ ring_cap p' = ring_cap p ∧
    (∀ h, buf_repr R C p h → buf_repr R C p'
       (if capture_alt_scroll st then push_all (ring_cap p) h (history_clipped alt n) else h)).
Proof.
  intros Ep Ea [h Hpr] Hra. unfold capture_alt. rewrite Ea.
  assert (Some st = Some (put_target st VT_TARGET_PRIMARY (Some p))) as Eid
    by (destruct st; simpl in *; by subst).
  pose proof (alt_content_rows_ok R C alt ha Hra) as H.
  apply yields_Some in H as (n & -> & Hn & Hblank & _). cbn [mbind option_bind].
  destruct (capture_alt_scroll st); [| by exists p, n].
  destruct (Z.ltb_spec 0 n).
  - rewrite Ep. cbn [mbind option_bind].
    pose proof (vt_buf_push_rows_spec R C R C p alt h ha n Hpr Hra) as H'.
    apply yields_Some in H' as (p' & E & _ & Hg & Hcap). rewrite E. exists p', n.
    split_and!; try (done || lia). intros h0 Hh0.
    pose proof (vt_buf_push_rows_spec R C R C p alt h0 ha n Hh0 Hra) as H'.
    rewrite E in H'. apply H'.
  - exists p, n. split_and!; try (done || lia). intros h0 Hh0. unfold history_clipped.
    by replace (Z.to_nat n) with 0%nat by lia.
Qed.

(** Leaving restores the primary screen and the saved cursor; with capture
    on, the rows of the alternate screen up to the last one with text
    follow the history. *)
Lemma vt_state_altscreen_leave_ok st :
  wf_state R C st →
  yields (vt_state_altscreen_leave st) (λ st', wf_state R C st' ∧
    if has_bits (modes st) VT_MODE_ALTSCREEN then
      ∃ p p' alt n, tgt_primary st = Some p ∧ tgt_alt st = Some alt ∧ 0 <= n <= R ∧
        (∀ i r, aget (grid alt) i = Some r → n <= i → row_text r = false) ∧
        grid p' = grid p ∧ ring_cap p' = ring_cap p ∧
        (∀ h, buf_repr R C p h → buf_repr R C p'
           (if capture_alt_scroll st then push_all (ring_cap p) h (history_clipped alt n) else h)) ∧
        st' = restored R C (set_region (set_active (put_target (put_target
                (set_modes st (clear_bits (modes st) VT_MODE_ALTSCREEN))
                VT_TARGET_PRIMARY (Some p')) VT_TARGET_ALT None) VT_TARGET_PRIMARY) 0 R)
    else st' = st).
Proof.
  intros Hwf. unfold vt_state_altscreen_leave.
  destruct (has_bits (modes st) VT_MODE_ALTSCREEN) eqn:Em; simpl; [| done].
  pose proof Hwf as [[HR HC] Hcur Hreg Htabs Hkit Hfl Htit [Hp [p Ep]] Ha Hs Hact Hmode].
  rewrite Em in Hmode. symmetry in Hmode. apply bool_decide_eq_true in Hmode as [alt Ea].
  destruct (Ha alt Ea) as [ha Hra].
  match goal with |- context [capture_alt ?s] =>
    destruct (capture_alt_ok s p alt ha Ep Ea (Hp p Ep) Hra) as (p' & n & -> & Hn & Hblank & Hg & Hcap & Hr') end.
  destruct (Hp p Ep) as [h Hpr]. specialize (Hr' h Hpr) as Hpr'.
  cbn [mbind option_bind]. cbv zeta. rewrite (set_target_eq _ VT_TARGET_PRIMARY p') by reflexivity.
  match goal with |- context [cur_buf ?s] => change (cur_buf s) with (Some p') end.
  cbn [mbind option_bind]. rewrite (br_rows _ _ _ _ Hpr').
  match goal with |- yields (vt_state_cursor_restore ?s) _ =>
    destruct (vt_state_cursor_restore_ok R C s) as [-> Hw] end.
  { constructor; simpl; try done; try lia.
    - split; [apply opt_wf_Some; by eexists | by eexists].
    - apply has_bits_cleared. }
  simpl. split; [exact Hw |]. exists p, p', alt, n.
  split_and!; (done || lia).
Qed.
End AltLemmas.

(** ** Moving and scrolling *)

Section MoveLemmas.
Context (R C : Z).
Implicit Types (st : vt_state).

(** [b'] is [b] scrolled: the grid and the history say so. *)
Definition scrolls (b b' : vt_buf) (top bottom count : Z) (bgc : vt_color) : Prop :=
  ring_cap b' = ring_cap b ∧
  ∀ h, buf_repr R C b h →
    let '(h', g') := scroll_result R C (ring_cap b) h (grid b) top bottom count bgc in
    buf_repr R C b' h' ∧ grid b' = g'.

Lemma scroll_ok st top bottom count bgc :
  wf_state R C st →
  yields (upd_buf st (λ b, vt_buf_scroll b top bottom count bgc)) (λ st', wf_state R C st' ∧
    ∃ b b', cur_buf st = Some b ∧ scrolls b b' top bottom count bgc ∧
            st' = put_target st (active_target st) (Some b')).
Proof.
  intros Hwf. apply upd_buf_ok; [done |]. intros b h Hb Hr.
  pose proof (vt_buf_scroll_spec R C b h top bottom count bgc Hr) as H.
  apply yields_Some in H as (b' & E & H). rewrite E. simpl.
  destruct (scroll_result R C (ring_cap b) h (grid b) top bottom count bgc) as [h' g'] eqn:Es.
  destruct H as (Hb' & Hg & Hc). split; [by exists h' |]. split; [done |]. intros h0 Hr0.
  pose proof (vt_buf_scroll_spec R C b h0 top bottom count bgc Hr0) as H.
  rewrite E in H. simpl in H.
  destruct (scroll_result R C (ring_cap b) h0 (grid b) top bottom count bgc). tauto.
Qed.

Lemma scroll_wf st top bottom count bgc :
  wf_state R C st →
  yields (upd_buf st (λ b, vt_buf_scroll b top bottom count bgc)) (wf_state R C).
Proof. intros. eapply yields_mono; [by apply scroll_ok | by intros ? [? _]]. Qed.

(** Down a line: only the bottom margin scrolls. *)
Lemma vt_state_index_ok st :
  wf_state R C st →
  yields (vt_state_index st) (λ st', wf_state R C st' ∧
    if cursor_row st =? scroll_bot st - 1 then
      ∃ b b', cur_buf st = Some b ∧ scrolls b b' (scroll_top st) (scroll_bot st) 1 (bg st) ∧
              st' = put_target st (active_target st) (Some b')
    else st' = if cursor_row st <? R - 1 then set_row st (cursor_row st + 1) else st).
Proof.
  intros Hwf. unfold vt_state_index. destruct (cur_buf_ok _ _ _ Hwf) as (b & Hb & h & Hr).
  rewrite Hb. cbn [mbind option_bind]. destruct (cursor_row st =? scroll_bot st - 1); [by rewrite <- Hb; apply scroll_ok |].
  rewrite (br_rows _ _ _ _ Hr). destruct (Z.ltb_spec (cursor_row st) (R - 1)); simpl; [| done].
  split; [wf_fields | done].
Qed.

Lemma vt_state_index_wf st : wf_state R C st → yields (vt_state_index st) (wf_state R C).
Proof. intros. eapply yields_mono; [by apply vt_state_index_ok | by intros ? [? _]]. Qed.

(** Up a line: only the top margin scrolls. *)
Lemma vt_state_reverse_index_ok st :
  wf_state R C st →
  yields (vt_state_reverse_index st) (λ st', wf_state R C st' ∧
    if cursor_row st =? scroll_top st then
      ∃ b b', cur_buf st = Some b ∧ scrolls b b' (scroll_top st) (scroll_bot st) (-1) (bg st) ∧
              st' = put_target st (active_target st) (Some b')
    else st' = if 0 <? cursor_row st then set_row st (cursor_row st - 1) else st).
Proof.
  intros Hwf. unfold vt_state_reverse_index.
  destruct (cursor_row st =? scroll_top st); [by apply scroll_ok |].
  destruct (Z.ltb_spec 0 (cursor_row st)); simpl; [| done]. split; [wf_fields | done].
Qed.

Lemma vt_state_reverse_index_wf st :
  wf_state R C st → yields (vt_state_reverse_index st) (wf_state R C).
Proof. intros. eapply yields_mono; [by apply vt_state_reverse_index_ok | by intros ? [? _]]. Qed.

(** ** Writing a character *)

(** A buffer with one row replaced, and what row operations make of it. *)
Definition with_grid_row (b : vt_buf) (row : Z) (r : vt_row) : vt_buf :=
  {| b with grid := <[Z.to_nat row := r]> (grid b) |}.

Lemma with_grid_row_id b row r : aget (grid b) row = Some r → with_grid_row b row r = b.
Proof.
  intros Hr. pose proof (aget_Some _ _ _ Hr). rewrite aget_lookup in Hr by lia.
  unfold with_grid_row. rewrite list_insert_id by done. by destruct b.
Qed.

Lemma with_grid_row_ok b h row r :
  buf_repr R C b h → row_ok C r → buf_repr R C (with_grid_row b row r) h.
Proof.
  intros Hb Hr. apply buf_repr_grid; [done | rewrite zlen_insert; apply Hb |].
  apply Forall_insert; [apply Hb | done].
Qed.

Lemma upd_row_row b h row r f :
  buf_repr R C b h → 0 <= row < R →
  upd_row (with_grid_row b row r) row f = r' ← f r; Some (with_grid_row b row r').
Proof.
  intros Hb Hrow. pose proof (br_size _ _ _ _ Hb). pose proof (br_rows _ _ _ _ Hb).
  unfold upd_row, vt_buf_row. simpl.
  replace ((row <? 0) || (buf_rows b <=? row)) with false by (symmetry; zbool).
  unfold upd_grid. simpl. rewrite aget_insert, decide_True by (done || lia). cbn [mbind option_bind].
  destruct (f r); simpl; [| done]. rewrite aset_in by (rewrite zlen_insert; lia). simpl.
  by rewrite list_insert_insert_eq.
Qed.

Lemma put_cell_row b h row r col c :
  buf_repr R C b h → row_ok C r → 0 <= row < R → 0 <= col < C →
  put_cell (with_grid_row b row r) row col c =
    Some (with_grid_row b row {| r with cells := <[Z.to_nat col := c]> (cells r) |}).
Proof.
  unfold row_ok. intros Hb Hok Hrow Hcol.
  pose proof (br_size _ _ _ _ Hb). pose proof (br_rows _ _ _ _ Hb). pose proof (br_cols _ _ _ _ Hb).
  unfold put_cell, vt_buf_cell. simpl.
  replace ((row <? 0) || (buf_rows b <=? row)) with false by (symmetry; zbool).
  replace ((col <? 0) || (buf_cols b <=? col)) with false by (symmetry; zbool).
  unfold upd_grid. simpl. rewrite aget_insert, decide_True by (done || lia). cbn [mbind option_bind].
  rewrite aset_in by lia. cbn [mbind option_bind].
  rewrite aset_in by (rewrite zlen_insert; lia). simpl. by rewrite list_insert_insert_eq.
Qed.

Lemma row_ok_cells r (i : nat) c : row_ok C r → row_ok C {| r with cells := <[i := c]> (cells r) |}.
Proof. unfold row_ok. simpl. by rewrite zlen_insert. Qed.

Lemma put_put st t o o' : put_target (put_target st t o) t o' = put_target st t o'.
Proof. unfold put_target. simpl. by destruct t. Qed.

Lemma upd_buf_put st b f :
  upd_buf (put_target st (active_target st) (Some b)) f =
  (b' ← f b; Some (put_target st (active_target st) (Some b'))).
Proof.
  unfold upd_buf. rewrite cur_buf_put. cbn [mbind option_bind]. destruct (f b); simpl; [| done].
  by rewrite put_put.
Qed.

(** A row after a glyph of [w] columns was written at [col]. *)
Definition put_row (col w : Z) (c : vt_cell) (r : vt_row) : vt_row :=
  let cs := <[Z.to_nat col := c]> (cells r) in
  row_dirty {| r with cells :=
    if (w =? 2) && (col + 1 <? C)
    then <[Z.to_nat (col + 1) := {| vt_cell_clear with cell_width := 0 |}]> cs else cs |}.

(** The glyph as a cell. *)
Definition glyph st (cp w : Z) : vt_cell := mk_cell cp (fg st) (bg st) (attrs st) w.

Definition advance st (w : Z) : Z :=
  let c := Z.min C (cursor_col st + w) in
  if has_bits (modes st) VT_MODE_AUTOWRAP then c else Z.min c (C - 1).

Lemma row_ok_put_row col w c r : row_ok C r → row_ok C (put_row col w c r).
Proof. unfold row_ok, put_row. simpl. case_match; by rewrite !zlen_insert. Qed.

Lemma put_glyph_ok st cp w :
  wf_state R C st → 0 <= w <= 2 → cursor_col st < C →
  yields (put_glyph st C cp w) (λ st', wf_state R C st' ∧
    ∃ b r, cur_buf st = Some b ∧ aget (grid b) (cursor_row st) = Some r ∧
      st' = set_col (put_target st (active_target st) (Some (with_grid_row b (cursor_row st)
              (put_row (cursor_col st) w (glyph st cp w) r)))) (advance st w)).
Proof.
  intros Hwf Hw Hcol. destruct (cur_buf_ok _ _ _ Hwf) as (b & Hb & h & Hr).
  pose proof (ws_cursor _ _ _ Hwf) as [Hrow Hc0].
  destruct (buf_repr_row_in _ _ _ _ _ Hr Hrow) as (r & Er & Hok).
  unfold put_glyph. rewrite Hb. cbn [mbind option_bind].
  rewrite (vt_buf_cell_in _ _ _ _ _ _ Hr) by lia.
  assert (upd_buf st = upd_buf (put_target st (active_target st)
            (Some (with_grid_row b (cursor_row st) r)))) as Hst.
  { rewrite (with_grid_row_id _ _ _ Er), <- Hb. f_equal. unfold cur_buf, put_target.
    destruct st as [? ? ? []]; done. }
  rewrite Hst, upd_buf_put. rewrite (put_cell_row b h) by (done || lia). cbn [mbind option_bind].
  rewrite u8_small by lia. cbn [cursor_col cursor_row put_target].
  match goal with |- context [with_grid_row b (cursor_row st) ?x] => set (r1 := x) end.
  assert (row_ok C r1) as Hok1 by (by apply row_ok_cells).
  set (r2 := if (w =? 2) && (cursor_col st + 1 <? C)
             then {| r1 with cells := <[Z.to_nat (cursor_col st + 1) := {| vt_cell_clear with cell_width := 0 |}]> (cells r1) |}
             else r1).
  match goal with |- yields (?m ≫= _) _ =>
    assert (m = Some (put_target st (active_target st) (Some (with_grid_row b (cursor_row st) r2)))) as -> end.
  { unfold r2. destruct ((w =? 2) && (cursor_col st + 1 <? C)) eqn:E; [| done].
    rewrite upd_buf_put, (put_cell_row b h) by (done || lia). done. }
  cbn [mbind option_bind]. unfold with_row. rewrite upd_buf_put.
  cbn [cursor_col cursor_row put_target]. rewrite (upd_row_row b h) by (done || lia).
  cbn [mbind option_bind yields]. cbn [cursor_col modes put_target].
  assert (row_dirty r2 = put_row (cursor_col st) w (glyph st cp w) r) as Hr2.
  { unfold put_row, r2. by case_match. }
  rewrite Hr2.
  assert (0 <= advance st w <= C) as Hadv.
  { pose proof (ws_dims _ _ _ Hwf). unfold advance. case_match; lia. }
  match goal with |- context [set_col _ ?x] => replace x with (advance st w) end.
  - split; [| by exists b, r]. assert (wf_state R C (put_target st (active_target st)
      (Some (with_grid_row b (cursor_row st) (put_row (cursor_col st) w (glyph st cp w) r))))) as Hwf'.
    { apply wf_put_target; [done |]. exists h. apply with_grid_row_ok; [done |]. by apply row_ok_put_row. }
    clear -Hwf' Hadv. wf_fields.
  - unfold advance. destruct (has_bits (modes st) VT_MODE_AUTOWRAP); simpl; zbool.
Qed.

Lemma put_target_cur st b :
  cur_buf st = Some b → put_target st (active_target st) (Some b) = st.
Proof. intros <-. unfold cur_buf, put_target. by destruct st as [? ? ? []]. Qed.

Lemma put_wrap_ok st w :
  wf_state R C st → 0 <= w <= 2 →
  yields (put_wrap st C w) (λ st', wf_state R C st' ∧
    (cursor_col st + w <= C → st' = st) ∧
    (C < cursor_col st + w → cursor_col st' <= Z.max 0 (C - w)) ∧
    modes st' = modes st).
Proof.
  intros Hwf Hw. pose proof (ws_dims _ _ _ Hwf). pose proof (ws_cursor _ _ _ Hwf) as [Hrow Hcol].
  unfold put_wrap. destruct (Z.ltb_spec C (cursor_col st + w)); [| by split_and!; try done; lia].
  destruct (has_bits (modes st) VT_MODE_AUTOWRAP).
  - eapply yields_seq; [apply with_row_ok; [done | done |]; intros r Hr; exact Hr |].
    intros st1 (Hwf1 & b & r & r' & Hb & Hr & Hok & _ & ->).
    eapply yields_mono.
    + apply vt_state_index_ok. clear -Hwf1 H. wf_fields.
    + intros st' (Hwf' & Hst'). cbn [cursor_row set_col put_target] in Hst'. split_and!; [done | lia | |].
      all: case_match; [destruct Hst' as (? & ? & _ & _ & ->); simpl; try done; lia |].
      all: rewrite Hst'; case_match; simpl; try done; lia.
  - simpl. split_and!; [| lia | zbool | done]. wf_fields. zbool.
Qed.

(** Insert mode: the cells from the cursor on move [w] to the right. *)
Definition insert_shift (col w : Z) (r : vt_row) : vt_row :=
  {| r with cells := zmap (λ i y, if (col + w <=? i) && (i <=? C - 1)
                                  then default y (aget (cells r) (i - w)) else y) (cells r) |}.

Lemma put_insert_ok st w :
  wf_state R C st → 0 <= w <= 2 →
  yields (put_insert st C w) (λ st', wf_state R C st' ∧
    if has_bits (modes st) VT_MODE_INSERT then
      ∃ b r, cur_buf st = Some b ∧ aget (grid b) (cursor_row st) = Some r ∧
        st' = put_target st (active_target st)
                (Some (with_grid_row b (cursor_row st) (insert_shift (cursor_col st) w r)))
    else st' = st).
Proof.
  intros Hwf Hw. pose proof (ws_cursor _ _ _ Hwf) as [Hrow Hcol]. unfold put_insert.
  destruct (has_bits (modes st) VT_MODE_INSERT); [| done].
  assert (∀ r, row_ok C r → (cs ← for_down (C - 1) (cursor_col st + w)
           (λ i cs, v ← aget cs (i - w); aset cs i v) (cells r);
    Some {| r with cells := cs |}) = Some (insert_shift (cursor_col st) w r)) as Hf.
  { unfold row_ok. intros r Hr. by rewrite for_down_move by lia. }
  eapply yields_mono.
  - apply with_row_ok; [done | done |]. intros r Hr. rewrite Hf by done. simpl.
    unfold row_ok, insert_shift. simpl. by rewrite zlen_zmap.
  - intros st' (Hwf' & b & r & r' & Hb & Er & Hok & Hfr & ->). split; [done |].
    rewrite Hf in Hfr by done. injection Hfr as <-. by exists b, r.
Qed.

Lemma put_glyph_wf st cp w :
  wf_state R C st → 0 <= w <= 2 → yields (put_glyph st C cp w) (wf_state R C).
Proof.
  intros Hwf Hw. destruct (Z.lt_ge_cases (cursor_col st) C) as [Hlt|Hge].
  - eapply yields_mono; [by apply put_glyph_ok | by intros ? [? _]].
  - destruct (cur_buf_ok _ _ _ Hwf) as (b & Hb & h & Hr). unfold put_glyph. rewrite Hb.
    cbn [mbind option_bind]. pose proof (br_cols _ _ _ _ Hr).
    by rewrite vt_buf_cell_out by lia.
Qed.

Lemma vt_state_putchar_eq st cp w :
  wf_state R C st →
  vt_state_putchar st cp w = (st ← put_wrap st C w; st ← put_insert st C w; put_glyph st C cp w).
Proof.
  intros Hwf. unfold vt_state_putchar. destruct (cur_buf_ok _ _ _ Hwf) as (b & Hb & h & Hr).
  rewrite Hb. cbn [mbind option_bind]. by rewrite (br_cols _ _ _ _ Hr).
Qed.

Lemma vt_state_putchar_wf st cp w :
  wf_state R C st → 0 <= w <= 2 → yields (vt_state_putchar st cp w) (wf_state R C).
Proof.
  intros Hwf Hw. rewrite vt_state_putchar_eq by done.
  eapply yields_seq; [by apply put_wrap_ok |]. intros st1 (Hwf1 & _).
  eapply yields_seq; [by apply put_insert_ok |]. intros st2 (Hwf2 & _).
  by apply put_glyph_wf.
Qed.

(** A glyph that fits on the line, outside insert mode. *)
Lemma vt_state_putchar_fits st cp w :
  wf_state R C st → 0 <= w <= 2 → cursor_col st + w <= C → cursor_col st < C →
  has_bits (modes st) VT_MODE_INSERT = false →
  yields (vt_state_putchar st cp w) (λ st', wf_state R C st' ∧
    ∃ b r, cur_buf st = Some b ∧ aget (grid b) (cursor_row st) = Some r ∧
      st' = set_col (put_target st (active_target st) (Some (with_grid_row b (cursor_row st)
              (put_row (cursor_col st) w (glyph st cp w) r)))) (advance st w)).
Proof.
  intros Hwf Hw Hfit Hcol Hins. rewrite vt_state_putchar_eq by done.
  eapply yields_seq; [by apply put_wrap_ok |]. intros st1 (_ & Heq & _). rewrite (Heq Hfit).
  eapply yields_seq; [by apply put_insert_ok |]. rewrite Hins. intros st2 (_ & ->).
  by apply put_glyph_ok.
Qed.
End MoveLemmas.

(** ** Correctness *)

(** A small terminal for the concrete instances. *)
Definition demo_state : vt_state := default zero_state (vt_state_new 3 5 4).

Lemma demo_wf : wf_state 3 5 demo_state.
Proof.
  pose proof (vt_state_new_ok 3 5 4) as H. unfold demo_state, DIM_MAX in *.
  destruct (vt_state_new 3 5 4) as [st|]; [| by destruct H; lia]. apply H; lia.
Qed.

(** Pushing keyboard flags one after the other. *)
Fixpoint kitty_pushes (st : vt_state) (fs : list Z) : option vt_state :=
  match fs with
  | [] => Some st
  | f :: fs => st ← vt_state_kitty_push st f; kitty_pushes st fs
  end.

Lemma kitty_pushes_ok R C fs st :
  wf_state R C st → Forall flags_ok fs →
  yields (kitty_pushes st fs) (λ st', wf_state R C st' ∧
    kitty_entries st' = push_all VT_KITTY_KBD_STACK_MAX (kitty_entries st) fs).
Proof.
  revert st; induction fs as [|f fs IH]; intros st Hwf Hfs; [done |].
  apply Forall_cons in Hfs as [Hf Hfs]. cbn [kitty_pushes].
  eapply yields_seq; [by apply (vt_state_kitty_push_ok R C) |]. intros st1 (Hwf1 & _ & E1).
  eapply yields_mono; [by apply IH |]. intros st2 (Hwf2 & E2). split; [done |]. by rewrite E2, E1.
Qed.

(** The keyboard-protocol stack never overflows and behaves as a stack of
    the 16 most recent pushes: after any pushes, popping [k] entries leaves the
    older ones, and the flags in effect are those of the new top, or none when
    the stack is empty. *)
Theorem kitty_stack_correct R C st fs k :
  wf_state R C st → Forall flags_ok fs → 1 <= k →
  ∃ st1 st2, kitty_pushes st fs = Some st1 ∧ vt_state_kitty_pop st1 k = Some st2 ∧ wf_state R C st2 ∧
    let all := kitty_entries st ++ fs in
    let kept := drop (length all - 16) all in
    kitty_entries st1 = kept ∧
    kitty_entries st2 = take (length kept - Z.to_nat k) kept ∧
    kitty_kbd_flags st2 = default 0 (last (kitty_entries st2)).
Proof.
  intros Hwf Hfs Hk. pose proof (kitty_pushes_ok R C fs st Hwf Hfs) as H.
  apply yields_Some in H as (st1 & E1 & Hwf1 & He1).
  pose proof (vt_state_kitty_pop_ok R C st1 k Hwf1) as H.
  apply yields_Some in H as (st2 & E2 & Hwf2 & He2 & Hf2).
  exists st1, st2. split_and!; [done | done | done |]. intros all kept.
  pose proof (ws_kitty _ _ _ Hwf) as [Hs Hd]. unfold VT_KITTY_KBD_STACK_MAX in *.
  assert (kitty_entries st1 = kept) as Hkept.
  { rewrite He1, push_all_drop; [| done |].
    - unfold kept, all. f_equal. rewrite length_app. unfold zlen. lia.
    - unfold kitty_entries, zlen in *. rewrite length_take. lia. }
  rewrite Z.max_r in He2 by lia. by rewrite Hkept in He2.
Qed.

Lemma kitty_stack_correct_witness :
  ∃ st1 st2, kitty_pushes demo_state [1; 5; 31] = Some st1 ∧ vt_state_kitty_pop st1 2 = Some st2 ∧
    wf_state 3 5 st2 ∧
    let all := kitty_entries demo_state ++ [1; 5; 31] in
    let kept := drop (length all - 16) all in
    kitty_entries st1 = kept ∧
    kitty_entries st2 = take (length kept - Z.to_nat 2) kept ∧
    kitty_kbd_flags st2 = default 0 (last (kitty_entries st2)).
Proof.
  apply (kitty_stack_correct 3 5 demo_state [1; 5; 31] 2 demo_wf); [| lia].
  repeat (apply Forall_cons_2; [unfold flags_ok, FLAGS_MAX; lia |]); apply Forall_nil_2.
Defined.

(** Saving a title, changing it any way, and restoring gives the saved
    title and the former stack back; a push onto a full stack is ignored, and
    the array never grows past 16 entries. *)
Theorem title_stack_roundtrip R C st t :
  wf_state R C st →
  ∃ st1, vt_state_title_push st = Some st1 ∧ wf_state R C st1 ∧
    zlen (title_stack st1) <= TITLE_STACK_MAX ∧
    (TITLE_STACK_MAX <= zlen (title_stack st) → st1 = st) ∧
    (zlen (title_stack st) < TITLE_STACK_MAX →
     ∃ st2, vt_state_title_pop (vt_state_set_title st1 t) = Some st2 ∧
       title st2 = title st ∧ title_stack st2 = title_stack st).
Proof.
  intros Hwf. pose proof (vt_state_title_push_ok R C st Hwf) as H.
  apply yields_Some in H as (st1 & E1 & Hwf1 & Ht1 & Hs1). exists st1.
  pose proof (ws_titles _ _ _ Hwf1). split_and!; [done | done | lia | |].
  { intros Hge. unfold vt_state_title_push in E1. rewrite (proj2 (Z.leb_le _ _) Hge) in E1. congruence. }
  intros Hlt. rewrite (proj2 (Z.ltb_lt _ _) Hlt) in Hs1.
  assert (wf_state R C (vt_state_set_title st1 t)) as Hwf1'.
  { unfold vt_state_set_title. clear -Hwf1. wf_fields. }
  pose proof (vt_state_title_pop_ok R C _ Hwf1') as H2.
  apply yields_Some in H2 as (st2 & E2 & Hwf2 & Hst2). exists st2. split; [done |].
  change (title_stack (vt_state_set_title st1 t)) with (title_stack st1) in Hst2.
  rewrite Hs1, last_snoc in Hst2. destruct Hst2 as [Ht2 Happ]. split; [done |].
  by apply app_inj_tail in Happ as [-> _].
Qed.

Lemma title_stack_roundtrip_witness :
  ∃ st1, vt_state_title_push demo_state = Some st1 ∧ wf_state 3 5 st1 ∧
    zlen (title_stack st1) <= TITLE_STACK_MAX ∧
    (TITLE_STACK_MAX <= zlen (title_stack demo_state) → st1 = demo_state) ∧
    (zlen (title_stack demo_state) < TITLE_STACK_MAX →
     ∃ st2, vt_state_title_pop (vt_state_set_title st1 (Some (str "vi"))) = Some st2 ∧
       title st2 = title demo_state ∧ title_stack st2 = title_stack demo_state).
Proof. exact (title_stack_roundtrip 3 5 demo_state (Some (str "vi")) demo_wf). Defined.

(** A resize never traps: every buffer takes the new size with its surviving
    rows and history cut or padded, the cursor is clamped into the new screen,
    the scroll region opens to the whole screen, and the default tab stops come
    back when the width changed. *)
Theorem vt_state_resize_correct R C R' C' st :
  wf_state R C st → 0 < R' <= DIM_MAX → 0 < C' <= DIM_MAX →
  ∃ st', vt_state_resize st R' C' = Some st' ∧ wf_state R' C' st' ∧
    resized_to R C R' C' (tgt_primary st) (tgt_primary st') ∧
    resized_to R C R' C' (tgt_alt st) (tgt_alt st') ∧
    resized_to R C R' C' (tgt_scrollback st) (tgt_scrollback st') ∧
    active_target st' = active_target st ∧ scroll_top st' = 0 ∧ scroll_bot st' = R' ∧
    cursor_row st' = Z.min (cursor_row st) (R' - 1) ∧ cursor_col st' = Z.min (cursor_col st) (C' - 1) ∧
    tabstops st' = (if C' =? C then tabstops st else default_tabs C').
Proof.
  intros Hwf HR HC. pose proof (vt_state_resize_ok R C R' C' st Hwf HR HC) as H.
  apply yields_Some in H as (st' & E & Hwf' & H0 & H1 & H2 & H3 & H4 & H5 & H6 & H7 & H8).
  pose proof (ws_cursor _ _ _ Hwf). exists st'. split_and!; try done.
  - rewrite H6. unfold clamp. zbool.
  - rewrite H7. unfold clamp. zbool.
Qed.

Lemma vt_state_resize_correct_witness :
  ∃ st', vt_state_resize demo_state 2 7 = Some st' ∧ wf_state 2 7 st' ∧
    resized_to 3 5 2 7 (tgt_primary demo_state) (tgt_primary st') ∧
    resized_to 3 5 2 7 (tgt_alt demo_state) (tgt_alt st') ∧
    resized_to 3 5 2 7 (tgt_scrollback demo_state) (tgt_scrollback st') ∧
    active_target st' = active_target demo_state ∧ scroll_top st' = 0 ∧ scroll_bot st' = 2 ∧
    cursor_row st' = Z.min (cursor_row demo_state) (2 - 1) ∧
    cursor_col st' = Z.min (cursor_col demo_state) (7 - 1) ∧
    tabstops st' = (if 7 =? 5 then tabstops demo_state else default_tabs 7).
Proof. apply (vt_state_resize_correct 3 5 2 7 demo_state demo_wf); unfold DIM_MAX; lia. Defined.

(** Tab motions stay on the screen and stop where they should: the next stop
    is the first one strictly to the right, or the last column; the previous is
    the first strictly to the left, or the first column; no stop is skipped. *)
Theorem tab_motion_correct R C st col :
  wf_state R C st → 0 <= col <= C →
  (∃ k, vt_state_tab_next st col = Some k ∧ 0 <= k < C ∧
     (col < k ∧ (∃ t, aget (tabstops st) k = Some t ∧ t ≠ 0) ∨ k = C - 1) ∧
     ∀ j, col < j < k → aget (tabstops st) j = Some 0) ∧
  (∃ k, vt_state_tab_prev st col = Some k ∧ 0 <= k < C ∧
     (k < col ∧ (∃ t, aget (tabstops st) k = Some t ∧ t ≠ 0) ∨ k = 0) ∧
     ∀ j, k < j < col → aget (tabstops st) j = Some 0).
Proof.
  intros Hwf Hcol. split.
  - pose proof (vt_state_tab_next_ok R C st col Hwf Hcol) as H.
    apply yields_Some in H as (k & E & Hk & Hs & Hz). exists k. exact (conj E (conj Hk (conj Hs Hz))).
  - pose proof (vt_state_tab_prev_ok R C st col Hwf Hcol) as H.
    apply yields_Some in H as (k & E & Hk & Hs & Hz). exists k. exact (conj E (conj Hk (conj Hs Hz))).
Qed.

Lemma tab_motion_correct_witness :
  (∃ k, vt_state_tab_next demo_state 2 = Some k ∧ 0 <= k < 5 ∧
     (2 < k ∧ (∃ t, aget (tabstops demo_state) k = Some t ∧ t ≠ 0) ∨ k = 5 - 1) ∧
     ∀ j, 2 < j < k → aget (tabstops demo_state) j = Some 0) ∧
  (∃ k, vt_state_tab_prev demo_state 2 = Some k ∧ 0 <= k < 5 ∧
     (k < 2 ∧ (∃ t, aget (tabstops demo_state) k = Some t ∧ t ≠ 0) ∨ k = 0) ∧
     ∀ j, k < j < 2 → aget (tabstops demo_state) j = Some 0).
Proof. apply (tab_motion_correct 3 5 demo_state 2 demo_wf). lia. Defined.

(** Line feeds and reverse line feeds respect the scroll region: only at the
    bottom (top) margin does the region scroll by one line, cursor in place;
    elsewhere the cursor moves one line, stopping at the edge of the screen,
    and no cell changes. *)
Theorem index_scrolls_at_margin R C st :
  wf_state R C st →
  (∃ st', vt_state_index st = Some st' ∧ wf_state R C st' ∧
     if cursor_row st =? scroll_bot st - 1 then
       ∃ b b', cur_buf st = Some b ∧ scrolls R C b b' (scroll_top st) (scroll_bot st) 1 (bg st) ∧
               st' = put_target st (active_target st) (Some b')
     else st' = set_row st (Z.min (cursor_row st + 1) (R - 1))) ∧
  (∃ st', vt_state_reverse_index st = Some st' ∧ wf_state R C st' ∧
     if cursor_row st =? scroll_top st then
       ∃ b b', cur_buf st = Some b ∧ scrolls R C b b' (scroll_top st) (scroll_bot st) (-1) (bg st) ∧
               st' = put_target st (active_target st) (Some b')
     else st' = set_row st (Z.max (cursor_row st - 1) 0)).
Proof.
  intros Hwf. pose proof (ws_cursor _ _ _ Hwf) as [Hr Hc].
  assert (∀ k, k = cursor_row st → set_row st k = st) as Hid by (intros k ->; by destruct st).
  split.
  - pose proof (vt_state_index_ok R C st Hwf) as H. apply yields_Some in H as (st' & E & Hwf' & H).
    exists st'. split_and!; [done | done |]. destruct (cursor_row st =? scroll_bot st - 1); [done |].
    rewrite H. destruct (Z.ltb_spec (cursor_row st) (R - 1)); [by rewrite Z.min_l by lia |].
    symmetry. apply Hid. lia.
  - pose proof (vt_state_reverse_index_ok R C st Hwf) as H. apply yields_Some in H as (st' & E & Hwf' & H).
    exists st'. split_and!; [done | done |]. destruct (cursor_row st =? scroll_top st); [done |].
    rewrite H. destruct (Z.ltb_spec 0 (cursor_row st)); [by rewrite Z.max_l by lia |].
    symmetry. apply Hid. lia.
Qed.

Lemma index_scrolls_at_margin_witness :
  (∃ st', vt_state_index demo_state = Some st' ∧ wf_state 3 5 st' ∧
     if cursor_row demo_state =? scroll_bot demo_state - 1 then
       ∃ b b', cur_buf demo_state = Some b ∧
               scrolls 3 5 b b' (scroll_top demo_state) (scroll_bot demo_state) 1 (bg demo_state) ∧
               st' = put_target demo_state (active_target demo_state) (Some b')
     else st' = set_row demo_state (Z.min (cursor_row demo_state + 1) (3 - 1))) ∧
  (∃ st', vt_state_reverse_index demo_state = Some st' ∧ wf_state 3 5 st' ∧
     if cursor_row demo_state =? scroll_top demo_state then
       ∃ b b', cur_buf demo_state = Some b ∧
               scrolls 3 5 b b' (scroll_top demo_state) (scroll_bot demo_state) (-1) (bg demo_state) ∧
               st' = put_target demo_state (active_target demo_state) (Some b')
     else st' = set_row demo_state (Z.max (cursor_row demo_state - 1) 0)).
Proof. exact (index_scrolls_at_margin 3 5 demo_state demo_wf). Defined.

(** Wrapping marks the row and starts the next line. *)
Definition wrapped_line (st : vt_state) : option vt_state :=
  st ← with_row st (cursor_row st) (λ r, Some {| r with row_flags := set_bits (row_flags r) VT_ROW_WRAPPED |});
  vt_state_index (set_col st 0).

Lemma wrapped_line_ok R C st :
  wf_state R C st →
  yields (wrapped_line st) (λ st', wf_state R C st' ∧ cursor_col st' = 0 ∧ modes st' = modes st).
Proof.
  intros Hwf. pose proof (ws_cursor _ _ _ Hwf) as [Hr Hc]. unfold wrapped_line.
  eapply yields_seq; [apply (with_row_ok R C); [done | done |]; by intros r Hok |].
  intros st1 (Hwf1 & b & r & r' & _ & _ & _ & _ & Est1).
  pose proof (ws_dims _ _ _ Hwf) as [_ HC].
  assert (wf_state R C (set_col st1 0)) as Hwf2 by (clear -Hwf1 HC; wf_fields).
  eapply yields_mono; [by apply (vt_state_index_ok R C) |]. intros st2 (Hwf' & H). split; [done |].
  assert (modes st1 = modes st) as Hm by (by rewrite Est1).
  case_match.
  - destruct H as (b1 & b2 & _ & _ & ->). by rewrite <- Hm.
  - rewrite H. case_match; by rewrite <- Hm.
Qed.

(** A glyph of [w] columns at the cursor of [st]: the row it makes and where
    the cursor goes. *)
Definition glyph_put (C : Z) (st : vt_state) (cp w : Z) (st' : vt_state) : Prop :=
  ∃ b r, cur_buf st = Some b ∧ aget (grid b) (cursor_row st) = Some r ∧
    st' = set_col (put_target st (active_target st) (Some (with_grid_row b (cursor_row st)
            (put_row C (cursor_col st) w (glyph st cp w) r)))) (advance C st w).

(** Printing a character never traps and never splits a glyph over a line
    end: if it fits, its cell (and continuation) is written at the cursor, which
    advances to at most one past the last column; if it does not and autowrap
    is on, the row is marked wrapped and the glyph goes to the start of the
    next line (scrolling at the margin), and without autowrap it is drawn
    flush with the right edge. *)
Theorem putchar_fits_or_wraps R C st cp w :
  wf_state R C st → 1 <= w <= 2 → w <= C → has_bits (modes st) VT_MODE_INSERT = false →
  ∃ st', vt_state_putchar st cp w = Some st' ∧ wf_state R C st' ∧
    if cursor_col st + w <=? C then glyph_put C st cp w st'
    else if has_bits (modes st) VT_MODE_AUTOWRAP
    then ∃ st1, wrapped_line st = Some st1 ∧ cursor_col st1 = 0 ∧ glyph_put C st1 cp w st'
    else glyph_put C (set_col st (C - w)) cp w st'.
Proof.
  intros Hwf Hw HwC Hins. rewrite (vt_state_putchar_eq R C) by done.
  assert (∀ st1, wf_state R C st1 → has_bits (modes st1) VT_MODE_INSERT = false → cursor_col st1 + w <= C →
    ∃ st', (st ← put_insert st1 C w; put_glyph st C cp w) = Some st' ∧ wf_state R C st' ∧
      glyph_put C st1 cp w st') as Hput.
  { intros st1 Hwf1 Hi1 Hfit.
    pose proof (vt_state_putchar_fits R C st1 cp w Hwf1 ltac:(lia) Hfit ltac:(lia) Hi1) as H.
    rewrite (vt_state_putchar_eq R C) in H by done.
    assert (put_wrap st1 C w = Some st1) as E1
      by (unfold put_wrap; by rewrite (proj2 (Z.ltb_ge C (cursor_col st1 + w)) Hfit)).
    rewrite E1 in H. cbn [mbind option_bind] in H. by apply yields_Some in H as (st' & E & Hwf' & H); exists st'. }
  unfold put_wrap. destruct (Z.leb_spec (cursor_col st + w) C), (Z.ltb_spec C (cursor_col st + w)); try lia.
  { by apply Hput. }
  destruct (has_bits (modes st) VT_MODE_AUTOWRAP).
  - pose proof (wrapped_line_ok R C st Hwf) as H'. apply yields_Some in H' as (st1 & E1 & Hwf1 & Hc1 & Hm1).
    change (with_row st (cursor_row st) _ ≫= _) with (wrapped_line st). rewrite E1. cbn [mbind option_bind].
    destruct (Hput st1 Hwf1) as (st' & E & Hwf' & H'); [by rewrite Hm1 | lia |].
    exists st'. split_and!; [done | done |]. by exists st1.
  - replace (if w <? C then C - w else 0) with (C - w) by zbool. cbn [mbind option_bind].
    apply Hput; [| done | simpl; lia]. pose proof (ws_cursor _ _ _ Hwf) as [Hr Hc].
    clear -Hwf Hw HwC Hr Hc. wf_fields.
Qed.

Lemma putchar_fits_or_wraps_witness :
  ∃ st', vt_state_putchar (set_col demo_state 4) 0x4E00 2 = Some st' ∧ wf_state 3 5 st' ∧
    if cursor_col (set_col demo_state 4) + 2 <=? 5 then glyph_put 5 (set_col demo_state 4) 0x4E00 2 st'
    else if has_bits (modes (set_col demo_state 4)) VT_MODE_AUTOWRAP
    then ∃ st1, wrapped_line (set_col demo_state 4) = Some st1 ∧ cursor_col st1 = 0 ∧
                glyph_put 5 st1 0x4E00 2 st'
    else glyph_put 5 (set_col (set_col demo_state 4) (5 - 2)) 0x4E00 2 st'.
Proof.
  apply (putchar_fits_or_wraps 3 5 (set_col demo_state 4) 0x4E00 2); try lia.
  - pose proof demo_wf. wf_fields.
  - reflexivity.
Defined.
