(* ===== verification/VtOps.v ===== *)
(** * From parser actions to terminal state (src/libvt/vt_ops.c)

    The callbacks of [default_ops]: what each control function does to the
    state, and the whole path from bytes to the screen ([vt_feed]).  The main
    result is that no input can make it trap, and that it keeps the invariant
    of the state. *)

From S2P Require Import Prelude Utf8 WidthTables RuneWidth VtBuf VtParse Decimal VtState.

(** [switch (c) { case k: return x; ... default: return d; }] *)
Fixpoint switch {A} (c : Z) (cases : list (Z * A)) (d : A) : A :=
  match cases with
  | [] => d
  | (k, x) :: cases' => if c =? k then x else switch c cases' d
  end.

Lemma switch_ok {A} (P : A → Prop) c cases d :
  Forall (λ kx, P kx.2) cases → P d → P (switch c cases d).
Proof. induction 1 as [|[k x] cases Hx Hc IH]; simpl; [done |]. intros Hd. case_match; auto. Qed.

(** ** Helpers *)

Definition param_or (params : list Z) (idx def : Z) : Z :=
  match aget params idx with
  | Some n => if 0 <=? n then n else def
  | None => def
  end.

(** [write] is taken to accept what it is given. *)
Definition vt_reply (st : vt_state) (data : list Z) : vt_state :=
  if reply_fd st <? 0 then st else {| st with reply_out := reply_out st ++ data |}.

(** [snprintf] into a buffer of [cap] bytes followed by a reply of the length
    it returned: reading past the buffer is a trap. *)
Definition reply_buf (st : vt_state) (cap : Z) (data : list Z) : option vt_state :=
  if zlen data <? cap then Some (vt_reply st data) else None.

Definition dec_line_drawing : list Z :=
  [0x00A0; 0x25C6; 0x2592; 0x2409; 0x240C; 0x240D; 0x240A; 0x00B0;
   0x00B1; 0x2424; 0x240B; 0x2518; 0x2510; 0x250C; 0x2514; 0x253C;
   0x23BA; 0x23BB; 0x2500; 0x23BC; 0x23BD; 0x251C; 0x2524; 0x2534;
   0x252C; 0x2502; 0x2264; 0x2265; 0x03C0; 0x2260; 0x00A3; 0x00B7].

(** ** Print and execute *)

Definition op_print (st : vt_state) (cp width : Z) : option vt_state :=
  let active_set := if charset st =? 0 then g0_set st else g1_set st in
  cp ← (if (active_set =? 1) && (0x5F <=? cp) && (cp <=? 0x7E)
        then aget dec_line_drawing (cp - 0x5F) else Some cp);
  vt_state_putchar st cp width.

Definition op_execute (st : vt_state) (c : Z) : option vt_state :=
  if c =? 0x07 then Some (if bell_cb st then {| st with bells := bells st + 1 |} else st)
  else if c =? 0x08 then
    Some (if 0 <? cursor_col st then set_col st (cursor_col st - 1) else st)
  else if c =? 0x09 then k ← vt_state_tab_next st (cursor_col st); Some (set_col st k)
  else if (c =? 0x0A) || (c =? 0x0B) || (c =? 0x0C) then vt_state_index st
  else if c =? 0x0D then Some (set_col st 0)
  else if c =? 0x0E then Some {| st with charset := 1 |}
  else if c =? 0x0F then Some {| st with charset := 0 |}
  else Some st.

(** ** SGR

    The pen is [attrs], [fg] and [bg]. *)

Definition pen : Type := Z * vt_color * vt_color.
Definition plain_pen : pen := (0, VT_COLOR_DEFAULT, VT_COLOR_DEFAULT).
Definition pen_of (st : vt_state) : pen := (attrs st, fg st, bg st).
Definition with_pen (st : vt_state) (p : pen) : vt_state := set_pen st p.1.1 p.1.2 p.2.

(** The cases of the switch that read one parameter. *)
Definition sgr_one (p : Z) (pn : pen) : pen :=
  let '(a, f, b) := pn in
  if p =? 0 then plain_pen
  else if p =? 1 then (set_bits a VT_ATTR_BOLD, f, b)
  else if p =? 2 then (set_bits a VT_ATTR_DIM, f, b)
  else if p =? 3 then (set_bits a VT_ATTR_ITALIC, f, b)
  else if p =? 4 then (set_bits a VT_ATTR_UNDERLINE, f, b)
  else if p =? 5 then (set_bits a VT_ATTR_BLINK, f, b)
  else if p =? 7 then (set_bits a VT_ATTR_REVERSE, f, b)
  else if p =? 8 then (set_bits a VT_ATTR_HIDDEN, f, b)
  else if p =? 9 then (set_bits a VT_ATTR_STRIKE, f, b)
  else if p =? 21 then (clear_bits a VT_ATTR_BOLD, f, b)
  else if p =? 22 then (clear_bits a (set_bits VT_ATTR_BOLD VT_ATTR_DIM), f, b)
  else if p =? 23 then (clear_bits a VT_ATTR_ITALIC, f, b)
  else if p =? 24 then (clear_bits a VT_ATTR_UNDERLINE, f, b)
  else if p =? 25 then (clear_bits a VT_ATTR_BLINK, f, b)
  else if p =? 27 then (clear_bits a VT_ATTR_REVERSE, f, b)
  else if p =? 28 then (clear_bits a VT_ATTR_HIDDEN, f, b)
  else if p =? 29 then (clear_bits a VT_ATTR_STRIKE, f, b)
  else if in_rng 30 37 p then (a, VT_COLOR_INDEXED (u8 (p - 30)), b)
  else if p =? 39 then (a, VT_COLOR_DEFAULT, b)
  else if in_rng 40 47 p then (a, f, VT_COLOR_INDEXED (u8 (p - 40)))
  else if p =? 49 then (a, f, VT_COLOR_DEFAULT)
  else if in_rng 90 97 p then (a, VT_COLOR_INDEXED (u8 (p - 90 + 8)), b)
  else if in_rng 100 107 p then (a, f, VT_COLOR_INDEXED (u8 (p - 100 + 8)))
  else (a, f, b).

(** The extended colour at the head of the parameters after 38 or 48: the
    colour and the parameters left, [None] when nothing is consumed. *)
Definition sgr_extended (rest : list Z) : option (vt_color * list Z) :=
  match rest with
  | m :: rest1 =>
      if m =? 5 then
        match rest1 with n :: rest2 => Some (VT_COLOR_INDEXED (u8 n), rest2) | _ => None end
      else if m =? 2 then
        match rest1 with
        | r :: g :: b :: rest2 => Some (VT_COLOR_RGB (u8 r) (u8 g) (u8 b), rest2)
        | _ => None
        end
      else None
  | [] => None
  end.

(** The loop over the parameters; [i += 2] and [i += 4] drop what an extended
    colour read.  One turn per parameter at most, so their number is enough
    fuel. *)
Fixpoint sgr_loop (fuel : nat) (params : list Z) (pn : pen) : pen :=
  match fuel, params with
  | S fuel', p :: rest =>
      let p := if p <? 0 then 0 else p in
      let '(a, f, b) := pn in
      if p =? 38 then
        match sgr_extended rest with
        | Some (c, rest') => sgr_loop fuel' rest' (a, c, b)
        | None => sgr_loop fuel' rest pn
        end
      else if p =? 48 then
        match sgr_extended rest with
        | Some (c, rest') => sgr_loop fuel' rest' (a, f, c)
        | None => sgr_loop fuel' rest pn
        end
      else sgr_loop fuel' rest (sgr_one p pn)
  | _, _ => pn
  end.

Definition csi_sgr (st : vt_state) (params : list Z) : vt_state :=
  if zlen params =? 0 then with_pen st plain_pen
  else with_pen st (sgr_loop (length params) params (pen_of st)).

(** ** Erasing, inserting and deleting *)

(** [vt_cell_erase] on columns [lo, hi) of a row, and the dirty flag. *)
Definition erase_dirty (lo hi : Z) (bgc : vt_color) (r : vt_row) : option vt_row :=
  r ← row_erase lo hi bgc r; Some (row_dirty r).

Definition csi_erase_display (st : vt_state) (mode : Z) : option vt_state :=
  b ← cur_buf st;
  let rows := buf_rows b in
  let cols := buf_cols b in
  if mode =? 0 then
    st ← with_row st (cursor_row st) (erase_dirty (cursor_col st) cols (bg st));
    upd_buf st (λ b, vt_buf_clear_rows b (cursor_row st + 1) rows (bg st))
  else if mode =? 1 then
    st ← upd_buf st (λ b, vt_buf_clear_rows b 0 (cursor_row st) (bg st));
    with_row st (cursor_row st)
      (erase_dirty 0 (if cursor_col st + 1 <? cols then cursor_col st + 1 else cols) (bg st))
  else if (mode =? 2) || (mode =? 3) then upd_buf st (λ b, vt_buf_clear_rows b 0 rows (bg st))
  else Some st.

Definition csi_erase_line (st : vt_state) (mode : Z) : option vt_state :=
  b ← cur_buf st;
  let cols := buf_cols b in
  if mode =? 0 then with_row st (cursor_row st) (erase_dirty (cursor_col st) cols (bg st))
  else if mode =? 1 then
    let e := cursor_col st + 1 in
    with_row st (cursor_row st) (erase_dirty 0 (if cols <? e then cols else e) (bg st))
  else if mode =? 2 then with_row st (cursor_row st) (erase_dirty 0 cols (bg st))
  else Some st.

Definition csi_insert_lines (st : vt_state) (count : Z) : option vt_state :=
  if (cursor_row st <? scroll_top st) || (scroll_bot st <=? cursor_row st) then Some st
  else upd_buf st (λ b, vt_buf_scroll b (cursor_row st) (scroll_bot st) (- count) (bg st)).

Definition csi_delete_lines (st : vt_state) (count : Z) : option vt_state :=
  if (cursor_row st <? scroll_top st) || (scroll_bot st <=? cursor_row st) then Some st
  else upd_buf st (λ b, vt_buf_scroll b (cursor_row st) (scroll_bot st) count (bg st)).

Definition csi_insert_chars (st : vt_state) (count : Z) : option vt_state :=
  b ← cur_buf st;
  let cols := buf_cols b in
  let count := if cols - cursor_col st <? count then cols - cursor_col st else count in
  with_row st (cursor_row st) (λ r,
    cs ← for_down (cols - 1) (cursor_col st + count) (λ i cs, v ← aget cs (i - count); aset cs i v) (cells r);
    erase_dirty (cursor_col st) (cursor_col st + count) (bg st) {| r with cells := cs |}).

Definition csi_delete_chars (st : vt_state) (count : Z) : option vt_state :=
  b ← cur_buf st;
  let cols := buf_cols b in
  let count := if cols - cursor_col st <? count then cols - cursor_col st else count in
  with_row st (cursor_row st) (λ r,
    cs ← for_up (cursor_col st) (cols - count) (λ i cs, v ← aget cs (i + count); aset cs i v) (cells r);
    erase_dirty (cols - count) cols (bg st) {| r with cells := cs |}).

Definition csi_erase_chars (st : vt_state) (count : Z) : option vt_state :=
  b ← cur_buf st;
  let cols := buf_cols b in
  let count := if cols - cursor_col st <? count then cols - cursor_col st else count in
  with_row st (cursor_row st) (erase_dirty (cursor_col st) (cursor_col st + count) (bg st)).

(** ** CSI dispatch *)

Definition add_mode (st : vt_state) (m : Z) : vt_state := set_modes st (set_bits (modes st) m).
Definition del_mode (st : vt_state) (m : Z) : vt_state := set_modes st (clear_bits (modes st) m).
Definition set_mouse (st : vt_state) (n : Z) : vt_state := {| st with mouse_mode := n |}.

(** [CSI ? Ps h] *)
Definition csi_decset (st : vt_state) (n : Z) : option vt_state :=
  switch n
    [(1, Some (add_mode st VT_MODE_DECCKM));
     (6, Some (set_cursor (add_mode st VT_MODE_ORIGIN) (scroll_top st) 0));
     (7, Some (add_mode st VT_MODE_AUTOWRAP));
     (25, Some (add_mode st VT_MODE_CURSOR_VIS));
     (47, vt_state_altscreen_enter st);
     (1047, vt_state_altscreen_enter st);
     (1049, vt_state_altscreen_enter st);
     (1000, Some (add_mode (set_mouse st n) VT_MODE_MOUSE));
     (1002, Some (add_mode (set_mouse st n) VT_MODE_MOUSE));
     (1003, Some (add_mode (set_mouse st n) VT_MODE_MOUSE));
     (2004, Some (add_mode st VT_MODE_BRACKETPASTE))]
    (Some st).

(** [CSI ? Ps l] *)
Definition csi_decrst (st : vt_state) (n : Z) : option vt_state :=
  switch n
    [(1, Some (del_mode st VT_MODE_DECCKM));
     (6, Some (set_cursor (del_mode st VT_MODE_ORIGIN) 0 0));
     (7, Some (del_mode st VT_MODE_AUTOWRAP));
     (25, Some (del_mode st VT_MODE_CURSOR_VIS));
     (47, vt_state_altscreen_leave st);
     (1047, vt_state_altscreen_leave st);
     (1049, vt_state_altscreen_leave st);
     (1000, Some (del_mode (set_mouse st 0) VT_MODE_MOUSE));
     (1002, Some (del_mode (set_mouse st 0) VT_MODE_MOUSE));
     (1003, Some (del_mode (set_mouse st 0) VT_MODE_MOUSE));
     (2004, Some (del_mode st VT_MODE_BRACKETPASTE))]
    (Some st).

Definition csi_private (st : vt_state) (params : list Z) (final : Z) : option vt_state :=
  let n := param_or params 0 0 in
  switch final
    [(ch "h", csi_decset st n);
     (ch "l", csi_decrst st n);
     (ch "u", reply_buf st 16 (27 :: str "[?" ++ fmt_d (kitty_kbd_flags st) ++ str "u"));
     (ch "m", if n =? 4
              then reply_buf st 24 (27 :: str "[>4;" ++ fmt_d (modify_other_keys st) ++ str "m")
              else Some st)]
    (Some st).

(** The row of CUP and VPA. *)
Definition goto_row (st : vt_state) (n : Z) : vt_state :=
  if has_bits (modes st) VT_MODE_ORIGIN then
    let r := scroll_top st + n - 1 in
    set_row st (if scroll_bot st <=? r then scroll_bot st - 1 else r)
  else set_row st (n - 1).

(** [for (; n > 0; n--) cursor_col = vt_state_tab_prev(cursor_col)] *)
Definition csi_back_tab (st : vt_state) (n : Z) : option vt_state :=
  for_down n 1 (λ _ st, k ← vt_state_tab_prev st (cursor_col st); Some (set_col st k)) st.

Definition csi_set_region (st : vt_state) (rows n m : Z) : vt_state :=
  let n := if n <? 1 then 1 else n in
  let m := if rows <? m then rows else m in
  set_cursor (if n <? m then set_region st (n - 1) m else st) 0 0.

(** The final switch of [op_csi]: no private marker, no intermediate. *)
Definition csi_plain (st : vt_state) (params : list Z) (final : Z) : option vt_state :=
  b ← cur_buf st;
  let rows := buf_rows b in
  let cols := buf_cols b in
  let n1 := param_or params 0 1 in
  let n0 := param_or params 0 0 in
  let up r := if r <? 0 then 0 else r in
  let down r := if rows <=? r then rows - 1 else r in
  switch final
    [(ch "A", Some (set_row st (up (cursor_row st - n1))));
     (ch "B", Some (set_row st (down (cursor_row st + n1))));
     (ch "C", Some (set_col st (let c := cursor_col st + n1 in if cols <=? c then cols - 1 else c)));
     (ch "D", Some (set_col st (let c := cursor_col st - n1 in if c <? 0 then 0 else c)));
     (ch "E", Some (set_cursor st (down (cursor_row st + n1)) 0));
     (ch "F", Some (set_cursor st (up (cursor_row st - n1)) 0));
     (ch "G", vt_state_cursor_clamp (set_col st (n1 - 1)));
     (ch "H", vt_state_cursor_clamp (set_col (goto_row st n1) (param_or params 1 1 - 1)));
     (ch "f", vt_state_cursor_clamp (set_col (goto_row st n1) (param_or params 1 1 - 1)));
     (ch "J", csi_erase_display st n0);
     (ch "K", csi_erase_line st n0);
     (ch "L", csi_insert_lines st n1);
     (ch "M", csi_delete_lines st n1);
     (ch "P", csi_delete_chars st n1);
     (ch "S", upd_buf st (λ b, vt_buf_scroll b (scroll_top st) (scroll_bot st) n1 (bg st)));
     (ch "T", upd_buf st (λ b, vt_buf_scroll b (scroll_top st) (scroll_bot st) (- n1) (bg st)));
     (ch "X", csi_erase_chars st n1);
     (ch "@", csi_insert_chars st n1);
     (ch "c", Some (if n0 =? 0 then vt_reply st (27 :: str "[?1;2c") else st));
     (ch "n", if n0 =? 6 then
                reply_buf st 32 (27 :: str "[" ++ fmt_d (cursor_row st + 1) ++ str ";"
                                 ++ fmt_d (cursor_col st + 1) ++ str "R")
              else Some (if n0 =? 5 then vt_reply st (27 :: str "[0n") else st));
     (ch "d", vt_state_cursor_clamp (goto_row st n1));
     (ch "h", Some (if n0 =? 4 then add_mode st VT_MODE_INSERT else st));
     (ch "l", Some (if n0 =? 4 then del_mode st VT_MODE_INSERT else st));
     (ch "m", Some (csi_sgr st params));
     (ch "r", Some (csi_set_region st rows n1 (param_or params 1 rows)));
     (ch "s", Some (vt_state_cursor_save st));
     (ch "u", vt_state_cursor_restore st);
     (ch "g", if n0 =? 0 then vt_state_tab_clear st (cursor_col st)
              else if n0 =? 3 then vt_state_tab_clear_all st else Some st);
     (ch "t", if n0 =? 22 then vt_state_title_push st
              else if n0 =? 23 then vt_state_title_pop st else Some st);
     (ch "Z", csi_back_tab st n1)]
    (Some st).

Definition op_csi (st : vt_state) (params : list Z) (intermed final : Z) : option vt_state :=
  if intermed =? ch "?" then csi_private st params final
  else if (intermed =? ch " ") && (final =? ch "q") then
    let n := param_or params 0 0 in
    Some (if (0 <=? n) && (n <=? 6) then {| st with cursor_shape := n |} else st)
  else if (intermed =? ch ">") && (final =? ch "u") then vt_state_kitty_push st (param_or params 0 0)
  else if (intermed =? ch "<") && (final =? ch "u") then vt_state_kitty_pop st (param_or params 0 1)
  else if (intermed =? ch "=") && (final =? ch "u") then
    vt_state_kitty_set st (param_or params 0 0) (param_or params 1 1)
  else if (intermed =? ch ">") && (final =? ch "m") then
    Some (if param_or params 0 0 =? 4
          then {| st with modify_other_keys := param_or params 1 0 |} else st)
  else if negb (intermed =? 0) then Some st
  else csi_plain st params final.

(** ** ESC dispatch *)

Definition set_g0 (st : vt_state) (n : Z) : vt_state := {| st with g0_set := n |}.
Definition set_g1 (st : vt_state) (n : Z) : vt_state := {| st with g1_set := n |}.

(** RIS: the fields reset one by one. *)
Definition esc_ris (st : vt_state) : option vt_state :=
  st ← (if has_bits (modes st) VT_MODE_ALTSCREEN then vt_state_altscreen_leave st else Some st);
  b ← cur_buf st;
  st ← vt_state_tab_reset {| (set_region (with_pen st plain_pen) 0 (buf_rows b)) with
    modes := set_bits VT_MODE_AUTOWRAP VT_MODE_CURSOR_VIS;
    charset := 0; g0_set := 0; g1_set := 0;
    cursor_row := 0; cursor_col := 0;
    kitty_kbd_flags := 0; kitty_kbd_depth := 0; modify_other_keys := 0 |};
  csi_erase_display st 2.

Definition op_esc (st : vt_state) (intermed final : Z) : option vt_state :=
  if intermed =? 0 then
    switch final
      [(ch "7", Some (vt_state_cursor_save st));
       (ch "8", vt_state_cursor_restore st);
       (ch "D", vt_state_index st);
       (ch "E", vt_state_index (set_col st 0));
       (ch "H", vt_state_tab_set st (cursor_col st));
       (ch "M", vt_state_reverse_index st);
       (ch "=", Some (add_mode st VT_MODE_DECKPAM));
       (ch ">", Some (del_mode st VT_MODE_DECKPAM));
       (ch "c", esc_ris st)]
      (Some st)
  else if intermed =? ch "(" then
    Some (switch final [(ch "B", set_g0 st 0); (ch "0", set_g0 st 1)] st)
  else if intermed =? ch ")" then
    Some (switch final [(ch "B", set_g1 st 0); (ch "0", set_g1 st 1)] st)
  else Some st.

(** ** OSC dispatch *)

Definition osc_color_reply (st : vt_state) (num : Z) : vt_state :=
  match (if num =? 10 then term_fg st else term_bg st) with
  | None => st
  | Some spec =>
      let rep := (27 :: str "]") ++ fmt_d num ++ str ";" ++ spec ++ [27] ++ str "\" in
      if zlen rep <? 96 then vt_reply st rep else st
  end.

(** [memchr(data, ';', len)]: the bytes before and after the first one. *)
Fixpoint split_semi (data : list Z) : option (list Z * list Z) :=
  match data with
  | [] => None
  | c :: data' =>
      if c =? ch ";" then Some ([], data')
      else match split_semi data' with
           | Some (a, b) => Some (c :: a, b)
           | None => None
           end
  end.

(** The number loop; [None] is the early return on a byte that is no digit.
    [num] is an [int], and a long digit string leaves its range: it is
    wrapped here. *)
Fixpoint osc_num (num : Z) (ds : list Z) : option Z :=
  match ds with
  | [] => Some num
  | c :: ds' => if in_rng (ch "0") (ch "9") c then osc_num (i32 (num * 10 + (c - ch "0"))) ds' else None
  end.

Definition op_osc (st : vt_state) (data : list Z) : vt_state :=
  match split_semi data with
  | None => st
  | Some (ds, rest) =>
      match osc_num 0 ds with
      | None => st
      | Some num =>
          if (num =? 0) || (num =? 2) then {| st with title := Some rest |}
          else if (num =? 10) || (num =? 11) then
            if bool_decide (rest = str "?") then osc_color_reply st num else st
          else st
      end
  end.

(** ** The whole path from bytes to the screen

    [on_dcs] is the owner's DCS callback, which gets the introducer and the
    data (src/libsession/window.c accounts for kitty images there). *)
Section Feed.
Context (tbl : rune_width_table).
Context (on_dcs : vt_state → Z → list Z → option vt_state).

Definition apply_event (st : vt_state) (ev : vt_event) : option vt_state :=
  match ev with
  | EvPrint cp w => op_print st cp w
  | EvExecute c => op_execute st c
  | EvCsi ps i f => op_csi st ps i f
  | EvEsc i f => op_esc st i f
  | EvOsc data => Some (op_osc st data)
  | EvDcs intro data => on_dcs st intro data
  end.

Fixpoint apply_events (st : vt_state) (evs : list vt_event) : option vt_state :=
  match evs with
  | [] => Some st
  | ev :: evs' => st ← apply_event st ev; apply_events st evs'
  end.

Definition vt_feed (ps : vt_parse * vt_state) (data : list Z) : option (vt_parse * vt_state) :=
  '(p, evs) ← vt_parse_feed tbl ps.1 data;
  st ← apply_events ps.2 evs;
  Some (p, st).
End Feed.

(** ** No operation traps, and the invariant is kept *)

Section OpsOk.
Context (R C : Z).
Implicit Types (st : vt_state).

Lemma wf_set_cursor st r c :
  wf_state R C st → 0 <= r < R → 0 <= c <= C → wf_state R C (set_cursor st r c).
Proof. intros. wf_fields. Qed.

Lemma wf_set_row st r : wf_state R C st → 0 <= r < R → wf_state R C (set_row st r).
Proof. intros. wf_fields. Qed.

Lemma wf_set_col st c : wf_state R C st → 0 <= c <= C → wf_state R C (set_col st c).
Proof. intros. wf_fields. Qed.

Lemma wf_set_modes st m :
  wf_state R C st → has_bits m VT_MODE_ALTSCREEN = has_bits (modes st) VT_MODE_ALTSCREEN →
  wf_state R C (set_modes st m).
Proof. intros ? E. wf_fields. by rewrite E. Qed.

Lemma wf_add_mode st m :
  wf_state R C st → has_bits m VT_MODE_ALTSCREEN = false → wf_state R C (add_mode st m).
Proof. intros ? E. apply wf_set_modes; [done |]. by rewrite has_bits_set, E, orb_false_r. Qed.

Lemma wf_del_mode st m :
  wf_state R C st → Z.land m VT_MODE_ALTSCREEN = 0 → wf_state R C (del_mode st m).
Proof. intros. apply wf_set_modes; [done |]. by apply has_bits_clear. Qed.

Lemma wf_set_mouse st n : wf_state R C st → wf_state R C (set_mouse st n).
Proof. intros. wf_fields. Qed.

Lemma wf_with_pen st p : wf_state R C st → wf_state R C (with_pen st p).
Proof. intros. unfold with_pen. wf_fields. Qed.

Lemma wf_csi_sgr st ps : wf_state R C st → wf_state R C (csi_sgr st ps).
Proof. intros. unfold csi_sgr. case_match; by apply wf_with_pen. Qed.

Lemma wf_vt_reply st data : wf_state R C st → wf_state R C (vt_reply st data).
Proof. intros. unfold vt_reply. case_match; [done | wf_fields]. Qed.

Lemma reply_buf_ok st cap data :
  wf_state R C st → zlen data < cap → yields (reply_buf st cap data) (wf_state R C).
Proof.
  intros. unfold reply_buf. destruct (Z.ltb_spec (zlen data) cap); [| lia].
  by apply wf_vt_reply.
Qed.

(** *** Parameters *)

Lemma param_or_range ps i d :
  Forall param_ok ps → 0 <= d <= PARAM_MAX → 0 <= param_or ps i d <= PARAM_MAX.
Proof.
  intros Hps Hd. unfold param_or. destruct (aget ps i) as [n|] eqn:E; [| done].
  rewrite Forall_aget in Hps. specialize (Hps i n E). unfold param_ok in Hps. zbool.
Qed.

Lemma param_or_nonneg ps i d : 0 <= d → 0 <= param_or ps i d.
Proof. unfold param_or. intros. case_match; [zbool | done]. Qed.

Lemma param_flags ps i d :
  Forall param_ok ps → 0 <= d <= PARAM_MAX → flags_ok (param_or ps i d).
Proof.
  intros Hps Hd. pose proof (param_or_range ps i d Hps Hd). unfold flags_ok, FLAGS_MAX, PARAM_MAX in *. lia.
Qed.

(** *** Print and execute *)

Lemma op_print_ok st cp w :
  wf_state R C st → 0 <= w <= 2 → yields (op_print st cp w) (wf_state R C).
Proof.
  intros Hwf Hw. unfold op_print.
  set (a := if charset st =? 0 then g0_set st else g1_set st). clearbody a.
  destruct ((a =? 1) && (95 <=? cp) && (cp <=? 126)) eqn:E.
  - destruct (aget_in dec_line_drawing (cp - 95)) as [x Hx]; [unfold zlen; simpl; lia |].
    rewrite Hx. cbn [mbind option_bind]. by apply vt_state_putchar_wf.
  - by apply vt_state_putchar_wf.
Qed.

Lemma op_execute_ok st c : wf_state R C st → yields (op_execute st c) (wf_state R C).
Proof.
  intros Hwf. pose proof (ws_cursor _ _ _ Hwf) as [Hrow Hcol]. pose proof (ws_dims _ _ _ Hwf).
  unfold op_execute. repeat case_match; try by apply vt_state_index_wf.
  - wf_fields.
  - done.
  - apply wf_set_col; [done | lia].
  - done.
  - eapply yields_seq; [by apply (vt_state_tab_next_ok R C) |]. intros k (Hk & _).
    apply wf_set_col; [done | lia].
  - apply wf_set_col; [done | lia].
  - wf_fields.
  - wf_fields.
  - done.
Qed.

(** *** Erasing, inserting, deleting *)

Lemma erase_dirty_ok lo hi bgc r :
  row_ok C r → 0 <= lo → hi <= C →
  erase_dirty lo hi bgc r = Some (row_dirty (erased lo hi bgc r)).
Proof. intros. unfold erase_dirty. by rewrite (row_erase_eq C) by done. Qed.

Lemma erase_dirty_row lo hi bgc r :
  row_ok C r → 0 <= lo → hi <= C → yields (erase_dirty lo hi bgc r) (row_ok C).
Proof. intros. rewrite erase_dirty_ok by done. simpl. by apply row_ok_erased. Qed.

Lemma clear_rows_wf st from to bgc :
  wf_state R C st → yields (upd_buf st (λ b, vt_buf_clear_rows b from to bgc)) (wf_state R C).
Proof.
  intros Hwf. apply upd_buf_wf; [done |]. intros b h _ Hr.
  eapply yields_mono; [by apply vt_buf_clear_rows_repr |]. intros b' [Hb' _]. by exists h.
Qed.

(** The cursor and the pen survive a change of the screen's contents. *)
Lemma with_row_frame st row f :
  wf_state R C st → 0 <= row < R → (∀ r, row_ok C r → yields (f r) (row_ok C)) →
  yields (with_row st row f) (λ st', wf_state R C st' ∧ ∃ b, st' = put_target st (active_target st) (Some b)).
Proof.
  intros. eapply yields_mono; [by apply with_row_ok |].
  intros st' (? & b & r & r' & _ & _ & _ & _ & ->). split; [done | by eexists].
Qed.

Lemma csi_erase_display_ok st mode :
  wf_state R C st → yields (csi_erase_display st mode) (wf_state R C).
Proof.
  intros Hwf. pose proof (ws_cursor _ _ _ Hwf) as [Hrow Hcol].
  destruct (cur_buf_ok _ _ _ Hwf) as (b & Hb & h & Hr).
  unfold csi_erase_display. rewrite Hb. cbn [mbind option_bind].
  rewrite (br_rows _ _ _ _ Hr), (br_cols _ _ _ _ Hr).
  repeat case_match; [| | by apply clear_rows_wf | done].
  - eapply yields_seq.
    + apply with_row_wf; [done | done |]. intros r Hok. apply erase_dirty_row; [done | lia | lia].
    + intros st1 Hwf1. by apply clear_rows_wf.
  - eapply yields_seq; [apply (upd_buf_ok R C st _ (λ _ _, True)); [done |] |].
    + intros b0 h0 _ Hr0. eapply yields_mono; [by apply vt_buf_clear_rows_repr |].
      intros b' [Hb' _]. split; [by exists h0 | done].
    + intros st1 (Hwf1 & b0 & b1 & _ & _ & ->). apply with_row_wf; [done | done |].
      intros r Hok. apply erase_dirty_row; [done | lia | simpl; zbool].
Qed.

Lemma csi_erase_line_ok st mode :
  wf_state R C st → yields (csi_erase_line st mode) (wf_state R C).
Proof.
  intros Hwf. pose proof (ws_cursor _ _ _ Hwf) as [Hrow Hcol].
  destruct (cur_buf_ok _ _ _ Hwf) as (b & Hb & h & Hr).
  unfold csi_erase_line. rewrite Hb. cbn [mbind option_bind]. rewrite (br_cols _ _ _ _ Hr).
  repeat case_match; try done; apply with_row_wf; try done; intros r Hok;
    apply erase_dirty_row; try done; lia.
Qed.

Lemma csi_insert_lines_ok st n : wf_state R C st → yields (csi_insert_lines st n) (wf_state R C).
Proof. intros. unfold csi_insert_lines. case_match; [done | by apply scroll_wf]. Qed.

Lemma csi_delete_lines_ok st n : wf_state R C st → yields (csi_delete_lines st n) (wf_state R C).
Proof. intros. unfold csi_delete_lines. case_match; [done | by apply scroll_wf]. Qed.

(** The row functions of the three character operations. *)
Definition chars_inserted (col n : Z) (bgc : vt_color) (r : vt_row) : vt_row :=
  row_dirty (erased col (col + n) bgc {| r with cells :=
    zmap (λ i y, if (col + n <=? i) && (i <=? C - 1) then default y (aget (cells r) (i - n)) else y) (cells r) |}).

Definition chars_deleted (col n : Z) (bgc : vt_color) (r : vt_row) : vt_row :=
  row_dirty (erased (C - n) C bgc {| r with cells :=
    zmap (λ i y, if (col <=? i) && (i <? C - n) then default y (aget (cells r) (i + n)) else y) (cells r) |}).

Lemma insert_chars_row st r n :
  wf_state R C st → row_ok C r → 0 <= n <= C - cursor_col st →
  (cs ← for_down (C - 1) (cursor_col st + n) (λ i cs, v ← aget cs (i - n); aset cs i v) (cells r);
   erase_dirty (cursor_col st) (cursor_col st + n) (bg st) {| r with cells := cs |}) =
  Some (chars_inserted (cursor_col st) n (bg st) r).
Proof.
  unfold row_ok. intros Hwf Hok Hn. pose proof (ws_cursor _ _ _ Hwf) as [Hrow Hcol].
  rewrite for_down_move by lia. cbn [mbind option_bind].
  apply erase_dirty_ok; [| lia | lia]. unfold row_ok. simpl. by rewrite zlen_zmap.
Qed.

Lemma delete_chars_row st r n :
  wf_state R C st → row_ok C r → 0 <= n <= C - cursor_col st →
  (cs ← for_up (cursor_col st) (C - n) (λ i cs, v ← aget cs (i + n); aset cs i v) (cells r);
   erase_dirty (C - n) C (bg st) {| r with cells := cs |}) =
  Some (chars_deleted (cursor_col st) n (bg st) r).
Proof.
  unfold row_ok. intros Hwf Hok Hn. pose proof (ws_cursor _ _ _ Hwf) as [Hrow Hcol].
  rewrite for_up_move by lia. cbn [mbind option_bind].
  apply erase_dirty_ok; [| lia | lia]. unfold row_ok. simpl. by rewrite zlen_zmap.
Qed.

Lemma row_ok_chars_inserted col n bgc r : row_ok C r → row_ok C (chars_inserted col n bgc r).
Proof. unfold row_ok, chars_inserted, erased. simpl. by rewrite zlen_fill, zlen_zmap. Qed.

Lemma row_ok_chars_deleted col n bgc r : row_ok C r → row_ok C (chars_deleted col n bgc r).
Proof. unfold row_ok, chars_deleted, erased. simpl. by rewrite zlen_fill, zlen_zmap. Qed.

(** A change of the cursor's row by a total function on rows. *)
Definition row_changed st st' (g : vt_row → vt_row) : Prop :=
  ∃ b r, cur_buf st = Some b ∧ aget (grid b) (cursor_row st) = Some r ∧ row_ok C r ∧
    st' = put_target st (active_target st) (Some (with_grid_row b (cursor_row st) (g r))).

Lemma cursor_row_ok st f g :
  wf_state R C st → (∀ r, row_ok C r → f r = Some (g r)) → (∀ r, row_ok C r → row_ok C (g r)) →
  yields (with_row st (cursor_row st) f) (λ st', wf_state R C st' ∧ row_changed st st' g).
Proof.
  intros Hwf Hf Hg. pose proof (ws_cursor _ _ _ Hwf) as [Hrow Hcol].
  eapply yields_mono; [apply (with_row_ok R C st (cursor_row st) f); [done | done |] |].
  - intros r Hr. rewrite Hf by done. simpl. by apply Hg.
  - intros st' (Hwf' & b & r & r' & Hb & Er & Hok & Hfr & ->). split; [done |].
    rewrite Hf in Hfr by done. injection Hfr as <-. by exists b, r.
Qed.

Lemma csi_insert_chars_ok st n :
  wf_state R C st → 0 <= n →
  yields (csi_insert_chars st n) (λ st', wf_state R C st' ∧
    row_changed st st' (chars_inserted (cursor_col st) (Z.min n (C - cursor_col st)) (bg st))).
Proof.
  intros Hwf Hn. pose proof (ws_cursor _ _ _ Hwf) as [Hrow Hcol].
  destruct (cur_buf_ok _ _ _ Hwf) as (b & Hb & h & Hr).
  unfold csi_insert_chars. rewrite Hb. cbn [mbind option_bind]. rewrite (br_cols _ _ _ _ Hr).
  replace (if C - cursor_col st <? n then C - cursor_col st else n)
    with (Z.min n (C - cursor_col st)) by zbool.
  apply cursor_row_ok; [done | |]; intros r Hok.
  - apply insert_chars_row; (done || lia).
  - by apply row_ok_chars_inserted.
Qed.

Lemma csi_delete_chars_ok st n :
  wf_state R C st → 0 <= n →
  yields (csi_delete_chars st n) (λ st', wf_state R C st' ∧
    row_changed st st' (chars_deleted (cursor_col st) (Z.min n (C - cursor_col st)) (bg st))).
Proof.
  intros Hwf Hn. pose proof (ws_cursor _ _ _ Hwf) as [Hrow Hcol].
  destruct (cur_buf_ok _ _ _ Hwf) as (b & Hb & h & Hr).
  unfold csi_delete_chars. rewrite Hb. cbn [mbind option_bind]. rewrite (br_cols _ _ _ _ Hr).
  replace (if C - cursor_col st <? n then C - cursor_col st else n)
    with (Z.min n (C - cursor_col st)) by zbool.
  apply cursor_row_ok; [done | |]; intros r Hok.
  - apply delete_chars_row; (done || lia).
  - by apply row_ok_chars_deleted.
Qed.

Lemma csi_erase_chars_ok st n :
  wf_state R C st → 0 <= n →
  yields (csi_erase_chars st n) (λ st', wf_state R C st' ∧
    row_changed st st' (λ r, row_dirty (erased (cursor_col st)
      (cursor_col st + Z.min n (C - cursor_col st)) (bg st) r))).
Proof.
  intros Hwf Hn. pose proof (ws_cursor _ _ _ Hwf) as [Hrow Hcol].
  destruct (cur_buf_ok _ _ _ Hwf) as (b & Hb & h & Hr).
  unfold csi_erase_chars. rewrite Hb. cbn [mbind option_bind]. rewrite (br_cols _ _ _ _ Hr).
  replace (if C - cursor_col st <? n then C - cursor_col st else n)
    with (Z.min n (C - cursor_col st)) by zbool.
  apply cursor_row_ok; [done | |]; intros r Hok.
  - apply erase_dirty_ok; (done || lia).
  - by apply row_ok_erased.
Qed.
End OpsOk.

(** ** Dispatch *)

Section DispatchOk.
Context (R C : Z).
Implicit Types (st : vt_state).

Ltac each := repeat (apply Forall_cons; split; cbn [snd]); try (by apply Forall_nil).

(** Drop the functional part of an operation's specification. *)
Ltac only_wf L := eapply yields_mono; [apply L | by intros ? [? _]].

Lemma csi_decset_ok st n : wf_state R C st → yields (csi_decset st n) (wf_state R C).
Proof.
  intros Hwf. pose proof (ws_region _ _ _ Hwf). pose proof (ws_dims _ _ _ Hwf).
  apply (switch_ok (λ m, yields m (wf_state R C))); [| done]. each;
    try (by apply wf_add_mode); try (by only_wf vt_state_altscreen_enter_ok);
    try (by apply wf_add_mode; [apply wf_set_mouse |]).
  apply wf_set_cursor; [by apply wf_add_mode | lia | lia].
Qed.

Lemma csi_decrst_ok st n : wf_state R C st → yields (csi_decrst st n) (wf_state R C).
Proof.
  intros Hwf. pose proof (ws_dims _ _ _ Hwf).
  apply (switch_ok (λ m, yields m (wf_state R C))); [| done]. each;
    try (by apply wf_del_mode); try (by only_wf vt_state_altscreen_leave_ok);
    try (by apply wf_del_mode; [apply wf_set_mouse |]).
  apply wf_set_cursor; [by apply wf_del_mode | lia | lia].
Qed.

Lemma flags_digits f : flags_ok f → 1 <= zlen (fmt_d f) <= 7.
Proof.
  intros Hf. unfold flags_ok, FLAGS_MAX in Hf. rewrite fmt_d_nonneg by lia.
  apply dump_fmt_int_length; lia.
Qed.

Lemma dim_digits n : 0 <= n <= DIM_MAX + 1 → 1 <= zlen (fmt_d n) <= 10.
Proof. unfold DIM_MAX. intros. rewrite fmt_d_nonneg by lia. apply dump_fmt_int_length; lia. Qed.

Ltac reply_len := rewrite !zlen_cons, !zlen_app; unfold zlen at 1; simpl; unfold zlen in *; simpl; lia.

Lemma csi_private_ok st ps f : wf_state R C st → yields (csi_private st ps f) (wf_state R C).
Proof.
  intros Hwf. destruct (ws_flags _ _ _ Hwf) as (Hk & _ & Hm & _).
  pose proof (flags_digits _ Hk). pose proof (flags_digits _ Hm).
  apply (switch_ok (λ m, yields m (wf_state R C))); [| done]. each.
  - by apply csi_decset_ok.
  - by apply csi_decrst_ok.
  - apply reply_buf_ok; [done | reply_len].
  - case_match; [| done]. apply reply_buf_ok; [done | reply_len].
Qed.

Lemma cursor_clamp_ok st :
  wf_state R C (set_cursor st 0 0) → yields (vt_state_cursor_clamp st) (wf_state R C).
Proof. intros Hwf. destruct (vt_state_cursor_clamp_ok R C st Hwf) as [-> ?]. done. Qed.

Lemma wf_goto_row st n c :
  wf_state R C st → wf_state R C (set_cursor (set_col (goto_row st n) c) 0 0) ∧
                    wf_state R C (set_cursor (goto_row st n) 0 0).
Proof.
  intros Hwf. pose proof (ws_dims _ _ _ Hwf).
  unfold goto_row. case_match; split; wf_fields.
Qed.

Lemma csi_back_tab_ok st n : wf_state R C st → yields (csi_back_tab st n) (wf_state R C).
Proof.
  intros Hwf. unfold csi_back_tab. destruct (Z.lt_ge_cases n 0).
  { by rewrite for_down_nop by lia. }
  apply (for_down_inv (λ _, wf_state R C)); [lia | done |].
  intros i s _ Hs. eapply yields_seq; [apply (vt_state_tab_prev_ok R C); [done | apply Hs] |].
  intros k (Hk & _). apply wf_set_col; [done | lia].
Qed.

Lemma csi_set_region_ok st n m :
  wf_state R C st → wf_state R C (csi_set_region st R n m).
Proof.
  intros Hwf. pose proof (ws_dims _ _ _ Hwf). unfold csi_set_region.
  apply wf_set_cursor; [| lia | lia].
  set (n' := if n <? 1 then 1 else n). set (m' := if R <? m then R else m).
  assert (1 <= n' ∧ m' <= R) by (unfold n', m'; zbool). clearbody n' m'.
  destruct (Z.ltb_spec n' m'); [wf_fields | done].
Qed.

Lemma csi_plain_ok st ps f :
  wf_state R C st → Forall param_ok ps → yields (csi_plain st ps f) (wf_state R C).
Proof.
  intros Hwf Hps. destruct (cur_buf_ok _ _ _ Hwf) as (b & Hb & h & Hr).
  pose proof (ws_cursor _ _ _ Hwf) as [Hrow Hcol]. pose proof (ws_dims _ _ _ Hwf).
  unfold csi_plain. rewrite Hb. cbn [mbind option_bind].
  rewrite (br_rows _ _ _ _ Hr), (br_cols _ _ _ _ Hr).
  pose proof (param_or_range ps 0 1 Hps) as Hn1. pose proof (param_or_range ps 0 0 Hps) as Hn0.
  unfold PARAM_MAX in Hn0, Hn1.
  set (n1 := param_or ps 0 1) in *. set (n0 := param_or ps 0 0) in *.
  specialize (Hn1 ltac:(lia)). specialize (Hn0 ltac:(lia)). clearbody n1 n0.
  apply (switch_ok (λ m, yields m (wf_state R C))); [| done]. each; cbn zeta.
  - apply wf_set_row; [done | zbool].
  - apply wf_set_row; [done | zbool].
  - apply wf_set_col; [done | zbool].
  - apply wf_set_col; [done | zbool].
  - apply wf_set_cursor; [done | zbool | lia].
  - apply wf_set_cursor; [done | zbool | lia].
  - apply cursor_clamp_ok. wf_fields.
  - by apply cursor_clamp_ok, wf_goto_row.
  - by apply cursor_clamp_ok, wf_goto_row.
  - by apply csi_erase_display_ok.
  - by apply csi_erase_line_ok.
  - by apply csi_insert_lines_ok.
  - by apply csi_delete_lines_ok.
  - only_wf csi_delete_chars_ok; [done | lia].
  - by apply scroll_wf.
  - by apply scroll_wf.
  - only_wf csi_erase_chars_ok; [done | lia].
  - only_wf csi_insert_chars_ok; [done | lia].
  - case_match; [by apply wf_vt_reply | done].
  - case_match; [| case_match; [by apply wf_vt_reply | done]].
    pose proof (dim_digits (cursor_row st + 1) ltac:(lia)).
    pose proof (dim_digits (cursor_col st + 1) ltac:(lia)).
    apply reply_buf_ok; [done | reply_len].
  - by apply cursor_clamp_ok, (wf_goto_row st n1 0).
  - case_match; [by apply wf_add_mode | done].
  - case_match; [by apply wf_del_mode | done].
  - by apply wf_csi_sgr.
  - by apply csi_set_region_ok.
  - by apply wf_cursor_save.
  - by destruct (vt_state_cursor_restore_ok R C st Hwf) as [-> ?].
  - case_match; [only_wf vt_state_tab_put_ok; done |]. case_match; [| done].
    rewrite (vt_state_tab_clear_all_ok R C) by done. apply wf_tabs; [done |]. apply zlen_replicate. lia.
  - case_match; [only_wf vt_state_title_push_ok; done |].
    case_match; [only_wf vt_state_title_pop_ok; done | done].
  - by apply csi_back_tab_ok.
Qed.

Lemma op_csi_ok st ps i f :
  wf_state R C st → Forall param_ok ps → yields (op_csi st ps i f) (wf_state R C).
Proof.
  intros Hwf Hps. assert (0 <= 0 <= PARAM_MAX ∧ 0 <= 1 <= PARAM_MAX) as [H0 H1] by (unfold PARAM_MAX; lia).
  unfold op_csi. repeat case_match; try done.
  - by apply csi_private_ok.
  - wf_fields. split_and!; try lia; tauto.
  - only_wf vt_state_kitty_push_ok; [done | by apply param_flags].
  - by only_wf vt_state_kitty_pop_ok.
  - apply vt_state_kitty_set_ok; [done | by apply param_flags].
  - pose proof (param_flags ps 1 0 Hps H0). wf_fields. tauto.
  - by apply csi_plain_ok.
Qed.

(** The fields RIS resets one by one. *)
Definition ris_base (rows : Z) st : vt_state :=
  {| (set_region (with_pen st plain_pen) 0 rows) with
     modes := set_bits VT_MODE_AUTOWRAP VT_MODE_CURSOR_VIS;
     charset := 0; g0_set := 0; g1_set := 0;
     cursor_row := 0; cursor_col := 0;
     kitty_kbd_flags := 0; kitty_kbd_depth := 0; modify_other_keys := 0 |}.

Lemma wf_ris_base st :
  wf_state R C st → has_bits (modes st) VT_MODE_ALTSCREEN = false → wf_state R C (ris_base R st).
Proof.
  intros Hwf Hmode. pose proof (ws_dims _ _ _ Hwf). destruct (ws_flags _ _ _ Hwf) as (? & ? & ? & ?).
  unfold flags_ok, FLAGS_MAX in *. unfold ris_base, with_pen. wf_fields. by rewrite <- ws_alt_mode.
Qed.

Lemma esc_ris_ok st : wf_state R C st → yields (esc_ris st) (wf_state R C).
Proof.
  intros Hwf. unfold esc_ris. eapply yields_seq; [instantiate (1 := λ st1, wf_state R C st1 ∧
    has_bits (modes st1) VT_MODE_ALTSCREEN = false) |].
  - destruct (has_bits (modes st) VT_MODE_ALTSCREEN) eqn:E; [| done].
    eapply yields_mono; [by apply (vt_state_altscreen_leave_ok R C) |].
    intros st1 [Hwf1 Hst1]. split; [done |]. rewrite E in Hst1.
    destruct Hst1 as (? & ? & ? & ? & _ & _ & _ & _ & _ & _ & _ & ->). apply has_bits_cleared.
  - intros st1 [Hwf1 Hmode]. destruct (cur_buf_ok _ _ _ Hwf1) as (b & Hb & h & Hr).
    rewrite Hb. cbn [mbind option_bind]. rewrite (br_rows _ _ _ _ Hr).
    pose proof (wf_ris_base st1 Hwf1 Hmode) as Hwf2. fold (ris_base R st1).
    rewrite (vt_state_tab_reset_ok R C) by done. cbn [mbind option_bind].
    apply csi_erase_display_ok. apply wf_tabs; [done |]. apply zlen_default_tabs.
    pose proof (ws_dims _ _ _ Hwf1). lia.
Qed.

Lemma op_esc_ok st i f : wf_state R C st → yields (op_esc st i f) (wf_state R C).
Proof.
  intros Hwf. pose proof (ws_dims _ _ _ Hwf). unfold op_esc. repeat case_match; try done.
  - apply (switch_ok (λ m, yields m (wf_state R C))); [| done]. each.
    + by apply wf_cursor_save.
    + by destruct (vt_state_cursor_restore_ok R C st Hwf) as [-> ?].
    + by apply vt_state_index_wf.
    + apply vt_state_index_wf, wf_set_col; [done | lia].
    + by only_wf vt_state_tab_put_ok.
    + by apply vt_state_reverse_index_wf.
    + by apply wf_add_mode.
    + by apply wf_del_mode.
    + by apply esc_ris_ok.
  - apply (switch_ok (wf_state R C)); [| done]. each; wf_fields.
  - apply (switch_ok (wf_state R C)); [| done]. each; wf_fields.
Qed.

Lemma op_osc_ok st data : wf_state R C st → wf_state R C (op_osc st data).
Proof.
  intros Hwf. unfold op_osc. repeat case_match; try done; [wf_fields |].
  unfold osc_color_reply. repeat case_match; try done; by apply wf_vt_reply.
Qed.
End DispatchOk.

(** What the owner's DCS callback promises: it keeps the terminal sound. *)
Class DcsHandler (on_dcs : vt_state → Z → list Z → option vt_state) : Prop :=
  dcs_keeps : ∀ R C st intro data,
    wf_state R C st → yields (on_dcs st intro data) (wf_state R C).

(** No callback set. *)
Definition no_dcs (st : vt_state) (intro : Z) (data : list Z) : option vt_state := Some st.

#[export] Instance no_dcs_handler : DcsHandler no_dcs.
Proof. by intros R C st intro data ?. Qed.

Section FeedOk.
Context (tbl : rune_width_table) `{!WidthTable tbl}.
Context (on_dcs : vt_state → Z → list Z → option vt_state) `{!DcsHandler on_dcs}.

Lemma apply_event_ok R C st ev :
  wf_state R C st → event_ok ev → yields (apply_event on_dcs st ev) (wf_state R C).
Proof.
  intros Hwf Hev. destruct ev; simpl in *.
  - apply op_print_ok; tauto.
  - by apply op_execute_ok.
  - apply op_csi_ok; tauto.
  - by apply op_esc_ok.
  - by apply op_osc_ok.
  - by apply dcs_keeps.
Qed.

Lemma apply_events_ok R C st evs :
  wf_state R C st → Forall event_ok evs → yields (apply_events on_dcs st evs) (wf_state R C).
Proof.
  intros Hwf Hevs. revert st Hwf; induction Hevs as [|ev evs Hev Hevs IH]; intros st Hwf; [done |].
  simpl. eapply yields_seq; [by apply apply_event_ok |]. intros st1. apply IH.
Qed.

Lemma apply_events_app st e1 e2 :
  apply_events on_dcs st (e1 ++ e2) =
  (st1 ← apply_events on_dcs st e1; apply_events on_dcs st1 e2).
Proof.
  revert st; induction e1 as [|ev e1 IH]; intros st; simpl; [done |].
  destruct (apply_event on_dcs st ev); simpl; [apply IH | done].
Qed.

Lemma vt_feed_app ps d1 d2 :
  vt_feed tbl on_dcs ps (d1 ++ d2) = (ps1 ← vt_feed tbl on_dcs ps d1; vt_feed tbl on_dcs ps1 d2).
Proof.
  unfold vt_feed. rewrite vt_parse_feed_app. destruct ps as [p st]. simpl.
  destruct (vt_parse_feed tbl p d1) as [[p1 e1]|]; simpl; [| done].
  destruct (vt_parse_feed tbl p1 d2) as [[p2 e2]|] eqn:E; simpl.
  - rewrite apply_events_app. destruct (apply_events on_dcs st e1); simpl; [| done]. by rewrite E.
  - destruct (apply_events on_dcs st e1); simpl; [| done]. by rewrite E.
Qed.

Lemma vt_feed_ok R C p st data :
  wf_parse p → wf_state R C st → Forall is_byte data →
  yields (vt_feed tbl on_dcs (p, st) data) (λ ps, wf_parse ps.1 ∧ wf_state R C ps.2).
Proof.
  intros Hp Hwf Hd. unfold vt_feed. simpl. eapply yields_seq; [by apply vt_parse_feed_ok |].
  intros [p' evs] [Hp' Hev]. eapply yields_seq; [by apply apply_events_ok |]. done.
Qed.
End FeedOk.

(** ** Erasing the display, cell by cell *)

(** The columns that ED erases in row [i], the cursor being at [cr], [cc]. *)
Definition erase_span (C mode cr cc i : Z) : Z * Z :=
  if mode =? 0 then if i <? cr then (0, 0) else if i =? cr then (cc, C) else (0, C)
  else if mode =? 1 then if i <? cr then (0, C) else if i =? cr then (0, Z.min (cc + 1) C) else (0, 0)
  else if (mode =? 2) || (mode =? 3) then (0, C) else (0, 0).

(** [b'] is [b] with the columns [span i] of each row [i] erased. *)
Definition screen_erased (span : Z → Z * Z) (bgc : vt_color) (b b' : vt_buf) : Prop :=
  ∀ i r, aget (grid b) i = Some r →
    ∃ r', aget (grid b') i = Some r' ∧ cells r' = fill (span i).1 (span i).2 (vt_cell_erase bgc) (cells r).

Section EraseDisplay.
Context (R C : Z).

Lemma fill_nothing {A} lo hi (x : A) l : hi <= lo → fill lo hi x l = l.
Proof. intros. unfold fill. apply zmap_id. intros i r _. zbool. Qed.

Lemma cells_cleared bgc r :
  row_ok C r → 0 <= C → cells (cleared C bgc) = fill 0 C (vt_cell_erase bgc) (cells r).
Proof. intros Hr HC. by rewrite <- (erased_all C bgc r). Qed.

Lemma clear_rows_erases b h from to bgc :
  buf_repr R C b h →
  ∃ b', vt_buf_clear_rows b from to bgc = Some b' ∧ buf_repr R C b' h ∧
    screen_erased (λ i, if (from <=? i) && (i <? to) then (0, C) else (0, 0)) bgc b b'.
Proof.
  intros Hb. pose proof (vt_buf_clear_rows_repr R C b h from to bgc Hb) as H.
  apply yields_Some in H as (b' & E & Hb' & _ & Hg). exists b'. split_and!; [done | done |].
  intros i r Hi. pose proof (buf_repr_row _ _ _ _ _ _ Hb Hi) as Hok.
  rewrite Hg, aget_zmap, Hi. simpl. eexists. split; [done |].
  destruct ((from <=? i) && (i <? to)); simpl; [apply cells_cleared; [done | apply Hb] |].
  by rewrite fill_nothing.
Qed.

Lemma row_erases b h row lo hi bgc :
  buf_repr R C b h → 0 <= row < R → 0 <= lo → hi <= C →
  ∃ b', upd_row b row (erase_dirty lo hi bgc) = Some b' ∧ buf_repr R C b' h ∧
    screen_erased (λ i, if i =? row then (lo, hi) else (0, 0)) bgc b b'.
Proof.
  intros Hb Hrow Hlo Hhi. destruct (buf_repr_row_in _ _ _ _ row Hb Hrow) as (r & Er & Hok).
  assert (upd_row b row (erase_dirty lo hi bgc) =
          Some (with_grid_row b row (row_dirty (erased lo hi bgc r)))) as ->.
  { rewrite <- (with_grid_row_id b row r Er) at 1. rewrite (upd_row_row R C b h) by done.
    by rewrite (erase_dirty_ok C) by done. }
  eexists. split; [done |]. split.
  { apply with_grid_row_ok; [done |]. apply row_ok_dirty. by apply row_ok_erased. }
  pose proof (br_size _ _ _ _ Hb). intros i r0 Hi. cbn [grid with_grid_row].
  rewrite aget_insert by lia. destruct (decide (row = i)) as [<-|Hne].
  - rewrite Z.eqb_refl. eexists. split; [done |]. by simplify_eq.
  - rewrite (proj2 (Z.eqb_neq i row)) by done. exists r0. split; [done |].
    by rewrite fill_nothing.
Qed.

(** Two erasures that never meet in a row are one. *)
Lemma screen_erased_trans span1 span2 span bgc b b1 b2 :
  screen_erased span1 bgc b b1 → screen_erased span2 bgc b1 b2 →
  (∀ i, aget (grid b) i ≠ None →
     (span i = span1 i ∧ (span2 i).2 <= (span2 i).1) ∨ (span i = span2 i ∧ (span1 i).2 <= (span1 i).1)) →
  screen_erased span bgc b b2.
Proof.
  intros H1 H2 Hs i r Hi. destruct (H1 i r Hi) as (r1 & E1 & Hc1). destruct (H2 i r1 E1) as (r2 & E2 & Hc2).
  exists r2. split; [done |]. rewrite Hc2, Hc1. destruct (Hs i) as [[-> Hn]|[-> Hn]]; [by rewrite Hi | |];
    by rewrite (fill_nothing _ _ _ _ Hn).
Qed.

Lemma upd_buf_cur st f b b' :
  cur_buf st = Some b → f b = Some b' → upd_buf st f = Some (put_target st (active_target st) (Some b')).
Proof. intros Hb Hf. unfold upd_buf. rewrite Hb. cbn [mbind option_bind]. by rewrite Hf. Qed.

Lemma csi_erase_display_spec st b h mode :
  wf_state R C st → cur_buf st = Some b → buf_repr R C b h →
  ∃ b', csi_erase_display st mode = Some (put_target st (active_target st) (Some b')) ∧ buf_repr R C b' h ∧
    screen_erased (erase_span C mode (cursor_row st) (cursor_col st)) (bg st) b b'.
Proof.
  intros Hwf Hb Hr. pose proof (ws_cursor _ _ _ Hwf) as [Hrow Hcol]. pose proof (br_size _ _ _ _ Hr) as Hsz.
  assert (∀ i, aget (grid b) i ≠ None → 0 <= i < R) as Hin.
  { intros i Hi. destruct (aget (grid b) i) eqn:E; [| done]. apply aget_Some in E. lia. }
  unfold csi_erase_display, with_row. rewrite Hb. cbn [mbind option_bind].
  rewrite (br_rows _ _ _ _ Hr), (br_cols _ _ _ _ Hr). unfold erase_span.
  destruct (Z.eqb_spec mode 0); [| destruct (Z.eqb_spec mode 1); [| destruct ((mode =? 2) || (mode =? 3))]].
  - destruct (row_erases b h (cursor_row st) (cursor_col st) C (bg st) Hr Hrow) as (b1 & E1 & Hr1 & He1); [lia | lia |].
    destruct (clear_rows_erases b1 h (cursor_row st + 1) R (bg st) Hr1) as (b2 & E2 & Hr2 & He2).
    exists b2. rewrite (upd_buf_cur st _ b b1 Hb E1). cbn [mbind option_bind].
    rewrite upd_buf_put. cbn [cursor_row bg put_target]. rewrite E2. cbn [mbind option_bind].
    split; [done |]. split; [done |]. eapply screen_erased_trans; [exact He1 | exact He2 |].
    intros i Hi%Hin. simpl. destruct (Z.ltb_spec i (cursor_row st)), (Z.eqb_spec i (cursor_row st)); try lia.
    + left. split; [done |]. zbool.
    + left. split; [done |]. zbool.
    + right. split; [zbool | simpl; lia].
  - destruct (clear_rows_erases b h 0 (cursor_row st) (bg st) Hr) as (b1 & E1 & Hr1 & He1).
    destruct (row_erases b1 h (cursor_row st) 0 (Z.min (cursor_col st + 1) C) (bg st) Hr1 Hrow) as (b2 & E2 & Hr2 & He2);
      [lia | lia |].
    exists b2. rewrite (upd_buf_cur st _ b b1 Hb E1). cbn [mbind option_bind].
    cbn [cursor_row cursor_col bg put_target].
    replace (if cursor_col st + 1 <? C then cursor_col st + 1 else C) with (Z.min (cursor_col st + 1) C) by zbool.
    rewrite upd_buf_put, E2. cbn [mbind option_bind].
    split; [done |]. split; [done |]. eapply screen_erased_trans; [exact He1 | exact He2 |].
    intros i Hi%Hin. simpl. destruct (Z.ltb_spec i (cursor_row st)), (Z.eqb_spec i (cursor_row st)); try lia.
    + left. split; [zbool | simpl; lia].
    + right. split; [done | zbool].
    + left. split; [zbool | simpl; lia].
  - destruct (clear_rows_erases b h 0 R (bg st) Hr) as (b1 & E1 & Hr1 & He1). exists b1.
    rewrite (upd_buf_cur st _ b b1 Hb E1).
    split; [done |]. split; [done |]. intros i r Hi. destruct (He1 i r Hi) as (r1 & Er1 & Hc1).
    exists r1. split; [done |]. rewrite Hc1. apply aget_Some in Hi.
    replace ((0 <=? i) && (i <? R)) with true by (symmetry; zbool). done.
  - exists b. rewrite put_target_cur by done. split; [done |]. split; [done |].
    intros i r Hi. exists r. split; [done |]. by rewrite fill_nothing.
Qed.
End EraseDisplay.

(** ** Sessions

    The terminal as its owner drives it: created, fed bytes, resized, and
    configured through the setters of vt_state.h and vt_parse.h. *)
Section Session.
Context (tbl : rune_width_table) (on_dcs : vt_state → Z → list Z → option vt_state).

Inductive session_step : Z * Z * (vt_parse * vt_state) → Z * Z * (vt_parse * vt_state) → Prop :=
  | step_feed R C ps data ps' :
      Forall is_byte data → vt_feed tbl on_dcs ps data = Some ps' → session_step (R, C, ps) (R, C, ps')
  | step_resize R C p st R' C' st' :
      0 < R' <= DIM_MAX → 0 < C' <= DIM_MAX → vt_state_resize st R' C' = Some st' →
      session_step (R, C, (p, st)) (R', C', (p, st'))
  | step_reset R C p st : session_step (R, C, (p, st)) (R, C, (vt_parse_reset p, st))
  | step_target R C p st t : session_step (R, C, (p, st)) (R, C, (p, vt_state_set_target st t))
  | step_capture R C p st on :
      session_step (R, C, (p, st)) (R, C, (p, vt_state_set_altscreen_scrollback st on))
  | step_title R C p st s : session_step (R, C, (p, st)) (R, C, (p, vt_state_set_title st s))
  | step_colors R C p st f b : session_step (R, C, (p, st)) (R, C, (p, vt_state_set_term_colors st f b))
  | step_reply_fd R C p st fd : session_step (R, C, (p, st)) (R, C, (p, vt_state_set_reply_fd st fd)).

(** What [vt_state_new] and a sequence of steps lead to. *)
Inductive reachable : Z * Z * (vt_parse * vt_state) → Prop :=
  | reach_new R C sb st on :
      0 < R <= DIM_MAX → 0 < C <= DIM_MAX → vt_state_new R C sb = Some st →
      reachable (R, C, (vt_parse_set_dcs_cb vt_parse_new on, st))
  | reach_step s s' : reachable s → session_step s s' → reachable s'.

Definition session_ok (s : Z * Z * (vt_parse * vt_state)) : Prop :=
  wf_parse s.2.1 ∧ wf_state s.1.1 s.1.2 s.2.2.

Lemma session_step_ok s s' `{!WidthTable tbl, !DcsHandler on_dcs} :
  session_step s s' → session_ok s → session_ok s'.
Proof.
  intros Hstep [Hp Hwf]. destruct Hstep as [R C [p st] data [p' st'] Hd E | R C p st R' C' st' HR HC E | | R C p st t | | | |];
    unfold session_ok in *; simpl in *.
  - pose proof (vt_feed_ok tbl on_dcs R C p st data Hp Hwf Hd) as H. by rewrite E in H.
  - split; [done |]. pose proof (vt_state_resize_ok R C R' C' st Hwf HR HC) as H. rewrite E in H. apply H.
  - split; [by apply wf_parse_reset | done].
  - split; [done |]. by apply wf_set_target.
  - split; [done |]. unfold vt_state_set_altscreen_scrollback. clear Hp. wf_fields.
  - split; [done |]. unfold vt_state_set_title. clear Hp. wf_fields.
  - split; [done |]. unfold vt_state_set_term_colors. clear Hp. wf_fields.
  - split; [done |]. unfold vt_state_set_reply_fd. clear Hp. wf_fields.
Qed.

Lemma reachable_ok s `{!WidthTable tbl, !DcsHandler on_dcs} : reachable s → session_ok s.
Proof.
  induction 1 as [R C sb st on HR HC E | s s' _ IH Hstep]; [| by eapply session_step_ok].
  split; simpl.
  - destruct wf_parse_new. by constructor.
  - pose proof (vt_state_new_ok R C sb HR HC) as H. rewrite E in H. apply H.
Qed.
End Session.

(** ** Correctness *)

(** C1: no session can make the terminal trap: in every state reachable from a
    new terminal by feeding bytes, resizing and configuring it, whatever the
    bytes, the invariant holds (cursor, scroll region, tab stops, keyboard and
    title stacks within bounds, buffers of the right size, the alternate
    screen's mode bit true to its buffer), and the next bytes and the next
    resize are again handled without an out-of-range access. *)
Theorem session_never_traps tbl on_dcs R C p st :
  WidthTable tbl → DcsHandler on_dcs → reachable tbl on_dcs (R, C, (p, st)) →
  wf_parse p ∧ wf_state R C st ∧
  (∀ data, Forall is_byte data → ∃ ps', vt_feed tbl on_dcs (p, st) data = Some ps') ∧
  ∀ R' C', 0 < R' <= DIM_MAX → 0 < C' <= DIM_MAX → ∃ st', vt_state_resize st R' C' = Some st'.
Proof.
  intros Ht Hd Hr. destruct (reachable_ok _ _ _ Hr) as [Hp Hwf]. simpl in *. split_and!; [done | done | |].
  - intros data Hdata. pose proof (vt_feed_ok tbl on_dcs R C p st data Hp Hwf Hdata) as H.
    apply yields_Some in H as (ps' & E & _). by exists ps'.
  - intros R' C' HR HC. pose proof (vt_state_resize_ok R C R' C' st Hwf HR HC) as H.
    apply yields_Some in H as (st' & E & _). by exists st'.
Qed.

Lemma session_never_traps_witness :
  wf_parse vt_parse_new ∧ wf_state 3 5 demo_state ∧
  (∀ data, Forall is_byte data → ∃ ps', vt_feed table_9_0_0 no_dcs (vt_parse_new, demo_state) data = Some ps') ∧
  ∀ R' C', 0 < R' <= DIM_MAX → 0 < C' <= DIM_MAX → ∃ st', vt_state_resize demo_state R' C' = Some st'.
Proof.
  apply (session_never_traps table_9_0_0 no_dcs 3 5 vt_parse_new demo_state).
  - apply builtin_ok. unfold rune_width_builtin. rewrite !elem_of_cons. auto.
  - apply no_dcs_handler.
  - apply (reach_new table_9_0_0 no_dcs 3 5 4 demo_state false); [unfold DIM_MAX; lia | unfold DIM_MAX; lia | reflexivity].
Defined.

(** ED erases exactly what it says: on every row the columns from the cursor
    on (mode 0), up to and with the cursor (mode 1) or all (modes 2 and 3)
    take the current background, any other mode does nothing; all other cells,
    the history, the cursor and the pen stay. *)
Theorem erase_display_correct R C st b h mode :
  wf_state R C st → cur_buf st = Some b → buf_repr R C b h →
  ∃ b', csi_erase_display st mode = Some (put_target st (active_target st) (Some b')) ∧ buf_repr R C b' h ∧
    ∀ i r, aget (grid b) i = Some r → ∃ r', aget (grid b') i = Some r' ∧
      ∀ j c, aget (cells r) j = Some c →
        let '(lo, hi) := erase_span C mode (cursor_row st) (cursor_col st) i in
        aget (cells r') j = Some (if (lo <=? j) && (j <? hi) then vt_cell_erase (bg st) else c).
Proof.
  intros Hwf Hb Hr. destruct (csi_erase_display_spec R C st b h mode Hwf Hb Hr) as (b' & E & Hr' & He).
  exists b'. split_and!; [done | done |]. intros i r Hi. destruct (He i r Hi) as (r' & Er' & Hc).
  exists r'. split; [done |]. intros j c Hj. destruct (erase_span _ _ _ _ i) as [lo hi].
  by rewrite Hc, aget_fill, Hj.
Qed.

Lemma erase_display_correct_witness :
  ∃ b', csi_erase_display demo_state 0 = Some (put_target demo_state (active_target demo_state) (Some b')) ∧
    buf_repr 3 5 b' [] ∧
    ∀ i r, aget (grid (vt_buf_new 3 5 4)) i = Some r → ∃ r', aget (grid b') i = Some r' ∧
      ∀ j c, aget (cells r) j = Some c →
        let '(lo, hi) := erase_span 5 0 (cursor_row demo_state) (cursor_col demo_state) i in
        aget (cells r') j = Some (if (lo <=? j) && (j <? hi) then vt_cell_erase (bg demo_state) else c).
Proof.
  apply (erase_display_correct 3 5 demo_state (vt_buf_new 3 5 4) [] 0 demo_wf); [reflexivity |].
  apply vt_buf_new_repr; lia.
Defined.

(** Inserting and deleting characters shift the rest of the cursor's row and
    nothing else: with [m] the count cut to what is left of the row, ICH moves
    every cell from the cursor on [m] to the right, DCH moves them [m] to the
    left, cells pushed over the edge are lost, and the gap takes the current
    background. *)
Theorem insert_delete_chars_correct R C st n :
  wf_state R C st → 0 <= n →
  let col := cursor_col st in
  let m := Z.min n (C - col) in
  ∃ b r ins del, cur_buf st = Some b ∧ aget (grid b) (cursor_row st) = Some r ∧
    csi_insert_chars st n = Some (put_target st (active_target st) (Some (with_grid_row b (cursor_row st) ins))) ∧
    csi_delete_chars st n = Some (put_target st (active_target st) (Some (with_grid_row b (cursor_row st) del))) ∧
    (∀ j, 0 <= j < C → aget (cells ins) j =
       (if j <? col then aget (cells r) j
        else if j <? col + m then Some (vt_cell_erase (bg st)) else aget (cells r) (j - m))) ∧
    (∀ j, 0 <= j < C → aget (cells del) j =
       (if j <? col then aget (cells r) j
        else if j <? C - m then aget (cells r) (j + m) else Some (vt_cell_erase (bg st)))).
Proof.
  intros Hwf Hn col m. pose proof (ws_cursor _ _ _ Hwf) as [Hrow Hcol].
  pose proof (csi_insert_chars_ok R C st n Hwf Hn) as H.
  apply yields_Some in H as (st1 & E1 & _ & b & r & Hb & Er & Hok & ->).
  pose proof (csi_delete_chars_ok R C st n Hwf Hn) as H.
  apply yields_Some in H as (st2 & E2 & _ & b' & r' & Hb' & Er' & _ & ->). simplify_eq.
  exists b, r, (chars_inserted C col m (bg st) r), (chars_deleted C col m (bg st) r).
  split_and!; [done | done | exact E1 | exact E2 | |]; intros j Hj; unfold row_ok in Hok;
    destruct (aget_in (cells r) j) as [c Hc]; try lia;
    unfold chars_inserted, chars_deleted, erased; cbn [cells row_dirty]; rewrite aget_fill, aget_zmap, Hc;
    cbn [fmap option_fmap option_map].
  - destruct (Z.ltb_spec j col).
    + f_equal. zbool.
    + destruct (Z.ltb_spec j (col + m)); [f_equal; zbool |].
      destruct (aget_in (cells r) (j - m)) as [c' Hc']; [lia |]. rewrite Hc'. f_equal. simpl. zbool.
  - destruct (Z.ltb_spec j col).
    + f_equal. zbool.
    + destruct (Z.ltb_spec j (C - m)); [| f_equal; zbool].
      destruct (aget_in (cells r) (j + m)) as [c' Hc']; [lia |]. rewrite Hc'. f_equal. simpl. zbool.
Qed.

Lemma insert_delete_chars_correct_witness :
  let st := set_col demo_state 2 in
  let col := cursor_col st in
  let m := Z.min 7 (5 - col) in
  ∃ b r ins del, cur_buf st = Some b ∧ aget (grid b) (cursor_row st) = Some r ∧
    csi_insert_chars st 7 = Some (put_target st (active_target st) (Some (with_grid_row b (cursor_row st) ins))) ∧
    csi_delete_chars st 7 = Some (put_target st (active_target st) (Some (with_grid_row b (cursor_row st) del))) ∧
    (∀ j, 0 <= j < 5 → aget (cells ins) j =
       (if j <? col then aget (cells r) j
        else if j <? col + m then Some (vt_cell_erase (bg st)) else aget (cells r) (j - m))) ∧
    (∀ j, 0 <= j < 5 → aget (cells del) j =
       (if j <? col then aget (cells r) j
        else if j <? 5 - m then aget (cells r) (j + m) else Some (vt_cell_erase (bg st)))).
Proof.
  apply (insert_delete_chars_correct 3 5 (set_col demo_state 2) 7); [| lia].
  apply wf_set_col; [apply demo_wf | lia].
Defined.

(** RIS (ESC c) clears the screen, homes the cursor and resets the pen, the
    character sets, the tab stops, the scroll region and the modes, but it is
    not a full reset: the mouse tracking mode number, the cursor shape, the
    title stack and the saved cursor survive it, although the mouse mode bit is
    cleared. *)
Theorem ris_is_partial R C st :
  wf_state R C st → has_bits (modes st) VT_MODE_ALTSCREEN = false →
  ∃ st', esc_ris st = Some st' ∧ wf_state R C st' ∧
    (cursor_row st', cursor_col st') = (0, 0) ∧ pen_of st' = plain_pen ∧
    (charset st', g0_set st', g1_set st') = (0, 0, 0) ∧ tabstops st' = default_tabs C ∧
    scroll_top st' = 0 ∧ scroll_bot st' = R ∧
    modes st' = set_bits VT_MODE_AUTOWRAP VT_MODE_CURSOR_VIS ∧ kitty_kbd_flags st' = 0 ∧
    mouse_mode st' = mouse_mode st ∧ cursor_shape st' = cursor_shape st ∧
    title_stack st' = title_stack st ∧ saved st' = saved st.
Proof.
  intros Hwf Hm. pose proof (wf_ris_base R C st Hwf Hm) as Hwf0.
  destruct (cur_buf_ok _ _ _ Hwf) as (b & Hb & h & Hr). pose proof (ws_dims _ _ _ Hwf) as [_ HC].
  assert (wf_state R C (set_tabs (ris_base R st) (default_tabs C))) as Hwf1
    by (apply wf_tabs; [done | apply zlen_default_tabs; lia]).
  destruct (csi_erase_display_spec R C _ b h 2 Hwf1 Hb Hr) as (b' & E & Hr' & _).
  pose proof (csi_erase_display_ok R C _ 2 Hwf1) as Hok. rewrite E in Hok.
  eexists. split.
  { unfold esc_ris. rewrite Hm. cbn [mbind option_bind]. rewrite Hb. cbn [mbind option_bind].
    rewrite (br_rows _ _ _ _ Hr). fold (ris_base R st).
    rewrite (vt_state_tab_reset_ok R C) by done. cbn [mbind option_bind]. exact E. }
  split; [exact Hok |]. by split_and!.
Qed.

Lemma ris_is_partial_witness :
  ∃ st', esc_ris (set_mouse demo_state 1003) = Some st' ∧ wf_state 3 5 st' ∧
    (cursor_row st', cursor_col st') = (0, 0) ∧ pen_of st' = plain_pen ∧
    (charset st', g0_set st', g1_set st') = (0, 0, 0) ∧ tabstops st' = default_tabs 5 ∧
    scroll_top st' = 0 ∧ scroll_bot st' = 3 ∧
    modes st' = set_bits VT_MODE_AUTOWRAP VT_MODE_CURSOR_VIS ∧ kitty_kbd_flags st' = 0 ∧
    mouse_mode st' = mouse_mode (set_mouse demo_state 1003) ∧
    cursor_shape st' = cursor_shape (set_mouse demo_state 1003) ∧
    title_stack st' = title_stack (set_mouse demo_state 1003) ∧ saved st' = saved (set_mouse demo_state 1003).
Proof.
  apply (ris_is_partial 3 5 (set_mouse demo_state 1003)); [| reflexivity].
  apply wf_set_mouse, demo_wf.
Defined.

(** The cursor position report answers a request with the 1-based position in
    decimal, always fits its buffer, and changes nothing else; in the pending
    wrap state, where the cursor rests past the last column, the column
    reported is one more than the screen has. *)
Theorem cursor_report_correct R C st :
  wf_state R C st → 0 <= reply_fd st →
  ∃ st', op_csi st [6] 0 (ch "n") = Some st' ∧ wf_state R C st' ∧
    reply_out st' = reply_out st ++ 27 :: str "[" ++ dump_fmt_int (cursor_row st + 1) ++ str ";"
                      ++ dump_fmt_int (cursor_col st + 1) ++ str "R" ∧
    (cursor_col st = C → digits_value 0 (dump_fmt_int (cursor_col st + 1)) = C + 1).
Proof.
  intros Hwf Hfd. pose proof (op_csi_ok R C st [6] 0 (ch "n") Hwf) as H.
  destruct (cur_buf_ok _ _ _ Hwf) as (b & Hb & _). pose proof (ws_cursor _ _ _ Hwf) as [Hr Hc].
  pose proof (ws_dims _ _ _ Hwf) as [HR HC].
  assert (op_csi st [6] 0 (ch "n") = reply_buf st 32 (27 :: str "[" ++ fmt_d (cursor_row st + 1) ++ str ";"
            ++ fmt_d (cursor_col st + 1) ++ str "R")) as E.
  { change (op_csi st [6] 0 (ch "n")) with (csi_plain st [6] (ch "n")). unfold csi_plain. by rewrite Hb. }
  rewrite E in *. rewrite !fmt_d_nonneg in * by lia.
  destruct (reply_buf st 32 _) as [st'|] eqn:Er; [| destruct H; repeat constructor; unfold PARAM_MAX; lia].
  exists st'. split; [done |]. split; [apply H; repeat constructor; unfold PARAM_MAX; lia |]. split.
  - unfold reply_buf, vt_reply in Er. case_match; [| done]. rewrite (proj2 (Z.ltb_ge _ 0) Hfd) in Er.
    by injection Er as <-.
  - intros ->. by destruct (dump_fmt_int_spec (C + 1) ltac:(lia)) as (_ & Hv & _).
Qed.

Lemma cursor_report_correct_witness :
  let st := vt_state_set_reply_fd (set_col demo_state 5) 1 in
  ∃ st', op_csi st [6] 0 (ch "n") = Some st' ∧ wf_state 3 5 st' ∧
    reply_out st' = reply_out st ++ 27 :: str "[" ++ dump_fmt_int (cursor_row st + 1) ++ str ";"
                      ++ dump_fmt_int (cursor_col st + 1) ++ str "R" ∧
    (cursor_col st = 5 → digits_value 0 (dump_fmt_int (cursor_col st + 1)) = 5 + 1).
Proof.
  apply (cursor_report_correct 3 5 (vt_state_set_reply_fd (set_col demo_state 5) 1)); [| vm_compute; discriminate].
  pose proof (wf_set_col 3 5 demo_state 5 demo_wf ltac:(lia)). unfold vt_state_set_reply_fd. wf_fields.
Defined.
