(* ===== verification/VtSeq.v ===== *)
(** * Control sequences as text

    Printing a control sequence and feeding it to the parser gives back the
    action it stands for.  [plays] lifts this to the terminal: the bytes take
    a terminal whose parser rests in the ground state from one state to
    another. *)

From S2P Require Import Prelude Utf8 WidthTables RuneWidth VtBuf VtParse Decimal VtState VtOps.

(** The parameters of a sequence, separated by semicolons. *)
Fixpoint join_semi (ps : list Z) : list Z :=
  match ps with
  | [] => []
  | [p] => dump_fmt_int p
  | p :: ps' => dump_fmt_int p ++ ch ";" :: join_semi ps'
  end.

Definition csi_text (marker ps : list Z) (final : Z) : list Z :=
  27 :: ch "[" :: marker ++ join_semi ps ++ [final].

(** A parameter the parser reads back exactly. *)
Definition param_exact (n : Z) : Prop := 0 <= n <= PARAM_MAX.

Section SeqParse.
Context (tbl : rune_width_table) `{!WidthTable tbl}.
Local Notation "'feed'" := (vt_parse_feed tbl).

(** The parser inside a CSI sequence. *)
Record csi_at (p : vt_parse) (s : parse_state) (acc : list Z) (v : Z) (hd : bool) (i : Z) : Prop := {
  ca_state : p_state p = s;
  ca_params : params p = acc;
  ca_cur : cur_param p = v;
  ca_digit : has_digit p = hd;
  ca_inter : intermed p = i;
  ca_utf8 : utf8_need p = 0 ∧ utf8_buf p = [];
}.

Lemma feed_cons p c data :
  feed p (c :: data) = ('(p1, e1) ← process_byte tbl p c; '(p2, e2) ← feed p1 data; Some (p2, e1 ++ e2)).
Proof. done. Qed.

Lemma process_byte_csi p c :
  p_state p = ST_CSI_ENTRY ∨ p_state p = ST_CSI_PARAM → 0x20 <= c →
  process_byte tbl p c =
    Some (if decide (p_state p = ST_CSI_ENTRY) then st_csi_entry p c else st_csi_param p c).
Proof.
  intros Hs Hc. unfold process_byte. destruct (Z.eqb_spec c 27); [lia |].
  unfold in_rng. replace ((7 <=? c) && (c <=? 13)) with false by (symmetry; zbool).
  rewrite andb_false_r. by destruct Hs as [-> | ->].
Qed.

Lemma csi_digit p s acc v hd i c :
  csi_at p s acc v hd i → (s = ST_CSI_ENTRY ∧ v = 0 ∨ s = ST_CSI_PARAM) → is_digit c → 0 <= v < 65535 →
  ∃ p', process_byte tbl p c = Some (p', []) ∧ csi_at p' ST_CSI_PARAM acc (v * 10 + (c - 48)) true i.
Proof.
  intros [Hst Hps Hv Hd Hi [Hn Hb]] Hs Hc Hlt. unfold is_digit in Hc.
  rewrite process_byte_csi by (rewrite ?Hst; first [tauto | lia]).
  assert (in_rng (ch "0") (ch "9") c = true) as Hr by (unfold in_rng; chs; zbool).
  destruct Hs as [[-> ->]| ->]; rewrite Hst; simpl; eexists.
  - unfold st_csi_entry. rewrite Hr. split; [done |]. constructor; simpl; (done || chs; lia).
  - unfold st_csi_param. rewrite Hr. split; [done |]. constructor; simpl; try done.
    rewrite Hv. destruct (Z.ltb_spec v 65535); [chs; lia | lia].
Qed.

Lemma digits_value_mono ds v :
  Forall is_digit ds → 0 <= v → v <= digits_value v ds ∧ (ds ≠ [] → v * 10 <= digits_value v ds).
Proof.
  revert v; induction ds as [|c ds IH]; intros v Hds Hv; unfold digits_value in *; simpl; [split; [lia | done] |].
  apply Forall_cons in Hds as [Hc Hds]. unfold is_digit in Hc.
  destruct (IH (v * 10 + (c - 48)) Hds ltac:(lia)) as [H _]. split; lia.
Qed.

Lemma csi_digits ds p s acc v hd i :
  csi_at p s acc v hd i → (s = ST_CSI_ENTRY ∧ v = 0 ∨ s = ST_CSI_PARAM) →
  Forall is_digit ds → 0 <= v → digits_value v ds <= PARAM_MAX → ds ≠ [] →
  ∃ p', feed p ds = Some (p', []) ∧ csi_at p' ST_CSI_PARAM acc (digits_value v ds) true i.
Proof.
  revert p s v hd; induction ds as [|c ds IH]; intros p s v hd Hat Hs Hds Hv Hmax Hne; [done |].
  pose proof (digits_value_mono (c :: ds) v Hds Hv) as [_ Hm]. specialize (Hm Hne).
  unfold PARAM_MAX in Hmax. apply Forall_cons in Hds as [Hc Hds].
  destruct (csi_digit p s acc v hd i c Hat Hs Hc) as (p1 & E1 & Hat1); [lia |].
  rewrite feed_cons, E1. cbn [mbind option_bind].
  destruct ds as [|c' ds]; [by exists p1 |].
  destruct (IH p1 ST_CSI_PARAM (v * 10 + (c - 48)) true Hat1) as (p2 & E2 & Hat2); try done.
  - by right.
  - unfold is_digit in Hc. lia.
  - rewrite E2. by exists p2.
Qed.

Lemma csi_param p s acc v hd i n :
  csi_at p s acc v hd i → (s = ST_CSI_ENTRY ∧ v = 0 ∨ s = ST_CSI_PARAM ∧ v = 0) → param_exact n →
  ∃ p', feed p (dump_fmt_int n) = Some (p', []) ∧ csi_at p' ST_CSI_PARAM acc n true i.
Proof.
  intros Hat Hs [Hn Hmax]. destruct (dump_fmt_int_spec n Hn) as (Hd & Hv & Hne).
  assert (v = 0) as -> by tauto.
  destruct (csi_digits (dump_fmt_int n) p s acc 0 hd i Hat) as (p' & E & Hat'); try done.
  - intuition auto.
  - by rewrite Hv.
  - rewrite Hv in Hat'. by exists p'.
Qed.

Lemma csi_semi p acc v i :
  csi_at p ST_CSI_PARAM acc v true i → zlen acc < VT_MAX_PARAMS →
  ∃ p', process_byte tbl p (ch ";") = Some (p', []) ∧ csi_at p' ST_CSI_PARAM (acc ++ [v]) 0 false i.
Proof.
  intros [Hst Hps Hv Hd Hi [Hn Hb]] Hlen.
  rewrite process_byte_csi by (rewrite ?Hst; first [by right | chs; lia]). rewrite Hst. simpl.
  eexists. split; [done |]. unfold csi_finish_param. constructor; simpl; try done.
  rewrite Hps, Hd, Hv. destruct (Z.ltb_spec (zlen acc) VT_MAX_PARAMS); [done | lia].
Qed.

Lemma ground_finish p :
  utf8_need p = 0 → utf8_buf p = [] → ground (set_state (csi_finish_param p) ST_GROUND).
Proof. intros. by split_and!. Qed.

Lemma csi_final p acc v i f :
  csi_at p ST_CSI_PARAM acc v true i → zlen acc < VT_MAX_PARAMS → 0x40 <= f <= 0x7E →
  ∃ p', process_byte tbl p f = Some (p', [EvCsi (acc ++ [v]) i f]) ∧ ground p'.
Proof.
  intros [Hst Hps Hv Hd Hi [Hn Hb]] Hlen Hf.
  rewrite process_byte_csi by (rewrite ?Hst; first [by right | lia]). rewrite Hst. simpl.
  unfold st_csi_param, in_rng.
  replace ((ch "0" <=? f) && (f <=? ch "9")) with false by (chs; symmetry; zbool).
  replace (f =? ch ";") with false by (chs; symmetry; zbool).
  replace ((32 <=? f) && (f <=? 47)) with false by (symmetry; zbool).
  replace ((64 <=? f) && (f <=? 126)) with true by (symmetry; zbool).
  exists (set_state (csi_finish_param p) ST_GROUND).
  split; [| by apply ground_finish]. unfold emit_csi, csi_finish_param. simpl.
  rewrite Hps, Hd, Hv, Hi. by destruct (Z.ltb_spec (zlen acc) VT_MAX_PARAMS); [| lia].
Qed.

(** The whole parameter list, from the state after the introducer. *)
Lemma csi_params ps p s acc hd i f :
  csi_at p s acc 0 hd i → (s = ST_CSI_ENTRY ∨ s = ST_CSI_PARAM) →
  ps ≠ [] → Forall param_exact ps → zlen acc + zlen ps <= VT_MAX_PARAMS → 0x40 <= f <= 0x7E →
  ∃ p', feed p (join_semi ps ++ [f]) = Some (p', [EvCsi (acc ++ ps) i f]) ∧ ground p'.
Proof.
  revert p s acc hd; induction ps as [|n ps IH]; intros p s acc hd Hat Hs Hne Hps Hlen Hf; [done |].
  apply Forall_cons in Hps as [Hn Hps]. rewrite zlen_cons in Hlen. pose proof (zlen_nonneg ps).
  destruct (csi_param p s acc 0 hd i n Hat) as (p1 & E1 & Hat1); [by destruct Hs; [left|right] | done |].
  destruct ps as [|n' ps].
  - cbn [join_semi]. rewrite vt_parse_feed_app, E1. cbn [mbind option_bind].
    destruct (csi_final p1 acc n i f Hat1) as (p2 & E2 & Hg); [lia | done |].
    rewrite feed_cons, E2. by exists p2.
  - cbn [join_semi]. rewrite <- app_assoc, vt_parse_feed_app, E1. cbn [mbind option_bind].
    destruct (csi_semi p1 acc n i Hat1) as (p2 & E2 & Hat2); [lia |].
    rewrite <- app_comm_cons, feed_cons, E2. cbn [mbind option_bind].
    destruct (IH p2 ST_CSI_PARAM (acc ++ [n]) false Hat2) as (p3 & E3 & Hg); try done.
    + by right.
    + rewrite zlen_app, zlen_cons, zlen_nil. lia.
    + cbn [join_semi] in E3. rewrite E3. exists p3. by rewrite <- app_assoc.
Qed.

Lemma feed_introducer p :
  ground p → ∃ p', feed p [27; ch "["] = Some (p', []) ∧ csi_at p' ST_CSI_ENTRY [] 0 false 0.
Proof.
  intros (Hs & Hn & Hb). rewrite feed_cons. unfold process_byte at 1. simpl. unfold process_esc.
  rewrite !decide_False by (rewrite Hs; done). eexists. by split.
Qed.

(** The private marker, if any, and what it leaves in [intermed]. *)
Definition marker_ok (marker : list Z) (i : Z) : Prop :=
  (marker = [] ∧ i = 0) ∨ (marker = [i] ∧ 0x3C <= i <= 0x3F).

Lemma csi_marker p marker i :
  csi_at p ST_CSI_ENTRY [] 0 false 0 → marker_ok marker i →
  ∃ p' s, feed p marker = Some (p', []) ∧ csi_at p' s [] 0 false i ∧
          (s = ST_CSI_ENTRY ∨ s = ST_CSI_PARAM).
Proof.
  intros Hat [[-> ->]|[-> Hi]]; [exists p, ST_CSI_ENTRY; by split_and!; [| | left] |].
  destruct Hat as [Hst Hps Hv Hd Hin [Hn Hb]]. rewrite feed_cons.
  rewrite process_byte_csi by (rewrite ?Hst; first [by left | lia]). rewrite Hst. simpl.
  unfold st_csi_entry, in_rng.
  replace ((ch "0" <=? i) && (i <=? ch "9")) with false by (chs; symmetry; zbool).
  replace (i =? ch ";") with false by (chs; symmetry; zbool).
  replace ((60 <=? i) && (i <=? 63)) with true by (symmetry; zbool).
  eexists _, ST_CSI_PARAM. split_and!; [done | | by right]. by constructor.
Qed.

Lemma feed_csi p marker i ps f :
  ground p → marker_ok marker i → ps ≠ [] → Forall param_exact ps → zlen ps <= VT_MAX_PARAMS →
  0x40 <= f <= 0x7E →
  ∃ p', feed p (csi_text marker ps f) = Some (p', [EvCsi ps i f]) ∧ ground p'.
Proof.
  intros Hg Hm Hne Hps Hlen Hf. unfold csi_text.
  change (27 :: ch "[" :: marker ++ join_semi ps ++ [f])
    with ([27; ch "["] ++ marker ++ join_semi ps ++ [f]).
  destruct (feed_introducer p Hg) as (p1 & E1 & Hat1).
  destruct (csi_marker p1 marker i Hat1 Hm) as (p2 & s & E2 & Hat2 & Hs).
  destruct (csi_params ps p2 s [] false i f Hat2 Hs) as (p3 & E3 & Hg3); try done.
  rewrite vt_parse_feed_app, E1. cbn [mbind option_bind].
  rewrite vt_parse_feed_app, E2. cbn [mbind option_bind].
  rewrite E3. by exists p3.
Qed.

(** A sequence without parameters: one parameter, not given. *)
Lemma feed_csi_empty p f :
  ground p → 0x40 <= f <= 0x7E →
  ∃ p', feed p [27; ch "["; f] = Some (p', [EvCsi [-1] 0 f]) ∧ ground p'.
Proof.
  intros Hg Hf. change [27; ch "["; f] with ([27; ch "["] ++ [f]).
  destruct (feed_introducer p Hg) as (p1 & E1 & [Hst Hps Hv Hd Hin [Hn Hb]]).
  rewrite vt_parse_feed_app, E1. cbn [mbind option_bind]. rewrite feed_cons.
  rewrite process_byte_csi by (rewrite ?Hst; first [by left | lia]). rewrite Hst. simpl.
  unfold st_csi_entry, in_rng.
  replace ((ch "0" <=? f) && (f <=? ch "9")) with false by (chs; symmetry; zbool).
  replace (f =? ch ";") with false by (chs; symmetry; zbool).
  replace ((60 <=? f) && (f <=? 63)) with false by (symmetry; zbool).
  replace ((32 <=? f) && (f <=? 47)) with false by (symmetry; zbool).
  replace ((64 <=? f) && (f <=? 126)) with true by (symmetry; zbool).
  cbn [mbind option_bind]. exists (set_state (csi_finish_param p1) ST_GROUND).
  split; [| by apply ground_finish]. unfold emit_csi, csi_finish_param. simpl. by rewrite Hps, Hd, Hin.
Qed.

(** A parameter, a blank, and the final byte. *)
Lemma feed_csi_sp p n f :
  ground p → param_exact n → 0x40 <= f <= 0x7E →
  ∃ p', feed p (27 :: ch "[" :: dump_fmt_int n ++ [ch " "; f]) = Some (p', [EvCsi [n] (ch " ") f]) ∧ ground p'.
Proof.
  intros Hg Hn Hf. change (27 :: ch "[" :: dump_fmt_int n ++ [ch " "; f])
    with ([27; ch "["] ++ dump_fmt_int n ++ [ch " "; f]).
  destruct (feed_introducer p Hg) as (p1 & E1 & Hat1).
  destruct (csi_param p1 ST_CSI_ENTRY [] 0 false 0 n Hat1) as (p2 & E2 & [Hst Hps Hv Hd Hin [Hne Hb]]);
    [by left | done |].
  rewrite vt_parse_feed_app, E1. cbn [mbind option_bind].
  rewrite vt_parse_feed_app, E2. cbn [mbind option_bind]. rewrite feed_cons.
  rewrite process_byte_csi by (rewrite ?Hst; first [by right | chs; lia]). rewrite Hst. simpl.
  unfold process_byte. simpl.
  replace (f =? 27) with false by (symmetry; zbool).
  unfold in_rng at 1. replace ((7 <=? f) && (f <=? 13)) with false by (symmetry; zbool). simpl.
  unfold st_csi_intermed, in_rng.
  replace ((32 <=? f) && (f <=? 47)) with false by (symmetry; zbool).
  replace ((64 <=? f) && (f <=? 126)) with true by (symmetry; zbool).
  cbn [mbind option_bind]. eexists. split.
  - unfold emit_csi. simpl. by rewrite Hps, Hd, Hv.
  - by split_and!.
Qed.

(** An OSC string of [rs], terminated by ST. *)
Definition osc_text (rs : list Z) : list Z := 27 :: ch "]" :: encode_all rs ++ [27; ch "\"].

(** The parser inside an OSC string. *)
Definition osc_at (p : vt_parse) (acc : list Z) : Prop :=
  wf_parse p ∧ p_state p = ST_OSC_STRING ∧ osc_buf p = acc.

Lemma osc_byte p acc c :
  osc_at p acc → is_byte c → c ≠ 7 → c ≠ 27 → zlen acc + 1 < VT_OSC_MAX →
  ∃ p', process_byte tbl p c = Some (p', []) ∧ osc_at p' (acc ++ [c]).
Proof.
  intros (Hwf & Hst & <-) Hc H7 H27 Hlen. unfold process_byte.
  destruct (Z.eqb_spec c 27); [done |]. rewrite Hst. simpl.
  unfold st_osc_string. destruct (Z.eqb_spec c 7); [done |].
  pose proof (osc_append_ok p c Hwf Hc) as H. apply yields_Some in H as (p' & E & Hwf').
  rewrite E. exists p'. split; [done |]. split; [done |].
  unfold osc_append in E. destruct (Z.leb_spec VT_OSC_MAX (zlen (osc_buf p) + 1)); [lia |].
  case_match; [| done]. injection E as <-. by split.
Qed.

Lemma osc_bytes data p acc :
  osc_at p acc → Forall (λ c, is_byte c ∧ c ≠ 7 ∧ c ≠ 27) data → zlen acc + zlen data < VT_OSC_MAX →
  ∃ p', feed p data = Some (p', []) ∧ osc_at p' (acc ++ data).
Proof.
  revert p acc; induction data as [|c data IH]; intros p acc Hat Hd Hlen.
  { exists p. by rewrite app_nil_r. }
  apply Forall_cons in Hd as [(Hc & H7 & H27) Hd]. rewrite zlen_cons in Hlen.
  pose proof (zlen_nonneg data).
  destruct (osc_byte p acc c Hat Hc H7 H27) as (p1 & E1 & Hat1); [lia |].
  destruct (IH p1 (acc ++ [c]) Hat1 Hd) as (p2 & E2 & Hat2).
  { rewrite zlen_app, zlen_cons, zlen_nil. lia. }
  rewrite feed_cons, E1. cbn [mbind option_bind]. rewrite E2. exists p2. by rewrite <- app_assoc in Hat2.
Qed.

Lemma emit_osc_text p rs :
  osc_at p (encode_all rs) → Forall text_rune rs → rs ≠ [] →
  ∃ p', emit_osc p = Some (p', [EvOsc (encode_all rs)]).
Proof.
  intros (Hwf & Hst & Hb) Hrs Hne. pose proof (wp_osc _ Hwf) as Ho. rewrite Hb in Ho.
  assert (1 <= zlen (encode_all rs)) as Hlen.
  { destruct rs as [|r rs]; [done |]. apply Forall_cons in Hrs as [(Hv & _) _].
    pose proof (utf8_encode_nonempty r Hv). change (encode_all (r :: rs)) with (utf8_encode r ++ encode_all rs).
    rewrite zlen_app. pose proof (zlen_nonneg (encode_all rs)). lia. }
  unfold emit_osc. rewrite Hb. destruct Ho as [[_ Ho]|Ho].
  { rewrite Ho, zlen_nil in Hlen. lia. }
  destruct (Z.eqb_spec (osc_cap p) 0); [lia |].
  destruct (Z.ltb_spec (zlen (encode_all rs)) (osc_cap p)); [| lia].
  unfold utf8_trunc. destruct (Z.eqb_spec (zlen (encode_all rs) + 1) 0); [lia |].
  replace (zlen (encode_all rs) + 1 - 1) with (zlen (encode_all rs)) by lia.
  pose proof (utf8_trunc_loop_text (Z.to_nat (zlen (encode_all rs) + 1)) rs [] [0] Hrs ltac:(lia)) as E.
  change (zlen []) with 0 in E. rewrite Z.add_0_l in E. cbn [app] in E. rewrite E. cbn [mbind option_bind].
  unfold zlen at 1 2. rewrite Nat2Z.id, take_ge by lia. by eexists.
Qed.

Lemma feed_osc p rs :
  wf_parse p → ground p → Forall (λ r, text_rune r ∧ r ≠ 7 ∧ r ≠ 27) rs → rs ≠ [] →
  zlen (encode_all rs) < VT_OSC_MAX →
  ∃ p', feed p (osc_text rs) = Some (p', [EvOsc (encode_all rs); EvEsc 0 (ch "\")]) ∧ ground p'.
Proof.
  intros Hwf Hg Hrs Hne Hlen. unfold osc_text.
  assert (Forall text_rune rs) as Hrs' by (eapply Forall_impl; [exact Hrs | by intros ? []]).
  assert (Forall (λ c, is_byte c ∧ c ≠ 7 ∧ c ≠ 27) (encode_all rs)) as Hbytes.
  { clear -Hrs. induction Hrs as [|r rs ((Hv & Hr) & H7 & H27) Hrs IH]; [constructor |].
    change (encode_all (r :: rs)) with (utf8_encode r ++ encode_all rs). apply Forall_app. split; [| done].
    destruct (utf8_encode_first r Hv) as (b & bs & E & Hsm & Hlg).
    pose proof (utf8_encode_conts r b bs Hv E) as Hc. pose proof (utf8_encode_bytes r) as Hb.
    rewrite E in *. apply Forall_cons in Hb as [Hb Hbs]. constructor.
    - split; [done |]. destruct (Z.lt_ge_cases r 128); [destruct Hsm; lia | lia].
    - apply Forall_forall. intros c Hin. rewrite Forall_forall in Hc, Hbs.
      specialize (Hc c Hin). specialize (Hbs c Hin). split; [done | lia]. }
  change (27 :: ch "]" :: encode_all rs ++ [27; ch "\"])
    with ([27; ch "]"] ++ encode_all rs ++ [27; ch "\"]).
  destruct Hg as (Hs & Hn & Hb).
  assert (∃ p1, feed p [27; ch "]"] = Some (p1, []) ∧ osc_at p1 []) as (p1 & E1 & Hat1).
  { pose proof (vt_parse_feed_ok tbl p [27; ch "]"] Hwf) as H.
    rewrite feed_cons in *. unfold process_byte at 1 in H. unfold process_byte at 1. simpl in *.
    unfold process_esc in *. rewrite !decide_False in * by (rewrite Hs; done). simpl in *.
    eexists. split; [done |]. split; [| done]. apply H. repeat constructor; unfold is_byte; chs; lia. }
  destruct (osc_bytes (encode_all rs) p1 [] Hat1 Hbytes) as (p2 & E2 & Hat2); [by rewrite zlen_nil |].
  destruct (emit_osc_text p2 rs Hat2 Hrs' Hne) as (p3 & E3).
  rewrite vt_parse_feed_app, E1. cbn [mbind option_bind].
  rewrite vt_parse_feed_app, E2. cbn [mbind option_bind]. destruct Hat2 as (_ & Hst2 & _).
  rewrite feed_cons. unfold process_byte at 1. simpl. unfold process_esc.
  rewrite decide_False, decide_True by (rewrite ?Hst2; done). rewrite E3. cbn.
  eexists. split; [done |]. by split_and!.
Qed.
End SeqParse.

(** ** From bytes to the terminal's state *)

Section Plays.
Context (tbl : rune_width_table) `{!WidthTable tbl}.
Context (on_dcs : vt_state → Z → list Z → option vt_state).

Definition ready (p : vt_parse) : Prop := wf_parse p ∧ ground p.

(** The bytes [data] take a terminal at rest from [st] to [st']. *)
Definition plays (st : vt_state) (data : list Z) (st' : vt_state) : Prop :=
  ∀ p, ready p → ∃ p', vt_feed tbl on_dcs (p, st) data = Some (p', st') ∧ ready p'.

Lemma plays_nil st : plays st [] st.
Proof. intros p Hp. by exists p. Qed.

Lemma plays_app st d1 st1 d2 st2 :
  plays st d1 st1 → plays st1 d2 st2 → plays st (d1 ++ d2) st2.
Proof.
  intros H1 H2 p Hp. destruct (H1 p Hp) as (p1 & E1 & Hp1). destruct (H2 p1 Hp1) as (p2 & E2 & Hp2).
  exists p2. split; [| done]. rewrite vt_feed_app, E1. done.
Qed.

(** Bytes the parser turns into [evs]. *)
Lemma plays_events st data evs st' :
  Forall is_byte data →
  (∀ p, ready p → ∃ p', vt_parse_feed tbl p data = Some (p', evs) ∧ ground p') →
  apply_events on_dcs st evs = Some st' → plays st data st'.
Proof.
  intros Hd Hparse Hev p [Hwf Hg]. destruct (Hparse p (conj Hwf Hg)) as (p' & E & Hg').
  exists p'. unfold vt_feed. simpl. rewrite E. cbn [mbind option_bind]. rewrite Hev. split; [done |].
  split; [| done]. pose proof (vt_parse_feed_ok tbl p data Hwf Hd) as H. rewrite E in H. apply H.
Qed.

Lemma join_semi_bytes ps : Forall (Z.le 0) ps → Forall is_byte (join_semi ps).
Proof.
  assert (∀ n, 0 <= n → Forall is_byte (dump_fmt_int n)) as Hd.
  { intros n Hn. destruct (dump_fmt_int_spec n Hn) as (H & _). eapply Forall_impl; [exact H |].
    unfold is_digit, is_byte. lia. }
  induction ps as [|n ps IH]; intros Hps; [constructor |].
  apply Forall_cons in Hps as [Hn Hps]. destruct ps as [|n' ps]; [by apply Hd |].
  change (join_semi (n :: n' :: ps)) with (dump_fmt_int n ++ ch ";" :: join_semi (n' :: ps)).
  apply Forall_app. split; [by apply Hd |]. constructor; [unfold is_byte; chs; lia | by apply IH].
Qed.

Lemma plays_csi st marker i ps f st' :
  marker_ok marker i → ps ≠ [] → Forall param_exact ps → zlen ps <= VT_MAX_PARAMS →
  0x40 <= f <= 0x7E → op_csi st ps i f = Some st' → plays st (csi_text marker ps f) st'.
Proof.
  intros Hm Hne Hps Hlen Hf Hop. apply (plays_events _ _ [EvCsi ps i f]).
  - unfold csi_text. constructor; [unfold is_byte; lia |]. constructor; [unfold is_byte; chs; lia |].
    apply Forall_app. split; [destruct Hm as [[-> _]|[-> ?]]; repeat constructor; lia |].
    apply Forall_app. split; [| repeat constructor; lia]. apply join_semi_bytes.
    eapply Forall_impl; [exact Hps |]. unfold param_exact. lia.
  - intros p [_ Hg]. by apply feed_csi.
  - simpl. by rewrite Hop.
Qed.

Lemma plays_csi_empty st f st' :
  0x40 <= f <= 0x7E → op_csi st [-1] 0 f = Some st' → plays st [27; ch "["; f] st'.
Proof.
  intros Hf Hop. apply (plays_events _ _ [EvCsi [-1] 0 f]).
  - repeat constructor; chs; lia.
  - intros p [_ Hg]. by apply feed_csi_empty.
  - simpl. by rewrite Hop.
Qed.

Lemma plays_csi_sp st n f st' :
  param_exact n → 0x40 <= f <= 0x7E → op_csi st [n] (ch " ") f = Some st' →
  plays st (27 :: ch "[" :: dump_fmt_int n ++ [ch " "; f]) st'.
Proof.
  intros Hn Hf Hop. apply (plays_events _ _ [EvCsi [n] (ch " ") f]).
  - constructor; [unfold is_byte; lia |]. constructor; [unfold is_byte; chs; lia |].
    apply Forall_app. split; [| repeat constructor; chs; lia].
    apply (join_semi_bytes [n]). repeat constructor. apply Hn.
  - intros p [_ Hg]. by apply feed_csi_sp.
  - simpl. by rewrite Hop.
Qed.

Lemma plays_rune st r st' :
  plain_rune r → op_print st r (print_width tbl r) = Some st' → plays st (utf8_encode r) st'.
Proof.
  intros Hr Hop. apply (plays_events _ _ [EvPrint r (print_width tbl r)]).
  - apply utf8_encode_bytes.
  - intros p [_ Hg]. exists p. split; [by apply feed_rune | done].
  - simpl. by rewrite Hop.
Qed.

Lemma plays_osc st rs :
  Forall (λ r, text_rune r ∧ r ≠ 7 ∧ r ≠ 27) rs → rs ≠ [] → zlen (encode_all rs) < VT_OSC_MAX →
  plays st (osc_text rs) (op_osc st (encode_all rs)).
Proof.
  intros Hrs Hne Hlen. apply (plays_events _ _ [EvOsc (encode_all rs); EvEsc 0 (ch "\")]).
  - unfold osc_text. constructor; [unfold is_byte; lia |]. constructor; [unfold is_byte; chs; lia |].
    apply Forall_app. split; [| repeat constructor; chs; lia].
    unfold encode_all. apply Forall_concat, Forall_map, Forall_true. intros. apply utf8_encode_bytes.
  - intros p [Hwf Hg]. by apply feed_osc.
  - done.
Qed.
End Plays.

(** ** Correctness *)

(** Printing a control sequence and parsing it is a round trip: from the
    ground state, the bytes of a CSI sequence with an optional private marker,
    one to sixteen parameters in range and a final byte are read back as that
    one action, with nothing printed, and leave the parser in the ground
    state. *)
Theorem csi_roundtrip tbl p marker i ps f :
  ground p → marker_ok marker i → ps ≠ [] → Forall param_exact ps → zlen ps <= VT_MAX_PARAMS →
  0x40 <= f <= 0x7E →
  ∃ p', vt_parse_feed tbl p (csi_text marker ps f) = Some (p', [EvCsi ps i f]) ∧ ground p'.
Proof. intros. by apply feed_csi. Qed.

Lemma csi_roundtrip_witness :
  ∃ p', vt_parse_feed table_9_0_0 vt_parse_new (csi_text [ch "?"] [1049; 0; 65535] (ch "h"))
        = Some (p', [EvCsi [1049; 0; 65535] (ch "?") (ch "h")]) ∧ ground p'.
Proof.
  apply (csi_roundtrip table_9_0_0 vt_parse_new [ch "?"] (ch "?") [1049; 0; 65535] (ch "h")).
  - by split_and!.
  - right. split; [done | chs; lia].
  - done.
  - repeat (apply Forall_cons_2; [unfold param_exact, PARAM_MAX; lia |]); apply Forall_nil_2.
  - vm_compute. discriminate.
  - chs. lia.
Defined.

(** An OSC string of clean text that fits the buffer is delivered whole,
    byte for byte, and the parser is back in the ground state after its
    terminator. *)
Theorem osc_roundtrip tbl p rs :
  WidthTable tbl → wf_parse p → ground p → Forall (λ r, text_rune r ∧ r ≠ 7 ∧ r ≠ 27) rs → rs ≠ [] →
  zlen (encode_all rs) < VT_OSC_MAX →
  ∃ p', vt_parse_feed tbl p (osc_text rs) = Some (p', [EvOsc (encode_all rs); EvEsc 0 (ch "\")]) ∧ ground p'.
Proof. intros Ht. by apply feed_osc. Qed.

Lemma osc_roundtrip_witness :
  ∃ p', vt_parse_feed table_9_0_0 vt_parse_new (osc_text [50; 59; 0xE9; 0x4E00])
        = Some (p', [EvOsc (encode_all [50; 59; 0xE9; 0x4E00]); EvEsc 0 (ch "\")]) ∧ ground p'.
Proof.
  apply (osc_roundtrip table_9_0_0 vt_parse_new [50; 59; 0xE9; 0x4E00]).
  - apply builtin_ok. unfold rune_width_builtin. rewrite !elem_of_cons. auto.
  - apply wf_parse_new.
  - by split_and!.
  - repeat constructor; unfold UTF8_RUNE_MAX, UTF8_RUNE_ERROR; lia.
  - done.
  - vm_compute. reflexivity.
Defined.

(** A CSI sequence with a colon sub-parameter is not ignored as a whole:
    the colon drops the parser to the ground state, no action is performed, and
    what follows, final byte included, is printed on the screen. *)
Theorem csi_colon_leaks tbl p n rs :
  WidthTable tbl → ground p → param_exact n → Forall plain_rune rs →
  ∃ p', vt_parse_feed tbl p ([27; ch "["] ++ dump_fmt_int n ++ ch ":" :: encode_all rs)
        = Some (p', map (λ r, EvPrint r (print_width tbl r)) rs) ∧ ground p'.
Proof.
  intros Ht Hg Hn Hrs. destruct (feed_introducer tbl p Hg) as (p1 & E1 & Hat1).
  destruct (csi_param tbl p1 ST_CSI_ENTRY [] 0 false 0 n Hat1) as (p2 & E2 & [Hst Hps Hv Hd Hin [Hne Hb]]);
    [by left | done |].
  rewrite vt_parse_feed_app, E1. cbn [mbind option_bind].
  rewrite vt_parse_feed_app, E2. cbn [mbind option_bind]. rewrite feed_cons.
  rewrite process_byte_csi by (rewrite ?Hst; first [by right | chs; lia]). rewrite Hst.
  assert (ground (set_state p2 ST_GROUND)) as Hg' by (by split_and!).
  change (if decide (ST_CSI_PARAM = ST_CSI_ENTRY) then st_csi_entry p2 (ch ":") else st_csi_param p2 (ch ":"))
    with (set_state p2 ST_GROUND, @nil vt_event).
  cbn [mbind option_bind]. rewrite feed_text by done. exists (set_state p2 ST_GROUND). by split.
Qed.

Lemma csi_colon_leaks_witness :
  ∃ p', vt_parse_feed table_15_1_0 vt_parse_new ([27; ch "["] ++ dump_fmt_int 4 ++ ch ":" :: encode_all ([51; 109; 88]))
        = Some (p', map (λ r, EvPrint r (print_width table_15_1_0 r)) ([51; 109; 88])) ∧ ground p'.
Proof.
  apply (csi_colon_leaks table_15_1_0 vt_parse_new 4 ([51; 109; 88])).
  - apply builtin_ok. unfold rune_width_builtin. rewrite !elem_of_cons. auto.
  - by split_and!.
  - unfold param_exact, PARAM_MAX. lia.
  - repeat constructor; unfold UTF8_RUNE_MAX; lia.
Defined.
