(* ===== verification/VtClient.v ===== *)
(** * A terminal that is sent styled text

    What the dump and the renderer share: SGR parameter lists and what the
    terminal's loop over them makes of the pen, the class of terminals that
    print what they are sent ([client]), and the effect on such a terminal of
    playing a style, a printable character or a cursor position. *)

From S2P Require Import Prelude Utf8 WidthTables RuneWidth VtBuf VtParse Decimal VtState VtOps VtSeq.

(** Bytes written to a buffer of [cap] bytes; a write past it is a trap. *)
Definition in_buf (cap : Z) (l : list Z) : option (list Z) :=
  if zlen l <=? cap then Some l else None.

(** [snprintf] into [cap] bytes whose result length is then emitted. *)
Definition in_snprintf (cap : Z) (l : list Z) : option (list Z) :=
  if zlen l <? cap then Some l else None.

(** The [ATTR] lines: flag and SGR code. *)
Definition attr_codes : list (Z * Z) :=
  [(VT_ATTR_BOLD, 1); (VT_ATTR_DIM, 2); (VT_ATTR_ITALIC, 3); (VT_ATTR_UNDERLINE, 4);
   (VT_ATTR_BLINK, 5); (VT_ATTR_REVERSE, 7); (VT_ATTR_HIDDEN, 8); (VT_ATTR_STRIKE, 9)].

Definition semis (ps : list Z) : list Z := concat (map (λ n, ch ";" :: dump_fmt_int n) ps).

Lemma semis_app ps qs : semis (ps ++ qs) = semis ps ++ semis qs.
Proof. unfold semis. by rewrite map_app, concat_app. Qed.

Lemma join_semi_semis p ps : join_semi (p :: ps) = dump_fmt_int p ++ semis ps.
Proof.
  revert p; induction ps as [|q ps IH]; intros p; [unfold semis; simpl; by rewrite app_nil_r |].
  change (join_semi (p :: q :: ps)) with (dump_fmt_int p ++ ch ";" :: join_semi (q :: ps)).
  by rewrite IH.
Qed.

Definition attr_params (a : Z) : list Z :=
  concat (map (λ fc, if has_bits a fc.1 then [fc.2] else []) attr_codes).

Definition color_params (base bright ext : Z) (c : vt_color) : list Z :=
  match c with
  | VT_COLOR_DEFAULT => []
  | VT_COLOR_INDEXED n =>
      if n <? 8 then [base + n] else if n <? 16 then [bright + n - 8] else [ext; 5; n]
  | VT_COLOR_RGB r g b => [ext; 2; r; g; b]
  end.

Definition sgr_params (c : vt_cell) : list Z :=
  0 :: attr_params (cell_attrs c) ++ color_params 30 90 38 (cell_fg c) ++ color_params 40 100 48 (cell_bg c).

Lemma sgr_loop_fuel f1 f2 ps pn :
  (length ps <= f1)%nat → (length ps <= f2)%nat → sgr_loop f1 ps pn = sgr_loop f2 ps pn.
Proof.
  revert f2 ps pn; induction f1 as [|f1 IH]; intros f2 ps pn H1 H2.
  { destruct ps; [by destruct f2 | simpl in H1; lia]. }
  destruct ps as [|p ps]; [by destruct f2 |]. destruct f2 as [|f2]; [simpl in H2; lia |].
  simpl in H1, H2. simpl. destruct pn as [[a f] b].
  assert (∀ c rest, sgr_extended ps = Some (c, rest) → (length rest <= length ps)%nat) as Hext.
  { intros c rest E. unfold sgr_extended in E. repeat case_match; simplify_eq; simpl; lia. }
  repeat case_match; try (apply IH; lia);
    specialize (Hext _ _ eq_refl); apply IH; lia.
Qed.

(** Codes that are neither 38 nor 48 act one by one. *)
Lemma sgr_loop_simple ps rest pn :
  Forall (λ p, 0 <= p ∧ p ≠ 38 ∧ p ≠ 48) ps →
  sgr_loop (length (ps ++ rest)) (ps ++ rest) pn =
  sgr_loop (length rest) rest (foldl (λ pn p, sgr_one p pn) pn ps).
Proof.
  intros Hps. revert pn; induction Hps as [|p ps (H0 & H38 & H48) Hps IH]; intros pn; [done |].
  cbn [app length sgr_loop foldl]. destruct pn as [[a f] b].
  destruct (Z.ltb_spec p 0); [lia |]. destruct (Z.eqb_spec p 38); [lia |].
  destruct (Z.eqb_spec p 48); [lia |]. apply IH.
Qed.

(** The attributes that SGR can express: not undercurl, not predicted. *)
Definition DUMP_ATTRS : Z := 479.

Lemma attr_params_pen a :
  0 <= a < 512 → Z.land a 32 = 0 →
  foldl (λ pn p, sgr_one p pn) plain_pen (attr_params a) = (a, VT_COLOR_DEFAULT, VT_COLOR_DEFAULT) ∧
  Forall (λ p, 0 <= p ∧ p ≠ 38 ∧ p ≠ 48) (attr_params a).
Proof.
  intros Ha Hu.
  enough (bool_decide (foldl (λ pn p, sgr_one p pn) plain_pen (attr_params a) =
     (a, VT_COLOR_DEFAULT, VT_COLOR_DEFAULT)) || negb (Z.land a 32 =? 0) = true) as H.
  { split.
    - apply orb_true_iff in H as [H|H]; [by apply bool_decide_eq_true in H |].
      by rewrite Hu in H.
    - clear. unfold attr_params. simpl. repeat case_match; repeat constructor; lia. }
  clear Hu. revert a Ha.
  apply (forall_range (λ a, bool_decide (foldl (λ pn p, sgr_one p pn) plain_pen (attr_params a) =
     (a, VT_COLOR_DEFAULT, VT_COLOR_DEFAULT)) || negb (Z.land a 32 =? 0))).
  vm_compute. reflexivity.
Qed.

Lemma attr_params_short a : zlen (attr_params a) <= 8 ∧ Forall (λ n, 1 <= n < 10) (attr_params a).
Proof.
  unfold attr_params. simpl. split; [repeat case_match; unfold zlen; simpl; lia |].
  repeat case_match; repeat (constructor; [lia |]); constructor.
Qed.

(** Colour components are bytes, as in [struct vt_color]. *)
Definition color_typed (c : vt_color) : Prop :=
  match c with
  | VT_COLOR_DEFAULT => True
  | VT_COLOR_INDEXED n => is_byte n
  | VT_COLOR_RGB r g b => is_byte r ∧ is_byte g ∧ is_byte b
  end.

(** The extended colours, one turn of the loop each. *)
Lemma sgr_38_5 f n rest a fgc bgc :
  sgr_loop (S f) (38 :: 5 :: n :: rest) (a, fgc, bgc) = sgr_loop f rest (a, VT_COLOR_INDEXED (u8 n), bgc).
Proof. reflexivity. Qed.

Lemma sgr_48_5 f n rest a fgc bgc :
  sgr_loop (S f) (48 :: 5 :: n :: rest) (a, fgc, bgc) = sgr_loop f rest (a, fgc, VT_COLOR_INDEXED (u8 n)).
Proof. reflexivity. Qed.

Lemma sgr_38_2 f r g b rest a fgc bgc :
  sgr_loop (S f) (38 :: 2 :: r :: g :: b :: rest) (a, fgc, bgc)
  = sgr_loop f rest (a, VT_COLOR_RGB (u8 r) (u8 g) (u8 b), bgc).
Proof. reflexivity. Qed.

Lemma sgr_48_2 f r g b rest a fgc bgc :
  sgr_loop (S f) (48 :: 2 :: r :: g :: b :: rest) (a, fgc, bgc)
  = sgr_loop f rest (a, fgc, VT_COLOR_RGB (u8 r) (u8 g) (u8 b)).
Proof. reflexivity. Qed.

Lemma sgr_loop_fg c rest a f b :
  color_typed c → (c = VT_COLOR_DEFAULT → f = VT_COLOR_DEFAULT) →
  sgr_loop (length (color_params 30 90 38 c ++ rest)) (color_params 30 90 38 c ++ rest)
    (a, f, b) = sgr_loop (length rest) rest (a, c, b).
Proof.
  intros Hc Hf. unfold color_params. destruct c as [|n|r g bl]; simpl in Hc; [by rewrite Hf | |].
  - unfold is_byte in Hc. destruct (Z.ltb_spec n 8); [| destruct (Z.ltb_spec n 16)].
    + rewrite sgr_loop_simple by (repeat constructor; lia). f_equal.
      assert (n = 0 ∨ n = 1 ∨ n = 2 ∨ n = 3 ∨ n = 4 ∨ n = 5 ∨ n = 6 ∨ n = 7) as Hn by lia.
      by destruct_or! Hn; subst n.
    + rewrite sgr_loop_simple by (repeat constructor; lia). f_equal.
      assert (n = 8 ∨ n = 9 ∨ n = 10 ∨ n = 11 ∨ n = 12 ∨ n = 13 ∨ n = 14 ∨ n = 15) as Hn by lia.
      by destruct_or! Hn; subst n.
    + cbn [app length]. rewrite sgr_38_5, u8_small by lia. apply sgr_loop_fuel; lia.
  - destruct Hc as (? & ? & ?). unfold is_byte in *. cbn [app length].
    rewrite sgr_38_2, !u8_small by lia. apply sgr_loop_fuel; lia.
Qed.

Lemma sgr_loop_bg c rest a f b :
  color_typed c → (c = VT_COLOR_DEFAULT → b = VT_COLOR_DEFAULT) →
  sgr_loop (length (color_params 40 100 48 c ++ rest)) (color_params 40 100 48 c ++ rest)
    (a, f, b) = sgr_loop (length rest) rest (a, f, c).
Proof.
  intros Hc Hf. unfold color_params. destruct c as [|n|r g bl]; simpl in Hc; [by rewrite Hf | |].
  - unfold is_byte in Hc. destruct (Z.ltb_spec n 8); [| destruct (Z.ltb_spec n 16)].
    + rewrite sgr_loop_simple by (repeat constructor; lia). f_equal.
      assert (n = 0 ∨ n = 1 ∨ n = 2 ∨ n = 3 ∨ n = 4 ∨ n = 5 ∨ n = 6 ∨ n = 7) as Hn by lia.
      by destruct_or! Hn; subst n.
    + rewrite sgr_loop_simple by (repeat constructor; lia). f_equal.
      assert (n = 8 ∨ n = 9 ∨ n = 10 ∨ n = 11 ∨ n = 12 ∨ n = 13 ∨ n = 14 ∨ n = 15) as Hn by lia.
      by destruct_or! Hn; subst n.
    + cbn [app length]. rewrite sgr_48_5, u8_small by lia. apply sgr_loop_fuel; lia.
  - destruct Hc as (? & ? & ?). unfold is_byte in *. cbn [app length].
    rewrite sgr_48_2, !u8_small by lia. apply sgr_loop_fuel; lia.
Qed.

(** A cell whose style SGR can carry, in as many parameters as a sequence
    may have. *)
Record style_ok (c : vt_cell) : Prop := {
  so_attrs : 0 <= cell_attrs c < 512 ∧ Z.land (cell_attrs c) VT_ATTR_UNDERCURL = 0;
  so_fg : color_typed (cell_fg c);
  so_bg : color_typed (cell_bg c);
  so_params : zlen (sgr_params c) <= VT_MAX_PARAMS;
}.

Lemma sgr_params_pen c pn :
  style_ok c →
  sgr_loop (length (sgr_params c)) (sgr_params c) pn = (cell_attrs c, cell_fg c, cell_bg c).
Proof.
  intros [[Ha Hu] Hf Hb _]. destruct (attr_params_pen (cell_attrs c) Ha Hu) as (Hpen & Hsimple).
  unfold sgr_params.
  match goal with |- sgr_loop (length (0 :: ?l)) _ _ = _ => change (0 :: l) with ([0] ++ l) end.
  rewrite sgr_loop_simple by (repeat constructor; lia).
  assert (foldl (λ pn p, sgr_one p pn) pn [0] = plain_pen) as -> by (by destruct pn as [[? ?] ?]).
  rewrite sgr_loop_simple by done. rewrite Hpen, sgr_loop_fg by done.
  rewrite <- (app_nil_r (color_params 40 100 48 (cell_bg c))), sgr_loop_bg by done. done.
Qed.

(** Small numbers are read back exactly. *)
Ltac all_exact :=
  repeat (apply Forall_cons_2; [unfold param_exact, PARAM_MAX in *; lia |]); apply Forall_nil_2.

Lemma color_params_exact base bright ext c :
  0 <= base <= 200 → 0 <= bright <= 200 → 0 <= ext < 256 → color_typed c →
  Forall param_exact (color_params base bright ext c).
Proof.
  intros H1 H2 H3 Hc. unfold color_params. destruct c; simpl in Hc; unfold is_byte in Hc.
  - constructor.
  - repeat case_match; all_exact.
  - destruct Hc as (? & ? & ?). all_exact.
Qed.

Lemma sgr_params_exact c : style_ok c → Forall param_exact (sgr_params c).
Proof.
  intros [[Ha Hu] Hf Hb _]. unfold sgr_params. constructor; [unfold param_exact, PARAM_MAX; lia |].
  apply Forall_app. split.
  - eapply Forall_impl; [apply attr_params_short |]. intros n Hn. simpl in Hn. unfold param_exact, PARAM_MAX. lia.
  - apply Forall_app. split; apply color_params_exact; (done || lia).
Qed.

Lemma zlen_semis k ps : Forall (λ n, n < 10 ^ k) ps → 1 <= k → zlen (semis ps) <= (k + 1) * zlen ps.
Proof.
  intros Hps Hk. induction Hps as [|n ps Hn Hps IH]; [unfold semis, zlen; simpl; lia |].
  change (semis (n :: ps)) with ((ch ";" :: dump_fmt_int n) ++ semis ps).
  rewrite zlen_app, !zlen_cons. pose proof (dump_fmt_int_length k n Hk Hn). lia.
Qed.

(** A colour takes at most seventeen bytes, its semicolon included. *)
Lemma color_params_text base bright ext c :
  0 <= base < 50 → 0 <= bright <= 100 → 10 <= ext < 100 → color_typed c →
  zlen (semis (color_params base bright ext c)) <= 17.
Proof.
  intros H3 H4 H5 Hc. unfold color_params. destruct c; simpl in Hc; unfold is_byte in Hc.
  - unfold semis, zlen. simpl. lia.
  - repeat case_match.
    + pose proof (zlen_semis 3 [base + index] ltac:(repeat constructor; lia) ltac:(lia)) as H'.
      rewrite zlen_cons, zlen_nil in H'. lia.
    + pose proof (zlen_semis 3 [bright + index - 8] ltac:(repeat constructor; lia) ltac:(lia)) as H'.
      rewrite zlen_cons, zlen_nil in H'. lia.
    + pose proof (zlen_semis 3 [ext; 5; index] ltac:(repeat constructor; lia) ltac:(lia)) as H'.
      rewrite !zlen_cons, zlen_nil in H'. lia.
  - destruct Hc as (? & ? & ?).
    pose proof (zlen_semis 2 [ext] ltac:(repeat constructor; lia) ltac:(lia)) as H1'.
    pose proof (zlen_semis 1 [2] ltac:(repeat constructor; lia) ltac:(lia)) as H2'.
    pose proof (zlen_semis 3 [r; g; b] ltac:(repeat constructor; lia) ltac:(lia)) as H3'.
    change [ext; 2; r; g; b] with ([ext] ++ [2] ++ [r; g; b]). rewrite !semis_app, !zlen_app.
    rewrite !zlen_cons, zlen_nil in *. lia.
Qed.

(** The attribute codes take two bytes each. *)
Lemma small_text ps : Forall (λ n, 1 <= n < 10) ps → zlen (semis ps) <= 2 * zlen ps.
Proof.
  intros H. apply (zlen_semis 1); [| lia]. eapply Forall_impl; [exact H |]. simpl. lia.
Qed.

(** The codepoints and the style of a printable cell. *)
Definition cont_cell : vt_cell := {| vt_cell_clear with cell_width := 0 |}.

Section Client.
Context (tbl : rune_width_table) `{!WidthTable tbl}.
Context (on_dcs : vt_state → Z → list Z → option vt_state).
Context (R C : Z).
Implicit Types (st : vt_state).

Local Notation "'plays'" := (plays tbl on_dcs).

(** A cell a terminal can have got by printing its codepoint. *)
Definition cell_ok (c : vt_cell) : Prop :=
  plain_rune (codepoint c) ∧ cell_width c = print_width tbl (codepoint c) ∧ style_ok c.

(** A client that prints what it is sent: no insert or origin mode, and
    ASCII in use. *)
Record client st : Prop := {
  cl_wf : wf_state R C st;
  cl_insert : has_bits (modes st) VT_MODE_INSERT = false;
  cl_origin : has_bits (modes st) VT_MODE_ORIGIN = false;
  cl_ascii : (if charset st =? 0 then g0_set st else g1_set st) ≠ 1;
}.

(** The cells of a row of the current target. *)
Definition row_cells st (i : Z) : option (list vt_cell) :=
  b ← cur_buf st; r ← aget (grid b) i; Some (cells r).

(** What the steps below leave alone. *)
Definition keeps st st' : Prop :=
  modes st' = modes st ∧ charset st' = charset st ∧ g0_set st' = g0_set st ∧ g1_set st' = g1_set st ∧
  title st' = title st.

Lemma keeps_refl st : keeps st st.
Proof. by split_and!. Qed.

Lemma keeps_trans st1 st2 st3 : keeps st1 st2 → keeps st2 st3 → keeps st1 st3.
Proof. intros (? & ? & ? & ? & ?) (? & ? & ? & ? & ?). split_and!; by etrans. Qed.

Lemma client_keeps st st' : client st → keeps st st' → wf_state R C st' → client st'.
Proof.
  intros [? ? ? ?] (Hm & Hc & H0 & H1 & _) ?. constructor; [done | | |]; by rewrite ?Hm, ?Hc, ?H0, ?H1.
Qed.

Lemma op_csi_plain st ps f : op_csi st ps 0 f = csi_plain st ps f.
Proof. done. Qed.

Lemma op_csi_sgr st ps : wf_state R C st → op_csi st ps 0 (ch "m") = Some (csi_sgr st ps).
Proof.
  intros Hwf. destruct (cur_buf_ok _ _ _ Hwf) as (b & Hb & _).
  rewrite op_csi_plain. unfold csi_plain. rewrite Hb. done.
Qed.

Lemma row_cells_with_pen st p i : row_cells (with_pen st p) i = row_cells st i.
Proof. done. Qed.

(** An SGR step sets the pen and nothing else. *)
Lemma step_sgr st ps p :
  client st → ps ≠ [] → Forall param_exact ps → zlen ps <= VT_MAX_PARAMS →
  sgr_loop (length ps) ps (pen_of st) = p →
  plays st (csi_text [] ps (ch "m")) (with_pen st p) ∧ client (with_pen st p).
Proof.
  intros Hc Hne Hps Hlen Hp. split.
  - eapply plays_csi; try done; [by left |].
    rewrite op_csi_sgr by apply Hc. f_equal. unfold csi_sgr. rewrite Hp.
    destruct ps; [done |]. rewrite zlen_cons. pose proof (zlen_nonneg ps).
    destruct (Z.eqb_spec (zlen ps + 1) 0); [lia | done].
  - apply (client_keeps st); [done | by split_and! |]. apply wf_with_pen, Hc.
Qed.

(** Printing a cell's codepoint with its style as the pen. *)
Lemma step_print st c r :
  client st → cell_ok c → 1 <= cell_width c <= 2 → pen_of st = (cell_attrs c, cell_fg c, cell_bg c) →
  cursor_col st + cell_width c <= C → row_cells st (cursor_row st) = Some r →
  let col := cursor_col st in
  let w := cell_width c in
  ∃ st', plays st (utf8_encode (codepoint c)) st' ∧ client st' ∧ keeps st st' ∧
    pen_of st' = pen_of st ∧ cursor_row st' = cursor_row st ∧
    (col + w < C → cursor_col st' = col + w) ∧
    row_cells st' (cursor_row st) =
      Some (if w =? 2 then <[Z.to_nat (col + 1) := cont_cell]> (<[Z.to_nat col := c]> r)
            else <[Z.to_nat col := c]> r) ∧
    ∀ i, i ≠ cursor_row st → row_cells st' i = row_cells st i.
Proof.
  intros Hc (Hrune & Hw & Hstyle) Hw12 Hpen Hfit Hrow col w.
  pose proof (ws_cursor _ _ _ (cl_wf _ Hc)) as [Hr0 Hc0].
  pose proof (vt_state_putchar_fits R C st (codepoint c) w (cl_wf _ Hc) ltac:(lia) Hfit
                ltac:(lia) (cl_insert _ Hc)) as H.
  apply yields_Some in H as (st' & E & Hwf' & b & r0 & Hb & Er & ->).
  assert (op_print st (codepoint c) (print_width tbl (codepoint c)) = Some (set_col
    (put_target st (active_target st) (Some (with_grid_row b (cursor_row st)
              (put_row C (cursor_col st) w (glyph st (codepoint c) w) r0)))) (advance C st w))) as Hop.
  { unfold op_print. rewrite <- Hw.
    destruct (Z.eqb_spec (if charset st =? 0 then g0_set st else g1_set st) 1); [by destruct (cl_ascii _ Hc) |].
    exact E. }
  match type of Hop with _ = Some ?s => set (st1 := s) in * end.
  exists st1. split; [by eapply plays_rune |].
  assert (glyph st (codepoint c) w = c) as Hg.
  { unfold glyph, w. unfold pen_of in Hpen. injection Hpen as -> -> ->. by destruct c. }
  assert (keeps st st1) as Hk by repeat split.
  split; [by apply (client_keeps st) |]. split; [done |]. split; [done |]. split; [done |].
  assert (cur_buf st1 = Some (with_grid_row b (cursor_row st)
              (put_row C (cursor_col st) w (glyph st (codepoint c) w) r0))) as Hb' by (apply cur_buf_put).
  unfold row_cells in *. rewrite Hb'. rewrite Hb in *. cbn [mbind option_bind] in *.
  rewrite Er in Hrow. cbn [mbind option_bind] in Hrow. injection Hrow as <-.
  destruct (cur_buf_ok _ _ _ (cl_wf _ Hc)) as (b0 & Hb0 & h & Hr). simplify_eq.
  pose proof (br_size _ _ _ _ Hr) as Hsz.
  split_and!.
  - intros Hlt. change (cursor_col st1) with (advance C st w). unfold advance. rewrite Z.min_r by (unfold col in *; lia).
    case_match; [done |]. apply Z.min_l. unfold col, w in *. lia.
  - cbn [grid with_grid_row]. rewrite aget_insert, decide_True by (done || lia).
    cbn [mbind option_bind]. rewrite Hg. unfold put_row. cbn [cells row_dirty]. f_equal.
    destruct (Z.eqb_spec w 2); simpl; [| done]. destruct (Z.ltb_spec (cursor_col st + 1) C); [done | unfold w in *; lia].
  - intros i Hi. cbn [grid with_grid_row]. rewrite aget_insert, decide_False by (done || lia). done.
Qed.

Definition pen_of_cell (c : vt_cell) : pen := (cell_attrs c, cell_fg c, cell_bg c).

Lemma with_own_pen st : with_pen st (pen_of st) = st.
Proof. by destruct st. Qed.

(** What printing [c] at column [k] makes of a row. *)
Definition written (k : Z) (c : vt_cell) (r : list vt_cell) : list vt_cell :=
  if cell_width c =? 2 then <[Z.to_nat (k + 1) := cont_cell]> (<[Z.to_nat k := c]> r)
  else <[Z.to_nat k := c]> r.

Lemma zlen_written k c r : zlen (written k c r) = zlen r.
Proof. unfold written. case_match; by rewrite !zlen_insert. Qed.

Definition cup_text (r c : Z) : list Z := csi_text [] [r; c] (ch "H").

Lemma cup_text_eq r c :
  27 :: str "[" ++ dump_fmt_int r ++ str ";" ++ dump_fmt_int c ++ str "H" = cup_text r c.
Proof. unfold cup_text, csi_text. simpl. by rewrite <- app_assoc. Qed.

Lemma cup_fits r c : r <= PARAM_MAX → c <= PARAM_MAX → in_buf 32 (cup_text r c) = Some (cup_text r c).
Proof.
  unfold PARAM_MAX. intros Hr Hc. unfold in_buf. enough (zlen (cup_text r c) <= 32) by zbool.
  unfold cup_text, csi_text. cbn [app join_semi]. rewrite !zlen_cons, !zlen_app, !zlen_cons, zlen_nil.
  pose proof (dump_fmt_int_length 6 r ltac:(lia) ltac:(lia)).
  pose proof (dump_fmt_int_length 6 c ltac:(lia) ltac:(lia)). lia.
Qed.

Lemma step_cup st r c :
  client st → 0 <= r < R → 0 <= c <= C → R <= PARAM_MAX → C < PARAM_MAX →
  let st' := set_cursor (set_col (set_row st r) c) r (Z.min c (C - 1)) in
  plays st (cup_text (r + 1) (c + 1)) st' ∧ client st'.
Proof.
  intros Hc Hr Hc0 HR HC st'. pose proof (ws_dims _ _ _ (cl_wf _ Hc)).
  assert (wf_state R C st') as Hwf' by (apply (wf_set_cursor R C (set_col (set_row st r) c));
    [apply wf_set_col; [apply wf_set_row; [apply Hc | lia] | lia] | lia | lia]).
  split; [| by apply (client_keeps st); [| repeat split |]].
  eapply plays_csi; try done; [by left | all_exact |].
  destruct (cur_buf_ok _ _ _ (cl_wf _ Hc)) as (b & Hb & h & Hrepr).
  rewrite op_csi_plain. unfold csi_plain. rewrite Hb. cbn [mbind option_bind].
  assert (param_or [r + 1; c + 1] 0 1 = r + 1) as -> by (unfold param_or; simpl; zbool).
  assert (param_or [r + 1; c + 1] 1 1 = c + 1) as -> by (unfold param_or; simpl; zbool).
  cbn [switch]. change (ch "H" =? ch "H") with true. simpl.
  unfold goto_row. rewrite (cl_origin _ Hc).
  match goal with |- vt_state_cursor_clamp ?s = _ =>
    destruct (vt_state_cursor_clamp_ok R C s) as [-> _] end.
  - apply (wf_set_cursor R C st); [apply Hc | lia | lia].
  - f_equal. unfold st'. cbn [cursor_row cursor_col set_col set_row].
    replace (r + 1 - 1) with r by lia. replace (c + 1 - 1) with c by lia.
    rewrite clamp_id by lia. f_equal. unfold clamp. zbool.
Qed.

(** A step of an operation that leaves the invariant alone. *)
Lemma step_op st marker i ps f st' :
  client st → marker_ok marker i → ps ≠ [] → Forall param_exact ps → zlen ps <= VT_MAX_PARAMS →
  0x40 <= f <= 0x7E → op_csi st ps i f = Some st' →
  plays st (csi_text marker ps f) st' ∧ wf_state R C st'.
Proof.
  intros Hc Hm Hne Hps Hlen Hf Hop. split; [by eapply plays_csi |].
  assert (Forall param_ok ps) as Hok.
  { eapply Forall_impl; [exact Hps |]. unfold param_exact, param_ok. lia. }
  pose proof (op_csi_ok R C st ps i f (cl_wf _ Hc) Hok) as H. by rewrite Hop in H.
Qed.
(** *** Erasing *)

Lemma row_cells_erased st b b' h h' span bgc i :
  cur_buf st = Some b → buf_repr R C b h → buf_repr R C b' h' → screen_erased span bgc b b' →
  row_cells (put_target st (active_target st) (Some b')) i =
  fill (span i).1 (span i).2 (vt_cell_erase bgc) <$> row_cells st i.
Proof.
  intros Hb Hr Hr' He. unfold row_cells. rewrite cur_buf_put, Hb. cbn [mbind option_bind].
  destruct (aget (grid b) i) as [r|] eqn:E.
  - destruct (He i r E) as (r' & -> & Hc). cbn [mbind option_bind fmap option_fmap option_map]. by rewrite Hc.
  - apply aget_None in E. rewrite (br_size _ _ _ _ Hr) in E.
    rewrite (proj2 (aget_None (grid b') i)); [done |]. by rewrite (br_size _ _ _ _ Hr').
Qed.

(** Erase to the end of the line with the pen's background. *)
Lemma step_erase_line st :
  client st →
  ∃ st', plays st (27 :: str "[K") st' ∧ client st' ∧ keeps st st' ∧ pen_of st' = pen_of st ∧
    cursor_row st' = cursor_row st ∧ cursor_col st' = cursor_col st ∧
    ∀ i, row_cells st' i =
      fill (if i =? cursor_row st then cursor_col st else 0) (if i =? cursor_row st then C else 0)
        (vt_cell_erase (bg st)) <$> row_cells st i.
Proof.
  intros Hc. destruct (ws_cursor _ _ _ (cl_wf _ Hc)) as [Hrow Hcol].
  destruct (cur_buf_ok _ _ _ (cl_wf _ Hc)) as (b & Hb & h & Hr).
  destruct (row_erases R C b h (cursor_row st) (cursor_col st) C (bg st) Hr Hrow) as (b' & E & Hr' & He); [lia | lia |].
  set (st' := put_target st (active_target st) (Some b')).
  assert (csi_erase_line st 0 = Some st') as Hop.
  { unfold csi_erase_line, with_row. rewrite Hb. cbn [mbind option_bind]. rewrite (br_cols _ _ _ _ Hr).
    change (0 =? 0) with true. cbn iota. by rewrite (upd_buf_cur st _ b b'). }
  assert (wf_state R C st') as Hwf'.
  { pose proof (csi_erase_line_ok R C st 0 (cl_wf _ Hc)) as H. by rewrite Hop in H. }
  exists st'. split_and!; [| | by repeat split | done | done | done |].
  - change (27 :: str "[K") with [27; ch "["; ch "K"]. apply plays_csi_empty; [done | done |].
    rewrite op_csi_plain. unfold csi_plain. rewrite Hb. exact Hop.
  - by apply (client_keeps st); [| repeat split |].
  - intros i. unfold st'. rewrite (row_cells_erased st b b' h h _ _ i Hb Hr Hr' He).
    by case_match.
Qed.

(** Home, then erase the display with the pen's background. *)
Lemma step_clear st :
  client st →
  ∃ st', plays st (27 :: str "[H" ++ 27 :: str "[2J") st' ∧ client st' ∧ keeps st st' ∧
    pen_of st' = pen_of st ∧ cursor_row st' = 0 ∧ cursor_col st' = 0 ∧
    ∀ i, row_cells st' i = fill 0 C (vt_cell_erase (bg st)) <$> row_cells st i.
Proof.
  intros Hc. pose proof (ws_dims _ _ _ (cl_wf _ Hc)) as Hdims.
  destruct (cur_buf_ok _ _ _ (cl_wf _ Hc)) as (b & Hb & h & Hr).
  set (st1 := set_cursor st 0 0).
  assert (wf_state R C st1) as Hwf1 by (apply wf_set_cursor; [apply Hc | lia | lia]).
  assert (op_csi st [-1] 0 (ch "H") = Some st1) as E1.
  { rewrite op_csi_plain. unfold csi_plain. rewrite Hb. cbn [mbind option_bind switch].
    change (param_or [-1] 0 1) with 1. change (param_or [-1] 1 1) with 1.
    change (ch "H" =? ch "H") with true. simpl. unfold goto_row. rewrite (cl_origin _ Hc).
    match goal with |- vt_state_cursor_clamp ?s = _ =>
      destruct (vt_state_cursor_clamp_ok R C s) as [-> _] end.
    - apply (wf_set_cursor R C st); [apply Hc | lia | lia].
    - f_equal. cbn [cursor_row cursor_col set_col set_row]. by rewrite !clamp_id by lia. }
  assert (client st1) as Hc1 by (by apply (client_keeps st); [| repeat split |]).
  destruct (csi_erase_display_spec R C st1 b h 2 Hwf1 Hb Hr) as (b' & E2 & Hr' & He).
  set (st2 := put_target st1 (active_target st1) (Some b')) in *.
  exists st2. split_and!; [| | by repeat split | done | done | done |].
  - change (27 :: str "[H" ++ 27 :: str "[2J") with ([27; ch "["; ch "H"] ++ csi_text [] [2] (ch "J")).
    eapply plays_app; [by apply plays_csi_empty |].
    eapply plays_csi; try done; [by left | all_exact |].
    rewrite op_csi_plain. unfold csi_plain. change (cur_buf st1) with (cur_buf st). rewrite Hb. exact E2.
  - apply (client_keeps st1); [done | by repeat split |].
    pose proof (csi_erase_display_ok R C st1 2 Hwf1) as H. by rewrite E2 in H.
  - intros i. unfold st2. by rewrite (row_cells_erased st1 b b' h h _ _ i Hb Hr Hr' He).
Qed.

(** A private mode this terminal does not have. *)
Lemma step_sync st f :
  f = ch "h" ∨ f = ch "l" → plays st (csi_text [ch "?"] [2026] f) st.
Proof.
  intros Hf. apply (plays_csi _ _ _ _ (ch "?")); try done; [by right | all_exact | |];
    by destruct Hf as [-> | ->].
Qed.

End Client.

Arguments client_keeps {R C} st st'.
Arguments cl_wf {R C} st.
Arguments cl_insert {R C} st.
Arguments cl_origin {R C} st.
Arguments cl_ascii {R C} st.
