(* ===== verification/VtDump.v ===== *)
(** * The screen dump (src/libvt/vt_state.c, vt_state_dump)

    The dump is a stream of control sequences for a newly attached client.
    Here: the bytes it produces, that its fixed buffers are never overrun,
    and that a client of the same size that plays them ends up with the same
    screen, cursor and keyboard state. *)

From S2P Require Import Prelude Utf8 WidthTables RuneWidth VtBuf VtParse Decimal VtState VtOps VtSeq VtClient.

(** ** Definitions *)

Definition dump_attrs (a : Z) : list Z :=
  concat (map (λ fc, if has_bits a fc.1 then ch ";" :: dump_fmt_int fc.2 else []) attr_codes).

(** One colour: [base] is 30 or 40, [bright] 90 or 100, [ext] 38 or 48. *)
Definition dump_color (base bright : Z) (ext : list Z) (c : vt_color) : list Z :=
  match c with
  | VT_COLOR_DEFAULT => []
  | VT_COLOR_INDEXED n =>
      if n <? 8 then ch ";" :: dump_fmt_int (base + n)
      else if n <? 16 then ch ";" :: dump_fmt_int (bright + n - 8)
      else (ch ";" :: ext) ++ str ";5;" ++ dump_fmt_int n
  | VT_COLOR_RGB r g b =>
      (ch ";" :: ext) ++ str ";2;" ++ dump_fmt_int r ++ str ";" ++ dump_fmt_int g ++ str ";" ++ dump_fmt_int b
  end.

Definition dump_sgr (c : vt_cell) : option (list Z) :=
  in_buf 64 (27 :: str "[0" ++ dump_attrs (cell_attrs c) ++ dump_color 30 90 (str "38") (cell_fg c)
             ++ dump_color 40 100 (str "48") (cell_bg c) ++ str "m").

Definition cell_plain (c : vt_cell) : bool :=
  (cell_attrs c =? 0) && bool_decide (cell_fg c = VT_COLOR_DEFAULT)
  && bool_decide (cell_bg c = VT_COLOR_DEFAULT).

(** The body of the column loop: bytes emitted and the new [sgr_active]. *)
Definition dump_cell (row col : Z) (c : vt_cell) (sgr_active : bool) : option (list Z * bool) :=
  if cell_width c =? 0 then Some ([], sgr_active) else
  '(s, act) ← (if negb (cell_plain c) then s ← dump_sgr c; Some (s, true)
               else if sgr_active || (col =? 0) || (row =? 0)
               then Some (27 :: str "[0m", false)
               else Some ([], sgr_active));
  Some (s ++ utf8_encode (codepoint c), act).

Definition dump_row (row cols : Z) (cs : list vt_cell) (sgr_active : bool) : option (list Z * bool) :=
  for_up 0 cols (λ col oa,
    c ← aget cs col;
    '(s, act) ← dump_cell row col c oa.2;
    Some (oa.1 ++ s, act)) ([], sgr_active).

(** [CUP] built digit by digit in [esc[32]]. *)
Definition dump_cup (row col : Z) : option (list Z) :=
  in_buf 32 (27 :: str "[" ++ dump_fmt_int row ++ str ";" ++ dump_fmt_int col ++ str "H").

Definition dump_rows (b : vt_buf) : option (list Z * bool) :=
  for_up 0 (buf_rows b) (λ row oa,
    r ← aget (grid b) row;
    pos ← in_buf 32 (27 :: str "[" ++ dump_fmt_int (row + 1) ++ str ";1H");
    '(s, act) ← dump_row row (buf_cols b) (cells r) oa.2;
    Some (oa.1 ++ pos ++ s, act)) ([], false).

Definition dump_title (t : option (list Z)) : list Z :=
  match t with
  | Some (c :: t') =>
      let s := (27 :: str "]2;") ++ (c :: t') ++ [27; ch "\"] in
      if zlen s <? 256 then s else []
  | _ => []
  end.

Definition dump_keys (st : vt_state) : option (list Z) :=
  shape ← (if 0 <? cursor_shape st
           then in_snprintf 32 (27 :: str "[" ++ fmt_d (cursor_shape st) ++ str " q") else Some []);
  kitty ← in_snprintf 32 (27 :: str "[=" ++ fmt_d (kitty_kbd_flags st) ++ str "u");
  mok ← (if modify_other_keys st =? 0 then Some []
         else in_snprintf 32 (27 :: str "[>4;" ++ fmt_d (modify_other_keys st) ++ str "m"));
  Some (shape ++ kitty ++ mok).

Definition dump_screen_mode (st : vt_state) : list Z :=
  if has_bits (modes st) VT_MODE_ALTSCREEN then 27 :: str "[?1049h" else 27 :: str "[?1049l".

Definition dump_cursor_vis (st : vt_state) : list Z :=
  if has_bits (modes st) VT_MODE_CURSOR_VIS then 27 :: str "[?25h" else 27 :: str "[?25l".

Definition vt_state_dump (st : vt_state) : option (list Z) :=
  b ← cur_buf st;
  '(rows, _) ← dump_rows b;
  cup ← dump_cup (cursor_row st + 1) (cursor_col st + 1);
  keys ← dump_keys st;
  Some ((27 :: str "[0m") ++ (27 :: str "[2J") ++ (27 :: str "[H") ++ dump_screen_mode st
        ++ dump_title (title st) ++ rows ++ (27 :: str "[0m") ++ cup ++ dump_cursor_vis st ++ keys).

(** ** The SGR of a cell, as parameters *)

Lemma dump_attrs_semis a : dump_attrs a = semis (attr_params a).
Proof.
  unfold dump_attrs, attr_params. induction attr_codes as [|fc l IH]; [done |]. simpl.
  rewrite semis_app, IH. destruct (has_bits a fc.1); [| done]. unfold semis. simpl. by rewrite app_nil_r.
Qed.

Lemma dump_color_semis base bright ext c :
  dump_color base bright (dump_fmt_int ext) c = semis (color_params base bright ext c).
Proof.
  unfold dump_color, color_params, semis. destruct c as [|n|r g b]; [done | |].
  - repeat case_match; simpl; by rewrite ?app_nil_r.
  - simpl. by rewrite app_nil_r.
Qed.

Lemma sgr_text c :
  27 :: str "[0" ++ dump_attrs (cell_attrs c) ++ dump_color 30 90 (str "38") (cell_fg c)
     ++ dump_color 40 100 (str "48") (cell_bg c) ++ str "m" = csi_text [] (sgr_params c) (ch "m").
Proof.
  unfold csi_text, sgr_params. rewrite join_semi_semis, !semis_app, dump_attrs_semis.
  change (str "38") with (dump_fmt_int 38). change (str "48") with (dump_fmt_int 48).
  rewrite !dump_color_semis. change (str "[0") with (ch "[" :: dump_fmt_int 0).
  simpl. by rewrite <- !app_assoc.
Qed.

(** ** What the client's SGR makes of those parameters *)

(** ** The buffers of the dump are large enough *)

(** The longest style: eight attributes and two RGB colours, 19 parameters. *)
Lemma dump_sgr_fits c :
  color_typed (cell_fg c) → color_typed (cell_bg c) →
  dump_sgr c = Some (csi_text [] (sgr_params c) (ch "m")).
Proof.
  intros Hf Hb. unfold dump_sgr. rewrite sgr_text. unfold in_buf.
  enough (zlen (csi_text [] (sgr_params c) (ch "m")) <= 64) by zbool.
  unfold csi_text, sgr_params. rewrite join_semi_semis, !semis_app. cbn [app].
  rewrite !zlen_cons, !zlen_app. change (zlen (dump_fmt_int 0)) with 1. change (zlen [ch "m"]) with 1.
  destruct (attr_params_short (cell_attrs c)) as [H8 Hsmall]. pose proof (small_text _ Hsmall).
  pose proof (color_params_text 30 90 38 (cell_fg c) ltac:(lia) ltac:(lia) ltac:(lia) Hf).
  pose proof (color_params_text 40 100 48 (cell_bg c) ltac:(lia) ltac:(lia) ltac:(lia) Hb). lia.
Qed.

(** ** Playing the dump *)

Section Replay.
Context (tbl : rune_width_table) `{!WidthTable tbl}.
Context (on_dcs : vt_state → Z → list Z → option vt_state).
Context (R C : Z).
Implicit Types (st : vt_state).

Local Abbreviation cell_ok := (cell_ok tbl).
Local Abbreviation client := (client R C).
Local Abbreviation step_sgr := (step_sgr tbl on_dcs R C).
Local Abbreviation step_print := (step_print tbl on_dcs R C).
Local Abbreviation step_cup := (step_cup tbl on_dcs R C).
Local Abbreviation step_op := (step_op tbl on_dcs R C).

(** A row as printing lays it out: narrow cells, and wide cells followed by
    their continuation. *)
Inductive laid_out : list vt_cell → Prop :=
  | lo_nil : laid_out []
  | lo_narrow c cs : cell_ok c → cell_width c = 1 → laid_out cs → laid_out (c :: cs)
  | lo_wide c cs : cell_ok c → cell_width c = 2 → laid_out cs → laid_out (c :: cont_cell :: cs).

Local Notation "'plays'" := (plays tbl on_dcs).

(** *** Steps *)

(** The style bytes of one cell bring the client's pen to the cell's. *)
Lemma step_style st row k c act :
  client st → cell_ok c → cell_width c ≠ 0 →
  (k ≠ 0 → act = false → pen_of st = plain_pen) →
  ∃ s act', dump_cell row k c act = Some (s ++ utf8_encode (codepoint c), act') ∧
    plays st s (with_pen st (pen_of_cell c)) ∧ client (with_pen st (pen_of_cell c)) ∧
    (act' = false → pen_of_cell c = plain_pen).
Proof.
  intros Hc (Hrune & Hw & Hstyle) Hw0 Hact. unfold dump_cell.
  destruct (Z.eqb_spec (cell_width c) 0); [done |].
  assert (cell_plain c = true → pen_of_cell c = plain_pen) as Hplain.
  { unfold cell_plain, pen_of_cell. rewrite !andb_true_iff, !bool_decide_eq_true, Z.eqb_eq.
    by intros [[-> ->] ->]. }
  destruct (cell_plain c) eqn:Ep; simpl.
  - specialize (Hplain eq_refl). rewrite Hplain.
    destruct (act || (k =? 0) || (row =? 0)) eqn:E; simpl.
    + exists (csi_text [] [0] (ch "m")), false. split; [reflexivity |].
      destruct (step_sgr st [0] plain_pen Hc) as [H1 H2]; try done. all_exact.
    + apply orb_false_iff in E as [E1 _]. apply orb_false_iff in E1 as [-> Ek].
      exists [], false. split; [done |]. rewrite <- (Hact ltac:(lia) eq_refl), with_own_pen.
      split; [apply plays_nil | done].
  - destruct Hstyle as [Ha Hf Hb Hn]. rewrite dump_sgr_fits by done. simpl.
    exists (csi_text [] (sgr_params c) (ch "m")), true. split; [done |].
    destruct (step_sgr st (sgr_params c) (pen_of_cell c) Hc) as [H1 H2]; try done.
    + by apply sgr_params_exact.
    + by apply sgr_params_pen.
Qed.

Lemma take_insert_next {A} (l l' : list A) (k : nat) x :
  take k l = take k l' → l' !! k = Some x → (k < length l)%nat →
  take (S k) (<[k := x]> l) = take (S k) l'.
Proof.
  intros Ht Hx Hk. rewrite (take_S_r _ _ _ Hx). rewrite (take_S_r _ _ x).
  - by rewrite take_insert_ge by lia; f_equal.
  - by apply list_lookup_insert_eq.
Qed.

(** One turn of the column loop at a lead cell. *)
Lemma step_cell st row k c act r :
  client st → cell_ok c → 1 <= cell_width c <= 2 → k + cell_width c <= C →
  cursor_row st = row → cursor_col st = k → row_cells st row = Some r →
  (k ≠ 0 → act = false → pen_of st = plain_pen) →
  ∃ s act' st', dump_cell row k c act = Some (s, act') ∧ plays st s st' ∧ client st' ∧ keeps st st' ∧
    cursor_row st' = row ∧ (k + cell_width c < C → cursor_col st' = k + cell_width c) ∧
    row_cells st' row = Some (written k c r) ∧
    (∀ i, i ≠ row → row_cells st' i = row_cells st i) ∧ (act' = false → pen_of st' = plain_pen).
Proof.
  intros Hc Hok Hw Hfit Hrow Hcol Hr Hact.
  destruct (step_style st row k c act Hc Hok ltac:(lia) Hact) as (s & act' & Ed & Hp1 & Hc1 & Hact1).
  destruct (step_print (with_pen st (pen_of_cell c)) c r Hc1 Hok Hw) as
    (st2 & Hp2 & Hc2 & Hk2 & Hpen2 & Hrow2 & Hcol2 & Hr2 & Hoth2);
    [done | simpl; lia | by rewrite <- Hrow in Hr |].
  cbn [cursor_row cursor_col with_pen set_pen] in *. rewrite Hrow, Hcol in *.
  exists (s ++ utf8_encode (codepoint c)), act', st2. split_and!; try done.
  - eapply plays_app; [exact Hp1 | exact Hp2].
  - intros E. rewrite Hpen2. change (pen_of (with_pen st (pen_of_cell c))) with (pen_of_cell c). auto.
Qed.

Definition row_body (row : Z) (cs : list vt_cell) (col : Z) (oa : list Z * bool)
  : option (list Z * bool) :=
  c ← aget cs col; '(s, act) ← dump_cell row col c oa.2; Some (oa.1 ++ s, act).

Lemma row_body_eq row cs k c out act s act' :
  0 <= k → cs !! Z.to_nat k = Some c → dump_cell row k c act = Some (s, act') →
  row_body row cs k (out, act) = Some (out ++ s, act').
Proof.
  intros Hk Hc Ed. unfold row_body. rewrite aget_lookup, Hc by lia. cbn [mbind option_bind fst snd].
  by rewrite Ed.
Qed.

(** The state of the client while a row is played: [k] columns are done. *)
Record row_done st (row k : Z) (cs rest : list vt_cell) (act : bool) : Prop := {
  rd_client : client st;
  rd_row : cursor_row st = row;
  rd_col : rest ≠ [] → cursor_col st = k;
  rd_rest : rest = drop (Z.to_nat k) cs ∧ 0 <= k;
  rd_cells : ∃ r, row_cells st row = Some r ∧ zlen r = C ∧ take (Z.to_nat k) r = take (Z.to_nat k) cs;
  rd_pen : k ≠ 0 → act = false → pen_of st = plain_pen;
}.

Lemma drop_head {A} (l rest : list A) (k : Z) x :
  0 <= k → x :: rest = drop (Z.to_nat k) l →
  l !! Z.to_nat k = Some x ∧ rest = drop (Z.to_nat (k + 1)) l ∧ k + 1 + zlen rest = zlen l.
Proof.
  intros Hk E. assert (l !! Z.to_nat k = Some x) as Hx
    by (rewrite <- (Nat.add_0_r (Z.to_nat k)), <- lookup_drop, <- E; done).
  split; [done |]. pose proof (lookup_lt_Some _ _ _ Hx). split.
  - replace (Z.to_nat (k + 1)) with (S (Z.to_nat k)) by lia. rewrite (drop_S _ _ _ Hx) in E. by injection E.
  - apply (f_equal length) in E. rewrite length_drop in E. unfold zlen. simpl in E. lia.
Qed.

Lemma take_written_narrow k c r (cs : list vt_cell) :
  0 <= k < zlen r → cell_width c = 1 → cs !! Z.to_nat k = Some c →
  take (Z.to_nat k) r = take (Z.to_nat k) cs →
  take (Z.to_nat (k + 1)) (written k c r) = take (Z.to_nat (k + 1)) cs.
Proof.
  intros Hk Hw Hx Ht. unfold written. rewrite Hw. simpl.
  replace (Z.to_nat (k + 1)) with (S (Z.to_nat k)) by lia.
  apply take_insert_next; [done | done | unfold zlen in *; lia].
Qed.

Lemma take_written_wide k c r (cs : list vt_cell) :
  0 <= k → k + 1 < zlen r → cell_width c = 2 → cs !! Z.to_nat k = Some c →
  cs !! Z.to_nat (k + 1) = Some cont_cell →
  take (Z.to_nat k) r = take (Z.to_nat k) cs →
  take (Z.to_nat (k + 2)) (written k c r) = take (Z.to_nat (k + 2)) cs.
Proof.
  intros Hk Hk1 Hw Hx Hx1 Ht. unfold written. rewrite Hw. simpl.
  replace (Z.to_nat (k + 2)) with (S (Z.to_nat (k + 1))) by lia.
  apply take_insert_next; [| done | rewrite length_insert; unfold zlen in *; lia].
  replace (Z.to_nat (k + 1)) with (S (Z.to_nat k)) by lia.
  apply take_insert_next; [done | done | unfold zlen in *; lia].
Qed.

(** The columns from [k] on: what is left of the row is printed. *)
Lemma replay_cells row cs rest :
  laid_out rest → ∀ k st act out, zlen cs = C → row_done st row k cs rest act →
  ∃ bytes act' st', loop_up (length rest) k (row_body row cs) (out, act) = Some (out ++ bytes, act') ∧
    plays st bytes st' ∧ keeps st st' ∧ row_done st' row C cs [] act' ∧
    (∀ i, i ≠ row → row_cells st' i = row_cells st i).
Proof.
  induction 1 as [|c rest Hok Hw Hrest IH|c rest Hok Hw Hrest IH]; intros k st act out Hlen
    [Hc Hrow Hcol [Hdrop Hk] (r & Hr & Hrlen & Htake) Hpen].
  - exists [], act, st. cbn [loop_up length]. rewrite app_nil_r.
    split_and!; [done | apply plays_nil | by repeat split | | done].
    assert (zlen cs <= k) as Hge
      by (apply (f_equal length) in Hdrop; rewrite length_drop in Hdrop; unfold zlen; simpl in Hdrop; lia).
    pose proof (zlen_nonneg cs). assert (cs = r) as <- by (rewrite !take_ge in Htake by (unfold zlen in *; lia); done).
    constructor; try done.
    + rewrite drop_ge by (unfold zlen in *; lia). split; [done | lia].
    + by exists cs.
    + intros HC. apply Hpen. lia.
  - destruct (drop_head _ _ _ _ Hk Hdrop) as (Hck & Hrest' & Hz). pose proof (zlen_nonneg rest).
    specialize (Hcol ltac:(done)).
    destruct (step_cell st row k c act r Hc Hok) as
      (s & act1 & st1 & Ed & Hp1 & Hc1 & Hk1 & Hrow1 & Hcol1 & Hr1 & Hoth1 & Hpen1); try done; try lia.
    destruct (IH (k + 1) st1 act1 (out ++ s) Hlen) as (bytes & act2 & st2 & El & Hp2 & Hk2 & Hd2 & Hoth2).
    { constructor; try done; [| split; [done | lia] |].
      - intros Hne. rewrite Hw in Hcol1. apply Hcol1. destruct rest; [done |]. rewrite zlen_cons in Hz.
        pose proof (zlen_nonneg rest). lia.
      - exists (written k c r). rewrite zlen_written. split_and!; [done | done |].
        apply take_written_narrow; (done || lia). }
    exists (s ++ bytes), act2, st2. split_and!; [| | | done |].
    + cbn [length loop_up]. rewrite (row_body_eq _ _ _ _ _ _ _ _ Hk Hck Ed).
      cbn [mbind option_bind]. by rewrite El, <- app_assoc.
    + by eapply plays_app.
    + by eapply keeps_trans.
    + intros i Hi. by rewrite Hoth2, Hoth1.
  - destruct (drop_head _ _ _ _ Hk Hdrop) as (Hck & Hrest' & Hz). pose proof (zlen_nonneg rest).
    destruct (drop_head _ _ (k + 1) _ ltac:(lia) Hrest') as (Hck1 & Hrest'' & Hz').
    specialize (Hcol ltac:(done)).
    destruct (step_cell st row k c act r Hc Hok) as
      (s & act1 & st1 & Ed & Hp1 & Hc1 & Hk1 & Hrow1 & Hcol1 & Hr1 & Hoth1 & Hpen1); try done; try lia.
    destruct (IH (k + 2) st1 act1 (out ++ s) Hlen) as (bytes & act2 & st2 & El & Hp2 & Hk2 & Hd2 & Hoth2).
    { constructor; try done; [| split; [| lia] |].
      - intros Hne. rewrite Hw in Hcol1. apply Hcol1. destruct rest; [done |]. rewrite zlen_cons in Hz'.
        pose proof (zlen_nonneg rest). lia.
      - rewrite Hrest''. f_equal. lia.
      - exists (written k c r). rewrite zlen_written. split_and!; [done | done |].
        apply take_written_wide; (done || lia). }
    exists (s ++ bytes), act2, st2. split_and!; [| | | done |].
    + cbn [length loop_up]. rewrite (row_body_eq _ _ _ _ _ _ _ _ Hk Hck Ed). cbn [mbind option_bind].
      rewrite (row_body_eq row cs (k + 1) cont_cell _ _ [] act1) by (done || lia).
      cbn [mbind option_bind]. rewrite app_nil_r. replace (k + 1 + 1) with (k + 2) by lia. by rewrite El, <- app_assoc.
    + by eapply plays_app.
    + by eapply keeps_trans.
    + intros i Hi. by rewrite Hoth2, Hoth1.
Qed.

(** *** Positions and rows *)

(** One row of the dump: its position, then its cells. *)
Lemma replay_row st row cs act :
  client st → 0 <= row < R → R <= PARAM_MAX → C < PARAM_MAX → laid_out cs → zlen cs = C →
  ∃ bytes act' st', dump_row row C cs act = Some (bytes, act') ∧
    plays st (cup_text (row + 1) 1 ++ bytes) st' ∧ client st' ∧ keeps st st' ∧
    row_cells st' row = Some cs ∧ (∀ i, i ≠ row → row_cells st' i = row_cells st i).
Proof.
  intros Hc Hrow HR HC Hlo Hlen. pose proof (ws_dims _ _ _ (cl_wf _ Hc)) as Hdims.
  destruct (step_cup st row 0 Hc Hrow ltac:(lia) HR HC) as [Hp0 Hc0].
  set (st0 := set_cursor _ _ _) in *.
  destruct (cur_buf_ok _ _ _ (cl_wf _ Hc0)) as (b & Hb & h & Hr).
  destruct (buf_repr_row_in _ _ _ _ row Hr Hrow) as (r & Er & Hok).
  destruct (replay_cells row cs cs Hlo 0 st0 act [] Hlen) as (bytes & act' & st' & El & Hp & Hk & Hd & Hoth).
  { constructor; try done.
    - intros _. unfold st0. simpl. lia.
    - exists (cells r). unfold row_cells. rewrite Hb. cbn [mbind option_bind]. rewrite Er. by split_and!. }
  exists bytes, act', st'. split_and!.
  - unfold dump_row, for_up. replace (Z.to_nat (C - 0)) with (length cs) by (unfold zlen in *; lia). exact El.
  - by eapply plays_app.
  - apply Hd.
  - eapply keeps_trans; [| exact Hk]. by repeat split.
  - destruct Hd as [_ _ _ _ (r' & Hr' & Hrlen & Htake) _]. rewrite Hr'. f_equal.
    rewrite !take_ge in Htake by (unfold zlen in *; lia). done.
  - intros i Hi. by rewrite Hoth.
Qed.

(** All the rows: the client ends up with the cells of [b]. *)
Lemma replay_rows st b h :
  client st → R <= PARAM_MAX → C < PARAM_MAX → buf_repr R C b h →
  (∀ i r, aget (grid b) i = Some r → laid_out (cells r)) →
  ∃ bytes act' st', dump_rows b = Some (bytes, act') ∧ plays st bytes st' ∧ client st' ∧ keeps st st' ∧
    ∀ i r, aget (grid b) i = Some r → row_cells st' i = Some (cells r).
Proof.
  intros Hc HR HC Hb Hlo. pose proof (ws_dims _ _ _ (cl_wf _ Hc)) as Hdims.
  assert (yields (dump_rows b) (λ oa, ∃ st', plays st oa.1 st' ∧ client st' ∧ keeps st st' ∧
    ∀ i r, i < R → aget (grid b) i = Some r → row_cells st' i = Some (cells r))) as H.
  { unfold dump_rows. rewrite (br_rows _ _ _ _ Hb), (br_cols _ _ _ _ Hb).
    apply (for_up_inv (λ n oa, ∃ st', plays st oa.1 st' ∧ client st' ∧ keeps st st' ∧
      ∀ i r, i < n → aget (grid b) i = Some r → row_cells st' i = Some (cells r))); [lia | |].
    - exists st. split_and!; [apply plays_nil | done | by repeat split |].
      intros i r Hi Hr%aget_Some. lia.
    - intros n [out act] Hn (st1 & Hp1 & Hc1 & Hk1 & Hcells).
      destruct (buf_repr_row_in _ _ _ _ n Hb Hn) as (r & Er & Hok). rewrite Er. cbn [mbind option_bind].
      change (str ";1H") with (str ";" ++ dump_fmt_int 1 ++ str "H").
      rewrite cup_text_eq, cup_fits by (unfold PARAM_MAX in *; lia). cbn [mbind option_bind snd].
      destruct (replay_row st1 n (cells r) act Hc1 Hn HR HC (Hlo n r Er) Hok) as
        (bytes & act' & st2 & Ed & Hp2 & Hc2 & Hk2 & Hr2 & Hoth).
      rewrite Ed. cbn [mbind option_bind yields fst]. exists st2. split_and!; [| done | |].
      + by eapply plays_app.
      + by eapply keeps_trans.
      + intros i r' Hi Hr'. destruct (decide (i = n)) as [->|Hne]; [congruence |].
        rewrite Hoth by done. apply Hcells; [lia | done]. }
  apply yields_Some in H as ([bytes act'] & E & st' & Hp & Hc' & Hk & Hcells).
  exists bytes, act', st'. split_and!; [done | done | done | done |].
  intros i r Hr. apply Hcells; [| done]. apply aget_Some in Hr. pose proof (br_size _ _ _ _ Hb). lia.
Qed.

(** *** The rest of the dump *)

Definition head_text : list Z := (27 :: str "[0m") ++ (27 :: str "[2J") ++ (27 :: str "[H").

Lemma replay_head st :
  client st →
  ∃ st', plays st head_text st' ∧ client st' ∧ keeps st st' ∧ pen_of st' = plain_pen.
Proof.
  intros Hc. unfold head_text.
  destruct (step_sgr st [0] plain_pen Hc) as [Hp1 Hc1]; try done; [all_exact |].
  set (st1 := with_pen st plain_pen) in *.
  pose proof (csi_erase_display_ok R C st1 2 (cl_wf _ Hc1)) as H.
  destruct (csi_erase_display st1 2) as [st2|] eqn:E2; [| done]. simpl in H.
  destruct (cur_buf_ok _ _ _ (cl_wf _ Hc1)) as (b & Hb & h & Hr).
  assert (∃ b', st2 = put_target st1 (active_target st1) (Some b')) as [b' Hst2].
  { unfold csi_erase_display in E2. rewrite Hb in E2. cbn [mbind option_bind] in E2.
    rewrite (br_rows _ _ _ _ Hr) in E2. change (2 =? 0) with false in E2.
    change (2 =? 1) with false in E2. change ((2 =? 2) || (2 =? 3)) with true in E2. cbn iota in E2.
    unfold upd_buf in E2. rewrite Hb in E2. cbn [mbind option_bind] in E2.
    destruct (vt_buf_clear_rows b 0 R (bg st1)) as [b'|]; [| done]. exists b'. by injection E2. }
  assert (keeps st st2) as Hk2 by (rewrite Hst2; by repeat split).
  assert (client st2) as Hc2 by (by apply (client_keeps st)).
  assert (plays st1 (27 :: str "[2J") st2) as Hp2.
  { change (27 :: str "[2J") with (csi_text [] [2] (ch "J")).
    eapply plays_csi; try done; [by left | all_exact |].
    rewrite op_csi_plain. unfold csi_plain. rewrite Hb. exact E2. }
  destruct (cur_buf_ok _ _ _ (cl_wf _ Hc2)) as (b2 & Hb2 & h2 & Hr2).
  pose proof (ws_dims _ _ _ (cl_wf _ Hc2)) as Hdims.
  assert (op_csi st2 [-1] 0 (ch "H") = Some (set_cursor (set_col (set_row st2 0) 0) 0 0)) as E3.
  { rewrite op_csi_plain. unfold csi_plain. rewrite Hb2. cbn [mbind option_bind switch].
    change (param_or [-1] 0 1) with 1. change (param_or [-1] 1 1) with 1.
    change (ch "H" =? ch "H") with true. simpl. unfold goto_row. rewrite (cl_origin _ Hc2).
    match goal with |- vt_state_cursor_clamp ?s = _ =>
      destruct (vt_state_cursor_clamp_ok R C s) as [-> _] end.
    - apply (wf_set_cursor R C st2); [apply Hc2 | lia | lia].
    - f_equal. cbn [cursor_row cursor_col set_col set_row]. by rewrite !clamp_id by lia. }
  exists (set_cursor (set_col (set_row st2 0) 0) 0 0). split_and!.
  - eapply plays_app; [exact Hp1 |]. eapply plays_app; [exact Hp2 |].
    change (27 :: str "[H") with [27; ch "["; ch "H"]. by apply plays_csi_empty.
  - apply (client_keeps st2); [done | by repeat split |]. apply (wf_set_cursor R C (set_col (set_row st2 0) 0)).
    + apply wf_set_col; [apply wf_set_row; [apply Hc2 | lia] | lia].
    + lia.
    + lia.
  - eapply keeps_trans; [exact Hk2 | by repeat split].
  - by rewrite Hst2.
Qed.

Lemma replay_mode st src :
  client st →
  ∃ st', plays st (dump_screen_mode src) st' ∧ client st' ∧ title st' = title st ∧
    has_bits (modes st') VT_MODE_ALTSCREEN = has_bits (modes src) VT_MODE_ALTSCREEN.
Proof.
  intros Hc. unfold dump_screen_mode.
  destruct (has_bits (modes src) VT_MODE_ALTSCREEN) eqn:Em.
  - pose proof (vt_state_altscreen_enter_ok R C st (cl_wf _ Hc)) as H.
    apply yields_Some in H as (st' & E & Hwf' & Hst').
    exists st'. split; [| split].
    + change (27 :: str "[?1049h") with (csi_text [ch "?"] [1049] (ch "h")).
      apply (plays_csi _ _ _ _ (ch "?")); try done; [by right | all_exact].
    + destruct (has_bits (modes st) VT_MODE_ALTSCREEN) eqn:E1; [by subst |].
      destruct Hst' as (b & _ & ->). destruct Hc as [? Hi Ho ?]. constructor; try done.
      * change (has_bits (set_bits (modes st) VT_MODE_ALTSCREEN) VT_MODE_INSERT = false).
        by rewrite has_bits_set, Hi.
      * change (has_bits (set_bits (modes st) VT_MODE_ALTSCREEN) VT_MODE_ORIGIN = false).
        by rewrite has_bits_set, Ho.
    + destruct (has_bits (modes st) VT_MODE_ALTSCREEN) eqn:E1; [by subst |].
      destruct Hst' as (b & _ & ->). split; [done |].
      change (has_bits (set_bits (modes st) VT_MODE_ALTSCREEN) VT_MODE_ALTSCREEN = true).
      by rewrite has_bits_set, E1.
  - pose proof (vt_state_altscreen_leave_ok R C st (cl_wf _ Hc)) as H.
    apply yields_Some in H as (st' & E & Hwf' & Hst').
    exists st'. split; [| split].
    + change (27 :: str "[?1049l") with (csi_text [ch "?"] [1049] (ch "l")).
      apply (plays_csi _ _ _ _ (ch "?")); try done; [by right | all_exact].
    + destruct (has_bits (modes st) VT_MODE_ALTSCREEN) eqn:E1; [| by subst].
      destruct Hst' as (? & ? & ? & ? & _ & _ & _ & _ & _ & _ & _ & ->).
      destruct Hc as [? Hi Ho ?]. constructor; try done.
      * change (has_bits (clear_bits (modes st) VT_MODE_ALTSCREEN) VT_MODE_INSERT = false).
        by rewrite has_bits_clear.
      * change (has_bits (clear_bits (modes st) VT_MODE_ALTSCREEN) VT_MODE_ORIGIN = false).
        by rewrite has_bits_clear.
    + destruct (has_bits (modes st) VT_MODE_ALTSCREEN) eqn:E1; [| by subst].
      destruct Hst' as (? & ? & ? & ? & _ & _ & _ & _ & _ & _ & _ & ->). split; [done |].
      apply has_bits_cleared.
Qed.

(** A title that survives the trip through an OSC string. *)
Definition title_ok (t : option (list Z)) : Prop :=
  match t with
  | Some (c :: t') => ∃ rs, Forall (λ r, text_rune r ∧ r ≠ 7 ∧ r ≠ 27) rs ∧ c :: t' = encode_all rs
  | _ => True
  end.

(** The title a client has after the dump's title sequence, if there is one. *)
Definition title_after (src own : option (list Z)) : option (list Z) :=
  match dump_title src with [] => own | _ => src end.

Lemma replay_title st src :
  client st → title_ok (title src) →
  ∃ st', plays st (dump_title (title src)) st' ∧ client st' ∧ modes st' = modes st ∧
    title st' = title_after (title src) (title st).
Proof.
  intros Hc Ht. unfold title_after. destruct (title src) as [[|c t]|] eqn:E;
    try (exists st; cbn [dump_title]; split_and!; [apply plays_nil | done ..]).
  destruct Ht as (rs & Hrs & Hct). unfold dump_title.
  set (s := (27 :: str "]2;") ++ (c :: t) ++ [27; ch "\"]). cbv zeta.
  destruct (Z.ltb_spec (zlen s) 256) as [Hlt|]; [| exists st; split_and!; [apply plays_nil | done ..]].
  assert (s = osc_text (50 :: 59 :: rs)) as Hs.
  { unfold s, osc_text. rewrite Hct. reflexivity. }
  assert (encode_all (50 :: 59 :: rs) = 50 :: 59 :: encode_all rs) as Henc by reflexivity.
  exists (op_osc st (encode_all (50 :: 59 :: rs))).
  assert (op_osc st (encode_all (50 :: 59 :: rs)) = {| st with title := Some (c :: t) |}) as Hop.
  { rewrite Henc, <- Hct. reflexivity. }
  split_and!.
  - rewrite Hs. apply plays_osc; [done | | done |].
    + repeat (apply Forall_cons_2; [unfold text_rune, valid_rune, UTF8_RUNE_ERROR, UTF8_RUNE_MAX; lia |]).
      exact Hrs.
    + rewrite Henc, <- Hct. unfold s in Hlt. rewrite zlen_app in Hlt.
      change (zlen (27 :: str "]2;")) with 4 in Hlt. rewrite zlen_app in Hlt.
      change (zlen [27; ch "\"]) with 2 in Hlt. rewrite !zlen_cons in *. unfold VT_OSC_MAX. lia.
  - destruct Hc as [Hwf ? ? ?]. constructor; [by apply op_osc_ok | by rewrite Hop ..].
  - by rewrite Hop.
  - rewrite Hop. unfold s. done.
Qed.

(** What the keyboard and cursor sequences at the end do not touch. *)
Definition same_screen st st' : Prop :=
  (∀ i, row_cells st' i = row_cells st i) ∧ cursor_row st' = cursor_row st ∧
  cursor_col st' = cursor_col st ∧ title st' = title st.

Lemma same_screen_trans st1 st2 st3 :
  same_screen st1 st2 → same_screen st2 st3 → same_screen st1 st3.
Proof.
  intros (H1 & H2 & H3 & H4) (H1' & H2' & H3' & H4'). split_and!; congruence.
Qed.

Lemma replay_vis st src :
  client st →
  ∃ st', plays st (dump_cursor_vis src) st' ∧ client st' ∧ same_screen st st' ∧
    has_bits (modes st') VT_MODE_CURSOR_VIS = has_bits (modes src) VT_MODE_CURSOR_VIS ∧
    has_bits (modes st') VT_MODE_ALTSCREEN = has_bits (modes st) VT_MODE_ALTSCREEN.
Proof.
  intros Hc. unfold dump_cursor_vis. pose proof Hc as [Hwf Hi Ho Ha].
  destruct (has_bits (modes src) VT_MODE_CURSOR_VIS).
  - exists (add_mode st VT_MODE_CURSOR_VIS). split_and!; try done.
    + change (27 :: str "[?25h") with (csi_text [ch "?"] [25] (ch "h")).
      apply (plays_csi _ _ _ _ (ch "?")); try done; [by right | all_exact].
    + constructor; [by apply wf_add_mode | | | done]; unfold add_mode, set_modes; cbn [modes];
        by rewrite has_bits_set, ?Hi, ?Ho.
    + unfold add_mode, set_modes. cbn [modes]. rewrite has_bits_set. apply orb_true_r.
    + unfold add_mode, set_modes. cbn [modes]. rewrite has_bits_set. apply orb_false_r.
  - exists (del_mode st VT_MODE_CURSOR_VIS). split_and!; try done.
    + change (27 :: str "[?25l") with (csi_text [ch "?"] [25] (ch "l")).
      apply (plays_csi _ _ _ _ (ch "?")); try done; [by right | all_exact].
    + constructor; [by apply wf_del_mode | | | done]; unfold del_mode, set_modes; cbn [modes];
        by rewrite has_bits_clear.
    + apply has_bits_cleared.
    + by apply has_bits_clear.
Qed.

(** The keyboard values the parser reads back exactly. *)
Definition keys_exact (src : vt_state) : Prop :=
  kitty_kbd_flags src <= PARAM_MAX ∧ modify_other_keys src <= PARAM_MAX.

Lemma snprintf_keys pre n post :
  zlen pre + zlen post <= 20 → 0 <= n <= PARAM_MAX →
  in_snprintf 32 (pre ++ fmt_d n ++ post) = Some (pre ++ dump_fmt_int n ++ post).
Proof.
  unfold PARAM_MAX. intros Hlen Hn. rewrite fmt_d_nonneg by lia. unfold in_snprintf.
  pose proof (dump_fmt_int_length 6 n ltac:(lia) ltac:(lia)).
  enough (zlen (pre ++ dump_fmt_int n ++ post) < 32) by zbool. rewrite !zlen_app. lia.
Qed.

(** The three keyboard sequences. *)
Lemma step_shape st src :
  client st → wf_state R C src →
  ∃ b1 st1, (if 0 <? cursor_shape src
           then in_snprintf 32 (27 :: str "[" ++ fmt_d (cursor_shape src) ++ str " q") else Some []) = Some b1 ∧
      plays st b1 st1 ∧ client st1 ∧ same_screen st st1 ∧ modes st1 = modes st ∧
      cursor_shape st1 = (if 0 <? cursor_shape src then cursor_shape src else cursor_shape st) ∧
      modify_other_keys st1 = modify_other_keys st.
Proof.
  intros Hc Hsrc. destruct (ws_flags _ _ _ Hsrc) as (_ & _ & _ & Hsh).
  destruct (Z.ltb_spec 0 (cursor_shape src)).
  2: { exists [], st. split_and!; try done; apply plays_nil. }
  exists (27 :: ch "[" :: dump_fmt_int (cursor_shape src) ++ [ch " "; ch "q"]),
         {| st with cursor_shape := cursor_shape src |}.
  split_and!; try done.
  - change (27 :: str "[" ++ fmt_d (cursor_shape src) ++ str " q")
      with ([27; ch "["] ++ fmt_d (cursor_shape src) ++ [ch " "; ch "q"]).
    rewrite snprintf_keys by (unfold zlen, PARAM_MAX; simpl; lia). done.
  - apply plays_csi_sp; [done | unfold param_exact, PARAM_MAX; lia | done |].
    unfold op_csi. change (ch " " =? ch "?") with false.
    change ((ch " " =? ch " ") && (ch "q" =? ch "q")) with true. cbn iota.
    assert (param_or [cursor_shape src] 0 0 = cursor_shape src) as -> by (unfold param_or; simpl; zbool).
    replace ((0 <=? cursor_shape src) && (cursor_shape src <=? 6)) with true by (symmetry; zbool). done.
  - apply (client_keeps st); [done | by repeat split |]. destruct Hc as [Hwf _ _ _]. clear -Hwf Hsh.
    wf_fields. tauto.
Qed.

Lemma step_kitty st src :
  client st → wf_state R C src → kitty_kbd_flags src <= PARAM_MAX →
  ∃ st2, plays st (csi_text [ch "="] [kitty_kbd_flags src] (ch "u")) st2 ∧ client st2 ∧
      same_screen st st2 ∧ modes st2 = modes st ∧ cursor_shape st2 = cursor_shape st ∧
      kitty_kbd_flags st2 = kitty_kbd_flags src ∧ modify_other_keys st2 = modify_other_keys st.
Proof.
  intros Hc Hsrc Hk. destruct (ws_flags _ _ _ Hsrc) as ([Hk0 Hk1] & _).
  pose proof (vt_state_kitty_set_ok R C st (kitty_kbd_flags src) 1 (cl_wf _ Hc) (conj Hk0 Hk1)) as H.
  destruct (vt_state_kitty_set st (kitty_kbd_flags src) 1) as [st2|] eqn:E; [| done].
  assert (param_or [kitty_kbd_flags src] 0 0 = kitty_kbd_flags src) as Hpo by (unfold param_or; simpl; zbool).
  assert (op_csi st [kitty_kbd_flags src] (ch "=") (ch "u") = Some st2) as Hop.
  { rewrite <- E. rewrite <- Hpo at 2. reflexivity. }
  unfold vt_state_kitty_set in E. change (1 =? 3) with false in E. change (1 =? 2) with false in E.
  destruct (if kitty_kbd_depth st =? 0 then _ else _) as [s|]; [| done].
  exists st2. split; [| injection E as <-; split_and!; try done].
  - apply (plays_csi _ _ _ _ (ch "=")); try done; [by right | all_exact].
  - by apply (client_keeps st).
Qed.

Lemma step_mok st src :
  client st → wf_state R C src → modify_other_keys src <= PARAM_MAX →
  ∃ b3 st3, (if modify_other_keys src =? 0 then Some []
           else in_snprintf 32 (27 :: str "[>4;" ++ fmt_d (modify_other_keys src) ++ str "m")) = Some b3 ∧
      plays st b3 st3 ∧ client st3 ∧ same_screen st st3 ∧ modes st3 = modes st ∧
      cursor_shape st3 = cursor_shape st ∧ kitty_kbd_flags st3 = kitty_kbd_flags st ∧
      modify_other_keys st3 = (if modify_other_keys src =? 0 then modify_other_keys st
                               else modify_other_keys src).
Proof.
  intros Hc Hsrc Hk. destruct (ws_flags _ _ _ Hsrc) as (_ & _ & [Hm0 Hm1] & _).
  destruct (Z.eqb_spec (modify_other_keys src) 0).
  { exists [], st. split_and!; try done; apply plays_nil. }
  exists (csi_text [ch ">"] [4; modify_other_keys src] (ch "m")),
         {| st with modify_other_keys := modify_other_keys src |}.
  split_and!; try done.
  - change (27 :: str "[>4;" ++ fmt_d (modify_other_keys src) ++ str "m")
      with ([27; ch "["; ch ">"; ch "4"; ch ";"] ++ fmt_d (modify_other_keys src) ++ [ch "m"]).
    rewrite snprintf_keys by (unfold zlen, PARAM_MAX in *; simpl; lia). done.
  - apply (plays_csi _ _ _ _ (ch ">")); try done; [by right | all_exact |].
    assert (param_or [4; modify_other_keys src] 1 0 = modify_other_keys src) as Hpo
      by (unfold param_or; simpl; zbool).
    rewrite <- Hpo at 2. reflexivity.
  - apply (client_keeps st); [done | by repeat split |]. destruct Hc as [Hwf _ _ _].
    clear -Hwf Hm0 Hm1. assert (flags_ok (modify_other_keys src)) by done. wf_fields. tauto.
Qed.

Lemma replay_keys st src :
  client st → wf_state R C src → keys_exact src →
  ∃ bytes st', dump_keys src = Some bytes ∧ plays st bytes st' ∧ client st' ∧ same_screen st st' ∧
    modes st' = modes st ∧
    cursor_shape st' = (if 0 <? cursor_shape src then cursor_shape src else cursor_shape st) ∧
    kitty_kbd_flags st' = kitty_kbd_flags src ∧
    modify_other_keys st' = (if modify_other_keys src =? 0 then modify_other_keys st
                             else modify_other_keys src).
Proof.
  intros Hc Hsrc [Hk Hm]. destruct (ws_flags _ _ _ Hsrc) as ([Hk0 _] & _ & [Hm0 _] & Hsh).
  (* cursor shape *)
  assert (∃ b1 st1, (if 0 <? cursor_shape src
           then in_snprintf 32 (27 :: str "[" ++ fmt_d (cursor_shape src) ++ str " q") else Some []) = Some b1 ∧
      plays st b1 st1 ∧ client st1 ∧ same_screen st st1 ∧ modes st1 = modes st ∧
      cursor_shape st1 = (if 0 <? cursor_shape src then cursor_shape src else cursor_shape st) ∧
      modify_other_keys st1 = modify_other_keys st) as (b1 & st1 & E1 & Hp1 & Hc1 & Hs1 & Hm1 & Hsh1 & Hmk1).
  { by apply step_shape. }
  (* kitty flags *)
  assert (∃ st2, plays st1 (csi_text [ch "="] [kitty_kbd_flags src] (ch "u")) st2 ∧ client st2 ∧
      same_screen st1 st2 ∧ modes st2 = modes st1 ∧ cursor_shape st2 = cursor_shape st1 ∧
      kitty_kbd_flags st2 = kitty_kbd_flags src ∧ modify_other_keys st2 = modify_other_keys st1)
    as (st2 & Hp2 & Hc2 & Hs2 & Hm2 & Hsh2 & Hk2 & Hmk2).
  { apply (step_kitty st1 src Hc1 Hsrc Hk). }
  (* modifyOtherKeys *)
  destruct (step_mok st2 src Hc2 Hsrc Hm) as (b3 & st3 & E3 & Hp3 & Hc3 & Hs3 & Hm3 & Hsh3 & Hk3 & Hmk3).
  exists (b1 ++ csi_text [ch "="] [kitty_kbd_flags src] (ch "u") ++ b3), st3. split_and!; try congruence.
  - unfold dump_keys. rewrite E1. cbn [mbind option_bind].
    change (27 :: str "[=" ++ fmt_d (kitty_kbd_flags src) ++ str "u")
      with ([27; ch "["; ch "="] ++ fmt_d (kitty_kbd_flags src) ++ [ch "u"]).
    rewrite snprintf_keys by (unfold zlen, PARAM_MAX in *; simpl; lia). cbn [mbind option_bind].
    by rewrite E3.
  - eapply plays_app; [exact Hp1 |]. by eapply plays_app.
  - eapply same_screen_trans; [exact Hs1 |]. by eapply same_screen_trans.
  - by rewrite Hmk3, Hmk2, Hmk1.
Qed.

(** The whole dump. *)
Lemma dump_replay st src :
  client st → wf_state R C src → R <= PARAM_MAX → C < PARAM_MAX →
  (∀ i cs, row_cells src i = Some cs → laid_out cs) → title_ok (title src) → keys_exact src →
  ∃ out st', vt_state_dump src = Some out ∧ plays st out st' ∧ wf_state R C st' ∧
    (∀ i, row_cells st' i = row_cells src i) ∧
    cursor_row st' = cursor_row src ∧ cursor_col st' = Z.min (cursor_col src) (C - 1) ∧
    title st' = title_after (title src) (title st) ∧
    has_bits (modes st') VT_MODE_ALTSCREEN = has_bits (modes src) VT_MODE_ALTSCREEN ∧
    has_bits (modes st') VT_MODE_CURSOR_VIS = has_bits (modes src) VT_MODE_CURSOR_VIS ∧
    (0 < cursor_shape src → cursor_shape st' = cursor_shape src) ∧
    kitty_kbd_flags st' = kitty_kbd_flags src ∧
    (modify_other_keys src ≠ 0 → modify_other_keys st' = modify_other_keys src).
Proof.
  intros Hc Hsrc HR HC Hlo Ht Hk.
  destruct (cur_buf_ok _ _ _ Hsrc) as (b & Hb & h & Hrepr).
  destruct (replay_head st Hc) as (st1 & Hp1 & Hc1 & Hk1 & _).
  destruct (replay_mode st1 src Hc1) as (st2 & Hp2 & Hc2 & Ht2 & Hm2).
  destruct (replay_title st2 src Hc2 Ht) as (st3 & Hp3 & Hc3 & Hm3 & Ht3).
  destruct (replay_rows st3 b h Hc3 HR HC Hrepr) as (rows & act & st4 & E4 & Hp4 & Hc4 & Hk4 & Hr4).
  { intros i r Hr. apply (Hlo i). unfold row_cells. rewrite Hb. cbn [mbind option_bind]. by rewrite Hr. }
  destruct (step_sgr st4 [0] plain_pen Hc4) as [Hp5 Hc5]; try done; [all_exact |].
  set (st5 := with_pen st4 plain_pen) in *.
  destruct (ws_cursor _ _ _ Hsrc) as [Hrow Hcol].
  destruct (step_cup st5 (cursor_row src) (cursor_col src) Hc5 Hrow Hcol HR HC) as [Hp6 Hc6].
  set (st6 := set_cursor _ _ _) in *.
  destruct (replay_vis st6 src Hc6) as (st7 & Hp7 & Hc7 & Hs7 & Hv7 & Ha7).
  destruct (replay_keys st7 src Hc7 Hsrc Hk) as
    (keys & st8 & E8 & Hp8 & Hc8 & Hs8 & Hm8 & Hsh8 & Hki8 & Hmo8).
  destruct (same_screen_trans _ _ _ Hs7 Hs8) as (Hcells & Hrow8 & Hcol8 & Ht8).
  destruct Hk1 as (_ & _ & _ & _ & Ht1). destruct Hk4 as (Hm4 & _ & _ & _ & Ht4).
  exists (head_text ++ dump_screen_mode src ++ dump_title (title src) ++ rows ++ (27 :: str "[0m")
          ++ cup_text (cursor_row src + 1) (cursor_col src + 1) ++ dump_cursor_vis src ++ keys), st8.
  split_and!.
  - unfold vt_state_dump, dump_cup, head_text. rewrite Hb. cbn [mbind option_bind]. rewrite E4.
    cbn [mbind option_bind]. rewrite cup_text_eq, cup_fits by lia. cbn [mbind option_bind].
    rewrite E8. cbn [mbind option_bind]. by rewrite <- !app_assoc.
  - repeat (eapply plays_app; [eassumption |]). exact Hp8.
  - apply Hc8.
  - intros i. rewrite Hcells. change (row_cells st6 i) with (row_cells st4 i).
    unfold row_cells at 2. rewrite Hb. cbn [mbind option_bind]. destruct (aget (grid b) i) as [r|] eqn:Er.
    { cbn [mbind option_bind]. by apply Hr4. }
    cbn [mbind option_bind]. destruct (cur_buf_ok _ _ _ (cl_wf _ Hc4)) as (b4 & Hb4 & h4 & Hrepr4).
    unfold row_cells. rewrite Hb4. cbn [mbind option_bind].
    enough (aget (grid b4) i = None) as -> by done.
    pose proof (br_size _ _ _ _ Hrepr) as Hz. pose proof (br_size _ _ _ _ Hrepr4) as Hz4.
    destruct (aget (grid b4) i) as [r4|] eqn:E; [| done]. apply aget_Some in E.
    destruct (aget_in (grid b) i) as [x Ex]; [lia | congruence].
  - by rewrite Hrow8.
  - by rewrite Hcol8.
  - rewrite Ht8. change (title st6) with (title st4). by rewrite Ht4, Ht3, Ht2, Ht1.
  - rewrite Hm8, Ha7. change (modes st6) with (modes st4). by rewrite Hm4, Hm3, Hm2.
  - by rewrite Hm8.
  - intros Hlt. rewrite Hsh8. by apply Z.ltb_lt in Hlt as ->.
  - done.
  - intros Hne. rewrite Hmo8. by apply Z.eqb_neq in Hne as ->.
Qed.
End Replay.

(** ** Checking the layout by computation *)

Definition plain_runeb (r : Z) : bool :=
  (0x20 <=? r) && (r <=? UTF8_RUNE_MAX) && negb ((0xD800 <=? r) && (r <=? 0xDFFF)) && negb (r =? 0x7F).

Definition color_typedb (c : vt_color) : bool :=
  let byte n := (0 <=? n) && (n <? 256) in
  match c with
  | VT_COLOR_DEFAULT => true
  | VT_COLOR_INDEXED n => byte n
  | VT_COLOR_RGB r g b => byte r && byte g && byte b
  end.

Definition style_okb (c : vt_cell) : bool :=
  (0 <=? cell_attrs c) && (cell_attrs c <? 512) && (Z.land (cell_attrs c) VT_ATTR_UNDERCURL =? 0)
  && color_typedb (cell_fg c) && color_typedb (cell_bg c) && (zlen (sgr_params c) <=? VT_MAX_PARAMS).

Definition cell_okb (tbl : rune_width_table) (c : vt_cell) : bool :=
  plain_runeb (codepoint c) && (cell_width c =? print_width tbl (codepoint c)) && style_okb c.

Fixpoint laid_outb (tbl : rune_width_table) (cs : list vt_cell) : bool :=
  match cs with
  | [] => true
  | c :: cs1 =>
      cell_okb tbl c &&
      (if cell_width c =? 1 then laid_outb tbl cs1
       else match cs1 with
            | c1 :: cs2 => (cell_width c =? 2) && bool_decide (c1 = cont_cell) && laid_outb tbl cs2
            | [] => false
            end)
  end.

Definition screen_laid_outb (tbl : rune_width_table) (st : vt_state) : bool :=
  match cur_buf st with
  | Some b => forallb (λ r, laid_outb tbl (cells r)) (grid b)
  | None => true
  end.

Lemma color_typedb_sound c : color_typedb c = true → color_typed c.
Proof. destruct c; simpl; unfold is_byte; intros; [done | lia | lia]. Qed.

Lemma cell_okb_sound tbl c : cell_okb tbl c = true → cell_ok tbl c.
Proof.
  unfold cell_okb, style_okb, plain_runeb. rewrite !andb_true_iff.
  intros [[[[[H1 H2] H3] H4] Hw] [[[[[Ha1 Ha2] Hu] Hf] Hb] Hn]].
  split; [| split; [lia |]].
  - unfold plain_rune, print_rune, valid_rune. lia.
  - constructor; [lia | by apply color_typedb_sound .. | lia].
Qed.

Lemma laid_outb_sound tbl cs : laid_outb tbl cs = true → laid_out tbl cs.
Proof.
  remember (length cs) as n eqn:Hn. revert cs Hn.
  induction (Nat.lt_wf_0 n) as [n _ IH]; intros [|c [|c1 cs]] ->; simpl; intros H; [constructor | |].
  - apply andb_true_iff in H as [Hc H]. destruct (Z.eqb_spec (cell_width c) 1); [| done].
    constructor; [by apply cell_okb_sound | done | constructor].
  - apply andb_true_iff in H as [Hc H]. apply cell_okb_sound in Hc.
    destruct (Z.eqb_spec (cell_width c) 1).
    + constructor; [done | done |]. apply (IH (length (c1 :: cs))); [simpl; lia | done | exact H].
    + rewrite !andb_true_iff, bool_decide_eq_true in H. destruct H as [[Hw ->] H].
      apply lo_wide; [done | lia |]. apply (IH (length cs)); [simpl; lia | done | exact H].
Qed.

Lemma screen_laid_outb_sound tbl st :
  screen_laid_outb tbl st = true → ∀ i cs, row_cells st i = Some cs → laid_out tbl cs.
Proof.
  unfold screen_laid_outb, row_cells. destruct (cur_buf st) as [b|]; [| done].
  rewrite forallb_forall. intros H i cs. cbn [mbind option_bind].
  destruct (aget (grid b) i) as [r|] eqn:E; [| done]. cbn [mbind option_bind]. intros [= <-].
  apply laid_outb_sound, H. unfold aget in E. case_match; [| done].
  apply list_elem_of_In. by eapply list_elem_of_lookup_2.
Qed.

(** ** The dump's buffers are large enough for every state *)

Section Fits.
Context (R C : Z).

Definition typed_cell (c : vt_cell) : Prop := color_typed (cell_fg c) ∧ color_typed (cell_bg c).

Definition typed_screen (st : vt_state) : Prop :=
  ∀ i cs, row_cells st i = Some cs → Forall typed_cell cs.

Lemma dump_cell_fits row col c act : typed_cell c → is_Some (dump_cell row col c act).
Proof.
  intros [Hf Hb]. unfold dump_cell. case_match; [by eexists |].
  destruct (negb (cell_plain c)).
  - rewrite dump_sgr_fits by done. simpl. by eexists.
  - case_match; simpl; by eexists.
Qed.

Lemma dump_row_fits row cs act : Forall typed_cell cs → zlen cs = C → is_Some (dump_row row C cs act).
Proof.
  intros Hcs Hlen. unfold dump_row. pose proof (zlen_nonneg cs).
  enough (yields (for_up 0 C (λ col oa, c ← aget cs col; '(s, act) ← dump_cell row col c oa.2;
    Some (oa.1 ++ s, act)) ([], act)) (λ _, True)) as Hy by (by apply yields_Some in Hy as (? & -> & _); eexists).
  apply (for_up_inv (λ _ _, True)); [lia | done |]. intros i [out a] Hi _.
  destruct (aget_in cs i) as [c Hc]; [lia |]. rewrite Hc. cbn [mbind option_bind snd].
  rewrite Forall_aget in Hcs. destruct (dump_cell_fits row i c a (Hcs _ _ Hc)) as [[s a'] ->]. done.
Qed.

Lemma cup_bytes_fit r c tail :
  r <= DIM_MAX + 1 → c <= DIM_MAX + 1 → zlen tail <= 2 →
  ∃ l, in_buf 32 (27 :: str "[" ++ dump_fmt_int r ++ str ";" ++ dump_fmt_int c ++ tail) = Some l.
Proof.
  unfold DIM_MAX. intros Hr Hc Ht. eexists. unfold in_buf.
  match goal with |- context [zlen ?l <=? 32] => enough (zlen l <= 32) as H by (by apply Z.leb_le in H as ->) end.
  pose proof (dump_fmt_int_length 10 r ltac:(lia) ltac:(lia)).
  pose proof (dump_fmt_int_length 10 c ltac:(lia) ltac:(lia)).
  rewrite zlen_cons, !zlen_app. change (zlen (str "[")) with 1. change (zlen (str ";")) with 1. lia.
Qed.

Lemma snprintf_fits pre f post :
  zlen pre + zlen post <= 20 → flags_ok f → is_Some (in_snprintf 32 (pre ++ fmt_d f ++ post)).
Proof.
  intros Hlen Hf. pose proof (flags_digits f Hf). unfold in_snprintf.
  match goal with |- context [zlen ?l <? 32] => enough (zlen l < 32) as H' by (by apply Z.ltb_lt in H' as ->) end.
  rewrite !zlen_app. lia.
Qed.

Lemma dump_keys_fits st : wf_state R C st → is_Some (dump_keys st).
Proof.
  intros Hwf. destruct (ws_flags _ _ _ Hwf) as (Hk & _ & Hm & Hs).
  assert (flags_ok (cursor_shape st)) as Hs' by (unfold flags_ok, FLAGS_MAX; lia).
  unfold dump_keys.
  match goal with |- is_Some (?m ≫= _) => assert (is_Some m) as [s1 ->] end.
  { case_match; [| by eexists].
    apply (snprintf_fits (27 :: str "[") (cursor_shape st) (str " q")); [vm_compute; discriminate | done]. }
  cbn [mbind option_bind].
  destruct (snprintf_fits (27 :: str "[=") (kitty_kbd_flags st) (str "u")) as [s2 E2];
    [vm_compute; discriminate | done |].
  change (27 :: str "[=" ++ fmt_d (kitty_kbd_flags st) ++ str "u")
    with ((27 :: str "[=") ++ fmt_d (kitty_kbd_flags st) ++ str "u"). rewrite E2. cbn [mbind option_bind].
  match goal with |- is_Some (?m ≫= _) => assert (is_Some m) as [s3 ->] end; [| by eexists].
  case_match; [by eexists |].
  apply (snprintf_fits (27 :: str "[>4;") (modify_other_keys st) (str "m")); [vm_compute; discriminate | done].
Qed.

Lemma dump_fits st : wf_state R C st → typed_screen st → is_Some (vt_state_dump st).
Proof.
  intros Hwf Hty. destruct (cur_buf_ok _ _ _ Hwf) as (b & Hb & h & Hr).
  pose proof (ws_dims _ _ _ Hwf) as [HR HC]. pose proof (ws_cursor _ _ _ Hwf) as [Hrow Hcol].
  unfold vt_state_dump. rewrite Hb. cbn [mbind option_bind].
  assert (is_Some (dump_rows b)) as [[rows a] ->].
  { unfold dump_rows. rewrite (br_rows _ _ _ _ Hr), (br_cols _ _ _ _ Hr).
    match goal with |- is_Some ?m => enough (yields m (λ _, True)) as Hy
      by (by apply yields_Some in Hy as (? & -> & _); eexists) end.
    apply (for_up_inv (λ _ _, True)); [lia | done |]. intros i [out act] Hi _.
    destruct (buf_repr_row_in _ _ _ _ i Hr Hi) as (r & Er & Hok). rewrite Er. cbn [mbind option_bind snd].
    destruct (cup_bytes_fit (i + 1) 1 (str "H")) as [l El]; [lia | unfold DIM_MAX; lia | vm_compute; discriminate |].
    change (str ";1H") with (str ";" ++ dump_fmt_int 1 ++ str "H"). rewrite El. cbn [mbind option_bind].
    destruct (dump_row_fits i (cells r) act) as [[s act'] ->]; [| done | done].
    apply (Hty i). unfold row_cells. rewrite Hb. cbn [mbind option_bind]. by rewrite Er. }
  cbn [mbind option_bind]. unfold dump_cup.
  destruct (cup_bytes_fit (cursor_row st + 1) (cursor_col st + 1) (str "H")) as [l ->];
    [lia | lia | vm_compute; discriminate |]. cbn [mbind option_bind].
  destruct (dump_keys_fits st Hwf) as [keys ->]. by eexists.
Qed.
End Fits.

(** ** Correctness *)

(** A source screen with styles and a wide character, and a fresh client. *)
Definition demo_src : vt_state :=
  match vt_feed table_15_1_0 no_dcs (vt_parse_new, default zero_state (vt_state_new 2 6 0))
          (27 :: str "[1;31;48;2;1;2;3mA" ++ utf8_encode 0x4E16 ++ 27 :: str "[0m!" ++ 27 :: str "]2;hi" ++ [7]
           ++ 27 :: str "[2;3H" ++ 27 :: str "[?25l") with
  | Some (_, st) => st
  | None => zero_state
  end.

Definition demo_client : vt_state := default zero_state (vt_state_new 2 6 0).

Lemma demo_client_wf : wf_state 2 6 demo_client.
Proof.
  pose proof (vt_state_new_ok 2 6 0) as H. unfold demo_client, DIM_MAX in *.
  destruct (vt_state_new 2 6 0) as [st|]; [| by destruct H; lia]. apply H; lia.
Qed.

Lemma demo_src_wf : wf_state 2 6 demo_src.
Proof.
  assert (WidthTable table_15_1_0) as Htbl by (apply builtin_ok; unfold rune_width_builtin; rewrite !elem_of_cons; auto).
  unfold demo_src.
  match goal with |- context [vt_feed _ _ _ ?d] => set (data := d) end.
  assert (Forall is_byte data) as Hd by (apply bytes_ok; vm_compute; reflexivity).
  pose proof (vt_feed_ok table_15_1_0 no_dcs 2 6 vt_parse_new demo_client data wf_parse_new demo_client_wf Hd) as Hf.
  fold demo_client. destruct (vt_feed table_15_1_0 no_dcs (vt_parse_new, demo_client) data) as [[p st]|]; [| done].
  apply Hf.
Qed.

Ltac builtin_table := apply builtin_ok; unfold rune_width_builtin; rewrite !elem_of_cons; auto.

(** Producing the dump overruns none of its fixed buffers (64 bytes for a
    style, 32 for a position and for each keyboard sequence, 256 for the title),
    whatever is on the screen: for every well-formed state whose colours are
    bytes, as their C type has it, the dump is produced. *)
Theorem dump_never_overruns R C st :
  wf_state R C st → typed_screen st → ∃ out, vt_state_dump st = Some out.
Proof. intros Hwf Ht. by destruct (dump_fits R C st Hwf Ht) as [out E]; exists out. Qed.

(** All cells of a screen, checked by computation. *)
Lemma typed_screen_check st :
  match cur_buf st with
  | Some b => forallb (λ r, forallb (λ c, color_typedb (cell_fg c) && color_typedb (cell_bg c)) (cells r)) (grid b)
  | None => true
  end = true → typed_screen st.
Proof.
  unfold typed_screen, row_cells. destruct (cur_buf st) as [b|]; [| done].
  rewrite forallb_forall. intros H i cs. cbn [mbind option_bind].
  destruct (aget (grid b) i) as [r|] eqn:E; [| done]. cbn [mbind option_bind]. intros [= <-].
  assert (In r (grid b)) as Hin.
  { unfold aget in E. case_match; [| done]. apply list_elem_of_In. by eapply list_elem_of_lookup_2. }
  specialize (H r Hin). rewrite forallb_forall in H. apply Forall_forall. intros c Hc%list_elem_of_In.
  specialize (H c Hc). apply andb_true_iff in H as [? ?]. by split; apply color_typedb_sound.
Qed.

Lemma dump_never_overruns_witness : ∃ out, vt_state_dump demo_src = Some out.
Proof.
  apply (dump_never_overruns 2 6 demo_src demo_src_wf).
  apply typed_screen_check. vm_compute. reflexivity.
Defined.

(** C2: the attach dump reproduces the screens it is meant for.  The source may be
    any reachable terminal whose screen is laid out as printing leaves it: each cell
    a printable character of the width the table gives it, a wide one followed by
    its continuation, in a style without undercurl whose SGR sequence has at most
    the sixteen parameters the parser keeps; whose title, if it has one, is
    printable; whose keyboard values are at most [PARAM_MAX]; and of a size the
    parser's parameters can carry.  The client may be any terminal of the same size
    with its insert and origin modes off and ASCII in use.  Then the dump is
    produced, and playing its bytes through the client's own parser and terminal
    leaves the client with the same cells in every row; the cursor in the same row
    and column, but in the last column where the source has a wrap pending; the same
    screen selected, cursor visibility, kitty flags, and the same cursor shape and
    modifyOtherKeys value where the source has one; and the source's title if the
    dump sends it (it fits the dump's buffer), else its own.  Screens beyond these
    conditions that come back different are in [dump_replay_limits]. *)
Theorem dump_replay_correct tbl on_dcs R C st src :
  WidthTable tbl → client R C st → wf_state R C src → R <= PARAM_MAX → C < PARAM_MAX →
  (∀ i cs, row_cells src i = Some cs → laid_out tbl cs) → title_ok (title src) → keys_exact src →
  ∃ out st', vt_state_dump src = Some out ∧ plays tbl on_dcs st out st' ∧ wf_state R C st' ∧
    (∀ i, row_cells st' i = row_cells src i) ∧
    cursor_row st' = cursor_row src ∧ cursor_col st' = Z.min (cursor_col src) (C - 1) ∧
    title st' = title_after (title src) (title st) ∧
    has_bits (modes st') VT_MODE_ALTSCREEN = has_bits (modes src) VT_MODE_ALTSCREEN ∧
    has_bits (modes st') VT_MODE_CURSOR_VIS = has_bits (modes src) VT_MODE_CURSOR_VIS ∧
    (0 < cursor_shape src → cursor_shape st' = cursor_shape src) ∧
    kitty_kbd_flags st' = kitty_kbd_flags src ∧
    (modify_other_keys src ≠ 0 → modify_other_keys st' = modify_other_keys src).
Proof. intros Ht. by apply dump_replay. Qed.

Lemma dump_replay_correct_witness :
  ∃ out st', vt_state_dump demo_src = Some out ∧ plays table_15_1_0 no_dcs demo_client out st' ∧
    wf_state 2 6 st' ∧
    (∀ i, row_cells st' i = row_cells demo_src i) ∧
    cursor_row st' = cursor_row demo_src ∧ cursor_col st' = Z.min (cursor_col demo_src) (6 - 1) ∧
    title st' = title_after (title demo_src) (title demo_client) ∧
    has_bits (modes st') VT_MODE_ALTSCREEN = has_bits (modes demo_src) VT_MODE_ALTSCREEN ∧
    has_bits (modes st') VT_MODE_CURSOR_VIS = has_bits (modes demo_src) VT_MODE_CURSOR_VIS ∧
    (0 < cursor_shape demo_src → cursor_shape st' = cursor_shape demo_src) ∧
    kitty_kbd_flags st' = kitty_kbd_flags demo_src ∧
    (modify_other_keys demo_src ≠ 0 → modify_other_keys st' = modify_other_keys demo_src).
Proof.
  apply (dump_replay_correct table_15_1_0 no_dcs 2 6 demo_client demo_src).
  - builtin_table.
  - constructor; [apply demo_client_wf | vm_compute; reflexivity | vm_compute; reflexivity | vm_compute; discriminate].
  - apply demo_src_wf.
  - vm_compute; discriminate.
  - vm_compute; reflexivity.
  - apply screen_laid_outb_sound. vm_compute. reflexivity.
  - assert (title demo_src = Some [104; 105]) as -> by (vm_compute; reflexivity).
    exists [104; 105]. split; [| reflexivity].
    repeat constructor; unfold UTF8_RUNE_MAX, UTF8_RUNE_ERROR; lia.
  - split; vm_compute; discriminate.
Defined.

(** What a fresh client of the size of [st] has after playing its dump. *)
Definition replayed (tbl : rune_width_table) (R C : Z) (st : vt_state) : option vt_state :=
  out ← vt_state_dump st;
  c ← vt_state_new R C 0;
  '(_, st') ← vt_feed tbl no_dcs (vt_parse_new, c) out;
  Some st'.

(** The first row of a 1 by 4 terminal that was fed [data], and of the client
    that plays its dump. *)
Definition row_and_replay (data : list Z) : option (list vt_cell * list vt_cell) :=
  c ← vt_state_new 1 4 0;
  '(_, st) ← vt_feed table_15_1_0 no_dcs (vt_parse_new, c) data;
  st' ← replayed table_15_1_0 1 4 st;
  cs ← row_cells st 0;
  cs' ← row_cells st' 0;
  Some (cs, cs').

(** C39: two screens that ordinary output can produce and that the dump does not
    reproduce.  A cell with six attributes and two RGB colours takes 17
    parameters, one more than the parser keeps, and comes back without its
    background; and when half of a wide character has been overwritten, the
    orphaned continuation is skipped without moving the cursor, so the rest of
    the row comes back shifted. *)
Theorem dump_replay_limits :
  (λ '(cs, cs'), (map cell_bg (take 1 cs), map cell_bg (take 1 cs'))) <$>
    row_and_replay (27 :: str "[1;2;3;4;5;7m" ++ 27 :: str "[38;2;1;2;3m" ++ 27 :: str "[48;2;4;5;6mX")
    = Some ([VT_COLOR_RGB 4 5 6], [VT_COLOR_DEFAULT]) ∧
  (λ '(cs, cs'), (map codepoint cs, map codepoint cs')) <$>
    row_and_replay (utf8_encode 0x4E16 ++ str "z" ++ 13 :: str "x")
    = Some (str "x z ", str "xz  ").
Proof. split; vm_compute; reflexivity. Qed.
