(* ===== verification/VtTyped.v ===== *)
(** * Colours are bytes, everywhere

    In [struct vt_color] the components are [uint8_t]; in the model they are
    integers.  Here they are shown to stay bytes in every cell of every buffer, on
    the pen and in the saved cursor, whatever the terminal is told to do.  The
    size of the dump rests on it (VtDump.v). *)

From S2P Require Import Prelude Utf8 WidthTables RuneWidth VtBuf VtParse Decimal VtState VtOps VtClient VtDump.

(** ** If a step returns, what it returns has [P] *)

Definition ensures {A} (m : option A) (P : A → Prop) : Prop := ∀ a, m = Some a → P a.

Section Ensures.
Context {A B : Type}.
Implicit Types (m : option A) (P : A → Prop) (Q : B → Prop).

Lemma ens_ret a P : P a → ensures (Some a) P.
Proof. by intros ? b [= <-]. Qed.

Lemma ens_none P : ensures None P.
Proof. done. Qed.

Lemma ens_bind m (k : A → option B) P Q : ensures m P → (∀ a, P a → ensures (k a) Q) → ensures (m ≫= k) Q.
Proof. intros Hm Hk b. destruct m as [a|]; [| done]. apply Hk. by apply Hm. Qed.

Lemma ens_true m : ensures m (λ _, True).
Proof. done. Qed.

Lemma ens_bind_any m (k : A → option B) Q : (∀ a, ensures (k a) Q) → ensures (m ≫= k) Q.
Proof. intros Hk b. destruct m as [a|]; [apply Hk | done]. Qed.

Lemma ens_mono m P P' : ensures m P → (∀ a, P a → P' a) → ensures m P'.
Proof. intros Hm HP a E. by apply HP, Hm. Qed.

End Ensures.

Section EnsuresLoops.
Context {A : Type}.
Implicit Types (P : A → Prop).

Lemma ens_loop_up n i body (s : A) P : P s → (∀ i s, P s → ensures (body i s) P) → ensures (loop_up n i body s) P.
Proof.
  intros Hs Hb. revert i s Hs; induction n as [|n IH]; intros i s Hs; [by apply ens_ret |].
  cbn [loop_up]. eapply ens_bind; [by apply Hb | auto].
Qed.

Lemma ens_loop_down n i body (s : A) P : P s → (∀ i s, P s → ensures (body i s) P) → ensures (loop_down n i body s) P.
Proof.
  intros Hs Hb. revert i s Hs; induction n as [|n IH]; intros i s Hs; [by apply ens_ret |].
  cbn [loop_down]. eapply ens_bind; [by apply Hb | auto].
Qed.

Lemma ens_for_up lo hi body (s : A) P : P s → (∀ i s, P s → ensures (body i s) P) → ensures (for_up lo hi body s) P.
Proof. apply ens_loop_up. Qed.

Lemma ens_for_down hi lo body (s : A) P : P s → (∀ i s, P s → ensures (body i s) P) → ensures (for_down hi lo body s) P.
Proof. apply ens_loop_down. Qed.

Lemma ens_aget (l : list A) i P : Forall P l → ensures (aget l i) P.
Proof. intros Hl x. unfold aget. case_match; [| done]. by apply Forall_lookup_1. Qed.

Lemma ens_aset (l : list A) i x P : Forall P l → P x → ensures (aset l i x) (Forall P).
Proof. intros Hl Hx l'. unfold aset. case_match; [| done]. intros [= <-]. by apply Forall_insert. Qed.
End EnsuresLoops.

Create HintDb typed.

(** One step of a walk through a function's body. *)
Ltac ens1 :=
  match goal with
  | |- ensures (Some _) _ => apply ens_ret
  | |- ensures None _ => apply ens_none
  | |- ensures (for_up _ _ _ _) _ => apply ens_for_up; [| intros ? ? ?]
  | |- ensures (for_down _ _ _ _) _ => apply ens_for_down; [| intros ? ? ?]
  | |- ensures (mbind _ _) _ => eapply ens_bind; [solve [eauto with typed] | intros ? ?]
  | |- ensures (if ?c then _ else _) _ => destruct c
  | |- ensures (match ?x with _ => _ end) _ => destruct x eqn:?
  | |- ensures (mbind _ _) _ => first [eapply ens_bind; [apply ens_true | intros ? _] ]
  end.
Ltac ens := repeat ens1; eauto with typed.

(** ** Typed cells, rows, buffers, terminals *)

Definition typed_row (r : vt_row) : Prop := Forall typed_cell (cells r).
Definition typed_slot (o : option vt_row) : Prop := ∀ r, o = Some r → typed_row r.
Definition typed_buf (b : vt_buf) : Prop := Forall typed_row (grid b) ∧ Forall typed_slot (ring b).
Definition typed_opt (o : option vt_buf) : Prop := ∀ b, o = Some b → typed_buf b.

Record typed_state (st : vt_state) : Prop := {
  ty_primary : typed_opt (tgt_primary st);
  ty_alt : typed_opt (tgt_alt st);
  ty_sb : typed_opt (tgt_scrollback st);
  ty_fg : color_typed (fg st);
  ty_bg : color_typed (bg st);
  ty_saved : color_typed (saved_fg (saved st)) ∧ color_typed (saved_bg (saved st));
}.

(** ** Rows and buffers (vt_cell.c, vt_buf.c) *)

Lemma typed_clear : typed_cell vt_cell_clear.
Proof. done. Qed.

Lemma typed_erase bgc : color_typed bgc → typed_cell (vt_cell_erase bgc).
Proof. done. Qed.

Lemma typed_alloc n : typed_row (row_alloc n).
Proof. by apply Forall_replicate. Qed.

Lemma typed_alloc_bg n bgc : color_typed bgc → typed_row (row_alloc_bg n bgc).
Proof. intros H. unfold typed_row, row_alloc_bg. cbn [cells row_alloc]. apply Forall_map. by apply Forall_replicate. Qed.

Lemma typed_resize r o n : typed_row r → typed_row (row_resize r o n).
Proof. intros H. apply Forall_app_2; [by apply Forall_take | by apply Forall_replicate]. Qed.

Lemma typed_dirty r : typed_row r → typed_row (row_dirty r).
Proof. done. Qed.

Lemma typed_flags r f : typed_row r → typed_row {| r with row_flags := f |}.
Proof. done. Qed.

Lemma typed_cells r cs : Forall typed_cell cs → typed_row {| r with cells := cs |}.
Proof. done. Qed.

Lemma typed_slot_some r : typed_row r → typed_slot (Some r).
Proof. by intros ? ? [= <-]. Qed.

Lemma typed_buf_opt b : typed_buf b → typed_opt (Some b).
Proof. by intros ? ? [= <-]. Qed.

Lemma typed_none : typed_opt None.
Proof. done. Qed.

#[export] Hint Resolve typed_clear typed_erase typed_alloc typed_alloc_bg typed_resize typed_dirty typed_flags typed_cells
  typed_slot_some typed_buf_opt typed_none ens_aget ens_aset : typed.
#[export] Hint Extern 4 (Forall typed_cell (cells _)) => assumption : typed.

Lemma typed_new R C sb : typed_buf (vt_buf_new R C sb).
Proof. split; apply Forall_replicate; [apply typed_alloc | done]. Qed.

Lemma typed_grid b f : typed_buf b → (∀ g, Forall typed_row g → ensures (f g) (Forall typed_row)) → ensures (upd_grid b f) typed_buf.
Proof. intros [Hg Hk] Hf. unfold upd_grid. eapply ens_bind; [by apply Hf |]. intros g Hg'. by apply ens_ret. Qed.

Lemma aget_row g i : Forall typed_row g → ensures (aget g i) (λ r, Forall typed_cell (cells r)).
Proof. apply ens_aget. Qed.

Lemma typed_dirty_rows lo hi g : Forall typed_row g → ensures (dirty_rows lo hi g) (Forall typed_row).
Proof. intros. unfold dirty_rows. ens. Qed.

Lemma typed_row_erase lo hi bgc r : color_typed bgc → typed_row r → ensures (row_erase lo hi bgc r) typed_row.
Proof.
  intros Hb Hr. unfold row_erase. apply (ens_bind _ _ (Forall typed_cell)); [ens | intros; by apply ens_ret].
Qed.

Lemma typed_ring_push b r : typed_buf b → typed_row r → ensures (ring_push b r) typed_buf.
Proof.
  intros [Hg Hk] Hr. unfold ring_push. ens1; [by apply ens_ret |]. eapply ens_bind; [apply ens_aset; [exact Hk | by apply typed_slot_some] |].
  intros k Hk'. by apply ens_ret.
Qed.
#[export] Hint Resolve typed_new typed_dirty_rows typed_row_erase typed_ring_push : typed.

Lemma typed_vt_buf_resize b rs cs : typed_buf b → ensures (vt_buf_resize b rs cs) typed_buf.
Proof.
  intros [Hg Hk]. unfold vt_buf_resize. eapply (ens_bind _ _ typed_buf).
  - ens1; [by apply ens_ret |]. eapply (ens_bind _ _ (Forall typed_row)); [ens |]. intros g Hg'.
    eapply (ens_bind _ _ (Forall typed_slot)); [| intros k Hk'; by apply ens_ret]. ens1; [done |].
    eapply ens_bind; [by apply ens_aget |]. intros o Ho. destruct o as [r|]; [| by apply ens_ret].
    apply ens_aset; [done |]. apply typed_slot_some, typed_resize. by apply Ho.
  - intros b' [Hg' Hk']. apply ens_ret. split; [cbn | done]. case_match; [| case_match; [by apply Forall_take | done]].
    apply Forall_app_2; [done |]. apply Forall_replicate, typed_alloc.
Qed.

Lemma typed_scroll_up b top bottom n bgc : color_typed bgc → typed_buf b → ensures (vt_buf_scroll_up b top bottom n bgc) typed_buf.
Proof.
  intros Hc Hb. unfold vt_buf_scroll_up. eapply (ens_bind _ _ typed_buf).
  - ens1; [done |]. eapply ens_bind; [apply ens_aget; apply H |]. intros r Hr. ens.
  - intros b' Hb'. apply typed_grid; [done |]. intros g Hg. eapply (ens_bind _ _ (Forall typed_row)); [ens | intros ? ?; ens].
Qed.

Lemma typed_scroll_down b top bottom n bgc : color_typed bgc → typed_buf b → ensures (vt_buf_scroll_down b top bottom n bgc) typed_buf.
Proof.
  intros Hc Hb. unfold vt_buf_scroll_down. apply typed_grid; [done |]. intros g Hg. eapply (ens_bind _ _ (Forall typed_row)); [ens | intros ? ?; ens].
Qed.

Lemma typed_scroll b top bottom n bgc : color_typed bgc → typed_buf b → ensures (vt_buf_scroll b top bottom n bgc) typed_buf.
Proof.
  intros Hc Hb. unfold vt_buf_scroll. ens1; [by apply ens_ret |]. set (b1 := {| b with scroll_gen := _ |}). assert (typed_buf b1) by exact Hb.
  eapply (ens_bind _ _ typed_buf); [ens1; [by apply typed_scroll_up | by apply typed_scroll_down] |].
  intros b2 Hb2. apply typed_grid; [done |]. intros g Hg. by apply typed_dirty_rows.
Qed.

Lemma typed_clear_rows b from to bgc : color_typed bgc → typed_buf b → ensures (vt_buf_clear_rows b from to bgc) typed_buf.
Proof.
  intros Hc Hb. unfold vt_buf_clear_rows. apply typed_grid; [done |]. intros g Hg. ens1; [done |].
  eapply ens_bind; [by apply ens_aget |]. intros r Hr. eapply ens_bind; [by apply typed_row_erase |]. intros r' Hr'. by apply ens_aset.
Qed.

Lemma typed_copy_cells n src dst : Forall typed_cell src → Forall typed_cell dst → ensures (copy_cells n src dst) (Forall typed_cell).
Proof. intros. unfold copy_cells. ens. Qed.

Lemma typed_push_rows dst src from n : typed_buf dst → typed_buf src → ensures (vt_buf_push_rows dst src from n) typed_buf.
Proof.
  intros Hd Hs. unfold vt_buf_push_rows. do 2 (ens1; [by apply ens_ret |]).
  eapply (ens_bind _ _ typed_buf); [| intros b Hb; by apply ens_ret]. ens1; [done |].
  eapply ens_bind; [apply ens_aget; apply Hs |]. intros r Hr. eapply ens_bind; [apply typed_copy_cells; [done | apply typed_alloc] |].
  intros cs Hcs. by apply typed_ring_push.
Qed.
#[export] Hint Resolve typed_vt_buf_resize typed_scroll typed_clear_rows typed_copy_cells typed_push_rows : typed.

(** ** The terminal (vt_state.c) *)

(** A change of fields that hold no colours. *)
Ltac ty_fields := match goal with H : typed_state _ |- _ => destruct H; constructor; (assumption || done) end.

Lemma typed_fresh : typed_state zero_state.
Proof. by constructor. Qed.

Lemma typed_target st t : typed_state st → typed_opt (target st t).
Proof. intros []. by destruct t. Qed.

Lemma typed_cur_buf st : typed_state st → ensures (cur_buf st) typed_buf.
Proof. intros H. by apply typed_target. Qed.

Lemma typed_put_target st t o : typed_state st → typed_opt o → typed_state (put_target st t o).
Proof. intros [] Ho. by destruct t; constructor. Qed.

Lemma typed_set_cursor st r c : typed_state st → typed_state (set_cursor st r c).
Proof. intros. ty_fields. Qed.
Lemma typed_set_row st r : typed_state st → typed_state (set_row st r).
Proof. intros. ty_fields. Qed.
Lemma typed_set_col st c : typed_state st → typed_state (set_col st c).
Proof. intros. ty_fields. Qed.
Lemma typed_set_region st a b : typed_state st → typed_state (set_region st a b).
Proof. intros. ty_fields. Qed.
Lemma typed_set_modes st m : typed_state st → typed_state (set_modes st m).
Proof. intros. ty_fields. Qed.
Lemma typed_set_tabs st ts : typed_state st → typed_state (set_tabs st ts).
Proof. intros. ty_fields. Qed.
Lemma typed_set_kitty st s d f : typed_state st → typed_state (set_kitty st s d f).
Proof. intros. ty_fields. Qed.
Lemma typed_set_active st t : typed_state st → typed_state (set_active st t).
Proof. intros. ty_fields. Qed.
Lemma typed_set_target st t : typed_state st → typed_state (vt_state_set_target st t).
Proof. intros. unfold vt_state_set_target. case_match; [by apply typed_set_active | done]. Qed.
Lemma typed_set_pen st a f b : typed_state st → color_typed f → color_typed b → typed_state (set_pen st a f b).
Proof. intros. ty_fields. Qed.
Lemma typed_cursor_save st : typed_state st → typed_state (vt_state_cursor_save st).
Proof. intros. ty_fields. Qed.
#[export] Hint Resolve typed_cur_buf typed_put_target typed_set_cursor typed_set_row typed_set_col typed_set_region typed_set_modes
  typed_set_tabs typed_set_kitty typed_set_active typed_set_target typed_set_pen typed_cursor_save ty_fg ty_bg : typed.

Lemma typed_upd_buf st f : typed_state st → (∀ b, typed_buf b → ensures (f b) typed_buf) → ensures (upd_buf st f) typed_state.
Proof. intros Hst Hf. unfold upd_buf. eapply ens_bind; [by apply typed_cur_buf |]. intros b Hb. eapply ens_bind; [by apply Hf |]. intros. ens. Qed.

Lemma typed_with_row st row f : typed_state st → (∀ r, typed_row r → ensures (f r) typed_row) → ensures (with_row st row f) typed_state.
Proof.
  intros Hst Hf. apply typed_upd_buf; [done |]. intros b Hb. unfold upd_row. ens1; [| by apply ens_ret]. apply typed_grid; [done |].
  intros g Hg. eapply ens_bind; [by apply ens_aget |]. intros r Hr. eapply ens_bind; [by apply Hf |]. intros. by apply ens_aset.
Qed.

Lemma typed_put_cell b row col c : typed_buf b → typed_cell c → ensures (put_cell b row col c) typed_buf.
Proof.
  intros Hb Hc. unfold put_cell. ens1; [destruct p | by apply ens_ret]. apply typed_grid; [done |].
  intros g Hg. eapply ens_bind; [by apply ens_aget |]. intros r Hr. eapply ens_bind; [by apply ens_aset |]. intros. by apply ens_aset.
Qed.

Lemma typed_tabstops_init st : typed_state st → ensures (tabstops_init st) typed_state.
Proof. intros. unfold tabstops_init. ens. Qed.
Lemma typed_tab_clear_all st : typed_state st → ensures (vt_state_tab_clear_all st) typed_state.
Proof. intros. unfold vt_state_tab_clear_all. ens. Qed.
Lemma typed_tab_reset st : typed_state st → ensures (vt_state_tab_reset st) typed_state.
Proof. intros. unfold vt_state_tab_reset. ens. Qed.
Lemma typed_tab_put st col v : typed_state st → ensures (vt_state_tab_put st col v) typed_state.
Proof. intros. unfold vt_state_tab_put. ens. Qed.
#[export] Hint Resolve typed_tabstops_init typed_tab_clear_all typed_tab_reset typed_tab_put : typed.

Lemma typed_state_new R C sb : ensures (vt_state_new R C sb) typed_state.
Proof. apply typed_tabstops_init. constructor; try done. apply typed_buf_opt, typed_new. Qed.

Lemma typed_kitty_push st f : typed_state st → ensures (vt_state_kitty_push st f) typed_state.
Proof. intros. unfold vt_state_kitty_push. ens. Qed.
Lemma typed_kitty_pop st n : typed_state st → ensures (vt_state_kitty_pop st n) typed_state.
Proof. intros. unfold vt_state_kitty_pop. ens. Qed.
Lemma typed_kitty_set st f m : typed_state st → ensures (vt_state_kitty_set st f m) typed_state.
Proof. intros. unfold vt_state_kitty_set. ens. Qed.
Lemma typed_title_push st : typed_state st → ensures (vt_state_title_push st) typed_state.
Proof. intros. unfold vt_state_title_push. ens; ty_fields. Qed.
Lemma typed_title_pop st : typed_state st → ensures (vt_state_title_pop st) typed_state.
Proof. intros. unfold vt_state_title_pop. ens; ty_fields. Qed.
Lemma typed_cursor_clamp st : typed_state st → ensures (vt_state_cursor_clamp st) typed_state.
Proof. intros. unfold vt_state_cursor_clamp. ens. Qed.
Lemma typed_cursor_restore st : typed_state st → ensures (vt_state_cursor_restore st) typed_state.
Proof. intros H. apply typed_cursor_clamp. destruct (ty_saved _ H). auto with typed. Qed.
#[export] Hint Resolve typed_kitty_push typed_kitty_pop typed_kitty_set typed_title_push typed_title_pop typed_cursor_clamp typed_cursor_restore : typed.

Lemma typed_resize_target o rs cs : typed_opt o → ensures (resize_target o rs cs) typed_opt.
Proof. intros H. unfold resize_target. ens1; [| by apply ens_ret]. eapply ens_bind; [apply typed_vt_buf_resize; by apply H |]. intros. ens. Qed.

Lemma typed_vt_state_resize st rs cs : typed_state st → ensures (vt_state_resize st rs cs) typed_state.
Proof.
  intros Hst. pose proof Hst as [Hp Ha Hs _ _ _]. unfold vt_state_resize. ens1.
  do 3 (eapply ens_bind; [by apply typed_resize_target |]; intros ? ?).
  apply (ens_bind _ _ typed_state); [ens1; auto 6 with typed; apply ens_ret; auto 6 with typed |]. intros. auto with typed.
Qed.

Lemma typed_altscreen_enter st : typed_state st → ensures (vt_state_altscreen_enter st) typed_state.
Proof.
  intros Hst. unfold vt_state_altscreen_enter. ens1; [by apply ens_ret |]. ens1. set (st1 := set_modes _ _). assert (typed_state st1) as H1 by (unfold st1; auto with typed).
  set (st2 := match tgt_alt st1 with None => _ | Some _ => _ end).
  assert (typed_state st2) as H2 by (unfold st2; case_match; [done |]; apply typed_put_target; [done | apply typed_buf_opt, typed_new]).
  apply (ens_bind _ _ typed_state); [| intros; apply ens_ret; auto with typed].
  apply typed_upd_buf; [by apply typed_set_target |]. intros b Hb. apply typed_clear_rows; [by apply ty_bg, typed_set_target | done].
Qed.

Lemma typed_capture_alt st : typed_state st → ensures (capture_alt st) typed_state.
Proof.
  intros Hst. unfold capture_alt. ens1; [| by apply ens_ret]. ens1; [| by apply ens_ret]. ens1. ens1; [| by apply ens_ret].
  eapply ens_bind; [exact (ty_primary _ Hst) |]. intros p Hp. eapply ens_bind; [apply typed_push_rows; [done | by apply (ty_alt _ Hst)] |]. intros. ens.
Qed.

Lemma typed_altscreen_leave st : typed_state st → ensures (vt_state_altscreen_leave st) typed_state.
Proof.
  intros Hst. unfold vt_state_altscreen_leave. ens1; [by apply ens_ret |].
  eapply ens_bind; [apply typed_capture_alt; auto with typed |]. intros st1 H1. ens1. auto 6 with typed.
Qed.

Lemma typed_index st : typed_state st → ensures (vt_state_index st) typed_state.
Proof. intros. unfold vt_state_index. ens1. ens1; [apply typed_upd_buf; [done |]; intros; auto with typed |]. ens. Qed.

Lemma typed_reverse_index st : typed_state st → ensures (vt_state_reverse_index st) typed_state.
Proof. intros. unfold vt_state_reverse_index. ens1; [apply typed_upd_buf; [done |]; intros; auto with typed |]. ens. Qed.
#[export] Hint Resolve typed_vt_state_resize typed_altscreen_enter typed_altscreen_leave typed_index typed_reverse_index : typed.

Lemma typed_put_wrap st cols w : typed_state st → ensures (put_wrap st cols w) typed_state.
Proof.
  intros. unfold put_wrap. ens1; [| by apply ens_ret]. ens1; [| apply ens_ret; auto with typed].
  apply (ens_bind _ _ typed_state); [apply typed_with_row; [done | intros; ens] | intros; auto with typed].
Qed.

Lemma typed_put_insert st cols w : typed_state st → ensures (put_insert st cols w) typed_state.
Proof.
  intros. unfold put_insert. ens1; [| by apply ens_ret]. apply typed_with_row; [done |]. intros r Hr.
  apply (ens_bind _ _ (Forall typed_cell)); [ens | intros; by apply ens_ret].
Qed.

Lemma typed_put_glyph st cols cp w : typed_state st → ensures (put_glyph st cols cp w) typed_state.
Proof.
  intros Hst. unfold put_glyph. ens1. ens1; [| by apply ens_ret].
  apply (ens_bind _ _ typed_state). { apply typed_upd_buf; [done |]. intros b Hb. apply typed_put_cell; [done |]. by split; apply Hst. }
  intros st1 H1. apply (ens_bind _ _ typed_state). { ens1; [| by apply ens_ret]. apply typed_upd_buf; [done |]. intros. by apply typed_put_cell. }
  intros st2 H2. apply (ens_bind _ _ typed_state); [apply typed_with_row; [done |]; intros; ens |]. intros. ens.
Qed.

Lemma typed_putchar st cp w : typed_state st → ensures (vt_state_putchar st cp w) typed_state.
Proof.
  intros. unfold vt_state_putchar. ens1. apply (ens_bind _ _ typed_state); [by apply typed_put_wrap |]. intros.
  apply (ens_bind _ _ typed_state); [by apply typed_put_insert |]. intros. by apply typed_put_glyph.
Qed.
#[export] Hint Resolve typed_putchar : typed.

(** ** Control functions (vt_ops.c) *)

Lemma ens_switch {A} c (cases : list (Z * option A)) d P : Forall (λ x, ensures x.2 P) cases → ensures d P → ensures (switch c cases d) P.
Proof. intros. by apply (switch_ok (λ m, ensures m P)). Qed.

Ltac ens_cases := apply ens_switch; [repeat (apply Forall_cons; split; cbn [snd]); [.. | apply Forall_nil_2] |].

Lemma typed_reply st data : typed_state st → typed_state (vt_reply st data).
Proof. intros. unfold vt_reply. case_match; [done | ty_fields]. Qed.

Lemma typed_reply_buf st cap data : typed_state st → ensures (reply_buf st cap data) typed_state.
Proof. intros. unfold reply_buf. ens1; [apply ens_ret; by apply typed_reply | done]. Qed.
#[export] Hint Resolve typed_reply typed_reply_buf : typed.

Lemma typed_print st cp w : typed_state st → ensures (op_print st cp w) typed_state.
Proof. intros. unfold op_print. ens1. auto with typed. Qed.

Lemma typed_execute st c : typed_state st → ensures (op_execute st c) typed_state.
Proof.
  intros. unfold op_execute. ens1; [apply ens_ret; case_match; [ty_fields | done] |]. ens1; [apply ens_ret; case_match; auto with typed |].
  ens1; [ens |]. ens1; [auto with typed |]. ens1; [ens |]. do 2 (ens1; [apply ens_ret; ty_fields |]). by apply ens_ret.
Qed.

Definition typed_pen (p : pen) : Prop := color_typed p.1.2 ∧ color_typed p.2.

Lemma typed_u8 x : color_typed (VT_COLOR_INDEXED (u8 x)).
Proof. apply u8_range. Qed.

Lemma typed_sgr_one n p : typed_pen p → typed_pen (sgr_one n p).
Proof. destruct p as [[a f] b]. intros [Hf Hb]. cbn in Hf, Hb. unfold sgr_one. repeat case_match; split; (done || apply typed_u8). Qed.

Lemma typed_sgr_extended rest : ensures (sgr_extended rest) (λ x, color_typed x.1).
Proof.
  unfold sgr_extended. destruct rest as [|m rest]; [done |]. destruct (m =? 5); [destruct rest; [done |]; apply ens_ret, typed_u8 |].
  destruct (m =? 2); [| done]. destruct rest as [|r [|g [|b rest]]]; try done. apply ens_ret. split_and!; apply u8_range.
Qed.

Lemma typed_sgr_loop fuel : ∀ ps p, typed_pen p → typed_pen (sgr_loop fuel ps p).
Proof.
  induction fuel as [|fuel IH]; intros ps p Hp; [by destruct ps |]. destruct ps as [|x rest]; [done |]. cbn [sgr_loop]. destruct p as [[a f] b].
  destruct Hp as [Hf Hb]. cbn in Hf, Hb. destruct (_ =? 38); [| destruct (_ =? 48); [| apply IH; by apply typed_sgr_one]];
    (destruct (sgr_extended rest) as [[c rest']|] eqn:E; apply IH; split; try done; by apply (typed_sgr_extended rest _ E)).
Qed.

Lemma typed_with_pen st p : typed_state st → typed_pen p → typed_state (with_pen st p).
Proof. intros ? [? ?]. by apply typed_set_pen. Qed.

Lemma typed_sgr st ps : typed_state st → typed_state (csi_sgr st ps).
Proof. intros Hst. unfold csi_sgr. case_match; apply typed_with_pen; try done. apply typed_sgr_loop. split; apply Hst. Qed.

Lemma typed_erase_dirty lo hi bgc r : color_typed bgc → typed_row r → ensures (erase_dirty lo hi bgc r) typed_row.
Proof. intros. unfold erase_dirty. eapply ens_bind; [by apply typed_row_erase |]. intros. by apply ens_ret. Qed.

Lemma typed_erase_row st row lo hi : typed_state st → ensures (with_row st row (erase_dirty lo hi (bg st))) typed_state.
Proof. intros. apply typed_with_row; [done |]. intros. apply typed_erase_dirty; [by apply ty_bg | done]. Qed.

Lemma typed_clear_lines st lo hi : typed_state st → ensures (upd_buf st (λ b, vt_buf_clear_rows b lo hi (bg st))) typed_state.
Proof. intros. apply typed_upd_buf; [done |]. intros. auto with typed. Qed.

Lemma typed_scroll_lines st lo hi n : typed_state st → ensures (upd_buf st (λ b, vt_buf_scroll b lo hi n (bg st))) typed_state.
Proof. intros. apply typed_upd_buf; [done |]. intros. auto with typed. Qed.
#[export] Hint Resolve typed_erase_row typed_clear_lines typed_scroll_lines typed_sgr : typed.

Lemma typed_erase_display st mode : typed_state st → ensures (csi_erase_display st mode) typed_state.
Proof. intros. unfold csi_erase_display. ens. Qed.

Lemma typed_erase_line st mode : typed_state st → ensures (csi_erase_line st mode) typed_state.
Proof. intros. unfold csi_erase_line. ens. Qed.

Lemma typed_insert_lines st n : typed_state st → ensures (csi_insert_lines st n) typed_state.
Proof. intros. unfold csi_insert_lines. ens. Qed.

Lemma typed_delete_lines st n : typed_state st → ensures (csi_delete_lines st n) typed_state.
Proof. intros. unfold csi_delete_lines. ens. Qed.

Lemma typed_insert_chars st n : typed_state st → ensures (csi_insert_chars st n) typed_state.
Proof.
  intros. unfold csi_insert_chars. ens1. apply typed_with_row; [done |]. intros r Hr. apply (ens_bind _ _ (Forall typed_cell)); [ens |].
  intros. apply typed_erase_dirty; [by apply ty_bg | done].
Qed.

Lemma typed_delete_chars st n : typed_state st → ensures (csi_delete_chars st n) typed_state.
Proof.
  intros. unfold csi_delete_chars. ens1. apply typed_with_row; [done |]. intros r Hr. apply (ens_bind _ _ (Forall typed_cell)); [ens |].
  intros. apply typed_erase_dirty; [by apply ty_bg | done].
Qed.

Lemma typed_erase_chars st n : typed_state st → ensures (csi_erase_chars st n) typed_state.
Proof. intros. unfold csi_erase_chars. ens. Qed.
#[export] Hint Resolve typed_erase_display typed_erase_line typed_insert_lines typed_delete_lines typed_insert_chars typed_delete_chars typed_erase_chars : typed.

Lemma typed_add_mode st m : typed_state st → typed_state (add_mode st m).
Proof. apply typed_set_modes. Qed.
Lemma typed_del_mode st m : typed_state st → typed_state (del_mode st m).
Proof. apply typed_set_modes. Qed.
Lemma typed_set_mouse st n : typed_state st → typed_state (set_mouse st n).
Proof. intros. ty_fields. Qed.
Lemma typed_goto_row st n : typed_state st → typed_state (goto_row st n).
Proof. intros. unfold goto_row. case_match; auto with typed. Qed.
Lemma typed_csi_set_region st rs n m : typed_state st → typed_state (csi_set_region st rs n m).
Proof. intros. unfold csi_set_region. case_match; auto with typed. Qed.
#[export] Hint Resolve typed_add_mode typed_del_mode typed_set_mouse typed_goto_row typed_csi_set_region ens_ret : typed.

Lemma typed_decset st n : typed_state st → ensures (csi_decset st n) typed_state.
Proof. intros. unfold csi_decset. ens_cases; auto 6 with typed. Qed.

Lemma typed_decrst st n : typed_state st → ensures (csi_decrst st n) typed_state.
Proof. intros. unfold csi_decrst. ens_cases; auto 6 with typed. Qed.

Lemma typed_private st ps f : typed_state st → ensures (csi_private st ps f) typed_state.
Proof. intros. unfold csi_private. ens_cases; auto using typed_decset, typed_decrst with typed. case_match; auto with typed. Qed.

Lemma typed_back_tab st n : typed_state st → ensures (csi_back_tab st n) typed_state.
Proof. intros. unfold csi_back_tab. ens. Qed.

Lemma typed_plain st ps f : typed_state st → ensures (csi_plain st ps f) typed_state.
Proof.
  intros. unfold csi_plain. ens1. cbv zeta. ens_cases; auto using typed_back_tab, ens_ret with typed;
    unfold vt_state_tab_clear; repeat case_match; auto with typed.
Qed.

Lemma typed_csi st ps i f : typed_state st → ensures (op_csi st ps i f) typed_state.
Proof.
  intros. unfold op_csi. ens1; [by apply typed_private |]. ens1; [apply ens_ret; case_match; [ty_fields | done] |].
  do 3 (ens1; [auto with typed |]). ens1; [apply ens_ret; case_match; [ty_fields | done] |]. ens1; [by apply ens_ret | by apply typed_plain].
Qed.

Lemma typed_ris st : typed_state st → ensures (esc_ris st) typed_state.
Proof.
  intros Hst. unfold esc_ris. apply (ens_bind _ _ typed_state); [ens |]. intros st1 H1. ens1.
  eapply (ens_bind _ _ typed_state); [| intros; auto with typed]. apply typed_tab_reset.
  assert (typed_state (set_region (with_pen st1 plain_pen) 0 (buf_rows a))) as H2 by (apply typed_set_region, typed_with_pen; done).
  clear H1. ty_fields.
Qed.

Lemma typed_esc st i f : typed_state st → ensures (op_esc st i f) typed_state.
Proof.
  intros. unfold op_esc. ens1.
  { ens_cases; auto using typed_ris with typed. by apply typed_tab_put. }
  ens1; [apply ens_ret, (switch_ok typed_state); [| done]; repeat (apply Forall_cons; split); [ty_fields | ty_fields | apply Forall_nil_2] |].
  ens1; [apply ens_ret, (switch_ok typed_state); [| done]; repeat (apply Forall_cons; split); [ty_fields | ty_fields | apply Forall_nil_2] |]. by apply ens_ret.
Qed.

Lemma typed_osc st data : typed_state st → typed_state (op_osc st data).
Proof.
  intros. unfold op_osc, osc_color_reply. repeat first [done | by apply typed_reply | by ty_fields | case_match].
Qed.

(** ** Bytes *)

(** What the owner's callback keeps. *)
Class DcsTyped (on_dcs : vt_state → Z → list Z → option vt_state) : Prop :=
  dcs_typed : ∀ st intro data, typed_state st → ensures (on_dcs st intro data) typed_state.

#[export] Instance no_dcs_typed : DcsTyped no_dcs.
Proof. intros st intro data H. by apply ens_ret. Qed.

Section FeedTyped.
Context (tbl : rune_width_table) (on_dcs : vt_state → Z → list Z → option vt_state) `{!DcsTyped on_dcs}.

Lemma typed_event st ev : typed_state st → ensures (apply_event on_dcs st ev) typed_state.
Proof.
  intros. destruct ev; cbn [apply_event]; [by apply typed_print | by apply typed_execute | by apply typed_csi | by apply typed_esc | |].
  - by apply ens_ret, typed_osc.
  - by apply dcs_typed.
Qed.

Lemma typed_events evs : ∀ st, typed_state st → ensures (apply_events on_dcs st evs) typed_state.
Proof.
  induction evs as [|ev evs IH]; intros st Hst; [by apply ens_ret |]. cbn [apply_events]. eapply ens_bind; [by apply typed_event |]. exact IH.
Qed.

Lemma typed_feed p st data : typed_state st → ensures (vt_feed tbl on_dcs (p, st) data) (λ ps, typed_state ps.2).
Proof.
  intros. unfold vt_feed. eapply (ens_bind _ _ (λ _, True)); [apply ens_true |]. intros [p' evs] _.
  apply (ens_bind _ _ typed_state); [by apply typed_events |]. intros. by apply ens_ret.
Qed.

Lemma typed_step s s' : session_step tbl on_dcs s s' → typed_state s.2.2 → typed_state s'.2.2.
Proof.
  intros Hs H. destruct Hs as [R C [p st] data [p' st'] Hd E | R C p st R' C' st' HR HC E | | | | | |]; cbn in *.
  - by apply (typed_feed p st data H _ E).
  - by apply (typed_vt_state_resize st R' C' H).
  - done.
  - by apply typed_set_target.
  - ty_fields.
  - ty_fields.
  - ty_fields.
  - ty_fields.
Qed.

Lemma typed_reachable s : reachable tbl on_dcs s → typed_state s.2.2.
Proof.
  induction 1 as [R C sb st on HR HC E | s s' _ IH Hstep]; [by apply (typed_state_new R C sb) | by eapply typed_step].
Qed.
End FeedTyped.

Lemma typed_state_screen st : typed_state st → typed_screen st.
Proof.
  intros H i cs. unfold row_cells. destruct (cur_buf st) as [b|] eqn:Eb; [| done]. cbn [mbind option_bind].
  destruct (aget (grid b) i) as [r|] eqn:E; [| done]. intros [= <-]. apply (typed_cur_buf _ H) in Eb as [Hg _]. by apply (ens_aget _ i _ Hg).
Qed.

(** ** The dump of any session *)

(** C26: Colours are bytes and the dump fits, always: in every terminal that a
    session reaches, whatever bytes it was fed and however it was resized, the
    colours of every cell of every buffer, of the pen and of the saved cursor
    have components between 0 and 255, as their C type has it, and therefore the
    dump of the screen is produced without overrunning its fixed buffers (64
    bytes for a style, 32 for a position and for each keyboard sequence, 256 for
    the title). *)
Theorem colours_stay_bytes tbl on_dcs R C p st :
  WidthTable tbl → DcsHandler on_dcs → DcsTyped on_dcs → reachable tbl on_dcs (R, C, (p, st)) →
  typed_state st ∧ ∃ out, vt_state_dump st = Some out.
Proof.
  intros Htbl Hd Ht Hr. pose proof (typed_reachable tbl on_dcs _ Hr) as Hty. split; [exact Hty |].
  destruct (reachable_ok tbl on_dcs _ Hr) as [_ Hw]. destruct (dump_fits R C st Hw (typed_state_screen st Hty)) as [out E]. by exists out.
Qed.

Lemma colours_stay_bytes_witness :
  let data := 27 :: str "[1;31;48;2;300;2;3mA" in
  let st := default zero_state (vt_state_new 2 6 0) in
  let ps := default (vt_parse_new, zero_state) (vt_feed table_15_1_0 no_dcs (vt_parse_set_dcs_cb vt_parse_new true, st) data) in
  bg ps.2 = VT_COLOR_RGB 44 2 3 ∧ typed_state ps.2 ∧ ∃ out, vt_state_dump ps.2 = Some out.
Proof.
  intros data st ps. split; [vm_compute; reflexivity |].
  assert (vt_state_new 2 6 0 = Some st) as E by (vm_compute; reflexivity).
  assert (vt_feed table_15_1_0 no_dcs (vt_parse_set_dcs_cb vt_parse_new true, st) data = Some ps) as E2 by (vm_compute; reflexivity).
  assert (Forall is_byte data) as Hb by (apply bytes_ok; vm_compute; reflexivity).
  clearbody st ps data. destruct ps as [p st']. apply (colours_stay_bytes table_15_1_0 no_dcs 2 6 p st'); [builtin_table | apply no_dcs_handler | apply no_dcs_typed |].
  eapply reach_step; [apply (reach_new _ _ 2 6 0 st true); [unfold DIM_MAX; lia | unfold DIM_MAX; lia | exact E] |]. by eapply step_feed.
Defined.
