(* ===== verification/VtAlt.v ===== *)
(** * The alternate screen (vt_state.c, vt_ops.c)

    What a program does on the alternate screen stays there: whatever bytes it
    sends between entering and leaving, however the window is resized meanwhile,
    the primary screen is only resized, and leaving shows it again.  The saved
    cursor is one slot for both screens, so the cursor and the pen come back as
    they were saved last. *)

From S2P Require Import Prelude Utf8 WidthTables RuneWidth VtBuf VtParse Decimal VtState VtOps VtClient VtDump VtTyped.

(** ** What leaves the alternate screen, what saves the cursor *)

(** CSI ? 47/1047/1049 l and RIS. *)
Definition leaves_alt (ev : vt_event) : bool :=
  match ev with
  | EvCsi ps i f => (i =? ch "?") && (f =? ch "l") && bool_decide (param_or ps 0 0 ∈ [47; 1047; 1049])
  | EvEsc i f => (i =? 0) && (f =? ch "c")
  | _ => false
  end.

(** DECSC and CSI s. *)
Definition saves_cursor (ev : vt_event) : bool :=
  match ev with
  | EvCsi ps i f => (i =? 0) && (f =? ch "s")
  | EvEsc i f => (i =? 0) && (f =? ch "7")
  | _ => false
  end.

(** ** Staying on the alternate screen *)

(** The alternate screen is shown, the primary one is [p], the capture setting
    [cap]; the saved cursor is [s] where [os] is [Some s]. *)
Record on_alt (p : option vt_buf) (cap : bool) (os : option vt_saved_cursor) (st : vt_state) : Prop := {
  oa_active : active_target st = VT_TARGET_ALT;
  oa_mode : has_bits (modes st) VT_MODE_ALTSCREEN = true;
  oa_primary : tgt_primary st = p;
  oa_capture : capture_alt_scroll st = cap;
  oa_saved : ∀ s, os = Some s → saved st = s;
}.

(** What the owner's DCS callback keeps. *)
Class DcsStays (on_dcs : vt_state → Z → list Z → option vt_state) : Prop :=
  dcs_stays : ∀ p cap os st intro data, on_alt p cap os st → ensures (on_dcs st intro data) (on_alt p cap os).

#[export] Instance no_dcs_stays : DcsStays no_dcs.
Proof. intros p cap os st intro data H. by apply ens_ret. Qed.

Create HintDb onalt.

(** A change of fields that none of this is about. *)
Ltac oa_fields := match goal with H : on_alt _ _ _ _ |- _ => destruct H; constructor; (assumption || done) end.

(** One step of a walk through a function's body, and the walk. *)
Ltac alt1 :=
  match goal with
  | |- ensures (Some _) _ => apply ens_ret
  | |- ensures None _ => apply ens_none
  | |- ensures (for_up _ _ _ _) _ => apply ens_for_up; [| intros ? ? ?]
  | |- ensures (for_down _ _ _ _) _ => apply ens_for_down; [| intros ? ? ?]
  | |- ensures (mbind _ _) _ => eapply ens_bind; [solve [eauto with onalt] | intros ? ?]
  | |- ensures (if ?c then _ else _) _ => destruct c
  | |- ensures (match ?x with _ => _ end) _ => destruct x eqn:?
  | |- ensures (mbind _ _) _ => apply ens_bind_any; intros ?
  end.
Ltac alt_walk := repeat alt1; eauto with onalt.

Section OnAlt.
Context (p : option vt_buf) (cap : bool) (os : option vt_saved_cursor).
Local Abbreviation OA := (on_alt p cap os).

Lemma oa_set_cursor st r c : OA st → OA (set_cursor st r c).
Proof. intros. oa_fields. Qed.
Lemma oa_set_row st r : OA st → OA (set_row st r).
Proof. intros. oa_fields. Qed.
Lemma oa_set_col st c : OA st → OA (set_col st c).
Proof. intros. oa_fields. Qed.
Lemma oa_set_region st a b : OA st → OA (set_region st a b).
Proof. intros. oa_fields. Qed.
Lemma oa_set_tabs st ts : OA st → OA (set_tabs st ts).
Proof. intros. oa_fields. Qed.
Lemma oa_set_kitty st s d f : OA st → OA (set_kitty st s d f).
Proof. intros. oa_fields. Qed.
Lemma oa_set_pen st a f b : OA st → OA (set_pen st a f b).
Proof. intros. oa_fields. Qed.
Lemma oa_with_pen st x : OA st → OA (with_pen st x).
Proof. apply oa_set_pen. Qed.
Lemma oa_set_mouse st n : OA st → OA (set_mouse st n).
Proof. intros. oa_fields. Qed.
Lemma oa_put_target st t o : OA st → t ≠ VT_TARGET_PRIMARY → OA (put_target st t o).
Proof. intros [] Ht. by destruct t; constructor. Qed.
Lemma oa_put_active st o : OA st → OA (put_target st (active_target st) o).
Proof. intros H. apply oa_put_target; [done |]. by rewrite (oa_active _ _ _ _ H). Qed.

(** Modes other than the screen's own. *)
Lemma oa_add_mode st m : OA st → OA (add_mode st m).
Proof. intros []. constructor; try done. cbn. by rewrite has_bits_set, oa_mode0. Qed.
Lemma oa_del_mode st m : OA st → Z.land m VT_MODE_ALTSCREEN = 0 → OA (del_mode st m).
Proof. intros [] Hm. constructor; try done. cbn. by rewrite has_bits_clear. Qed.
#[local] Hint Resolve oa_set_cursor oa_set_row oa_set_col oa_set_region oa_set_tabs oa_set_kitty oa_set_pen oa_with_pen oa_set_mouse
  oa_put_active oa_add_mode ens_ret : onalt.
#[local] Hint Extern 2 (on_alt _ _ _ (del_mode _ _)) => apply oa_del_mode; [| reflexivity] : onalt.

(** Drawing is on the screen that is shown. *)
Lemma oa_upd_buf st f : OA st → ensures (upd_buf st f) OA.
Proof. intros. unfold upd_buf. alt_walk. Qed.
Lemma oa_with_row st row f : OA st → ensures (with_row st row f) OA.
Proof. apply oa_upd_buf. Qed.
#[local] Hint Resolve oa_upd_buf oa_with_row : onalt.

Lemma oa_tabstops_init st : OA st → ensures (tabstops_init st) OA.
Proof. intros. unfold tabstops_init. alt_walk. Qed.
Lemma oa_tab_clear_all st : OA st → ensures (vt_state_tab_clear_all st) OA.
Proof. intros. unfold vt_state_tab_clear_all. alt_walk. Qed.
Lemma oa_tab_put st col v : OA st → ensures (vt_state_tab_put st col v) OA.
Proof. intros. unfold vt_state_tab_put. alt_walk. Qed.
Lemma oa_kitty_push st f : OA st → ensures (vt_state_kitty_push st f) OA.
Proof. intros. unfold vt_state_kitty_push. alt_walk. Qed.
Lemma oa_kitty_pop st n : OA st → ensures (vt_state_kitty_pop st n) OA.
Proof. intros. unfold vt_state_kitty_pop. alt_walk. Qed.
Lemma oa_kitty_set st f m : OA st → ensures (vt_state_kitty_set st f m) OA.
Proof. intros. unfold vt_state_kitty_set. alt_walk. Qed.
Lemma oa_title_push st : OA st → ensures (vt_state_title_push st) OA.
Proof. intros. unfold vt_state_title_push. alt_walk; oa_fields. Qed.
Lemma oa_title_pop st : OA st → ensures (vt_state_title_pop st) OA.
Proof. intros. unfold vt_state_title_pop. alt_walk; oa_fields. Qed.
Lemma oa_cursor_clamp st : OA st → ensures (vt_state_cursor_clamp st) OA.
Proof. intros. unfold vt_state_cursor_clamp. alt_walk. Qed.
Lemma oa_cursor_restore st : OA st → ensures (vt_state_cursor_restore st) OA.
Proof. intros H. apply oa_cursor_clamp. auto with onalt. Qed.
#[local] Hint Resolve oa_tabstops_init oa_tab_clear_all oa_tab_put oa_kitty_push oa_kitty_pop oa_kitty_set oa_title_push oa_title_pop
  oa_cursor_clamp oa_cursor_restore : onalt.

(** Entering again does nothing. *)
Lemma oa_enter st : OA st → ensures (vt_state_altscreen_enter st) OA.
Proof. intros H. unfold vt_state_altscreen_enter. rewrite (oa_mode _ _ _ _ H). by apply ens_ret. Qed.

Lemma oa_index st : OA st → ensures (vt_state_index st) OA.
Proof. intros. unfold vt_state_index. alt_walk. Qed.
Lemma oa_reverse_index st : OA st → ensures (vt_state_reverse_index st) OA.
Proof. intros. unfold vt_state_reverse_index. alt_walk. Qed.
#[local] Hint Resolve oa_enter oa_index oa_reverse_index : onalt.

Lemma oa_put_wrap st cols w : OA st → ensures (put_wrap st cols w) OA.
Proof. intros. unfold put_wrap. alt_walk. Qed.
Lemma oa_put_insert st cols w : OA st → ensures (put_insert st cols w) OA.
Proof. intros. unfold put_insert. alt_walk. Qed.
Lemma oa_put_glyph st cols cp w : OA st → ensures (put_glyph st cols cp w) OA.
Proof.
  intros. unfold put_glyph. alt1. alt1; [| alt_walk]. eapply (ens_bind _ _ OA); [auto with onalt |]. intros st1 H1.
  eapply (ens_bind _ _ OA); [alt_walk |]. intros st2 H2. alt_walk.
Qed.
#[local] Hint Resolve oa_put_wrap oa_put_insert oa_put_glyph : onalt.

Lemma oa_putchar st cp w : OA st → ensures (vt_state_putchar st cp w) OA.
Proof. intros. unfold vt_state_putchar. alt_walk. Qed.
#[local] Hint Resolve oa_putchar : onalt.

(** *** Control functions *)

Lemma oa_reply st data : OA st → OA (vt_reply st data).
Proof. intros. unfold vt_reply. case_match; [done | oa_fields]. Qed.
Lemma oa_reply_buf st n data : OA st → ensures (reply_buf st n data) OA.
Proof. intros. unfold reply_buf. alt1; [apply ens_ret; by apply oa_reply | done]. Qed.
Lemma oa_print st cp w : OA st → ensures (op_print st cp w) OA.
Proof. intros. unfold op_print. alt_walk. Qed.
Lemma oa_sgr st ps : OA st → OA (csi_sgr st ps).
Proof. intros. unfold csi_sgr. case_match; auto with onalt. Qed.
Lemma oa_goto_row st n : OA st → OA (goto_row st n).
Proof. intros. unfold goto_row. case_match; auto with onalt. Qed.
Lemma oa_csi_set_region st rs n m : OA st → OA (csi_set_region st rs n m).
Proof. intros. unfold csi_set_region. case_match; auto with onalt. Qed.
#[local] Hint Resolve oa_reply oa_reply_buf oa_print oa_sgr oa_goto_row oa_csi_set_region : onalt.

Lemma oa_execute st c : OA st → ensures (op_execute st c) OA.
Proof.
  intros. unfold op_execute. alt1; [apply ens_ret; case_match; [oa_fields | done] |]. alt1; [apply ens_ret; case_match; auto with onalt |].
  alt1; [alt_walk |]. alt1; [auto with onalt |]. alt1; [alt_walk |]. do 2 (alt1; [apply ens_ret; oa_fields |]). by apply ens_ret.
Qed.

Lemma oa_erase_display st m : OA st → ensures (csi_erase_display st m) OA.
Proof. intros. unfold csi_erase_display. alt_walk. Qed.
Lemma oa_erase_line st m : OA st → ensures (csi_erase_line st m) OA.
Proof. intros. unfold csi_erase_line. alt_walk. Qed.
Lemma oa_insert_lines st n : OA st → ensures (csi_insert_lines st n) OA.
Proof. intros. unfold csi_insert_lines. alt_walk. Qed.
Lemma oa_delete_lines st n : OA st → ensures (csi_delete_lines st n) OA.
Proof. intros. unfold csi_delete_lines. alt_walk. Qed.
Lemma oa_insert_chars st n : OA st → ensures (csi_insert_chars st n) OA.
Proof. intros. unfold csi_insert_chars. alt_walk. Qed.
Lemma oa_delete_chars st n : OA st → ensures (csi_delete_chars st n) OA.
Proof. intros. unfold csi_delete_chars. alt_walk. Qed.
Lemma oa_erase_chars st n : OA st → ensures (csi_erase_chars st n) OA.
Proof. intros. unfold csi_erase_chars. alt_walk. Qed.
Lemma oa_back_tab st n : OA st → ensures (csi_back_tab st n) OA.
Proof. intros. unfold csi_back_tab. alt_walk. Qed.
#[local] Hint Resolve oa_erase_display oa_erase_line oa_insert_lines oa_delete_lines oa_insert_chars oa_delete_chars oa_erase_chars oa_back_tab : onalt.

Lemma oa_decset st n : OA st → ensures (csi_decset st n) OA.
Proof. intros. unfold csi_decset. ens_cases; auto 6 with onalt. Qed.

(** A [switch]: one goal for each case. *)
Local Ltac alt_switch := cbn [switch]; repeat match goal with |- ensures (if ?a =? ?b then _ else _) _ => destruct (Z.eqb_spec a b) end.

Lemma oa_decrst st n : OA st → n ∉ [47; 1047; 1049] → ensures (csi_decrst st n) OA.
Proof.
  intros H Hn. unfold csi_decrst. alt_switch; auto 6 with onalt; destruct Hn; subst; rewrite !elem_of_cons; auto.
Qed.

Lemma oa_private st ps f : OA st → leaves_alt (EvCsi ps (ch "?") f) = false → ensures (csi_private st ps f) OA.
Proof.
  intros H Hl. unfold csi_private. alt_switch; auto using oa_decset with onalt.
  apply oa_decrst; [done |]. subst. intros Hin. unfold leaves_alt in Hl. by rewrite (bool_decide_eq_true_2 _ Hin) in Hl.
Qed.

(** Saving the cursor is the one thing the screens share. *)
Definition may_save : bool := match os with Some _ => false | None => true end.

Lemma oa_cursor_save st : OA st → may_save = true → OA (vt_state_cursor_save st).
Proof. unfold may_save. destruct os; [done |]. intros [] _. by constructor. Qed.

Lemma oa_plain st ps f : OA st → may_save || negb (saves_cursor (EvCsi ps 0 f)) = true → ensures (csi_plain st ps f) OA.
Proof.
  intros H Hs. unfold csi_plain. alt1. cbv zeta.
  alt_switch; auto with onalt; unfold vt_state_tab_clear; repeat case_match; auto with onalt.
  apply ens_ret, oa_cursor_save; [done |]. subst. by rewrite orb_false_r in Hs.
Qed.

Lemma oa_csi st ps i f :
  OA st → leaves_alt (EvCsi ps i f) = false → may_save || negb (saves_cursor (EvCsi ps i f)) = true → ensures (op_csi st ps i f) OA.
Proof.
  intros H Hl Hs. unfold op_csi. destruct (Z.eqb_spec i (ch "?")) as [->|]; [by apply oa_private |].
  alt1; [apply ens_ret; case_match; [oa_fields | done] |].
  do 3 (alt1; [auto with onalt |]). alt1; [apply ens_ret; case_match; [oa_fields | done] |].
  destruct (Z.eqb_spec i 0) as [->|]; [by apply oa_plain | by apply ens_ret].
Qed.

Lemma oa_esc st i f : OA st → leaves_alt (EvEsc i f) = false → may_save || negb (saves_cursor (EvEsc i f)) = true → ensures (op_esc st i f) OA.
Proof.
  intros H Hl Hs. unfold op_esc. destruct (Z.eqb_spec i 0) as [->|].
  { alt_switch; auto with onalt; [apply ens_ret, oa_cursor_save; [done |] | by apply oa_tab_put | by subst].
    subst. by rewrite orb_false_r in Hs. }
  alt1; [apply ens_ret, (switch_ok OA); [| done]; repeat (apply Forall_cons; split); [oa_fields | oa_fields | apply Forall_nil_2] |].
  alt1; [apply ens_ret, (switch_ok OA); [| done]; repeat (apply Forall_cons; split); [oa_fields | oa_fields | apply Forall_nil_2] |]. by apply ens_ret.
Qed.

Lemma oa_osc st data : OA st → OA (op_osc st data).
Proof.
  intros. unfold op_osc, osc_color_reply. repeat first [done | by apply oa_reply | by oa_fields | case_match].
Qed.

End OnAlt.

(** Resizing resizes both screens. *)
Lemma oa_resize p cap os st rs cs :
  on_alt p cap os st → ensures (vt_state_resize st rs cs) (λ st', ∃ p', resize_target p rs cs = Some p' ∧ on_alt p' cap os st').
Proof.
  intros Hst. unfold vt_state_resize. apply ens_bind_any. intros b. rewrite (oa_primary _ _ _ _ Hst).
  destruct (resize_target p rs cs) as [p'|]; [| apply ens_none]. cbn [mbind option_bind].
  do 2 (apply ens_bind_any; intros ?). cbv zeta. set (st1 := put_target (put_target _ _ _) _ _).
  assert (on_alt p' cap os st1) as H1 by (destruct Hst; by constructor). clearbody st1.
  apply (ens_mono _ (on_alt p' cap os)); [| by intros st' H; exists p'].
  apply (ens_bind _ _ (on_alt p' cap os)); [alt1; [by apply ens_ret | by apply oa_tabstops_init] |].
  intros st2 H2. by apply oa_cursor_clamp, oa_set_region.
Qed.

(** ** A session on the alternate screen *)

(** Bytes from the program, and a resize of the window. *)
Inductive alt_op := AltFeed (data : list Z) | AltResize (rows cols : Z).

Definition alt_op_ok (op : alt_op) : Prop :=
  match op with
  | AltFeed data => Forall is_byte data
  | AltResize rows cols => 0 < rows <= DIM_MAX ∧ 0 < cols <= DIM_MAX
  end.

(** The size of the screen and the primary buffer after the resizes. *)
Fixpoint alt_size (sz : Z * Z) (ops : list alt_op) : Z * Z :=
  match ops with
  | [] => sz
  | AltFeed _ :: ops' => alt_size sz ops'
  | AltResize rows cols :: ops' => alt_size (rows, cols) ops'
  end.

Fixpoint alt_resized (b : vt_buf) (ops : list alt_op) : option vt_buf :=
  match ops with
  | [] => Some b
  | AltFeed _ :: ops' => alt_resized b ops'
  | AltResize rows cols :: ops' => b' ← vt_buf_resize b rows cols; alt_resized b' ops'
  end.

Section AltSession.
Context (tbl : rune_width_table) (on_dcs : vt_state → Z → list Z → option vt_state).

Definition alt_step (ps : vt_parse * vt_state) (op : alt_op) : option (vt_parse * vt_state) :=
  match op with
  | AltFeed data => vt_feed tbl on_dcs ps data
  | AltResize rows cols => st ← vt_state_resize ps.2 rows cols; Some (ps.1, st)
  end.

Fixpoint alt_run (ps : vt_parse * vt_state) (ops : list alt_op) : option (vt_parse * vt_state) :=
  match ops with
  | [] => Some ps
  | op :: ops' => ps ← alt_step ps op; alt_run ps ops'
  end.

(** What the parser makes of all the bytes. *)
Fixpoint alt_events (p : vt_parse) (ops : list alt_op) : option (list vt_event) :=
  match ops with
  | [] => Some []
  | AltFeed data :: ops' =>
      '(p, evs) ← vt_parse_feed tbl p data;
      evs' ← alt_events p ops';
      Some (evs ++ evs')
  | AltResize _ _ :: ops' => alt_events p ops'
  end.

Context `{!WidthTable tbl, !DcsHandler on_dcs, !DcsStays on_dcs}.

(** [os] is kept where no event saves the cursor. *)
Definition stays (os : option vt_saved_cursor) (ev : vt_event) : Prop :=
  leaves_alt ev = false ∧ may_save os || negb (saves_cursor ev) = true.

Lemma oa_event p cap os st ev : on_alt p cap os st → stays os ev → ensures (apply_event on_dcs st ev) (on_alt p cap os).
Proof.
  intros H [Hl Hs]. destruct ev; cbn [apply_event]; [by apply oa_print | by apply oa_execute | by apply oa_csi | by apply oa_esc | |].
  - by apply ens_ret, oa_osc.
  - by apply dcs_stays.
Qed.

Lemma oa_events p cap os evs : ∀ st, on_alt p cap os st → Forall (stays os) evs → ensures (apply_events on_dcs st evs) (on_alt p cap os).
Proof.
  induction evs as [|ev evs IH]; intros st H Hs; [by apply ens_ret |]. cbn [apply_events]. apply Forall_cons in Hs as [Hev Hs].
  eapply ens_bind; [by apply oa_event |]. intros st' H'. by apply IH.
Qed.

(** Any session on the alternate screen runs, and leaves the primary buffer
    with the resizes alone. *)
Lemma alt_run_ok ops : ∀ R C p st b cap os evs,
  wf_parse p → wf_state R C st → on_alt (Some b) cap os st → Forall alt_op_ok ops →
  alt_events p ops = Some evs → Forall (stays os) evs →
  yields (alt_run (p, st) ops) (λ ps', let '(R', C') := alt_size (R, C) ops in
    wf_parse ps'.1 ∧ wf_state R' C' ps'.2 ∧ ∃ b', alt_resized b ops = Some b' ∧ on_alt (Some b') cap os ps'.2).
Proof.
  induction ops as [|op ops IH]; intros R C p st b cap os evs Hp Hwf Hoa Hok Hevs Hst.
  { split; [done |]. split; [done |]. by exists b. }
  apply Forall_cons in Hok as [Hop Hok]. cbn [alt_run]. destruct op as [data|R' C']; cbn [alt_step alt_op_ok alt_size alt_resized alt_events] in *.
  - pose proof (vt_feed_ok tbl on_dcs R C p st data Hp Hwf Hop) as H. apply yields_Some in H as ([p' st'] & E & Hp' & Hwf').
    rewrite E. cbn [mbind option_bind]. unfold vt_feed in E. cbn [fst snd] in E.
    destruct (vt_parse_feed tbl p data) as [[p1 evs1]|]; [| done]. cbn [mbind option_bind] in E, Hevs.
    destruct (apply_events on_dcs st evs1) as [st1|] eqn:Ea; [| done]. injection E as <- <-.
    destruct (alt_events p1 ops) as [evs2|] eqn:Ee; [| done]. injection Hevs as <-. apply Forall_app in Hst as [Hs1 Hs2].
    eapply IH; try done. by apply (oa_events (Some b) cap os evs1 st Hoa Hs1).
  - destruct Hop as [HR HC]. pose proof (vt_state_resize_ok R C R' C' st Hwf HR HC) as H. apply yields_Some in H as (st' & E & Hwf' & _).
    cbn [fst snd]. rewrite E. cbn [mbind option_bind]. destruct (oa_resize _ _ _ _ R' C' Hoa st' E) as (p' & Ep & Hoa').
    cbn [resize_target] in Ep. destruct (vt_buf_resize b R' C') as [b1|]; [| done]. injection Ep as <-. cbn [mbind option_bind].
    by eapply IH.
Qed.
End AltSession.

(** ** Entering and leaving *)

(** The control sequences that enter and leave. *)
Lemma csi_enters n st : n ∈ [47; 1047; 1049] → op_csi st [n] (ch "?") (ch "h") = vt_state_altscreen_enter st.
Proof. intros H. by repeat (apply elem_of_cons in H as [-> | H]); [..| apply not_elem_of_nil in H]. Qed.

Lemma csi_leaves n st : n ∈ [47; 1047; 1049] → op_csi st [n] (ch "?") (ch "l") = vt_state_altscreen_leave st.
Proof. intros H. by repeat (apply elem_of_cons in H as [-> | H]); [..| apply not_elem_of_nil in H]. Qed.

(** The alternate screen as it is entered. *)
Definition entered (R C : Z) (st st1 : vt_state) : Prop :=
  wf_state R C st1 ∧ on_alt (tgt_primary st) (capture_alt_scroll st) (Some (saved (vt_state_cursor_save st))) st1 ∧
  (∃ blank, cur_buf st1 = Some blank ∧ blank_screen R C blank (bg st)) ∧
  (cursor_row st1, cursor_col st1) = (0, 0) ∧ (scroll_top st1, scroll_bot st1) = (0, R).

(** The primary screen as it is left to: [b] is the buffer it had, [st2] the
    terminal before. *)
Definition left_to (R C : Z) (b : vt_buf) (st2 st3 : vt_state) : Prop :=
  wf_state R C st3 ∧ active_target st3 = VT_TARGET_PRIMARY ∧ tgt_alt st3 = None ∧
  modes st3 = clear_bits (modes st2) VT_MODE_ALTSCREEN ∧
  (charset st3, g0_set st3, g1_set st3) = (charset st2, g0_set st2, g1_set st2) ∧
  tabstops st3 = tabstops st2 ∧ title st3 = title st2 ∧ (scroll_top st3, scroll_bot st3) = (0, R) ∧
  (cursor_row st3, cursor_col st3) = (clamp R (saved_row (saved st2)), clamp C (saved_col (saved st2))) ∧
  (attrs st3, fg st3, bg st3) = (saved_attrs (saved st2), saved_fg (saved st2), saved_bg (saved st2)) ∧
  ∃ b' alt n, cur_buf st3 = Some b' ∧ tgt_alt st2 = Some alt ∧ grid b' = grid b ∧
    (∀ i row, aget (grid alt) i = Some row → n <= i → row_text row = false) ∧
    ∀ h, buf_repr R C b h → buf_repr R C b'
      (if capture_alt_scroll st2 then push_all (ring_cap b) h (history_clipped C alt n) else h).

Lemma enter_ok R C st :
  wf_state R C st → has_bits (modes st) VT_MODE_ALTSCREEN = false → yields (vt_state_altscreen_enter st) (entered R C st).
Proof.
  intros Hwf Hm. pose proof (vt_state_altscreen_enter_ok R C st Hwf) as H. apply yields_Some in H as (st1 & -> & Hwf1 & H).
  rewrite Hm in H. destruct H as (blank & Hblank & ->). split; [done |]. split_and!; try done; [| by exists blank].
  constructor; try done; [| by intros s [= <-]]. cbn [modes set_region set_cursor put_target set_active set_modes]. by rewrite has_bits_set, Hm.
Qed.

Lemma leave_ok R C st b cap os :
  wf_state R C st → on_alt (Some b) cap os st → yields (vt_state_altscreen_leave st) (left_to R C b st).
Proof.
  intros Hwf Hoa. pose proof (vt_state_altscreen_leave_ok R C st Hwf) as H. apply yields_Some in H as (st' & -> & Hwf' & H).
  rewrite (oa_mode _ _ _ _ Hoa) in H. destruct H as (p & p' & alt & n & Ep & Ealt & Hn & Hblk & Hg & Hcap & Hh & Est).
  rewrite (oa_primary _ _ _ _ Hoa) in Ep. injection Ep as <-.
  split; [done |]. rewrite Est. split_and!; try done.
  - exists p', alt, n. by split_and!.
Qed.


