(* ===== verification/VtKgfx.v ===== *)
(** * Kitty graphics: where the cursor goes (src/libvt/vt_state.c)

    A program that shows an image with the Kitty graphics protocol moves the
    cursor past it.  The server does not draw, but the cursor of its terminal must
    move all the same ([vt_kgfx_account]): by the rows and columns the command
    says, or those the image's size in pixels takes. *)

From S2P Require Import Prelude Utf8 WidthTables RuneWidth VtBuf VtParse Decimal VtState VtOps VtClient VtDump VtTyped VtAlt.

(** A [long], wrapped: overflowing one is undefined in C. *)
Definition i64 (z : Z) : Z := (z + 2 ^ 63) mod 2 ^ 64 - 2 ^ 63.

(** ** Base64 *)

(** -1 for padding or anything else. *)
Definition b64_value (c : Z) : Z :=
  if in_rng (ch "A") (ch "Z") c then c - ch "A"
  else if in_rng (ch "a") (ch "z") c then c - ch "a" + 26
  else if in_rng (ch "0") (ch "9") c then c - ch "0" + 52
  else if (c =? ch "+") || (c =? ch "-") then 62
  else if (c =? ch "/") || (c =? ch "_") then 63
  else -1.

(** The loop of [b64_decode]: [acc] is an [unsigned long], [bits] counts those of
    it not yet used, [n] the bytes written. *)
Fixpoint b64_loop (s : list Z) (n cap acc bits : Z) : list Z :=
  match s with
  | [] => []
  | c :: s =>
      if cap <=? n then [] else
      let v := b64_value c in
      if v <? 0 then [] else
      let acc := Z.land (Z.lor (Z.shiftl acc 6) v) (Z.ones 64) in
      let bits := bits + 6 in
      if 8 <=? bits then u8 (Z.shiftr acc (bits - 8)) :: b64_loop s (n + 1) cap acc (bits - 8)
      else b64_loop s n cap acc bits
  end.

Definition b64_decode (s : list Z) (cap : Z) : list Z := b64_loop s 0 cap 0 0.

(** ** The size in a PNG's header *)

Definition PNG_HEAD_LEN : Z := 24.
Definition png_sig : list Z := [0x89; ch "P"; ch "N"; ch "G"; 13; 10; 0x1a; 10].

Definition be32_at (head : list Z) (i : nat) : Z :=
  match drop i head with
  | a :: b :: c :: d :: _ => Z.lor (Z.lor (Z.lor (Z.shiftl a 24) (Z.shiftl b 16)) (Z.shiftl c 8)) d
  | _ => 0
  end.

(** Width and height. *)
Definition png_head_size (head : list Z) : option (Z * Z) :=
  if (zlen head <? PNG_HEAD_LEN) || negb (bool_decide (take 8 head = png_sig)) || negb (bool_decide (take 4 (drop 12 head) = str "IHDR"))
  then None else
  let w := be32_at head 16 in
  let h := be32_at head 20 in
  if (w =? 0) || (h =? 0) || (INT_MAX / 2 <? w) || (INT_MAX / 2 <? h) then None else Some (w, h).

(** ** The keys of a command *)

(** The loop that reads a number into a [long], which a long run of digits
    overflows: it is wrapped here. *)
Fixpoint kgfx_digits (val : Z) (p : list Z) : Z * list Z :=
  match p with
  | c :: p' => if in_rng (ch "0") (ch "9") c then kgfx_digits (i64 (val * 10 + (c - ch "0"))) p' else (val, p)
  | [] => (val, [])
  end.

(** Past the next comma. *)
Fixpoint kgfx_skip (p : list Z) : list Z :=
  match p with
  | c :: p => if c =? ch "," then p else kgfx_skip p
  | [] => []
  end.

(** One turn of the loop over the keys, after the key: the value's first
    character, its number, and what is left.  Only [vt_kgfx_account] reads a
    sign. *)
Definition kgfx_value (signed : bool) (p : list Z) : Z * Z * list Z :=
  let p := match p with c :: p' => if c =? ch "=" then p' else p | [] => [] end in
  let vch := match p with c :: _ => if c =? ch "," then 0 else c | [] => 0 end in
  let '(sign, p) := match p with
                    | c :: p' => if signed && (c =? ch "-") then (-1, p') else (1, p)
                    | [] => (1, [])
                    end in
  let '(val, p) := kgfx_digits 0 p in
  (vch, i64 (val * sign), kgfx_skip p).

(** The loop: [step] is the switch on the key.  A turn reads the key at least. *)
Fixpoint kgfx_keys {A} (fuel : nat) (signed : bool) (step : A → Z → Z → Z → A) (a : A) (p : list Z) : A :=
  match fuel, p with
  | S fuel, key :: p =>
      let '(vch, val, p) := kgfx_value signed p in
      kgfx_keys fuel signed step (step a key vch val) p
  | _, _ => a
  end.

(** The control data before the first semicolon, and the payload after it if
    there is one. *)
Fixpoint kgfx_split (p : list Z) : list Z * option (list Z) :=
  match p with
  | [] => ([], None)
  | c :: p => if c =? ch ";" then ([], Some p) else let '(a, b) := kgfx_split p in (c :: a, b)
  end.

Record kgfx_image := mk_kgfx_image { ki_s : Z; ki_v : Z; ki_fmt : Z; ki_medium : Z; ki_comp : Z }.

Definition kgfx_image_key (k : kgfx_image) (key vch val : Z) : kgfx_image :=
  if key =? ch "s" then {| k with ki_s := i32 val |}
  else if key =? ch "v" then {| k with ki_v := i32 val |}
  else if key =? ch "f" then {| k with ki_fmt := i32 val |}
  else if key =? ch "t" then {| k with ki_medium := vch |}
  else if key =? ch "o" then {| k with ki_comp := vch |}
  else k.

Record kgfx_place := mk_kgfx_place { kp_action : Z; kp_cmove : Z; kp_rows : Z; kp_cols : Z }.

Definition kgfx_place_key (k : kgfx_place) (key vch val : Z) : kgfx_place :=
  if key =? ch "a" then {| k with kp_action := vch |}
  else if key =? ch "C" then {| k with kp_cmove := i32 val |}
  else if key =? ch "r" then {| k with kp_rows := i32 val |}
  else if key =? ch "c" then {| k with kp_cols := i32 val |}
  else k.

Section Kgfx.
(** What opening a file and reading 24 bytes of it gives. *)
Context (read_head : list Z → option (list Z)).

Definition png_file_size (b64 : list Z) : option (Z * Z) :=
  let path := b64_decode b64 4095 in
  if (zlen path =? 0) || existsb (λ c, c =? 0) path then None else
  head ← read_head path;
  if zlen head =? PNG_HEAD_LEN then png_head_size head else None.

(** [data] with its leading [G]; the image's width and height in pixels. *)
Definition vt_kgfx_image_size (data : list Z) : option (Z * Z) :=
  match data with
  | g :: p =>
      if negb (g =? ch "G") then None else
      let '(ctl, payload) := kgfx_split p in
      let k := kgfx_keys (length ctl) false kgfx_image_key (mk_kgfx_image 0 0 32 (ch "d") 0) ctl in
      if (0 <? ki_s k) && (0 <? ki_v k) then Some (ki_s k, ki_v k)
      else if negb (ki_fmt k =? 100) || (ki_comp k =? ch "z") then None
      else
        p ← payload;
        if ki_medium k =? ch "d" then
          let head := b64_decode p PNG_HEAD_LEN in
          if negb (zlen head =? PNG_HEAD_LEN) then None else png_head_size head
        else if (ki_medium k =? ch "f") || (ki_medium k =? ch "t") then png_file_size p
        else None
  | [] => None
  end.

(** How many cells [px] pixels take: [(px + cell - 1) / cell] for an [int]. *)
Definition kgfx_cells (px cell : Z) : Z := Z.quot (i32 (i32 (px + cell) - 1)) cell.

(** [nrows] and [ncols]; [None] when the image cannot be sized. *)
Definition kgfx_span (data : list Z) (k : kgfx_place) (cell_pw cell_ph : Z) : option (Z * Z) :=
  let '(spx, vpx) := if (kp_rows k <=? 0) || (kp_cols k <=? 0) then default (0, 0) (vt_kgfx_image_size data) else (0, 0) in
  nrows ← (if 0 <? kp_rows k then Some (kp_rows k)
           else if (0 <? vpx) && (0 <? cell_ph) then Some (kgfx_cells vpx cell_ph) else None);
  Some (nrows, if 0 <? kp_cols k then kp_cols k
               else if (0 <? spx) && (0 <? cell_pw) then kgfx_cells spx cell_pw else 0).

(** [while (nrows-- > 1) vt_state_index(st)], then the column; [cursor_col] is an
    [int]. *)
Definition kgfx_move (st : vt_state) (nrows ncols : Z) : option vt_state :=
  st ← for_up 1 nrows (λ _ st, vt_state_index st) st;
  vt_state_cursor_clamp (set_col st (i32 (cursor_col st + ncols))).

Definition vt_kgfx_account (st : vt_state) (data : list Z) (cell_pw cell_ph : Z) : option vt_state :=
  match data with
  | g :: p =>
      if negb (g =? ch "G") then Some st else
      let '(ctl, _) := kgfx_split p in
      let k := kgfx_keys (length ctl) true kgfx_place_key (mk_kgfx_place 0 0 0 0) ctl in
      if negb (kp_action k =? ch "T") && negb (kp_action k =? ch "p") then Some st
      else if negb (kp_cmove k =? 0) then Some st
      else match kgfx_span data k cell_pw cell_ph with
           | Some (nrows, ncols) => kgfx_move st nrows ncols
           | None => Some st
           end
  | [] => Some st
  end.

(** ** The terminal stays sound *)

Lemma kgfx_move_ok R C st nrows ncols : wf_state R C st → yields (kgfx_move st nrows ncols) (wf_state R C).
Proof.
  intros Hst. unfold kgfx_move. apply (yields_seq _ _ (wf_state R C)).
  - apply for_up_keep; [done |]. intros i s _. apply vt_state_index_wf.
  - intros st1 H1. apply cursor_clamp_ok. wf_fields.
Qed.

Lemma kgfx_account_ok R C st data pw ph : wf_state R C st → yields (vt_kgfx_account st data pw ph) (wf_state R C).
Proof.
  intros Hst. unfold vt_kgfx_account. destruct data as [|g p]; [done |]. destruct (negb _); [done |].
  destruct (kgfx_split p) as [ctl pay]. destruct (_ && _); [done |]. destruct (negb _); [done |].
  destruct (kgfx_span _ _ _ _) as [[nr nc]|]; [by apply kgfx_move_ok | done].
Qed.

Lemma typed_kgfx st data pw ph : typed_state st → ensures (vt_kgfx_account st data pw ph) typed_state.
Proof.
  intros Hst. unfold vt_kgfx_account. destruct data as [|g p]; [by apply ens_ret |]. destruct (negb _); [by apply ens_ret |].
  destruct (kgfx_split p) as [ctl pay]. destruct (_ && _); [by apply ens_ret |]. destruct (negb _); [by apply ens_ret |].
  destruct (kgfx_span _ _ _ _) as [[nr nc]|]; [| by apply ens_ret]. unfold kgfx_move.
  apply (ens_bind _ _ typed_state); [ens1; auto with typed | intros; auto with typed].
Qed.

Lemma stays_kgfx p cap os st data pw ph : on_alt p cap os st → ensures (vt_kgfx_account st data pw ph) (on_alt p cap os).
Proof.
  intros Hst. unfold vt_kgfx_account. destruct data as [|g pl]; [by apply ens_ret |]. destruct (negb _); [by apply ens_ret |].
  destruct (kgfx_split pl) as [ctl pay]. destruct (_ && _); [by apply ens_ret |]. destruct (negb _); [by apply ens_ret |].
  destruct (kgfx_span _ _ _ _) as [[nr nc]|]; [| by apply ens_ret]. unfold kgfx_move.
  apply (ens_bind _ _ (on_alt p cap os)); [ens1; [done | by apply oa_index] | intros; by apply oa_cursor_clamp, oa_set_col].
Qed.
End Kgfx.
