(* ===== verification/Txl.v ===== *)
(** * Terminal translation (src/libtxl/txl.c)

    The layer between the renderer and the outer terminal: capability strings
    out of a terminfo entry, with ANSI sequences where the entry has none.
    terminfo itself (src/libtermlib/ti.c, a vendored library) is a parameter:
    a loaded entry is a record of what its queries answer, and expanding a
    parameterised string is a function of the string and of the nine
    parameters [ti_parm] loads. *)

From S2P Require Import Prelude Utf8 WidthTables RuneWidth VtBuf VtParse Decimal VtState VtOps VtSeq VtClient.

(** ** Definitions *)

Inductive txl_cap :=
  | TXL_CIVIS | TXL_CNORM | TXL_CLEAR | TXL_SGR0 | TXL_SMCUP | TXL_RMCUP | TXL_SC | TXL_RC
  | TXL_BOLD | TXL_DIM | TXL_SITM | TXL_REV | TXL_SMUL | TXL_BLINK | TXL_INVIS | TXL_SMXX.

Definition ansi_fallbacks (c : txl_cap) : list Z :=
  27 :: str match c with
            | TXL_CIVIS => "[?25l" | TXL_CNORM => "[?25h" | TXL_CLEAR => "[H" | TXL_SGR0 => "[0m"
            | TXL_SMCUP => "[?1049h" | TXL_RMCUP => "[?1049l" | TXL_SC => "7" | TXL_RC => "8"
            | TXL_BOLD => "[1m" | TXL_DIM => "[2m" | TXL_SITM => "[3m" | TXL_REV => "[7m"
            | TXL_SMUL => "[4m" | TXL_BLINK => "[5m" | TXL_INVIS => "[8m" | TXL_SMXX => "[9m"
            end
     ++ match c with TXL_CLEAR => 27 :: str "[2J" | _ => [] end.

(** What a loaded terminfo entry answers: [ti_getstri] or [ti_getstr] for a
    simple capability, the three parameterised strings, the colour count, the
    extended capabilities that announce 24-bit colour, and [bce]. *)
Record terminfo := mk_terminfo {
  ti_cap : txl_cap → option (list Z);
  ti_cup : option (list Z);
  ti_setaf : option (list Z);
  ti_setab : option (list Z);
  ti_colors : Z;
  ti_rgb_ext : bool;
  ti_bce : bool;
}.

(** [COLORTERM] is [truecolor] or [24bit], or the entry says so. *)
Definition detect_rgb (colorterm : option (list Z)) (ti : option terminfo) : bool :=
  match colorterm with
  | Some s => bool_decide (s = str "truecolor") || bool_decide (s = str "24bit")
  | None => false
  end ||
  match ti with Some t => ti_rgb_ext t | None => false end.

Record txl := mk_txl {
  txl_ti : option terminfo;
  txl_caps : txl_cap → list Z;
  cup_str : option (list Z);
  setaf_str : option (list Z);
  setab_str : option (list Z);
  ncolors : Z;
  txl_rgb : bool;
  txl_bce : bool;
}.

(** [ti_load] either finds an entry or not. *)
Definition txl_new (colorterm : option (list Z)) (ti : option terminfo) : txl :=
  let n := match ti with Some t => ti_colors t | None => 0 end in
  {| txl_ti := ti;
     txl_caps := λ c, default (ansi_fallbacks c) (ti ≫= λ t, ti_cap t c);
     cup_str := ti ≫= ti_cup;
     setaf_str := ti ≫= ti_setaf;
     setab_str := ti ≫= ti_setab;
     ncolors := if n <=? 0 then 256 else n;
     txl_rgb := detect_rgb colorterm ti;
     txl_bce := match ti with Some t => ti_bce t | None => true end |}.

Definition txl_str (t : txl) (c : txl_cap) : list Z := txl_caps t c.
Definition txl_has_rgb (t : txl) : bool := txl_rgb t.
Definition txl_colors (t : txl) : Z := ncolors t.
Definition txl_has_bce (t : txl) : bool := txl_bce t.

Definition fmt_int (n : Z) : list Z := dump_fmt_int n.

Section Parm.
(** What [ti_parm] writes for a string and the nine parameters it loaded. *)
Context (ti_expand : list Z → list Z → list Z).

(** The head of [ti_parm]: [c] parameters, at most nine, are read from the
    variable arguments [args] into [params], which was zeroed.  Reading more
    than were passed is undefined. *)
Definition ti_params (c : Z) (args : list Z) : option (list Z) :=
  for_up 0 (Z.min 9 c) (λ i ps, v ← aget args i; aset ps i v) (replicate 9 0).

Definition ti_parm (s : list Z) (c : Z) (args : list Z) : option (list Z) :=
  ps ← ti_params c args; Some (ti_expand s ps).

(** A sequence and its terminating NUL, in a buffer of [bufsz] bytes. *)
Definition ansi_seq (bufsz : Z) (s : list Z) : option (list Z) :=
  if bufsz <? 16 then Some [] else
  _ ← in_buf bufsz (s ++ [0]); Some s.

Definition ansi_cup (bufsz row col : Z) : option (list Z) :=
  ansi_seq bufsz (27 :: str "[" ++ fmt_int (row + 1) ++ str ";" ++ fmt_int (col + 1) ++ str "H").

(** [if (cap) { len = ti_parm(...); if (len > 0) return len; } return ansi] *)
Definition or_ansi (parm : option (list Z)) (bufsz : Z) (args : list Z) (ansi : option (list Z))
  : option (list Z) :=
  match parm with
  | Some s => out ← ti_parm s bufsz args; if 0 <? zlen out then Some out else ansi
  | None => ansi
  end.

Definition txl_cup (t : txl) (bufsz row col : Z) : option (list Z) :=
  if bufsz <? 16 then Some [] else
  or_ansi (cup_str t) bufsz [row; col] (ansi_cup bufsz row col).

Definition ansi_color (base bright : Z) (ext : string) (bufsz color : Z) : option (list Z) :=
  ansi_seq bufsz
    (27 :: str "["
     ++ (if color <? 8 then fmt_int (base + color)
         else if color <? 16 then fmt_int (bright + color - 8)
         else str ext ++ str ";5;" ++ fmt_int color)
     ++ str "m").

Definition ansi_setaf : Z → Z → option (list Z) := ansi_color 30 90 "38".
Definition ansi_setab : Z → Z → option (list Z) := ansi_color 40 100 "48".

Definition txl_setaf (t : txl) (bufsz color : Z) : option (list Z) :=
  or_ansi (setaf_str t) bufsz [color] (ansi_setaf bufsz color).

Definition txl_setab (t : txl) (bufsz color : Z) : option (list Z) :=
  or_ansi (setab_str t) bufsz [color] (ansi_setab bufsz color).
End Parm.

Definition txl_decset (bufsz mode : Z) : option (list Z) :=
  ansi_seq bufsz (27 :: str "[?" ++ fmt_int mode ++ str "h").
Definition txl_decrst (bufsz mode : Z) : option (list Z) :=
  ansi_seq bufsz (27 :: str "[?" ++ fmt_int mode ++ str "l").

(** ** Lemmas *)

(** More parameters asked for than passed: the read is undefined. *)
Lemma ti_params_overread c args : zlen args < Z.min 9 c → ti_params c args = None.
Proof.
  intros Hlen. pose proof (zlen_nonneg args). unfold ti_params, for_up.
  assert (∀ n i ps, 0 <= i <= zlen args → zlen args < i + Z.of_nat n →
    loop_up n i (λ i ps, v ← aget args i; aset ps i v) ps = None) as H'.
  { induction n as [|n IH]; intros i ps Hi Hn; [lia |]. cbn [loop_up].
    destruct (decide (i = zlen args)) as [->|Hne].
    { by rewrite (proj2 (aget_None args _)) by lia. }
    destruct (aget_in args i) as [v ->]; [lia |]. cbn [mbind option_bind].
    destruct (aset ps i v) as [ps'|]; [| done]. cbn [mbind option_bind]. apply IH; lia. }
  apply H'; lia.
Qed.

(** The sequence for a position fits when the numbers have [k] digits. *)
Lemma ansi_cup_text k bufsz row col :
  1 <= k → 16 <= bufsz → 2 * k + 5 <= bufsz → row + 1 < 10 ^ k → col + 1 < 10 ^ k →
  ansi_cup bufsz row col = Some (cup_text (row + 1) (col + 1)).
Proof.
  intros Hk Hb Hb' Hr Hc. unfold ansi_cup, fmt_int. rewrite cup_text_eq. unfold ansi_seq.
  destruct (Z.ltb_spec bufsz 16); [lia |]. unfold in_buf, cup_text, csi_text.
  pose proof (dump_fmt_int_length k (row + 1) Hk Hr). pose proof (dump_fmt_int_length k (col + 1) Hk Hc).
  match goal with |- context [zlen ?l <=? bufsz] => enough (zlen l <= bufsz) as Hz
    by (by apply Z.leb_le in Hz as ->) end.
  cbn [join_semi app].
  repeat first [rewrite zlen_cons | rewrite zlen_app | rewrite zlen_nil]. lia.
Qed.

(** The position, and with a colour capability the colour, of a terminal
    whose terminfo entry has one cannot be formatted without reading arguments
    that were not passed: the buffer size, which is what [txl_cup],
    [txl_setaf] and [txl_setab] pass as the number of parameters, exceeds the
    two or one they give. *)
Theorem txl_parm_overread ti_expand t bufsz row col color :
  16 <= bufsz →
  (∀ s, cup_str t = Some s → txl_cup ti_expand t bufsz row col = None) ∧
  (∀ s, setaf_str t = Some s → txl_setaf ti_expand t bufsz color = None) ∧
  (∀ s, setab_str t = Some s → txl_setab ti_expand t bufsz color = None).
Proof.
  intros Hb. unfold txl_cup, txl_setaf, txl_setab, or_ansi, ti_parm.
  destruct (Z.ltb_spec bufsz 16); [lia |].
  split_and!; intros s ->; rewrite ti_params_overread; (done || rewrite ?zlen_cons, zlen_nil; lia).
Qed.

(** An entry with the capabilities of an xterm. *)
Definition demo_terminfo : terminfo :=
  {| ti_cap := λ _, None; ti_cup := Some (27 :: str "[%i%p1%d;%p2%dH");
     ti_setaf := Some (27 :: str "[3%p1%dm"); ti_setab := Some (27 :: str "[4%p1%dm");
     ti_colors := 8; ti_rgb_ext := false; ti_bce := true |}.

Lemma txl_parm_overread_witness :
  txl_cup (λ s _, s) (txl_new None (Some demo_terminfo)) 24 0 0 = None.
Proof.
  destruct (txl_parm_overread (λ s _, s) (txl_new None (Some demo_terminfo)) 24 0 0 1) as [H _]; [lia |].
  by apply (H (27 :: str "[%i%p1%d;%p2%dH")).
Defined.
