(* ===== verification/Render.v ===== *)
(** * The differential renderer (src/librender/render.c)

    The renderer keeps a shadow of what it has put on the outer terminal, with
    the position of that terminal's cursor and its style, and writes what turns
    the shadow into the next frame.  A step takes the renderer and the bytes
    written so far; the descriptor is taken to accept all output, in order. *)

From S2P Require Import Prelude Utf8 WidthTables RuneWidth VtBuf VtParse Decimal VtState VtOps VtSeq.
From S2P Require Import VtClient Txl.

(** ** Definitions *)

Record render := mk_render {
  rd_rows : Z;
  rd_cols : Z;
  shadow : list vt_cell;
  rd_txl : option txl;
  cur_row : Z;
  cur_col : Z;
  cur_vis : Z;
  cur_attrs : Z;
  cur_fg : vt_color;
  cur_bg : vt_color;
  has_bce : bool;
}.

(** The renderer and what it has written to the descriptor. *)
Definition rd_out : Type := render * list Z.

Definition with_rd (f : render → render) (x : rd_out) : rd_out := (f x.1, x.2).
Definition at_pos (row col : Z) (r : render) : render := {| r with cur_row := row; cur_col := col |}.
Definition with_style (a : Z) (f b : vt_color) (r : render) : render :=
  {| r with cur_attrs := a; cur_fg := f; cur_bg := b |}.
Definition with_vis (v : Z) (r : render) : render := {| r with cur_vis := v |}.
Definition with_shadow (s : list vt_cell) (r : render) : render := {| r with shadow := s |}.

Definition shadow_cell (r : render) (row col : Z) : option vt_cell :=
  aget (shadow r) (row * rd_cols r + col).

(** [*shadow_cell(r, row, col) = c] *)
Definition set_shadow (row col : Z) (c : vt_cell) (x : rd_out) : option rd_out :=
  s ← aset (shadow x.1) (row * rd_cols x.1 + col) c; Some (with_rd (with_shadow s) x).

Definition shadow_clear (r : render) : option render :=
  s ← for_up 0 (rd_rows r * rd_cols r) (λ i s, aset s i vt_cell_clear) (shadow r);
  Some (with_shadow s r).

Definition SYNC_BEGIN : list Z := 27 :: str "[?2026h".
Definition SYNC_END : list Z := 27 :: str "[?2026l".

Definition emit_str (s : list Z) (x : rd_out) : rd_out := (x.1, x.2 ++ s).

Definition color_eq (a b : vt_color) : bool :=
  match a, b with
  | VT_COLOR_DEFAULT, VT_COLOR_DEFAULT => true
  | VT_COLOR_INDEXED i, VT_COLOR_INDEXED j => i =? j
  | VT_COLOR_RGB r g b, VT_COLOR_RGB r' g' b' => (r =? r') && (g =? g') && (b =? b')
  | _, _ => false
  end.

Definition is_default (c : vt_color) : bool :=
  match c with VT_COLOR_DEFAULT => true | _ => false end.

(** One colour of the style: [base] is 30 or 40, [bright] 90 or 100, [ext] 38
    or 48. *)
Definition color_codes (base bright ext : Z) (c : vt_color) : list Z :=
  match c with
  | VT_COLOR_DEFAULT => [base + 9]
  | _ => color_params base bright ext c
  end.

(** The [ATTR] lines: the attributes the terminal does not have yet. *)
Definition attr_added (attrs cur : Z) : list Z :=
  concat (map (λ fc, if has_bits attrs fc.1 && negb (has_bits cur fc.1) then [fc.2] else []) attr_codes).

(** An attribute or a colour is to be removed, which only a reset does. *)
Definition needs_reset (r : render) (attrs : Z) (fg bg : vt_color) : bool :=
  negb (clear_bits (cur_attrs r) attrs =? 0)
  || (negb (is_default (cur_fg r)) && is_default fg)
  || (negb (is_default (cur_bg r)) && is_default bg).

(** The parameters written; [SEP] puts a semicolon between them. *)
Definition sgr_codes (r : render) (attrs : Z) (fg bg : vt_color) : list Z :=
  let reset := needs_reset r attrs fg bg in
  let a := if reset then 0 else cur_attrs r in
  let f := if reset then VT_COLOR_DEFAULT else cur_fg r in
  let b := if reset then VT_COLOR_DEFAULT else cur_bg r in
  (if reset then [0] else []) ++ attr_added attrs a
  ++ (if color_eq fg f then [] else color_codes 30 90 38 fg)
  ++ (if color_eq bg b then [] else color_codes 40 100 48 bg).

Definition emit_sgr (attrs : Z) (fg bg : vt_color) (x : rd_out) : option rd_out :=
  let r := x.1 in
  if (attrs =? cur_attrs r) && color_eq fg (cur_fg r) && color_eq bg (cur_bg r) then Some x else
  s ← in_buf 80 (csi_text [] (sgr_codes r attrs fg bg) (ch "m"));
  Some (emit_str s (with_rd (with_style attrs fg bg) x)).

(** [a & ~VT_ATTR_PREDICTED], and predicted cells dimmed. *)
Definition shown_attrs (a : Z) : Z :=
  let b := clear_bits a VT_ATTR_PREDICTED in
  if has_bits a VT_ATTR_PREDICTED then set_bits b VT_ATTR_DIM else b.

Definition emit_cell (c : vt_cell) (x : rd_out) : option rd_out :=
  if cell_width c =? 0 then Some x else
  x ← emit_sgr (shown_attrs (cell_attrs c)) (cell_fg c) (cell_bg c) x;
  let u := utf8_encode (codepoint c) in
  let x := emit_str (if zlen u <=? 0 then [ch " "] else u) x in
  Some (with_rd (λ r, at_pos (cur_row r) (cur_col r + cell_width c) r) x).

Definition cell_eq (a b : vt_cell) : bool :=
  (codepoint a =? codepoint b)
  && (clear_bits (cell_attrs a) VT_ATTR_PREDICTED =? clear_bits (cell_attrs b) VT_ATTR_PREDICTED)
  && (cell_width a =? cell_width b)
  && color_eq (cell_fg a) (cell_fg b) && color_eq (cell_bg a) (cell_bg b).

Definition is_space (c : vt_cell) : bool := (codepoint c =? ch " ") || (codepoint c =? 0).

Definition cell_is_blank (c : vt_cell) : bool :=
  is_space c && (cell_attrs c =? 0) && is_default (cell_fg c) && is_default (cell_bg c).

(** The scan of [find_trail_el] from column [n - 1] down: the start of the run
    and its colour, if any cell is in it. *)
Fixpoint trail_scan (row : Z → option vt_cell) (n : nat) (bg : option vt_color)
  : option (Z * option vt_color) :=
  match n with
  | O => Some (0, bg)
  | S n' =>
      c ← row (Z.of_nat n');
      if negb (is_space c) || negb (cell_attrs c =? 0) then Some (Z.of_nat n, bg)
      else match bg with
           | None => trail_scan row n' (Some (cell_bg c))
           | Some b => if color_eq (cell_bg c) b then trail_scan row n' bg else Some (Z.of_nat n, bg)
           end
  end.

(** [Some (k, bg)]: erase from column [k] on with [bg]; [None] stands for the
    answer [cols]. *)
Definition find_trail_el (row : Z → option vt_cell) (cols : Z) : option (option (Z * vt_color)) :=
  '(k, found) ← trail_scan row (Z.to_nat cols) None;
  Some (match found with
        | Some bg => if is_default bg || (cols - k <? 3) then None else Some (k, bg)
        | None => None
        end).

Definition shadow_set_el (row lo hi : Z) (bg : vt_color) (x : rd_out) : option rd_out :=
  for_up lo hi (λ col, set_shadow row col (vt_cell_erase bg)) x.

Definition render_new (rows cols : Z) (t : option txl) (junk : list vt_cell) : option render :=
  r ← shadow_clear (mk_render rows cols junk t 0 0 0 0 VT_COLOR_DEFAULT VT_COLOR_DEFAULT false);
  Some {| r with has_bce := match t with Some t => txl_has_bce t | None => true end; cur_vis := -1 |}.

Definition render_resize (r : render) (rows cols : Z) (junk : list vt_cell) : option render :=
  shadow_clear {| r with rd_rows := rows; rd_cols := cols; shadow := junk |}.

Definition render_invalidate_cursor (r : render) : render :=
  {| r with cur_row := -1; cur_col := -1; cur_vis := -1 |}.

Section Emit.
Context (ti_expand : list Z → list Z → list Z).

Definition emit_cup (row col : Z) (x : rd_out) : option rd_out :=
  s ← match rd_txl x.1 with Some t => txl_cup ti_expand t 24 row col | None => Some [] end;
  if 0 <? zlen s then Some (emit_str s x) else
  s ← in_buf 24 (27 :: str "[" ++ fmt_int (row + 1) ++ str ";" ++ fmt_int (col + 1) ++ str "H");
  Some (emit_str s x).

Definition emit_cap (c : txl_cap) (fallback : list Z) (x : rd_out) : rd_out :=
  emit_str (match rd_txl x.1 with Some t => txl_str t c | None => fallback end) x.

Definition emit_cursor_vis (vis : Z) (x : rd_out) : rd_out :=
  if vis =? cur_vis x.1 then x else
  let x := with_rd (with_vis vis) x in
  if negb (vis =? 0) then emit_cap TXL_CNORM (27 :: str "[?25h") x
  else emit_cap TXL_CIVIS (27 :: str "[?25l") x.

Definition emit_clear_screen : rd_out → rd_out := emit_cap TXL_CLEAR (27 :: str "[H" ++ 27 :: str "[2J").

(** [emit_reset_sgr], and the style it leaves recorded. *)
Definition reset_sgr (x : rd_out) : rd_out :=
  with_rd (with_style 0 VT_COLOR_DEFAULT VT_COLOR_DEFAULT) (emit_cap TXL_SGR0 (27 :: str "[0m") x).

Definition is_at (x : rd_out) (row col : Z) : bool := (cur_row x.1 =? row) && (cur_col x.1 =? col).

(** Move unless there; [emit_cup] and the position it leaves recorded. *)
Definition cup_to (row col : Z) (x : rd_out) : option rd_out :=
  x ← emit_cup row col x; Some (with_rd (at_pos row col) x).

Definition go_to (row col : Z) (x : rd_out) : option rd_out :=
  if is_at x row col then Some x else cup_to row col x.

(** Emit a cell and record it. *)
Definition draw_cell (row col : Z) (c : vt_cell) (x : rd_out) : option rd_out :=
  x ← go_to row col x; x ← emit_cell c x; set_shadow row col c x.

(** Erase to the end of the line with [bg], from column [k]. *)
Definition draw_el (row k cols : Z) (bg : vt_color) (x : rd_out) : option rd_out :=
  x ← emit_sgr 0 VT_COLOR_DEFAULT bg x;
  x ← (if is_at x row k then Some x
       else x ← emit_cup row k x; Some (with_rd (λ r, at_pos row (cur_col r) r) x));
  x ← shadow_set_el row k cols bg (emit_str (27 :: str "[K") x);
  Some (with_rd (λ r, at_pos (cur_row r) k r) x).

(** The head of a full redraw: reset, clear, and a blank shadow. *)
Definition full_head (x : rd_out) : option rd_out :=
  let x := emit_clear_screen (reset_sgr (emit_str SYNC_BEGIN x)) in
  r ← shadow_clear x.1;
  Some (at_pos 0 0 r, x.2).

(** One row of a full redraw, up to column [hi]. *)
Definition full_cells (row hi : Z) (cs : Z → option vt_cell) (x : rd_out) : option rd_out :=
  for_up 0 hi (λ col x,
    c ← cs col;
    if cell_is_blank c then Some x else draw_cell row col c x) x.

(** [&cells[row * cols]] *)
Definition frame_row (cells : list vt_cell) (cols row : Z) (col : Z) : option vt_cell :=
  aget cells (row * cols + col).

Definition full_row (cells : list vt_cell) (cols rcols row : Z) (x : rd_out) : option rd_out :=
  let cs := frame_row cells cols row in
  trail ← (if has_bce x.1 then find_trail_el cs rcols else Some None);
  match trail with
  | Some (k, bg) => x ← full_cells row k cs x; draw_el row k rcols bg x
  | None => full_cells row rcols cs x
  end.

Definition render_cells_full (cells : list vt_cell) (rows cols crow ccol cvis : Z) (x : rd_out)
  : option rd_out :=
  let rrows := Z.min rows (rd_rows x.1) in
  let rcols := Z.min cols (rd_cols x.1) in
  x ← full_head x;
  x ← for_up 0 rrows (full_row cells cols rcols) x;
  x ← cup_to crow ccol (reset_sgr x);
  Some (emit_str SYNC_END (emit_cursor_vis cvis x)).

Definition OVERDRAW_MAX : Z := 6.

(** Does the shadow differ from what the erase would leave in [k, k + n)? *)
Fixpoint el_needed (r : render) (row : Z) (bg : vt_color) (n : nat) (k : Z) : option bool :=
  match n with
  | O => Some false
  | S n' =>
      s ← shadow_cell r row k;
      if negb (codepoint s =? ch " ") || negb (cell_attrs s =? 0) || negb (is_default (cell_fg s))
         || negb (color_eq (cell_bg s) bg)
      then Some true else el_needed r row bg n' (k + 1)
  end.

(** First and last changed column before [hi]; -1 for none. *)
Definition row_changes (r : render) (row hi : Z) (cs : Z → option vt_cell) : option (Z * Z) :=
  for_up 0 hi (λ col fl,
    c ← cs col; s ← shadow_cell r row col;
    Some (if cell_eq c s then fl else (if fl.1 <? 0 then col else fl.1, col))) (-1, -1).

(** [for (gap_end = ...; gap_end <= last_change; gap_end++)], [n] turns left. *)
Fixpoint gap_scan (r : render) (row : Z) (cs : Z → option vt_cell) (n : nat) (k : Z) : option Z :=
  match n with
  | O => Some k
  | S n' =>
      c ← cs k; s ← shadow_cell r row k;
      if cell_eq c s then gap_scan r row cs n' (k + 1) else Some k
  end.

(** From column [col] to [last]: changed cells are drawn, short gaps between
    them drawn over, long ones skipped. *)
Fixpoint diff_cells (fuel : nat) (row : Z) (cs : Z → option vt_cell) (last col : Z) (x : rd_out)
  : option rd_out :=
  if last <? col then Some x else
  match fuel with
  | O => None
  | S fuel' =>
      c ← cs col; s ← shadow_cell x.1 row col;
      if cell_eq c s then
        g ← gap_scan x.1 row cs (Z.to_nat (last - col)) (col + 1);
        if (g <=? last) && (g - col <=? OVERDRAW_MAX)
        then x ← emit_cell c x; diff_cells fuel' row cs last (col + 1) x
        else diff_cells fuel' row cs last g x
      else x ← draw_cell row col c x; diff_cells fuel' row cs last (col + 1) x
  end.

(** The body for a row; the flag is [opened]. *)
Definition diff_row (cells : list vt_cell) (cols rcols row : Z) (xo : rd_out * bool)
  : option (rd_out * bool) :=
  let '(x, opened) := xo in
  let cs := frame_row cells cols row in
  trail ← (if has_bce x.1 then find_trail_el cs rcols else Some None);
  el ← match trail with
       | Some (k, bg) =>
           need ← el_needed x.1 row bg (Z.to_nat (rcols - k)) k;
           Some (if (need : bool) then Some (k, bg) else None)
       | None => Some None
       end;
  let scan_end := match el with Some (k, _) => k | None => rcols end in
  '(first, last) ← row_changes x.1 row scan_end cs;
  if (first <? 0) && negb (bool_decide (is_Some el)) then Some (x, opened) else
  let x := if opened then x else emit_str SYNC_BEGIN x in
  x ← (if 0 <=? first
       then x ← go_to row first x; diff_cells (Z.to_nat (last - first + 1)) row cs last first x
       else Some x);
  x ← match el with Some (k, bg) => draw_el row k rcols bg x | None => Some x end;
  Some (x, true).

(** [row_dirty] may be NULL. *)
Definition diff_dirty_row (row_dirty : option (list Z)) (cells : list vt_cell) (cols rcols row : Z)
  (xo : rd_out * bool) : option (rd_out * bool) :=
  skip ← match row_dirty with Some d => v ← aget d row; Some (v =? 0) | None => Some false end;
  if (skip : bool) then Some xo else diff_row cells cols rcols row xo.

Definition render_cells_diff (cells : list vt_cell) (rows cols crow ccol cvis : Z)
  (row_dirty : option (list Z)) (x : rd_out) : option rd_out :=
  let rrows := Z.min rows (rd_rows x.1) in
  let rcols := Z.min cols (rd_cols x.1) in
  '(x, opened) ← for_up 0 rrows (diff_dirty_row row_dirty cells cols rcols) (x, false);
  if negb opened && is_at x crow ccol && (cvis =? cur_vis x.1) then Some x else
  let x := if opened then reset_sgr x else emit_str SYNC_BEGIN x in
  x ← go_to crow ccol x;
  Some (emit_str SYNC_END (emit_cursor_vis cvis x)).

Definition render_move_cursor (row col : Z) (x : rd_out) : option rd_out := go_to row col x.

(** ** Rendering a terminal's screen

    [render_full] and [render_diff] read the rows of a [vt_state] and clear
    their dirty flags.  A step carries the terminal along. *)

Definition clear_dirty (r : vt_row) : option vt_row :=
  Some {| r with row_flags := clear_bits (row_flags r) VT_ROW_DIRTY |}.

(** [vr = vt_buf_row(st->buf, row)]; [None] is NULL. *)
Definition screen_row (st : vt_state) (row : Z) : option (option vt_row) :=
  b ← cur_buf st;
  match vt_buf_row b row with
  | None => Some None
  | Some i => r ← aget (grid b) i; Some (Some r)
  end.

Definition render_full (st : vt_state) (x : rd_out) : option (rd_out * vt_state) :=
  let cols := rd_cols x.1 in
  let rows := rd_rows x.1 in
  x ← full_head x;
  '(x, st) ← for_up 0 rows (λ row xs,
    let '(x, st) := xs in
    vr ← screen_row st row;
    match vr with
    | None => Some xs
    | Some vr =>
        x ← full_cells row cols (aget (cells vr)) x;
        st ← with_row st row clear_dirty;
        Some (x, st)
    end) (x, st);
  x ← cup_to (cursor_row st) (cursor_col st) x;
  Some (emit_str SYNC_END (reset_sgr x), st).

(** One row of [render_diff]; the flag is [any_change]. *)
Definition state_diff_row (row cols : Z) (cs : Z → option vt_cell) (xa : rd_out * bool)
  : option (rd_out * bool) :=
  for_up 0 cols (λ col xa,
    let '(x, any) := xa in
    c ← cs col; s ← shadow_cell x.1 row col;
    if cell_eq c s then Some xa else x ← draw_cell row col c x; Some (x, true)) xa.

Definition render_diff (st : vt_state) (x : rd_out) : option (rd_out * vt_state) :=
  let cols := rd_cols x.1 in
  let rows := rd_rows x.1 in
  '(x, any, st) ← for_up 0 rows (λ row xs,
    let '(x, any, st) := xs in
    vr ← screen_row st row;
    match vr with
    | None => Some xs
    | Some vr =>
        if negb (has_bits (row_flags vr) VT_ROW_DIRTY) then Some xs else
        '(x, any) ← state_diff_row row cols (aget (VtBuf.cells vr)) (x, any);
        st ← with_row st row clear_dirty;
        Some (x, any, st)
    end) (emit_str SYNC_BEGIN x, false, st);
  x ← (if any || negb (is_at x (cursor_row st) (cursor_col st))
       then cup_to (cursor_row st) (cursor_col st) x else Some x);
  Some (emit_str SYNC_END (reset_sgr x), st).
End Emit.

(** ** The style sequence *)

Lemma color_eq_spec a b : color_eq a b = bool_decide (a = b).
Proof.
  destruct a as [|i|r g d], b as [|i'|r' g' d']; simpl; symmetry;
    try done; try (by apply bool_decide_eq_false_2).
  - destruct (Z.eqb_spec i i') as [->|?]; [by apply bool_decide_eq_true_2 |].
    apply bool_decide_eq_false_2. congruence.
  - destruct (Z.eqb_spec r r'), (Z.eqb_spec g g'), (Z.eqb_spec d d'); simpl;
      [apply bool_decide_eq_true_2 | apply bool_decide_eq_false_2 ..]; congruence.
Qed.

Lemma is_default_spec c : is_default c = bool_decide (c = VT_COLOR_DEFAULT).
Proof. by destruct c. Qed.

Lemma has_bits_pow2 a k : 0 <= k → has_bits a (2 ^ k) = Z.testbit a k.
Proof.
  intros Hk. unfold has_bits. destruct (Z.testbit a k) eqn:E.
  - apply negb_true_iff, Z.eqb_neq. intros H. apply (f_equal (λ z, Z.testbit z k)) in H.
    by rewrite Z.land_spec, E, Z.pow2_bits_true, Z.bits_0 in H by done.
  - apply negb_false_iff, Z.eqb_eq. apply Z.bits_inj'. intros i Hi.
    rewrite Z.land_spec, Z.bits_0, Z.pow2_bits_eqb by done.
    destruct (Z.eqb_spec k i) as [<-|]; [by rewrite E | apply andb_false_r].
Qed.

(** One attribute line: the flag is added if it is wanted and not there. *)
Lemma attr_line acc attrs cur k :
  0 <= k → (if has_bits attrs (2 ^ k) && negb (has_bits cur (2 ^ k)) then set_bits acc (2 ^ k) else acc)
  = Z.lor acc (Z.land (Z.ldiff attrs cur) (2 ^ k)).
Proof.
  intros Hk. rewrite !has_bits_pow2 by done. unfold set_bits. apply Z.bits_inj'. intros i Hi.
  rewrite Z.lor_spec, Z.land_spec, Z.ldiff_spec, Z.pow2_bits_eqb by done.
  destruct (Z.testbit attrs k && negb (Z.testbit cur k)) eqn:E.
  - rewrite Z.lor_spec, Z.pow2_bits_eqb by done. destruct (Z.eqb_spec k i) as [<-|]; [by rewrite E |].
    by rewrite andb_false_r.
  - destruct (Z.eqb_spec k i) as [<-|]; [by rewrite E, orb_false_r | by rewrite andb_false_r, orb_false_r].
Qed.

Lemma attr_added_pen attrs cur f b :
  foldl (λ pn p, sgr_one p pn) (cur, f, b) (attr_added attrs cur)
  = (Z.lor cur (Z.land (Z.ldiff attrs cur) DUMP_ATTRS), f, b).
Proof.
  assert (∀ l acc, Forall (λ fc : Z * Z, (∃ k, 0 <= k ∧ fc.1 = 2 ^ k) ∧
      ∀ a, sgr_one fc.2 (a, f, b) = (set_bits a fc.1, f, b)) l →
    foldl (λ pn p, sgr_one p pn) (acc, f, b)
      (concat (map (λ fc, if has_bits attrs fc.1 && negb (has_bits cur fc.1) then [fc.2] else []) l))
    = (Z.lor acc (Z.land (Z.ldiff attrs cur) (foldr (λ fc m, Z.lor fc.1 m) 0 l)), f, b)) as H.
  { induction l as [|[m p] l IH]; intros acc Hl.
    { simpl. by rewrite Z.land_0_r, Z.lor_0_r. }
    apply Forall_cons in Hl as [((k & Hk & E) & Hone) Hl]. cbn [fst snd] in *. subst m.
    cbn [map concat foldr fst snd]. rewrite foldl_app.
    replace (foldl (λ pn p, sgr_one p pn) (acc, f, b)
      (if has_bits attrs (2 ^ k) && negb (has_bits cur (2 ^ k)) then [p] else []))
      with (Z.lor acc (Z.land (Z.ldiff attrs cur) (2 ^ k)), f, b).
    - rewrite IH by done. do 2 f_equal. by rewrite <- Z.lor_assoc, <- Z.land_lor_distr_r.
    - rewrite <- attr_line by done. case_match; [| done]. by rewrite <- Hone. }
  unfold attr_added. rewrite (H attr_codes cur).
  - done.
  - let go k := (exists k; split; [lia | reflexivity]) in
    unfold attr_codes; repeat (apply Forall_cons_2; [split; [cbn [fst]; first
      [go 0 | go 6 | go 3 | go 1 | go 4 | go 2 | go 7 | go 8] | done] |]); apply Forall_nil_2.
Qed.

(** The codes of one colour, given the colour the terminal has. *)
Definition color_step (base bright ext : Z) (c cur : vt_color) : list Z :=
  if color_eq c cur then [] else color_codes base bright ext c.

(** A reset precedes when the default is to come back, so the codes 39 and 49
    are never needed. *)
Lemma color_step_cases base bright ext c cur :
  (c = VT_COLOR_DEFAULT → cur = VT_COLOR_DEFAULT) →
  (color_step base bright ext c cur = [] ∧ c = cur) ∨
  (color_step base bright ext c cur = color_params base bright ext c ∧ c ≠ VT_COLOR_DEFAULT).
Proof.
  intros H. unfold color_step. rewrite color_eq_spec.
  destruct (bool_decide_reflect (c = cur)) as [->|Hne]; [by left | right].
  destruct c; [by rewrite H in Hne | done | done].
Qed.

Lemma color_step_fg c cur rest a b :
  color_typed c → (c = VT_COLOR_DEFAULT → cur = VT_COLOR_DEFAULT) →
  sgr_loop (length (color_step 30 90 38 c cur ++ rest)) (color_step 30 90 38 c cur ++ rest) (a, cur, b)
  = sgr_loop (length rest) rest (a, c, b).
Proof.
  intros Hc Hd. destruct (color_step_cases 30 90 38 c cur Hd) as [[-> <-]|[-> Hne]]; [done |].
  by apply sgr_loop_fg.
Qed.

Lemma color_step_bg c cur rest a f :
  color_typed c → (c = VT_COLOR_DEFAULT → cur = VT_COLOR_DEFAULT) →
  sgr_loop (length (color_step 40 100 48 c cur ++ rest)) (color_step 40 100 48 c cur ++ rest) (a, f, cur)
  = sgr_loop (length rest) rest (a, f, c).
Proof.
  intros Hc Hd. destruct (color_step_cases 40 100 48 c cur Hd) as [[-> <-]|[-> Hne]]; [done |].
  by apply sgr_loop_bg.
Qed.

(** The style the codes start from, after the reset if there is one. *)
Definition base_style (r : render) (a : Z) (f b : vt_color) : pen :=
  if needs_reset r a f b then plain_pen else (cur_attrs r, cur_fg r, cur_bg r).

Lemma sgr_codes_eq r a f b :
  sgr_codes r a f b =
  (if needs_reset r a f b then [0] else []) ++ attr_added a (base_style r a f b).1.1
  ++ color_step 30 90 38 f (base_style r a f b).1.2 ++ color_step 40 100 48 b (base_style r a f b).2.
Proof. unfold sgr_codes, base_style. by destruct (needs_reset r a f b). Qed.

Lemma base_style_ok r a f b :
  Z.ldiff (base_style r a f b).1.1 a = 0 ∧
  (f = VT_COLOR_DEFAULT → (base_style r a f b).1.2 = VT_COLOR_DEFAULT) ∧
  (b = VT_COLOR_DEFAULT → (base_style r a f b).2 = VT_COLOR_DEFAULT).
Proof.
  unfold base_style. destruct (needs_reset r a f b) eqn:E; [by rewrite Z.ldiff_0_l |].
  unfold needs_reset in E. rewrite !orb_false_iff, !andb_false_iff, !negb_false_iff, Z.eqb_eq, !is_default_spec,
    !bool_decide_eq_true, !bool_decide_eq_false in E. simpl.
  destruct E as [[E1 E2] E3]. split; [done |]. split; intros H; [by destruct E2 | by destruct E3].
Qed.

Lemma lor_subset a c m : Z.ldiff c a = 0 → Z.land a m = a → Z.lor c (Z.land (Z.ldiff a c) m) = a.
Proof.
  intros H1 H2. apply Z.bits_inj'. intros i Hi.
  apply (f_equal (λ z, Z.testbit z i)) in H1, H2.
  rewrite Z.ldiff_spec, Z.bits_0 in H1. rewrite Z.land_spec in H2.
  rewrite Z.lor_spec, Z.land_spec, Z.ldiff_spec.
  by destruct (Z.testbit c i), (Z.testbit a i), (Z.testbit m i).
Qed.

Lemma dump_attrs_mask a : 0 <= a < 512 → Z.land a VT_ATTR_UNDERCURL = 0 → Z.land a DUMP_ATTRS = a.
Proof.
  intros Ha Hu.
  enough ((Z.land a DUMP_ATTRS =? a) || negb (Z.land a VT_ATTR_UNDERCURL =? 0) = true) as H.
  { rewrite Hu in H. by rewrite orb_false_r, Z.eqb_eq in H. }
  clear Hu. revert a Ha. apply (forall_range (λ a, (Z.land a DUMP_ATTRS =? a) || negb (Z.land a VT_ATTR_UNDERCURL =? 0))).
  vm_compute. reflexivity.
Qed.

Lemma attr_added_small a c : Forall (λ n, 1 <= n < 10) (attr_added a c).
Proof. unfold attr_added. simpl. repeat case_match; repeat (constructor; [lia |]); constructor. Qed.

Lemma simple_small ps : Forall (λ n, 1 <= n < 10) ps → Forall (λ p, 0 <= p ∧ p ≠ 38 ∧ p ≠ 48) ps.
Proof. intros H. eapply Forall_impl; [exact H |]. simpl. lia. Qed.

(** The codes bring the terminal's style from the recorded one to the wanted
    one. *)
Lemma sgr_codes_pen r c :
  style_ok c →
  sgr_loop (length (sgr_codes r (cell_attrs c) (cell_fg c) (cell_bg c)))
    (sgr_codes r (cell_attrs c) (cell_fg c) (cell_bg c)) (cur_attrs r, cur_fg r, cur_bg r)
  = pen_of_cell c.
Proof.
  intros [[Ha Hu] Hf Hb _]. rewrite sgr_codes_eq.
  destruct (base_style_ok r (cell_attrs c) (cell_fg c) (cell_bg c)) as (Hsub & Hdf & Hdb).
  rewrite sgr_loop_simple by (case_match; repeat constructor; lia).
  replace (foldl _ _ _) with (base_style r (cell_attrs c) (cell_fg c) (cell_bg c))
    by (unfold base_style; by case_match).
  destruct (base_style r (cell_attrs c) (cell_fg c) (cell_bg c)) as [[a f] b]. cbn [fst snd] in *.
  rewrite sgr_loop_simple by apply simple_small, attr_added_small.
  rewrite attr_added_pen, lor_subset by (done || by apply dump_attrs_mask).
  rewrite color_step_fg by done.
  rewrite <- (app_nil_r (color_step 40 100 48 _ _)), color_step_bg by done. done.
Qed.

Lemma attr_added_le a c : zlen (attr_added a c) <= zlen (attr_params a).
Proof.
  unfold attr_added, attr_params. induction attr_codes as [|fc l IH]; [done |]. simpl.
  rewrite !zlen_app. destruct (has_bits a fc.1), (has_bits c fc.1); simpl; unfold zlen in *; simpl; lia.
Qed.

Lemma color_step_le base bright ext c cur :
  (c = VT_COLOR_DEFAULT → cur = VT_COLOR_DEFAULT) →
  zlen (color_step base bright ext c cur) <= zlen (color_params base bright ext c).
Proof.
  intros Hd. destruct (color_step_cases base bright ext c cur Hd) as [[-> _]|[-> _]]; [apply zlen_nonneg | lia].
Qed.

(** No more codes than a full style takes, each read back exactly, and at most
    54 bytes of the 80 there are. *)
Lemma sgr_codes_fit r c :
  style_ok c →
  let ps := sgr_codes r (cell_attrs c) (cell_fg c) (cell_bg c) in
  zlen ps <= VT_MAX_PARAMS ∧ Forall param_exact ps ∧ zlen (semis ps) <= 52.
Proof.
  intros [[Ha Hu] Hf Hb Hn] ps. unfold ps. rewrite sgr_codes_eq.
  destruct (base_style_ok r (cell_attrs c) (cell_fg c) (cell_bg c)) as (_ & Hdf & Hdb).
  destruct (base_style r (cell_attrs c) (cell_fg c) (cell_bg c)) as [[a f] b]. cbn [fst snd] in *.
  pose proof (attr_added_le (cell_attrs c) a) as Hle. pose proof (attr_added_small (cell_attrs c) a) as Hsm.
  destruct (attr_params_short (cell_attrs c)) as [H8 _].
  pose proof (color_step_le 30 90 38 _ _ Hdf) as Hlf. pose proof (color_step_le 40 100 48 _ _ Hdb) as Hlb.
  assert (Forall param_exact (color_step 30 90 38 (cell_fg c) f) ∧
          zlen (semis (color_step 30 90 38 (cell_fg c) f)) <= 17) as [Hxf Htf].
  { destruct (color_step_cases 30 90 38 _ _ Hdf) as [[-> _]|[-> _]]; [by split |].
    split; [apply color_params_exact | apply color_params_text]; (done || lia). }
  assert (Forall param_exact (color_step 40 100 48 (cell_bg c) b) ∧
          zlen (semis (color_step 40 100 48 (cell_bg c) b)) <= 17) as [Hxb Htb].
  { destruct (color_step_cases 40 100 48 _ _ Hdb) as [[-> _]|[-> _]]; [by split |].
    split; [apply color_params_exact | apply color_params_text]; (done || lia). }
  pose proof (small_text _ Hsm) as Ht. unfold sgr_params in Hn.
  rewrite zlen_cons, !zlen_app in Hn. rewrite !semis_app, !zlen_app.
  assert (zlen (if needs_reset r (cell_attrs c) (cell_fg c) (cell_bg c) then [0] else []) <= 1 ∧
    zlen (semis (if needs_reset r (cell_attrs c) (cell_fg c) (cell_bg c) then [0] else [])) <= 2 ∧
    Forall param_exact (if needs_reset r (cell_attrs c) (cell_fg c) (cell_bg c) then [0] else [])) as (H1 & H2 & Hx).
  { destruct (needs_reset r (cell_attrs c) (cell_fg c) (cell_bg c)).
    - split; [vm_compute; discriminate |]. split; [vm_compute; discriminate | all_exact].
    - split; [vm_compute; discriminate |]. split; [vm_compute; discriminate | constructor]. }
  split; [lia |]. split; [| lia].
  apply Forall_app_2; [done |]. apply Forall_app_2; [| by apply Forall_app_2].
  eapply Forall_impl; [exact Hsm |]. intros n Hn'. simpl in Hn'. unfold param_exact, PARAM_MAX. lia.
Qed.

(** Something is written when the style changes. *)
Lemma sgr_codes_nonempty r c :
  style_ok c →
  (cell_attrs c =? cur_attrs r) && color_eq (cell_fg c) (cur_fg r) && color_eq (cell_bg c) (cur_bg r) = false →
  sgr_codes r (cell_attrs c) (cell_fg c) (cell_bg c) ≠ [].
Proof.
  intros Hs Hne E. pose proof (sgr_codes_pen r c Hs) as Hp. rewrite E in Hp. simpl in Hp.
  unfold pen_of_cell in Hp. injection Hp as Ha Hf Hb.
  rewrite Ha, Hf, Hb, Z.eqb_refl, !color_eq_spec, !bool_decide_eq_true_2 in Hne; done.
Qed.

Lemma csi_text_len ps f : ps ≠ [] → zlen (csi_text [] ps f) = 2 + zlen (semis ps).
Proof.
  destruct ps as [|p ps]; [done |]. intros _. unfold csi_text. rewrite join_semi_semis.
  change (semis (p :: ps)) with ((ch ";" :: dump_fmt_int p) ++ semis ps).
  cbn [app]. repeat first [rewrite zlen_cons | rewrite zlen_app | rewrite zlen_nil]. lia.
Qed.
