(* ===== verification/RenderCorrect.v ===== *)
(** * What the renderer's output does to the terminal

    The bytes the renderer writes, played to the virtual terminal of VtOps.v,
    leave it showing the frame.  [tracks] is the invariant: the terminal shows
    the shadow, cell for cell, and its cursor and style are the recorded ones.
    It is proved against an interface, [Capabilities], that says what the
    terminal description must promise; a renderer without one, or with one that
    found no terminfo entry, has it. *)

From S2P Require Import Prelude Utf8 WidthTables RuneWidth VtBuf VtParse Decimal VtState VtOps VtSeq.
From S2P Require Import VtClient VtDump Txl Render.

(** The text of a capability. *)
Definition cap_text (t : option txl) (c : txl_cap) (fallback : list Z) : list Z :=
  match t with Some t => txl_str t c | None => fallback end.

Definition moved (st : vt_state) (row col : Z) : vt_state := set_cursor st row col.

Section Tracking.
Context (tbl : rune_width_table) `{!WidthTable tbl}.
Context (on_dcs : vt_state → Z → list Z → option vt_state).
Context (R C : Z) (HR : R <= PARAM_MAX) (HC : C < PARAM_MAX).
Context (ti_expand : list Z → list Z → list Z).
Implicit Types (st : vt_state) (r : render) (x : rd_out).

Local Abbreviation client := (client R C).
Local Notation "'plays'" := (plays tbl on_dcs).

(** What a terminal description promises: its strings do on the terminal what
    their names say. *)
Class Capabilities (t : option txl) : Prop := {
  cap_cup row col : 0 <= row < R → 0 <= col < C →
    ∃ s, (∀ x, rd_txl x.1 = t → emit_cup ti_expand row col x = Some (emit_str s x)) ∧
      ∀ st, client st → plays st s (moved st row col);
  cap_sgr0 st : client st → plays st (cap_text t TXL_SGR0 (27 :: str "[0m")) (with_pen st plain_pen);
  cap_clear st : client st →
    ∃ st', plays st (cap_text t TXL_CLEAR (27 :: str "[H" ++ 27 :: str "[2J")) st' ∧
      client st' ∧ keeps st st' ∧ pen_of st' = pen_of st ∧ cursor_row st' = 0 ∧ cursor_col st' = 0 ∧
      ∀ i, row_cells st' i = fill 0 C (vt_cell_erase (bg st)) <$> row_cells st i;
  cap_cnorm st : client st →
    plays st (cap_text t TXL_CNORM (27 :: str "[?25h")) (add_mode st VT_MODE_CURSOR_VIS);
  cap_civis st : client st →
    plays st (cap_text t TXL_CIVIS (27 :: str "[?25l")) (del_mode st VT_MODE_CURSOR_VIS);
}.

(** The ANSI sequences have the capabilities. *)
Lemma ansi_cup_moves st row col :
  client st → 0 <= row < R → 0 <= col < C → plays st (cup_text (row + 1) (col + 1)) (moved st row col).
Proof.
  intros Hc Hr Hcol. pose proof (step_cup tbl on_dcs R C st row col Hc Hr ltac:(lia) HR HC) as [Hp _].
  by rewrite Z.min_l in Hp by lia.
Qed.

Lemma ansi_vis st f st' :
  csi_private st [25] f = Some st' → f = ch "h" ∨ f = ch "l" → plays st (csi_text [ch "?"] [25] f) st'.
Proof.
  intros E Hf. apply (plays_csi _ _ _ _ (ch "?")); try done; [by right | all_exact |].
  destruct Hf as [-> | ->]; done.
Qed.

Lemma emit_cup_ansi row col x :
  row < R → col < C → match rd_txl x.1 with None => True | Some t => cup_str t = None end →
  emit_cup ti_expand row col x = Some (emit_str (cup_text (row + 1) (col + 1)) x).
Proof.
  intros Hr Hc Ht. unfold PARAM_MAX in *. unfold emit_cup, fmt_int. rewrite cup_text_eq.
  assert (in_buf 24 (cup_text (row + 1) (col + 1)) = Some (cup_text (row + 1) (col + 1))) as Hfit.
  { unfold in_buf, cup_text, csi_text. 
    pose proof (dump_fmt_int_length 6 (row + 1) ltac:(lia) ltac:(lia)).
    pose proof (dump_fmt_int_length 6 (col + 1) ltac:(lia) ltac:(lia)).
    match goal with |- context [zlen ?l <=? 24] => enough (zlen l <= 24) as Hz
      by (by apply Z.leb_le in Hz as ->) end.
    cbn [join_semi app].
    repeat first [rewrite zlen_cons | rewrite zlen_app | rewrite zlen_nil]. lia. }
  destruct (rd_txl x.1) as [t|].
  - unfold txl_cup, or_ansi. rewrite Ht. change (24 <? 16) with false. cbn iota.
    rewrite (ansi_cup_text 6) by lia. cbn [mbind option_bind].
    destruct (Z.ltb_spec 0 (zlen (cup_text (row + 1) (col + 1)))) as [|H]; [done |].
    unfold cup_text, csi_text in H. rewrite zlen_cons in H.
    match type of H with zlen ?l + 1 <= 0 => pose proof (zlen_nonneg l) end. lia.
  - cbn [mbind option_bind]. change (0 <? zlen []) with false. cbn iota. rewrite Hfit. done.
Qed.

#[export] Instance ansi_capabilities : Capabilities None.
Proof.
  constructor.
  - intros row col Hr Hc. exists (cup_text (row + 1) (col + 1)). split.
    + intros x Hx. apply emit_cup_ansi; [lia | lia | by rewrite Hx].
    + intros st Hcl. by apply ansi_cup_moves.
  - intros st Hcl. by apply (step_sgr tbl on_dcs R C st [0]); [| | all_exact | |].
  - intros st Hcl. by apply step_clear.
  - intros st Hcl. by apply (ansi_vis st (ch "h")); [| left].
  - intros st Hcl. by apply (ansi_vis st (ch "l")); [| right].
Qed.

(** No terminfo entry: the same sequences. *)
#[export] Instance plain_txl_capabilities colorterm : Capabilities (Some (txl_new colorterm None)).
Proof.
  destruct ansi_capabilities as [Hcup H1 H2 H3 H4]. constructor; [| exact H1 | exact H2 | exact H3 | exact H4].
  intros row col Hr Hc. exists (cup_text (row + 1) (col + 1)). split.
  - intros x Hx. apply emit_cup_ansi; [lia | lia | by rewrite Hx].
  - intros st Hcl. by apply ansi_cup_moves.
Qed.

(** ** Tracking

    A cell a frame may hold: printable and narrow, with a style SGR can carry. *)
Definition frame_cell (c : vt_cell) : Prop := cell_ok tbl c ∧ cell_width c = 1.

(** The terminal's rows are those of the flat array [s]. *)
Definition shows (s : list vt_cell) st : Prop :=
  ∀ row, 0 <= row < R → ∃ cs, row_cells st row = Some cs ∧ zlen cs = C ∧
    ∀ col, 0 <= col < C → aget cs col = aget s (row * C + col).

Context (t : option txl) `{!Capabilities t}.

Record tracks r st : Prop := {
  tk_client : client st;
  tk_rows : rd_rows r = R;
  tk_cols : rd_cols r = C;
  tk_caps : rd_txl r = t;
  tk_size : zlen (shadow r) = R * C;
  tk_shadow : shows (shadow r) st;
  tk_cells : Forall frame_cell (shadow r);
  tk_cursor : 0 <= cur_row r < R → 0 <= cur_col r < C → cursor_row st = cur_row r ∧ cursor_col st = cur_col r;
  tk_vis : cur_vis r = -1 ∨ has_bits (modes st) VT_MODE_CURSOR_VIS = negb (cur_vis r =? 0);
  tk_pen : pen_of st = (cur_attrs r, cur_fg r, cur_bg r);
}.

(** The bytes written so far, played to the terminal [st0], leave it tracked. *)
Context (st0 : vt_state).
Definition tracked x : Prop := ∃ st, plays st0 x.2 st ∧ tracks x.1 st.

Lemma dims_pos st : client st → 0 < R <= DIM_MAX ∧ 0 < C <= DIM_MAX.
Proof. intros Hc. exact (ws_dims _ _ _ (cl_wf _ Hc)). Qed.

Lemma print_width_space : print_width tbl (ch " ") = 1.
Proof.
  unfold print_width, width_spec. chs. cbn [Z.eqb Z.ltb Z.leb].
  by rewrite zero_above_ascii, wide_above_ascii by lia.
Qed.

Lemma blank_frame_cell b : color_typed b → frame_cell (vt_cell_erase b).
Proof.
  intros Hb. split; [| done]. split; [| split].
  - unfold plain_rune, print_rune, valid_rune, UTF8_RUNE_MAX. cbn [codepoint vt_cell_erase vt_cell_clear]. chs. lia.
  - symmetry. apply print_width_space.
  - constructor; cbn [cell_attrs cell_fg cell_bg vt_cell_erase vt_cell_clear]; [split; [lia | done] | done | done |].
    unfold sgr_params. cbn [cell_attrs cell_fg cell_bg vt_cell_erase vt_cell_clear app].
    unfold color_params, VT_MAX_PARAMS. destruct b; repeat case_match; vm_compute; discriminate.
Qed.

Lemma shows_insert s st st' row col c cs :
  shows s st → zlen s = R * C → 0 <= row < R → 0 <= col < C → row_cells st row = Some cs →
  row_cells st' row = Some (<[Z.to_nat col := c]> cs) →
  (∀ i, i ≠ row → row_cells st' i = row_cells st i) →
  shows (<[Z.to_nat (row * C + col) := c]> s) st'.
Proof.
  intros Hs Hlen Hrow Hcol Hcs Hcs' Hoth i Hi. pose proof (cell_index row col Hrow Hcol).
  destruct (Hs i Hi) as (r & Er & Hz & Hr). destruct (decide (i = row)) as [->|Hne].
  - exists (<[Z.to_nat col := c]> cs). simplify_eq. rewrite zlen_insert. split_and!; [done | done |].
    intros k Hk. rewrite !aget_insert by lia. destruct (decide (col = k)) as [->|].
    + by rewrite decide_True by lia.
    + rewrite decide_False by lia. by apply Hr.
  - exists r. rewrite Hoth by done. split_and!; [done | done |]. intros k Hk.
    rewrite aget_insert by lia. rewrite decide_False; [by apply Hr |].
    intros E. destruct (cell_index_inj (C := C) row col i k) as [? _]; (done || lia).
Qed.

(** A step that writes nothing to the screen: the shadow stays true. *)
Lemma shows_same s st st' : shows s st → (∀ i, row_cells st' i = row_cells st i) → shows s st'.
Proof. intros Hs H i Hi. rewrite H. by apply Hs. Qed.

Definition same_place x x' : Prop :=
  shadow x'.1 = shadow x.1 ∧ cur_row x'.1 = cur_row x.1 ∧ cur_col x'.1 = cur_col x.1.

(** Emitting text that takes the tracked terminal to a tracked one. *)
Lemma tracked_step x s f st st' :
  plays st0 x.2 st → plays st s st' → tracks (f x.1) st' → tracked (emit_str s (with_rd f x)).
Proof. intros Hp Hs Ht. exists st'. split; [by eapply plays_app | done]. Qed.

Lemma sgr_ok c x :
  tracked x → style_ok c →
  yields (emit_sgr (cell_attrs c) (cell_fg c) (cell_bg c) x) (λ x', tracked x' ∧ same_place x x' ∧
    (cur_attrs x'.1, cur_fg x'.1, cur_bg x'.1) = pen_of_cell c).
Proof.
  intros (st & Hp & Ht) Hs. unfold emit_sgr.
  destruct ((cell_attrs c =? cur_attrs x.1) && color_eq (cell_fg c) (cur_fg x.1)
            && color_eq (cell_bg c) (cur_bg x.1)) eqn:E.
  - simpl. split; [by exists st |]. split; [by split_and! |].
    rewrite !andb_true_iff, !color_eq_spec, !bool_decide_eq_true, Z.eqb_eq in E.
    destruct E as [[Ha Hf] Hb]. unfold pen_of_cell. by rewrite Ha, Hf, Hb.
  - destruct (sgr_codes_fit x.1 c Hs) as (Hn & Hx & Hz). pose proof (sgr_codes_nonempty x.1 c Hs E) as Hne.
    set (ps := sgr_codes x.1 _ _ _) in *. unfold in_buf. rewrite csi_text_len by done.
    destruct (Z.leb_spec (2 + zlen (semis ps)) 80); [| lia]. cbn [mbind option_bind yields].
    split; [| by split_and!].
    destruct (step_sgr tbl on_dcs R C st ps (pen_of_cell c) (tk_client _ _ Ht)) as [Hps Hc']; try done.
    { rewrite (tk_pen _ _ Ht). by apply sgr_codes_pen. }
    eapply tracked_step; [exact Hp | exact Hps |].
    destruct Ht. constructor; try done.
Qed.

Lemma tracks_moved r st row col :
  tracks r st → 0 <= row < R → 0 <= col < C → tracks (at_pos row col r) (moved st row col).
Proof.
  intros Ht Hr Hc. pose proof (dims_pos _ (tk_client _ _ Ht)).
  assert (client (moved st row col)) as Hcl.
  { destruct Ht as [Hcl _ _ _ _ _ _ _ _ _]. apply (client_keeps st); [done | by repeat split |].
    apply wf_set_cursor; [apply Hcl | lia | lia]. }
  destruct Ht. constructor; done.
Qed.

Lemma cup_ok row col x :
  tracked x → 0 <= row < R → 0 <= col < C →
  yields (cup_to ti_expand row col x) (λ x', tracked x' ∧ shadow x'.1 = shadow x.1 ∧
    cur_row x'.1 = row ∧ cur_col x'.1 = col).
Proof.
  intros (st & Hp & Ht) Hr Hc. destruct (cap_cup (t := t) row col Hr Hc) as (s & Es & Hs).
  unfold cup_to. rewrite Es by apply Ht. cbn [mbind option_bind yields].
  split; [| done]. exists (moved st row col). split.
  - eapply plays_app; [exact Hp | apply Hs, Ht].
  - by apply tracks_moved.
Qed.

Lemma go_ok row col x :
  tracked x → 0 <= row < R → 0 <= col < C →
  yields (go_to ti_expand row col x) (λ x', tracked x' ∧ shadow x'.1 = shadow x.1 ∧
    cur_row x'.1 = row ∧ cur_col x'.1 = col).
Proof.
  intros Ht Hr Hc. unfold go_to, is_at. destruct (Z.eqb_spec (cur_row x.1) row); simpl; [| by apply cup_ok].
  destruct (Z.eqb_spec (cur_col x.1) col); [by simpl | by apply cup_ok].
Qed.

Lemma no_predicted a : 0 <= a < 512 → clear_bits a VT_ATTR_PREDICTED = a ∧ has_bits a VT_ATTR_PREDICTED = false.
Proof.
  intros Ha. change VT_ATTR_PREDICTED with (2 ^ 9). rewrite has_bits_pow2 by lia. unfold clear_bits.
  assert (Z.testbit a 9 = false) as E.
  { rewrite Z.testbit_false by lia. by rewrite Z.div_small by lia. }
  split; [| done]. apply Z.bits_inj'. intros i Hi. rewrite Z.ldiff_spec, Z.pow2_bits_eqb by lia.
  destruct (Z.eqb_spec 9 i) as [<-|]; [by rewrite E | by rewrite andb_true_r].
Qed.

Lemma frame_attrs c : frame_cell c → 0 <= cell_attrs c < 512.
Proof. intros [(_ & _ & [[H _] _ _ _]) _]. done. Qed.

(** Two cells of frames that compare equal are equal. *)
Lemma cell_eq_frame c s : frame_cell c → frame_cell s → cell_eq c s = bool_decide (c = s).
Proof.
  intros Hc Hs. unfold cell_eq.
  rewrite (proj1 (no_predicted _ (frame_attrs _ Hc))), (proj1 (no_predicted _ (frame_attrs _ Hs))).
  destruct Hc as [_ Wc], Hs as [_ Ws]. rewrite Wc, Ws, !color_eq_spec.
  destruct c as [p f b a w], s as [p' f' b' a' w']. simpl in *. subst w w'.
  apply Bool.eq_iff_eq_true. rewrite !andb_true_iff, !bool_decide_eq_true, !Z.eqb_eq.
  split; [by intros [[[[-> ->] _] ->] ->] | by intros [= -> -> -> ->]].
Qed.

(** Emitting a cell where the cursor is puts it there; the shadow is told by
    the caller. *)
Lemma emit_cell_ok row col c x :
  tracked x → frame_cell c → 0 <= row < R → 0 <= col < C → cur_row x.1 = row → cur_col x.1 = col →
  yields (emit_cell c x) (λ x', shadow x'.1 = shadow x.1 ∧ rd_cols x'.1 = C ∧
    cur_row x'.1 = row ∧ cur_col x'.1 = col + 1 ∧
    tracked (with_rd (with_shadow (<[Z.to_nat (row * C + col) := c]> (shadow x.1))) x')).
Proof.
  intros Htr Hc Hrow Hcol Er Ec. pose proof Hc as [Hok Hw]. pose proof Hok as (Hrune & Hpw & Hst).
  destruct (no_predicted _ (proj1 (so_attrs _ Hst))) as [Hclr Hbit].
  unfold emit_cell. rewrite Hw. change (1 =? 0) with false. cbn iota.
  unfold shown_attrs. rewrite Hclr, Hbit.
  eapply yields_seq; [by apply sgr_ok |]. intros x1 ((st & Hp & Ht) & (Hsh & Er1 & Ec1) & Hpen).
  rewrite Er in Er1. rewrite Ec in Ec1.
  destruct (tk_cursor _ _ Ht ltac:(lia) ltac:(lia)) as [Hcr Hcc]. rewrite Er1 in Hcr. rewrite Ec1 in Hcc.
  destruct (tk_shadow _ _ Ht row Hrow) as (cs & Ecs & Hz & Hcs).
  destruct (step_print tbl on_dcs R C st c cs (tk_client _ _ Ht)) as
    (st' & Hps & Hc' & Hk & Hpen' & Hr' & Hcol' & Hcells & Hoth);
    [done | lia | by rewrite (tk_pen _ _ Ht), Hpen | lia | by rewrite Hcr |].
  rewrite Hw, Hcr, Hcc in *. change (1 =? 2) with false in Hcells. cbn iota in Hcells.
  assert (0 < zlen (utf8_encode (codepoint c))) as Hne.
  { destruct Hrune as [[Hv _] _]. destruct (utf8_encode_first _ Hv) as (b & bs & -> & _).
    rewrite zlen_cons. pose proof (zlen_nonneg bs). lia. }
  destruct (Z.leb_spec (zlen (utf8_encode (codepoint c))) 0); [lia |].
  cbn [yields with_rd emit_str fst snd at_pos shadow rd_cols cur_row cur_col].
  split_and!; [done | apply Ht | done | by rewrite Ec1 |].
  exists st'. split; [by eapply plays_app |]. cbn [fst snd with_rd]. destruct Hk as (Hm & _).
  pose proof (tk_size _ _ Ht) as Hsz. rewrite Hsh in Hsz. pose proof (cell_index row col Hrow Hcol) as Hidx.
  destruct Ht. constructor; try done.
  - cbn [shadow with_shadow at_pos]. by rewrite zlen_insert.
  - cbn [shadow with_shadow at_pos]. rewrite <- Hsh. eapply shows_insert; try done; rewrite ?Hsh; done.
  - cbn [shadow with_shadow at_pos]. apply Forall_insert; [by rewrite <- Hsh | done].
  - cbn [cur_row cur_col with_shadow at_pos emit_str fst]. rewrite Er1, Ec1. intros _ Hlt. split; [done |].
    apply Hcol'. lia.
  - by rewrite Hm.
  - by rewrite Hpen'.
Qed.

Lemma set_shadow_ok row col c x :
  zlen (shadow x.1) = R * C → rd_cols x.1 = C → 0 <= row < R → 0 <= col < C →
  set_shadow row col c x = Some (with_rd (with_shadow (<[Z.to_nat (row * C + col) := c]> (shadow x.1))) x).
Proof.
  intros Hz Hcols Hr Hc. pose proof (cell_index row col Hr Hc). unfold set_shadow. rewrite Hcols.
  by rewrite aset_in by lia.
Qed.

Lemma draw_ok row col c x :
  tracked x → frame_cell c → 0 <= row < R → 0 <= col < C →
  yields (draw_cell ti_expand row col c x) (λ x', tracked x' ∧
    shadow x'.1 = <[Z.to_nat (row * C + col) := c]> (shadow x.1) ∧
    cur_row x'.1 = row ∧ cur_col x'.1 = col + 1).
Proof.
  intros Ht Hc Hr Hcol. unfold draw_cell.
  eapply yields_seq; [by apply go_ok |]. intros x1 (Ht1 & Hs1 & Er & Ec).
  eapply yields_seq; [by apply (emit_cell_ok row col) |]. intros x2 (Hs2 & Hcols & Er2 & Ec2 & Ht2).
  assert (zlen (shadow x2.1) = R * C) as Hz.
  { destruct Ht1 as (st1 & _ & Ht1). rewrite Hs2. apply Ht1. }
  rewrite set_shadow_ok by done. cbn [yields with_rd fst with_shadow shadow cur_row cur_col].
  rewrite Hs2 in *. split_and!; [done | by rewrite Hs1 | done | done].
Qed.

(** Drawing over a cell that is there already changes nothing. *)
Lemma overdraw_ok row col c x :
  tracked x → frame_cell c → 0 <= row < R → 0 <= col < C → cur_row x.1 = row → cur_col x.1 = col →
  aget (shadow x.1) (row * C + col) = Some c →
  yields (emit_cell c x) (λ x', tracked x' ∧ shadow x'.1 = shadow x.1 ∧
    cur_row x'.1 = row ∧ cur_col x'.1 = col + 1).
Proof.
  intros Ht Hc Hr Hcol Er Ec Es. eapply yields_mono; [by apply (emit_cell_ok row col) |].
  intros x1 (Hs1 & Hcols & Er1 & Ec1 & Ht1). split_and!; try done.
  rewrite list_insert_id in Ht1.
  - rewrite <- Hs1 in Ht1. by destruct x1 as [[] ?].
  - pose proof (aget_Some _ _ _ Es). by rewrite aget_lookup in Es by lia.
Qed.

Lemma fill_next {A} lo k (y : A) (l : list A) :
  0 <= lo <= k → k < zlen l → <[Z.to_nat k := y]> (fill lo k y l) = fill lo (k + 1) y l.
Proof.
  intros Hk Hlt. apply aget_ext. intros i. rewrite aget_insert by (rewrite zlen_fill; lia).
  rewrite !aget_fill. destruct (decide (k = i)) as [<-|Hne].
  - destruct (aget_in l k) as [v ->]; [lia |]. simpl. f_equal. zbool.
  - destruct (aget l i); simpl; [| done]. f_equal. zbool.
Qed.

Lemma shadow_set_el_ok row lo bgc x :
  zlen (shadow x.1) = R * C → rd_cols x.1 = C → 0 <= row < R → 0 <= lo <= C →
  shadow_set_el row lo C bgc x =
  Some (with_rd (with_shadow (fill (row * C + lo) (row * C + C) (vt_cell_erase bgc) (shadow x.1))) x).
Proof.
  intros Hz Hcols Hr Hlo. apply yields_eq. unfold shadow_set_el.
  eapply yields_mono; [apply (for_up_inv (λ k x', x' = with_rd (with_shadow
    (fill (row * C + lo) (row * C + k) (vt_cell_erase bgc) (shadow x.1))) x)) | by intros ? ->]; [lia | |].
  - rewrite fill_nothing by lia. by destruct x as [[] ?].
  - intros k x' Hk ->. rewrite set_shadow_ok by (cbn [with_rd fst shadow with_shadow rd_cols]; rewrite ?zlen_fill; lia).
    cbn [yields with_rd fst snd with_shadow shadow]. rewrite fill_next; [| nia | nia].
    by replace (row * C + k + 1) with (row * C + (k + 1)) by lia.
Qed.

Lemma shows_el s st st' row k y :
  shows s st → zlen s = R * C → 0 <= row < R → 0 <= k < C →
  (∀ i, row_cells st' i = fill (if i =? row then k else 0) (if i =? row then C else 0) y <$> row_cells st i) →
  shows (fill (row * C + k) (row * C + C) y s) st'.
Proof.
  intros Hs Hlen Hrow Hk Hcells i Hi. destruct (Hs i Hi) as (cs & Ecs & Hz & Hr).
  rewrite Hcells, Ecs. eexists. split; [reflexivity |]. rewrite zlen_fill. split; [done |].
  intros col Hcol. rewrite !aget_fill, Hr by done.
  destruct (aget s (i * C + col)) as [c|]; [| done]. simpl. f_equal.
  destruct (Z.eqb_spec i row) as [->|Hne].
  - destruct (Z.leb_spec k col), (Z.ltb_spec col C); simpl; try lia;
      destruct (Z.leb_spec (row * C + k) (row * C + col)), (Z.ltb_spec (row * C + col) (row * C + C)); simpl; done || lia.
  - replace ((0 <=? col) && (col <? 0)) with false by (symmetry; zbool).
    destruct (Z.leb_spec (row * C + k) (i * C + col)), (Z.ltb_spec (i * C + col) (row * C + C)); simpl; try done.
    assert (i = row) by nia. done.
Qed.

Lemma Forall_fill {A} (P : A → Prop) lo hi y l : Forall P l → P y → Forall P (fill lo hi y l).
Proof.
  rewrite !Forall_aget. intros Hl Hy i v. rewrite aget_fill.
  destruct (aget l i) as [w|] eqn:E; [| done]. simpl. intros [= <-]. case_match; [done | by eapply Hl].
Qed.

Lemma el_place_ok row k x :
  tracked x → 0 <= row < R → 0 <= k < C →
  yields (if is_at x row k then Some x
          else x ← emit_cup ti_expand row k x; Some (with_rd (λ r, at_pos row (cur_col r) r) x))
    (λ x', shadow x'.1 = shadow x.1 ∧ cur_row x'.1 = row ∧ tracked (with_rd (at_pos row k) x') ∧
      cur_bg x'.1 = cur_bg x.1).
Proof.
  intros (st & Hp & Ht) Hr Hc. unfold is_at.
  destruct (Z.eqb_spec (cur_row x.1) row) as [E1|]; simpl;
    [destruct (Z.eqb_spec (cur_col x.1) k) as [E2|]; simpl|].
  1: { split_and!; try done. exists st. split; [done |]. cbn [with_rd fst]. rewrite <- E1, <- E2.
       destruct x as [[] ?]. exact Ht. }
  all: destruct (cap_cup (t := t) row k Hr Hc) as (s & Es & Hs); rewrite Es by apply Ht; cbn [mbind option_bind yields];
    split_and!; try done; exists (moved st row k); split;
    [eapply plays_app; [exact Hp | apply Hs, Ht] |];
    apply (tracks_moved _ _ row k) in Ht; [| done | done]; destruct x as [[] ?]; exact Ht.
Qed.

Lemma draw_el_ok row k bgc x :
  tracked x → 0 <= row < R → 0 <= k < C → color_typed bgc →
  yields (draw_el ti_expand row k C bgc x) (λ x', tracked x' ∧
    shadow x'.1 = fill (row * C + k) (row * C + C) (vt_cell_erase bgc) (shadow x.1)).
Proof.
  intros Ht Hr Hk Hb. pose proof (blank_frame_cell bgc Hb) as Hblank. unfold draw_el.
  eapply yields_seq; [apply (sgr_ok (vt_cell_erase bgc)); [done | apply Hblank] |].
  intros x1 (Ht1 & (Hs1 & _ & _) & Hpen).
  eapply yields_seq; [by apply el_place_ok |]. intros x2 (Hs2 & Er2 & (st & Hp2 & Ht2) & Hbg).
  destruct (step_erase_line tbl on_dcs R C st (tk_client _ _ Ht2)) as
    (st' & Hps & Hc' & Hkeep & Hpen' & Hcr & Hcc & Hcells).
  pose proof (tk_size _ _ Ht2) as Hsz. cbn [with_rd at_pos fst shadow] in Hsz.
  rewrite shadow_set_el_ok; [| exact Hsz | apply Ht2 | done | lia].
  cbn [mbind option_bind yields with_rd emit_str fst snd with_shadow at_pos shadow].
  split; [| by rewrite Hs2, Hs1].
  exists st'. split; [by eapply plays_app |].
  destruct (tk_cursor _ _ Ht2) as [Hcr2 Hcc2]; [done | done |]. cbn [with_rd at_pos fst cur_row cur_col] in Hcr2, Hcc2.
  assert (bg st = bgc) as Hbgc.
  { pose proof (tk_pen _ _ Ht2) as Hpn. unfold pen_of in Hpn. injection Hpn as _ _ ->. cbn [with_rd at_pos fst cur_bg].
    rewrite Hbg. by injection Hpen. }
  rewrite Hcr2, Hcc2, Hbgc in Hcells. destruct Hkeep as (Hm & _).
  destruct Ht2. cbn [with_rd fst at_pos shadow] in *. constructor; try done;
    cbn [shadow at_pos with_shadow emit_str fst cur_row cur_col cur_vis].
  - by rewrite zlen_fill.
  - by eapply shows_el.
  - by apply Forall_fill.
  - rewrite Er2. intros _ _. split; congruence.
  - by rewrite Hm.
  - rewrite Hpen'. exact tk_pen0.
Qed.

(** ** Rows

    The frame to show, and its rows as the code reads them. *)
Context (frame : list vt_cell) (Hsize : zlen frame = R * C) (Hframe : Forall frame_cell frame).

Local Notation "'cs_of' row" := (frame_row frame C row) (at level 10).

Lemma frame_row_eq row col : (cs_of row) col = aget frame (row * C + col).
Proof. done. Qed.

Lemma frame_at row col :
  0 <= row < R → 0 <= col < C → ∃ c, aget frame (row * C + col) = Some c ∧ frame_cell c.
Proof.
  intros Hr Hc. pose proof (cell_index row col Hr Hc). destruct (aget_in frame (row * C + col)) as [c Ec]; [lia |].
  exists c. split; [done |]. by eapply (proj1 (Forall_aget _ _)).
Qed.

Lemma shadow_at x row col :
  tracked x → 0 <= row < R → 0 <= col < C →
  ∃ s, shadow_cell x.1 row col = Some s ∧ aget (shadow x.1) (row * C + col) = Some s ∧ frame_cell s.
Proof.
  intros (st & _ & Ht) Hr Hc. pose proof (cell_index row col Hr Hc). pose proof (tk_size _ _ Ht).
  destruct (aget_in (shadow x.1) (row * C + col)) as [s Es]; [lia |]. exists s.
  unfold shadow_cell. rewrite (tk_cols _ _ Ht). split_and!; [done | done |].
  eapply (proj1 (Forall_aget _ _)); [apply Ht | exact Es].
Qed.

(** *** The trailing run *)

Definition trail_cell (bgc : vt_color) (c : vt_cell) : Prop :=
  is_space c = true ∧ cell_attrs c = 0 ∧ cell_bg c = bgc.

Lemma trail_scan_ok row n found :
  0 <= row < R → Z.of_nat n <= C →
  yields (trail_scan (cs_of row) n found) (λ '(k, found'), 0 <= k <= Z.of_nat n ∧
    (∀ b, found = Some b → found' = Some b) ∧
    ∀ j c b, k <= j < Z.of_nat n → aget frame (row * C + j) = Some c → found' = Some b → trail_cell b c).
Proof.
  intros Hr. revert found; induction n as [|n IH]; intros found Hn.
  { simpl. split_and!; [lia | lia | done |]. intros; lia. }
  destruct (frame_at row (Z.of_nat n) Hr ltac:(lia)) as (c & Ec & Hc). cbn [trail_scan].
  rewrite frame_row_eq, Ec. cbn [mbind option_bind].
  assert (∀ found0, yields (Some (Z.of_nat (S n), found0)) (λ '(k, found'), 0 <= k <= Z.of_nat (S n) ∧
    (∀ b, found0 = Some b → found' = Some b) ∧
    ∀ j c b, k <= j < Z.of_nat (S n) → aget frame (row * C + j) = Some c → found' = Some b → trail_cell b c)) as Hstop.
  { intros found0. simpl. split_and!; [lia | lia | done |]. intros; lia. }
  destruct (is_space c) eqn:Esp; [| apply Hstop]. cbn [negb orb].
  destruct (Z.eqb_spec (cell_attrs c) 0) as [Ea|]; [| apply Hstop]. cbn [negb].
  assert (∀ b, cell_bg c = b → yields (trail_scan (cs_of row) n (Some b)) (λ '(k, found'), 0 <= k <= Z.of_nat (S n) ∧
    found' = Some b ∧
    ∀ j c b', k <= j < Z.of_nat (S n) → aget frame (row * C + j) = Some c → found' = Some b' → trail_cell b' c)) as Hgo.
  { intros b Eb. eapply yields_mono; [apply IH; lia |]. intros [k found'] (Hk & Hb & Hrun).
    specialize (Hb b eq_refl). split_and!; [lia | lia | done |]. intros j c' b' Hj Ec' Eb'.
    destruct (decide (j = Z.of_nat n)) as [->|]; [| apply (Hrun j); (done || lia)].
    simplify_eq. by split_and!. }
  destruct found as [b|].
  - rewrite color_eq_spec. destruct (bool_decide_reflect (cell_bg c = b)) as [Eb|]; [| apply Hstop].
    eapply yields_mono; [by apply Hgo |]. intros [k found'] (Hk & -> & Hrun).
    split_and!; [lia | lia | by intros ? [= <-] | done].
  - eapply yields_mono; [by apply Hgo |]. intros [k found'] (Hk & -> & Hrun).
    split_and!; [lia | lia | done | done].
Qed.

Lemma find_trail_ok row :
  0 <= row < R →
  yields (find_trail_el (cs_of row) C) (λ o, ∀ k bgc, o = Some (k, bgc) → 0 <= k < C ∧ color_typed bgc ∧
    ∀ j c, k <= j < C → aget frame (row * C + j) = Some c → trail_cell bgc c).
Proof.
  intros Hr. unfold find_trail_el. destruct (decide (0 <= C)) as [HC0|].
  2: { replace (Z.to_nat C) with O by lia. simpl. intros. done. }
  eapply yields_seq; [apply (trail_scan_ok row (Z.to_nat C) None Hr); lia |].
  intros [k found] (Hk & _ & Hrun). rewrite Z2Nat.id in * by lia.
  destruct found as [b|]; [| simpl; done]. simpl. intros k' bgc.
  destruct (is_default b); [done |]. destruct (Z.ltb_spec (C - k) 3); [done |]. simpl. intros [= <- <-].
  split; [lia |]. assert (∀ j c, k <= j < C → aget frame (row * C + j) = Some c → trail_cell b c) as Hrun'
    by (intros; by eapply Hrun). split; [| done].
  destruct (frame_at row k Hr ltac:(lia)) as (c & Ec & Hc). destruct (Hrun' k c ltac:(lia) Ec) as (_ & _ & <-).
  apply Hc.
Qed.

Lemma el_needed_ok x row bgc n k :
  tracked x → 0 <= row < R → 0 <= k → k + Z.of_nat n <= C →
  yields (el_needed x.1 row bgc n k) (λ _, True).
Proof.
  intros Ht Hr. revert k; induction n as [|n IH]; intros k Hk Hn; [done |]. cbn [el_needed].
  destruct (shadow_at x row k Ht Hr ltac:(lia)) as (s & -> & _). cbn [mbind option_bind].
  case_match; [done | apply IH; lia].
Qed.

(** *** Changed cells *)

Definition unchanged x (row col : Z) : Prop :=
  aget frame (row * C + col) = aget (shadow x.1) (row * C + col).

Lemma compare_cell x row col :
  tracked x → 0 <= row < R → 0 <= col < C →
  ∃ c s, (cs_of row) col = Some c ∧ shadow_cell x.1 row col = Some s ∧ frame_cell c ∧
    aget frame (row * C + col) = Some c ∧ aget (shadow x.1) (row * C + col) = Some s ∧
    (cell_eq c s = true ↔ unchanged x row col).
Proof.
  intros Ht Hr Hc. destruct (frame_at row col Hr Hc) as (c & Ec & Hfc).
  destruct (shadow_at x row col Ht Hr Hc) as (s & Es & Es' & Hfs). exists c, s. split_and!; try done.
  rewrite cell_eq_frame by done. unfold unchanged. rewrite Ec, Es', bool_decide_eq_true.
  split; [by intros -> | by intros [= ->]].
Qed.

Lemma row_changes_ok x row hi :
  tracked x → 0 <= row < R → 0 <= hi <= C →
  yields (row_changes x.1 row hi (cs_of row)) (λ '(first, last),
    (first < 0 ∧ ∀ j, 0 <= j < hi → unchanged x row j) ∨
    (0 <= first <= last ∧ last < hi ∧ ¬ unchanged x row first ∧ ¬ unchanged x row last ∧
     ∀ j, 0 <= j < hi → ¬ (first <= j <= last) → unchanged x row j)).
Proof.
  intros Ht Hr Hhi. unfold row_changes.
  apply (for_up_inv (λ k '(first, last),
    (first < 0 ∧ ∀ j, 0 <= j < k → unchanged x row j) ∨
    (0 <= first <= last ∧ last < k ∧ ¬ unchanged x row first ∧ ¬ unchanged x row last ∧
     ∀ j, 0 <= j < k → ¬ (first <= j <= last) → unchanged x row j))); [lia | left; split; [lia | intros; lia] |].
  intros k [first last] Hk Hinv.
  destruct (compare_cell x row k Ht Hr ltac:(lia)) as (c & s & -> & -> & _ & _ & _ & Heq).
  cbn [mbind option_bind yields]. destruct (cell_eq c s) eqn:E.
  - assert (unchanged x row k) as Hu by (by apply Heq).
    destruct Hinv as [[Hf Hall]|(Hf & Hl & Hcf & Hcl & Hall)]; [left | right].
    + split; [done |]. intros j Hj. destruct (decide (j = k)) as [->|]; [done | apply Hall; lia].
    + split_and!; try (done || lia). intros j Hj Hnot.
      destruct (decide (j = k)) as [->|]; [done | apply Hall; [lia | done]].
  - assert (¬ unchanged x row k) as Hu by (intros H; apply Heq in H; congruence). cbn [fst]. right.
    destruct Hinv as [[Hf Hall]|(Hf & Hl & Hcf & Hcl & Hall)].
    + destruct (Z.ltb_spec first 0); [| lia]. split_and!; try (done || lia).
      intros j Hj Hnot. apply Hall. lia.
    + destruct (Z.ltb_spec first 0); [lia |]. split_and!; try (done || lia).
      intros j Hj Hnot. apply Hall; lia.
Qed.

Lemma gap_scan_ok x row n k :
  tracked x → 0 <= row < R → 0 <= k → k + Z.of_nat n <= C →
  yields (gap_scan x.1 row (cs_of row) n k) (λ g, k <= g <= k + Z.of_nat n ∧
    (∀ j, k <= j < g → unchanged x row j) ∧ (g < k + Z.of_nat n → ¬ unchanged x row g)).
Proof.
  intros Ht Hr. revert k; induction n as [|n IH]; intros k Hk Hn.
  { simpl. split_and!; intros; lia. }
  cbn [gap_scan].
  destruct (compare_cell x row k Ht Hr ltac:(lia)) as (c & s & -> & -> & _ & _ & _ & Heq).
  cbn [mbind option_bind]. destruct (cell_eq c s) eqn:E.
  - eapply yields_mono; [apply IH; lia |]. intros g (Hg & Hall & Hstop).
    split; [lia |]. split; [| intros; apply Hstop; lia]. intros j Hj.
    destruct (decide (j = k)) as [->|]; [by apply Heq | apply Hall; lia].
  - simpl. split_and!; [lia | lia | intros; lia |]. intros _ H. apply Heq in H. congruence.
Qed.

(** The shadow with columns [lo, hi] of a row replaced by the frame's. *)
Definition copied (row lo hi : Z) (s s' : list vt_cell) : Prop :=
  ∀ i, aget s' i = if (row * C + lo <=? i) && (i <=? row * C + hi) then aget frame i else aget s i.

Lemma copied_none row lo s : copied row lo (lo - 1) s s.
Proof. intros i. zbool. Qed.

Lemma copied_keep row lo hi s s' :
  aget frame (row * C + lo) = aget s (row * C + lo) → copied row (lo + 1) hi s s' → lo <= hi →
  copied row lo hi s s'.
Proof.
  intros He Hc Hle i. rewrite Hc.
  destruct (decide (i = row * C + lo)) as [->|Hne]; [rewrite <- He; zbool | zbool].
Qed.

Lemma copied_set row lo hi c s s' :
  aget frame (row * C + lo) = Some c → 0 <= row * C + lo < zlen s →
  copied row (lo + 1) hi (<[Z.to_nat (row * C + lo) := c]> s) s' → lo <= hi → copied row lo hi s s'.
Proof.
  intros He Hin Hc Hle i. rewrite Hc, aget_insert by lia.
  destruct (decide (row * C + lo = i)) as [<-|Hne]; [rewrite <- He; zbool | zbool].
Qed.

(** The drawing loop.  A cell drawn over is where the cursor is, because the
    cell before it has just been drawn. *)
Lemma diff_cells_ok fuel row last col x :
  tracked x → 0 <= row < R → 0 <= col → last < C → last - col + 1 <= Z.of_nat fuel → col <= last + 1 →
  (cur_row x.1 = row ∧ cur_col x.1 = col ∨ last < col ∨ ¬ unchanged x row col) →
  (col <= last → ¬ unchanged x row last) →
  yields (diff_cells ti_expand fuel row (cs_of row) last col x) (λ x',
    tracked x' ∧ copied row col last (shadow x.1) (shadow x'.1)).
Proof.
  intros Ht Hr. revert col x Ht; induction fuel as [|fuel IH]; intros col x Ht Hcol Hlast Hfuel Hle Hat Hch;
    cbn [diff_cells]; destruct (Z.ltb_spec last col) as [Hend|Hgo]; try lia.
  1,2: simpl; split; [done |]; assert (last = col - 1) as -> by lia; apply copied_none.
  destruct (compare_cell x row col Ht Hr ltac:(lia)) as (c & s & -> & -> & Hfc & Ec & Es & Heq).
  assert (0 <= row * C + col < zlen (shadow x.1)) as Hin by (by apply aget_Some in Es).
  cbn [mbind option_bind]. destruct (cell_eq c s) eqn:E.
  - assert (unchanged x row col) as Hu by (by apply Heq).
    destruct Hat as [[Er Ecol]|[?|?]]; [| lia | done].
    eapply yields_seq; [apply (gap_scan_ok x row (Z.to_nat (last - col)) (col + 1)); [done | done | lia | lia] |].
    intros g (Hg & Hall & Hstop). rewrite Z2Nat.id in * by lia.
    assert (unchanged x row last → False) as Hlc by (intros; by apply Hch).
    assert (col ≠ last) by (intros ->; by apply Hlc).
    assert (g <= last) as Hgl.
    { destruct (decide (g <= last)); [done |]. exfalso. apply Hlc, Hall. lia. }
    rewrite (proj2 (Z.leb_le g last)) by done. cbn [andb].
    destruct (g - col <=? OVERDRAW_MAX).
    + eapply yields_seq; [apply (overdraw_ok row col c x); try done; [lia |] |].
      { unfold unchanged in Hu. by rewrite <- Hu. }
      intros x1 (Ht1 & Hs1 & Er1 & Ec1).
      eapply yields_mono; [apply (IH (col + 1) x1 Ht1); try lia |].
      * unfold unchanged. rewrite Hs1. tauto.
      * intros x2 (Ht2 & Hc2). split; [done |]. rewrite Hs1 in Hc2. by apply copied_keep.
    + eapply yields_mono; [apply (IH g x Ht); try lia; try done |].
      * right. right. apply Hstop. lia.
      * intros x2 (Ht2 & Hc2). split; [done |]. intros i. rewrite Hc2.
        destruct (Z.leb_spec (row * C + g) i), (Z.leb_spec (row * C + col) i), (Z.leb_spec i (row * C + last));
          simpl; try done; try lia.
        replace i with (row * C + (i - row * C)) by lia. symmetry.
        destruct (decide (i = row * C + col)) as [->|]; [replace (row * C + col - row * C) with col by lia; done |].
        apply Hall. lia.
  - eapply yields_seq; [apply (draw_ok row col c x); (done || lia) |].
    intros x1 (Ht1 & Hs1 & Er1 & Ec1).
    eapply yields_mono; [apply (IH (col + 1) x1 Ht1); try lia |].
    + intros Hle1. unfold unchanged in *. rewrite Hs1, aget_insert by lia.
      rewrite decide_False by lia. by apply Hch.
    + intros x2 (Ht2 & Hc2). split; [done |]. rewrite Hs1 in Hc2. by eapply copied_set.
Qed.

(** *** Whole rows

    The foreground of an unstyled space cannot be seen, and erasing forgets it. *)
Definition norm (c : vt_cell) : vt_cell :=
  if is_space c && (cell_attrs c =? 0) then {| c with cell_fg := VT_COLOR_DEFAULT |} else c.

Definition like (s : list vt_cell) (row : Z) : Prop :=
  ∀ col, 0 <= col < C → norm <$> aget frame (row * C + col) = norm <$> aget s (row * C + col).

(** [x'] is [x] with one row brought to the frame's. *)
Definition row_shown (row : Z) x x' : Prop :=
  tracked x' ∧ like (shadow x'.1) row ∧
  ∀ i, ¬ (row * C <= i < row * C + C) → aget (shadow x'.1) i = aget (shadow x.1) i.

Lemma norm_trail bgc c : frame_cell c → trail_cell bgc c → norm c = norm (vt_cell_erase bgc).
Proof.
  intros (([[_ Hp] _] & _) & Hw) (Hs & Ha & Hb). unfold norm at 1. rewrite Hs, Ha. simpl.
  unfold is_space in Hs. apply orb_true_iff in Hs as [Hs|Hs]; apply Z.eqb_eq in Hs; [| lia].
  destruct c. simpl in *. by subst.
Qed.

Lemma blank_is_clear c : frame_cell c → cell_is_blank c = true → c = vt_cell_clear.
Proof.
  intros (([[_ Hp] _] & _) & Hw) H. unfold cell_is_blank, is_space in H.
  rewrite !andb_true_iff, orb_true_iff, !Z.eqb_eq, !is_default_spec, !bool_decide_eq_true in H.
  destruct H as [[[[Hs|Hs] Ha] Hf] Hb]; [| lia]. destruct c. simpl in *. by subst.
Qed.

Lemma el_row_shown row k bgc x x1 :
  tracked x1 → 0 <= row < R → 0 <= k < C → color_typed bgc →
  (∀ j c, k <= j < C → aget frame (row * C + j) = Some c → trail_cell bgc c) →
  (∀ col, 0 <= col < k → aget frame (row * C + col) = aget (shadow x1.1) (row * C + col)) →
  (∀ i, ¬ (row * C <= i < row * C + C) → aget (shadow x1.1) i = aget (shadow x.1) i) →
  yields (draw_el ti_expand row k C bgc x1) (row_shown row x).
Proof.
  intros Ht Hr Hk Hb Htrail Hpre Hoth. eapply yields_mono; [by apply draw_el_ok |].
  intros x2 (Ht2 & Hs2). split; [done |]. split.
  - intros col Hcol. rewrite Hs2, aget_fill. destruct (frame_at row col Hr Hcol) as (c & Ec & Hc).
    destruct (shadow_at x1 row col Ht Hr Hcol) as (s & _ & Es & _).
    rewrite Es. simpl. destruct (Z.leb_spec (row * C + k) (row * C + col)).
    + destruct (Z.ltb_spec (row * C + col) (row * C + C)); [| lia]. rewrite Ec. simpl. f_equal.
      apply norm_trail; [done | by apply (Htrail col); [lia |]].
    + simpl. rewrite Hpre, Es by lia. done.
  - intros i Hi. rewrite Hs2, aget_fill, <- Hoth by done.
    destruct (aget (shadow x1.1) i); [| done]. simpl. f_equal. zbool.
Qed.

Lemma copied_row_shown row x x1 :
  tracked x1 → (∀ col, 0 <= col < C → aget frame (row * C + col) = aget (shadow x1.1) (row * C + col)) →
  (∀ i, ¬ (row * C <= i < row * C + C) → aget (shadow x1.1) i = aget (shadow x.1) i) →
  row_shown row x x1.
Proof. intros Ht Hrow Hoth. split; [done |]. split; [| done]. intros col Hcol. by rewrite Hrow. Qed.

Lemma full_cells_ok row hi x :
  tracked x → 0 <= row < R → 0 <= hi <= C →
  (∀ col, 0 <= col < C → aget (shadow x.1) (row * C + col) = Some vt_cell_clear) →
  yields (full_cells ti_expand row hi (cs_of row) x) (λ x', tracked x' ∧
    copied row 0 (hi - 1) (shadow x.1) (shadow x'.1)).
Proof.
  intros Ht Hr Hhi Hblank. unfold full_cells.
  apply (for_up_inv (λ k x', tracked x' ∧ copied row 0 (k - 1) (shadow x.1) (shadow x'.1))); [lia | |].
  { split; [done | apply copied_none]. }
  intros k x1 Hk (Ht1 & Hc1). destruct (frame_at row k Hr ltac:(lia)) as (c & Ec & Hc).
  rewrite frame_row_eq, Ec. cbn [mbind option_bind]. replace (k + 1 - 1) with k by lia.
  destruct (cell_is_blank c) eqn:Eb.
  - simpl. split; [done |]. intros i. rewrite Hc1.
    destruct (decide (i = row * C + k)) as [->|]; [| zbool].
    rewrite (Hblank k) by lia. rewrite Ec, (blank_is_clear c Hc Eb). repeat case_match; done.
  - eapply yields_mono; [apply (draw_ok row k c x1); (done || lia) |].
    intros x2 (Ht2 & Hs2 & _). split; [done |]. intros i.
    destruct (shadow_at x1 row k Ht1 Hr ltac:(lia)) as (s & _ & Es & _). apply aget_Some in Es.
    rewrite Hs2, aget_insert, Hc1 by lia. destruct (decide (row * C + k = i)) as [<-|]; [rewrite Ec; zbool | zbool].
Qed.

Lemma full_row_ok row x :
  tracked x → 0 <= row < R →
  (∀ col, 0 <= col < C → aget (shadow x.1) (row * C + col) = Some vt_cell_clear) →
  yields (full_row ti_expand frame C C row x) (row_shown row x).
Proof.
  intros Ht Hr Hblank. destruct Ht as (st & Hp & Htk).
  pose proof (dims_pos _ (tk_client _ _ Htk)) as Hdims. assert (tracked x) as Ht by (by exists st).
  unfold full_row. eapply (yields_seq _ _ (λ o, ∀ k bgc, o = Some (k, bgc) → 0 <= k < C ∧ color_typed bgc ∧
    ∀ j c, k <= j < C → aget frame (row * C + j) = Some c → trail_cell bgc c)).
  { destruct (has_bce x.1); [by apply find_trail_ok | done]. }
  intros [[k bgc]|] Htrail.
  - destruct (Htrail k bgc eq_refl) as (Hk & Hb & Hrun).
    eapply yields_seq; [apply full_cells_ok; (done || lia) |]. intros x1 (Ht1 & Hc1).
    apply el_row_shown; try done.
    + intros col Hcol. rewrite Hc1. zbool.
    + intros i Hi. rewrite Hc1. zbool.
  - eapply yields_mono; [apply full_cells_ok; (done || lia) |]. intros x1 (Ht1 & Hc1).
    apply copied_row_shown; [done | |].
    + intros col Hcol. rewrite Hc1. zbool.
    + intros i Hi. rewrite Hc1. zbool.
Qed.

Lemma sync_ok x s : s = SYNC_BEGIN ∨ s = SYNC_END → tracked x → tracked (emit_str s x).
Proof.
  intros Hs (st & Hp & Ht). exists st. split; [| done]. eapply plays_app; [exact Hp |].
  destruct Hs as [-> | ->]; [apply (step_sync tbl on_dcs st (ch "h")); by left |
                             apply (step_sync tbl on_dcs st (ch "l")); by right].
Qed.

Lemma diff_row_ok row x opened :
  tracked x → 0 <= row < R → yields (diff_row ti_expand frame C C row (x, opened)) (λ '(x', _), row_shown row x x').
Proof.
  intros Ht Hr. destruct Ht as (st & Hp & Htk).
  pose proof (dims_pos _ (tk_client _ _ Htk)) as Hdims. assert (tracked x) as Ht by (by exists st).
  unfold diff_row. eapply (yields_seq _ _ (λ o, ∀ k bgc, o = Some (k, bgc) → 0 <= k < C ∧ color_typed bgc ∧
    ∀ j c, k <= j < C → aget frame (row * C + j) = Some c → trail_cell bgc c)).
  { destruct (has_bce x.1); [by apply find_trail_ok | done]. }
  intros trail Htrail. eapply (yields_seq _ _ (λ el, ∀ k bgc, el = Some (k, bgc) → 0 <= k < C ∧ color_typed bgc ∧
    ∀ j c, k <= j < C → aget frame (row * C + j) = Some c → trail_cell bgc c)).
  { destruct trail as [[k bgc]|]; [| done]. destruct (Htrail k bgc eq_refl) as (Hk & _).
    eapply yields_seq; [apply el_needed_ok; (done || lia) |]. intros need _. simpl.
    destruct need; [done | intros ? ?; done]. }
  clear trail Htrail. intros el Hel.
  set (scan_end := match el with Some (k, _) => k | None => C end).
  assert (0 <= scan_end <= C) as Hse.
  { unfold scan_end. destruct el as [[k bgc]|]; [destruct (Hel k bgc eq_refl); lia | lia]. }
  eapply yields_seq; [by apply row_changes_ok |]. intros [first last] Hch.
  destruct ((first <? 0) && negb (bool_decide (is_Some el))) eqn:Eskip.
  - simpl. apply andb_true_iff in Eskip as [Ef He]. apply negb_true_iff, bool_decide_eq_false in He.
    destruct el; [by destruct He; eexists |]. apply copied_row_shown; [done | | done].
    destruct Hch as [[_ Hall]|?]; [| lia]. intros col Hcol. by apply Hall.
  - set (x1 := if opened then x else emit_str SYNC_BEGIN x).
    assert (tracked x1 ∧ shadow x1.1 = shadow x.1) as [Ht1 Hs1].
    { unfold x1. destruct opened; [done |]. split; [apply sync_ok; [by left | done] | done]. }
    eapply (yields_seq _ _ (λ x', tracked x' ∧
      (∀ col, 0 <= col < scan_end → aget frame (row * C + col) = aget (shadow x'.1) (row * C + col)) ∧
      (∀ i, ¬ (row * C <= i < row * C + C) → aget (shadow x'.1) i = aget (shadow x.1) i))).
    + destruct (Z.leb_spec 0 first) as [Hf|Hf].
      * destruct Hch as [?|(Hfl & Hl & Hcf & Hcl & Hall)]; [lia |].
        eapply yields_seq; [apply (go_ok row first x1); (done || lia) |]. intros x2 (Ht2 & Hs2 & Er2 & Ec2).
        eapply yields_mono; [apply diff_cells_ok; try done; try lia |].
        { intros _. unfold unchanged in *. by rewrite Hs2, Hs1. }
        intros x3 (Ht3 & Hc3). rewrite Hs2, Hs1 in Hc3. split_and!; [done | |].
        -- intros col Hcol. rewrite Hc3. destruct (decide (first <= col <= last)); [zbool |].
           rewrite (Hall col Hcol) by done. zbool.
        -- intros i Hi. rewrite Hc3. zbool.
      * simpl. rewrite Hs1. split_and!; [done | | done]. destruct Hch as [[_ Hall]|?]; [| lia].
        intros col Hcol. by apply Hall.
    + intros x2 (Ht2 & Hrow & Hoth). unfold scan_end in Hrow. destruct el as [[k bgc]|].
      * destruct (Hel k bgc eq_refl) as (Hk & Hb & Hrun).
        eapply yields_seq; [by apply (el_row_shown row k bgc x) |]. by intros x3 H3.
      * simpl. by apply copied_row_shown.
Qed.

(** ** Whole frames *)

Lemma reset_ok x : tracked x → tracked (reset_sgr x) ∧ same_place x (reset_sgr x).
Proof.
  intros (st & Hp & Ht). split; [| by split_and!]. exists (with_pen st plain_pen). split.
  - eapply plays_app; [exact Hp |]. rewrite (tk_caps _ _ Ht). apply cap_sgr0, Ht.
  - destruct Ht. constructor; try done.
    apply (client_keeps st); [done | by repeat split | apply wf_with_pen; by apply cl_wf].
Qed.

Lemma with_vis_client st m :
  client st → m = set_bits (modes st) VT_MODE_CURSOR_VIS ∨ m = clear_bits (modes st) VT_MODE_CURSOR_VIS →
  client (set_modes st m).
Proof.
  intros [Hwf Hi Ho Ha] Hm. constructor; [| | | done].
  - destruct Hm as [-> | ->]; [by apply wf_add_mode | by apply wf_del_mode].
  - cbn [modes set_modes]. destruct Hm as [-> | ->]; [by rewrite has_bits_set, Hi | by rewrite has_bits_clear].
  - cbn [modes set_modes]. destruct Hm as [-> | ->]; [by rewrite has_bits_set, Ho | by rewrite has_bits_clear].
Qed.

(** Cursor visibility; the mode is then the one asked for. *)
Lemma vis_ok vis x :
  tracked x → 0 <= vis → tracked (emit_cursor_vis vis x) ∧ same_place x (emit_cursor_vis vis x) ∧
  cur_vis (emit_cursor_vis vis x).1 = vis.
Proof.
  intros (st & Hp & Ht) Hv. unfold emit_cursor_vis.
  destruct (Z.eqb_spec vis (cur_vis x.1)) as [E|Hne]; [split_and!; [by exists st | done ..] |].
  assert (∀ r m, (m = set_bits (modes st) VT_MODE_CURSOR_VIS ∨ m = clear_bits (modes st) VT_MODE_CURSOR_VIS) →
    has_bits m VT_MODE_CURSOR_VIS = negb (vis =? 0) → r = with_vis vis x.1 →
    tracks r (set_modes st m)) as Hset.
  { intros r m Hm Hb ->. pose proof (with_vis_client st m (tk_client _ _ Ht) Hm).
    destruct Ht. constructor; try done. by right. }
  pose proof (tk_caps _ _ Ht) as Hcaps.
  destruct (Z.eqb_spec vis 0) as [->|Hnz]; cbn [negb]; (split; [| by split_and!]).
  - exists (del_mode st VT_MODE_CURSOR_VIS). split.
    + eapply plays_app; [exact Hp |]. cbn [with_rd with_vis fst rd_txl]. rewrite Hcaps. apply cap_civis, Ht.
    + apply Hset; [by right | apply has_bits_cleared | done].
  - exists (add_mode st VT_MODE_CURSOR_VIS). split.
    + eapply plays_app; [exact Hp |]. cbn [with_rd with_vis fst rd_txl]. rewrite Hcaps. apply cap_cnorm, Ht.
    + apply Hset; [by left | | done]. rewrite has_bits_set.
      apply orb_true_r.
Qed.

(** What a renderer needs before its first full redraw. *)
Record startable r st : Prop := {
  sb_client : client st;
  sb_rows : rd_rows r = R;
  sb_cols : rd_cols r = C;
  sb_caps : rd_txl r = t;
  sb_size : zlen (shadow r) = R * C;
  sb_vis : cur_vis r = -1 ∨ has_bits (modes st) VT_MODE_CURSOR_VIS = negb (cur_vis r =? 0);
}.

Lemma tracks_startable r st : tracks r st → startable r st.
Proof. intros []. by constructor. Qed.

Lemma full_head_ok x st :
  plays st0 x.2 st → startable x.1 st →
  yields (full_head x) (λ x', tracked x' ∧
    ∀ row col, 0 <= row < R → 0 <= col < C → aget (shadow x'.1) (row * C + col) = Some vt_cell_clear).
Proof.
  intros Hp [Hc Hrows Hcols Hcaps Hsz Hvis]. pose proof (dims_pos _ Hc) as Hdims.
  unfold full_head, shadow_clear. cbn [emit_clear_screen reset_sgr emit_cap emit_str with_rd fst snd rd_rows rd_cols shadow
    with_style]. rewrite Hrows, Hcols, for_up_fill by lia. cbn [mbind option_bind yields].
  set (s' := fill 0 (R * C) vt_cell_clear (shadow x.1)).
  assert (∀ row col, 0 <= row < R → 0 <= col < C → aget s' (row * C + col) = Some vt_cell_clear) as Hclear.
  { intros row col Hr Hcol. pose proof (cell_index row col Hr Hcol). unfold s'. rewrite aget_fill.
    destruct (aget_in (shadow x.1) (row * C + col)) as [s ->]; [lia |]. simpl. f_equal. zbool. }
  split; [| exact Hclear].
  destruct (cap_clear (t := t) (with_pen st plain_pen)) as (st2 & Hp2 & Hc2 & Hk2 & Hpen2 & Hr2 & Hcc2 & Hcells2).
  { apply (client_keeps st); [done | by repeat split | apply wf_with_pen, Hc]. }
  exists st2. split.
  - cbn [snd fst with_style rd_txl]. rewrite !Hcaps.
    eapply plays_app; [eapply plays_app; [eapply plays_app; [exact Hp | apply (step_sync tbl on_dcs st (ch "h")); by left] |] |].
    + by apply cap_sgr0.
    + exact Hp2.
  - destruct Hk2 as (Hm2 & _). constructor; cbn [at_pos with_shadow with_style fst rd_rows rd_cols rd_txl shadow cur_row cur_col
      cur_vis cur_attrs cur_fg cur_bg]; try done.
    + unfold s'. by rewrite zlen_fill.
    + intros row Hrow. rewrite Hcells2. destruct (cur_buf_ok _ _ _ (cl_wf _ Hc)) as (b & Hb & h & Hrep).
      destruct (buf_repr_row_in _ _ _ _ row Hrep Hrow) as (vr & Ev & Hok).
      assert (row_cells (with_pen st plain_pen) row = Some (VtBuf.cells vr)) as ->.
      { rewrite row_cells_with_pen. unfold row_cells. rewrite Hb. cbn [mbind option_bind]. by rewrite Ev. }
      eexists. split; [reflexivity |]. rewrite zlen_fill. split; [exact Hok |].
      intros col Hcol. rewrite Hclear, aget_fill by done.
      destruct (aget_in (VtBuf.cells vr) col) as [v ->]; [unfold row_ok in Hok; lia |]. simpl. f_equal. zbool.
    + apply Forall_aget. intros i v Ei. pose proof (aget_Some _ _ _ Ei) as Hi. unfold s' in Hi. rewrite zlen_fill, Hsz in Hi.
      destruct (row_index (R := R) (C := C) i ltac:(lia) Hi) as (row & col & Hr & Hcol & ->). rewrite Hclear in Ei by done.
      injection Ei as <-. by apply (blank_frame_cell VT_COLOR_DEFAULT).
    + by rewrite Hm2.
Qed.

(** The terminal shows the frame, with the cursor where and as it should be. *)
Definition displays (crow ccol vis : Z) st : Prop :=
  (∀ row, 0 <= row < R → ∃ cs, row_cells st row = Some cs ∧ zlen cs = C ∧
     ∀ col, 0 <= col < C → norm <$> aget cs col = norm <$> aget frame (row * C + col)) ∧
  cursor_row st = crow ∧ cursor_col st = ccol ∧
  has_bits (modes st) VT_MODE_CURSOR_VIS = negb (vis =? 0).

Definition shown_frame (crow ccol vis : Z) x : Prop :=
  ∃ st, plays st0 x.2 st ∧ tracks x.1 st ∧ displays crow ccol vis st.

Lemma shown_frame_intro crow ccol vis x :
  tracked x → (∀ row, 0 <= row < R → like (shadow x.1) row) →
  0 <= crow < R → 0 <= ccol < C → 0 <= vis → cur_row x.1 = crow → cur_col x.1 = ccol → cur_vis x.1 = vis →
  shown_frame crow ccol vis x.
Proof.
  intros (st & Hp & Ht) Hlike Hr Hc Hv Er Ec Ev. exists st. split; [done |]. split; [done |].
  destruct (tk_cursor _ _ Ht ltac:(lia) ltac:(lia)) as [? ?]. split; [| split_and!; [congruence | congruence |]].
  - intros row Hrow. destruct (tk_shadow _ _ Ht row Hrow) as (cs & Ecs & Hz & Hcs). exists cs.
    split_and!; [done | done |]. intros col Hcol. by rewrite Hcs, Hlike.
  - destruct (tk_vis _ _ Ht) as [?|?]; [lia | congruence].
Qed.

(** The tail the two renderers share, with the cursor already placed. *)
Lemma finish_ok crow ccol vis x :
  tracked x → (∀ row, 0 <= row < R → like (shadow x.1) row) →
  0 <= crow < R → 0 <= ccol < C → 0 <= vis → cur_row x.1 = crow → cur_col x.1 = ccol →
  shown_frame crow ccol vis (emit_str SYNC_END (emit_cursor_vis vis x)).
Proof.
  intros Ht Hlike Hr Hc Hv Er Ec. destruct (vis_ok vis x Ht Hv) as (Ht1 & (Hs1 & Er1 & Ec1) & Ev1).
  apply shown_frame_intro; try done; cbn [emit_str fst]; [| | congruence | congruence].
  - apply sync_ok; [by right | done].
  - intros row Hrow. rewrite Hs1. by apply Hlike.
Qed.

Lemma like_other s s' row k :
  row ≠ k → 0 < C → (∀ i, ¬ (k * C <= i < k * C + C) → aget s' i = aget s i) → like s row → like s' row.
Proof.
  intros Hne HC0 Hoth Hl col Hcol. rewrite Hoth; [by apply Hl |]. intros H.
  apply Hne. nia.
Qed.

Lemma render_cells_full_ok crow ccol vis x st :
  plays st0 x.2 st → startable x.1 st → 0 <= crow < R → 0 <= ccol < C → 0 <= vis →
  yields (render_cells_full ti_expand frame R C crow ccol vis x) (shown_frame crow ccol vis).
Proof.
  intros Hp Hsb Hcr Hcc Hv. pose proof (dims_pos _ (sb_client _ _ Hsb)) as Hdims.
  unfold render_cells_full. rewrite (sb_rows _ _ Hsb), (sb_cols _ _ Hsb), !Z.min_id.
  eapply yields_seq; [by eapply full_head_ok |]. intros x1 (Ht1 & Hclear).
  eapply (yields_seq _ _ (λ x', tracked x' ∧ ∀ row, 0 <= row < R → like (shadow x'.1) row)).
  { eapply yields_mono; [apply (for_up_inv (λ k x', tracked x' ∧ (∀ row, 0 <= row < k → like (shadow x'.1) row) ∧
      ∀ row col, k <= row < R → 0 <= col < C → aget (shadow x'.1) (row * C + col) = Some vt_cell_clear)) |];
      [lia | | |].
    - split_and!; [done | intros; lia |]. intros row col Hr Hcol. by apply Hclear.
    - intros k x2 Hk (Ht2 & Hdone & Htodo).
      eapply yields_mono; [apply full_row_ok; [done | done |] |].
      { intros col Hcol. apply Htodo; lia. }
      intros x3 (Ht3 & Hl3 & Hoth). split_and!; [done | |].
      + intros row Hr. destruct (decide (row = k)) as [->|]; [done |].
        eapply like_other; [| | exact Hoth | apply Hdone]; lia.
      + intros row col Hr Hcol. rewrite Hoth; [apply Htodo; lia |]. nia.
    - intros x2 (Ht2 & Hdone & _). split; [done |]. intros row Hr. by apply Hdone. }
  intros x2 (Ht2 & Hlike). destruct (reset_ok x2 Ht2) as (Ht3 & Hs3 & _).
  eapply yields_seq; [by apply cup_ok |]. intros x4 (Ht4 & Hs4 & Er4 & Ec4). cbn [yields].
  apply finish_ok; try done. intros row Hr. rewrite Hs4, Hs3. by apply Hlike.
Qed.

(** A row that may be skipped shows the frame already. *)
Definition dirty_ok (row_dirty : option (list Z)) (s : list vt_cell) : Prop :=
  match row_dirty with
  | Some d => zlen d = R ∧ ∀ row, 0 <= row < R → aget d row = Some 0 → like s row
  | None => True
  end.

Lemma render_cells_diff_ok crow ccol vis row_dirty x :
  tracked x → dirty_ok row_dirty (shadow x.1) → 0 <= crow < R → 0 <= ccol < C → 0 <= vis →
  yields (render_cells_diff ti_expand frame R C crow ccol vis row_dirty x) (shown_frame crow ccol vis).
Proof.
  intros Ht Hd Hcr Hcc Hv. destruct Ht as (st & Hp & Htk).
  pose proof (dims_pos _ (tk_client _ _ Htk)) as Hdims. assert (tracked x) as Ht by (by exists st).
  unfold render_cells_diff. rewrite (tk_rows _ _ Htk), (tk_cols _ _ Htk), !Z.min_id.
  eapply (yields_seq _ _ (λ '(x', _), tracked x' ∧ ∀ row, 0 <= row < R → like (shadow x'.1) row)).
  { eapply yields_mono; [apply (for_up_inv (λ k '(x', _), tracked x' ∧ (∀ row, 0 <= row < k → like (shadow x'.1) row) ∧
      ∀ row col, k <= row < R → 0 <= col < C →
        aget (shadow x'.1) (row * C + col) = aget (shadow x.1) (row * C + col))) |]; [lia | | |].
    - split_and!; [done | intros; lia | done].
    - intros k [x2 o] Hk (Ht2 & Hdone & Htodo). unfold diff_dirty_row.
      eapply (yields_seq _ _ (λ skip, skip = true → like (shadow x2.1) k)).
      { destruct row_dirty as [d|]; [| done]. destruct Hd as [Hz Hd].
        destruct (aget_in d k) as [v Ev]; [lia |]. rewrite Ev. simpl. intros ->%Z.eqb_eq col Hcol.
        rewrite Htodo by lia. by apply Hd. }
      intros [] Hskip.
      + simpl. split_and!; [done | |].
        * intros row Hr. destruct (decide (row = k)) as [->|]; [by apply Hskip | apply Hdone; lia].
        * intros row col Hr Hcol. apply Htodo; lia.
      + eapply yields_mono; [by apply diff_row_ok |]. intros [x3 o3] (Ht3 & Hl3 & Hoth). split_and!; [done | |].
        * intros row Hr. destruct (decide (row = k)) as [->|]; [done |].
          eapply like_other; [| | exact Hoth | apply Hdone]; lia.
        * intros row col Hr Hcol. rewrite Hoth; [apply Htodo; lia |]. nia.
    - intros [x2 o] (Ht2 & Hdone & _). split; [done |]. intros row Hr. by apply Hdone. }
  intros [x1 o] (Ht1 & Hlike).
  destruct (negb o && is_at x1 crow ccol && (vis =? cur_vis x1.1)) eqn:Equiet.
  - simpl. rewrite !andb_true_iff, Z.eqb_eq in Equiet. destruct Equiet as [[_ Hat] Ev].
    unfold is_at in Hat. rewrite andb_true_iff, !Z.eqb_eq in Hat. destruct Hat.
    by apply shown_frame_intro.
  - set (x2 := if o then reset_sgr x1 else emit_str SYNC_BEGIN x1).
    assert (tracked x2 ∧ shadow x2.1 = shadow x1.1) as [Ht2 Hs2].
    { unfold x2. destruct o; [split; by apply reset_ok |]. split; [apply sync_ok; [by left | done] | done]. }
    eapply yields_seq; [by apply go_ok |]. intros x3 (Ht3 & Hs3 & Er3 & Ec3). cbn [yields].
    apply finish_ok; try done. intros row Hr. rewrite Hs3, Hs2. by apply Hlike.
Qed.
End Tracking.

(** ** Sequences of frames *)

Record frame := mk_frame {
  fr_cells : list vt_cell;
  fr_row : Z;
  fr_col : Z;
  fr_vis : Z;
  fr_dirty : option (list Z);
  fr_full : bool;
}.

(** One frame, redrawn in full or by its differences. *)
Definition render_frame (ti_expand : list Z → list Z → list Z) (R C : Z) (f : frame) (x : rd_out) : option rd_out :=
  if fr_full f then render_cells_full ti_expand (fr_cells f) R C (fr_row f) (fr_col f) (fr_vis f) x
  else render_cells_diff ti_expand (fr_cells f) R C (fr_row f) (fr_col f) (fr_vis f) (fr_dirty f) x.

Fixpoint render_frames (ti_expand : list Z → list Z → list Z) (R C : Z) (fs : list frame) (x : rd_out)
  : option rd_out :=
  match fs with
  | [] => Some x
  | f :: fs' => x ← render_frame ti_expand R C f x; render_frames ti_expand R C fs' x
  end.

Record frame_ok (tbl : rune_width_table) (R C : Z) (f : frame) : Prop := {
  fo_size : zlen (fr_cells f) = R * C;
  fo_cells : Forall (frame_cell tbl) (fr_cells f);
  fo_cursor : 0 <= fr_row f < R ∧ 0 <= fr_col f < C;
  fo_vis : 0 <= fr_vis f;
}.

(** A row not marked dirty looks as it did in the frame before. *)
Definition dirty_sound (R C : Z) (f g : frame) : Prop :=
  match fr_dirty g with
  | Some d => zlen d = R ∧ ∀ row col, 0 <= row < R → 0 <= col < C → aget d row = Some 0 →
      norm <$> aget (fr_cells g) (row * C + col) = norm <$> aget (fr_cells f) (row * C + col)
  | None => True
  end.

Inductive frames_ok (tbl : rune_width_table) (R C : Z) : frame → list frame → Prop :=
  | fs_nil f : frames_ok tbl R C f []
  | fs_cons f g fs : frame_ok tbl R C g → (fr_full g = false → dirty_sound R C f g) → frames_ok tbl R C g fs →
      frames_ok tbl R C f (g :: fs).

Fixpoint last_frame (f : frame) (fs : list frame) : frame :=
  match fs with [] => f | g :: fs' => last_frame g fs' end.

Section Frames.
Context (tbl : rune_width_table) `{!WidthTable tbl}.
Context (on_dcs : vt_state → Z → list Z → option vt_state).
Context (R C : Z).
Context (ti_expand : list Z → list Z → list Z).
Context (t : option txl) `{!Capabilities tbl on_dcs R C ti_expand t}.
Context (st0 : vt_state).

Definition shown (f : frame) (x : rd_out) : Prop :=
  shown_frame tbl on_dcs R C t st0 (fr_cells f) (fr_row f) (fr_col f) (fr_vis f) x.

(** After a frame is shown, the next one's skipped rows are right already. *)
Lemma shown_dirty_ok f g x :
  shown f x → dirty_sound R C f g → dirty_ok R C (fr_cells g) (fr_dirty g) (shadow x.1).
Proof.
  intros (st & _ & Htk & (Hrows & _)) Hd. unfold dirty_sound, dirty_ok in *.
  destruct (fr_dirty g) as [d|]; [| done]. destruct Hd as [Hz Hd]. split; [done |].
  intros row Hr Ed col Hcol. rewrite Hd by done.
  destruct (tk_shadow _ _ _ _ _ _ Htk row Hr) as (cs & Ecs & _ & Hcs).
  destruct (Hrows row Hr) as (cs' & Ecs' & _ & Hcs'). simplify_eq. by rewrite <- Hcs, Hcs'.
Qed.

Lemma render_frames_ok f fs x :
  shown f x → frames_ok tbl R C f fs →
  yields (render_frames ti_expand R C fs x) (shown (last_frame f fs)).
Proof.
  intros Hs Hfs. revert x Hs; induction Hfs as [f|f g fs Hg Hd Hfs IH]; intros x Hs; [done |].
  cbn [render_frames]. eapply (yields_seq _ _ (shown g)).
  - destruct Hg as [? ? [? ?] ?], Hs as (st & Hp & Htk & Hd'). unfold render_frame.
    destruct (fr_full g) eqn:Hf.
    + apply (render_cells_full_ok tbl on_dcs R C ti_expand t st0) with st; try done.
      exact (tracks_startable _ _ _ _ _ _ Htk).
    + apply (render_cells_diff_ok tbl on_dcs R C ti_expand t st0); try done; [by exists st |].
      apply (shown_dirty_ok f); [by exists st | by apply Hd].
  - intros x1 Hx1. exact (IH x1 Hx1).
Qed.

(** *** A frame that is shown already *)

Lemma el_needed_quiet r row bgc n k :
  (∀ j, k <= j < k + Z.of_nat n → ∃ s, shadow_cell r row j = Some s ∧ s = vt_cell_erase bgc) →
  el_needed r row bgc n k = Some false.
Proof.
  revert k; induction n as [|n IH]; intros k H; [done |]. cbn [el_needed].
  destruct (H k ltac:(lia)) as (s & -> & ->). cbn [mbind option_bind].
  change (codepoint (vt_cell_erase bgc) =? ch " ") with true. change (cell_attrs (vt_cell_erase bgc) =? 0) with true.
  change (is_default (cell_fg (vt_cell_erase bgc))) with true. cbn [negb orb].
  change (cell_bg (vt_cell_erase bgc)) with bgc.
  rewrite color_eq_spec, bool_decide_eq_true_2 by done. cbn [negb]. apply IH. intros j Hj. apply H. lia.
Qed.

Lemma diff_row_quiet cells x row :
  zlen cells = R * C → Forall (frame_cell tbl) cells → Forall (λ c, norm c = c) cells →
  tracked tbl on_dcs R C t st0 x → 0 <= row < R → shadow x.1 = cells →
  diff_row ti_expand cells C C row (x, false) = Some (x, false).
Proof.
  intros Hz Hc Hn Ht Hr Hs. unfold diff_row.
  assert (∀ o, (∀ k bgc, o = Some (k, bgc) → 0 <= k < C ∧
      ∀ j c, k <= j < C → aget cells (row * C + j) = Some c → trail_cell bgc c) →
    (match o with
     | Some (k, bg) => need ← el_needed x.1 row bg (Z.to_nat (C - k)) k; Some (if (need : bool) then Some (k, bg) else None)
     | None => Some None
     end) = Some None) as Hel.
  { intros [[k bgc]|] Ho; [| done]. destruct (Ho k bgc eq_refl) as (Hk & Hrun).
    rewrite el_needed_quiet; [done |]. intros j Hj.
    destruct (shadow_at tbl on_dcs R C t st0 x row j Ht Hr ltac:(lia)) as (s & Es & Es' & Hfs).
    exists s. split; [done |]. rewrite Hs in Es'. rewrite Forall_aget in Hn. rewrite <- (Hn _ _ Es').
    by rewrite (norm_trail tbl bgc s Hfs (Hrun j s ltac:(lia) Es')). }
  assert (∃ o, (if has_bce x.1 then find_trail_el (frame_row cells C row) C else Some None) = Some o ∧
    ∀ k bgc, o = Some (k, bgc) → 0 <= k < C ∧
      ∀ j c, k <= j < C → aget cells (row * C + j) = Some c → trail_cell bgc c) as (o & -> & Ho).
  { destruct (has_bce x.1); [| by exists None].
    pose proof (find_trail_ok tbl R C cells Hz Hc row Hr) as H.
    apply yields_Some in H as (o & E & Ho). exists o. split; [done |]. intros k bgc Eo.
    destruct (Ho k bgc Eo) as (? & _ & ?). by split. }
  cbn [mbind option_bind]. rewrite (Hel o Ho). cbn [mbind option_bind].
  assert (0 <= C) as HC0.
  { destruct Ht as (st & _ & Htk). pose proof (dims_pos _ _ _ (tk_client _ _ _ _ _ _ Htk)). lia. }
  pose proof (row_changes_ok tbl on_dcs R C t st0 cells Hz Hc x row C Ht Hr ltac:(lia)) as H.
  apply yields_Some in H as ([first last] & -> & Hch). cbn [mbind option_bind].
  destruct Hch as [[Hf _]|(_ & _ & Hcf & _)].
  - by rewrite (proj2 (Z.ltb_lt first 0) Hf).
  - destruct Hcf. unfold unchanged. by rewrite Hs.
Qed.

Lemma render_quiet_ok f x :
  frame_ok tbl R C f → Forall (λ c, norm c = c) (fr_cells f) → tracked tbl on_dcs R C t st0 x →
  shadow x.1 = fr_cells f → cur_row x.1 = fr_row f → cur_col x.1 = fr_col f → cur_vis x.1 = fr_vis f →
  render_cells_diff ti_expand (fr_cells f) R C (fr_row f) (fr_col f) (fr_vis f) None x = Some x.
Proof.
  intros [Hz Hc _ _] Hn Ht Hs Er Ec Ev. unfold render_cells_diff.
  assert (rd_rows x.1 = R ∧ rd_cols x.1 = C ∧ 0 < R) as (-> & -> & HR0).
  { destruct Ht as (st & _ & Htk). pose proof (dims_pos _ _ _ (tk_client _ _ _ _ _ _ Htk)).
    split_and!; [apply Htk | apply Htk | lia]. }
  rewrite !Z.min_id.
  assert (for_up 0 R (diff_dirty_row ti_expand None (fr_cells f) C C) (x, false) = Some (x, false)) as ->.
  { apply yields_eq. eapply yields_mono; [apply (for_up_inv (λ _ xo, xo = (x, false))); [lia | done |] | by intros ? ->].
    intros row ? Hr ->. unfold diff_dirty_row. cbn [mbind option_bind]. by rewrite diff_row_quiet. }
  cbn [mbind option_bind negb andb]. unfold is_at. by rewrite Er, Ec, Ev, !Z.eqb_refl.
Qed.
End Frames.

(** ** What the renderer promises *)

(** A renderer made for a terminal of its size can start on it. *)
Lemma render_new_startable R C t junk st :
  client R C st → zlen junk = R * C →
  yields (render_new R C t junk) (λ r, startable R C t r st).
Proof.
  intros Hc Hz. pose proof (dims_pos _ _ _ Hc). unfold render_new, shadow_clear. cbn [rd_rows rd_cols shadow].
  rewrite for_up_fill by nia. cbn [mbind option_bind yields].
  constructor; try done; [| by left]. cbn [shadow with_shadow]. by rewrite zlen_fill.
Qed.

(** A session: a new renderer, a full frame, and others. *)
Lemma session_shown tbl `{!WidthTable tbl} on_dcs R C ti_expand t `{!Capabilities tbl on_dcs R C ti_expand t} junk st f fs :
  client R C st → zlen junk = R * C → fr_full f = true → frame_ok tbl R C f → frames_ok tbl R C f fs →
  yields (r ← render_new R C t junk; x ← render_frames ti_expand R C (f :: fs) (r, []); Some (r, x))
    (λ rx, shown tbl on_dcs R C t st (last_frame f fs) rx.2).
Proof.
  intros Hc Hz Hfull Hf Hfs. eapply yields_seq; [by apply render_new_startable |]. intros r Hsb.
  cbn [render_frames]. unfold render_frame. rewrite Hfull. destruct Hf as [? ? [? ?] ?].
  assert (yields (render_cells_full ti_expand (fr_cells f) R C (fr_row f) (fr_col f) (fr_vis f) (r, []))
    (shown tbl on_dcs R C t st f)) as (x1 & -> & Hx1)%yields_Some.
  { apply (render_cells_full_ok tbl on_dcs R C ti_expand t st) with st; try done. apply plays_nil. }
  cbn [mbind option_bind]. eapply yields_seq; [by apply (render_frames_ok tbl on_dcs R C ti_expand t st f) |].
  by intros x Hx.
Qed.

Lemma session_runs ti_expand R C t junk fs (Q : render * rd_out → Prop) :
  yields (r ← render_new R C t junk; x ← render_frames ti_expand R C fs (r, []); Some (r, x)) Q →
  ∃ r, render_new R C t junk = Some r ∧ ∃ x, render_frames ti_expand R C fs (r, []) = Some x ∧ Q (r, x).
Proof.
  intros H. destruct (render_new R C t junk) as [r|]; [| done]. exists r. split; [done |]. cbn [mbind option_bind] in H.
  destruct (render_frames ti_expand R C fs (r, [])) as [x|]; [| done]. by exists x.
Qed.

(** A frame of given codepoints, with a style for each. *)
Definition demo_cell (p : Z) (style : Z * vt_color * vt_color) : vt_cell :=
  let '(a, f, b) := style in
  {| codepoint := p; cell_fg := f; cell_bg := b; cell_attrs := a; cell_width := 1 |}.

Definition plain_style : Z * vt_color * vt_color := (0, VT_COLOR_DEFAULT, VT_COLOR_DEFAULT).
Definition red_style : Z * vt_color * vt_color := (VT_ATTR_BOLD, VT_COLOR_INDEXED 1, VT_COLOR_DEFAULT).
Definition bar_style : Z * vt_color * vt_color := (0, VT_COLOR_DEFAULT, VT_COLOR_RGB 1 2 3).

Definition demo_frame (full : bool) (cells : list vt_cell) : frame := mk_frame cells 1 2 1 None full.

Definition demo_first : frame := demo_frame true
  (map (λ p, demo_cell p red_style) (str "title ") ++ map (λ p, demo_cell p bar_style) (str "abcdef")).
Definition demo_second : frame := demo_frame false
  (map (λ p, demo_cell p red_style) (str "tXtle ") ++ map (λ p, demo_cell p plain_style) (str "ab    ")).

Lemma demo_frame_ok full cells :
  zlen cells = 12 → forallb (λ c, cell_okb table_15_1_0 c && (cell_width c =? 1)) cells = true →
  frame_ok table_15_1_0 2 6 (demo_frame full cells).
Proof.
  intros Hz Hc. constructor; cbn [demo_frame fr_cells fr_row fr_col fr_vis]; try lia.
  rewrite forallb_forall in Hc. apply Forall_forall. intros c Hin%list_elem_of_In.
  specialize (Hc c Hin). apply andb_true_iff in Hc as [Hok Hw%Z.eqb_eq]. split; [by apply cell_okb_sound | done].
Qed.

(** C5: the renderer keeps the terminal showing the frames: for every terminal
    description that does what its capabilities' names say, every client
    terminal and every sequence of frames of narrow cells, the first drawn in
    full and each later one in full or by differences, skipping the rows
    reported unchanged, the renderer is made, every frame is drawn without an
    out-of-range access or a buffer overrun, and the bytes written, played to
    the terminal, leave it showing the last frame cell for cell (up to the
    invisible foreground of an unstyled blank), with the cursor at its place
    and as visible as asked. *)
Theorem render_session_correct tbl on_dcs R C ti_expand t junk st f fs :
  WidthTable tbl → Capabilities tbl on_dcs R C ti_expand t → client R C st → zlen junk = R * C →
  fr_full f = true → frame_ok tbl R C f → frames_ok tbl R C f fs →
  ∃ r r' out st', render_new R C t junk = Some r ∧
    render_frames ti_expand R C (f :: fs) (r, []) = Some (r', out) ∧
    plays tbl on_dcs st out st' ∧ wf_state R C st' ∧
    displays R C (fr_cells (last_frame f fs)) (fr_row (last_frame f fs)) (fr_col (last_frame f fs))
      (fr_vis (last_frame f fs)) st'.
Proof.
  intros Ht Hcap Hc Hz Hfull Hf Hfs.
  pose proof (session_shown tbl on_dcs R C ti_expand t junk st f fs Hc Hz Hfull Hf Hfs)
    as (r & Er & [r' out] & E & st' & Hp & Htk & Hd)%session_runs.
  exists r, r', out, st'. split_and!; [done | done | done | apply Htk | done].
Qed.

Lemma render_session_correct_witness :
  ∃ r r' out st', render_new 2 6 None (replicate 12 cont_cell) = Some r ∧
    render_frames (λ s _, s) 2 6 [demo_first; demo_second] (r, []) = Some (r', out) ∧
    plays table_15_1_0 no_dcs demo_client out st' ∧ wf_state 2 6 st' ∧
    displays 2 6 (fr_cells demo_second) 1 2 1 st'.
Proof.
  assert (WidthTable table_15_1_0) as Ht by builtin_table.
  apply (render_session_correct table_15_1_0 no_dcs 2 6 (λ s _, s) None (replicate 12 cont_cell) demo_client
    demo_first [demo_second]).
  - exact Ht.
  - apply ansi_capabilities; [exact Ht | vm_compute; discriminate | reflexivity].
  - constructor; [apply demo_client_wf | vm_compute; reflexivity | vm_compute; reflexivity | vm_compute; discriminate].
  - vm_compute. reflexivity.
  - reflexivity.
  - apply demo_frame_ok; vm_compute; reflexivity.
  - constructor; [apply demo_frame_ok; vm_compute; reflexivity | intros _; exact I | constructor].
Defined.

(** A frame that is on the screen already costs nothing: when every cell of
    the shadow is the frame's, and the cursor is where it should be and as
    visible, the differential renderer writes no byte and changes no state. *)
Theorem render_quiet tbl on_dcs R C ti_expand t st0 f x :
  WidthTable tbl → frame_ok tbl R C f → Forall (λ c, norm c = c) (fr_cells f) →
  tracked tbl on_dcs R C t st0 x → shadow x.1 = fr_cells f →
  cur_row x.1 = fr_row f → cur_col x.1 = fr_col f → cur_vis x.1 = fr_vis f →
  render_cells_diff ti_expand (fr_cells f) R C (fr_row f) (fr_col f) (fr_vis f) None x = Some x.
Proof. intros Ht Hf Hn Htr Hs Er Ec Ev. by eapply render_quiet_ok. Qed.

(** The first frame of the demonstration, drawn. *)
Definition demo_drawn : rd_out :=
  default (mk_render 0 0 [] None 0 0 0 0 VT_COLOR_DEFAULT VT_COLOR_DEFAULT false, [])
    (r ← render_new 2 6 None (replicate 12 cont_cell);
     render_cells_full (λ s _, s) (fr_cells demo_first) 2 6 1 2 1 (r, [])).

Lemma demo_drawn_tracked : tracked table_15_1_0 no_dcs 2 6 None demo_client demo_drawn.
Proof.
  assert (WidthTable table_15_1_0) as Ht by builtin_table.
  assert (Capabilities table_15_1_0 no_dcs 2 6 (λ s _, s) None) as Hcap.
  { apply ansi_capabilities; [exact Ht | vm_compute; discriminate | reflexivity]. }
  assert (client 2 6 demo_client) as Hc.
  { constructor; [apply demo_client_wf | vm_compute; reflexivity | vm_compute; reflexivity | vm_compute; discriminate]. }
  pose proof (render_new_startable 2 6 None (replicate 12 cont_cell) demo_client Hc eq_refl) as (r & Er & Hsb)%yields_Some.
  destruct (demo_frame_ok true (fr_cells demo_first)) as [Hz Hcs _ _]; [reflexivity | vm_compute; reflexivity |].
  assert (yields (render_cells_full (λ s _, s) (fr_cells demo_first) 2 6 1 2 1 (r, []))
    (shown_frame table_15_1_0 no_dcs 2 6 None demo_client (fr_cells demo_first) 1 2 1)) as (x1 & E1 & Hx1)%yields_Some.
  { apply (render_cells_full_ok table_15_1_0 no_dcs 2 6 (λ s _, s) None demo_client) with demo_client; try (done || lia).
    apply plays_nil. }
  unfold demo_drawn. rewrite Er. cbn [mbind option_bind]. rewrite E1. cbn [default].
  destruct Hx1 as (st & Hp & Htk & _). by exists st.
Qed.

Lemma render_quiet_witness :
  render_cells_diff (λ s _, s) (fr_cells demo_first) 2 6 1 2 1 None demo_drawn = Some demo_drawn.
Proof.
  apply (render_quiet table_15_1_0 no_dcs 2 6 (λ s _, s) None demo_client demo_first).
  - builtin_table.
  - apply demo_frame_ok; vm_compute; reflexivity.
  - repeat constructor.
  - apply demo_drawn_tracked.
  - vm_compute. reflexivity.
  - vm_compute. reflexivity.
  - vm_compute. reflexivity.
  - vm_compute. reflexivity.
Defined.

(** The codepoints and attributes of the only row of a 1 by [C] terminal on
    which the frames were drawn, the first in full and the others by
    differences. *)
Definition drawn_row (C : Z) (frames : list (list vt_cell)) : option (list (Z * Z)) :=
  st ← vt_state_new 1 C 0;
  r ← render_new 1 C None (replicate (Z.to_nat C) vt_cell_clear);
  '(_, out) ← render_frames (λ s _, s) 1 C
    (imap (λ i cs, mk_frame cs 0 0 1 None (Nat.eqb i 0)) frames) (r, []);
  '(_, st') ← vt_feed table_15_1_0 no_dcs (vt_parse_new, st) out;
  cs ← row_cells st' 0;
  Some (map (λ c, (codepoint c, cell_attrs c)) cs).

Definition wide_cell (p : Z) : vt_cell := 
  {| codepoint := p; cell_fg := VT_COLOR_DEFAULT; cell_bg := VT_COLOR_DEFAULT; cell_attrs := 0; cell_width := 2 |}.
Definition plain_cells (s : string) : list vt_cell := map (λ p, demo_cell p plain_style) (str s).

(** Where the differential renderer leaves the terminal wrong.  Change the
    last of the four columns holding a wide character, its continuation, c and
    d to X: the row then shows the character, c, c and X.  (The shadow of the
    continuation is not what the frame has, so the cursor is moved onto it,
    nothing is emitted, and the unchanged c, redrawn without a cursor check
    because the gap is short, lands one column early.)  And a cell that was shown
    dimmed as a prediction is not redrawn when the prediction is confirmed by the
    same character, so it stays dim. *)
Theorem render_limits :
  drawn_row 4 [wide_cell 0x6F22 :: cont_cell :: plain_cells "cd"; wide_cell 0x6F22 :: cont_cell :: plain_cells "cX"]
    = Some [(0x6F22, 0); (ch "c", 0); (ch "c", 0); (ch "X", 0)] ∧
  drawn_row 1 [[demo_cell (ch "a") (VT_ATTR_PREDICTED, VT_COLOR_DEFAULT, VT_COLOR_DEFAULT)]; plain_cells "a"]
    = Some [(ch "a", VT_ATTR_DIM)].
Proof. split; vm_compute; reflexivity. Qed.
