(* ===== verification/Tile.v ===== *)
(** * The tiled panes: src/libtile/tile.c

    The split tree is linked by pointers and spliced in place, so the model has
    a heap of nodes: a pointer is an address or NULL, reading a freed or NULL
    pointer is a trap, and so is freeing twice.  Recursions follow the pointers
    with fuel for every node of the heap: running out means a cycle, where the
    code would not return. *)

From stdpp Require Import gmap.
From S2P Require Import Prelude VtBuf.

Abbreviation addr := positive.
Abbreviation ptr := (option positive).

(** The enumeration [tile_split], whose name the operation has here. *)
Inductive tile_split_dir := TILE_LEAF | TILE_SPLIT_H | TILE_SPLIT_V.

#[export] Instance tile_split_dir_eq_dec : EqDecision tile_split_dir.
Proof. solve_decision. Defined.

(** [nd_vt] is the address of a terminal, not followed in this file. *)
Record tile_node := mk_node {
  nd_type : tile_split_dir;
  nd_x : Z; nd_y : Z; nd_w : Z; nd_h : Z;
  window_id : Z;
  nd_vt : ptr;
  split_pos : Z;
  nd_a : ptr;
  nd_b : ptr;
}.

#[export] Instance tile_node_eq_dec : EqDecision tile_node.
Proof. solve_decision. Defined.

Abbreviation heap := (gmap addr tile_node).

Record tile := mk_tile {
  tl_heap : heap;
  tl_root : ptr;
  tl_rows : Z;
  tl_cols : Z;
  tl_screen : list vt_cell;
  tl_prev : list vt_cell;
  tl_dirty : list Z;
  focused_id : Z;
  pane_count : Z;
}.

(** Fuel for a recursion over the heap. *)
Definition hfuel (h : heap) : nat := S (size h).

Definition is_leaf (n : tile_node) : bool := bool_decide (nd_type n = TILE_LEAF).

(** What [xcalloc] leaves: zeroes. *)
Definition zero_node : tile_node := mk_node TILE_LEAF 0 0 0 0 0 None 0 None None.
Definition zero_cell : vt_cell :=
  {| codepoint := 0; cell_fg := VT_COLOR_DEFAULT; cell_bg := VT_COLOR_DEFAULT; cell_attrs := 0; cell_width := 0 |}.

(** [xcalloc] of an array; a negative count is a huge size, which aborts. *)
Definition xcalloc {A} (n : Z) (x : A) : option (list A) :=
  if n <? 0 then None else Some (replicate (Z.to_nat n) x).

(** ** Node helpers *)

Definition set_node (p : addr) (f : tile_node → tile_node) (h : heap) : option heap :=
  n ← h !! p; Some (<[p := f n]> h).

Definition new_leaf (id : Z) (vt : ptr) : tile_node :=
  {| zero_node with window_id := id; nd_vt := vt |}.

Fixpoint node_free (fuel : nat) (h : heap) (n : ptr) : option heap :=
  match n with
  | None => Some h
  | Some p =>
      match fuel with
      | O => None
      | S k =>
          nd ← h !! p;
          h ← (if is_leaf nd then Some h else h ← node_free k h (nd_a nd); node_free k h (nd_b nd));
          _ ← h !! p; Some (delete p h)
      end
  end.

Fixpoint node_leaf_count (fuel : nat) (h : heap) (n : ptr) : option Z :=
  match n with
  | None => Some 0
  | Some p =>
      match fuel with
      | O => None
      | S k =>
          nd ← h !! p;
          if is_leaf nd then Some 1 else
          i ← node_leaf_count k h (nd_a nd); j ← node_leaf_count k h (nd_b nd); Some (i + j)
      end
  end.

Fixpoint node_find (fuel : nat) (h : heap) (n : ptr) (id : Z) : option ptr :=
  match n with
  | None => Some None
  | Some p =>
      match fuel with
      | O => None
      | S k =>
          nd ← h !! p;
          if is_leaf nd then Some (if window_id nd =? id then n else None) else
          found ← node_find k h (nd_a nd) id;
          match found with
          | Some _ => Some found
          | None => node_find k h (nd_b nd) id
          end
      end
  end.

(** [n->type == TILE_LEAF && n->window_id == id], through a pointer. *)
Definition leaf_has (h : heap) (n : ptr) (id : Z) : option bool :=
  p ← n; nd ← h !! p; Some (is_leaf nd && (window_id nd =? id)).

Fixpoint node_find_leaf_parent (fuel : nat) (h : heap) (n : ptr) (id : Z) : option ptr :=
  match n with
  | None => Some None
  | Some p =>
      match fuel with
      | O => None
      | S k =>
          nd ← h !! p;
          if is_leaf nd then Some None else
          in_a ← leaf_has h (nd_a nd) id;
          if (in_a : bool) then Some n else
          in_b ← leaf_has h (nd_b nd) id;
          if (in_b : bool) then Some n else
          found ← node_find_leaf_parent k h (nd_a nd) id;
          match found with
          | Some _ => Some found
          | None => node_find_leaf_parent k h (nd_b nd) id
          end
      end
  end.

Fixpoint node_find_branch_parent (fuel : nat) (h : heap) (n target : ptr) : option ptr :=
  match n with
  | None => Some None
  | Some p =>
      match fuel with
      | O => None
      | S k =>
          nd ← h !! p;
          if is_leaf nd then Some None else
          if bool_decide (nd_a nd = target) || bool_decide (nd_b nd = target) then Some n else
          found ← node_find_branch_parent k h (nd_a nd) target;
          match found with
          | Some _ => Some found
          | None => node_find_branch_parent k h (nd_b nd) target
          end
      end
  end.

(** ** Layout *)

Definition set_geometry (x y w h : Z) (n : tile_node) : tile_node :=
  {| n with nd_x := x; nd_y := y; nd_w := w; nd_h := h |}.

(** Where a length is split: [len * split_pos / 256], C's division, at least one
    and at most two less than the length. *)
Definition split_mid (len pos : Z) : Z :=
  let mid := Z.quot (len * pos) 256 in
  let mid := if mid <? 1 then 1 else mid in
  if len - 2 <? mid then len - 2 else mid.

Fixpoint tile_layout (fuel : nat) (hp : heap) (n : ptr) (x y w h : Z) : option heap :=
  match n with
  | None => Some hp
  | Some p =>
      match fuel with
      | O => None
      | S k =>
          nd ← hp !! p;
          let hp := <[p := set_geometry x y w h nd]> hp in
          match nd_type nd with
          | TILE_LEAF => Some hp
          | TILE_SPLIT_V =>
              let mid := split_mid w (split_pos nd) in
              hp ← tile_layout k hp (nd_a nd) x y mid h;
              tile_layout k hp (nd_b nd) (x + mid + 1) y (w - mid - 1) h
          | TILE_SPLIT_H =>
              let mid := split_mid h (split_pos nd) in
              hp ← tile_layout k hp (nd_a nd) x y w mid;
              tile_layout k hp (nd_b nd) x (y + mid + 1) w (h - mid - 1)
          end
      end
  end.

Definition with_heap (h : heap) (t : tile) : tile := {| t with tl_heap := h |}.
Definition with_root (r : ptr) (t : tile) : tile := {| t with tl_root := r |}.
Definition with_focus (id : Z) (t : tile) : tile := {| t with focused_id := id |}.
Definition with_count (n : Z) (t : tile) : tile := {| t with pane_count := n |}.

Definition relayout (t : tile) : option tile :=
  h ← tile_layout (hfuel (tl_heap t)) (tl_heap t) (tl_root t) 0 0 (tl_cols t) (tl_rows t);
  Some (with_heap h t).

(** ** Leaf traversal *)

Definition MAX_PANES : nat := 64.

(** The leaves found so far are [acc], at most [max]. *)
Fixpoint leaves_collect (fuel : nat) (h : heap) (n : ptr) (max : nat) (acc : list addr) : option (list addr) :=
  match n with
  | None => Some acc
  | Some p =>
      if Nat.leb max (length acc) then Some acc else
      match fuel with
      | O => None
      | S k =>
          nd ← h !! p;
          if is_leaf nd then Some (acc ++ [p]) else
          acc ← leaves_collect k h (nd_a nd) max acc;
          leaves_collect k h (nd_b nd) max acc
      end
  end.

Definition tile_leaves (t : tile) : option (list addr) :=
  leaves_collect (hfuel (tl_heap t)) (tl_heap t) (tl_root t) MAX_PANES [].

(** The ids of a list of leaves. *)
Definition ids_at (h : heap) (ps : list addr) : option (list Z) :=
  mapM (λ p, n ← h !! p; Some (window_id n)) ps.

(** ** The operations

    [malloc] is a parameter: it answers an address not in use. *)

Section Operations.
Context (malloc : heap → addr).

(** Allocate a node holding [n]. *)
Definition node_new (n : tile_node) (h : heap) : addr * heap :=
  let p := malloc h in (p, <[p := n]> h).

Definition tile_new (rows cols : Z) : option tile :=
  let '(p, h) := node_new (new_leaf 0 None) ∅ in
  screen ← xcalloc (rows * cols) zero_cell;
  prev ← xcalloc (rows * cols) zero_cell;
  dirty ← xcalloc rows 0;
  relayout (mk_tile h (Some p) rows cols screen prev dirty 0 1).

(** What is left in the heap of nodes. *)
Definition tile_free (t : tile) : option heap := node_free (hfuel (tl_heap t)) (tl_heap t) (tl_root t).

Definition tile_resize (t : tile) (rows cols : Z) : option tile :=
  screen ← xcalloc (rows * cols) zero_cell;
  prev ← xcalloc (rows * cols) zero_cell;
  dirty ← xcalloc rows 0;
  relayout {| t with tl_rows := rows; tl_cols := cols; tl_screen := screen; tl_prev := prev; tl_dirty := dirty |}.

(** The new tree is in the same heap, built by the caller. *)
Definition tile_import_tree (t : tile) (root : ptr) : option (Z * tile) :=
  match root with
  | None => Some (-1, t)
  | Some _ =>
      h ← node_free (hfuel (tl_heap t)) (tl_heap t) (tl_root t);
      n ← node_leaf_count (hfuel h) h root;
      t ← relayout (with_count n (with_root root (with_heap h t)));
      Some (0, t)
  end.

(** Replace the child of [parent] that is [old] (else the second) by [new]. *)
Definition relink (h : heap) (parent old new : ptr) : option heap :=
  p ← parent; n ← h !! p;
  Some (<[p := if bool_decide (nd_a n = old) then {| n with nd_a := new |} else {| n with nd_b := new |}]> h).

Definition tile_split (t : tile) (pane_id : Z) (dir : tile_split_dir) (new_id : Z) (new_vt : ptr)
  : option (Z * tile) :=
  if bool_decide (dir = TILE_LEAF) then Some (-1, t) else
  let h := tl_heap t in
  target ← node_find (hfuel h) h (tl_root t) pane_id;
  match target with
  | None => Some (-1, t)
  | Some p =>
      nd ← h !! p;
      if bool_decide (dir = TILE_SPLIT_H) && (nd_h nd <? 3) || bool_decide (dir = TILE_SPLIT_V) && (nd_w nd <? 3)
      then Some (-1, t) else
      let '(l, h) := node_new (new_leaf new_id new_vt) h in
      let '(b, h) := node_new {| zero_node with nd_type := dir; split_pos := 128; nd_a := target; nd_b := Some l |} h in
      parent ← node_find_leaf_parent (hfuel h) h (tl_root t) pane_id;
      t ← match parent with
          | Some _ => h ← relink h parent target (Some b); Some (with_heap h t)
          | None => Some (with_root (Some b) (with_heap h t))
          end;
      t ← relayout (with_count (pane_count t + 1) t);
      Some (0, t)
  end.

(** The focus after a close: the sibling, or the first leaf under it. *)
Definition close_focus (h : heap) (sibling : ptr) (focus : Z) : option Z :=
  s ← sibling; n ← h !! s;
  if is_leaf n then Some (window_id n) else
  ls ← leaves_collect (hfuel h) h sibling MAX_PANES [];
  match ls with
  | [] => Some focus
  | l :: _ => n ← h !! l; Some (window_id n)
  end.

Definition tile_close (t : tile) (pane_id : Z) : option (Z * tile) :=
  if pane_count t <=? 1 then Some (-1, t) else
  let h := tl_heap t in
  parent ← node_find_leaf_parent (hfuel h) h (tl_root t) pane_id;
  match parent with
  | None => Some (-1, t)
  | Some p =>
      n ← h !! p;
      in_a ← leaf_has h (nd_a n) pane_id;
      let '(leaf, sibling) := if (in_a : bool) then (nd_a n, nd_b n) else (nd_b n, nd_a n) in
      grandparent ← (if bool_decide (tl_root t = parent) then Some None
                     else node_find_branch_parent (hfuel h) h (tl_root t) parent);
      if negb (bool_decide (tl_root t = parent)) && bool_decide (grandparent = None) then Some (-1, t) else
      t ← (if bool_decide (tl_root t = parent) then Some (with_root sibling t)
           else h ← relink h grandparent parent sibling; Some (with_heap h t));
      focus ← (if focused_id t =? pane_id then close_focus (tl_heap t) sibling (focused_id t) else Some (focused_id t));
      h ← node_free (hfuel (tl_heap t)) (tl_heap t) leaf;
      h ← set_node p (λ n, {| n with nd_a := None; nd_b := None |}) h;
      let h := delete p h in
      t ← relayout (with_count (pane_count t - 1) (with_focus focus (with_heap h t)));
      Some (0, t)
  end.
End Operations.

Definition tile_set_window (t : tile) (pane_id id : Z) (vt : ptr) : option (Z * tile) :=
  n ← node_find (hfuel (tl_heap t)) (tl_heap t) (tl_root t) pane_id;
  match n with
  | None => Some (-1, t)
  | Some p =>
      h ← set_node p (λ n, {| n with window_id := id; nd_vt := vt |}) (tl_heap t);
      Some (0, with_heap h t)
  end.

Fixpoint node_forget_vt (fuel : nat) (h : heap) (n : ptr) (vt : ptr) : option heap :=
  match n with
  | None => Some h
  | Some p =>
      match fuel with
      | O => None
      | S k =>
          nd ← h !! p;
          if is_leaf nd then
            Some (if bool_decide (nd_vt nd = vt) then <[p := {| nd with nd_vt := None |}]> h else h)
          else h ← node_forget_vt k h (nd_a nd) vt; node_forget_vt k h (nd_b nd) vt
      end
  end.

Definition tile_forget_vt (t : tile) (vt : ptr) : option tile :=
  match vt with
  | None => Some t
  | Some _ => h ← node_forget_vt (hfuel (tl_heap t)) (tl_heap t) (tl_root t) vt; Some (with_heap h t)
  end.

(** ** Focus *)

Definition tile_focus (t : tile) (pane_id : Z) : option tile :=
  n ← node_find (hfuel (tl_heap t)) (tl_heap t) (tl_root t) pane_id;
  Some (match n with Some _ => with_focus pane_id t | None => t end).

(** The first index holding the focused id. *)
Fixpoint focus_index (ids : list Z) (focus : Z) (i : Z) : option Z :=
  match ids with
  | [] => None
  | id :: ids' => if id =? focus then Some i else focus_index ids' focus (i + 1)
  end.

(** The two walks: from the focused leaf by [step], else to [from]. *)
Definition focus_step (t : tile) (step : Z → Z → Z) (from : Z → Z) : option (Z * tile) :=
  ps ← tile_leaves t;
  ids ← ids_at (tl_heap t) ps;
  match focus_index ids (focused_id t) 0 with
  | Some i => id ← aget ids (step i (zlen ids)); Some (id, with_focus id t)
  | None => if 0 <? zlen ids then id ← aget ids (from (zlen ids)); Some (id, with_focus id t) else Some (0, t)
  end.

Definition tile_focus_next (t : tile) : option (Z * tile) :=
  focus_step t (λ i count, Z.rem (i + 1) count) (λ _, 0).

Definition tile_focus_prev (t : tile) : option (Z * tile) :=
  focus_step t (λ i count, Z.rem (i - 1 + count) count) (λ count, count - 1).

(** The centre of a pane. *)
Definition centre (n : tile_node) : Z * Z :=
  (nd_x n + Z.quot (nd_w n) 2, nd_y n + Z.quot (nd_h n) 2).

(** [continue] unless the displacement is in the direction asked for. *)
Definition in_direction (dr dc dx dy : Z) : bool :=
  negb ((dr <? 0) && (0 <=? dy) || (0 <? dr) && (dy <=? 0) || (dc <? 0) && (0 <=? dx) || (0 <? dc) && (dx <=? 0)).

(** The nearest leaf in the direction so far, and its squared distance. *)
Fixpoint nearest (h : heap) (ps : list addr) (focused : addr) (fx fy dr dc : Z) (best : option addr) (dist : Z)
  : option (option addr) :=
  match ps with
  | [] => Some best
  | p :: ps' =>
      if bool_decide (p = focused) then nearest h ps' focused fx fy dr dc best dist else
      n ← h !! p;
      let '(cx, cy) := centre n in
      let '(dx, dy) := (cx - fx, cy - fy) in
      if negb (in_direction dr dc dx dy) then nearest h ps' focused fx fy dr dc best dist else
      let d := dx * dx + dy * dy in
      if d <? dist then nearest h ps' focused fx fy dr dc (Some p) d
      else nearest h ps' focused fx fy dr dc best dist
  end.

Definition tile_focus_dir (t : tile) (dr dc : Z) : option (Z * tile) :=
  ps ← tile_leaves t;
  ids ← ids_at (tl_heap t) ps;
  match focus_index ids (focused_id t) 0 with
  | None => Some (focused_id t, t)
  | Some i =>
      f ← aget ps i; n ← tl_heap t !! f;
      let '(fx, fy) := centre n in
      best ← nearest (tl_heap t) ps f fx fy dr dc None INT_MAX;
      match best with
      | Some p => n ← tl_heap t !! p; Some (window_id n, with_focus (window_id n) t)
      | None => Some (focused_id t, t)
      end
  end.

Definition tile_focused_id (t : tile) : Z := focused_id t.

(** ** Queries *)

Definition tile_pane_count (t : tile) : Z := pane_count t.

Definition tile_pane_geometry (t : tile) (pane_id : Z) : option (option (Z * Z * Z * Z)) :=
  n ← node_find (hfuel (tl_heap t)) (tl_heap t) (tl_root t) pane_id;
  match n with
  | None => Some None
  | Some p => n ← tl_heap t !! p; Some (Some (nd_x n, nd_y n, nd_w n, nd_h n))
  end.

(** ** Resizing a pane *)

(** One step up the tree. *)
Definition parent_of (t : tile) (n : addr) : option ptr :=
  let h := tl_heap t in
  if bool_decide (Some n = tl_root t) then Some None else
  nd ← h !! n;
  if is_leaf nd then node_find_leaf_parent (hfuel h) h (tl_root t) (window_id nd)
  else node_find_branch_parent (hfuel h) h (tl_root t) (Some n).

(** Walk up to the split whose edge is to move. *)
Fixpoint find_split (fuel : nat) (t : tile) (want_h want_a : bool) (n : addr) : option ptr :=
  match fuel with
  | O => None
  | S k =>
      parent ← parent_of t n;
      match parent with
      | None => Some None
      | Some p =>
          nd ← tl_heap t !! p;
          if bool_decide (nd_type nd = if want_h then TILE_SPLIT_H else TILE_SPLIT_V)
             && bool_decide ((if want_a then nd_a nd else nd_b nd) = Some n)
          then Some parent
          else find_split k t want_h want_a p
      end
  end.

(** The new fraction, with its clamps. *)
Definition moved_split (pos delta dim : Z) (want_a : bool) : Z :=
  let d := Z.quot (delta * 256) dim in
  let p := if want_a then pos + d else pos - d in
  let least := Z.quot 256 dim in
  let p := if p <? least then least else p in
  let p := if 256 - least <? p then 256 - least else p in
  let p := if p <? 1 then 1 else p in
  if 254 <? p then 254 else p.

Definition tile_resize_pane (t : tile) (pane_id dr dc delta : Z) : option (Z * tile) :=
  if delta =? 0 then Some (-1, t) else
  let want_h := negb (dr =? 0) in
  let want_a := (0 <? dr) || (0 <? dc) in
  n ← node_find (hfuel (tl_heap t)) (tl_heap t) (tl_root t) pane_id;
  match n with
  | None => Some (-1, t)
  | Some p =>
      parent ← find_split (hfuel (tl_heap t)) t want_h want_a p;
      match parent with
      | None => Some (-1, t)
      | Some q =>
          nd ← tl_heap t !! q;
          let dim := if want_h then nd_h nd else nd_w nd in
          if dim <=? 0 then Some (-1, t) else
          h ← set_node q (λ n, {| n with split_pos := moved_split (split_pos n) delta dim want_a |}) (tl_heap t);
          t ← relayout (with_heap h t);
          Some (0, t)
      end
  end.

(** ** Iteration: the calls made to the callback *)

Fixpoint each_pane_walk (fuel : nat) (h : heap) (n : ptr) : option (list (Z * Z * Z)) :=
  match n with
  | None => Some []
  | Some p =>
      match fuel with
      | O => None
      | S k =>
          nd ← h !! p;
          if is_leaf nd then Some (if window_id nd =? 0 then [] else [(window_id nd, nd_w nd, nd_h nd)])
          else a ← each_pane_walk k h (nd_a nd); b ← each_pane_walk k h (nd_b nd); Some (a ++ b)
      end
  end.

Definition tile_each_pane (t : tile) : option (list (Z * Z * Z)) :=
  each_pane_walk (hfuel (tl_heap t)) (tl_heap t) (tl_root t).

(** ** Row comparison *)

(** [n] elements from index [i], all of them in the array. *)
Definition aslice {A} (l : list A) (i n : Z) : option (list A) :=
  if (i <? 0) || (n <? 0) || (zlen l <? i + n) then None
  else Some (take (Z.to_nat n) (drop (Z.to_nat i) l)).

Section UpdateDirty.
(** [memcmp] sees the bytes of the cells, their padding and the unused part of a
    colour included: it is a parameter. *)
Context (cells_differ : list vt_cell → list vt_cell → bool).

Definition tile_update_dirty (t : tile) : option tile :=
  dirty ← for_up 0 (tl_rows t) (λ r d,
      a ← aslice (tl_screen t) (r * tl_cols t) (tl_cols t);
      b ← aslice (tl_prev t) (r * tl_cols t) (tl_cols t);
      if cells_differ a b then aset d r 1 else Some d) (tl_dirty t);
  prev ← (a ← aslice (tl_screen t) 0 (tl_rows t * tl_cols t);
          _ ← aslice (tl_prev t) 0 (tl_rows t * tl_cols t);
          Some (a ++ drop (length a) (tl_prev t)));
  Some {| t with tl_prev := prev; tl_dirty := dirty |}.
End UpdateDirty.
