(* ===== verification/TileTree.v ===== *)
(** * Split trees, as values

    What the heap of Tile.v holds when its pointers form a tree: every node is
    reached once and knows its address.  The layout is a function of the tree
    and a rectangle, and where there is room it divides the rectangle. *)

From stdpp Require Import gmap.
From S2P Require Import Prelude VtBuf Tile.

Record rect := mk_rect { rx : Z; ry : Z; rw : Z; rh : Z }.

Record pane := mk_pane { pn_addr : addr; pn_rect : rect; pn_id : Z; pn_vt : ptr }.

(** [v] tells a left/right split. *)
Inductive tree :=
  | Leaf (l : pane)
  | Branch (p : addr) (g : rect) (v : bool) (pos : Z) (a b : tree).

Definition addr_of (t : tree) : addr := match t with Leaf l => pn_addr l | Branch p _ _ _ _ _ => p end.
Definition rect_of (t : tree) : rect := match t with Leaf l => pn_rect l | Branch _ g _ _ _ _ => g end.

Definition dir_of (v : bool) : tile_split_dir := if v then TILE_SPLIT_V else TILE_SPLIT_H.

Definition branch_node (g : rect) (v : bool) (pos : Z) (a b : addr) : tile_node :=
  mk_node (dir_of v) (rx g) (ry g) (rw g) (rh g) 0 None pos (Some a) (Some b).
Definition leaf_node (l : pane) : tile_node :=
  mk_node TILE_LEAF (rx (pn_rect l)) (ry (pn_rect l)) (rw (pn_rect l)) (rh (pn_rect l))
    (pn_id l) (pn_vt l) 0 None None.

(** The node at the root of a tree, and all of them with their addresses. *)
Definition node_of (t : tree) : tile_node :=
  match t with Leaf l => leaf_node l | Branch _ g v pos a b => branch_node g v pos (addr_of a) (addr_of b) end.

Fixpoint nodes (t : tree) : list (addr * tile_node) :=
  match t with
  | Leaf l => [(pn_addr l, leaf_node l)]
  | Branch p g v pos a b => (p, branch_node g v pos (addr_of a) (addr_of b)) :: nodes a ++ nodes b
  end.

Definition addrs (t : tree) : list addr := (nodes t).*1.

Fixpoint leaves (t : tree) : list pane :=
  match t with Leaf l => [l] | Branch _ _ _ _ a b => leaves a ++ leaves b end.

Lemma leaves_nonempty T : leaves T ≠ [].
Proof. induction T as [|p g v pos a IHa b IHb]; [done |]. cbn. intros [? _]%app_eq_nil. done. Qed.

Definition ids (t : tree) : list Z := pn_id <$> leaves t.

Definition is_branch (t : tree) : bool := match t with Leaf _ => false | Branch _ _ _ _ _ _ => true end.

(** ** Layout *)

Definition rect_a (v : bool) (pos : Z) (r : rect) : rect :=
  if v then mk_rect (rx r) (ry r) (split_mid (rw r) pos) (rh r)
  else mk_rect (rx r) (ry r) (rw r) (split_mid (rh r) pos).

Definition rect_b (v : bool) (pos : Z) (r : rect) : rect :=
  if v then let mid := split_mid (rw r) pos in mk_rect (rx r + mid + 1) (ry r) (rw r - mid - 1) (rh r)
  else let mid := split_mid (rh r) pos in mk_rect (rx r) (ry r + mid + 1) (rw r) (rh r - mid - 1).

(** The line between the two. *)
Definition sep_rect (v : bool) (pos : Z) (r : rect) : rect :=
  if v then mk_rect (rx r + split_mid (rw r) pos) (ry r) 1 (rh r)
  else mk_rect (rx r) (ry r + split_mid (rh r) pos) (rw r) 1.

Fixpoint lay (t : tree) (r : rect) : tree :=
  match t with
  | Leaf l => Leaf {| l with pn_rect := r |}
  | Branch p _ v pos a b => Branch p r v pos (lay a (rect_a v pos r)) (lay b (rect_b v pos r))
  end.

(** There is room for a branch: a cell for each side and one for the line. *)
Definition fits (v : bool) (pos : Z) (r : rect) : Prop := 3 <= (if v then rw r else rh r) ∧ 0 <= pos <= 256.

Fixpoint roomy (t : tree) (r : rect) : Prop :=
  match t with
  | Leaf _ => 1 <= rw r ∧ 1 <= rh r
  | Branch _ _ v pos a b => fits v pos r ∧ roomy a (rect_a v pos r) ∧ roomy b (rect_b v pos r)
  end.

(** The separators of a tree that has been laid out. *)
Fixpoint seps (t : tree) : list (bool * rect) :=
  match t with
  | Leaf _ => []
  | Branch _ g v pos a b => (v, sep_rect v pos g) :: seps a ++ seps b
  end.

Definition in_rect (row col : Z) (r : rect) : bool :=
  (ry r <=? row) && (row <? ry r + rh r) && (rx r <=? col) && (col <? rx r + rw r).

(** How many panes and separators hold a cell. *)
Definition holders (t : tree) (row col : Z) : nat :=
  length (filter (λ r, in_rect row col r = true) ((pn_rect <$> leaves t) ++ (seps t).*2)).

Lemma split_mid_room len pos : 3 <= len → 1 <= split_mid len pos <= len - 2.
Proof. intros. unfold split_mid. repeat case_match; zbool; lia. Qed.

Lemma rect_of_lay t r : rect_of (lay t r) = r.
Proof. by destruct t. Qed.
Lemma addr_of_lay t r : addr_of (lay t r) = addr_of t.
Proof. by destruct t. Qed.

Lemma lay_lay t r r' : lay (lay t r) r' = lay t r'.
Proof.
  revert r r'; induction t as [l|p g v pos a IHa b IHb]; intros r r'; [done |].
  cbn [lay]. by rewrite IHa, IHb.
Qed.

Lemma seps_leaf_count t row col :
  holders t row col = (length (filter (λ r, in_rect row col r = true) (pn_rect <$> leaves t))
    + length (filter (λ r, in_rect row col r = true) (seps t).*2))%nat.
Proof. unfold holders. by rewrite filter_app, length_app. Qed.

Lemma holders_branch p g v pos a b row col :
  holders (Branch p g v pos a b) row col =
    ((if in_rect row col (sep_rect v pos g) then 1 else 0) + holders a row col + holders b row col)%nat.
Proof.
  rewrite !seps_leaf_count. cbn [leaves seps fmap list_fmap snd].
  rewrite !fmap_app, filter_app, filter_cons, filter_app, length_app.
  destruct (in_rect row col (sep_rect v pos g)); simpl; rewrite ?length_app; lia.
Qed.

(** A roomy rectangle is its two parts and the line between them. *)
Lemma split_partition (v : bool) pos r row col :
  3 <= (if v then rw r else rh r) →
  b2z (in_rect row col r) = b2z (in_rect row col (sep_rect v pos r))
    + b2z (in_rect row col (rect_a v pos r)) + b2z (in_rect row col (rect_b v pos r)).
Proof.
  intros H. destruct v; [pose proof (split_mid_room (rw r) pos H) | pose proof (split_mid_room (rh r) pos H)];
    unfold in_rect, rect_a, rect_b, sep_rect; cbn [rx ry rw rh];
    generalize dependent (split_mid (rw r) pos); generalize dependent (split_mid (rh r) pos); intros;
    repeat match goal with |- context [?x <=? ?y] => destruct (Z.leb_spec x y)
      | |- context [?x <? ?y] => destruct (Z.ltb_spec x y) end; simpl; lia.
Qed.

Lemma lay_partition t r row col :
  roomy t r → Z.of_nat (holders (lay t r) row col) = b2z (in_rect row col r).
Proof.
  revert r; induction t as [l|p g v pos a IHa b IHb]; intros r Hr.
  - unfold holders. cbn. case_match; simpl; by destruct (in_rect row col r).
  - destruct Hr as ([H3 _] & Ha & Hb). cbn [lay]. rewrite holders_branch, (split_partition v pos r row col H3).
    specialize (IHa _ Ha). specialize (IHb _ Hb). destruct (in_rect row col (sep_rect v pos r)); cbn [b2z]; lia.
Qed.

(** ** Contexts

    A path from the root down to a subtree, outermost branch first. *)
Inductive hole :=
  | HoleA (p : addr) (g : rect) (v : bool) (pos : Z) (b : tree)
  | HoleB (p : addr) (g : rect) (v : bool) (pos : Z) (a : tree).

Definition plug (f : hole) (t : tree) : tree :=
  match f with
  | HoleA p g v pos b => Branch p g v pos t b
  | HoleB p g v pos a => Branch p g v pos a t
  end.

Definition graft (C : list hole) (t : tree) : tree := foldr plug t C.

Definition hole_addr (f : hole) : addr := match f with HoleA p _ _ _ _ | HoleB p _ _ _ _ => p end.
Definition sibling (f : hole) : tree := match f with HoleA _ _ _ _ b => b | HoleB _ _ _ _ a => a end.

(** The node of the branch, whose hole is at [q]. *)
Definition hole_node (f : hole) (q : addr) : tile_node :=
  match f with
  | HoleA _ g v pos b => branch_node g v pos q (addr_of b)
  | HoleB _ g v pos a => branch_node g v pos (addr_of a) q
  end.

Definition top_addr (C : list hole) (q : addr) : addr :=
  match C with [] => q | f :: _ => hole_addr f end.

Fixpoint ctx_nodes (C : list hole) (q : addr) : list (addr * tile_node) :=
  match C with
  | [] => []
  | f :: C' => (hole_addr f, hole_node f (top_addr C' q)) :: nodes (sibling f) ++ ctx_nodes C' q
  end.

(** The leaves before and after the hole. *)
Definition before (C : list hole) : list pane :=
  concat (map (λ f, match f with HoleB _ _ _ _ a => leaves a | HoleA _ _ _ _ _ => [] end) C).
Definition after (C : list hole) : list pane :=
  concat (reverse (map (λ f, match f with HoleA _ _ _ _ b => leaves b | HoleB _ _ _ _ _ => [] end) C)).

Lemma addr_of_graft C t : addr_of (graft C t) = top_addr C (addr_of t).
Proof. by destruct C as [|[] C]. Qed.

Lemma graft_app C D t : graft (C ++ D) t = graft C (graft D t).
Proof. apply foldr_app. Qed.

Lemma nodes_graft C t : nodes (graft C t) ≡ₚ ctx_nodes C (addr_of t) ++ nodes t.
Proof.
  induction C as [|f C IH]; [done |]. cbn [graft foldr ctx_nodes app].
  destruct f as [p g v pos b | p g v pos a]; cbn [plug nodes hole_addr hole_node sibling];
    fold (graft C t); rewrite addr_of_graft; apply perm_skip; rewrite IH; solve_Permutation.
Qed.

Lemma ctx_nodes_app C D q : ctx_nodes (C ++ D) q = ctx_nodes C (top_addr D q) ++ ctx_nodes D q.
Proof.
  induction C as [|f C IH]; [done |]. cbn [app ctx_nodes]. rewrite IH, <- app_assoc. f_equal. f_equal.
  f_equal. by destruct C.
Qed.

Lemma leaves_graft C t : leaves (graft C t) = before C ++ leaves t ++ after C.
Proof.
  unfold before, after. induction C as [|[p g v pos b | p g v pos a] C IH].
  - simpl. by rewrite app_nil_r.
  - cbn [graft foldr plug leaves map concat]. fold (graft C t). rewrite IH, reverse_cons, concat_app. cbn.
    by rewrite app_nil_r, !app_assoc.
  - cbn [graft foldr plug leaves map concat]. fold (graft C t). rewrite IH, reverse_cons, concat_app. cbn.
    by rewrite app_nil_r, !app_assoc.
Qed.

(** Every leaf is at the end of a path. *)
Lemma leaf_path t l : l ∈ leaves t → ∃ C, t = graft C (Leaf l).
Proof.
  induction t as [l'|p g v pos a IHa b IHb]; cbn [leaves].
  - intros ->%list_elem_of_singleton. by exists [].
  - intros [(C & ->)%IHa|(C & ->)%IHb]%elem_of_app.
    + by exists (HoleA p g v pos b :: C).
    + by exists (HoleB p g v pos a :: C).
Qed.

(** *** Layout and room along a path *)

Definition inner1 (f : hole) (r : rect) : rect :=
  match f with HoleA _ _ v pos _ => rect_a v pos r | HoleB _ _ v pos _ => rect_b v pos r end.

Definition lay1 (f : hole) (r : rect) : hole :=
  match f with
  | HoleA p _ v pos b => HoleA p r v pos (lay b (rect_b v pos r))
  | HoleB p _ v pos a => HoleB p r v pos (lay a (rect_a v pos r))
  end.

Fixpoint inner (C : list hole) (r : rect) : rect :=
  match C with [] => r | f :: C' => inner C' (inner1 f r) end.

Fixpoint lay_ctx (C : list hole) (r : rect) : list hole :=
  match C with [] => [] | f :: C' => lay1 f r :: lay_ctx C' (inner1 f r) end.

Fixpoint roomy_ctx (C : list hole) (r : rect) : Prop :=
  match C with
  | [] => True
  | f :: C' =>
      match f with
      | HoleA _ _ v pos b => fits v pos r ∧ roomy b (rect_b v pos r)
      | HoleB _ _ v pos a => fits v pos r ∧ roomy a (rect_a v pos r)
      end ∧ roomy_ctx C' (inner1 f r)
  end.

Lemma lay_graft C t r : lay (graft C t) r = graft (lay_ctx C r) (lay t (inner C r)).
Proof.
  revert r; induction C as [|[p g v pos b | p g v pos a] C IH]; intros r; [done | |];
    cbn [graft foldr plug lay lay_ctx lay1]; fold (graft C t); by rewrite IH.
Qed.

Lemma roomy_graft C t r : roomy (graft C t) r ↔ roomy_ctx C r ∧ roomy t (inner C r).
Proof.
  revert r; induction C as [|[p g v pos b | p g v pos a] C IH]; intros r; [cbn; tauto | |];
    cbn [graft foldr plug roomy roomy_ctx inner inner1]; fold (graft C t); rewrite IH; tauto.
Qed.

Lemma inner_app C D r : inner (C ++ D) r = inner D (inner C r).
Proof. revert r; induction C as [|f C IH]; intros r; [done |]. apply IH. Qed.

(** What is laid out is laid out part by part. *)
Lemma graft_laid C t r :
  graft C t = lay (graft C t) r → C = lay_ctx C r ∧ t = lay t (inner C r).
Proof.
  rewrite lay_graft. revert r; induction C as [|[p g v pos b | p g v pos a] C IH]; intros r; [done | |];
    cbn [graft foldr plug lay_ctx lay1 inner inner1]; fold (graft C t); intros E; injection E as Hg Ht Hs; subst g.
  - destruct (IH _ Ht) as [HC Hl]. split; [| exact Hl]. by rewrite <- HC, <- Hs.
  - destruct (IH _ Hs) as [HC Hl]. split; [| exact Hl]. by rewrite <- HC, <- Ht.
Qed.

(** *** More room is enough room *)

Lemma split_mid_mono pos len len' :
  0 <= pos <= 256 → 3 <= len <= len' →
  split_mid len pos <= split_mid len' pos ∧ len - split_mid len pos <= len' - split_mid len' pos.
Proof.
  intros Hp Hl. unfold split_mid. rewrite !Z.quot_div_nonneg by nia.
  assert (len * pos / 256 <= len' * pos / 256) by (apply Z.div_le_mono; nia).
  assert (len' * pos / 256 <= len * pos / 256 + (len' - len)).
  { rewrite <- Z.div_add by lia. apply Z.div_le_mono; nia. }
  cbn zeta. generalize dependent (len * pos / 256). generalize dependent (len' * pos / 256). intros q' q H1 H2.
  destruct (Z.ltb_spec q 1), (Z.ltb_spec q' 1);
    repeat match goal with |- context [if ?x <? ?y then _ else _] => destruct (Z.ltb_spec x y) end; lia.
Qed.

Lemma roomy_mono t r r' : roomy t r → rw r <= rw r' → rh r <= rh r' → roomy t r'.
Proof.
  revert r r'; induction t as [l|p g v pos a IHa b IHb]; intros r r'; cbn [roomy]; [lia |].
  intros ([H3 Hp] & Ha & Hb) Hw Hh.
  pose proof (split_mid_mono pos (rw r) (rw r') Hp) as Mw. pose proof (split_mid_mono pos (rh r) (rh r') Hp) as Mh.
  split; [destruct v; split; lia |].
  split; [apply (IHa _ _ Ha) | apply (IHb _ _ Hb)]; destruct v; cbn [rect_a rect_b rw rh] in *; lia.
Qed.

Lemma roomy_lay t r r' : roomy (lay t r) r' ↔ roomy t r'.
Proof.
  revert r r'; induction t as [l|p g v pos a IHa b IHb]; intros r r'; [done |].
  cbn [lay roomy]. by rewrite IHa, IHb.
Qed.

(** A leaf split in a roomy tree leaves room, if it has three cells. *)
Lemma roomy_split C l n b g (v : bool) r :
  roomy (graft C (Leaf l)) r → 3 <= (if v then rw (inner C r) else rh (inner C r)) →
  roomy (graft C (Branch b g v 128 (Leaf l) (Leaf n))) r.
Proof.
  rewrite !roomy_graft. cbn [roomy]. intros (HC & Hw & Hh) H3. split; [done |]. split; [split; [done | lia] |].
  pose proof (split_mid_room (rw (inner C r)) 128). pose proof (split_mid_room (rh (inner C r)) 128).
  destruct v; cbn [rect_a rect_b rw rh]; lia.
Qed.

(** The sibling of a closed pane has more room than it had. *)
Lemma roomy_close C f l r : roomy (graft (C ++ [f]) (Leaf l)) r → roomy (graft C (sibling f)) r.
Proof.
  rewrite graft_app, !roomy_graft. intros (HC & Hf). split; [done |].
  destruct f as [p g v pos b | p g v pos a]; cbn [sibling roomy_ctx] in *;
    destruct Hf as ((([H3 _] & Hs) & _) & _); apply (roomy_mono _ _ _ Hs);
    pose proof (split_mid_room (rw (inner C r)) pos); pose proof (split_mid_room (rh (inner C r)) pos);
    destruct v; cbn [rect_a rect_b rw rh]; lia.
Qed.
