(* ===== verification/TileHeap.v ===== *)
(** * The heap operations on trees

    [holds h t]: the heap [h] has the nodes of the tree [t].  On such a heap
    every recursion of tile.c computes what the same recursion on the tree does,
    and a heap that is exactly the tree's stays exactly a tree's. *)

From stdpp Require Import gmap.
From S2P Require Import Prelude VtBuf Tile TileTree.

Definition holds (h : heap) (t : tree) : Prop := Forall (λ pn, h !! pn.1 = Some pn.2) (nodes t).

Fixpoint depth (t : tree) : nat :=
  match t with Leaf _ => 1 | Branch _ _ _ _ a b => S (Nat.max (depth a) (depth b)) end.

Lemma holds_leaf h l : holds h (Leaf l) ↔ h !! pn_addr l = Some (leaf_node l).
Proof. unfold holds. cbn. by rewrite Forall_singleton. Qed.

Lemma holds_branch h p g v pos a b :
  holds h (Branch p g v pos a b) ↔
  h !! p = Some (branch_node g v pos (addr_of a) (addr_of b)) ∧ holds h a ∧ holds h b.
Proof. unfold holds. cbn [nodes]. by rewrite Forall_cons, Forall_app. Qed.

Lemma holds_root h s : holds h s → h !! addr_of s = Some (node_of s).
Proof. destruct s; [apply holds_leaf | by intros (? & _)%holds_branch]. Qed.

Lemma is_leaf_leaf l : is_leaf (leaf_node l) = true.
Proof. done. Qed.
Lemma is_leaf_branch g v pos a b : is_leaf (branch_node g v pos a b) = false.
Proof. by destruct v. Qed.

(** Structural induction along the fuel. *)
Ltac heap_step :=
  match goal with
  | H : holds _ (Leaf _) |- _ => rewrite holds_leaf in H
  | H : holds _ (Branch _ _ _ _ _ _) |- _ =>
      let H1 := fresh "Hp" in let H2 := fresh "Ha" in let H3 := fresh "Hb" in
      apply holds_branch in H as (H1 & H2 & H3)
  end.

Ltac tree_ind t k :=
  let IHa := fresh "IHa" in let IHb := fresh "IHb" in
  revert k; induction t as [l|p g v pos a IHa b IHb]; intros [|k]; cbn [depth]; intros; try lia; heap_step.

(** ** Searching *)

Definition tfind (t : tree) (id : Z) : option pane := head (filter (λ l, pn_id l = id) (leaves t)).

Lemma tfind_branch p g v pos a b id :
  tfind (Branch p g v pos a b) id = match tfind a id with Some l => Some l | None => tfind b id end.
Proof. unfold tfind. cbn [leaves]. rewrite filter_app. by destruct (filter _ (leaves a)). Qed.

Lemma node_find_ok h t k id :
  (depth t <= k)%nat → holds h t → node_find k h (Some (addr_of t)) id = Some (pn_addr <$> tfind t id).
Proof.
  tree_ind t k; cbn [node_find addr_of]; rewrite H0 || rewrite Hp; cbn [mbind option_bind].
  - rewrite is_leaf_leaf. unfold tfind. cbn [leaves]. rewrite filter_cons, filter_nil. cbn [window_id leaf_node].
    destruct (Z.eqb_spec (pn_id l) id); [by rewrite decide_True | by rewrite decide_False].
  - rewrite is_leaf_branch. cbn [nd_a nd_b branch_node]. rewrite IHa by (done || lia). cbn [mbind option_bind].
    rewrite tfind_branch. destruct (tfind a id); [done |]. cbn [fmap option_fmap option_map]. by rewrite IHb by (done || lia).
Qed.

Lemma tfind_elem t id l : tfind t id = Some l → l ∈ leaves t ∧ pn_id l = id.
Proof.
  unfold tfind. intros H. apply head_Some_elem_of in H. by apply list_elem_of_filter in H as [? ?].
Qed.

Lemma tfind_None t id : tfind t id = None ↔ id ∉ ids t.
Proof.
  unfold tfind, ids. rewrite head_None. split.
  - intros H (l & -> & Hl)%list_elem_of_fmap. by eapply filter_nil_not_elem_of.
  - intros H. destruct (filter _ _) as [|l ls] eqn:E; [done |]. exfalso. apply H.
    assert (l ∈ filter (λ l, pn_id l = id) (leaves t)) as [Hid Hl]%list_elem_of_filter by (rewrite E; left).
    apply list_elem_of_fmap. by exists l.
Qed.

(** The ids of a tree are distinct: each finds its leaf. *)
Lemma tfind_leaf t l : NoDup (ids t) → l ∈ leaves t → tfind t (pn_id l) = Some l.
Proof.
  intros Hnd Hl. destruct (tfind t (pn_id l)) as [l'|] eqn:E.
  - apply tfind_elem in E as [Hl' E]. f_equal. unfold ids in Hnd.
    apply list_elem_of_lookup in Hl as [i Hi]. apply list_elem_of_lookup in Hl' as [j Hj].
    assert (i = j) as ->.
    { apply (NoDup_lookup _ i j (pn_id l) Hnd); rewrite list_lookup_fmap; [by rewrite Hi | rewrite Hj; simpl; by rewrite E]. }
    by simplify_eq.
  - exfalso. apply tfind_None in E. apply E. apply list_elem_of_fmap. by exists l.
Qed.

(** [node_find_leaf_parent], on the tree. *)
Definition has_leaf (t : tree) (id : Z) : bool := match t with Leaf l => pn_id l =? id | _ => false end.

Fixpoint tparent (t : tree) (id : Z) : option addr :=
  match t with
  | Leaf _ => None
  | Branch p _ _ _ a b =>
      if has_leaf a id || has_leaf b id then Some p else
      match tparent a id with Some q => Some q | None => tparent b id end
  end.

Lemma leaf_has_ok h t id : holds h t → leaf_has h (Some (addr_of t)) id = Some (has_leaf t id).
Proof.
  intros H. unfold leaf_has. cbn [mbind option_bind]. destruct t as [l|p g v pos a b]; heap_step; cbn [addr_of].
  - by rewrite H.
  - rewrite Hp. cbn [mbind option_bind]. by rewrite is_leaf_branch.
Qed.

Lemma node_find_leaf_parent_ok h t k id :
  (depth t <= k)%nat → holds h t → node_find_leaf_parent k h (Some (addr_of t)) id = Some (tparent t id).
Proof.
  tree_ind t k; cbn [node_find_leaf_parent addr_of tparent].
  - by rewrite H0.
  - rewrite Hp. cbn [mbind option_bind]. rewrite is_leaf_branch. cbn [nd_a nd_b branch_node].
    rewrite !leaf_has_ok by done. cbn [mbind option_bind].
    destruct (has_leaf a id), (has_leaf b id); [done .. |]. cbn [orb].
    rewrite IHa by (done || lia). cbn [mbind option_bind]. destruct (tparent a id); [done |].
    by rewrite IHb by (done || lia).
Qed.

Lemma tparent_None t id : id ∉ ids t → tparent t id = None.
Proof.
  induction t as [l|p g v pos a IHa b IHb]; [done |]. unfold ids in *. cbn [leaves tparent].
  rewrite fmap_app, elem_of_app. intros H.
  assert (∀ t, id ∉ pn_id <$> leaves t → has_leaf t id = false) as Hno.
  { intros [l|] Hl; [| done]. cbn in *. apply Z.eqb_neq. intros <-. apply Hl. by left. }
  rewrite !Hno by tauto. cbn [orb]. rewrite IHa by tauto. apply IHb. tauto.
Qed.

Lemma ids_graft C t : ids (graft C t) = (pn_id <$> before C) ++ ids t ++ (pn_id <$> after C).
Proof. unfold ids. by rewrite leaves_graft, !fmap_app. Qed.

Lemma has_leaf_ids t id : has_leaf t id = true → id ∈ ids t.
Proof. destruct t; [| done]. intros <-%Z.eqb_eq. by left. Qed.

Lemma tparent_graft C l :
  NoDup (ids (graft C (Leaf l))) → tparent (graft C (Leaf l)) (pn_id l) = hole_addr <$> last C.
Proof.
  assert (∀ C, pn_id l ∈ ids (graft C (Leaf l))) as Hin.
  { intros D. rewrite ids_graft, !elem_of_app. right. left. by left. }
  assert (∀ f D, has_leaf (graft (f :: D) (Leaf l)) (pn_id l) = false) as Hbr by (by intros [] D).
  induction C as [|f C IH]; intros Hnd; [done |].
  destruct f as [p g v pos b | p g v pos a]; cbn [graft foldr plug tparent]; cbn [graft foldr plug] in Hnd; fold (graft C (Leaf l)) in *;
    unfold ids in Hnd; cbn [leaves] in Hnd; rewrite fmap_app in Hnd; apply NoDup_app in Hnd as (Ha & Hdis & Hb);
    fold (ids (graft C (Leaf l))) in *.
  - fold (ids b) in *. specialize (IH Ha).
    assert (pn_id l ∉ ids b) as Hno by (intros ?; by eapply Hdis).
    destruct (has_leaf b (pn_id l)) eqn:E; [by apply has_leaf_ids in E |].
    destruct C as [|f C]; [cbn; by rewrite Z.eqb_refl |]. rewrite Hbr. cbn [orb].
    rewrite IH, last_cons_cons.
    destruct (last (f :: C)) eqn:EL; [done | by apply last_None in EL].
  - fold (ids a) in *. specialize (IH Hb).
    assert (pn_id l ∉ ids a) as Hno by (intros ?; by eapply Hdis).
    destruct (has_leaf a (pn_id l)) eqn:E; [by apply has_leaf_ids in E |].
    destruct C as [|f C]; [cbn; by rewrite Z.eqb_refl |]. rewrite Hbr. cbn [orb].
    rewrite tparent_None by done. rewrite IH, last_cons_cons.
    destruct (last (f :: C)) eqn:EL; [done | by apply last_None in EL].
Qed.

(** [node_find_branch_parent], on the tree. *)
Fixpoint tbparent (t : tree) (q : addr) : option addr :=
  match t with
  | Leaf _ => None
  | Branch p _ _ _ a b =>
      if bool_decide (addr_of a = q) || bool_decide (addr_of b = q) then Some p else
      match tbparent a q with Some r => Some r | None => tbparent b q end
  end.

Lemma decide_Some_eq (p q : addr) : bool_decide (Some p = Some q) = bool_decide (p = q).
Proof. apply bool_decide_ext. split; congruence. Qed.

Lemma node_find_branch_parent_ok h t k q :
  (depth t <= k)%nat → holds h t →
  node_find_branch_parent k h (Some (addr_of t)) (Some q) = Some (tbparent t q).
Proof.
  tree_ind t k; cbn [node_find_branch_parent addr_of tbparent].
  - by rewrite H0.
  - rewrite Hp. cbn [mbind option_bind]. rewrite is_leaf_branch. cbn [nd_a nd_b branch_node].
    rewrite !decide_Some_eq.
    destruct (bool_decide _ || bool_decide _); [done |].
    rewrite IHa by (done || lia). cbn [mbind option_bind]. destruct (tbparent a q); [done |].
    by rewrite IHb by (done || lia).
Qed.

Lemma addr_of_elem t : addr_of t ∈ addrs t.
Proof. destruct t; unfold addrs; cbn; left. Qed.

Lemma addrs_branch p g v pos a b : addrs (Branch p g v pos a b) = p :: addrs a ++ addrs b.
Proof. unfold addrs. cbn. by rewrite fmap_app. Qed.

Lemma addrs_graft C t : addrs (graft C t) ≡ₚ (ctx_nodes C (addr_of t)).*1 ++ addrs t.
Proof. unfold addrs. by rewrite nodes_graft, fmap_app. Qed.

Lemma ctx_addrs C q q' : (ctx_nodes C q).*1 = (ctx_nodes C q').*1.
Proof.
  induction C as [|f C IH]; [done |]. cbn [ctx_nodes fmap list_fmap fst]. by rewrite !fmap_app, IH.
Qed.

Lemma tbparent_None t q : q ∉ addrs t → tbparent t q = None.
Proof.
  induction t as [l|p g v pos a IHa b IHb]; [done |]. rewrite addrs_branch, elem_of_cons, elem_of_app.
  intros H. cbn [tbparent].
  assert (∀ t, q ∉ addrs t → addr_of t ≠ q) as Hne by (intros t Ht <-; apply Ht, addr_of_elem).
  rewrite !bool_decide_eq_false_2 by (apply Hne; tauto). cbn [orb]. rewrite IHa by tauto. apply IHb. tauto.
Qed.

Lemma tbparent_graft C t :
  NoDup (addrs (graft C t)) → C ≠ [] → tbparent (graft C t) (addr_of t) = hole_addr <$> last C.
Proof.
  assert (∀ C, addr_of t ∈ addrs (graft C t)) as Hin.
  { intros D. rewrite addrs_graft, elem_of_app. right. apply addr_of_elem. }
  assert (∀ f D, addr_of (graft (f :: D) t) = addr_of t → ¬ NoDup (addrs (graft (f :: D) t))) as Hne.
  { intros f D E Hnd. assert (addr_of (graft (f :: D) t) = hole_addr f) as E2 by (by destruct f).
    rewrite addrs_graft in Hnd. cbn [ctx_nodes fmap list_fmap app fst] in Hnd. apply NoDup_cons in Hnd as [Hno _].
    apply Hno, elem_of_app. right. rewrite <- E2, E. apply addr_of_elem. }
  induction C as [|f C IH]; intros Hnd HC; [done |]. clear HC.
  destruct f as [p g v pos b | p g v pos a]; cbn [graft foldr plug tbparent]; cbn [graft foldr plug] in Hnd;
    fold (graft C t) in *; rewrite addrs_branch in Hnd; apply NoDup_cons in Hnd as [Hp Hnd];
    apply NoDup_app in Hnd as (Ha & Hdis & Hb).
  - assert (addr_of t ∉ addrs b) as Hno by (by apply Hdis).
    rewrite (bool_decide_eq_false_2 (addr_of b = _)) by (intros E; apply Hno; rewrite <- E; apply addr_of_elem).
    destruct C as [|f C]; [cbn; by rewrite bool_decide_eq_true_2 by done |].
    rewrite bool_decide_eq_false_2 by (intros E; by eapply Hne). cbn [orb].
    rewrite IH, last_cons_cons by done. destruct (last (f :: C)) eqn:EL; [done | by apply last_None in EL].
  - assert (addr_of t ∉ addrs a) as Hno by (intros ?; by eapply Hdis).
    rewrite (bool_decide_eq_false_2 (addr_of a = _)) by (intros E; apply Hno; rewrite <- E; apply addr_of_elem).
    destruct C as [|f C]; [cbn; by rewrite bool_decide_eq_true_2 by done |].
    rewrite bool_decide_eq_false_2 by (intros E; by eapply Hne). cbn [orb].
    rewrite tbparent_None by done.
    rewrite IH, last_cons_cons by done. destruct (last (f :: C)) eqn:EL; [done | by apply last_None in EL].
Qed.

(** ** Walks over the leaves *)

Lemma node_leaf_count_ok h t k :
  (depth t <= k)%nat → holds h t → node_leaf_count k h (Some (addr_of t)) = Some (zlen (leaves t)).
Proof.
  tree_ind t k; cbn [node_leaf_count addr_of leaves].
  - by rewrite H0.
  - rewrite Hp. cbn [mbind option_bind]. rewrite is_leaf_branch. cbn [nd_a nd_b branch_node].
    rewrite IHa by (done || lia). cbn [mbind option_bind]. rewrite IHb by (done || lia). cbn [mbind option_bind].
    by rewrite zlen_app.
Qed.

Lemma leaves_collect_ok h t k max acc :
  (depth t <= k)%nat → holds h t →
  leaves_collect k h (Some (addr_of t)) max acc = Some (acc ++ take (max - length acc) (pn_addr <$> leaves t)).
Proof.
  intros Hk Hh. revert k acc Hk Hh.
  induction t as [l|p g v pos a IHa b IHb]; intros [|k] acc; cbn [depth]; intros Hk Hh; try lia; heap_step;
    cbn [leaves_collect addr_of leaves]; destruct (Nat.leb_spec max (length acc));
    try (replace (max - length acc)%nat with 0%nat by lia; by rewrite take_0, app_nil_r).
  - rewrite Hh. cbn [mbind option_bind]. rewrite is_leaf_leaf. cbn [fmap list_fmap].
    by rewrite take_ge by (simpl; lia).
  - rewrite Hp. cbn [mbind option_bind]. rewrite is_leaf_branch. cbn [nd_a nd_b branch_node].
    rewrite IHa by (done || lia). cbn [mbind option_bind]. rewrite IHb by (done || lia).
    rewrite fmap_app, take_app, <- app_assoc. do 4 f_equal.
    rewrite length_app, length_take. lia.
Qed.

Lemma each_pane_walk_ok h t k :
  (depth t <= k)%nat → holds h t →
  each_pane_walk k h (Some (addr_of t)) =
    Some (map (λ l, (pn_id l, rw (pn_rect l), rh (pn_rect l))) (filter (λ l, pn_id l ≠ 0) (leaves t))).
Proof.
  tree_ind t k; cbn [each_pane_walk addr_of leaves].
  - rewrite H0. cbn [mbind option_bind]. rewrite is_leaf_leaf, filter_cons, filter_nil. cbn [window_id leaf_node].
    destruct (Z.eqb_spec (pn_id l) 0); [by rewrite decide_False by naive_solver | by rewrite decide_True by done].
  - rewrite Hp. cbn [mbind option_bind]. rewrite is_leaf_branch. cbn [nd_a nd_b branch_node].
    rewrite IHa by (done || lia). cbn [mbind option_bind]. rewrite IHb by (done || lia). cbn [mbind option_bind].
    by rewrite filter_app, map_app.
Qed.

(** ** Writing

    What a walk that rewrites the nodes of a tree leaves in the heap. *)
Definition put (t : tree) (h : heap) : heap := list_to_map (nodes t) ∪ h.

Lemma put_branch p g v pos a b h :
  NoDup (addrs (Branch p g v pos a b)) →
  put (Branch p g v pos a b) h =
    put b (put a (<[p := branch_node g v pos (addr_of a) (addr_of b)]> h)).
Proof.
  rewrite addrs_branch. intros (Hp & (Ha & Hdis & Hb)%NoDup_app)%NoDup_cons. unfold put.
  cbn [nodes]. rewrite list_to_map_cons, list_to_map_app. apply map_eq. intros q.
  rewrite !lookup_union.
  destruct (decide (p = q)) as [->|Hne].
  - rewrite !lookup_insert_eq. rewrite elem_of_app in Hp.
    rewrite !not_elem_of_list_to_map_1 by tauto. by destruct (h !! q).
  - rewrite !lookup_insert_ne by done. rewrite lookup_union.
    destruct (decide (q ∈ addrs a)) as [Hq|Hq].
    + rewrite (not_elem_of_list_to_map_1 (nodes b)) by (by apply Hdis).
      by destruct (list_to_map (nodes a) !! q), (h !! q).
    + rewrite (not_elem_of_list_to_map_1 (nodes a)) by done. by destruct (list_to_map (nodes b) !! q), (h !! q).
Qed.

Lemma put_leaf l h : <[pn_addr l := leaf_node l]> h = put (Leaf l) h.
Proof. apply insert_union_singleton_l. Qed.

Lemma holds_put h t t' : holds h t → (∀ q, q ∈ addrs t' → q ∉ addrs t) → holds (put t' h) t.
Proof.
  unfold holds. rewrite !Forall_forall. intros H Hdis [q n] Hin. unfold put.
  rewrite lookup_union_r; [by apply H |]. apply not_elem_of_list_to_map_1. intros Hq.
  apply (Hdis q); [done |]. unfold addrs. apply list_elem_of_fmap. by exists (q, n).
Qed.

Lemma holds_insert h t p n : holds h t → p ∉ addrs t → holds (<[p := n]> h) t.
Proof.
  unfold holds. rewrite !Forall_forall. intros H Hp [q m] Hin. rewrite lookup_insert_ne; [by apply H |].
  simpl. intros ->. apply Hp. unfold addrs. apply list_elem_of_fmap. by exists (q, m).
Qed.

Lemma addrs_lay t r : addrs (lay t r) = addrs t.
Proof.
  revert r; induction t as [l|p g v pos a IHa b IHb]; intros r; [done |].
  cbn [lay]. by rewrite !addrs_branch, IHa, IHb.
Qed.

Lemma bind_eq {A B} (m : option A) (k : A → option B) a r : m = Some a → k a = r → m ≫= k = r.
Proof. by intros ->. Qed.

Lemma tile_layout_ok h t k r :
  (depth t <= k)%nat → holds h t → NoDup (addrs t) →
  tile_layout k h (Some (addr_of t)) (rx r) (ry r) (rw r) (rh r) = Some (put (lay t r) h).
Proof.
  intros Hk Hh Hnd. revert k h r Hk Hh Hnd.
  induction t as [l|p g v pos a IHa b IHb]; intros [|k] h r; cbn [depth]; intros Hk Hh Hnd; try lia; heap_step;
    cbn [tile_layout addr_of].
  - rewrite Hh. cbn [mbind option_bind leaf_node nd_type lay]. f_equal. apply (put_leaf {| l with pn_rect := r |}).
  - rewrite Hp. cbn [mbind option_bind]. cbn [lay]. rewrite put_branch.
    2: { rewrite addrs_branch, !addrs_lay, <- (addrs_branch p g v pos). exact Hnd. }
    rewrite addrs_branch in Hnd. apply NoDup_cons in Hnd as [Hno Hnd]. rewrite elem_of_app in Hno.
    apply NoDup_app in Hnd as (Hna & Hdis & Hnb). rewrite !addr_of_lay.
    assert (set_geometry (rx r) (ry r) (rw r) (rh r) (branch_node g v pos (addr_of a) (addr_of b))
      = branch_node r v pos (addr_of a) (addr_of b)) as -> by done.
    set (h1 := <[p := _]> h).
    assert (holds h1 a) as Ha1 by (apply holds_insert; tauto).
    assert (holds (put (lay a (rect_a v pos r)) h1) b) as Hb1.
    { apply holds_put; [apply holds_insert; tauto |]. intros q. rewrite addrs_lay. apply Hdis. }
    destruct v; cbn [nd_type branch_node dir_of split_pos nd_a nd_b].
    + eapply bind_eq; [by apply (IHa k h1 (rect_a true pos r)); [lia | |] |].
      by apply (IHb k _ (rect_b true pos r)); [lia | |].
    + eapply bind_eq; [by apply (IHa k h1 (rect_a false pos r)); [lia | |] |].
      by apply (IHb k _ (rect_b false pos r)); [lia | |].
Qed.

(** A heap that is the tree's, rewritten with nodes at the same addresses. *)
Lemma put_same t t' : addrs t' = addrs t → put t' (list_to_map (nodes t)) = list_to_map (nodes t').
Proof.
  intros Hp. unfold put. apply map_eq. intros q. rewrite lookup_union.
  destruct (decide (q ∈ addrs t')) as [Hq|Hq].
  - destruct ((list_to_map (nodes t') : heap) !! q) as [n|] eqn:E.
    + destruct ((list_to_map (nodes t) : heap) !! q); done.
    + by apply not_elem_of_list_to_map_2 in E.
  - rewrite (not_elem_of_list_to_map_1 (M := gmap addr) (nodes t')) by done.
    rewrite Hp in Hq. by rewrite (not_elem_of_list_to_map_1 (M := gmap addr) (nodes t)).
Qed.

(** ** Freeing *)

Definition wipe (t : tree) (h : heap) : heap := h ∖ list_to_map (nodes t).

Lemma wipe_lookup t h q : wipe t h !! q = if decide (q ∈ addrs t) then None else h !! q.
Proof.
  unfold wipe. rewrite lookup_difference. destruct (decide (q ∈ addrs t)) as [Hq|Hq].
  - destruct ((list_to_map (nodes t) : heap) !! q) eqn:E; [done |].
    by apply not_elem_of_list_to_map_2 in E.
  - by rewrite (not_elem_of_list_to_map_1 (M := gmap addr) (nodes t)).
Qed.

Lemma holds_wipe h t t' : holds h t → (∀ q, q ∈ addrs t' → q ∉ addrs t) → holds (wipe t' h) t.
Proof.
  unfold holds. rewrite !Forall_forall. intros H Hdis [q n] Hin. rewrite wipe_lookup.
  rewrite decide_False; [by apply H |]. intros Hq.
  apply (Hdis q); [done |]. apply list_elem_of_fmap. by exists (q, n).
Qed.

Lemma node_free_ok h t k :
  (depth t <= k)%nat → holds h t → NoDup (addrs t) → node_free k h (Some (addr_of t)) = Some (wipe t h).
Proof.
  intros Hk Hh Hnd. revert k h Hk Hh Hnd.
  induction t as [l|p g v pos a IHa b IHb]; intros [|k] h; cbn [depth]; intros Hk Hh Hnd; try lia; heap_step;
    cbn [node_free addr_of].
  - rewrite Hh. cbn [mbind option_bind]. rewrite is_leaf_leaf. cbn [mbind option_bind]. rewrite Hh. cbn [mbind option_bind]. f_equal. apply map_eq. intros q.
    rewrite wipe_lookup. unfold addrs. cbn [nodes fmap list_fmap fst].
    destruct (decide (q = pn_addr l)) as [->|Hq].
    + rewrite lookup_delete_eq. by rewrite decide_True by left.
    + rewrite lookup_delete_ne by done. rewrite decide_False; [done |]. by rewrite list_elem_of_singleton.
  - rewrite Hp. cbn [mbind option_bind]. rewrite is_leaf_branch. cbn [nd_a nd_b branch_node].
    rewrite addrs_branch in Hnd. apply NoDup_cons in Hnd as [Hno Hnd]. rewrite elem_of_app in Hno.
    apply NoDup_app in Hnd as (Hna & Hdis & Hnb).
    rewrite IHa by (done || lia). cbn [mbind option_bind]. rewrite IHb by (done || lia || by apply holds_wipe).
    cbn [mbind option_bind]. rewrite !wipe_lookup, !decide_False, Hp by tauto. cbn [mbind option_bind]. f_equal.
    apply map_eq. intros q. rewrite wipe_lookup, addrs_branch.
    destruct (decide (q = p)) as [->|Hq].
    + rewrite lookup_delete_eq. by rewrite decide_True by left.
    + rewrite lookup_delete_ne, !wipe_lookup by done.
      destruct (decide (q ∈ p :: addrs a ++ addrs b)) as [Hin|Hin]; rewrite elem_of_cons, elem_of_app in Hin.
      * destruct (decide (q ∈ addrs b)); [done |]. by rewrite decide_True by tauto.
      * by rewrite !decide_False by tauto.
Qed.

(** ** Heaps that are a tree's *)

Definition heap_of (t : tree) : heap := list_to_map (nodes t).

Lemma depth_nodes t : (depth t <= length (nodes t))%nat.
Proof. induction t; cbn [depth nodes length]; rewrite ?length_app; lia. Qed.

Lemma holds_heap_of t : NoDup (addrs t) → holds (heap_of t) t.
Proof. intros Hnd. apply Forall_forall. intros [q n] Hin. by apply elem_of_list_to_map_1. Qed.

Lemma fuel_heap_of t : NoDup (addrs t) → (depth t <= hfuel (heap_of t))%nat.
Proof.
  intros Hnd. unfold hfuel, heap_of. rewrite map_size_list_to_map by done. pose proof (depth_nodes t). lia.
Qed.

Lemma wipe_heap_of t : wipe t (heap_of t) = ∅.
Proof.
  apply map_eq. intros q. rewrite wipe_lookup. destruct (decide _) as [Hq|Hq]; [done |].
  by apply not_elem_of_list_to_map_1.
Qed.

(** A heap with a tree's nodes and others. *)
Lemma heap_of_perm t L :
  NoDup (addrs t) → nodes t ≡ₚ L → heap_of t = list_to_map L.
Proof. intros Hnd Hp. by apply list_to_map_proper. Qed.

(** Part of a tree, found in its heap. *)
Lemma holds_part C t h : holds h (graft C t) → holds h t.
Proof. unfold holds. rewrite nodes_graft, Forall_app. by intros [_ ?]. Qed.

Lemma depth_part C t : (depth t <= depth (graft C t))%nat.
Proof. induction C as [|[] C IH]; [done | |]; cbn [graft foldr plug depth]; fold (graft C t); lia. Qed.

Lemma NoDup_part C t : NoDup (addrs (graft C t)) → NoDup (addrs t).
Proof. rewrite addrs_graft, NoDup_app. tauto. Qed.

(** A fresh address is not a tree's. *)
Lemma fresh_addr t p : heap_of t !! p = None ↔ p ∉ addrs t.
Proof. symmetry. apply not_elem_of_list_to_map. Qed.
