(* ===== verification/TileSpec.v ===== *)
(** * What the tile manager promises

    The state of a tile manager as its user sees it: the arrangement of the
    panes, without addresses or geometry, the size of the screen and the focus;
    and each operation as a function on it.  [sees t T s]: the tree [T] of the
    manager [t] is the arrangement of [s]. *)

From stdpp Require Import gmap.
From S2P Require Import Prelude VtBuf Tile TileTree.

Inductive shape :=
  | Pane (id : Z) (vt : ptr)
  | Split (v : bool) (pos : Z) (a b : shape).

Fixpoint shape_of (T : tree) : shape :=
  match T with
  | Leaf l => Pane (pn_id l) (pn_vt l)
  | Branch _ _ v pos a b => Split v pos (shape_of a) (shape_of b)
  end.

Fixpoint sh_ids (s : shape) : list Z :=
  match s with Pane id _ => [id] | Split _ _ a b => sh_ids a ++ sh_ids b end.

(** Put a new pane after the pane [id]. *)
Fixpoint sh_split (id : Z) (v : bool) (new : Z) (vt : ptr) (s : shape) : shape :=
  match s with
  | Pane i _ => if i =? id then Split v 128 s (Pane new vt) else s
  | Split v' pos a b => Split v' pos (sh_split id v new vt a) (sh_split id v new vt b)
  end.

(** Remove the pane [id]: nothing is left of a pane, and the other side of a split. *)
Fixpoint sh_close (id : Z) (s : shape) : option shape :=
  match s with
  | Pane i _ => if i =? id then None else Some s
  | Split v pos a b =>
      match sh_close id a, sh_close id b with
      | Some a', Some b' => Some (Split v pos a' b')
      | None, r => r
      | r, None => r
      end
  end.

(** The pane that takes the focus of the pane [id] when it is closed: the first
    on the other side of its split. *)
Fixpoint sh_heir (id : Z) (s : shape) : option Z :=
  match s with
  | Pane _ _ => None
  | Split _ _ a b =>
      if bool_decide (sh_ids a = [id]) then head (sh_ids b) else
      if bool_decide (sh_ids b = [id]) then head (sh_ids a) else
      match sh_heir id a with Some i => Some i | None => sh_heir id b end
  end.

Fixpoint sh_map (f : Z → ptr → Z * ptr) (s : shape) : shape :=
  match s with
  | Pane i v => Pane (f i v).1 (f i v).2
  | Split v pos a b => Split v pos (sh_map f a) (sh_map f b)
  end.

(** Where the pane [id] is on a screen. *)
Fixpoint sh_rect (id : Z) (s : shape) (r : rect) : option rect :=
  match s with
  | Pane i _ => if i =? id then Some r else None
  | Split v pos a b =>
      match sh_rect id a (rect_a v pos r) with
      | Some q => Some q
      | None => sh_rect id b (rect_b v pos r)
      end
  end.

Record spec := mk_spec { sp_shape : shape; sp_rows : Z; sp_cols : Z; sp_focus : Z }.

Definition sp_screen (s : spec) : rect := mk_rect 0 0 (sp_cols s) (sp_rows s).

(** The operations: the state after, and the code returned. *)
Definition spec_split (id : Z) (dir : tile_split_dir) (new : Z) (vt : ptr) (s : spec) : Z * spec :=
  match sh_rect id (sp_shape s) (sp_screen s), dir with
  | Some r, TILE_SPLIT_V =>
      if rw r <? 3 then (-1, s) else (0, {| s with sp_shape := sh_split id true new vt (sp_shape s) |})
  | Some r, TILE_SPLIT_H =>
      if rh r <? 3 then (-1, s) else (0, {| s with sp_shape := sh_split id false new vt (sp_shape s) |})
  | _, _ => (-1, s)
  end.

Definition spec_close (id : Z) (s : spec) : Z * spec :=
  match sh_heir id (sp_shape s), sh_close id (sp_shape s) with
  | Some h, Some sh => (0, {| s with sp_shape := sh; sp_focus := if sp_focus s =? id then h else sp_focus s |})
  | _, _ => (-1, s)
  end.

Definition spec_set_window (id new : Z) (vt : ptr) (s : spec) : Z * spec :=
  if bool_decide (id ∈ sh_ids (sp_shape s))
  then (0, {| s with sp_shape := sh_map (λ i v, if i =? id then (new, vt) else (i, v)) (sp_shape s) |})
  else (-1, s).

Definition spec_forget (vt : ptr) (s : spec) : spec :=
  match vt with
  | Some _ => {| s with sp_shape := sh_map (λ i v, (i, if bool_decide (v = vt) then None else v)) (sp_shape s) |}
  | None => s
  end.

Definition spec_focus (id : Z) (s : spec) : spec :=
  if bool_decide (id ∈ sh_ids (sp_shape s)) then {| s with sp_focus := id |} else s.

Definition spec_resize (rows cols : Z) (s : spec) : spec := {| s with sp_rows := rows; sp_cols := cols |}.

(** ** Trees and shapes *)

Lemma sh_ids_of T : sh_ids (shape_of T) = ids T.
Proof.
  induction T as [l|p g v pos a IHa b IHb]; [done |]. unfold ids in *. cbn. by rewrite IHa, IHb, fmap_app.
Qed.

Lemma shape_of_lay T r : shape_of (lay T r) = shape_of T.
Proof.
  revert r; induction T as [l|p g v pos a IHa b IHb]; intros r; [done |]. cbn. by rewrite IHa, IHb.
Qed.

Lemma sh_split_other id v new vt s : id ∉ sh_ids s → sh_split id v new vt s = s.
Proof.
  induction s as [i w|v' pos a IHa b IHb]; cbn.
  - intros H. destruct (Z.eqb_spec i id) as [->|]; [| done]. exfalso. apply H. by left.
  - rewrite elem_of_app. intros H. by rewrite IHa, IHb by tauto.
Qed.

Lemma sh_close_other id s : id ∉ sh_ids s → sh_close id s = Some s.
Proof.
  induction s as [i w|v' pos a IHa b IHb]; cbn.
  - intros H. destruct (Z.eqb_spec i id) as [->|]; [| done]. exfalso. apply H. by left.
  - rewrite elem_of_app. intros H. by rewrite IHa, IHb by tauto.
Qed.

Lemma sh_heir_other id s : id ∉ sh_ids s → sh_heir id s = None.
Proof.
  induction s as [i w|v' pos a IHa b IHb]; cbn; [done |].
  rewrite elem_of_app. intros H.
  assert (∀ s, id ∉ sh_ids s → sh_ids s ≠ [id]) as Hne by (intros s Hs E; apply Hs; rewrite E; by left).
  rewrite !bool_decide_eq_false_2 by (apply Hne; tauto). by rewrite IHa, IHb by tauto.
Qed.

Lemma sh_rect_other id s r : id ∉ sh_ids s → sh_rect id s r = None.
Proof.
  revert r; induction s as [i w|v' pos a IHa b IHb]; intros r; cbn.
  - intros H. destruct (Z.eqb_spec i id) as [->|]; [| done]. exfalso. apply H. by left.
  - rewrite elem_of_app. intros H. by rewrite IHa, IHb by tauto.
Qed.

Lemma sh_map_id f s : (∀ i v, i ∈ sh_ids s → f i v = (i, v)) → sh_map f s = s.
Proof.
  induction s as [i w|v' pos a IHa b IHb]; cbn; intros H.
  - by rewrite H by left.
  - rewrite IHa, IHb; [done | |]; intros i v Hi; apply H, elem_of_app; tauto.
Qed.

(** The ids on the two sides of a hole. *)
Lemma NoDup_hole f C l :
  NoDup (ids (plug f (graft C (Leaf l)))) →
  NoDup (ids (graft C (Leaf l))) ∧ pn_id l ∉ sh_ids (shape_of (sibling f)).
Proof.
  assert (pn_id l ∈ ids (graft C (Leaf l))) as Hin.
  { unfold ids. rewrite leaves_graft. cbn. rewrite !fmap_app, !elem_of_app. right. by left. }
  rewrite sh_ids_of. destruct f; cbn [plug sibling]; unfold ids in *; cbn [leaves]; rewrite fmap_app;
    intros (Ha & Hdis & Hb)%NoDup_app; split; try done; [by apply Hdis | intros ?; by eapply Hdis].
Qed.

Lemma sh_split_graft C l v n b g :
  NoDup (ids (graft C (Leaf l))) →
  sh_split (pn_id l) v (pn_id n) (pn_vt n) (shape_of (graft C (Leaf l)))
    = shape_of (graft C (Branch b g v 128 (Leaf l) (Leaf n))).
Proof.
  induction C as [|f C IH]; intros Hnd; [cbn; by rewrite Z.eqb_refl |].
  apply NoDup_hole in Hnd as [Hnd Hno]. specialize (IH Hnd).
  destruct f; cbn [graft foldr plug shape_of sh_split sibling] in *; fold (graft C (Leaf l)); rewrite IH;
    by rewrite sh_split_other.
Qed.

Lemma sh_rect_graft C l r :
  NoDup (ids (graft C (Leaf l))) → sh_rect (pn_id l) (shape_of (graft C (Leaf l))) r = Some (inner C r).
Proof.
  revert r; induction C as [|f C IH]; intros r Hnd; [cbn; by rewrite Z.eqb_refl |].
  apply NoDup_hole in Hnd as [Hnd Hno].
  destruct f; cbn [graft foldr plug shape_of sh_rect sibling inner inner1] in *; fold (graft C (Leaf l)).
  - by rewrite IH.
  - rewrite sh_rect_other by done. by rewrite IH.
Qed.

Lemma sh_close_graft C f l :
  NoDup (ids (graft (C ++ [f]) (Leaf l))) →
  sh_close (pn_id l) (shape_of (graft (C ++ [f]) (Leaf l))) = Some (shape_of (graft C (sibling f))).
Proof.
  induction C as [|f' C IH]; intros Hnd; cbn [app] in *; apply NoDup_hole in Hnd as [Hnd Hno].
  - destruct f; cbn [graft foldr plug shape_of sh_close sibling] in *; rewrite Z.eqb_refl;
      by rewrite sh_close_other.
  - specialize (IH Hnd). destruct f'; cbn [graft foldr plug shape_of sh_close sibling] in *;
      fold (graft (C ++ [f]) (Leaf l)); rewrite IH; by rewrite sh_close_other.
Qed.

Lemma sh_ids_single T id : sh_ids (shape_of T) = [id] → ∃ l, T = Leaf l ∧ pn_id l = id.
Proof.
  destruct T as [l|p g v pos a b]; [intros [= <-]; by exists l |]. rewrite sh_ids_of. unfold ids. cbn.
  rewrite fmap_app. intros E. apply (f_equal length) in E. rewrite length_app, !length_fmap in E.
  pose proof (leaves_nonempty a). pose proof (leaves_nonempty b). destruct (leaves a), (leaves b); try done. cbn in E. lia.
Qed.

Lemma sh_heir_graft C f l :
  NoDup (ids (graft (C ++ [f]) (Leaf l))) →
  sh_heir (pn_id l) (shape_of (graft (C ++ [f]) (Leaf l))) = head (ids (sibling f)).
Proof.
  induction C as [|f' C IH]; intros Hnd; cbn [app] in *; apply NoDup_hole in Hnd as [Hnd Hno].
  - assert (sh_ids (shape_of (sibling f)) ≠ [pn_id l]) as Hne by (intros E; apply Hno; rewrite E; by left).
    destruct f; cbn [graft foldr plug shape_of sh_heir sibling] in *.
    + by rewrite bool_decide_eq_true_2, sh_ids_of.
    + by rewrite bool_decide_eq_false_2, bool_decide_eq_true_2, sh_ids_of.
  - specialize (IH Hnd).
    assert (sh_ids (shape_of (sibling f')) ≠ [pn_id l]) as Hne by (intros E; apply Hno; rewrite E; by left).
    assert (sh_ids (shape_of (graft (C ++ [f]) (Leaf l))) ≠ [pn_id l]) as Hne2.
    { intros (l' & E & _)%sh_ids_single. rewrite graft_app in E. by destruct C as [|[] C], f. }
    destruct f'; cbn [graft foldr plug shape_of sh_heir sibling] in *; fold (graft (C ++ [f]) (Leaf l)) in *;
      rewrite !bool_decide_eq_false_2 by done; rewrite IH.
    + destruct (ids (sibling f)) as [|x xs] eqn:E; [| done].
      apply (f_equal length) in E. unfold ids in E. rewrite length_fmap in E.
      destruct (leaves (sibling f)) eqn:E2; [by apply leaves_nonempty in E2 | done].
    + by rewrite sh_heir_other.
Qed.
