(* ===== verification/TileCorrect.v ===== *)
(** * The tile manager's heap is always the split tree

    [reps t T]: the heap of [t] holds the nodes of [T] and nothing else, laid
    out for the screen, with distinct ids.  Every operation keeps it, and does
    to the tree what its name says. *)

From stdpp Require Import gmap.
From S2P Require Import Prelude VtBuf Tile TileTree TileHeap.

Definition screen_rect (t : tile) : rect := mk_rect 0 0 (tl_cols t) (tl_rows t).

Record reps (t : tile) (T : tree) : Prop := {
  rp_heap : tl_heap t = heap_of T;
  rp_root : tl_root t = Some (addr_of T);
  rp_addrs : NoDup (addrs T);
  rp_ids : NoDup (ids T);
  rp_laid : T = lay T (screen_rect t);
  rp_count : pane_count t = zlen (leaves T);
  rp_screen : zlen (tl_screen t) = tl_rows t * tl_cols t;
  rp_prev : zlen (tl_prev t) = tl_rows t * tl_cols t;
  rp_dirty : zlen (tl_dirty t) = tl_rows t;
  rp_cols : 0 <= tl_cols t;
}.

Lemma reps_holds t T : reps t T → holds (tl_heap t) T.
Proof. intros H. rewrite (rp_heap _ _ H). apply holds_heap_of, H. Qed.
Lemma reps_fuel t T : reps t T → (depth T <= hfuel (tl_heap t))%nat.
Proof. intros H. rewrite (rp_heap _ _ H). apply fuel_heap_of, H. Qed.

Lemma leaves_lay T r : (λ l, (pn_addr l, pn_id l, pn_vt l)) <$> leaves (lay T r) = (λ l, (pn_addr l, pn_id l, pn_vt l)) <$> leaves T.
Proof.
  revert r; induction T as [l|p g v pos a IHa b IHb]; intros r; [done |].
  cbn [lay leaves]. by rewrite !fmap_app, IHa, IHb.
Qed.

Lemma ids_lay T r : ids (lay T r) = ids T.
Proof.
  unfold ids. pose proof (f_equal (fmap (λ x : addr * Z * ptr, x.1.2)) (leaves_lay T r)) as E.
  by rewrite <- !list_fmap_compose in E.
Qed.

Lemma length_leaves_lay T r : zlen (leaves (lay T r)) = zlen (leaves T).
Proof.
  unfold zlen. f_equal. pose proof (f_equal length (leaves_lay T r)) as E. by rewrite !length_fmap in E.
Qed.

(** Laying out a heap that is a tree's. *)
Lemma relayout_ok t T :
  tl_heap t = heap_of T → tl_root t = Some (addr_of T) → NoDup (addrs T) →
  relayout t = Some (with_heap (heap_of (lay T (screen_rect t))) t).
Proof.
  intros Hh Hr Hnd. unfold relayout. rewrite Hr, Hh.
  rewrite (tile_layout_ok (heap_of T) T _ (screen_rect t)); [| by apply fuel_heap_of | by apply holds_heap_of | done].
  cbn [mbind option_bind]. unfold heap_of. by rewrite put_same by apply addrs_lay.
Qed.

(** The state after a change of tree: nothing else of [reps] is lost. *)
Lemma reps_relayout t T :
  tl_heap t = heap_of T → tl_root t = Some (addr_of T) → NoDup (addrs T) → NoDup (ids T) →
  pane_count t = zlen (leaves T) →
  zlen (tl_screen t) = tl_rows t * tl_cols t → zlen (tl_prev t) = tl_rows t * tl_cols t →
  zlen (tl_dirty t) = tl_rows t → 0 <= tl_cols t →
  yields (relayout t) (λ t', t' = with_heap (heap_of (lay T (screen_rect t))) t ∧ reps t' (lay T (screen_rect t))).
Proof.
  intros Hh Hr Hnd Hid Hc Hs Hp Hd Hcols. rewrite (relayout_ok t T) by done. cbn [yields]. split; [done |].
  constructor; cbn [tl_heap tl_root tl_rows tl_cols tl_screen tl_prev tl_dirty pane_count with_heap]; try done.
  - by rewrite addr_of_lay.
  - by rewrite addrs_lay.
  - by rewrite ids_lay.
  - by rewrite lay_lay.
  - by rewrite length_leaves_lay.
Qed.

(** ** Relinking

    The branch of the hole [f] is made to point at [q] instead of [t]. *)

Lemma hole_node_a f q : nd_a (hole_node f q) = Some (match f with HoleA _ _ _ _ _ => q | HoleB _ _ _ _ a => addr_of a end).
Proof. by destruct f. Qed.

Lemma relink_ok C f t L q :
  NoDup (nodes (graft (C ++ [f]) t) ++ L).*1 →
  relink (list_to_map (nodes (graft (C ++ [f]) t) ++ L)) (Some (hole_addr f)) (Some (addr_of t)) (Some q)
    = Some (list_to_map (ctx_nodes (C ++ [f]) q ++ nodes t ++ L)).
Proof.
  intros Hnd. set (rest := ctx_nodes C (hole_addr f) ++ nodes (sibling f) ++ nodes t ++ L).
  assert (∀ q', ctx_nodes (C ++ [f]) q' ++ nodes t ++ L ≡ₚ (hole_addr f, hole_node f q') :: rest) as Hctx.
  { intros q'. rewrite ctx_nodes_app. cbn [ctx_nodes top_addr]. rewrite app_nil_r. unfold rest. solve_Permutation. }
  assert (nodes (graft (C ++ [f]) t) ++ L ≡ₚ (hole_addr f, hole_node f (addr_of t)) :: rest) as Hp.
  { rewrite nodes_graft, <- app_assoc. apply Hctx. }
  rewrite (list_to_map_proper (M := gmap addr) _ _ Hnd Hp).
  assert (NoDup ((hole_addr f, hole_node f (addr_of t)) :: rest).*1) as Hnd' by (by rewrite <- Hp).
  unfold relink. cbn [mbind option_bind]. rewrite list_to_map_cons, lookup_insert_eq. cbn [fst snd mbind option_bind].
  rewrite insert_insert_eq. f_equal.
  assert (NoDup (ctx_nodes (C ++ [f]) q ++ nodes t ++ L).*1) as Hnd2 by (by rewrite Hctx).
  rewrite (list_to_map_proper (M := gmap addr) _ _ Hnd2 (Hctx q)), list_to_map_cons. cbn [fst snd]. f_equal.
  destruct f as [p g v pos b | p g v pos a]; cbn [hole_node branch_node nd_a]; rewrite decide_Some_eq.
  - by rewrite bool_decide_eq_true_2.
  - rewrite bool_decide_eq_false_2; [done |]. intros E. cbn [fmap list_fmap] in Hnd'.
    apply NoDup_cons in Hnd' as [_ Hr]. unfold rest in Hr. cbn [sibling] in Hr. rewrite !fmap_app in Hr.
    apply NoDup_app in Hr as (_ & _ & Hr). apply NoDup_app in Hr as (_ & Hdis & _).
    apply (Hdis (addr_of a)); [apply addr_of_elem |]. rewrite E. apply elem_of_app. left. apply addr_of_elem.
Qed.

(** ** The operations *)

(** What the tree operations leave alone. *)
Definition same_screen (t t' : tile) : Prop :=
  tl_rows t' = tl_rows t ∧ tl_cols t' = tl_cols t ∧ tl_screen t' = tl_screen t ∧ tl_prev t' = tl_prev t ∧
  tl_dirty t' = tl_dirty t.

Lemma reps_find t T id : reps t T →
  node_find (hfuel (tl_heap t)) (tl_heap t) (tl_root t) id = Some (pn_addr <$> tfind T id).
Proof. intros H. rewrite (rp_root _ _ H). apply node_find_ok; [by apply reps_fuel | by apply reps_holds]. Qed.

Lemma reps_lookup_leaf t C l : reps t (graft C (Leaf l)) → tl_heap t !! pn_addr l = Some (leaf_node l).
Proof. intros H. by apply holds_leaf, (holds_part C), reps_holds. Qed.

Lemma leaf_in C l : l ∈ leaves (graft C (Leaf l)).
Proof. rewrite leaves_graft. cbn [leaves]. rewrite !elem_of_app. right. left. by left. Qed.

Lemma reps_find_leaf t C l : reps t (graft C (Leaf l)) →
  node_find (hfuel (tl_heap t)) (tl_heap t) (tl_root t) (pn_id l) = Some (Some (pn_addr l)).
Proof.
  intros H. rewrite (reps_find t _ _ H). rewrite (tfind_leaf _ l); [done | apply H | apply leaf_in].
Qed.

(** More fuel and a bigger heap do not change what a tree's searches find. *)
Lemma leaf_parent_in C l h :
  NoDup (ids (graft C (Leaf l))) → holds h (graft C (Leaf l)) → (depth (graft C (Leaf l)) <= hfuel h)%nat →
  node_find_leaf_parent (hfuel h) h (Some (addr_of (graft C (Leaf l)))) (pn_id l) = Some (hole_addr <$> last C).
Proof. intros Hid Hh Hf. by rewrite node_find_leaf_parent_ok, tparent_graft. Qed.

Section Ops.
Context (malloc : heap → addr) (malloc_fresh : ∀ h, h !! malloc h = None).

Lemma tile_new_ok rows cols :
  0 <= rows → 0 <= cols →
  yields (tile_new malloc rows cols) (λ t,
    reps t (Leaf (mk_pane (malloc ∅) (mk_rect 0 0 cols rows) 0 None)) ∧
    tl_rows t = rows ∧ tl_cols t = cols ∧ focused_id t = 0).
Proof.
  intros Hr Hc. unfold tile_new, xcalloc, node_new. destruct (Z.ltb_spec (rows * cols) 0); [nia |].
  destruct (Z.ltb_spec rows 0); [lia |]. cbn [mbind option_bind].
  match goal with |- yields (relayout ?t0) _ => set (t := t0) end.
  eapply yields_mono; [apply (reps_relayout t (Leaf (mk_pane (malloc ∅) (mk_rect 0 0 0 0) 0 None))) |];
    try done; cbn [t tl_screen tl_prev tl_dirty tl_rows tl_cols].
  - apply NoDup_singleton.
  - apply NoDup_singleton.
  - apply zlen_replicate. lia.
  - apply zlen_replicate. lia.
  - by apply zlen_replicate.
  - intros t' [-> Ht']. split; [exact Ht' | done].
Qed.

(** The heap and root of the tree with a leaf split in two. *)
Definition split_at (C : list hole) (l n : pane) (b : addr) (v : bool) : tree :=
  graft C (Branch b (mk_rect 0 0 0 0) v 128 (Leaf l) (Leaf n)).

Lemma nodes_split C l n b v :
  pn_rect n = mk_rect 0 0 0 0 →
  nodes (split_at C l n b v) ≡ₚ
    ctx_nodes C b ++ nodes (Leaf l) ++
      [(b, branch_node (mk_rect 0 0 0 0) v 128 (pn_addr l) (pn_addr n)); (pn_addr n, leaf_node n)].
Proof. intros Hn. unfold split_at. rewrite nodes_graft. cbn [nodes addr_of]. solve_Permutation. Qed.

Lemma split_fits (v : bool) dir (l : pane) :
  dir = dir_of v → 3 <= (if v then rw (pn_rect l) else rh (pn_rect l)) →
  bool_decide (dir = TILE_SPLIT_H) && (nd_h (leaf_node l) <? 3)
    || bool_decide (dir = TILE_SPLIT_V) && (nd_w (leaf_node l) <? 3) = false.
Proof.
  intros -> H. destruct v; cbn; rewrite ?andb_false_r, ?orb_false_r; zbool; cbn in *; lia.
Qed.

Lemma ids_split C l n b v : ids (split_at C l n b v) ≡ₚ pn_id n :: ids (graft C (Leaf l)).
Proof. unfold split_at. rewrite !ids_graft. unfold ids. cbn. solve_Permutation. Qed.

Lemma zlen_leaves_split C l n b v : zlen (leaves (split_at C l n b v)) = zlen (leaves (graft C (Leaf l))) + 1.
Proof. unfold split_at. rewrite !leaves_graft, !zlen_app. cbn [leaves app]. rewrite !zlen_cons, zlen_nil. lia. Qed.

(** Two fresh nodes beside a tree. *)
Lemma two_nodes T b bn q qn :
  NoDup (addrs T) → b ∉ addrs T → q ∉ addrs T → b ≠ q →
  NoDup (nodes T ++ [(b, bn); (q, qn)]).*1 ∧
  <[b := bn]> (<[q := qn]> (heap_of T)) = list_to_map (nodes T ++ [(b, bn); (q, qn)]).
Proof.
  intros Hnd Hb Hq Hbq.
  assert (NoDup (nodes T ++ [(b, bn); (q, qn)]).*1) as H.
  { rewrite fmap_app. apply NoDup_app. split; [done |]. split.
    - intros p Hp. cbn. rewrite !elem_of_cons. intros [->|[->|?%elem_of_nil]]; done.
    - cbn. apply NoDup_cons. split; [by rewrite list_elem_of_singleton | apply NoDup_singleton]. }
  split; [exact H |].
  by rewrite (list_to_map_proper (M := gmap addr) _ ([(b, bn); (q, qn)] ++ nodes T)) by (done || apply Permutation_app_comm).
Qed.

(** A list of nodes that holds a tree's is a heap for it. *)
Lemma holds_list T L : NoDup (nodes T ++ L).*1 →
  holds (list_to_map (nodes T ++ L)) T ∧ (depth T <= hfuel (list_to_map (nodes T ++ L)))%nat.
Proof.
  intros Hnd. split.
  - apply Forall_forall. intros [q m] Hin. apply elem_of_list_to_map_1; [done |]. apply elem_of_app. by left.
  - unfold hfuel. rewrite map_size_list_to_map, length_app by done. pose proof (depth_nodes T). lia.
Qed.

Lemma yields_step {A B} (m : option A) (k : A → option B) Q a : m = Some a → yields (k a) Q → yields (m ≫= k) Q.
Proof. by intros ->. Qed.

(** Splicing a branch in above a leaf, at the root or under its parent. *)
Lemma splice_ok C l n b v (t : tile) :
  pn_rect n = mk_rect 0 0 0 0 → tl_root t = Some (addr_of (graft C (Leaf l))) →
  let L := [(b, branch_node (mk_rect 0 0 0 0) v 128 (pn_addr l) (pn_addr n)); (pn_addr n, leaf_node n)] in
  NoDup (nodes (graft C (Leaf l)) ++ L).*1 →
  NoDup (addrs (split_at C l n b v)) ∧
  match hole_addr <$> last C with
  | Some _ => h ← relink (list_to_map (nodes (graft C (Leaf l)) ++ L)) (hole_addr <$> last C) (Some (pn_addr l)) (Some b);
      Some (with_heap h t)
  | None => Some (with_root (Some b) (with_heap (list_to_map (nodes (graft C (Leaf l)) ++ L)) t))
  end = Some (with_root (Some (addr_of (split_at C l n b v))) (with_heap (heap_of (split_at C l n b v)) t)).
Proof.
  intros Hn Hr L HndL. pose proof (nodes_split C l n b v Hn) as Hperm. fold L in Hperm.
  assert (NoDup (addrs (split_at C l n b v))) as HndT.
  { unfold addrs. rewrite Hperm. rewrite nodes_graft, <- app_assoc, fmap_app in HndL.
    rewrite fmap_app, (ctx_addrs C b (addr_of (Leaf l))). exact HndL. }
  split; [exact HndT |]. rewrite (heap_of_perm _ _ HndT Hperm).
  destruct C as [|f C _] using rev_ind; [done |].
  rewrite last_snoc. cbn [fmap option_fmap option_map].
  change (Some (pn_addr l)) with (Some (addr_of (Leaf l))). rewrite relink_ok by done. cbn [mbind option_bind].
  destruct t. unfold with_root, with_heap. cbn in *. subst. do 2 f_equal. unfold split_at. rewrite !graft_app.
  by destruct C as [|[] C], f.
Qed.

Lemma split_ok t C l (v : bool) new vt :
  reps t (graft C (Leaf l)) → new ∉ ids (graft C (Leaf l)) → 3 <= (if v then rw (pn_rect l) else rh (pn_rect l)) →
  yields (tile_split malloc t (pn_id l) (dir_of v) new vt) (λ x, x.1 = 0 ∧
    same_screen t x.2 ∧ focused_id x.2 = focused_id t ∧
    ∃ b n, pn_id n = new ∧ pn_vt n = vt ∧ (b ∉ addrs (graft C (Leaf l))) ∧ (pn_addr n ∉ addrs (graft C (Leaf l))) ∧
      reps x.2 (lay (split_at C l n b v) (screen_rect t))).
Proof.
  intros Hrep Hnew Hroom. pose proof Hrep as [Hh Hr Hnd Hid Hl Hc Hs Hpv Hdy Hcols].
  unfold tile_split. rewrite bool_decide_eq_false_2 by (by destruct v).
  rewrite (reps_find_leaf _ _ _ Hrep). cbn [mbind option_bind]. rewrite (reps_lookup_leaf _ _ _ Hrep).
  cbn [mbind option_bind]. rewrite (split_fits v _ l eq_refl Hroom). unfold node_new.
  set (ln := malloc (tl_heap t)). set (n := mk_pane ln (mk_rect 0 0 0 0) new vt).
  set (h1 := <[ln := _]> (tl_heap t)). set (b := malloc h1).
  assert (ln ∉ addrs (graft C (Leaf l))) as Hln by (rewrite <- fresh_addr, <- Hh; apply malloc_fresh).
  assert (h1 !! b = None) as Hb1 by apply malloc_fresh.
  assert (b ≠ ln) as Hbl by (intros E; unfold h1 in Hb1; rewrite E, lookup_insert_eq in Hb1; done).
  assert (b ∉ addrs (graft C (Leaf l))) as Hb.
  { rewrite <- fresh_addr, <- Hh. unfold h1 in Hb1. by rewrite lookup_insert_ne in Hb1. }
  destruct (two_nodes _ b (branch_node (mk_rect 0 0 0 0) v 128 (pn_addr l) ln) ln (leaf_node n) Hnd Hb Hln Hbl) as [HndL Hh2].
  match goal with |- context [<[b := ?x]> h1] => set (h2 := <[b := x]> h1) end.
  assert (h2 = list_to_map (nodes (graft C (Leaf l)) ++ _)) as -> by (rewrite <- Hh2, <- Hh; done). clear Hh2.
  destruct (holds_list _ _ HndL) as [Hhold Hfuel]. rewrite Hr, leaf_parent_in by done. cbn [mbind option_bind].
  destruct (splice_ok C l n b v t eq_refl Hr HndL) as [HndT Hsp].
  eapply yields_step; [exact Hsp |].
  eapply yields_seq.
  - apply (reps_relayout _ (split_at C l n b v)); cbn [with_count with_root with_heap tl_heap tl_root pane_count
      tl_screen tl_rows tl_cols tl_prev tl_dirty]; try done.
    + rewrite ids_split. by apply NoDup_cons.
    + rewrite zlen_leaves_split. lia.
  - intros t' [-> Ht']. cbn [yields fst snd]. split_and!; [done | by split_and! | done |]. by exists b, n.
Qed.

(** A pane that is not there, or too small, is not split. *)
Lemma split_refused t T id dir new vt :
  reps t T → (∀ l, l ∈ leaves T → pn_id l = id →
    dir = TILE_LEAF ∨ dir = TILE_SPLIT_H ∧ rh (pn_rect l) < 3 ∨ dir = TILE_SPLIT_V ∧ rw (pn_rect l) < 3) →
  tile_split malloc t id dir new vt = Some (-1, t).
Proof.
  intros Hrep Hno. unfold tile_split. case_bool_decide as Hd; [done |]. rewrite (reps_find _ _ _ Hrep).
  destruct (tfind T id) as [l|] eqn:E; [| done]. apply tfind_elem in E as [Hl Hid].
  destruct (leaf_path T l Hl) as [C ->]. cbn [fmap option_fmap option_map mbind option_bind].
  rewrite (reps_lookup_leaf _ _ _ Hrep). cbn [mbind option_bind].
  destruct (Hno l Hl Hid) as [?|[[-> H]|[-> H]]]; [done | |]; apply Z.ltb_lt in H;
    cbn [leaf_node nd_h nd_w]; rewrite H; by rewrite ?orb_true_r.
Qed.
End Ops.

(** ** Closing *)

Definition first_id (T : tree) : Z := match leaves T with [] => 0 | l :: _ => pn_id l end.

Lemma close_focus_ok h T focus :
  holds h T → (depth T <= hfuel h)%nat → close_focus h (Some (addr_of T)) focus = Some (first_id T).
Proof.
  intros Hh Hf. unfold close_focus, first_id. cbn [mbind option_bind].
  destruct T as [l|p g v pos a b] eqn:ET.
  - apply holds_leaf in Hh. cbn [addr_of]. rewrite Hh. cbn [mbind option_bind]. by rewrite is_leaf_leaf.
  - rewrite <- ET in *. assert (h !! addr_of T = Some (node_of T)) as E.
    { rewrite ET in Hh |- *. apply holds_branch in Hh as [Hp _]. exact Hp. }
    rewrite E. cbn [mbind option_bind].
    assert (is_leaf (node_of T) = false) as -> by (rewrite ET; apply is_leaf_branch).
    rewrite leaves_collect_ok by done. cbn [mbind option_bind app length].
    destruct (leaves T) as [|l ls] eqn:EL; [by apply leaves_nonempty in EL |].
    change (MAX_PANES - 0)%nat with (S 63). cbn [fmap list_fmap take].
    destruct (leaf_path T l) as [C EC]; [rewrite EL; left |].
    rewrite EC in Hh. apply holds_part, holds_leaf in Hh. by rewrite Hh.
Qed.

(** The nodes a close frees. *)
Lemma nodes_close C f l :
  nodes (graft (C ++ [f]) (Leaf l)) ≡ₚ
    ctx_nodes C (hole_addr f) ++ nodes (sibling f) ++ [(hole_addr f, hole_node f (pn_addr l)); (pn_addr l, leaf_node l)].
Proof.
  rewrite nodes_graft, ctx_nodes_app. cbn [ctx_nodes top_addr nodes addr_of]. rewrite app_nil_r. solve_Permutation.
Qed.

(** Unlinking the parent of a leaf: the sibling takes its place. *)
Lemma unlink_ok C f l (t : tile) :
  let T := graft (C ++ [f]) (Leaf l) in
  let L := [(hole_addr f, hole_node f (pn_addr l)); (pn_addr l, leaf_node l)] in
  tl_heap t = heap_of T → tl_root t = Some (addr_of T) → NoDup (addrs T) →
  NoDup (nodes (graft C (sibling f)) ++ L).*1 ∧
  ∃ gp,
    (if bool_decide (tl_root t = Some (hole_addr f)) then Some None
     else node_find_branch_parent (hfuel (tl_heap t)) (tl_heap t) (tl_root t) (Some (hole_addr f))) = Some gp ∧
    negb (bool_decide (tl_root t = Some (hole_addr f))) && bool_decide (gp = None) = false ∧
    (if bool_decide (tl_root t = Some (hole_addr f)) then Some (with_root (Some (addr_of (sibling f))) t)
     else h ← relink (tl_heap t) gp (Some (hole_addr f)) (Some (addr_of (sibling f))); Some (with_heap h t)) =
    Some (with_root (Some (addr_of (graft C (sibling f)))) (with_heap (list_to_map (nodes (graft C (sibling f)) ++ L)) t)).
Proof.
  intros T L Hh Hr Hnd. pose proof (nodes_close C f l) as Hp. fold T L in Hp.
  assert (NoDup (nodes (graft C (sibling f)) ++ L).*1) as HndL.
  { unfold addrs in Hnd. rewrite Hp, fmap_app in Hnd. rewrite nodes_graft, <- app_assoc, fmap_app.
    by rewrite (ctx_addrs C _ (hole_addr f)). }
  split; [exact HndL |].
  destruct C as [|f' C _] using rev_ind.
  - assert (addr_of T = hole_addr f) as ET by (by destruct f). rewrite Hr, ET, bool_decide_eq_true_2 by done.
    exists None. split_and!; [done | done |]. cbn [graft foldr].
    destruct t. unfold with_root, with_heap, heap_of, addrs in *. cbn in *. subst. do 2 f_equal.
    by apply list_to_map_proper.
  - assert (T = graft (C ++ [f']) (plug f (Leaf l))) as ET by (unfold T; by rewrite graft_app).
    assert (addr_of (plug f (Leaf l)) = hole_addr f) as Ef by (by destruct f).
    assert (addr_of T ≠ hole_addr f) as Hne.
    { rewrite ET. intros E. rewrite ET, addrs_graft in Hnd. rewrite addr_of_graft in E.
      destruct C as [|f0 C]; cbn [app top_addr ctx_nodes fmap list_fmap fst] in *;
        apply NoDup_cons in Hnd as [Hno _]; apply Hno; rewrite E, elem_of_app; right; rewrite <- Ef; apply addr_of_elem. }
    rewrite Hr, bool_decide_eq_false_2 by congruence. rewrite Hh. exists (Some (hole_addr f')). split_and!; [| done |].
    { rewrite node_find_branch_parent_ok by (by apply fuel_heap_of || by apply holds_heap_of).
      rewrite <- Ef, ET, tbparent_graft, last_snoc by (rewrite <- ?ET; done || by destruct C). done. }
    pose proof (relink_ok C f' (plug f (Leaf l)) [] (addr_of (sibling f))) as Hrl. rewrite !app_nil_r in Hrl.
    rewrite <- ET, Ef in Hrl. unfold heap_of. rewrite Hrl by done. cbn [mbind option_bind].
    assert (list_to_map (ctx_nodes (C ++ [f']) (addr_of (sibling f)) ++ nodes (plug f (Leaf l)))
      = (list_to_map (nodes (graft (C ++ [f']) (sibling f)) ++ L) : heap)) as ->.
    { symmetry. apply list_to_map_proper; [done |]. rewrite nodes_graft, <- app_assoc. apply Permutation_app_head.
      unfold L. destruct f; cbn [plug nodes sibling hole_addr hole_node addr_of]; solve_Permutation. }
    assert (addr_of (graft (C ++ [f']) (sibling f)) = addr_of T) as -> by (rewrite ET, !addr_of_graft; by destruct C).
    rewrite <- Hr. by destruct t.
Qed.

(** The two frees of a close leave the tree. *)
Lemma free_two T p n l g :
  NoDup (nodes T ++ [(p, n); (pn_addr l, leaf_node l)]).*1 →
  let h := list_to_map (nodes T ++ [(p, n); (pn_addr l, leaf_node l)]) in
  (h' ← node_free (hfuel h) h (Some (pn_addr l)); h' ← set_node p g h'; Some (delete p h')) = Some (heap_of T).
Proof.
  intros Hnd h.
  assert (h !! pn_addr l = Some (leaf_node l) ∧ h !! p = Some n) as [Hl Hp].
  { split; apply elem_of_list_to_map_1; [done | | done |]; rewrite elem_of_app, !elem_of_cons; tauto. }
  rewrite fmap_app in Hnd. cbn in Hnd. apply NoDup_app in Hnd as (Hnd & Hdis & Hpl).
  apply NoDup_cons in Hpl as [Hpl _]. rewrite list_elem_of_singleton in Hpl.
  rewrite (node_free_ok h (Leaf l)) by (by apply holds_leaf || apply NoDup_singleton || (unfold hfuel; cbn; lia)).
  cbn [mbind option_bind]. unfold set_node. rewrite wipe_lookup, decide_False, Hp by (by unfold addrs; cbn; rewrite list_elem_of_singleton).
  cbn [mbind option_bind]. f_equal. apply map_eq. intros q.
  assert (∀ q, q ∈ addrs T → q ≠ p ∧ q ≠ pn_addr l) as Hout.
  { intros q' Hq'. specialize (Hdis q' Hq'). rewrite !elem_of_cons in Hdis. tauto. }
  destruct (decide (q = p)) as [->|Hqp].
  { rewrite lookup_delete_eq. symmetry. apply fresh_addr. intros ?%Hout. tauto. }
  rewrite lookup_delete_ne, lookup_insert_ne, wipe_lookup by done. unfold addrs at 1. cbn [nodes fmap list_fmap fst].
  destruct (decide (q ∈ [pn_addr l])) as [->%list_elem_of_singleton|Hq].
  { symmetry. apply fresh_addr. intros ?%Hout. tauto. }
  rewrite list_elem_of_singleton in Hq. unfold h, heap_of. rewrite list_to_map_app.
  destruct ((list_to_map (nodes T) : heap) !! q) as [m|] eqn:E.
  - by apply lookup_union_Some_l.
  - rewrite lookup_union_r by done. cbn. rewrite !lookup_insert_ne by done. apply lookup_empty.
Qed.

Definition focus_after (t : tile) (id : Z) (sib : tree) : Z :=
  if focused_id t =? id then first_id sib else focused_id t.

Lemma zlen_leaves_pos T : 1 <= zlen (leaves T).
Proof.
  destruct (leaves T) as [|x xs] eqn:E; [by apply leaves_nonempty in E |].
  rewrite zlen_cons. pose proof (zlen_nonneg xs). lia.
Qed.

Lemma zlen_leaves_close C f l :
  zlen (leaves (graft (C ++ [f]) (Leaf l))) = zlen (leaves (graft C (sibling f))) + 1.
Proof.
  rewrite graft_app, !leaves_graft, !zlen_app. cbn [graft foldr]. destruct f; cbn;
    rewrite ?app_nil_r, ?zlen_cons, ?zlen_nil; lia.
Qed.

Lemma ids_close C f l : ids (graft (C ++ [f]) (Leaf l)) ≡ₚ pn_id l :: ids (graft C (sibling f)).
Proof.
  rewrite graft_app, !ids_graft. cbn [graft foldr]. destruct f; unfold ids; cbn [plug leaves sibling before after map concat];
    rewrite !fmap_app; cbn; rewrite ?app_nil_r; solve_Permutation.
Qed.

(** Which child of its parent a leaf is. *)
Lemma close_sides C f l h :
  NoDup (ids (graft (C ++ [f]) (Leaf l))) → holds h (graft (C ++ [f]) (Leaf l)) →
  h !! hole_addr f = Some (hole_node f (pn_addr l)) ∧ holds h (sibling f) ∧
  ∃ in_a, leaf_has h (nd_a (hole_node f (pn_addr l))) (pn_id l) = Some in_a ∧
    (if (in_a : bool) then (nd_a (hole_node f (pn_addr l)), nd_b (hole_node f (pn_addr l)))
     else (nd_b (hole_node f (pn_addr l)), nd_a (hole_node f (pn_addr l)))) = (Some (pn_addr l), Some (addr_of (sibling f))).
Proof.
  intros Hid Hh. rewrite graft_app in Hh. apply holds_part in Hh. rewrite graft_app, ids_graft in Hid.
  apply NoDup_app in Hid as (_ & _ & Hid). apply NoDup_app in Hid as (Hid & _ & _). cbn [graft foldr] in *.
  destruct f as [p g v pos b | p g v pos a]; cbn [plug] in *; apply holds_branch in Hh as (Hp & Ha & Hb);
    (split; [exact Hp |]); (split; [done |]); cbn [hole_node branch_node nd_a nd_b sibling].
  - exists true. split; [| done]. rewrite (leaf_has_ok h (Leaf l)) by done. cbn. by rewrite Z.eqb_refl.
  - exists false. split; [| done]. rewrite leaf_has_ok by done. f_equal.
    destruct (has_leaf a (pn_id l)) eqn:E; [| done]. apply has_leaf_ids in E.
    unfold ids in Hid. cbn [leaves] in Hid. rewrite fmap_app in Hid. apply NoDup_app in Hid as (_ & Hdis & _).
    exfalso. apply (Hdis _ E). by left.
Qed.

Lemma close_ok t C f l :
  reps t (graft (C ++ [f]) (Leaf l)) →
  yields (tile_close t (pn_id l)) (λ x, x.1 = 0 ∧ same_screen t x.2 ∧
    focused_id x.2 = focus_after t (pn_id l) (sibling f) ∧
    reps x.2 (lay (graft C (sibling f)) (screen_rect t))).
Proof.
  intros Hrep. pose proof Hrep as [Hh Hr Hnd Hid Hl Hc Hs Hpv Hdy Hcols].
  pose proof (zlen_leaves_close C f l) as Hlen. pose proof (zlen_leaves_pos (graft C (sibling f))).
  pose proof (reps_holds _ _ Hrep) as Hhold.
  destruct (close_sides C f l _ Hid Hhold) as (Ep & Hsib & in_a & Ein & Esides).
  destruct (unlink_ok C f l t Hh Hr Hnd) as (HndL & gp & Egp & Eneg & Et1).
  unfold tile_close. destruct (Z.leb_spec (pane_count t) 1); [lia |].
  eapply yields_step.
  { rewrite Hr. rewrite leaf_parent_in by (done || by apply (reps_fuel _ _ Hrep)). rewrite last_snoc. reflexivity. }
  cbn [fmap option_fmap option_map]. eapply yields_step; [exact Ep |]. eapply yields_step; [exact Ein |].
  rewrite Esides. eapply yields_step; [exact Egp |]. rewrite Eneg. eapply yields_step; [exact Et1 |].
  set (t1 := with_root (Some (addr_of (graft C (sibling f)))) _) in *.
  set (T' := graft C (sibling f)) in *. set (L := [_; _]) in *.
  assert (holds (tl_heap t1) T' ∧ (depth T' <= hfuel (tl_heap t1))%nat) as [Ht1 Hf1] by (by apply holds_list).
  eapply (yields_step _ _ _ (focus_after t (pn_id l) (sibling f))).
  { unfold focus_after. change (focused_id t1) with (focused_id t). destruct (focused_id t =? pn_id l); [| done].
    apply close_focus_ok; [by apply (holds_part C) |]. eapply Nat.le_trans; [apply (depth_part C) | exact Hf1]. }
  pose proof (free_two T' (hole_addr f) (hole_node f (pn_addr l)) l (λ n, {| n with nd_a := None; nd_b := None |}) HndL) as Hfree.
  cbn zeta in Hfree. fold L in Hfree. change (list_to_map (nodes T' ++ L)) with (tl_heap t1) in Hfree.
  destruct (node_free (hfuel (tl_heap t1)) (tl_heap t1) (Some (pn_addr l))) as [h2|]; [| done].
  cbn [mbind option_bind] in Hfree |- *.
  destruct (set_node (hole_addr f) _ h2) as [h3|]; [| done]. cbn [mbind option_bind] in Hfree |- *.
  injection Hfree as Hfree. rewrite Hfree.
  eapply yields_seq.
  - apply (reps_relayout _ T'); cbn [with_count with_focus with_root with_heap t1 tl_heap tl_root pane_count
      tl_screen tl_rows tl_cols tl_prev tl_dirty]; try done.
    + rewrite fmap_app in HndL. apply NoDup_app in HndL. tauto.
    + rewrite ids_close in Hid. apply NoDup_cons in Hid. tauto.
    + lia.
  - intros t' [-> Ht']. cbn [yields fst snd]. split_and!; [done | by split_and! | done | exact Ht'].
Qed.

(** A pane that is not there, or the only one, is not closed. *)
Lemma close_refused t T id :
  reps t T → id ∉ ids T ∨ zlen (leaves T) <= 1 → tile_close t id = Some (-1, t).
Proof.
  intros Hrep Hno. unfold tile_close. destruct (Z.leb_spec (pane_count t) 1) as [|H]; [done |].
  rewrite (rp_count _ _ Hrep) in H. destruct Hno as [Hno|]; [| lia].
  rewrite (rp_root _ _ Hrep), node_find_leaf_parent_ok by (by apply reps_fuel || by apply reps_holds).
  by rewrite tparent_None.
Qed.

(** ** Changing one node *)

Lemma nodes_root T : nodes T = (addr_of T, node_of T) :: tail (nodes T).
Proof. by destruct T. Qed.

(** A node changed in place, everything below it as it was. *)
Lemma heap_root_update C s s' :
  addr_of s' = addr_of s → tail (nodes s') = tail (nodes s) → NoDup (addrs (graft C s)) →
  NoDup (addrs (graft C s')) ∧ heap_of (graft C s') = <[addr_of s := node_of s']> (heap_of (graft C s)).
Proof.
  intros Ea Et Hnd.
  assert (∀ s0, nodes (graft C s0) ≡ₚ (addr_of s0, node_of s0) :: tail (nodes s0) ++ ctx_nodes C (addr_of s0)) as Hperm.
  { intros s0. rewrite nodes_graft. rewrite (nodes_root s0) at 1. solve_Permutation. }
  pose proof (Hperm s) as H1. pose proof (Hperm s') as H2. rewrite Ea, Et in H2.
  assert (NoDup (addrs (graft C s'))) as Hnd'.
  { unfold addrs in *. rewrite H1 in Hnd. rewrite H2. exact Hnd. }
  split; [exact Hnd' |]. rewrite (heap_of_perm _ _ Hnd H1), (heap_of_perm _ _ Hnd' H2).
  by rewrite !list_to_map_cons, insert_insert_eq.
Qed.

Lemma set_window_ok t C l id vt :
  let l' := {| l with pn_id := id; pn_vt := vt |} in
  reps t (graft C (Leaf l)) → id = pn_id l ∨ id ∉ ids (graft C (Leaf l)) →
  yields (tile_set_window t (pn_id l) id vt) (λ x, x.1 = 0 ∧ same_screen t x.2 ∧ focused_id x.2 = focused_id t ∧
    reps x.2 (graft C (Leaf l'))).
Proof.
  intros l' Hrep Hid'. pose proof Hrep as [Hh Hr Hnd Hid Hl Hc Hs Hpv Hdy Hcols].
  unfold tile_set_window. rewrite (reps_find_leaf _ _ _ Hrep). cbn [mbind option_bind]. unfold set_node.
  rewrite (reps_lookup_leaf _ _ _ Hrep). cbn [mbind option_bind yields fst snd].
  split_and!; [done | by split_and! | done |].
  destruct (heap_root_update C (Leaf l) (Leaf l') eq_refl eq_refl Hnd) as [Hnd' Hh'].
  constructor; cbn [with_heap tl_heap tl_root tl_rows tl_cols tl_screen tl_prev tl_dirty pane_count]; try done.
  - rewrite Hh' , Hh. done.
  - rewrite Hr. by destruct C as [|[] C].
  - rewrite ids_graft in Hid, Hid' |- *. cbn [ids leaves fmap list_fmap] in *.
    destruct Hid' as [-> | Hno]; [exact Hid |]. revert Hid Hno.
    rewrite !(Permutation_app_comm _ (_ ++ _)), <- !app_assoc. cbn [app]. 
    rewrite !NoDup_cons, !elem_of_app, elem_of_cons. cbn [pn_id]. rewrite !elem_of_app. tauto.
  - rewrite lay_graft. apply graft_laid in Hl as [HC Hleaf]. fold (screen_rect t) in *.
    change (screen_rect (with_heap _ t)) with (screen_rect t). rewrite <- HC. f_equal.
    cbn [lay] in *. injection Hleaf as Hleaf. f_equal. apply (f_equal pn_rect) in Hleaf. cbn in Hleaf. unfold l'. cbn. by rewrite <- Hleaf.
  - rewrite Hc, !leaves_graft, !zlen_app. done.
Qed.

(** ** Forgetting a terminal *)

Definition forget_leaf (vt : ptr) (l : pane) : pane :=
  if bool_decide (pn_vt l = vt) then {| l with pn_vt := None |} else l.

Fixpoint forget_tree (vt : ptr) (T : tree) : tree :=
  match T with
  | Leaf l => Leaf (forget_leaf vt l)
  | Branch p g v pos a b => Branch p g v pos (forget_tree vt a) (forget_tree vt b)
  end.

Lemma addr_of_forget vt T : addr_of (forget_tree vt T) = addr_of T.
Proof. destruct T; [| done]. cbn. unfold forget_leaf. by case_bool_decide. Qed.

Lemma addrs_forget vt T : addrs (forget_tree vt T) = addrs T.
Proof.
  induction T as [l|p g v pos a IHa b IHb]; [unfold addrs; cbn; unfold forget_leaf; by case_bool_decide |].
  cbn [forget_tree]. by rewrite !addrs_branch, IHa, IHb.
Qed.

Lemma leaves_forget vt T : leaves (forget_tree vt T) = map (forget_leaf vt) (leaves T).
Proof. induction T as [l|p g v pos a IHa b IHb]; [done |]. cbn. by rewrite IHa, IHb, map_app. Qed.

Lemma ids_forget vt T : ids (forget_tree vt T) = ids T.
Proof.
  unfold ids. rewrite leaves_forget. rewrite <- list_fmap_compose. apply list_fmap_ext. intros _ l _.
  unfold compose, forget_leaf. by case_bool_decide.
Qed.

Lemma lay_forget vt T r : lay (forget_tree vt T) r = forget_tree vt (lay T r).
Proof.
  revert r; induction T as [l|p g v pos a IHa b IHb]; intros r; cbn [lay forget_tree].
  - unfold forget_leaf. cbn [pn_vt]. by case_bool_decide.
  - by rewrite IHa, IHb.
Qed.

Lemma node_forget_vt_ok h T k vt :
  (depth T <= k)%nat → holds h T → NoDup (addrs T) →
  node_forget_vt k h (Some (addr_of T)) vt = Some (put (forget_tree vt T) h).
Proof.
  intros Hk Hh Hnd. revert k h Hk Hh Hnd.
  induction T as [l|p g v pos a IHa b IHb]; intros [|k] h; cbn [depth]; intros Hk Hh Hnd; try lia; heap_step;
    cbn [node_forget_vt addr_of].
  - rewrite Hh. cbn [mbind option_bind]. rewrite is_leaf_leaf. cbn [leaf_node nd_vt forget_tree]. f_equal.
    unfold forget_leaf. case_bool_decide; rewrite <- put_leaf; [done |]. by rewrite insert_id.
  - rewrite Hp. cbn [mbind option_bind]. rewrite is_leaf_branch. cbn [nd_a nd_b branch_node forget_tree].
    rewrite put_branch by (by rewrite addrs_branch, !addrs_forget, <- (addrs_branch p g v pos)).
    rewrite !addr_of_forget, insert_id by done.
    rewrite addrs_branch in Hnd. apply NoDup_cons in Hnd as [Hno Hnd]. apply NoDup_app in Hnd as (Hna & Hdis & Hnb).
    rewrite IHa by (done || lia). cbn [mbind option_bind]. apply IHb; [lia | | done].
    apply holds_put; [done |]. intros q. rewrite addrs_forget. apply Hdis.
Qed.

Lemma forget_vt_ok t T vt :
  reps t T →
  yields (tile_forget_vt t vt) (λ t', same_screen t t' ∧ focused_id t' = focused_id t ∧
    reps t' (match vt with Some _ => forget_tree vt T | None => T end)).
Proof.
  intros Hrep. pose proof Hrep as [Hh Hr Hnd Hid Hl Hc Hs Hpv Hdy Hcols].
  unfold tile_forget_vt. destruct vt as [q|]; [| by split_and!].
  rewrite Hr, node_forget_vt_ok by (done || by apply reps_fuel || by apply reps_holds).
  cbn [mbind option_bind yields]. rewrite Hh. unfold heap_of. rewrite put_same by apply addrs_forget.
  split_and!; [by split_and! | done |].
  constructor; cbn [with_heap tl_heap tl_root tl_rows tl_cols tl_screen tl_prev tl_dirty pane_count]; try done.
  - by rewrite addr_of_forget.
  - by rewrite addrs_forget.
  - by rewrite ids_forget.
  - rewrite lay_forget. change (screen_rect (with_heap _ t)) with (screen_rect t). by rewrite <- Hl.
  - by rewrite leaves_forget, zlen_map.
Qed.
