(* ===== verification/TileSession.v ===== *)
(** * Focus, resizing, and whole sessions of the tile manager *)

From stdpp Require Import gmap.
From S2P Require Import Prelude VtBuf Tile TileTree TileHeap TileSpec TileCorrect.

(** ** Focus *)

Lemma ids_at_ok h ls :
  (∀ l, l ∈ ls → h !! pn_addr l = Some (leaf_node l)) → ids_at h (pn_addr <$> ls) = Some (pn_id <$> ls).
Proof.
  unfold ids_at. induction ls as [|l ls IH]; intros H; [done |]. cbn [fmap list_fmap mapM].
  rewrite H by left. cbn [mbind option_bind]. rewrite IH; [done |]. intros l' Hl'. apply H. by right.
Qed.

Lemma reps_leaf t T l : reps t T → l ∈ leaves T → tl_heap t !! pn_addr l = Some (leaf_node l).
Proof. intros Hrep [C ->]%leaf_path. by eapply reps_lookup_leaf. Qed.

(** The panes the focus operations see: the first 64. *)
Definition seen (T : tree) : list pane := take MAX_PANES (leaves T).

Lemma seen_leaves T l : l ∈ seen T → l ∈ leaves T.
Proof.
  unfold seen. intros [i Hi]%list_elem_of_lookup. apply lookup_take_Some in Hi as [Hi _].
  by eapply list_elem_of_lookup_2.
Qed.

Lemma tile_leaves_ok t T : reps t T → tile_leaves t = Some (pn_addr <$> seen T).
Proof.
  intros Hrep. unfold tile_leaves. rewrite (rp_root _ _ Hrep).
  rewrite leaves_collect_ok by (by apply reps_fuel || by apply reps_holds).
  cbn [app length]. rewrite Nat.sub_0_r. unfold seen. by rewrite fmap_take.
Qed.

Lemma seen_ids_ok t T : reps t T → ids_at (tl_heap t) (pn_addr <$> seen T) = Some (pn_id <$> seen T).
Proof. intros Hrep. apply ids_at_ok. intros l Hl. eapply reps_leaf; [done |]. by apply seen_leaves. Qed.

Lemma focus_index_at xs f k i : NoDup xs → xs !! k = Some f → focus_index xs f i = Some (i + Z.of_nat k).
Proof.
  revert k i; induction xs as [|x xs IH]; intros [|k] i Hnd H; try done; cbn [focus_index].
  - injection H as ->. rewrite Z.eqb_refl. f_equal. lia.
  - apply NoDup_cons in Hnd as [Hx Hnd]. cbn in H. destruct (Z.eqb_spec x f) as [->|].
    { exfalso. apply Hx. by eapply list_elem_of_lookup_2. }
    rewrite (IH k) by done. f_equal. lia.
Qed.

Lemma focus_index_None xs f i : f ∉ xs → focus_index xs f i = None.
Proof.
  revert i; induction xs as [|x xs IH]; intros i H; [done |]. cbn. rewrite not_elem_of_cons in H.
  destruct (Z.eqb_spec x f) as [->|]; [tauto |]. apply IH. tauto.
Qed.

(** One step of the focus among the panes seen. *)
Lemma focus_step_ok t T step from k :
  reps t T → (pn_id <$> seen T) !! k = Some (focused_id t) →
  focus_step t step from =
    (id ← aget (pn_id <$> seen T) (step (Z.of_nat k) (zlen (seen T))); Some (id, with_focus id t)).
Proof.
  intros Hrep Hk. unfold focus_step. rewrite (tile_leaves_ok _ _ Hrep). cbn [mbind option_bind].
  rewrite (seen_ids_ok _ _ Hrep). cbn [mbind option_bind]. rewrite (focus_index_at _ _ k 0); [| | done].
  - rewrite Z.add_0_l. unfold zlen. by rewrite length_fmap.
  - unfold seen. rewrite fmap_take. pose proof (rp_ids _ _ Hrep) as Hid. unfold ids in Hid.
    rewrite <- (take_drop MAX_PANES (pn_id <$> leaves T)) in Hid. by apply NoDup_app in Hid as [? _].
Qed.

Lemma reps_with_focus t T id : reps t T → reps (with_focus id t) T.
Proof. by intros []. Qed.

(** Any number of moves to the next pane. *)
Fixpoint focus_nexts (n : nat) (t : tile) : option tile :=
  match n with O => Some t | S k => '(_, t') ← tile_focus_next t; focus_nexts k t' end.

Section Cycle.
Context (t : tile) (T : tree) (Hrep : reps t T) (Hfew : zlen (leaves T) <= 64).
Let n := zlen (leaves T).

Lemma seen_all : seen T = leaves T.
Proof. unfold seen. apply take_ge. unfold zlen in Hfew. unfold MAX_PANES. lia. Qed.

Lemma seen_at k : 0 <= k < n → ∃ id, aget (pn_id <$> seen T) k = Some id ∧ ids T !! Z.to_nat k = Some id.
Proof.
  intros Hk. rewrite seen_all. fold (ids T). destruct (aget_in (ids T) k) as [id E].
  { unfold n, zlen in *. unfold ids. rewrite length_fmap. lia. }
  exists id. split; [done |]. by rewrite <- aget_lookup by lia.
Qed.

Lemma focus_move (k : nat) f id step from t0 :
  t0 = with_focus f t → ids T !! k = Some f → 0 <= step (Z.of_nat k) n < n →
  ids T !! Z.to_nat (step (Z.of_nat k) n) = Some id →
  focus_step t0 step from = Some (id, with_focus id t).
Proof.
  intros -> Hk Hs Hid. rewrite (focus_step_ok _ T step from k); [| by apply reps_with_focus | by rewrite seen_all].
  rewrite seen_all. fold n. destruct (seen_at _ Hs) as (id' & E & E'). rewrite seen_all in E. rewrite E. cbn [mbind option_bind].
  by simplify_eq.
Qed.
End Cycle.

Lemma with_focus_same t : with_focus (focused_id t) t = t.
Proof. by destruct t. Qed.

(** ** Resizing the screen *)

Lemma resize_ok t T rows cols :
  reps t T → 0 <= rows → 0 <= cols →
  yields (tile_resize t rows cols) (λ t', focused_id t' = focused_id t ∧ tl_rows t' = rows ∧ tl_cols t' = cols ∧
    reps t' (lay T (mk_rect 0 0 cols rows))).
Proof.
  intros Hrep Hr Hc. pose proof Hrep as [Hh Hrt Hnd Hid Hl Hct Hs Hpv Hdy Hcols].
  unfold tile_resize, xcalloc. destruct (Z.ltb_spec (rows * cols) 0); [nia |].
  destruct (Z.ltb_spec rows 0); [lia |]. cbn [mbind option_bind].
  match goal with |- yields (relayout ?t0) _ => set (t1 := t0) end.
  eapply yields_mono; [apply (reps_relayout t1 T) |]; try done; cbn [t1 tl_screen tl_prev tl_dirty tl_rows tl_cols].
  - apply zlen_replicate. lia.
  - apply zlen_replicate. lia.
  - by apply zlen_replicate.
  - intros t' [-> Ht']. split_and!; try done.
Qed.

(** ** Resizing a pane *)

Definition hole_v (f : hole) : bool := match f with HoleA _ _ v _ _ | HoleB _ _ v _ _ => v end.
Definition hole_pos (f : hole) : Z := match f with HoleA _ _ _ pos _ | HoleB _ _ _ pos _ => pos end.
Definition hole_first (f : hole) : bool := match f with HoleA _ _ _ _ _ => true | HoleB _ _ _ _ _ => false end.
Definition hole_geometry (f : hole) : rect := match f with HoleA _ g _ _ _ | HoleB _ g _ _ _ => g end.
Definition with_pos (pos : Z) (f : hole) : hole :=
  match f with HoleA p g v _ b => HoleA p g v pos b | HoleB p g v _ a => HoleB p g v pos a end.

(** The branch whose edge moves: split along the axis, the pane on the right side. *)
Definition edge_at (want_h want_a : bool) (f : hole) : bool :=
  Bool.eqb (hole_v f) (negb want_h) && Bool.eqb (hole_first f) want_a.

Lemma reps_root_of t C f s : reps t (graft (C ++ [f]) s) → addr_of s ≠ addr_of (graft (C ++ [f]) s).
Proof.
  intros Hrep E. pose proof (rp_addrs _ _ Hrep) as Hnd. rewrite addrs_graft in Hnd. rewrite addr_of_graft in E.
  destruct C as [|f0 C]; cbn [app top_addr ctx_nodes fmap list_fmap fst] in *;
    apply NoDup_cons in Hnd as [Hno _]; apply Hno; rewrite <- E, elem_of_app; right; apply addr_of_elem.
Qed.

Lemma is_leaf_node s : is_leaf (node_of s) = negb (is_branch s).
Proof. destruct s; [done |]. apply is_leaf_branch. Qed.

(** One step up from a subtree. *)
Lemma parent_of_ok t C s :
  reps t (graft C s) → parent_of t (addr_of s) = Some (hole_addr <$> last C).
Proof.
  intros Hrep. pose proof (reps_holds _ _ Hrep) as Hh. pose proof (reps_fuel _ _ Hrep) as Hf.
  unfold parent_of. rewrite (rp_root _ _ Hrep), decide_Some_eq.
  destruct C as [|f C _] using rev_ind; [by rewrite bool_decide_eq_true_2 |].
  rewrite bool_decide_eq_false_2 by (by eapply reps_root_of).
  rewrite (holds_root _ s) by (by eapply holds_part). cbn [mbind option_bind]. rewrite is_leaf_node.
  destruct s as [l|p g v pos a b]; cbn [negb is_branch].
  - cbn [node_of leaf_node window_id]. by rewrite node_find_leaf_parent_ok, tparent_graft by (done || apply Hrep).
  - rewrite node_find_branch_parent_ok, tbparent_graft by (done || apply Hrep || by destruct C). done.
Qed.

Lemma hole_node_edge f s t C (want_h want_a : bool) :
  reps t (graft (C ++ [f]) s) →
  bool_decide (nd_type (hole_node f (addr_of s)) = if want_h then TILE_SPLIT_H else TILE_SPLIT_V)
    && bool_decide ((if want_a then nd_a (hole_node f (addr_of s)) else nd_b (hole_node f (addr_of s))) = Some (addr_of s))
  = edge_at want_h want_a f.
Proof.
  intros Hrep. assert (addr_of (sibling f) ≠ addr_of s) as Hne.
  { intros E. pose proof (rp_addrs _ _ Hrep) as Hnd. rewrite graft_app in Hnd. apply NoDup_part in Hnd.
    destruct f; cbn [graft foldr plug sibling] in *; rewrite addrs_branch in Hnd; apply NoDup_cons in Hnd as [_ Hnd];
      apply NoDup_app in Hnd as (_ & Hdis & _).
    - apply (Hdis (addr_of s)); [apply addr_of_elem |]. rewrite <- E. apply addr_of_elem.
    - apply (Hdis (addr_of s)); [rewrite <- E |]; apply addr_of_elem. }
  unfold edge_at. destruct f as [p g v pos b | p g v pos a]; cbn [hole_node branch_node nd_type nd_a nd_b hole_v hole_first sibling] in *;
    destruct want_a, want_h, v; cbn [dir_of negb Bool.eqb];
    rewrite ?decide_Some_eq; repeat case_bool_decide; done.
Qed.

Lemma find_split_ok t C s want_h want_a k :
  reps t (graft C s) → (length C < k)%nat →
  find_split k t want_h want_a (addr_of s) = Some (hole_addr <$> last (filter (λ f, edge_at want_h want_a f = true) C)).
Proof.
  revert s k; induction C as [|f C IH] using rev_ind; intros s [|k] Hrep Hk; try (cbn in Hk; lia); cbn [find_split];
    rewrite (parent_of_ok _ _ _ Hrep); cbn [mbind option_bind].
  - done.
  - rewrite last_snoc. cbn [fmap option_fmap option_map].
    assert (tl_heap t !! hole_addr f = Some (hole_node f (addr_of s))) as ->.
    { pose proof (reps_holds _ _ Hrep) as Hh. rewrite graft_app in Hh. apply holds_part in Hh.
      apply holds_root in Hh. by destruct f. }
    cbn [mbind option_bind]. rewrite (hole_node_edge f s t C) by done. rewrite filter_app, filter_cons, filter_nil.
    destruct (edge_at want_h want_a f) eqn:E.
    + rewrite decide_True by done. by rewrite last_snoc.
    + rewrite decide_False by done. rewrite app_nil_r.
      rewrite length_app in Hk. cbn in Hk. rewrite graft_app in Hrep.
      assert (hole_addr f = addr_of (graft [f] s)) as -> by (by destruct f).
      apply IH; [done | lia].
Qed.

Lemma last_filter {A} (P : A → bool) l x :
  last (filter (λ y, P y = true) l) = Some x →
  P x = true ∧ ∃ l1 l2, l = l1 ++ x :: l2 ∧ Forall (λ y, P y = false) l2.
Proof.
  induction l as [|y l IH] using rev_ind; [done |]. rewrite filter_app, filter_cons, filter_nil.
  destruct (P y) eqn:E.
  - rewrite decide_True, last_snoc by done. intros [= ->]. split; [done |]. by exists l, [].
  - rewrite decide_False, app_nil_r by congruence. intros (Hx & l1 & l2 & -> & H2)%IH. split; [done |].
    exists l1, (l2 ++ [y]). rewrite <- app_assoc. split; [done |]. apply Forall_app. by repeat constructor.
Qed.

Lemma moved_split_range pos delta dim want_a : 1 <= moved_split pos delta dim want_a <= 254.
Proof. unfold moved_split. cbn zeta. repeat case_match; zbool; lia. Qed.

Lemma ids_plug_pos C1 f C2 s pos :
  ids (graft (C1 ++ with_pos pos f :: C2) s) = ids (graft (C1 ++ f :: C2) s).
Proof. rewrite !ids_graft. f_equal; [| f_equal]; unfold before, after; rewrite !map_app; by destruct f. Qed.

Lemma leaves_plug_pos C1 f C2 s pos :
  leaves (graft (C1 ++ with_pos pos f :: C2) s) = leaves (graft (C1 ++ f :: C2) s).
Proof. rewrite !leaves_graft. f_equal; [| f_equal]; unfold before, after; rewrite !map_app; by destruct f. Qed.

(** The edge a resize moves, on the path of the pane. *)
Definition moved_edge (t : tile) (C : list hole) (l : pane) (want_h want_a : bool) (delta : Z) (t' : tile) : Prop :=
  ∃ C1 f C2 pos, C = C1 ++ f :: C2 ∧ edge_at want_h want_a f = true ∧
    Forall (λ f, edge_at want_h want_a f = false) C2 ∧ 1 <= pos <= 254 ∧
    pos = moved_split (hole_pos f) delta (if want_h then rh (hole_geometry f) else rw (hole_geometry f)) want_a ∧
    reps t' (lay (graft (C1 ++ with_pos pos f :: C2) (Leaf l)) (screen_rect t)).

Lemma resize_pane_ok t C l dr dc delta :
  reps t (graft C (Leaf l)) →
  yields (tile_resize_pane t (pn_id l) dr dc delta) (λ x,
    x = (-1, t) ∨
    x.1 = 0 ∧ same_screen t x.2 ∧ focused_id x.2 = focused_id t ∧
      moved_edge t C l (negb (dr =? 0)) ((0 <? dr) || (0 <? dc)) delta x.2).
Proof.
  intros Hrep. pose proof Hrep as [Hh Hr Hnd Hid Hl Hc Hs Hpv Hdy Hcols]. unfold tile_resize_pane.
  destruct (Z.eqb_spec delta 0); [by left |]. rewrite (reps_find_leaf _ _ _ Hrep). cbn [mbind option_bind].
  set (wh := negb (dr =? 0)). set (wa := (0 <? dr) || (0 <? dc)).
  assert (length C < hfuel (tl_heap t))%nat as Hfuel.
  { pose proof (reps_fuel _ _ Hrep) as Hf. assert (length C < depth (graft C (Leaf l)))%nat; [| lia].
    clear. induction C as [|[] C IH]; [cbn; lia | |]; cbn [graft foldr plug depth length]; fold (graft C (Leaf l)); lia. }
  pose proof (find_split_ok t C (Leaf l) wh wa (hfuel (tl_heap t)) Hrep Hfuel) as Efs. cbn [addr_of] in Efs.
  rewrite Efs. cbn [mbind option_bind].
  destruct (last _) as [f|] eqn:EL; [| by left]. apply last_filter in EL as (Hedge & C1 & C2 & -> & HC2).
  cbn [fmap option_fmap option_map].
  assert (graft (C1 ++ f :: C2) (Leaf l) = graft C1 (plug f (graft C2 (Leaf l)))) as ET by (by rewrite graft_app).
  set (s := plug f (graft C2 (Leaf l))) in *.
  assert (tl_heap t !! hole_addr f = Some (node_of s)) as Ef.
  { pose proof (reps_holds _ _ Hrep) as Hhold. rewrite ET in Hhold. apply holds_part, holds_root in Hhold.
    unfold s in *. by destruct f. }
  rewrite Ef. cbn [mbind option_bind].
  assert ((if wh then nd_h (node_of s) else nd_w (node_of s))
    = (if wh then rh (hole_geometry f) else rw (hole_geometry f))) as -> by (unfold s; by destruct wh, f).
  destruct (Z.leb_spec (if wh then rh (hole_geometry f) else rw (hole_geometry f)) 0); [by left |].
  unfold set_node. rewrite Ef. cbn [mbind option_bind].
  set (pos := moved_split (split_pos (node_of s)) delta _ wa).
  set (s' := plug (with_pos pos f) (graft C2 (Leaf l))).
  assert (graft (C1 ++ with_pos pos f :: C2) (Leaf l) = graft C1 s') as ET' by (by rewrite graft_app).
  assert (addr_of s = hole_addr f) as Eas by (unfold s; by destruct f).
  destruct (heap_root_update C1 s s') as [Hnd' Hh']; [by unfold s, s'; destruct f .. | by rewrite <- ET |].
  eapply yields_seq.
  - apply (reps_relayout _ (graft C1 s')); cbn [with_heap tl_heap tl_root pane_count tl_screen tl_rows tl_cols tl_prev tl_dirty];
      try done.
    + rewrite Hh', <- ET, <- Hh, Eas. do 2 f_equal. unfold s, s'. by destruct f.
    + rewrite Hr, ET, !addr_of_graft. destruct C1 as [|f1 C1]; [| done]. cbn [top_addr]. f_equal. unfold s, s'. by destruct f.
    + by rewrite <- ET', ids_plug_pos.
    + by rewrite <- ET', leaves_plug_pos.
  - intros t' [-> Ht']. cbn [yields]. right. split_and!; [done | by split_and! | done |].
    exists C1, f, C2, pos. rewrite ET'. split_and!; try done; try apply moved_split_range.
    unfold pos. f_equal. unfold s. by destruct f.
Qed.

(** ** The nearest pane *)

Definition pane_centre (l : pane) : Z * Z :=
  (rx (pn_rect l) + Z.quot (rw (pn_rect l)) 2, ry (pn_rect l) + Z.quot (rh (pn_rect l)) 2).

(** The squared distance between the centres of two panes, and whether the
    second is in the direction asked for from the first. *)
Definition pane_dist (f l : pane) : Z :=
  let '(fx, fy) := pane_centre f in let '(cx, cy) := pane_centre l in
  (cx - fx) * (cx - fx) + (cy - fy) * (cy - fy).
Definition pane_towards (dr dc : Z) (f l : pane) : Prop :=
  pn_addr l ≠ pn_addr f ∧
  let '(fx, fy) := pane_centre f in let '(cx, cy) := pane_centre l in in_direction dr dc (cx - fx) (cy - fy) = true.

Lemma nearest_ok h f ls dr dc best d :
  (∀ l, l ∈ ls → h !! pn_addr l = Some (leaf_node l)) →
  yields (nearest h (pn_addr <$> ls) (pn_addr f) (pane_centre f).1 (pane_centre f).2 dr dc best d) (λ r,
    (r = best ∧ ∀ l, l ∈ ls → pane_towards dr dc f l → d <= pane_dist f l) ∨
    (∃ l, l ∈ ls ∧ r = Some (pn_addr l) ∧ pane_towards dr dc f l ∧ pane_dist f l < d ∧
      ∀ l', l' ∈ ls → pane_towards dr dc f l' → pane_dist f l <= pane_dist f l')).
Proof.
  revert best d; induction ls as [|l ls IH]; intros best d Hls; [left; split; [done | by intros ? ?%elem_of_nil] |].
  assert (∀ l, l ∈ ls → h !! pn_addr l = Some (leaf_node l)) as Hls' by (intros l' Hl'; apply Hls; by right).
  assert (∀ b e, (¬ pane_towards dr dc f l ∨ e <= pane_dist f l) →
    yields (nearest h (pn_addr <$> ls) (pn_addr f) (pane_centre f).1 (pane_centre f).2 dr dc b e) (λ r,
    (r = b ∧ ∀ l', l' ∈ l :: ls → pane_towards dr dc f l' → e <= pane_dist f l') ∨
    (∃ l0, l0 ∈ l :: ls ∧ r = Some (pn_addr l0) ∧ pane_towards dr dc f l0 ∧ pane_dist f l0 < e ∧
      ∀ l', l' ∈ l :: ls → pane_towards dr dc f l' → pane_dist f l0 <= pane_dist f l'))) as Hskip.
  { intros b e Hsk. eapply yields_mono; [by apply IH |]. intros r [[-> Hr]|(l0 & Hl0 & -> & Ht & Hd & Hmin)].
    - left. split; [done |]. intros l' [->|Hl']%elem_of_cons; [tauto | by apply Hr].
    - right. exists l0. split_and!; [by right | done | done | done |].
      intros l' [->|Hl']%elem_of_cons Ht'; [destruct Hsk; [done | lia] | by apply Hmin]. }
  cbn [fmap list_fmap nearest]. case_bool_decide as Ef.
  { apply Hskip. left. intros [? _]. done. }
  rewrite Hls by left. cbn [mbind option_bind].
  assert (centre (leaf_node l) = pane_centre l) as -> by done.
  destruct (pane_centre l) as [cx cy] eqn:Ec. destruct (pane_centre f) as [fx fy] eqn:Efc. cbn [fst snd] in *.
  assert (pane_towards dr dc f l ↔ in_direction dr dc (cx - fx) (cy - fy) = true) as Ht.
  { unfold pane_towards. rewrite Ec, Efc. tauto. }
  assert (pane_dist f l = (cx - fx) * (cx - fx) + (cy - fy) * (cy - fy)) as Hd by (unfold pane_dist; by rewrite Ec, Efc).
  destruct (in_direction dr dc (cx - fx) (cy - fy)) eqn:Ein; cbn [negb].
  2: { apply Hskip. left. rewrite Ht. done. }
  rewrite <- Hd. destruct (Z.ltb_spec (pane_dist f l) d) as [Hlt|Hge]; [| apply Hskip; by right].
  eapply yields_mono; [by apply IH |]. intros r [[-> Hr]|(l0 & Hl0 & -> & Ht0 & Hd0 & Hmin)]; right.
  - exists l. split_and!; [by left | done | by apply Ht | done |].
    intros l' [->|Hl']%elem_of_cons Ht'; [lia | by apply Hr].
  - exists l0. split_and!; [by right | done | done | lia |].
    intros l' [->|Hl']%elem_of_cons Ht'; [lia | by apply Hmin].
Qed.

(** Where the focus goes: to the nearest pane in the direction, or nowhere. *)
Definition moved_towards (T : tree) (t : tile) (dr dc id : Z) : Prop :=
  id = focused_id t ∨
  ∃ f l, f ∈ seen T ∧ l ∈ seen T ∧ pn_id f = focused_id t ∧ pn_id l = id ∧ pane_towards dr dc f l ∧
    ∀ l', l' ∈ seen T → pane_towards dr dc f l' → pane_dist f l <= pane_dist f l'.

Lemma focus_dir_ok t T dr dc :
  reps t T → yields (tile_focus_dir t dr dc) (λ x, x.2 = with_focus x.1 t ∧ moved_towards T t dr dc x.1).
Proof.
  intros Hrep. unfold tile_focus_dir. rewrite (tile_leaves_ok _ _ Hrep). cbn [mbind option_bind].
  rewrite (seen_ids_ok _ _ Hrep). cbn [mbind option_bind].
  destruct (decide (focused_id t ∈ pn_id <$> seen T)) as [Hin|Hno].
  2: { rewrite focus_index_None by done. cbn. split; [by destruct t | by left]. }
  apply list_elem_of_lookup in Hin as [k Hk].
  rewrite (focus_index_at _ _ k 0); [| | done].
  2: { unfold seen. rewrite fmap_take. pose proof (rp_ids _ _ Hrep) as Hid. unfold ids in Hid.
       rewrite <- (take_drop MAX_PANES (pn_id <$> leaves T)) in Hid. by apply NoDup_app in Hid as [? _]. }
  rewrite list_lookup_fmap in Hk. destruct (seen T !! k) as [f|] eqn:Ef; [| done]. injection Hk as Hk.
  rewrite Z.add_0_l, aget_nat, list_lookup_fmap, Ef. cbn [fmap option_fmap option_map mbind option_bind].
  assert (∀ l, l ∈ seen T → tl_heap t !! pn_addr l = Some (leaf_node l)) as Hls.
  { intros l Hl. eapply reps_leaf; [done |]. by apply seen_leaves. }
  assert (f ∈ seen T) as Hf by (by eapply list_elem_of_lookup_2).
  rewrite (Hls f Hf). cbn [mbind option_bind]. change (centre (leaf_node f)) with (pane_centre f).
  pose proof (nearest_ok (tl_heap t) f (seen T) dr dc None INT_MAX Hls) as Hn.
  destruct (pane_centre f) as [fx fy] eqn:Ec. cbn [fst snd] in Hn.
  eapply yields_seq; [exact Hn |]. intros r [[-> _]|(l & Hl & -> & Ht & _ & Hmin)].
  - cbn. split; [by destruct t | by left].
  - rewrite (Hls l Hl). cbn. split; [done |]. right. by exists f, l.
Qed.
