(* ===== verification/TileRefine.v ===== *)
(** * Sessions of the tile manager

    Any sequence of operations, from a new manager on: the heap is the tree's,
    the panes are what TileSpec.v promises, and the last free leaves nothing. *)

From stdpp Require Import gmap relations.
From S2P Require Import Prelude VtBuf Tile TileTree TileHeap TileSpec TileCorrect TileSession.

(** An operation of tile.h, with its arguments. *)
Inductive tile_op :=
  | OpSplit (id : Z) (dir : tile_split_dir) (new : Z) (vt : ptr)
  | OpClose (id : Z)
  | OpSetWindow (id new : Z) (vt : ptr)
  | OpForget (vt : ptr)
  | OpFocus (id : Z)
  | OpNext
  | OpPrev
  | OpDir (dr dc : Z)
  | OpResize (rows cols : Z)
  | OpResizePane (id dr dc delta : Z).

(** The result of an operation, 0 for those that return none. *)
Definition run_op (malloc : heap → addr) (t : tile) (o : tile_op) : option (Z * tile) :=
  match o with
  | OpSplit id dir new vt => tile_split malloc t id dir new vt
  | OpClose id => tile_close t id
  | OpSetWindow id new vt => tile_set_window t id new vt
  | OpForget vt => t' ← tile_forget_vt t vt; Some (0, t')
  | OpFocus id => t' ← tile_focus t id; Some (0, t')
  | OpNext => tile_focus_next t
  | OpPrev => tile_focus_prev t
  | OpDir dr dc => tile_focus_dir t dr dc
  | OpResize rows cols => t' ← tile_resize t rows cols; Some (0, t')
  | OpResizePane id dr dc delta => tile_resize_pane t id dr dc delta
  end.

(** The caller's part: an id given to a pane is not another pane's, and a
    screen has a size. *)
Definition op_ok (t : tile) (o : tile_op) : Prop :=
  match o with
  | OpSplit _ _ new _ => tile_pane_geometry t new = Some None
  | OpSetWindow id new _ => new = id ∨ tile_pane_geometry t new = Some None
  | OpResize rows cols => 0 <= rows ∧ 0 <= cols
  | _ => True
  end.

(** What each promises: the spec's result and next state. *)
Definition spec_move (step : Z → Z → Z) (from : Z → Z) (s : spec) (r : Z) (s' : spec) : Prop :=
  let panes := take MAX_PANES (sh_ids (sp_shape s)) in
  let i := match focus_index panes (sp_focus s) 0 with Some i => step i (zlen panes) | None => from (zlen panes) end in
  aget panes i = Some r ∧ s' = {| s with sp_focus := r |}.

(** The same panes in the same places, split at other fractions. *)
Fixpoint sh_level (s : shape) : shape :=
  match s with Pane id vt => s | Split v _ a b => Split v 0 (sh_level a) (sh_level b) end.

Definition spec_op (o : tile_op) (s : spec) (r : Z) (s' : spec) : Prop :=
  match o with
  | OpSplit id dir new vt => spec_split id dir new vt s = (r, s')
  | OpClose id => spec_close id s = (r, s')
  | OpSetWindow id new vt => spec_set_window id new vt s = (r, s')
  | OpForget vt => r = 0 ∧ s' = spec_forget vt s
  | OpFocus id => r = 0 ∧ s' = spec_focus id s
  | OpNext => spec_move (λ i n, (i + 1) mod n) (λ _, 0) s r s'
  | OpPrev => spec_move (λ i n, (i - 1) mod n) (λ n, n - 1) s r s'
  | OpDir dr dc => s' = {| s with sp_focus := r |} ∧ (r = sp_focus s ∨ r ∈ sh_ids (sp_shape s))
  | OpResize rows cols => r = 0 ∧ s' = spec_resize rows cols s
  | OpResizePane id dr dc delta =>
      r = -1 ∧ s' = s ∨
      r = 0 ∧ id ∈ sh_ids (sp_shape s) ∧ ∃ sh, s' = {| s with sp_shape := sh |} ∧ sh_level sh = sh_level (sp_shape s)
  end.

(** The manager as its user sees it. *)
Definition view (t : tile) (T : tree) : spec := mk_spec (shape_of T) (tl_rows t) (tl_cols t) (focused_id t).

(** ** Each operation refines its spec *)

Lemma sp_screen_view t T : sp_screen (view t T) = screen_rect t.
Proof. done. Qed.

Lemma geometry_none t T id : reps t T → tile_pane_geometry t id = Some None ↔ id ∉ ids T.
Proof.
  intros Hrep. unfold tile_pane_geometry. rewrite (reps_find _ _ _ Hrep). rewrite <- tfind_None.
  destruct (tfind T id) as [l|] eqn:E; [| done]. apply tfind_elem in E as [Hl _].
  cbn [fmap option_fmap option_map mbind option_bind]. rewrite (reps_leaf _ _ _ Hrep Hl). done.
Qed.

(** A pane of the tree, at the end of a path. *)
Lemma id_path T id : id ∈ ids T → ∃ C l, T = graft C (Leaf l) ∧ pn_id l = id.
Proof.
  intros (l & -> & Hl)%list_elem_of_fmap. destruct (leaf_path T l Hl) as [C ->]. by exists C, l.
Qed.

Lemma reps_rect t C l : reps t (graft C (Leaf l)) → pn_rect l = inner C (screen_rect t).
Proof.
  intros Hrep. pose proof (rp_laid _ _ Hrep) as H. apply graft_laid in H as [_ H]. cbn in H. by injection H as ->.
Qed.

Lemma view_same t t' T' :
  same_screen t t' → view t' T' = mk_spec (shape_of T') (tl_rows t) (tl_cols t) (focused_id t').
Proof. intros (Hr & Hc & _). unfold view. by rewrite Hr, Hc. Qed.

Section Refines.
Context (malloc : heap → addr) (malloc_fresh : ∀ h, h !! malloc h = None).

Definition refines (o : tile_op) (t : tile) (T : tree) (x : Z * tile) : Prop :=
  ∃ T', reps x.2 T' ∧ spec_op o (view t T) x.1 (view x.2 T').

Lemma refines_same o t T r : reps t T → spec_op o (view t T) r (view t T) → refines o t T (r, t).
Proof. intros. by exists T. Qed.

Lemma split_refines t T id dir new vt :
  reps t T → new ∉ ids T → yields (tile_split malloc t id dir new vt) (refines (OpSplit id dir new vt) t T).
Proof.
  intros Hrep Hnew. pose proof (rp_ids _ _ Hrep) as Hid.
  destruct (decide (id ∈ ids T)) as [(C & l & -> & <-)%id_path|Hno].
  2: { rewrite (split_refused _ _ T) by (done || intros l Hl <-; exfalso; apply Hno; apply list_elem_of_fmap; by exists l).
       apply refines_same; [done |]. cbn. unfold spec_split. cbn [view sp_shape].
       by rewrite sh_rect_other by (by rewrite sh_ids_of). }
  pose proof (sh_rect_graft C l (screen_rect t) Hid) as Erect. rewrite <- (reps_rect _ _ _ Hrep) in Erect.
  assert (∀ l', l' ∈ leaves (graft C (Leaf l)) → pn_id l' = pn_id l → l' = l) as Huniq.
  { intros l' Hl' E. pose proof (tfind_leaf _ l Hid (leaf_in C l)) as E1. pose proof (tfind_leaf _ l' Hid Hl') as E2.
    rewrite E in E2. congruence. }
  assert (∀ v : bool, dir = dir_of v → (if v then rw (pn_rect l) else rh (pn_rect l)) < 3 →
    yields (tile_split malloc t (pn_id l) dir new vt) (refines (OpSplit (pn_id l) dir new vt) t (graft C (Leaf l)))) as Hsmall.
  { intros v -> Hv. rewrite (split_refused _ _ (graft C (Leaf l))); [| done |].
    - apply refines_same; [done |]. cbn. unfold spec_split. rewrite sp_screen_view. cbn [view sp_shape]. rewrite Erect.
      destruct v; cbn [dir_of]; by rewrite (proj2 (Z.ltb_lt _ _) Hv).
    - intros l' Hl' E. rewrite (Huniq l' Hl' E). destruct v; cbn [dir_of]; tauto. }
  assert (∀ v : bool, dir = dir_of v → 3 <= (if v then rw (pn_rect l) else rh (pn_rect l)) →
    yields (tile_split malloc t (pn_id l) dir new vt) (refines (OpSplit (pn_id l) dir new vt) t (graft C (Leaf l)))) as Hbig.
  { intros v -> Hv. eapply yields_mono; [by apply (split_ok malloc malloc_fresh)|].
    intros [r t'] (Hr & Hsame & Hf & b & n & En & Ev & _ & _ & Hrep'). cbn [fst snd] in *. subst r. eexists. split; [exact Hrep' |].
    cbn [fst snd spec_op]. rewrite (view_same t t') by done. rewrite shape_of_lay, Hf.
    unfold spec_split. rewrite sp_screen_view. cbn [view sp_shape]. rewrite Erect.
    assert (sh_split (pn_id l) v new vt (shape_of (graft C (Leaf l))) = shape_of (split_at C l n b v)) as Es.
    { rewrite <- En, <- Ev. by apply sh_split_graft. }
    destruct v; cbn [dir_of]; rewrite (proj2 (Z.ltb_ge _ _) Hv), Es; done. }
  destruct dir.
  - rewrite (split_refused _ _ (graft C (Leaf l))) by (done || by left). apply refines_same; [done |].
    cbn. unfold spec_split. by case_match.
  - destruct (Z.lt_ge_cases (rh (pn_rect l)) 3); [by apply (Hsmall false) | by apply (Hbig false)].
  - destruct (Z.lt_ge_cases (rw (pn_rect l)) 3); [by apply (Hsmall true) | by apply (Hbig true)].
Qed.

Lemma close_refines t T id : reps t T → yields (tile_close t id) (refines (OpClose id) t T).
Proof.
  intros Hrep. pose proof (rp_ids _ _ Hrep) as Hid.
  destruct (decide (id ∈ ids T)) as [(C & l & -> & <-)%id_path|Hno].
  2: { rewrite (close_refused _ T) by tauto. apply refines_same; [done |]. cbn. unfold spec_close. cbn [view sp_shape].
       by rewrite sh_heir_other by (by rewrite sh_ids_of). }
  destruct C as [|f C _] using rev_ind.
  { rewrite (close_refused _ (Leaf l)) by (done || by right). by apply refines_same. }
  eapply yields_mono; [by apply close_ok |]. intros [r t'] (Hr & Hsame & Hf & Hrep'). cbn [fst snd] in *. subst r.
  eexists. split; [exact Hrep' |]. cbn [fst snd spec_op].
  rewrite (view_same t t') by done. rewrite shape_of_lay, Hf.
  unfold spec_close. cbn [view sp_shape]. rewrite sh_heir_graft, sh_close_graft by done.
  unfold focus_after, first_id, ids. destruct (leaves (sibling f)) as [|x xs] eqn:E; [by apply leaves_nonempty in E |].
  done.
Qed.

Lemma sh_map_graft f C l :
  (∀ i v, i ≠ pn_id l → f i v = (i, v)) → NoDup (ids (graft C (Leaf l))) →
  sh_map f (shape_of (graft C (Leaf l))) =
    shape_of (graft C (Leaf {| l with pn_id := (f (pn_id l) (pn_vt l)).1; pn_vt := (f (pn_id l) (pn_vt l)).2 |})).
Proof.
  intros Hf. induction C as [|h C IH]; intros Hnd; [done |].
  apply NoDup_hole in Hnd as [Hnd Hno]. specialize (IH Hnd).
  assert (sh_map f (shape_of (sibling h)) = shape_of (sibling h)) as Hs.
  { apply sh_map_id. intros i v Hi. apply Hf. intros ->. done. }
  destruct h; cbn [graft foldr plug shape_of sh_map sibling] in *; fold (graft C (Leaf l)); by rewrite IH, Hs.
Qed.

Lemma set_window_refines t T id new vt :
  reps t T → new = id ∨ new ∉ ids T →
  yields (tile_set_window t id new vt) (refines (OpSetWindow id new vt) t T).
Proof.
  intros Hrep Hnew. pose proof (rp_ids _ _ Hrep) as Hid.
  destruct (decide (id ∈ ids T)) as [(C & l & -> & <-)%id_path|Hno].
  2: { unfold tile_set_window. rewrite (reps_find _ _ _ Hrep), (proj2 (tfind_None T id)) by done.
       apply refines_same; [done |]. cbn. unfold spec_set_window. cbn [view sp_shape].
       by rewrite bool_decide_eq_false_2 by (by rewrite sh_ids_of). }
  eapply yields_mono; [by apply set_window_ok |]. intros [r t'] (Hr & Hsame & Hf & Hrep'). cbn [fst snd] in *. subst r.
  eexists. split; [exact Hrep' |]. cbn [fst snd spec_op]. rewrite (view_same t t'), Hf by done.
  unfold spec_set_window. cbn [view sp_shape]. rewrite bool_decide_eq_true_2.
  - rewrite sh_map_graft; [| | done].
    + rewrite Z.eqb_refl. done.
    + intros i v Hi. by rewrite (proj2 (Z.eqb_neq _ _) Hi).
  - rewrite sh_ids_of. apply list_elem_of_fmap. exists l. split; [done | apply leaf_in].
Qed.

Lemma shape_of_forget vt T :
  shape_of (forget_tree vt T) = sh_map (λ i v, (i, if bool_decide (v = vt) then None else v)) (shape_of T).
Proof.
  induction T as [l|p g v pos a IHa b IHb]; cbn; [| by rewrite IHa, IHb].
  unfold forget_leaf. by case_bool_decide.
Qed.

Lemma focus_refines t T id : reps t T → yields (tile_focus t id) (λ t', refines (OpFocus id) t T (0, t')).
Proof.
  intros Hrep. unfold tile_focus. rewrite (reps_find _ _ _ Hrep). cbn [mbind option_bind yields].
  exists T. split.
  - destruct (tfind T id); [by apply reps_with_focus | done].
  - cbn [fst snd spec_op]. split; [done |]. unfold spec_focus. cbn [view sp_shape]. rewrite sh_ids_of.
    destruct (tfind T id) as [l|] eqn:E; cbn [fmap option_fmap option_map].
    + apply tfind_elem in E as [Hl <-]. rewrite bool_decide_eq_true_2; [done |]. apply list_elem_of_fmap. by exists l.
    + apply tfind_None in E. by rewrite bool_decide_eq_false_2.
Qed.

(** The moves of the focus, whose C remainders are of non-negative numbers. *)
Lemma seen_nonempty T : 0 < zlen (seen T) <= 64.
Proof.
  unfold seen, zlen. rewrite length_take. pose proof (zlen_leaves_pos T) as H. unfold zlen in H. unfold MAX_PANES. lia.
Qed.

Lemma focus_step_refines t T step step' from :
  reps t T →
  (∀ i n, 0 <= i < n → step' i n = step i n ∧ 0 <= step' i n < n) → (∀ n, 0 < n → 0 <= from n < n) →
  yields (focus_step t step from) (λ x, reps x.2 T ∧ spec_move step' from (view t T) x.1 (view x.2 T)).
Proof.
  intros Hrep Hstep Hfrom. unfold focus_step. rewrite (tile_leaves_ok _ _ Hrep). cbn [mbind option_bind].
  rewrite (seen_ids_ok _ _ Hrep). cbn [mbind option_bind].
  assert (take MAX_PANES (sh_ids (shape_of T)) = pn_id <$> seen T) as Eids.
  { rewrite sh_ids_of. unfold ids, seen. by rewrite fmap_take. }
  pose proof (seen_nonempty T) as Hn.
  assert (zlen (pn_id <$> seen T) = zlen (seen T)) as Ez by (unfold zlen; by rewrite length_fmap).
  assert (∀ i, focus_index (pn_id <$> seen T) (focused_id t) 0 = Some i → 0 <= i < zlen (seen T)) as Hi.
  { intros i E. destruct (decide (focused_id t ∈ pn_id <$> seen T)) as [Hin|Hno].
    - apply list_elem_of_lookup in Hin as [k Hk]. rewrite (focus_index_at _ _ k 0) in E; [| | done].
      + apply lookup_lt_Some in Hk. rewrite length_fmap in Hk. unfold zlen. injection E as <-. lia.
      + unfold seen. rewrite fmap_take. pose proof (rp_ids _ _ Hrep) as Hid. unfold ids in Hid.
        rewrite <- (take_drop MAX_PANES (pn_id <$> leaves T)) in Hid. by apply NoDup_app in Hid as [? _].
    - by rewrite focus_index_None in E. }
  unfold spec_move. cbn [view sp_shape sp_focus]. rewrite Eids, Ez.
  destruct (focus_index _ _ 0) as [i|] eqn:E.
  - specialize (Hi i eq_refl). destruct (Hstep i (zlen (seen T)) Hi) as [Es Hr]. rewrite Es in Hr |- *.
    destruct (aget_in (pn_id <$> seen T) (step i (zlen (seen T)))) as [r Er]; [by rewrite Ez |]. rewrite Er.
    cbn. split; [by apply reps_with_focus | done].
  - rewrite (proj2 (Z.ltb_lt 0 _)) by lia.
    destruct (aget_in (pn_id <$> seen T) (from (zlen (seen T)))) as [r Er]; [rewrite Ez; apply Hfrom; lia |]. rewrite Er.
    cbn. split; [by apply reps_with_focus | done].
Qed.

Lemma next_refines t T : reps t T → yields (tile_focus_next t) (refines OpNext t T).
Proof.
  intros Hrep. eapply yields_mono; [apply (focus_step_refines t T _ (λ i n, (i + 1) mod n)); [done | |] |].
  - intros i n Hi. split; [| apply Z.mod_pos_bound; lia]. by rewrite Z.rem_mod_nonneg by lia.
  - intros n Hn. lia.
  - intros x [Hx Hs]. by exists T.
Qed.

Lemma prev_refines t T : reps t T → yields (tile_focus_prev t) (refines OpPrev t T).
Proof.
  intros Hrep. eapply yields_mono; [apply (focus_step_refines t T _ (λ i n, (i - 1) mod n)); [done | |] |].
  - intros i n Hi. split; [| apply Z.mod_pos_bound; lia]. rewrite Z.rem_mod_nonneg by lia.
    replace (i - 1 + n) with (i - 1 + 1 * n) by lia. by rewrite Z_mod_plus_full.
  - intros n Hn. lia.
  - intros x [Hx Hs]. by exists T.
Qed.

Lemma seen_ids_elem T r : r ∈ pn_id <$> seen T → r ∈ ids T.
Proof. intros (l & -> & Hl)%list_elem_of_fmap. apply list_elem_of_fmap. exists l. split; [done | by apply seen_leaves]. Qed.

Lemma dir_refines t T dr dc : reps t T → yields (tile_focus_dir t dr dc) (refines (OpDir dr dc) t T).
Proof.
  intros Hrep. eapply yields_mono; [by apply focus_dir_ok |]. intros [r t'] [Ht Hm]. cbn [fst snd] in *. subst t'.
  exists T. split; [by apply reps_with_focus |]. cbn [fst snd spec_op]. split; [done |].
  cbn [view sp_focus sp_shape]. rewrite sh_ids_of. destruct Hm as [->|(f & l & _ & Hl & _ & <- & _)]; [by left |].
  right. apply seen_ids_elem, list_elem_of_fmap. by exists l.
Qed.

Lemma sh_level_pos C1 f C2 s pos :
  sh_level (shape_of (graft (C1 ++ with_pos pos f :: C2) s)) = sh_level (shape_of (graft (C1 ++ f :: C2) s)).
Proof.
  induction C1 as [|[] C1 IH]; cbn [app graft foldr plug shape_of sh_level].
  - by destruct f.
  - fold (graft (C1 ++ with_pos pos f :: C2) s) (graft (C1 ++ f :: C2) s). by rewrite IH.
  - fold (graft (C1 ++ with_pos pos f :: C2) s) (graft (C1 ++ f :: C2) s). by rewrite IH.
Qed.

Lemma resize_pane_refines t T id dr dc delta :
  reps t T → yields (tile_resize_pane t id dr dc delta) (refines (OpResizePane id dr dc delta) t T).
Proof.
  intros Hrep. destruct (decide (id ∈ ids T)) as [Hin|Hno].
  2: { unfold tile_resize_pane. destruct (delta =? 0); [apply refines_same; [done | by left] |].
       rewrite (reps_find _ _ _ Hrep), (proj2 (tfind_None T id)) by done. apply refines_same; [done | by left]. }
  destruct (id_path T id Hin) as (C & l & -> & <-).
  eapply yields_mono; [by apply resize_pane_ok |]. intros x [->|(Hr & Hsame & Hf & C1 & f & C2 & pos & -> & _ & _ & _ & _ & Hrep')].
  - apply refines_same; [done | by left].
  - eexists. split; [exact Hrep' |]. cbn [spec_op]. right. split; [done |].
    split; [cbn [view sp_shape]; by rewrite sh_ids_of |].
    exists (shape_of (graft (C1 ++ with_pos pos f :: C2) (Leaf l))). rewrite (view_same t x.2), shape_of_lay, Hf by done.
    split; [done |]. apply sh_level_pos.
Qed.

(** Every operation succeeds, keeps the representation, and does what its spec says. *)
Lemma run_op_refines t T o :
  reps t T → op_ok t o → yields (run_op malloc t o) (refines o t T).
Proof.
  intros Hrep Hok. destruct o; cbn [run_op op_ok] in *.
  - apply split_refines; [done |]. by apply (geometry_none t).
  - by apply close_refines.
  - apply set_window_refines; [done |]. destruct Hok as [?|?]; [by left | right; by apply (geometry_none t)].
  - eapply yields_seq; [by apply forget_vt_ok |]. intros t' (Hsame & Hf & Hrep'). eexists. split; [exact Hrep' |].
    cbn [fst snd spec_op]. split; [done |]. rewrite (view_same t t'), Hf by done. unfold spec_forget. cbn [view sp_shape].
    destruct vt; [by rewrite shape_of_forget | done].
  - eapply yields_seq; [by apply focus_refines |]. by intros t' H.
  - by apply next_refines.
  - by apply prev_refines.
  - by apply dir_refines.
  - eapply yields_seq; [apply (resize_ok t T); [done | lia | lia] |]. intros t' (Hf & Hr & Hc & Hrep'). eexists. split; [exact Hrep' |].
    cbn [fst snd spec_op]. split; [done |]. unfold view, spec_resize. by rewrite Hf, Hr, Hc, shape_of_lay.
  - by apply resize_pane_refines.
Qed.
End Refines.

(** ** Sessions *)

Inductive tile_step (malloc : heap → addr) (t t' : tile) : Prop :=
  | ts_op o r : op_ok t o → run_op malloc t o = Some (r, t') → tile_step malloc t t'.

(** The manager is the spec's state [s], and its heap is a tree's. *)
Definition sees (t : tile) (s : spec) : Prop := ∃ T, reps t T ∧ view t T = s.

Lemma reps_step malloc t t' T :
  (∀ h, h !! malloc h = None) → reps t T → tile_step malloc t t' → ∃ T', reps t' T'.
Proof.
  intros Hm Hrep [o r Hok E]. pose proof (run_op_refines malloc Hm t T o Hrep Hok) as H. rewrite E in H.
  destruct H as (T' & Hrep' & _). by exists T'.
Qed.

Lemma reps_steps malloc t t' T :
  (∀ h, h !! malloc h = None) → reps t T → rtc (tile_step malloc) t t' → ∃ T', reps t' T'.
Proof.
  intros Hm Hrep Hs. revert T Hrep; induction Hs as [t|t t1 t' Hst _ IH]; intros T Hrep; [by exists T |].
  destruct (reps_step malloc t t1 T Hm Hrep Hst) as [T1 Hrep1]. by eapply IH.
Qed.

Lemma free_ok t T : reps t T → tile_free t = Some ∅.
Proof.
  intros Hrep. unfold tile_free. rewrite (rp_root _ _ Hrep).
  rewrite node_free_ok by (by apply reps_fuel || by apply reps_holds || apply Hrep).
  by rewrite (rp_heap _ _ Hrep), wipe_heap_of.
Qed.

(** The tree determines the manager, but for its buffers and its focus. *)
Lemma reps_unique t t' T : reps t T → reps t' T → same_screen t t' → focused_id t' = focused_id t → t' = t.
Proof.
  intros [Hh Hr _ _ _ Hc _ _ _ _] [Hh' Hr' _ _ _ Hc' _ _ _ _] (E1 & E2 & E3 & E4 & E5) Hf.
  destruct t, t'. cbn in *. congruence.
Qed.

(** Any address not in use. *)
Definition demo_malloc (h : heap) : addr := fresh (dom h : gset addr).

Lemma demo_malloc_fresh h : h !! demo_malloc h = None.
Proof. apply (not_elem_of_dom (D := gset addr)). unfold demo_malloc. apply is_fresh. Qed.

(** C7: the tile manager refines its specification, and its memory is safe: in
    every session from a new manager on, whatever the operations (the callers
    giving a pane no other pane's id), the heap holds exactly the nodes of a
    split tree, so that freeing the manager reads and frees each once and leaves
    nothing; and each next operation follows no dangling or NULL pointer, comes
    to an end, and changes the arrangement of the panes, the screen size and the
    focus, and answers, as the specification says. *)
Theorem tile_session_refines malloc rows cols :
  (∀ h, h !! malloc h = None) → 0 <= rows → 0 <= cols →
  ∃ t0, tile_new malloc rows cols = Some t0 ∧ sees t0 (mk_spec (Pane 0 None) rows cols 0) ∧
    ∀ t, rtc (tile_step malloc) t0 t →
      ∃ s, sees t s ∧ tile_free t = Some ∅ ∧
        ∀ o, op_ok t o → ∃ r t' s', run_op malloc t o = Some (r, t') ∧ sees t' s' ∧ spec_op o s r s'.
Proof.
  intros Hm Hr Hc. pose proof (tile_new_ok malloc rows cols Hr Hc) as (t0 & E0 & Hrep0 & Er & Ec & Ef)%yields_Some.
  exists t0. split; [done |]. split; [eexists; split; [exact Hrep0 |]; unfold view; by rewrite Er, Ec, Ef |].
  intros t Hst. destruct (reps_steps malloc t0 t _ Hm Hrep0 Hst) as [T Hrep].
  exists (view t T). split; [by exists T |]. split; [by eapply free_ok |]. intros o Hok.
  pose proof (run_op_refines malloc Hm t T o Hrep Hok) as ([r t'] & E & T' & Hrep' & Hspec)%yields_Some.
  exists r, t', (view t' T'). split_and!; [done | by exists T' | done].
Qed.

Lemma tile_session_refines_witness :
  ∃ t0, tile_new demo_malloc 24 80 = Some t0 ∧ sees t0 (mk_spec (Pane 0 None) 24 80 0) ∧
    ∀ t, rtc (tile_step demo_malloc) t0 t →
      ∃ s, sees t s ∧ tile_free t = Some ∅ ∧
        ∀ o, op_ok t o → ∃ r t' s', run_op demo_malloc t o = Some (r, t') ∧ sees t' s' ∧ spec_op o s r s'.
Proof. apply (tile_session_refines demo_malloc 24 80 demo_malloc_fresh); lia. Defined.

(** What a split did: nothing, or a new pane beside the old one. *)
Lemma split_cases malloc (Hm : ∀ h, h !! malloc h = None) t T id dir new vt r t1 :
  reps t T → new ∉ ids T → tile_split malloc t id dir new vt = Some (r, t1) →
  r = -1 ∧ t1 = t ∨
  r = 0 ∧ ∃ C l (v : bool) b n, T = graft C (Leaf l) ∧ pn_id n = new ∧
    same_screen t t1 ∧ focused_id t1 = focused_id t ∧
    3 <= (if v then rw (pn_rect l) else rh (pn_rect l)) ∧ reps t1 (lay (split_at C l n b v) (screen_rect t)).
Proof.
  intros Hrep Hnew Hsplit.
  assert ((∀ l, l ∈ leaves T → pn_id l = id →
    dir = TILE_LEAF ∨ dir = TILE_SPLIT_H ∧ rh (pn_rect l) < 3 ∨ dir = TILE_SPLIT_V ∧ rw (pn_rect l) < 3) →
    r = -1 ∧ t1 = t) as Hrefused.
  { intros H. rewrite (split_refused malloc t T) in Hsplit by done. by injection Hsplit. }
  destruct (decide (id ∈ ids T)) as [(C & l & -> & <-)%id_path|Hno].
  2: { left. apply Hrefused. intros l Hl <-. exfalso. apply Hno. apply list_elem_of_fmap. by exists l. }
  assert (∀ v : bool, dir = dir_of v → 3 <= (if v then rw (pn_rect l) else rh (pn_rect l)) →
    r = 0 ∧ ∃ C' l' (v : bool) b n, graft C (Leaf l) = graft C' (Leaf l') ∧ pn_id n = new ∧
    same_screen t t1 ∧ focused_id t1 = focused_id t ∧
    3 <= (if v then rw (pn_rect l') else rh (pn_rect l')) ∧ reps t1 (lay (split_at C' l' n b v) (screen_rect t))) as Hbig.
  { intros v -> Hv. pose proof (split_ok malloc Hm t C l v new vt Hrep Hnew Hv) as H. rewrite Hsplit in H.
    destruct H as (E & Hsame & Hf & b & n & En & _ & _ & _ & Hrep1). split; [exact E |]. by exists C, l, v, b, n. }
  destruct (decide (dir = TILE_SPLIT_V ∧ 3 <= rw (pn_rect l))) as [[-> Hv]|Hnv]; [right; by apply (Hbig true) |].
  destruct (decide (dir = TILE_SPLIT_H ∧ 3 <= rh (pn_rect l))) as [[-> Hv]|Hnh]; [right; by apply (Hbig false) |].
  left. apply Hrefused. intros l' Hl' E. pose proof (rp_ids _ _ Hrep) as Hid.
  pose proof (tfind_leaf _ l Hid (leaf_in C l)) as E1. pose proof (tfind_leaf _ l' Hid Hl') as E2.
  rewrite E, E1 in E2. injection E2 as <-.
  destruct dir; [tauto | right; left | right; right]; (split; [done |]); apply Z.nle_gt; tauto.
Qed.

Lemma close_cases t T id r t1 :
  reps t T → tile_close t id = Some (r, t1) →
  r = -1 ∧ t1 = t ∨
  r = 0 ∧ ∃ C f l, T = graft (C ++ [f]) (Leaf l) ∧ pn_id l = id ∧ same_screen t t1 ∧
    focused_id t1 = focus_after t id (sibling f) ∧ reps t1 (lay (graft C (sibling f)) (screen_rect t)).
Proof.
  intros Hrep Hclose.
  destruct (decide (id ∈ ids T)) as [(C & l & -> & <-)%id_path|Hno].
  2: { rewrite (close_refused _ T) in Hclose by tauto. left. by injection Hclose. }
  destruct C as [|f C _] using rev_ind.
  { rewrite (close_refused _ (Leaf l)) in Hclose by (done || by right). left. by injection Hclose. }
  pose proof (close_ok t C f l Hrep) as H. rewrite Hclose in H. destruct H as (E & Hsame & Hf & Hrep1).
  right. split; [exact E |]. by exists C, f, l.
Qed.

Lemma lay_ctx_lay C r : lay_ctx (lay_ctx C r) r = lay_ctx C r.
Proof.
  revert r; induction C as [|[] C IH]; intros r; cbn [lay_ctx lay1 inner1]; [done | |]; by rewrite IH, lay_lay.
Qed.

Lemma inner_lay_ctx C r : inner (lay_ctx C r) r = inner C r.
Proof. revert r; induction C as [|[] C IH]; intros r; cbn [lay_ctx lay1 inner inner1]; [done | |]; by rewrite IH. Qed.

(** C31: splitting a pane and closing the new one restores the manager exactly:
    every node at its address with its geometry, the count, the focus and the
    buffers. *)
Theorem split_close_roundtrip malloc t s id dir new vt t1 :
  (∀ h, h !! malloc h = None) → sees t s → tile_pane_geometry t new = Some None → focused_id t ≠ new →
  tile_split malloc t id dir new vt = Some (0, t1) → tile_close t1 new = Some (0, t).
Proof.
  intros Hm (T & Hrep & _) Hnew Hfoc Hsplit. apply (geometry_none t T _ Hrep) in Hnew.
  destruct (split_cases malloc Hm t T id dir new vt 0 t1 Hrep Hnew Hsplit) as
    [[? _]|(_ & C & l & v & b & n & -> & En & Hsame & Hf & _ & Hrep1)]; [done |].
  set (R := screen_rect t) in *. unfold split_at in Hrep1. rewrite lay_graft in Hrep1. cbn [lay] in Hrep1.
  set (ln := {| n with pn_rect := rect_b v 128 (inner C R) |}) in *.
  set (f := HoleB b (inner C R) v 128 (lay (Leaf l) (rect_a v 128 (inner C R)))).
  change (graft (lay_ctx C R) _) with (graft (lay_ctx C R) (graft [f] (Leaf ln))) in Hrep1. rewrite <- graft_app in Hrep1.
  pose proof (close_ok t1 (lay_ctx C R) f ln Hrep1) as ([r t2] & E2 & Hr2 & Hsame2 & Hf2 & Hrep2)%yields_Some.
  cbn [fst snd pn_id ln] in *. subst r. rewrite En in E2. rewrite E2. do 2 f_equal.
  apply (reps_unique t t2 (graft C (Leaf l))); [done | | |].
  - assert (screen_rect t1 = R) as ER by (unfold R, screen_rect; destruct Hsame as (-> & -> & _); done).
    rewrite ER in Hrep2. cbn [sibling f] in Hrep2. rewrite (rp_laid _ _ Hrep). fold R.
    rewrite lay_graft in Hrep2 |- *. by rewrite lay_ctx_lay, inner_lay_ctx, lay_lay in Hrep2.
  - destruct Hsame as (?&?&?&?&?), Hsame2 as (?&?&?&?&?). split_and!; congruence.
  - rewrite Hf2. unfold focus_after. cbn [pn_id]. rewrite Hf, En, (proj2 (Z.eqb_neq _ _) Hfoc). done.
Qed.

(** ** The panes tile the screen *)

(** Operations that change neither the size of the screen nor an edge. *)
Inductive steady_step (malloc : heap → addr) (t t' : tile) : Prop :=
  | ss_op o r : op_ok t o → match o with OpResize _ _ | OpResizePane _ _ _ _ => False | _ => True end →
      run_op malloc t o = Some (r, t') → steady_step malloc t t'.

Lemma roomy_forget vt T r : roomy (forget_tree vt T) r ↔ roomy T r.
Proof. revert r; induction T as [l|p g v pos a IHa b IHb]; intros r; [done |]. cbn. by rewrite IHa, IHb. Qed.

Lemma screen_rect_same t t' : same_screen t t' → screen_rect t' = screen_rect t.
Proof. intros (Hr & Hc & _). unfold screen_rect. by rewrite Hr, Hc. Qed.

Definition roomy_tile (t : tile) : Prop := ∃ T, reps t T ∧ roomy T (screen_rect t).

Lemma steady_roomy malloc t t' :
  (∀ h, h !! malloc h = None) → roomy_tile t → steady_step malloc t t' →
  roomy_tile t' ∧ screen_rect t' = screen_rect t.
Proof.
  intros Hm (T & Hrep & Hroom) [o r Hok Hsteady E].
  assert (roomy_tile t ∧ screen_rect t = screen_rect t) as Hsame by (split; [by exists T | done]).
  assert (∀ id, roomy_tile (with_focus id t) ∧ screen_rect (with_focus id t) = screen_rect t) as Hfoc.
  { intros id. split; [| done]. exists T. split; [by apply reps_with_focus | done]. }
  assert (∀ step from, focus_step t step from = Some (r, t') → roomy_tile t' ∧ screen_rect t' = screen_rect t) as Hmove.
  { intros step from Em. unfold focus_step in Em. destruct (tile_leaves t) as [ps|]; [| done]. cbn in Em.
    destruct (ids_at _ ps) as [xs|]; [| done]. cbn in Em. destruct (focus_index _ _ _).
    - destruct (aget _ _); [| done]. injection Em as _ <-. apply Hfoc.
    - destruct (0 <? _); [| by injection Em as _ <-]. destruct (aget _ _); [| done]. injection Em as _ <-. apply Hfoc. }
  destruct o; cbn [run_op op_ok] in *; try done.
  - apply (geometry_none t T _ Hrep) in Hok.
    destruct (split_cases malloc Hm t T _ _ _ _ r t' Hrep Hok E) as
      [[_ ->]|(_ & C & l & v & b & n & -> & _ & Hs & _ & H3 & Hrep')]; [done |].
    split; [| by apply screen_rect_same]. eexists. split; [exact Hrep' |]. rewrite (screen_rect_same t t' Hs), roomy_lay.
    unfold split_at. apply roomy_split; [done |]. by rewrite <- (reps_rect _ _ _ Hrep).
  - destruct (close_cases t T _ r t' Hrep E) as [[_ ->]|(_ & C & f & l & -> & _ & Hs & _ & Hrep')]; [done |].
    split; [| by apply screen_rect_same]. eexists. split; [exact Hrep' |]. rewrite (screen_rect_same t t' Hs), roomy_lay.
    by eapply roomy_close.
  - destruct (decide (id ∈ ids T)) as [(C & l & -> & <-)%id_path|Hno].
    2: { unfold tile_set_window in E. rewrite (reps_find _ _ _ Hrep), (proj2 (tfind_None T id)) in E by done.
         by injection E as _ <-. }
    assert (new = pn_id l ∨ new ∉ ids (graft C (Leaf l))) as Hok'.
    { destruct Hok as [?|?]; [by left | right; by apply (geometry_none t)]. }
    pose proof (set_window_ok t C l new vt Hrep Hok') as H. rewrite E in H. destruct H as (_ & Hs & _ & Hrep').
    split; [| by apply screen_rect_same]. eexists. split; [exact Hrep' |]. rewrite (screen_rect_same t t' Hs).
    rewrite roomy_graft in Hroom |- *. exact Hroom.
  - pose proof (forget_vt_ok t T vt Hrep) as H. destruct (tile_forget_vt t vt) as [t1|]; [| done]. injection E as _ <-.
    destruct H as (Hs & _ & Hrep'). split; [| by apply screen_rect_same]. eexists. split; [exact Hrep' |].
    rewrite (screen_rect_same t t1 Hs). destruct vt; [by apply roomy_forget | done].
  - unfold tile_focus in E. rewrite (reps_find _ _ _ Hrep) in E. cbn in E. destruct (tfind T id); injection E as _ <-; done.
  - by eapply Hmove.
  - by eapply Hmove.
  - pose proof (focus_dir_ok t T dr dc Hrep) as H. rewrite E in H. destruct H as [H _]. cbn in H. subst t'. apply Hfoc.
Qed.

Lemma roomy_panes T r : roomy T r → Forall (λ l, 1 <= rw (pn_rect l) ∧ 1 <= rh (pn_rect l)) (leaves (lay T r)).
Proof.
  revert r; induction T as [l|p g v pos a IHa b IHb]; intros r; cbn [roomy lay leaves].
  - intros H. apply Forall_singleton. exact H.
  - intros (_ & Ha & Hb). apply Forall_app. split; [by apply IHa | by apply IHb].
Qed.

(** C30: until the screen or an edge is resized, the panes and the lines between
    them tile the screen: after any splits, closes and other operations on a
    screen of at least one cell, every cell of the screen is in exactly one pane
    or separator and no cell outside is in any, and every pane has a cell. *)
Theorem panes_tile_screen malloc rows cols t0 t :
  (∀ h, h !! malloc h = None) → 1 <= rows → 1 <= cols →
  tile_new malloc rows cols = Some t0 → rtc (steady_step malloc) t0 t →
  ∃ T, reps t T ∧ Forall (λ l, 1 <= rw (pn_rect l) ∧ 1 <= rh (pn_rect l)) (leaves T) ∧
    ∀ row col, Z.of_nat (holders T row col) = b2z (in_rect row col (mk_rect 0 0 cols rows)).
Proof.
  intros Hm Hr Hc E0 Hst.
  assert (roomy_tile t0 ∧ screen_rect t0 = mk_rect 0 0 cols rows) as [H0 HR].
  { pose proof (tile_new_ok malloc rows cols ltac:(lia) ltac:(lia)) as H. rewrite E0 in H.
    destruct H as (Hrep0 & Er & Ec & _). unfold roomy_tile, screen_rect. rewrite Er, Ec. split; [| done].
    eexists. split; [exact Hrep0 |]. done. }
  assert (roomy_tile t ∧ screen_rect t = screen_rect t0) as [(T & Hrep & Hroom) HR'].
  { clear E0. induction Hst as [t|t t1 t' Hs _ IH]; [done |].
    destruct (steady_roomy malloc t t1 Hm H0 Hs) as [H1 E1]. rewrite E1, HR in IH. rewrite HR. by apply IH. }
  exists T. split; [done |]. rewrite (rp_laid _ _ Hrep). rewrite HR', HR in *. split; [by apply roomy_panes |].
  intros row col. by apply lay_partition.
Qed.

(** ** Witnesses *)

(** A manager with two panes side by side, the second in focus. *)
Definition demo_ops : list tile_op :=
  [OpSetWindow 0 1 None; OpSplit 1 TILE_SPLIT_V 2 None; OpFocus 2].

Fixpoint run_ops (malloc : heap → addr) (os : list tile_op) (t : tile) : option tile :=
  match os with
  | [] => Some t
  | o :: os' => '(_, t) ← run_op malloc t o; run_ops malloc os' t
  end.

Definition zero_tile : tile := mk_tile ∅ None 0 0 [] [] [] 0 0.

Definition demo_new : tile := default zero_tile (tile_new demo_malloc 24 80).
Definition demo_tile : tile := default zero_tile (run_ops demo_malloc demo_ops demo_new).

(** The new ids of a list of operations, checked as it runs. *)
Definition op_okb (t : tile) (o : tile_op) : bool :=
  match o with
  | OpSplit _ _ new _ => bool_decide (tile_pane_geometry t new = Some None)
  | OpSetWindow id new _ => (new =? id) || bool_decide (tile_pane_geometry t new = Some None)
  | OpResize rows cols => (0 <=? rows) && (0 <=? cols)
  | _ => true
  end.

Fixpoint ops_okb (malloc : heap → addr) (os : list tile_op) (t : tile) : bool :=
  match os with
  | [] => true
  | o :: os' =>
      op_okb t o && match o with OpResize _ _ | OpResizePane _ _ _ _ => false | _ => true end &&
      match run_op malloc t o with Some (_, t') => ops_okb malloc os' t' | None => false end
  end.

Lemma ops_okb_sound malloc os t :
  ops_okb malloc os t = true → ∃ t', run_ops malloc os t = Some t' ∧ rtc (steady_step malloc) t t' ∧ rtc (tile_step malloc) t t'.
Proof.
  revert t; induction os as [|o os IH]; intros t; cbn [ops_okb run_ops]; [by exists t |].
  rewrite !andb_true_iff. intros [[Hok Hst] Hrun]. destruct (run_op malloc t o) as [[r t1]|] eqn:E; [| done].
  destruct (IH t1 Hrun) as (t' & E' & H1 & H2). cbn [mbind option_bind]. exists t'. split; [done |].
  assert (op_ok t o) as Hok'.
  { destruct o; cbn in *; try done.
    - by apply bool_decide_eq_true in Hok.
    - apply orb_true_iff in Hok as [?%Z.eqb_eq|?%bool_decide_eq_true]; tauto. }
  split; (eapply rtc_l; [| done]); [apply (ss_op malloc t t1 o r) | apply (ts_op malloc t t1 o r)]; try done.
  by destruct o.
Qed.

Lemma demo_steady : rtc (steady_step demo_malloc) demo_new demo_tile.
Proof.
  destruct (ops_okb_sound demo_malloc demo_ops demo_new) as (t' & E & H & _); [vm_compute; reflexivity |].
  unfold demo_tile. by rewrite E.
Qed.

Lemma demo_new_ok : tile_new demo_malloc 24 80 = Some demo_new.
Proof. vm_compute. reflexivity. Qed.

Lemma demo_sees : ∃ s, sees demo_tile s.
Proof.
  destruct (ops_okb_sound demo_malloc demo_ops demo_new) as (t' & E & _ & H); [vm_compute; reflexivity |].
  pose proof (tile_new_ok demo_malloc 24 80 ltac:(lia) ltac:(lia)) as Hn. rewrite demo_new_ok in Hn. destruct Hn as [Hrep _].
  destruct (reps_steps demo_malloc demo_new t' _ demo_malloc_fresh Hrep H) as [T' Hrep'].
  unfold demo_tile. rewrite E. by exists (view t' T'), T'.
Qed.

Lemma split_close_roundtrip_witness :
  ∃ t1, tile_split demo_malloc demo_tile 2 TILE_SPLIT_H 3 None = Some (0, t1) ∧ tile_close t1 3 = Some (0, demo_tile).
Proof.
  destruct demo_sees as [s Hs].
  exists (default zero_tile (snd <$> tile_split demo_malloc demo_tile 2 TILE_SPLIT_H 3 None)). split.
  - vm_compute. reflexivity.
  - apply (split_close_roundtrip demo_malloc demo_tile s 2 TILE_SPLIT_H 3 None).
    + exact demo_malloc_fresh.
    + exact Hs.
    + vm_compute. reflexivity.
    + vm_compute. discriminate.
    + vm_compute. reflexivity.
Defined.

Lemma panes_tile_screen_witness :
  ∃ T, reps demo_tile T ∧ Forall (λ l, 1 <= rw (pn_rect l) ∧ 1 <= rh (pn_rect l)) (leaves T) ∧
    ∀ row col, Z.of_nat (holders T row col) = b2z (in_rect row col (mk_rect 0 0 80 24)).
Proof.
  apply (panes_tile_screen demo_malloc 24 80 demo_new demo_tile demo_malloc_fresh); [lia | lia | |].
  - apply demo_new_ok.
  - apply demo_steady.
Defined.

(** ** Going round the panes *)

Lemma focus_nexts_ok t T i k :
  reps t T → zlen (leaves T) <= 64 → ids T !! i = Some (focused_id t) →
  ∃ id, ids T !! ((i + k) mod length (ids T))%nat = Some id ∧ focus_nexts k t = Some (with_focus id t).
Proof.
  intros Hrep Hfew Hi. pose proof (lookup_lt_Some _ _ _ Hi) as Hlt.
  assert (zlen (leaves T) = Z.of_nat (length (ids T))) as Hn by (unfold ids, zlen; by rewrite length_fmap).
  assert (∀ k i t0 f, t0 = with_focus f t → ids T !! i = Some f →
    ∃ id, ids T !! ((i + k) mod length (ids T))%nat = Some id ∧ focus_nexts k t0 = Some (with_focus id t)) as Hgen.
  { clear k i Hi Hlt. induction k as [|k IH]; intros i t0 f -> Hi; pose proof (lookup_lt_Some _ _ _ Hi) as Hlt.
    - rewrite Nat.add_0_r, Nat.mod_small by done. by exists f.
    - destruct (lookup_lt_is_Some_2 (ids T) ((i + 1) mod length (ids T))%nat) as [id Eid]; [apply Nat.mod_upper_bound; lia |].
      assert (Z.rem (Z.of_nat i + 1) (zlen (leaves T)) = Z.of_nat ((i + 1) mod length (ids T))) as Erem.
      { rewrite Z.rem_mod_nonneg, Hn, Nat2Z.inj_mod by lia. f_equal. lia. }
      cbn [focus_nexts]. unfold tile_focus_next.
      rewrite (focus_move t T Hrep Hfew i f id _ _ _ eq_refl Hi).
      2: { cbn beta. rewrite Erem, Hn. pose proof (Nat.mod_upper_bound (i + 1) (length (ids T))). lia. }
      2: { cbn beta. by rewrite Erem, Nat2Z.id. }
      cbn [mbind option_bind]. destruct (IH _ _ _ eq_refl Eid) as (id' & E' & EF). exists id'. split; [| done].
      rewrite <- E'. f_equal. rewrite Nat.Div0.add_mod_idemp_l. f_equal. lia. }
  apply (Hgen k i t (focused_id t)); [by rewrite with_focus_same | done].
Qed.

(** Moving the focus to the next pane visits the panes in order, all of them,
    and comes back: [k] moves from the [i]th of at most 64 panes lead to the pane
    [i + k], counted round, and as many moves as panes lead back to where it was. *)
Theorem focus_cycle t T i :
  reps t T → zlen (leaves T) <= 64 → ids T !! i = Some (focused_id t) →
  (∀ k, ∃ id, ids T !! ((i + k) mod length (ids T))%nat = Some id ∧ focus_nexts k t = Some (with_focus id t)) ∧
  focus_nexts (length (ids T)) t = Some t.
Proof.
  intros Hrep Hfew Hi. split; [intros k; by apply focus_nexts_ok |].
  destruct (focus_nexts_ok t T i (length (ids T)) Hrep Hfew Hi) as (id & Eid & ->).
  pose proof (lookup_lt_Some _ _ _ Hi) as Hlt.
  replace (i + length (ids T))%nat with (i + 1 * length (ids T))%nat in Eid by lia.
  rewrite Nat.Div0.mod_add, Nat.mod_small, Hi in Eid by done. injection Eid as <-. by rewrite with_focus_same.
Qed.

Lemma focus_cycle_witness : focus_nexts 2 demo_tile = Some demo_tile.
Proof.
  destruct demo_sees as (s & T & Hrep & Hs).
  assert (ids T = [1; 2]) as Eids.
  { rewrite <- sh_ids_of. pose proof (seen_ids_ok _ _ Hrep) as E. pose proof (tile_leaves_ok _ _ Hrep) as El.
    rewrite sh_ids_of. assert (seen T = leaves T ∨ (64 <= length (seen T))%nat) as [Hall|Hmany].
    { unfold seen, MAX_PANES. destruct (Nat.le_gt_cases (length (leaves T)) 64); [left; by apply take_ge |].
      right. rewrite length_take. lia. }
    - assert (tile_leaves demo_tile = Some (pn_addr <$> seen T)) as El' by done. unfold ids. rewrite <- Hall.
      assert ((ps ← tile_leaves demo_tile; ids_at (tl_heap demo_tile) ps) = Some [1; 2]) as Ec by (vm_compute; reflexivity).
      rewrite El' in Ec. cbn [mbind option_bind] in Ec. rewrite E in Ec. by injection Ec.
    - assert ((ps ← tile_leaves demo_tile; Some (length ps)) = Some 2%nat) as Ec by (vm_compute; reflexivity).
      rewrite El in Ec. cbn [mbind option_bind] in Ec. rewrite length_fmap in Ec. injection Ec as Ec. lia. }
  assert (zlen (leaves T) = 2) as Hz by (unfold zlen; rewrite <- (length_fmap pn_id); fold (ids T); by rewrite Eids).
  destruct (focus_cycle demo_tile T 1 Hrep) as [_ H].
  - rewrite Hz. lia.
  - rewrite Eids. vm_compute. reflexivity.
  - rewrite Eids in H. exact H.
Defined.

(** C37: three things tile.c does not prevent.  When panes share an id, as two
    empty panes do, the split of one can be spliced in beside the other: the
    fourth pane is then in two places, and freeing the tree frees it twice.
    Growing a pane takes room its neighbour's own split needs, and then gives
    the pane there a negative width.  So does shrinking the screen. *)
Theorem tile_limits :
  (t ← run_ops demo_malloc [OpSplit 0 TILE_SPLIT_H 0 None; OpSplit 0 TILE_SPLIT_V 0 None;
         OpSplit 0 TILE_SPLIT_V 0 None] demo_new; Some (pane_count t, tile_free t)) = Some (4, None) ∧
  (t ← run_ops demo_malloc [OpSplit 2 TILE_SPLIT_V 3 None; OpResizePane 1 0 1 100] demo_tile; tile_each_pane t)
    = Some [(1, 78, 24); (2, -1, 24); (3, 1, 24)] ∧
  (t ← run_ops demo_malloc [OpResize 24 2] demo_tile; tile_each_pane t) = Some [(1, 0, 24); (2, 1, 24)].
Proof. split_and!; vm_compute; reflexivity. Qed.
