(* ===== verification/TileComposite.v ===== *)
(** * Compositing the panes: src/libtile/tile_composite.c

    The panes' terminals are copied to the manager's screen, and the separators
    drawn over it.  The terminals are in a map by address; composing clears the
    dirty flags of their rows. *)

From stdpp Require Import gmap.
From S2P Require Import Prelude VtBuf VtState Render Tile.

(** ** Glyphs *)

Definition GLYPH_F_H : Z := 0x2501.
Definition GLYPH_F_V : Z := 0x2503.
Definition GLYPH_F_LT : Z := 0x2523.
Definition GLYPH_F_RT : Z := 0x252B.
Definition GLYPH_F_TT : Z := 0x2533.
Definition GLYPH_F_BT : Z := 0x253B.
Definition GLYPH_F_X : Z := 0x254B.
Definition GLYPH_U_H : Z := 0x2504.
Definition GLYPH_U_V : Z := 0x250A.
Definition GLYPH_U_LT : Z := 0x251C.
Definition GLYPH_U_RT : Z := 0x2524.
Definition GLYPH_U_TT : Z := 0x252C.
Definition GLYPH_U_BT : Z := 0x2534.
Definition GLYPH_U_X : Z := 0x253C.

Definition SEP_H : Z := 1.
Definition SEP_V : Z := 2.
Definition SEP_FOCUSED : Z := 4.

(** ** The screen *)

(** The index of a cell, [None] for NULL. *)
Definition screen_cell (rows cols r c : Z) : option Z :=
  if (r <? 0) || (rows <=? r) || (c <? 0) || (cols <=? c) then None else Some (r * cols + c).

(** The cell a glyph is put as. *)
Definition border_cell (cp : Z) (focused : bool) : vt_cell :=
  {| codepoint := cp; cell_fg := VT_COLOR_INDEXED (if focused then 7 else 8); cell_bg := VT_COLOR_DEFAULT;
     cell_attrs := 0; cell_width := 1 |}.

Definition screen_put_glyph (rows cols r c cp : Z) (focused : bool) (s : list vt_cell) : option (list vt_cell) :=
  match screen_cell rows cols r c with
  | None => Some s
  | Some i => aset s i (border_cell cp focused)
  end.

(** ** Copying the panes *)

Abbreviation vts := (gmap addr vt_state).

Record comp := mk_comp { cp_screen : list vt_cell; cp_dirty : list Z; cp_vts : vts }.

(** The cells of a source row copied to row [dst_row], up to column [bcols]. *)
Definition blit_row (rows cols bcols dst_row x : Z) (src : list vt_cell) (s : list vt_cell) : option (list vt_cell) :=
  for_up 0 bcols (λ c s,
    v ← aget src c;
    match screen_cell rows cols dst_row (x + c) with
    | None => Some s
    | Some i => aset s i v
    end) s.

(** One row of the pane: the screen, its dirty rows and the terminal after it. *)
Definition blit_pane_row (rows cols bcols : Z) (n : tile_node) (r : Z) (x : list vt_cell * list Z * vt_state)
  : option (list vt_cell * list Z * vt_state) :=
  let '(s, d, st) := x in
  vr ← screen_row st r;
  match vr with
  | None => Some x
  | Some vr =>
      let dst_row := nd_y n + r in
      s ← blit_row rows cols bcols dst_row (nd_x n) (VtBuf.cells vr) s;
      d ← (if has_bits (row_flags vr) VT_ROW_DIRTY && (0 <=? dst_row) && (dst_row <? rows)
           then aset d dst_row 1 else Some d);
      st ← with_row st r clear_dirty;
      Some (s, d, st)
  end.

Definition blit_pane (rows cols : Z) (n : tile_node) (k : comp) : option comp :=
  match nd_vt n with
  | None => Some k
  | Some p =>
      st ← cp_vts k !! p;
      match cur_buf st with
      | None => Some k
      | Some buf =>
          let bcols := if nd_w n <? buf_cols buf then nd_w n else buf_cols buf in
          '(s, d, st) ← for_up 0 (nd_h n) (blit_pane_row rows cols bcols n) (cp_screen k, cp_dirty k, st);
          Some (mk_comp s d (<[p := st]> (cp_vts k)))
      end
  end.

Fixpoint blit_leaves (fuel : nat) (h : heap) (rows cols : Z) (n : ptr) (k : comp) : option comp :=
  match n with
  | None => Some k
  | Some p =>
      match fuel with
      | O => None
      | S f =>
          nd ← h !! p;
          if is_leaf nd then blit_pane rows cols nd k else
          k ← blit_leaves f h rows cols (nd_a nd) k; blit_leaves f h rows cols (nd_b nd) k
      end
  end.

(** ** Separators *)

Fixpoint subtree_has_focused (fuel : nat) (h : heap) (n : ptr) (focus : Z) : option bool :=
  match n with
  | None => Some false
  | Some p =>
      match fuel with
      | O => None
      | S f =>
          nd ← h !! p;
          if is_leaf nd then Some (window_id nd =? focus) else
          a ← subtree_has_focused f h (nd_a nd) focus;
          if (a : bool) then Some true else subtree_has_focused f h (nd_b nd) focus
      end
  end.

(** [smap[i] |= bit; if (focused) smap[i] |= SEP_FOCUSED] *)
Definition mark_at (i bit : Z) (focused : bool) (m : list Z) : option (list Z) :=
  v ← aget m i; m ← aset m i (Z.lor v bit);
  if focused then v ← aget m i; aset m i (Z.lor v SEP_FOCUSED) else Some m.

Fixpoint mark_separators (fuel : nat) (h : heap) (rows cols : Z) (n : ptr) (focus : Z) (m : list Z) : option (list Z) :=
  match n with
  | None => Some m
  | Some p =>
      match fuel with
      | O => None
      | S f =>
          nd ← h !! p;
          if is_leaf nd then Some m else
          fa ← subtree_has_focused f h (nd_a nd) focus;
          fb ← subtree_has_focused f h (nd_b nd) focus;
          let focused := fa && fb || (fa || fb) in
          pa ← nd_a nd; na ← h !! pa;
          m ← match nd_type nd with
              | TILE_SPLIT_V =>
                  let pos := nd_x na + nd_w na in
                  if (0 <=? pos) && (pos <? cols) then
                    for_up (nd_y nd) (Z.min (nd_y nd + nd_h nd) rows) (λ i, mark_at (i * cols + pos) SEP_V focused) m
                  else Some m
              | _ =>
                  let pos := nd_y na + nd_h na in
                  if (0 <=? pos) && (pos <? rows) then
                    for_up (nd_x nd) (Z.min (nd_x nd + nd_w nd) cols) (λ i, mark_at (pos * cols + i) SEP_H focused) m
                  else Some m
              end;
          m ← mark_separators f h rows cols (nd_a nd) focus m;
          mark_separators f h rows cols (nd_b nd) focus m
      end
  end.

Definition pick_glyph (flags : Z) : Z :=
  let h := has_bits flags SEP_H in
  let v := has_bits flags SEP_V in
  let f := has_bits flags SEP_FOCUSED in
  if h && v then if f then GLYPH_F_X else GLYPH_U_X
  else if h then if f then GLYPH_F_H else GLYPH_U_H
  else if v then if f then GLYPH_F_V else GLYPH_U_V
  else ch " ".

(** A loop over all cells of the screen. *)
Definition for_cells {S} (rows cols : Z) (body : Z → Z → S → option S) : S → option S :=
  for_up 0 rows (λ r, for_up 0 cols (body r)).

Definition draw_separators (rows cols : Z) (m : list Z) : list vt_cell → option (list vt_cell) :=
  for_cells rows cols (λ r c s,
    flags ← aget m (r * cols + c);
    if flags =? 0 then Some s
    else screen_put_glyph rows cols r c (pick_glyph flags) (has_bits flags SEP_FOCUSED) s).

(** [smap[...] & bit], when the neighbour is on the screen. *)
Definition neighbour (on : bool) (m : list Z) (i bit : Z) : option bool :=
  if on then v ← aget m i; Some (has_bits v bit) else Some false.

(** The glyph of a line that meets perpendicular ones; [None] leaves it. *)
Definition end_glyph (flags : Z) (up down left right : bool) : option Z :=
  let f := has_bits flags SEP_FOCUSED in
  if has_bits flags SEP_V then
    if left && right then Some (if f then GLYPH_F_X else GLYPH_U_X)
    else if left then Some (if f then GLYPH_F_RT else GLYPH_U_RT)
    else if right then Some (if f then GLYPH_F_LT else GLYPH_U_LT)
    else None
  else
    if up && down then Some (if f then GLYPH_F_X else GLYPH_U_X)
    else if up then Some (if f then GLYPH_F_BT else GLYPH_U_BT)
    else if down then Some (if f then GLYPH_F_TT else GLYPH_U_TT)
    else None.

Definition fix_endpoints (rows cols : Z) (m : list Z) : list vt_cell → option (list vt_cell) :=
  for_cells rows cols (λ r c s,
    flags ← aget m (r * cols + c);
    if negb (has_bits flags (Z.lor SEP_H SEP_V)) || has_bits flags SEP_H && has_bits flags SEP_V then Some s else
    up ← neighbour (0 <? r) m ((r - 1) * cols + c) SEP_V;
    down ← neighbour (r <? rows - 1) m ((r + 1) * cols + c) SEP_V;
    left ← neighbour (0 <? c) m (r * cols + c - 1) SEP_H;
    right ← neighbour (c <? cols - 1) m (r * cols + c + 1) SEP_H;
    match end_glyph flags up down left right with
    | None => Some s
    | Some g => screen_put_glyph rows cols r c g (has_bits flags SEP_FOCUSED) s
    end).

(** ** Compositing *)

(** [calloc] for the map of separators is taken to succeed. *)
Definition tile_composite (t : tile) (m : vts) : option (tile * vts) :=
  match tl_root t with
  | None => Some (t, m)
  | Some p =>
      let h := tl_heap t in
      let rows := tl_rows t in
      let cols := tl_cols t in
      dirty ← for_up 0 rows (λ i d, aset d i 0) (tl_dirty t);
      screen ← for_up 0 (rows * cols) (λ i s, aset s i vt_cell_clear) (tl_screen t);
      k ← blit_leaves (hfuel h) h rows cols (tl_root t) (mk_comp screen dirty m);
      root ← h !! p;
      screen ← (if is_leaf root then Some (cp_screen k) else
        smap ← xcalloc (rows * cols) 0;
        smap ← mark_separators (hfuel h) h rows cols (tl_root t) (focused_id t) smap;
        s ← draw_separators rows cols smap (cp_screen k);
        fix_endpoints rows cols smap s);
      Some ({| t with tl_screen := screen; tl_dirty := cp_dirty k |}, cp_vts k)
  end.

(** ** The cursor *)

Definition CURSOR_STACK : nat := 128.

(** The leaves, by a walk with its own stack, top first. *)
Fixpoint cursor_leaves (fuel : nat) (h : heap) (stack : list addr) (acc : list addr) : option (list addr) :=
  match stack with
  | [] => Some acc
  | p :: stack =>
      if Nat.leb MAX_PANES (length acc) then Some acc else
      match fuel with
      | O => None
      | S f =>
          nd ← h !! p;
          if is_leaf nd then cursor_leaves f h stack (acc ++ [p]) else
          let push (q : ptr) (st : list addr) :=
            match q with
            | None => Some st
            | Some q => if Nat.leb CURSOR_STACK (length st) then None else Some (q :: st)
            end in
          stack ← push (nd_b nd) stack;
          stack ← push (nd_a nd) stack;
          cursor_leaves f h stack acc
      end
  end.

(** Row, column and visibility. *)
Fixpoint cursor_of (h : heap) (m : vts) (ps : list addr) (focus : Z) : option (Z * Z * Z) :=
  match ps with
  | [] => Some (0, 0, 0)
  | p :: ps' =>
      n ← h !! p;
      if window_id n =? focus then
        match nd_vt n with
        | Some q => st ← m !! q; Some (nd_y n + cursor_row st, nd_x n + cursor_col st, 1)
        | None => Some (nd_y n, nd_x n, 0)
        end
      else cursor_of h m ps' focus
  end.

Definition tile_cursor (t : tile) (m : vts) : option (Z * Z * Z) :=
  ps ← cursor_leaves (hfuel (tl_heap t)) (tl_heap t) (option_list (tl_root t)) [];
  cursor_of (tl_heap t) m ps (focused_id t).
