(* ===== verification/TileScreen.v ===== *)
(** * What compositing puts on the screen

    [composed m T focus]: the picture of the panes of [T], whose terminals are
    in [m], as a function of the cell.  On a tree with room for its panes
    [tile_composite] draws exactly it, and leaves the terminals as they were but
    for their dirty flags. *)

From stdpp Require Import gmap.
From S2P Require Import Prelude VtBuf VtState VtClient Render Tile TileTree TileHeap TileSpec TileCorrect TileComposite.

(** ** Reading a terminal *)

Definition vt_at (st : vt_state) (row col : Z) : option vt_cell := cs ← row_cells st row; aget cs col.

(** [st'] is [st] but for dirty flags. *)
Definition cleaned (st st' : vt_state) : Prop :=
  (∀ R C, wf_state R C st → wf_state R C st') ∧ (∀ i, row_cells st' i = row_cells st i) ∧
  cursor_row st' = cursor_row st ∧ cursor_col st' = cursor_col st ∧ modes st' = modes st.

#[export] Instance cleaned_preorder : PreOrder cleaned.
Proof.
  split; [by intros st; split_and! |].
  intros a b c (H1 & H2 & H3 & H4 & H5) (H1' & H2' & H3' & H4' & H5'). split_and!; [by auto | | congruence ..].
  intros i. by rewrite H2'.
Qed.

Lemma screen_row_ok R C st r :
  wf_state R C st →
  yields (screen_row st r) (λ o, match o with
    | Some vr => 0 <= r < R ∧ row_cells st r = Some (cells vr) ∧ zlen (cells vr) = C
    | None => (r < 0 ∨ R <= r) ∧ row_cells st r = None
    end).
Proof.
  intros Hwf. destruct (cur_buf_ok _ _ _ Hwf) as (b & Hb & h & Hrep). unfold screen_row, row_cells, vt_buf_row.
  rewrite Hb. cbn [mbind option_bind]. rewrite (br_rows _ _ _ _ Hrep).
  destruct (Z.ltb_spec r 0), (Z.leb_spec R r); cbn [orb yields];
    try (split; [lia |]; rewrite (proj2 (aget_None (grid b) r)); [done | rewrite (br_size _ _ _ _ Hrep); lia]).
  destruct (buf_repr_row_in _ _ _ _ r Hrep) as (vr & -> & Hok); [lia |]. cbn [mbind option_bind yields]. done.
Qed.

Lemma clear_dirty_row_ok R C st r :
  wf_state R C st → 0 <= r < R → yields (with_row st r clear_dirty) (cleaned st).
Proof.
  intros Hwf Hr. eapply yields_mono; [apply (with_row_ok R C); [done | done |] |].
  - intros vr Hvr. exact Hvr.
  - intros st' (Hwf' & b & vr & vr' & Hb & Er & _ & [= <-] & E).
    assert (∀ i, row_cells st' i = row_cells st i) as Hrows.
    { intros i. subst st'. unfold row_cells. rewrite cur_buf_put, Hb. cbn [mbind option_bind grid].
      pose proof (aget_Some _ _ _ Er) as Hrz. rewrite aget_insert by lia. destruct (decide (r = i)) as [<-|]; [| done].
      by rewrite Er. }
    split_and!; [| done | by subst ..]. intros R' C' Hwf''.
    assert (R' = R ∧ C' = C) as [-> ->]; [| done].
    destruct (cur_buf_ok _ _ _ Hwf) as (b1 & E1 & h1 & Hr1), (cur_buf_ok _ _ _ Hwf'') as (b2 & E2 & h2 & Hr2).
    simplify_eq. split; [by rewrite <- (br_rows _ _ _ _ Hr1), (br_rows _ _ _ _ Hr2) |
      by rewrite <- (br_cols _ _ _ _ Hr1), (br_cols _ _ _ _ Hr2)].
Qed.

(** ** Copying a pane *)

Lemma screen_cell_spec rows cols r c :
  screen_cell rows cols r c = if bool_decide (0 <= r < rows ∧ 0 <= c < cols) then Some (r * cols + c) else None.
Proof. unfold screen_cell. case_bool_decide; zbool; try done; lia. Qed.

Section Blit.
Context {rows cols : Z}.
Implicit Types (f : Z → Z → vt_cell).
Local Abbreviation paints := (paints rows cols).

Lemma put_ok s f r c x :
  paints s f →
  yields (match screen_cell rows cols r c with None => Some s | Some i => aset s i x end)
    (λ s', paints s' (λ i k, if (i =? r) && (k =? c) then x else f i k)).
Proof.
  intros Hp. rewrite screen_cell_spec. case_bool_decide as Hin.
  - destruct Hin. by apply paints_set.
  - cbn [yields]. eapply paints_ext; [done |]. intros i k Hi Hk. zbool.
Qed.

Lemma blit_row_ok s f bcols dst x src :
  paints s f → bcols <= zlen src →
  yields (blit_row rows cols bcols dst x src s) (λ s', paints s' (λ i k,
    if (i =? dst) && (x <=? k) && (k <? x + bcols) then default (f i k) (aget src (k - x)) else f i k)).
Proof.
  intros Hp Hz. unfold blit_row. destruct (Z.le_gt_cases 0 bcols) as [Hb|Hb].
  - apply (for_up_inv (λ c s', paints s' (λ i k,
      if (i =? dst) && (x <=? k) && (k <? x + c) then default (f i k) (aget src (k - x)) else f i k))); [done | |].
    + eapply paints_ext; [done |]. intros. zbool.
    + intros c s' Hc Hs'. destruct (aget_in src c) as [v Ev]; [lia |]. rewrite Ev. cbn [mbind option_bind].
      eapply yields_mono; [by apply put_ok |]. intros s2 H2. apply (paints_ext _ _ _ H2).
      intros i k Hi Hk. cbn beta.
      destruct (Z.eqb_spec i dst); cbn [andb]; [| done]. destruct (Z.eqb_spec k (x + c)) as [->|].
      * replace (x + c - x) with c by lia. rewrite Ev. zbool.
      * zbool.
  - rewrite for_up_nop by lia. cbn [yields]. eapply paints_ext; [done |]. intros. zbool.
Qed.

(** What a pane shows at a cell of the screen. *)
Definition pane_at (m : vts) (l : pane) (row col : Z) : option vt_cell :=
  q ← pn_vt l; st ← m !! q; vt_at st (row - ry (pn_rect l)) (col - rx (pn_rect l)).

(** The screen [f] with the pane copied over it. *)
Definition with_pane (m : vts) f (l : pane) (row col : Z) : vt_cell :=
  if in_rect row col (pn_rect l) then default (f row col) (pane_at m l row col) else f row col.

Definition vts_cleaned (m m' : vts) : Prop := ∀ q, option_Forall2 cleaned (m !! q) (m' !! q).

(** A pane's terminal exists. *)
Definition pane_live (m : vts) (l : pane) : Prop :=
  ∀ q, pn_vt l = Some q → ∃ st R C, m !! q = Some st ∧ wf_state R C st.

Record drawn (m : vts) f (k : comp) : Prop := {
  dr_screen : paints (cp_screen k) f;
  dr_dirty : zlen (cp_dirty k) = rows;
  dr_vts : vts_cleaned m (cp_vts k);
}.

Lemma vt_at_cleaned st st' r c : cleaned st st' → vt_at st' r c = vt_at st r c.
Proof. intros (_ & H & _). unfold vt_at. by rewrite H. Qed.

Lemma vt_at_out R C st r c : wf_state R C st → r < 0 ∨ R <= r ∨ c < 0 ∨ C <= c → vt_at st r c = None.
Proof.
  intros Hwf H. pose proof (screen_row_ok R C st r Hwf) as (o & _ & Ho)%yields_Some. unfold vt_at.
  destruct o as [vr|]; [destruct Ho as (Hr & -> & Hz) | by destruct Ho as [_ ->]].
  cbn [mbind option_bind]. apply aget_None. lia.
Qed.

(** The first [n] rows of a terminal copied to a rectangle. *)
Definition copied_rows (st : vt_state) (g : rect) (n : Z) f (row col : Z) : vt_cell :=
  if in_rect row col (mk_rect (rx g) (ry g) (rw g) n) then default (f row col) (vt_at st (row - ry g) (col - rx g))
  else f row col.

(** What is done after [n] rows. *)
Definition rows_copied (st0 : vt_state) (g : rect) f (n : Z) (x : list vt_cell * list Z * vt_state) : Prop :=
  paints x.1.1 (copied_rows st0 g n f) ∧ zlen x.1.2 = rows ∧ cleaned st0 x.2.

Lemma blit_pane_row_ok R C st0 f l w r x :
  wf_state R C st0 → 0 <= r → w = Z.min (rw (pn_rect l)) C → rows_copied st0 (pn_rect l) f r x →
  yields (blit_pane_row rows cols w (leaf_node l) r x) (rows_copied st0 (pn_rect l) f (r + 1)).
Proof.
  intros Hwf Hr -> (Hs & Hdz & Hst). destruct x as [[s d] st]. cbn [fst snd] in *.
  unfold blit_pane_row, leaf_node. cbn [nd_x nd_y]. set (g := pn_rect l) in *.
  assert (wf_state R C st) as Hwf' by (by apply Hst).
  eapply yields_seq; [by apply (screen_row_ok R C) |]. intros [vr|] Ho.
  - destruct Ho as (Hr' & Ecs & Hz).
    assert (row_cells st0 r = Some (cells vr)) as Ecs0 by (rewrite <- Ecs; symmetry; apply Hst).
    eapply yields_seq; [apply (blit_row_ok s (copied_rows st0 g r f)); [done | lia] |].
    intros s2 Hs2. cbn beta in Hs2. eapply (yields_seq _ _ (λ d', zlen d' = rows)).
    { destruct (_ && _ && _) eqn:Ed; [| done]. rewrite aset_in by (rewrite Hdz; zbool). cbn. by rewrite zlen_insert. }
    intros d' Hd'. eapply yields_seq; [by apply (clear_dirty_row_ok R C) |]. intros st2 Hst2.
    cbn [yields]. split_and!; [| done | by transitivity st]. apply (paints_ext _ _ _ Hs2).
    intros i j _ _. unfold copied_rows, in_rect. cbn [rx ry rw rh].
    destruct (Z.eqb_spec i (ry g + r)) as [->|]; cbn [andb]; [| zbool].
    replace (ry g + r - ry g) with r by lia. unfold vt_at. rewrite Ecs0. cbn [mbind option_bind].
    destruct (aget (cells vr) (j - rx g)) eqn:Ea; cbn [default]; [pose proof (aget_Some _ _ _ Ea) |]; zbool.
  - cbn [yields]. split_and!; [| done | done]. destruct Ho as [Ho _]. apply (paints_ext _ _ _ Hs).
    intros i j _ _. unfold copied_rows, in_rect. cbn [rx ry rw rh].
    destruct (decide (i = ry g + r)) as [->|]; [| zbool].
    rewrite (vt_at_out R C st0) by (done || lia). zbool.
Qed.

Lemma blit_pane_ok m f k l :
  drawn m f k → pane_live m l → yields (blit_pane rows cols (leaf_node l) k) (drawn m (with_pane m f l)).
Proof.
  intros [Hp Hd Hv] Hl. unfold blit_pane. cbn [nd_vt nd_w nd_h leaf_node]. set (g := pn_rect l).
  destruct (pn_vt l) as [q|] eqn:Eq.
  2: { constructor; [| done | done]. apply (paints_ext _ _ _ Hp). intros i j _ _.
       unfold with_pane, pane_at. rewrite Eq. by case_match. }
  destruct (Hl q Eq) as (st0 & R & C & Hm & Hwf).
  pose proof (Hv q) as Hq. rewrite Hm in Hq. destruct (cp_vts k !! q) as [st|] eqn:Ek; inversion Hq as [? ? Hst|]; subst.
  cbn [mbind option_bind].
  destruct (cur_buf_ok R C st) as (b & Hb & h & Hrep); [by apply Hst |]. rewrite Hb, (br_cols _ _ _ _ Hrep).
  eapply (yields_seq _ _ (rows_copied st0 g f (Z.max 0 (rh g)))).
  - assert (rows_copied st0 g f 0 (cp_screen k, cp_dirty k, st)) as H0.
    { split_and!; [| done | done]. apply (paints_ext _ _ _ Hp). intros. unfold copied_rows, in_rect. simpl. zbool. }
    destruct (Z.le_gt_cases 0 (rh g)) as [Hh|Hh].
    + rewrite Z.max_r by lia. apply (for_up_inv (rows_copied st0 g f)); [done | done |].
      intros r x Hr Hx. apply (blit_pane_row_ok R C); [done | lia | | done]. fold g. zbool.
    + rewrite for_up_nop, Z.max_l by lia. done.
  - intros [[s d] st'] (Hs & Hdz & Hst'). cbn [yields]. cbn [fst snd] in *.
    constructor; cbn [cp_screen cp_dirty cp_vts]; [| done |].
    + apply (paints_ext _ _ _ Hs). intros i j _ _. unfold copied_rows, with_pane, pane_at. fold g.
      rewrite Eq. cbn [mbind option_bind]. rewrite Hm. cbn [mbind option_bind]. unfold in_rect. cbn [rx ry rw rh]. zbool.
    + intros i. destruct (decide (i = q)) as [->|]; [rewrite lookup_insert_eq, Hm; by constructor |].
      by rewrite lookup_insert_ne.
Qed.

Definition with_panes (m : vts) f (ls : list pane) : Z → Z → vt_cell := foldl (with_pane m) f ls.

Lemma blit_leaves_ok h m t k f kp :
  (depth t <= k)%nat → holds h t → drawn m f kp → Forall (pane_live m) (leaves t) →
  yields (blit_leaves k h rows cols (Some (addr_of t)) kp) (drawn m (with_panes m f (leaves t))).
Proof.
  intros Hk Hh. revert f kp Hk Hh. tree_ind t k; cbn [blit_leaves addr_of leaves] in *;
    (rewrite Hh || rewrite Hp); cbn [mbind option_bind].
  - rewrite is_leaf_leaf. apply blit_pane_ok; [done |]. by apply Forall_singleton.
  - rewrite is_leaf_branch. cbn [nd_a nd_b branch_node].
    match goal with H : Forall _ _ |- _ => apply Forall_app in H as [Hla Hlb] end.
    eapply yields_seq; [apply IHa; (done || lia) |]. intros k2 Hk2.
    unfold with_panes. rewrite foldl_app. apply IHb; (done || lia).
Qed.
End Blit.
