(* ===== verification/TileBorder.v ===== *)
(** * The lines between the panes

    On a tree with room for its panes the map of separators holds each
    separator's flags on its cells and nothing elsewhere, and the glyphs drawn
    from it are those of straight lines and tees: the lines never cross. *)

From stdpp Require Import gmap.
From S2P Require Import Prelude VtBuf VtState VtClient Render Tile TileTree TileHeap TileComposite TileScreen.

(** ** The lines of a tree *)

(** The separator at a cell: whether it is vertical, and whether the focus is on
    one of its sides. *)
Fixpoint line_at (T : tree) (focus row col : Z) : option (bool * bool) :=
  match T with
  | Leaf _ => None
  | Branch _ g v pos a b =>
      if in_rect row col (sep_rect v pos g) then Some (v, bool_decide (focus ∈ ids T)) else
      if in_rect row col (rect_of a) then line_at a focus row col else
      if in_rect row col (rect_of b) then line_at b focus row col else None
  end.

Definition line_flags (o : option (bool * bool)) : Z :=
  match o with
  | Some (v, f) => Z.lor (if v then SEP_V else SEP_H) (if f then SEP_FOCUSED else 0)
  | None => 0
  end.

Lemma ids_branch p g v pos a b : ids (Branch p g v pos a b) = ids a ++ ids b.
Proof. apply fmap_app. Qed.

Lemma subtree_has_focused_ok h t k focus :
  (depth t <= k)%nat → holds h t →
  subtree_has_focused k h (Some (addr_of t)) focus = Some (bool_decide (focus ∈ ids t)).
Proof.
  intros Hk Hh. revert Hk Hh. tree_ind t k; cbn [subtree_has_focused addr_of]; (rewrite Hh || rewrite Hp); cbn [mbind option_bind].
  - rewrite is_leaf_leaf. cbn [window_id leaf_node]. f_equal. apply Bool.eq_iff_eq_true.
    rewrite bool_decide_eq_true, Z.eqb_eq. unfold ids. cbn. rewrite list_elem_of_singleton. split; congruence.
  - rewrite is_leaf_branch. cbn [nd_a nd_b branch_node]. rewrite IHa by (done || lia). cbn [mbind option_bind].
    rewrite ids_branch. destruct (bool_decide_reflect (focus ∈ ids a)).
    + by rewrite bool_decide_eq_true_2 by (apply elem_of_app; by left).
    + rewrite IHb by (done || lia). f_equal. apply bool_decide_ext. rewrite elem_of_app. tauto.
Qed.

Section Marks.
Context {rows cols : Z}.
Implicit Types (f : Z → Z → Z).
Local Abbreviation paints := (paints rows cols).

(** The flags [bits] added to the cells of a rectangle. *)
Definition marked (g : rect) (bits : Z) f (row col : Z) : Z :=
  if in_rect row col g then Z.lor (f row col) bits else f row col.

(** The map [f] with the flags of the lines of [T]. *)
Fixpoint with_lines (T : tree) (focus : Z) f : Z → Z → Z :=
  match T with
  | Leaf _ => f
  | Branch _ g v pos a b =>
      with_lines b focus (with_lines a focus
        (marked (sep_rect v pos g) (line_flags (Some (v, bool_decide (focus ∈ ids T)))) f))
  end.

Lemma mark_at_ok s f row col bit (foc : bool) :
  paints s f → 0 <= row < rows → 0 <= col < cols →
  yields (mark_at (row * cols + col) bit foc s)
    (λ s', paints s' (marked (mk_rect col row 1 1) (Z.lor bit (if foc then SEP_FOCUSED else 0)) f)).
Proof.
  intros Hp Hr Hc. unfold mark_at. rewrite (proj2 Hp) by done. cbn [mbind option_bind].
  eapply yields_seq; [apply (paints_set _ _ _ _ _ Hp Hr Hc) |]. intros s1 Hs1. cbn beta in Hs1.
  assert (∀ i j, in_rect i j (mk_rect col row 1 1) = (i =? row) && (j =? col)) as Hin.
  { intros i j. unfold in_rect. cbn [rx ry rw rh]. zbool. }
  destruct foc.
  - rewrite (proj2 Hs1) by done. rewrite !Z.eqb_refl. cbn [mbind option_bind andb].
    eapply yields_mono; [apply (paints_set _ _ _ _ _ Hs1 Hr Hc) |]. intros s2 Hs2. apply (paints_ext _ _ _ Hs2).
    intros i j _ _. unfold marked. rewrite Hin. destruct (Z.eqb_spec i row) as [->|]; [| done].
    destruct (Z.eqb_spec j col) as [->|]; cbn [andb]; [by rewrite Z.lor_assoc | done].
  - cbn [yields]. apply (paints_ext _ _ _ Hs1). intros i j _ _. unfold marked. rewrite Hin, Z.lor_0_r.
    destruct (Z.eqb_spec i row) as [->|]; [| done]. by destruct (Z.eqb_spec j col) as [->|].
Qed.

(** A line drawn cell by cell. *)
Lemma mark_line_ok (v : bool) lo hi pos bit (foc : bool) s f :
  paints s f → 0 <= lo <= hi → hi <= (if v then rows else cols) → 0 <= pos < (if v then cols else rows) →
  yields (for_up lo hi (λ i, mark_at (if v then i * cols + pos else pos * cols + i) bit foc) s)
    (λ s', paints s' (marked (if v then mk_rect pos lo 1 (hi - lo) else mk_rect lo pos (hi - lo) 1)
      (Z.lor bit (if foc then SEP_FOCUSED else 0)) f)).
Proof.
  intros Hs Hlo Hhi Hpos. set (bits := Z.lor bit _).
  apply (for_up_inv (λ i s', paints s' (marked (if v then mk_rect pos lo 1 (i - lo) else mk_rect lo pos (i - lo) 1) bits f))).
  - lia.
  - apply (paints_ext _ _ _ Hs). intros i j _ _. unfold marked, in_rect. destruct v; cbn [rx ry rw rh]; zbool.
  - intros i s' Hi Hs'. destruct v.
    + eapply yields_mono; [apply (mark_at_ok _ _ _ _ _ _ Hs'); lia |]. intros s2 Hs2. apply (paints_ext _ _ _ Hs2).
      intros j k _ _. fold bits. unfold marked, in_rect. cbn [rx ry rw rh]. zbool.
    + eapply yields_mono; [apply (mark_at_ok _ _ _ _ _ _ Hs'); lia |]. intros s2 Hs2. apply (paints_ext _ _ _ Hs2).
      intros j k _ _. fold bits. unfold marked, in_rect. cbn [rx ry rw rh]. zbool.
Qed.
End Marks.

(** ** Marking *)

(** A rectangle on the screen. *)
Definition on_screen (rows cols : Z) (r : rect) : Prop :=
  0 <= rx r ∧ 0 <= rw r ∧ rx r + rw r <= cols ∧ 0 <= ry r ∧ 0 <= rh r ∧ ry r + rh r <= rows.

Lemma lay_branch p g v pos a b r :
  Branch p g v pos a b = lay (Branch p g v pos a b) r →
  g = r ∧ a = lay a (rect_a v pos r) ∧ b = lay b (rect_b v pos r).
Proof. cbn [lay]. intros [= Hg Ha Hb]. done. Qed.

Lemma laid_rect t r : t = lay t r → rect_of t = r.
Proof. intros H. rewrite H. apply rect_of_lay. Qed.

Lemma on_screen_parts rows cols (v : bool) pos r :
  on_screen rows cols r → fits v pos r →
  on_screen rows cols (rect_a v pos r) ∧ on_screen rows cols (rect_b v pos r) ∧ on_screen rows cols (sep_rect v pos r).
Proof.
  unfold on_screen, fits. intros H [H3 _]. pose proof (split_mid_room _ pos H3). destruct v; cbn in *; lia.
Qed.

Lemma node_of_rect t :
  nd_x (node_of t) = rx (rect_of t) ∧ nd_y (node_of t) = ry (rect_of t) ∧
  nd_w (node_of t) = rw (rect_of t) ∧ nd_h (node_of t) = rh (rect_of t).
Proof. by destruct t. Qed.

Section Lines.
Context {rows cols : Z}.
Implicit Types (f : Z → Z → Z).
Local Abbreviation paints := (paints rows cols).

(** The loop over the cells of a branch's separator. *)
Lemma mark_branch_ok (v : bool) pos g (foc : bool) s f :
  paints s f → on_screen rows cols g → fits v pos g →
  yields (match dir_of v with
          | TILE_SPLIT_V =>
              let x := rx (rect_a v pos g) + rw (rect_a v pos g) in
              if (0 <=? x) && (x <? cols)
              then for_up (ry g) (Z.min (ry g + rh g) rows) (λ i, mark_at (i * cols + x) SEP_V foc) s else Some s
          | _ =>
              let y := ry (rect_a v pos g) + rh (rect_a v pos g) in
              if (0 <=? y) && (y <? rows)
              then for_up (rx g) (Z.min (rx g + rw g) cols) (λ i, mark_at (y * cols + i) SEP_H foc) s else Some s
          end)
    (λ s', paints s' (marked (sep_rect v pos g) (line_flags (Some (v, foc))) f)).
Proof.
  intros Hs Hg Hf. destruct (on_screen_parts _ _ _ _ _ Hg Hf) as (_ & _ & Hsep). unfold on_screen in *.
  destruct v; cbn [dir_of line_flags sep_rect rect_a rx ry rw rh] in *.
  - replace (_ && _) with true by zbool. rewrite Z.min_l by lia.
    eapply yields_mono; [apply (mark_line_ok true _ _ _ _ foc s f Hs); lia |]. intros s' Hs'. apply (paints_ext _ _ _ Hs').
    intros i j _ _. unfold marked, in_rect. cbn [rx ry rw rh]. by replace (ry g + rh g - ry g) with (rh g) by lia.
  - replace (_ && _) with true by zbool. rewrite Z.min_l by lia.
    eapply yields_mono; [apply (mark_line_ok false _ _ _ _ foc s f Hs); lia |]. intros s' Hs'. apply (paints_ext _ _ _ Hs').
    intros i j _ _. unfold marked, in_rect. cbn [rx ry rw rh]. by replace (rx g + rw g - rx g) with (rw g) by lia.
Qed.

Lemma mark_separators_ok h t k focus r s f :
  (depth t <= k)%nat → holds h t → t = lay t r → roomy t r → on_screen rows cols r → paints s f →
  yields (mark_separators k h rows cols (Some (addr_of t)) focus s) (λ s', paints s' (with_lines t focus f)).
Proof.
  intros Hk Hh. revert r s f Hk Hh. tree_ind t k; cbn [mark_separators addr_of]; (rewrite Hh || rewrite Hp); cbn [mbind option_bind].
  - by rewrite is_leaf_leaf.
  - rewrite is_leaf_branch. cbn [nd_a nd_b nd_type nd_x nd_y nd_w nd_h branch_node].
    match goal with H : _ = lay _ r |- _ => apply lay_branch in H as (-> & El & Er) end.
    match goal with H : roomy _ r |- _ => destruct H as (Hf & Hra & Hrb) end.
    match goal with H : on_screen _ _ r |- _ => pose proof (on_screen_parts _ _ _ _ _ H Hf) as (Hoa & Hob & _) end.
    rewrite !subtree_has_focused_ok by (done || lia). cbn [mbind option_bind].
    rewrite (holds_root _ _ Ha). cbn [mbind option_bind].
    destruct (node_of_rect a) as (-> & -> & -> & ->). rewrite (laid_rect _ _ El).
    match goal with |- context [mark_at _ SEP_V ?foc] => replace foc with (bool_decide (focus ∈ ids (Branch p r v pos a b))) end.
    2: { rewrite ids_branch, (bool_decide_ext _ _ (elem_of_app _ _ _)), bool_decide_or. by destruct (bool_decide _), (bool_decide _). }
    eapply yields_seq; [by apply (mark_branch_ok v pos r _ s f) |]. intros s1 Hs1. cbn beta in Hs1.
    eapply yields_seq; [apply (IHa k (rect_a v pos r)); (done || lia) |]. intros s2 Hs2. cbn beta in Hs2.
    cbn [with_lines]. by apply (IHb k (rect_b v pos r)); (done || lia).
Qed.

(** A roomy tree has at most one line at a cell. *)
Lemma line_at_out t focus r row col : t = lay t r → in_rect row col r = false → roomy t r → line_at t focus row col = None.
Proof.
  revert r; induction t as [l|p g v pos a IHa b IHb]; intros r Hl Hin Hr; [done |]. cbn [line_at].
  apply lay_branch in Hl as (-> & El & Er). destruct Hr as ([H3 _] & Ha & Hb).
  pose proof (split_partition v pos r row col H3) as Hp. rewrite Hin in Hp.
  rewrite (laid_rect _ _ El), (laid_rect _ _ Er).
  destruct (in_rect row col (sep_rect v pos r)), (in_rect row col (rect_a v pos r)), (in_rect row col (rect_b v pos r));
    cbn [b2z] in Hp; done || lia.
Qed.

Lemma with_lines_flags t focus r f row col :
  t = lay t r → roomy t r → with_lines t focus f row col = Z.lor (f row col) (line_flags (line_at t focus row col)).
Proof.
  revert r f; induction t as [l|p g v pos a IHa b IHb]; intros r f Hl Hr; [cbn; by rewrite Z.lor_0_r |].
  apply lay_branch in Hl as (-> & El & Er). destruct Hr as ([H3 _] & Ha & Hb).
  pose proof (split_partition v pos r row col H3) as Hp. cbn [with_lines line_at].
  rewrite (IHb _ _ Er Hb), (IHa _ _ El Ha). unfold marked.
  pose proof (line_at_out a focus _ row col El) as Hoa. pose proof (line_at_out b focus _ row col Er) as Hob.
  rewrite (laid_rect _ _ El), (laid_rect _ _ Er).
  destruct (in_rect row col (sep_rect v pos r)), (in_rect row col (rect_a v pos r)), (in_rect row col (rect_b v pos r));
    cbn [b2z] in Hp; try (destruct (in_rect row col r); cbn [b2z] in Hp; lia);
    rewrite ?Hoa, ?Hob by done; cbn [line_flags]; by rewrite ?Z.lor_0_r.
Qed.
End Lines.

(** ** Glyphs *)

(** The glyph of a line, by whether lines across it end at its two sides: left
    and right of a vertical one, above and below a horizontal one. *)
Definition line_glyph (v foc before after : bool) : Z :=
  match before, after with
  | true, true => if foc then GLYPH_F_X else GLYPH_U_X
  | true, false => if v then (if foc then GLYPH_F_RT else GLYPH_U_RT) else if foc then GLYPH_F_BT else GLYPH_U_BT
  | false, true => if v then (if foc then GLYPH_F_LT else GLYPH_U_LT) else if foc then GLYPH_F_TT else GLYPH_U_TT
  | false, false => if v then (if foc then GLYPH_F_V else GLYPH_U_V) else if foc then GLYPH_F_H else GLYPH_U_H
  end.

(** A line in the other direction is at the cell. *)
Definition crosses (v : bool) (o : option (bool * bool)) : bool :=
  match o with Some (v', _) => negb (Bool.eqb v v') | None => false end.

(** The cell drawn over [under], given the lines of the screen. *)
Definition line_cell (line : Z → Z → option (bool * bool)) (under : vt_cell) (row col : Z) : vt_cell :=
  match line row col with
  | None => under
  | Some (v, foc) =>
      border_cell (line_glyph v foc
        (crosses v (if v then line row (col - 1) else line (row - 1) col))
        (crosses v (if v then line row (col + 1) else line (row + 1) col))) foc
  end.

Lemma flags_vertical o : has_bits (line_flags o) SEP_V = crosses false o.
Proof. by destruct o as [[[] []]|]. Qed.
Lemma flags_horizontal o : has_bits (line_flags o) SEP_H = crosses true o.
Proof. by destruct o as [[[] []]|]. Qed.

Section Cells.
Context {A : Type} {rows cols : Z} (Hrows : 0 <= rows) (Hcols : 0 <= cols).
Implicit Types (f : Z → Z → A).
Local Abbreviation paints := (paints rows cols).

(** A loop that updates each cell by itself. *)
Lemma for_cells_ok (g : Z → Z → A → A) (body : Z → Z → list A → option (list A)) s f :
  (∀ r c s f, 0 <= r < rows → 0 <= c < cols → paints s f →
    yields (body r c s) (λ s', paints s' (λ i k, if (i =? r) && (k =? c) then g i k (f i k) else f i k))) →
  paints s f → yields (for_cells rows cols body s) (λ s', paints s' (λ i k, g i k (f i k))).
Proof.
  intros Hbody Hs. unfold for_cells.
  eapply yields_mono.
  - apply (for_up_inv (λ r s', paints s' (λ i k, if i <? r then g i k (f i k) else f i k))); [done | |].
    + apply (paints_ext _ _ _ Hs). intros. zbool.
    + intros r s' Hr Hs'. eapply yields_mono.
      * apply (for_up_inv (λ c s', paints s' (λ i k, if (i <? r) || (i =? r) && (k <? c) then g i k (f i k) else f i k))); [done | |].
        -- apply (paints_ext _ _ _ Hs'). intros. zbool.
        -- intros c s1 Hc Hs1. eapply yields_mono; [exact (Hbody _ _ _ _ Hr Hc Hs1) |].
           intros s2 Hs2. apply (paints_ext _ _ _ Hs2). intros i k _ _. cbn beta.
           destruct (Z.eqb_spec i r) as [->|]; [| zbool]. destruct (Z.eqb_spec k c) as [->|]; cbn [andb]; [| zbool].
           rewrite !Z.ltb_irrefl. cbn [orb]. zbool.
      * intros s1 Hs1. apply (paints_ext _ _ _ Hs1). intros. cbn beta. zbool.
  - intros s1 Hs1. apply (paints_ext _ _ _ Hs1). intros. cbn beta. zbool.
Qed.
End Cells.

Section Drawing.
Context {rows cols : Z} (Hrows : 0 <= rows) (Hcols : 0 <= cols).
Local Abbreviation paints := (paints rows cols).
Context (line : Z → Z → option (bool * bool)) (m : list Z).
Context (Hm : paints m (λ row col, line_flags (line row col))).
Context (Hline : ∀ row col, ¬ (0 <= row < rows ∧ 0 <= col < cols) → line row col = None).

Lemma put_border_ok s (f : Z → Z → vt_cell) r c cp (foc : bool) (g : Z → Z → vt_cell → vt_cell) :
  paints s f → g r c (f r c) = border_cell cp foc →
  yields (screen_put_glyph rows cols r c cp foc s)
    (λ s', paints s' (λ i k, if (i =? r) && (k =? c) then g i k (f i k) else f i k)).
Proof.
  intros Hs Hg. unfold screen_put_glyph. eapply yields_mono; [by apply put_ok |].
  intros s1 Hs1. apply (paints_ext _ _ _ Hs1). intros i k _ _. cbn beta.
  destruct (Z.eqb_spec i r) as [->|]; [| done]. by destruct (Z.eqb_spec k c) as [->|].
Qed.

Lemma keep_ok s (f : Z → Z → vt_cell) r c (g : Z → Z → vt_cell → vt_cell) :
  paints s f → g r c (f r c) = f r c →
  yields (Some s) (λ s', paints s' (λ i k, if (i =? r) && (k =? c) then g i k (f i k) else f i k)).
Proof.
  intros Hs Hg. cbn [yields]. apply (paints_ext _ _ _ Hs). intros i k _ _.
  destruct (Z.eqb_spec i r) as [->|]; [| done]. by destruct (Z.eqb_spec k c) as [->|].
Qed.

(** The straight pieces. *)
Definition straight (row col : Z) (under : vt_cell) : vt_cell :=
  match line row col with
  | None => under
  | Some (v, foc) => border_cell (line_glyph v foc false false) foc
  end.

Lemma draw_separators_ok s f :
  paints s f → yields (draw_separators rows cols m s) (λ s', paints s' (λ i k, straight i k (f i k))).
Proof.
  intros Hs. apply for_cells_ok; [done | done | | done]. intros r c s1 f1 Hr Hc Hs1.
  rewrite (proj2 Hm) by done. cbn [mbind option_bind].
  destruct (line r c) as [[v foc]|] eqn:El.
  - replace (line_flags (Some (v, foc)) =? 0) with false by (by destruct v, foc).
    apply put_border_ok; [done |]. unfold straight. rewrite El. by destruct v, foc.
  - apply keep_ok; [done |]. unfold straight. by rewrite El.
Qed.

(** The reads of the neighbours. *)
Lemma neighbour_ok (on : bool) row col bit (v : bool) :
  on = bool_decide (0 <= row < rows ∧ 0 <= col < cols) → bit = (if v then SEP_H else SEP_V) →
  neighbour on m (row * cols + col) bit = Some (crosses v (line row col)).
Proof.
  intros -> ->. unfold neighbour. case_bool_decide as Hin.
  - destruct Hin. rewrite (proj2 Hm) by done. cbn [mbind option_bind].
    destruct v; by rewrite ?flags_vertical, ?flags_horizontal.
  - by rewrite Hline.
Qed.

Lemma fix_endpoints_ok s f :
  paints s (λ i k, straight i k (f i k)) →
  yields (fix_endpoints rows cols m s) (λ s', paints s' (λ i k, line_cell line (f i k) i k)).
Proof.
  intros Hs.
  set (g := λ i k (x : vt_cell),
    match line i k with
    | None => x
    | Some (v, _) =>
        if crosses v (if v then line i (k - 1) else line (i - 1) k) || crosses v (if v then line i (k + 1) else line (i + 1) k)
        then line_cell line x i k else x
    end).
  eapply yields_mono; [apply (for_cells_ok Hrows Hcols g _ s (λ i k, straight i k (f i k))); [| exact Hs] |].
  - intros r c s1 f1 Hr Hc Hs1. rewrite (proj2 Hm) by done. cbn [mbind option_bind].
    replace (r * cols + c - 1) with (r * cols + (c - 1)) by lia.
    replace (r * cols + c + 1) with (r * cols + (c + 1)) by lia.
    rewrite (neighbour_ok (0 <? r) (r - 1) c SEP_V false), (neighbour_ok (r <? rows - 1) (r + 1) c SEP_V false),
      (neighbour_ok (0 <? c) r (c - 1) SEP_H true), (neighbour_ok (c <? cols - 1) r (c + 1) SEP_H true);
      try done; try (apply Bool.eq_iff_eq_true; rewrite bool_decide_eq_true, Z.ltb_lt; lia).
    cbn [mbind option_bind].
    destruct (line r c) as [[v foc]|] eqn:El; [| apply keep_ok; [done |]; unfold g; by rewrite El].
    destruct v, foc; cbn [line_flags]; unfold end_glyph; cbn [negb andb];
      repeat match goal with |- context [has_bits ?x ?y] => let b := eval vm_compute in (has_bits x y) in
        change (has_bits x y) with b end; cbn [negb andb].
    all: repeat match goal with |- context [crosses ?v ?o] => let E := fresh in destruct (crosses v o) eqn:E end; cbn [andb].
    all: try (apply put_border_ok; [done |]); try (apply keep_ok; [done |]).
    all: unfold g, line_cell; rewrite El; cbv iota; by repeat match goal with E : crosses _ _ = _ |- _ => rewrite E end.
  - intros s1 Hs1. apply (paints_ext _ _ _ Hs1). intros i k _ _. unfold g, line_cell, straight. cbn beta.
    destruct (line i k) as [[v foc]|]; [| done].
    destruct (crosses v (if v then line i (k - 1) else _)), (crosses v (if v then line i (k + 1) else _)); done.
Qed.
End Drawing.
