(* ===== verification/TileFrame.v ===== *)
(** * A frame of the tiled display

    What attach.c's [tiled_render] does when nothing is selected and no image is
    pending: compose the panes, compare with the frame before, find the cursor,
    and give the renderer the result.  The renderer's theorem then carries the
    picture of the panes to the client's terminal. *)

From stdpp Require Import gmap.
From S2P Require Import Prelude WidthTables RuneWidth VtBuf VtState VtClient VtDump Txl Render RenderCorrect.
From S2P Require Import Tile TileTree TileHeap TileSpec TileCorrect TileSession TileRefine TileComposite.
From S2P Require Import TileScreen TileBorder.

(** ** The picture of the panes *)

Definition picture (m : vts) (T : tree) (focus row col : Z) : vt_cell :=
  line_cell (line_at T focus) (with_panes m (λ _ _, vt_cell_clear) (leaves T) row col) row col.

Lemma on_screen_rect t T : reps t T → on_screen (tl_rows t) (tl_cols t) (screen_rect t).
Proof.
  intros Hrep. unfold on_screen, screen_rect. cbn. pose proof (rp_cols _ _ Hrep). pose proof (rp_dirty _ _ Hrep) as Hd.
  pose proof (zlen_nonneg (tl_dirty t)). lia.
Qed.

Lemma line_at_leaf T focus row col : is_branch T = false → line_at T focus row col = None.
Proof. by destruct T. Qed.

Lemma line_at_screen t T focus row col :
  reps t T → roomy T (screen_rect t) → ¬ (0 <= row < tl_rows t ∧ 0 <= col < tl_cols t) → line_at T focus row col = None.
Proof.
  intros Hrep Hr Hno. eapply line_at_out; [by apply Hrep | | done]. unfold in_rect, screen_rect. cbn. zbool.
Qed.

(** What drawing the lines needs and does. *)
Definition composed (t : tile) (m : vts) (T : tree) (x : tile * vts) : Prop :=
  reps x.1 T ∧ paints (tl_rows t) (tl_cols t) (tl_screen x.1) (picture m T (focused_id t)) ∧
  tl_rows x.1 = tl_rows t ∧ tl_cols x.1 = tl_cols t ∧ focused_id x.1 = focused_id t ∧ tl_prev x.1 = tl_prev t ∧
  tl_heap x.1 = tl_heap t ∧ vts_cleaned m x.2.

Lemma paints_replicate {A} (R C : Z) (x : A) :
  0 <= R → 0 <= C → paints R C (replicate (Z.to_nat (R * C)) x) (λ _ _, x).
Proof.
  intros HR HC. split; [by rewrite zlen_replicate by nia |]. intros row col Hr Hc. pose proof (cell_index row col Hr Hc).
  rewrite aget_replicate. case_match; [done | lia].
Qed.

(** The separators over the screen [f]. *)
Lemma lines_ok t T s f :
  reps t T → roomy T (screen_rect t) → let R := tl_rows t in let C := tl_cols t in
  paints R C s f →
  yields (smap ← xcalloc (R * C) 0;
          smap ← mark_separators (hfuel (tl_heap t)) (tl_heap t) R C (Some (addr_of T)) (focused_id t) smap;
          s ← draw_separators R C smap s;
          fix_endpoints R C smap s)
    (λ s', paints R C s' (λ row col, line_cell (line_at T (focused_id t)) (f row col) row col)).
Proof.
  intros Hrep Hroom R C Hs. pose proof (rp_dirty _ _ Hrep) as Hd. pose proof (zlen_nonneg (tl_dirty t)).
  pose proof (rp_cols _ _ Hrep) as HC. fold R C in Hd, HC. assert (0 <= R) as HR by lia.
  unfold xcalloc. rewrite (proj2 (Z.ltb_ge _ _)) by nia. cbn [mbind option_bind].
  pose proof (rp_laid _ _ Hrep) as Hl.
  eapply yields_seq.
  { apply (mark_separators_ok _ _ _ _ (screen_rect t) _ (λ _ _, 0)); [by apply reps_fuel | by apply reps_holds | done | done | |].
    - by apply (on_screen_rect t T).
    - by apply paints_replicate. }
  intros smap Hmap. cbn beta in Hmap.
  assert (paints R C smap (λ row col, line_flags (line_at T (focused_id t) row col))) as Hmap'.
  { apply (paints_ext _ _ _ Hmap). intros. by rewrite (with_lines_flags _ _ (screen_rect t)). }
  assert (∀ row col, ¬ (0 <= row < R ∧ 0 <= col < C) → line_at T (focused_id t) row col = None) as Hout.
  { intros. by apply (line_at_screen t). }
  eapply yields_seq; [by apply (draw_separators_ok HR HC _ smap Hmap' _ f) |]. intros s1 Hs1.
  by apply (fix_endpoints_ok HR HC _ smap Hmap' Hout).
Qed.

Lemma tile_composite_ok t T m :
  reps t T → roomy T (screen_rect t) → Forall (pane_live m) (leaves T) →
  yields (tile_composite t m) (composed t m T).
Proof.
  intros Hrep Hroom Hlive. pose proof Hrep as [Hh Hroot Hnd Hid Hl Hcount Hs Hp Hd Hcols].
  pose proof (zlen_nonneg (tl_dirty t)) as Hz. set (R := tl_rows t) in *. set (C := tl_cols t) in *.
  unfold tile_composite. rewrite Hroot. fold R C.
  rewrite (for_up_fill 0 0 R) by lia. cbn [mbind option_bind].
  rewrite for_up_fill by nia. cbn [mbind option_bind].
  eapply (yields_seq _ _ (drawn (rows := R) (cols := C) m (with_panes m (λ _ _, vt_cell_clear) (leaves T)))).
  { apply blit_leaves_ok; [by apply reps_fuel | by apply reps_holds | | done].
    constructor; cbn [cp_screen cp_dirty cp_vts]; [| by rewrite zlen_fill | intros q; by destruct (m !! q); constructor].
    split; [by rewrite zlen_fill |]. intros row col Hr Hc. pose proof (cell_index row col Hr Hc).
    rewrite aget_fill. destruct (aget_in (tl_screen t) (row * C + col)) as [c ->]; [lia |]. cbn. zbool. }
  intros k [Hks Hkd Hkv]. rewrite (holds_root _ _ (reps_holds _ _ Hrep)). cbn [mbind option_bind].
  rewrite is_leaf_node. eapply (yields_seq _ _ (λ s, paints R C s (picture m T (focused_id t)))).
  - destruct (is_branch T) eqn:Eb; cbn [negb].
    + by apply lines_ok.
    + cbn [yields]. apply (paints_ext _ _ _ Hks). intros. unfold picture, line_cell. by rewrite line_at_leaf.
  - intros s Hsp. cbn [yields]. split_and!; try done. cbn [fst].
    constructor; cbn; try done. by destruct Hsp as [-> _].
Qed.

(** The picture, cell by cell: a pane's cells are its terminal's, ... *)
Lemma with_panes_none m f ls row col :
  filter (λ l, in_rect row col (pn_rect l) = true) ls = [] → with_panes m f ls row col = f row col.
Proof.
  revert f; induction ls as [|l ls IH]; intros f Hf; [done |]. cbn [with_panes foldl]. fold (with_panes m (with_pane m f l) ls).
  rewrite filter_cons in Hf. unfold with_panes in IH |- *. case_decide as Hl; [done |].
  rewrite IH by done. unfold with_pane. by destruct (in_rect row col (pn_rect l)).
Qed.

Lemma with_panes_one m f ls row col l :
  filter (λ l, in_rect row col (pn_rect l) = true) ls = [l] →
  with_panes m f ls row col = default (f row col) (pane_at m l row col).
Proof.
  revert f; induction ls as [|l' ls IH]; intros f Hf; [done |]. cbn [with_panes foldl].
  change (with_panes m (with_pane m f l') ls row col = default (f row col) (pane_at m l row col)).
  rewrite filter_cons in Hf. case_decide as Hl.
  - injection Hf as -> Hf. rewrite with_panes_none by done. unfold with_pane. by rewrite Hl.
  - rewrite IH by done. unfold with_pane. by destruct (in_rect row col (pn_rect l')).
Qed.

(** A pane of a roomy tree is on the screen. *)
Lemma leaf_on_screen rows cols T r l :
  T = lay T r → roomy T r → on_screen rows cols r → l ∈ leaves T →
  on_screen rows cols (pn_rect l) ∧ 1 <= rw (pn_rect l) ∧ 1 <= rh (pn_rect l).
Proof.
  revert r; induction T as [l'|p g v pos a IHa b IHb]; intros r Hl Hr Ho; cbn [leaves].
  - intros ->%list_elem_of_singleton. replace (pn_rect l') with r by (symmetry; exact (laid_rect _ _ Hl)).
    split; [done | exact Hr].
  - apply lay_branch in Hl as (-> & El & Er). destruct Hr as (Hf & Ha & Hb).
    destruct (on_screen_parts _ _ _ _ _ Ho Hf) as (Hoa & Hob & _). intros [?|?]%elem_of_app.
    + by apply (IHa (rect_a v pos r)).
    + by apply (IHb (rect_b v pos r)).
Qed.

(** A cell is on a line or in one pane. *)
Definition panes_at (T : tree) (row col : Z) : list pane := filter (λ l, in_rect row col (pn_rect l) = true) (leaves T).

Lemma line_or_pane T focus r row col :
  T = lay T r → roomy T r →
  b2z (in_rect row col r) = zlen (panes_at T row col) + b2z (if line_at T focus row col is Some _ then true else false).
Proof.
  revert r; induction T as [l|p g v pos a IHa b IHb]; intros r Hl Hr; unfold panes_at.
  - cbn [leaves line_at]. rewrite filter_cons, filter_nil. replace (pn_rect l) with r by (symmetry; exact (laid_rect _ _ Hl)).
    case_decide as E; rewrite ?E; [done |]. by destruct (in_rect row col r).
  - apply lay_branch in Hl as (-> & El & Er). destruct Hr as ([H3 _] & Ha & Hb).
    rewrite (split_partition v pos r row col H3). cbn [leaves line_at]. rewrite filter_app, zlen_app.
    fold (panes_at a row col) (panes_at b row col).
    specialize (IHa _ El Ha). specialize (IHb _ Er Hb).
    rewrite (laid_rect _ _ El), (laid_rect _ _ Er), IHa, IHb.
    pose proof (split_partition v pos r row col H3) as Hp. rewrite IHa, IHb in Hp.
    pose proof (zlen_nonneg (panes_at a row col)). pose proof (zlen_nonneg (panes_at b row col)).
    assert (in_rect row col (rect_a v pos r) = false → line_at a focus row col = None) as Hoa by (intros; by eapply line_at_out).
    assert (in_rect row col (rect_b v pos r) = false → line_at b focus row col = None) as Hob by (intros; by eapply line_at_out).
    destruct (in_rect row col (sep_rect v pos r)) eqn:Es, (in_rect row col (rect_a v pos r)) eqn:Ea, (in_rect row col (rect_b v pos r)) eqn:Eb;
      rewrite ?Hoa, ?Hob in * by done; clear Hoa Hob;
      destruct (line_at a focus row col), (line_at b focus row col), (in_rect row col r); cbn [b2z] in *; lia.
Qed.

Lemma with_panes_cell m T focus row col r :
  T = lay T r → roomy T r → in_rect row col r = true → line_at T focus row col = None →
  ∃ l, l ∈ leaves T ∧ in_rect row col (pn_rect l) = true ∧
    picture m T focus row col = default vt_cell_clear (pane_at m l row col).
Proof.
  intros Hl Hr Hin Hno. pose proof (line_or_pane T focus r row col Hl Hr) as H. rewrite Hin, Hno in H. cbn in H.
  destruct (panes_at T row col) as [|l [|]] eqn:E; unfold zlen in H; cbn [length] in H; [lia | | lia].
  - exists l. assert (l ∈ panes_at T row col) as [? ?]%list_elem_of_filter by (rewrite E; left). split_and!; [done | done |].
    unfold picture, line_cell. rewrite Hno. by rewrite (with_panes_one _ _ _ _ _ l E).
Qed.

Lemma line_no_pane T focus row col r l :
  T = lay T r → roomy T r → is_Some (line_at T focus row col) → l ∈ leaves T → in_rect row col (pn_rect l) = false.
Proof.
  intros Hl Hr Hs Hin. pose proof (line_or_pane T focus r row col Hl Hr) as H. destruct Hs as [o Ho]. rewrite Ho in H.
  destruct (panes_at T row col) as [|l' ls] eqn:E.
  - destruct (in_rect row col (pn_rect l)) eqn:El; [| done].
    assert (l ∈ panes_at T row col) as Hp by (by apply list_elem_of_filter). rewrite E in Hp. by apply not_elem_of_nil in Hp.
  - rewrite zlen_cons in H. pose proof (zlen_nonneg ls). destruct (in_rect row col r); cbn [b2z] in H; lia.
Qed.

(** ** The cursor *)

(** The focused pane's cursor on the screen. *)
Definition cursor_at (m : vts) (ls : list pane) (focus : Z) : option (Z * Z * Z) :=
  match find (λ l, pn_id l =? focus) ls with
  | None => Some (0, 0, 0)
  | Some l =>
      match pn_vt l with
      | Some q => st ← m !! q; Some (ry (pn_rect l) + cursor_row st, rx (pn_rect l) + cursor_col st, 1)
      | None => Some (ry (pn_rect l), rx (pn_rect l), 0)
      end
  end.

Fixpoint tree_size (T : tree) : nat := match T with Leaf _ => 1 | Branch _ _ _ _ a b => S (tree_size a + tree_size b) end.

Lemma leaves_bind_length ts : (length ts <= length (ts ≫= leaves))%nat.
Proof.
  induction ts as [|T ts IH]; [done |]. rewrite bind_cons, length_app. cbn [length].
  pose proof (leaves_nonempty T). destruct (leaves T); [done |]. cbn [length]. lia.
Qed.

Lemma cursor_leaves_ok h ts fuel acc :
  Forall (holds h) ts → (sum_list_with tree_size ts <= fuel)%nat →
  (length acc + length (ts ≫= leaves) <= MAX_PANES)%nat →
  cursor_leaves fuel h (addr_of <$> ts) acc = Some (acc ++ (pn_addr <$> ts ≫= leaves)).
Proof.
  revert ts acc; induction fuel as [|fuel IH]; intros [|T ts] acc Hh Hf Hn; cbn [fmap list_fmap cursor_leaves];
    try (by rewrite app_nil_r); cbn [sum_list_with] in Hf; [destruct T; cbn in Hf; lia |].
  pose proof (leaves_bind_length (T :: ts)) as Hlen. cbn [length] in Hlen. rewrite bind_cons in Hlen, Hn |- *.
  rewrite (proj2 (Nat.leb_gt _ _)) by lia. apply Forall_cons in Hh as [HT Hts].
  rewrite (holds_root _ _ HT). cbn [mbind option_bind]. rewrite is_leaf_node.
  destruct T as [l|p g v pos a b]; cbn [is_branch negb node_of tree_size] in *.
  - cbn [addr_of]. rewrite IH; [| done | lia |].
    + by rewrite <- app_assoc.
    + rewrite length_app in Hn |- *. cbn [length leaves] in *. lia.
  - heap_step. cbn [nd_a nd_b branch_node].
    unfold MAX_PANES, CURSOR_STACK in *. rewrite (proj2 (Nat.leb_gt _ _)) by (rewrite length_fmap; lia).
    cbn [mbind option_bind]. rewrite (proj2 (Nat.leb_gt _ _)) by (cbn [length]; rewrite length_fmap; lia).
    cbn [mbind option_bind]. change (addr_of a :: addr_of b :: (addr_of <$> ts)) with (addr_of <$> a :: b :: ts).
    rewrite IH.
    + rewrite !bind_cons. cbn [leaves]. by rewrite <- app_assoc.
    + by repeat constructor.
    + cbn [sum_list_with]. lia.
    + rewrite !bind_cons. cbn [leaves] in Hn. rewrite !length_app in Hn |- *. lia.
Qed.

Lemma cursor_of_ok h m ls focus :
  Forall (λ l, h !! pn_addr l = Some (leaf_node l)) ls →
  cursor_of h m (pn_addr <$> ls) focus = cursor_at m ls focus.
Proof.
  unfold cursor_at. induction 1 as [|l ls Hl _ IH]; [done |]. cbn [fmap list_fmap cursor_of find]. rewrite Hl.
  cbn [mbind option_bind window_id leaf_node nd_vt nd_x nd_y]. by destruct (pn_id l =? focus).
Qed.

Lemma size_nodes T : length (nodes T) = tree_size T.
Proof. induction T as [l|p g v pos a IHa b IHb]; [done |]. cbn [nodes length tree_size]. rewrite length_app. lia. Qed.

Lemma tile_cursor_ok t T m :
  reps t T → (length (leaves T) <= MAX_PANES)%nat → tile_cursor t m = cursor_at m (leaves T) (focused_id t).
Proof.
  intros Hrep Hn. pose proof (reps_holds _ _ Hrep) as Hh. unfold tile_cursor. rewrite (rp_root _ _ Hrep).
  change (option_list (Some (addr_of T))) with (addr_of <$> [T]).
  rewrite (cursor_leaves_ok _ [T]).
  - cbn [mbind option_bind list_bind app]. rewrite app_nil_r. apply cursor_of_ok, Forall_forall. intros l Hl.
    by apply (reps_leaf t T).
  - by constructor.
  - cbn. unfold hfuel. rewrite (rp_heap _ _ Hrep). unfold heap_of.
    rewrite map_size_list_to_map by apply Hrep. rewrite size_nodes. lia.
  - cbn. rewrite app_nil_r. lia.
Qed.

(** ** Frames *)

Section Frames.
Context (cells_differ : list vt_cell → list vt_cell → bool).
Hypothesis memcmp_zero : ∀ a b, cells_differ a b = false → a = b.

(** A frame of the manager [t] with the terminals [m]: what [tiled_render] hands
    to the renderer. *)
Definition tiled_frame (t : tile) (m : vts) (full : bool) : option (tile * vts * frame) :=
  '(t, m) ← tile_composite t m;
  t ← tile_update_dirty cells_differ t;
  '(crow, ccol, cvis) ← tile_cursor t m;
  Some (t, m, mk_frame (tl_screen t) crow ccol cvis (Some (tl_dirty t)) full).

Lemma aslice_ok {A} (l : list A) i n :
  0 <= i → 0 <= n → i + n <= zlen l → aslice l i n = Some (take (Z.to_nat n) (drop (Z.to_nat i) l)).
Proof. intros. unfold aslice. by replace (_ || _ || _) with false by zbool. Qed.

Lemma tile_update_dirty_ok t :
  let R := tl_rows t in let C := tl_cols t in
  0 <= R → 0 <= C → zlen (tl_screen t) = R * C → zlen (tl_prev t) = R * C → zlen (tl_dirty t) = R →
  yields (tile_update_dirty cells_differ t) (λ t',
    ∃ d, t' = {| t with tl_prev := tl_screen t; tl_dirty := d |} ∧ zlen d = R ∧
      ∀ row col, 0 <= row < R → 0 <= col < C → aget d row = Some 0 →
        aget (tl_screen t) (row * C + col) = aget (tl_prev t) (row * C + col)).
Proof.
  intros R C HR HC Hs Hp Hd. unfold tile_update_dirty. fold R C.
  eapply (yields_seq _ _ (λ d, zlen d = R ∧ ∀ row col, 0 <= row < R → 0 <= col < C → aget d row = Some 0 →
        aget (tl_screen t) (row * C + col) = aget (tl_prev t) (row * C + col))).
  - eapply yields_mono; [apply (for_up_inv (λ r d, zlen d = R ∧ ∀ row col, 0 <= row < r → 0 <= col < C → aget d row = Some 0 →
        aget (tl_screen t) (row * C + col) = aget (tl_prev t) (row * C + col))) |]; [done | | | done].
    + split; [done |]. intros. lia.
    + intros r d Hr [Hz Hd']. rewrite !aslice_ok by nia. cbn [mbind option_bind].
      destruct (cells_differ _ _) eqn:E.
      * rewrite aset_in by lia. cbn [yields]. split; [by rewrite zlen_insert |]. intros row col Hrow Hcol.
        rewrite aget_insert by lia. destruct (decide (r = row)); [done |]. apply Hd'; lia.
      * cbn [yields]. split; [done |]. intros row col Hrow Hcol Ed.
        destruct (decide (row = r)) as [->|]; [| apply Hd'; (done || lia)].
        apply memcmp_zero in E. pose proof (f_equal (λ l, aget l col) E) as E1. cbn beta in E1.
        rewrite !aget_take, !aget_drop in E1 by lia.
        replace (col <? C) with true in E1 by (symmetry; apply Z.ltb_lt; lia). exact E1.
  - intros d [Hz Hd']. rewrite !aslice_ok by nia. cbn [mbind option_bind yields].
    exists d. split; [| done]. f_equal. change (Z.to_nat 0) with 0%nat. rewrite drop_0.
    unfold zlen in *. rewrite take_ge by lia. rewrite drop_ge by lia. by rewrite app_nil_r.
Qed.

(** ** Sessions of the display *)

Inductive event := EvOp (o : tile_op) | EvFrame (m : vts) (full : bool).

Context (malloc : heap → addr) (malloc_fresh : ∀ h, h !! malloc h = None).

(** The frames of a run, each with the manager and the terminals it was drawn from. *)
Fixpoint tiled_run (t : tile) (evs : list event) : option (list (tile * vts * frame)) :=
  match evs with
  | [] => Some []
  | EvOp o :: evs => '(_, t) ← run_op malloc t o; tiled_run t evs
  | EvFrame m full :: evs => '(t1, _, f) ← tiled_frame t m full; fs ← tiled_run t1 evs; Some ((t, m, f) :: fs)
  end.

Definition keeps_size (o : tile_op) : Prop := match o with OpResize _ _ => False | _ => True end.

Lemma relayout_screen t t' : relayout t = Some t' → same_screen t t'.
Proof. unfold relayout. intros H. by simplify_option_eq. Qed.

(** Break the definition of an operation into its steps. *)
Ltac steps :=
  repeat match goal with
  | H : Some _ = Some _ |- _ => simplify_eq H; clear H; intros; subst
  | H : None = Some _ |- _ => discriminate H
  | H : _ ≫= _ = Some _ |- _ => apply bind_Some in H as (? & ? & ?)
  | H : relayout _ = Some _ |- _ => apply relayout_screen in H
  | H : (match ?x with _ => _ end) = Some _ |- _ => destruct x
  end.

Lemma run_op_screen t o r t' : keeps_size o → run_op malloc t o = Some (r, t') → same_screen t t'.
Proof.
  intros Hk H. destruct o; cbn [run_op keeps_size] in *; try done;
    unfold tile_split, tile_close, tile_set_window, tile_forget_vt, tile_focus, tile_focus_next, tile_focus_prev,
      focus_step, tile_focus_dir, tile_resize_pane, node_new in H; steps; try done; by case_match.
Qed.

(** *** What a frame needs *)

Context (tbl : rune_width_table) `{!WidthTable tbl} (R C : Z) (HR : 0 < R) (HC : 0 < C).

(** The terminals show narrow cells only. *)
Definition vts_narrow (m : vts) : Prop :=
  ∀ q st row col c, m !! q = Some st → vt_at st row col = Some c → frame_cell tbl c.

Definition cursor_inside (m : vts) (l : pane) : Prop :=
  ∀ q st, pn_vt l = Some q → m !! q = Some st →
    0 <= cursor_row st < rh (pn_rect l) ∧ 0 <= cursor_col st < rw (pn_rect l).

Record frame_ready (t : tile) (m : vts) (T : tree) : Prop := {
  fy_reps : reps t T;
  fy_room : roomy T (screen_rect t);
  fy_few : (length (leaves T) <= MAX_PANES)%nat;
  fy_live : Forall (pane_live m) (leaves T);
  fy_narrow : vts_narrow m;
  fy_cursor : ∀ l, l ∈ leaves T → pn_id l = focused_id t → cursor_inside m l;
}.

Definition border_glyphs : list Z :=
  [GLYPH_F_H; GLYPH_F_V; GLYPH_F_LT; GLYPH_F_RT; GLYPH_F_TT; GLYPH_F_BT; GLYPH_F_X;
   GLYPH_U_H; GLYPH_U_V; GLYPH_U_LT; GLYPH_U_RT; GLYPH_U_TT; GLYPH_U_BT; GLYPH_U_X].

(** The terminal's width table has the glyphs narrow. *)
Definition glyphs_narrow : bool := forallb (λ g, cell_okb tbl (border_cell g true) && cell_okb tbl (border_cell g false)) border_glyphs.
Hypothesis Hglyphs : glyphs_narrow = true.

Lemma border_narrow v foc b a : frame_cell tbl (border_cell (line_glyph v foc b a) foc).
Proof.
  assert (line_glyph v foc b a ∈ border_glyphs) as Hin.
  { apply list_elem_of_In. unfold line_glyph, border_glyphs. destruct v, foc, b, a; cbn; tauto. }
  unfold glyphs_narrow in Hglyphs. rewrite forallb_forall in Hglyphs. apply list_elem_of_In in Hin.
  specialize (Hglyphs _ Hin). apply andb_true_iff in Hglyphs as [Ht Hf].
  split; [| done]. apply cell_okb_sound. by destruct foc.
Qed.

Lemma with_panes_narrow m f ls row col :
  vts_narrow m → frame_cell tbl (f row col) → frame_cell tbl (with_panes m f ls row col).
Proof.
  intros Hm. revert f; induction ls as [|l ls IH]; intros f Hf; [done |]. apply IH. unfold with_pane.
  destruct (in_rect row col (pn_rect l)); [| done]. unfold pane_at.
  destruct (pn_vt l) as [q|]; [| done]. cbn [mbind option_bind]. destruct (m !! q) as [st|] eqn:E; [| done].
  cbn [mbind option_bind]. destruct (vt_at _ _ _) eqn:Ev; [by eapply Hm | done].
Qed.

Lemma picture_narrow m T focus row col : vts_narrow m → frame_cell tbl (picture m T focus row col).
Proof.
  intros Hm. unfold picture, line_cell. destruct (line_at T focus row col) as [[v foc]|]; [apply border_narrow |].
  apply with_panes_narrow; [done |]. by apply (blank_frame_cell tbl VT_COLOR_DEFAULT).
Qed.

(** A frame as it was drawn. *)
Definition drawn_from (x : tile * vts * frame) : Prop :=
  let '(t, m, f) := x in ∃ T, frame_ready t m T ∧ tl_rows t = R ∧ tl_cols t = C ∧
    paints R C (fr_cells f) (picture m T (focused_id t)) ∧
    cursor_at m (leaves T) (focused_id t) = Some (fr_row f, fr_col f, fr_vis f).

Lemma cursor_at_cleaned m m' ls focus : vts_cleaned m m' → cursor_at m' ls focus = cursor_at m ls focus.
Proof.
  intros Hm. unfold cursor_at. destruct (find _ ls) as [l|]; [| done]. destruct (pn_vt l) as [q|]; [| done].
  specialize (Hm q). destruct Hm as [st st' (_ & _ & E1 & E2 & _)|]; cbn [mbind option_bind]; [by rewrite E1, E2 | done].
Qed.

(** The cursor is on the screen. *)
Lemma cursor_at_ok t m T :
  frame_ready t m T → tl_rows t = R → tl_cols t = C →
  yields (cursor_at m (leaves T) (focused_id t)) (λ x, 0 <= x.1.1 < R ∧ 0 <= x.1.2 < C ∧ 0 <= x.2).
Proof.
  intros [Hrep Hroom _ Hlive _ Hcur] Er Ec. unfold cursor_at.
  destruct (find _ (leaves T)) as [l|] eqn:El; [| cbn; lia].
  apply find_some in El as [Hin%list_elem_of_In Eid%Z.eqb_eq].
  destruct (leaf_on_screen _ _ T _ l (rp_laid _ _ Hrep) Hroom (on_screen_rect t T Hrep) Hin)
    as ((Hx & Hw & Hxw & Hy & Hh & Hyh) & Hw1 & Hh1).
  rewrite Er, Ec in *. destruct (pn_vt l) as [q|] eqn:Eq; [| cbn; lia].
  rewrite Forall_forall in Hlive. destruct (Hlive l Hin q Eq) as (st & _ & _ & Em & _).
  destruct (Hcur l Hin Eid q st Eq Em). rewrite Em. cbn. lia.
Qed.

Lemma tiled_frame_ok t m T full :
  frame_ready t m T → tl_rows t = R → tl_cols t = C →
  yields (tiled_frame t m full) (λ x, let '(t1, _, f) := x in
    reps t1 T ∧ tl_rows t1 = R ∧ tl_cols t1 = C ∧ tl_prev t1 = fr_cells f ∧ fr_full f = full ∧
    drawn_from (t, m, f) ∧ frame_ok tbl R C f ∧ ∀ f0, fr_cells f0 = tl_prev t → dirty_sound R C f0 f).
Proof.
  intros Hfy Er Ec. pose proof Hfy as [Hrep Hroom Hfew Hlive Hnarrow Hcur]. unfold tiled_frame.
  eapply yields_seq; [by apply (tile_composite_ok t T)|].
  intros [t1 m1] (Hrep1 & Hp & Er1 & Ec1 & Ef1 & Epv & Eh & Hm1). cbn [fst snd] in *. rewrite Er, Ec in *.
  eapply yields_seq.
  { apply tile_update_dirty_ok; [lia .. | apply Hrep1 | apply Hrep1 | apply Hrep1]. }
  intros t2 (d & -> & Hdz & Hd). rewrite Er1, Ec1 in *. match goal with |- context [tile_cursor ?x _] => set (t2 := x) end.
  assert (reps t2 T) as Hrep2.
  { destruct Hrep1. unfold screen_rect in *. rewrite Er1, Ec1 in *. constructor; done. }
  rewrite (tile_cursor_ok t2 T m1), (cursor_at_cleaned m m1) by done.
  pose proof (cursor_at_ok t m T Hfy Er Ec) as ([[crow ccol] vis] & Ecur & Hr & Hc & Hv)%yields_Some. cbn [fst snd] in *.
  change (focused_id t2) with (focused_id t1). rewrite Ef1, Ecur. cbn [mbind option_bind yields].
  split_and!; try done.
  - exists T. by split_and!.
  - constructor; cbn [fr_cells fr_row fr_col fr_vis]; [apply Hp | | done | done].
    apply Forall_aget. intros i c Ei. pose proof (aget_Some _ _ _ Ei) as Hi. destruct Hp as [Hz Hp]. 
    destruct (row_index (R := R) (C := C) i HC) as (row & col & Hrow & Hcol & ->); [cbn in Hi; lia |].
    cbn in Ei. rewrite Hp in Ei by done. injection Ei as <-. by apply picture_narrow.
  - intros f0 Ef0. unfold dirty_sound. cbn [fr_dirty fr_cells]. split; [done |]. intros row col Hrow Hcol Ed.
    cbn. rewrite (Hd row col Hrow Hcol Ed), Epv, Ef0. done.
Qed.

(** What a run needs: each operation's caller does its part, and the size stays. *)
Fixpoint run_ready (t : tile) (evs : list event) : Prop :=
  match evs with
  | [] => True
  | EvOp o :: evs => op_ok t o ∧ keeps_size o ∧ ∀ r t', run_op malloc t o = Some (r, t') → run_ready t' evs
  | EvFrame m full :: evs => (∃ T, frame_ready t m T) ∧ ∀ t' m' f, tiled_frame t m full = Some (t', m', f) → run_ready t' evs
  end.

Lemma tiled_run_ok evs t T f0 :
  reps t T → tl_rows t = R → tl_cols t = C → fr_cells f0 = tl_prev t → run_ready t evs →
  yields (tiled_run t evs) (λ xs, frames_ok tbl R C f0 xs.*2 ∧ Forall drawn_from xs).
Proof.
  revert t T f0; induction evs as [|[o|m full] evs IH]; intros t T f0 Hrep Er Ec Ef0; cbn [run_ready tiled_run].
  - intros _. cbn. split; [constructor | done].
  - intros (Hok & Hk & Hnext).
    pose proof (run_op_refines malloc malloc_fresh t T o Hrep Hok) as ([r t'] & E & T' & Hrep' & _)%yields_Some.
    destruct (run_op_screen t o r t' Hk E) as (Er' & Ec' & _ & Epv & _).
    rewrite E. cbn [mbind option_bind]. cbn [fst snd] in *. apply (IH t' T'); try congruence. by eapply Hnext.
  - intros ((T' & Hfy) & Hnext).
    pose proof (tiled_frame_ok t m T' full Hfy Er Ec) as ([[t1 m1] f] & E & Hrep1 & Er1 & Ec1 & Epv & Efull & Hdr & Hok & Hds)%yields_Some.
    rewrite E. cbn [mbind option_bind]. eapply yields_seq; [apply (IH t1 T' f); (done || by eapply Hnext) |].
    intros xs [Hfs Hxs]. cbn [yields]. split; [| by constructor]. cbn [fmap list_fmap snd].
    apply fs_cons; [done | by intros _; apply Hds | done].
Qed.
End Frames.
