(* ===== verification/TileDisplay.v ===== *)
(** * What the tiled display promises

    Composing draws the panes and the lines between them, and the frames of a
    session, rendered, leave the client's terminal showing the panes. *)

From stdpp Require Import gmap.
From S2P Require Import Prelude WidthTables RuneWidth VtBuf VtParse VtState VtOps VtSeq VtClient VtDump.
From S2P Require Import Txl Render RenderCorrect Tile TileTree TileHeap TileSpec TileCorrect TileSession.
From S2P Require Import TileRefine TileComposite TileScreen TileBorder TileFrame.

(** ** A demonstration: two panes, each with a terminal *)

Definition fed_term (R C : Z) (data : list Z) : vt_state :=
  match vt_feed table_15_1_0 no_dcs (vt_parse_new, default zero_state (vt_state_new R C 0)) data with
  | Some (_, st) => st
  | None => zero_state
  end.

Lemma fed_term_wf R C data : 1 <= R <= DIM_MAX → 1 <= C <= DIM_MAX → Forall is_byte data → wf_state R C (fed_term R C data).
Proof.
  intros HR HC Hd. assert (WidthTable table_15_1_0) as Htbl by builtin_table. unfold fed_term.
  pose proof (vt_state_new_ok R C 0) as H. unfold DIM_MAX in *.
  destruct (vt_state_new R C 0) as [st|]; [| by destruct H; lia]. destruct H as [Hwf _]; [lia | lia |].
  change (default zero_state (Some st)) with st.
  pose proof (vt_feed_ok table_15_1_0 no_dcs R C vt_parse_new st data wf_parse_new Hwf Hd) as Hf.
  destruct (vt_feed table_15_1_0 no_dcs (vt_parse_new, st) data) as [[p st']|]; [apply Hf | done].
Qed.

Definition demo_term : list Z → vt_state := fed_term 3 3.

Lemma demo_term_wf data : Forall is_byte data → wf_state 3 3 (demo_term data).
Proof. apply fed_term_wf; unfold DIM_MAX; lia. Qed.

Definition demo_vts (a b : list Z) : vts := {[ 1%positive := demo_term a; 2%positive := demo_term b ]}.

(** The cells of the terminals, checked. *)
Definition narrowb (st : vt_state) : bool :=
  match cur_buf st with
  | Some b => forallb (λ r, forallb (λ c, cell_okb table_15_1_0 c && (cell_width c =? 1)) (VtBuf.cells r)) (grid b)
  | None => true
  end.

Lemma narrowb_sound st row col c : narrowb st = true → vt_at st row col = Some c → frame_cell table_15_1_0 c.
Proof.
  unfold narrowb, vt_at, row_cells. destruct (cur_buf st) as [b|]; [| done]. cbn [mbind option_bind].
  destruct (aget (grid b) row) as [r|] eqn:Er; [| done]. cbn [mbind option_bind]. intros H Ec.
  rewrite forallb_forall in H.
  assert (∀ {A} (l : list A) i x, aget l i = Some x → In x l) as Hin.
  { intros A l i x E. pose proof (aget_Some _ _ _ E). rewrite aget_lookup in E by lia.
    apply list_elem_of_In. by eapply list_elem_of_lookup_2. }
  specialize (H r (Hin _ _ _ _ Er)). rewrite forallb_forall in H. specialize (H c (Hin _ _ _ _ Ec)).
  apply andb_true_iff in H as [H ?%Z.eqb_eq]. split; [by apply cell_okb_sound | done].
Qed.

Lemma demo_vts_narrow a b : narrowb (demo_term a) && narrowb (demo_term b) = true → vts_narrow table_15_1_0 (demo_vts a b).
Proof.
  intros [Ha Hb]%andb_true_iff q st row col c Hq. unfold demo_vts in Hq.
  apply lookup_insert_Some in Hq as [[_ <-]|[_ Hq]]; [by apply narrowb_sound |].
  apply lookup_singleton_Some in Hq as [_ <-]. by apply narrowb_sound.
Qed.

Definition demo_panes : tree :=
  lay (Branch 3%positive (mk_rect 0 0 0 0) true 128
         (Leaf (mk_pane 1%positive (mk_rect 0 0 0 0) 1 (Some 1%positive)))
         (Leaf (mk_pane 2%positive (mk_rect 0 0 0 0) 2 (Some 2%positive)))) (mk_rect 0 0 7 3).

Definition demo_two : tile :=
  default zero_tile (t ← tile_new demo_malloc 3 7;
    run_ops demo_malloc [OpSetWindow 0 1 (Some 1%positive); OpSplit 1 TILE_SPLIT_V 2 (Some 2%positive); OpFocus 1] t).

Ltac reps_computes :=
  constructor; try (vm_compute; reflexivity); try (vm_compute; discriminate);
  apply (bool_decide_unpack _); vm_compute; exact I.

Lemma demo_reps : reps demo_two demo_panes.
Proof. reps_computes. Qed.

(** ** Composing *)

(** Compositing draws the panes: on a tree of panes with room for each and
    its separators, whose terminals exist, [tile_composite] succeeds without an
    out-of-range access, whatever the terminals' sizes.  Each cell of the screen
    then is either on one separator and in no pane, and has the glyph of a
    straight line or of the tee its neighbours make, bright if the focus is on
    one of its sides; or is in a pane, and is the cell of the pane's terminal
    there, blank where the terminal has none.  The panes' terminals are left as
    they were but for dirty flags. *)
Theorem composite_draws_panes t T m :
  reps t T → roomy T (screen_rect t) → Forall (pane_live m) (leaves T) →
  ∃ t' m', tile_composite t m = Some (t', m') ∧ reps t' T ∧ tl_prev t' = tl_prev t ∧ focused_id t' = focused_id t ∧
    vts_cleaned m m' ∧
    ∀ row col, 0 <= row < tl_rows t → 0 <= col < tl_cols t →
      let shown := aget (tl_screen t') (row * tl_cols t + col) in
      let line := line_at T (focused_id t) in
      match line row col with
      | Some (v, foc) =>
          (∀ l, l ∈ leaves T → in_rect row col (pn_rect l) = false) ∧
          shown = Some (border_cell (line_glyph v foc
            (crosses v (if v then line row (col - 1) else line (row - 1) col))
            (crosses v (if v then line row (col + 1) else line (row + 1) col))) foc)
      | None =>
          ∃ l, l ∈ leaves T ∧ in_rect row col (pn_rect l) = true ∧
            shown = Some (default vt_cell_clear (pane_at m l row col))
      end.
Proof.
  intros Hrep Hroom Hlive.
  pose proof (tile_composite_ok t T m Hrep Hroom Hlive) as ([t' m'] & E & Hrep' & [_ Hp] & _ & _ & Ef & Epv & _ & Hm)%yields_Some.
  exists t', m'. cbn [fst snd] in *. split_and!; try done. intros row col Hr Hc. cbn zeta. rewrite Hp by done.
  pose proof (rp_laid _ _ Hrep) as Hl. destruct (line_at T (focused_id t) row col) as [[v foc]|] eqn:El.
  - split; [intros l Hin; by eapply line_no_pane |]. unfold picture, line_cell. by rewrite El.
  - destruct (with_panes_cell m T (focused_id t) row col (screen_rect t) Hl Hroom) as (l & Hin & Hlr & ->); [| done | by exists l].
    unfold in_rect, screen_rect. cbn. zbool.
Qed.

Lemma demo_live a b : Forall is_byte a → Forall is_byte b → Forall (pane_live (demo_vts a b)) (leaves demo_panes).
Proof.
  intros Ha Hb. repeat constructor; intros q [= <-]; do 3 eexists; (split; [reflexivity | by apply demo_term_wf]).
Qed.

Lemma demo_roomy : roomy demo_panes (screen_rect demo_two).
Proof. vm_compute. repeat split; discriminate. Qed.

Definition demo_shown (a b : list Z) : list (list Z) :=
  match tile_composite demo_two (demo_vts a b) with
  | Some (t', _) => map (λ r, map (λ c, from_option codepoint 0 (aget (tl_screen t') (r * 7 + c))) [0; 1; 2; 3; 4; 5; 6]) [0; 1; 2]
  | None => []
  end.

Lemma composite_draws_panes_witness :
  demo_shown (str "ab") (str "xyz") = [str "ab " ++ 0x2503 :: str "xyz"; str "   " ++ 0x2503 :: str "   "; str "   " ++ 0x2503 :: str "   "] ∧
  ∃ t' m', tile_composite demo_two (demo_vts (str "ab") (str "xyz")) = Some (t', m') ∧ reps t' demo_panes.
Proof.
  split; [vm_compute; reflexivity |].
  destruct (composite_draws_panes demo_two demo_panes (demo_vts (str "ab") (str "xyz"))) as (t' & m' & E & Hrep & _).
  - exact demo_reps.
  - exact demo_roomy.
  - apply demo_live; apply bytes_ok; vm_compute; reflexivity.
  - exists t', m'. split; assumption.
Defined.

(** ** The display *)

Lemma frames_ok_cons tbl R C f g fs : frames_ok tbl R C f (g :: fs) → frame_ok tbl R C g ∧ frames_ok tbl R C g fs.
Proof. by inversion 1. Qed.

Lemma last_frame_snoc f fs g : last_frame f (fs ++ [g]) = g.
Proof. revert f; induction fs as [|h fs IH]; intros f; [done |]. apply IH. Qed.

(** The first frame of a run that starts with one. *)
Lemma tiled_run_first cells_differ malloc t m full evs xs :
  tiled_run cells_differ malloc t (EvFrame m full :: evs) = Some xs →
  ∃ x xs', xs = x :: xs' ∧ fr_full x.2 = full.
Proof.
  cbn [tiled_run]. unfold tiled_frame. intros ([[t1 m1] f] & Ef & (xs' & _ & [= <-])%bind_Some)%bind_Some.
  apply bind_Some in Ef as ([t2 m2] & _ & (t3 & _ & ([[crow ccol] vis] & _ & [= <- <- <-])%bind_Some)%bind_Some).
  by eexists _, xs'.
Qed.

(** C6: the tiled display shows the panes.  Take any manager that represents a split
    tree (pane ids are distinct) and any session on a screen whose size stays the
    same: operations on the panes, and frames, the first in full and each other in
    full or by its differences, with whatever terminals the panes have when a frame
    is drawn.  When a frame is drawn ([frame_ready]) there are at most [MAX_PANES]
    panes, the tree has room on the screen, the panes' terminals, if they have any,
    are well formed and have narrow characters only, and the focused pane's cursor is
    inside the pane (no wrap pending); operations give a pane no other pane's id.
    The width table has the border glyphs narrow; the
    strings of the terminal description do on the client's terminal what they are
    named for, as the built-in ANSI ones do (a description with a cup string is out,
    since [txl_cup] reads past its arguments); the row comparison misses nothing.
    Then every frame is composed, compared with the frame before, and rendered,
    without an out-of-range access, and the bytes written, played to the client's
    terminal, leave it showing the last picture of the panes, cell for cell (up to
    the invisible foreground of an unstyled blank), with the cursor of the focused
    pane.  What goes wrong with a cursor past the end of a full line, too many panes
    and too small screens is shown at the end of this file. *)
Theorem tiled_display_correct tbl on_dcs R C ti_expand txl junk st cells_differ malloc t T m evs :
  WidthTable tbl → Capabilities tbl on_dcs R C ti_expand txl → client R C st → zlen junk = R * C →
  glyphs_narrow tbl = true → (∀ a b, cells_differ a b = false → a = b) → (∀ h, h !! malloc h = None) →
  reps t T → tl_rows t = R → tl_cols t = C → run_ready cells_differ malloc tbl t (EvFrame m true :: evs) →
  ∃ xs u ml f r r' out st',
    tiled_run cells_differ malloc t (EvFrame m true :: evs) = Some (xs ++ [(u, ml, f)]) ∧
    render_new R C txl junk = Some r ∧
    render_frames ti_expand R C (xs ++ [(u, ml, f)]).*2 (r, []) = Some (r', out) ∧
    plays tbl on_dcs st out st' ∧
    ∃ T', reps u T' ∧
      (∀ row, 0 <= row < R → ∃ cs, row_cells st' row = Some cs ∧ zlen cs = C ∧
         ∀ col, 0 <= col < C → norm <$> aget cs col = Some (norm (picture ml T' (focused_id u) row col))) ∧
      ∃ vis, cursor_at ml (leaves T') (focused_id u) = Some (cursor_row st', cursor_col st', vis) ∧
        has_bits (modes st') VT_MODE_CURSOR_VIS = negb (vis =? 0).
Proof.
  intros Ht Hcap Hcl Hz Hg Hd Hm Hrep Er Ec Hrun. pose proof (dims_pos _ _ _ Hcl) as Hdims.
  set (f0 := mk_frame (tl_prev t) 0 0 0 None true).
  pose proof (tiled_run_ok cells_differ Hd malloc Hm tbl R C ltac:(lia) ltac:(lia) Hg (EvFrame m true :: evs) t T f0
    Hrep Er Ec eq_refl Hrun) as (xs & E & Hfs & Hxs)%yields_Some.
  destruct (tiled_run_first _ _ _ _ _ _ _ E) as (x & xs' & -> & Hfull).
  apply frames_ok_cons in Hfs as [Hf Hfs'].
  pose proof (session_shown tbl on_dcs R C ti_expand txl junk st x.2 xs'.*2 Hcl Hz Hfull Hf Hfs')
    as (r & Enew & [r' out] & Eout & st' & Hp & Htk & Hshow)%session_runs.
  destruct (exists_last (l := x :: xs') ltac:(done)) as (ys & [[u ml] f] & Eys).
  assert (last_frame x.2 xs'.*2 = f) as Elast.
  { change (last_frame x.2 xs'.*2) with (last_frame f0 (x :: xs').*2). rewrite Eys, fmap_app. apply last_frame_snoc. }
  rewrite Elast in Hshow. destruct Hshow as (Hrows & Hcr & Hcc & Hvis).
  rewrite Eys in Hxs. apply Forall_app in Hxs as [_ (T' & Hfy & _ & _ & [_ Hpaint] & Hcur)%Forall_singleton].
  exists ys, u, ml, f, r, r', out, st'. rewrite <- Eys. split_and!; try done.
  exists T'. split; [apply Hfy |]. split.
  - intros row Hrow. destruct (Hrows row Hrow) as (cs & Ecs & Hzcs & Hcs). exists cs. split_and!; [done | done |].
    intros col Hcol. by rewrite (Hcs col Hcol), Hpaint.
  - exists (fr_vis f). by rewrite Hcr, Hcc, Hcur.
Qed.

Definition demo_run : list event :=
  [EvFrame (demo_vts (str "ab") (str "xyz" ++ [13])) true; EvOp OpNext;
   EvFrame (demo_vts (str "a") (str "xY" ++ [13])) false].

(** Two frames compare equal when they are. *)
Definition demo_differ (a b : list vt_cell) : bool := negb (bool_decide (a = b)).

Lemma demo_ready a b :
  Forall is_byte a → Forall is_byte b → narrowb (demo_term a) && narrowb (demo_term b) = true →
  forallb (λ st, (0 <=? cursor_row st) && (cursor_row st <? 3) && (0 <=? cursor_col st) && (cursor_col st <? 3))
    [demo_term a; demo_term b] = true →
  ∀ t, reps t demo_panes → tl_rows t = 3 → tl_cols t = 7 → frame_ready table_15_1_0 t (demo_vts a b) demo_panes.
Proof.
  intros Ha Hb Hn Hc t Hrep Er Ec. constructor.
  - done.
  - unfold screen_rect. rewrite Er, Ec. exact demo_roomy.
  - vm_compute. lia.
  - by apply demo_live.
  - by apply demo_vts_narrow.
  - intros l Hl _ q st Eq Em. cbn [forallb] in Hc. rewrite !andb_true_iff, !Z.leb_le, !Z.ltb_lt in Hc.
    apply elem_of_cons in Hl as [->|[->|[]%elem_of_nil]%elem_of_cons]; injection Eq as <-;
      cbn in Em; injection Em as <-; change (rh _) with 3; change (rw _) with 3; tauto.
Qed.

Lemma demo_run_ready : run_ready demo_differ demo_malloc table_15_1_0 demo_two demo_run.
Proof.
  assert (∀ d, forallb (λ b, (0 <=? b) && (b <? 256)) d = true → Forall is_byte d) as Hb by apply bytes_ok.
  cbn [run_ready demo_run]. split.
  - exists demo_panes. apply demo_ready; try (apply Hb; vm_compute; reflexivity); try (vm_compute; reflexivity). apply demo_reps.
  - intros t1 m1 f1 E1. vm_compute in E1. injection E1 as <- <- <-. split_and!; [done | done |].
    intros r t2 E2. vm_compute in E2. injection E2 as <- <-. split; [| done].
    exists demo_panes. apply demo_ready; try (apply Hb; vm_compute; reflexivity); try (vm_compute; reflexivity). reps_computes.
Qed.

Lemma demo_two_client : client 3 7 (default zero_state (vt_state_new 3 7 0)).
Proof.
  pose proof (vt_state_new_ok 3 7 0) as H. unfold DIM_MAX in *.
  constructor; [| vm_compute; reflexivity | vm_compute; reflexivity | vm_compute; discriminate].
  destruct (vt_state_new 3 7 0) as [st|]; [apply H; lia | by destruct H; lia].
Qed.

Lemma tiled_display_correct_witness :
  ∃ xs u ml f r r' out st',
    tiled_run demo_differ demo_malloc demo_two demo_run = Some (xs ++ [(u, ml, f)]) ∧
    render_new 3 7 None (replicate 21 cont_cell) = Some r ∧
    render_frames (λ s _, s) 3 7 (xs ++ [(u, ml, f)]).*2 (r, []) = Some (r', out) ∧
    plays table_15_1_0 no_dcs (default zero_state (vt_state_new 3 7 0)) out st'.
Proof.
  assert (WidthTable table_15_1_0) as Ht by builtin_table.
  destruct (tiled_display_correct table_15_1_0 no_dcs 3 7 (λ s _, s) None (replicate 21 cont_cell)
    (default zero_state (vt_state_new 3 7 0)) demo_differ demo_malloc demo_two demo_panes
    (demo_vts (str "ab") (str "xyz" ++ [13])) (tail demo_run))
    as (xs & u & ml & f & r & r' & out & st' & E & Er & Eout & Hp & _).
  - exact Ht.
  - apply ansi_capabilities; [exact Ht | vm_compute; discriminate | reflexivity].
  - exact demo_two_client.
  - reflexivity.
  - vm_compute. reflexivity.
  - intros a b H. apply negb_false_iff in H. exact (bool_decide_unpack _ (Is_true_true_2 _ H)).
  - exact demo_malloc_fresh.
  - exact demo_reps.
  - vm_compute. reflexivity.
  - vm_compute. reflexivity.
  - exact demo_run_ready.
  - exists xs, u, ml, f, r, r', out, st'. split; [exact E | split; [exact Er | split; [exact Eout | exact Hp]]].
Defined.

(** ** Where the display goes wrong *)

(** [n] panes split off the first, which is made wide again after each split. *)
Definition deep_ops (n : nat) : list tile_op :=
  concat (map (λ i, [OpSplit 0 TILE_SPLIT_V (Z.of_nat (S i)) None; OpResizePane 0 0 1 1000]) (seq 0 n)).

Definition cursor_after (rows cols : Z) (ops : list tile_op) (m : vts) : option (option (Z * Z * Z)) :=
  t ← tile_new demo_malloc rows cols; t ← run_ops demo_malloc ops t; Some (tile_cursor t m).

(** Three things the compositor does not prevent.  On a screen shrunk below the
    room its separators need, a separator is marked before the start of the
    map.  With 129 panes, the walk that looks for the focused one overruns its
    stack of 128, and does not with 128.  And the cursor of a full line, which
    waits past the last column, is shown on the separator beside the pane. *)
Theorem composite_limits :
  (t ← run_ops demo_malloc [OpSplit 0 TILE_SPLIT_H 1 None; OpSplit 0 TILE_SPLIT_H 2 None; OpSplit 2 TILE_SPLIT_V 3 None;
         OpResize 2 80] demo_new;
   smap ← xcalloc (tl_rows t * tl_cols t) 0;
   Some (mark_separators (hfuel (tl_heap t)) (tl_heap t) (tl_rows t) (tl_cols t) (tl_root t) (focused_id t) smap))
    = Some None ∧
  cursor_after 1 600 (deep_ops 128) ∅ = Some None ∧ cursor_after 1 600 (deep_ops 127) ∅ = Some (Some (0, 0, 0)) ∧
  tile_cursor demo_two (demo_vts (str "abc") []) = Some (0, 3, 1) ∧ line_at demo_panes 1 0 3 = Some (true, true).
Proof. split_and!; vm_compute; reflexivity. Qed.
