(* ===== verification/Microser.v ===== *)
(** * Tagged serialization: src/libipc/microser.h

    The helpers that write and read one field, and the frame that every message
    of lumi_msg.c puts around its fields: two bytes of length, then the fields;
    a reader takes them in any order and skips the ones it does not know.  A
    message is an instance of [Message]; its encoding and decoding are proved
    once, for all instances. *)

From S2P Require Import Prelude.

(** A pointer to bytes: those from it to the end of their object, or NULL. *)
Abbreviation bptr := (option (list Z)).

Definition deref (p : bptr) : list Z := match p with Some b => b | None => [] end.

Definition MS_WIRE_8 : Z := 0.
Definition MS_WIRE_16 : Z := 1.
Definition MS_WIRE_32 : Z := 2.
Definition MS_WIRE_BYTES : Z := 4.

(** ** Write helpers: the new position, or -1, and the buffer *)

Definition tag_byte (field wire : Z) : Z := u8 (Z.lor (Z.shiftl field 3) wire).

(** Byte [k] of a number. *)
Definition byte_of (v k : Z) : Z := u8 (Z.land (Z.shiftr v (8 * k)) 255).

Definition ms_write_tag_u8 (buf : list Z) (pos len field val : Z) : option (Z * list Z) :=
  if len <? pos + 2 then Some (-1, buf) else
  buf ← aset buf pos (tag_byte field MS_WIRE_8);
  buf ← aset buf (pos + 1) val;
  Some (pos + 2, buf).

Definition ms_write_tag_u16 (buf : list Z) (pos len field val : Z) : option (Z * list Z) :=
  if len <? pos + 3 then Some (-1, buf) else
  buf ← aset buf pos (tag_byte field MS_WIRE_16);
  buf ← aset buf (pos + 1) (byte_of val 0);
  buf ← aset buf (pos + 2) (byte_of val 1);
  Some (pos + 3, buf).

Definition ms_write_tag_u32 (buf : list Z) (pos len field val : Z) : option (Z * list Z) :=
  if len <? pos + 5 then Some (-1, buf) else
  buf ← aset buf pos (tag_byte field MS_WIRE_32);
  buf ← aset buf (pos + 1) (byte_of val 0);
  buf ← aset buf (pos + 2) (byte_of val 1);
  buf ← aset buf (pos + 3) (byte_of val 2);
  buf ← aset buf (pos + 4) (byte_of val 3);
  Some (pos + 5, buf).

(** [memcpy(buf + at, data, n)] *)
Definition copy_in (buf : list Z) (at_ : Z) (data : bptr) (n : Z) : option (list Z) :=
  if 0 <? n then d ← data; for_up 0 n (λ i buf, v ← aget d i; aset buf (at_ + i) v) buf else Some buf.

Definition ms_write_tag_bytes (buf : list Z) (pos len field : Z) (data : bptr) (dlen : Z) : option (Z * list Z) :=
  if len <? pos + 3 + dlen then Some (-1, buf) else
  buf ← aset buf pos (tag_byte field MS_WIRE_BYTES);
  buf ← aset buf (pos + 1) (byte_of dlen 0);
  buf ← aset buf (pos + 2) (byte_of dlen 1);
  buf ← copy_in buf (pos + 3) data dlen;
  Some (pos + 3 + dlen, buf).

(** ** Read helpers: [Some None] is -1 *)

Definition ms_read_u8 (buf : list Z) (pos end_ : Z) : option (option (Z * Z)) :=
  if end_ <? pos + 1 then Some None else
  v ← aget buf pos; Some (Some (pos + 1, v)).

(** [buf[pos] | buf[pos + 1] << 8], as a 16-bit number. *)
Definition get_u16 (buf : list Z) (pos : Z) : option Z :=
  b0 ← aget buf pos; b1 ← aget buf (pos + 1); Some (Z.lor b0 (Z.shiftl b1 8)).

Definition ms_read_u16 (buf : list Z) (pos end_ : Z) : option (option (Z * Z)) :=
  if end_ <? pos + 2 then Some None else
  v ← get_u16 buf pos; Some (Some (pos + 2, v)).

Definition ms_read_u32 (buf : list Z) (pos end_ : Z) : option (option (Z * Z)) :=
  if end_ <? pos + 4 then Some None else
  b0 ← aget buf pos; b1 ← aget buf (pos + 1); b2 ← aget buf (pos + 2); b3 ← aget buf (pos + 3);
  Some (Some (pos + 4, Z.lor (Z.lor (Z.lor b0 (Z.shiftl b1 8)) (Z.shiftl b2 16)) (Z.shiftl b3 24))).

(** The pointer into the buffer, and the length. *)
Definition ms_read_bytes (buf : list Z) (pos end_ dmax : Z) : option (option (Z * (bptr * Z))) :=
  if end_ <? pos + 2 then Some None else
  dlen ← get_u16 buf pos;
  let pos := pos + 2 in
  if (end_ <? pos + dlen) || (dmax <? dlen) then Some None
  else Some (Some (pos + dlen, (Some (drop (Z.to_nat pos) buf), dlen))).

Definition ms_skip (buf : list Z) (pos end_ wire : Z) : option (option Z) :=
  if wire <=? 3 then
    size ← aget [1; 2; 4; 8] wire;
    let pos := pos + size in
    Some (if pos <=? end_ then Some pos else None)
  else if wire =? MS_WIRE_BYTES then
    if end_ <? pos + 2 then Some None else
    blen ← get_u16 buf pos;
    let pos := pos + (2 + blen) in
    Some (if pos <=? end_ then Some pos else None)
  else Some None.

(** ** Messages *)

(** A field to write: its number and its value. *)
Inductive field :=
  | F8 (n v : Z)
  | F16 (n v : Z)
  | F32 (n v : Z)
  | FBytes (n : Z) (data : bptr) (dlen : Z).

Definition write_field (buf : list Z) (pos len : Z) (f : field) : option (Z * list Z) :=
  match f with
  | F8 n v => ms_write_tag_u8 buf pos len n v
  | F16 n v => ms_write_tag_u16 buf pos len n v
  | F32 n v => ms_write_tag_u32 buf pos len n v
  | FBytes n d l => ms_write_tag_bytes buf pos len n d l
  end.

(** The calls of an encoder: each returns at once if the field did not fit. *)
Fixpoint write_fields (buf : list Z) (pos len : Z) (fs : list field) : option (Z * list Z) :=
  match fs with
  | [] => Some (pos, buf)
  | f :: fs =>
      '(pos, buf) ← write_field buf pos len f;
      if pos <? 0 then Some (-1, buf) else write_fields buf pos len fs
  end.

Definition ms_encode (fs : list field) (buf : list Z) (len : Z) : option (Z * list Z) :=
  '(pos, buf) ← write_fields buf 2 len fs;
  if pos <? 0 then Some (-1, buf) else
  buf ← aset buf 0 (byte_of (pos - 2) 0);
  buf ← aset buf 1 (byte_of (pos - 2) 1);
  Some (pos, buf).

(** What a decoder does with the value of a field. *)
Inductive reader (A : Type) :=
  | R8 (set : Z → A → A)
  | R16 (set : Z → A → A)
  | R32 (set : Z → A → A)
  | RBytes (set : bptr → Z → A → A).
Arguments R8 {A}. Arguments R16 {A}. Arguments R32 {A}. Arguments RBytes {A}.

(** A case of a decoder's switch, or its default. *)
Definition read_field {A} (r : option (reader A)) (buf : list Z) (pos end_ wire : Z) (m : A) : option (option (Z * A)) :=
  match r with
  | Some (R8 set) => r ← ms_read_u8 buf pos end_; Some (r ≫= λ pv, Some (pv.1, set pv.2 m))
  | Some (R16 set) => r ← ms_read_u16 buf pos end_; Some (r ≫= λ pv, Some (pv.1, set pv.2 m))
  | Some (R32 set) => r ← ms_read_u32 buf pos end_; Some (r ≫= λ pv, Some (pv.1, set pv.2 m))
  | Some (RBytes set) => r ← ms_read_bytes buf pos end_ 65535; Some (r ≫= λ pv, Some (pv.1, set pv.2.1 pv.2.2 m))
  | None => r ← ms_skip buf pos end_ wire; Some (r ≫= λ pos, Some (pos, m))
  end.

(** Each turn reads a tag, so the length is fuel enough. *)
Fixpoint decode_loop {A} (switch : Z → option (reader A)) (fuel : nat) (buf : list Z) (pos end_ : Z) (m : A)
  : option (option A) :=
  if pos <? end_ then
    match fuel with
    | O => None
    | S fuel =>
        tag ← aget buf pos;
        r ← read_field (switch (Z.shiftr tag 3)) buf (pos + 1) end_ (Z.land tag 7) m;
        match r with
        | None => Some None
        | Some (pos, m) => decode_loop switch fuel buf pos end_ m
        end
    end
  else Some (Some m).

(** The end of the message and the message; [zero] is it after [memset]. *)
Definition ms_decode {A} (switch : Z → option (reader A)) (zero : A) (buf : list Z) (len : Z) : option (option (Z * A)) :=
  if len <? 2 then Some None else
  n ← get_u16 buf 0;
  let end_ := n + 2 in
  if len <? end_ then Some None else
  r ← decode_loop switch (Z.to_nat end_) buf 2 end_ zero;
  Some (r ≫= λ m, Some (end_, m)).

(** The field [g] is [f] as a reader gets it: the same number, type and
    contents, a pointer to the contents in place of the writer's. *)
Definition same_field (f g : field) : Prop :=
  match f, g with
  | FBytes n d l, FBytes n' d' l' =>
      n = n' ∧ l = l' ∧ l <= zlen (deref d') ∧ take (Z.to_nat l) (deref d') = take (Z.to_nat l) (deref d)
  | _, _ => f = g
  end.

(** The decoder's switch takes the field for what it is, or skips it. *)
Definition agrees {A} (switch : Z → option (reader A)) (f : field) : Prop :=
  match f with
  | F8 n _ => match switch n with Some (R8 _) | None => True | _ => False end
  | F16 n _ => match switch n with Some (R16 _) | None => True | _ => False end
  | F32 n _ => match switch n with Some (R32 _) | None => True | _ => False end
  | FBytes n _ _ => match switch n with Some (RBytes _) | None => True | _ => False end
  end.

(** What such a switch does with it. *)
Definition apply_field {A} (switch : Z → option (reader A)) (m : A) (f : field) : A :=
  match f with
  | F8 n v => match switch n with Some (R8 set) => set v m | _ => m end
  | F16 n v => match switch n with Some (R16 set) => set v m | _ => m end
  | F32 n v => match switch n with Some (R32 set) => set v m | _ => m end
  | FBytes n d l => match switch n with Some (RBytes set) => set d l m | _ => m end
  end.

Definition field_number (f : field) : Z :=
  match f with F8 n _ | F16 n _ | F32 n _ | FBytes n _ _ => n end.

(** A field a program may write. *)
Definition field_ok (f : field) : Prop :=
  0 < field_number f < 32 ∧
  match f with
  | F8 _ v => 0 <= v < 2 ^ 8
  | F16 _ v => 0 <= v < 2 ^ 16
  | F32 _ v => 0 <= v < 2 ^ 32
  | FBytes _ d l => 0 <= l < 2 ^ 16 ∧ l <= zlen (deref d) ∧ Forall is_byte (deref d)
  end.

(** ** The bytes of a field *)

Definition field_bytes (f : field) : list Z :=
  match f with
  | F8 n v => [tag_byte n MS_WIRE_8; v]
  | F16 n v => [tag_byte n MS_WIRE_16; byte_of v 0; byte_of v 1]
  | F32 n v => [tag_byte n MS_WIRE_32; byte_of v 0; byte_of v 1; byte_of v 2; byte_of v 3]
  | FBytes n d l => [tag_byte n MS_WIRE_BYTES; byte_of l 0; byte_of l 1] ++ take (Z.to_nat l) (deref d)
  end.

Definition fields_bytes (fs : list field) : list Z := concat (map field_bytes fs).

(** [b'] is [b] with [bs] written at [pos]. *)
Definition wrote (b b' : list Z) (pos : Z) (bs : list Z) : Prop :=
  zlen b' = zlen b ∧
  ∀ i, aget b' i = if (pos <=? i) && (i <? pos + zlen bs) then aget bs (i - pos) else aget b i.

Lemma wrote_nil b pos : wrote b b pos [].
Proof. split; [done |]. intros i. rewrite zlen_nil. zbool. Qed.

Lemma wrote_app b b1 b2 pos pos' bs1 bs2 :
  wrote b b1 pos bs1 → pos' = pos + zlen bs1 → wrote b1 b2 pos' bs2 → wrote b b2 pos (bs1 ++ bs2).
Proof.
  intros [Hz1 H1] -> [Hz2 H2]. split; [congruence |]. intros i. rewrite H2, H1, zlen_app.
  pose proof (zlen_nonneg bs1). pose proof (zlen_nonneg bs2).
  destruct (Z.leb_spec pos i), (Z.ltb_spec i (pos + (zlen bs1 + zlen bs2))), (Z.leb_spec (pos + zlen bs1) i),
    (Z.ltb_spec i (pos + zlen bs1 + zlen bs2)), (Z.ltb_spec i (pos + zlen bs1)); cbn [andb]; try lia; try done;
    rewrite aget_app by lia; zbool; f_equal; lia.
Qed.

Lemma aset_wrote b i x : 0 <= i < zlen b → yields (aset b i x) (λ b', wrote b b' i [x]).
Proof.
  intros Hi. rewrite aset_in by done. split; [by rewrite zlen_insert |]. intros j.
  rewrite aget_insert by done. change (zlen [x]) with 1. destruct (decide (i = j)) as [<-|].
  - replace (i - i) with 0 by lia. zbool.
  - zbool.
Qed.

Lemma copy_in_wrote b at_ d n :
  0 <= at_ → 0 <= n → at_ + n <= zlen b → n <= zlen (deref d) →
  yields (copy_in b at_ d n) (λ b', wrote b b' at_ (take (Z.to_nat n) (deref d))).
Proof.
  intros Hat Hn Hb Hd. unfold copy_in. destruct (Z.ltb_spec 0 n).
  2: { replace n with 0 by lia. apply wrote_nil. }
  destruct d as [d|]; [| change (zlen (deref None)) with 0 in Hd; lia]. cbn [deref mbind option_bind] in *.
  change (default [] (Some d)) with d in *.
  apply (for_up_inv (λ k b', wrote b b' at_ (take (Z.to_nat k) d))); [lia | apply wrote_nil |].
  intros i b1 Hi Hw. destruct (aget_in d i) as [x Ex]; [lia |]. rewrite Ex. cbn [mbind option_bind].
  eapply yields_mono; [apply aset_wrote; destruct Hw; lia |]. intros b2 H2.
  assert (take (Z.to_nat (i + 1)) d = take (Z.to_nat i) d ++ [x]) as ->.
  { rewrite aget_lookup in Ex by lia. replace (Z.to_nat (i + 1)) with (S (Z.to_nat i)) by lia. by apply take_S_r. }
  eapply wrote_app; [exact Hw | | exact H2]. by rewrite zlen_take by lia.
Qed.

Lemma zlen_field_bytes f : field_ok f →
  zlen (field_bytes f) = match f with F8 _ _ => 2 | F16 _ _ => 3 | F32 _ _ => 5 | FBytes _ _ l => 3 + l end.
Proof.
  destruct f; try done. intros (_ & Hl & Hd & _). cbn [field_bytes]. rewrite zlen_app, zlen_take by lia. done.
Qed.

(** Write byte after byte. *)
Ltac write_bytes :=
  repeat match goal with
  | |- yields (aset _ _ _ ≫= _) _ =>
      let H := fresh "Hw" in
      eapply yields_seq; [apply aset_wrote; lia |]; intros ? H; cbn beta in H; pose proof (proj1 H)
  end.

Lemma wrote_cons b b1 b2 pos pos' x bs :
  wrote b b1 pos [x] → wrote b1 b2 pos' bs → pos' = pos + 1 → wrote b b2 pos (x :: bs).
Proof. intros H1 H2 ->. exact (wrote_app _ _ _ _ (pos + 1) [x] bs H1 eq_refl H2). Qed.

Ltac wrote_chain := first [eassumption | eapply wrote_cons; [eassumption | wrote_chain | lia]].

Lemma write_field_ok b pos len f :
  field_ok f → 0 <= pos → pos + zlen (field_bytes f) <= len → len <= zlen b →
  yields (write_field b pos len f) (λ x, x.1 = pos + zlen (field_bytes f) ∧ wrote b x.2 pos (field_bytes f)).
Proof.
  intros Hf Hp Hlen Hb. rewrite zlen_field_bytes in * by done.
  destruct f as [n v|n v|n v|n d l]; cbn [write_field];
    unfold ms_write_tag_u8, ms_write_tag_u16, ms_write_tag_u32, ms_write_tag_bytes;
    try (destruct Hf as (_ & Hl & Hd & _)); rewrite (proj2 (Z.ltb_ge _ _)) by lia; write_bytes.
  4: { eapply yields_seq; [apply copy_in_wrote; lia |]. intros b3 Hw3. cbn beta in Hw3. cbn [yields fst snd].
       split; [lia |]. cbn [field_bytes app]. wrote_chain. }
  all: cbn [yields fst snd]; split; [done |]; cbn [field_bytes]; wrote_chain.
Qed.

(** A field that does not fit changes nothing. *)
Lemma write_field_short b pos len f :
  field_ok f → len < pos + zlen (field_bytes f) → write_field b pos len f = Some (-1, b).
Proof.
  intros Hf Hlen. rewrite zlen_field_bytes in Hlen by done.
  destruct f as [n v|n v|n v|n d l]; cbn [write_field];
    unfold ms_write_tag_u8, ms_write_tag_u16, ms_write_tag_u32, ms_write_tag_bytes;
    by rewrite (proj2 (Z.ltb_lt _ _)) by lia.
Qed.

Lemma fields_bytes_cons f fs : fields_bytes (f :: fs) = field_bytes f ++ fields_bytes fs.
Proof. done. Qed.

Lemma write_fields_ok b pos len fs :
  Forall field_ok fs → 0 <= pos → len <= zlen b →
  yields (write_fields b pos len fs) (λ x, zlen x.2 = zlen b ∧
    if pos + zlen (fields_bytes fs) <=? len
    then x.1 = pos + zlen (fields_bytes fs) ∧ wrote b x.2 pos (fields_bytes fs) else x.1 = -1 ∨ fs = []).
Proof.
  intros Hfs. revert b pos. induction Hfs as [|f fs Hf Hfs IH]; intros b pos Hp Hb; cbn [write_fields].
  - cbn [yields fst snd]. split; [done |]. change (zlen (fields_bytes [])) with 0. case_match; [| by right].
    split; [lia | apply wrote_nil].
  - rewrite fields_bytes_cons, zlen_app. pose proof (zlen_nonneg (fields_bytes fs)) as Hn.
    pose proof (zlen_nonneg (field_bytes f)) as Hn'.
    destruct (Z.lt_ge_cases len (pos + zlen (field_bytes f))) as [Hshort|Hfit].
    + rewrite write_field_short by done. cbn [mbind option_bind]. change (-1 <? 0) with true. cbn.
      split; [done |]. rewrite (proj2 (Z.leb_gt _ _)) by lia. by left.
    + eapply yields_seq; [by apply write_field_ok |]. intros [p b1] [Ep Hw]. cbn [fst snd] in *. subst p.
      rewrite (proj2 (Z.ltb_ge _ _)) by lia. eapply yields_mono; [apply IH; [lia | destruct Hw; lia] |].
      intros x [Hz Hx]. split; [destruct Hw; congruence |].
      replace (pos + zlen (field_bytes f) + zlen (fields_bytes fs)) with
        (pos + (zlen (field_bytes f) + zlen (fields_bytes fs))) in Hx by lia.
      destruct (Z.leb_spec (pos + (zlen (field_bytes f) + zlen (fields_bytes fs))) len).
      * destruct Hx as [-> Hw2]. split; [lia |]. by eapply wrote_app.
      * destruct Hx as [?| ->]; [by left | change (zlen (fields_bytes [])) with 0 in *; lia].
Qed.

(** The encoded message. *)
Definition message_bytes (fs : list field) : list Z :=
  let n := zlen (fields_bytes fs) in byte_of n 0 :: byte_of n 1 :: fields_bytes fs.

Lemma zlen_message fs : zlen (message_bytes fs) = 2 + zlen (fields_bytes fs).
Proof. unfold message_bytes. rewrite !zlen_cons. lia. Qed.

(** An encoder writes the message, or answers -1 when it does not fit; it stays
    in its buffer. *)
Lemma ms_encode_ok fs b len :
  fs ≠ [] → Forall field_ok fs → len <= zlen b →
  yields (ms_encode fs b len) (λ x, zlen x.2 = zlen b ∧
    if zlen (message_bytes fs) <=? len
    then x.1 = zlen (message_bytes fs) ∧ wrote b x.2 0 (message_bytes fs) else x.1 = -1).
Proof.
  intros Hne Hfs Hb. unfold ms_encode. eapply yields_seq; [apply write_fields_ok; (done || lia) |].
  intros [p b1] [Hz H]. cbn [fst snd] in *. rewrite zlen_message. pose proof (zlen_nonneg (fields_bytes fs)).
  destruct (Z.leb_spec (2 + zlen (fields_bytes fs)) len).
  - destruct H as [-> Hw]. rewrite (proj2 (Z.ltb_ge _ _)) by lia.
    replace (2 + zlen (fields_bytes fs) - 2) with (zlen (fields_bytes fs)) by lia. 
    eapply yields_seq; [apply aset_wrote; lia |]. intros b2 [Hz2 H2].
    eapply yields_seq; [apply aset_wrote; lia |]. intros b3 [Hz3 H3]. cbn [yields fst snd].
    split; [congruence |]. split; [done |]. split; [congruence |]. destruct Hw as [_ Hw].
    intros i. rewrite H3, H2, Hw, zlen_message. change (zlen [_]) with 1. unfold message_bytes.
    destruct (decide (i = 0)) as [->|]; [zbool |]. destruct (decide (i = 1)) as [->|]; [zbool |].
    destruct (Z.leb_spec 2 i).
    + rewrite !aget_cons_pos by lia. replace (i - 0 - 1 - 1) with (i - 2) by lia. zbool.
    + zbool.
  - destruct H as [->|]; [done | done].
Qed.

(** ** Reading the bytes back *)

Definition has_at (buf : list Z) (pos : Z) (bs : list Z) : Prop :=
  ∀ i, 0 <= i < zlen bs → aget buf (pos + i) = aget bs i.

Lemma has_at_cons buf pos x bs : has_at buf pos (x :: bs) → aget buf pos = Some x ∧ has_at buf (pos + 1) bs.
Proof.
  intros H. pose proof (zlen_nonneg bs). split.
  - specialize (H 0). rewrite Z.add_0_r in H. apply H. rewrite zlen_cons. lia.
  - intros i Hi. replace (pos + 1 + i) with (pos + (i + 1)) by lia. rewrite H by (rewrite zlen_cons; lia).
    rewrite aget_cons_pos by lia. f_equal. lia.
Qed.

Lemma has_at_app buf pos bs1 bs2 : has_at buf pos (bs1 ++ bs2) → has_at buf pos bs1 ∧ has_at buf (pos + zlen bs1) bs2.
Proof.
  intros H. pose proof (zlen_nonneg bs1). pose proof (zlen_nonneg bs2). split; intros i Hi.
  - rewrite H by (rewrite zlen_app; lia). rewrite aget_app by lia. zbool.
  - rewrite <- Z.add_assoc, H by (rewrite zlen_app; lia). rewrite aget_app by lia. zbool. f_equal. lia.
Qed.

Lemma wrote_has b b' pos bs : 0 <= pos → wrote b b' pos bs → has_at b' pos bs.
Proof. intros Hp [_ H] i Hi. rewrite H. zbool. f_equal. lia. Qed.

Lemma byte_of_mod v k : 0 <= v → 0 <= k → byte_of v k = v / 2 ^ (8 * k) mod 256.
Proof.
  intros Hv Hk. unfold byte_of, u8. rewrite Z.shiftr_div_pow2 by lia. change 255 with (2 ^ 8 - 1).
  rewrite land_low, Z.mod_mod by lia. done.
Qed.

Lemma lor_shift a b n : 0 <= n → 0 <= a < 2 ^ n → Z.lor a (Z.shiftl b n) = a + b * 2 ^ n.
Proof. intros Hn Ha. rewrite Z.lor_comm, Z.shiftl_mul_pow2, lor_add by lia. lia. Qed.

Lemma get_u16_at buf pos v : 0 <= v < 2 ^ 16 → has_at buf pos [byte_of v 0; byte_of v 1] → get_u16 buf pos = Some v.
Proof.
  intros Hv (E0 & (E1 & _)%has_at_cons)%has_at_cons. unfold get_u16. rewrite E0. cbn [mbind option_bind].
  rewrite E1. cbn [mbind option_bind]. f_equal. rewrite !byte_of_mod by lia.
  change (8 * 0) with 0. change (8 * 1) with 8. change (2 ^ 0) with 1. rewrite Z.div_1_r.
  rewrite lor_shift by (change (2 ^ 8) with 256; euclid). change (2 ^ 8) with 256. euclid.
Qed.

Lemma u32_bytes v :
  0 <= v < 2 ^ 32 →
  Z.lor (Z.lor (Z.lor (byte_of v 0) (Z.shiftl (byte_of v 1) 8)) (Z.shiftl (byte_of v 2) 16)) (Z.shiftl (byte_of v 3) 24) = v.
Proof.
  intros Hv. rewrite !byte_of_mod by lia.
  change (8 * 0) with 0. change (8 * 1) with 8. change (8 * 2) with 16. change (8 * 3) with 24. change (2 ^ 0) with 1.
  rewrite Z.div_1_r. change (2 ^ 8) with 256 in *. change (2 ^ 16) with 65536 in *. change (2 ^ 24) with 16777216 in *.
  change (2 ^ 32) with 4294967296 in *.
  rewrite (lor_shift _ _ 8) by (change (2 ^ 8) with 256; euclid). change (2 ^ 8) with 256.
  rewrite (lor_shift _ _ 16) by (change (2 ^ 16) with 65536; euclid). change (2 ^ 16) with 65536.
  rewrite (lor_shift _ _ 24) by (change (2 ^ 24) with 16777216; euclid). change (2 ^ 24) with 16777216. euclid.
Qed.

Lemma read_u32_at buf pos end_ v :
  0 <= v < 2 ^ 32 → pos + 4 <= end_ → has_at buf pos [byte_of v 0; byte_of v 1; byte_of v 2; byte_of v 3] →
  ms_read_u32 buf pos end_ = Some (Some (pos + 4, v)).
Proof.
  intros Hv He (E0 & (E1 & (E2 & (E3 & _)%has_at_cons)%has_at_cons)%has_at_cons)%has_at_cons.
  unfold ms_read_u32. rewrite (proj2 (Z.ltb_ge _ _)) by lia.
  replace (pos + 1 + 1) with (pos + 2) in * by lia. replace (pos + 2 + 1) with (pos + 3) in * by lia.
  rewrite E0, E1, E2, E3. cbn [mbind option_bind]. by rewrite u32_bytes.
Qed.

Lemma tag_split n w : 0 <= n < 32 → 0 <= w < 8 → Z.shiftr (tag_byte n w) 3 = n ∧ Z.land (tag_byte n w) 7 = w.
Proof.
  intros Hn Hw.
  assert (forallb (λ n, forallb (λ w, (Z.shiftr (tag_byte n w) 3 =? n) && (Z.land (tag_byte n w) 7 =? w)) (seqZ 0 8)) (seqZ 0 32) = true)
    as H by (vm_compute; reflexivity).
  pose proof (forall_range _ 32 H n Hn) as H1. cbn beta in H1.
  pose proof (forall_range _ 8 H1 w Hw) as H2. cbn beta in H2. rewrite andb_true_iff, !Z.eqb_eq in H2. done.
Qed.

Definition field_wire (f : field) : Z :=
  match f with F8 _ _ => MS_WIRE_8 | F16 _ _ => MS_WIRE_16 | F32 _ _ => MS_WIRE_32 | FBytes _ _ _ => MS_WIRE_BYTES end.

(** A field as it arrives in a buffer: its bytes are the buffer's. *)
Definition recv (buf : list Z) (pos : Z) (f : field) : field :=
  match f with FBytes n d l => FBytes n (Some (drop (Z.to_nat (pos + 3)) buf)) l | f => f end.

Lemma recv_same buf pos f :
  0 <= pos → field_ok f → has_at buf pos (field_bytes f) → pos + zlen (field_bytes f) <= zlen buf → same_field f (recv buf pos f).
Proof.
  destruct f as [n v|n v|n v|n d l]; try done. intros Hp (_ & Hl & Hd & _) H Hz. split; [done |]. split; [done |].
  cbn [field_bytes app] in *. rewrite !zlen_cons, zlen_take in Hz by lia.
  cbn [deref from_option]. change (default [] (Some (drop (Z.to_nat (pos + 3)) buf))) with (drop (Z.to_nat (pos + 3)) buf).
  rewrite zlen_drop by lia. split; [lia |].
  apply has_at_cons in H as (_ & (_ & (_ & H)%has_at_cons)%has_at_cons).
  apply aget_ext. intros i. rewrite !aget_take. destruct (Z.ltb_spec i l); [| done].
  destruct (Z.leb_spec 0 i).
  - rewrite aget_drop by lia. specialize (H i). rewrite aget_take in H. 
    replace (pos + 3 + i) with (pos + 1 + 1 + 1 + i) by lia. rewrite H by (rewrite zlen_take; lia). zbool.
  - rewrite !(proj2 (aget_None _ _)) by lia. done.
Qed.

Lemma skip_number buf pos end_ w size :
  aget [1; 2; 4; 8] w = Some size → w <= 3 → pos + size <= end_ → ms_skip buf pos end_ w = Some (Some (pos + size)).
Proof.
  intros E Hw He. unfold ms_skip. rewrite (proj2 (Z.leb_le _ _)), E by done. cbn [mbind option_bind].
  by rewrite (proj2 (Z.leb_le _ _)) by done.
Qed.

Lemma read_field_ok {A} (switch : Z → option (reader A)) buf pos end_ f m :
  0 <= pos → field_ok f → has_at buf pos (field_bytes f) → pos + zlen (field_bytes f) <= end_ → end_ <= zlen buf →
  agrees switch f →
  read_field (switch (field_number f)) buf (pos + 1) end_ (field_wire f) m =
  Some (Some (pos + zlen (field_bytes f), apply_field switch m (recv buf pos f))).
Proof.
  intros Hp Hf H He Hb Ha. rewrite zlen_field_bytes in * by done. destruct Hf as [_ Hv].
  destruct f as [n v|n v|n v|n d l]; cbn [recv agrees apply_field field_number field_wire field_bytes app] in *;
    apply has_at_cons in H as (_ & H); (destruct (switch n) as [[set|set|set|set]|]; try done; cbn [read_field]).
  - unfold ms_read_u8. rewrite (proj2 (Z.ltb_ge _ _)) by lia. apply has_at_cons in H as (-> & _). cbn. do 3 f_equal. lia.
  - rewrite (skip_number _ _ _ _ 1) by (done || lia). cbn [mbind option_bind]. do 3 f_equal. lia.
  - unfold ms_read_u16. rewrite (proj2 (Z.ltb_ge _ _)) by lia. rewrite (get_u16_at _ _ v) by done. cbn. do 3 f_equal. lia.
  - rewrite (skip_number _ _ _ _ 2) by (done || lia). cbn [mbind option_bind]. do 3 f_equal. lia.
  - rewrite (read_u32_at _ _ _ v) by (done || lia). cbn. do 3 f_equal. lia.
  - rewrite (skip_number _ _ _ _ 4) by (done || lia). cbn [mbind option_bind]. do 3 f_equal. lia.
  - destruct Hv as (Hl & _). apply (has_at_app _ _ [byte_of l 0; byte_of l 1]) in H as [H _].
    unfold ms_read_bytes. rewrite (proj2 (Z.ltb_ge _ _)) by lia. rewrite (get_u16_at _ _ l) by done. cbn [mbind option_bind].
    rewrite (proj2 (Z.ltb_ge _ (pos + 1 + 2 + l))), (proj2 (Z.ltb_ge 65535 l)) by lia. cbn. 
    replace (pos + 1 + 2) with (pos + 3) by lia. do 3 f_equal. lia.
  - destruct Hv as (Hl & _). apply (has_at_app _ _ [byte_of l 0; byte_of l 1]) in H as [H _].
    unfold ms_skip. change (MS_WIRE_BYTES <=? 3) with false. change (MS_WIRE_BYTES =? MS_WIRE_BYTES) with true. cbv iota.
    rewrite (proj2 (Z.ltb_ge _ _)) by lia. rewrite (get_u16_at _ _ l) by done. cbn [mbind option_bind].
    rewrite (proj2 (Z.leb_le _ _)) by lia. cbn. do 3 f_equal. lia.
Qed.

Lemma field_tag buf pos f :
  field_ok f → has_at buf pos (field_bytes f) →
  ∃ tag, aget buf pos = Some tag ∧ Z.shiftr tag 3 = field_number f ∧ Z.land tag 7 = field_wire f.
Proof.
  intros [Hn _] H. exists (tag_byte (field_number f) (field_wire f)). split.
  - destruct f; cbn [field_bytes app] in H; apply has_at_cons in H as [E _]; done.
  - apply tag_split; [lia |]. destruct f; done.
Qed.

Lemma decode_loop_ok {A} (switch : Z → option (reader A)) buf fs : ∀ pos fuel m,
  0 <= pos → pos + zlen (fields_bytes fs) <= zlen buf → has_at buf pos (fields_bytes fs) → (length fs <= fuel)%nat →
  Forall field_ok fs → Forall (agrees switch) fs →
  ∃ fs', Forall2 same_field fs fs' ∧
    decode_loop switch fuel buf pos (pos + zlen (fields_bytes fs)) m = Some (Some (foldl (apply_field switch) m fs')).
Proof.
  induction fs as [|f fs IH]; intros pos fuel m Hp Hb H Hfuel Hok Hag.
  - exists []. split; [done |]. change (zlen (fields_bytes [])) with 0. destruct fuel; cbn [decode_loop]; by zbool.
  - rewrite fields_bytes_cons in *. rewrite zlen_app in *. apply has_at_app in H as [H1 H2].
    inversion_clear Hok as [|? ? Hf Hfs]. inversion_clear Hag as [|? ? Ha Has].
    pose proof (zlen_nonneg (fields_bytes fs)). pose proof (zlen_field_bytes _ Hf) as Hz.
    assert (0 < zlen (field_bytes f)) by (destruct Hf as [_ Hv]; destruct f; lia).
    destruct fuel as [|fuel]; [cbn in Hfuel; lia |]. cbn [length] in Hfuel. cbn [decode_loop].
    rewrite (proj2 (Z.ltb_lt _ _)) by lia.
    destruct (field_tag _ _ _ Hf H1) as (tag & -> & Et & Ew). cbn [mbind option_bind]. rewrite Et, Ew.
    rewrite (read_field_ok _ _ _ _ _ m Hp Hf H1) by (done || lia). cbn [mbind option_bind].
    destruct (IH (pos + zlen (field_bytes f)) fuel (apply_field switch m (recv buf pos f))) as (fs' & Hs & E);
      [lia | lia | done | lia | done | done |].
    rewrite Z.add_assoc, E. exists (recv buf pos f :: fs'). split; [constructor |]; [| done | done].
    apply recv_same; (done || lia).
Qed.

Lemma length_fields_bytes fs : Forall field_ok fs → Z.of_nat (length fs) <= zlen (fields_bytes fs).
Proof.
  induction 1 as [|f fs Hf _ IH]; [done |]. rewrite fields_bytes_cons, zlen_app, zlen_field_bytes by done.
  cbn [length]. destruct Hf as [_ Hv]. destruct f; lia.
Qed.

(** The fields of a message are read back, and no byte after them is. *)
Lemma ms_decode_ok {A} (switch : Z → option (reader A)) zero fs buf len :
  Forall field_ok fs → Forall (agrees switch) fs → zlen (fields_bytes fs) < 2 ^ 16 →
  zlen (message_bytes fs) <= len → len <= zlen buf → has_at buf 0 (message_bytes fs) →
  ∃ fs', Forall2 same_field fs fs' ∧
    ms_decode switch zero buf len = Some (Some (zlen (message_bytes fs), foldl (apply_field switch) zero fs')).
Proof.
  intros Hok Hag Hsz Hlen Hb H. rewrite zlen_message in *. unfold message_bytes in H.
  apply (has_at_app _ _ [_; _]) in H as [Hn Hf]. change (0 + zlen _) with 2 in Hf.
  pose proof (zlen_nonneg (fields_bytes fs)). pose proof (length_fields_bytes fs Hok). unfold ms_decode.
  rewrite (proj2 (Z.ltb_ge _ _)) by lia. rewrite (get_u16_at _ _ (zlen (fields_bytes fs))) by (done || lia).
  cbn [mbind option_bind]. rewrite (proj2 (Z.ltb_ge len _)) by lia. rewrite (Z.add_comm _ 2).
  destruct (decode_loop_ok switch buf fs 2 (Z.to_nat (2 + zlen (fields_bytes fs))) zero) as (fs' & Hs & ->); try done; [lia | lia |].
  by exists fs'.
Qed.

(** ** Decoding any bytes *)

Lemma aget_byte buf pos : Forall is_byte buf → 0 <= pos < zlen buf → yields (aget buf pos) is_byte.
Proof.
  intros Hbuf Hp. destruct (aget_in buf pos Hp) as [b E]. rewrite E. exact (proj1 (Forall_aget _ _) Hbuf _ _ E).
Qed.

Lemma get_u16_any buf pos : Forall is_byte buf → 0 <= pos → pos + 2 <= zlen buf → yields (get_u16 buf pos) (λ v, 0 <= v < 2 ^ 16).
Proof.
  intros Hbuf Hp Hb. unfold get_u16. unfold is_byte in *.
  eapply yields_seq; [apply aget_byte; (done || lia) |]. intros b0 H0. cbn beta in H0.
  eapply yields_seq; [apply aget_byte; (done || lia) |]. intros b1 H1. cbn beta in H1. unfold is_byte in *. cbn [yields].
  rewrite lor_shift by lia. change (2 ^ 8) with 256. change (2 ^ 16) with 65536. lia.
Qed.

(** A reader answers -1, or the value and a place after it. *)
Definition read_ok {V} (Q : V → Prop) (pos end_ : Z) (r : option (Z * V)) : Prop :=
  match r with Some (pos', v) => pos <= pos' <= end_ ∧ Q v | None => True end.

Lemma ms_read_u8_any buf pos end_ : Forall is_byte buf → 0 <= pos → end_ <= zlen buf →
  yields (ms_read_u8 buf pos end_) (read_ok (λ v, 0 <= v < 2 ^ 8) pos end_).
Proof.
  intros Hbuf Hp He. unfold ms_read_u8. destruct (Z.ltb_spec end_ (pos + 1)); [done |].
  eapply yields_seq; [apply aget_byte; (done || lia) |]. intros b Hb. split; [lia | exact Hb].
Qed.

Lemma ms_read_u16_any buf pos end_ : Forall is_byte buf → 0 <= pos → end_ <= zlen buf →
  yields (ms_read_u16 buf pos end_) (read_ok (λ v, 0 <= v < 2 ^ 16) pos end_).
Proof.
  intros Hbuf Hp He. unfold ms_read_u16. destruct (Z.ltb_spec end_ (pos + 2)); [done |].
  eapply yields_seq; [apply get_u16_any; (done || lia) |]. intros b Hb. split; [lia | exact Hb].
Qed.

Lemma ms_read_u32_any buf pos end_ : Forall is_byte buf → 0 <= pos → end_ <= zlen buf →
  yields (ms_read_u32 buf pos end_) (read_ok (λ v, 0 <= v < 2 ^ 32) pos end_).
Proof.
  intros Hbuf Hp He. unfold ms_read_u32. destruct (Z.ltb_spec end_ (pos + 4)); [done |].
  do 4 (eapply yields_seq; [apply aget_byte; (done || lia) |]; intros ? ?; cbn beta in *). unfold is_byte in *.
  split; [lia |]. rewrite (lor_shift _ _ 8) by (change (2 ^ 8) with 256; lia). change (2 ^ 8) with 256.
  rewrite (lor_shift _ _ 16) by (change (2 ^ 16) with 65536; lia). change (2 ^ 16) with 65536.
  rewrite (lor_shift _ _ 24) by (change (2 ^ 24) with 16777216; lia). change (2 ^ 24) with 16777216.
  change (2 ^ 32) with 4294967296. lia.
Qed.

(** The pointer is into the buffer and its bytes are there. *)
Definition inside (d : bptr) (l : Z) : Prop :=
  0 <= l < 2 ^ 16 ∧ l <= zlen (deref d) ∧ Forall is_byte (deref d).

Lemma ms_read_bytes_any buf pos end_ dmax : Forall is_byte buf → 0 <= pos → end_ <= zlen buf →
  yields (ms_read_bytes buf pos end_ dmax) (read_ok (λ v, inside v.1 v.2) pos end_).
Proof.
  intros Hbuf Hp He. unfold ms_read_bytes. destruct (Z.ltb_spec end_ (pos + 2)); [done |].
  eapply yields_seq; [apply get_u16_any; (done || lia) |]. intros l Hl. cbn beta in Hl.
  destruct (Z.ltb_spec end_ (pos + 2 + l)); [done |]. destruct (Z.ltb_spec dmax l); [done |]. cbn [orb yields read_ok].
  split; [lia |]. split; [done |]. cbn [fst snd deref from_option].
  change (default [] (Some (drop (Z.to_nat (pos + 2)) buf))) with (drop (Z.to_nat (pos + 2)) buf).
  rewrite zlen_drop by lia. split; [lia | by apply Forall_drop].
Qed.

Lemma ms_skip_any buf pos end_ wire : Forall is_byte buf → 0 <= pos → end_ <= zlen buf → 0 <= wire →
  yields (ms_skip buf pos end_ wire) (λ r, match r with Some p => pos <= p <= end_ | None => True end).
Proof.
  intros Hbuf Hp He Hw. unfold ms_skip. destruct (Z.leb_spec wire 3).
  - assert (Forall (λ n, 0 <= n) [1; 2; 4; 8]) as Hs by (repeat constructor; lia).
    destruct (aget_in [1; 2; 4; 8] wire) as [n En]; [change (zlen _) with 4; lia |]. rewrite En. cbn [mbind option_bind yields].
    pose proof (proj1 (Forall_aget _ _) Hs _ _ En) as Hn. cbn beta in Hn. destruct (Z.leb_spec (pos + n) end_); [lia | done].
  - destruct (wire =? MS_WIRE_BYTES); [| done]. destruct (Z.ltb_spec end_ (pos + 2)); [done |].
    eapply yields_seq; [apply get_u16_any; (done || lia) |]. intros l Hl. cbn beta in Hl. cbn [yields].
    destruct (Z.leb_spec (pos + (2 + l)) end_); [lia | done].
Qed.

Section anything.
Context {A : Type} (switch : Z → option (reader A)) (P : A → Prop).

(** What a reader stores when the bytes are bytes. *)
Definition reader_ok (r : reader A) : Prop :=
  match r with
  | R8 set => ∀ m v, P m → 0 <= v < 2 ^ 8 → P (set v m)
  | R16 set => ∀ m v, P m → 0 <= v < 2 ^ 16 → P (set v m)
  | R32 set => ∀ m v, P m → 0 <= v < 2 ^ 32 → P (set v m)
  | RBytes set => ∀ m d l, P m → inside d l → P (set d l m)
  end.

Hypothesis Hswitch : ∀ n r, switch n = Some r → reader_ok r.

Lemma read_field_any n buf pos end_ wire m :
  Forall is_byte buf → 0 <= pos → end_ <= zlen buf → 0 <= wire → P m →
  yields (read_field (switch n) buf pos end_ wire m) (read_ok P pos end_).
Proof.
  intros Hbuf Hp He Hw Hm. pose proof (Hswitch n) as Hr.
  destruct (switch n) as [[set|set|set|set]|]; cbn [read_field]; try (specialize (Hr _ eq_refl); cbn [reader_ok] in Hr).
  - eapply yields_seq; [by apply ms_read_u8_any |]. intros [[p v]|] Hv; [| done]. split; [apply Hv | apply Hr; [done | apply Hv]].
  - eapply yields_seq; [by apply ms_read_u16_any |]. intros [[p v]|] Hv; [| done]. split; [apply Hv | apply Hr; [done | apply Hv]].
  - eapply yields_seq; [by apply ms_read_u32_any |]. intros [[p v]|] Hv; [| done]. split; [apply Hv | apply Hr; [done | apply Hv]].
  - eapply yields_seq; [by apply ms_read_bytes_any |]. intros [[p v]|] Hv; [| done]. split; [apply Hv | apply Hr; [done | apply Hv]].
  - eapply yields_seq; [by apply ms_skip_any |]. intros [p|] Hv; [| done]. split; [apply Hv | done].
Qed.

Lemma decode_loop_any fuel : ∀ buf pos end_ m,
  Forall is_byte buf → 0 <= pos → end_ <= zlen buf → end_ - pos <= Z.of_nat fuel → P m →
  yields (decode_loop switch fuel buf pos end_ m) (λ r, match r with Some m => P m | None => True end).
Proof.
  induction fuel as [|fuel IH]; intros buf pos end_ m Hbuf Hp He Hf Hm; cbn [decode_loop];
    destruct (Z.ltb_spec pos end_); try done; [lia |].
  eapply yields_seq; [apply aget_byte; (done || lia) |]. intros tag Ht. cbn beta in Ht. unfold is_byte in Ht.
  eapply yields_seq; [apply read_field_any; try done; [lia | apply Z.land_nonneg; lia] |].
  intros [[p m1]|] Hs; [| done]. destruct Hs as [Hle Hm1]. apply IH; (done || lia).
Qed.

Lemma ms_decode_any zero buf len :
  Forall is_byte buf → len <= zlen buf → P zero →
  yields (ms_decode switch zero buf len) (read_ok P 2 len).
Proof.
  intros Hbuf Hlen Hz. unfold ms_decode. destruct (Z.ltb_spec len 2); [done |].
  eapply yields_seq; [apply get_u16_any; (done || lia) |]. intros n Hn. cbn beta in Hn.
  destruct (Z.ltb_spec len (n + 2)); [done |].
  eapply yields_seq; [apply decode_loop_any; try done; lia |]. intros [m|] Hm; [| done]. split; [lia | done].
Qed.
End anything.

(** ** The messages' interface

    What lumi_msg.c has for each message: the fields its encoder writes, the
    switch of its decoder and the message after [memset]; and what these
    promise each other.  The two functions of a message are [encode] and
    [decode]; their properties are proved here for every instance. *)

Class Message (A : Type) := {
  fields_of : A → list field;
  switch_of : Z → option (reader A);
  zero_of : A;
}.

(** A message whose numbers are in the range of their types, and whose pointers
    have the bytes their lengths say. *)
Definition msg_ok `{Message A} (m : A) : Prop := Forall field_ok (fields_of m).

(** The same message, with pointers to equal bytes. *)
Definition same_message `{Message A} (m m' : A) : Prop := Forall2 same_field (fields_of m) (fields_of m').

Class MessageLaws (A : Type) `{Message A} : Prop := {
  fields_some (m : A) : fields_of m ≠ [];
  fields_agree (m : A) : Forall (agrees switch_of) (fields_of m);
  fields_rebuild (m : A) fs : Forall2 same_field (fields_of m) fs → fields_of (foldl (apply_field switch_of) zero_of fs) = fs;
  zero_ok : msg_ok (zero_of : A);
  switch_ok n (r : reader A) : switch_of n = Some r → reader_ok msg_ok r;
}.

Definition encode `{Message A} (m : A) (buf : list Z) (len : Z) : option (Z * list Z) := ms_encode (fields_of m) buf len.
Definition decode (A : Type) `{Message A} (buf : list Z) (len : Z) : option (option (Z * A)) := ms_decode switch_of zero_of buf len.

(** Its bytes on the wire. *)
Definition wire `{Message A} (m : A) : list Z := message_bytes (fields_of m).

Section messages.
Context {A : Type} `{MessageLaws A}.

Lemma encode_wire (m : A) buf len :
  msg_ok m → zlen (wire m) <= len → len <= zlen buf →
  yields (encode m buf len) (λ x, x.1 = zlen (wire m) ∧ wrote buf x.2 0 (wire m)).
Proof.
  intros Hm Hfit Hb. eapply yields_mono; [apply ms_encode_ok; [apply fields_some | done | done] |].
  intros x [_ Hx]. fold (wire m) in Hx. by rewrite (proj2 (Z.leb_le _ _)) in Hx by done.
Qed.

Lemma decode_wire (m : A) buf len :
  msg_ok m → zlen (wire m) < 2 ^ 16 + 2 → zlen (wire m) <= len → len <= zlen buf → has_at buf 0 (wire m) →
  ∃ m', decode A buf len = Some (Some (zlen (wire m), m')) ∧ same_message m m'.
Proof.
  intros Hm Hsz Hlen Hb Hw. unfold wire in Hsz. rewrite zlen_message in Hsz.
  destruct (ms_decode_ok switch_of zero_of (fields_of m) buf len) as (fs & Hs & E); try done; [apply fields_agree | lia |].
  eexists. split; [exact E |]. unfold same_message. by erewrite fields_rebuild.
Qed.

Lemma decode_any buf len :
  Forall is_byte buf → len <= zlen buf → yields (decode A buf len) (read_ok msg_ok 2 len).
Proof. intros Hbuf Hlen. apply ms_decode_any; try done; [apply switch_ok | apply zero_ok]. Qed.

End messages.
