(* ===== verification/LumiMsg.v ===== *)
(** * The messages of the protocol: src/libipc/lumi_msg.c, lumi_msg.h

    One record per message, the fields its encoder writes in order
    ([ipc_*_fields]), the switch of its decoder ([ipc_*_switch]) and the two
    functions.  A [const char *] and its length are two members, as in the
    struct.  Every message is an instance of [Message], so it is read back as it
    was written, and decoding is safe on any bytes; what the protocol says of
    old peers is proved on the three messages of the attach handshake. *)

From S2P Require Import Prelude Microser.

(** ** [ipc_size] *)

Record ipc_size := mk_ipc_size { sz_rows : Z; sz_cols : Z; sz_cell_pw : Z; sz_cell_ph : Z }.

Definition ipc_size_fields (msg : ipc_size) : list field :=
  [F16 1 msg.(sz_rows); F16 2 msg.(sz_cols); F16 8 msg.(sz_cell_pw); F16 9 msg.(sz_cell_ph)].

Definition ipc_size_zero : ipc_size := mk_ipc_size 0 0 0 0.

Definition ipc_size_switch (tag : Z) : option (reader ipc_size) :=
  match tag with
  | 1 => Some (R16 (λ v msg, mk_ipc_size v msg.(sz_cols) msg.(sz_cell_pw) msg.(sz_cell_ph)))
  | 2 => Some (R16 (λ v msg, mk_ipc_size msg.(sz_rows) v msg.(sz_cell_pw) msg.(sz_cell_ph)))
  | 8 => Some (R16 (λ v msg, mk_ipc_size msg.(sz_rows) msg.(sz_cols) v msg.(sz_cell_ph)))
  | 9 => Some (R16 (λ v msg, mk_ipc_size msg.(sz_rows) msg.(sz_cols) msg.(sz_cell_pw) v))
  | _ => None
  end.

#[export] Instance ipc_size_message : Message ipc_size :=
  { fields_of := ipc_size_fields; switch_of := ipc_size_switch; zero_of := ipc_size_zero }.

Definition ipc_size_encode (msg : ipc_size) (buf : list Z) (len : Z) : option (Z * list Z) := encode msg buf len.
Definition ipc_size_decode (buf : list Z) (len : Z) : option (option (Z * ipc_size)) := decode ipc_size buf len.

(** ** [ipc_attach] *)

Record ipc_attach := mk_ipc_attach { at_rows : Z; at_cols : Z; at_flags : Z; at_client_id : Z; at_name : bptr; at_name_len : Z; at_cell_pw : Z; at_cell_ph : Z }.

Definition ipc_attach_fields (msg : ipc_attach) : list field :=
  [F16 1 msg.(at_rows); F16 2 msg.(at_cols); F8 3 msg.(at_flags); F32 4 msg.(at_client_id); FBytes 5 msg.(at_name) msg.(at_name_len); F16 8 msg.(at_cell_pw); F16 9 msg.(at_cell_ph)].

Definition ipc_attach_zero : ipc_attach := mk_ipc_attach 0 0 0 0 None 0 0 0.

Definition ipc_attach_switch (tag : Z) : option (reader ipc_attach) :=
  match tag with
  | 1 => Some (R16 (λ v msg, mk_ipc_attach v msg.(at_cols) msg.(at_flags) msg.(at_client_id) msg.(at_name) msg.(at_name_len) msg.(at_cell_pw) msg.(at_cell_ph)))
  | 2 => Some (R16 (λ v msg, mk_ipc_attach msg.(at_rows) v msg.(at_flags) msg.(at_client_id) msg.(at_name) msg.(at_name_len) msg.(at_cell_pw) msg.(at_cell_ph)))
  | 3 => Some (R8 (λ v msg, mk_ipc_attach msg.(at_rows) msg.(at_cols) v msg.(at_client_id) msg.(at_name) msg.(at_name_len) msg.(at_cell_pw) msg.(at_cell_ph)))
  | 4 => Some (R32 (λ v msg, mk_ipc_attach msg.(at_rows) msg.(at_cols) msg.(at_flags) v msg.(at_name) msg.(at_name_len) msg.(at_cell_pw) msg.(at_cell_ph)))
  | 5 => Some (RBytes (λ d l msg, mk_ipc_attach msg.(at_rows) msg.(at_cols) msg.(at_flags) msg.(at_client_id) d l msg.(at_cell_pw) msg.(at_cell_ph)))
  | 8 => Some (R16 (λ v msg, mk_ipc_attach msg.(at_rows) msg.(at_cols) msg.(at_flags) msg.(at_client_id) msg.(at_name) msg.(at_name_len) v msg.(at_cell_ph)))
  | 9 => Some (R16 (λ v msg, mk_ipc_attach msg.(at_rows) msg.(at_cols) msg.(at_flags) msg.(at_client_id) msg.(at_name) msg.(at_name_len) msg.(at_cell_pw) v))
  | _ => None
  end.

#[export] Instance ipc_attach_message : Message ipc_attach :=
  { fields_of := ipc_attach_fields; switch_of := ipc_attach_switch; zero_of := ipc_attach_zero }.

Definition ipc_attach_encode (msg : ipc_attach) (buf : list Z) (len : Z) : option (Z * list Z) := encode msg buf len.
Definition ipc_attach_decode (buf : list Z) (len : Z) : option (option (Z * ipc_attach)) := decode ipc_attach buf len.

(** ** [ipc_attach_reply] *)

Record ipc_attach_reply := mk_ipc_attach_reply { rep_rows : Z; rep_cols : Z; rep_role : Z; rep_nclients : Z }.

Definition ipc_attach_reply_fields (msg : ipc_attach_reply) : list field :=
  [F16 1 msg.(rep_rows); F16 2 msg.(rep_cols); F8 3 msg.(rep_role); F8 4 msg.(rep_nclients)].

Definition ipc_attach_reply_zero : ipc_attach_reply := mk_ipc_attach_reply 0 0 0 0.

Definition ipc_attach_reply_switch (tag : Z) : option (reader ipc_attach_reply) :=
  match tag with
  | 1 => Some (R16 (λ v msg, mk_ipc_attach_reply v msg.(rep_cols) msg.(rep_role) msg.(rep_nclients)))
  | 2 => Some (R16 (λ v msg, mk_ipc_attach_reply msg.(rep_rows) v msg.(rep_role) msg.(rep_nclients)))
  | 3 => Some (R8 (λ v msg, mk_ipc_attach_reply msg.(rep_rows) msg.(rep_cols) v msg.(rep_nclients)))
  | 4 => Some (R8 (λ v msg, mk_ipc_attach_reply msg.(rep_rows) msg.(rep_cols) msg.(rep_role) v))
  | _ => None
  end.

#[export] Instance ipc_attach_reply_message : Message ipc_attach_reply :=
  { fields_of := ipc_attach_reply_fields; switch_of := ipc_attach_reply_switch; zero_of := ipc_attach_reply_zero }.

Definition ipc_attach_reply_encode (msg : ipc_attach_reply) (buf : list Z) (len : Z) : option (Z * list Z) := encode msg buf len.
Definition ipc_attach_reply_decode (buf : list Z) (len : Z) : option (option (Z * ipc_attach_reply)) := decode ipc_attach_reply buf len.

(** ** [ipc_win_id] *)

Record ipc_win_id := mk_ipc_win_id { wi_id : Z }.

Definition ipc_win_id_fields (msg : ipc_win_id) : list field :=
  [F32 1 msg.(wi_id)].

Definition ipc_win_id_zero : ipc_win_id := mk_ipc_win_id 0.

Definition ipc_win_id_switch (tag : Z) : option (reader ipc_win_id) :=
  match tag with
  | 1 => Some (R32 (λ v _, mk_ipc_win_id v))
  | _ => None
  end.

#[export] Instance ipc_win_id_message : Message ipc_win_id :=
  { fields_of := ipc_win_id_fields; switch_of := ipc_win_id_switch; zero_of := ipc_win_id_zero }.

Definition ipc_win_id_encode (msg : ipc_win_id) (buf : list Z) (len : Z) : option (Z * list Z) := encode msg buf len.
Definition ipc_win_id_decode (buf : list Z) (len : Z) : option (option (Z * ipc_win_id)) := decode ipc_win_id buf len.

(** ** [ipc_win_entry] *)

Record ipc_win_entry := mk_ipc_win_entry { we_id : Z; we_flags : Z; we_title : bptr; we_title_len : Z }.

Definition ipc_win_entry_fields (msg : ipc_win_entry) : list field :=
  [F32 1 msg.(we_id); F8 2 msg.(we_flags); FBytes 3 msg.(we_title) msg.(we_title_len)].

Definition ipc_win_entry_zero : ipc_win_entry := mk_ipc_win_entry 0 0 None 0.

Definition ipc_win_entry_switch (tag : Z) : option (reader ipc_win_entry) :=
  match tag with
  | 1 => Some (R32 (λ v msg, mk_ipc_win_entry v msg.(we_flags) msg.(we_title) msg.(we_title_len)))
  | 2 => Some (R8 (λ v msg, mk_ipc_win_entry msg.(we_id) v msg.(we_title) msg.(we_title_len)))
  | 3 => Some (RBytes (λ d l msg, mk_ipc_win_entry msg.(we_id) msg.(we_flags) d l))
  | _ => None
  end.

#[export] Instance ipc_win_entry_message : Message ipc_win_entry :=
  { fields_of := ipc_win_entry_fields; switch_of := ipc_win_entry_switch; zero_of := ipc_win_entry_zero }.

Definition ipc_win_entry_encode (msg : ipc_win_entry) (buf : list Z) (len : Z) : option (Z * list Z) := encode msg buf len.
Definition ipc_win_entry_decode (buf : list Z) (len : Z) : option (option (Z * ipc_win_entry)) := decode ipc_win_entry buf len.

(** ** [ipc_win_resize] *)

Record ipc_win_resize := mk_ipc_win_resize { wr_id : Z; wr_rows : Z; wr_cols : Z }.

Definition ipc_win_resize_fields (msg : ipc_win_resize) : list field :=
  [F32 1 msg.(wr_id); F16 2 msg.(wr_rows); F16 3 msg.(wr_cols)].

Definition ipc_win_resize_zero : ipc_win_resize := mk_ipc_win_resize 0 0 0.

Definition ipc_win_resize_switch (tag : Z) : option (reader ipc_win_resize) :=
  match tag with
  | 1 => Some (R32 (λ v msg, mk_ipc_win_resize v msg.(wr_rows) msg.(wr_cols)))
  | 2 => Some (R16 (λ v msg, mk_ipc_win_resize msg.(wr_id) v msg.(wr_cols)))
  | 3 => Some (R16 (λ v msg, mk_ipc_win_resize msg.(wr_id) msg.(wr_rows) v))
  | _ => None
  end.

#[export] Instance ipc_win_resize_message : Message ipc_win_resize :=
  { fields_of := ipc_win_resize_fields; switch_of := ipc_win_resize_switch; zero_of := ipc_win_resize_zero }.

Definition ipc_win_resize_encode (msg : ipc_win_resize) (buf : list Z) (len : Z) : option (Z * list Z) := encode msg buf len.
Definition ipc_win_resize_decode (buf : list Z) (len : Z) : option (option (Z * ipc_win_resize)) := decode ipc_win_resize buf len.

(** ** [ipc_attr_txn_ok] *)

Record ipc_attr_txn_ok := mk_ipc_attr_txn_ok { tok_txn_id : Z }.

Definition ipc_attr_txn_ok_fields (msg : ipc_attr_txn_ok) : list field :=
  [F32 1 msg.(tok_txn_id)].

Definition ipc_attr_txn_ok_zero : ipc_attr_txn_ok := mk_ipc_attr_txn_ok 0.

Definition ipc_attr_txn_ok_switch (tag : Z) : option (reader ipc_attr_txn_ok) :=
  match tag with
  | 1 => Some (R32 (λ v _, mk_ipc_attr_txn_ok v))
  | _ => None
  end.

#[export] Instance ipc_attr_txn_ok_message : Message ipc_attr_txn_ok :=
  { fields_of := ipc_attr_txn_ok_fields; switch_of := ipc_attr_txn_ok_switch; zero_of := ipc_attr_txn_ok_zero }.

Definition ipc_attr_txn_ok_encode (msg : ipc_attr_txn_ok) (buf : list Z) (len : Z) : option (Z * list Z) := encode msg buf len.
Definition ipc_attr_txn_ok_decode (buf : list Z) (len : Z) : option (option (Z * ipc_attr_txn_ok)) := decode ipc_attr_txn_ok buf len.

(** ** [ipc_attr_kv] *)

Record ipc_attr_kv := mk_ipc_attr_kv { kv_txn_id : Z; kv_key : bptr; kv_key_len : Z; kv_value : bptr; kv_value_len : Z }.

Definition ipc_attr_kv_fields (msg : ipc_attr_kv) : list field :=
  [F32 1 msg.(kv_txn_id); FBytes 2 msg.(kv_key) msg.(kv_key_len); FBytes 3 msg.(kv_value) msg.(kv_value_len)].

Definition ipc_attr_kv_zero : ipc_attr_kv := mk_ipc_attr_kv 0 None 0 None 0.

Definition ipc_attr_kv_switch (tag : Z) : option (reader ipc_attr_kv) :=
  match tag with
  | 1 => Some (R32 (λ v msg, mk_ipc_attr_kv v msg.(kv_key) msg.(kv_key_len) msg.(kv_value) msg.(kv_value_len)))
  | 2 => Some (RBytes (λ d l msg, mk_ipc_attr_kv msg.(kv_txn_id) d l msg.(kv_value) msg.(kv_value_len)))
  | 3 => Some (RBytes (λ d l msg, mk_ipc_attr_kv msg.(kv_txn_id) msg.(kv_key) msg.(kv_key_len) d l))
  | _ => None
  end.

#[export] Instance ipc_attr_kv_message : Message ipc_attr_kv :=
  { fields_of := ipc_attr_kv_fields; switch_of := ipc_attr_kv_switch; zero_of := ipc_attr_kv_zero }.

Definition ipc_attr_kv_encode (msg : ipc_attr_kv) (buf : list Z) (len : Z) : option (Z * list Z) := encode msg buf len.
Definition ipc_attr_kv_decode (buf : list Z) (len : Z) : option (option (Z * ipc_attr_kv)) := decode ipc_attr_kv buf len.

(** ** [ipc_attr_key] *)

Record ipc_attr_key := mk_ipc_attr_key { ak_txn_id : Z; ak_key : bptr; ak_key_len : Z }.

Definition ipc_attr_key_fields (msg : ipc_attr_key) : list field :=
  [F32 1 msg.(ak_txn_id); FBytes 2 msg.(ak_key) msg.(ak_key_len)].

Definition ipc_attr_key_zero : ipc_attr_key := mk_ipc_attr_key 0 None 0.

Definition ipc_attr_key_switch (tag : Z) : option (reader ipc_attr_key) :=
  match tag with
  | 1 => Some (R32 (λ v msg, mk_ipc_attr_key v msg.(ak_key) msg.(ak_key_len)))
  | 2 => Some (RBytes (λ d l msg, mk_ipc_attr_key msg.(ak_txn_id) d l))
  | _ => None
  end.

#[export] Instance ipc_attr_key_message : Message ipc_attr_key :=
  { fields_of := ipc_attr_key_fields; switch_of := ipc_attr_key_switch; zero_of := ipc_attr_key_zero }.

Definition ipc_attr_key_encode (msg : ipc_attr_key) (buf : list Z) (len : Z) : option (Z * list Z) := encode msg buf len.
Definition ipc_attr_key_decode (buf : list Z) (len : Z) : option (option (Z * ipc_attr_key)) := decode ipc_attr_key buf len.

(** ** [ipc_attr_entries] *)

Record ipc_attr_entries := mk_ipc_attr_entries { ae_entries : bptr; ae_entries_len : Z }.

Definition ipc_attr_entries_fields (msg : ipc_attr_entries) : list field :=
  [FBytes 1 msg.(ae_entries) msg.(ae_entries_len)].

Definition ipc_attr_entries_zero : ipc_attr_entries := mk_ipc_attr_entries None 0.

Definition ipc_attr_entries_switch (tag : Z) : option (reader ipc_attr_entries) :=
  match tag with
  | 1 => Some (RBytes (λ d l _, mk_ipc_attr_entries d l))
  | _ => None
  end.

#[export] Instance ipc_attr_entries_message : Message ipc_attr_entries :=
  { fields_of := ipc_attr_entries_fields; switch_of := ipc_attr_entries_switch; zero_of := ipc_attr_entries_zero }.

Definition ipc_attr_entries_encode (msg : ipc_attr_entries) (buf : list Z) (len : Z) : option (Z * list Z) := encode msg buf len.
Definition ipc_attr_entries_decode (buf : list Z) (len : Z) : option (option (Z * ipc_attr_entries)) := decode ipc_attr_entries buf len.

(** ** Every message keeps the promises of the interface *)

Ltac invert_fields :=
  repeat match goal with
  | H : Forall2 same_field [] _ |- _ => inversion_clear H
  | H : Forall2 same_field (_ :: _) _ |- _ => inversion_clear H
  | H : same_field (FBytes _ _ _) ?g |- _ => destruct g; try discriminate H; destruct H as (<- & <- & _)
  | H : same_field _ _ |- _ => cbn [same_field] in H; subst
  end.

Ltac message_laws inst fields switch zero :=
  split;
  [ done
  | intros []; cbn [fields_of switch_of inst]; unfold fields; rewrite ?Forall_cons; cbn; repeat constructor
  | intros [] fs Hs; cbn [fields_of inst] in Hs; unfold fields in Hs; cbn in Hs; invert_fields; reflexivity
  | unfold msg_ok; cbn [fields_of inst]; unfold fields, zero; rewrite ?Forall_cons; unfold field_ok; cbn;
    repeat (apply conj || apply Forall_nil_2); (lia || done || constructor)
  | intros n r Hr; cbn [switch_of inst] in Hr; unfold switch in Hr; repeat case_match; simplify_eq; cbn [reader_ok]; intros [];
    unfold msg_ok, inside; cbn [fields_of inst]; unfold fields; intros;
    repeat match goal with H : context [Forall _ (_ :: _)] |- _ => rewrite Forall_cons in H end; rewrite ?Forall_cons;
    unfold field_ok in *; cbn in *; tauto ].

#[export] Instance ipc_size_laws : MessageLaws ipc_size.
Proof. message_laws ipc_size_message ipc_size_fields ipc_size_switch ipc_size_zero. Qed.

#[export] Instance ipc_attach_laws : MessageLaws ipc_attach.
Proof. message_laws ipc_attach_message ipc_attach_fields ipc_attach_switch ipc_attach_zero. Qed.

#[export] Instance ipc_attach_reply_laws : MessageLaws ipc_attach_reply.
Proof. message_laws ipc_attach_reply_message ipc_attach_reply_fields ipc_attach_reply_switch ipc_attach_reply_zero. Qed.

#[export] Instance ipc_win_id_laws : MessageLaws ipc_win_id.
Proof. message_laws ipc_win_id_message ipc_win_id_fields ipc_win_id_switch ipc_win_id_zero. Qed.

#[export] Instance ipc_win_entry_laws : MessageLaws ipc_win_entry.
Proof. message_laws ipc_win_entry_message ipc_win_entry_fields ipc_win_entry_switch ipc_win_entry_zero. Qed.

#[export] Instance ipc_win_resize_laws : MessageLaws ipc_win_resize.
Proof. message_laws ipc_win_resize_message ipc_win_resize_fields ipc_win_resize_switch ipc_win_resize_zero. Qed.

#[export] Instance ipc_attr_txn_ok_laws : MessageLaws ipc_attr_txn_ok.
Proof. message_laws ipc_attr_txn_ok_message ipc_attr_txn_ok_fields ipc_attr_txn_ok_switch ipc_attr_txn_ok_zero. Qed.

#[export] Instance ipc_attr_kv_laws : MessageLaws ipc_attr_kv.
Proof. message_laws ipc_attr_kv_message ipc_attr_kv_fields ipc_attr_kv_switch ipc_attr_kv_zero. Qed.

#[export] Instance ipc_attr_key_laws : MessageLaws ipc_attr_key.
Proof. message_laws ipc_attr_key_message ipc_attr_key_fields ipc_attr_key_switch ipc_attr_key_zero. Qed.

#[export] Instance ipc_attr_entries_laws : MessageLaws ipc_attr_entries.
Proof. message_laws ipc_attr_entries_message ipc_attr_entries_fields ipc_attr_entries_switch ipc_attr_entries_zero. Qed.

(** ** Properties *)

(** C20: every message is read back as it was written.  When the buffer has room,
    the encoder answers the length of the message and writes its bytes at the
    front of the buffer and nothing else; the decoder, given these bytes with
    anything after them, answers the same length and a message with the same
    numbers and strings.  When it has not, the encoder answers -1 and stays
    inside the buffer. *)
Theorem message_roundtrip {A : Type} `{MessageLaws A} (m : A) (buf : list Z) (len : Z) :
  msg_ok m → zlen (wire m) <= 65537 → 0 <= len <= zlen buf →
  yields (encode m buf len) (λ x,
    zlen x.2 = zlen buf ∧
    if zlen (wire m) <=? len
    then x.1 = zlen (wire m) ∧
         (∀ i, aget x.2 i = if (0 <=? i) && (i <? x.1) then aget (wire m) i else aget buf i) ∧
         (∀ len', x.1 <= len' <= zlen buf → ∃ m', decode A x.2 len' = Some (Some (x.1, m')) ∧ same_message m m')
    else x.1 = -1).
Proof.
  intros Hm Hsz Hlen. destruct (Z.leb_spec (zlen (wire m)) len) as [Hfit|Hshort].
  - eapply yields_mono; [apply encode_wire; (done || lia) |]. intros x [E Hw]. split; [apply Hw |]. split; [done |]. split.
    + intros i. rewrite (proj2 Hw), E, Z.sub_0_r, Z.add_0_l. done.
    + intros len' Hl. rewrite E. destruct Hw as [Hz Hw]. apply decode_wire; (done || lia || idtac).
      eapply wrote_has; [done | split; done].
  - eapply yields_mono; [apply ms_encode_ok; [apply fields_some | done | lia] |].
    intros x [Hz Hx]. split; [done |]. fold (wire m) in Hx. by rewrite (proj2 (Z.leb_gt _ _)) in Hx by lia.
Qed.

(** A decoder can be given any bytes: it never reads outside the first [len]
    of them, and answers -1 or a message whose end is among them, whose numbers
    fit their types and whose strings have the bytes their lengths say. *)
Theorem decode_any_bytes {A : Type} `{MessageLaws A} (buf : list Z) (len : Z) :
  Forall is_byte buf → len <= zlen buf →
  yields (decode A buf len) (λ r, match r with Some (end_, m) => 2 <= end_ <= len ∧ msg_ok m | None => True end).
Proof. intros Hb Hl. exact (decode_any buf len Hb Hl). Qed.

(** What a decoder makes of another message's fields. *)
Lemma decode_as {A : Type} `{Message A} (fs : list field) buf len :
  Forall field_ok fs → Forall (agrees switch_of) fs → zlen (message_bytes fs) <= 65537 →
  zlen (message_bytes fs) <= len <= zlen buf → has_at buf 0 (message_bytes fs) →
  ∃ fs', Forall2 same_field fs fs' ∧
    decode A buf len = Some (Some (zlen (message_bytes fs), foldl (apply_field switch_of) zero_of fs')).
Proof.
  intros Hok Hag Hsz Hlen Hat. apply ms_decode_ok; try done; [| lia..]. rewrite zlen_message in Hsz. lia.
Qed.

(** [decode_as], of the bytes of a message with anything after them. *)
Lemma decode_front {A : Type} `{Message A} (fs : list field) tail :
  Forall field_ok fs → Forall (agrees switch_of) fs → zlen (message_bytes fs) <= 65537 →
  ∃ fs', Forall2 same_field fs fs' ∧
    decode A (message_bytes fs ++ tail) (zlen (message_bytes fs ++ tail)) =
    Some (Some (zlen (message_bytes fs), foldl (apply_field switch_of) zero_of fs')).
Proof.
  intros Hok Hag Hsz. apply decode_as; try done; [rewrite zlen_app; pose proof (zlen_nonneg tail); lia |].
  intros i Hi. rewrite Z.add_0_l, aget_app by lia. by zbool.
Qed.

(** What a version without the pixel sizes sends as [ipc_size]. *)
Definition old_size_fields (rows cols : Z) : list field := [F16 1 rows; F16 2 cols].

(** The fields of an attach message, read with the switch of another message. *)
Ltac handshake_fields := unfold ipc_size_fields, ipc_attach_fields, ipc_attach_reply_fields, old_size_fields.

Ltac decode_other :=
  match goal with
  | |- context [decode ?A (message_bytes ?fs ++ ?tail) _] =>
      let fs' := fresh in let Hs := fresh in let E := fresh in
      edestruct (decode_front (A := A) fs tail) as (fs' & Hs & E);
      [ eassumption
      | handshake_fields; rewrite ?Forall_cons; once (cbn; repeat constructor)
      | eassumption || (vm_compute; discriminate)
      | rewrite E; clear E; revert Hs; handshake_fields; intros Hs; invert_fields; reflexivity ]
  end.

(** A buffer that starts with the given bytes, decoded. *)
Definition front {A} (decode : list Z → Z → option (option (Z * A))) (bs tail : list Z) : option (option (Z * A)) :=
  decode (bs ++ tail) (zlen (bs ++ tail)).

(** The messages of the attach handshake stand in for each other: an
    [ipc_attach] read as an [ipc_size] gives its size and cell size, an
    [ipc_attach_reply] its size and no cell size; an [ipc_size], new or from a
    peer that has no cell sizes, read as [ipc_attach] asks for nothing but its
    size, and read as [ipc_attach_reply] grants role 0, which is WRITE. *)
Theorem handshake_compatible (at_ : ipc_attach) (rep : ipc_attach_reply) (sz : ipc_size) (tail : list Z) :
  msg_ok at_ → zlen (wire at_) <= 65537 → msg_ok rep → msg_ok sz →
  let old := message_bytes (old_size_fields sz.(sz_rows) sz.(sz_cols)) in
  front ipc_size_decode (wire at_) tail =
    Some (Some (zlen (wire at_), mk_ipc_size at_.(at_rows) at_.(at_cols) at_.(at_cell_pw) at_.(at_cell_ph))) ∧
  front ipc_size_decode (wire rep) tail =
    Some (Some (zlen (wire rep), mk_ipc_size rep.(rep_rows) rep.(rep_cols) 0 0)) ∧
  front ipc_attach_decode (wire sz) tail =
    Some (Some (zlen (wire sz),
      mk_ipc_attach sz.(sz_rows) sz.(sz_cols) 0 0 None 0 sz.(sz_cell_pw) sz.(sz_cell_ph))) ∧
  front ipc_attach_decode old tail =
    Some (Some (zlen old, mk_ipc_attach sz.(sz_rows) sz.(sz_cols) 0 0 None 0 0 0)) ∧
  front ipc_attach_reply_decode (wire sz) tail =
    Some (Some (zlen (wire sz), mk_ipc_attach_reply sz.(sz_rows) sz.(sz_cols) 0 0)) ∧
  front ipc_attach_reply_decode old tail =
    Some (Some (zlen old, mk_ipc_attach_reply sz.(sz_rows) sz.(sz_cols) 0 0)).
Proof.
  intros Ha Hsz Hr Hs. assert (Forall field_ok (old_size_fields sz.(sz_rows) sz.(sz_cols))) as Ho.
  { unfold msg_ok in Hs. cbn [fields_of ipc_size_message] in Hs. unfold ipc_size_fields in Hs.
    rewrite !Forall_cons in Hs. unfold old_size_fields. rewrite !Forall_cons. tauto. }
  cbn zeta beta. unfold wire, msg_ok in *.
  cbn [fields_of ipc_size_message ipc_attach_message ipc_attach_reply_message] in *.
  unfold front, ipc_size_decode, ipc_attach_decode, ipc_attach_reply_decode.
  repeat split.
  - decode_other.
  - decode_other.
  - decode_other.
  - decode_other.
  - decode_other.
  - decode_other.
Qed.

(** ** Instances *)

Definition at0 : ipc_attach := mk_ipc_attach 24 80 1 4660 (Some [109; 101; 0]) 2 9 18.
Definition rep0 : ipc_attach_reply := mk_ipc_attach_reply 24 80 1 3.
Definition sz0 : ipc_size := mk_ipc_size 50 132 10 20.

Ltac message_ok :=
  unfold msg_ok; repeat (apply Forall_cons_2; [unfold field_ok; repeat apply conj; first [apply bytes_ok; reflexivity | by vm_compute] |]); apply Forall_nil_2.

Lemma message_roundtrip_witness :
  yields (encode at0 (replicate 64 0) 64) (λ x,
    zlen x.2 = zlen (replicate 64 0) ∧
    if zlen (wire at0) <=? 64
    then x.1 = zlen (wire at0) ∧
         (∀ i, aget x.2 i = if (0 <=? i) && (i <? x.1) then aget (wire at0) i else aget (replicate 64 0) i) ∧
         (∀ len', x.1 <= len' <= zlen (replicate 64 0) →
            ∃ m', decode ipc_attach x.2 len' = Some (Some (x.1, m')) ∧ same_message at0 m')
    else x.1 = -1).
Proof. apply (message_roundtrip at0 (replicate 64 0) 64); [message_ok | by vm_compute | by vm_compute]. Defined.

Lemma decode_any_bytes_witness :
  yields (decode ipc_attr_kv [8; 0; 17; 2; 0; 104; 105; 255; 255; 255] 10)
    (λ r, match r with Some (end_, m) => 2 <= end_ <= 10 ∧ msg_ok m | None => True end).
Proof.
  apply (decode_any_bytes (A := ipc_attr_kv) [8; 0; 17; 2; 0; 104; 105; 255; 255; 255] 10); [by apply bytes_ok | done].
Defined.

Lemma handshake_compatible_witness :
  front ipc_attach_reply_decode (wire sz0) [7; 7] = Some (Some (14, mk_ipc_attach_reply 50 132 0 0)).
Proof. apply (handshake_compatible at0 rep0 sz0 [7; 7]); [message_ok | by vm_compute | message_ok | message_ok]. Defined.
