(* ===== verification/IpcMsg.v ===== *)
(** * Framed messages on a descriptor: src/libipc/ipc_msg.c

    A message on a socket is eight bytes of header, type and length in network
    byte order, and the payload.  The kernel's side of a descriptor is a
    schedule: what each [read] will answer and how much each [write] will take;
    interrupted calls, short reads and short writes are all in it.  Proved for
    every schedule: what is sent is what is received, in order. *)

From S2P Require Import Prelude Microser LumiMsg.

(** ** A connected descriptor *)

(** The next answer of [read]: EINTR, another error, or the bytes that have
    arrived (of which a call takes what it asked for, the rest staying).  When
    the schedule ends the peer has closed, and [read] answers 0. *)
Inductive rd := RIntr | RFail | RData (bs : list Z).

(** The next answer of [write]: EINTR, another error, or how many bytes it takes
    at most.  When the schedule ends the peer has closed: EPIPE. *)
Inductive wr := WIntr | WFail | WTook (n : Z).

Record conn := mk_conn { c_rd : list rd; c_wr : list wr; c_sent : list Z }.

(** 0, -1 on error or 1 at end of file; the bytes stored; the schedule left. *)
Fixpoint read_full (evs : list rd) (left : Z) : Z * list Z * list rd :=
  if left <=? 0 then (0, [], evs) else
  match evs with
  | [] => (1, [], [])
  | RIntr :: evs => read_full evs left
  | RFail :: evs => (-1, [], evs)
  | RData bs :: evs =>
      let got := take (Z.to_nat left) bs in
      if zlen got =? 0 then (1, [], evs)
      else if left <? zlen bs then (0, got, RData (drop (Z.to_nat left) bs) :: evs)
      else let '(rc, more, evs) := read_full evs (left - zlen got) in (rc, got ++ more, evs)
  end.

(** 0 or -1; the bytes taken; the schedule left. *)
Fixpoint write_full (evs : list wr) (bs : list Z) : Z * list Z * list wr :=
  if zlen bs <=? 0 then (0, [], evs) else
  match evs with
  | [] => (-1, [], [])
  | WIntr :: evs => write_full evs bs
  | WFail :: evs => (-1, [], evs)
  | WTook n :: evs =>
      let w := Z.to_nat n in
      let '(rc, more, evs) := write_full evs (drop w bs) in (rc, take w bs ++ more, evs)
  end.

(** [write_full(fd, ...)] and [read_full(fd, buf, n)]: the bytes go to the front
    of the buffer, and there must be room. *)
Definition conn_write (c : conn) (bs : list Z) : Z * conn :=
  let '(rc, sent, evs) := write_full c.(c_wr) bs in (rc, mk_conn c.(c_rd) evs (c.(c_sent) ++ sent)).

Definition store (buf : list Z) (bs : list Z) : option (list Z) :=
  if zlen bs <=? zlen buf then Some (bs ++ drop (length bs) buf) else None.

Definition conn_read (c : conn) (buf : list Z) (n : Z) : option (Z * list Z * conn) :=
  let '(rc, got, evs) := read_full c.(c_rd) n in
  buf ← store buf got;
  Some (rc, buf, mk_conn evs c.(c_wr) c.(c_sent)).

(** ** Messages *)

Definition IPC_HDR_SIZE : Z := 8.
Definition IPC_MAX_PAYLOAD : Z := 64 * 1024.

(** The bytes of [BE32(v)] in memory. *)
Definition be32 (v : Z) : list Z := [byte_of v 3; byte_of v 2; byte_of v 1; byte_of v 0].

Definition get_be32 (b : list Z) (at_ : Z) : option Z :=
  b0 ← aget b at_; b1 ← aget b (at_ + 1); b2 ← aget b (at_ + 2); b3 ← aget b (at_ + 3);
  Some (Z.lor (Z.lor (Z.lor (Z.shiftl b0 24) (Z.shiftl b1 16)) (Z.shiftl b2 8)) b3).

(** The first [len] bytes at a pointer, which a [write] reads. *)
Definition bytes_at (p : bptr) (len : Z) : option (list Z) :=
  if len <=? 0 then Some [] else
  b ← p; if len <=? zlen b then Some (take (Z.to_nat len) b) else None.

Definition ipc_msg_send (c : conn) (type : Z) (payload : bptr) (len : Z) : option (Z * conn) :=
  let '(rc, c) := conn_write c (be32 type ++ be32 len) in
  if rc <? 0 then Some (-1, c) else
  if 0 <? len then
    bs ← bytes_at payload len;
    let '(rc, c) := conn_write c bs in
    Some (if rc <? 0 then (-1, c) else (0, c))
  else Some (0, c).

Definition ipc_msg_send_empty (c : conn) (type : Z) : option (Z * conn) := ipc_msg_send c type None 0.

Definition ipc_msg_frame (out : list Z) (outsz type : Z) (payload : bptr) (len : Z) : option (Z * list Z) :=
  if outsz <? IPC_HDR_SIZE + len then Some (-1, out) else
  out ← copy_in out 0 (Some (be32 type ++ be32 len)) IPC_HDR_SIZE;
  out ← copy_in out IPC_HDR_SIZE payload len;
  Some (IPC_HDR_SIZE + len, out).

(** [cell_pw] and [cell_ph] of [sz] are not set: they are what the stack holds. *)
Definition ipc_msg_send_size (stack_pw stack_ph : Z) (c : conn) (type rows cols : Z) : option (Z * conn) :=
  let sz := mk_ipc_size (u16 rows) (u16 cols) stack_pw stack_ph in
  '(n, buf) ← ipc_size_encode sz (replicate 16 0) 16;
  if n <? 0 then Some (-1, c) else ipc_msg_send c type (Some buf) (u32 n).

(** The excess of a payload, read into [discard]. *)
Fixpoint discard_excess (fuel : nat) (c : conn) (left : Z) : option (Z * conn) :=
  if left <=? 0 then Some (0, c) else
  match fuel with
  | O => None
  | S fuel =>
      let chunk := if left <? 256 then left else 256 in
      '(rc, _, c) ← conn_read c (replicate 256 0) chunk;
      if negb (rc =? 0) then Some (rc, c) else discard_excess fuel c (left - chunk)
  end.

(** What a receiver gets: the return value, the buffer, and the type and length
    once they are stored. *)
Record received := mk_received { r_rc : Z; r_buf : list Z; r_type : option Z; r_len : option Z }.

Definition ipc_msg_recv (c : conn) (buf : list Z) (bufsz : Z) : option (received * conn) :=
  '(rc, hdr, c) ← conn_read c (replicate 8 0) 8;
  if negb (rc =? 0) then Some (mk_received rc buf None None, c) else
  type ← get_be32 hdr 0;
  len ← get_be32 hdr 4;
  if IPC_MAX_PAYLOAD <? len then Some (mk_received (-1) buf None None, c) else
  if len =? 0 then Some (mk_received 0 buf (Some type) (Some len), c) else
  if len <=? u32 bufsz then
    '(rc, buf, c) ← conn_read c buf len;
    Some (mk_received rc buf (Some type) (Some len), c)
  else
    '(rc, buf, c) ← conn_read c buf bufsz;
    if negb (rc =? 0) then Some (mk_received rc buf (Some type) (Some len), c) else
    '(rc, c) ← discard_excess (Z.to_nat len) c (len - u32 bufsz);
    Some (mk_received rc buf (Some type) (Some (u32 bufsz)), c).

(** ** Writing *)

(** The bytes of a message on the wire. *)
Definition frame (type : Z) (bs : list Z) : list Z := be32 type ++ be32 (zlen bs) ++ bs.

Lemma write_full_ok evs : ∀ bs,
  let '(rc, sent, _) := write_full evs bs in
  (rc = 0 ∧ sent = bs) ∨ (rc = -1 ∧ ∃ rest, rest ≠ [] ∧ bs = sent ++ rest).
Proof.
  induction evs as [|e evs IH]; intros bs; cbn [write_full]; pose proof (zlen_nonneg bs) as Hn;
    destruct (Z.leb_spec (zlen bs) 0) as [Hz|Hz];
    try (left; split; [done |]; symmetry; apply length_zero_iff_nil; unfold zlen in *; lia).
  - right. split; [done |]. exists bs. split; [by intros -> | done].
  - destruct e as [| |n].
    + apply IH.
    + right. split; [done |]. exists bs. split; [by intros -> | done].
    + specialize (IH (drop (Z.to_nat n) bs)). destruct (write_full evs (drop (Z.to_nat n) bs)) as [[rc more] evs'].
      destruct IH as [[-> ->]|(-> & rest & Hr & E)]; [left | right]; (split; [done |]).
      * apply take_drop.
      * exists rest. split; [done |]. by rewrite <- app_assoc, <- E, take_drop.
Qed.

(** [c'] is [c] after it has sent [bs], or, when the call failed, some of it. *)
Definition sent (c c' : conn) (rc : Z) (bs : list Z) : Prop :=
  c'.(c_rd) = c.(c_rd) ∧
  ((rc = 0 ∧ c'.(c_sent) = c.(c_sent) ++ bs) ∨
   (rc = -1 ∧ ∃ part rest, rest ≠ [] ∧ bs = part ++ rest ∧ c'.(c_sent) = c.(c_sent) ++ part)).

Lemma conn_write_ok c bs : let '(rc, c') := conn_write c bs in sent c c' rc bs.
Proof.
  unfold conn_write. pose proof (write_full_ok c.(c_wr) bs) as H. destruct (write_full c.(c_wr) bs) as [[rc part] evs].
  split; [done |]. destruct H as [[-> ->]|(-> & rest & Hr & E)]; [by left | right]. split; [done |]. by exists part, rest.
Qed.

Lemma bytes_at_ok p len : 0 <= len → len <= zlen (deref p) → bytes_at p len = Some (take (Z.to_nat len) (deref p)).
Proof.
  intros Hl Hp. unfold bytes_at. destruct (Z.leb_spec len 0).
  - by replace len with 0 by lia.
  - destruct p as [b|]; [| change (zlen (deref None)) with 0 in Hp; lia]. cbn [mbind option_bind].
    cbn in Hp. rewrite (proj2 (Z.leb_le _ _)) by lia. done.
Qed.

Lemma ipc_msg_send_ok c type p len :
  0 <= len → len <= zlen (deref p) →
  yields (ipc_msg_send c type p len) (λ x, sent c x.2 x.1 (frame type (take (Z.to_nat len) (deref p)))).
Proof.
  intros Hl Hp. unfold ipc_msg_send, frame. rewrite zlen_take by lia.
  pose proof (conn_write_ok c (be32 type ++ be32 len)) as H. destruct (conn_write c (be32 type ++ be32 len)) as [rc c1].
  destruct H as [Hrd [[-> Hs]|(-> & part & rest & Hr & E & Hs)]].
  - change (0 <? 0) with false. cbv iota. destruct (Z.ltb_spec 0 len).
    + rewrite bytes_at_ok by lia. cbn [mbind option_bind].
      pose proof (conn_write_ok c1 (take (Z.to_nat len) (deref p))) as H2.
      destruct (conn_write c1 (take (Z.to_nat len) (deref p))) as [rc2 c2]. destruct H2 as [Hrd2 H2].
      destruct H2 as [[-> Hs2]|(-> & part & rest & Hr & E & Hs2)];
        [change (0 <? 0) with false | change (-1 <? 0) with true]; cbn [yields fst snd]; (split; [cbn; congruence |]); cbn [fst snd].
      * left. split; [done |]. by rewrite Hs2, Hs, <- !app_assoc.
      * right. split; [done |]. exists (be32 type ++ be32 len ++ part), rest. split; [done |].
        rewrite E, Hs2, Hs, <- !app_assoc. done.
    + cbn [yields]. split; [done |]. left. split; [done |]. replace len with 0 by lia. cbn [fst snd].
      rewrite Hs. replace len with 0 by lia. by rewrite take_0, app_nil_r.
  - change (-1 <? 0) with true. cbv iota. cbn [yields]. split; [done |]. right. split; [done |].
    exists part, (rest ++ take (Z.to_nat len) (deref p)). split; [by destruct rest |]. cbn [fst snd].
    rewrite !app_assoc, E, <- !app_assoc. done.
Qed.

(** ** Reading *)

(** A schedule in which the peer goes on sending, and the bytes it sends. *)
Definition arriving (evs : list rd) : Prop := Forall (λ e, match e with RIntr => True | RFail => False | RData bs => bs ≠ [] end) evs.

Definition stream (evs : list rd) : list Z := concat (map (λ e, match e with RData bs => bs | _ => [] end) evs).

Lemma stream_cons e evs : stream (e :: evs) = match e with RData bs => bs | _ => [] end ++ stream evs.
Proof. done. Qed.

(** Bytes that have arrived are read, however they came. *)
Lemma read_full_arrived evs : ∀ n,
  arriving evs → 0 <= n <= zlen (stream evs) →
  ∃ evs', read_full evs n = (0, take (Z.to_nat n) (stream evs), evs') ∧ arriving evs' ∧ stream evs' = drop (Z.to_nat n) (stream evs).
Proof.
  induction evs as [|e evs IH]; intros n Hev Hn; cbn [read_full].
  - change (zlen (stream [])) with 0 in Hn. replace n with 0 by lia. change (0 <=? 0) with true. by exists [].
  - apply Forall_cons in Hev as [He Hevs]. destruct (Z.leb_spec n 0).
    + replace n with 0 by lia. exists (e :: evs). split; [done |]. split; [by constructor | done].
    + destruct e as [| |bs].
      * apply IH; [done |]. exact Hn.
      * done.
      * rewrite stream_cons in *. rewrite zlen_app in Hn. assert (0 < zlen bs) by (destruct bs; [done | rewrite zlen_cons; pose proof (zlen_nonneg bs); lia]).
        assert (zlen (take (Z.to_nat n) bs) = n `min` zlen bs) as Hz by (unfold zlen; rewrite length_take; lia).
        rewrite (proj2 (Z.eqb_neq _ _)) by lia. destruct (Z.ltb_spec n (zlen bs)) as [Hlt|Hge].
        -- exists (RData (drop (Z.to_nat n) bs) :: evs). unfold zlen in Hlt.
           rewrite take_app_le, drop_app_le by lia. split; [done |]. split; [| done].
           constructor; [| done]. intros E%(f_equal length). rewrite length_drop in E. cbn in E. lia.
        -- destruct (IH (n - zlen bs)) as (evs' & E & Hev' & Hs); [done | lia |].
           rewrite Hz, Z.min_r, E by lia. exists evs'. unfold zlen in Hge.
           rewrite (take_ge bs) by lia. rewrite take_app_ge, drop_app_ge by lia.
           replace (Z.to_nat n - length bs)%nat with (Z.to_nat (n - zlen bs)) by (unfold zlen; lia).
           by rewrite Hs.
Qed.

Ltac nothing_read := split_and!; [by auto | by constructor | change (zlen []) with 0; lia | change (zlen []) with 0; lia | by auto].

(** Whatever the schedule, no more is stored than was asked for, and it is what came. *)
Lemma read_full_any evs : ∀ n,
  Forall (λ e, match e with RData bs => Forall is_byte bs | _ => True end) evs →
  let '(rc, got, evs') := read_full evs n in
  (rc = 0 ∨ rc = -1 ∨ rc = 1) ∧ Forall is_byte got ∧ zlen got <= n `max` 0 ∧ (rc = 0 → zlen got = n `max` 0) ∧
  Forall (λ e, match e with RData bs => Forall is_byte bs | _ => True end) evs'.
Proof.
  induction evs as [|e evs IH]; intros n Hev; cbn [read_full]; (destruct (Z.leb_spec n 0); [nothing_read |]).
  - nothing_read.
  - pose proof Hev as [He Hevs]%Forall_cons. destruct e as [| |bs].
    + by apply IH.
    + nothing_read.
    + assert (zlen (take (Z.to_nat n) bs) = n `min` zlen bs) as Hz by (unfold zlen; rewrite length_take; lia).
      pose proof (zlen_nonneg bs). destruct (Z.eqb_spec (zlen (take (Z.to_nat n) bs)) 0).
      { nothing_read. }
      destruct (Z.ltb_spec n (zlen bs)).
      * split_and!; [auto | by apply Forall_take | lia | lia |]. constructor; [by apply Forall_drop | done].
      * specialize (IH (n - zlen (take (Z.to_nat n) bs)) Hevs).
        destruct (read_full evs (n - zlen (take (Z.to_nat n) bs))) as [[rc more] evs'].
        destruct IH as (Hrc & Hb & Hle & Heq & Hr). split_and!; [done | apply Forall_app; split; [by apply Forall_take | done] | | | done].
        -- rewrite zlen_app. lia.
        -- intros E. rewrite zlen_app. specialize (Heq E). lia.
Qed.

(** ** Receiving *)

Lemma get_be32_at b pos v : 0 <= v < 2 ^ 32 → has_at b pos (be32 v) → get_be32 b pos = Some v.
Proof.
  intros Hv (E0 & (E1 & (E2 & (E3 & _)%has_at_cons)%has_at_cons)%has_at_cons)%has_at_cons. unfold get_be32.
  replace (pos + 1 + 1) with (pos + 2) in * by lia. replace (pos + 2 + 1) with (pos + 3) in * by lia.
  rewrite E0, E1, E2, E3. cbn [mbind option_bind]. f_equal. etransitivity; [| exact (u32_bytes v Hv)].
  by rewrite (Z.lor_comm _ (byte_of v 0)), (Z.lor_comm _ (Z.shiftl (byte_of v 1) 8)), (Z.lor_comm (Z.shiftl _ 24)), !Z.lor_assoc.
Qed.

(** [conn_read] when the bytes have arrived. *)
Lemma conn_read_arrived c buf n :
  arriving c.(c_rd) → 0 <= n <= zlen (stream c.(c_rd)) → n <= zlen buf →
  ∃ evs, conn_read c buf n =
    Some (0, take (Z.to_nat n) (stream c.(c_rd)) ++ drop (Z.to_nat n) buf, mk_conn evs c.(c_wr) c.(c_sent)) ∧
    arriving evs ∧ stream evs = drop (Z.to_nat n) (stream c.(c_rd)).
Proof.
  intros Hc Hn Hb. unfold conn_read. destruct (read_full_arrived _ _ Hc Hn) as (evs & -> & He & Hs).
  unfold store. rewrite zlen_take by lia. rewrite (proj2 (Z.leb_le _ _)) by lia. cbn [mbind option_bind].
  exists evs. split; [| done]. do 4 f_equal. unfold zlen in Hn. rewrite length_take. f_equal. lia.
Qed.

Lemma discard_excess_ok fuel : ∀ c left,
  arriving c.(c_rd) → left <= zlen (stream c.(c_rd)) → left <= Z.of_nat fuel →
  ∃ evs, discard_excess fuel c left = Some (0, mk_conn evs c.(c_wr) c.(c_sent)) ∧ arriving evs ∧
    stream evs = drop (Z.to_nat left) (stream c.(c_rd)).
Proof.
  induction fuel as [|fuel IH]; intros c left Hc Hl Hf; cbn [discard_excess]; destruct (Z.leb_spec left 0).
  1,3: exists c.(c_rd); split; [by destruct c |]; split; [done |]; by replace (Z.to_nat left) with 0%nat by lia.
  - lia.
  - set (chunk := if left <? 256 then left else 256).
    assert (0 < chunk <= left ∧ chunk <= 256) as Hch by (unfold chunk; destruct (Z.ltb_spec left 256); lia).
    destruct (conn_read_arrived c (replicate 256 0) chunk) as (evs & -> & He & Hs); [done | lia | change (zlen _) with 256; lia |].
    cbn [mbind option_bind]. change (negb (0 =? 0)) with false. cbv iota.
    destruct (IH (mk_conn evs c.(c_wr) c.(c_sent)) (left - chunk)) as (evs' & -> & He' & Hs'); cbn [c_rd]; try done.
    + rewrite Hs, zlen_drop by lia. lia.
    + lia.
    + exists evs'. split; [done |]. split; [done |]. cbn [c_rd] in Hs'. rewrite Hs', Hs, drop_drop. f_equal. lia.
Qed.

Lemma be32_at b v rest : b = be32 v ++ rest → has_at b 0 (be32 v).
Proof. intros -> i Hi. rewrite Z.add_0_l, aget_app by lia. by zbool. Qed.

(** The two fields of a header. *)
Lemma header_type type len : 0 <= type < 2 ^ 32 → get_be32 (be32 type ++ be32 len) 0 = Some type.
Proof. intros. apply get_be32_at; [done |]. by eapply be32_at. Qed.

Lemma header_len type len : 0 <= len < 2 ^ 32 → get_be32 (be32 type ++ be32 len) 4 = Some len.
Proof.
  intros. apply get_be32_at; [done |]. intros i Hi. change (zlen (be32 _)) with 4 in Hi. rewrite aget_app by lia.
  change (zlen (be32 _)) with 4. zbool. f_equal. lia.
Qed.

(** A message that has arrived is received: its type, its bytes as far as the
    buffer goes, and nothing of what follows it. *)
Lemma ipc_msg_recv_ok c buf bufsz type bs rest :
  arriving c.(c_rd) → stream c.(c_rd) = frame type bs ++ rest → 0 <= type < 2 ^ 32 → zlen bs <= IPC_MAX_PAYLOAD →
  0 <= bufsz < 2 ^ 32 → bufsz <= zlen buf →
  ∃ evs, ipc_msg_recv c buf bufsz =
    Some (mk_received 0 (take (Z.to_nat bufsz) bs ++ drop (length (take (Z.to_nat bufsz) bs)) buf) (Some type) (Some (zlen bs `min` bufsz)),
          mk_conn evs c.(c_wr) c.(c_sent)) ∧ arriving evs ∧ stream evs = rest.
Proof.
  intros Hc Hs Ht Hlen Hsz Hb. unfold IPC_MAX_PAYLOAD in Hlen. pose proof (zlen_nonneg bs) as Hn.
  assert (zlen (stream (c_rd c)) = 8 + zlen bs + zlen rest) as Hz.
  { rewrite Hs. unfold frame. rewrite !zlen_app. change (zlen (be32 _)) with 4. lia. }
  pose proof (zlen_nonneg rest). unfold ipc_msg_recv.
  destruct (conn_read_arrived c (replicate 8 0) 8) as (evs & -> & He & Hs1); [done | lia | change (zlen _) with 8; lia |].
  cbn [mbind option_bind]. change (negb (0 =? 0)) with false. cbv iota.
  rewrite Hs in Hs1 |- *. change (drop (Z.to_nat 8) (frame type bs ++ rest)) with (bs ++ rest) in Hs1.
  change (take (Z.to_nat 8) (frame type bs ++ rest) ++ drop (Z.to_nat 8) (replicate 8 0)) with (be32 type ++ be32 (zlen bs)).
  rewrite header_type by done. cbn [mbind option_bind].
  rewrite header_len by lia.
  cbn [mbind option_bind]. unfold IPC_MAX_PAYLOAD. rewrite (proj2 (Z.ltb_ge _ _)) by lia.
  unfold u32. rewrite (Z.mod_small bufsz) by lia.
  destruct (Z.eqb_spec (zlen bs) 0) as [H0|H0].
  { destruct bs; [| rewrite zlen_cons in H0; pose proof (zlen_nonneg bs); lia]. exists evs. rewrite take_nil, H0. 
    split; [| done]. do 4 f_equal. lia. }
  destruct (Z.leb_spec (zlen bs) bufsz).
  - destruct (conn_read_arrived (mk_conn evs (c_wr c) (c_sent c)) buf (zlen bs)) as (evs' & -> & He' & Hs'); cbn [c_rd]; [done | rewrite Hs1, zlen_app; lia | lia |].
    cbn [mbind option_bind]. exists evs'. cbn [c_rd c_wr c_sent] in *. rewrite Hs1 in *.
    replace (Z.to_nat (zlen bs)) with (length bs) by (unfold zlen; lia). unfold zlen in *. rewrite take_app_length, (take_ge bs) by lia.
    split; [do 4 f_equal; lia |]. split; [done |]. rewrite Hs'. replace (Z.to_nat (Z.of_nat (length bs))) with (length bs) by lia. apply drop_app_length.
  - destruct (conn_read_arrived (mk_conn evs (c_wr c) (c_sent c)) buf bufsz) as (evs' & -> & He' & Hs'); cbn [c_rd]; [done | rewrite Hs1, zlen_app; lia | lia |].
    cbn [mbind option_bind]. change (negb (0 =? 0)) with false. cbv iota. cbn [c_rd c_wr c_sent] in *. rewrite Hs1 in *.
    destruct (discard_excess_ok (Z.to_nat (zlen bs)) (mk_conn evs' (c_wr c) (c_sent c)) (zlen bs - bufsz)) as (evs2 & -> & He2 & Hs2);
      cbn [c_rd c_wr c_sent]; [done | rewrite Hs', zlen_drop, zlen_app by (rewrite ?zlen_app; lia); lia | lia |].
    cbn [mbind option_bind]. exists evs2. unfold zlen in *.
    split; [rewrite length_take, take_app_le by lia; do 4 f_equal; [f_equal; f_equal; lia | f_equal; lia] |]. split; [done |].
    cbn [c_rd] in Hs2. rewrite Hs2, Hs', drop_drop. replace (Z.to_nat bufsz + Z.to_nat (Z.of_nat (length bs) - bufsz))%nat with (length bs) by lia.
    apply drop_app_length.
Qed.

(** A schedule whose data are bytes. *)
Definition byte_schedule (evs : list rd) : Prop := Forall (λ e, match e with RData bs => Forall is_byte bs | _ => True end) evs.

(** Only the incoming side of the descriptor changed. *)
Definition read_from (c c' : conn) : Prop := c'.(c_wr) = c.(c_wr) ∧ c'.(c_sent) = c.(c_sent) ∧ byte_schedule c'.(c_rd).

Definition return_code (rc : Z) : Prop := rc = 0 ∨ rc = -1 ∨ rc = 1.

Lemma conn_read_any c buf n :
  byte_schedule c.(c_rd) → Forall is_byte buf → 0 <= n <= zlen buf →
  yields (conn_read c buf n) (λ x, return_code x.1.1 ∧ zlen x.1.2 = zlen buf ∧ Forall is_byte x.1.2 ∧ read_from c x.2).
Proof.
  intros Hc Hbuf Hn. unfold conn_read. pose proof (read_full_any c.(c_rd) n Hc) as H.
  destruct (read_full c.(c_rd) n) as [[rc got] evs]. destruct H as (Hrc & Hg & Hle & _ & Hev). unfold store.
  rewrite (proj2 (Z.leb_le _ _)) by lia. cbn [mbind option_bind yields fst snd]. split; [done |]. split.
  - rewrite zlen_app. unfold zlen in *. rewrite length_drop. lia.
  - split; [apply Forall_app; split; [done | by apply Forall_drop] | done].
Qed.

Lemma read_from_trans c1 c2 c3 : read_from c1 c2 → read_from c2 c3 → read_from c1 c3.
Proof. intros (E1 & E2 & _) (E3 & E4 & H). split; [congruence |]. split; [congruence | done]. Qed.

Lemma discard_excess_any fuel : ∀ c left,
  byte_schedule c.(c_rd) → left <= Z.of_nat fuel →
  yields (discard_excess fuel c left) (λ x, return_code x.1 ∧ read_from c x.2).
Proof.
  induction fuel as [|fuel IH]; intros c left Hc Hf; cbn [discard_excess]; destruct (Z.leb_spec left 0).
  1,3: split; [by left | done].
  - lia.
  - set (chunk := if left <? 256 then left else 256).
    assert (0 < chunk <= left ∧ chunk <= 256) as Hch by (unfold chunk; destruct (Z.ltb_spec left 256); lia).
    eapply yields_seq; [apply conn_read_any; [done | by apply bytes_ok | change (zlen _) with 256; lia] |].
    intros [[rc b] c1] (Hrc & _ & _ & H1). cbn [fst snd] in *. case_match; [by split |].
    eapply yields_mono; [apply IH; [apply H1 | lia] |]. intros [rc2 c2] [Hrc2 H2]. split; [done | by eapply read_from_trans].
Qed.

Lemma get_be32_any b pos : Forall is_byte b → 0 <= pos → pos + 4 <= zlen b → yields (get_be32 b pos) (λ v, 0 <= v < 2 ^ 32).
Proof.
  intros Hbuf Hp He. unfold get_be32.
  do 4 (eapply yields_seq; [apply aget_byte; (done || lia) |]; intros ? ?; cbn beta in *). unfold is_byte in *. cbn [yields].
  rewrite <- !Z.lor_assoc. rewrite (Z.lor_comm (Z.shiftl a1 8)), (lor_shift _ _ 8) by (change (2 ^ 8) with 256; lia).
  change (2 ^ 8) with 256. rewrite (Z.lor_comm (Z.shiftl a0 16)), (lor_shift _ _ 16) by (change (2 ^ 16) with 65536; lia).
  change (2 ^ 16) with 65536. rewrite (Z.lor_comm (Z.shiftl a 24)), (lor_shift _ _ 24) by (change (2 ^ 24) with 16777216; lia).
  change (2 ^ 24) with 16777216. change (2 ^ 32) with 4294967296. lia.
Qed.

Lemma ipc_msg_recv_any c buf bufsz :
  byte_schedule c.(c_rd) → Forall is_byte buf → 0 <= bufsz < 2 ^ 32 → bufsz <= zlen buf →
  yields (ipc_msg_recv c buf bufsz) (λ x,
    return_code x.1.(r_rc) ∧ zlen x.1.(r_buf) = zlen buf ∧ Forall is_byte x.1.(r_buf) ∧ read_from c x.2 ∧
    (x.1.(r_rc) = 0 → ∃ type len, x.1.(r_type) = Some type ∧ 0 <= type < 2 ^ 32 ∧ x.1.(r_len) = Some len ∧ 0 <= len <= bufsz)).
Proof.
  intros Hc Hbuf Hsz Hb. unfold ipc_msg_recv.
  eapply yields_seq; [apply conn_read_any; [done | by apply bytes_ok | change (zlen _) with 8; lia] |].
  intros [[rc hdr] c1] (Hrc & Hz & Hh & H1). cbn [fst snd] in *. change (zlen (replicate 8 0)) with 8 in Hz.
  destruct (Z.eqb_spec rc 0) as [->|]; cbn [negb]; [| cbn; by split_and!].
  eapply yields_seq; [apply get_be32_any; (done || lia) |]. intros type Ht. cbn beta in Ht.
  eapply yields_seq; [apply get_be32_any; (done || lia) |]. intros len Hl. cbn beta in Hl.
  destruct (Z.ltb_spec IPC_MAX_PAYLOAD len); [cbn; split_and!; (done || by auto) || (right; by left) |].
  destruct (Z.eqb_spec len 0) as [->|].
  { cbn. split_and!; try done. intros _. exists type, 0. split_and!; (done || lia). }
  unfold u32. rewrite (Z.mod_small bufsz) by lia. destruct (Z.leb_spec len bufsz).
  - eapply yields_seq; [apply conn_read_any; [apply H1 | done | lia] |]. intros [[rc2 b2] c2] (Hrc2 & Hz2 & Hh2 & H2). cbn [fst snd yields r_rc r_buf r_type r_len] in *.
    split_and!; try done; [by eapply read_from_trans |]. intros _. exists type, len. split_and!; (done || lia).
  - eapply yields_seq; [apply conn_read_any; [apply H1 | done | lia] |]. intros [[rc2 b2] c2] (Hrc2 & Hz2 & Hh2 & H2). cbn [fst snd] in *.
    destruct (Z.eqb_spec rc2 0) as [->|]; cbn [negb]; [| cbn; split_and!; try done; by eapply read_from_trans].
    eapply yields_seq; [apply discard_excess_any; [apply H2 | lia] |]. intros [rc3 c3] (Hrc3 & H3). cbn [fst snd yields r_rc r_buf r_type r_len] in *.
    split_and!; try done; [eapply read_from_trans; [exact H1 |]; by eapply read_from_trans |].
    intros _. exists type, bufsz. split_and!; (done || lia).
Qed.

(** *** On any schedule

    A read that succeeds has taken the next bytes that came, whatever comes
    later: an error, the end, or nothing. *)

Lemma read_full_takes evs : ∀ n got evs', 0 <= n → read_full evs n = (0, got, evs') → zlen got = n ∧ stream evs = got ++ stream evs'.
Proof.
  induction evs as [|e evs IH]; intros n got evs' Hn; cbn [read_full]; destruct (Z.leb_spec n 0);
    try (intros [= <- <-]; split; [change (zlen []) with 0; lia | done]); [done |].
  destruct e as [| |bs]; [by apply IH | done |]. pose proof (zlen_nonneg bs).
  assert (zlen (take (Z.to_nat n) bs) = n `min` zlen bs) as Hz by (unfold zlen; rewrite length_take; lia).
  destruct (Z.eqb_spec (zlen (take (Z.to_nat n) bs)) 0); [done |]. rewrite stream_cons. destruct (Z.ltb_spec n (zlen bs)).
  - intros [= <- <-]. split; [lia |]. by rewrite stream_cons, app_assoc, take_drop.
  - destruct (read_full evs (n - zlen (take (Z.to_nat n) bs))) as [[rc more] evs2] eqn:E. intros [= -> <- <-].
    destruct (IH (n - zlen (take (Z.to_nat n) bs)) more evs2 ltac:(lia) E) as [Hm Hs]. rewrite take_ge in * by (unfold zlen in *; lia).
    rewrite zlen_app, Hm, Hs, app_assoc. split; [lia | done].
Qed.

Lemma conn_read_takes c buf n buf' c' : 0 <= n → conn_read c buf n = Some (0, buf', c') →
  ∃ got, zlen got = n ∧ buf' = got ++ drop (length got) buf ∧ stream c.(c_rd) = got ++ stream c'.(c_rd).
Proof.
  intros Hn. unfold conn_read. destruct (read_full (c_rd c) n) as [[rc got] evs] eqn:E. unfold store. case_match; [| done].
  intros [= -> <- <-]. destruct (read_full_takes _ _ _ _ Hn E). by exists got.
Qed.

Lemma discard_excess_takes fuel : ∀ c left c', 0 <= left → discard_excess fuel c left = Some (0, c') →
  ∃ got, zlen got = left ∧ stream c.(c_rd) = got ++ stream c'.(c_rd).
Proof.
  induction fuel as [|fuel IH]; intros c left c' Hl; cbn [discard_excess]; destruct (Z.leb_spec left 0); try done;
    try (intros [= <-]; exists []; split; [change (zlen []) with 0; lia | done]).
  set (chunk := if left <? 256 then left else 256).
  assert (0 < chunk <= left) as Hch by (unfold chunk; destruct (Z.ltb_spec left 256); lia).
  destruct (conn_read c (replicate 256 0) chunk) as [[[rc b] c1]|] eqn:E; [| done]. cbn [mbind option_bind].
  destruct (Z.eqb_spec rc 0) as [->|]; cbn [negb]; [| by intros [= ? <-]]. intros E2.
  destruct (conn_read_takes _ _ chunk _ _ ltac:(lia) E) as (g1 & Hg1 & _ & Hs1). destruct (IH c1 (left - chunk) c' ltac:(lia) E2) as (g2 & Hg2 & Hs2).
  exists (g1 ++ g2). rewrite zlen_app, Hs1, Hs2, app_assoc. split; [lia | done].
Qed.

(** The bytes taken are the first of those that could come. *)
Lemma taken_front (got l s more : list Z) : length got = length l → got ++ s `prefix_of` l ++ more → got = l ∧ s `prefix_of` more.
Proof.
  intros Hl [k E]. rewrite <- app_assoc in E. apply app_inj_1 in E as [-> ->]; [| done]. split; [done | by exists k].
Qed.

(** A message received is the next one sent. *)
Lemma ipc_msg_recv_next c buf bufsz r c' type bs more :
  ipc_msg_recv c buf bufsz = Some (r, c') → r.(r_rc) = 0 → stream c.(c_rd) `prefix_of` frame type bs ++ more →
  0 <= type < 2 ^ 32 → zlen bs <= IPC_MAX_PAYLOAD → 0 <= bufsz < 2 ^ 32 → bufsz <= zlen buf →
  r.(r_type) = Some type ∧ r.(r_len) = Some (zlen bs `min` bufsz) ∧ take (Z.to_nat (zlen bs `min` bufsz)) r.(r_buf) = take (Z.to_nat bufsz) bs ∧
  stream c'.(c_rd) `prefix_of` more.
Proof.
  unfold IPC_MAX_PAYLOAD. intros E Hrc Hpre Ht Hlen Hsz Hb. pose proof (zlen_nonneg bs) as Hn. unfold ipc_msg_recv in E.
  destruct (conn_read c (replicate 8 0) 8) as [[[rc hdr] c1]|] eqn:E1; [| done]. cbn [mbind option_bind] in E.
  destruct (Z.eqb_spec rc 0) as [->|]; cbn [negb] in E; [| injection E as <- _; cbn in Hrc; congruence].
  destruct (conn_read_takes _ _ 8 _ _ ltac:(lia) E1) as (g & Hg & -> & Hs). rewrite Hs in Hpre. unfold frame in Hpre.
  replace ((be32 type ++ be32 (zlen bs) ++ bs) ++ more) with ((be32 type ++ be32 (zlen bs)) ++ bs ++ more) in Hpre by by rewrite <- !app_assoc.
  apply taken_front in Hpre as [-> Hpre]; [| unfold zlen in Hg; change (length (be32 type ++ be32 (zlen bs))) with 8%nat; lia].
  change (drop (length (be32 type ++ be32 (zlen bs))) (replicate 8 0)) with (@nil Z) in E. rewrite app_nil_r in E.
  rewrite header_type in E by done. cbn [mbind option_bind] in E.
  rewrite header_len in E by lia.
  cbn [mbind option_bind] in E. unfold IPC_MAX_PAYLOAD in E. rewrite (proj2 (Z.ltb_ge _ _)) in E by lia.
  unfold u32 in E. rewrite (Z.mod_small bufsz) in E by lia. destruct (Z.eqb_spec (zlen bs) 0) as [H0|H0].
  { injection E as <- <-. cbn [r_type r_len r_buf]. destruct bs; [| rewrite zlen_cons in H0; pose proof (zlen_nonneg bs); lia].
    rewrite Z.min_l, H0, take_nil by lia. by split_and!. }
  destruct (Z.leb_spec (zlen bs) bufsz).
  - destruct (conn_read c1 buf (zlen bs)) as [[[rc b] c2]|] eqn:E2; [| done]. injection E as <- <-. cbn [r_rc r_type r_len r_buf] in *. subst rc.
    destruct (conn_read_takes _ _ _ _ _ Hn E2) as (g & Hg2 & -> & Hs2). rewrite Hs2 in Hpre.
    apply taken_front in Hpre as [-> Hpre]; [| unfold zlen in *; lia]. rewrite Z.min_l by lia. split_and!; try done.
    unfold zlen in *. rewrite Nat2Z.id, take_app_length, take_ge by lia. done.
  - destruct (conn_read c1 buf bufsz) as [[[rc b] c2]|] eqn:E2; [| done]. cbn [mbind option_bind] in E.
    destruct (Z.eqb_spec rc 0) as [->|]; cbn [negb] in E; [| injection E as <- _; cbn in Hrc; congruence].
    destruct (conn_read_takes _ _ bufsz _ _ ltac:(lia) E2) as (g & Hg2 & -> & Hs2).
    destruct (discard_excess _ c2 _) as [[rc c3]|] eqn:E3; [| done]. injection E as <- <-. cbn [r_rc r_type r_len r_buf] in *. subst rc.
    destruct (discard_excess_takes _ _ (zlen bs - bufsz) _ ltac:(lia) E3) as (g2 & Hg3 & Hs3). rewrite Hs2, Hs3, app_assoc in Hpre.
    apply taken_front in Hpre as [<- Hpre]; [| rewrite length_app; unfold zlen in *; lia]. rewrite Z.min_r by lia. split_and!; try done.
    unfold zlen in Hg2. rewrite !take_app_le, !take_ge by lia. done.
Qed.

(** ** Conversations *)

(** A list of messages sent, until one fails. *)
Fixpoint send_all (c : conn) (msgs : list (Z * list Z)) : option (Z * conn) :=
  match msgs with
  | [] => Some (0, c)
  | (type, bs) :: msgs =>
      '(rc, c) ← ipc_msg_send c type (Some bs) (zlen bs);
      if rc <? 0 then Some (rc, c) else send_all c msgs
  end.

(** At most [n] messages received into one buffer, until one fails: type and payload. *)
Fixpoint recv_all (n : nat) (c : conn) (buf : list Z) (bufsz : Z) : option (list (Z * list Z) * conn) :=
  match n with
  | O => Some ([], c)
  | S n =>
      '(r, c) ← ipc_msg_recv c buf bufsz;
      match r.(r_rc), r.(r_type), r.(r_len) with
      | 0, Some type, Some len =>
          '(msgs, c) ← recv_all n c r.(r_buf) bufsz;
          Some ((type, take (Z.to_nat len) r.(r_buf)) :: msgs, c)
      | _, _, _ => Some ([], c)
      end
  end.

Definition frames (msgs : list (Z * list Z)) : list Z := concat (map (λ m, frame m.1 m.2) msgs).

(** A message the protocol allows. *)
Definition sendable (m : Z * list Z) : Prop := 0 <= m.1 < 2 ^ 32 ∧ zlen m.2 <= IPC_MAX_PAYLOAD.

Lemma send_all_ok msgs : ∀ c, yields (send_all c msgs) (λ x, sent c x.2 x.1 (frames msgs)).
Proof.
  induction msgs as [|[type bs] msgs IH]; intros c; cbn [send_all].
  - split; [done |]. left. split; [done |]. by rewrite app_nil_r.
  - pose proof (zlen_nonneg bs). eapply yields_seq; [apply ipc_msg_send_ok; [done | cbn; lia] |].
    intros [rc c1] [Hrd H1]. cbn [fst snd] in *. cbn [deref from_option] in H1.
    change (default [] (Some bs)) with bs in H1. rewrite (take_ge bs) in H1 by (unfold zlen; lia).
    unfold frames. cbn [map concat fst snd]. fold (frames msgs).
    destruct H1 as [[-> Hs]|(-> & part & rest & Hr & E & Hs)].
    + change (0 <? 0) with false. cbv iota. eapply yields_mono; [apply IH |]. intros [rc2 c2] [Hrd2 H2]. cbn [fst snd] in *.
      split; [cbn; congruence |]. cbn [fst snd]. destruct H2 as [[-> Hs2]|(-> & part & rest & Hr & E & Hs2)]; [left | right]; (split; [done |]).
      * by rewrite Hs2, Hs, app_assoc.
      * exists (frame type bs ++ part), rest. split; [done |]. by rewrite Hs2, Hs, E, <- !app_assoc.
    + change (-1 <? 0) with true. cbv iota. cbn [yields fst snd]. split; [done |]. right. split; [done |].
      exists part, (rest ++ frames msgs). split; [by destruct rest |]. by rewrite E, <- app_assoc.
Qed.

Lemma recv_all_ok msgs : ∀ c buf bufsz rest,
  arriving c.(c_rd) → stream c.(c_rd) = frames msgs ++ rest → Forall sendable msgs → 0 <= bufsz < 2 ^ 32 → bufsz <= zlen buf →
  ∃ c', recv_all (length msgs) c buf bufsz = Some (map (λ m, (m.1, take (Z.to_nat bufsz) m.2)) msgs, c') ∧
    arriving c'.(c_rd) ∧ stream c'.(c_rd) = rest ∧ c'.(c_sent) = c.(c_sent).
Proof.
  induction msgs as [|[type bs] msgs IH]; intros c buf bufsz rest Hc Hs Hm Hsz Hb; cbn [recv_all length].
  { by exists c. }
  apply Forall_cons in Hm as [[Ht Hl] Hm]. cbn [fst snd] in *. unfold frames in Hs. cbn [map concat fst snd] in Hs. fold (frames msgs) in Hs.
  rewrite <- app_assoc in Hs.
  destruct (ipc_msg_recv_ok c buf bufsz type bs (frames msgs ++ rest)) as (evs & -> & He & Hs1); try done.
  cbn [mbind option_bind r_rc r_type r_len r_buf].
  set (buf1 := take (Z.to_nat bufsz) bs ++ drop (length (take (Z.to_nat bufsz) bs)) buf).
  destruct (IH (mk_conn evs c.(c_wr) c.(c_sent)) buf1 bufsz rest) as (c' & -> & Hc' & Hs' & Hse); try done.
  { unfold buf1, zlen in *. rewrite length_app, length_drop, length_take. lia. }
  cbn [mbind option_bind map fst snd]. exists c'. split; [| done]. do 4 f_equal. unfold buf1.
  rewrite take_app_le by (rewrite length_take; unfold zlen in *; lia). apply take_ge. rewrite length_take. unfold zlen. lia.
Qed.

(** What a reader gets is what was sent, up to where its descriptor fails or ends. *)
Lemma recv_all_prefix n : ∀ msgs c buf bufsz,
  byte_schedule c.(c_rd) → Forall is_byte buf → stream c.(c_rd) `prefix_of` frames msgs → Forall sendable msgs →
  0 <= bufsz < 2 ^ 32 → bufsz <= zlen buf →
  yields (recv_all n c buf bufsz) (λ x, x.1 `prefix_of` map (λ m, (m.1, take (Z.to_nat bufsz) m.2)) msgs).
Proof.
  induction n as [|n IH]; intros msgs c buf bufsz Hc Hbuf Hs Hm Hsz Hb; cbn [recv_all]; [apply prefix_nil |].
  pose proof (ipc_msg_recv_any c buf bufsz Hc Hbuf Hsz Hb) as H. destruct (ipc_msg_recv c buf bufsz) as [[r c1]|] eqn:E; [| done].
  cbn [yields mbind option_bind fst snd] in *. destruct H as (_ & Hz & Hb1 & (_ & _ & Hc1) & _).
  destruct (decide (r_rc r = 0)) as [Hrc|Hrc]; [| destruct (r_rc r); [done | apply prefix_nil | apply prefix_nil]].
  destruct msgs as [|[type bs] msgs].
  { exfalso. unfold ipc_msg_recv in E. destruct (conn_read c (replicate 8 0) 8) as [[[rc hdr] c2]|] eqn:E1; [| done]. cbn [mbind option_bind] in E.
    destruct (Z.eqb_spec rc 0) as [->|]; cbn [negb] in E; [| injection E as <- _; cbn in Hrc; congruence].
    destruct (conn_read_takes _ _ 8 _ _ ltac:(lia) E1) as (g & Hg & _ & Hs1). rewrite Hs1 in Hs. apply prefix_nil_inv in Hs.
    apply app_eq_nil in Hs as [-> _]. done. }
  apply Forall_cons in Hm as [[Ht Hl] Hm].
  destruct (ipc_msg_recv_next c buf bufsz r c1 type bs (frames msgs) E Hrc Hs Ht Hl Hsz Hb) as (-> & -> & Etake & Hs1).
  rewrite Hrc. eapply yields_seq; [by apply (IH msgs); [| | | | | rewrite Hz] |]. intros [got c2] Hgot. cbn [yields fst map] in *. rewrite Etake. by apply prefix_cons.
Qed.

(** C21: messages arrive as they were sent, in order.  Sending, whatever the
    schedule of short, interrupted and failing writes, answers 0 and has put out
    every message whole, or answers -1 and what went out is a proper prefix.
    Receiving never invents, alters, skips or reorders a message: whatever the
    reader's schedule of short, interrupted and failing reads, as long as the bytes
    that come are the first of those sent, it gets the first of the messages sent,
    each with its type and with as much of its payload as the buffer takes (the
    rest is discarded), up to the read that fails or finds the end.  If everything
    was sent and nothing fails, it gets them all and is left with exactly what
    followed. *)
Theorem messages_delivered (msgs : list (Z * list Z)) (a : conn) (buf : list Z) (bufsz : Z) :
  a.(c_sent) = [] → Forall sendable msgs → Forall is_byte buf → 0 <= bufsz < 2 ^ 32 → bufsz <= zlen buf →
  let cut := map (λ m, (m.1, take (Z.to_nat bufsz) m.2)) in
  yields (send_all a msgs) (λ x,
    ((x.1 = 0 ∧ x.2.(c_sent) = frames msgs) ∨ (x.1 = -1 ∧ ∃ lost, lost ≠ [] ∧ frames msgs = x.2.(c_sent) ++ lost)) ∧
    (∀ b n, byte_schedule b.(c_rd) → stream b.(c_rd) `prefix_of` x.2.(c_sent) →
      ∃ got b', recv_all n b buf bufsz = Some (got, b') ∧ got `prefix_of` cut msgs) ∧
    (x.1 = 0 → ∀ b rest, arriving b.(c_rd) → stream b.(c_rd) = x.2.(c_sent) ++ rest →
      ∃ b', recv_all (length msgs) b buf bufsz = Some (cut msgs, b') ∧ stream b'.(c_rd) = rest)).
Proof.
  intros Ha Hm Hby Hsz Hb cut. eapply yields_mono; [apply send_all_ok |]. intros [rc a'] [_ H]. cbn [fst snd] in *. rewrite Ha in H. cbn [app] in H.
  assert (c_sent a' `prefix_of` frames msgs) as Hpre.
  { destruct H as [[_ ->]|(_ & part & lost & _ & E & ->)]; [done |]. rewrite E. by exists lost. }
  split_and!.
  - destruct H as [[-> ->]|(-> & part & lost & Hl & E & ->)]; [by left | right]. split; [done |]. by exists lost.
  - intros b n Hbs Hs. pose proof (recv_all_prefix n msgs b buf bufsz Hbs Hby (transitivity Hs Hpre) Hm Hsz Hb) as Hr.
    destruct (recv_all n b buf bufsz) as [[got b']|]; [| done]. by exists got, b'.
  - intros -> b rest Hb' Es. destruct H as [[_ Hs]|[[=] _]]. rewrite Hs in Es.
    destruct (recv_all_ok msgs b buf bufsz rest) as (b' & E & _ & Er & _); try done. by exists b'.
Qed.

(** Receiving is memory safe whatever the peer sends: no byte is stored out
    of the buffer or read before it is stored, the answer is 0, -1 or 1, and with
    0 the length is within the buffer.  A length over the limit is refused, a
    stream that ends or fails inside a message is reported. *)
Theorem recv_any_bytes (c : conn) (buf : list Z) (bufsz : Z) :
  byte_schedule c.(c_rd) → Forall is_byte buf → 0 <= bufsz < 2 ^ 32 → bufsz <= zlen buf →
  yields (ipc_msg_recv c buf bufsz) (λ x, let '(r, c') := x in
    (r.(r_rc) = 0 ∨ r.(r_rc) = -1 ∨ r.(r_rc) = 1) ∧ zlen r.(r_buf) = zlen buf ∧ c'.(c_sent) = c.(c_sent) ∧
    (r.(r_rc) = 0 → ∃ type len, r.(r_type) = Some type ∧ 0 <= type < 2 ^ 32 ∧ r.(r_len) = Some len ∧ 0 <= len <= bufsz)).
Proof.
  intros Hc Hbuf Hsz Hb. eapply yields_mono; [by apply ipc_msg_recv_any |]. intros [r c'] (Hrc & Hz & _ & (_ & Es & _) & H).
  by split_and!.
Qed.

(** ** The attach handshake of a client *)

Definition IPC_MSG_ATTACH : Z := 1.
Definition IPC_MSG_ATTACH_REPLY : Z := 6.
Definition IPC_ROLE_WRITE : Z := 0.
Definition IPC_ROLE_VIEW : Z := 1.

(** The turns of the loop that reads past other messages: the type of the last
    message, and its buffer and length; or -1. *)
Fixpoint read_past (n : nat) (want : Z) (c : conn) (rtype : Z) (rbuf : list Z) (rlen : Z)
  : option (option (Z * list Z * Z) * conn) :=
  match n with
  | O => Some (Some (rtype, rbuf, rlen), c)
  | S n =>
      '(r, c) ← ipc_msg_recv c rbuf 512;
      if negb (r.(r_rc) =? 0) then Some (None, c) else
      rtype ← r.(r_type); rlen ← r.(r_len);
      if rtype =? want then Some (Some (rtype, r.(r_buf), rlen), c)
      else read_past n want c rtype r.(r_buf) rlen
  end.

(** 0 and the role, or -1.  [pid] is [getpid()]. *)
Definition ipc_client_attach (pid : Z) (c : conn) (flags : Z) (name : bptr) : option (Z * option Z * conn) :=
  let name := match name with Some _ => name | None => Some [0] end in
  n ← (s ← name; strlen s);
  let at_ := mk_ipc_attach 24 80 flags (u32 pid) name (u16 n) 0 0 in
  '(an, abuf) ← ipc_attach_encode at_ (replicate 128 0) 128;
  if an <? 0 then Some (-1, None, c) else
  '(rc, c) ← ipc_msg_send c IPC_MSG_ATTACH (Some abuf) (u32 an);
  if rc <? 0 then Some (-1, None, c) else
  '(r, c) ← read_past 17 IPC_MSG_ATTACH_REPLY c 0 (replicate 512 0) 0;
  match r with
  | None => Some (-1, None, c)
  | Some (rtype, rbuf, rlen) =>
      if negb (rtype =? IPC_MSG_ATTACH_REPLY) then Some (-1, None, c) else
      r ← ipc_attach_reply_decode rbuf (i32 rlen);
      match r with
      | None => Some (-1, None, c)
      | Some (_, rep) => Some (0, Some rep.(rep_role), c)
      end
  end.

Lemma wrote_take b b' bs : wrote b b' 0 bs → zlen bs <= zlen b → take (Z.to_nat (zlen bs)) b' = bs.
Proof.
  intros [Hz H] Hle. apply aget_ext. intros i. rewrite aget_take, H, Z.sub_0_r, Z.add_0_l.
  destruct (Z.ltb_spec i (zlen bs)), (Z.leb_spec 0 i); cbn [andb]; try done;
    by rewrite !(proj2 (aget_None _ _)) by (pose proof (zlen_nonneg b); lia).
Qed.

(** A message encoded into a local buffer, sent. *)
Lemma send_encoded {A : Type} `{MessageLaws A} (m : A) sz c type :
  msg_ok m → zlen (wire m) <= sz → sz < 2 ^ 32 →
  yields (encode m (replicate (Z.to_nat sz) 0) sz) (λ x,
    x.1 = zlen (wire m) ∧ yields (ipc_msg_send c type (Some x.2) (u32 x.1)) (λ y, sent c y.2 y.1 (frame type (wire m)))).
Proof.
  intros Hm Hfit Hsz. pose proof (zlen_nonneg (wire m)).
  assert (zlen (replicate (Z.to_nat sz) 0) = sz) as Hz by (unfold zlen; rewrite length_replicate; lia).
  eapply yields_mono; [apply encode_wire; [done | done | lia] |]. intros [n buf] [-> Hw]. cbn [fst snd] in *. split; [done |].
  unfold u32. rewrite Z.mod_small by lia. 
  eapply yields_mono; [apply ipc_msg_send_ok; [lia | cbn; destruct Hw; lia] |]. intros y Hy. cbn in Hy.
  erewrite wrote_take in Hy; [done | done | lia].
Qed.

(** Messages of other types are read past. *)
Lemma read_past_ok others : ∀ n want c rtype rbuf rlen rest,
  arriving c.(c_rd) → stream c.(c_rd) = frames others ++ rest → Forall sendable others → Forall (λ m, m.1 ≠ want) others →
  zlen rbuf = 512 → (length others <= n)%nat →
  ∃ c' rtype' rbuf' rlen', read_past n want c rtype rbuf rlen = read_past (n - length others) want c' rtype' rbuf' rlen' ∧
    arriving c'.(c_rd) ∧ stream c'.(c_rd) = rest ∧ c'.(c_sent) = c.(c_sent) ∧ zlen rbuf' = 512.
Proof.
  induction others as [|[t bs] others IH]; intros n want c rtype rbuf rlen rest Hc Hs Hm Hne Hz Hn.
  { exists c, rtype, rbuf, rlen. by rewrite Nat.sub_0_r. }
  apply Forall_cons in Hm as [[Ht Hl] Hm]. apply Forall_cons in Hne as [Hne1 Hne]. cbn [fst snd length] in *.
  destruct n as [|n]; [lia |]. unfold frames in Hs. cbn [map concat fst snd] in Hs. fold (frames others) in Hs. rewrite <- app_assoc in Hs.
  destruct (ipc_msg_recv_ok c rbuf 512 t bs (frames others ++ rest)) as (evs & E & He & Hs1); try (done || lia).
  cbn [read_past]. rewrite E. cbn [mbind option_bind r_rc r_type r_len r_buf]. change (negb (0 =? 0)) with false. cbv iota.
  rewrite (proj2 (Z.eqb_neq _ _)) by done.
  apply (IH n want (mk_conn evs c.(c_wr) c.(c_sent))); try done; [| lia].
  unfold zlen in *. rewrite length_app, length_drop, length_take. lia.
Qed.

Lemma strlen_bounds s n : strlen s = Some n → 0 <= n < zlen s.
Proof.
  revert n. induction s as [|c s IH]; intros n; cbn [strlen]; [done |]. rewrite zlen_cons. pose proof (zlen_nonneg s).
  destruct (c =? 0); [intros [= <-]; lia |]. destruct (strlen s) as [k|]; [| done]. cbn. intros [= <-]. specialize (IH _ eq_refl). lia.
Qed.

(** The message a client attaches with. *)
Definition attach_request (pid flags : Z) (name : list Z) (n : Z) : ipc_attach :=
  mk_ipc_attach 24 80 flags (u32 pid) (Some name) n 0 0.

Lemma attach_request_ok pid flags name n :
  0 <= flags < 256 → strlen name = Some n → n < 65536 → Forall is_byte name → msg_ok (attach_request pid flags name n).
Proof.
  intros Hf Hn%strlen_bounds Hl Hb. unfold msg_ok. repeat apply Forall_cons_2; try apply Forall_nil_2; (split; [cbn; lia |]); cbn -[Z.pow]; try lia.
  - unfold u32. by apply Z.mod_pos_bound.
  - split; [lia |]. change (default [] (Some name)) with name. split; [lia | done].
Qed.

Lemma zlen_attach_request pid flags name n :
  0 <= flags < 256 → strlen name = Some n → n < 65536 → Forall is_byte name → zlen (wire (attach_request pid flags name n)) = 24 + n.
Proof.
  intros Hf Hn Hl Hb. pose proof (attach_request_ok pid flags name n Hf Hn Hl Hb) as H.
  unfold wire, msg_ok in *. rewrite zlen_message. cbn [fields_of ipc_attach_message] in *. unfold ipc_attach_fields in *.
  cbn [attach_request at_rows at_cols at_flags at_client_id at_name at_name_len at_cell_pw at_cell_ph] in *.
  rewrite !Forall_cons in H. destruct H as (H1 & H2 & H3 & H4 & H5 & H6 & H7 & _).
  rewrite !fields_bytes_cons, !zlen_app, !zlen_field_bytes by done. change (zlen (fields_bytes [])) with 0. lia.
Qed.

Lemma reply_same (m m' : ipc_attach_reply) : same_message m m' → m' = m.
Proof.
  destruct m, m'. unfold same_message. cbn [fields_of ipc_attach_reply_message]. unfold ipc_attach_reply_fields. cbn.
  intros H. repeat (apply Forall2_cons in H as [[= <-] H]). done.
Qed.

(** C33: attaching.  With a name of at most 104 bytes the client sends its request
    and, when the server answers behind at most 16 other messages, returns the
    role of the answer and leaves the rest of the stream unread; if the request
    cannot be sent it answers -1.  A longer name is refused and nothing is sent. *)
Theorem client_attach_correct (pid flags n : Z) (name : list Z) (c : conn) (others : list (Z * list Z))
    (rep : ipc_attach_reply) (rest : list Z) :
  0 <= flags < 256 → strlen name = Some n → n < 65536 → Forall is_byte name → arriving c.(c_rd) →
  stream c.(c_rd) = frames others ++ frame IPC_MSG_ATTACH_REPLY (wire rep) ++ rest →
  Forall sendable others → Forall (λ m, m.1 ≠ IPC_MSG_ATTACH_REPLY) others → (length others <= 16)%nat → msg_ok rep →
  let request := frame IPC_MSG_ATTACH (wire (attach_request pid flags name n)) in
  if n <=? 104 then
    yields (ipc_client_attach pid c flags (Some name)) (λ x, let '(rc, role, c') := x in
      (rc = 0 ∧ role = Some rep.(rep_role) ∧ c'.(c_sent) = c.(c_sent) ++ request ∧ stream c'.(c_rd) = rest) ∨
      (rc = -1 ∧ role = None ∧ ∃ part lost, lost ≠ [] ∧ request = part ++ lost ∧ c'.(c_sent) = c.(c_sent) ++ part))
  else ipc_client_attach pid c flags (Some name) = Some (-1, None, c).
Proof.
  intros Hf Hn Hlt Hb Hc Hs Ho Hno Hlen Hrep. cbn zeta. pose proof (strlen_bounds _ _ Hn) as Hn0.
  pose proof (attach_request_ok pid flags name n Hf Hn Hlt Hb) as Hat.
  pose proof (zlen_attach_request pid flags name n Hf Hn Hlt Hb) as Hz.
  assert (ipc_client_attach pid c flags (Some name) =
    ('(an, abuf) ← encode (attach_request pid flags name n) (replicate 128 0) 128;
     if an <? 0 then Some (-1, None, c) else
     '(rc, c) ← ipc_msg_send c IPC_MSG_ATTACH (Some abuf) (u32 an);
     if rc <? 0 then Some (-1, None, c) else
     '(r, c) ← read_past 17 IPC_MSG_ATTACH_REPLY c 0 (replicate 512 0) 0;
     match r with
     | None => Some (-1, None, c)
     | Some (rtype, rbuf, rlen) =>
         if negb (rtype =? IPC_MSG_ATTACH_REPLY) then Some (-1, None, c) else
         r ← decode ipc_attach_reply rbuf (i32 rlen);
         match r with None => Some (-1, None, c) | Some (_, rep) => Some (0, Some rep.(rep_role), c) end
     end)) as ->.
  { unfold ipc_client_attach. cbn [mbind option_bind]. rewrite Hn. cbn [mbind option_bind].
    unfold u16. rewrite (Z.mod_small n) by lia. done. }
  destruct (Z.leb_spec n 104) as [Hfit|Hbig].
  - eapply yields_seq; [apply (send_encoded _ 128 c IPC_MSG_ATTACH); (done || lia) |].
    intros [an abuf] [Ean Hsend]. cbn [fst snd] in *. subst an. rewrite (proj2 (Z.ltb_ge _ 0)) by lia.
    eapply yields_seq; [exact Hsend |]. intros [rc c1] [Hrd H1]. cbn [fst snd] in *.
    destruct H1 as [[-> Hs1]|(-> & part & lost & Hl & E & Hs1)].
    2: { change (-1 <? 0) with true. cbv iota. right. split; [done |]. split; [done |]. by exists part, lost. }
    change (0 <? 0) with false. cbv iota.
    destruct (read_past_ok others 17 IPC_MSG_ATTACH_REPLY c1 0 (replicate 512 0) 0 (frame IPC_MSG_ATTACH_REPLY (wire rep) ++ rest))
      as (c2 & rt & rb & rl & -> & Hc2 & Hs2 & Hse2 & Hz2); try done; [by rewrite Hrd | by rewrite Hrd | lia |].
    destruct (17 - length others)%nat as [|k] eqn:Ek; [lia |].
    assert (zlen (wire rep) = 12) as Hzr by done.
    destruct (ipc_msg_recv_ok c2 rb 512 IPC_MSG_ATTACH_REPLY (wire rep) rest) as (evs & E & He & Hs3); try (done || lia).
    cbn [read_past]. rewrite E. cbn [mbind option_bind r_rc r_type r_len r_buf]. change (negb (0 =? 0)) with false.
    rewrite Z.eqb_refl. cbv iota. cbn [mbind option_bind].
    rewrite Z.eqb_refl, Hzr. cbn [negb]. rewrite (take_ge (wire rep)) by (cbn; lia). change (i32 (12 `min` 512)) with 12.
    destruct (decode_wire rep (wire rep ++ drop (length (wire rep)) rb) 12) as (m & -> & Hm); try done.
    { rewrite zlen_app, Hzr. pose proof (zlen_nonneg (drop (length (wire rep)) rb)). lia. }
    { intros i Hi. rewrite Z.add_0_l, aget_app by lia. by zbool. }
    cbn [mbind option_bind yields]. left. rewrite (reply_same _ _ Hm). split_and!; try done. cbn [c_sent]. by rewrite Hse2.
  - eapply yields_eq, yields_seq; [apply ms_encode_ok; [apply (fields_some (attach_request pid flags name n)) | exact Hat | done] |].
    intros [an abuf] [_ Hx]. fold (wire (attach_request pid flags name n)) in Hx. rewrite (proj2 (Z.leb_gt _ _)) in Hx by lia.
    cbn [fst snd] in Hx. subst an. done.
Qed.

(** A framed message in a buffer is what [ipc_msg_send] puts on the wire. *)
Lemma ipc_msg_frame_ok out outsz type p len :
  0 <= len → len <= zlen (deref p) → outsz <= zlen out →
  yields (ipc_msg_frame out outsz type p len) (λ x,
    if IPC_HDR_SIZE + len <=? outsz
    then x.1 = IPC_HDR_SIZE + len ∧ wrote out x.2 0 (frame type (take (Z.to_nat len) (deref p)))
    else x = (-1, out)).
Proof.
  intros Hl Hp Ho. unfold ipc_msg_frame, IPC_HDR_SIZE, frame. destruct (Z.leb_spec (8 + len) outsz).
  - rewrite (proj2 (Z.ltb_ge _ _)) by lia.
    eapply yields_seq; [apply copy_in_wrote; [lia | lia | lia | done] |]. intros b1 H1. cbn beta in H1.
    eapply yields_seq; [apply copy_in_wrote; [lia | lia | destruct H1; lia | done] |]. intros b2 H2. cbn [yields fst snd]. split; [done |].
    rewrite zlen_take, app_assoc by lia. eapply wrote_app; [exact H1 | | exact H2]. done.
  - rewrite (proj2 (Z.ltb_lt _ _)) by lia. done.
Qed.

Lemma size_same (m m' : ipc_size) : same_message m m' → m' = m.
Proof.
  destruct m, m'. unfold same_message. cbn [fields_of ipc_size_message]. unfold ipc_size_fields. cbn.
  intros H. repeat (apply Forall2_cons in H as [[= <-] H]). done.
Qed.

(** [ipc_msg_send_size] sends the message whose cell size is whatever was on
    the stack, and the other side takes it for the size of a cell. *)
Theorem send_size_leaks (pw ph type rows cols : Z) (c : conn) :
  0 <= pw < 65536 → 0 <= ph < 65536 →
  let msg := mk_ipc_size (u16 rows) (u16 cols) pw ph in
  yields (ipc_msg_send_size pw ph c type rows cols) (λ x, sent c x.2 x.1 (frame type (wire msg))) ∧
  ipc_size_decode (wire msg) (zlen (wire msg)) = Some (Some (zlen (wire msg), msg)).
Proof.
  intros Hw Hh. cbn zeta. set (msg := mk_ipc_size (u16 rows) (u16 cols) pw ph).
  assert (msg_ok msg) as Hm.
  { unfold msg_ok. repeat apply Forall_cons_2; try apply Forall_nil_2; (split; [cbn; lia |]); cbn -[Z.pow]; try lia; by apply Z.mod_pos_bound. }
  assert (zlen (wire msg) = 14) as Hz by done. split.
  - unfold ipc_msg_send_size. fold msg. eapply yields_seq; [apply (send_encoded msg 16 c type Hm); lia |].
    intros [n buf] [En Hs]. cbn [fst snd] in *. subst n. rewrite Hz in *. change (14 <? 0) with false. exact Hs.
  - unfold ipc_size_decode. destruct (decode_wire msg (wire msg) (zlen (wire msg))) as (m & -> & Hsame); try (done || lia).
    by rewrite (size_same _ _ Hsame).
Qed.

(** ** Instances *)

(** A peer that sends one byte at a time, interrupted in between. *)
Definition trickle (bs : list Z) : list rd := concat (map (λ b, [RIntr; RData [b]]) bs).

Definition conn0 : conn := mk_conn (trickle (frames [(257, [104; 105])])) (replicate 40 (WTook 3)) [].

Lemma messages_delivered_witness :
  let msgs := [(257, [104; 105]); (2, []); (256, [27; 91; 65])] in
  let cut := map (λ m : Z * list Z, (m.1, take (Z.to_nat 2) m.2)) in
  yields (send_all conn0 msgs) (λ x,
    ((x.1 = 0 ∧ x.2.(c_sent) = frames msgs) ∨ (x.1 = -1 ∧ ∃ lost, lost ≠ [] ∧ frames msgs = x.2.(c_sent) ++ lost)) ∧
    (∀ b n, byte_schedule b.(c_rd) → stream b.(c_rd) `prefix_of` x.2.(c_sent) →
      ∃ got b', recv_all n b (replicate 2 0) 2 = Some (got, b') ∧ got `prefix_of` cut msgs) ∧
    (x.1 = 0 → ∀ b rest, arriving b.(c_rd) → stream b.(c_rd) = x.2.(c_sent) ++ rest →
      ∃ b', recv_all 3 b (replicate 2 0) 2 = Some ([(257, [104; 105]); (2, []); (256, [27; 91])], b') ∧ stream b'.(c_rd) = rest)).
Proof.
  apply (messages_delivered [(257, [104; 105]); (2, []); (256, [27; 91; 65])] conn0 (replicate 2 0) 2); [done | | by apply bytes_ok | done | done].
  repeat apply Forall_cons_2; try apply Forall_nil_2; done.
Defined.

Lemma recv_any_bytes_witness :
  yields (ipc_msg_recv (mk_conn [RData [0; 0; 0; 1; 0; 1; 0; 1]; RIntr; RData [7]] [] []) (replicate 4 0) 4) (λ x, let '(r, c') := x in
    (r.(r_rc) = 0 ∨ r.(r_rc) = -1 ∨ r.(r_rc) = 1) ∧ zlen r.(r_buf) = 4 ∧ c'.(c_sent) = [] ∧
    (r.(r_rc) = 0 → ∃ type len, r.(r_type) = Some type ∧ 0 <= type < 2 ^ 32 ∧ r.(r_len) = Some len ∧ 0 <= len <= 4)).
Proof.
  apply (recv_any_bytes (mk_conn [RData [0; 0; 0; 1; 0; 1; 0; 1]; RIntr; RData [7]] [] []) (replicate 4 0) 4);
    [| by apply bytes_ok | done | done].
  repeat apply Forall_cons_2; try apply Forall_nil_2; try done; by apply bytes_ok.
Defined.

Definition attach_conn0 : conn :=
  mk_conn (trickle (frames [(7, [1])] ++ frame IPC_MSG_ATTACH_REPLY (wire rep0) ++ [9])) (replicate 20 (WTook 5)) [].

Lemma client_attach_correct_witness :
  yields (ipc_client_attach 4660 attach_conn0 1 (Some [109; 101; 0])) (λ x, let '(rc, role, c') := x in
    (rc = 0 ∧ role = Some 1 ∧ c'.(c_sent) = frame IPC_MSG_ATTACH (wire (attach_request 4660 1 [109; 101; 0] 2)) ∧ stream c'.(c_rd) = [9]) ∨
    (rc = -1 ∧ role = None ∧ ∃ part lost, lost ≠ [] ∧
      frame IPC_MSG_ATTACH (wire (attach_request 4660 1 [109; 101; 0] 2)) = part ++ lost ∧ c'.(c_sent) = part)).
Proof.
  apply (client_attach_correct 4660 1 2 [109; 101; 0] attach_conn0 [(7, [1])] rep0 [9]); try done.
  - by apply bytes_ok.
  - repeat apply Forall_cons_2; try apply Forall_nil_2; done.
  - repeat apply Forall_cons_2; try apply Forall_nil_2; done.
  - repeat apply Forall_cons_2; try apply Forall_nil_2; done.
  - cbn. lia.
  - message_ok.
Defined.

Lemma send_size_leaks_witness :
  ipc_size_decode (wire (mk_ipc_size 40 132 57005 48879)) 14 = Some (Some (14, mk_ipc_size 40 132 57005 48879)).
Proof. apply (send_size_leaks 57005 48879 1 40 132 conn0); done. Defined.
