(* ===== verification/AttrStore.v ===== *)
(** * The attribute store: src/libattr/attr_store.c

    Keys and values of a session, changed by transactions that read and write on
    the side and commit only when nothing they touched has changed since.  Here
    the operations, as the code has them; AttrSpec.v says what they promise.

    A key or value is a C string, the bytes before its NUL; the arrays of the
    structures are lists of their used slots. *)

From stdpp Require Import gmap sorting.
From S2P Require Import Prelude.

Definition ATTR_MAX_KEYS : Z := 64.
Definition ATTR_MAX_KEY_LEN : Z := 128.
Definition ATTR_MAX_VALUE_LEN : Z := 1024.
Definition ATTR_TXN_MAX : Z := 4.
Definition ATTR_TXN_KEYS_MAX : Z := 16.

Definition OK : Z := 0.
Definition ERR : Z := -1.

Record attr_entry := mk_entry { e_key : list Z; e_value : list Z; e_gen : Z }.
Record attr_txn_touch := mk_touch { t_key : list Z; t_gen : Z }.
Record attr_txn_write := mk_write { w_key : list Z; w_value : list Z; w_is_delete : bool }.
Record attr_txn := mk_txn {
  in_use : bool; client_fd : Z; txn_id : Z; read_set : list attr_txn_touch; write_set : list attr_txn_write }.
Record attr_store := mk_store { entries : list attr_entry; next_gen : Z; txns : list attr_txn; next_txn_id : Z }.

(** [snprintf(dst, size, "%s", s)] *)
Definition snprintf_s (size : Z) (s : list Z) : list Z := take (Z.to_nat (size - 1)) s.

(** ** Searches, by index *)

(** The first slot with the property. *)
Fixpoint find_slot {A} (p : A → bool) (l : list A) : option nat :=
  match l with
  | [] => None
  | x :: l => if p x then Some O else S <$> find_slot p l
  end.

Definition find_entry (st : attr_store) (key : list Z) : option nat :=
  find_slot (λ e, bool_decide (e.(e_key) = key)) st.(entries).

Definition find_txn (st : attr_store) (id : Z) : option nat :=
  find_slot (λ t, t.(in_use) && (t.(txn_id) =? id)) st.(txns).

Definition txn_find_write (txn : attr_txn) (key : list Z) : option nat :=
  find_slot (λ w, bool_decide (w.(w_key) = key)) txn.(write_set).

(** The entry of a key, and its generation: 0 when there is none. *)
Definition entry_of (st : attr_store) (key : list Z) : option attr_entry := i ← find_entry st key; st.(entries) !! i.
Definition gen_of (st : attr_store) (key : list Z) : Z := match entry_of st key with Some e => e.(e_gen) | None => 0 end.

Definition txn_touch_read (txn : attr_txn) (key : list Z) (gen : Z) : option attr_txn :=
  if find_slot (λ t, bool_decide (t.(t_key) = key)) txn.(read_set) is Some _ then Some txn
  else if ATTR_TXN_KEYS_MAX <=? zlen txn.(read_set) then None
  else Some (mk_txn txn.(in_use) txn.(client_fd) txn.(txn_id)
               (txn.(read_set) ++ [mk_touch (snprintf_s ATTR_MAX_KEY_LEN key) gen]) txn.(write_set)).

Definition txn_clear : attr_txn := mk_txn false (-1) 0 [] [].

Definition set_txns (st : attr_store) (l : list attr_txn) : attr_store :=
  mk_store st.(entries) st.(next_gen) l st.(next_txn_id).

(** ** Life of a transaction *)

Definition attr_store_init : attr_store := mk_store [] 1 (replicate (Z.to_nat ATTR_TXN_MAX) txn_clear) 1.

(** The id, or [None] for ERR. *)
Definition attr_store_txn_begin (st : attr_store) (fd : Z) : option Z * attr_store :=
  match find_slot (λ t, negb t.(in_use)) st.(txns) with
  | Some i =>
      let id := st.(next_txn_id) in
      (Some id, mk_store st.(entries) st.(next_gen) (<[i := mk_txn true fd id [] []]> st.(txns)) (u32 (id + 1)))
  | None => (None, st)
  end.

(** No key of the read set has another generation than it had. *)
Definition no_conflict (st : attr_store) (txn : attr_txn) : bool :=
  forallb (λ r, gen_of st r.(t_key) =? r.(t_gen)) txn.(read_set).

(** [*e = entries[count - 1]; count--] *)
Definition swap_remove {A} (i : nat) (l : list A) : list A :=
  match last l with
  | Some x => take (length l - 1) (<[i := x]> l)
  | None => l
  end.

(** One turn of the loop that applies the write set; [None] when the store is full. *)
Definition apply_write (es : list attr_entry) (gen : Z) (w : attr_txn_write) : option (list attr_entry * Z) :=
  match find_slot (λ e, bool_decide (e.(e_key) = w.(w_key))) es with
  | Some i =>
      if w.(w_is_delete) then Some (swap_remove i es, gen)
      else Some (alter (λ e, mk_entry e.(e_key) (snprintf_s ATTR_MAX_VALUE_LEN w.(w_value)) gen) i es, u64 (gen + 1))
  | None =>
      if w.(w_is_delete) then Some (es, gen)
      else if ATTR_MAX_KEYS <=? zlen es then None
      else Some (es ++ [mk_entry (snprintf_s ATTR_MAX_KEY_LEN w.(w_key)) (snprintf_s ATTR_MAX_VALUE_LEN w.(w_value)) gen], u64 (gen + 1))
  end.

(** The entries after the loop, and whether it ended: when it does not, the writes
    before the one that had no room stay. *)
Fixpoint apply_write_set (es : list attr_entry) (gen : Z) (ws : list attr_txn_write) : bool * list attr_entry * Z :=
  match ws with
  | [] => (true, es, gen)
  | w :: ws =>
      match apply_write es gen w with
      | Some (es, gen) => apply_write_set es gen ws
      | None => (false, es, gen)
      end
  end.

Definition clear_slot (st : attr_store) (i : nat) : attr_store := set_txns st (<[i := txn_clear]> st.(txns)).

Definition attr_store_txn_commit (st : attr_store) (id : Z) : Z * attr_store :=
  match find_txn st id with
  | None => (ERR, st)
  | Some i =>
      match st.(txns) !! i with
      | None => (ERR, st)
      | Some txn =>
          if no_conflict st txn then
            let '(done, es, gen) := apply_write_set st.(entries) st.(next_gen) txn.(write_set) in
            (if done then OK else ERR, clear_slot (mk_store es gen st.(txns) st.(next_txn_id)) i)
          else (ERR, clear_slot st i)
      end
  end.

Definition attr_store_txn_rollback (st : attr_store) (id : Z) : attr_store :=
  match find_txn st id with Some i => clear_slot st i | None => st end.

Definition attr_store_txn_rollback_client (st : attr_store) (fd : Z) : attr_store :=
  set_txns st (map (λ t, if t.(in_use) && (t.(client_fd) =? fd) then txn_clear else t) st.(txns)).

(** ** Operations in a transaction *)

(** Stage a write: replace the one for the key or append; [None] when full. *)
Definition stage_write (txn : attr_txn) (key value : list Z) (is_delete : bool) : option attr_txn :=
  match txn_find_write txn key with
  | Some i =>
      Some (mk_txn txn.(in_use) txn.(client_fd) txn.(txn_id) txn.(read_set)
              (alter (λ w, mk_write w.(w_key) value is_delete) i txn.(write_set)))
  | None =>
      if ATTR_TXN_KEYS_MAX <=? zlen txn.(write_set) then None
      else Some (mk_txn txn.(in_use) txn.(client_fd) txn.(txn_id) txn.(read_set)
                   (txn.(write_set) ++ [mk_write (snprintf_s ATTR_MAX_KEY_LEN key) value is_delete]))
  end.

(** What [set] and [delete] share: touch the key, stage the write. *)
Definition touch_and_stage (st : attr_store) (i : nat) (txn : attr_txn) (key value : list Z) (is_delete : bool) : Z * attr_store :=
  match txn_touch_read txn key (gen_of st key) with
  | None => (ERR, st)
  | Some txn =>
      match stage_write txn key value is_delete with
      | None => (ERR, set_txns st (<[i := txn]> st.(txns)))
      | Some txn => (OK, set_txns st (<[i := txn]> st.(txns)))
      end
  end.

Definition attr_store_set (st : attr_store) (id : Z) (key value : list Z) : Z * attr_store :=
  match i ← find_txn st id; txn ← st.(txns) !! i; Some (i, txn) with
  | None => (ERR, st)
  | Some (i, txn) =>
      if (zlen key =? 0) || (ATTR_MAX_KEY_LEN <=? zlen key) then (ERR, st)
      else if ATTR_MAX_VALUE_LEN <=? zlen value then (ERR, st)
      else touch_and_stage st i txn key (snprintf_s ATTR_MAX_VALUE_LEN value) false
  end.

Definition attr_store_delete (st : attr_store) (id : Z) (key : list Z) : Z * attr_store :=
  match i ← find_txn st id; txn ← st.(txns) !! i; Some (i, txn) with
  | None => (ERR, st)
  | Some (i, txn) => touch_and_stage st i txn key [] true
  end.

(** The value, as far as [value_max] goes, or [None] for ERR. *)
Definition attr_store_get (st : attr_store) (id : Z) (key : list Z) (value_max : Z) : option (list Z) * attr_store :=
  match i ← find_txn st id; txn ← st.(txns) !! i; Some (i, txn) with
  | None => (None, st)
  | Some (i, txn) =>
      match txn_touch_read txn key (gen_of st key) with
      | None => (None, st)
      | Some txn =>
          let st' := set_txns st (<[i := txn]> st.(txns)) in
          match (j ← txn_find_write txn key; txn.(write_set) !! j) with
          | Some w => (if w.(w_is_delete) then None else Some (snprintf_s value_max w.(w_value)), st')
          | None => (match entry_of st key with Some e => Some (snprintf_s value_max e.(e_value)) | None => None end, st')
          end
      end
  end.

(** ** Listing *)

Definition line_of (key value : list Z) : list Z := key ++ [61] ++ value ++ [10].

(** [snprintf(out_buf + pos, buf_max - pos, "%s=%s\n", ...)] for each line, until
    one does not fit: the buffer's string and the position. *)
Fixpoint emit_lines (buf_max : Z) (lines : list (list Z)) (out : list Z) (pos : Z) : list Z * Z :=
  match lines with
  | [] => (out, pos)
  | line :: lines =>
      let out := take (Z.to_nat pos) out ++ take (Z.to_nat (buf_max - pos - 1)) line in
      if buf_max <=? pos + zlen line then (out, pos) else emit_lines buf_max lines out (pos + zlen line)
  end.

(** The committed entries with the write set over them. *)
Definition overlaid (txn : attr_txn) (e : attr_entry) : option (list Z) :=
  match (j ← txn_find_write txn e.(e_key); txn.(write_set) !! j) with
  | Some w => if w.(w_is_delete) then None else Some (line_of w.(w_key) w.(w_value))
  | None => Some (line_of e.(e_key) e.(e_value))
  end.

(** The writes to keys the store has not. *)
Definition added (st : attr_store) (w : attr_txn_write) : option (list Z) :=
  if w.(w_is_delete) then None
  else if find_entry st w.(w_key) is Some _ then None else Some (line_of w.(w_key) w.(w_value)).

Definition attr_store_list (st : attr_store) (id buf_max : Z) : option (list Z) :=
  match i ← find_txn st id; st.(txns) !! i with
  | None => None
  | Some txn =>
      let '(out, pos) := emit_lines buf_max (omap (overlaid txn) st.(entries)) [] 0 in
      Some (emit_lines buf_max (omap (added st) txn.(write_set)) out pos).1
  end.

(** ** The file *)

(** [strcmp(a, b) <= 0] *)
Fixpoint strcmp_le (a b : list Z) : bool :=
  match a, b with
  | [], _ => true
  | _ :: _, [] => false
  | x :: a, y :: b => (x <? y) || ((x =? y) && strcmp_le a b)
  end.

Definition entry_le (a b : attr_entry) : Prop := strcmp_le a.(e_key) b.(e_key) = true.
#[export] Instance entry_le_dec : RelDecision entry_le := λ a b, bool_eq_dec _ _.

(** The text of the file: the keys are distinct, so every sort gives this order. *)
Definition store_text (st : attr_store) : list Z :=
  concat (map (λ e, line_of e.(e_key) e.(e_value)) (merge_sort entry_le st.(entries))).

Definition PATH_MAX : Z := 4096.

(** What the file system answers.  The code looks at no return value of
    [fprintf]: [written] is what of the text printed is in the file when
    [fclose] succeeds, all of it only if no [fprintf] failed. *)
Record disk := mk_disk { written : list Z → list Z; fopen_ok : bool; fclose_ok : bool; rename_ok : bool }.

(** The return value and the file's contents. *)
Definition attr_store_save (st : attr_store) (path_len : Z) (d : disk) (old : option (list Z)) : Z * option (list Z) :=
  if PATH_MAX <=? path_len + 4 then (ERR, old)
  else if negb d.(fopen_ok) then (ERR, old)
  else if negb d.(fclose_ok) then (ERR, old)
  else if negb d.(rename_ok) then (ERR, old)
  else (OK, Some (d.(written) (store_text st))).

(** [fgets] of at most [n] characters: the line with its newline, and the rest. *)
Fixpoint fgets (n : nat) (f : list Z) : list Z * list Z :=
  match n, f with
  | O, _ => ([], f)
  | _, [] => ([], [])
  | S n, c :: f => if c =? 10 then ([10], f) else let '(l, rest) := fgets n f in (c :: l, rest)
  end.

(** The key and the value of a line. *)
Definition parse_line (line : list Z) : option (list Z * list Z) :=
  let line := c_string line in
  let line := if last line is Some 10 then take (length line - 1) line else line in
  if zlen line =? 0 then None else
  eq ← find_slot (λ c, c =? 61) line;
  Some (take eq line, drop (S eq) line).

(** Each turn reads a character at least. *)
Fixpoint load_lines (fuel : nat) (f : list Z) (es : list attr_entry) (gen : Z) : option (list attr_entry * Z) :=
  match f with
  | [] => Some (es, gen)
  | _ =>
      match fuel with
      | O => None
      | S fuel =>
          let '(line, f) := fgets (Z.to_nat (ATTR_MAX_KEY_LEN + ATTR_MAX_VALUE_LEN + 4 - 1)) f in
          match parse_line line with
          | None => load_lines fuel f es gen
          | Some (key, value) =>
              if ATTR_MAX_KEYS <=? zlen es then Some (es, gen) else
              load_lines fuel f
                (es ++ [mk_entry (snprintf_s ATTR_MAX_KEY_LEN key) (snprintf_s ATTR_MAX_VALUE_LEN value) gen]) (u64 (gen + 1))
          end
      end
  end.

(** What [fopen] gives to read. *)
Inductive opened := Missing | Denied | Contents (f : list Z).

Definition attr_store_load (st : attr_store) (file : opened) : option (Z * attr_store) :=
  match file with
  | Missing => Some (OK, st)
  | Denied => Some (ERR, st)
  | Contents f =>
      '(es, gen) ← load_lines (length f) f st.(entries) st.(next_gen);
      Some (OK, mk_store es gen st.(txns) st.(next_txn_id))
  end.
