(* ===== verification/AttrSpec.v ===== *)
(** * Serializability of the attribute store

    The abstract store is a map from keys to values.  A transaction is the list
    of what its client was told and asked ([obs]); it is serializable when these
    can be replayed, one after the other, on the map it commits to.  [vmap] is
    the store as a map with generations; [txn_inv] is what the code keeps for a
    transaction that has not committed. *)

From stdpp Require Import gmap sorting.
From S2P Require Import Prelude AttrStore.

Abbreviation key := (list Z).
Abbreviation db := (gmap (list Z) (list Z)).

(** ** What a client observes, and what that means on a map *)

Inductive obs :=
  | ORead (k : key) (v : option (list Z))
  | OWrite (k : key) (v : list Z)
  | ODelete (k : key).

Definition replay1 (d : db) (o : obs) : option db :=
  match o with
  | ORead k v => if decide (d !! k = v) then Some d else None
  | OWrite k v => Some (<[k := v]> d)
  | ODelete k => Some (delete k d)
  end.

(** One transaction, alone; and transactions one after the other. *)
Definition replay (d : db) (log : list obs) : option db := foldl (λ d o, d ← d; replay1 d o) (Some d) log.
Definition replay_all (d : db) (logs : list (list obs)) : option db := foldl (λ d log, d ← d; replay d log) (Some d) logs.

Lemma replay_snoc d log o : replay d (log ++ [o]) = replay d log ≫= λ d, replay1 d o.
Proof. unfold replay. by rewrite foldl_app. Qed.

Lemma replay_all_snoc d logs log : replay_all d (logs ++ [log]) = replay_all d logs ≫= λ d, replay d log.
Proof. unfold replay_all. by rewrite foldl_app. Qed.

(** ** Slots *)

Lemma find_slot_Some {A} (p : A → bool) l i : find_slot p l = Some i → ∃ x, l !! i = Some x ∧ p x = true.
Proof.
  revert i. induction l as [|x l IH]; intros i; cbn; [done |]. destruct (p x) eqn:E; [intros [= <-]; by exists x |].
  destruct (find_slot p l) as [j|]; [| done]. cbn. intros [= <-]. by apply IH.
Qed.

Lemma find_slot_None {A} (p : A → bool) l : find_slot p l = None → ∀ x, x ∈ l → p x = false.
Proof.
  induction l as [|y l IH]; cbn; intros H x Hx; [by apply not_elem_of_nil in Hx |].
  destruct (p y) eqn:E; [done |]. destruct (find_slot p l); [done |]. apply elem_of_cons in Hx as [->|]; [done | by apply IH].
Qed.

(** Lists searched by a key. *)
Section keyed.
Context {A : Type} (key_of : A → key).

Lemma find_key_Some l k i :
  find_slot (λ x, bool_decide (key_of x = k)) l = Some i → ∃ x, l !! i = Some x ∧ key_of x = k.
Proof. intros (x & Hx & Hk%bool_decide_eq_true)%find_slot_Some. by exists x. Qed.

Lemma find_key_None l k : find_slot (λ x, bool_decide (key_of x = k)) l = None ↔ k ∉ key_of <$> l.
Proof.
  split.
  - intros H Hk%list_elem_of_fmap. destruct Hk as (x & -> & Hx). pose proof (find_slot_None _ _ H x Hx) as E.
    by rewrite bool_decide_eq_false in E.
  - intros Hk. destruct (find_slot _ l) as [i|] eqn:E; [| done]. apply find_key_Some in E as (x & Hx & <-).
    exfalso. apply Hk, list_elem_of_fmap. exists x. split; [done | by eapply list_elem_of_lookup_2].
Qed.
End keyed.

(** ** The store as a map with generations *)

Definition vmap_of (es : list attr_entry) : gmap key (list Z * Z) :=
  list_to_map ((λ e, (e.(e_key), (e.(e_value), e.(e_gen)))) <$> es).

(** What the store holds. *)
Definition db_of (es : list attr_entry) : db := fst <$> vmap_of es.

Definition gen_at (vm : gmap key (list Z * Z)) (k : key) : Z := match vm !! k with Some (_, g) => g | None => 0 end.

Lemma vmap_find es k :
  vmap_of es !! k = match i ← find_slot (λ e, bool_decide (e.(e_key) = k)) es; es !! i with
                    | Some e => Some (e.(e_value), e.(e_gen)) | None => None end.
Proof.
  unfold vmap_of. induction es as [|e es IH]; [apply lookup_empty |]. cbn [fmap list_fmap list_to_map foldr find_slot fst snd uncurry].
  destruct (decide (e.(e_key) = k)) as [<-|Hne].
  - rewrite lookup_insert, decide_True, bool_decide_true by done. done.
  - rewrite lookup_insert_ne, bool_decide_false by done. unfold vmap_of in IH. rewrite IH. by destruct (find_slot _ es).
Qed.

Lemma gen_of_at st k : gen_of st k = gen_at (vmap_of st.(entries)) k.
Proof. unfold gen_of, gen_at, entry_of, find_entry. rewrite vmap_find. by destruct (_ ≫= _). Qed.

Lemma entry_of_at st k : entry_of st k = None ↔ vmap_of st.(entries) !! k = None.
Proof. unfold entry_of, find_entry. rewrite vmap_find. by destruct (_ ≫= _). Qed.

Lemma entry_value st k : e_value <$> entry_of st k = db_of st.(entries) !! k.
Proof. unfold db_of, entry_of, find_entry. rewrite lookup_fmap, vmap_find. by destruct (_ ≫= _). Qed.

Abbreviation keys es := (e_key <$> es).

Lemma vmap_None es k : k ∉ keys es → vmap_of es !! k = None.
Proof. intros Hk. rewrite vmap_find. apply (find_key_None e_key) in Hk. by rewrite Hk. Qed.

Lemma vmap_perm es es' : NoDup (keys es) → es ≡ₚ es' → vmap_of es = vmap_of es'.
Proof.
  intros Hnd Hp. unfold vmap_of. apply list_to_map_proper; [| by rewrite Hp].
  rewrite <- list_fmap_compose. exact Hnd.
Qed.

Lemma vmap_cons e es : vmap_of (e :: es) = <[e.(e_key) := (e.(e_value), e.(e_gen))]> (vmap_of es).
Proof. done. Qed.

Lemma replace_perm {A} (l : list A) i x y : l !! i = Some x → <[i:=y]> l ≡ₚ y :: delete i l.
Proof.
  intros Hi%lookup_lt_Some. rewrite insert_take_drop, delete_take_drop by done. symmetry. apply Permutation_middle.
Qed.

Lemma list_alter_insert {A} (f : A → A) (l : list A) i x : l !! i = Some x → alter f i l = <[i := f x]> l.
Proof.
  intros Hi. apply list_eq. intros j. destruct (decide (i = j)) as [<-|].
  - rewrite list_lookup_alter_eq, Hi, list_lookup_insert_eq by (by eapply lookup_lt_Some). done.
  - by rewrite list_lookup_alter_ne, list_lookup_insert_ne.
Qed.

Lemma swap_remove_perm {A} (l : list A) i x : l !! i = Some x → l ≡ₚ x :: swap_remove i l.
Proof.
  intros Hi. unfold swap_remove. destruct (last l) as [y|] eqn:Hl.
  2: { apply last_None in Hl as ->. done. }
  apply last_Some in Hl as [l' ->]. rewrite length_app. cbn [length].
  replace (length l' + 1 - 1)%nat with (length l') by lia.
  destruct (decide (i = length l')) as [->|Hne].
  - rewrite insert_app_r_alt by lia. rewrite take_app_length. rewrite lookup_app_r, Nat.sub_diag in Hi by lia. injection Hi as ->.
    by rewrite Permutation_app_comm.
  - assert (i < length l')%nat. { apply lookup_lt_Some in Hi. rewrite length_app in Hi. cbn in Hi. lia. }
    rewrite lookup_app_l in Hi by lia. rewrite insert_app_l by lia. 
    replace (length l') with (length (<[i:=y]> l')) by apply length_insert. rewrite take_app_length.
    rewrite Permutation_app_comm. cbn.
    trans (y :: x :: delete i l'); [constructor; by apply delete_Permutation |].
    trans (x :: y :: delete i l'); [apply Permutation_swap |]. constructor. symmetry.
    by apply replace_perm with x.
Qed.

Lemma snprintf_whole size s : zlen s < size → snprintf_s size s = s.
Proof. intros H. unfold snprintf_s, zlen in *. apply take_ge. lia. Qed.

(** ** Applying a write set *)

(** A write whose strings fit their arrays. *)
Definition write_ok (w : attr_txn_write) : Prop := zlen w.(w_key) < ATTR_MAX_KEY_LEN ∧ zlen w.(w_value) < ATTR_MAX_VALUE_LEN.

Definition write_vmap (vm : gmap key (list Z * Z)) (gen : Z) (w : attr_txn_write) : gmap key (list Z * Z) :=
  if w.(w_is_delete) then delete w.(w_key) vm else <[w.(w_key) := (w.(w_value), gen)]> vm.

Lemma apply_write_ok es gen w es' gen' :
  NoDup (keys es) → write_ok w → 0 < gen → gen + 1 < 2 ^ 64 → apply_write es gen w = Some (es', gen') →
  NoDup (keys es') ∧ gen <= gen' <= gen + 1 ∧ (w.(w_is_delete) = false → gen' = gen + 1) ∧ vmap_of es' = write_vmap (vmap_of es) gen w.
Proof.
  intros Hnd [Hk Hv] Hg Hg'. unfold apply_write, write_vmap. rewrite !snprintf_whole by done.
  assert (u64 (gen + 1) = gen + 1) as -> by (unfold u64; rewrite Z.mod_small; lia).
  destruct (find_slot _ es) as [i|] eqn:Hi.
  - apply (find_key_Some e_key) in Hi as (e & Hi & He). pose proof (delete_Permutation _ _ _ Hi) as Hp.
    pose proof (vmap_perm _ _ Hnd Hp) as Evm. rewrite vmap_cons, He in Evm.
    assert (NoDup (e.(e_key) :: keys (delete i es))) as Hnd'.
    { change (e_key e :: keys (delete i es)) with (keys (e :: delete i es)). by rewrite <- Hp. }
    apply NoDup_cons in Hnd' as [Hnin Hnd']. rewrite He in Hnin. destruct (w_is_delete w); intros [= <- <-].
    + assert (swap_remove i es ≡ₚ delete i es) as Hs.
      { apply (Permutation_cons_inv (a := e)). by rewrite <- Hp, <- swap_remove_perm. }
      split; [by rewrite Hs |]. split; [lia |]. split; [done |].
      rewrite (vmap_perm _ (delete i es)); [| by rewrite Hs | done]. rewrite Evm, delete_insert_id; [done |]. by apply vmap_None.
    + rewrite (list_alter_insert _ _ _ e) by done.
      set (e' := mk_entry e.(e_key) w.(w_value) gen). assert (<[i:=e']> es ≡ₚ e' :: delete i es) as Hr by by eapply replace_perm.
      assert (NoDup (keys (<[i:=e']> es))) as Hnd2.
      { rewrite Hr. cbn. rewrite He. by constructor. }
      split; [done |]. split; [lia |]. split; [done |].
      rewrite (vmap_perm _ _ Hnd2 Hr), vmap_cons, Evm. cbn. by rewrite He, insert_insert_eq.
  - apply (find_key_None e_key) in Hi. destruct (w_is_delete w).
    + intros [= <- <-]. split; [done |]. split; [lia |]. split; [done |]. rewrite delete_id; [done | by apply vmap_None].
    + case_match; [done |]. intros [= <- <-]. set (e' := mk_entry _ _ _).
      assert (es ++ [e'] ≡ₚ e' :: es) as Hr by by rewrite Permutation_app_comm.
      assert (NoDup (keys (es ++ [e']))) as Hnd2 by (rewrite Hr; cbn; by constructor).
      split; [done |]. split; [lia |]. split; [done |]. by rewrite (vmap_perm _ _ Hnd2 Hr), vmap_cons.
Qed.

(** The write set on a map. *)
Definition write_db (d : db) (w : attr_txn_write) : db := if w.(w_is_delete) then delete w.(w_key) d else <[w.(w_key) := w.(w_value)]> d.
Definition writes_db (ws : list attr_txn_write) (d : db) : db := foldl write_db d ws.

Lemma write_vmap_db vm gen w : fst <$> write_vmap vm gen w = write_db (fst <$> vm) w.
Proof. unfold write_vmap, write_db. destruct (w_is_delete w); [by rewrite fmap_delete | by rewrite fmap_insert]. Qed.

(** Strings fit their arrays, generations are in use. *)
Definition vmap_ok (vm : gmap key (list Z * Z)) (gen : Z) : Prop :=
  ∀ k v g, vm !! k = Some (v, g) → zlen k < ATTR_MAX_KEY_LEN ∧ zlen v < ATTR_MAX_VALUE_LEN ∧ 1 <= g < gen.

Lemma write_vmap_ok vm gen gen' w :
  vmap_ok vm gen → write_ok w → 0 < gen → gen <= gen' → (w.(w_is_delete) = false → gen' = gen + 1) → vmap_ok (write_vmap vm gen w) gen'.
Proof.
  intros Hvm [Hk Hv] Hg Hle He k v g. unfold write_vmap. destruct (w_is_delete w).
  - intros [_ H]%lookup_delete_Some. apply Hvm in H as (? & ? & ?). split_and!; (done || lia).
  - specialize (He eq_refl). intros [[<- [= <- <-]]|[_ H]]%lookup_insert_Some; [split_and!; (done || lia) |].
    apply Hvm in H as (? & ? & ?). split_and!; (done || lia).
Qed.

(** [vm'] is [vm] but for keys removed or given generations from [gen] on. *)
Definition newer (vm vm' : gmap key (list Z * Z)) (gen : Z) : Prop :=
  ∀ k, vm' !! k = vm !! k ∨ vm' !! k = None ∨ ∃ v g, vm' !! k = Some (v, g) ∧ gen <= g.

Lemma newer_refl vm gen : newer vm vm gen.
Proof. intros k. by left. Qed.

Lemma newer_trans vm1 vm2 vm3 gen gen' : newer vm1 vm2 gen → newer vm2 vm3 gen' → gen <= gen' → newer vm1 vm3 gen.
Proof.
  intros H1 H2 Hle k. destruct (H2 k) as [->|[->|(v & g & -> & Hg)]]; [apply H1 | by right; left |].
  right. right. exists v, g. split; [done | lia].
Qed.

Lemma write_vmap_newer vm gen w : newer vm (write_vmap vm gen w) gen.
Proof.
  intros k. unfold write_vmap. destruct (w_is_delete w), (decide (w_key w = k)) as [<-|Hne].
  - right. left. apply lookup_delete_eq.
  - left. by apply lookup_delete_ne.
  - right. right. exists (w_value w), gen. split; [apply lookup_insert_eq | lia].
  - left. by apply lookup_insert_ne.
Qed.

Lemma apply_write_set_ok ws : ∀ es gen es' gen',
  NoDup (keys es) → vmap_ok (vmap_of es) gen → Forall write_ok ws → 0 < gen → gen + Z.of_nat (length ws) < 2 ^ 64 →
  apply_write_set es gen ws = (true, es', gen') →
  NoDup (keys es') ∧ vmap_ok (vmap_of es') gen' ∧ gen <= gen' <= gen + Z.of_nat (length ws) ∧
  db_of es' = writes_db ws (db_of es) ∧ newer (vmap_of es) (vmap_of es') gen.
Proof.
  induction ws as [|w ws IH]; intros es gen es' gen' Hnd Hvm Hws Hg Hlt; cbn [apply_write_set length].
  - intros [= <- <-]. split_and!; try done; try lia. apply newer_refl.
  - apply Forall_cons in Hws as [Hw Hws]. cbn [length] in Hlt.
    destruct (apply_write es gen w) as [[es1 gen1]|] eqn:E; [| done]. intros H.
    apply apply_write_ok in E as (Hnd1 & Hg1 & Hg1' & Evm); [| done..| lia].
    assert (vmap_ok (vmap_of es1) gen1) as Hvm1 by (rewrite Evm; apply (write_vmap_ok _ gen); (done || lia)).
    apply IH in H as (Hnd' & Hvm' & Hle & Hdb & Hnew); [| done..| lia | lia].
    split_and!; try done; try lia.
    + unfold writes_db. cbn [foldl]. fold (writes_db ws (write_db (db_of es) w)). rewrite Hdb. unfold db_of at 1.
      by rewrite Evm, write_vmap_db.
    + eapply newer_trans; [apply write_vmap_newer | rewrite <- Evm; exact Hnew | lia].
Qed.

(** What reading through a write set gives. *)
Lemma writes_db_lookup ws : ∀ d k,
  NoDup (w_key <$> ws) →
  writes_db ws d !! k = match j ← find_slot (λ w, bool_decide (w.(w_key) = k)) ws; ws !! j with
                        | Some w => if w.(w_is_delete) then None else Some w.(w_value)
                        | None => d !! k end.
Proof.
  induction ws as [|w ws IH]; intros d k Hnd; [done |]. cbn [fmap list_fmap] in Hnd. apply NoDup_cons in Hnd as [Hnin Hnd].
  unfold writes_db. cbn [foldl find_slot]. fold (writes_db ws (write_db d w)). rewrite IH by done. case_bool_decide as Hk.
  - subst k. apply (find_key_None w_key) in Hnin. rewrite Hnin. cbn. unfold write_db. destruct (w_is_delete w).
    + apply lookup_delete_eq.
    + apply lookup_insert_eq.
  - destruct (find_slot _ ws) as [j|] eqn:Ej.
    { apply find_slot_Some in Ej as (x & Ex & _). change ((S <$> Some j) ≫= λ j, (w :: ws) !! j) with (ws !! j).
      change (Some j ≫= λ j, ws !! j) with (ws !! j). by rewrite Ex. }
    cbn. unfold write_db.
    destruct (w_is_delete w); [by apply lookup_delete_ne | by apply lookup_insert_ne].
Qed.
