(* ===== verification/AttrCorrect.v ===== *)
(** * The attribute store, correct: sessions of its clients

    [attr_session] are the runs of the store with any number of clients whose
    operations interleave in any order; [h_logs] is what each open transaction
    has seen and staged, [h_done] the transactions committed, in order.  The
    invariant [attr_inv] carries serializability; the store's limits are
    computed counterexamples at the end. *)

From stdpp Require Import gmap sorting.
From S2P Require Import Prelude AttrStore AttrSpec.

(** ** What a transaction has, besides its sets

    [view]: for each key it touched, the value at the first touch.  As long as
    the generation has not changed the value has not; and what the client
    observed can be replayed on any map that agrees with the view. *)
Definition touched_ok (vm : gmap key (list Z * Z)) (gen : Z) (view : gmap key (option (list Z))) (r : attr_txn_touch) : Prop :=
  ∃ v, view !! r.(t_key) = Some v ∧ 0 <= r.(t_gen) < gen ∧ (r.(t_gen) = 0 → v = None) ∧
       (gen_at vm r.(t_key) = r.(t_gen) → fst <$> vm !! r.(t_key) = v).

Definition agrees_with (view : gmap key (option (list Z))) (d : db) : Prop := ∀ k v, view !! k = Some v → d !! k = v.

Record txn_inv (vm : gmap key (list Z * Z)) (gen : Z) (t : attr_txn) (log : list obs) : Prop := {
  txn_view : ∃ view,
    (∀ r, r ∈ t.(read_set) → touched_ok vm gen view r) ∧
    (∀ k, is_Some (view !! k) → k ∈ t_key <$> t.(read_set)) ∧
    (∀ d, agrees_with view d → replay d log = Some (writes_db t.(write_set) d));
  txn_writes : Forall write_ok t.(write_set);
  txn_nodup : NoDup (w_key <$> t.(write_set));
  txn_count : zlen t.(write_set) <= ATTR_TXN_KEYS_MAX;
}.

(** A commit of others: what was seen stays seen. *)
Lemma touched_newer vm vm' gen gen' view r :
  newer vm vm' gen → gen <= gen' → touched_ok vm gen view r → touched_ok vm' gen' view r.
Proof.
  intros Hn Hg (v & Hv & Hr & H0 & Hval). exists v. split; [done |]. split; [lia |]. split; [done |].
  unfold gen_at in *. destruct (Hn r.(t_key)) as [->|[->|(v' & g & -> & Hge)]]; [done | |].
  - intros E. cbn. symmetry. by apply H0.
  - intros ->. lia.
Qed.

Lemma txn_inv_newer vm vm' gen gen' t log :
  newer vm vm' gen → gen <= gen' → txn_inv vm gen t log → txn_inv vm' gen' t log.
Proof.
  intros Hn Hg [(view & Hr & Hk & Hd) ???]. split; try done. exists view. split; [| done].
  intros r Hin. eapply touched_newer; eauto.
Qed.

(** A commit that finds no conflict: what was seen is what is there. *)
Lemma no_conflict_agrees st t view :
  no_conflict st t = true → (∀ r, r ∈ t.(read_set) → touched_ok (vmap_of st.(entries)) st.(next_gen) view r) →
  (∀ k, is_Some (view !! k) → k ∈ t_key <$> t.(read_set)) → agrees_with view (db_of st.(entries)).
Proof.
  intros Hnc Hr Hk k v Hv. assert (is_Some (view !! k)) as Hs by eauto.
  apply Hk, list_elem_of_fmap in Hs as (r & -> & Hin).
  unfold no_conflict in Hnc. rewrite forallb_forall in Hnc. specialize (Hnc r). rewrite <- list_elem_of_In in Hnc.
  specialize (Hnc Hin). apply Z.eqb_eq in Hnc. rewrite gen_of_at in Hnc.
  destruct (Hr r Hin) as (v' & Hv' & _ & _ & Hval). unfold db_of. rewrite lookup_fmap, Hval by done. congruence.
Qed.

(** ** The first touch of a key *)

Definition is_touched (t : attr_txn) (k : key) : bool := bool_decide (k ∈ t_key <$> t.(read_set)).

Lemma txn_touch_read_seen t k g : is_touched t k = true → txn_touch_read t k g = Some t.
Proof.
  unfold is_touched, txn_touch_read. rewrite bool_decide_eq_true. intros Hin.
  destruct (find_slot _ _) eqn:E; [done |]. by apply (find_key_None t_key) in E.
Qed.

Lemma txn_touch_read_new t k g t' :
  is_touched t k = false → zlen k < ATTR_MAX_KEY_LEN → txn_touch_read t k g = Some t' →
  t' = mk_txn t.(in_use) t.(client_fd) t.(txn_id) (t.(read_set) ++ [mk_touch k g]) t.(write_set).
Proof.
  unfold is_touched, txn_touch_read. rewrite bool_decide_eq_false. intros Hnin Hk.
  destruct (find_slot _ _) as [i|] eqn:E.
  { apply (find_key_Some t_key) in E as (r & Hr & <-). exfalso. apply Hnin, list_elem_of_fmap. exists r.
    split; [done | by eapply list_elem_of_lookup_2]. }
  rewrite snprintf_whole by done. case_match; [done |]. by intros [= <-].
Qed.

Lemma view_fresh (view : gmap key (option (list Z))) t k :
  (∀ k, is_Some (view !! k) → k ∈ t_key <$> t.(read_set)) → is_touched t k = false → view !! k = None.
Proof.
  unfold is_touched. rewrite bool_decide_eq_false. intros Hv Hn. apply eq_None_not_Some. intros H. by apply Hn, Hv.
Qed.

(** A key touched: its value is in the view, and whatever is appended to the log
    for it may use that. *)
Lemma txn_touch_ok vm gen t k t' log :
  txn_inv vm gen t log → vmap_ok vm gen → 0 < gen → zlen k < ATTR_MAX_KEY_LEN → txn_touch_read t k (gen_at vm k) = Some t' →
  t'.(in_use) = t.(in_use) ∧ t'.(txn_id) = t.(txn_id) ∧ t'.(client_fd) = t.(client_fd) ∧ t'.(write_set) = t.(write_set) ∧
  is_touched t' k = true ∧ txn_inv vm gen t' log ∧
  (is_touched t k = false → find_slot (λ w, bool_decide (w.(w_key) = k)) t.(write_set) = None →
   txn_inv vm gen t' (log ++ [ORead k (fst <$> vm !! k)])).
Proof.
  intros Ht Hvm Hgen Hk H. destruct (is_touched t k) eqn:Hseen.
  { rewrite txn_touch_read_seen in H by done. injection H as <-. by split_and!. }
  apply txn_touch_read_new in H; [| done..]. subst t'. cbn.
  assert (is_touched (mk_txn t.(in_use) t.(client_fd) t.(txn_id) (t.(read_set) ++ [mk_touch k (gen_at vm k)]) t.(write_set)) k = true) as Hin.
  { unfold is_touched. apply bool_decide_eq_true. cbn. rewrite fmap_app. cbn. set_solver. }
  destruct Ht as [(view & Hr & Hdom & Hd) Hw Hnd Hc].
  assert (view !! k = None) as Hnone by by eapply view_fresh.
  set (view' := <[k := fst <$> vm !! k]> view).
  assert (∀ r, r ∈ t.(read_set) ++ [mk_touch k (gen_at vm k)] → touched_ok vm gen view' r) as Hr'.
  { intros r [Hin'| ->%list_elem_of_singleton]%elem_of_app.
    - destruct (Hr r Hin') as (v & Hv & Hrest). exists v. split; [| done]. unfold view'.
      rewrite lookup_insert_ne; [done |]. intros ->. congruence.
    - exists (fst <$> vm !! k). cbn. split; [apply lookup_insert_eq |]. unfold gen_at. destruct (vm !! k) as [[v g]|] eqn:E; cbn.
      + apply Hvm in E as (_ & _ & Hg). split; [lia |]. split; [lia | done].
      + split; [lia | done]. }
  assert (∀ j, is_Some (view' !! j) → j ∈ t_key <$> (t.(read_set) ++ [mk_touch k (gen_at vm k)])) as Hdom'.
  { intros j. unfold view'. rewrite fmap_app, elem_of_app. destruct (decide (k = j)) as [<-|].
    - intros _. right. cbn. set_solver.
    - rewrite lookup_insert_ne by done. auto. }
  assert (∀ d, agrees_with view' d → agrees_with view d) as Hsub.
  { intros d H j v Hj. apply H. unfold view'. rewrite lookup_insert_ne; [done |]. intros ->. congruence. }
  split_and!; try done.
  - split; try done. exists view'. split; [done |]. split; [done |]. intros d H. by apply Hd, Hsub.
  - intros _ Hnw. split; try done. exists view'. split; [done |]. split; [done |]. intros d H.
    rewrite replay_snoc, Hd by by apply Hsub. cbn. rewrite writes_db_lookup, Hnw by done. cbn.
    rewrite decide_True; [done |]. apply H. unfold view'. apply lookup_insert_eq.
Qed.

(** A read from the write set. *)
Lemma txn_read_own vm gen t k j w log :
  txn_inv vm gen t log → find_slot (λ w, bool_decide (w.(w_key) = k)) t.(write_set) = Some j → t.(write_set) !! j = Some w →
  txn_inv vm gen t (log ++ [ORead k (if w.(w_is_delete) then None else Some w.(w_value))]).
Proof.
  intros [(view & Hr & Hdom & Hd) Hw Hnd Hc] Hj Hjw. split; try done. exists view. split; [done |]. split; [done |].
  intros d H. rewrite replay_snoc, Hd by done. cbn. rewrite writes_db_lookup, Hj by done.
  change (Some j ≫= λ j, t.(write_set) !! j) with (t.(write_set) !! j). rewrite Hjw. by rewrite decide_True.
Qed.

(** The search only looks at the keys. *)
Lemma find_key_map {A} (key_of : A → key) l k :
  find_slot (λ x, bool_decide (key_of x = k)) l = find_slot (λ k', bool_decide (k' = k)) (key_of <$> l).
Proof. induction l as [|x l IH]; [done |]. cbn. case_bool_decide; [done |]. by rewrite IH. Qed.

Lemma writes_db_replace ws i w w' d :
  NoDup (w_key <$> ws) → ws !! i = Some w → w'.(w_key) = w.(w_key) → writes_db (<[i:=w']> ws) d = write_db (writes_db ws d) w'.
Proof.
  intros Hnd Hi Ek. assert (w_key <$> <[i:=w']> ws = w_key <$> ws) as Eks.
  { rewrite list_fmap_insert, Ek. apply list_insert_id. by rewrite list_lookup_fmap, Hi. }
  apply map_eq. intros k. rewrite writes_db_lookup by by rewrite Eks.
  rewrite (find_key_map w_key), Eks, <- (find_key_map w_key).
  assert (write_db (writes_db ws d) w' !! k = if decide (w'.(w_key) = k) then (if w'.(w_is_delete) then None else Some w'.(w_value)) else writes_db ws d !! k) as ->.
  { unfold write_db. destruct (w_is_delete w'), (decide (w_key w' = k)) as [<-|].
    - apply lookup_delete_eq.
    - by apply lookup_delete_ne.
    - apply lookup_insert_eq.
    - by apply lookup_insert_ne. }
  destruct (decide (w_key w' = k)) as [Hk|Hk].
  - assert (find_slot (λ w, bool_decide (w_key w = k)) ws = Some i) as ->.
    { destruct (find_slot _ ws) as [j|] eqn:Hj.
      - apply (find_key_Some w_key) in Hj as (x & Hj & Ex). f_equal. apply (NoDup_lookup _ _ _ k Hnd); rewrite list_lookup_fmap.
        + rewrite Hj. cbn. congruence.
        + rewrite Hi. cbn. congruence.
      - apply (find_key_None w_key) in Hj. exfalso. apply Hj, list_elem_of_fmap. exists w. split; [congruence |].
        by eapply list_elem_of_lookup_2. }
    change (Some i ≫= λ j, <[i:=w']> ws !! j) with (<[i:=w']> ws !! i).
    rewrite list_lookup_insert_eq by by eapply lookup_lt_Some. done.
  - rewrite writes_db_lookup by done. destruct (find_slot _ ws) as [j|] eqn:Hj; [| done].
    apply (find_key_Some w_key) in Hj as (x & Hj & Ex). cbn.
    rewrite list_lookup_insert_ne; [done |]. intros <-. congruence.
Qed.

(** A write staged. *)
Lemma stage_write_ok vm gen t k v del t' log :
  txn_inv vm gen t log → zlen k < ATTR_MAX_KEY_LEN → zlen v < ATTR_MAX_VALUE_LEN → stage_write t k v del = Some t' →
  t'.(in_use) = t.(in_use) ∧ t'.(txn_id) = t.(txn_id) ∧ t'.(client_fd) = t.(client_fd) ∧
  txn_inv vm gen t' (log ++ [if del then ODelete k else OWrite k v]).
Proof.
  intros [(view & Hr & Hdom & Hd) Hw Hnd Hc] Hk Hv. unfold stage_write, txn_find_write.
  assert (∀ ws, (∀ d, writes_db ws d = write_db (writes_db t.(write_set) d) (mk_write k v del)) →
    ∀ d, agrees_with view d → replay d (log ++ [if del then ODelete k else OWrite k v]) = Some (writes_db ws d)) as Hstep.
  { intros ws E d H. rewrite replay_snoc, Hd by done. cbn. rewrite E. unfold write_db. cbn. by destruct del. }
  destruct (find_slot _ t.(write_set)) as [i|] eqn:Hi.
  - apply (find_key_Some w_key) in Hi as (w & Hi & Ew). intros [= <-]. cbn. split_and!; try done.
    rewrite (list_alter_insert _ _ _ w) by done. rewrite Ew. split; cbn.
    + exists view. split; [done |]. split; [done |]. apply Hstep. intros d. by apply (writes_db_replace _ _ w).
    + by apply Forall_insert.
    + rewrite list_fmap_insert. cbn. rewrite list_insert_id; [done |]. by rewrite list_lookup_fmap, Hi, <- Ew.
    + by rewrite zlen_insert.
  - apply (find_key_None w_key) in Hi. destruct (Z.leb_spec ATTR_TXN_KEYS_MAX (zlen t.(write_set))); [done |]. rewrite snprintf_whole by done.
    intros [= <-]. cbn. split_and!; try done. split; cbn.
    + exists view. split; [done |]. split; [done |]. apply Hstep. intros d. unfold writes_db. by rewrite foldl_app.
    + apply Forall_app. split; [done |]. by apply Forall_singleton.
    + rewrite fmap_app. apply NoDup_app. split; [done |]. split; [| apply NoDup_singleton].
      intros k' Hin ->%list_elem_of_singleton. done.
    + rewrite zlen_app. change (zlen [_]) with 1. lia.
Qed.

(** ** Sessions *)

(** What each open transaction observed and staged, and those committed. *)
Record history := mk_history { h_logs : gmap Z (list obs); h_done : list (list obs) }.

Inductive attr_op :=
  | ABegin (fd : Z)
  | ACommit (id : Z)
  | ARollback (id : Z)
  | ARollbackClient (fd : Z)
  | ASet (id : Z) (k v : list Z)
  | ADelete (id : Z) (k : key)
  | AGet (id : Z) (k : key).

Definition txn_of (st : attr_store) (id : Z) : option (nat * attr_txn) :=
  i ← find_txn st id; txn ← st.(txns) !! i; Some (i, txn).

(** A read that says something new: of a staged write, or of a key not touched yet. *)
Definition first_read (st : attr_store) (id : Z) (k : key) : bool :=
  match txn_of st id with
  | Some (_, t) => (if txn_find_write t k is Some _ then true else negb (is_touched t k)) &&
                   (if txn_touch_read t k (gen_of st k) is Some _ then true else false)
  | None => false
  end.

Definition observe (h : history) (id : Z) (o : obs) : history :=
  mk_history (<[id := default [] (h.(h_logs) !! id) ++ [o]]> h.(h_logs)) h.(h_done).

(** An operation on the store, and what its answer adds to the history. *)
Definition attr_run (s : attr_store * history) (o : attr_op) : attr_store * history :=
  let '(st, h) := s in
  match o with
  | ABegin fd =>
      let '(r, st) := attr_store_txn_begin st fd in
      (st, match r with Some id => mk_history (<[id := []]> h.(h_logs)) h.(h_done) | None => h end)
  | ACommit id =>
      let '(rc, st) := attr_store_txn_commit st id in
      (st, if rc =? OK then mk_history h.(h_logs) (h.(h_done) ++ [default [] (h.(h_logs) !! id)]) else h)
  | ARollback id => (attr_store_txn_rollback st id, h)
  | ARollbackClient fd => (attr_store_txn_rollback_client st fd, h)
  | ASet id k v =>
      let '(rc, st) := attr_store_set st id k v in (st, if rc =? OK then observe h id (OWrite k v) else h)
  | ADelete id k =>
      let '(rc, st) := attr_store_delete st id k in (st, if rc =? OK then observe h id (ODelete k) else h)
  | AGet id k =>
      let '(r, st') := attr_store_get st id k ATTR_MAX_VALUE_LEN in
      (st', if first_read st id k then observe h id (ORead k r) else h)
  end.

(** Keys that fit their arrays, as the server's handler cuts them; and no commit
    that stops half way because the store is full. *)
Definition op_fits (st : attr_store) (o : attr_op) : Prop :=
  match o with
  | ADelete _ k | AGet _ k => zlen k < ATTR_MAX_KEY_LEN
  | ACommit id =>
      match txn_of st id with
      | Some (_, t) => no_conflict st t = true → (apply_write_set st.(entries) st.(next_gen) t.(write_set)).1.1 = true
      | None => True
      end
  | _ => True
  end.

(** A store without transactions, as [attr_store_init] and [attr_store_load] leave it. *)
Definition store_start (st : attr_store) : Prop :=
  NoDup (keys st.(entries)) ∧ vmap_ok (vmap_of st.(entries)) st.(next_gen) ∧ 0 < st.(next_gen) <= 65 ∧
  0 <= st.(next_txn_id) <= 1 ∧ Forall (λ t, t.(in_use) = false) st.(txns).

(** [n] operations after the start. *)
Inductive attr_session (st0 : attr_store) : nat → attr_store * history → Prop :=
  | session_start : attr_session st0 0 (st0, mk_history ∅ [])
  | session_op n s o : attr_session st0 n s → op_fits s.1 o → attr_session st0 (S n) (attr_run s o).

Record attr_inv (st0 : attr_store) (n : nat) (st : attr_store) (h : history) : Prop := {
  inv_keys : NoDup (keys st.(entries));
  inv_vmap : vmap_ok (vmap_of st.(entries)) st.(next_gen);
  inv_gen : 0 < st.(next_gen) <= 65 + 16 * Z.of_nat n;
  inv_id : 0 <= st.(next_txn_id) <= 1 + Z.of_nat n;
  inv_txn i t : st.(txns) !! i = Some t → t.(in_use) = true →
    0 <= t.(txn_id) < st.(next_txn_id) ∧
    ∃ log, h.(h_logs) !! t.(txn_id) = Some log ∧ txn_inv (vmap_of st.(entries)) st.(next_gen) t log;
  inv_distinct i j t u : st.(txns) !! i = Some t → st.(txns) !! j = Some u → t.(in_use) = true → u.(in_use) = true →
    t.(txn_id) = u.(txn_id) → i = j;
  inv_serial : replay_all (db_of st0.(entries)) h.(h_done) = Some (db_of st.(entries));
}.

Lemma txn_of_Some st id i t : txn_of st id = Some (i, t) → find_txn st id = Some i ∧ st.(txns) !! i = Some t ∧ t.(in_use) = true ∧ t.(txn_id) = id.
Proof.
  unfold txn_of, find_txn. destruct (find_slot _ _) as [j|] eqn:E; [| done]. apply find_slot_Some in E as (u & Hu & Hp).
  cbn [mbind option_bind]. rewrite Hu. cbn. intros [= <- <-]. apply andb_true_iff in Hp as [Hin Hid%Z.eqb_eq]. done.
Qed.

(** A slot given another transaction. *)
Lemma inv_slot st0 n st h h' i t t' log' :
  attr_inv st0 n st h → st.(txns) !! i = Some t → t.(in_use) = true → t'.(in_use) = true → t'.(txn_id) = t.(txn_id) →
  txn_inv (vmap_of st.(entries)) st.(next_gen) t' log' →
  h'.(h_done) = h.(h_done) → h'.(h_logs) = <[t.(txn_id) := log']> h.(h_logs) →
  attr_inv st0 n (set_txns st (<[i := t']> st.(txns))) h'.
Proof.
  intros [Hk Hv Hg Hi Ht Hd Hs] Hit Hu Hu' Hid Hlog Hdone Hlogs. split; cbn; try done.
  - intros j u Hj Huse. rewrite Hlogs. destruct (decide (i = j)) as [<-|Hne].
    + rewrite list_lookup_insert_eq in Hj by by eapply lookup_lt_Some. injection Hj as <-. rewrite Hid.
      split; [by apply (Ht i t) |]. exists log'. by rewrite lookup_insert_eq.
    + rewrite list_lookup_insert_ne in Hj by done. destruct (Ht j u Hj Huse) as (Hid2 & log & Hlg & Hinv). split; [done |].
      exists log. split; [| done]. rewrite lookup_insert_ne; [done |]. intros E. apply Hne. by eapply Hd.
  - assert (∀ j u, <[i:=t']> st.(txns) !! j = Some u → u.(in_use) = true →
      ∃ u0, st.(txns) !! j = Some u0 ∧ u0.(in_use) = true ∧ u0.(txn_id) = u.(txn_id)) as Hback.
    { intros j u Hj Huse. destruct (decide (i = j)) as [<-|Hne].
      - rewrite list_lookup_insert_eq in Hj by by eapply lookup_lt_Some. injection Hj as <-. by exists t.
      - rewrite list_lookup_insert_ne in Hj by done. by exists u. }
    intros j k u w Hj Hw Huse Hwuse E. destruct (Hback j u Hj Huse) as (u0 & ? & ? & ?), (Hback k w Hw Hwuse) as (w0 & ? & ? & ?).
    eapply (Hd j k u0 w0); try done. congruence.
  - rewrite Hdone. exact Hs.
Qed.

(** Slots emptied. *)
Lemma inv_clear st0 n st h l :
  attr_inv st0 n st h →
  (∀ i t, l !! i = Some t → t.(in_use) = true → st.(txns) !! i = Some t) → attr_inv st0 n (set_txns st l) h.
Proof.
  intros [Hk Hv Hg Hi Ht Hd Hs] Hl. split; try done.
  - intros i t Hit Hu. apply (Ht i t); auto.
  - intros i j t u Hit Hju Hu Hu'. apply Hd; auto.
Qed.

Lemma clear_slot_back st i j t : (clear_slot st i).(txns) !! j = Some t → t.(in_use) = true → st.(txns) !! j = Some t.
Proof.
  unfold clear_slot. cbn. intros Hj Hu. destruct (decide (i = j)) as [<-|].
  - apply list_lookup_insert_Some in Hj as [(_ & <- & _)|[? _]]; done.
  - by rewrite list_lookup_insert_ne in Hj.
Qed.

Lemma inv_succ st0 n st h : attr_inv st0 n st h → attr_inv st0 (S n) st h.
Proof. intros [Hk Hv Hg Hi Ht Hd Hs]. split; try done; lia. Qed.

Lemma inv_begin st0 n st h fd :
  attr_inv st0 n st h → Z.of_nat n + 2 < 2 ^ 32 →
  let '(r, st') := attr_store_txn_begin st fd in
  attr_inv st0 (S n) st' (match r with Some id => mk_history (<[id := []]> h.(h_logs)) h.(h_done) | None => h end).
Proof.
  intros Hinv Hn. unfold attr_store_txn_begin. destruct (find_slot _ st.(txns)) as [i|] eqn:Ei; [| by apply inv_succ].
  apply find_slot_Some in Ei as (t0 & Hi0 & Hfree%negb_true_iff). destruct Hinv as [Hk Hv Hg Hi Ht Hd Hs].
  assert (u32 (st.(next_txn_id) + 1) = st.(next_txn_id) + 1) as Eid by (unfold u32; apply Z.mod_small; lia).
  assert (∀ j t, <[i:=mk_txn true fd st.(next_txn_id) [] []]> st.(txns) !! j = Some t → t.(in_use) = true →
    (j = i ∧ t = mk_txn true fd st.(next_txn_id) [] []) ∨ (j ≠ i ∧ st.(txns) !! j = Some t ∧ t.(txn_id) < st.(next_txn_id))) as Hcase.
  { intros j t Hj Hu. apply list_lookup_insert_Some in Hj as [(-> & <- & _)|[Hne Hj]]; [by left | right].
    split; [done |]. split; [done |]. by apply (Ht j t). }
  split; cbn [entries next_gen txns next_txn_id h_logs h_done]; try done.
  - lia.
  - rewrite Eid. lia.
  - intros j t Hj Hu. rewrite Eid. destruct (Hcase j t Hj Hu) as [[-> ->]|(Hne & Hj' & Hlt)].
    + cbn. split; [lia |]. exists []. rewrite lookup_insert_eq. split; [done |]. split; cbn; try done; [| constructor].
      exists ∅. split; [intros r Hr; by apply not_elem_of_nil in Hr |]. split; [| done].
      intros k [v Hkv]. by rewrite lookup_empty in Hkv.
    + destruct (Ht j t Hj' Hu) as (Hid & log & Hlog & Hti). split; [lia |]. exists log. split; [| done].
      rewrite lookup_insert_ne by lia. done.
  - intros j k t u Hj Hk' Hu Hu' E.
    destruct (Hcase j t Hj Hu) as [[-> ->]|(Hne & Hj' & Hlt)], (Hcase k u Hk' Hu') as [[-> ->]|(Hne2 & Hk2 & Hlt2)]; cbn in E; try lia.
    by eapply Hd.
Qed.

Lemma inv_commit st0 n st h id :
  attr_inv st0 n st h → Z.of_nat n + 2 < 2 ^ 32 → op_fits st (ACommit id) →
  let '(rc, st') := attr_store_txn_commit st id in
  attr_inv st0 (S n) st' (if rc =? OK then mk_history h.(h_logs) (h.(h_done) ++ [default [] (h.(h_logs) !! id)]) else h).
Proof.
  intros Hinv Hn Hfit. cbn [op_fits] in Hfit. unfold attr_store_txn_commit.
  destruct (txn_of st id) as [[i t]|] eqn:Et.
  2: { unfold txn_of in Et. destruct (find_txn st id) as [i|]; [| by apply inv_succ]. cbn in Et.
       destruct (st.(txns) !! i) as [t|]; [done | by apply inv_succ]. }
  apply txn_of_Some in Et as (-> & Hit & Hu & Hid). rewrite Hit. destruct (no_conflict st t) eqn:Hnc.
  2: { change (ERR =? OK) with false. cbv iota. apply inv_succ, inv_clear; [done |]. intros j u. apply (clear_slot_back st i). }
  specialize (Hfit eq_refl). destruct (apply_write_set _ _ _) as [[done' es] gen] eqn:Ew. cbn in Hfit. subst done'.
  change (OK =? OK) with true. cbv iota. destruct Hinv as [Hk Hv Hg Hi Ht Hd Hs].
  destruct (Ht i t Hit Hu) as (Hid2 & log & Hlog & Hti). pose proof (txn_count _ _ _ _ Hti) as Hc.
  destruct (txn_view _ _ _ _ Hti) as (view & Hr & Hdom & Hrep).
  unfold ATTR_TXN_KEYS_MAX, zlen in Hc.
  apply apply_write_set_ok in Ew as (Hk' & Hv' & Hg' & Hdb & Hnew); [| done | done | by apply Hti | lia | lia].
  split; cbn [clear_slot set_txns entries next_gen txns next_txn_id h_logs h_done]; try done.
  - lia.
  - lia.
  - intros j u Hj Huse. apply (clear_slot_back st i) in Hj; [| done]. destruct (Ht j u Hj Huse) as (Hid3 & log' & Hlog' & Hti').
    split; [done |]. exists log'. split; [done |]. eapply txn_inv_newer; [exact Hnew | lia | done].
  - intros j k u w Hj Hk2 Hu1 Hu2. apply (clear_slot_back st i) in Hj; [| done]. apply (clear_slot_back st i) in Hk2; [| done]. by apply Hd.
  - rewrite replay_all_snoc, Hs. cbn [mbind option_bind]. rewrite <- Hid, Hlog. cbn [default from_option].
    rewrite Hdb. apply Hrep. by eapply no_conflict_agrees.
Qed.

(** The sets of an open transaction. *)
Lemma inv_open st0 n st h i t :
  attr_inv st0 n st h → st.(txns) !! i = Some t → t.(in_use) = true →
  ∃ log, h.(h_logs) !! t.(txn_id) = Some log ∧ txn_inv (vmap_of st.(entries)) st.(next_gen) t log.
Proof. intros Hinv Hi Hu. by apply (inv_txn _ _ _ _ Hinv i t). Qed.

Lemma inv_stage st0 n st h id k v del i t :
  attr_inv st0 n st h → txn_of st id = Some (i, t) → zlen k < ATTR_MAX_KEY_LEN → zlen v < ATTR_MAX_VALUE_LEN →
  let '(rc, st') := touch_and_stage st i t k v del in
  attr_inv st0 (S n) st' (if rc =? OK then observe h id (if del then ODelete k else OWrite k v) else h).
Proof.
  intros Hinv (_ & Hi & Hu & Hid)%txn_of_Some Hk Hv. destruct (inv_open _ _ _ _ _ _ Hinv Hi Hu) as (log & Hlog & Ht).
  unfold touch_and_stage. rewrite gen_of_at. destruct (txn_touch_read t k _) as [t1|] eqn:E1; [| by apply inv_succ].
  assert (0 < st.(next_gen)) as Hg by apply Hinv.
  destruct (txn_touch_ok _ _ _ _ _ _ Ht (inv_vmap _ _ _ _ Hinv) Hg Hk E1) as (Hu1 & Hid1 & _ & _ & _ & Ht1 & _).
  destruct (stage_write t1 k v del) as [t2|] eqn:E2.
  - destruct (stage_write_ok _ _ _ _ _ _ _ _ Ht1 Hk Hv E2) as (Hu2 & Hid2 & _ & Ht2).
    change (OK =? OK) with true. cbv iota. eapply inv_succ, inv_slot; try done; [congruence | congruence |].
    unfold observe. cbn [h_logs]. by rewrite <- Hid, Hlog.
  - change (ERR =? OK) with false. cbv iota. eapply inv_succ, inv_slot; try done; [congruence |].
    symmetry. by apply insert_id.
Qed.

Lemma inv_set st0 n st h id k v :
  attr_inv st0 n st h →
  let '(rc, st') := attr_store_set st id k v in attr_inv st0 (S n) st' (if rc =? OK then observe h id (OWrite k v) else h).
Proof.
  intros Hinv. unfold attr_store_set. fold (txn_of st id). destruct (txn_of st id) as [[i t]|] eqn:Et; [| by apply inv_succ].
  destruct (Z.leb_spec ATTR_MAX_KEY_LEN (zlen k)); [rewrite orb_true_r; by apply inv_succ |]. rewrite orb_false_r.
  destruct (zlen k =? 0); [by apply inv_succ |]. destruct (Z.leb_spec ATTR_MAX_VALUE_LEN (zlen v)); [by apply inv_succ |].
  rewrite snprintf_whole by done. by apply (inv_stage _ _ _ _ _ _ _ false).
Qed.

Lemma inv_delete st0 n st h id k :
  attr_inv st0 n st h → zlen k < ATTR_MAX_KEY_LEN →
  let '(rc, st') := attr_store_delete st id k in attr_inv st0 (S n) st' (if rc =? OK then observe h id (ODelete k) else h).
Proof.
  intros Hinv Hk. unfold attr_store_delete. fold (txn_of st id). destruct (txn_of st id) as [[i t]|] eqn:Et; [| by apply inv_succ].
  by apply (inv_stage _ _ _ _ _ _ _ true).
Qed.

Lemma inv_get st0 n st h id k :
  attr_inv st0 n st h → zlen k < ATTR_MAX_KEY_LEN →
  let '(r, st') := attr_store_get st id k ATTR_MAX_VALUE_LEN in
  attr_inv st0 (S n) st' (if first_read st id k then observe h id (ORead k r) else h).
Proof.
  intros Hinv Hk. unfold attr_store_get, first_read. fold (txn_of st id).
  destruct (txn_of st id) as [[i t]|] eqn:Et; [| by apply inv_succ].
  apply txn_of_Some in Et as (_ & Hi & Hu & Hid). destruct (inv_open _ _ _ _ _ _ Hinv Hi Hu) as (log & Hlog & Ht).
  destruct (txn_touch_read t k _) as [t1|] eqn:E1; [| rewrite andb_false_r; by apply inv_succ]. rewrite andb_true_r.
  rewrite gen_of_at in E1. assert (0 < st.(next_gen)) as Hg by apply Hinv.
  destruct (txn_touch_ok _ _ _ _ _ _ Ht (inv_vmap _ _ _ _ Hinv) Hg Hk E1) as (Hu1 & Hid1 & _ & Hw1 & Hseen & Ht1 & Hnew).
  assert (∀ log', txn_inv (vmap_of (entries st)) (next_gen st) t1 log' → ∀ o, log' = log ++ [o] →
    attr_inv st0 (S n) (set_txns st (<[i:=t1]> st.(txns))) (observe h id o)) as Hobs.
  { intros log' H o ->. eapply inv_succ, inv_slot; try done; [congruence |]. unfold observe. cbn [h_logs]. by rewrite <- Hid, Hlog. }
  assert (txn_find_write t1 k = txn_find_write t k) as Ef by (unfold txn_find_write; by rewrite Hw1).
  rewrite Ef. destruct (txn_find_write t k) as [j|] eqn:Ej.
  - pose proof Ej as (w & Hj & _)%find_slot_Some. cbn [mbind option_bind]. rewrite Hw1, Hj.
    assert (zlen w.(w_value) < ATTR_MAX_VALUE_LEN) as Hlen.
    { pose proof (txn_writes _ _ _ _ Ht) as Hall. eapply Forall_lookup_1 in Hall; [| exact Hj]. apply Hall. }
    rewrite snprintf_whole by done. eapply Hobs; [| done].
    apply (txn_read_own _ _ _ _ j w _ Ht1); [by rewrite Hw1 | by rewrite Hw1].
  - cbn [mbind option_bind].
    assert (match entry_of st k with Some e => Some (snprintf_s ATTR_MAX_VALUE_LEN e.(e_value)) | None => None end = fst <$> vmap_of st.(entries) !! k) as ->.
    { pose proof (entry_value st k) as E. unfold db_of in E. rewrite lookup_fmap in E. rewrite <- E. destruct (entry_of st k) as [e|] eqn:Ee; [| done].
      cbn. f_equal. apply snprintf_whole. cbn in E. destruct (vmap_of (entries st) !! k) as [[v g]|] eqn:Ev; [| done].
      injection E as ->. by apply (inv_vmap _ _ _ _ Hinv) in Ev as (_ & ? & _). }
    destruct (is_touched t k) eqn:Ht0; cbn [negb].
    + eapply inv_succ, inv_slot; try done; [congruence |]. symmetry. by apply insert_id.
    + eapply Hobs; [by apply Hnew | done].
Qed.

Lemma inv_start st0 : store_start st0 → attr_inv st0 0 st0 (mk_history ∅ []).
Proof.
  intros (Hk & Hv & Hg & Hi & Hall). rewrite Forall_lookup in Hall. split; try done; try lia.
  - intros i t Hit Hu. apply Hall in Hit. congruence.
  - intros i j t u Hit _ Hu. apply Hall in Hit. congruence.
Qed.

Lemma attr_run_inv st0 n st h o :
  attr_inv st0 n st h → Z.of_nat n + 2 < 2 ^ 32 → op_fits st o →
  attr_inv st0 (S n) (attr_run (st, h) o).1 (attr_run (st, h) o).2.
Proof.
  intros Hinv Hn Hfit. destruct o as [fd|id|id|fd|id k v|id k|id k]; cbn [attr_run].
  - pose proof (inv_begin st0 n st h fd Hinv Hn) as H. by destruct (attr_store_txn_begin st fd).
  - pose proof (inv_commit st0 n st h id Hinv Hn Hfit) as H. by destruct (attr_store_txn_commit st id).
  - unfold attr_store_txn_rollback. destruct (find_txn st id) as [i|]; [| by apply inv_succ].
    apply inv_succ, inv_clear; [done |]. intros j u. apply (clear_slot_back st i).
  - apply inv_succ, inv_clear; [done |]. intros i t Hi Hu. rewrite list_lookup_fmap in Hi.
    destruct (st.(txns) !! i) as [u|]; [| done]. cbn in Hi. injection Hi as <-. by case_match.
  - pose proof (inv_set st0 n st h id k v Hinv) as H. by destruct (attr_store_set st id k v).
  - pose proof (inv_delete st0 n st h id k Hinv Hfit) as H. by destruct (attr_store_delete st id k).
  - pose proof (inv_get st0 n st h id k Hinv Hfit) as H. by destruct (attr_store_get st id k ATTR_MAX_VALUE_LEN).
Qed.

Lemma attr_session_inv st0 n s : store_start st0 → attr_session st0 n s → Z.of_nat n + 1 < 2 ^ 32 → attr_inv st0 n s.1 s.2.
Proof.
  intros H0. induction 1 as [|n [st h] o Hs IH Hfit]; intros Hn; [by apply inv_start |].
  apply attr_run_inv; [apply IH; lia | lia | done].
Qed.

(** ** Commits without contention *)

(** An operation that neither commits nor rolls the transaction back. *)
Definition leaves_open (id : Z) (o : attr_op) : Prop :=
  match o with ACommit _ | ARollbackClient _ => False | ARollback id' => id' ≠ id | _ => True end.

(** The transaction is open and nothing it touched has changed. *)
Definition undisturbed (id : Z) (st : attr_store) : Prop :=
  ∃ i t, st.(txns) !! i = Some t ∧ t.(in_use) = true ∧ t.(txn_id) = id ∧ no_conflict st t = true.

Lemma open_txn_of st0 n st h id i t :
  attr_inv st0 n st h → st.(txns) !! i = Some t → t.(in_use) = true → t.(txn_id) = id → txn_of st id = Some (i, t).
Proof.
  intros Hinv Hi Hu Hid. unfold txn_of, find_txn. destruct (find_slot _ _) as [j|] eqn:E.
  - pose proof E as (u & Hj & [Hu2 Hid2%Z.eqb_eq]%andb_true_iff)%find_slot_Some. 
    assert (j = i) as -> by (eapply (inv_distinct _ _ _ _ Hinv); eauto; congruence). cbn. by rewrite Hi.
  - exfalso. eapply find_slot_None in E; [| by eapply list_elem_of_lookup_2]. cbn in E. rewrite Hu in E. cbn in E. lia.
Qed.

(** Searches of the entries do not look at the transactions. *)
Lemma no_conflict_entries st st' t : st'.(entries) = st.(entries) → no_conflict st' t = no_conflict st t.
Proof. intros E. unfold no_conflict, gen_of, entry_of, find_entry. by rewrite E. Qed.

Lemma touch_no_conflict st t k t' :
  zlen k < ATTR_MAX_KEY_LEN → txn_touch_read t k (gen_of st k) = Some t' → no_conflict st t = true → no_conflict st t' = true.
Proof.
  intros Hk H Hnc. destruct (is_touched t k) eqn:Hs.
  - rewrite txn_touch_read_seen in H by done. congruence.
  - apply txn_touch_read_new in H; [| done..]. subst t'. unfold no_conflict in *. cbn [read_set]. rewrite forallb_app, Hnc. cbn.
    by rewrite Z.eqb_refl.
Qed.

Lemma stage_read_set t k v del t' : stage_write t k v del = Some t' → t'.(read_set) = t.(read_set).
Proof. unfold stage_write. repeat case_match; try done; by intros [= <-]. Qed.

(** A transaction touched in its slot. *)
Lemma undisturbed_slot st0 n st h id id' i t t' :
  attr_inv st0 n st h → undisturbed id st → txn_of st id' = Some (i, t) → t'.(in_use) = true → t'.(txn_id) = t.(txn_id) →
  (no_conflict st t = true → no_conflict st t' = true) → undisturbed id (set_txns st (<[i := t']> st.(txns))).
Proof.
  intros Hinv (j & u & Hj & Hu & Hid & Hnc) (_ & Hi & Hu2 & Hid2)%txn_of_Some Hu' Hid' Hkeep. unfold undisturbed. cbn [txns set_txns].
  destruct (decide (i = j)) as [<-|Hne].
  - exists i, t'. rewrite list_lookup_insert_eq by by eapply lookup_lt_Some. assert (u = t) as -> by congruence.
    split; [done |]. split; [done |]. split; [congruence |]. rewrite (no_conflict_entries st) by done. by apply Hkeep.
  - exists j, u. rewrite list_lookup_insert_ne by done. by split_and!.
Qed.

Lemma undisturbed_stage st0 n st h id id' i t k v del :
  attr_inv st0 n st h → undisturbed id st → txn_of st id' = Some (i, t) → zlen k < ATTR_MAX_KEY_LEN → zlen v < ATTR_MAX_VALUE_LEN →
  undisturbed id (touch_and_stage st i t k v del).2.
Proof.
  intros Hinv Hq Ht Hk Hv. pose proof Ht as (_ & Hi & Hu & _)%txn_of_Some.
  destruct (inv_open _ _ _ _ _ _ Hinv Hi Hu) as (log & _ & Hti). assert (0 < st.(next_gen)) as Hg by apply Hinv.
  unfold touch_and_stage. destruct (txn_touch_read t k _) as [t1|] eqn:E1; [| done].
  pose proof E1 as E1'. rewrite gen_of_at in E1'.
  destruct (txn_touch_ok _ _ _ _ _ _ Hti (inv_vmap _ _ _ _ Hinv) Hg Hk E1') as (Hu1 & Hid1 & _ & _ & _ & Ht1 & _).
  destruct (stage_write t1 k v del) as [t2|] eqn:E2.
  - destruct (stage_write_ok _ _ _ _ _ _ _ _ Ht1 Hk Hv E2) as (Hu2 & Hid2 & _).
    eapply undisturbed_slot; try done; [congruence | congruence |]. intros Hnc.
    unfold no_conflict. rewrite (stage_read_set _ _ _ _ _ E2). by eapply touch_no_conflict.
  - eapply undisturbed_slot; try done; [congruence |]. by eapply touch_no_conflict.
Qed.

Lemma undisturbed_run st0 n st h id o :
  attr_inv st0 n st h → Z.of_nat n + 2 < 2 ^ 32 → undisturbed id st → op_fits st o → leaves_open id o → undisturbed id (attr_run (st, h) o).1.
Proof.
  intros Hinv Hn Hq Hfit Ho. destruct o as [fd|id'|id'|fd|id' k v|id' k|id' k]; cbn [attr_run leaves_open op_fits] in *; try done.
  - unfold attr_store_txn_begin. destruct (find_slot _ _) as [i|] eqn:E; [| done]. cbn [fst].
    apply find_slot_Some in E as (t0 & Hi0 & Hfree%negb_true_iff). destruct Hq as (j & u & Hj & Hu & Hid & Hnc).
    exists j, u. cbn [txns]. rewrite list_lookup_insert_ne by (intros <-; congruence). by split_and!.
  - unfold attr_store_txn_rollback. destruct Hq as (j & u & Hj & Hu & Hid & Hnc).
    destruct (find_txn st id') as [i|] eqn:E; [| by exists j, u]. cbn [fst].
    apply find_slot_Some in E as (t0 & Hi0 & [_ Hid0%Z.eqb_eq]%andb_true_iff). exists j, u. cbn [clear_slot txns set_txns].
    rewrite list_lookup_insert_ne by (intros <-; congruence). by split_and!.
  - unfold attr_store_set. fold (txn_of st id'). destruct (txn_of st id') as [[i t]|] eqn:Et; [| done].
    destruct (Z.leb_spec ATTR_MAX_KEY_LEN (zlen k)); [rewrite orb_true_r; done |]. rewrite orb_false_r.
    destruct (zlen k =? 0); [done |]. destruct (Z.leb_spec ATTR_MAX_VALUE_LEN (zlen v)); [done |]. rewrite snprintf_whole by done.
    pose proof (undisturbed_stage _ _ _ _ _ _ _ _ k v false Hinv Hq Et) as H1. by destruct (touch_and_stage _ _ _ _ _ _); apply H1.
  - unfold attr_store_delete. fold (txn_of st id'). destruct (txn_of st id') as [[i t]|] eqn:Et; [| done].
    pose proof (undisturbed_stage _ _ _ _ _ _ _ _ k [] true Hinv Hq Et) as H1. by destruct (touch_and_stage _ _ _ _ _ _); apply H1.
  - unfold attr_store_get. fold (txn_of st id'). destruct (txn_of st id') as [[i t]|] eqn:Et; [| done].
    destruct (txn_touch_read t k _) as [t1|] eqn:E1; [| done].
    assert (undisturbed id (set_txns st (<[i:=t1]> st.(txns)))) as H1.
    { pose proof Et as (_ & Hi & Hu & _)%txn_of_Some. destruct (inv_open _ _ _ _ _ _ Hinv Hi Hu) as (log & _ & Hti).
      pose proof E1 as E1'. rewrite gen_of_at in E1'. assert (0 < st.(next_gen)) as Hg by apply Hinv.
      destruct (txn_touch_ok _ _ _ _ _ _ Hti (inv_vmap _ _ _ _ Hinv) Hg Hfit E1') as (Hu1 & Hid1 & _).
      eapply undisturbed_slot; try done; [congruence |]. by eapply touch_no_conflict. }
    by destruct (_ ≫= _).
Qed.

Lemma undisturbed_runs ops : ∀ st0 n st h id,
  attr_inv st0 n st h → Z.of_nat (n + length ops) + 2 < 2 ^ 32 → undisturbed id st →
  Forall (λ o, leaves_open id o ∧ op_fits st o) ops →
  undisturbed id (foldl attr_run (st, h) ops).1 ∧
  ∃ m h', attr_inv st0 m (foldl attr_run (st, h) ops).1 h'.
Proof.
  induction ops as [|o ops IH]; intros st0 n st h id Hinv Hn Hq Hops; [split; [done | by exists n, h] |]. cbn [length] in Hn.
  apply Forall_cons in Hops as [[Hl Hf] Hops]. cbn [foldl].
  pose proof (undisturbed_run st0 n st h id o Hinv ltac:(lia) Hq Hf Hl) as Hq1.
  pose proof (attr_run_inv st0 n st h o Hinv ltac:(lia) Hf) as Hinv1.
  destruct (attr_run (st, h) o) as [st1 h1]. cbn [fst snd] in *. eapply IH; [exact Hinv1 | lia | done |].
  eapply Forall_impl; [exact Hops |]. intros o' [Hl' Hf']. split; [done |]. by destruct o'.
Qed.

(** ** Properties *)

(** C19: transactions are serializable, as far as what each is told of a key before it
    has touched it goes.  In every session of fewer than 2^32 operations (listing
    apart, which changes nothing and is not recorded), whatever the clients and
    however their operations interleave, with keys that fit their arrays and no commit
    that runs out of room half way ([op_fits]): the store is what running the committed
    transactions one after the other, in the order of their commits, makes of the
    first store; and each of them, alone at its place in that order, would have been
    told the same by its first read of every key, as long as its read set had room for
    the key, and by every read of a key it had itself set or deleted.  A second read of
    a key that it has only read is answered from the store as it is then, and may
    differ from the first in a transaction that commits; a read without room is
    answered as if the key were absent; and a commit that finds no room has applied a
    part of its writes: [attr_limits]. *)
Theorem transactions_serializable (st0 : attr_store) (n : nat) (st : attr_store) (h : history) :
  store_start st0 → attr_session st0 n (st, h) → Z.of_nat n + 1 < 2 ^ 32 →
  replay_all (db_of st0.(entries)) h.(h_done) = Some (db_of st.(entries)).
Proof. intros H0 Hs Hn. exact (inv_serial _ _ _ _ (attr_session_inv _ _ _ H0 Hs Hn)). Qed.

(** A transaction fails only when it is disturbed.  From its begin, whatever
    it and the other clients read and stage, as long as nobody commits, its
    commit succeeds (when the store has room for it). *)
Theorem uncontended_commit (st0 : attr_store) (n : nat) (st st1 : attr_store) (h : history) (fd id : Z) (ops : list attr_op) :
  store_start st0 → attr_session st0 n (st, h) → Z.of_nat (n + length ops) + 3 < 2 ^ 32 →
  attr_store_txn_begin st fd = (Some id, st1) → Forall (λ o, leaves_open id o ∧ op_fits st o) ops →
  let st2 := (foldl attr_run (attr_run (st, h) (ABegin fd)) ops).1 in
  op_fits st2 (ACommit id) → (attr_store_txn_commit st2 id).1 = OK.
Proof.
  intros H0 Hs Hn Hb Hops st2 Hfit.
  pose proof (attr_session_inv _ _ _ H0 Hs ltac:(lia)) as Hinv. cbn [fst snd] in Hinv.
  pose proof (attr_run_inv st0 n st h (ABegin fd) Hinv ltac:(lia) I) as Hinv1.
  assert (undisturbed id (attr_run (st, h) (ABegin fd)).1) as Hq.
  { cbn [attr_run]. rewrite Hb. cbn [fst]. unfold attr_store_txn_begin in Hb. destruct (find_slot _ _) as [i|] eqn:E; [| done].
    apply find_slot_Some in E as (t0 & Hi & _). injection Hb as <- <-. exists i, (mk_txn true fd st.(next_txn_id) [] []).
    split; [| done]. cbn. rewrite list_lookup_insert_eq; [done |]. by eapply lookup_lt_Some. }
  assert (undisturbed id st2 ∧ ∃ m h', attr_inv st0 m st2 h') as [(i & t & Hi & Hu & Hid & Hnc) (m & h' & Hinv2)].
  { unfold st2. destruct (attr_run (st, h) (ABegin fd)) as [sb hb]. apply (undisturbed_runs ops st0 (S n) sb hb); [exact Hinv1 | lia | exact Hq |].
    eapply Forall_impl; [exact Hops |]. intros o [Hl Hf]. split; [done |]. by destruct o. }
  unfold attr_store_txn_commit. pose proof (open_txn_of _ _ _ _ _ _ _ Hinv2 Hi Hu Hid) as Ht. cbn [op_fits] in Hfit. rewrite Ht in Hfit.
  apply txn_of_Some in Ht as (-> & Hi' & _). rewrite Hi', Hnc. specialize (Hfit Hnc).
  destruct (apply_write_set _ _ _) as [[d es] g]. cbn in Hfit. by subst d.
Qed.
