(* ===== verification/AttrFile.v ===== *)
(** * The attribute store: its file, its limits, and instances

    What [attr_store_save] writes is what [attr_store_load] reads, for strings
    the format can hold; and computed runs of what the store does not do. *)

From stdpp Require Import gmap sorting.
From S2P Require Import Prelude AttrStore AttrSpec AttrCorrect.

(** ** The text of a store, read back *)

(** An entry that the file can hold: no newline and no NUL, no '=' in the key,
    and strings that fit their arrays. *)
Definition entry_text_ok (e : attr_entry) : Prop :=
  0 < zlen e.(e_key) < ATTR_MAX_KEY_LEN ∧ zlen e.(e_value) < ATTR_MAX_VALUE_LEN ∧
  Forall (λ c, c ≠ 10 ∧ c ≠ 0 ∧ c ≠ 61) e.(e_key) ∧ Forall (λ c, c ≠ 10 ∧ c ≠ 0) e.(e_value).

Lemma fgets_line n s rest : Forall (λ c, c ≠ 10) s → (length s < n)%nat → fgets n (s ++ 10 :: rest) = (s ++ [10], rest).
Proof.
  revert n. induction s as [|c s IH]; intros n Hs Hn; (destruct n as [|n]; [cbn in Hn; lia |]); cbn [app fgets]; [done |].
  apply Forall_cons in Hs as [Hc Hs]. rewrite (proj2 (Z.eqb_neq _ _)) by done. rewrite IH by (done || (cbn in Hn; lia)). done.
Qed.

Lemma c_string_id s : Forall (λ c, c ≠ 0) s → c_string s = s.
Proof. induction 1 as [|c s Hc _ IH]; [done |]. cbn. rewrite (proj2 (Z.eqb_neq _ _)) by done. by rewrite IH. Qed.

Lemma find_eq k v : Forall (λ c, c ≠ 61) k → find_slot (λ c, c =? 61) (k ++ 61 :: v) = Some (length k).
Proof. induction 1 as [|c k Hc _ IH]; [done |]. cbn. rewrite (proj2 (Z.eqb_neq _ _)) by done. by rewrite IH. Qed.

Lemma parse_line_of e : entry_text_ok e → parse_line (line_of e.(e_key) e.(e_value)) = Some (e.(e_key), e.(e_value)).
Proof.
  intros (Hk & Hv & Hkc & Hvc). unfold parse_line, line_of.
  assert (e.(e_key) ++ [61] ++ e.(e_value) ++ [10] = (e.(e_key) ++ 61 :: e.(e_value)) ++ [10]) as -> by by rewrite <- app_assoc.
  rewrite c_string_id.
  2: { rewrite !Forall_app, Forall_cons, Forall_singleton. split_and!; try done;
       (eapply Forall_impl; [eassumption |]); cbn; intros c; tauto. }
  rewrite last_snoc, length_app, Nat.add_sub, take_app_length. rewrite (proj2 (Z.eqb_neq _ _)).
  2: { rewrite zlen_app, zlen_cons. pose proof (zlen_nonneg (e_value e)). lia. }
  rewrite find_eq by (eapply Forall_impl; [exact Hkc |]; cbn; tauto). cbn [mbind option_bind].
  rewrite take_app_length. f_equal. f_equal. rewrite drop_app_ge by lia. by replace (S (length (e_key e)) - length (e_key e))%nat with 1%nat by lia.
Qed.

Lemma load_lines_ok l : ∀ fuel es gen,
  Forall entry_text_ok l → zlen es + Z.of_nat (length l) <= ATTR_MAX_KEYS → 1 <= gen → gen + Z.of_nat (length l) < 2 ^ 64 →
  (length (concat (map (λ e, line_of e.(e_key) e.(e_value)) l)) <= fuel)%nat →
  ∃ es', load_lines fuel (concat (map (λ e, line_of e.(e_key) e.(e_value)) l)) es gen = Some (es ++ es', gen + Z.of_nat (length l)) ∧
    (λ e, (e.(e_key), e.(e_value))) <$> es' = (λ e, (e.(e_key), e.(e_value))) <$> l ∧
    Forall (λ e, gen <= e.(e_gen) < gen + Z.of_nat (length l)) es'.
Proof.
  induction l as [|e l IH]; intros fuel es gen Hl Hc Hg Hg64 Hfuel; cbn [map concat length].
  { exists []. rewrite app_nil_r, Z.add_0_r. split_and!; try done. by destruct fuel. }
  apply Forall_cons in Hl as [He Hl]. pose proof He as (Hk & Hv & Hkc & Hvc). cbn [map concat length] in *.
  set (text := concat (map (λ e, line_of (e_key e) (e_value e)) l)) in *.
  assert (line_of (e_key e) (e_value e) ++ text = (e.(e_key) ++ 61 :: e.(e_value)) ++ 10 :: text) as Et.
  { unfold line_of. by rewrite <- !app_assoc. }
  rewrite Et in *. destruct (e.(e_key)) as [|c k] eqn:Ek; [change (zlen []) with 0 in Hk; lia |]. rewrite <- Ek in *.
  destruct fuel as [|fuel]. { rewrite Ek in Hfuel. cbn in Hfuel. lia. }
  assert (∀ r, load_lines (S fuel) ((e.(e_key) ++ 61 :: e.(e_value)) ++ 10 :: text) es gen = r ↔
    (let '(line, f) := fgets 1155 ((e.(e_key) ++ 61 :: e.(e_value)) ++ 10 :: text) in
     match parse_line line with
     | None => load_lines fuel f es gen
     | Some (key, value) =>
         if ATTR_MAX_KEYS <=? zlen es then Some (es, gen) else
         load_lines fuel f (es ++ [mk_entry (snprintf_s ATTR_MAX_KEY_LEN key) (snprintf_s ATTR_MAX_VALUE_LEN value) gen]) (u64 (gen + 1))
     end) = r) as Hstep by (intros r; rewrite Ek; done).
  unfold zlen in Hk, Hv. unfold ATTR_MAX_KEY_LEN, ATTR_MAX_VALUE_LEN in Hk, Hv.
  rewrite fgets_line in Hstep.
  2: { rewrite Forall_app, Forall_cons. split_and!; [| done |]; (eapply Forall_impl; [eassumption |]); cbn; intros c'; tauto. }
  2: { rewrite length_app. cbn [length]. lia. }
  assert ((e.(e_key) ++ 61 :: e.(e_value)) ++ [10] = line_of e.(e_key) e.(e_value)) as El by (unfold line_of; by rewrite <- !app_assoc).
  rewrite El, parse_line_of in Hstep by done. rewrite (proj2 (Z.leb_gt _ _)) in Hstep by lia.
  unfold u64 in Hstep. rewrite (Z.mod_small (gen + 1)), !snprintf_whole in Hstep by (unfold zlen, ATTR_MAX_KEY_LEN, ATTR_MAX_VALUE_LEN; lia).
  destruct (IH fuel (es ++ [mk_entry e.(e_key) e.(e_value) gen]) (gen + 1)) as (es' & E & Epairs & Hgens); try done.
  - rewrite zlen_app. change (zlen [_]) with 1. lia.
  - lia.
  - lia.
  - rewrite !length_app in Hfuel. cbn [length] in Hfuel. lia.
  - exists (mk_entry e.(e_key) e.(e_value) gen :: es'). split; [apply Hstep; rewrite E, <- app_assoc; f_equal; f_equal; lia |].
    split; [cbn; by rewrite Epairs |]. constructor; [cbn; lia |]. eapply Forall_impl; [exact Hgens |]. cbn. lia.
Qed.

Lemma db_of_pairs es : db_of es = list_to_map ((λ e, (e.(e_key), e.(e_value))) <$> es).
Proof.
  unfold db_of, vmap_of. induction es as [|e es IH]; [apply fmap_empty |].
  change (fst <$> <[e.(e_key) := (e.(e_value), e.(e_gen))]> (list_to_map ((λ e, (e.(e_key), (e.(e_value), e.(e_gen)))) <$> es) : gmap key (list Z * Z)) =
    <[e.(e_key) := e.(e_value)]> (list_to_map ((λ e, (e.(e_key), e.(e_value))) <$> es) : db)).
  by rewrite fmap_insert, IH.
Qed.

Lemma vmap_in es k v g : vmap_of es !! k = Some (v, g) → ∃ e, e ∈ es ∧ e.(e_key) = k ∧ e.(e_value) = v ∧ e.(e_gen) = g.
Proof.
  rewrite vmap_find. destruct (find_slot _ es) as [i|] eqn:Ei; [| done]. apply (find_key_Some e_key) in Ei as (e & Hi & He).
  cbn [mbind option_bind]. rewrite Hi. intros [= <- <-]. exists e. split; [by eapply list_elem_of_lookup_2 | done].
Qed.

Lemma vmap_ok_entries es gen :
  Forall (λ e, zlen e.(e_key) < ATTR_MAX_KEY_LEN ∧ zlen e.(e_value) < ATTR_MAX_VALUE_LEN ∧ 1 <= e.(e_gen) < gen) es → vmap_ok (vmap_of es) gen.
Proof. rewrite Forall_forall. intros H k v g (e & Hin & <- & <- & <-)%vmap_in. by apply H. Qed.

(** C34: saving and loading.  Where saving answers ERR (the path is too long, or
    [fopen], [fclose] or [rename] fails) the file is the old one; where it answers
    OK the file is what the [fprintf] calls left of the text, and if they wrote it
    all, a new store that loads it has exactly the keys and values saved, and is a
    store sessions can start from.  This is for strings that have no newline and
    no NUL and keys that have no '=': for others, and for an [fprintf] that fails
    unnoticed, [attr_limits] shows what is lost. *)
Theorem store_file_roundtrip (st : attr_store) (path_len : Z) (d : disk) (old : option (list Z)) :
  NoDup (keys st.(entries)) → Forall entry_text_ok st.(entries) → zlen st.(entries) <= ATTR_MAX_KEYS →
  let '(rc, file) := attr_store_save st path_len d old in
  (rc = ERR ∧ file = old) ∨
  (rc = OK ∧ file = Some (written d (store_text st)) ∧
   (written d (store_text st) = store_text st →
    ∃ st', attr_store_load attr_store_init (Contents (written d (store_text st))) = Some (OK, st') ∧
      db_of st'.(entries) = db_of st.(entries) ∧ store_start st')).
Proof.
  intros Hnd Hok Hsz. unfold attr_store_save. destruct (PATH_MAX <=? path_len + 4); [by left |].
  destruct (fopen_ok d), (fclose_ok d), (rename_ok d); cbn [negb]; try by left. right. split; [done |]. split; [done |].
  intros ->. unfold store_text. set (l := merge_sort entry_le st.(entries)).
  assert (l ≡ₚ st.(entries)) as Hp by apply merge_sort_Permutation.
  assert (Forall entry_text_ok l) as Hl by by rewrite Hp.
  assert (length l = length st.(entries)) as Elen by by rewrite Hp.
  unfold ATTR_MAX_KEYS, zlen in Hsz.
  destruct (load_lines_ok l (length (concat (map (λ e, line_of e.(e_key) e.(e_value)) l))) [] 1) as (es' & E & Epairs & Hgens);
    [done | unfold ATTR_MAX_KEYS; change (zlen []) with 0; lia | lia | lia | done |].
  eexists. unfold attr_store_load. cbn [entries next_gen attr_store_init]. rewrite E. cbn [mbind option_bind]. split; [done |].
  cbn [entries app]. split.
  - rewrite !db_of_pairs, Epairs. apply list_to_map_proper; [| by rewrite Hp]. by rewrite <- list_fmap_compose, Hp.
  - assert (keys es' = keys l) as Ek.
    { apply (f_equal (fmap fst)) in Epairs. by rewrite <- !list_fmap_compose in Epairs. }
    split; [cbn [entries app]; by rewrite Ek, Hp |]. split.
    + cbn [entries next_gen app]. apply vmap_ok_entries, Forall_forall. intros e Hin. rewrite Forall_forall in Hgens. pose proof (Hgens e Hin).
      assert ((e.(e_key), e.(e_value)) ∈ (λ e, (e.(e_key), e.(e_value))) <$> l) as (x & [= Ekx Evx] & Hx)%list_elem_of_fmap.
      { rewrite <- Epairs. apply list_elem_of_fmap. by exists e. }
      rewrite Forall_forall in Hl. destruct (Hl x Hx) as (Hk & Hv & _). rewrite Ekx, Evx. split; [lia |]. split; [done | lia].
    + split; [cbn [next_gen]; lia |]. split; [done |]. by apply Forall_replicate.
Qed.

(** ** Limits, and instances *)

Definition k1 : key := str "k".
Definition k2 : key := str "x".

(** A run of operations on a new store. *)
Definition run0 (ops : list attr_op) : attr_store * history := foldl attr_run (attr_store_init, mk_history ∅ []) ops.

(** A store with [n] two-byte keys. *)
Definition full_store (n : nat) : attr_store :=
  mk_store (imap (λ i _, mk_entry [97; 33 + Z.of_nat i] [118] (1 + Z.of_nat i)) (replicate n ())) 65 (replicate 4 txn_clear) 1.

(** What a store holds for a key. *)
Definition held (st : attr_store) (k : key) : option (list Z) := db_of st.(entries) !! k.

(** Client 5 reads k, client 6 creates it, client 5 reads it again and writes x,
    client 6 deletes k. *)
Definition aba_ops : list attr_op :=
  [ABegin 5; AGet 1 k1; ABegin 6; ASet 2 k1 [118]; ACommit 2; AGet 1 k1; ASet 1 k2 [119]; ABegin 6; ADelete 3 k1; ACommit 3].

(** What the store does not do.  A transaction that reads a key twice can be
    told that it is absent, then a value, and still commit, since a key that was
    created and deleted again has generation 0 as before: no map explains its
    reads.  A commit that finds the store full answers ERR and leaves the writes it
    had made by then.  A value with a newline is saved as two lines and loaded as
    two keys.  Saving answers OK where an [fprintf] failed: here the second line was
    lost, and a key is gone when the file is loaded.  And a transaction that has
    touched as many keys as its read set holds is told of any other key that it is
    absent, and commits. *)
Theorem attr_limits :
  ((attr_store_get (run0 (take 1 aba_ops)).1 1 k1 1024).1 = None ∧
   (attr_store_get (run0 (take 5 aba_ops)).1 1 k1 1024).1 = Some [118] ∧
   (let '(rc, st) := attr_store_txn_commit (run0 aba_ops).1 1 in rc = OK ∧ held st k2 = Some [119]) ∧
   ∀ d, replay d [ORead k1 None; ORead k1 (Some [118]); OWrite k2 [119]] = None) ∧
  (let st := (foldl attr_run (full_store 63, mk_history ∅ []) [ABegin 5; ASet 1 k1 [118]; ASet 1 k2 [119]]).1 in
   held st k1 = None ∧
   let '(rc, st') := attr_store_txn_commit st 1 in rc = ERR ∧ held st' k1 = Some [118] ∧ held st' k2 = None) ∧
  (let st := mk_store [mk_entry k1 (str "a" ++ [10] ++ str "x=b") 1] 2 [] 1 in
   ∃ st', attr_store_load attr_store_init (Contents (store_text st)) = Some (OK, st') ∧
     held st k2 = None ∧ held st' k1 = Some (str "a") ∧ held st' k2 = Some (str "b")) ∧
  (let st := mk_store [mk_entry k1 (str "a") 1; mk_entry k2 (str "b") 2] 3 [] 1 in
   let '(rc, file) := attr_store_save st 10 (mk_disk (take 4) true true true) None in
   rc = OK ∧ ∃ st', attr_store_load attr_store_init (Contents (default [] file)) = Some (OK, st') ∧
     held st k2 = Some (str "b") ∧ held st' k1 = Some (str "a") ∧ held st' k2 = None) ∧
  (let st := (foldl attr_run (full_store 63, mk_history ∅ []) (ABegin 5 :: map (λ i, AGet 1 [120; Z.of_nat i]) (seq 1 16))).1 in
   held st [97; 33] = Some [118] ∧ (attr_store_get st 1 [97; 33] 1024).1 = None ∧ (attr_store_txn_commit st 1).1 = OK).
Proof.
  split_and!; try by (vm_compute; repeat split).
  - intros d. cbn. destruct (decide (d !! k1 = None)) as [E|]; [| done]. cbn. by rewrite decide_False by congruence.
  - eexists. split; [vm_compute; reflexivity |]. by vm_compute; repeat split.
  - split; [by vm_compute |]. eexists. split; [vm_compute; reflexivity |]. by vm_compute; repeat split.
Qed.

(** A session of [run0] from the new store, checked step by step. *)
Lemma session_run0 ops : Forall (λ o, match o with ACommit _ => False | _ => op_fits attr_store_init o end) ops →
  attr_session attr_store_init (length ops) (run0 ops).
Proof.
  induction ops as [|o ops IH] using rev_ind; intros H; [constructor |]. apply Forall_app in H as [H [Ho _]%Forall_cons].
  rewrite length_app, Nat.add_comm. unfold run0. rewrite foldl_app. cbn [foldl length Nat.add]. constructor; [by apply IH |].
  by destruct o.
Qed.

Lemma init_start : store_start attr_store_init.
Proof.
  split; [constructor |]. split; [intros k v g H; change (vmap_of (entries attr_store_init)) with (∅ : gmap key (list Z * Z)) in H; by rewrite lookup_empty in H |]. split; [done |]. split; [done |].
  by apply Forall_replicate.
Qed.

(** Two clients: the second commits while the first is at work. *)
Definition two_ops : list attr_op := [ABegin 5; ASet 1 k1 [118]; ABegin 6; AGet 2 k1; ASet 2 k2 [119]].

Lemma transactions_serializable_witness :
  let '(st, h) := attr_run (run0 two_ops) (ACommit 2) in
  h.(h_done) = [[ORead k1 None; OWrite k2 [119]]] ∧ replay_all ∅ h.(h_done) = Some (db_of st.(entries)).
Proof.
  split; [by vm_compute |].
  apply (transactions_serializable attr_store_init 6 (attr_run (run0 two_ops) (ACommit 2)).1 (attr_run (run0 two_ops) (ACommit 2)).2 init_start).
  - apply (session_op attr_store_init 5 (run0 two_ops) (ACommit 2)); [| by vm_compute].
    apply (session_run0 two_ops). repeat apply Forall_cons_2; try apply Forall_nil_2; by vm_compute.
  - done.
Defined.

Lemma uncontended_commit_witness :
  (attr_store_txn_commit (foldl attr_run (attr_run (run0 []) (ABegin 5)) [ASet 1 k1 [118]; ABegin 6; ADelete 2 k1; AGet 1 k2]).1 1).1 = OK.
Proof.
  apply (uncontended_commit attr_store_init 0 attr_store_init (attr_store_txn_begin attr_store_init 5).2 (mk_history ∅ []) 5 1
    [ASet 1 k1 [118]; ABegin 6; ADelete 2 k1; AGet 1 k2] init_start).
  - constructor.
  - done.
  - done.
  - repeat apply Forall_cons_2; try apply Forall_nil_2; by vm_compute.
  - by vm_compute.
Defined.

Lemma store_file_roundtrip_witness :
  let st := mk_store [mk_entry (str "title") (str "a=b") 7; mk_entry (str "color") [] 9] 10 [] 3 in
  ∃ f st', attr_store_load attr_store_init (Contents f) = Some (OK, st') ∧ db_of st'.(entries) = db_of st.(entries) ∧
    f = str "color=" ++ [10] ++ str "title=a=b" ++ [10].
Proof.
  pose proof (store_file_roundtrip (mk_store [mk_entry (str "title") (str "a=b") 7; mk_entry (str "color") [] 9] 10 [] 3) 20
    (mk_disk id true true true) None) as H.
  destruct H as [[Hrc _]|(_ & Hf & H)].
  - apply (bool_decide_unpack _). by vm_compute.
  - repeat apply Forall_cons_2; try apply Forall_nil_2; split_and!; try (by vm_compute);
      vm_compute; repeat constructor; done.
  - done.
  - discriminate Hrc.
  - destruct (H eq_refl) as (st' & Hload & Hdb & _). eexists _, st'. split; [exact Hload |]. split; [exact Hdb |]. by vm_compute.
Defined.
