(* ===== verification/AttrWire.v ===== *)
(** * The attribute store on the wire

    What an attribute message needs of the store it reads from: keys and values
    are bytes and transaction ids are 32 bits wide.  Every operation of
    AttrStore.v keeps that. *)

From stdpp Require Import gmap sorting.
From S2P Require Import Prelude AttrStore.

Definition bytes : list Z → Prop := Forall is_byte.

Definition entry_bytes (e : attr_entry) : Prop := bytes (e_key e) ∧ bytes (e_value e).
Definition write_bytes (w : attr_txn_write) : Prop := bytes (w_key w) ∧ bytes (w_value w).

Record attrs_ok (st : attr_store) : Prop := {
  ao_entries : Forall entry_bytes (entries st);
  ao_writes : Forall (λ t, Forall write_bytes (write_set t)) (txns st);
  ao_id : 0 <= next_txn_id st < 2 ^ 32;
}.

Lemma bytes_snprintf size s : bytes s → bytes (snprintf_s size s).
Proof. apply Forall_take. Qed.

Lemma bytes_c_string s : bytes s → bytes (c_string s).
Proof. induction 1 as [|c s Hc Hs IH]; cbn; [constructor |]. case_match; [constructor | by constructor]. Qed.

Lemma Forall_alter_at {A} (P : A → Prop) f i l : Forall P l → (∀ x, P x → P (f x)) → Forall P (alter f i l).
Proof. intros H Hf. apply Forall_alter; [done |]. intros x _. apply Hf. Qed.

Lemma Forall_swap_remove {A} (P : A → Prop) i l : Forall P l → Forall P (swap_remove i l).
Proof.
  intros H. unfold swap_remove. destruct (last l) as [x|] eqn:E; [| done]. apply Forall_take, Forall_insert; [done |].
  apply last_Some in E as [l' ->]. apply Forall_app in H as [_ H]. by inversion H.
Qed.

Section Keeps.
Implicit Types (st : attr_store).

Lemma set_txns_ok st l : attrs_ok st → Forall (λ t, Forall write_bytes (write_set t)) l → attrs_ok (set_txns st l).
Proof. by intros []. Qed.

Lemma init_ok : attrs_ok attr_store_init.
Proof. constructor; [constructor | by apply Forall_replicate | done]. Qed.

Lemma begin_ok st fd : attrs_ok st → let '(id, st') := attr_store_txn_begin st fd in
  attrs_ok st' ∧ (∀ n, id = Some n → 0 <= n < 2 ^ 32) ∧ entries st' = entries st ∧ next_gen st' = next_gen st.
Proof.
  intros [He Hw Hi]. unfold attr_store_txn_begin. destruct (find_slot _ _) as [i|]; [| done]. split_and!; try done.
  - constructor; [done | by apply Forall_insert | apply u32_range].
  - by intros n [= <-].
Qed.

Lemma clear_slot_ok st i : attrs_ok st → attrs_ok (clear_slot st i).
Proof. intros Hst. apply set_txns_ok; [done |]. apply Forall_insert; [apply Hst | constructor]. Qed.

Lemma apply_write_set_bytes ws : ∀ es gen, Forall entry_bytes es → Forall write_bytes ws →
  Forall entry_bytes (apply_write_set es gen ws).1.2.
Proof.
  induction ws as [|w ws IH]; intros es gen He Hws; [done |]. apply Forall_cons in Hws as [[Hk Hv] Hws].
  cbn [apply_write_set]. unfold apply_write. destruct (find_slot _ es) as [i|].
  - destruct (w_is_delete w); apply IH; try done; [by apply Forall_swap_remove |].
    apply Forall_alter_at; [done |]. intros e [H1 H2]. split; [done | by apply bytes_snprintf].
  - destruct (w_is_delete w); [by apply IH |]. destruct (_ <=? _); [done |]. apply IH; [| done].
    apply Forall_app. split; [done |]. apply Forall_singleton. split; by apply bytes_snprintf.
Qed.

Lemma commit_ok st id : attrs_ok st → attrs_ok (attr_store_txn_commit st id).2.
Proof.
  intros Hst. unfold attr_store_txn_commit. destruct (find_txn st id) as [i|]; [| done].
  destruct (txns st !! i) as [txn|] eqn:Ei; [| done]. destruct (no_conflict st txn); [| by apply clear_slot_ok].
  assert (Forall write_bytes (write_set txn)) as Hw by (eapply Forall_lookup_1 in Ei; [exact Ei | apply Hst]).
  pose proof (apply_write_set_bytes (write_set txn) (entries st) (next_gen st) (ao_entries _ Hst) Hw) as H.
  destruct (apply_write_set _ _ _) as [[d es] gen]. apply clear_slot_ok. by destruct Hst.
Qed.

Lemma rollback_ok st id : attrs_ok st → attrs_ok (attr_store_txn_rollback st id).
Proof. intros Hst. unfold attr_store_txn_rollback. destruct (find_txn st id); [by apply clear_slot_ok | done]. Qed.

Lemma rollback_client_ok st fd : attrs_ok st → attrs_ok (attr_store_txn_rollback_client st fd).
Proof.
  intros Hst. apply set_txns_ok; [done |]. apply Forall_fmap. eapply Forall_impl; [apply Hst |].
  intros t Ht. cbn. by destruct (_ && _).
Qed.

Lemma touch_read_write txn key gen txn' : txn_touch_read txn key gen = Some txn' → write_set txn' = write_set txn.
Proof. unfold txn_touch_read. repeat case_match; try done; by intros [= <-]. Qed.

Lemma touch_and_stage_ok st i txn key value d : attrs_ok st → txns st !! i = Some txn → bytes key → bytes value →
  attrs_ok (touch_and_stage st i txn key value d).2.
Proof.
  intros Hst Hi Hk Hv. unfold touch_and_stage. destruct (txn_touch_read _ _ _) as [txn1|] eqn:E1; [| done].
  assert (Forall write_bytes (write_set txn1)) as Hw.
  { rewrite (touch_read_write _ _ _ _ E1). eapply Forall_lookup_1 in Hi; [exact Hi | apply Hst]. }
  destruct (stage_write txn1 key value d) as [txn2|] eqn:E2.
  - apply set_txns_ok; [done |]. apply Forall_insert; [apply Hst |]. unfold stage_write in E2.
    destruct (txn_find_write txn1 key); [injection E2 as <- | case_match; [done |]; injection E2 as <-]; cbn [write_set].
    + apply Forall_alter_at; [done |]. by intros w [].
    + apply Forall_app. split; [done |]. apply Forall_singleton. split; [by apply bytes_snprintf | done].
  - apply set_txns_ok; [done |]. by apply Forall_insert; [apply Hst |].
Qed.

Lemma txn_slot st id (i : nat) (txn : attr_txn) :
  (i ← find_txn st id; txn ← txns st !! i; Some (i, txn)) = Some (i, txn) → txns st !! i = Some txn.
Proof. destruct (find_txn st id) as [j|]; [| done]. cbn. destruct (txns st !! j) eqn:E; [| done]. by intros [= -> ->]. Qed.

Lemma set_ok st id key value : attrs_ok st → bytes key → bytes value → attrs_ok (attr_store_set st id key value).2.
Proof.
  intros Hst Hk Hv. unfold attr_store_set. destruct (_ ≫= _) as [[i txn]|] eqn:E; [| done].
  apply txn_slot in E. repeat case_match; try done. apply touch_and_stage_ok; try done. by apply bytes_snprintf.
Qed.

Lemma delete_ok st id key : attrs_ok st → bytes key → attrs_ok (attr_store_delete st id key).2.
Proof.
  intros Hst Hk. unfold attr_store_delete. destruct (_ ≫= _) as [[i txn]|] eqn:E; [| done].
  apply txn_slot in E. by apply touch_and_stage_ok; [| | | constructor].
Qed.

Lemma get_ok st id key max : attrs_ok st → let '(v, st') := attr_store_get st id key max in
  attrs_ok st' ∧ (∀ s, v = Some s → bytes s) ∧ entries st' = entries st ∧ next_gen st' = next_gen st.
Proof.
  intros Hst. unfold attr_store_get. destruct (_ ≫= _) as [[i txn]|] eqn:E; [| done].
  apply txn_slot in E. destruct (txn_touch_read _ _ _) as [txn1|] eqn:E1; [| done].
  assert (Forall write_bytes (write_set txn1)) as Hw.
  { rewrite (touch_read_write _ _ _ _ E1). eapply Forall_lookup_1 in E; [exact E | apply Hst]. }
  assert (attrs_ok (set_txns st (<[i := txn1]> (txns st)))) as Hok by (apply set_txns_ok; [done |]; by apply Forall_insert; [apply Hst |]).
  destruct (txn_find_write txn1 key) as [j|]; cbn [mbind option_bind].
  - destruct (write_set txn1 !! j) as [w|] eqn:Ej.
    + split_and!; try done. destruct (w_is_delete w); [done |]. intros s [= <-]. apply bytes_snprintf.
      by destruct (Forall_lookup_1 _ _ _ _ Hw Ej).
    + split_and!; try done. destruct (entry_of st key) as [e|] eqn:Ee; [| done]. intros s [= <-]. apply bytes_snprintf.
      unfold entry_of in Ee. destruct (find_entry st key); [| done]. by destruct (Forall_lookup_1 _ _ _ _ (ao_entries _ Hst) Ee).
  - split_and!; try done. destruct (entry_of st key) as [e|] eqn:Ee; [| done]. intros s [= <-]. apply bytes_snprintf.
    unfold entry_of in Ee. destruct (find_entry st key); [| done]. by destruct (Forall_lookup_1 _ _ _ _ (ao_entries _ Hst) Ee).
Qed.

Lemma line_bytes k v : bytes k → bytes v → bytes (line_of k v).
Proof. intros Hk Hv. unfold line_of. by repeat first [apply Forall_app_2 | apply Forall_cons_2 | apply Forall_nil_2 | done]. Qed.

Lemma emit_bytes max lines : ∀ out pos, Forall bytes lines → bytes out → bytes (emit_lines max lines out pos).1.
Proof.
  induction lines as [|l lines IH]; intros out pos Hl Ho; [done |]. apply Forall_cons in Hl as [Hl Hls]. cbn [emit_lines].
  assert (bytes (take (Z.to_nat pos) out ++ take (Z.to_nat (max - pos - 1)) l)) by (by apply Forall_app_2; apply Forall_take).
  case_match; [done | by apply IH].
Qed.

Lemma list_ok st id max out : attrs_ok st → attr_store_list st id max = Some out → bytes out.
Proof.
  intros Hst. unfold attr_store_list. destruct (_ ≫= _) as [txn|] eqn:E; [| done].
  assert (Forall write_bytes (write_set txn)) as Hw.
  { destruct (find_txn st id); [| done]. eapply Forall_lookup_1 in E; [exact E | apply Hst]. }
  assert (Forall bytes (omap (overlaid txn) (entries st))) as H1.
  { pose proof (ao_entries _ Hst) as He. induction He as [|e es [Hk Hv] He IH]; [constructor |]. cbn [omap list_omap].
    destruct (overlaid txn e) as [l|] eqn:El; [| done]. constructor; [| done]. unfold overlaid in El.
    destruct (txn_find_write txn (e_key e)) as [j|]; cbn [mbind option_bind] in El; [| injection El as <-; by apply line_bytes].
    destruct (write_set txn !! j) as [w|] eqn:Ew; [| injection El as <-; by apply line_bytes].
    destruct (w_is_delete w); [done |]. injection El as <-. destruct (Forall_lookup_1 _ _ _ _ Hw Ew). by apply line_bytes. }
  assert (Forall bytes (omap (added st) (write_set txn))) as H2.
  { clear -Hw. induction Hw as [|w ws [Hk Hv] Hw IH]; [constructor |]. cbn [omap list_omap].
    destruct (added st w) as [l|] eqn:El; [| done]. constructor; [| done]. unfold added in El.
    destruct (w_is_delete w); [done |]. destruct (find_entry st (w_key w)); [done |]. injection El as <-. by apply line_bytes. }
  pose proof (emit_bytes max _ [] 0 H1 ltac:(constructor)) as H3. destruct (emit_lines max (omap (overlaid txn) (entries st)) [] 0) as [o pos].
  intros [= <-]. by apply emit_bytes.
Qed.
End Keeps.

(** ** The file *)

Lemma fgets_ok n f : bytes f → let '(l, rest) := fgets n f in
  bytes l ∧ bytes rest ∧ (length rest <= length f)%nat ∧ (n ≠ O → f ≠ [] → (length rest < length f)%nat).
Proof.
  intros Hf. revert n; induction Hf as [|c f Hc Hf IH]; intros n; [destruct n; cbn; by repeat constructor |].
  destruct n as [|n]; cbn [fgets]; [split_and!; [constructor | by constructor | done | done] |].
  destruct (c =? 10); [cbn; split_and!; [by repeat constructor | done | lia | lia] |].
  specialize (IH n). destruct (fgets n f) as [l rest]. destruct IH as (Hl & Hr & Hle & _). cbn.
  split_and!; [by constructor | done | lia | lia].
Qed.

Lemma parse_bytes line k v : bytes line → parse_line line = Some (k, v) → bytes k ∧ bytes v.
Proof.
  intros Hl. unfold parse_line.
  assert (bytes (if last (c_string line) is Some 10 then take (length (c_string line) - 1) (c_string line) else c_string line)) as H1.
  { pose proof (bytes_c_string line Hl). repeat case_match; try done; by apply Forall_take. }
  cbv zeta. revert H1. generalize (if last (c_string line) is Some 10 then take (length (c_string line) - 1) (c_string line) else c_string line) as s.
  intros s Hs. destruct (zlen s =? 0); [done |]. destruct (find_slot _ s) as [e|]; [| done]. cbn.
  intros [= <- <-]. split; [by apply Forall_take | by apply Forall_drop].
Qed.

Lemma load_lines_bytes fuel : ∀ f es gen, (length f <= fuel)%nat → bytes f → Forall entry_bytes es →
  yields (load_lines fuel f es gen) (λ x, Forall entry_bytes x.1).
Proof.
  induction fuel as [|fuel IH]; intros f es gen Hle Hf Hes; destruct f as [|c f]; try done; [cbn in Hle; lia |].
  cbn [load_lines]. pose proof (fgets_ok (Z.to_nat (ATTR_MAX_KEY_LEN + ATTR_MAX_VALUE_LEN + 4 - 1)) (c :: f) Hf) as H.
  destruct (fgets _ (c :: f)) as [line rest]. destruct H as (Hl & Hr & _ & Hlt).
  assert (length rest < length (c :: f))%nat as Hlt' by (by apply Hlt).
  destruct (parse_line line) as [[k v]|] eqn:E; [| apply IH; (done || lia)].
  destruct (parse_bytes _ _ _ Hl E). case_match; [done |]. apply IH; [lia | done |].
  apply Forall_app_2; [done |]. apply Forall_cons_2; [| constructor]. split; by apply bytes_snprintf.
Qed.

(** What may be in the file. *)
Definition opened_bytes (file : opened) : Prop := match file with Contents f => bytes f | _ => True end.

Lemma load_file_bytes file : opened_bytes file → yields (attr_store_load attr_store_init file) (λ x, attrs_ok x.2).
Proof.
  intros Hf. destruct init_ok as [He Hw Hi]. destruct file as [| |f]; [by constructor | by constructor |]. unfold attr_store_load.
  eapply yields_seq; [by apply load_lines_bytes |]. intros [es gen] Hes. by constructor.
Qed.
