(* ===== verification/Mserver.v ===== *)
(** * The session server: src/cmd/mserver/mserver.c

    One process per window: it reads the program's output from the PTY, keeps the
    window's terminal up to date and sends the output to every client; what a
    client types it writes to the PTY, if that client holds the keyboard.  Here
    the state and every handler, as the code has them.  The window is behind the
    interface [Window]; sockets, the PTY, the clock and [realloc] answer from
    schedules kept in the state.  A client is its slot in the table. *)

From stdpp Require Import gmap.
From S2P Require Import Prelude Microser LumiMsg IpcMsg AttrStore.

(** ** Interfaces *)

(** What the server uses of libsession/window.c and of the terminal in it.
    [None] is a trap. *)
Class Window (W : Type) := {
  window_feed : W → list Z → option W;
  window_resize : W → Z → Z → Z → Z → option W;
  window_dump : W → option (list Z);
  window_rows : W → option Z;
  window_cols : W → option Z;
  window_vt_title : W → option (list Z);
  window_title : W → list Z;
  window_set_title : W → list Z → W;
  window_set_term_colors : W → list Z → list Z → W;
}.

(** The variables of mserver.h that a test may lower. *)
Class Tunables := {
  mserver_outq_hard_limit : Z;
  mserver_stall_secs : Z;
  mserver_outq_high_water : Z;
  mserver_outq_low_water : Z;
}.

(** Their values otherwise. *)
Definition default_tunables : Tunables :=
  {| mserver_outq_hard_limit := Z.shiftl 4 20; mserver_stall_secs := 10;
     mserver_outq_high_water := Z.shiftl 1 20; mserver_outq_low_water := 256 * 1024 |}.

(** ** Constants *)

Definition MCLIENT_MAX : nat := 8.
Definition INRUN_HARD_LIMIT : Z := Z.shiftl 4 20.
Definition REPLAY_BUFSZ : Z := 32768.
Definition NAME_SIZE : Z := 64.

Definition IPC_MSG_DETACH : Z := 2.
Definition IPC_MSG_KILL : Z := 3.
Definition IPC_MSG_OK : Z := 4.
Definition IPC_MSG_ERROR : Z := 5.
Definition IPC_MSG_ROLE_CHANGE : Z := 7.
Definition IPC_MSG_CLIENT_EVENT : Z := 8.
Definition IPC_MSG_ROLE_REQUEST : Z := 9.
Definition IPC_MSG_INPUT : Z := 0x100.
Definition IPC_MSG_OUTPUT : Z := 0x101.
Definition IPC_MSG_FLOW_CTRL : Z := 0x102.
Definition IPC_MSG_REFRESH : Z := 0x103.
Definition IPC_MSG_INPUT_BEGIN : Z := 0x104.
Definition IPC_MSG_INPUT_END : Z := 0x105.
Definition IPC_MSG_PTY_FLAGS : Z := 0x201.
Definition IPC_MSG_WIN_RESIZE : Z := 0x207.
Definition IPC_MSG_TERM_COLORS : Z := 0x208.
Definition IPC_MSG_ATTR_TXN_BEGIN : Z := 0x300.
Definition IPC_MSG_ATTR_TXN_COMMIT : Z := 0x301.
Definition IPC_MSG_ATTR_TXN_ROLLBACK : Z := 0x302.
Definition IPC_MSG_ATTR_TXN_OK : Z := 0x303.
Definition IPC_MSG_ATTR_SET : Z := 0x310.
Definition IPC_MSG_ATTR_DELETE : Z := 0x311.
Definition IPC_MSG_ATTR_GET : Z := 0x320.
Definition IPC_MSG_ATTR_VALUE : Z := 0x321.
Definition IPC_MSG_ATTR_LIST : Z := 0x322.
Definition IPC_MSG_ATTR_ENTRIES : Z := 0x323.
Definition IPC_MSG_ATTR_OK : Z := 0x324.

Definition IPC_CLIENT_JOIN : Z := 1.
Definition IPC_CLIENT_LEAVE : Z := 2.
Definition IPC_CLIENT_ROLE : Z := 3.

Definition IPC_ROLE_WRITE : Z := 0.
Definition IPC_ROLE_VIEW : Z := 1.

Definition IPC_ATTACH_F_VIEW : Z := 1.
Definition IPC_ATTACH_F_SIZE_OBSERVE : Z := 2.
Definition IPC_ATTACH_F_TOKEN : Z := 8.
Definition IPC_ATTACH_F_INJECT : Z := 16.

Definition IPC_PTY_ECHO : Z := 1.
Definition IOX_READ : Z := 1.
Definition IOX_WRITE : Z := 2.

(** ** A client's socket *)

(** The next answer of a non-blocking [send]: EINTR, EAGAIN, another error, or
    how many bytes it takes at most.  When the schedule ends nothing more is
    taken: EAGAIN. *)
Inductive nbsend := SIntr | SAgain | SFail | STook (n : Z).

(** The descriptor as blocking calls see it, and what [send] will answer. *)
Record sock := mk_sock { sk_conn : conn; sk_send : list nbsend }.

Inductive send_end := Drained | Blocked | Failed.

(** The loop of [mclient_flush]: how it ended, the bytes taken, the schedule left. *)
Fixpoint send_loop (evs : list nbsend) (bs : list Z) : send_end * list Z * list nbsend :=
  if zlen bs <=? 0 then (Drained, [], evs) else
  match evs with
  | [] => (Blocked, [], [])
  | SIntr :: evs => send_loop evs bs
  | SAgain :: evs => (Blocked, [], evs)
  | SFail :: evs => (Failed, [], evs)
  | STook n :: evs =>
      let w := Z.to_nat n in
      let '(e, more, evs) := send_loop evs (drop w bs) in (e, take w bs ++ more, evs)
  end.

(** ** A client *)

(** [outq] holds the [outq_len] valid bytes and [inq] the [inq_len].  [watch] is
    the interest registered for the descriptor in the event loop. *)
Record mclient := mk_mclient {
  fd : Z;
  outq : list Z; outq_off : Z; outq_cap : Z;
  hiwater : bool; paused : bool; stall_since : Z;
  role : Z; flags : Z; client_id : Z;
  rows : Z; cols : Z; cell_pw : Z; cell_ph : Z;
  name : list Z; last_deny : Z; ready : bool;
  inq : list Z; inq_cap : Z; inrun : bool;
  sk : sock; watch : option Z;
}.

(** A slot of the static table after [mclient_table_init]. *)
Definition mclient_free : mclient :=
  mk_mclient (-1) [] 0 0 false false 0 0 0 0 0 0 0 0 [] 0 false [] 0 false (mk_sock (mk_conn [] [] []) []) None.

Definition live (mc : mclient) : bool := 0 <=? fd mc.

Definition mclient_pending (mc : mclient) : Z := zlen (outq mc) - outq_off mc.

Definition mclient_reset_queue (mc : mclient) : mclient :=
  {| mc with outq := []; outq_off := 0; outq_cap := 0; hiwater := false; stall_since := 0 |}.

Definition mclient_reset_inq (mc : mclient) : mclient :=
  {| mc with inq := []; inq_cap := 0; inrun := false |}.

(** ** The server *)

(** [clock] and [realloc_ok] are the next answers of [time] (the last one
    repeating) and of [realloc] (succeeding at the end); [tty_echo] is what
    [tcgetattr] says of ECHO; [share_multi] is [sessdir_share_mode_get]; [pty_wr]
    and [pty_out] are the PTY's side of [write]; [title_file] and [attr_file] are
    what the session directory holds; [hung_up] are the connections closed before
    they had a slot. *)
Record srv (W : Type) := mk_srv {
  clients : list mclient;
  win : W;
  master_watch : Z;
  pty_wr : list wr; pty_out : list Z;
  attrs : attr_store; attrs_path_len : Z; attr_disk : disk; attr_file : option (list Z);
  last_pty_flags : Z; tty_echo : option bool;
  share_multi : bool;
  clock : list Z; realloc_ok : list bool;
  client_event_depth : Z;
  stopped : bool;
  title_file : option (list Z);
  uid : Z; hung_up : list conn;
}.
Arguments mk_srv {W}.
Arguments clients {W}.
Arguments win {W}.
Arguments master_watch {W}.
Arguments pty_wr {W}.
Arguments pty_out {W}.
Arguments attrs {W}.
Arguments attrs_path_len {W}.
Arguments attr_disk {W}.
Arguments attr_file {W}.
Arguments last_pty_flags {W}.
Arguments tty_echo {W}.
Arguments share_multi {W}.
Arguments clock {W}.
Arguments realloc_ok {W}.
Arguments client_event_depth {W}.
Arguments stopped {W}.
Arguments title_file {W}.
Arguments uid {W}.
Arguments hung_up {W}.

Section Server.
Context {W : Type} `{!Window W} `{!Tunables}.
Implicit Types (st : srv W).

Definition set_clients st (l : list mclient) : srv W := {| st with clients := l |}.
Definition set_win st (w : W) : srv W := {| st with win := w |}.
Definition set_depth st (d : Z) : srv W := {| st with client_event_depth := d |}.
Definition set_attrs st (a : attr_store) : srv W := {| st with attrs := a |}.

(** [*mc] changed. *)
Definition upd st (i : nat) (f : mclient → mclient) : srv W := set_clients st (alter f i (clients st)).

(** [time(NULL)] *)
Definition time_null st : Z * srv W :=
  match clock st with
  | [] => (0, st)
  | [t] => (t, st)
  | t :: ts => (t, {| st with clock := ts |})
  end.

(** Does the next [realloc] succeed? *)
Definition realloc_next st : bool * srv W :=
  match realloc_ok st with
  | [] => (true, st)
  | b :: bs => (b, {| st with realloc_ok := bs |})
  end.

Definition set_pty st (evs : list wr) (out : list Z) : srv W := {| st with pty_wr := evs; pty_out := out |}.

(** The loop of [write_to_pty]: the bytes written and the schedule left. *)
Fixpoint write_loop (evs : list wr) (bs : list Z) : list Z * list wr :=
  if zlen bs <=? 0 then ([], evs) else
  match evs with
  | [] => ([], [])
  | WIntr :: evs => write_loop evs bs
  | WFail :: evs => ([], evs)
  | WTook n :: evs =>
      let w := Z.to_nat n in
      let '(more, evs) := write_loop evs (drop w bs) in (take w bs ++ more, evs)
  end.

Definition write_to_pty st (data : list Z) : srv W :=
  let '(written, evs) := write_loop (pty_wr st) data in set_pty st evs (pty_out st ++ written).

(** ** The table of clients *)

(** The first live slot from [i] on. *)
Definition live_from st (i : nat) : option nat := (λ k, (i + k)%nat) <$> find_slot live (drop i (clients st)).

Definition mclient_next st (i : nat) : option nat := live_from st (S i).
Definition mclient_first st : option nat :=
  mc ← clients st !! 0%nat; if live mc then Some 0%nat else mclient_next st 0.

(** [for (mc = mclient_first(); mc; mc = next) { next = mclient_next(mc); ... }] *)
Fixpoint each_client (n : nat) (body : nat → srv W → option (srv W)) (cur : option nat) st : option (srv W) :=
  match cur, n with
  | None, _ => Some st
  | Some _, O => None
  | Some i, S n => let next := mclient_next st i in st ← body i st; each_client n body next st
  end.

(** The clients such a loop visits when its body changes none. *)
Definition live_clients st : list mclient := List.filter live (clients st).

Definition mclient_count st : Z := zlen (live_clients st).

Definition mclient_alloc st (fd : Z) (s : sock) : option (nat * srv W) :=
  i ← find_slot (λ mc, negb (live mc)) (clients st);
  Some (i, upd st i (λ mc,
    {| mc with fd := fd; role := IPC_ROLE_WRITE; flags := 0; client_id := 0; rows := 0; cols := 0;
               name := []; last_deny := 0; ready := false; sk := s |})).

(** ** Interest in the PTY and in the clients' sockets *)

Definition blocked (mc : mclient) : bool := paused mc || hiwater mc.

Definition update_master_interest st : srv W :=
  let live := zlen (live_clients st) in
  let nblocked := zlen (List.filter blocked (live_clients st)) in
  {| st with master_watch := if (0 <? live) && (nblocked =? live) then 0 else IOX_READ |}.

Definition client_interest (mc : mclient) : mclient :=
  if fd mc <? 0 then mc else
  {| mc with watch := Some (if 0 <? mclient_pending mc then Z.lor IOX_READ IOX_WRITE else IOX_READ) |}.

Definition update_client_interest st (i : nat) : srv W := upd st i client_interest.

(** ** The window's size *)

(** One turn of the loop of [resize_to_fit] on (rows, cols, cell_pw, cell_ph). *)
Definition fit_one (v : Z * Z * Z * Z) (mc : mclient) : Z * Z * Z * Z :=
  let '(r, c, pw, ph) := v in
  if has_bits (flags mc) IPC_ATTACH_F_SIZE_OBSERVE then v else
  if (rows mc =? 0) || (cols mc =? 0) then v else
  let r := if (r =? 0) || (rows mc <? r) then rows mc else r in
  let c := if (c =? 0) || (cols mc <? c) then cols mc else c in
  if (pw =? 0) && (0 <? cell_pw mc) then (r, c, cell_pw mc, cell_ph mc) else (r, c, pw, ph).

Definition resize_to_fit st : option (srv W) :=
  let '(r, c, pw, ph) := foldl fit_one (0, 0, 0, 0) (live_clients st) in
  if (0 <? r) && (0 <? c) then w ← window_resize (win st) r c pw ph; Some (set_win st w) else Some st.

(** ** Output queues *)

(** [while (cap < need) cap *= 2] *)
Fixpoint grow_cap (fuel : nat) (cap need : Z) : option Z :=
  if need <=? cap then Some cap else
  match fuel with O => None | S fuel => grow_cap fuel (cap * 2) need end.

(** The rest of [mclient_flush] once [send] has taken what it takes. *)
Definition flush_done (mc : mclient) (sent : list Z) (evs : list nbsend) : mclient :=
  let c := sk_conn (sk mc) in
  {| mc with outq_off := outq_off mc + zlen sent;
             sk := mk_sock (mk_conn (c_rd c) (c_wr c) (c_sent c ++ sent)) evs |}.

Definition drained (mc : mclient) : mclient :=
  if outq_off mc =? zlen (outq mc) then {| mc with outq := []; outq_off := 0 |} else mc.

Definition flush_stall st (i : nat) (before : Z) (mc : mclient) : srv W :=
  if (mclient_pending mc <? before) || (mclient_pending mc =? 0) then upd st i (λ mc, {| mc with stall_since := 0 |})
  else if stall_since mc =? 0 then
    let '(now, st) := time_null st in upd st i (λ mc, {| mc with stall_since := now |})
  else st.

Definition flush_resume st (i : nat) (mc : mclient) : srv W :=
  if hiwater mc && (mclient_pending mc <=? mserver_outq_low_water)
  then update_master_interest (upd st i (λ mc, {| mc with hiwater := false |}))
  else st.

(** What [mclient_flush] does after the loop when the socket did not fail. *)
Definition flush_rest st (i : nat) (before : Z) : option (srv W) :=
  let st := upd st i drained in
  mc ← clients st !! i;
  let st := flush_stall st i before mc in
  let st := flush_resume st i mc in
  Some (update_client_interest st i).

(** Is a client too far behind to send it [need] bytes more? *)
Definition too_far_behind st (mc : mclient) (need : Z) : bool * srv W :=
  if mserver_outq_hard_limit <? mclient_pending mc + need then (true, st)
  else if stall_since mc =? 0 then (false, st)
  else let '(now, st) := time_null st in (mserver_stall_secs <=? now - stall_since mc, st).

Definition reclaim (mc : mclient) : mclient :=
  if 0 <? outq_off mc then {| mc with outq := drop (Z.to_nat (outq_off mc)) (outq mc); outq_off := 0 |} else mc.

(** Room for [need] bytes more, unless [realloc] fails. *)
Definition outq_room st (i : nat) (mc : mclient) (need : Z) : option (bool * srv W) :=
  if zlen (outq mc) + need <=? outq_cap mc then Some (true, st) else
  cap ← grow_cap 64 (if outq_cap mc =? 0 then 8192 else outq_cap mc) (zlen (outq mc) + need);
  let '(ok, st) := realloc_next st in
  Some (ok, if ok : bool then upd st i (λ mc, {| mc with outq_cap := cap |}) else st).

(** The message written at the end of the queue. *)
Definition outq_put (mc : mclient) (type : Z) (payload : list Z) : option mclient :=
  let room := outq_cap mc - zlen (outq mc) in
  '(n, out) ← ipc_msg_frame (replicate (Z.to_nat room) 0) room type (Some payload) (zlen payload);
  Some (if n <? 0 then mc else {| mc with outq := outq mc ++ take (Z.to_nat n) out |}).

Definition high_water st (i : nat) (mc : mclient) : srv W :=
  if negb (hiwater mc) && (mserver_outq_high_water <=? mclient_pending mc)
  then update_master_interest (upd st i (λ mc, {| mc with hiwater := true |}))
  else st.

(** ** Presence *)

Definition client_event_bytes (about : mclient) (kind : Z) : list Z :=
  kind :: be32 (client_id about) ++ name about.

(** The client that gets the keyboard when nobody has it: the first that is not
    a viewer by its flags.  [None] when somebody has it. *)
Definition reassign_to st : option nat :=
  if existsb (λ mc, role mc =? IPC_ROLE_WRITE) (live_clients st) then None
  else find_slot (λ mc, live mc && negb (has_bits (flags mc) IPC_ATTACH_F_VIEW)) (clients st).

(** What [mclient_disconnect] resets in a slot. *)
Definition mclient_reset (mc : mclient) : mclient :=
  let mc := mclient_reset_inq (mclient_reset_queue mc) in
  {| mc with paused := false; rows := 0; cols := 0; role := IPC_ROLE_VIEW |}.

(** [attr_store_txn_rollback_client], [iox_fd_remove], [ipc_close], [mc->fd = -1] *)
Definition mclient_close st (i : nat) (mc : mclient) : srv W :=
  upd (set_attrs st (attr_store_txn_rollback_client (attrs st) (fd mc))) i (λ mc, {| mc with fd := -1; watch := None |}).

(** The five functions that call each other; [fuel] bounds how deep. *)
Fixpoint mclient_disconnect (fuel : nat) st (i : nat) {struct fuel} : option (srv W) :=
  match fuel with
  | O => None
  | S fuel =>
      mc ← clients st !! i;
      st ← (if 0 <=? fd mc then
              st ← client_event fuel st i IPC_CLIENT_LEAVE;
              mc ← clients st !! i;
              Some (mclient_close st i mc)
            else Some st);
      let st := upd st i mclient_reset in
      let st := update_master_interest st in
      st ← role_reassign fuel st;
      resize_to_fit st
  end

with mclient_flush (fuel : nat) st (i : nat) {struct fuel} : option (srv W) :=
  match fuel with
  | O => None
  | S fuel =>
      mc ← clients st !! i;
      if fd mc <? 0 then Some st else
      let before := mclient_pending mc in
      let '(e, sent, evs) := send_loop (sk_send (sk mc)) (drop (Z.to_nat (outq_off mc)) (outq mc)) in
      let st := upd st i (λ mc, flush_done mc sent evs) in
      match e with
      | Failed => mclient_disconnect fuel st i
      | _ => flush_rest st i before
      end
  end

with mclient_enqueue (fuel : nat) st (i : nat) (type : Z) (payload : list Z) {struct fuel} : option (srv W) :=
  match fuel with
  | O => None
  | S fuel =>
      mc ← clients st !! i;
      let need := IPC_HDR_SIZE + zlen payload in
      if fd mc <? 0 then Some st else
      let '(behind, st) := too_far_behind st mc need in
      if behind : bool then mclient_disconnect fuel st i else
      let st := upd st i reclaim in
      mc ← clients st !! i;
      '(ok, st) ← outq_room st i mc need;
      if negb ok then mclient_disconnect fuel st i else
      mc ← clients st !! i;
      mc ← outq_put mc type payload;
      let st := upd st i (λ _, mc) in
      let st := high_water st i mc in
      mclient_flush fuel st i
  end

with client_event (fuel : nat) st (about : nat) (kind : Z) {struct fuel} : option (srv W) :=
  match fuel with
  | O => None
  | S fuel =>
      if negb (client_event_depth st =? 0) then Some st else
      let st := set_depth st (client_event_depth st + 1) in
      mc ← clients st !! about;
      let buf := client_event_bytes mc kind in
      st ← each_client MCLIENT_MAX (λ i st,
             mc ← clients st !! i;
             if (i =? about)%nat || negb (ready mc) then Some st
             else mclient_enqueue fuel st i IPC_MSG_CLIENT_EVENT buf) (mclient_first st) st;
      Some (set_depth st (client_event_depth st - 1))
  end

with role_reassign (fuel : nat) st {struct fuel} : option (srv W) :=
  match fuel with
  | O => None
  | S fuel =>
      match reassign_to st with
      | None => Some st
      | Some i =>
          let st := upd st i (λ mc, {| mc with role := IPC_ROLE_WRITE |}) in
          st ← mclient_enqueue fuel st i IPC_MSG_ROLE_CHANGE [IPC_ROLE_WRITE];
          client_event fuel st i IPC_CLIENT_ROLE
      end
  end.

(** Deep enough: [group_ends] in MserverTotal.v. *)
Definition DEPTH : nat := 64.

Definition enqueue (st : srv W) (i : nat) (type : Z) (payload : list Z) : option (srv W) :=
  mclient_enqueue DEPTH st i type payload.
Definition mclient_enqueue_empty st (i : nat) (type : Z) : option (srv W) := enqueue st i type [].
Definition disconnect st (i : nat) : option (srv W) := mclient_disconnect DEPTH st i.
Definition announce st (i : nat) (kind : Z) : option (srv W) := client_event DEPTH st i kind.

(** ** Roles *)

(** [for (o = mclient_first(); o; o = mclient_next(o))]: the successor is looked
    for when the body is done. *)
Fixpoint walk_clients (n : nat) (body : nat → srv W → option (srv W)) (cur : option nat) st : option (srv W) :=
  match cur, n with
  | None, _ => Some st
  | Some _, O => None
  | Some o, S n => st ← body o st; walk_clients n body (mclient_next st o) st
  end.

(** The keyboard taken from [o] for the client [i] that shows the token. *)
Definition demote (i o : nat) st : option (srv W) :=
  mc ← clients st !! o;
  if (o =? i)%nat || negb (role mc =? IPC_ROLE_WRITE) then Some st else
  let st := upd st o (λ mc, {| mc with role := IPC_ROLE_VIEW |}) in
  st ← enqueue st o IPC_MSG_ROLE_CHANGE [IPC_ROLE_VIEW];
  announce st o IPC_CLIENT_ROLE.

(** Is somebody else holding the keyboard? *)
Definition held_by_other st (i : nat) : bool :=
  existsb (λ '(j, mc), live mc && negb (j =? i)%nat && (role mc =? IPC_ROLE_WRITE)) (imap pair (clients st)).

Definition role_for st (i : nat) (asked : Z) : option (Z * srv W) :=
  if has_bits asked IPC_ATTACH_F_VIEW then Some (IPC_ROLE_VIEW, st) else
  if has_bits asked IPC_ATTACH_F_INJECT then Some (IPC_ROLE_VIEW, st) else
  if has_bits asked IPC_ATTACH_F_TOKEN then
    st ← walk_clients MCLIENT_MAX (demote i) (mclient_first st) st;
    Some (IPC_ROLE_WRITE, st)
  else if share_multi st then Some (IPC_ROLE_WRITE, st)
  else if held_by_other st i then Some (IPC_ROLE_VIEW, st)
  else Some (IPC_ROLE_WRITE, st).

Definition msg_is_input (type : Z) : bool :=
  (type =? IPC_MSG_INPUT) || (type =? IPC_MSG_INPUT_BEGIN) || (type =? IPC_MSG_INPUT_END).

Definition msg_mutates (type : Z) : bool :=
  (type =? IPC_MSG_INPUT) || (type =? IPC_MSG_INPUT_BEGIN) || (type =? IPC_MSG_INPUT_END) || (type =? IPC_MSG_KILL) ||
  (type =? IPC_MSG_FLOW_CTRL) || (type =? IPC_MSG_ATTR_SET) || (type =? IPC_MSG_ATTR_DELETE) ||
  (type =? IPC_MSG_ATTR_TXN_COMMIT) || (type =? IPC_MSG_TERM_COLORS).

Definition mclient_deny st (i : nat) (why : list Z) : option (srv W) :=
  let '(now, st) := time_null st in
  mc ← clients st !! i;
  if now =? last_deny mc then Some st else
  enqueue (upd st i (λ mc, {| mc with last_deny := now |})) i IPC_MSG_ERROR why.

Definition broadcast st (type : Z) (payload : list Z) : option (srv W) :=
  each_client MCLIENT_MAX (λ i st, enqueue st i type payload) (mclient_first st) st.

(** ** The input run *)

(** The return value, and the server: the connection is gone when it is -1. *)
Definition mclient_inq_append st (i : nat) (data : list Z) : option (Z * srv W) :=
  mc ← clients st !! i;
  let need := zlen (inq mc) + zlen data in
  if INRUN_HARD_LIMIT <? need then st ← disconnect st i; Some (-1, st) else
  '(ok, st) ← (if need <=? inq_cap mc then Some (true, st) else
    cap ← grow_cap 64 (if inq_cap mc =? 0 then 4096 else inq_cap mc) need;
    let '(ok, st) := realloc_next st in
    Some (ok, if ok : bool then upd st i (λ mc, {| mc with inq_cap := cap |}) else st));
  if negb ok then st ← disconnect st i; Some (-1, st) else
  Some (0, upd st i (λ mc, {| mc with inq := inq mc ++ data |})).

(** ** The screen for a client that attaches *)

Record replay_buf := mk_replay { rb_mc : nat; rb_buf : list Z }.

Definition replay_flush (rb : replay_buf) st : option (replay_buf * srv W) :=
  if 0 <? zlen (rb_buf rb) then
    st ← enqueue st (rb_mc rb) IPC_MSG_OUTPUT (rb_buf rb);
    Some (mk_replay (rb_mc rb) [], st)
  else Some (rb, st).

(** Each turn takes a byte at least: there is room after a flush. *)
Fixpoint dump_to_client (fuel : nat) (rb : replay_buf) st (data : list Z) : option (replay_buf * srv W) :=
  if zlen data <=? 0 then Some (rb, st) else
  match fuel with
  | O => None
  | S fuel =>
      let space := REPLAY_BUFSZ - zlen (rb_buf rb) in
      let chunk := Z.to_nat (if space <? zlen data then space else zlen data) in
      let rb := mk_replay (rb_mc rb) (rb_buf rb ++ take chunk data) in
      '(rb, st) ← (if zlen (rb_buf rb) =? REPLAY_BUFSZ then replay_flush rb st else Some (rb, st));
      dump_to_client fuel rb st (drop chunk data)
  end.

(** [window_dump] hands over its output piece by piece; how it is cut does not
    matter, since the replay buffer joins the pieces ([send_replay_sends]). *)
Definition send_replay st (i : nat) : option (srv W) :=
  data ← window_dump (win st);
  '(rb, st) ← dump_to_client (length data) (mk_replay i []) st data;
  '(_, st) ← replay_flush rb st;
  Some st.

(** ** Title and terminal flags *)

Definition sync_title st : srv W :=
  let vt_title := default [] (window_vt_title (win st)) in
  if bool_decide (vt_title = window_title (win st)) then st
  else {| st with win := window_set_title (win st) vt_title; title_file := Some vt_title |}.

(** -1 when [tcgetattr] fails. *)
Definition get_pty_flags st : Z :=
  match tty_echo st with
  | None => -1
  | Some echo => if echo then Z.lor 0 IPC_PTY_ECHO else 0
  end.

Definition sync_pty_flags st : option (srv W) :=
  match mclient_first st with
  | None => Some st
  | Some _ =>
      let flags := get_pty_flags st in
      if (flags <? 0) || (flags =? last_pty_flags st) then Some st else
      broadcast {| st with last_pty_flags := flags |} IPC_MSG_PTY_FLAGS [u8 flags]
  end.

Fixpoint disconnect_from (n i : nat) st : option (srv W) :=
  match n with O => Some st | S n => st ← disconnect st i; disconnect_from n (S i) st end.
Definition disconnect_all st : option (srv W) := disconnect_from MCLIENT_MAX 0 st.

(** ** Attribute messages *)

(** [snprintf(dst, size, "%.*s", len, p)]; with a length of 0 the pointer is not
    looked at. *)
Definition snprintf_len (size : Z) (p : bptr) (len : Z) : list Z :=
  snprintf_s size (c_string (take (Z.to_nat len) (deref p))).

Definition enc_buf : list Z := replicate (Z.to_nat IPC_MAX_PAYLOAD) 0.

(** [if (n > 0) mclient_enqueue(mc, type, enc, n)] *)
Definition reply st (i : nat) (type : Z) (r : option (Z * list Z)) : option (srv W) :=
  '(n, enc) ← r;
  if 0 <? n then enqueue st i type (take (Z.to_nat n) enc) else Some st.

Definition reply_txn_ok st (i : nat) (id : Z) : option (srv W) :=
  reply st i IPC_MSG_ATTR_TXN_OK (ipc_attr_txn_ok_encode (mk_ipc_attr_txn_ok id) enc_buf IPC_MAX_PAYLOAD).

Definition reply_error st (i : nat) (why : list Z) : option (srv W) := enqueue st i IPC_MSG_ERROR why.

Definition save_attrs st : srv W :=
  {| st with attr_file := (attr_store_save (attrs st) (attrs_path_len st) (attr_disk st) (attr_file st)).2 |}.

(** The key message that most requests carry. *)
Definition with_key st (i : nat) (buf : list Z) (len : Z) (k : ipc_attr_key → option (srv W)) : option (srv W) :=
  d ← ipc_attr_key_decode buf len;
  match d with
  | None => reply_error st i (str "bad message")
  | Some (_, ak) => k ak
  end.

Definition handle_attr_msg st (i : nat) (type : Z) (buf : list Z) (len : Z) : option (srv W) :=
  mc ← clients st !! i;
  if type =? IPC_MSG_ATTR_TXN_BEGIN then
    match attr_store_txn_begin (attrs st) (fd mc) with
    | (None, a) => reply_error (set_attrs st a) i (str "txn pool full")
    | (Some id, a) => reply_txn_ok (set_attrs st a) i id
    end
  else if type =? IPC_MSG_ATTR_TXN_COMMIT then
    with_key st i buf len (λ ak,
      let '(rc, a) := attr_store_txn_commit (attrs st) (ak_txn_id ak) in
      let st := set_attrs st a in
      if rc <? 0 then reply_error st i (str "conflict")
      else reply_txn_ok (save_attrs st) i (ak_txn_id ak))
  else if type =? IPC_MSG_ATTR_TXN_ROLLBACK then
    with_key st i buf len (λ ak,
      reply_txn_ok (set_attrs st (attr_store_txn_rollback (attrs st) (ak_txn_id ak))) i (ak_txn_id ak))
  else if type =? IPC_MSG_ATTR_SET then
    d ← ipc_attr_kv_decode buf len;
    match d with
    | None => reply_error st i (str "bad message")
    | Some (_, kv) =>
        let key := snprintf_len ATTR_MAX_KEY_LEN (kv_key kv) (kv_key_len kv) in
        let val := snprintf_len ATTR_MAX_VALUE_LEN (kv_value kv) (kv_value_len kv) in
        let '(rc, a) := attr_store_set (attrs st) (kv_txn_id kv) key val in
        let st := set_attrs st a in
        if rc <? 0 then reply_error st i (str "set failed") else mclient_enqueue_empty st i IPC_MSG_ATTR_OK
    end
  else if type =? IPC_MSG_ATTR_DELETE then
    with_key st i buf len (λ ak,
      let '(rc, a) := attr_store_delete (attrs st) (ak_txn_id ak) (snprintf_len ATTR_MAX_KEY_LEN (ak_key ak) (ak_key_len ak)) in
      let st := set_attrs st a in
      if rc <? 0 then reply_error st i (str "delete failed") else mclient_enqueue_empty st i IPC_MSG_ATTR_OK)
  else if type =? IPC_MSG_ATTR_GET then
    with_key st i buf len (λ ak,
      let key := snprintf_len ATTR_MAX_KEY_LEN (ak_key ak) (ak_key_len ak) in
      match attr_store_get (attrs st) (ak_txn_id ak) key ATTR_MAX_VALUE_LEN with
      | (None, a) => reply_error (set_attrs st a) i (str "not found")
      | (Some val, a) =>
          let resp := mk_ipc_attr_kv (ak_txn_id ak) (Some (key ++ [0])) (u16 (zlen key)) (Some (val ++ [0])) (u16 (zlen val)) in
          reply (set_attrs st a) i IPC_MSG_ATTR_VALUE (ipc_attr_kv_encode resp enc_buf IPC_MAX_PAYLOAD)
      end)
  else if type =? IPC_MSG_ATTR_LIST then
    with_key st i buf len (λ ak,
      match attr_store_list (attrs st) (ak_txn_id ak) (IPC_MAX_PAYLOAD - 64) with
      | None => reply_error st i (str "list failed")
      | Some listing =>
          let resp := mk_ipc_attr_entries (Some (listing ++ [0])) (u16 (zlen listing)) in
          reply st i IPC_MSG_ATTR_ENTRIES (ipc_attr_entries_encode resp enc_buf IPC_MAX_PAYLOAD)
      end)
  else Some st.

(** ** A client's message *)

(** The index of the first NUL. *)
Definition memchr0 (s : list Z) : option nat := find_slot (λ c, c =? 0) s.

(** The two strings of TERM_COLORS, when both are terminated. *)
Definition term_colors (data : list Z) : option (list Z * list Z) :=
  n ← memchr0 data;
  let bg := drop (S n) data in
  _ ← memchr0 bg;
  Some (c_string data, c_string bg).

(** [write_to_pty] of the whole run, and the run closed. *)
Definition input_end st (i : nat) : option (srv W) :=
  mc ← clients st !! i;
  Some (if inrun mc then upd (write_to_pty st (inq mc)) i (λ mc, {| mc with inrun := false; inq := [] |}) else st).

Definition flow_ctrl st (i : nat) (data : list Z) : option (srv W) :=
  mc ← clients st !! i;
  match data with
  | [] => Some st
  | b :: _ =>
      let pause := negb (b =? 0) in
      Some (if eqb pause (paused mc) then st
            else update_master_interest (upd st i (λ mc, {| mc with paused := pause |})))
  end.

Definition win_resize st (i : nat) (buf : list Z) (len : Z) : option (srv W) :=
  d ← ipc_size_decode buf len;
  match d with
  | Some (_, sz) =>
      if (0 <? sz_rows sz) && (0 <? sz_cols sz) then
        resize_to_fit (upd st i (λ mc,
          {| mc with rows := sz_rows sz; cols := sz_cols sz; cell_pw := sz_cell_pw sz; cell_ph := sz_cell_ph sz |}))
      else Some st
  | None => Some st
  end.

Definition role_request st (i : nat) (data : list Z) : option (srv W) :=
  match data with
  | [] => Some st
  | asked :: _ =>
      '(want, st) ← role_for st i asked;
      let st := upd st i (λ mc, {| mc with flags := asked |}) in
      st ← resize_to_fit st;
      mc ← clients st !! i;
      if want =? role mc then Some st else
      st ← enqueue (upd st i (λ mc, {| mc with role := want |})) i IPC_MSG_ROLE_CHANGE [want];
      announce st i IPC_CLIENT_ROLE
  end.

Definition stop st : srv W := {| st with stopped := true |}.

(** The switch of [on_client_read]: [buf] is the whole buffer, [len] bytes of it
    are the payload. *)
Definition client_msg st (i : nat) (type : Z) (buf : list Z) (len : Z) : option (srv W) :=
  let data := take (Z.to_nat len) buf in
  mc ← clients st !! i;
  if type =? IPC_MSG_INPUT then
    if inrun mc then snd <$> mclient_inq_append st i data else Some (write_to_pty st data)
  else if type =? IPC_MSG_INPUT_BEGIN then Some (upd st i (λ mc, {| mc with inq := []; inrun := true |}))
  else if type =? IPC_MSG_INPUT_END then input_end st i
  else if type =? IPC_MSG_FLOW_CTRL then flow_ctrl st i data
  else if type =? IPC_MSG_WIN_RESIZE then win_resize st i buf len
  else if type =? IPC_MSG_TERM_COLORS then
    Some (match term_colors data with
          | Some (fg, bg) => set_win st (window_set_term_colors (win st) fg bg)
          | None => st
          end)
  else if type =? IPC_MSG_REFRESH then send_replay st i
  else if type =? IPC_MSG_ROLE_REQUEST then role_request st i data
  else if type =? IPC_MSG_DETACH then disconnect st i
  else if type =? IPC_MSG_KILL then
    '(_, c) ← ipc_msg_send_empty (sk_conn (sk mc)) IPC_MSG_OK;
    st ← disconnect (upd st i (λ mc, {| mc with sk := mk_sock c (sk_send (sk mc)) |})) i;
    Some (stop st)
  else handle_attr_msg st i type buf len.

(** May this client send this message? *)
Definition may_send (mc : mclient) (type : Z) : bool :=
  (role mc =? IPC_ROLE_WRITE) || negb (msg_mutates type) || (has_bits (flags mc) IPC_ATTACH_F_INJECT && msg_is_input type).

Definition client_recv st (i : nat) : option (srv W) :=
  mc ← clients st !! i;
  '(r, c) ← ipc_msg_recv (sk_conn (sk mc)) (replicate 4096 0) 4096;
  let st := upd st i (λ mc, {| mc with sk := mk_sock c (sk_send (sk mc)) |}) in
  if negb (r_rc r =? 0) then disconnect st i else
  type ← r_type r;
  len ← r_len r;
  if negb (may_send mc type) then mclient_deny st i (str "read-only") else client_msg st i type (r_buf r) len.

Definition on_client_read st (i : nat) (events : Z) : option (srv W) :=
  '(gone, st) ← (if has_bits events IOX_WRITE then
                   st ← mclient_flush DEPTH st i;
                   mc ← clients st !! i;
                   Some (fd mc <? 0, st)
                 else Some (false, st));
  if gone : bool then Some st else
  if negb (has_bits events IOX_READ) then Some st else client_recv st i.

(** ** A new connection *)

Definition hang_up st (c : conn) : srv W := {| st with hung_up := hung_up st ++ [c] |}.

Definition attach_record st (i : nat) (buf : list Z) (len : Z) : option (srv W) :=
  d ← ipc_attach_decode buf len;
  match d with
  | None => Some st
  | Some (_, at_) =>
      let st := upd st i (λ mc,
        {| mc with flags := at_flags at_; client_id := at_client_id at_; rows := at_rows at_; cols := at_cols at_;
                   cell_pw := at_cell_pw at_; cell_ph := at_cell_ph at_;
                   name := if at_name at_ is Some _ then
                             if 0 <? at_name_len at_ then snprintf_len NAME_SIZE (at_name at_) (at_name_len at_) else name mc
                           else name mc |}) in
      '(r, st) ← role_for st i (at_flags at_);
      resize_to_fit (upd st i (λ mc, {| mc with role := r |}))
  end.

Definition attach_reply st (i : nat) : option (srv W) :=
  mc ← clients st !! i;
  rws ← window_rows (win st);
  cls ← window_cols (win st);
  reply st i IPC_MSG_ATTACH_REPLY
    (ipc_attach_reply_encode (mk_ipc_attach_reply (u16 rws) (u16 cls) (role mc) (u8 (mclient_count st))) (replicate 32 0) 32).

(** Who comes is announced to the others, and told about ECHO. *)
Definition attach_tail st (i : nat) : option (srv W) :=
  st ← announce st i IPC_CLIENT_JOIN;
  let flags := get_pty_flags st in
  if 0 <=? flags then enqueue {| st with last_pty_flags := flags |} i IPC_MSG_PTY_FLAGS [u8 flags] else Some st.

Definition attach st (i : nat) (buf : list Z) (len : Z) : option (srv W) :=
  let st := upd st i (λ mc, {| mc with watch := Some IOX_READ |}) in
  st ← attach_record st i buf len;
  st ← attach_reply st i;
  let st := upd st i (λ mc, {| mc with ready := true |}) in
  st ← send_replay st i;
  attach_tail st i.

(** [ipc_accept] gave the descriptor [new_fd] with the socket [s] behind it;
    [peer] is what [ipc_peer_cred] says. *)
Definition on_new_client st (new_fd : Z) (s : sock) (peer : option Z) : option (srv W) :=
  if new_fd <? 0 then Some st else
  if negb (bool_decide (peer = Some (uid st))) then Some (hang_up st (sk_conn s)) else
  '(r, c) ← ipc_msg_recv (sk_conn s) (replicate 256 0) 256;
  if negb (r_rc r =? 0) then Some (hang_up st c) else
  type ← r_type r;
  len ← r_len r;
  if negb (type =? IPC_MSG_ATTACH) then
    if type =? IPC_MSG_KILL then '(_, c) ← ipc_msg_send_empty c IPC_MSG_OK; Some (stop (hang_up st c))
    else Some (hang_up st c)
  else
    match mclient_alloc st new_fd (mk_sock c (sk_send s)) with
    | None =>
        '(_, c) ← ipc_msg_send c IPC_MSG_ERROR (Some (str "too many clients")) 16;
        Some (hang_up st c)
    | Some (i, st) => attach st i (r_buf r) len
    end.

(** ** The PTY and signals *)

(** [data] is what [read] gave, nothing at the end of file or on an error. *)
Definition on_master_read st (data : list Z) : option (srv W) :=
  match data with
  | [] => Some (stop st)
  | _ =>
      w ← window_feed (win st) data;
      let st := sync_title (set_win st w) in
      st ← sync_pty_flags st;
      broadcast st IPC_MSG_OUTPUT data
  end.

(** [reaped] says of each child [waitpid] gave whether it is the window's. *)
Definition on_sigchld st (reaped : list bool) : srv W := if existsb id reaped then stop st else st.
Definition on_sigterm st : srv W := stop st.

(** ** The event loop *)

(** What the loop may dispatch next.  Between two events the terminal's ECHO flag
    and the session's share mode may change.  [iox_loop_stop] ends the loop after
    the descriptors that were ready together, so events may follow a stop. *)
Inductive event :=
  | EvAccept (new_fd : Z) (s : sock) (peer : option Z)
  | EvClient (i : nat) (events : Z)
  | EvMaster (data : list Z)
  | EvChild (reaped : list bool)
  | EvTerm
  | EvEcho (e : option bool)
  | EvShare (multi : bool).

(** A client's handler runs only while its descriptor is watched. *)
Definition handle (ev : event) st : option (srv W) :=
  match ev with
  | EvAccept new_fd s peer => on_new_client st new_fd s peer
  | EvClient i events =>
      match clients st !! i with
      | Some mc => if live mc then on_client_read st i events else Some st
      | None => Some st
      end
  | EvMaster data => on_master_read st data
  | EvChild reaped => Some (on_sigchld st reaped)
  | EvTerm => Some (on_sigterm st)
  | EvEcho e => Some {| st with tty_echo := e |}
  | EvShare multi => Some {| st with share_multi := multi |}
  end.

Fixpoint run (evs : list event) st : option (srv W) :=
  match evs with
  | [] => Some st
  | ev :: evs => st ← handle ev st; run evs st
  end.

(** The server before the first event, for a window. *)
Definition server_init (w : W) (own : Z) (file : opened) (path_len : Z) (d : disk)
    (pty : list wr) (times : list Z) (reallocs : list bool) : option (srv W) :=
  '(_, a) ← attr_store_load attr_store_init file;
  Some (mk_srv (replicate MCLIENT_MAX mclient_free) w IOX_READ pty [] a path_len d
          (match file with Contents f => Some f | _ => None end) (-1) None false times reallocs 0 false None own []).
End Server.
