(* ===== verification/MserverSteps.v ===== *)
(** * The session server's handlers as steps

    The functions of mserver.c that call each other (a message queued may drop
    its client, which is announced to the others, which are sent a message, ...)
    are shown here to end and to be sequences of small steps ([mstep]): a message
    put in one client's queue, a client dropped, the window fitted to the clients
    that stay, the keyboard handed on.  What holds of every step then holds of
    every handler. *)

From stdpp Require Import gmap.
From S2P Require Import Prelude Microser LumiMsg IpcMsg AttrStore AttrWire Mserver.

(** ** What the server relies on *)

(** The window keeps its size and its invariant, and all but the first of its
    operations leave [win_answers] alone: what its terminal has written back to the
    program of itself, on the descriptor the server also writes input to. *)

Class WindowLaws (W : Type) `{Window W} := {
  win_ok : W → Prop;
  win_answers : W → list Z;
  win_feed_ok w data : win_ok w → Forall is_byte data →
    yields (window_feed w data) (λ w', win_ok w' ∧ window_rows w' = window_rows w ∧ window_cols w' = window_cols w);
  win_resize_ok w r c pw ph : win_ok w → 0 < r < 65536 → 0 < c < 65536 →
    yields (window_resize w r c pw ph) (λ w', win_ok w' ∧ window_rows w' = Some r ∧ window_cols w' = Some c ∧ win_answers w' = win_answers w);
  win_dump_ok w : win_ok w → is_Some (window_dump w);
  win_size_ok w : win_ok w → is_Some (window_rows w) ∧ is_Some (window_cols w);
  win_set_title_ok w t : win_ok w →
    win_ok (window_set_title w t) ∧ window_rows (window_set_title w t) = window_rows w ∧ window_cols (window_set_title w t) = window_cols w ∧
    win_answers (window_set_title w t) = win_answers w;
  win_set_colors_ok w f b : win_ok w →
    win_ok (window_set_term_colors w f b) ∧ window_rows (window_set_term_colors w f b) = window_rows w ∧
    window_cols (window_set_term_colors w f b) = window_cols w ∧ win_answers (window_set_term_colors w f b) = win_answers w;
}.

(** The limit on a queue is a number of bytes that [size_t] counts. *)
Class TunablesOk `{Tunables} : Prop := { hard_limit_range : 0 <= mserver_outq_hard_limit < 2 ^ 60 }.

(** ** What is true of a client between two steps *)

(** All that is on its way to a client: what was sent and what is queued. *)
Definition outbound (mc : mclient) : list Z := c_sent (sk_conn (sk mc)) ++ drop (Z.to_nat (outq_off mc)) (outq mc).

Record wf_client `{Tunables} (mc : mclient) : Prop := {
  wc_off : 0 <= outq_off mc <= zlen (outq mc);
  wc_cap : zlen (outq mc) <= outq_cap mc <= 8192 `max` (2 * mserver_outq_hard_limit);
  wc_pending : mclient_pending mc <= mserver_outq_hard_limit;
  wc_inq : zlen (inq mc) <= INRUN_HARD_LIMIT;
  wc_inq_cap : zlen (inq mc) <= inq_cap mc <= 2 * INRUN_HARD_LIMIT;
  wc_role : role mc = IPC_ROLE_WRITE ∨ role mc = IPC_ROLE_VIEW;
  wc_size : 0 <= rows mc < 65536 ∧ 0 <= cols mc < 65536;
  wc_name : zlen (name mc) < NAME_SIZE;
  wc_sched : byte_schedule (c_rd (sk_conn (sk mc)));
}.

(** What the next client in a free slot finds there. *)
Definition clean (mc : mclient) : Prop :=
  outq mc = [] ∧ outq_off mc = 0 ∧ hiwater mc = false ∧ paused mc = false ∧ stall_since mc = 0 ∧ inq mc = [] ∧ inrun mc = false.

Definition wf_slot `{Tunables} (mc : mclient) : Prop := wf_client mc ∧ (live mc = false → clean mc).

(** What only a client's own messages change; its role and its backlog mark are
    not part of it. *)
Definition mc_id (mc : mclient) : mclient :=
  mk_mclient (fd mc) [] 0 0 false (paused mc) 0 0 (flags mc) (client_id mc) (rows mc) (cols mc) (cell_pw mc) (cell_ph mc)
    (name mc) (last_deny mc) (ready mc) (inq mc) (inq_cap mc) (inrun mc)
    (mk_sock (mk_conn (c_rd (sk_conn (sk mc))) (c_wr (sk_conn (sk mc))) []) []) None.

Record msg_put `{Tunables} (ms : list (Z * list Z)) (mc mc' : mclient) : Prop := {
  mp_id : mc_id mc' = mc_id mc;
  mp_role : role mc' = role mc;
  mp_hiwater : hiwater mc' = hiwater mc;
  mp_wf : wf_client mc → wf_client mc';
  mp_outbound : wf_client mc → outbound mc' = outbound mc ++ frames ms;
}.

Section Steps.
Context {W : Type} `{HW : !Window W} `{HT : !Tunables}.
Implicit Types (st : srv W).

(** A message put in the queue of a client. *)
Definition put_ := (nat * (Z * list Z))%type.

Definition drop_client st (i : nat) (mc : mclient) : srv W :=
  update_master_interest (upd (mclient_close st i mc) i mclient_reset).

(** Whether a client may be dropped is the step's first argument. *)
Inductive mstep (d : bool) : list put_ → srv W → srv W → Prop :=
  | m_time st : mstep d [] st (time_null st).2
  | m_realloc st : mstep d [] st (realloc_next st).2
  | m_depth st n : mstep d [] st (set_depth st n)
  | m_client st i mc mc' ms : clients st !! i = Some mc → live mc = true → msg_put ms mc mc' → mstep d (pair i <$> ms) st (upd st i (λ _, mc'))
  | m_hiwater st i mc b : clients st !! i = Some mc → live mc = true → mstep d [] st (update_master_interest (upd st i (λ mc, {| mc with hiwater := b |})))
  | m_reset st i mc : d = true → clients st !! i = Some mc → live mc = false → mstep d [] st (update_master_interest (upd st i mclient_reset))
  | m_drop st i mc : d = true → clients st !! i = Some mc → mstep d [] st (drop_client st i mc)
  | m_fit st st' : d = true → resize_to_fit st = Some st' → mstep d [] st st'
  | m_keyboard st i : reassign_to st = Some i → mstep d [] st (upd st i (λ mc, {| mc with role := IPC_ROLE_WRITE |})).

(** A sequence of steps, with the messages put. *)
Inductive mrun (d : bool) : list put_ → srv W → srv W → Prop :=
  | mrun_nil st : mrun d [] st st
  | mrun_cons l1 l2 st1 st2 st3 : mstep d l1 st1 st2 → mrun d l2 st2 st3 → mrun d (l1 ++ l2) st1 st3.

Lemma mrun_app {d} l1 l2 st1 st2 st3 : mrun d l1 st1 st2 → mrun d l2 st2 st3 → mrun d (l1 ++ l2) st1 st3.
Proof. induction 1; [done |]. intros. rewrite <- app_assoc. econstructor; eauto. Qed.

Lemma mrun_one {d} l st st' : mstep d l st st' → mrun d l st st'.
Proof. intros. rewrite <- (app_nil_r l). econstructor; [done | constructor]. Qed.

Lemma mrun_drops {d} l st st' : mrun d l st st' → mrun true l st st'.
Proof. induction 1 as [|l1 l2 st1 st2 st3 Hs Hr IH]; [constructor |]. apply (mrun_cons true l1 l2 st1 st2); [| done]. by destruct Hs; econstructor. Qed.

(** *** Slots *)

Lemma upd_lookup st i f j : clients (upd st i f) !! j = if decide (i = j) then f <$> clients st !! i else clients st !! j.
Proof. unfold upd, set_clients. cbn [clients]. case_decide; subst; [by rewrite list_lookup_alter_eq | by rewrite list_lookup_alter_ne]. Qed.

Lemma upd_const st i mc f : clients st !! i = Some mc → upd st i f = upd st i (λ _, f mc).
Proof.
  intros Hi. unfold upd, set_clients. f_equal. apply list_eq. intros j. destruct (decide (i = j)) as [<-|].
  - by rewrite !list_lookup_alter_eq, Hi.
  - by rewrite !list_lookup_alter_ne.
Qed.

Lemma upd_upd st i f g : upd (upd st i f) i g = upd st i (λ mc, g (f mc)).
Proof.
  unfold upd, set_clients. cbn [clients]. f_equal. apply list_eq. intros j. destruct (decide (i = j)) as [<-|].
  - rewrite !list_lookup_alter_eq. by destruct (clients st !! i).
  - by rewrite !list_lookup_alter_ne.
Qed.

Definition dead_at st (i : nat) : Prop := ∀ mc, clients st !! i = Some mc → live mc = false.
Definition live_at st (i : nat) : Prop := ∃ mc, clients st !! i = Some mc ∧ live mc = true.

(** *** The server *)

Context `{HWL : !WindowLaws W} `{HTO : !TunablesOk}.

Record wf st : Prop := {
  wf_len : length (clients st) = MCLIENT_MAX;
  wf_clients : Forall wf_slot (clients st);
  wf_win : win_ok (win st);
  wf_attrs : attrs_ok (attrs st);
}.

Lemma wf_slot_at st i mc : wf st → clients st !! i = Some mc → wf_slot mc.
Proof. intros [_ H _ _]. by apply Forall_lookup_1. Qed.

Lemma wf_at st i mc : wf st → clients st !! i = Some mc → wf_client mc.
Proof. intros. by eapply wf_slot_at. Qed.

Lemma wf_upd st i f : wf st → (∀ mc, clients st !! i = Some mc → wf_slot mc → wf_slot (f mc)) → wf (upd st i f).
Proof.
  intros [Hl Hc Hw Ha] Hf. constructor; [| | done | done].
  - unfold upd, set_clients. cbn [clients]. by rewrite length_alter.
  - apply Forall_lookup_2. intros j mc. rewrite upd_lookup. case_decide; subst.
    + intros (mc0 & E & ->)%fmap_Some. apply Hf; [done |]. by eapply Forall_lookup_1.
    + by apply Forall_lookup_1.
Qed.

Lemma wf_reset mc : wf_client mc → wf_client (mclient_reset mc).
Proof.
  intros []. destruct hard_limit_range.
  constructor; unfold mclient_pending, INRUN_HARD_LIMIT; cbn; rewrite ?zlen_nil; (done || lia || by right).
Qed.

(** The size that [resize_to_fit] finds is within the clients'. *)
Lemma fit_range l r c pw ph :
  Forall wf_client l → 0 <= r < 65536 → 0 <= c < 65536 →
  let '(r', c', _, _) := foldl fit_one (r, c, pw, ph) l in 0 <= r' < 65536 ∧ 0 <= c' < 65536.
Proof.
  intros Hl. revert r c pw ph; induction Hl as [|mc l Hmc Hl IH]; intros r c pw ph Hr Hc; [done |].
  cbn [foldl]. destruct (wc_size _ Hmc). unfold fit_one at 2. destruct (has_bits _ _); [by apply IH |].
  destruct ((rows mc =? 0) || (cols mc =? 0)); [by apply IH |].
  destruct ((pw =? 0) && (0 <? cell_pw mc)); apply IH; by case_match.
Qed.

Lemma live_clients_wf st : wf st → Forall wf_client (live_clients st).
Proof.
  intros H. apply List.Forall_forall. intros mc [Hin _]%List.filter_In.
  eapply (proj1 (List.Forall_forall wf_slot (clients st))); [apply H | done].
Qed.

Lemma resize_to_fit_ok st : wf st → yields (resize_to_fit st) (λ st', wf st' ∧ ∃ w, st' = set_win st w ∧ win_answers w = win_answers (win st)).
Proof.
  intros Hst. unfold resize_to_fit. pose proof (fit_range (live_clients st) 0 0 0 0 (live_clients_wf st Hst) ltac:(lia) ltac:(lia)) as H.
  destruct (foldl fit_one (0, 0, 0, 0) (live_clients st)) as [[[r c] pw] ph]. destruct H as [Hr Hc].
  destruct (Z.ltb_spec 0 r), (Z.ltb_spec 0 c); cbn [andb];
    try (cbn [yields]; split; [done | exists (win st); split; [by destruct st | done]]).
  eapply yields_seq; [apply win_resize_ok; [apply Hst | lia | lia] |]. intros w (Hw & _ & _ & Ha).
  cbn [yields]. split; [by destruct Hst | by exists w].
Qed.

Lemma mstep_wf {d} l st st' : mstep d l st st' → wf st → wf st'.
Proof.
  intros Hs Hst. destruct Hs as [st|st|st n|st i mc mc' ms Hi Hv Hp|st i mc b Hi Hv|st i mc Hd Hi Hv|st i mc Hd Hi|st st' Hd E|st i E].
  - unfold time_null. destruct (clock st) as [|t [|t' ts]]; [done | done | by destruct Hst].
  - unfold realloc_next. destruct (realloc_ok st); [done | by destruct Hst].
  - by destruct Hst.
  - apply wf_upd; [done |]. intros mc0 Hi0 [Hw _]. rewrite Hi in Hi0. injection Hi0 as <-. split; [by apply (mp_wf _ _ _ Hp) |].
    unfold live in *. rewrite (f_equal fd (mp_id _ _ _ Hp) : fd mc' = fd mc). by rewrite Hv.
  - assert (wf (upd st i (λ mc, {| mc with hiwater := b |}))) as [] by (apply wf_upd; [done |];
      intros mc0 Hi0 [[] _]; split; [done | rewrite Hi in Hi0; injection Hi0 as <-; cbn; unfold live in *; cbn; by rewrite Hv]). done.
  - enough (wf (upd st i mclient_reset)) as [] by done. apply wf_upd; [done |]. intros mc0 _ [Hw _]. split; [by apply wf_reset | done].
  - enough (wf (upd (mclient_close st i mc) i mclient_reset)) as [] by done.
    unfold mclient_close. rewrite upd_upd. apply wf_upd; [destruct Hst; constructor; try done; by apply rollback_client_ok |]. intros mc0 _ [Hw _]. split; [| done].
    apply wf_reset. by destruct Hw.
  - pose proof (resize_to_fit_ok st Hst) as H. rewrite E in H. apply H.
  - apply wf_upd; [done |]. intros mc0 _ [[] Hc]. split; [| done]. constructor; try done. by left.
Qed.

Lemma mrun_wf {d} l st st' : mrun d l st st' → wf st → wf st'.
Proof. induction 1; [done |]. eauto using mstep_wf. Qed.

(** *** What a run leaves *)

(** What none of the steps touches: the PTY's input, and the rest. *)
Definition others st := (attrs_path_len st, attr_disk st, attr_file st, entries (attrs st), next_gen (attrs st),
  last_pty_flags st, tty_echo st, share_multi st, stopped st, title_file st, uid st, hung_up st).
Definition rest st := (pty_wr st, pty_out st, others st).

Lemma mstep_rest {d} l st st' : mstep d l st st' → wf st → rest st' = rest st.
Proof.
  intros Hs Hst. destruct Hs as [st|st|st n|st i mc mc' ms Hi Hv Hp|st i mc b Hi Hv|st i mc Hd Hi Hv|st i mc Hd Hi|st st' Hd E|st i E]; try done.
  - unfold time_null. by destruct (clock st) as [|t [|t' ts]].
  - unfold realloc_next. by destruct (realloc_ok st).
  - pose proof (resize_to_fit_ok st Hst) as H. rewrite E in H. by destruct H as (_ & w & -> & _).
Qed.

Lemma mrun_rest {d} l st st' : mrun d l st st' → wf st → rest st' = rest st.
Proof.
  induction 1 as [|l1 l2 st1 st2 st3 Hs Hr IH]; [done |]. intros Hst.
  rewrite IH by (by eapply mstep_wf). by eapply mstep_rest.
Qed.

(** What the window has answered the program: no step adds to it. *)
Lemma mstep_answers {d} l st st' : mstep d l st st' → wf st → win_answers (win st') = win_answers (win st).
Proof.
  intros Hs Hst. destruct Hs as [st|st|st n|st i mc mc' ms Hi Hv Hp|st i mc b Hi Hv|st i mc Hd Hi Hv|st i mc Hd Hi|st st' Hd E|st i E]; try done.
  - unfold time_null. by destruct (clock st) as [|t [|t' ts]].
  - unfold realloc_next. by destruct (realloc_ok st).
  - pose proof (resize_to_fit_ok st Hst) as H. rewrite E in H. by destruct H as (_ & w & -> & Ha).
Qed.

Lemma mrun_answers {d} l st st' : mrun d l st st' → wf st → win_answers (win st') = win_answers (win st).
Proof.
  induction 1 as [|l1 l2 st1 st2 st3 Hs Hr IH]; [done |]. intros Hst.
  rewrite IH by (by eapply mstep_wf). by eapply mstep_answers.
Qed.

(** The messages put for one client. *)
Definition to_client (j : nat) (l : list put_) : list (Z * list Z) := snd <$> filter (λ x, x.1 = j) l.

Lemma to_client_app j l1 l2 : to_client j (l1 ++ l2) = to_client j l1 ++ to_client j l2.
Proof. unfold to_client. by rewrite filter_app, fmap_app. Qed.

Lemma to_client_pair j i ms : to_client j (pair i <$> ms) = if decide (i = j) then ms else [].
Proof.
  unfold to_client. induction ms as [|m ms IH]; [by case_decide |]. rewrite fmap_cons, filter_cons. cbn [fst].
  destruct (decide (i = j)); [rewrite fmap_cons; f_equal; exact IH | exact IH].
Qed.

Lemma frames_app ms1 ms2 : frames (ms1 ++ ms2) = frames ms1 ++ frames ms2.
Proof. unfold frames. by rewrite map_app, concat_app. Qed.

(** A client that is still there is as it was but for its role, and what is on
    its way to it is what was, then what was put for it. *)
Definition goes_on (ms : list (Z * list Z)) (mc mc' : mclient) : Prop :=
  live mc' = true → live mc = true ∧ mc_id mc' = mc_id mc ∧ outbound mc' = outbound mc ++ frames ms.

Lemma goes_on_refl mc : goes_on [] mc mc.
Proof. intros Hv. split_and!; [done | done |]. by rewrite app_nil_r. Qed.

Lemma goes_on_trans ms1 ms2 mc1 mc2 mc3 : goes_on ms1 mc1 mc2 → goes_on ms2 mc2 mc3 → goes_on (ms1 ++ ms2) mc1 mc3.
Proof.
  intros H1 H2 Hv. destruct (H2 Hv) as (Hv2 & Hid2 & Ho2). destruct (H1 Hv2) as (Hv1 & Hid1 & Ho1).
  split_and!; [done | congruence |]. by rewrite Ho2, Ho1, frames_app, <- app_assoc.
Qed.

Lemma mstep_client {d} l st st' j mc : mstep d l st st' → wf st → clients st !! j = Some mc →
  ∃ mc', clients st' !! j = Some mc' ∧ goes_on (to_client j l) mc mc'.
Proof.
  intros Hs Hst Hj. destruct Hs as [st|st|st n|st i mc0 mc1 ms Hi Hv Hp|st i mc0 b Hi Hv|st i mc0 Hd Hi Hv|st i mc0 Hd Hi|st st' Hd E|st i E].
  - exists mc. split; [| apply goes_on_refl]. unfold time_null. by destruct (clock st) as [|t [|t' ts]].
  - exists mc. split; [| apply goes_on_refl]. unfold realloc_next. by destruct (realloc_ok st).
  - exists mc. split; [done | apply goes_on_refl].
  - rewrite upd_lookup, to_client_pair. case_decide as E; subst.
    + rewrite Hi in *. injection Hj as ->. exists mc1. split; [done |]. intros Hv1.
      split_and!; [done | apply Hp |]. apply Hp. by eapply wf_at.
    + exists mc. split; [done | apply goes_on_refl].
  - cbn [clients update_master_interest]. unfold update_master_interest. cbn [clients].
    rewrite upd_lookup. case_decide as E; subst.
    + rewrite Hj. eexists. split; [reflexivity |]. intros Hv1. split_and!; [done | done |]. by rewrite app_nil_r.
    + exists mc. split; [done | apply goes_on_refl].
  - unfold update_master_interest. cbn [clients]. rewrite upd_lookup. case_decide as E; subst.
    + rewrite Hj in *. injection Hi as <-. cbn. eexists. split; [reflexivity |]. intros Hv1. change (live mc = true) in Hv1. congruence.
    + exists mc. split; [done | apply goes_on_refl].
  - unfold drop_client, update_master_interest. cbn [clients].
    rewrite upd_lookup. unfold mclient_close. rewrite upd_lookup. case_decide as E; subst.
    + rewrite decide_True by done. cbn [clients set_attrs]. rewrite Hj. eexists. split; [reflexivity |]. done.
    + rewrite upd_lookup, decide_False by done. exists mc. split; [done | apply goes_on_refl].
  - pose proof (resize_to_fit_ok st Hst) as H. rewrite E in H. destruct H as (_ & w & -> & _). exists mc. split; [done | apply goes_on_refl].
  - rewrite upd_lookup. case_decide; subst.
    + rewrite Hj. eexists. split; [reflexivity |]. intros Hv1. split_and!; [done | done |]. by rewrite app_nil_r.
    + exists mc. split; [done | apply goes_on_refl].
Qed.

Lemma mrun_client {d} l st st' j mc : mrun d l st st' → wf st → clients st !! j = Some mc →
  ∃ mc', clients st' !! j = Some mc' ∧ goes_on (to_client j l) mc mc'.
Proof.
  intros Hr. revert mc; induction Hr as [|l1 l2 st1 st2 st3 Hs Hr IH]; intros mc Hst Hj.
  { exists mc. split; [done | apply goes_on_refl]. }
  destruct (mstep_client _ _ _ _ _ Hs Hst Hj) as (mc1 & Hj1 & H1).
  destruct (IH mc1) as (mc2 & Hj2 & H2); [by eapply mstep_wf | done |].
  exists mc2. split; [done |]. rewrite to_client_app. by eapply goes_on_trans.
Qed.

Lemma mrun_dead {d} l st st' j : mrun d l st st' → wf st → (j < MCLIENT_MAX)%nat → dead_at st j → dead_at st' j.
Proof.
  intros Hr Hst Hj Hd mc' Hmc'. destruct (lookup_lt_is_Some_2 (clients st) j) as [mc Hmc]; [by rewrite wf_len |].
  destruct (mrun_client _ _ _ _ _ Hr Hst Hmc) as (mc2 & Hmc2 & Hg). rewrite Hmc' in Hmc2. injection Hmc2 as <-.
  specialize (Hd _ Hmc). destruct (live mc') eqn:E; [| done]. destruct (Hg E) as [? _]. congruence.
Qed.

Lemma alive_or_dead st i : wf st → (i < MCLIENT_MAX)%nat → live_at st i ∨ dead_at st i.
Proof.
  intros Hst Hi. destruct (lookup_lt_is_Some_2 (clients st) i) as [mc Hmc]; [by rewrite wf_len |].
  destruct (live mc) eqn:E; [left; by exists mc | right; intros mc' E']. congruence.
Qed.

(** *** How many clients there are *)

Definition nlive st : nat := length (live_clients st).

Lemma filter_live_le l l' :
  Forall2 (λ mc mc', live mc' = true → live mc = true) l l' → (length (List.filter live l') <= length (List.filter live l))%nat.
Proof.
  induction 1 as [|mc mc' l l' Hmc Hl IH]; [done |]. cbn [List.filter].
  destruct (live mc') eqn:E'; [rewrite (Hmc eq_refl) | destruct (live mc)]; cbn [length]; lia.
Qed.

Lemma filter_live_lt l l' j mc mc' :
  Forall2 (λ mc mc', live mc' = true → live mc = true) l l' → l !! j = Some mc → l' !! j = Some mc' →
  live mc = true → live mc' = false → (length (List.filter live l') < length (List.filter live l))%nat.
Proof.
  intros Hl. revert j; induction Hl as [|a a' l l' Ha Hl IH]; intros j Hj Hj' Hv Hd; [done |].
  destruct j as [|j]; cbn in Hj, Hj'; cbn [List.filter].
  - injection Hj as ->. injection Hj' as ->. rewrite Hv, Hd. cbn [length]. pose proof (filter_live_le _ _ Hl). lia.
  - specialize (IH j Hj Hj' Hv Hd). destruct (live a') eqn:E'; [rewrite (Ha eq_refl) | destruct (live a)]; cbn [length]; lia.
Qed.

Lemma mrun_pointwise {d} l st st' : mrun d l st st' → wf st →
  Forall2 (λ mc mc', live mc' = true → live mc = true) (clients st) (clients st').
Proof.
  intros Hr Hst. apply Forall2_same_length_lookup. split.
  - pose proof (mrun_wf _ _ _ Hr Hst). by rewrite !wf_len.
  - intros i mc mc' Hi Hi'. destruct (mrun_client _ _ _ _ _ Hr Hst Hi) as (mc2 & Hi2 & Hg).
    rewrite Hi' in Hi2. injection Hi2 as <-. intros Hv. by apply Hg.
Qed.

Lemma mrun_nlive {d} l st st' : mrun d l st st' → wf st → (nlive st' <= nlive st)%nat.
Proof. intros. apply filter_live_le. by eapply mrun_pointwise. Qed.

Lemma mrun_nlive_lt {d} l st st' i : mrun d l st st' → wf st → live_at st i → dead_at st' i → (nlive st' < nlive st)%nat.
Proof.
  intros Hr Hst (mc & Hi & Hv) Hd. destruct (mrun_client _ _ _ _ _ Hr Hst Hi) as (mc' & Hi' & _).
  eapply filter_live_lt; [by eapply mrun_pointwise | exact Hi | exact Hi' | done | by apply Hd].
Qed.

Lemma nlive_pos st i : live_at st i → (0 < nlive st)%nat.
Proof.
  intros (mc & Hi & Hv). unfold nlive, live_clients. assert (In mc (List.filter live (clients st))) as Hin.
  { apply List.filter_In. split; [apply list_elem_of_In; by eapply list_elem_of_lookup_2 | done]. }
  destruct (List.filter live (clients st)); [done | cbn; lia].
Qed.
End Steps.
