(* ===== verification/MserverQueue.v ===== *)
(** * Queueing a message, dropping a client: the handlers end

    The phases of [mclient_enqueue] and [mclient_flush] as steps, and the theorem
    about the five functions that call each other.  A client is dropped while
    others are told, telling them may drop them, and each drop may hand the
    keyboard on, which sends again: but every drop frees a slot before it goes on,
    and while others are told nobody else is.  With [n] clients the calls nest no
    deeper than 4 n + 8, so [DEPTH] is enough for the table's eight. *)

From stdpp Require Import gmap.
From S2P Require Import Prelude Microser LumiMsg IpcMsg AttrStore Mserver MserverSteps.

Lemma send_loop_ok evs : ∀ bs, let '(e, sent, _) := send_loop evs bs in ∃ rest, bs = sent ++ rest ∧ (e = Drained → rest = []).
Proof.
  induction evs as [|ev evs IH]; intros bs; cbn [send_loop]; destruct (Z.leb_spec (zlen bs) 0) as [Hz|Hz];
    try (exists bs; split; [done |]; intros _; apply length_zero_iff_nil; unfold zlen in *; lia).
  - by exists bs.
  - destruct ev as [| | |n]; try (by exists bs); [apply IH |].
    specialize (IH (drop (Z.to_nat n) bs)). destruct (send_loop evs (drop (Z.to_nat n) bs)) as [[e more] evs'].
    destruct IH as (rest & E & He). exists rest. split; [| done]. by rewrite <- app_assoc, <- E, take_drop.
Qed.

Lemma grow_cap_ok fuel : ∀ cap need, 0 < cap → need <= cap * 2 ^ Z.of_nat fuel →
  yields (grow_cap fuel cap need) (λ cap', need <= cap' ∧ cap <= cap' ∧ cap' <= cap `max` (2 * need)).
Proof.
  induction fuel as [|fuel IH]; intros cap need Hc Hn; cbn [grow_cap]; destruct (Z.leb_spec need cap); try (cbn; lia).
  eapply yields_mono; [apply IH; [lia |] |].
  - rewrite Nat2Z.inj_succ, Z.pow_succ_r in Hn by lia. lia.
  - intros cap' H'. cbn beta in H'. lia.
Qed.

Lemma find_slot_ok {A} (p : A → bool) l :
  match find_slot p l with
  | Some j => ∃ x, l !! j = Some x ∧ p x = true ∧ ∀ k y, (k < j)%nat → l !! k = Some y → p y = false
  | None => ∀ k y, l !! k = Some y → p y = false
  end.
Proof.
  induction l as [|x l IH]; [done |]. cbn [find_slot]. destruct (p x) eqn:E.
  - exists x. split_and!; [done | done |]. intros k y Hk. lia.
  - destruct (find_slot p l) as [j|]; cbn [fmap option_fmap option_map].
    + destruct IH as (y & Hj & Hy & Hb). exists y. split_and!; [done | done |]. intros [|k] z Hk Hz; [by injection Hz as <- | eapply (Hb k); [lia | done]].
    + intros [|k] y Hy; [by injection Hy as <- | by eapply IH].
Qed.

Section Queue.
Context {W : Type} `{HW : !Window W} `{HT : !Tunables} `{HWL : !WindowLaws W} `{HTO : !TunablesOk}.
Implicit Types (st : srv W).

(** A run that leaves the depth of announcements as it was. *)
Definition does (d : bool) (l : list put_) st st' : Prop := mrun d l st st' ∧ client_event_depth st' = client_event_depth st.

Lemma does_nil {d} st : does d [] st st.
Proof. split; [constructor | done]. Qed.

Lemma does_app {d} l1 l2 st1 st2 st3 : does d l1 st1 st2 → does d l2 st2 st3 → does d (l1 ++ l2) st1 st3.
Proof. intros [H1 E1] [H2 E2]. split; [by eapply mrun_app | congruence]. Qed.

Lemma does_step {d} l st st' : mstep d l st st' → client_event_depth st' = client_event_depth st → does d l st st'.
Proof. intros. split; [by apply mrun_one | done]. Qed.

Lemma does_then {d} st1 st2 l st3 : does d [] st1 st2 → does d l st2 st3 → does d l st1 st3.
Proof. apply does_app. Qed.

Lemma does_wf {d} l st st' : does d l st st' → wf st → wf st'.
Proof. intros [H _]. by eapply mrun_wf. Qed.

(** The client stays. *)
Lemma does_client {d} st i mc ms mc' :
  clients st !! i = Some mc → live mc = true → msg_put ms mc mc' → does d (pair i <$> ms) st (upd st i (λ _, mc')).
Proof. intros. by apply does_step; [eapply m_client |]. Qed.

Lemma upd_at st i mc f : clients st !! i = Some mc → clients (upd st i f) !! i = Some (f mc).
Proof. intros E. by rewrite upd_lookup, decide_True, E. Qed.

Lemma time_null_does {d} st : does d [] st (time_null st).2 ∧ clients (time_null st).2 = clients st.
Proof. split; [apply does_step; [constructor |] |]; unfold time_null; by destruct (clock st) as [|t [|t' ts]]. Qed.

Lemma realloc_does {d} st : does d [] st (realloc_next st).2 ∧ clients (realloc_next st).2 = clients st.
Proof. split; [apply does_step; [constructor |] |]; unfold realloc_next; by destruct (realloc_ok st). Qed.

(** *** Parts of a queue *)

Lemma outbound_flush mc sent evs rest : wf_client mc →
  drop (Z.to_nat (outq_off mc)) (outq mc) = sent ++ rest →
  outbound (flush_done mc sent evs) = outbound mc ∧ drop (Z.to_nat (outq_off mc + zlen sent)) (outq mc) = rest.
Proof.
  intros Hwf E. destruct (wc_off _ Hwf). pose proof (zlen_nonneg sent).
  assert (drop (Z.to_nat (outq_off mc + zlen sent)) (outq mc) = rest) as Hd.
  { replace (Z.to_nat (outq_off mc + zlen sent)) with (Z.to_nat (outq_off mc) + length sent)%nat by (unfold zlen in *; lia).
    rewrite <- drop_drop, E. apply drop_app_length. }
  split; [| done]. unfold outbound, flush_done. cbn [sk sk_conn c_sent outq_off outq]. by rewrite Hd, E, <- app_assoc.
Qed.

Lemma pending_drop mc : wf_client mc → zlen (drop (Z.to_nat (outq_off mc)) (outq mc)) = mclient_pending mc.
Proof. intros Hwf. destruct (wc_off _ Hwf). unfold mclient_pending. by rewrite zlen_drop by lia. Qed.

Lemma put_flush mc sent evs rest : wf_client mc →
  drop (Z.to_nat (outq_off mc)) (outq mc) = sent ++ rest → msg_put [] mc (flush_done mc sent evs).
Proof.
  intros Hwf E. constructor; try done.
  - intros _. pose proof (pending_drop mc Hwf) as Hp. rewrite E, zlen_app in Hp. pose proof (zlen_nonneg sent). pose proof (zlen_nonneg rest).
    destruct Hwf. constructor; cbn; try done; unfold mclient_pending in *; cbn; lia.
  - intros _. rewrite app_nil_r. by eapply outbound_flush.
Qed.

Lemma put_drained mc : wf_client mc → msg_put [] mc (drained mc).
Proof.
  intros Hwf. unfold drained. destruct (Z.eqb_spec (outq_off mc) (zlen (outq mc))) as [E|]; [| by constructor; rewrite ?app_nil_r].
  constructor; try done.
  - intros [] . destruct hard_limit_range. constructor; unfold mclient_pending in *; cbn; rewrite ?zlen_nil; (done || lia).
  - intros _. rewrite app_nil_r. unfold outbound. cbn. f_equal. symmetry. apply drop_ge. unfold zlen in E. lia.
Qed.

Lemma put_field mc f :
  wf_client mc → mc_id (f mc) = mc_id mc → role (f mc) = role mc → hiwater (f mc) = hiwater mc →
  outq (f mc) = outq mc → outq_off (f mc) = outq_off mc → outq_cap (f mc) = outq_cap mc → sk (f mc) = sk mc →
  msg_put [] mc (f mc).
Proof.
  intros Hwf Hid Hr Hh Eq Eo Ec Es. constructor; try done.
  - intros []. unfold mclient_pending in *.
    pose proof (f_equal inq Hid) as E1. pose proof (f_equal inq_cap Hid) as E2. pose proof (f_equal rows Hid) as E3.
    pose proof (f_equal cols Hid) as E4. pose proof (f_equal name Hid) as E5. cbn in E1, E2, E3, E4, E5.
    constructor; unfold mclient_pending; rewrite ?Eq, ?Eo, ?Ec, ?Es, ?Hr, ?E1, ?E2, ?E3, ?E4, ?E5; done.
  - intros _. unfold outbound. by rewrite Eq, Eo, Es, app_nil_r.
Qed.

Lemma put_reclaim mc : wf_client mc → msg_put [] mc (reclaim mc).
Proof.
  intros Hwf. unfold reclaim. destruct (Z.ltb_spec 0 (outq_off mc)); [| by constructor; rewrite ?app_nil_r].
  pose proof (pending_drop mc Hwf) as Hp. constructor; try done.
  - intros []. constructor; unfold mclient_pending in *; cbn; rewrite ?Hp; (done || lia).
  - intros _. rewrite app_nil_r. unfold outbound. cbn. done.
Qed.

Lemma reclaimed mc : wf_client mc → outq_off (reclaim mc) = 0 ∧ zlen (outq (reclaim mc)) = mclient_pending mc.
Proof.
  intros Hwf. unfold reclaim. destruct (wc_off _ Hwf). destruct (Z.ltb_spec 0 (outq_off mc)); cbn.
  - split; [done | by apply pending_drop].
  - unfold mclient_pending. lia.
Qed.

(** The message is framed at the end of the queue when there is room. *)
Lemma put_frame mc type payload : wf_client mc →
  zlen (outq mc) + IPC_HDR_SIZE + zlen payload <= outq_cap mc →
  mclient_pending mc + IPC_HDR_SIZE + zlen payload <= mserver_outq_hard_limit →
  yields (outq_put mc type payload) (msg_put [(type, payload)] mc).
Proof.
  intros Hwf Hroom Hlim. unfold outq_put, IPC_HDR_SIZE in *. pose proof (zlen_nonneg (outq mc)). pose proof (zlen_nonneg payload).
  set (room := outq_cap mc - zlen (outq mc)) in *.
  assert (zlen (replicate (Z.to_nat room) 0) = room) as Hz by (apply zlen_replicate; lia).
  eapply yields_seq; [apply ipc_msg_frame_ok; cbn [deref]; lia |]. intros [n out] Hx.
  change IPC_HDR_SIZE with 8 in Hx. rewrite (proj2 (Z.leb_le _ _)) in Hx by lia. cbn [fst snd deref] in Hx.
  destruct Hx as [-> Hw]. rewrite (proj2 (Z.ltb_ge _ _)) by lia. cbn [yields].
  assert (take (Z.to_nat (8 + zlen payload)) out = frame type payload) as ->.
  { destruct Hw as [Hl Hw]. rewrite take_ge in Hw by (unfold zlen; lia).
    assert (zlen (frame type payload) = 8 + zlen payload) as Hf by (unfold frame; rewrite !zlen_app; change (zlen (be32 _)) with 4; lia).
    apply aget_ext. intros k. rewrite aget_take by lia. specialize (Hw k). rewrite Hf, Z.add_0_l, Z.sub_0_r in Hw.
    destruct (Z.ltb_spec k (8 + zlen payload)).
    - destruct (Z.leb_spec 0 k); [| rewrite !(proj2 (aget_None _ _)) by lia; done].
      exact Hw.
    - symmetry. apply aget_None. lia. }
  assert (zlen (frame type payload) = 8 + zlen payload) as Hf by (unfold frame; rewrite !zlen_app; change (zlen (be32 _)) with 4; lia).
  constructor; try done.
  - intros []. clear Hw. set (fr := frame type payload) in *. clearbody fr.
    constructor; unfold mclient_pending in *; cbn; rewrite ?zlen_app, ?Hf; (done || lia).
  - intros []. unfold outbound, frames. cbn [map concat outq outq_off sk fst snd]. rewrite app_nil_r, drop_app_le by (unfold zlen in *; lia). by rewrite app_assoc.
Qed.

(** *** The phases *)

(** [upd] of a client that stays, by a function that puts nothing. *)
Lemma does_upd {d} st i mc f :
  clients st !! i = Some mc → live mc = true → msg_put [] mc (f mc) → does d [] st (upd st i f) ∧ clients (upd st i f) !! i = Some (f mc).
Proof.
  intros Hi Hv Hp. split; [| by apply upd_at]. rewrite (upd_const st i mc) by done. by apply (does_client st i mc []).
Qed.

Lemma put_live ms mc mc' : msg_put ms mc mc' → live mc' = live mc.
Proof. intros H. unfold live. by rewrite (f_equal fd (mp_id _ _ _ H) : fd mc' = fd mc). Qed.

Lemma does_hiwater {d} st i mc b : clients st !! i = Some mc → live mc = true →
  let st' := update_master_interest (upd st i (λ mc, {| mc with hiwater := b |})) in
  does d [] st st' ∧ clients st' !! i = Some {| mc with hiwater := b |}.
Proof. intros Hi Hv. split; [apply does_step; [by eapply m_hiwater | done] |]. by apply (upd_at st i mc). Qed.

Lemma flush_rest_ok {d} st i mc before :
  wf st → clients st !! i = Some mc → live mc = true → yields (flush_rest st i before) (λ st', does d [] st st' ∧ ∃ mc', clients st' !! i = Some mc' ∧ live mc' = true ∧ role mc' = role mc).
Proof.
  intros Hst Hi Hv. unfold flush_rest.
  destruct (does_upd (d:=d) st i mc drained) as [H1 Hi1]; [done | done | apply put_drained; by eapply wf_at |].
  set (st1 := upd st i drained) in *. rewrite Hi1. cbn [mbind option_bind].
  assert (live (drained mc) = true) as Hv1 by (rewrite (put_live [] mc); [done | apply put_drained; by eapply wf_at]).
  pose proof (does_wf _ _ _ H1 Hst) as Hst1. set (mc1 := drained mc) in *.
  assert (∃ mc2, does d [] st1 (flush_stall st1 i before mc1) ∧ clients (flush_stall st1 i before mc1) !! i = Some mc2 ∧
    live mc2 = true ∧ role mc2 = role mc1) as (mc2 & H2 & Hi2 & Hv2 & Hr2).
  { unfold flush_stall. case_match; [| case_match].
    - destruct (does_upd (d:=d) st1 i mc1 (λ mc, {| mc with stall_since := 0 |})) as [H2 Hi2]; [done | done | |].
      { apply (put_field mc1 (λ mc, {| mc with stall_since := 0 |})); try done. by eapply wf_at. }
      eexists. by split_and!.
    - destruct (time_null_does (d:=d) st1) as [H2 E2]. destruct (time_null st1) as [now st2]. cbn [snd] in *. rewrite <- E2 in Hi1.
      destruct (does_upd (d:=d) st2 i mc1 (λ mc, {| mc with stall_since := now |})) as [H3 Hi3]; [done | done | |].
      { apply (put_field mc1 (λ mc, {| mc with stall_since := now |})); try done. eapply wf_at; [by eapply does_wf | done]. }
      eexists. split_and!; [by eapply does_then | done | done | done].
    - exists mc1. split; [apply does_nil | done]. }
  set (st2 := flush_stall st1 i before mc1) in *. clearbody st2.
  assert (∃ mc3, does d [] st2 (flush_resume st2 i mc1) ∧ clients (flush_resume st2 i mc1) !! i = Some mc3 ∧
    live mc3 = true ∧ role mc3 = role mc2) as (mc3 & H3 & Hi3 & Hv3 & Hr3).
  { unfold flush_resume. case_match.
    - destruct (does_hiwater (d:=d) st2 i mc2 false Hi2 Hv2) as [H3 Hi3]. eexists. by split_and!.
    - exists mc2. split; [apply does_nil | done]. }
  set (st3 := flush_resume st2 i mc1) in *. clearbody st3. cbn [yields].
  pose proof (does_wf _ _ _ H2 Hst1) as Hst2. pose proof (does_wf _ _ _ H3 Hst2) as Hst3.
  assert (msg_put [] mc3 (client_interest mc3)) as Hp.
  { pose proof (wf_at _ _ _ Hst3 Hi3) as Hw. unfold client_interest. case_match.
    - by constructor; rewrite ?app_nil_r.
    - by apply (put_field mc3 (λ mc, {| mc with watch := Some (if 0 <? mclient_pending mc3 then Z.lor IOX_READ IOX_WRITE else IOX_READ) |})). }
  destruct (does_upd (d:=d) st3 i mc3 client_interest Hi3 Hv3 Hp) as [H4 Hi4]. split.
  - eapply does_then; [exact H1 |]. eapply does_then; [exact H2 |]. eapply does_then; [exact H3 | exact H4].
  - eexists. split_and!; [exact Hi4 | by rewrite (put_live [] mc3) |]. rewrite (mp_role _ _ _ Hp), Hr3, Hr2.
    apply (mp_role [] mc), put_drained. exact (wf_at _ _ _ Hst Hi).
Qed.

Lemma too_far_behind_ok {d} st mc need :
  let '(behind, st') := too_far_behind st mc need in
  does d [] st st' ∧ clients st' = clients st ∧ (behind = false → mclient_pending mc + need <= mserver_outq_hard_limit).
Proof.
  unfold too_far_behind. destruct (Z.ltb_spec mserver_outq_hard_limit (mclient_pending mc + need)); [split_and!; [apply does_nil | done | done] |].
  destruct (stall_since mc =? 0); [split_and!; [apply does_nil | done | done] |].
  destruct (time_null_does (d:=d) st) as [H1 E]. destruct (time_null st). by split_and!.
Qed.

Lemma outq_room_ok {d} st i mc need :
  wf st → clients st !! i = Some mc → live mc = true → 0 < need →
  zlen (outq mc) + need <= mserver_outq_hard_limit →
  yields (outq_room st i mc need) (λ x, does d [] st x.2 ∧ ∃ mc', clients x.2 !! i = Some mc' ∧ live mc' = true ∧
    outq mc' = outq mc ∧ outq_off mc' = outq_off mc ∧ (x.1 = true → zlen (outq mc') + need <= outq_cap mc')).
Proof.
  intros Hst Hi Hv Hn Hlim. unfold outq_room. pose proof (wf_at _ _ _ Hst Hi) as Hw. pose proof (wc_cap _ Hw) as Hcap.
  pose proof hard_limit_range as Hhl. pose proof (zlen_nonneg (outq mc)).
  destruct (Z.leb_spec (zlen (outq mc) + need) (outq_cap mc)).
  { cbn. split; [apply does_nil |]. exists mc. by split_and!. }
  set (cap0 := if outq_cap mc =? 0 then 8192 else outq_cap mc).
  assert (0 < cap0 ∧ cap0 <= 8192 `max` (2 * mserver_outq_hard_limit) ∧ outq_cap mc <= cap0) as (Hc0 & Hc1 & Hc2)
    by (unfold cap0; destruct (Z.eqb_spec (outq_cap mc) 0); lia).
  eapply yields_seq; [apply grow_cap_ok; [done |] |].
  { change (2 ^ Z.of_nat 64) with (16 * 2 ^ 60). nia. }
  intros cap Hcap'. cbn beta in Hcap'. destruct (realloc_does (d:=d) st) as [H1 E1]. destruct (realloc_next st) as [ok st1]. cbn [snd] in *.
  rewrite <- E1 in Hi. cbn [yields fst snd]. destruct ok.
  - destruct (does_upd (d:=d) st1 i mc (λ mc, {| mc with outq_cap := cap |})) as [H2 Hi2]; [done | done | |].
    { constructor; try done; [| by intros _; rewrite app_nil_r]. intros []. constructor; try done. cbn. lia. }
    split; [by eapply does_then |]. eexists. split; [exact Hi2 |]. split_and!; try done. cbn. lia.
  - split; [done |]. exists mc. by split_and!.
Qed.

(** *** Loops over the clients *)

Lemma live_from_ok st i :
  match live_from st i with
  | Some j => (i <= j)%nat ∧ (j < length (clients st))%nat ∧ live_at st j ∧ ∀ k, (i <= k < j)%nat → dead_at st k
  | None => ∀ k, (i <= k)%nat → dead_at st k
  end.
Proof.
  unfold live_from. assert (∀ k, drop i (clients st) !! k = clients st !! (i + k)%nat) as Hd by (intros; apply lookup_drop).
  pose proof (find_slot_ok live (drop i (clients st))) as H. destruct (find_slot live (drop i (clients st))) as [j|]; cbn.
  - destruct H as (mc & Hj & Hv & Hbefore). rewrite Hd in Hj. split; [lia |]. split; [by eapply lookup_lt_Some |].
    split; [by exists mc |]. intros k Hk mc' Hk'. apply (Hbefore (k - i)%nat); [lia |]. rewrite Hd. by replace (i + (k - i))%nat with k by lia.
  - intros k Hk mc' Hk'. apply (H (k - i)%nat). rewrite Hd. by replace (i + (k - i))%nat with k by lia.
Qed.

Lemma first_from st : wf st → mclient_first st = live_from st 0.
Proof.
  intros Hst. unfold mclient_first, mclient_next, live_from. pose proof (wf_len _ Hst) as Hl.
  destruct (clients st) as [|mc l]; [done |]. cbn. destruct (live mc); [done |]. rewrite drop_0. by destruct (find_slot live l).
Qed.

Section Loops.
Context (Inv : nat → srv W → Prop) (body : nat → srv W → option (srv W)).
Context (Hwf : ∀ k st, Inv k st → wf st).
Context (Hskip : ∀ i st, (i < MCLIENT_MAX)%nat → dead_at st i → Inv i st → Inv (S i) st).
Context (Hbody : ∀ i st, (i < MCLIENT_MAX)%nat → Inv i st → yields (body i st) (λ st', Inv (S i) st' ∧ ∀ j, (j < MCLIENT_MAX)%nat → dead_at st j → dead_at st' j)).

Lemma skip_to st i k : Inv k st → (k <= i <= MCLIENT_MAX)%nat → (∀ j, (k <= j < i)%nat → dead_at st j) → Inv i st.
Proof.
  intros Hk Hi Hd. replace i with (k + (i - k))%nat by lia.
  assert (∀ n, (n <= i - k)%nat → Inv (k + n)%nat st) as H; [| by apply H].
  intros n; induction n as [|n IH]; intros Hn; [by rewrite Nat.add_0_r |].
  replace (k + S n)%nat with (S (k + n)) by lia. apply Hskip; [lia | apply Hd; lia | apply IH; lia].
Qed.

(** Where the loop stands: what is between [k] and the current slot is free. *)
Definition at_slot (k : nat) (cur : option nat) st : Prop :=
  match cur with
  | Some i => (k <= i < MCLIENT_MAX)%nat ∧ ∀ j, (k <= j < i)%nat → dead_at st j
  | None => ∀ j, (k <= j < MCLIENT_MAX)%nat → dead_at st j
  end.

Lemma at_next st i : wf st → at_slot (S i) (mclient_next st i) st.
Proof.
  intros Hst. unfold mclient_next, at_slot. pose proof (live_from_ok st (S i)) as H. pose proof (wf_len _ Hst) as Hl.
  destruct (live_from st (S i)) as [j|]; [split; [lia | apply H] | intros k Hk; apply H; lia].
Qed.

Lemma at_first st : wf st → at_slot 0 (mclient_first st) st.
Proof.
  intros Hst. rewrite first_from by done. unfold at_slot. pose proof (live_from_ok st 0) as H. pose proof (wf_len _ Hst) as Hl.
  destruct (live_from st 0) as [j|]; [split; [lia | apply H] | intros k Hk; apply H; lia].
Qed.

Lemma each_client_inv n : ∀ k cur st, Inv k st → at_slot k cur st → (MCLIENT_MAX - k <= n)%nat → (k <= MCLIENT_MAX)%nat →
  yields (each_client n body cur st) (Inv MCLIENT_MAX).
Proof.
  induction n as [|n IH]; intros k cur st Hk Hcur Hn Hm; destruct cur as [i|]; cbn [each_client at_slot] in *;
    try (cbn [yields]; by eapply skip_to).
  - destruct Hcur. lia.
  - destruct Hcur as [Hi Hd]. assert (Inv i st) as Hii by (eapply skip_to; [done | lia | done]).
    pose proof (at_next st i (Hwf _ _ Hii)) as Hnext.
    eapply yields_seq; [apply Hbody; [lia | done] |]. intros st' [H1 Hdd]. apply (IH (S i)); [done | | lia | lia].
    destruct (mclient_next st i) as [j|]; cbn in *.
    + split; [lia |]. intros j' Hj'. apply Hdd; [lia | apply Hnext; lia].
    + intros j' Hj'. apply Hdd; [lia | apply Hnext; lia].
Qed.

Lemma walk_clients_inv n : ∀ k cur st, Inv k st → at_slot k cur st → (MCLIENT_MAX - k <= n)%nat → (k <= MCLIENT_MAX)%nat →
  yields (walk_clients n body cur st) (Inv MCLIENT_MAX).
Proof.
  induction n as [|n IH]; intros k cur st Hk Hcur Hn Hm; destruct cur as [i|]; cbn [walk_clients at_slot] in *;
    try (cbn [yields]; by eapply skip_to).
  - destruct Hcur. lia.
  - destruct Hcur as [Hi Hd]. assert (Inv i st) as Hii by (eapply skip_to; [done | lia | done]).
    eapply yields_seq; [apply Hbody; [lia | done] |]. intros st' [H1 _]. apply (IH (S i)); [done | | lia | lia].
    by apply at_next, (Hwf (S i)).
Qed.

Lemma each_client_ok st : Inv 0 st → yields (each_client MCLIENT_MAX body (mclient_first st) st) (Inv MCLIENT_MAX).
Proof. intros H. apply (each_client_inv _ 0); [done | apply at_first; by eapply Hwf | lia | lia]. Qed.

Lemma walk_clients_ok st : Inv 0 st → yields (walk_clients MCLIENT_MAX body (mclient_first st) st) (Inv MCLIENT_MAX).
Proof. intros H. apply (walk_clients_inv _ 0); [done | apply at_first; by eapply Hwf | lia | lia]. Qed.
End Loops.
End Queue.
