(* ===== verification/MserverTotal.v ===== *)
(** * The session server's handlers end and are safe

    The theorem about the five functions that call each other, by induction on
    how deep they may nest, and from it every handler: whatever arrives, in
    whatever order, and however sockets, PTY, clock and memory behave, the
    handler returns, and what is true of the server stays true. *)

From stdpp Require Import gmap.
From S2P Require Import Prelude Microser LumiMsg IpcMsg AttrStore Mserver MserverSteps MserverQueue.

Section Group.
Context {W : Type} `{HW : !Window W} `{HT : !Tunables} `{HWL : !WindowLaws W} `{HTO : !TunablesOk}.
Implicit Types (st : srv W).

(** *** The keyboard and the size when nothing is left to do *)

(** Somebody has the keyboard, or nobody who stays asked for more than to watch. *)
Definition keyboard_settled st : Prop := reassign_to st = None.

(** The window has the size that fits the clients. *)
Definition fit_of st : Z * Z * Z * Z := foldl fit_one (0, 0, 0, 0) (live_clients st).
Definition fitted st : Prop :=
  let '(r, c, _, _) := fit_of st in 0 < r → 0 < c → window_rows (win st) = Some r ∧ window_cols (win st) = Some c.

Lemma Forall2_upd (R : mclient → mclient → Prop) st i f :
  (∀ mc, R mc mc) → (∀ mc, clients st !! i = Some mc → R mc (f mc)) → Forall2 R (clients st) (clients (upd st i f)).
Proof.
  intros Hr Hf. apply Forall2_same_length_lookup. split; [symmetry; apply length_alter |].
  intros j mc mc' Hj. rewrite upd_lookup. case_decide as E; subst.
  - rewrite Hj. intros [= <-]. by apply Hf.
  - rewrite Hj. by intros [= <-].
Qed.

Lemma reassign_ext st st' :
  Forall2 (λ a b, live b = live a ∧ role b = role a ∧ flags b = flags a) (clients st) (clients st') → reassign_to st' = reassign_to st.
Proof.
  intros H. unfold reassign_to, live_clients.
  assert (existsb (λ mc, role mc =? IPC_ROLE_WRITE) (List.filter live (clients st')) =
          existsb (λ mc, role mc =? IPC_ROLE_WRITE) (List.filter live (clients st))) as ->.
  { induction H as [|a b l l' (Hv & Hr & _) H IH]; [done |]. cbn [List.filter]. rewrite Hv. destruct (live a); cbn [existsb]; by rewrite ?Hr, IH. }
  destruct (existsb _ _); [done |].
  induction H as [|a b l l' (Hv & _ & Hf) H IH]; [done |]. cbn [find_slot]. by rewrite Hv, Hf, IH.
Qed.

Lemma fit_ext st st' :
  Forall2 (λ a b, live b = live a ∧ ∀ v, fit_one v b = fit_one v a) (clients st) (clients st') → fit_of st' = fit_of st.
Proof.
  intros H. unfold fit_of, live_clients. generalize (0, 0, 0, 0) as v.
  induction H as [|a b l l' (Hv & Hf) H IH]; intros v; [done |]. cbn [List.filter]. rewrite Hv.
  destruct (live a); cbn [foldl]; by rewrite ?Hf, IH.
Qed.

Lemma fit_settles st : wf st → yields (resize_to_fit st) (λ st', fitted st' ∧ clients st' = clients st).
Proof.
  intros Hst. unfold resize_to_fit, fitted, fit_of.
  pose proof (fit_range (live_clients st) 0 0 0 0 (live_clients_wf st Hst) ltac:(lia) ltac:(lia)) as H.
  destruct (foldl fit_one (0, 0, 0, 0) (live_clients st)) as [[[r c] pw] ph] eqn:E. destruct H as [Hr Hc].
  destruct (Z.ltb_spec 0 r), (Z.ltb_spec 0 c); cbn [andb]; try (cbn [yields]; rewrite E; split; [lia | done]).
  eapply yields_seq; [apply win_resize_ok; [apply Hst | lia | lia] |]. intros w (_ & Er & Ec & _).
  cbn [yields]. split; [| done]. change (live_clients (set_win st w)) with (live_clients st). rewrite E. intros _ _. exact (conj Er Ec).
Qed.

Lemma put_fit ms mc mc' : msg_put ms mc mc' → ∀ v, fit_one v mc' = fit_one v mc.
Proof.
  intros H v. pose proof (mp_id _ _ _ H) as Hid.
  pose proof (f_equal flags Hid) as E1. pose proof (f_equal rows Hid) as E2. pose proof (f_equal cols Hid) as E3.
  pose proof (f_equal cell_pw Hid) as E4. pose proof (f_equal cell_ph Hid) as E5. cbn in E1, E2, E3, E4, E5.
  unfold fit_one. by rewrite E1, E2, E3, E4, E5.
Qed.

(** While nobody is dropped, what is settled stays settled. *)
Lemma quiet_step l st st' : mstep false l st st' → wf st →
  (keyboard_settled st → keyboard_settled st') ∧ (fitted st → fitted st').
Proof.
  intros Hs Hst. destruct Hs as [st|st|st n|st i mc mc' ms Hi Hv Hp|st i mc b Hi Hv| | |st st' Hd E|st i E]; try done.
  - unfold time_null. by destruct (clock st) as [|t [|t' ts]].
  - unfold realloc_next. by destruct (realloc_ok st).
  - unfold keyboard_settled, fitted. rewrite (reassign_ext st (upd st i _)), (fit_ext st (upd st i _)); [done | |].
    + apply Forall2_upd; [done |]. intros mc0 Hi0. rewrite Hi in Hi0. injection Hi0 as <-. split; [by eapply put_live | by eapply put_fit].
    + apply Forall2_upd; [done |]. intros mc0 Hi0. rewrite Hi in Hi0. injection Hi0 as <-.
      split_and!; [by eapply put_live | by destruct Hp | by apply (f_equal flags (mp_id _ _ _ Hp))].
  - assert (∀ s : srv W, reassign_to (update_master_interest s) = reassign_to s) as E1 by done.
    assert (∀ s : srv W, fitted (update_master_interest s) ↔ fitted s) as E2 by done.
    unfold keyboard_settled. rewrite E1, E2. unfold fitted.
    rewrite (reassign_ext st (upd st i _)), (fit_ext st (upd st i _)); [done | |]; by apply Forall2_upd.
  - split; [unfold keyboard_settled; congruence |]. unfold fitted. rewrite (fit_ext st (upd st i _)); [done | by apply Forall2_upd].
Qed.

Lemma quiet_settled l st st' : mrun false l st st' → wf st →
  (keyboard_settled st → keyboard_settled st') ∧ (fitted st → fitted st').
Proof.
  induction 1 as [|l1 l2 st1 st2 st3 Hs Hr IH]; [done |]. intros Hst.
  destruct (quiet_step _ _ _ Hs Hst). destruct IH; [by eapply mstep_wf |]. by split; eauto.
Qed.

(** *** The theorem *)

(** What the server says of its own accord: who has the keyboard, who comes and goes. *)
Definition background (l : list put_) : Prop := Forall (λ x, x.2.1 = IPC_MSG_ROLE_CHANGE ∨ x.2.1 = IPC_MSG_CLIENT_EVENT) l.

(** How deep the calls from here may nest. *)
Definition need st : nat := (4 * nlive st + (if (client_event_depth st =? 0)%Z then 4 else 0))%nat.

(** The message was put for the client, and nothing else for anybody; or the
    client is gone, and the others were sent nothing else. *)
Definition told (i : nat) (m : Z * list Z) (l : list put_) st' : Prop :=
  (live_at st' i ∧ l = [(i, m)]) ∨ (dead_at st' i ∧ ∃ l1, background l1 ∧ (l = l1 ∨ l = (i, m) :: l1)).

Definition settled st : Prop := keyboard_settled st ∧ fitted st.

(** What is settled stays so. *)
Definition keeps st st' : Prop := (keyboard_settled st → keyboard_settled st') ∧ (fitted st → fitted st').

(** The client is still there, in the same role. *)
Definition stays st st' (i : nat) : Prop := ∃ mc mc', clients st !! i = Some mc ∧ clients st' !! i = Some mc' ∧ live mc' = true ∧ role mc' = role mc ∧ mc_id mc' = mc_id mc.

Definition disconnect_ends fuel : Prop := ∀ st i, wf st → live_at st i → (need st <= fuel)%nat →
  yields (mclient_disconnect fuel st i) (λ st', ∃ l, does true l st st' ∧ background l ∧ dead_at st' i ∧ settled st').
Definition flush_ends fuel : Prop := ∀ st i, wf st → (i < MCLIENT_MAX)%nat → (need st + 1 <= fuel)%nat →
  yields (mclient_flush fuel st i) (λ st', ∃ l, does true l st st' ∧ keeps st st' ∧ ((stays st st' i ∧ l = [] ∧ does false [] st st') ∨ (dead_at st' i ∧ background l))).
Definition enqueue_ends fuel : Prop := ∀ st i type payload, wf st → (i < MCLIENT_MAX)%nat → (need st + 2 <= fuel)%nat →
  yields (mclient_enqueue fuel st i type payload) (λ st', ∃ l, does true l st st' ∧ keeps st st' ∧ told i (type, payload) l st' ∧ (live_at st' i → does false l st st')).
Definition event_ends fuel : Prop := ∀ st i kind, wf st → (i < MCLIENT_MAX)%nat →
  ((if (client_event_depth st =? 0)%Z then 4 * nlive st + 3 else 1) <= fuel)%nat →
  yields (client_event fuel st i kind) (λ st', ∃ l, does true l st st' ∧ keeps st st' ∧ background l).
Definition reassign_ends fuel : Prop := ∀ st, wf st → (need st + 3 <= fuel)%nat →
  yields (role_reassign fuel st) (λ st', ∃ l, does true l st st' ∧ keeps st st' ∧ background l ∧ keyboard_settled st').

Lemma keeps_same st : keeps st st.
Proof. done. Qed.

Lemma keeps_then st1 st2 st3 : keeps st1 st2 → keeps st2 st3 → keeps st1 st3.
Proof. unfold keeps. tauto. Qed.

Lemma settled_keeps st st' : settled st' → keeps st st'.
Proof. unfold settled, keeps. tauto. Qed.

Lemma quiet_keeps l st st' : does false l st st' → wf st → keeps st st'.
Proof. intros [Hr _] Hst. by eapply quiet_settled. Qed.

Lemma does_drops {d} l st st' : does d l st st' → does true l st st'.
Proof. intros [Hr E]. split; [by eapply mrun_drops | done]. Qed.

Lemma background_app l1 l2 : background l1 → background l2 → background (l1 ++ l2).
Proof. apply Forall_app_2. Qed.

Lemma slot_lt st i : wf st → live_at st i → (i < MCLIENT_MAX)%nat.
Proof. intros Hst (mc & Hi & _). rewrite <- (wf_len _ Hst). by eapply lookup_lt_Some. Qed.

Lemma slot_at st i : wf st → (i < MCLIENT_MAX)%nat → ∃ mc, clients st !! i = Some mc.
Proof. intros Hst Hi. apply lookup_lt_is_Some_2. by rewrite wf_len. Qed.

Lemma does_need {d} l st st' : does d l st st' → wf st → (need st' <= need st)%nat.
Proof. intros [Hr Hd] Hst. unfold need. rewrite Hd. pose proof (mrun_nlive _ _ _ Hr Hst). lia. Qed.

Lemma drop_does st i mc : clients st !! i = Some mc → does true [] st (drop_client st i mc) ∧ dead_at (drop_client st i mc) i.
Proof.
  intros Hi. split; [apply does_step; [by apply m_drop | done] |]. intros mc'. unfold drop_client, update_master_interest. cbn [clients].
  rewrite upd_lookup, decide_True by done. unfold mclient_close. rewrite upd_lookup, decide_True by done. cbn [clients set_attrs].
  rewrite Hi. by intros [= <-].
Qed.

(** Once a client is gone: the keyboard handed on, the window fitted. *)
Lemma settle_step fuel st : reassign_ends fuel → wf st → (need st + 3 <= fuel)%nat →
  yields (st ← role_reassign fuel st; resize_to_fit st) (λ st', ∃ l, does true l st st' ∧ background l ∧ settled st').
Proof.
  intros Hre Hst Hn. eapply yields_seq; [by apply Hre |].
  intros st3 (l3 & Hd4 & _ & Hb4 & Hk). pose proof (does_wf _ _ _ Hd4 Hst) as Hst3.
  pose proof (fit_settles st3 Hst3) as H5. destruct (resize_to_fit st3) as [st4|] eqn:E5; [| done]. destruct H5 as [Hf Hc].
  assert (does true [] st3 st4) as Hd5.
  { apply does_step; [by apply m_fit |]. pose proof (resize_to_fit_ok st3 Hst3) as H5. rewrite E5 in H5. by destruct H5 as (_ & w & -> & _). }
  cbn [yields]. exists (l3 ++ []). split_and!; [by eapply does_app | by rewrite app_nil_r |].
  split; [| done]. unfold keyboard_settled, reassign_to, live_clients. by rewrite Hc.
Qed.

Lemma disconnect_step fuel : event_ends fuel → reassign_ends fuel → disconnect_ends (S fuel).
Proof.
  intros Hev Hre st i Hst Hi Hn. pose proof (slot_lt _ _ Hst Hi) as Hlt. cbn [mclient_disconnect].
  destruct Hi as (mc & Hi & Hv). rewrite Hi. cbn [mbind option_bind]. unfold live in Hv. rewrite Hv.
  assert (live_at st i) as Hl by (by exists mc). pose proof (nlive_pos _ _ Hl) as Hpos.
  eapply (yields_seq _ _ (λ st', ∃ l mc1 st1, does true l st st1 ∧ background l ∧ clients st1 !! i = Some mc1 ∧ st' = mclient_close st1 i mc1)).
  { eapply yields_seq; [apply Hev; [done | done | unfold need in Hn; destruct (_ =? 0); lia] |].
    intros st1 (l & Hd & _ & Hb). pose proof (does_wf _ _ _ Hd Hst) as Hst1. destruct (slot_at st1 i Hst1 Hlt) as [mc1 Hi1].
    rewrite Hi1. cbn. by exists l, mc1, st1. }
  intros st' (l & mc1 & st1 & Hd & Hb & Hi1 & ->).
  pose proof (does_wf _ _ _ Hd Hst) as Hst1. destruct (drop_does st1 i mc1 Hi1) as [Hd2 Hdead].
  fold (drop_client st1 i mc1). set (st2 := drop_client st1 i mc1) in *.
  pose proof (does_app _ _ _ _ _ Hd Hd2) as Hd3. pose proof (does_wf _ _ _ Hd3 Hst) as Hst2.
  pose proof (mrun_nlive_lt _ _ _ i (proj1 Hd3) Hst Hl Hdead) as Hlt2.
  eapply yields_mono; [apply (settle_step fuel st2 Hre Hst2); unfold need in *; rewrite (proj2 Hd3); destruct (_ =? 0); lia |].
  intros st4 (l4 & Hd4 & Hb4 & Hset). exists ((l ++ []) ++ l4). split_and!; [by eapply does_app | | | done].
  - rewrite app_nil_r. by apply background_app.
  - by apply (mrun_dead _ _ _ _ (proj1 Hd4) Hst2 Hlt).
Qed.

Lemma put_message st st3 i mc3 mc4 type payload :
  wf st → does false [] st st3 → clients st3 !! i = Some mc3 → live mc3 = true → msg_put [(type, payload)] mc3 mc4 →
  ∃ mc5, does false [(i, (type, payload))] st (high_water (upd st3 i (λ _, mc4)) i mc4) ∧
    clients (high_water (upd st3 i (λ _, mc4)) i mc4) !! i = Some mc5 ∧ live mc5 = true.
Proof.
  intros Hst Hd Hi3 Hv3 Hp4. pose proof (put_live _ _ _ Hp4) as Hv4. rewrite Hv3 in Hv4.
  pose proof (does_client (d:=false) st3 i mc3 _ mc4 Hi3 Hv3 Hp4) as Hd4.
  assert (clients (upd st3 i (λ _, mc4)) !! i = Some mc4) as Hi4 by (by erewrite upd_at).
  set (st4 := upd st3 i (λ _, mc4)) in *. unfold high_water. destruct (negb _ && _).
  - destruct (does_hiwater (d:=false) st4 i mc4 true Hi4 Hv4) as [H5 Hi5]. eexists. split_and!; [| exact Hi5 | done].
    eapply does_then; [exact Hd |]. apply (does_app _ _ _ _ _ Hd4 H5).
  - exists mc4. split_and!; [by eapply does_then | done | done].
Qed.

Lemma flush_step fuel : disconnect_ends fuel → flush_ends (S fuel).
Proof.
  intros Hdis st i Hst Hlt Hn. cbn [mclient_flush]. destruct (slot_at st i Hst Hlt) as [mc Hi]. rewrite Hi. cbn [mbind option_bind].
  destruct (Z.ltb_spec (fd mc) 0) as [Hf|Hf].
  { cbn. exists []. split; [apply does_nil |]. split; [apply keeps_same |]. right. split; [| constructor].
    intros mc'. rewrite Hi. intros [= <-]. unfold live. by apply Z.leb_gt. }
  assert (live mc = true) as Hv by (by apply Z.leb_le). pose proof (wf_at _ _ _ Hst Hi) as Hw.
  pose proof (send_loop_ok (sk_send (sk mc)) (drop (Z.to_nat (outq_off mc)) (outq mc))) as Hs.
  destruct (send_loop _ _) as [[e sent] evs]. destruct Hs as (rest & Es & _).
  pose proof (put_flush mc sent evs rest Hw Es) as Hp.
  destruct (does_upd (d:=false) st i mc (λ mc, flush_done mc sent evs) Hi Hv Hp) as [Hd Hi1].
  pose proof (does_wf _ _ _ Hd Hst) as Hst1. pose proof (put_live _ _ _ Hp) as Hv1. rewrite Hv in Hv1.
  assert (yields (flush_rest (upd st i (λ mc, flush_done mc sent evs)) i (mclient_pending mc)) (λ st',
    ∃ l, does true l st st' ∧ keeps st st' ∧ (stays st st' i ∧ l = [] ∧ does false [] st st' ∨ dead_at st' i ∧ background l))) as Hrest.
  { eapply yields_mono; [by apply (flush_rest_ok (d:=false) _ _ _ _ Hst1 Hi1) |]. intros st' (Hd2 & mc' & Hi' & Hv' & Hr').
    pose proof (does_then _ _ _ _ Hd Hd2) as Hd3. exists []. split_and!; [by eapply does_drops | by eapply quiet_keeps |].
    left. split; [| done]. exists mc, mc'. split_and!; try done.
    destruct (mrun_client _ _ _ _ _ (proj1 Hd3) Hst Hi) as (mc2 & Hi2 & Hg). rewrite Hi' in Hi2. injection Hi2 as <-. by apply Hg. }
  destruct e; [exact Hrest | exact Hrest |].
  eapply yields_mono; [apply Hdis; [done | by eexists | pose proof (does_need _ _ _ Hd Hst); lia] |].
  intros st' (l & Hd2 & Hb & Hdead & Hset). exists l.
  split_and!; [eapply does_then; [by eapply does_drops | done] | by apply settled_keeps | by right].
Qed.

Lemma enqueue_step fuel : disconnect_ends fuel → flush_ends fuel → enqueue_ends (S fuel).
Proof.
  intros Hdis Hfl st i type payload Hst Hlt Hn. cbn [mclient_enqueue]. destruct (slot_at st i Hst Hlt) as [mc Hi]. rewrite Hi. cbn [mbind option_bind].
  destruct (Z.ltb_spec (fd mc) 0) as [Hf|Hf].
  { cbn. exists []. split; [apply does_nil |]. split; [apply keeps_same |]. split; [| intros _; apply does_nil]. right. split; [| exists []; split; [constructor | by left]].
    intros mc'. rewrite Hi. intros [= <-]. unfold live. by apply Z.leb_gt. }
  assert (live mc = true) as Hv by (by apply Z.leb_le). pose proof (zlen_nonneg payload) as Hpl.
  (* dropping the client from a state that [st] leads to *)
  assert (∀ st1 mc1, does false [] st st1 → clients st1 !! i = Some mc1 → live mc1 = true →
    yields (mclient_disconnect fuel st1 i) (λ st', ∃ l, does true l st st' ∧ keeps st st' ∧ told i (type, payload) l st' ∧ (live_at st' i → does false l st st'))) as Hdrop.
  { intros st1 mc1 Hd Hi1 Hv1. eapply yields_mono; [apply Hdis; [by eapply does_wf | by eexists | pose proof (does_need _ _ _ Hd Hst); lia] |].
    intros st' (l & Hd2 & Hb & Hdead & Hset). exists l.
    split_and!; [eapply does_then; [by eapply does_drops | done] | by apply settled_keeps | |].
    - right. split; [done |]. exists l. by split; [| left].
    - intros (mc' & Hi' & Hv'). by rewrite (Hdead mc' Hi') in Hv'. }
  pose proof (too_far_behind_ok (d:=false) st mc (IPC_HDR_SIZE + zlen payload)) as H1.
  destruct (too_far_behind _ _ _) as [behind st1]. destruct H1 as (Hd1 & Hc1 & Hlim). rewrite <- Hc1 in Hi.
  destruct behind; [by eapply Hdrop |]. specialize (Hlim eq_refl). pose proof (does_wf _ _ _ Hd1 Hst) as Hst1.
  pose proof (wf_at _ _ _ Hst1 Hi) as Hw. pose proof (put_reclaim mc Hw) as Hp.
  destruct (does_upd (d:=false) st1 i mc reclaim Hi Hv Hp) as [Hd2 Hi2]. pose proof (does_wf _ _ _ Hd2 Hst1) as Hst2.
  pose proof (put_live _ _ _ Hp) as Hv2. rewrite Hv in Hv2. destruct (reclaimed mc Hw) as [Ho Hq].
  pose proof (does_then _ _ _ _ Hd1 Hd2) as Hd12. rewrite Hi2. cbn [mbind option_bind].
  eapply yields_seq; [apply (outq_room_ok (d:=false)); [done | done | done | unfold IPC_HDR_SIZE; lia | lia] |].
  intros [ok st3] (Hd3 & mc3 & Hi3 & Hv3 & Eq3 & Eo3 & Hroom). cbn [fst snd] in *.
  pose proof (does_then _ _ _ _ Hd12 Hd3) as Hd13. pose proof (does_wf _ _ _ Hd3 Hst2) as Hst3.
  destruct ok; cbn [negb]; [| by eapply Hdrop]. specialize (Hroom eq_refl). rewrite Hi3. cbn [mbind option_bind].
  eapply yields_seq; [apply put_frame; [by eapply wf_at | lia |] |].
  { unfold mclient_pending at 1. rewrite Eq3, Eo3, Ho, Hq. lia. }
  intros mc4 Hp4. destruct (put_message st st3 i mc3 mc4 type payload Hst Hd13 Hi3 Hv3 Hp4) as (mc5 & Hd5 & Hi5 & Hv5).
  set (st5 := high_water (upd st3 i (λ _, mc4)) i mc4) in *. pose proof (does_wf _ _ _ Hd5 Hst) as Hst5.
  eapply yields_mono; [apply Hfl; [done | done | pose proof (does_need _ _ _ Hd5 Hst); lia] |].
  intros st' (l & Hd6 & Hk6 & Hl). exists ([(i, (type, payload))] ++ l).
  split_and!; [eapply does_app; [by eapply does_drops | done] | eapply keeps_then; [by eapply quiet_keeps | done] | |].
  - destruct Hl as [[(mc' & mc6 & _ & Hi6 & Hv6 & _) [-> _]]|[Hdead Hb]]; [left; split; [by exists mc6 | done] | right].
    split; [done |]. exists l. by split; [| right].
  - destruct Hl as [[_ [-> Hqt]]|[Hdead _]]; intros (mc' & Hi' & Hv'); [by eapply does_app | by rewrite (Hdead mc' Hi') in Hv'].
Qed.

Lemma told_background i type payload l st' :
  type = IPC_MSG_ROLE_CHANGE ∨ type = IPC_MSG_CLIENT_EVENT → told i (type, payload) l st' → background l.
Proof. intros Ht [[_ ->]|(_ & l1 & Hb & [-> | ->])]; [by constructor | done | by constructor]. Qed.

Lemma event_step fuel : enqueue_ends fuel → event_ends (S fuel).
Proof.
  intros Hen st i kind Hst Hlt Hn. cbn [client_event]. destruct (Z.eqb_spec (client_event_depth st) 0) as [H0|H0]; cbn [negb].
  2: { cbn. exists []. split_and!; [apply does_nil | apply keeps_same | constructor]. }
  set (st1 := set_depth st (client_event_depth st + 1)).
  assert (mrun true [] st st1) as Hr1 by (apply mrun_one; constructor). pose proof (mrun_wf _ _ _ Hr1 Hst) as Hst1.
  assert (need st1 <= 4 * nlive st)%nat as Hn1.
  { unfold need. change (client_event_depth st1) with (client_event_depth st + 1). rewrite H0.
    change (0 + 1 =? 0) with false. cbv iota. pose proof (mrun_nlive _ _ _ Hr1 Hst). lia. }
  destruct (slot_at st1 i Hst1 Hlt) as [mc Hi]. rewrite Hi. cbn [mbind option_bind]. set (buf := client_event_bytes mc kind).
  eapply yields_seq.
  { apply (each_client_ok (λ k st', ∃ l, does true l st1 st' ∧ keeps st1 st' ∧ background l)).
    - intros k st' (l & Hd & _). by eapply does_wf.
    - done.
    - intros j st' Hj (l & Hd & Hk & Hb). pose proof (does_wf _ _ _ Hd Hst1) as Hst'. destruct (slot_at st' j Hst' Hj) as [mcj Hmcj].
      rewrite Hmcj. cbn [mbind option_bind]. destruct (_ || _); [cbn; split; [by exists l | done] |].
      eapply yields_mono; [apply Hen; [done | done | pose proof (does_need _ _ _ Hd Hst1); lia] |].
      intros st2 (l2 & Hd2 & Hk2 & Ht & _). split.
      + exists (l ++ l2). split_and!; [by eapply does_app | by eapply keeps_then |]. apply background_app; [done |].
        eapply told_background; [| exact Ht]. by right.
      + intros k Hkk. by apply (mrun_dead _ _ _ _ (proj1 Hd2)).
    - exists []. split_and!; [apply does_nil | apply keeps_same | constructor]. }
  intros st2 (l & Hd & Hk & Hb). cbn [yields]. exists ([] ++ l ++ []). split_and!; [split | |].
  - eapply mrun_app; [exact Hr1 |]. eapply mrun_app; [apply Hd |]. apply mrun_one. constructor.
  - cbn. rewrite (proj2 Hd). cbn. lia.
  - exact Hk.
  - by rewrite app_nil_r.
Qed.

Lemma reassign_to_live st i : reassign_to st = Some i → live_at st i.
Proof.
  unfold reassign_to. case_match; [done |]. intros E. pose proof (find_slot_ok (λ mc, live mc && negb (has_bits (flags mc) IPC_ATTACH_F_VIEW)) (clients st)) as H1.
  rewrite E in H1. destruct H1 as (mc & Hi & [Hv _]%andb_true_iff & _). by exists mc.
Qed.

(** The client that was given the keyboard has it. *)
Lemma given_settled st i : live_at st i → keyboard_settled (upd st i (λ mc, {| mc with role := IPC_ROLE_WRITE |})).
Proof.
  intros (mc & Hi & Hv). unfold keyboard_settled, reassign_to.
  set (st1 := upd st i (λ mc, {| mc with role := IPC_ROLE_WRITE |})). set (mc1 := {| mc with role := IPC_ROLE_WRITE |}).
  assert (clients st1 !! i = Some mc1) as Hi1 by (unfold st1; by rewrite (upd_at st i mc)).
  assert (existsb (λ mc, role mc =? IPC_ROLE_WRITE) (live_clients st1) = true) as ->; [| done].
  apply existsb_exists. exists mc1. split; [| done]. apply List.filter_In.
  split; [apply list_elem_of_In; by eapply list_elem_of_lookup_2 | done].
Qed.

Lemma reassign_step fuel : enqueue_ends fuel → event_ends fuel → reassign_ends (S fuel).
Proof.
  intros Hen Hev st Hst Hn. cbn [role_reassign]. destruct (reassign_to st) as [i|] eqn:E.
  2: { cbn. exists []. split_and!; [apply does_nil | apply keeps_same | constructor | done]. }
  pose proof (reassign_to_live _ _ E) as Hl. pose proof (slot_lt st i Hst Hl) as Hlt.
  assert (does false [] st (upd st i (λ mc, {| mc with role := IPC_ROLE_WRITE |}))) as Hd by (apply does_step; [by constructor | done]).
  pose proof (given_settled st i Hl) as Hk0. pose proof (quiet_keeps _ _ _ Hd Hst) as Hk1.
  pose proof (does_wf _ _ _ Hd Hst) as Hst1. pose proof (does_need _ _ _ Hd Hst).
  eapply yields_seq; [apply Hen; [done | done | lia] |]. intros st2 (l2 & Hd2 & Hk2 & Ht & _). pose proof (does_wf _ _ _ Hd2 Hst1) as Hst2.
  pose proof (does_need _ _ _ Hd2 Hst1) as Hn2. eapply yields_mono.
  { apply Hev; [done | done |]. assert (need st2 + 3 <= S fuel)%nat as Hs by lia. unfold need in Hs. destruct (_ =? 0); lia. }
  intros st3 (l3 & Hd3 & Hk3 & Hb3). exists (l2 ++ l3). split_and!.
  - eapply does_then; [by eapply does_drops | by eapply does_app].
  - eapply keeps_then; [exact Hk1 |]. by eapply keeps_then.
  - apply background_app; [| done]. eapply told_background; [| exact Ht]. by left.
  - apply Hk3, Hk2, Hk0.
Qed.

Theorem group_ends fuel : disconnect_ends fuel ∧ flush_ends fuel ∧ enqueue_ends fuel ∧ event_ends fuel ∧ reassign_ends fuel.
Proof.
  induction fuel as [|fuel (Hd & Hf & He & Hv & Hr)].
  - split_and!.
    + intros st i Hst Hi Hn. pose proof (nlive_pos _ _ Hi). unfold need in Hn. lia.
    + intros st i _ _ Hn. lia.
    + intros st i type payload _ _ Hn. lia.
    + intros st i kind _ _ Hn. destruct (_ =? 0); lia.
    + intros st _ Hn. lia.
  - split_and!; [by apply disconnect_step | by apply flush_step | by apply enqueue_step | by apply event_step | by apply reassign_step].
Qed.
End Group.
