(* ===== verification/MserverActs.v ===== *)
(** * What a handler does to the server

    [acts i l st st']: a handler that runs for client [i] led from [st] to [st'],
    having put the messages [l].  The other clients are as they were but for what
    they were sent of the server's own accord; the PTY is read exactly when
    somebody can take its output; the window still fits.  Handlers are sequences
    of such acts. *)

From stdpp Require Import gmap.
From S2P Require Import Prelude Microser LumiMsg IpcMsg AttrStore AttrWire Mserver MserverSteps MserverQueue MserverTotal.

Section Acts.
Context {W : Type} `{HW : !Window W} `{HT : !Tunables} `{HWL : !WindowLaws W} `{HTO : !TunablesOk}.
Implicit Types (st : srv W).

(** ** Invariants that every step keeps *)

(** At most one client has the keyboard. *)
Definition one_writer st : Prop := ∀ i j a b, clients st !! i = Some a → clients st !! j = Some b →
  live a = true → live b = true → role a = IPC_ROLE_WRITE → role b = IPC_ROLE_WRITE → i = j.

(** The PTY is read unless every client is blocked. *)
Definition flow_ok st : Prop := master_watch (update_master_interest st) = master_watch st.

Lemma one_writer_ext st st' :
  Forall2 (λ a b, live b = true → role b = IPC_ROLE_WRITE → live a = true ∧ role a = IPC_ROLE_WRITE) (clients st) (clients st') →
  one_writer st → one_writer st'.
Proof.
  intros H H1 i j b b' Hb Hb' Hv Hv' Hr Hr'.
  destruct (Forall2_lookup_r _ _ _ _ _ H Hb) as (a & Ha & H2). destruct (Forall2_lookup_r _ _ _ _ _ H Hb') as (a' & Ha' & H2').
  destruct (H2 Hv Hr), (H2' Hv' Hr'). by eapply (H1 i j a a').
Qed.

Lemma flow_ext st st' :
  master_watch st' = master_watch st →
  Forall2 (λ a b, live b = live a ∧ blocked b = blocked a) (clients st) (clients st') → flow_ok st → flow_ok st'.
Proof.
  intros Hm H. unfold flow_ok, update_master_interest, live_clients. cbn [master_watch]. rewrite Hm. intros <-.
  assert (zlen (List.filter live (clients st')) = zlen (List.filter live (clients st)) ∧
    zlen (List.filter blocked (List.filter live (clients st'))) = zlen (List.filter blocked (List.filter live (clients st)))) as [-> ->]; [| done].
  induction H as [|a b l l' (Hv & Hb) H [IH1 IH2]]; [done |]. cbn [List.filter]. rewrite Hv. destruct (live a); [| done].
  cbn [List.filter]. rewrite Hb. rewrite !zlen_cons, IH1. destruct (blocked a); [rewrite !zlen_cons, IH2 |]; done.
Qed.

Lemma flow_updated st : flow_ok (update_master_interest st).
Proof. done. Qed.

Lemma mstep_invariants l st st' : mstep true l st st' → wf st → (one_writer st → one_writer st') ∧ (flow_ok st → flow_ok st').
Proof.
  intros Hs Hst. destruct Hs as [st|st|st n|st i mc mc' ms Hi Hv Hp|st i mc b Hi Hv|st i mc Hd Hi Hv|st i mc Hd Hi|st st' Hd E|st i E]; try done.
  - unfold time_null. by destruct (clock st) as [|t [|t' ts]].
  - unfold realloc_next. by destruct (realloc_ok st).
  - pose proof (put_live _ _ _ Hp) as Hl. destruct Hp as [Hid Hr Hh _ _]. split.
    + apply one_writer_ext, Forall2_upd; [done |]. intros mc0 Hi0. rewrite Hi in Hi0. injection Hi0 as <-. rewrite Hr. done.
    + apply flow_ext; [done |]. apply Forall2_upd; [done |]. intros mc0 Hi0. rewrite Hi in Hi0. injection Hi0 as <-.
      split; [done |]. unfold blocked. by rewrite Hh, (f_equal paused Hid : paused mc' = paused mc).
  - split; [| done]. intros H. by apply (one_writer_ext st (upd st i _)); [apply Forall2_upd |].
  - split; [| done]. intros H. apply (one_writer_ext st (upd st i _)); [by apply Forall2_upd | done].
  - split; [| done]. intros H. unfold drop_client, mclient_close. rewrite upd_upd.
    refine (one_writer_ext (set_attrs st _) (upd (set_attrs st _) i _) _ H). by apply Forall2_upd.
  - pose proof (fit_settles st Hst) as H. rewrite E in H. destruct H as [_ Hc]. pose proof (resize_to_fit_ok st Hst) as H. rewrite E in H.
    by destruct H as (_ & w & -> & _).
  - split; [| apply flow_ext; [done | by apply Forall2_upd]]. intros _ j k a b Ha Hb Hva Hvb Hra Hrb.
    unfold reassign_to in E. destruct (existsb _ _) eqn:Ex; [done |].
    assert (∀ m mc, m ≠ i → clients (upd st i (λ mc, {| mc with role := IPC_ROLE_WRITE |})) !! m = Some mc → live mc = true → role mc = IPC_ROLE_WRITE → False) as Hno.
    { intros m mc Hm Hmc Hv Hr. rewrite upd_lookup, decide_False in Hmc by done. enough (existsb (λ mc, role mc =? IPC_ROLE_WRITE) (live_clients st) = true) by congruence.
      apply existsb_exists. exists mc. split; [| by apply Z.eqb_eq]. apply List.filter_In.
      split; [apply list_elem_of_In; by eapply list_elem_of_lookup_2 | done]. }
    destruct (decide (j = i)) as [->|Hj]; [| by destruct (Hno j a)]. destruct (decide (k = i)) as [->|Hk]; [done | by destruct (Hno k b)].
Qed.

Lemma mrun_invariants l st st' : mrun true l st st' → wf st → (one_writer st → one_writer st') ∧ (flow_ok st → flow_ok st').
Proof.
  induction 1 as [|l1 l2 st1 st2 st3 Hs Hr IH]; [done |]. intros Hst.
  destruct (mstep_invariants _ _ _ Hs Hst). destruct IH; [by eapply mstep_wf |]. by split; eauto.
Qed.

(** ** Acts *)

(** What client [i] is sent is its own business; the others hear only who has the
    keyboard and who comes and goes. *)
Definition background_but (i : nat) (l : list put_) : Prop :=
  Forall (λ x, x.1 = i ∨ x.2.1 = IPC_MSG_ROLE_CHANGE ∨ x.2.1 = IPC_MSG_CLIENT_EVENT) l.

Definition carries (i j : nat) (ms : list (Z * list Z)) (mc mc' : mclient) : Prop :=
  live mc' = true → live mc = true ∧ fd mc' = fd mc ∧ outbound mc' = outbound mc ++ frames ms ∧
    (j ≠ i → mc_id mc' = mc_id mc).

Record acts (i : nat) (l : list put_) st st' : Prop := {
  ac_wf : wf st';
  ac_depth : client_event_depth st' = client_event_depth st;
  ac_clients j mc : clients st !! j = Some mc → ∃ mc', clients st' !! j = Some mc' ∧ carries i j (to_client j l) mc mc';
  ac_flow : flow_ok st → flow_ok st';
  ac_fitted : fitted st → fitted st';
  ac_but : background_but i l;
  ac_answers : win_answers (win st') = win_answers (win st);
}.

(** Nobody's role changed but by the server's own rule. *)
Definition roles_kept st st' : Prop := (keyboard_settled st → keyboard_settled st') ∧ (one_writer st → one_writer st').

Lemma roles_refl st : roles_kept st st.
Proof. done. Qed.

Lemma roles_trans st1 st2 st3 : roles_kept st1 st2 → roles_kept st2 st3 → roles_kept st1 st3.
Proof. unfold roles_kept. tauto. Qed.

Lemma acts_trans i l1 l2 st1 st2 st3 : acts i l1 st1 st2 → acts i l2 st2 st3 → acts i (l1 ++ l2) st1 st3.
Proof.
  intros [H1 H2 H3 H4 H5 H6 H7] [K1 K2 K3 K4 K5 K6 K7]. constructor; [done | congruence | | by auto | by auto | by apply Forall_app_2 | congruence].
  intros j mc Hj. destruct (H3 j mc Hj) as (mc1 & Hj1 & Hc1). destruct (K3 j mc1 Hj1) as (mc2 & Hj2 & Hc2).
  exists mc2. split; [done |]. intros Hv. destruct (Hc2 Hv) as (Hv1 & Ef2 & Eo2 & Ei2). destruct (Hc1 Hv1) as (Hv0 & Ef1 & Eo1 & Ei1).
  split_and!; [done | congruence | |].
  - by rewrite Eo2, Eo1, to_client_app, frames_app, <- app_assoc.
  - intros Hne. rewrite Ei2, Ei1; done.
Qed.

Lemma carries_refl i j mc : carries i j [] mc mc.
Proof. intros Hv. split_and!; try done. by rewrite app_nil_r. Qed.

Lemma acts_refl i st : wf st → acts i [] st st.
Proof. intros Hst. constructor; try done; [| constructor]. intros j mc Hj. exists mc. split; [done | apply carries_refl]. Qed.

Lemma does_acts i l st st' : does true l st st' → keeps st st' → background_but i l → wf st → acts i l st st' ∧ roles_kept st st' ∧ rest st' = rest st.
Proof.
  intros Hd Hk Hb Hst. destruct (mrun_invariants _ _ _ (proj1 Hd) Hst) as [Ho Hf]. split_and!.
  - constructor; [by eapply does_wf | apply Hd | | done | apply Hk | done | by apply (mrun_answers _ _ _ (proj1 Hd))].
    intros j mc Hj. destruct (mrun_client _ _ _ _ _ (proj1 Hd) Hst Hj) as (mc' & Hj' & Hg). exists mc'. split; [done |].
    intros Hv. destruct (Hg Hv) as (Hv0 & Hid & Ho'). split_and!; [done | by apply (f_equal fd Hid) | done | done].
  - split; [apply Hk | done].
  - eapply mrun_rest; [apply Hd | done].
Qed.

(** A change of client [i] alone. *)
Lemma upd_acts i f st : wf st →
  (∀ mc, clients st !! i = Some mc → wf_slot (f mc) ∧ fd (f mc) = fd mc ∧ outbound (f mc) = outbound mc ∧
    (∀ v, fit_one v (f mc) = fit_one v mc) ∧ blocked (f mc) = blocked mc) → acts i [] st (upd st i f).
Proof.
  intros Hst Hf. constructor; [| done | | | | constructor | done].
  - apply wf_upd; [done |]. intros mc Hi _. by apply Hf.
  - intros j mc Hj. rewrite upd_lookup. case_decide as E; subst.
    + rewrite Hj. eexists. split; [reflexivity |]. destruct (Hf mc Hj) as (_ & E1 & E2 & _). intros Hv.
      split_and!; [unfold live in *; by rewrite <- E1 | done | by rewrite app_nil_r | done].
    + exists mc. split; [done | apply carries_refl].
  - apply flow_ext; [done |]. apply Forall2_upd; [done |]. intros mc Hi. destruct (Hf mc Hi) as (_ & E1 & _ & _ & E5).
    split; [unfold live; by rewrite E1 | done].
  - unfold fitted. rewrite (fit_ext st (upd st i f)); [done |]. apply Forall2_upd; [done |]. intros mc Hi.
    destruct (Hf mc Hi) as (_ & E1 & _ & E4 & _). split; [unfold live; by rewrite E1 | done].
Qed.

Lemma upd_roles i f st :
  (∀ mc, clients st !! i = Some mc → live (f mc) = live mc ∧ role (f mc) = role mc ∧ flags (f mc) = flags mc) → roles_kept st (upd st i f).
Proof.
  intros Hf. split.
  - unfold keyboard_settled. rewrite (reassign_ext st (upd st i f)); [done |]. by apply Forall2_upd.
  - apply one_writer_ext. apply Forall2_upd; [done |]. intros mc Hi. destruct (Hf mc Hi) as (-> & -> & _). done.
Qed.

(** A change of nothing that concerns the clients. *)
Lemma same_facts st st' : wf st →
  clients st' = clients st → master_watch st' = master_watch st → client_event_depth st' = client_event_depth st →
  attrs_ok (attrs st') → win_ok (win st') → window_rows (win st') = window_rows (win st) → window_cols (win st') = window_cols (win st) →
  wf st' ∧ (flow_ok st → flow_ok st') ∧ (fitted st → fitted st') ∧ roles_kept st st'.
Proof.
  intros Hst Hc Hm Hd Ha Hw Hr Hcl. split_and!.
  - destruct Hst. constructor; by rewrite ?Hc.
  - apply flow_ext; [done |]. rewrite Hc. apply Forall_Forall2_diag. by apply Forall_forall.
  - unfold fitted, fit_of, live_clients. by rewrite Hc, Hr, Hcl.
  - unfold roles_kept, keyboard_settled, reassign_to, live_clients, one_writer. by rewrite Hc.
Qed.

Lemma same_acts i st st' : wf st →
  clients st' = clients st → master_watch st' = master_watch st → client_event_depth st' = client_event_depth st →
  attrs_ok (attrs st') → win_ok (win st') → window_rows (win st') = window_rows (win st) → window_cols (win st') = window_cols (win st) →
  win_answers (win st') = win_answers (win st) →
  acts i [] st st' ∧ roles_kept st st'.
Proof.
  intros Hst Hc Hm Hd Ha Hw Hr Hcl Han. destruct (same_facts st st') as (H1 & H2 & H3 & H4); try done. split; [| done].
  constructor; try done; [| constructor]. intros j mc Hj. exists mc. rewrite Hc. split; [done | apply carries_refl].
Qed.
End Acts.
