(* ===== verification/MserverHandlers.v ===== *)
(** * The handlers of the session server

    Every handler returns, leaves the server sound, and is an act of the client
    it runs for; what it may change beyond the clients' queues is said of each. *)

From stdpp Require Import gmap.
From S2P Require Import Prelude Microser LumiMsg IpcMsg AttrStore AttrWire Mserver MserverSteps MserverQueue MserverTotal MserverActs.

Section Handlers.
Context {W : Type} `{HW : !Window W} `{HT : !Tunables} `{HWL : !WindowLaws W} `{HTO : !TunablesOk}.
Implicit Types (st : srv W).

(** ** The five functions, deep enough *)

Lemma deep st : wf st → (need st + 4 <= DEPTH)%nat.
Proof.
  intros Hst. unfold need, nlive, live_clients, DEPTH. pose proof (filter_length_le live (clients st)) as H. rewrite (wf_len _ Hst) in H.
  unfold MCLIENT_MAX in H. destruct (_ =? 0); lia.
Qed.

Definition served (i : nat) st st' : Prop := (∃ l, acts i l st st') ∧ roles_kept st st'.

Lemma served_refl i st : wf st → served i st st.
Proof. intros. split; [exists []; by apply acts_refl | apply roles_refl]. Qed.

Lemma served_trans i st1 st2 st3 : served i st1 st2 → served i st2 st3 → served i st1 st3.
Proof. intros [[l1 H1] R1] [[l2 H2] R2]. split; [exists (l1 ++ l2); by eapply acts_trans | by eapply roles_trans]. Qed.

Lemma served_wf i st st' : served i st st' → wf st'.
Proof. intros [[l H] _]. apply H. Qed.

Lemma background_but_all i l : background l → background_but i l.
Proof. intros H. eapply Forall_impl; [exact H |]. intros x Hx. by right. Qed.

Lemma told_but i j type payload l st' :
  (j = i ∨ type = IPC_MSG_ROLE_CHANGE ∨ type = IPC_MSG_CLIENT_EVENT) → told j (type, payload) l st' → background_but i l.
Proof.
  intros Hj [[_ ->]|(_ & l1 & Hb & [-> | ->])]; [| by apply background_but_all |].
  - by apply Forall_cons_2; [| constructor].
  - apply Forall_cons_2; [done | by apply background_but_all].
Qed.

Lemma enqueue_served i j st type payload : wf st → (j < MCLIENT_MAX)%nat →
  (j = i ∨ type = IPC_MSG_ROLE_CHANGE ∨ type = IPC_MSG_CLIENT_EVENT) →
  yields (enqueue st j type payload) (λ st', ∃ l, acts i l st st' ∧ roles_kept st st' ∧ rest st' = rest st ∧ told j (type, payload) l st').
Proof.
  intros Hst Hj Ht. destruct (group_ends DEPTH) as (_ & _ & He & _). pose proof (deep st Hst).
  eapply yields_mono; [apply He; [done | done | lia] |]. intros st' (l & Hd & Hk & Htold & _). exists l.
  destruct (does_acts i l st st' Hd Hk) as (? & ? & ?); [by eapply told_but | done |]. by split_and!.
Qed.

Lemma announce_served i j st kind : wf st → (j < MCLIENT_MAX)%nat →
  yields (announce st j kind) (λ st', ∃ l, acts i l st st' ∧ roles_kept st st' ∧ rest st' = rest st ∧ background l).
Proof.
  intros Hst Hj. destruct (group_ends DEPTH) as (_ & _ & _ & He & _). pose proof (deep st Hst) as Hn.
  eapply yields_mono; [apply He; [done | done | unfold need in Hn; destruct (_ =? 0); lia] |]. intros st' (l & Hd & Hk & Hb). exists l.
  destruct (does_acts i l st st' Hd Hk) as (? & ? & ?); [by apply background_but_all | done |]. by split_and!.
Qed.

Lemma disconnect_served i j st : wf st → live_at st j →
  yields (disconnect st j) (λ st', ∃ l, acts i l st st' ∧ roles_kept st st' ∧ rest st' = rest st ∧ dead_at st' j ∧ settled st' ∧ background l).
Proof.
  intros Hst Hj. destruct (group_ends DEPTH) as (He & _). pose proof (deep st Hst) as Hn.
  eapply yields_mono; [apply He; [done | done | lia] |]. intros st' (l & Hd & Hb & Hdead & Hset). exists l.
  destruct (does_acts i l st st' Hd (settled_keeps _ _ Hset)) as (? & ? & ?); [by apply background_but_all | done |]. by split_and!.
Qed.

Lemma flush_served i st : wf st → (i < MCLIENT_MAX)%nat →
  yields (mclient_flush DEPTH st i) (λ st', ∃ l, acts i l st st' ∧ roles_kept st st' ∧ rest st' = rest st ∧ background l ∧ (stays st st' i ∨ dead_at st' i)).
Proof.
  intros Hst Hj. destruct (group_ends DEPTH) as (_ & He & _). pose proof (deep st Hst) as Hn.
  eapply yields_mono; [apply He; [done | done | lia] |]. intros st' (l & Hd & Hk & Hl). exists l.
  assert (background l) as Hb by (destruct Hl as [(_ & -> & _)|[_ Hb]]; [constructor | done]).
  destruct (does_acts i l st st' Hd Hk) as (? & ? & ?); [by apply background_but_all | done |]. split_and!; try done. tauto.
Qed.

(** The steps of a handler, one after the other; [rest] is followed along. *)
Definition calm i st st' : Prop := served i st st' ∧ rest st' = rest st.

Lemma calm_refl i st : wf st → calm i st st.
Proof. intros. split; [by apply served_refl | done]. Qed.

Lemma calm_trans i st1 st2 st3 : calm i st1 st2 → calm i st2 st3 → calm i st1 st3.
Proof. intros [H1 E1] [H2 E2]. split; [by eapply served_trans | congruence]. Qed.

Lemma calm_wf i st st' : calm i st st' → wf st'.
Proof. intros [H _]. by eapply served_wf. Qed.

Lemma enqueue_calm i st type payload : wf st → (i < MCLIENT_MAX)%nat → yields (enqueue st i type payload) (calm i st).
Proof.
  intros. eapply yields_mono; [apply (enqueue_served i i); auto |]. intros st' (l & Ha & Hr & He & _). split; [split; [by exists l | done] | done].
Qed.

Lemma announce_calm i j st kind : wf st → (j < MCLIENT_MAX)%nat → yields (announce st j kind) (calm i st).
Proof. intros. eapply yields_mono; [by apply announce_served |]. intros st' (l & Ha & Hr & He & _). split; [split; [by exists l | done] | done]. Qed.

Lemma disconnect_calm i j st : wf st → live_at st j → yields (disconnect st j) (λ st', calm i st st' ∧ dead_at st' j).
Proof.
  intros. eapply yields_mono; [by apply disconnect_served |]. intros st' (l & Ha & Hr & He & Hd & _).
  split; [split; [split; [by exists l | done] | done] | done].
Qed.

Lemma does_calm i st st' : does false [] st st' → wf st → calm i st st'.
Proof.
  intros Hd Hst. destruct (does_acts i [] st st') as (Ha & Hr & He); [by eapply does_drops | by eapply quiet_keeps | constructor | done |].
  split; [split; [by exists [] | done] | done].
Qed.

(** A change of the client's own that concerns nobody else. *)
Lemma upd_calm i f st : wf st →
  (∀ mc, clients st !! i = Some mc → wf_slot (f mc) ∧ fd (f mc) = fd mc ∧ outbound (f mc) = outbound mc ∧
    (∀ v, fit_one v (f mc) = fit_one v mc) ∧ blocked (f mc) = blocked mc ∧ role (f mc) = role mc ∧ flags (f mc) = flags mc) →
  calm i st (upd st i f).
Proof.
  intros Hst Hf. split; [split; [exists []; apply upd_acts | apply upd_roles] | done]; [done | |]; intros mc Hi;
    destruct (Hf mc Hi) as (? & E & ? & ? & ? & ? & ?); [by split_and! |]. split_and!; try done. unfold live. by rewrite E.
Qed.

Lemma time_calm i st : wf st → calm i st (time_null st).2 ∧ clients (time_null st).2 = clients st.
Proof. intros Hst. destruct (time_null_does (d:=false) st). split; [by apply does_calm | done]. Qed.

Lemma realloc_calm i st : wf st → calm i st (realloc_next st).2 ∧ clients (realloc_next st).2 = clients st.
Proof. intros Hst. destruct (realloc_does (d:=false) st). split; [by apply does_calm | done]. Qed.

(** ** Refusing *)

Lemma deny_calm i st why : wf st → (i < MCLIENT_MAX)%nat → yields (mclient_deny st i why) (calm i st).
Proof.
  intros Hst Hi. unfold mclient_deny. destruct (time_calm i st Hst) as [H1 E1]. destruct (time_null st) as [now st1]. cbn [snd] in *.
  pose proof (calm_wf _ _ _ H1) as Hst1. destruct (slot_at st1 i Hst1 Hi) as [mc Hmc]. rewrite Hmc. cbn [mbind option_bind].
  case_match; [done |].
  assert (calm i st1 (upd st1 i (λ mc, {| mc with last_deny := now |}))) as H2.
  { apply upd_calm; [done |]. intros mc' Hmc'. split_and!; try done. destruct (wf_slot_at _ _ _ Hst1 Hmc') as [[] Hc]. by split. }
  eapply yields_mono; [apply enqueue_calm; [by eapply calm_wf | done] |]. intros st' H3. eapply calm_trans; [exact H1 |]. by eapply calm_trans.
Qed.

(** ** Input *)

(** Only the PTY's input changed. *)
Lemma pty_served i st data : wf st →
  served i st (write_to_pty st data) ∧ others (write_to_pty st data) = others st ∧ clients (write_to_pty st data) = clients st ∧
  pty_out (write_to_pty st data) = pty_out st ++ (write_loop (pty_wr st) data).1.
Proof.
  intros Hst. unfold write_to_pty. destruct (write_loop (pty_wr st) data) as [w evs]. split_and!; try done.
  destruct (same_acts i st (set_pty st evs (pty_out st ++ w))) as [Ha Hr]; try done; [apply Hst | apply Hst |].
  split; [by exists [] | done].
Qed.

Lemma inq_append_calm i st data mc : wf st → clients st !! i = Some mc → live mc = true →
  yields (mclient_inq_append st i data) (λ x, calm i st x.2 ∧ 
    ((x.1 = -1 ∧ dead_at x.2 i) ∨ (x.1 = 0 ∧ ∃ mc', clients x.2 !! i = Some mc' ∧ inq mc' = inq mc ++ data ∧ inrun mc' = inrun mc ∧ live mc' = true))).
Proof.
  intros Hst Hi Hv. unfold mclient_inq_append. rewrite Hi. cbn [mbind option_bind].
  pose proof (wf_at _ _ _ Hst Hi) as Hw. pose proof (zlen_nonneg (inq mc)). pose proof (zlen_nonneg data). pose proof (wc_inq_cap _ Hw) as Hcap.
  assert (∀ st1, calm i st st1 → live_at st1 i → yields (st2 ← disconnect st1 i; Some (-1, st2)) (λ x, calm i st x.2 ∧
    ((x.1 = -1 ∧ dead_at x.2 i) ∨ (x.1 = 0 ∧ ∃ mc', clients x.2 !! i = Some mc' ∧ inq mc' = inq mc ++ data ∧ inrun mc' = inrun mc ∧ live mc' = true)))) as Hdrop.
  { intros st1 H1 Hl. eapply yields_seq; [apply (disconnect_calm i i); [by eapply calm_wf | done] |]. intros st2 [H2 Hd].
    cbn. split; [by eapply calm_trans |]. by left. }
  destruct (Z.ltb_spec INRUN_HARD_LIMIT (zlen (inq mc) + zlen data)) as [|Hfit]; [apply Hdrop; [by apply calm_refl | by eexists] |].
  (* room for the data *)
  eapply (yields_seq _ _ (λ x, calm i st x.2 ∧ ∃ mc1, clients x.2 !! i = Some mc1 ∧ inq mc1 = inq mc ∧ inrun mc1 = inrun mc ∧ live mc1 = true ∧
    (x.1 = true → zlen (inq mc) + zlen data <= inq_cap mc1))).
  { destruct (Z.leb_spec (zlen (inq mc) + zlen data) (inq_cap mc)) as [|Hmore].
    { cbn. split; [by apply calm_refl |]. exists mc. by split_and!. }
    set (cap0 := if inq_cap mc =? 0 then 4096 else inq_cap mc).
    assert (0 < cap0 ∧ inq_cap mc <= cap0 ∧ cap0 <= 2 * INRUN_HARD_LIMIT) as (Hc0 & Hc1 & Hc2).
    { unfold cap0. change INRUN_HARD_LIMIT with 4194304 in *. destruct (Z.eqb_spec (inq_cap mc) 0); lia. }
    eapply yields_seq; [apply grow_cap_ok; [done |] |].
    { change (2 ^ Z.of_nat 64) with 18446744073709551616. change INRUN_HARD_LIMIT with 4194304 in *. nia. }
    intros cap Hcap'. cbn beta in Hcap'. destruct (realloc_calm i st Hst) as [Hr E1]. destruct (realloc_next st) as [ok st1]. cbn [fst snd] in *.
    rewrite <- E1 in Hi. pose proof (calm_wf _ _ _ Hr) as Hst1. destruct ok; cbn [yields fst snd].
    - assert (calm i st1 (upd st1 i (λ mc, {| mc with inq_cap := cap |}))) as Hu.
      { apply upd_calm; [done |]. intros mc' Hmc'. rewrite Hi in Hmc'. injection Hmc' as <-. split_and!; try done.
        split; [| by unfold live in *; cbn; rewrite Hv]. destruct Hw. constructor; try done. cbn. lia. }
      split; [by eapply calm_trans |]. eexists. split; [by apply (upd_at st1 i mc) |]. split_and!; try done. cbn. lia.
    - split; [done |]. exists mc. by split_and!. }
  intros [ok st1] (H1 & mc1 & Hi1 & Eq & Er & Hv1 & Hroom). cbn [fst snd] in *.
  destruct ok; cbn [negb]; [| by apply Hdrop; [| eexists]]. specialize (Hroom eq_refl). pose proof (calm_wf _ _ _ H1) as Hst1.
  cbn [yields fst snd]. split.
  - eapply calm_trans; [exact H1 |]. apply upd_calm; [done |]. intros mc' Hmc'. rewrite Hi1 in Hmc'. injection Hmc' as <-. split_and!; try done.
    split; [| by unfold live in *; cbn; rewrite Hv1]. destruct (wf_at _ _ _ Hst1 Hi1). constructor; try done; cbn; rewrite zlen_app, Eq; lia.
  - right. split; [done |]. eexists. split; [by apply (upd_at st1 i mc1) |]. cbn. by rewrite Eq.
Qed.

(** ** Replies and the screen *)

Lemma encode_total {A} `{MessageLaws A} (m : A) buf len : msg_ok m → len <= zlen buf → is_Some (encode m buf len).
Proof.
  intros Hm Hlen. pose proof (ms_encode_ok (fields_of m) buf len (fields_some m) Hm Hlen) as H1.
  unfold encode. by destruct (ms_encode _ _ _).
Qed.

Lemma enc_buf_len : zlen enc_buf = IPC_MAX_PAYLOAD.
Proof. unfold enc_buf. apply zlen_replicate. done. Qed.

Lemma reply_calm i st type r : wf st → (i < MCLIENT_MAX)%nat → is_Some r → yields (reply st i type r) (calm i st).
Proof.
  intros Hst Hi [[n enc] ->]. unfold reply. cbn [mbind option_bind]. case_match; [by apply enqueue_calm | by apply calm_refl].
Qed.

Lemma replay_flush_calm i st buf : wf st → (i < MCLIENT_MAX)%nat →
  yields (replay_flush (mk_replay i buf) st) (λ x, x.1 = mk_replay i [] ∧ calm i st x.2).
Proof.
  intros Hst Hi. unfold replay_flush. cbn [rb_buf rb_mc]. destruct (Z.ltb_spec 0 (zlen buf)).
  - eapply yields_seq; [by apply enqueue_calm |]. intros st' H'. by cbn.
  - cbn. split; [| by apply calm_refl]. destruct buf; [done | rewrite zlen_cons in *; pose proof (zlen_nonneg buf); lia].
Qed.

Lemma dump_to_client_calm fuel : ∀ i st buf data, wf st → (i < MCLIENT_MAX)%nat → zlen buf < REPLAY_BUFSZ → (length data <= fuel)%nat →
  yields (dump_to_client fuel (mk_replay i buf) st data) (λ x, ∃ buf', x.1 = mk_replay i buf' ∧ calm i st x.2).
Proof.
  induction fuel as [|fuel IH]; intros i st buf data Hst Hi Hb Hf; cbn [dump_to_client];
    (destruct (Z.leb_spec (zlen data) 0); [cbn; exists buf; split; [done | by apply calm_refl] |]).
  { unfold zlen in *. lia. }
  cbn [rb_buf rb_mc]. set (chunk := Z.to_nat _). pose proof (zlen_nonneg buf).
  assert (0 < chunk <= length data)%nat as Hch.
  { unfold chunk, zlen, REPLAY_BUFSZ in *. destruct (Z.ltb_spec (32768 - Z.of_nat (length buf)) (Z.of_nat (length data))); lia. }
  assert (zlen (buf ++ take chunk data) <= REPLAY_BUFSZ) as Hb1.
  { rewrite zlen_app. unfold zlen at 2. rewrite length_take_le by lia. unfold chunk, zlen, REPLAY_BUFSZ in *.
    destruct (Z.ltb_spec (32768 - Z.of_nat (length buf)) (Z.of_nat (length data))); lia. }
  eapply (yields_seq _ _ (λ x, ∃ buf1, x.1 = mk_replay i buf1 ∧ zlen buf1 < REPLAY_BUFSZ ∧ calm i st x.2)).
  { destruct (Z.eqb_spec (zlen (buf ++ take chunk data)) REPLAY_BUFSZ).
    - eapply yields_mono; [by apply replay_flush_calm |]. intros [rb st1] [E1 H1]. by exists [].
    - cbn. eexists. split_and!; [done | lia | by apply calm_refl]. }
  intros [rb st1] (buf1 & E1 & Hb2 & H1). cbn [fst snd] in *. subst rb.
  eapply yields_mono; [apply IH; [by eapply calm_wf | done | done | rewrite length_drop; lia] |].
  intros [rb2 st2] (buf2 & E2 & H2). exists buf2. split; [done | by eapply calm_trans].
Qed.

Lemma send_replay_calm i st : wf st → (i < MCLIENT_MAX)%nat → yields (send_replay st i) (calm i st).
Proof.
  intros Hst Hi. unfold send_replay. destruct (win_dump_ok (win st)) as [data ->]; [apply Hst |]. cbn [mbind option_bind].
  eapply yields_seq; [by apply dump_to_client_calm |]. intros [rb st1] (buf & E1 & H1). cbn [fst snd] in *. subst rb.
  eapply yields_seq; [apply replay_flush_calm; [by eapply calm_wf | done] |]. intros [rb2 st2] [_ H2]. cbn. by eapply calm_trans.
Qed.

(** ** Attributes *)

Lemma attrs_served i st a : wf st → attrs_ok a → served i st (set_attrs st a).
Proof.
  intros Hst Ha. destruct (same_acts i st (set_attrs st a)) as [H1 H2]; try done; [apply Hst |]. split; [by exists [] | done].
Qed.

Lemma attrs_calm i st a : wf st → attrs_ok a → entries a = entries (attrs st) → next_gen a = next_gen (attrs st) → calm i st (set_attrs st a).
Proof. intros Hst Ha He Hg. split; [by apply attrs_served |]. unfold rest, others, set_attrs. cbn. by rewrite He, Hg. Qed.

Lemma snprintf_len_bytes size p len : Forall is_byte (deref p) → bytes (snprintf_len size p len).
Proof. intros. by apply bytes_snprintf, bytes_c_string, Forall_take. Qed.

Lemma with_key_ok (Q : srv W → Prop) i st buf len k : wf st → (i < MCLIENT_MAX)%nat → Forall is_byte buf → len <= zlen buf →
  (∀ st', calm i st st' → Q st') → (∀ ak, msg_ok ak → yields (k ak) Q) → yields (with_key st i buf len k) Q.
Proof.
  intros Hst Hi Hbuf Hlen Hcalm Hk. unfold with_key. eapply yields_seq; [by apply decode_any |].
  intros [[p ak]|] Hd; [by apply Hk, Hd |]. eapply yields_mono; [by apply enqueue_calm | done].
Qed.

Lemma key_ok ak : msg_ok ak → 0 <= ak_txn_id ak < 2 ^ 32 ∧ Forall is_byte (deref (ak_key ak)).
Proof. intros [[_ H1] [[_ H2] _]%Forall_cons]%Forall_cons. split; [done | apply H2]. Qed.

Lemma txn_ok_msg id : 0 <= id < 2 ^ 32 → msg_ok (mk_ipc_attr_txn_ok id).
Proof. intros Hid. apply Forall_cons_2; [by split | constructor]. Qed.

Lemma reply_txn_ok_calm i st id : wf st → (i < MCLIENT_MAX)%nat → 0 <= id < 2 ^ 32 → yields (reply_txn_ok st i id) (calm i st).
Proof.
  intros Hst Hi Hid. apply reply_calm; [done | done |]. apply encode_total; [by apply txn_ok_msg |]. by rewrite enc_buf_len.
Qed.

(** Only what an attribute message changes when it commits. *)
Definition pty_kept st st' : Prop := pty_wr st' = pty_wr st ∧ pty_out st' = pty_out st ∧ stopped st' = stopped st.

Lemma calm_pty i st st' : calm i st st' → pty_kept st st'.
Proof. intros [_ E]. unfold rest, others in E. by injection E. Qed.

Definition attr_post i type st st' : Prop :=
  served i st st' ∧ pty_kept st st' ∧ (msg_mutates type = false → rest st' = rest st).

Lemma calm_attr i type st st' : calm i st st' → attr_post i type st st'.
Proof. intros H. split_and!; [apply H | by eapply calm_pty | intros _; apply H]. Qed.

(** An operation on the store, then a reply. *)
Lemma attr_then i type st a st' : wf st → attrs_ok a →
  (msg_mutates type = false → entries a = entries (attrs st) ∧ next_gen a = next_gen (attrs st)) →
  calm i (set_attrs st a) st' → attr_post i type st st'.
Proof.
  intros Hst Ha Hm H. split_and!.
  - eapply served_trans; [by apply attrs_served | apply H].
  - apply (calm_pty i _ _ H).
  - intros Ht. destruct (Hm Ht) as [He Hg]. destruct H as [_ E]. rewrite E. unfold rest, others, set_attrs. cbn. by rewrite He, Hg.
Qed.

Lemma set_attrs_wf st a : wf st → attrs_ok a → wf (set_attrs st a).
Proof. intros []. by constructor. Qed.

(** A C string as a member of a message. *)
Lemma string_field n s : 0 < n < 32 → bytes s → field_ok (FBytes n (Some (s ++ [0])) (u16 (zlen s))).
Proof.
  intros Hn Hs. split; [done |]. pose proof (u16_range (zlen s)). pose proof (zlen_nonneg s). split; [lia |]. cbn [deref]. split.
  - rewrite zlen_app. change (zlen [0]) with 1. unfold u16. pose proof (Z.mod_le (zlen s) (2 ^ 16)). lia.
  - apply Forall_app_2; [done |]. by apply bytes_ok.
Qed.

Lemma value_msg id k v : 0 <= id < 2 ^ 32 → bytes k → bytes v →
  msg_ok (mk_ipc_attr_kv id (Some (k ++ [0])) (u16 (zlen k)) (Some (v ++ [0])) (u16 (zlen v))).
Proof. intros Hid Hk Hv. repeat apply Forall_cons_2; [by split | by apply string_field | by apply string_field | constructor]. Qed.

Lemma entries_msg s : bytes s → msg_ok (mk_ipc_attr_entries (Some (s ++ [0])) (u16 (zlen s))).
Proof. intros Hs. apply Forall_cons_2; [by apply string_field | constructor]. Qed.

Lemma attr_msg_ok i st type buf len : wf st → (i < MCLIENT_MAX)%nat → Forall is_byte buf → len <= zlen buf →
  yields (handle_attr_msg st i type buf len) (attr_post i type st).
Proof.
  intros Hst Hi Hbuf Hlen. unfold handle_attr_msg. destruct (slot_at st i Hst Hi) as [mc Hmc]. rewrite Hmc. cbn [mbind option_bind].
  pose proof (wf_attrs _ Hst) as Ha.
  assert (∀ k, (∀ ak, msg_ok ak → yields (k ak) (attr_post i type st)) → yields (with_key st i buf len k) (attr_post i type st)) as Hkey.
  { intros k Hk. apply with_key_ok; try done. intros st'. apply calm_attr. }
  assert (∀ st1 why, wf st1 → yields (reply_error st1 i why) (calm i st1)) as Herr by (intros; by apply enqueue_calm).
  destruct (Z.eqb_spec type IPC_MSG_ATTR_TXN_BEGIN) as [->|_].
  { pose proof (begin_ok (attrs st) (fd mc) Ha) as H1. destruct (attr_store_txn_begin (attrs st) (fd mc)) as [[id|] a];
      destruct H1 as (Ha1 & Hid & He & Hg); pose proof (set_attrs_wf st a Hst Ha1) as Hst1.
    - eapply yields_mono; [apply reply_txn_ok_calm; [done | done | by apply Hid] |]. intros st'. by apply attr_then.
    - eapply yields_mono; [by apply Herr |]. intros st'. by apply attr_then. }
  destruct (Z.eqb_spec type IPC_MSG_ATTR_TXN_COMMIT) as [->|_].
  { apply Hkey. intros ak [Hid _]%key_ok. pose proof (commit_ok (attrs st) (ak_txn_id ak) Ha) as Ha1.
    destruct (attr_store_txn_commit (attrs st) (ak_txn_id ak)) as [rc a]. cbn [snd] in Ha1. pose proof (set_attrs_wf st a Hst Ha1) as Hst1.
    destruct (rc <? 0); [eapply yields_mono; [by apply Herr |]; intros st'; by apply attr_then |].
    set (st1 := save_attrs (set_attrs st a)). assert (served i st st1) as H1.
    { destruct (same_acts i st st1) as [H1 H2]; try done; [apply Hst |]. split; [by exists [] | done]. }
    eapply yields_mono; [apply reply_txn_ok_calm; [by eapply served_wf | done | done] |]. intros st' H2.
    split_and!; [eapply served_trans; [exact H1 | apply H2] | apply (calm_pty i _ _ H2) | done]. }
  destruct (Z.eqb_spec type IPC_MSG_ATTR_TXN_ROLLBACK) as [->|_].
  { apply Hkey. intros ak [Hid _]%key_ok. pose proof (rollback_ok (attrs st) (ak_txn_id ak) Ha) as Ha1.
    eapply yields_mono; [apply reply_txn_ok_calm; [by apply set_attrs_wf | done | done] |]. intros st'. apply attr_then; [done | done |].
    intros _. unfold attr_store_txn_rollback. by destruct (find_txn _ _). }
  destruct (Z.eqb_spec type IPC_MSG_ATTR_SET) as [->|_].
  { eapply yields_seq; [by apply decode_any |]. intros [[p kv]|] Hd.
    2: { eapply yields_mono; [by apply Herr |]. intros st'. by apply calm_attr. }
    destruct Hd as [_ Hkv]. apply Forall_cons in Hkv as [_ [[_ Hk] [[_ Hvl] _]%Forall_cons]%Forall_cons].
    pose proof (set_ok (attrs st) (kv_txn_id kv) (snprintf_len ATTR_MAX_KEY_LEN (kv_key kv) (kv_key_len kv))
      (snprintf_len ATTR_MAX_VALUE_LEN (kv_value kv) (kv_value_len kv)) Ha) as Ha1.
    destruct (attr_store_set _ _ _ _) as [rc a]. cbn [snd] in Ha1.
    assert (attrs_ok a) as Ha2 by (apply Ha1; apply snprintf_len_bytes; [apply Hk | apply Hvl]).
    pose proof (set_attrs_wf st a Hst Ha2) as Hst1.
    destruct (rc <? 0); (eapply yields_mono; [| intros st'; by apply attr_then]).
    - by apply Herr.
    - by apply enqueue_calm. }
  destruct (Z.eqb_spec type IPC_MSG_ATTR_DELETE) as [->|_].
  { apply Hkey. intros ak [Hid Hk]%key_ok.
    pose proof (delete_ok (attrs st) (ak_txn_id ak) (snprintf_len ATTR_MAX_KEY_LEN (ak_key ak) (ak_key_len ak)) Ha) as Ha1.
    destruct (attr_store_delete _ _ _) as [rc a]. cbn [snd] in Ha1.
    assert (attrs_ok a) as Ha2 by (by apply Ha1, snprintf_len_bytes). pose proof (set_attrs_wf st a Hst Ha2) as Hst1.
    destruct (rc <? 0); (eapply yields_mono; [| intros st'; by apply attr_then]).
    - by apply Herr.
    - by apply enqueue_calm. }
  destruct (Z.eqb_spec type IPC_MSG_ATTR_GET) as [->|_].
  { apply Hkey. intros ak [Hid Hk]%key_ok. set (key := snprintf_len ATTR_MAX_KEY_LEN (ak_key ak) (ak_key_len ak)).
    pose proof (get_ok (attrs st) (ak_txn_id ak) key ATTR_MAX_VALUE_LEN Ha) as H1.
    destruct (attr_store_get _ _ _ _) as [[val|] a]; destruct H1 as (Ha1 & Hval & He & Hg); pose proof (set_attrs_wf st a Hst Ha1) as Hst1.
    - eapply yields_mono; [apply reply_calm; [done | done |] |]; [| intros st'; by apply attr_then].
      apply encode_total; [| by rewrite enc_buf_len]. apply value_msg; [done | by apply snprintf_len_bytes | by apply Hval].
    - eapply yields_mono; [by apply Herr |]. intros st'. by apply attr_then. }
  destruct (Z.eqb_spec type IPC_MSG_ATTR_LIST) as [->|_].
  { apply Hkey. intros ak [Hid Hk]%key_ok. destruct (attr_store_list _ _ _) as [listing|] eqn:El.
    - eapply yields_mono; [apply reply_calm; [done | done |] |]; [| intros st'; by apply calm_attr].
      apply encode_total; [| by rewrite enc_buf_len]. apply entries_msg. by eapply list_ok.
    - eapply yields_mono; [by apply Herr |]. intros st'. by apply calm_attr. }
  apply calm_attr. by apply calm_refl.
Qed.
End Handlers.
