(* ===== verification/MserverClient.v ===== *)
(** * A client's message, a new client, the program's output

    The three handlers of the event loop, from the parts in MserverHandlers.v,
    and sessions of events: they never trap and never hang. *)

From stdpp Require Import gmap.
From S2P Require Import Prelude Microser LumiMsg IpcMsg AttrStore AttrWire Mserver MserverSteps MserverQueue MserverTotal MserverActs MserverHandlers.

Section Client.
Context {W : Type} `{HW : !Window W} `{HT : !Tunables} `{HWL : !WindowLaws W} `{HTO : !TunablesOk}.
Implicit Types (st : srv W).

(** ** Roles *)

(** Only the role of [o] changes: nothing that a client's queue, the size or the
    PTY depends on. *)
Lemma role_acts i o r st : wf st → r = IPC_ROLE_WRITE ∨ r = IPC_ROLE_VIEW → acts i [] st (upd st o (λ mc, {| mc with role := r |})).
Proof.
  intros Hst Hr. constructor; [| done | | | | constructor | done].
  - apply wf_upd; [done |]. intros mc _ [[] Hc]. split; [by constructor | done].
  - intros j mc Hj. rewrite upd_lookup. case_decide as E; subst.
    + rewrite Hj. eexists. split; [reflexivity |]. intros Hv. split_and!; try done. by rewrite app_nil_r.
    + exists mc. split; [done | apply carries_refl].
  - apply flow_ext; [done |]. by apply Forall2_upd.
  - unfold fitted. rewrite (fit_ext st (upd st o _)); [done |]. by apply Forall2_upd.
Qed.

(** Acts that leave [rest] alone, whatever they do to roles. *)
Definition stirs i st st' : Prop := (∃ l, acts i l st st') ∧ rest st' = rest st.

Lemma stirs_refl i st : wf st → stirs i st st.
Proof. intros. split; [exists []; by apply acts_refl | done]. Qed.

Lemma stirs_trans i st1 st2 st3 : stirs i st1 st2 → stirs i st2 st3 → stirs i st1 st3.
Proof. intros [[l1 H1] E1] [[l2 H2] E2]. split; [exists (l1 ++ l2); by eapply acts_trans | congruence]. Qed.

Lemma stirs_wf i st st' : stirs i st st' → wf st'.
Proof. intros [[l H] _]. apply H. Qed.

Lemma calm_stirs i st st' : calm i st st' → stirs i st st'.
Proof. intros [[H _] E]. by split. Qed.

Lemma stirs_dead i st st' j : stirs i st st' → wf st → (j < MCLIENT_MAX)%nat → dead_at st j → dead_at st' j.
Proof.
  intros [[l H] _] Hst Hj Hd mc' Hmc'. destruct (slot_at st j Hst Hj) as [mc Hmc]. destruct (ac_clients _ _ _ _ H j mc Hmc) as (mc2 & Hmc2 & Hc).
  rewrite Hmc' in Hmc2. injection Hmc2 as <-. destruct (live mc') eqn:E; [| done]. destruct (Hc E) as [Hv _]. by rewrite (Hd mc Hmc) in Hv.
Qed.

Lemma demote_stirs i o st : wf st → (o < MCLIENT_MAX)%nat → yields (demote i o st) (stirs i st).
Proof.
  intros Hst Ho. unfold demote. destruct (slot_at st o Hst Ho) as [mc Hmc]. rewrite Hmc. cbn [mbind option_bind].
  case_match; [by apply stirs_refl |]. set (st1 := upd st o _).
  assert (stirs i st st1) as H1 by (split; [exists []; apply role_acts; [done | by right] | done]). pose proof (stirs_wf _ _ _ H1) as Hst1.
  eapply yields_seq; [apply (enqueue_served i o); [done | done | by right; left] |]. intros st2 (l2 & Ha2 & _ & E2 & _).
  assert (stirs i st1 st2) as H2 by (split; [by exists l2 | done]). pose proof (stirs_wf _ _ _ H2) as Hst2.
  eapply yields_mono; [by apply (announce_calm i) |]. intros st3 H3. eapply stirs_trans; [exact H1 |]. eapply stirs_trans; [exact H2 | by apply calm_stirs].
Qed.

Lemma role_for_stirs i st asked : wf st →
  yields (role_for st i asked) (λ x, (x.1 = IPC_ROLE_WRITE ∨ x.1 = IPC_ROLE_VIEW) ∧ stirs i st x.2).
Proof.
  intros Hst. unfold role_for. destruct (has_bits asked IPC_ATTACH_F_VIEW); [cbn; split; [by right | by apply stirs_refl] |].
  destruct (has_bits asked IPC_ATTACH_F_INJECT); [cbn; split; [by right | by apply stirs_refl] |].
  destruct (has_bits asked IPC_ATTACH_F_TOKEN).
  - eapply yields_seq; [apply (walk_clients_ok (λ _ st', stirs i st st')) |].
    + intros k st'. apply stirs_wf.
    + done.
    + intros o st' Ho H'. eapply yields_mono; [apply demote_stirs; [by eapply stirs_wf | done] |]. intros st2 H2.
      split; [by eapply stirs_trans |]. intros j Hj. by apply (stirs_dead i st'); [| by eapply stirs_wf |].
    + by apply stirs_refl.
    + intros st' H'. cbn. split; [by left | done].
  - destruct (share_multi st); [cbn; split; [by left | by apply stirs_refl] |].
    destruct (held_by_other st i); cbn; (split; [auto | by apply stirs_refl]).
Qed.

(** ** The size *)

Lemma upd_fit i f st : wf st →
  (∀ mc, clients st !! i = Some mc → wf_slot (f mc) ∧ fd (f mc) = fd mc ∧ outbound (f mc) = outbound mc ∧ blocked (f mc) = blocked mc) →
  yields (resize_to_fit (upd st i f)) (λ st', stirs i st st' ∧ clients st' = clients (upd st i f) ∧ fitted st').
Proof.
  intros Hst Hf. assert (wf (upd st i f)) as Hst1 by (apply wf_upd; [done | intros mc Hi _; by apply Hf]).
  pose proof (fit_settles _ Hst1) as H1. pose proof (resize_to_fit_ok _ Hst1) as H2. destruct (resize_to_fit (upd st i f)) as [st'|]; [| done].
  destruct H1 as [Hfit Hc]. destruct H2 as (Hst' & w & -> & Han). cbn [yields]. split; [| done]. split; [| done]. exists []. constructor; [done | done | | | done | constructor | done].
  - intros j mc Hj. change (clients (set_win (upd st i f) w)) with (clients (upd st i f)). rewrite upd_lookup. case_decide as E; subst.
    + rewrite Hj. eexists. split; [reflexivity |]. destruct (Hf mc Hj) as (_ & E1 & E2 & _). intros Hv.
      split_and!; [unfold live in *; by rewrite <- E1 | done | by rewrite app_nil_r | done].
    + exists mc. split; [done | apply carries_refl].
  - apply flow_ext; [done |]. apply (Forall2_upd _ st i f); [done |]. intros mc Hi. destruct (Hf mc Hi) as (_ & E1 & _ & E5).
    split; [unfold live; by rewrite E1 | done].
Qed.

Lemma win_resize_calm i st buf len : wf st → (i < MCLIENT_MAX)%nat → Forall is_byte buf → len <= zlen buf → yields (win_resize st i buf len) (calm i st).
Proof.
  intros Hst Hi Hbuf Hlen. unfold win_resize. eapply yields_seq; [by apply decode_any |]. intros [[p sz]|] Hd; [| by apply calm_refl].
  destruct Hd as [_ Hsz]. apply Forall_cons in Hsz as [[_ Hr] [[_ Hc] _]%Forall_cons]. case_match; [| by apply calm_refl].
  eapply yields_mono; [apply upd_fit; [done |] |].
  - intros mc Hmc. destruct (wf_slot_at _ _ _ Hst Hmc) as [[] Hcl]. split_and!; try done; by constructor.
  - intros st' ([H1 E] & Hcl & _). split; [split; [done |] | done].
    assert (roles_kept st (upd st i (λ mc, {| mc with rows := sz_rows sz; cols := sz_cols sz; cell_pw := sz_cell_pw sz; cell_ph := sz_cell_ph sz |}))) as [R1 R2]
      by (by apply upd_roles).
    unfold roles_kept, keyboard_settled, reassign_to, live_clients, one_writer in *. rewrite Hcl. by split.
Qed.

Lemma flow_ctrl_calm i st data : wf st → live_at st i → yields (flow_ctrl st i data) (calm i st).
Proof.
  intros Hst (mc & Hmc & Hv). unfold flow_ctrl. rewrite Hmc. cbn [mbind option_bind]. destruct data as [|b data]; [by apply calm_refl |].
  destruct (eqb _ _); [by apply calm_refl |]. cbn [yields]. set (f := λ mc, {| mc with paused := negb (b =? 0) |}).
  assert (wf (upd st i f)) as [] .
  { apply wf_upd; [done |]. intros mc0 Hi0 [[] Hc]. rewrite Hmc in Hi0. injection Hi0 as <-. split; [by constructor |]. unfold live in *. cbn. by rewrite Hv. }
  split; [split; [| by apply (upd_roles i f)] | done]. exists []. constructor; [done | done | | by intros _; apply flow_updated | | constructor | done].
  - intros j mc0 Hj. change (clients (update_master_interest (upd st i f))) with (clients (upd st i f)). rewrite upd_lookup. case_decide as E; subst.
    + rewrite Hj. eexists. split; [reflexivity |]. intros Hv0. split_and!; try done. by rewrite app_nil_r.
    + exists mc0. split; [done | apply carries_refl].
  - unfold fitted. change (fit_of (update_master_interest (upd st i f))) with (fit_of (upd st i f)). rewrite (fit_ext st (upd st i f)); [done |]. by apply Forall2_upd.
Qed.

Lemma role_request_stirs i st data : wf st → live_at st i → yields (role_request st i data) (stirs i st).
Proof.
  intros Hst Hl. pose proof (slot_lt _ _ Hst Hl) as Hlt. unfold role_request. destruct data as [|asked data]; [by apply stirs_refl |].
  eapply yields_seq; [by apply role_for_stirs |]. intros [want st1] [Hwant H1]. cbn [fst snd] in *. pose proof (stirs_wf _ _ _ H1) as Hst1.
  eapply yields_seq; [apply (upd_fit i (λ mc, {| mc with flags := asked |})); [done |] |].
  { intros mc Hmc. destruct (wf_slot_at _ _ _ Hst1 Hmc) as [[] Hc]. split_and!; try done; by constructor. }
  intros st2 (H2 & _). pose proof (stirs_wf _ _ _ H2) as Hst2. pose proof (stirs_trans _ _ _ _ H1 H2) as H12.
  destruct (slot_at st2 i Hst2 Hlt) as [mc Hmc]. rewrite Hmc. cbn [mbind option_bind]. case_match; [done |].
  assert (stirs i st2 (upd st2 i (λ mc, {| mc with role := want |}))) as H3 by (split; [exists []; by apply role_acts | done]).
  pose proof (stirs_wf _ _ _ H3) as Hst3. pose proof (stirs_trans _ _ _ _ H12 H3) as H13.
  eapply yields_seq; [by apply (enqueue_calm i) |]. intros st4 H4. pose proof (calm_wf _ _ _ H4) as Hst4.
  eapply yields_mono; [by apply (announce_calm i) |]. intros st5 H5.
  eapply stirs_trans; [exact H13 |]. apply calm_stirs. by eapply calm_trans.
Qed.

(** ** A message *)

(** What a client may do with a message of a type. *)
Definition msg_post i type st st' : Prop :=
  (∃ l, acts i l st st') ∧ (type ≠ IPC_MSG_ROLE_REQUEST → roles_kept st st') ∧
  (msg_mutates type = false → rest st' = rest st) ∧ (msg_is_input type = true → others st' = others st).

Lemma calm_msg i type st st' : calm i st st' → msg_post i type st st'.
Proof. intros [[H R] E]. split_and!; try done. intros _. by apply (f_equal snd) in E. Qed.

Lemma stirs_msg i st st' : stirs i st st' → msg_post i IPC_MSG_ROLE_REQUEST st st'.
Proof. intros [H E]. by split_and!. Qed.

(** A client that is gone: what was written to its socket behind its queue's back
    does not matter. *)
Lemma gone_acts i f l st st' : wf st →
  (∀ mc, clients st !! i = Some mc → fd (f mc) = fd mc ∧ (∀ v, fit_one v (f mc) = fit_one v mc) ∧ blocked (f mc) = blocked mc ∧
    role (f mc) = role mc ∧ flags (f mc) = flags mc) →
  acts i l (upd st i f) st' → roles_kept (upd st i f) st' → dead_at st' i → acts i l st st' ∧ roles_kept st st'.
Proof.
  intros Hst Hf [H1 H2 H3 H4 H5 H6 H7] R Hd.
  assert (∀ mc, clients st !! i = Some mc → live (f mc) = live mc) as Hv by (intros mc Hi; destruct (Hf mc Hi) as [E _]; unfold live; by rewrite E).
  split.
  - constructor; [done | done | | | | done | done].
    + intros j mc Hj. destruct (decide (i = j)) as [<-|Hne].
      * destruct (H3 i (f mc)) as (mc' & Hj' & _); [by apply (upd_at st i mc) |]. exists mc'. split; [done |]. intros Hv'. by rewrite (Hd mc' Hj') in Hv'.
      * apply H3. by rewrite upd_lookup, decide_False.
    + intros Hfl. apply H4. revert Hfl. apply flow_ext; [done |]. apply Forall2_upd; [done |]. intros mc Hi. destruct (Hf mc Hi) as (_ & _ & E & _). by rewrite Hv.
    + intros Hfi. apply H5. revert Hfi. unfold fitted. rewrite (fit_ext st (upd st i f)); [done |]. apply Forall2_upd; [done |].
      intros mc Hi. destruct (Hf mc Hi) as (_ & E & _). by rewrite Hv.
  - eapply roles_trans; [| exact R]. apply upd_roles. intros mc Hi. destruct (Hf mc Hi) as (_ & _ & _ & E1 & E2). by rewrite Hv.
Qed.

Lemma stop_served i st : wf st → served i st (stop st).
Proof. intros Hst. destruct (same_acts i st (stop st)) as [H1 H2]; try done; [apply Hst | apply Hst |]. split; [by exists [] | done]. Qed.

Lemma colors_served i st data : wf st →
  served i st (match term_colors data with Some (fg, bg) => set_win st (window_set_term_colors (win st) fg bg) | None => st end).
Proof.
  intros Hst. destruct (term_colors data) as [[fg bg]|]; [| by apply served_refl].
  destruct (win_set_colors_ok (win st) fg bg) as (Hw & Hr & Hc & Han); [apply Hst |].
  destruct (same_acts i st (set_win st (window_set_term_colors (win st) fg bg))) as [H1 H2]; try done; [apply Hst |].
  split; [by exists [] | done].
Qed.

Lemma kill_ok i st mc : wf st → clients st !! i = Some mc → live mc = true →
  yields ('(_, c) ← ipc_msg_send_empty (sk_conn (sk mc)) IPC_MSG_OK;
          st ← disconnect (upd st i (λ mc, {| mc with sk := mk_sock c (sk_send (sk mc)) |})) i;
          Some (stop st)) (λ st', served i st st' ∧ dead_at st' i).
Proof.
  intros Hst Hmc Hv. eapply yields_seq; [apply (ipc_msg_send_ok _ _ None 0); [done | by cbn] |]. intros [rc c] [Hrd _]. cbn [fst snd] in Hrd.
  set (f := λ mc, {| mc with sk := mk_sock c (sk_send (sk mc)) |}).
  assert (wf (upd st i f)) as Hst1.
  { apply wf_upd; [done |]. intros mc0 Hi0 [[] Hc]. rewrite Hmc in Hi0. injection Hi0 as <-. split; [| done].
    constructor; try done. unfold f. cbn [sk sk_conn]. by rewrite Hrd. }
  eapply yields_seq; [apply (disconnect_served i i); [done | exists (f mc); split; [by apply (upd_at st i mc) | done]] |].
  intros st2 (l & Ha & Hr & _ & Hd & _ & _). cbn [yields]. split; [| done].
  destruct (gone_acts i f l st st2) as [Ha2 Hr2]; try done. eapply served_trans; [split; [by exists l | exact Hr2] |]. apply stop_served, Ha2.
Qed.

Lemma wf_empty_inq mc b : wf_client mc → live mc = true → wf_slot {| mc with inq := []; inrun := b |}.
Proof.
  intros [] Hv. split; [| by unfold live in *; cbn; rewrite Hv]. change INRUN_HARD_LIMIT with 4194304 in *. pose proof (zlen_nonneg (inq mc)).
  constructor; try done; cbn; change INRUN_HARD_LIMIT with 4194304; rewrite zlen_nil; lia.
Qed.

Lemma client_msg_ok i st mc type buf len : wf st → clients st !! i = Some mc → live mc = true →
  Forall is_byte buf → 0 <= len <= zlen buf → yields (client_msg st i type buf len) (msg_post i type st).
Proof.
  intros Hst Hmc Hv Hbuf Hlen. unfold client_msg. rewrite Hmc. cbn [mbind option_bind].
  assert (live_at st i) as Hl by (by exists mc). pose proof (slot_lt _ _ Hst Hl) as Hlt. set (data := take (Z.to_nat len) buf).
  assert (∀ ty bs, msg_mutates ty = true → msg_post i ty st (write_to_pty st bs)) as Hpty.
  { intros ty bs Hm. destruct (pty_served i st bs Hst) as ([Hs Hr] & E & _). split_and!; try done. congruence. }
  destruct (Z.eqb_spec type IPC_MSG_INPUT) as [->|N1].
  { destruct (inrun mc); [| by apply Hpty]. pose proof (inq_append_calm i st data mc Hst Hmc Hv) as H1.
    destruct (mclient_inq_append st i data) as [[rc st']|]; [| done]. destruct H1 as [H1 _]. by apply calm_msg. }
  destruct (Z.eqb_spec type IPC_MSG_INPUT_BEGIN) as [->|N2].
  { apply calm_msg, upd_calm; [done |]. intros mc0 Hi0. rewrite Hmc in Hi0. injection Hi0 as <-. split_and!; try done.
      apply wf_empty_inq; [exact (wf_at _ _ _ Hst Hmc) | done]. }
  destruct (Z.eqb_spec type IPC_MSG_INPUT_END) as [->|N3].
  { unfold input_end. rewrite Hmc. cbn [mbind option_bind yields]. destruct (inrun mc); [| by apply calm_msg, calm_refl].
    destruct (pty_served i st (inq mc) Hst) as (Hs & E & Hc & _). set (st1 := write_to_pty st (inq mc)) in *. pose proof (served_wf _ _ _ Hs) as Hst1.
    assert (calm i st1 (upd st1 i (λ mc, {| mc with inrun := false; inq := [] |}))) as [H2 E2].
    { apply upd_calm; [done |]. intros mc0 Hi0. rewrite Hc, Hmc in Hi0. injection Hi0 as <-. split_and!; try done.
      apply wf_empty_inq; [exact (wf_at _ _ _ Hst Hmc) | done]. }
    destruct (served_trans _ _ _ _ Hs H2) as [H3 R3]. split_and!; try done. }
  destruct (Z.eqb_spec type IPC_MSG_FLOW_CTRL) as [->|_]; [eapply yields_mono; [by apply flow_ctrl_calm |]; intros st'; apply calm_msg |].
  destruct (Z.eqb_spec type IPC_MSG_WIN_RESIZE) as [->|_]; [eapply yields_mono; [apply win_resize_calm; (done || lia) |]; intros st'; apply calm_msg |].
  destruct (Z.eqb_spec type IPC_MSG_TERM_COLORS) as [->|_].
  { cbn [yields]. destruct (colors_served i st data Hst) as [H1 R1]. by split_and!. }
  destruct (Z.eqb_spec type IPC_MSG_REFRESH) as [->|_]; [eapply yields_mono; [by apply send_replay_calm |]; intros st'; apply calm_msg |].
  destruct (Z.eqb_spec type IPC_MSG_ROLE_REQUEST) as [->|_]; [eapply yields_mono; [by apply role_request_stirs |]; intros st'; apply stirs_msg |].
  destruct (Z.eqb_spec type IPC_MSG_DETACH) as [->|_]; [eapply yields_mono; [by apply (disconnect_calm i i) |]; intros st' [H1 _]; by apply calm_msg |].
  destruct (Z.eqb_spec type IPC_MSG_KILL) as [->|Hk].
  { eapply yields_mono; [by apply kill_ok |]. intros st' [[H1 R1] _]. by split_and!. }
  eapply yields_mono; [apply attr_msg_ok; (done || lia) |]. intros st' (H1 & Hp & Hr). destruct H1 as [H1 R1]. split_and!; try done.
  unfold msg_is_input. by rewrite !(proj2 (Z.eqb_neq _ _)).
Qed.

(** What a client that does not hold the keyboard may not touch. *)
Definition respects mc st st' : Prop :=
  role mc ≠ IPC_ROLE_WRITE → others st' = others st ∧ (has_bits (flags mc) IPC_ATTACH_F_INJECT = false → rest st' = rest st).

(** Roles change by the server's rule, or because this client asked. *)
Definition roles_or_asked i st st' : Prop :=
  roles_kept st st' ∨ ∃ st1 data, calm i st st1 ∧ role_request st1 i data = Some st'.

Lemma rest_others st st' : rest st' = rest st → others st' = others st.
Proof. intros E. by apply (f_equal snd) in E. Qed.

Lemma calm_respects i mc st st' : calm i st st' → respects mc st st'.
Proof. intros [_ E] _. split; [by apply rest_others | done]. Qed.

Lemma sk_calm i st mc c : wf st → clients st !! i = Some mc → live mc = true → read_from (sk_conn (sk mc)) c →
  let st' := upd st i (λ mc, {| mc with sk := mk_sock c (sk_send (sk mc)) |}) in calm i st st'.
Proof.
  intros Hst Hmc Hv (_ & Es & Hb). apply upd_calm; [done |]. intros mc0 Hi0. rewrite Hmc in Hi0. injection Hi0 as <-.
  split_and!; try done.
  - destruct (wf_slot_at _ _ _ Hst Hmc) as [[] Hc]. by split.
  - unfold outbound. cbn. by rewrite Es.
Qed.

Lemma client_recv_ok i st mc : wf st → clients st !! i = Some mc → live mc = true →
  yields (client_recv st i) (λ st', (∃ l, acts i l st st') ∧ roles_or_asked i st st' ∧ respects mc st st').
Proof.
  intros Hst Hmc Hv. unfold client_recv. rewrite Hmc. cbn [mbind option_bind].
  assert (zlen (replicate 4096 0) = 4096) as Hz by (by apply (zlen_replicate 4096 0)).
  eapply yields_seq; [apply ipc_msg_recv_any; [apply (wf_at _ _ _ Hst Hmc) | by apply Forall_replicate | lia | lia] |].
  intros [r c] (Hrc & Hzb & Hbuf & Hfrom & Hok). cbn [fst snd] in *.
  pose proof (sk_calm i st mc c Hst Hmc Hv Hfrom) as H1. cbv zeta in H1. set (f := λ mc : mclient, {| mc with sk := mk_sock c (sk_send (sk mc)) |}) in *.
  set (st1 := upd st i f) in *. pose proof (calm_wf _ _ _ H1) as Hst1.
  assert (clients st1 !! i = Some (f mc)) as Hmc1 by (by apply (upd_at st i mc)).
  assert (∀ st', calm i st1 st' → (∃ l, acts i l st st') ∧ roles_or_asked i st st' ∧ respects mc st st') as Hcalm.
  { intros st' H2. pose proof (calm_trans _ _ _ _ H1 H2) as H3. split_and!; [apply H3 | left; apply H3 | by eapply calm_respects]. }
  destruct (Z.eqb_spec (r_rc r) 0) as [E0|E0]; cbn [negb].
  2: { eapply yields_mono; [apply (disconnect_calm i i); [done | by exists (f mc)] |]. intros st' [H2 _]. by apply Hcalm. }
  destruct (Hok E0) as (type & len & Et & Ht & El & Hl). rewrite Et, El. cbn [mbind option_bind].
  destruct (may_send mc type) eqn:Em; cbn [negb].
  2: { eapply yields_mono; [apply deny_calm; [done | exact (slot_lt st i Hst (ex_intro _ mc (conj Hmc Hv)))] |]. exact Hcalm. }
  pose proof (client_msg_ok i st1 (f mc) type (r_buf r) len Hst1 Hmc1 Hv Hbuf ltac:(lia)) as Hmsg.
  destruct (client_msg st1 i type (r_buf r) len) as [st'|] eqn:Ecm; [| done]. cbn [yields] in *. destruct Hmsg as ((l & Ha) & Hr & Hmut & Hin).
  destruct H1 as [[[l1 Ha1] R1] E1]. split_and!.
  - exists (l1 ++ l). by eapply acts_trans.
  - destruct (decide (type = IPC_MSG_ROLE_REQUEST)) as [->|Hne]; [right | left; eapply roles_trans; [exact R1 | by apply Hr]].
    unfold client_msg in Ecm. rewrite Hmc1 in Ecm. cbn [mbind option_bind] in Ecm.
    exists st1, (take (Z.to_nat len) (r_buf r)). split; [split; [split; [by exists l1 | done] | done] | exact Ecm].
  - intros Hrole. unfold may_send in Em. rewrite (proj2 (Z.eqb_neq _ _)) in Em by done. cbn [orb] in Em.
    pose proof (rest_others _ _ E1) as Eo. split.
    + destruct (msg_mutates type) eqn:Emut; cbn [negb orb] in Em; [| rewrite <- Eo; apply rest_others; by apply Hmut].
      apply andb_true_iff in Em as [_ Em]. rewrite <- Eo. by apply Hin.
    + intros Hinj. rewrite Hinj in Em. cbn [andb] in Em. rewrite orb_false_r in Em. rewrite <- E1. apply Hmut. by destruct (msg_mutates type).
Qed.

Lemma client_read_ok i st mc events : wf st → clients st !! i = Some mc → live mc = true →
  yields (on_client_read st i events) (λ st', (∃ l, acts i l st st') ∧ roles_or_asked i st st' ∧ respects mc st st').
Proof.
  intros Hst Hmc Hv. pose proof (slot_lt st i Hst (ex_intro _ mc (conj Hmc Hv))) as Hlt. unfold on_client_read.
  destruct (has_bits events IOX_WRITE).
  2: { cbn [mbind option_bind]. cbv iota beta. destruct (has_bits events IOX_READ); cbn [negb]; [by apply client_recv_ok |].
    cbn [yields]. pose proof (calm_refl i st Hst) as H1. split_and!; [apply H1 | left; apply H1 | by eapply calm_respects]. }
  eapply (yields_seq _ _ (λ x, ∃ mc1, calm i st x.2 ∧ clients x.2 !! i = Some mc1 ∧ x.1 = (fd mc1 <? 0) ∧
    (live mc1 = true → role mc1 = role mc ∧ flags mc1 = flags mc))).
  { eapply yields_seq; [by apply flush_served |]. intros st1 (l & Ha & Hr & E & _ & Hs).
    assert (calm i st st1) as H1 by (split; [split; [by exists l | done] | done]).
    destruct (slot_at st1 i (calm_wf _ _ _ H1) Hlt) as [mc1 Hmc1]. rewrite Hmc1. cbn [mbind option_bind yields]. exists mc1. split_and!; try done.
    intros Hv1. destruct Hs as [(mc0 & mc2 & E0 & E2 & _ & Er & Eid)|Hd]; [| by rewrite (Hd mc1 Hmc1) in Hv1].
    rewrite Hmc in E0. injection E0 as <-. rewrite Hmc1 in E2. injection E2 as <-. split; [done | by apply (f_equal flags) in Eid]. }
  intros [gone st1] (mc1 & H1 & Hmc1 & Eg & Hid). cbn [fst snd] in *. subst gone.
  assert (∀ st', calm i st st' → (∃ l, acts i l st st') ∧ roles_or_asked i st st' ∧ respects mc st st') as Hcalm.
  { intros st' H2. split_and!; [apply H2 | left; apply H2 | by eapply calm_respects]. }
  destruct (Z.ltb_spec (fd mc1) 0) as [|Hf]; [by apply Hcalm |].
  assert (live mc1 = true) as Hv1 by (by apply Z.leb_le). destruct (Hid Hv1) as [Er Ef].
  destruct (has_bits events IOX_READ); cbn [negb]; [| by apply Hcalm].
  eapply yields_mono; [apply client_recv_ok; [by eapply calm_wf | done | done] |]. intros st' ((l & Ha) & Hro & Hresp).
  pose proof H1 as [[[l1 Ha1] R1] E1]. split_and!.
  - exists (l1 ++ l). by eapply acts_trans.
  - destruct Hro as [Hro|(st2 & data & H2 & E2)]; [left; by eapply roles_trans | right]. exists st2, data. split; [by eapply calm_trans | done].
  - unfold respects in *. rewrite Er, Ef in Hresp. intros Hn. destruct (Hresp Hn) as [H3 H4]. split; [rewrite H3; by apply rest_others |].
    intros Hj. by rewrite (H4 Hj).
Qed.
End Client.
