(* ===== verification/MserverSession.v ===== *)
(** * Sessions of the server

    New clients and the program's output, and with them any sequence of events:
    the server never traps, never hangs and keeps its bounds; who may type; what
    clients see; who has the keyboard; the size of the window. *)

From stdpp Require Import gmap.
From S2P Require Import Prelude Microser LumiMsg IpcMsg AttrStore AttrWire Mserver MserverSteps MserverQueue MserverTotal MserverActs MserverHandlers MserverClient.

Section Session.
Context {W : Type} `{HW : !Window W} `{HT : !Tunables} `{HWL : !WindowLaws W} `{HTO : !TunablesOk}.
Implicit Types (st : srv W).

(** ** Telling everybody *)

Definition background_msgs (ms : list (Z * list Z)) : Prop := Forall (λ m, m.1 = IPC_MSG_ROLE_CHANGE ∨ m.1 = IPC_MSG_CLIENT_EVENT) ms.

(** One message among those the server sends of its own accord. *)
Definition once (m : Z * list Z) (ms : list (Z * list Z)) : Prop := ∃ b1 b2, background_msgs b1 ∧ background_msgs b2 ∧ ms = b1 ++ m :: b2.

Lemma background_to_client j l : background l → background_msgs (to_client j l).
Proof.
  unfold to_client, background_msgs. induction 1 as [|x l Hx H IH]; [constructor |]. rewrite filter_cons. case_decide; [| done].
  rewrite fmap_cons. by constructor.
Qed.

Lemma told_to_client i j m l st' : told i m l st' → live_at st' j →
  if decide (i = j) then to_client j l = [m] else background_msgs (to_client j l).
Proof.
  intros [[_ ->]|(Hd & l1 & Hb & Hl)] Hj.
  - change [(i, m)] with (pair i <$> [m]). rewrite to_client_pair. case_decide; [done | constructor].
  - destruct (decide (i = j)) as [<-|Hne]; [destruct Hj as (mc & Hmc & Hv); by rewrite (Hd mc Hmc) in Hv |].
    destruct Hl as [-> | ->]; [by apply background_to_client |]. change ((i, m) :: l1) with ((pair i <$> [m]) ++ l1).
    rewrite to_client_app, to_client_pair, decide_False by done. by apply background_to_client.
Qed.

Lemma live_back l st st' j : does true l st st' → wf st → live_at st' j → live_at st j.
Proof.
  intros Hd Hst Hl. pose proof (slot_lt _ _ (does_wf _ _ _ Hd Hst) Hl) as Hlt. destruct (alive_or_dead st j Hst Hlt) as [|Hdead]; [done |].
  pose proof (mrun_dead _ _ _ _ (proj1 Hd) Hst Hlt Hdead) as H. destruct Hl as (mc & Hmc & Hv). by rewrite (H mc Hmc) in Hv.
Qed.

Lemma broadcast_ok st type payload : wf st →
  yields (broadcast st type payload) (λ st', ∃ l, does true l st st' ∧ keeps st st' ∧ ∀ j, live_at st' j → once (type, payload) (to_client j l)).
Proof.
  intros Hst. unfold broadcast. set (m := (type, payload)).
  eapply yields_mono.
  { apply (each_client_ok (λ k st', ∃ l, does true l st st' ∧ keeps st st' ∧
      ∀ j, live_at st' j → if (j <? k)%nat then once m (to_client j l) else background_msgs (to_client j l))).
    - intros k st' (l & Hd & _). by eapply does_wf.
    - intros i st' Hi Hdead (l & Hd & Hk & Hj). exists l. split_and!; try done. intros j Hl. specialize (Hj j Hl).
      destruct (decide (j = i)) as [->|Hne]; [destruct Hl as (mc & Hmc & Hv); by rewrite (Hdead mc Hmc) in Hv |].
      replace (j <? S i)%nat with (j <? i)%nat; [done |]. destruct (Nat.ltb_spec j i), (Nat.ltb_spec j (S i)); (done || lia).
    - intros i st' Hi (l & Hd & Hk & Hj). pose proof (does_wf _ _ _ Hd Hst) as Hst'.
      destruct (group_ends DEPTH) as (_ & _ & He & _). pose proof (deep st' Hst').
      eapply yields_mono; [apply He; [done | done | lia] |]. intros st2 (l2 & Hd2 & Hk2 & Ht & _). split; [| intros j Hlt; by apply (mrun_dead _ _ _ _ (proj1 Hd2))].
      exists (l ++ l2). split_and!; [by eapply does_app | by eapply keeps_then |]. intros j Hl. specialize (Hj j (live_back _ _ _ _ Hd2 Hst' Hl)).
      pose proof (told_to_client _ j _ _ _ Ht Hl) as H2. rewrite to_client_app. destruct (decide (i = j)) as [<-|Hne].
      + rewrite Nat.ltb_irrefl in Hj. rewrite (proj2 (Nat.ltb_lt _ _)) by lia. exists (to_client i l), []. rewrite H2. by split_and!; [| constructor |].
      + replace (j <? S i)%nat with (j <? i)%nat by (destruct (Nat.ltb_spec j i), (Nat.ltb_spec j (S i)); (done || lia)).
        destruct (j <? i)%nat; [| by apply Forall_app_2]. destruct Hj as (b1 & b2 & H1 & H3 & ->). exists b1, (b2 ++ to_client j l2).
        split_and!; [done | by apply Forall_app_2 | by rewrite <- app_assoc].
    - exists []. split_and!; [apply does_nil | apply keeps_same |]. intros j _. destruct (Nat.ltb_spec j 0); [lia | constructor]. }
  intros st' (l & Hd & Hk & Hj). exists l. split_and!; try done. intros j Hl. specialize (Hj j Hl).
  pose proof (slot_lt _ _ (does_wf _ _ _ Hd Hst) Hl). by rewrite (proj2 (Nat.ltb_lt _ _)) in Hj.
Qed.

(** ** What one client sees of an event *)

(** Client [j], if it is still there, was sent [ms] and is otherwise as it was. *)
Definition seen (j : nat) (ms : list (Z * list Z)) st st' : Prop :=
  ∀ mc, clients st !! j = Some mc → live mc = true → ∃ mc', clients st' !! j = Some mc' ∧
    (live mc' = true → mc_id mc' = mc_id mc ∧ outbound mc' = outbound mc ++ frames ms).

(** What the server itself writes to the PTY, as sent and what writing it will
    answer next, and what is committed: the file and the entries of the store.  The
    program also reads what the terminal answers it on the same descriptor; that is
    the window's, [win_answers]. *)
Definition inputs st := (pty_wr st, pty_out st, attr_file st, entries (attrs st), next_gen (attrs st)).

Lemma rest_inputs st st' : rest st' = rest st → inputs st' = inputs st.
Proof. unfold rest, others, inputs. by intros [= -> -> _ _ -> -> -> _ _ _ _ _ _ _]. Qed.

(** The messages of type OUTPUT. *)
Definition outputs (ms : list (Z * list Z)) : list (list Z) := snd <$> filter (λ m, m.1 = IPC_MSG_OUTPUT) ms.

Lemma outputs_app ms1 ms2 : outputs (ms1 ++ ms2) = outputs ms1 ++ outputs ms2.
Proof. unfold outputs. by rewrite filter_app, fmap_app. Qed.

Lemma outputs_background ms : background_msgs ms → outputs ms = [].
Proof.
  intros H. unfold outputs. induction H as [|m ms Hm H IH]; [done |]. rewrite filter_cons_False; [done |]. by destruct Hm as [-> | ->].
Qed.

Lemma outputs_once type payload ms : once (type, payload) ms → outputs ms = if decide (type = IPC_MSG_OUTPUT) then [payload] else [].
Proof.
  intros (b1 & b2 & H1 & H2 & ->). rewrite outputs_app, (outputs_background b1) by done. unfold outputs. rewrite filter_cons. cbn [fst app].
  case_decide; [rewrite fmap_cons; cbn [snd]; f_equal |]; by apply outputs_background.
Qed.

(** ** The program's output *)

Lemma title_served i st : wf st → served i st (sync_title st) ∧ clients (sync_title st) = clients st ∧ inputs (sync_title st) = inputs st.
Proof.
  intros Hst. unfold sync_title. case_bool_decide; [split_and!; [by apply served_refl | done | done] |].
  destruct (win_set_title_ok (win st) (default [] (window_vt_title (win st)))) as (Hw & Hr & Hc & Han); [apply Hst |].
  split_and!; [| done | done]. match goal with |- served _ _ ?s => destruct (same_acts i st s) as [H1 H2]; try done; [apply Hst |] end.
  split; [by exists [] | done].
Qed.

Record master_post (data : list Z) st st' : Prop := {
  mp_sound : wf st';
  mp_flow : flow_ok st → flow_ok st';
  mp_fitted : fitted st → fitted st';
  mp_roles : roles_kept st st';
  mp_inputs : inputs st' = inputs st;
  mp_seen j : ∃ ms, seen j ms st st' ∧ outputs ms = [data];
}.

Lemma does_seen l st st' j : does true l st st' → wf st → seen j (to_client j l) st st'.
Proof.
  intros Hd Hst mc Hj _. destruct (mrun_client _ _ _ _ _ (proj1 Hd) Hst Hj) as (mc' & Hj' & Hg). exists mc'. split; [done |].
  intros Hv. by apply Hg.
Qed.

Lemma seen_from st0 st st' j ms : clients st = clients st0 → seen j ms st st' → seen j ms st0 st'.
Proof. intros E H mc. rewrite <- E. apply H. Qed.

(** A client that is gone saw anything. *)
Lemma seen_gone st st' j ms : wf st → wf st' → ¬ live_at st' j → seen j ms st st'.
Proof.
  intros Hst Hst' Hn mc Hj Hv. assert (j < MCLIENT_MAX)%nat as Hlt by (rewrite <- (wf_len _ Hst); by eapply lookup_lt_Some).
  destruct (slot_at st' j Hst' Hlt) as [mc' Hj']. exists mc'. split; [done |]. intros Hv'. destruct Hn. by exists mc'.
Qed.

Lemma live_at_dec st j : live_at st j ∨ ¬ live_at st j.
Proof.
  unfold live_at. destruct (clients st !! j) as [mc|] eqn:E; [| right; by intros (mc & ? & _)].
  destruct (live mc) eqn:Ev; [left; by exists mc | right; intros (mc' & [= ->] & Hv); congruence].
Qed.

(** A run that the server makes on its own. *)
Lemma does_facts l st st' : does true l st st' → keeps st st' → wf st →
  (flow_ok st → flow_ok st') ∧ (fitted st → fitted st') ∧ roles_kept st st' ∧ rest st' = rest st.
Proof.
  intros Hd Hk Hst. destruct (mrun_invariants _ _ _ (proj1 Hd) Hst) as [Ho Hf]. split_and!; [done | apply Hk | split; [apply Hk | done] |].
  eapply mrun_rest; [apply Hd | done].
Qed.

Lemma sync_flags_ok st : wf st →
  yields (sync_pty_flags st) (λ st', ∃ l st1, does true l st1 st' ∧ keeps st1 st' ∧ served 0 st st1 ∧ clients st1 = clients st ∧
    inputs st1 = inputs st ∧ ∀ j, live_at st' j → outputs (to_client j l) = []).
Proof.
  intros Hst. unfold sync_pty_flags.
  assert (∀ st1, st1 = st → ∃ l st2, does true l st2 st1 ∧ keeps st2 st1 ∧ served 0 st st2 ∧ clients st2 = clients st ∧
    inputs st2 = inputs st ∧ ∀ j, live_at st1 j → outputs (to_client j l) = []) as Hsame.
  { intros st1 ->. exists [], st. split; [apply does_nil |]. split; [apply keeps_same |]. split; [by apply served_refl | done]. }
  destruct (mclient_first st); [| by apply Hsame]. destruct (_ || _); [by apply Hsame |].
  set (st1 := {| st with last_pty_flags := get_pty_flags st |}).
  assert (served 0 st st1) as H1.
  { destruct (same_acts 0 st st1) as [Ha Hr]; try done; [apply Hst | apply Hst |]. split; [by exists [] | done]. }
  eapply yields_mono; [apply broadcast_ok; by eapply served_wf |]. intros st' (l & Hd & Hk & Hj). exists l, st1. split_and!; try done.
  intros j Hl. by rewrite (outputs_once _ _ _ (Hj j Hl)).
Qed.

Lemma master_ok st data : wf st → Forall is_byte data → data ≠ [] → yields (on_master_read st data) (master_post data st).
Proof.
  intros Hst Hdata Hne. unfold on_master_read. destruct data as [|b data]; [done |]. set (d := b :: data) in *.
  eapply yields_seq; [apply win_feed_ok; [apply Hst | done] |]. intros w (Hw & Hr & Hc).
  destruct (same_facts st (set_win st w)) as (Hst0 & Hfl0 & Hfi0 & Hro0); try done; [apply Hst |]. destruct (title_served 0 (set_win st w) Hst0) as (H1 & Hc1 & Hin1). set (st1 := sync_title (set_win st w)) in *.
  pose proof (served_wf _ _ _ H1) as Hst1. eapply yields_seq; [by apply sync_flags_ok |].
  intros st3 (l & st2 & Hd & Hk & H2 & Hc2 & Hin2 & Hout). pose proof (served_wf _ _ _ H2) as Hst2. pose proof (does_wf _ _ _ Hd Hst2) as Hst3.
  eapply yields_mono; [by apply broadcast_ok |]. intros st' (l' & Hd' & Hk' & Hj).
  pose proof (does_app _ _ _ _ _ Hd Hd') as Hd2. pose proof (does_wf _ _ _ Hd2 Hst2) as Hst'.
  destruct (does_facts _ _ _ Hd2 (keeps_then _ _ _ Hk Hk') Hst2) as (Hfl & Hfi & Hro & Hre).
  pose proof (served_trans _ _ _ _ H1 H2) as [[l0 Ha] Hr2]. constructor.
  - done.
  - intros Hf. by apply Hfl, (ac_flow _ _ _ _ Ha), Hfl0.
  - intros Hf. by apply Hfi, (ac_fitted _ _ _ _ Ha), Hfi0.
  - eapply roles_trans; [exact Hro0 |]. by eapply roles_trans.
  - by rewrite (rest_inputs _ _ Hre), Hin2, Hin1.
  - intros j. destruct (live_at_dec st' j) as [Hl|Hn]; [| exists [(IPC_MSG_OUTPUT, d)]; split; [by apply seen_gone | done]].
    exists (to_client j (l ++ l')). split.
    + apply (seen_from st st2); [by rewrite Hc2, Hc1 |]. by apply does_seen.
    + rewrite to_client_app, outputs_app, (outputs_once _ _ _ (Hj j Hl)), decide_True by done.
      rewrite Hout; [done |]. by eapply live_back.
Qed.

(** ** A new client *)

Lemma upd_then_acts i f l st st' : wf st →
  (∀ mc, clients st !! i = Some mc → fd (f mc) = fd mc ∧ outbound (f mc) = outbound mc ∧ blocked (f mc) = blocked mc) →
  acts i l (upd st i f) st' → fitted st' → acts i l st st'.
Proof.
  intros Hst Hf [H1 H2 H3 H4 H5 H6 H7] Hfit. constructor; [done | done | | | done | done | done].
  - intros j mc Hj. destruct (decide (i = j)) as [<-|Hne].
    + destruct (H3 i (f mc)) as (mc' & Hj' & Hc); [by apply (upd_at st i mc) |]. exists mc'. split; [done |]. intros Hv.
      destruct (Hc Hv) as (Hv0 & Ef & Eo & _). destruct (Hf mc Hj) as (E1 & E2 & _). split_and!; [unfold live in *; by rewrite <- E1 | congruence | congruence | done].
    + apply H3. by rewrite upd_lookup, decide_False.
  - intros Hfl. apply H4. revert Hfl. apply flow_ext; [done |]. apply Forall2_upd; [done |]. intros mc Hi.
    destruct (Hf mc Hi) as (E1 & _ & E3). split; [unfold live; by rewrite E1 | done].
Qed.

Lemma snprintf_short size s : 0 < size → zlen (snprintf_s size s) < size.
Proof. intros. unfold snprintf_s, zlen. rewrite length_take. lia. Qed.

Lemma attach_record_ok i st buf len : wf st → (i < MCLIENT_MAX)%nat → Forall is_byte buf → len <= zlen buf → fitted st →
  yields (attach_record st i buf len) (λ st', (∃ l, acts i l st st') ∧ rest st' = rest st).
Proof.
  intros Hst Hi Hbuf Hlen Hfit. unfold attach_record. eapply yields_seq; [by apply decode_any |]. intros [[p at_]|] Hd.
  2: { cbn. split; [exists []; by apply acts_refl | done]. }
  destruct Hd as [_ Hat]. pose proof Hat as [[_ Hr] [[_ Hc] _]%Forall_cons]%Forall_cons.
  set (f := λ mc, mk_mclient _ _ _ _ _ _ _ _ (at_flags at_) _ _ _ _ _ _ _ _ _ _ _ _ _).
  assert (wf (upd st i f)) as Hst1.
  { apply wf_upd; [done |]. intros mc _ [[] Hcl]. split; [| done]. constructor; try done. cbn. destruct (at_name at_); [| done].
    destruct (0 <? at_name_len at_); [| done]. by apply snprintf_short. }
  eapply yields_seq; [by apply (role_for_stirs i) |]. intros [r st2] [Hr2 [[l2 H2] E2]]. cbn [fst snd] in *.
  pose proof (ac_wf _ _ _ _ H2) as Hst2. eapply yields_mono; [apply upd_fit; [done |] |].
  { intros mc Hmc. destruct (wf_slot_at _ _ _ Hst2 Hmc) as [[] Hcl]. split_and!; try done; by constructor. }
  intros st3 ([[l3 H3] E3] & _ & Hfit3). split; [| by rewrite E3, E2]. exists (l2 ++ l3).
  apply (upd_then_acts i f); [done | done | by eapply acts_trans | done].
Qed.

Lemma attach_reply_calm i st : wf st → (i < MCLIENT_MAX)%nat → yields (attach_reply st i) (calm i st).
Proof.
  intros Hst Hi. unfold attach_reply. destruct (slot_at st i Hst Hi) as [mc Hmc]. rewrite Hmc. cbn [mbind option_bind].
  destruct (win_size_ok (win st)) as [[rws ->] [cls ->]]; [apply Hst |]. cbn [mbind option_bind].
  apply reply_calm; [done | done |]. apply encode_total; [| done].
  pose proof (wc_role _ (wf_at _ _ _ Hst Hmc)) as Hr.
  repeat apply Forall_cons_2; try constructor; try done; cbn; try apply u16_range; try apply u8_range. destruct Hr as [-> | ->]; done.
Qed.

Lemma attach_ok i st buf len : wf st → live_at st i → Forall is_byte buf → len <= zlen buf → fitted st →
  yields (attach st i buf len) (λ st', (∃ l, acts i l st st') ∧ inputs st' = inputs st).
Proof.
  intros Hst Hl Hbuf Hlen Hfit. pose proof (slot_lt _ _ Hst Hl) as Hi. unfold attach.
  assert (calm i st (upd st i (λ mc, {| mc with watch := Some IOX_READ |}))) as H1.
  { apply upd_calm; [done |]. intros mc Hmc. destruct (wf_slot_at _ _ _ Hst Hmc) as [[] Hcl]. split_and!; try done; by constructor. }
  pose proof (calm_wf _ _ _ H1) as Hst1. pose proof H1 as [[[l1 Ha1] _] E1].
  eapply yields_seq; [apply attach_record_ok; try done; by apply (ac_fitted _ _ _ _ Ha1) |]. intros st2 [[l2 Ha2] E2]. pose proof (ac_wf _ _ _ _ Ha2) as Hst2.
  eapply yields_seq; [by apply attach_reply_calm |]. intros st3 H3. pose proof (calm_wf _ _ _ H3) as Hst3.
  assert (calm i st3 (upd st3 i (λ mc, {| mc with ready := true |}))) as H4.
  { apply upd_calm; [done |]. intros mc Hmc. destruct (wf_slot_at _ _ _ Hst3 Hmc) as [[] Hcl]. split_and!; try done; by constructor. }
  pose proof (calm_wf _ _ _ H4) as Hst4. eapply yields_seq; [by apply send_replay_calm |]. intros st5 H5. pose proof (calm_wf _ _ _ H5) as Hst5.
  unfold attach_tail. eapply yields_seq; [by apply (announce_calm i) |]. intros st6 H6. pose proof (calm_wf _ _ _ H6) as Hst6.
  pose proof (calm_trans _ _ _ _ H3 (calm_trans _ _ _ _ H4 (calm_trans _ _ _ _ H5 H6))) as [[[l6 Ha6] _] E6].
  assert (acts i (l1 ++ l2 ++ l6) st st6) as Ha by (eapply acts_trans; [done |]; by eapply acts_trans).
  assert (rest st6 = rest st) as E by (by rewrite E6, E2, E1).
  destruct (_ <=? _); [| split; [by exists (l1 ++ l2 ++ l6) | by apply rest_inputs]].
  set (st7 := {| st6 with last_pty_flags := get_pty_flags st6 |}).
  destruct (same_acts i st6 st7) as [Ha7 _]; try done; [apply Hst6 | apply Hst6 |].
  eapply yields_mono; [apply enqueue_calm; [apply Ha7 | done] |]. intros st8 [[[l8 Ha8] _] E8]. split.
  - eexists. eapply acts_trans; [exact Ha |]. eapply acts_trans; [exact Ha7 | exact Ha8].
  - rewrite (rest_inputs _ _ E8). change (inputs st7) with (inputs st6). by apply rest_inputs.
Qed.

Lemma alloc_win st new_fd s i st0 : mclient_alloc st new_fd s = Some (i, st0) → win st0 = win st.
Proof. unfold mclient_alloc. destruct (find_slot _ _); [| done]. by intros [= _ <-]. Qed.

(** A free slot becomes the new client's. *)
Lemma alloc_ok st new_fd s i st0 : wf st → 0 <= new_fd → byte_schedule (c_rd (sk_conn s)) → mclient_alloc st new_fd s = Some (i, st0) →
  wf st0 ∧ live_at st0 i ∧ dead_at st i ∧ (∀ j, j ≠ i → clients st0 !! j = clients st !! j) ∧ rest st0 = rest st ∧ (fitted st → fitted st0).
Proof.
  intros Hst Hfd Hs E. unfold mclient_alloc in E. pose proof (find_slot_ok (λ mc, negb (live mc)) (clients st)) as H.
  destruct (find_slot _ _) as [k|]; [| done]. destruct H as (mc & Hk & Hd%negb_true_iff & _). cbn in E. injection E as <- <-.
  destruct (wf_slot_at _ _ _ Hst Hk) as [Hw Hc]. destruct (Hc Hd) as (Eq & Eo & Eh & Ep & Es & Ei & Er). split_and!.
  - apply wf_upd; [done |]. intros mc0 Hk0 _. rewrite Hk in Hk0. injection Hk0 as <-.
    split; [| unfold live; cbn; by rewrite (proj2 (Z.leb_le _ _)) by done]. destruct Hw. constructor; try done; by left.
  - eexists. split; [by apply (upd_at st k mc) |]. unfold live. cbn. by apply Z.leb_le.
  - intros mc'. rewrite Hk. by intros [= <-].
  - intros j Hj. by rewrite upd_lookup, decide_False.
  - done.
  - intros Hf. unfold fitted. match goal with |- context [fit_of ?s] => assert (fit_of s = fit_of st) as -> end; [| exact Hf].
    unfold fit_of, live_clients, upd, set_clients. cbn [clients]. clear -Hk Hd. generalize (0, 0, 0, 0) as v. revert k Hk.
    induction (clients st) as [|a l IH]; intros k Hk v; [done |]. destruct k as [|k]; cbn in Hk.
    + injection Hk as ->. cbn. rewrite Hd. match goal with |- context [live ?m] => destruct (live m) end; [| done].
      cbn [foldl]. by destruct v as [[[r c] pw] ph].
    + change (alter ?g (S k) (a :: l)) with (a :: alter g k l). cbn [List.filter]. destruct (live a); cbn [foldl]; by apply IH.
Qed.

Record accept_post st st' : Prop := {
  ap_wf : wf st';
  ap_fitted : fitted st → fitted st';
  ap_inputs : inputs st' = inputs st;
  ap_answers : win_answers (win st') = win_answers (win st);
  ap_seen j : ∃ ms, seen j ms st st' ∧ outputs ms = [];
}.

(** Nothing that concerns the clients there are. *)
Lemma aside_accept st st' : wf st → clients st' = clients st → win st' = win st → attrs st' = attrs st → inputs st' = inputs st → accept_post st st'.
Proof.
  intros Hst Hc Hw Ha Hi. constructor; [| | done | by rewrite Hw |].
  - destruct Hst. constructor; by rewrite ?Hc, ?Hw, ?Ha.
  - unfold fitted, fit_of, live_clients. by rewrite Hc, Hw.
  - intros j. exists []. split; [| done]. intros mc Hj Hv. exists mc. rewrite Hc. split; [done |]. intros _. by rewrite app_nil_r.
Qed.

Lemma acts_seen i l st st' j : acts i l st st' → j ≠ i → seen j (to_client j l) st st' ∧ outputs (to_client j l) = [].
Proof.
  intros H Hne. split.
  - intros mc Hj Hv. destruct (ac_clients _ _ _ _ H j mc Hj) as (mc' & Hj' & Hc). exists mc'. split; [done |]. intros Hv'.
    destruct (Hc Hv') as (_ & _ & Eo & Eid). split; [by apply Eid | done].
  - apply outputs_background. pose proof (ac_but _ _ _ _ H) as Hb. clear H. unfold background_but, to_client, background_msgs in *.
    induction Hb as [|x l' Hx Hb IH]; [constructor |]. rewrite filter_cons. case_decide as Ex; [| done]. rewrite fmap_cons. constructor; [| done].
    destruct Hx as [Hx|Hx]; [congruence | done].
Qed.

Lemma stop_accept st : wf st → accept_post st (stop st).
Proof. intros. by apply aside_accept. Qed.

Lemma hang_up_accept st c : wf st → accept_post st (hang_up st c).
Proof. intros. by apply aside_accept. Qed.

Lemma new_client_ok st new_fd s peer : wf st → fitted st → byte_schedule (c_rd (sk_conn s)) →
  yields (on_new_client st new_fd s peer) (accept_post st).
Proof.
  intros Hst Hfit Hs. unfold on_new_client. destruct (Z.ltb_spec new_fd 0) as [|Hfd]; [by apply aside_accept |].
  destruct (negb _); [by apply hang_up_accept |]. assert (zlen (replicate 256 0) = 256) as Hz by (by apply (zlen_replicate 256 0)).
  eapply yields_seq; [apply ipc_msg_recv_any; [done | by apply Forall_replicate | lia | lia] |].
  intros [r c] (_ & Hzb & Hbuf & (_ & _ & Hc) & Hok). cbn [fst snd] in *.
  destruct (Z.eqb_spec (r_rc r) 0) as [E0|E0]; cbn [negb]; [| by apply hang_up_accept].
  destruct (Hok E0) as (type & len & -> & _ & -> & Hl). cbn [mbind option_bind].
  destruct (Z.eqb_spec type IPC_MSG_ATTACH) as [->|]; cbn [negb].
  2: { destruct (_ =? _); [| by apply hang_up_accept].
    eapply yields_seq; [apply (ipc_msg_send_ok _ _ None 0); [done | by cbn] |]. intros [rc c'] _. by apply aside_accept. }
  destruct (mclient_alloc _ _ _) as [[i st0]|] eqn:Ea.
  - destruct (alloc_ok st new_fd (mk_sock c (sk_send s)) _ _ Hst Hfd Hc Ea) as (Hst0 & Hl0 & Hd & Hj & Hr & Hf).
    eapply yields_mono; [apply attach_ok; (done || lia || auto) |]. intros st' [[l Ha] Hin]. constructor.
    + apply Ha.
    + intros _. apply Ha. auto.
    + rewrite Hin. by apply rest_inputs.
    + rewrite (ac_answers _ _ _ _ Ha). by rewrite (alloc_win _ _ _ _ _ Ea).
    + intros j. destruct (decide (j = i)) as [->|Hne].
      * exists []. split; [| done]. intros mc Hmc Hv. by rewrite (Hd mc Hmc) in Hv.
      * destruct (acts_seen _ _ _ _ j Ha Hne) as [Hs1 Ho1]. exists (to_client j l). split; [| done].
        intros mc Hmc. rewrite <- Hj in Hmc by done. by apply Hs1.
  - eapply yields_seq; [apply (ipc_msg_send_ok _ _ (Some (str "too many clients")) 16); [done | by vm_compute] |].
    intros [rc c'] _. by apply hang_up_accept.
Qed.

(** ** Events *)

(** What the loop may hand over: bytes. *)
Definition event_ok (ev : event) : Prop :=
  match ev with
  | EvAccept _ s _ => byte_schedule (c_rd (sk_conn s))
  | EvMaster data => Forall is_byte data
  | _ => True
  end.

(** Sound between two events: the state is well formed and the window fits. *)
Definition sound st : Prop := wf st ∧ fitted st.

Lemma handle_ok ev st : sound st → event_ok ev → yields (handle ev st) sound.
Proof.
  intros [Hst Hf] Hev. destruct ev as [new_fd s peer|i events|data|reaped| |e|multi]; cbn [handle event_ok] in *.
  - eapply yields_mono; [by apply new_client_ok |]. intros st' H. split; [apply H | by apply (ap_fitted _ _ H)].
  - destruct (clients st !! i) as [mc|] eqn:Hmc; [| by split]. destruct (live mc) eqn:Hv; [| by split].
    eapply yields_mono; [by eapply client_read_ok |]. intros st' ([l Ha] & _). split; [apply Ha | by apply (ac_fitted _ _ _ _ Ha)].
  - destruct data as [|b data]; [split; [by destruct Hst | done] |].
    eapply yields_mono; [by apply master_ok |]. intros st' H. split; [apply H | by apply (mp_fitted _ _ _ H)].
  - cbn. unfold on_sigchld. destruct (existsb id reaped); [split; [by destruct Hst | done] | by split].
  - split; [by destruct Hst | done].
  - split; [by destruct Hst | done].
  - split; [by destruct Hst | done].
Qed.

Lemma run_ok evs st : sound st → Forall event_ok evs → yields (run evs st) sound.
Proof.
  intros Hst H. revert st Hst. induction H as [|ev evs Hev H IH]; intros st Hst; [done |].
  cbn [run]. eapply yields_seq; [by apply handle_ok |]. exact IH.
Qed.

(** ** The end of the server *)

(** [mclient_disconnect] of a slot that nobody has: only the reset. *)
Lemma disconnect_dead fuel st i : wf st → (i < MCLIENT_MAX)%nat → dead_at st i → (need st + 3 <= fuel)%nat →
  yields (mclient_disconnect (S fuel) st i) (λ st', ∃ l, does true l st st' ∧ background l ∧ dead_at st' i ∧ settled st').
Proof.
  intros Hst Hi Hd Hn. destruct (slot_at st i Hst Hi) as [mc Hmc]. cbn [mclient_disconnect].
  rewrite Hmc. cbn [mbind option_bind]. pose proof (Hd mc Hmc) as Hv. unfold live in Hv. rewrite Hv. cbn [mbind option_bind].
  set (st1 := update_master_interest (upd st i mclient_reset)).
  assert (does true [] st st1) as Hd1 by (apply does_step; [by eapply m_reset | done]). pose proof (does_wf _ _ _ Hd1 Hst) as Hst1.
  destruct (group_ends fuel) as (_ & _ & _ & _ & Hre). pose proof (does_need _ _ _ Hd1 Hst).
  eapply yields_mono; [apply (settle_step fuel st1 Hre Hst1); lia |]. intros st' (l & Hd2 & Hb & Hset). exists l. split_and!; try done.
  - by apply (does_app _ _ _ _ _ Hd1 Hd2).
  - by apply (mrun_dead _ _ _ _ (proj1 Hd2) Hst1 Hi), (mrun_dead _ _ _ _ (proj1 Hd1) Hst Hi).
Qed.

Lemma disconnect_any st i : wf st → (i < MCLIENT_MAX)%nat →
  yields (disconnect st i) (λ st', wf st' ∧ dead_at st' i ∧ (∀ j, (j < MCLIENT_MAX)%nat → dead_at st j → dead_at st' j)).
Proof.
  intros Hst Hi. destruct (alive_or_dead st i Hst Hi) as [Hl|Hd].
  - destruct (group_ends DEPTH) as (He & _). pose proof (deep st Hst) as Hn.
    eapply yields_mono; [apply He; [done | done | lia] |]. intros st' (l & Hd' & _ & Hdead & _). split_and!; [by eapply does_wf | done |].
    intros j Hj. by apply (mrun_dead _ _ _ _ (proj1 Hd')).
  - pose proof (deep st Hst) as Hn. eapply yields_mono; [apply (disconnect_dead 63); unfold DEPTH in Hn; (done || lia) |]. intros st' (l & Hd' & _ & Hdead & _). split_and!; [by eapply does_wf | done |].
    intros j Hj. by apply (mrun_dead _ _ _ _ (proj1 Hd')).
Qed.

Lemma disconnect_from_ok n : ∀ i st, wf st → (i + n = MCLIENT_MAX)%nat → (∀ j, (j < i)%nat → dead_at st j) →
  yields (disconnect_from n i st) (λ st', wf st' ∧ ∀ j, (j < MCLIENT_MAX)%nat → dead_at st' j).
Proof.
  induction n as [|n IH]; intros i st Hst Hn Hd; cbn [disconnect_from].
  - split; [done |]. intros j Hj. apply Hd. lia.
  - eapply yields_seq; [apply disconnect_any; [done | lia] |]. intros st1 (Hst1 & Hdi & Hk). apply IH; [done | lia |].
    intros j Hj. destruct (decide (j = i)) as [->|]; [done |]. apply Hk; [lia |]. apply Hd. lia.
Qed.

(** ** The beginning *)

Lemma server_init_ok w own file path_len d pty times reallocs : win_ok w → opened_bytes file →
  yields (server_init w own file path_len d pty times reallocs) (λ st, sound st ∧ ∀ j, dead_at st j).
Proof.
  intros Hw Hf. unfold server_init. eapply yields_seq; [by apply load_file_bytes |]. intros [rc a] Ha. cbn [yields].
  assert (∀ j mc, replicate MCLIENT_MAX mclient_free !! j = Some mc → mc = mclient_free) as Hall by (by intros j mc (-> & _)%lookup_replicate).
  split; [split |].
  - constructor; [done | | done | done]. apply Forall_replicate. destruct hard_limit_range. split; [| done].
    constructor; unfold mclient_pending, INRUN_HARD_LIMIT; cbn; rewrite ?zlen_nil; try done; try lia; [by left | constructor].
  - unfold fitted, fit_of, live_clients. cbn. lia.
  - intros j mc Hj. cbn in Hj. by apply Hall in Hj as ->.
Qed.
End Session.
