(* ===== verification/MserverReplay.v ===== *)
(** * The screen for a client that attaches

    What [attach] puts in the newcomer's queue: the size of the window and the
    dump of it in pieces, in order, and nothing else of the program's; and that
    the window changes by resizing only until then. *)

From stdpp Require Import gmap.
From S2P Require Import Prelude Microser LumiMsg IpcMsg AttrStore AttrWire Mserver MserverSteps MserverQueue MserverTotal MserverActs MserverHandlers MserverClient MserverSession.

Section Replay.
Context {W : Type} `{HW : !Window W} `{HT : !Tunables} `{HWL : !WindowLaws W} `{HTO : !TunablesOk}.
Implicit Types (st : srv W).

(** ** Sending to one client *)

(** Client [i] is sent [ms], unless it is dropped. *)
Definition sends (i : nat) (ms : list (Z * list Z)) st st' : Prop :=
  (∃ l, does true l st st') ∧ (live_at st' i → does false (pair i <$> ms) st st').

Lemma sends_nil i st : sends i [] st st.
Proof. split; [exists []; apply does_nil | intros _; apply does_nil]. Qed.

Lemma sends_wf i ms st st' : sends i ms st st' → wf st → wf st'.
Proof. intros [[l Hd] _]. by eapply does_wf. Qed.

Lemma sends_app i ms1 ms2 st1 st2 st3 : wf st1 → sends i ms1 st1 st2 → sends i ms2 st2 st3 → sends i (ms1 ++ ms2) st1 st3.
Proof.
  intros Hst [[l1 H1] Q1] [[l2 H2] Q2]. split; [exists (l1 ++ l2); by eapply does_app |]. intros Hl. rewrite fmap_app.
  eapply does_app; [apply Q1 | by apply Q2]. eapply live_back; [exact H2 | by eapply does_wf | exact Hl].
Qed.

Lemma enqueue_sends i st type payload : wf st → (i < MCLIENT_MAX)%nat → yields (enqueue st i type payload) (sends i [(type, payload)] st).
Proof.
  intros Hst Hi. destruct (group_ends DEPTH) as (_ & _ & He & _). pose proof (deep st Hst).
  eapply yields_mono; [apply He; [done | done | lia] |]. intros st' (l & Hd & _ & Ht & Hq). split; [by exists l |]. intros Hl.
  destruct Ht as [[_ ->]|[Hdead _]]; [by apply Hq |]. destruct Hl as (mc & Hmc & Hv). by rewrite (Hdead mc Hmc) in Hv.
Qed.

(** ** The dump in pieces *)

Definition piece (c : list Z) : Prop := 0 < zlen c <= REPLAY_BUFSZ.
Definition output_msgs (chunks : list (list Z)) : list (Z * list Z) := pair IPC_MSG_OUTPUT <$> chunks.

Lemma replay_flush_sends i st buf : wf st → (i < MCLIENT_MAX)%nat → zlen buf <= REPLAY_BUFSZ →
  yields (replay_flush (mk_replay i buf) st) (λ x, x.1 = mk_replay i [] ∧
    ∃ chunks, concat chunks = buf ∧ Forall piece chunks ∧ sends i (output_msgs chunks) st x.2).
Proof.
  intros Hst Hi Hb. unfold replay_flush. cbn [rb_buf rb_mc]. destruct (Z.ltb_spec 0 (zlen buf)).
  - eapply yields_seq; [by apply enqueue_sends |]. intros st' H'. cbn. split; [done |]. exists [buf]. split; [cbn; by rewrite app_nil_r |]. split; [| done].
    by repeat constructor.
  - cbn. destruct buf; [| rewrite zlen_cons in *; pose proof (zlen_nonneg buf); lia]. split; [done |]. exists []. split_and!; [done | constructor | apply sends_nil].
Qed.

Lemma dump_to_client_sends fuel : ∀ i st buf data, wf st → (i < MCLIENT_MAX)%nat → zlen buf < REPLAY_BUFSZ → (length data <= fuel)%nat →
  yields (dump_to_client fuel (mk_replay i buf) st data) (λ x, ∃ chunks buf', x.1 = mk_replay i buf' ∧ zlen buf' < REPLAY_BUFSZ ∧
    concat chunks ++ buf' = buf ++ data ∧ Forall piece chunks ∧ sends i (output_msgs chunks) st x.2).
Proof.
  induction fuel as [|fuel IH]; intros i st buf data Hst Hi Hb Hf; cbn [dump_to_client];
    (destruct (Z.leb_spec (zlen data) 0) as [H0|H0]; [cbn; exists [], buf; unfold zlen in H0; rewrite (nil_length_inv data), app_nil_r by lia;
      split_and!; [done | done | done | constructor | apply sends_nil] |]).
  { unfold zlen in *. lia. }
  cbn [rb_buf rb_mc]. set (chunk := Z.to_nat _). pose proof (zlen_nonneg buf).
  assert (0 < chunk <= length data)%nat as Hch.
  { unfold chunk, zlen, REPLAY_BUFSZ in *. destruct (Z.ltb_spec (32768 - Z.of_nat (length buf)) (Z.of_nat (length data))); lia. }
  assert (zlen (buf ++ take chunk data) <= REPLAY_BUFSZ) as Hb1.
  { rewrite zlen_app. unfold zlen at 2. rewrite length_take_le by lia. unfold chunk, zlen, REPLAY_BUFSZ in *.
    destruct (Z.ltb_spec (32768 - Z.of_nat (length buf)) (Z.of_nat (length data))); lia. }
  eapply (yields_seq _ _ (λ x, ∃ chunks buf1, x.1 = mk_replay i buf1 ∧ zlen buf1 < REPLAY_BUFSZ ∧ concat chunks ++ buf1 = buf ++ take chunk data ∧
    Forall piece chunks ∧ sends i (output_msgs chunks) st x.2)).
  { destruct (Z.eqb_spec (zlen (buf ++ take chunk data)) REPLAY_BUFSZ).
    - eapply yields_mono; [by apply replay_flush_sends |]. intros [rb st1] [E1 (chunks & Ec & Hp & H1)]. exists chunks, []. rewrite app_nil_r. by split_and!.
    - cbn. exists [], (buf ++ take chunk data). split_and!; [done | lia | done | constructor | apply sends_nil]. }
  intros [rb st1] (ch1 & buf1 & E1 & Hb2 & Ec1 & Hp1 & H1). cbn [fst snd] in *. subst rb. pose proof (sends_wf _ _ _ _ H1 Hst) as Hst1.
  eapply yields_mono; [apply IH; [done | done | done | rewrite length_drop; lia] |].
  intros [rb2 st2] (ch2 & buf2 & E2 & Hb3 & Ec2 & Hp2 & H2). exists (ch1 ++ ch2), buf2. split_and!; [done | done | | by apply Forall_app_2 |].
  - rewrite concat_app, <- app_assoc, Ec2, app_assoc, Ec1, <- app_assoc. by rewrite take_drop.
  - unfold output_msgs. rewrite fmap_app. by eapply sends_app.
Qed.

Lemma send_replay_sends i st : wf st → (i < MCLIENT_MAX)%nat →
  yields (send_replay st i) (λ st', ∃ chunks, window_dump (win st) = Some (concat chunks) ∧ Forall piece chunks ∧ sends i (output_msgs chunks) st st').
Proof.
  intros Hst Hi. unfold send_replay. destruct (win_dump_ok (win st)) as [data E]; [apply Hst |]. rewrite E. cbn [mbind option_bind].
  eapply yields_seq; [by apply dump_to_client_sends |]. intros [rb st1] (ch1 & buf & E1 & Hb & Ec & Hp & H1). cbn [fst snd] in *. subst rb.
  pose proof (sends_wf _ _ _ _ H1 Hst) as Hst1. eapply yields_seq; [apply replay_flush_sends; [done | done | lia] |].
  intros [rb2 st2] [_ (ch2 & Ec2 & Hp2 & H2)]. cbn [yields fst snd] in *. exists (ch1 ++ ch2). split_and!.
  - by rewrite concat_app, Ec2, Ec.
  - by apply Forall_app_2.
  - unfold output_msgs. rewrite fmap_app. by eapply sends_app.
Qed.

(** ** The window meanwhile *)

Definition resized (w w' : W) : Prop := ∃ r c pw ph, window_resize w r c pw ph = Some w'.

Lemma fit_win st st' : resize_to_fit st = Some st' → rtc resized (win st) (win st') ∧ clients st' = clients st.
Proof.
  unfold resize_to_fit. destruct (foldl fit_one (0, 0, 0, 0) (live_clients st)) as [[[r c] pw] ph].
  destruct (_ && _); [| by intros [= <-]]. destruct (window_resize (win st) r c pw ph) as [w|] eqn:E; [| done]. intros [= <-].
  split; [| done]. apply rtc_once. by exists r, c, pw, ph.
Qed.

Lemma mstep_win {d} l st st' : mstep d l st st' → rtc resized (win st) (win st') ∧ (d = false → win st' = win st).
Proof.
  intros Hs. destruct Hs as [st|st|st n|st i mc mc' ms Hi Hv Hp|st i mc b Hi Hv|st i mc Hd Hi Hv|st i mc Hd Hi|st st' Hd E|st i E]; try done.
  - unfold time_null. by destruct (clock st) as [|t [|t' ts]].
  - unfold realloc_next. by destruct (realloc_ok st).
  - split; [by apply fit_win | by intros ->].
Qed.

Lemma mrun_win {d} l st st' : mrun d l st st' → rtc resized (win st) (win st') ∧ (d = false → win st' = win st).
Proof.
  induction 1 as [|l1 l2 st1 st2 st3 Hs Hr [IH1 IH2]]; [done |]. destruct (mstep_win _ _ _ Hs) as [H1 H2].
  split; [by etrans |]. intros E. by rewrite IH2, H2.
Qed.

Lemma sends_out i ms st st' : sends i ms st st' → wf st → live_at st' i →
  live_at st i ∧ win st' = win st ∧ ∃ mc mc', clients st !! i = Some mc ∧ clients st' !! i = Some mc' ∧ outbound mc' = outbound mc ++ frames ms.
Proof.
  intros [_ Hq] Hst Hl. specialize (Hq Hl). pose proof (live_back _ _ _ _ (does_drops _ _ _ Hq) Hst Hl) as Hl0.
  split; [done |]. split; [by apply (mrun_win _ _ _ (proj1 Hq)) |]. destruct Hl0 as (mc & Hmc & Hv). exists mc.
  destruct (mrun_client _ _ _ _ _ (proj1 Hq) Hst Hmc) as (mc' & Hmc' & Hg). exists mc'. split_and!; try done.
  destruct Hl as (mc2 & Hmc2 & Hv2). rewrite Hmc' in Hmc2. injection Hmc2 as <-. destruct (Hg Hv2) as (_ & _ & E). by rewrite E, to_client_pair, decide_True.
Qed.

(** The window is only resized, and client [i], if it stays, is only sent notices. *)
Definition drifts (i : nat) st st' : Prop :=
  rtc resized (win st) (win st') ∧ ∀ mc', clients st' !! i = Some mc' → live mc' = true →
    ∃ mc ms, clients st !! i = Some mc ∧ live mc = true ∧ background_msgs ms ∧ outbound mc' = outbound mc ++ frames ms.

Lemma drifts_refl i st : drifts i st st.
Proof. split; [done |]. intros mc Hmc Hv. exists mc, []. split_and!; [done | done | constructor | by rewrite app_nil_r]. Qed.

Lemma drifts_trans i st1 st2 st3 : drifts i st1 st2 → drifts i st2 st3 → drifts i st1 st3.
Proof.
  intros [H1 C1] [H2 C2]. split; [by etrans |]. intros mc3 Hmc3 Hv3. destruct (C2 mc3 Hmc3 Hv3) as (mc2 & ms2 & Hmc2 & Hv2 & Hb2 & E2).
  destruct (C1 mc2 Hmc2 Hv2) as (mc1 & ms1 & Hmc1 & Hv1 & Hb1 & E1). exists mc1, (ms1 ++ ms2). split_and!; [done | done | by apply Forall_app_2 |].
  by rewrite E2, E1, frames_app, <- app_assoc.
Qed.

Lemma does_drifts i l st st' : does true l st st' → background l → wf st → drifts i st st'.
Proof.
  intros Hd Hb Hst. split; [by apply (mrun_win _ _ _ (proj1 Hd)) |]. intros mc' Hmc' Hv'.
  assert (live_at st i) as (mc & Hmc & Hv) by (eapply live_back; [done | done | by exists mc']).
  destruct (mrun_client _ _ _ _ _ (proj1 Hd) Hst Hmc) as (mc2 & Hmc2 & Hg). rewrite Hmc' in Hmc2. injection Hmc2 as <-.
  destruct (Hg Hv') as (_ & _ & E). exists mc, (to_client i l). split_and!; [done | done | by apply background_to_client | done].
Qed.

Lemma upd_drifts i o f st : (∀ mc, fd (f mc) = fd mc ∧ outbound (f mc) = outbound mc) → drifts i st (upd st o f).
Proof.
  intros Hf. split; [done |]. intros mc' Hmc' Hv'. rewrite upd_lookup in Hmc'. case_decide as E; subst.
  - destruct (clients st !! i) as [mc|] eqn:Hmc; [| done]. injection Hmc' as <-. destruct (Hf mc) as [E1 E2]. exists mc, [].
    split_and!; [done | by unfold live in *; rewrite <- E1 | constructor | by rewrite app_nil_r].
  - exists mc', []. split_and!; [done | done | constructor | by rewrite app_nil_r].
Qed.

Lemma fit_drifts i st st' : resize_to_fit st = Some st' → drifts i st st'.
Proof.
  intros [Hw Hc]%fit_win. split; [done |]. rewrite Hc. intros mc Hmc Hv. exists mc, []. split_and!; [done | done | constructor | by rewrite app_nil_r].
Qed.

Lemma announce_drifts i st j kind : wf st → (j < MCLIENT_MAX)%nat → yields (announce st j kind) (λ st', drifts i st st' ∧ ∃ l, does true l st st').
Proof.
  intros Hst Hj. destruct (group_ends DEPTH) as (_ & _ & _ & He & _). pose proof (deep st Hst) as Hn.
  eapply yields_mono; [apply He; [done | done | unfold need in Hn; destruct (_ =? 0); lia] |]. intros st' (l & Hd & _ & Hb).
  split; [by eapply does_drifts | by exists l].
Qed.

Lemma demote_drifts i o st : wf st → (o < MCLIENT_MAX)%nat → yields (demote i o st) (drifts i st).
Proof.
  intros Hst Ho. unfold demote. destruct (slot_at st o Hst Ho) as [mc Hmc]. rewrite Hmc. cbn [mbind option_bind].
  destruct (_ || _); [apply drifts_refl |]. set (st1 := upd st o _).
  assert (acts i [] st st1) as Ha by (apply role_acts; [done | by right]). pose proof (ac_wf _ _ _ _ Ha) as Hst1.
  assert (drifts i st st1) as H1 by (by apply upd_drifts).
  destruct (group_ends DEPTH) as (_ & _ & He & _). pose proof (deep st1 Hst1) as Hn.
  eapply yields_seq; [apply He; [done | done | lia] |]. intros st2 (l & Hd & _ & Ht & _).
  assert (drifts i st1 st2) as H2 by (eapply does_drifts; [done | eapply told_background; [| exact Ht]; by left | done]).
  eapply yields_mono; [apply (announce_drifts i); [by eapply does_wf | done] |]. intros st3 [H3 _].
  eapply drifts_trans; [exact H1 |]. by eapply drifts_trans.
Qed.

Lemma role_for_drifts i st asked : wf st → yields (role_for st i asked) (λ x, drifts i st x.2).
Proof.
  intros Hst. unfold role_for. destruct (has_bits asked IPC_ATTACH_F_VIEW); [apply drifts_refl |].
  destruct (has_bits asked IPC_ATTACH_F_INJECT); [apply drifts_refl |]. destruct (has_bits asked IPC_ATTACH_F_TOKEN).
  - eapply yields_seq; [apply (walk_clients_ok (λ _ st', stirs i st st' ∧ drifts i st st')) |].
    + intros k st' [H _]. by eapply stirs_wf.
    + done.
    + intros o st' Ho [H' D']. pose proof (stirs_wf _ _ _ H') as Hst'. pose proof (demote_stirs i o st' Hst' Ho) as Hs. pose proof (demote_drifts i o st' Hst' Ho) as Hd.
      destruct (demote i o st') as [st2|]; [| done]. cbn [yields] in *. split; [split; [by eapply stirs_trans | by eapply drifts_trans] |].
      intros j Hj. by apply (stirs_dead i st').
    + split; [by apply stirs_refl | apply drifts_refl].
    + intros st' [_ D']. exact D'.
  - destruct (share_multi st); [apply drifts_refl |]. destruct (held_by_other st i); apply drifts_refl.
Qed.

Lemma attach_record_drifts i st buf len : wf st → (i < MCLIENT_MAX)%nat → Forall is_byte buf → len <= zlen buf → fitted st →
  yields (attach_record st i buf len) (drifts i st).
Proof.
  intros Hst Hi Hbuf Hlen Hfit. pose proof (attach_record_ok i st buf len Hst Hi Hbuf Hlen Hfit) as Hok. unfold attach_record in *.
  destruct (ipc_attach_decode buf len) as [[[p at_]|]|] eqn:Ed; [| apply drifts_refl | done]. cbn [mbind option_bind] in *.
  set (f := λ mc, mk_mclient _ _ _ _ _ _ _ _ (at_flags at_) _ _ _ _ _ _ _ _ _ _ _ _ _) in *.
  assert (wf (upd st i f)) as Hst1.
  { pose proof (decode_any (A:=ipc_attach) buf len Hbuf Hlen) as Hd. change (decode ipc_attach buf len) with (ipc_attach_decode buf len) in Hd. rewrite Ed in Hd.
    destruct Hd as [_ Hat]. pose proof Hat as [[_ Hr] [[_ Hc] _]%Forall_cons]%Forall_cons.
    apply wf_upd; [done |]. intros mc _ [[] Hcl]. split; [| done]. constructor; try done. cbn. destruct (at_name at_); [| done].
    destruct (0 <? at_name_len at_); [| done]. by apply snprintf_short. }
  pose proof (role_for_drifts i (upd st i f) (at_flags at_) Hst1) as Hr.
  destruct (role_for (upd st i f) i (at_flags at_)) as [[r st2]|]; [| done]. cbn [yields mbind option_bind fst snd] in *.
  destruct (resize_to_fit _) as [st3|] eqn:E3; [| done]. cbn [yields].
  eapply drifts_trans; [by apply (upd_drifts i i f) |]. eapply drifts_trans; [exact Hr |].
  eapply drifts_trans; [| apply fit_drifts, E3]. by apply upd_drifts.
Qed.

(** ** Attaching *)

Lemma attach_reply_bytes m : msg_ok m → zlen (wire m) <= 32 →
  yields (ipc_attach_reply_encode m (replicate 32 0) 32) (λ x, x.1 = zlen (wire m) ∧ take (Z.to_nat x.1) x.2 = wire m).
Proof.
  intros Hm Hsz. assert (zlen (replicate 32 0) = 32) as Hz by done.
  eapply yields_mono; [apply (encode_wire m); [done | done | lia] |]. intros [n enc] [E Hw]. cbn [fst snd] in *. split; [done |].
  rewrite E. eapply wrote_take; [exact Hw | lia].
Qed.

Lemma attach_reply_sends i st : wf st → (i < MCLIENT_MAX)%nat →
  yields (attach_reply st i) (λ st', ∃ rws cls ro n, window_rows (win st) = Some rws ∧ window_cols (win st) = Some cls ∧
    sends i [(IPC_MSG_ATTACH_REPLY, wire (mk_ipc_attach_reply (u16 rws) (u16 cls) ro n))] st st').
Proof.
  intros Hst Hi. unfold attach_reply. destruct (slot_at st i Hst Hi) as [mc Hmc]. rewrite Hmc. cbn [mbind option_bind].
  destruct (win_size_ok (win st)) as [[rws Er] [cls Ec]]; [apply Hst |]. rewrite Er, Ec. cbn [mbind option_bind]. unfold reply.
  pose proof (wc_role _ (wf_at _ _ _ Hst Hmc)) as Hr. set (m := mk_ipc_attach_reply _ _ _ _).
  assert (zlen (wire m) = 12) as Hsz by reflexivity. assert (msg_ok m) as Hm.
  { repeat apply Forall_cons_2; try constructor; try done; cbn; try apply u16_range; try apply u8_range. destruct Hr as [-> | ->]; done. }
  eapply yields_seq; [apply attach_reply_bytes; [exact Hm | lia] |]. intros [n enc] [E Ht]. cbn [fst snd] in *. rewrite E in *. rewrite Hsz at 1.
  change (0 <? 12) with true. cbv iota. rewrite Ht. eapply yields_mono; [by apply enqueue_sends |]. intros st' H'. by exists rws, cls, (role mc), (u8 (mclient_count st)).
Qed.

(** What a newcomer is sent: notices, the size of the window [w], its screen, and
    then no more of the program's output. *)
Definition greeting (w : W) (ms : list (Z * list Z)) : Prop :=
  ∃ b0 rws cls ro n chunks b1,
    window_rows w = Some rws ∧ window_cols w = Some cls ∧ window_dump w = Some (concat chunks) ∧ Forall piece chunks ∧
    background_msgs b0 ∧ outputs b1 = [] ∧
    ms = b0 ++ (IPC_MSG_ATTACH_REPLY, wire (mk_ipc_attach_reply (u16 rws) (u16 cls) ro n)) :: output_msgs chunks ++ b1.

Lemma background_drift i st st' : drifts i st st' → live_at st' i →
  ∃ mc mc' ms, clients st !! i = Some mc ∧ live mc = true ∧ clients st' !! i = Some mc' ∧ background_msgs ms ∧ outbound mc' = outbound mc ++ frames ms.
Proof. intros [_ H] (mc' & Hmc' & Hv). destruct (H mc' Hmc' Hv) as (mc & ms & ? & ? & ? & ?). by exists mc, mc', ms. Qed.

Lemma attach_tail_ok i st : wf st → (i < MCLIENT_MAX)%nat →
  yields (attach_tail st i) (λ st', live_at st' i → live_at st i ∧ ∃ mc mc' b, clients st !! i = Some mc ∧ clients st' !! i = Some mc' ∧
    outputs b = [] ∧ outbound mc' = outbound mc ++ frames b).
Proof.
  intros Hst Hi. unfold attach_tail. eapply yields_seq; [by apply (announce_drifts i) |]. intros st1 [D1 [l1 Hd1]].
  assert (∀ st', clients st' = clients st1 → live_at st' i → live_at st i ∧ ∃ mc mc' b, clients st !! i = Some mc ∧ clients st' !! i = Some mc' ∧
    background_msgs b ∧ outbound mc' = outbound mc ++ frames b) as Hsame.
  { intros st' Hc Hl. assert (live_at st1 i) as Hl1 by (unfold live_at in *; by rewrite <- Hc).
    destruct (background_drift _ _ _ D1 Hl1) as (mc & mc' & ms & E1 & Hv1 & E2 & Hb & E3). split; [by exists mc |]. exists mc, mc', ms. by rewrite Hc. }
  destruct (_ <=? _).
  2: { cbn. intros Hl. destruct (Hsame st1 eq_refl Hl) as (Hl0 & mc & mc' & b & E1 & E2 & Hb & E3). split; [done |]. exists mc, mc', b.
       split_and!; [done | done | by apply outputs_background | done]. }
  set (st2 := {| st1 with last_pty_flags := _ |}). assert (wf st2) as Hst2 by (by destruct (does_wf _ _ _ Hd1 Hst)).
  eapply yields_mono; [by apply enqueue_sends |]. intros st' H Hl. destruct (sends_out _ _ _ _ H Hst2 Hl) as (Hl2 & _ & mc2 & mc' & E2 & E' & Eo).
  destruct (Hsame st2 eq_refl Hl2) as (Hl0 & mc & mc3 & b & E1 & E3 & Hb & Eb). split; [done |]. rewrite E2 in E3. injection E3 as <-.
  exists mc, mc', (b ++ [(IPC_MSG_PTY_FLAGS, [u8 (get_pty_flags st1)])]). split_and!; [done | done | |].
  - by rewrite outputs_app, (outputs_background b).
  - by rewrite Eo, Eb, frames_app, <- app_assoc.
Qed.

Lemma attach_greets i st buf len : wf st → live_at st i → Forall is_byte buf → len <= zlen buf → fitted st →
  yields (attach st i buf len) (λ st', live_at st' i →
    ∃ st2 mc mc' ms, attach_record (upd st i (λ mc, {| mc with watch := Some IOX_READ |})) i buf len = Some st2 ∧ wf st2 ∧ fitted st2 ∧
      rtc resized (win st) (win st2) ∧ clients st !! i = Some mc ∧ clients st' !! i = Some mc' ∧
      outbound mc' = outbound mc ++ frames ms ∧ greeting (win st2) ms).
Proof.
  intros Hst Hl Hbuf Hlen Hfit. pose proof (slot_lt _ _ Hst Hl) as Hi. unfold attach. set (f := λ mc, {| mc with watch := Some IOX_READ |}).
  assert (calm i st (upd st i f)) as H1.
  { apply upd_calm; [done |]. intros mc Hmc. destruct (wf_slot_at _ _ _ Hst Hmc) as [[] Hcl]. split_and!; try done; by constructor. }
  pose proof (calm_wf _ _ _ H1) as Hst1. pose proof H1 as [[[l1 Ha1] _] _]. pose proof (ac_fitted _ _ _ _ Ha1 Hfit) as Hfit1.
  pose proof (attach_record_ok i _ buf len Hst1 Hi Hbuf Hlen Hfit1) as Hok. pose proof (attach_record_drifts i _ buf len Hst1 Hi Hbuf Hlen Hfit1) as Hdr.
  destruct (attach_record (upd st i f) i buf len) as [st2|] eqn:Erec; [| done]. cbn [yields mbind option_bind] in *. destruct Hok as [[l2 Ha2] _]. pose proof (ac_wf _ _ _ _ Ha2) as Hst2.
  assert (drifts i st st2) as D2 by (eapply drifts_trans; [by apply (upd_drifts i i f) | exact Hdr]).
  eapply yields_seq; [by apply attach_reply_sends |]. intros st3 (rws & cls & ro & n & Er & Ec & H3). pose proof (sends_wf _ _ _ _ H3 Hst2) as Hst3.
  set (g := λ mc, {| mc with ready := true |}). assert (calm i st3 (upd st3 i g)) as H4.
  { apply upd_calm; [done |]. intros mc Hmc. destruct (wf_slot_at _ _ _ Hst3 Hmc) as [[] Hcl]. split_and!; try done; by constructor. }
  pose proof (calm_wf _ _ _ H4) as Hst4. eapply yields_seq; [by apply send_replay_sends |]. intros st5 (chunks & Ed & Hp & H5).
  pose proof (sends_wf _ _ _ _ H5 Hst4) as Hst5.
  eapply yields_mono; [by apply attach_tail_ok |]. intros st6 H6 Hl6. destruct (H6 Hl6) as (Hl5 & mc5 & mc6 & b1 & E5 & E6 & Hb1 & Eo6).
  destruct (sends_out _ _ _ _ H5 Hst4 Hl5) as (Hl4 & _ & mc4 & mc5' & E4 & E5' & Eo5). rewrite E5 in E5'. injection E5' as <-.
  destruct Hl4 as (mc4' & E4' & Hv4). rewrite E4 in E4'. injection E4' as <-. rewrite upd_lookup, decide_True in E4 by done.
  destruct (clients st3 !! i) as [mc3|] eqn:E3; [| done]. injection E4 as <-. change (live (g mc3)) with (live mc3) in Hv4. change (outbound (g mc3)) with (outbound mc3) in Eo5.
  assert (live_at st3 i) as Hl3 by (by exists mc3).
  destruct (sends_out _ _ _ _ H3 Hst2 Hl3) as (Hl2 & Ew & mc2 & mc3' & E2 & E3' & Eo3). rewrite E3 in E3'. injection E3' as <-.
  destruct (background_drift _ _ _ D2 Hl2) as (mc & mc2' & b0 & E0 & _ & E2' & Hb0 & Eo2). rewrite E2 in E2'. injection E2' as <-.
  change (win (upd st3 i g)) with (win st3) in Ed. rewrite Ew in Ed.
  exists st2, mc, mc6, (b0 ++ (IPC_MSG_ATTACH_REPLY, wire (mk_ipc_attach_reply (u16 rws) (u16 cls) ro n)) :: output_msgs chunks ++ b1).
  split_and!; [done | done | by apply (ac_fitted _ _ _ _ Ha2) | apply D2 | done | done | |].
  - rewrite Eo6, Eo5, Eo3, Eo2. change ((IPC_MSG_ATTACH_REPLY, ?p) :: ?l) with ([(IPC_MSG_ATTACH_REPLY, p)] ++ l). by rewrite !frames_app, <- !app_assoc.
  - by exists b0, rws, cls, ro, n, chunks, b1.
Qed.

(** What the newcomer plays: the bytes of the greeting's output. *)
Lemma greeting_outputs w ms : greeting w ms → window_dump w = Some (concat (outputs ms)).
Proof.
  intros (b0 & rws & cls & ro & n & chunks & b1 & _ & _ & Hd & _ & Hb0 & Hb1 & ->).
  rewrite outputs_app, (outputs_background b0) by done. change ((IPC_MSG_ATTACH_REPLY, ?p) :: ?l) with ([(IPC_MSG_ATTACH_REPLY, p)] ++ l).
  rewrite !outputs_app, Hb1, app_nil_r. change (outputs [_]) with (@nil (list Z)). cbn [app]. rewrite Hd. do 2 f_equal.
  unfold outputs, output_msgs. clear. induction chunks as [|c l IH]; [done |]. rewrite fmap_cons, filter_cons_True by done. rewrite fmap_cons. by f_equal.
Qed.
End Replay.
