(* ===== verification/Window.v ===== *)
(** * A window: src/libsession/window.c

    A PTY and the terminal that interprets what comes out of it, as the session
    server uses them: the instance of the server's interface [Window] made from
    the parser and the terminal of VtParse.v, VtState.v, VtOps.v and VtDump.v. *)

From stdpp Require Import gmap.
From S2P Require Import Prelude Utf8 WidthTables RuneWidth VtBuf VtParse VtState VtOps VtClient VtDump VtTyped VtAlt VtKgfx Microser LumiMsg IpcMsg AttrStore AttrWire Mserver MserverSteps.

(** The PTY's size, in cells and pixels, as [pty_resize] (src/libpty/pty.c) set it. *)
Record winsize := mk_winsize { ws_row : Z; ws_col : Z; ws_xpixel : Z; ws_ypixel : Z }.

Record window := mk_window {
  w_id : Z;
  master_fd : Z;
  child_pid : Z;
  w_cell_pw : Z; w_cell_ph : Z;
  vt : vt_state;
  parser : vt_parse;
  w_title : option (list Z);
  pty_size : winsize;
}.

Definition pty_resize (rws cls xpixel ypixel : Z) : winsize := mk_winsize (u16 rws) (u16 cls) (u16 xpixel) (u16 ypixel).

Section WindowOps.
Context (tbl : rune_width_table).

(** What opening a file and reading the start of it gives. *)
Context (read_head : list Z → option (list Z)).

(** [window_dcs_account] with the window's cell size. *)
Definition window_dcs_account (pw ph : Z) (st : vt_state) (introducer : Z) (data : list Z) : option vt_state :=
  if (introducer =? ch "_") && (match data with c :: _ => c =? ch "G" | [] => false end)
  then vt_kgfx_account read_head st data pw ph else Some st.

(** The window for a PTY whose descriptor is [fd] and whose child is [pid]. *)
Definition window_new (fd pid rws cls : Z) : option window :=
  if fd <? 0 then None else
  v ← vt_state_new rws cls 0;
  Some (mk_window 0 fd pid 0 0 (vt_state_set_reply_fd v fd) (vt_parse_set_dcs_cb vt_parse_new true) None (pty_resize rws cls 0 0)).

Definition feed (w : window) (data : list Z) : option window :=
  '(p, v) ← vt_feed tbl (window_dcs_account (w_cell_pw w) (w_cell_ph w)) (parser w, vt w) data;
  Some {| w with parser := p; vt := v |}.

(** The products are of [int]s, which large sizes overflow: wrapped here. *)
Definition resize (w : window) (rws cls pw ph : Z) : option window :=
  v ← vt_state_resize (vt w) rws cls;
  Some {| w with w_cell_pw := pw; w_cell_ph := ph; pty_size := pty_resize rws cls (i32 (pw * cls)) (i32 (ph * rws)); vt := v |}.

Definition window_set_id (w : window) (id : Z) : window := {| w with w_id := id |}.

#[export] Instance vt_window : Window window := {
  window_feed := feed;
  window_resize := resize;
  window_dump w := vt_state_dump (vt w);
  window_rows w := buf_rows <$> cur_buf (vt w);
  window_cols w := buf_cols <$> cur_buf (vt w);
  window_vt_title w := vt_state_title (vt w);
  window_title w := default [] (w_title w);
  window_set_title w t := {| w with w_title := Some t |};
  window_set_term_colors w f b := {| w with vt := vt_state_set_term_colors (vt w) (Some f) (Some b) |};
}.

(** ** What the window promises the server *)

#[export] Instance window_dcs_handler pw ph : DcsHandler (window_dcs_account pw ph).
Proof. intros R C st intro data H. unfold window_dcs_account. case_match; [by apply kgfx_account_ok | done]. Qed.

#[export] Instance window_dcs_typed pw ph : DcsTyped (window_dcs_account pw ph).
Proof. intros st intro data H. unfold window_dcs_account. case_match; [by apply typed_kgfx | by apply ens_ret]. Qed.

#[export] Instance window_dcs_stays pw ph : DcsStays (window_dcs_account pw ph).
Proof. intros p cap os st intro data H. unfold window_dcs_account. case_match; [by apply stays_kgfx | by apply ens_ret]. Qed.

(** The parser and the terminal are sound for a size. *)
Definition window_sound (w : window) : Prop := ∃ R C, wf_parse (parser w) ∧ wf_state R C (vt w) ∧ typed_state (vt w).

Lemma cur_size R C st : wf_state R C st → buf_rows <$> cur_buf st = Some R ∧ buf_cols <$> cur_buf st = Some C.
Proof.
  intros H. destruct (cur_buf_ok _ _ _ H) as (b & -> & h & Hr). by rewrite <- (br_rows _ _ _ _ Hr), <- (br_cols _ _ _ _ Hr).
Qed.

Lemma window_new_ok fd pid R C : 0 <= fd → 0 < R <= DIM_MAX → 0 < C <= DIM_MAX → yields (window_new fd pid R C) window_sound.
Proof.
  intros Hfd HR HC. unfold window_new. rewrite (proj2 (Z.ltb_ge _ _)) by done. pose proof (typed_state_new R C 0) as Ht.
  pose proof (vt_state_new_ok R C 0 HR HC) as H. destruct (vt_state_new R C 0) as [v|]; [| done]. cbn [yields mbind option_bind] in *.
  exists R, C. destruct H as [Hw _]. specialize (Ht v eq_refl). split_and!; cbn.
  - destruct wf_parse_new. by constructor.
  - unfold vt_state_set_reply_fd. clear Ht. wf_fields.
  - ty_fields.
Qed.

Context `{!WidthTable tbl}.

Lemma feed_ok w data : window_sound w → Forall is_byte data →
  yields (feed w data) (λ w', window_sound w' ∧ buf_rows <$> cur_buf (vt w') = buf_rows <$> cur_buf (vt w) ∧
    buf_cols <$> cur_buf (vt w') = buf_cols <$> cur_buf (vt w)).
Proof.
  intros (R & C & Hp & Hw & Ht) Hd. unfold feed. pose proof (vt_feed_ok tbl (window_dcs_account (w_cell_pw w) (w_cell_ph w)) R C _ _ _ Hp Hw Hd) as H.
  pose proof (typed_feed tbl (window_dcs_account (w_cell_pw w) (w_cell_ph w)) (parser w) (vt w) data Ht) as H2.
  destruct (vt_feed _ _ _ _) as [[p v]|]; [| done]. destruct H as [Hp' Hw']. specialize (H2 _ eq_refl). cbn in *.
  destruct (cur_size _ _ _ Hw') as [-> ->]. destruct (cur_size _ _ _ Hw) as [-> ->]. split; [by exists R, C | done].
Qed.

(** Resizing answers nothing. *)
Lemma resize_reply st rs cs : ensures (vt_state_resize st rs cs) (λ st', reply_out st' = reply_out st).
Proof.
  unfold vt_state_resize. do 4 (apply ens_bind_any; intros ?). cbv zeta. set (st1 := put_target _ _ _). change (reply_out st) with (reply_out st1).
  apply (ens_bind _ _ (λ st', reply_out st' = reply_out st1)).
  - case_match; [by apply ens_ret |]. unfold tabstops_init. do 2 (apply ens_bind_any; intros ?). by apply ens_ret.
  - intros st2 <-. unfold vt_state_cursor_clamp. apply ens_bind_any. intros b. by apply ens_ret.
Qed.

Lemma window_resize_ok w r c pw ph : window_sound w → 0 < r < 65536 → 0 < c < 65536 →
  yields (resize w r c pw ph) (λ w', window_sound w' ∧ buf_rows <$> cur_buf (vt w') = Some r ∧ buf_cols <$> cur_buf (vt w') = Some c ∧ reply_out (vt w') = reply_out (vt w)).
Proof.
  intros (R & C & Hp & Hw & Ht) Hr Hc. unfold resize.
  assert (0 < r <= DIM_MAX ∧ 0 < c <= DIM_MAX) as [Hr' Hc'] by (unfold DIM_MAX; lia).
  pose proof (vt_state_resize_ok R C r c _ Hw Hr' Hc') as H. pose proof (typed_vt_state_resize _ r c Ht) as H2. pose proof (resize_reply (vt w) r c) as H3.
  destruct (vt_state_resize (vt w) r c) as [v|]; [| done]. cbn [yields mbind option_bind vt] in *. destruct H as [Hw' _].
  specialize (H2 _ eq_refl). destruct (cur_size _ _ _ Hw') as [-> ->]. specialize (H3 _ eq_refl). split; [by exists r, c | done].
Qed.

Lemma dump_total w : window_sound w → is_Some (vt_state_dump (vt w)).
Proof. intros (R & C & Hp & Hw & Ht). apply (dump_fits R C); [done | by apply typed_state_screen]. Qed.

Lemma size_total w : window_sound w → is_Some (buf_rows <$> cur_buf (vt w)) ∧ is_Some (buf_cols <$> cur_buf (vt w)).
Proof. intros (R & C & Hp & Hw & Ht). destruct (cur_size _ _ _ Hw) as [-> ->]. by split. Qed.

Lemma colors_ok w f b : window_sound w →
  window_sound {| w with vt := vt_state_set_term_colors (vt w) (Some f) (Some b) |}.
Proof.
  intros (R & C & Hp & Hw & Ht). exists R, C. cbn. split_and!; [done | |].
  - unfold vt_state_set_term_colors. clear Ht Hp. wf_fields.
  - ty_fields.
Qed.

#[export] Instance vt_window_laws : WindowLaws window := {|
  win_ok := window_sound;
  win_answers w := reply_out (vt w);
  win_feed_ok := feed_ok;
  win_resize_ok := window_resize_ok;
  win_dump_ok := dump_total;
  win_size_ok := size_total;
  win_set_title_ok w t H := conj H (conj eq_refl (conj eq_refl eq_refl));
  win_set_colors_ok w f b H := conj (colors_ok w f b H) (conj eq_refl (conj eq_refl eq_refl));
|}.
End WindowOps.
