(* ===== verification/Server.v ===== *)
(** * What the session server promises

    The server of mserver.c on the window of window.c: every run of it ends; its
    queues stay bounded; only who may type reaches the program; clients see the
    program's output whole and in order; the window fits its clients; the keyboard
    is handed on. *)

From stdpp Require Import gmap.
From S2P Require Import Prelude Utf8 WidthTables RuneWidth VtBuf VtParse VtState VtOps VtSeq VtClient VtDump VtTyped VtKgfx Microser LumiMsg IpcMsg AttrStore AttrWire Mserver MserverSteps MserverQueue MserverTotal MserverActs MserverHandlers MserverClient MserverSession MserverReplay Window.

(** ** Reachable states *)

Section Sessions.
Context {W : Type} `{HW : !Window W} `{HT : !Tunables} `{HWL : !WindowLaws W} `{HTO : !TunablesOk}.
Implicit Types (st : srv W).

Inductive session : srv W → Prop :=
  | session_init w own file path_len d pty times reallocs st :
      win_ok w → opened_bytes file → server_init w own file path_len d pty times reallocs = Some st → session st
  | session_event st ev st' : session st → event_ok ev → handle ev st = Some st' → session st'.

Lemma session_sound st : session st → sound st.
Proof.
  induction 1 as [w own file path_len d pty times reallocs st Hw Hf E | st ev st' _ IH Hev E].
  - pose proof (server_init_ok w own file path_len d pty times reallocs Hw Hf) as H. rewrite E in H. apply H.
  - pose proof (handle_ok ev st IH Hev) as H. by rewrite E in H.
Qed.

Lemma session_run evs : ∀ st st', session st → Forall event_ok evs → run evs st = Some st' → session st'.
Proof.
  induction evs as [|ev evs IH]; intros st st' Hst Hev E; [by injection E as <- |].
  cbn [run] in E. destruct (handle ev st) as [st1|] eqn:E1; [| done]. apply Forall_cons in Hev as [Hev Hevs].
  by apply (IH st1); [eapply session_event | |].
Qed.

(** ** Bounds *)

Definition bounded (mc : mclient) : Prop :=
  0 <= mclient_pending mc <= mserver_outq_hard_limit ∧ outq_cap mc <= 8192 `max` (2 * mserver_outq_hard_limit) ∧
  zlen (inq mc) <= INRUN_HARD_LIMIT ∧ inq_cap mc <= 2 * INRUN_HARD_LIMIT.

(** C22: no client makes the server's memory grow without bound: in every state
    the server reaches, whatever its clients and its program send or fail to
    read, there are eight slots, each client's unsent output is within the hard
    limit and its allocation within twice that, and an open input run is within
    4 MiB; a slot that is free holds nothing of the client it had. *)
Theorem queues_bounded st : session st →
  length (clients st) = 8%nat ∧ Forall bounded (clients st) ∧
  Forall (λ mc, live mc = false → outq mc = [] ∧ inq mc = [] ∧ inrun mc = false ∧ paused mc = false) (clients st).
Proof.
  intros [Hst _]%session_sound. split_and!; [apply Hst | |]; apply Forall_lookup_2; intros i mc Hmc; destruct (wf_slot_at _ _ _ Hst Hmc) as [Hw Hc].
  - pose proof Hw as []. unfold bounded. repeat split; try lia. unfold mclient_pending. lia.
  - intros Hv. destruct (Hc Hv) as (? & ? & ? & ? & ? & ? & ?). done.
Qed.

(** ** Who reaches the program *)

Definition stored st := (attr_file st, entries (attrs st), next_gen (attrs st)).

Lemma others_stored st st' : others st' = others st → stored st' = stored st.
Proof. unfold others, stored. by intros [= _ _ -> -> -> _ _ _ _ _ _ _]. Qed.

(** Who changes what the server writes to the PTY and keeps in the store. *)
Lemma inputs_from_writers st ev st' :
  sound st → event_ok ev → handle ev st = Some st' → inputs st' ≠ inputs st →
  ∃ i events mc, ev = EvClient i events ∧ clients st !! i = Some mc ∧ live mc = true ∧
    (role mc = IPC_ROLE_WRITE ∨ has_bits (flags mc) IPC_ATTACH_F_INJECT = true ∧ stored st' = stored st).
Proof.
  intros [Hst Hfit] Hev E Hne. destruct ev as [new_fd s peer|i events|data|reaped| |e|multi]; cbn [handle event_ok] in *.
  - pose proof (new_client_ok st new_fd s peer Hst Hfit Hev) as H. rewrite E in H. by destruct Hne, H.
  - destruct (clients st !! i) as [mc|] eqn:Hmc; [| congruence]. destruct (live mc) eqn:Hv; [| congruence].
    exists i, events, mc. split_and!; try done. pose proof (client_read_ok i st mc events Hst Hmc Hv) as H. rewrite E in H. destruct H as (_ & _ & H).
    destruct (decide (role mc = IPC_ROLE_WRITE)) as [|Hr]; [by left | right]. destruct (H Hr) as [Ho Hrest].
    destruct (has_bits (flags mc) IPC_ATTACH_F_INJECT); [split; [done | by apply others_stored] |]. destruct Hne. by apply rest_inputs, Hrest.
  - destruct data as [|b data]; [injection E as <-; done |]. pose proof (master_ok st (b :: data) Hst Hev ltac:(done)) as H. rewrite E in H. by destruct Hne, H.
  - injection E as <-. unfold on_sigchld in Hne. by destruct (existsb id reaped).
  - by injection E as <-.
  - by injection E as <-.
  - by injection E as <-.
Qed.

(** The window answers the program's output and nothing else. *)
Lemma answers_to_output st ev st' :
  sound st → event_ok ev → handle ev st = Some st' → win_answers (win st') ≠ win_answers (win st) → ∃ data, ev = EvMaster data.
Proof.
  intros [Hst Hfit] Hev E Hne. destruct ev as [new_fd s peer|i events|data|reaped| |e|multi]; cbn [handle event_ok] in *; [| | by exists data | ..].
  - pose proof (new_client_ok st new_fd s peer Hst Hfit Hev) as H. rewrite E in H. by destruct Hne, H.
  - destruct (clients st !! i) as [mc|] eqn:Hmc; [| congruence]. destruct (live mc) eqn:Hv; [| congruence].
    pose proof (client_read_ok i st mc events Hst Hmc Hv) as H. rewrite E in H. destruct H as ([l Ha] & _). by destruct Hne, Ha.
  - injection E as <-. unfold on_sigchld in Hne. by destruct (existsb id reaped).
  - by injection E as <-.
  - by injection E as <-.
  - by injection E as <-.
Qed.

(** ** What a client sees of the program *)

Lemma seen_refl j st st' : clients st' = clients st → seen j [] st st'.
Proof. intros Hc mc Hj _. exists mc. rewrite Hc. split; [done |]. intros _. by rewrite app_nil_r. Qed.

(** Handing a client what its socket takes. *)
Lemma write_event_seen st j mc events : wf st → clients st !! j = Some mc → live mc = true → has_bits events IOX_READ = false →
  yields (on_client_read st j events) (λ st', ∃ ms, (∃ mc', clients st' !! j = Some mc' ∧ (live mc' = true → mc_id mc' = mc_id mc ∧ outbound mc' = outbound mc ++ frames ms)) ∧ outputs ms = []).
Proof.
  intros Hst Hmc Hv Hr. pose proof (slot_lt st j Hst (ex_intro _ mc (conj Hmc Hv))) as Hlt. unfold on_client_read. rewrite Hr.
  destruct (has_bits events IOX_WRITE).
  - eapply yields_seq.
    + eapply yields_seq; [by apply flush_served |]. intros st1 (l & Ha & _ & _ & Hb & Hs). destruct (slot_at st1 j (ac_wf _ _ _ _ Ha) Hlt) as [mc1 Hmc1].
      rewrite Hmc1. cbn [mbind option_bind]. instantiate (1 := λ x, ∃ l, acts j l st x.2 ∧ background l ∧ (stays st x.2 j ∨ dead_at x.2 j)). by exists l.
    + intros [gone st1] (l & Ha & Hb & Hs). cbn [negb fst snd] in *.
      enough (∃ ms, (∃ mc', clients st1 !! j = Some mc' ∧ (live mc' = true → mc_id mc' = mc_id mc ∧ outbound mc' = outbound mc ++ frames ms)) ∧ outputs ms = []) by (by destruct gone).
      exists (to_client j l). split; [| by apply outputs_background, background_to_client].
      destruct (ac_clients _ _ _ _ Ha j mc Hmc) as (mc' & Hj' & Hc). exists mc'. split; [done |]. intros Hv'. split; [| by apply Hc].
      destruct Hs as [(mc0 & mc2 & E0 & E2 & _ & _ & Eid)|Hd]; [congruence |]. by rewrite (Hd mc' Hj') in Hv'.
  - cbn. exists []. split; [| done]. exists mc. split; [done |]. intros _. by rewrite app_nil_r.
Qed.

(** The event reads nothing from client [j]. *)
Definition unread (j : nat) (ev : event) : Prop := match ev with EvClient i events => i = j → has_bits events IOX_READ = false | _ => True end.

(** What the program says in an event. *)
Definition said (ev : event) : list (list Z) := match ev with EvMaster (b :: data) => [b :: data] | _ => [] end.

Lemma event_seen j ev st st' : sound st → event_ok ev → unread j ev → handle ev st = Some st' →
  ∃ ms, outputs ms = said ev ∧ ∀ mc mc', clients st !! j = Some mc → live mc = true → clients st' !! j = Some mc' → live mc' = true →
    mc_id mc' = mc_id mc ∧ outbound mc' = outbound mc ++ frames ms.
Proof.
  intros [Hst Hfit] Hev Hun E.
  assert (∀ ms, seen j ms st st' → ∀ mc mc', clients st !! j = Some mc → live mc = true → clients st' !! j = Some mc' → live mc' = true →
    mc_id mc' = mc_id mc ∧ outbound mc' = outbound mc ++ frames ms) as Hseen.
  { intros ms H mc mc' Hmc Hv Hmc' Hv'. destruct (H mc Hmc Hv) as (mc2 & Hmc2 & Hc). rewrite Hmc' in Hmc2. injection Hmc2 as <-. by apply Hc. }
  assert (clients st' = clients st → ∃ ms, outputs ms = [] ∧ ∀ mc mc', clients st !! j = Some mc → live mc = true → clients st' !! j = Some mc' →
    live mc' = true → mc_id mc' = mc_id mc ∧ outbound mc' = outbound mc ++ frames ms) as Hsame by (intros Hc; exists []; split; [done | by apply Hseen, seen_refl]).
  destruct ev as [new_fd s peer|i events|data|reaped| |e|multi]; cbn [handle event_ok said unread] in *.
  - pose proof (new_client_ok st new_fd s peer Hst Hfit Hev) as H. rewrite E in H. destruct (ap_seen _ _ H j) as (ms & Hs & Ho).
    exists ms. split; [done | by apply Hseen].
  - destruct (clients st !! i) as [mc|] eqn:Hmc; [| injection E as <-; by apply Hsame]. destruct (live mc) eqn:Hv; [| injection E as <-; by apply Hsame].
    destruct (decide (i = j)) as [->|Hne].
    + pose proof (write_event_seen st j mc events Hst Hmc Hv (Hun eq_refl)) as H. rewrite E in H. destruct H as (ms & (mc' & Hmc' & Hc) & Ho).
      exists ms. split; [done |]. intros mc0 mc1 Hmc0 _ Hmc1 Hv1. rewrite Hmc in Hmc0. injection Hmc0 as <-. rewrite Hmc' in Hmc1. injection Hmc1 as <-. by apply Hc.
    + pose proof (client_read_ok i st mc events Hst Hmc Hv) as H. rewrite E in H. destruct H as ([l Ha] & _).
      destruct (acts_seen _ _ _ _ j Ha (not_eq_sym Hne)) as [Hs Ho]. exists (to_client j l). split; [done | by apply Hseen].
  - destruct data as [|b data]; [injection E as <-; by apply Hsame |]. pose proof (master_ok st (b :: data) Hst Hev ltac:(done)) as H. rewrite E in H.
    destruct (mp_seen _ _ _ H j) as (ms & Hs & Ho). exists ms. split; [done | by apply Hseen].
  - injection E as <-. apply Hsame. unfold on_sigchld. by destruct (existsb id reaped).
  - injection E as <-. by apply Hsame.
  - injection E as <-. by apply Hsame.
  - injection E as <-. by apply Hsame.
Qed.

(** A run during which client [j] stays and sends nothing. *)
Inductive listens (j : nat) : list event → srv W → srv W → Prop :=
  | listens_nil st : live_at st j → listens j [] st st
  | listens_cons ev evs st st1 st2 : live_at st j → event_ok ev → unread j ev → handle ev st = Some st1 → listens j evs st1 st2 →
      listens j (ev :: evs) st st2.

Lemma listens_live j evs st st' : listens j evs st st' → live_at st j.
Proof. by destruct 1. Qed.

(** C17: a client that stays connected and only listens is sent every chunk of the
    program's output, whole, once and in order, and no other output, whatever
    the other clients do meanwhile; what lies in between are notices of other
    types.  What is on its way to it (sent or still queued) grows by exactly the
    frames of those messages. *)
Theorem output_reaches_listeners j evs st st' mc mc' :
  session st → listens j evs st st' → clients st !! j = Some mc → clients st' !! j = Some mc' →
  ∃ ms, outbound mc' = outbound mc ++ frames ms ∧ outputs ms = concat (map said evs).
Proof.
  intros Hst Hl. revert mc Hst. induction Hl as [st (mc0 & Hmc0 & Hv)|ev evs st st1 st2 (mc0 & Hmc0 & Hv) Hev Hun E Hl IH]; intros mc Hst Hmc Hmc'.
  - rewrite Hmc in Hmc'. injection Hmc' as <-. exists []. by rewrite app_nil_r.
  - rewrite Hmc in Hmc0. injection Hmc0 as <-. destruct (event_seen j ev st st1 (session_sound _ Hst) Hev Hun E) as (ms & Ho & Hc).
    destruct (listens_live _ _ _ _ Hl) as (mc1 & Hmc1 & Hv1). destruct (IH mc1) as (ms2 & Hb & Ho2); [by eapply session_event | done | done |].
    exists (ms ++ ms2). split; [by rewrite Hb, (proj2 (Hc mc mc1 Hmc Hv Hmc1 Hv1)), frames_app, <- app_assoc |]. rewrite outputs_app, Ho, Ho2. done.
Qed.

(** ** A bracketed input run *)

(** What [write] took of [data]. *)
Lemma write_loop_prefix evs : ∀ data, (write_loop evs data).1 `prefix_of` data.
Proof.
  induction evs as [|e evs IH]; intros data; cbn [write_loop]; destruct (_ <=? 0); try apply prefix_nil.
  destruct e as [| |n]; [apply IH | apply prefix_nil |].
  specialize (IH (drop (Z.to_nat n) data)). destruct (write_loop evs (drop (Z.to_nat n) data)) as [more evs']. cbn [fst] in *.
  rewrite <- (take_drop (Z.to_nat n) data) at 2. by apply prefix_app.
Qed.

(** While client [j] sends the chunks of a run, anything else may happen. *)
Inductive typing (j : nat) : list (list Z) → srv W → srv W → Prop :=
  | typing_done st : live_at st j → typing j [] st st
  | typing_other chunks ev st st1 st2 : live_at st j → event_ok ev → unread j ev → handle ev st = Some st1 →
      typing j chunks st1 st2 → typing j chunks st st2
  | typing_chunk chunks buf len st st1 st2 : live_at st j → client_msg st j IPC_MSG_INPUT buf len = Some st1 →
      typing j chunks st1 st2 → typing j (take (Z.to_nat len) buf :: chunks) st st2.

(** Client [j] has the run [data] open. *)
Definition run_open st (j : nat) (data : list Z) : Prop := ∃ mc, clients st !! j = Some mc ∧ live mc = true ∧ inrun mc = true ∧ inq mc = data.

Lemma typing_live j chunks st st' : typing j chunks st st' → live_at st j.
Proof. by destruct 1. Qed.

(** A chunk goes to the run, not to the program. *)
Lemma chunk_appends st j data buf len : sound st → run_open st j data →
  yields (client_msg st j IPC_MSG_INPUT buf len) (λ st', sound st' ∧ inputs st' = inputs st ∧ (live_at st' j → run_open st' j (data ++ take (Z.to_nat len) buf))).
Proof.
  intros [Hst Hfit] (mc & Hmc & Hv & Hr & Hq). unfold client_msg. rewrite Hmc. cbn [mbind option_bind].
  rewrite Z.eqb_refl, Hr. pose proof (inq_append_calm j st (take (Z.to_nat len) buf) mc Hst Hmc Hv) as H.
  destruct (mclient_inq_append _ _ _) as [[rc st']|]; [| done]. cbn [yields fst snd] in *. change (snd <$> Some (rc, st')) with (Some st'). cbn [yields].
  destruct H as [[[[l Ha] _] E] H]. split; [split; [apply Ha | by apply (ac_fitted _ _ _ _ Ha)] |]. split; [by apply rest_inputs |].
  intros (mc1 & Hmc1 & Hv1). destruct H as [[_ Hd]|[_ (mc' & Hmc' & E1 & E2 & E3)]]; [by rewrite (Hd mc1 Hmc1) in Hv1 |].
  exists mc'. split_and!; congruence.
Qed.

Lemma typing_collects j chunks st st' : typing j chunks st st' → ∀ data, sound st → run_open st j data → sound st' ∧ run_open st' j (data ++ concat chunks).
Proof.
  induction 1 as [st Hl|chunks ev st st1 st2 Hl Hev Hun E Ht IH|chunks buf len st st1 st2 Hl E Ht IH]; intros data Hs Ho.
  - by rewrite app_nil_r.
  - pose proof (handle_ok ev st Hs Hev) as Hs1. rewrite E in Hs1. apply IH; [done |]. destruct (event_seen j ev st st1 Hs Hev Hun E) as (ms & _ & Hc).
    destruct Ho as (mc & Hmc & Hv & Hr & Hq). destruct (typing_live _ _ _ _ Ht) as (mc1 & Hmc1 & Hv1). destruct (Hc mc mc1 Hmc Hv Hmc1 Hv1) as [Eid _].
    exists mc1. pose proof (f_equal inrun Eid) as E1. pose proof (f_equal inq Eid) as E2. cbn in E1, E2. split_and!; congruence.
  - pose proof (chunk_appends st j data buf len Hs Ho) as H. rewrite E in H. destruct H as (Hs1 & _ & Ho1).
    cbn [concat]. rewrite app_assoc. apply IH; [done |]. apply Ho1. by eapply typing_live.
Qed.


(** ** The window's size *)

(** A client whose size counts. *)
Definition voter (mc : mclient) : bool := negb (has_bits (flags mc) IPC_ATTACH_F_SIZE_OBSERVE) && negb ((rows mc =? 0) || (cols mc =? 0)).
Definition voters st : list mclient := List.filter voter (live_clients st).

Definition lesser (r x : Z) : Z := if (r =? 0) || (x <? r) then x else r.

Lemma fit_voters l : ∀ r c pw ph, ∃ pw' ph',
  foldl fit_one (r, c, pw, ph) l = (foldl lesser r (rows <$> List.filter voter l), foldl lesser c (cols <$> List.filter voter l), pw', ph').
Proof.
  induction l as [|mc l IH]; intros r c pw ph; [by exists pw, ph |]. cbn [foldl List.filter].
  destruct (voter mc) eqn:Ev; unfold voter in Ev; unfold fit_one at 2; destruct (has_bits _ _); cbn [negb andb] in Ev; try done;
    destruct (_ || _); cbn [negb] in Ev; try done; try apply IH.
  rewrite !fmap_cons. cbn [foldl]. destruct (_ && _); apply IH.
Qed.

Lemma lesser_least xs : ∀ r, Forall (λ x, 0 < x) xs → 0 <= r →
  let r' := foldl lesser r xs in
  (r' = r ∨ r' ∈ xs) ∧ Forall (λ x, r' <= x) xs ∧ (0 < r → 0 < r' <= r) ∧ (xs ≠ [] → 0 < r').
Proof.
  induction xs as [|x xs IH]; intros r Hxs Hr; cbv zeta; cbn [foldl]; [split_and!; [by left | constructor | lia | done] |].
  apply Forall_cons in Hxs as [Hx Hxs]. assert (0 < lesser r x <= x ∧ (lesser r x = r ∨ lesser r x = x) ∧ (0 < r → lesser r x <= r)) as (H1 & H2 & H3).
  { unfold lesser. destruct (Z.eqb_spec r 0), (Z.ltb_spec x r); cbn [orb]; lia. }
  destruct (IH (lesser r x) Hxs ltac:(lia)) as (K1 & K2 & K3 & K4). destruct K3 as [K3 K3']; [lia |]. split_and!.
  - destruct K1 as [-> | K1]; [destruct H2 as [-> | ->]; [by left | right; left] | right; by right].
  - constructor; [lia | done].
  - intros. specialize (H3 H). lia.
  - intros _. lia.
Qed.

Lemma voters_pos st : wf st → Forall (λ mc, 0 < rows mc ∧ 0 < cols mc) (voters st).
Proof.
  intros Hst. unfold voters. apply List.Forall_forall. intros mc [Hin Hv]%List.filter_In.
  pose proof (proj1 (List.Forall_forall _ _) (live_clients_wf st Hst) mc Hin) as Hw. destruct (wc_size _ Hw).
  unfold voter in Hv. apply andb_true_iff in Hv as [_ Hv]. apply negb_true_iff, orb_false_iff in Hv as [H1 H2]. apply Z.eqb_neq in H1, H2. lia.
Qed.

(** [r] rows and [c] columns are what the smallest clients of [l] have. *)
Definition smallest (l : list mclient) (r c : Z) : Prop :=
  Forall (λ mc, r <= rows mc ∧ c <= cols mc) l ∧ (∃ mc, mc ∈ l ∧ rows mc = r) ∧ (∃ mc, mc ∈ l ∧ cols mc = c).

Lemma fitted_voters st : wf st → fitted st → voters st ≠ [] →
  ∃ r c, window_rows (win st) = Some r ∧ window_cols (win st) = Some c ∧ smallest (voters st) r c.
Proof.
  intros Hst Hfit Hne. unfold fitted, fit_of in Hfit. destruct (fit_voters (live_clients st) 0 0 0 0) as (pw & ph & E).
  rewrite E in Hfit. fold (voters st) in Hfit. pose proof (voters_pos st Hst) as Hpos.
  assert (∀ f : mclient → Z, Forall (λ mc, 0 < f mc) (voters st) → 0 < foldl lesser 0 (f <$> voters st) ∧
    Forall (λ mc, foldl lesser 0 (f <$> voters st) <= f mc) (voters st) ∧ ∃ mc, mc ∈ voters st ∧ f mc = foldl lesser 0 (f <$> voters st)) as Hleast.
  { intros f Hf. destruct (lesser_least (f <$> voters st) 0) as (K1 & K2 & _ & K4); [by apply Forall_fmap | done |].
    assert (0 < foldl lesser 0 (f <$> voters st)) as Hp by (apply K4; by destruct (voters st)). split; [done |]. split; [exact (proj1 (Forall_fmap _ _ _) K2) |].
    destruct K1 as [K1|(mc & -> & Hmc)%list_elem_of_fmap]; [lia | by exists mc]. }
  destruct (Hleast rows) as (R1 & R2 & R3); [eapply Forall_impl; [exact Hpos | by intros ? []] |].
  destruct (Hleast cols) as (C1 & C2 & C3); [eapply Forall_impl; [exact Hpos | by intros ? []] |].
  destruct (Hfit R1 C1) as [Er Ec]. eexists _, _. split_and!; [exact Er | exact Ec |]. split_and!; [by apply Forall_and | exact R3 | exact C3].
Qed.

(** C23: the window always fits its clients: in every state the server reaches, if
    any connected client has said its size and did not ask to be left out, the
    window has as many rows as the shortest of them and as many columns as the
    narrowest. *)
Theorem window_fits_clients st : session st → voters st ≠ [] →
  ∃ r c, window_rows (win st) = Some r ∧ window_cols (win st) = Some c ∧
    Forall (λ mc, r <= rows mc ∧ c <= cols mc) (voters st) ∧
    (∃ mc, mc ∈ voters st ∧ rows mc = r) ∧ (∃ mc, mc ∈ voters st ∧ cols mc = c).
Proof.
  intros [Hst Hfit]%session_sound Hne. destruct (fitted_voters st Hst Hfit Hne) as (r & c & H1 & H2 & H3). by exists r, c.
Qed.

(** ** The keyboard *)


(** ** Reading the PTY *)

(** The PTY is watched unless there are clients and all of them are blocked. *)
Definition reads_follow st : Prop :=
  master_watch st = if bool_decide (live_clients st ≠ [] ∧ Forall (λ mc, blocked mc = true) (live_clients st)) then 0 else IOX_READ.

Lemma flow_reads st : flow_ok st ↔ reads_follow st.
Proof.
  unfold flow_ok, reads_follow, update_master_interest. cbn [master_watch].
  assert ((0 <? zlen (live_clients st)) && (zlen (List.filter blocked (live_clients st)) =? zlen (live_clients st)) =
    bool_decide (live_clients st ≠ [] ∧ Forall (λ mc, blocked mc = true) (live_clients st))) as ->; [| split; congruence].
  generalize (live_clients st) as l. intros l. apply eq_true_iff_eq. rewrite bool_decide_eq_true, andb_true_iff, Z.ltb_lt, Z.eqb_eq.
  assert (zlen (List.filter blocked l) = zlen l ↔ Forall (λ mc, blocked mc = true) l) as ->.
  { unfold zlen. rewrite Nat2Z.inj_iff. induction l as [|a l IH]; [by split |]. cbn [List.filter]. rewrite Forall_cons.
    pose proof (filter_length_le blocked l). destruct (blocked a); cbn [length]; [rewrite <- IH; intuition lia | split; [lia | by intros []]]. }
  destruct l; unfold zlen; cbn [length]; split; intros []; (split; [first [done | lia] | done]).
Qed.

(** C25: reading the program follows the clients: whatever a client or the program
    sends, the PTY is read afterwards exactly if nobody is there or somebody can
    take its output (it neither asked for a pause nor has a full queue), provided
    that was so before; only accepting a client can break this. *)
Theorem reads_follow_clients st ev st' : session st → event_ok ev → (∀ new_fd s peer, ev ≠ EvAccept new_fd s peer) →
  handle ev st = Some st' → reads_follow st → reads_follow st'.
Proof.
  intros [Hst Hfit]%session_sound Hev Hacc E. rewrite <- !flow_reads. intros Hf.
  destruct ev as [new_fd s peer|i events|data|reaped| |e|multi]; cbn [handle event_ok] in *; try (by injection E as <-).
  - by destruct (Hacc new_fd s peer).
  - destruct (clients st !! i) as [mc|] eqn:Hmc; [| congruence]. destruct (live mc) eqn:Hv; [| congruence].
    pose proof (client_read_ok i st mc events Hst Hmc Hv) as H. rewrite E in H. destruct H as ([l Ha] & _). by apply (ac_flow _ _ _ _ Ha).
  - destruct data as [|b data]; [by injection E as <- |]. pose proof (master_ok st (b :: data) Hst Hev ltac:(done)) as H. rewrite E in H. by apply (mp_flow _ _ _ H).
  - injection E as <-. unfold on_sigchld. by destruct (existsb id reaped).
Qed.
End Sessions.

(** ** The whole server *)

Section Whole.
Context (tbl : rune_width_table) (read_head : list Z → option (list Z)) `{HT : !Tunables}.

(** [server()]: a window of 24 rows and 80 columns on the PTY [fd] with the child
    [pid], the attributes loaded, the events of the loop, and the clean-up that
    disconnects who is left.  The rest is what the system answers. *)
Definition server (fd pid own : Z) (file : opened) (path_len : Z) (d : disk) (pty : list wr) (times : list Z) (reallocs : list bool)
    (evs : list event) : option (srv window) :=
  w ← window_new fd pid 24 80;
  st ← @server_init window w own file path_len d pty times reallocs;
  st ← @run window (vt_window tbl read_head) HT evs st;
  @disconnect_all window (vt_window tbl read_head) HT st.

(** C3: the server always ends well: whatever its clients send, in whatever order
    they come, read, stall or fail, whatever the program prints, whatever memory,
    the clock and the system's calls answer, no handler traps or runs for ever
    (a message that cannot be queued drops its client, which is announced to the
    others, which may be dropped in turn, and so on): every sequence of events is
    handled to its end, and the clean-up leaves no client connected. *)
Theorem server_runs_to_end fd pid own file path_len d pty times reallocs evs :
  WidthTable tbl → TunablesOk → 0 <= fd → opened_bytes file → Forall event_ok evs →
  ∃ st, server fd pid own file path_len d pty times reallocs evs = Some st ∧ live_clients st = [].
Proof.
  intros Htbl HTO Hfd Hfile Hev. unfold server.
  pose proof (window_new_ok fd pid 24 80 Hfd ltac:(unfold DIM_MAX; lia) ltac:(unfold DIM_MAX; lia)) as Hw.
  destruct (window_new fd pid 24 80) as [w|]; [| done]. cbn [yields mbind option_bind] in *.
  pose proof (@server_init_ok window _ HT (vt_window_laws tbl read_head) HTO w own file path_len d pty times reallocs Hw Hfile) as Hi.
  destruct (server_init w own file path_len d pty times reallocs) as [st0|]; [| done]. destruct Hi as [Hs0 _]. cbn [mbind option_bind].
  pose proof (@run_ok window _ HT (vt_window_laws tbl read_head) HTO evs st0 Hs0 Hev) as Hr. destruct (run evs st0) as [st1|]; [| done]. destruct Hr as [Hw1 _]. cbn [mbind option_bind].
  pose proof (@disconnect_from_ok window _ HT (vt_window_laws tbl read_head) HTO MCLIENT_MAX 0 st1 Hw1 eq_refl ltac:(intros; lia)) as Hd. unfold disconnect_all.
  destruct (disconnect_from MCLIENT_MAX 0 st1) as [st2|]; [| done]. destruct Hd as [Hw2 Hd]. exists st2. split; [done |].
  unfold live_clients. destruct (List.filter live (clients st2)) as [|mc l] eqn:E; [done |]. exfalso.
  assert (In mc (List.filter live (clients st2))) as [Hin Hv]%List.filter_In by (rewrite E; by left).
  apply list_elem_of_In, list_elem_of_lookup in Hin as [j Hj]. pose proof (lookup_lt_Some _ _ _ Hj) as Hlt. rewrite (wf_len _ Hw2) in Hlt.
  by rewrite (Hd j Hlt mc Hj) in Hv.
Qed.

(** A newcomer's slot starts with what its connection has sent. *)
Lemma alloc_out (st : srv window) new_fd sk i st0 `{!Window window, !WindowLaws window} : wf st → mclient_alloc st new_fd sk = Some (i, st0) →
  ∀ mc, clients st0 !! i = Some mc → outbound mc = c_sent (sk_conn sk).
Proof.
  intros Hst Ea mc Hmc. unfold mclient_alloc in Ea. pose proof (find_slot_ok (λ mc, negb (live mc)) (clients st)) as Hfs.
  destruct (find_slot _ _) as [k|]; [| done]. cbn in Ea. injection Ea as <- <-. destruct Hfs as (mc0 & Hk & Hd%negb_true_iff & _).
  erewrite upd_at in Hmc by done. injection Hmc as <-. destruct (wf_slot_at _ _ _ Hst Hk) as [_ Hcl]. destruct (Hcl Hd) as (Eq & Eoff & _).
  unfold outbound. cbn. by rewrite Eq, drop_nil, app_nil_r.
Qed.

(** C16: only who holds the keyboard reaches the program and the session's
    attributes.  The program reads what the server writes to the PTY and what
    the terminal answers there ([vt_reply], for the cursor position and the
    like).  An event that changes what the server wrote to the PTY or what is
    committed to the attribute store is a message of a connected client that is a
    writer, or of one allowed to inject input, and then the attributes are as
    they were; and the terminal answers only while it is fed the program's own
    output, so no client's message makes it write. *)
Theorem only_writers_reach_the_program (st : srv window) ev st' (Htbl : WidthTable tbl) (HTO : TunablesOk) :
  @session window (vt_window tbl read_head) HT (vt_window_laws tbl read_head) st → event_ok ev →
  @handle window (vt_window tbl read_head) HT ev st = Some st' →
  (inputs st' ≠ inputs st →
   ∃ i events mc, ev = EvClient i events ∧ clients st !! i = Some mc ∧ live mc = true ∧
     (role mc = IPC_ROLE_WRITE ∨ has_bits (flags mc) IPC_ATTACH_F_INJECT = true ∧ stored st' = stored st)) ∧
  (reply_out (vt (win st')) ≠ reply_out (vt (win st)) → ∃ data, ev = EvMaster data).
Proof.
  intros Hses Hev E. pose proof (@session_sound window _ HT (vt_window_laws tbl read_head) HTO st Hses) as Hs. split.
  - by apply (@inputs_from_writers window _ HT (vt_window_laws tbl read_head) HTO).
  - by apply (@answers_to_output window _ HT (vt_window_laws tbl read_head) HTO).
Qed.

(** C4: a client that attaches sees what the window shows: from any state of the
    server, if an ATTACH message comes on a new connection, there is a free slot
    and the client is not dropped on the way, then with the newcomer's record
    taken over ([attach_record]) the window has the size of the smallest of the
    clients that vote on it, counting the newcomer ([resize_to_fit]); it is sent
    that size and, in pieces of at most 32768 bytes and with no other output among
    them, the dump of that very window.  A terminal of that size, without insert
    or origin mode and with ASCII in use, that plays these pieces has in every row
    the cells the server's terminal has, with the same cursor (a pending wrap
    aside), screen and, where one is sent, title.  That is for a screen laid out as
    printing leaves it: cells of the width the table gives them, each wide one
    followed by its continuation, styles without undercurl of at most sixteen
    parameters; and for a printable title and keyboard flags the parser can carry.
    What happens to other screens is [dump_replay_limits]. *)
Theorem attach_shows_screen (st st0 st' : srv window) new_fd s r c i on_dcs (Htbl : WidthTable tbl) (HTO : TunablesOk) :
  @session window (vt_window tbl read_head) HT (vt_window_laws tbl read_head) st →
  0 <= new_fd → byte_schedule (c_rd (sk_conn s)) →
  ipc_msg_recv (sk_conn s) (replicate 256 0) 256 = Some (r, c) → r_rc r = 0 → r_type r = Some IPC_MSG_ATTACH →
  mclient_alloc st new_fd (mk_sock c (sk_send s)) = Some (i, st0) →
  @on_new_client window (vt_window tbl read_head) HT st new_fd s (Some (uid st)) = Some st' → live_at st' i →
  ∃ len st2 mc' ms R C, r_len r = Some len ∧
    @attach_record window (vt_window tbl read_head) HT (upd st0 i (λ mc, {| mc with watch := Some IOX_READ |})) i (r_buf r) len = Some st2 ∧
    rtc (@resized window (vt_window tbl read_head)) (win st) (win st2) ∧
    wf_state R C (vt (win st2)) ∧ (voters st2 ≠ [] → smallest (voters st2) R C) ∧
    clients st' !! i = Some mc' ∧ outbound mc' = c_sent (sk_conn s) ++ frames ms ∧
    @greeting window (vt_window tbl read_head) (win st2) ms ∧
    ∀ cl, let w := win st2 in client R C cl → R <= PARAM_MAX → C < PARAM_MAX →
      (∀ row cs, row_cells (vt w) row = Some cs → laid_out tbl cs) → title_ok (title (vt w)) → keys_exact (vt w) →
      ∃ cl', plays tbl on_dcs cl (concat (outputs ms)) cl' ∧ (∀ row, row_cells cl' row = row_cells (vt w) row) ∧
        cursor_row cl' = cursor_row (vt w) ∧ cursor_col cl' = Z.min (cursor_col (vt w)) (C - 1) ∧
        title cl' = title_after (title (vt w)) (title cl) ∧
        has_bits (modes cl') VT_MODE_ALTSCREEN = has_bits (modes (vt w)) VT_MODE_ALTSCREEN.
Proof.
  intros Hses Hfd Hs Er Erc Ety Ea E Hl.
  pose proof (@session_sound window _ HT (vt_window_laws tbl read_head) HTO st Hses) as [Hst Hfit].
  pose proof (ipc_msg_recv_any (sk_conn s) (replicate 256 0) 256 Hs ltac:(by apply Forall_replicate) ltac:(lia) ltac:(by vm_compute)) as Hr.
  rewrite Er in Hr. cbn [yields fst snd] in Hr. destruct Hr as (_ & Hz & Hbuf & (_ & Esent & Hc) & Hok).
  assert (zlen (replicate 256 0) = 256) as Hz256 by (by vm_compute).
  destruct (Hok Erc) as (ty & len & _ & _ & Elen & Hlen).
  unfold on_new_client in E. rewrite (proj2 (Z.ltb_ge new_fd 0)) in E by done. rewrite bool_decide_eq_true_2 in E by done. cbn [negb] in E.
  rewrite Er in E. cbn [mbind option_bind] in E. rewrite Erc, Z.eqb_refl in E. cbn [negb] in E. rewrite Ety, Elen in E. cbn [mbind option_bind] in E.
  rewrite Z.eqb_refl in E. cbn [negb] in E. rewrite Ea in E.
  destruct (@alloc_ok window _ HT (vt_window_laws tbl read_head) st new_fd (mk_sock c (sk_send s)) i st0 Hst Hfd Hc Ea) as (Hst0 & Hl0 & _ & _ & _ & Hf).
  pose proof (@attach_greets window _ HT (vt_window_laws tbl read_head) HTO i st0 (r_buf r) len Hst0 Hl0 Hbuf ltac:(lia) (Hf Hfit)) as Hg.
  rewrite E in Hg. destruct (Hg Hl) as (st2 & mc & mc' & ms & Erec & Hst2 & Hfit2 & Hw & Hmc & Hmc' & Hout & Hgr).
  rewrite (alloc_out _ _ _ _ _ Hst Ea _ Hmc) in Hout. rewrite (alloc_win _ _ _ _ _ Ea) in Hw.
  destruct (wf_win _ Hst2) as (R & C & Hp & Hwf & _).
  exists len, st2, mc', ms, R, C. rewrite Hout. cbn [sk_conn]. rewrite Esent. split_and!; try done.
  - intros Hne. destruct (@fitted_voters window _ HT (vt_window_laws tbl read_head) st2 Hst2 Hfit2 Hne) as (R' & C' & HR & HC & Hsm).
    destruct (cur_size _ _ _ Hwf) as [HR2 HC2]. cbn in HR, HC. congruence.
  - intros cl Hcl HR HC Hlay Ht Hk.
    destruct (dump_replay tbl on_dcs R C cl (vt (win st2)) Hcl Hwf HR HC Hlay Ht Hk) as (out & cl' & Ed & Hpl & _ & Hrows & Hrow & Hcol & Htit & Hm & _).
    pose proof (greeting_outputs _ _ Hgr) as Hd. assert (out = concat (outputs ms)) as -> by (change (window_dump (win st2)) with (vt_state_dump (vt (win st2))) in Hd; congruence).
    exists cl'. by split_and!.
Qed.
End Whole.

(** ** Concrete sessions *)

#[local] Existing Instance default_tunables.

#[export] Instance default_ok : TunablesOk.
Proof. constructor. by vm_compute. Qed.

#[export] Instance demo_table : WidthTable table_15_1_0.
Proof. builtin_table. Qed.

Definition no_files (path : list Z) : option (list Z) := None.
#[export] Instance demo_vt : Window window := vt_window table_15_1_0 no_files.
#[export] Instance demo_laws : WindowLaws window := vt_window_laws table_15_1_0 no_files.

Definition demo_window : window := default (mk_window 0 0 0 0 0 zero_state vt_parse_new None (mk_winsize 0 0 0 0)) (window_new 3 4 5 10).

(** A session for the user 1000 whose PTY takes 100 bytes at a time. *)
Definition demo_start : option (srv window) := server_init demo_window 1000 Missing 10 (mk_disk id true true true) (replicate 9 (WTook 100)) [1] [].
Definition demo (evs : list event) : option (srv window) := st ← demo_start; run evs st.

(** An ATTACH message, and a socket that the bytes [bs] come from. *)
Definition attach_msg (fl id r c : Z) (nm : list Z) : list Z := frame IPC_MSG_ATTACH (wire (mk_ipc_attach r c fl id (Some nm) (zlen nm) 10 20)).
Definition demo_sock (bs : list Z) (sends : list nbsend) : sock := mk_sock (mk_conn [RData bs] [] []) sends.
Definition joins (new_fd fl : Z) (more : list Z) (sends : list nbsend) : event :=
  EvAccept new_fd (demo_sock (attach_msg fl new_fd 6 12 (str "x") ++ more) sends) (Some 1000).
Definition reads : Z := IOX_READ.

Lemma demo_window_ok : win_ok demo_window.
Proof.
  pose proof (window_new_ok 3 4 5 10 ltac:(done) ltac:(unfold DIM_MAX; lia) ltac:(unfold DIM_MAX; lia)) as H. unfold demo_window.
  destruct (window_new 3 4 5 10); [exact H | done].
Qed.

Lemma demo_session evs st : Forall event_ok evs → demo evs = Some st → session st.
Proof.
  unfold demo. destruct demo_start as [st0|] eqn:E; [| done]. cbn [mbind option_bind]. intros Hev Hr.
  apply (session_run evs st0); [| done | done]. unfold demo_start in E. eapply session_init; [exact demo_window_ok | | exact E]. done.
Qed.

(** Are all the bytes of these events bytes? *)
Definition event_okb (ev : event) : bool :=
  match ev with
  | EvAccept _ s _ => forallb (λ e, match e with RData bs => forallb (λ b, (0 <=? b) && (b <? 256)) bs | _ => true end) (c_rd (sk_conn s))
  | EvMaster data => forallb (λ b, (0 <=? b) && (b <? 256)) data
  | _ => true
  end.

Lemma event_okb_ok evs : forallb event_okb evs = true → Forall event_ok evs.
Proof.
  intros H. rewrite forallb_forall in H. apply List.Forall_forall. intros ev Hev. specialize (H ev Hev).
  destruct ev; try done; cbn in *; [| by apply bytes_ok]. apply List.Forall_forall. intros e He. rewrite forallb_forall in H.
  specialize (H e He). destruct e; try done. by apply bytes_ok.
Qed.

(** The state after a demo session. *)
Definition demo_none : srv window := mk_srv [] demo_window 0 [] [] attr_store_init 0 (mk_disk id true true true) None 0 None false [] [] 0 false None 0 [].
Definition demo_at (evs : list event) : srv window := default demo_none (demo evs).

(** A computation that was carried out, and a test of its result; a concrete
    session is evaluated once for all that is read off it. *)
Lemma ran {A} (d : A) (o : option A) (P : A → bool) :
  (if o is Some x then P x else false) = true → o = Some (default d o) ∧ P (default d o) = true.
Proof. by destruct o. Qed.

Lemma demo_ran evs (P : srv window → bool) :
  forallb event_okb evs = true → (if demo evs is Some st then P st else false) = true →
  demo evs = Some (demo_at evs) ∧ session (demo_at evs) ∧ P (demo_at evs) = true.
Proof.
  intros H%event_okb_ok [Hd HP]%(ran demo_none). split_and!; [done | | done]. by apply (demo_session evs).
Qed.

Definition live_atb (st : srv window) (i : nat) : bool := match clients st !! i with Some mc => live mc | None => false end.

Lemma live_atb_ok st i : live_atb st i = true → live_at st i.
Proof. unfold live_atb, live_at. destruct (clients st !! i) as [mc|]; [by exists mc | done]. Qed.

Lemma live_atb_some st i : live_atb st i = true → clients st !! i = Some (default mclient_free (clients st !! i)).
Proof. unfold live_atb. by destruct (clients st !! i). Qed.

(** [listens] and [typing], evaluated. *)
Definition unreadb (j : nat) (ev : event) : bool :=
  event_okb ev && match ev with EvClient i events => negb (i =? j)%nat || negb (has_bits events IOX_READ) | _ => true end.

Lemma unreadb_ok j ev : unreadb j ev = true → event_ok ev ∧ unread j ev.
Proof.
  intros [H1 H2]%andb_true_iff. split; [by apply Forall_singleton, event_okb_ok; cbn; rewrite H1 |].
  destruct ev as [| i events | | | | |]; try done. cbn in *. intros ->. rewrite Nat.eqb_refl in H2. by apply negb_true_iff.
Qed.

Fixpoint listened (j : nat) (evs : list event) (st : srv window) : option (srv window) :=
  if live_atb st j then
    match evs with
    | [] => Some st
    | ev :: evs => if unreadb j ev then st ← handle ev st; listened j evs st else None
    end
  else None.

Lemma listened_ok j evs st st' : listened j evs st = Some st' → listens j evs st st' ∧ run evs st = Some st'.
Proof.
  revert st. induction evs as [|ev evs IH]; intros st; cbn [listened run];
    destruct (live_atb st j) eqn:El; try done; apply live_atb_ok in El.
  - intros [= ->]. split; [by constructor | done].
  - destruct (unreadb j ev) eqn:Eu; [| done]. apply unreadb_ok in Eu as [Ho Hu].
    intros (st1 & E1 & [Hl Hr]%IH)%bind_Some. rewrite E1. split; [by eapply listens_cons | exact Hr].
Qed.

Fixpoint typed (j : nat) (steps : list (list Z * Z + event)) (st : srv window) : option (srv window) :=
  if live_atb st j then
    match steps with
    | [] => Some st
    | inl (buf, len) :: steps => st ← client_msg st j IPC_MSG_INPUT buf len; typed j steps st
    | inr ev :: steps => if unreadb j ev then st ← handle ev st; typed j steps st else None
    end
  else None.

Definition chunks_of (steps : list (list Z * Z + event)) : list (list Z) :=
  omap (λ s, match s with inl (buf, len) => Some (take (Z.to_nat len) buf) | inr _ => None end) steps.

Lemma typed_ok j steps st st' : typed j steps st = Some st' → typing j (chunks_of steps) st st'.
Proof.
  revert st. induction steps as [|[[buf len]|ev] steps IH]; intros st; cbn [typed];
    destruct (live_atb st j) eqn:El; try done; apply live_atb_ok in El.
  - intros [= ->]. by constructor.
  - intros (st1 & E1 & H%IH)%bind_Some. by eapply typing_chunk.
  - destruct (unreadb j ev) eqn:Eu; [| done]. apply unreadb_ok in Eu as [Ho Hu].
    intros (st1 & E1 & H%IH)%bind_Some. by eapply typing_other.
Qed.

Definition oks : list nbsend := replicate 20 (STook 10000).

(** A writer that has typed, and a viewer that only watches. *)
Definition demo_two : list event :=
  [joins 7 0 (frame IPC_MSG_INPUT (str "ls")) oks; joins 8 IPC_ATTACH_F_VIEW (frame IPC_MSG_INPUT (str "rm")) oks; EvMaster (str "$ ")].

Ltac computes := vm_compute; reflexivity.

Lemma queues_bounded_witness : session (demo_at demo_two) ∧ length (clients (demo_at demo_two)) = 8%nat.
Proof.
  destruct (demo_ran demo_two (λ _, true)) as (_ & Hs & _); [computes | computes |].
  split; [exact Hs |]. apply (queues_bounded (demo_at demo_two) Hs).
Defined.

Lemma inputs_pty {W} (st st' : srv W) : pty_out st' ≠ pty_out st → inputs st' ≠ inputs st.
Proof. unfold inputs. congruence. Qed.

(** The writer's input reaches the program. *)
Lemma only_writers_reach_the_program_witness :
  (∃ st', handle (EvClient 0 reads) (demo_at demo_two) = Some st' ∧ pty_out st' = str "ls" ∧
   ∃ i events mc, EvClient 0 reads = EvClient i events ∧ clients (demo_at demo_two) !! i = Some mc ∧ live mc = true ∧
     (role mc = IPC_ROLE_WRITE ∨ has_bits (flags mc) IPC_ATTACH_F_INJECT = true ∧ stored st' = stored (demo_at demo_two))) ∧
  (∃ st' data, handle (EvMaster (27 :: str "[6n")) (demo_at demo_two) = Some st' ∧ reply_out (vt (win st')) = 27 :: str "[1;3R" ∧
     EvMaster (27 :: str "[6n") = EvMaster data).
Proof.
  destruct (demo_ran demo_two (λ st, (bool_decide (pty_out st = []) &&
    (if handle (EvClient 0 reads) st is Some st' then bool_decide (pty_out st' = str "ls") else false)) &&
    (bool_decide (reply_out (vt (win st)) = []) &&
    (if handle (EvMaster (27 :: str "[6n")) st is Some st' then bool_decide (reply_out (vt (win st')) = 27 :: str "[1;3R") else false))))
    as (_ & Hs & [[Eo E]%andb_true_iff [Ep Em]%andb_true_iff]%andb_true_iff); [computes | computes |].
  set (st := demo_at demo_two) in *. clearbody st.
  destruct (ran demo_none (handle (EvClient 0 reads) st) (λ st', bool_decide (pty_out st' = str "ls")) E) as [Eh Eo'].
  destruct (ran demo_none (handle (EvMaster (27 :: str "[6n")) st) (λ st', bool_decide (reply_out (vt (win st')) = 27 :: str "[1;3R")) Em) as [Eh2 Ep'].
  apply bool_decide_eq_true in Eo, Eo', Ep, Ep'. set (st' := default demo_none (handle (EvClient 0 reads) st)) in *.
  set (st2 := default demo_none (handle (EvMaster (27 :: str "[6n")) st)) in *. clearbody st' st2. split.
  - exists st'. split; [exact Eh |]. split; [exact Eo' |].
    assert (inputs st' ≠ inputs st) as Hi by (apply inputs_pty; rewrite Eo, Eo'; discriminate).
    exact (proj1 (only_writers_reach_the_program table_15_1_0 no_files st (EvClient 0 reads) st' demo_table default_ok Hs I Eh) Hi).
  - assert (Forall is_byte (27 :: str "[6n")) as Hb by (apply bytes_ok; vm_compute; reflexivity).
    destruct (proj2 (only_writers_reach_the_program table_15_1_0 no_files st (EvMaster (27 :: str "[6n")) st2 demo_table default_ok Hs Hb Eh2)) as [data Ed];
      [rewrite Ep, Ep'; discriminate |].
    exists st2, data. split_and!; [exact Eh2 | exact Ep' | exact Ed].
Defined.

(** The viewer is sent both chunks, around the notice that the writer left. *)
Lemma output_reaches_listeners_witness :
  ∃ st st' mc mc' ms, demo [joins 7 0 (frame IPC_MSG_DETACH []) oks; joins 8 IPC_ATTACH_F_VIEW [] oks] = Some st ∧
    run [EvMaster (str "one"); EvClient 0 IOX_READ; EvClient 1 IOX_WRITE; EvMaster (str "two")] st = Some st' ∧
    clients st !! 1%nat = Some mc ∧ clients st' !! 1%nat = Some mc' ∧ outbound mc' = outbound mc ++ frames ms ∧ outputs ms = [str "one"; str "two"].
Proof.
  set (joined := [_; _]). set (evs := [_; _; _; _]).
  destruct (demo_ran joined (λ st, live_atb st 1 && (if listened 1 evs st is Some st' then live_atb st' 1 else false)))
    as (E0 & Hs & [Hmc%live_atb_some E]%andb_true_iff); [computes | computes |]. set (st := demo_at joined) in *. clearbody st.
  destruct (ran demo_none (listened 1 evs st) (λ st', live_atb st' 1) E) as [[El Er]%listened_ok Hmc'%live_atb_some].
  set (st' := default demo_none (listened 1 evs st)) in *. clearbody st'.
  destruct (output_reaches_listeners 1 evs st st' _ _ Hs El Hmc Hmc') as (ms & H1 & H2).
  exists st, st'. eexists _, _, ms. split_and!; [exact E0 | exact Er | exact Hmc | exact Hmc' | exact H1 | exact H2].
Defined.


Lemma window_fits_clients_witness :
  ∃ st r c, demo demo_two = Some st ∧
    window_rows (win st) = Some r ∧ window_cols (win st) = Some c ∧ Forall (λ mc, r <= rows mc ∧ c <= cols mc) (voters st) ∧
    (∃ mc, mc ∈ voters st ∧ rows mc = r) ∧ (∃ mc, mc ∈ voters st ∧ cols mc = c).
Proof.
  destruct (demo_ran demo_two (λ st, zlen (voters st) =? 2)) as (E0 & Hs & Hv%Z.eqb_eq); [computes | computes |].
  set (st := demo_at demo_two) in *. clearbody st. exists st.
  destruct (window_fits_clients st Hs) as (r & c & H); [intros E; rewrite E in Hv; discriminate |].
  exists r, c. split; [exact E0 | exact H].
Defined.


(** The only client asks for a pause. *)
Lemma reads_follow_clients_witness :
  ∃ st st', demo [joins 7 0 (frame IPC_MSG_FLOW_CTRL [1]) oks] = Some st ∧ handle (EvClient 0 IOX_READ) st = Some st' ∧
    master_watch st = IOX_READ ∧ master_watch st' = 0 ∧ reads_follow st'.
Proof.
  set (evs := [_]). destruct (demo_ran evs
    (λ st, (master_watch st =? IOX_READ) && (master_watch (update_master_interest st) =? IOX_READ) &&
       (if handle (EvClient 0 IOX_READ) st is Some st' then master_watch st' =? 0 else false)))
    as (E0 & Hs & [[H1%Z.eqb_eq Hf%Z.eqb_eq]%andb_true_iff E]%andb_true_iff); [computes | computes |].
  set (st := demo_at evs) in *. clearbody st.
  destruct (ran demo_none (handle (EvClient 0 IOX_READ) st) (λ st', master_watch st' =? 0) E) as [E' H2%Z.eqb_eq].
  set (st' := default demo_none (handle (EvClient 0 IOX_READ) st)) in *. clearbody st'.
  exists st, st'. split_and!; [exact E0 | exact E' | exact H1 | exact H2 |].
  apply (reads_follow_clients st (EvClient 0 IOX_READ) st'); [exact Hs | exact I | discriminate | exact E' |].
  apply flow_reads. unfold flow_ok. congruence.
Defined.

Lemma server_runs_to_end_witness :
  ∃ st, server table_15_1_0 no_files 3 4 1000 Missing 10 (mk_disk id true true true) [] [1] [] demo_two = Some st ∧ live_clients st = [].
Proof.
  apply (server_runs_to_end table_15_1_0 no_files 3 4 1000 Missing 10 (mk_disk id true true true) [] [1] [] demo_two);
    [exact demo_table | exact default_ok | lia | exact I | apply event_okb_ok; vm_compute; reflexivity].
Defined.

(** A second client attaches to a session whose program has printed a prompt. *)
Lemma attach_shows_screen_witness :
  let s := demo_sock (attach_msg 0 9 6 12 (str "x")) oks in
  ∃ st st0 st' buf len st2 mc' ms R C, demo [joins 7 0 [] oks; EvMaster (str "$ ls")] = Some st ∧ on_new_client st 9 s (Some (uid st)) = Some st' ∧
    attach_record (upd st0 1 (λ mc, {| mc with watch := Some IOX_READ |})) 1 buf len = Some st2 ∧
    rtc resized (win st) (win st2) ∧ wf_state R C (vt (win st2)) ∧ (voters st2 ≠ [] → smallest (voters st2) R C) ∧
    clients st' !! 1%nat = Some mc' ∧ outbound mc' = c_sent (sk_conn s) ++ frames ms ∧ greeting (win st2) ms ∧
    ∀ cl, let w := win st2 in client R C cl → R <= PARAM_MAX → C < PARAM_MAX →
      (∀ row cs, row_cells (vt w) row = Some cs → laid_out table_15_1_0 cs) → title_ok (title (vt w)) → keys_exact (vt w) →
      ∃ cl', plays table_15_1_0 no_dcs cl (concat (outputs ms)) cl' ∧ (∀ row, row_cells cl' row = row_cells (vt w) row) ∧
        cursor_row cl' = cursor_row (vt w) ∧ cursor_col cl' = Z.min (cursor_col (vt w)) (C - 1) ∧
        title cl' = title_after (title (vt w)) (title cl) ∧
        has_bits (modes cl') VT_MODE_ALTSCREEN = has_bits (modes (vt w)) VT_MODE_ALTSCREEN.
Proof.
  intros s. set (evs := [_; _]).
  set (got := ipc_msg_recv (sk_conn s) (replicate 256 0) 256).
  set (r := default (mk_received (-1) [] None None) (fst <$> got)). set (c := default (mk_conn [] [] []) (snd <$> got)).
  assert (got = Some (r, c)) as Er by computes.
  assert (r_rc r = 0 ∧ r_type r = Some IPC_MSG_ATTACH) as [Erc Ety] by (split; computes).
  destruct (demo_ran evs
    (λ st, (if mclient_alloc st 9 (mk_sock c (sk_send s)) is Some (i, _) then (i =? 1)%nat else false) &&
       (if on_new_client st 9 s (Some (uid st)) is Some st' then live_atb st' 1 else false)))
    as (E0 & Hs & [Ea E]%andb_true_iff); [computes | computes |]. set (st := demo_at evs) in *. clearbody st.
  destruct (ran demo_none (on_new_client st 9 s (Some (uid st))) (λ st', live_atb st' 1) E) as [E' Hl%live_atb_ok].
  set (st' := default demo_none (on_new_client st 9 s (Some (uid st)))) in *. clearbody st'.
  destruct (mclient_alloc st 9 (mk_sock c (sk_send s))) as [[i st0]|] eqn:Ea'; [| discriminate]. apply Nat.eqb_eq in Ea as ->.
  assert (Forall event_ok [EvAccept 9 s None]) as Hb by (apply event_okb_ok; computes). apply Forall_inv in Hb. change (byte_schedule (c_rd (sk_conn s))) in Hb.
  subst got. clearbody r c s.
  destruct (attach_shows_screen table_15_1_0 no_files st st0 st' 9 s r c 1 no_dcs demo_table default_ok Hs ltac:(lia) Hb Er Erc Ety Ea' E' Hl)
    as (len & st2 & mc' & ms & R & C & _ & H).
  exists st, st0, st', (r_buf r), len, st2, mc', ms, R, C. split; [exact E0 | split; [exact E' | exact H]].
Defined.

(** ** Where the code falls short *)

(** C35: accepting a client does not look at the PTY again: when everybody who is
    there has asked for a pause, the program is not read; a client that attaches
    then, blocks nothing and is sent the screen, but the program stays unread for
    it until somebody else's message changes that. *)
Theorem attach_leaves_reads_paused :
  ∃ st mc, demo [joins 7 0 (frame IPC_MSG_FLOW_CTRL [1]) oks; EvClient 0 IOX_READ; joins 8 IPC_ATTACH_F_VIEW [] oks] = Some st ∧
    clients st !! 1%nat = Some mc ∧ live mc = true ∧ ready mc = true ∧ blocked mc = false ∧ master_watch st = 0 ∧ ¬ reads_follow st.
Proof.
  set (evs := [_; _; _]).
  set (P := λ mc, live mc && ready mc && negb (blocked mc)).
  destruct (demo_ran evs (λ st, (master_watch st =? 0) && (master_watch (update_master_interest st) =? IOX_READ) &&
    (if clients st !! 1%nat is Some mc then P mc else false)))
    as (E & _ & [[H4%Z.eqb_eq H5%Z.eqb_eq]%andb_true_iff Hmc]%andb_true_iff); [computes | computes |].
  set (st := demo_at evs) in *. clearbody st. destruct (ran mclient_free (clients st !! 1%nat) P Hmc) as [E2 [[H1 H2]%andb_true_iff H3%negb_true_iff]%andb_true_iff].
  eexists _, _. split; [exact E |]. split; [exact E2 |]. split_and!; try assumption.
  rewrite <- flow_reads. unfold flow_ok. rewrite H4, H5. discriminate.
Qed.

(** How many of the clients hold the keyboard. *)
Definition writers (st : srv window) : Z := zlen (List.filter (λ mc, role mc =? IPC_ROLE_WRITE) (live_clients st)).

(** C36: without sharing, one client at most should hold the keyboard, but two can:
    an ATTACH whose contents do not decode leaves the new client with the role it
    was allocated with, that of a writer; and when the keyboard is taken from a
    client by token and the notice of that cannot be sent, dropping this client
    hands the keyboard to a third one before the second gets it; and the keyboard
    is handed to a client that attached only to inject input. *)
Theorem two_writers_arise :
  (∃ st, demo [joins 7 0 [] oks; EvAccept 8 (demo_sock (frame IPC_MSG_ATTACH []) oks) (Some 1000)] = Some st ∧ share_multi st = false ∧ writers st = 2) ∧
  (∃ st, demo [joins 7 0 [] oks; joins 8 IPC_ATTACH_F_TOKEN [] [STook 10000; STook 10000; STook 10000; SFail];
               joins 9 0 (frame IPC_MSG_ROLE_REQUEST [IPC_ATTACH_F_TOKEN]) oks; EvClient 2 IOX_READ] = Some st ∧ share_multi st = false ∧ writers st = 2) ∧
  (∃ st mc, demo [joins 7 0 (frame IPC_MSG_DETACH []) oks; joins 8 IPC_ATTACH_F_INJECT [] oks; EvClient 0 IOX_READ] = Some st ∧
     clients st !! 1%nat = Some mc ∧ has_bits (flags mc) IPC_ATTACH_F_INJECT = true ∧ role mc = IPC_ROLE_WRITE).
Proof.
  split; [| split].
  1-2: set (evs := _ :: _); destruct (demo_ran evs (λ st, negb (share_multi st) && (writers st =? 2)))
    as (E & _ & [H1%negb_true_iff H2%Z.eqb_eq]%andb_true_iff); [computes | computes | exists (demo_at evs); split_and!; assumption].
  set (evs := _ :: _). set (P := λ mc, has_bits (flags mc) IPC_ATTACH_F_INJECT && (role mc =? IPC_ROLE_WRITE)).
  destruct (demo_ran evs (λ st, if clients st !! 1%nat is Some mc then P mc else false)) as (E & _ & H); [computes | computes |].
  set (st := demo_at evs) in *. clearbody st. destruct (ran mclient_free (clients st !! 1%nat) P H) as [E2 [H1 H2%Z.eqb_eq]%andb_true_iff]. eexists _, _.
  split; [exact E |]. split; [exact E2 |]. split; assumption.
Qed.
