(* ===== verification/Theme.v ===== *)
(** * Themes: src/libtui/tui_theme.c

    The glyphs and colors of the windows' decoration, and the themes built in, as
    the source lists them.  [tui_theme_parse_color] is not modelled: what [sscanf]
    takes for two hexadecimal digits is up to the C library. *)

From S2P Require Import Prelude VtBuf.

Inductive tui_shadow_style := TUI_SHADOW_NONE | TUI_SHADOW_HALF | TUI_SHADOW_SHADE.

(** A string ends with its NUL; the track may be NULL, for no scrollbar. *)
Record tui_theme := mk_theme {
  theme_name : list Z;
  border_tl : list Z; border_t : list Z; border_tr : list Z; border_l : list Z;
  border_r : list Z; border_bl : list Z; border_b : list Z; border_br : list Z;
  title_l : list Z; title_r : list Z;
  icon_scroll_lock : list Z; icon_input_lock : list Z; icon_dead : list Z;
  scroll_up : list Z; scroll_down : list Z; scroll_track : option (list Z); scroll_thumb : list Z;
  sep_l : list Z; sep_fill : list Z; sep_r : list Z;
  border_fg : vt_color; border_bg : vt_color; title_fg : vt_color;
  content_fg : vt_color; content_bg : vt_color; sel_fg : vt_color; sel_bg : vt_color;
  key_fg : vt_color; sel_key_fg : vt_color;
  focus_fg : vt_color; focus_bg : vt_color; unfocus_fg : vt_color; unfocus_bg : vt_color;
  title_focus_fg : vt_color; title_idle_fg : vt_color; close_fg : vt_color; tool_fg : vt_color;
  status_focus_fg : vt_color; status_idle_fg : vt_color; indicator_fg : vt_color; drag_fg : vt_color;
  shadow : tui_shadow_style; shadow_fg : vt_color; shadow_bg : vt_color;
}.

Definition CI (n : Z) : vt_color := VT_COLOR_INDEXED n.
Definition CD : vt_color := VT_COLOR_DEFAULT.

(** A string literal, with its NUL. *)
Definition lit (s : string) : list Z := str s ++ [0].

Definition theme_ascii : tui_theme := {|
  theme_name := lit "ascii";
  border_tl := lit "+";  border_t := lit "-";  border_tr := lit "+";  border_l := lit "|";
  border_r := lit "|";  border_bl := lit "+";  border_b := lit "-";  border_br := lit "+";
  title_l := lit " ";  title_r := lit " ";
  icon_scroll_lock := lit "S";  icon_input_lock := lit "I";  icon_dead := lit "X";
  scroll_up := lit "^";  scroll_down := lit "v";
  scroll_track := Some (lit ".");  scroll_thumb := lit "#";
  sep_l := lit "+";  sep_fill := lit "-";  sep_r := lit "+";
  border_fg := CI 7;  border_bg := CI 4;  title_fg := CI 15;
  content_fg := CI 7;  content_bg := CI 4;  sel_fg := CI 0;  sel_bg := CI 15;  key_fg := CI 10;  sel_key_fg := CI 2;
  focus_fg := CI 15;  focus_bg := CI 4;  unfocus_fg := CI 8;  unfocus_bg := CI 4;
  title_focus_fg := CI 15;  title_idle_fg := CI 8;  close_fg := CI 0;  tool_fg := CI 15;
  status_focus_fg := CI 15;  status_idle_fg := CI 8;  indicator_fg := CI 15;  drag_fg := CI 8;
  shadow := TUI_SHADOW_NONE; shadow_fg := CD; shadow_bg := CD
|}.

Definition theme_thin : tui_theme := {|
  theme_name := lit "thin";
  border_tl := [0xe2; 0x94; 0x8c; 0];  border_t := [0xe2; 0x94; 0x80; 0];  border_tr := [0xe2; 0x94; 0x90; 0];  border_l := [0xe2; 0x94; 0x82; 0];
  border_r := [0xe2; 0x94; 0x82; 0];  border_bl := [0xe2; 0x94; 0x94; 0];  border_b := [0xe2; 0x94; 0x80; 0];  border_br := [0xe2; 0x94; 0x98; 0];
  title_l := lit " ";  title_r := lit " ";
  icon_scroll_lock := [0xe2; 0x8f; 0xb8; 0];  icon_input_lock := [0xe2; 0x8a; 0x98; 0];  icon_dead := [0xe2; 0x9c; 0x95; 0];
  scroll_up := [0xe2; 0x96; 0xb2; 0];  scroll_down := [0xe2; 0x96; 0xbc; 0];
  scroll_track := Some [0xe2; 0x96; 0x91; 0];  scroll_thumb := [0xe2; 0x96; 0x88; 0];
  sep_l := [0xe2; 0x94; 0x9c; 0];  sep_fill := [0xe2; 0x94; 0x80; 0];  sep_r := [0xe2; 0x94; 0xa4; 0];
  border_fg := CI 7;  border_bg := CI 4;  title_fg := CI 15;
  content_fg := CI 7;  content_bg := CI 4;  sel_fg := CI 0;  sel_bg := CI 15;  key_fg := CI 10;  sel_key_fg := CI 2;
  focus_fg := CI 15;  focus_bg := CI 4;  unfocus_fg := CI 8;  unfocus_bg := CI 4;
  title_focus_fg := CI 15;  title_idle_fg := CI 8;  close_fg := CI 0;  tool_fg := CI 15;
  status_focus_fg := CI 15;  status_idle_fg := CI 8;  indicator_fg := CI 15;  drag_fg := CI 8;
  shadow := TUI_SHADOW_HALF; shadow_fg := CI 0; shadow_bg := CI 0
|}.

Definition theme_double : tui_theme := {|
  theme_name := lit "double";
  border_tl := [0xe2; 0x95; 0x94; 0];  border_t := [0xe2; 0x95; 0x90; 0];  border_tr := [0xe2; 0x95; 0x97; 0];  border_l := [0xe2; 0x95; 0x91; 0];
  border_r := [0xe2; 0x95; 0x91; 0];  border_bl := [0xe2; 0x95; 0x9a; 0];  border_b := [0xe2; 0x95; 0x90; 0];  border_br := [0xe2; 0x95; 0x9d; 0];
  title_l := lit " ";  title_r := lit " ";
  icon_scroll_lock := [0xe2; 0x8f; 0xb8; 0];  icon_input_lock := [0xe2; 0x8a; 0x98; 0];  icon_dead := [0xe2; 0x9c; 0x95; 0];
  scroll_up := [0xe2; 0x96; 0xb2; 0];  scroll_down := [0xe2; 0x96; 0xbc; 0];
  scroll_track := Some [0xe2; 0x96; 0x91; 0];  scroll_thumb := [0xe2; 0x96; 0x88; 0];
  sep_l := [0xe2; 0x95; 0xa0; 0];  sep_fill := [0xe2; 0x95; 0x90; 0];  sep_r := [0xe2; 0x95; 0xa3; 0];
  border_fg := CI 15;  border_bg := CI 4;  title_fg := CI 15;
  content_fg := CI 7;  content_bg := CI 4;  sel_fg := CI 0;  sel_bg := CI 15;  key_fg := CI 10;  sel_key_fg := CI 2;
  focus_fg := CI 15;  focus_bg := CI 4;  unfocus_fg := CI 8;  unfocus_bg := CI 4;
  title_focus_fg := CI 15;  title_idle_fg := CI 8;  close_fg := CI 0;  tool_fg := CI 15;
  status_focus_fg := CI 15;  status_idle_fg := CI 8;  indicator_fg := CI 15;  drag_fg := CI 8;
  shadow := TUI_SHADOW_NONE; shadow_fg := CD; shadow_bg := CD
|}.

Definition theme_rounded : tui_theme := {|
  theme_name := lit "rounded";
  border_tl := [0xe2; 0x95; 0xad; 0];  border_t := [0xe2; 0x94; 0x80; 0];  border_tr := [0xe2; 0x95; 0xae; 0];  border_l := [0xe2; 0x94; 0x82; 0];
  border_r := [0xe2; 0x94; 0x82; 0];  border_bl := [0xe2; 0x95; 0xb0; 0];  border_b := [0xe2; 0x94; 0x80; 0];  border_br := [0xe2; 0x95; 0xaf; 0];
  title_l := lit " ";  title_r := lit " ";
  icon_scroll_lock := [0xe2; 0x8f; 0xb8; 0];  icon_input_lock := [0xe2; 0x8a; 0x98; 0];  icon_dead := [0xe2; 0x9c; 0x95; 0];
  scroll_up := [0xe2; 0x96; 0xb2; 0];  scroll_down := [0xe2; 0x96; 0xbc; 0];
  scroll_track := Some [0xe2; 0x96; 0x91; 0];  scroll_thumb := [0xe2; 0x96; 0x88; 0];
  sep_l := [0xe2; 0x94; 0x9c; 0];  sep_fill := [0xe2; 0x94; 0x80; 0];  sep_r := [0xe2; 0x94; 0xa4; 0];
  border_fg := CI 7;  border_bg := CI 4;  title_fg := CI 15;
  content_fg := CI 7;  content_bg := CI 4;  sel_fg := CI 0;  sel_bg := CI 15;  key_fg := CI 10;  sel_key_fg := CI 2;
  focus_fg := CI 15;  focus_bg := CI 4;  unfocus_fg := CI 8;  unfocus_bg := CI 4;
  title_focus_fg := CI 15;  title_idle_fg := CI 8;  close_fg := CI 0;  tool_fg := CI 15;
  status_focus_fg := CI 15;  status_idle_fg := CI 8;  indicator_fg := CI 15;  drag_fg := CI 8;
  shadow := TUI_SHADOW_HALF; shadow_fg := CI 0; shadow_bg := CI 0
|}.

Definition theme_turbo : tui_theme := {|
  theme_name := lit "turbo";
  border_tl := [0xe2; 0x95; 0x94; 0];  border_t := [0xe2; 0x95; 0x90; 0];  border_tr := [0xe2; 0x95; 0x97; 0];  border_l := [0xe2; 0x95; 0x91; 0];
  border_r := [0xe2; 0x95; 0x91; 0];  border_bl := [0xe2; 0x95; 0x9a; 0];  border_b := [0xe2; 0x95; 0x90; 0];  border_br := [0xe2; 0x95; 0x9d; 0];
  title_l := lit " ";  title_r := lit " ";
  icon_scroll_lock := [0xe2; 0x8f; 0xb8; 0];  icon_input_lock := [0xe2; 0x8a; 0x98; 0];  icon_dead := [0xe2; 0x9c; 0x95; 0];
  scroll_up := [0xe2; 0x96; 0xb2; 0];  scroll_down := [0xe2; 0x96; 0xbc; 0];
  scroll_track := Some [0xe2; 0x96; 0x91; 0];  scroll_thumb := [0xe2; 0x96; 0x88; 0];
  sep_l := [0xe2; 0x95; 0xa0; 0];  sep_fill := [0xe2; 0x95; 0x90; 0];  sep_r := [0xe2; 0x95; 0xa3; 0];
  border_fg := CI 15;  border_bg := CI 4;  title_fg := CI 15;
  content_fg := CI 7;  content_bg := CI 4;  sel_fg := CI 15;  sel_bg := CI 2;  key_fg := CI 14;  sel_key_fg := CI 15;
  focus_fg := CI 15;  focus_bg := CI 1;  unfocus_fg := CI 8;  unfocus_bg := CI 4;
  title_focus_fg := CI 15;  title_idle_fg := CI 8;  close_fg := CI 15;  tool_fg := CI 15;
  status_focus_fg := CI 15;  status_idle_fg := CI 8;  indicator_fg := CI 14;  drag_fg := CI 8;
  shadow := TUI_SHADOW_SHADE; shadow_fg := CI 8; shadow_bg := CI 0
|}.

Definition theme_crimson : tui_theme := {|
  theme_name := lit "crimson";
  border_tl := [0xe2; 0x95; 0x92; 0];  border_t := [0xe2; 0x95; 0x90; 0];  border_tr := [0xe2; 0x95; 0x95; 0];  border_l := [0xe2; 0x94; 0x82; 0];
  border_r := [0xe2; 0x94; 0x82; 0];  border_bl := [0xe2; 0x95; 0x98; 0];  border_b := [0xe2; 0x95; 0x90; 0];  border_br := [0xe2; 0x95; 0x9b; 0];
  title_l := [0xe2; 0x95; 0xa1; 0];  title_r := [0xe2; 0x95; 0x9e; 0];
  icon_scroll_lock := [0xe2; 0x8f; 0xb8; 0];  icon_input_lock := [0xe2; 0x8a; 0x98; 0];  icon_dead := [0xe2; 0x9c; 0x95; 0];
  scroll_up := [0xe2; 0x96; 0xb2; 0];  scroll_down := [0xe2; 0x96; 0xbc; 0];
  scroll_track := Some [0xe2; 0x96; 0x91; 0];  scroll_thumb := [0xe2; 0x96; 0x88; 0];
  sep_l := [0xe2; 0x95; 0x9e; 0];  sep_fill := [0xe2; 0x95; 0x90; 0];  sep_r := [0xe2; 0x95; 0xa1; 0];
  border_fg := CI 13;  border_bg := CI 1;  title_fg := CI 15;
  content_fg := CI 15;  content_bg := CI 1;  sel_fg := CI 11;  sel_bg := CI 6;  key_fg := CI 15;  sel_key_fg := CI 11;
  focus_fg := CI 15;  focus_bg := CI 1;  unfocus_fg := CI 5;  unfocus_bg := CI 1;
  title_focus_fg := CI 15;  title_idle_fg := CI 5;  close_fg := CI 11;  tool_fg := CI 15;
  status_focus_fg := CI 11;  status_idle_fg := CI 5;  indicator_fg := CI 11;  drag_fg := CI 5;
  shadow := TUI_SHADOW_SHADE; shadow_fg := CI 8; shadow_bg := CI 0
|}.

Definition theme_acid : tui_theme := {|
  theme_name := lit "acid";
  border_tl := [0xe2; 0x96; 0x84; 0];  border_t := [0xe2; 0x96; 0x84; 0];  border_tr := [0xe2; 0x96; 0x84; 0];  border_l := [0xe2; 0x96; 0x8c; 0];
  border_r := [0xe2; 0x96; 0x90; 0];  border_bl := [0xe2; 0x96; 0x80; 0];  border_b := [0xe2; 0x96; 0x80; 0];  border_br := [0xe2; 0x96; 0x80; 0];
  title_l := lit " ";  title_r := lit " ";
  icon_scroll_lock := [0xe2; 0x8f; 0xb8; 0];  icon_input_lock := [0xe2; 0x8a; 0x98; 0];  icon_dead := [0xe2; 0x9c; 0x95; 0];
  scroll_up := [0xe2; 0x96; 0xb2; 0];  scroll_down := [0xe2; 0x96; 0xbc; 0];
  scroll_track := Some [0xe2; 0x96; 0x91; 0];  scroll_thumb := [0xe2; 0x96; 0x88; 0];
  sep_l := [0xe2; 0x96; 0x8c; 0];  sep_fill := [0xe2; 0x94; 0x80; 0];  sep_r := [0xe2; 0x96; 0x90; 0];
  border_fg := CI 13;  border_bg := CI 0;  title_fg := CI 15;
  content_fg := CI 15;  content_bg := CI 0;  sel_fg := CI 0;  sel_bg := CI 13;  key_fg := CI 11;  sel_key_fg := CI 0;
  focus_fg := CI 15;  focus_bg := CI 0;  unfocus_fg := CI 5;  unfocus_bg := CI 0;
  title_focus_fg := CI 15;  title_idle_fg := CI 5;  close_fg := CI 13;  tool_fg := CI 15;
  status_focus_fg := CI 13;  status_idle_fg := CI 5;  indicator_fg := CI 13;  drag_fg := CI 5;
  shadow := TUI_SHADOW_HALF; shadow_fg := CI 8; shadow_bg := CI 0
|}.

Definition theme_shade : tui_theme := {|
  theme_name := lit "shade";
  border_tl := [0xe2; 0x96; 0x93; 0];  border_t := [0xe2; 0x96; 0x92; 0];  border_tr := [0xe2; 0x96; 0x93; 0];  border_l := [0xe2; 0x96; 0x93; 0];
  border_r := [0xe2; 0x96; 0x93; 0];  border_bl := [0xe2; 0x96; 0x93; 0];  border_b := [0xe2; 0x96; 0x92; 0];  border_br := [0xe2; 0x96; 0x93; 0];
  title_l := [0xe2; 0x96; 0x91; 0];  title_r := [0xe2; 0x96; 0x91; 0];
  icon_scroll_lock := [0xe2; 0x8f; 0xb8; 0];  icon_input_lock := [0xe2; 0x8a; 0x98; 0];  icon_dead := [0xe2; 0x9c; 0x95; 0];
  scroll_up := [0xe2; 0x96; 0xb2; 0];  scroll_down := [0xe2; 0x96; 0xbc; 0];
  scroll_track := Some [0xe2; 0x96; 0x91; 0];  scroll_thumb := [0xe2; 0x96; 0x88; 0];
  sep_l := [0xe2; 0x96; 0x93; 0];  sep_fill := [0xe2; 0x96; 0x91; 0];  sep_r := [0xe2; 0x96; 0x93; 0];
  border_fg := CI 6;  border_bg := CI 0;  title_fg := CI 14;
  content_fg := CI 7;  content_bg := CI 0;  sel_fg := CI 0;  sel_bg := CI 6;  key_fg := CI 14;  sel_key_fg := CI 0;
  focus_fg := CI 14;  focus_bg := CI 0;  unfocus_fg := CI 8;  unfocus_bg := CI 0;
  title_focus_fg := CI 14;  title_idle_fg := CI 8;  close_fg := CI 6;  tool_fg := CI 14;
  status_focus_fg := CI 14;  status_idle_fg := CI 8;  indicator_fg := CI 14;  drag_fg := CI 8;
  shadow := TUI_SHADOW_SHADE; shadow_fg := CI 8; shadow_bg := CI 0
|}.

Definition theme_borderless : tui_theme := {|
  theme_name := lit "borderless";
  border_tl := lit " ";  border_t := lit " ";  border_tr := lit " ";  border_l := lit " ";
  border_r := lit " ";  border_bl := lit " ";  border_b := lit " ";  border_br := lit " ";
  title_l := lit " ";  title_r := lit " ";
  icon_scroll_lock := lit "S";  icon_input_lock := lit "I";  icon_dead := lit "X";
  scroll_up := lit " ";  scroll_down := lit " ";
  scroll_track := Some (lit " ");  scroll_thumb := lit " ";
  sep_l := lit " ";  sep_fill := lit " ";  sep_r := lit " ";
  border_fg := CI 7;  border_bg := CI 4;  title_fg := CI 15;
  content_fg := CI 7;  content_bg := CI 4;  sel_fg := CI 0;  sel_bg := CI 15;  key_fg := CI 10;  sel_key_fg := CI 2;
  focus_fg := CI 15;  focus_bg := CI 4;  unfocus_fg := CI 8;  unfocus_bg := CI 4;
  title_focus_fg := CI 15;  title_idle_fg := CI 8;  close_fg := CI 0;  tool_fg := CI 15;
  status_focus_fg := CI 15;  status_idle_fg := CI 8;  indicator_fg := CI 15;  drag_fg := CI 8;
  shadow := TUI_SHADOW_NONE; shadow_fg := CD; shadow_bg := CD
|}.

Definition themes : list tui_theme := [theme_ascii; theme_thin; theme_double; theme_rounded; theme_turbo; theme_crimson; theme_acid; theme_shade; theme_borderless].

Definition tui_theme_count : Z := zlen themes.

(** The index of a theme stands for the pointer to it. *)
Definition tui_theme_at (index : Z) : option tui_theme :=
  if (index <? 0) || (tui_theme_count <=? index) then None else aget themes index.

Definition tui_theme_by_name (name : list Z) : option tui_theme :=
  find (λ th, bool_decide (c_string (theme_name th) = c_string name)) themes.

(** [strstr(s, sub) != NULL] *)
Fixpoint contains (sub s : list Z) : bool :=
  bool_decide (take (length sub) s = sub) || match s with [] => false | _ :: s => contains sub s end.

Definition utf8_locale (lang : option (list Z)) : bool :=
  match lang with
  | Some s => contains (str "UTF-8") (c_string s) || contains (str "utf-8") (c_string s) || contains (str "utf8") (c_string s)
  | None => false
  end.

Definition tui_theme_default (getenv : list Z → option (list Z)) : option tui_theme :=
  if utf8_locale (getenv (str "LANG")) then tui_theme_by_name (lit "thin")
  else if utf8_locale (getenv (str "LC_ALL")) then tui_theme_by_name (lit "thin")
  else tui_theme_by_name (lit "ascii").

(** The style, [None] for -1. *)
Definition tui_theme_parse_shadow (s : option (list Z)) : option tui_shadow_style :=
  match s with
  | None => None
  | Some s =>
      if bool_decide (c_string s = str "none") then Some TUI_SHADOW_NONE
      else if bool_decide (c_string s = str "half") then Some TUI_SHADOW_HALF
      else if bool_decide (c_string s = str "shade") then Some TUI_SHADOW_SHADE
      else None
  end.
