(* ===== verification/Wm.v ===== *)
(** * The floating windows: src/libwm/wm.c

    Overlapping windows with frames, shadows and scrollbars: where each is, which
    is on top, what the mouse does to them, and the screen they make together.
    The windows' terminals are in a map by address, as in TileComposite.v; themes
    are constants, so a pointer to one is its contents.  [float] is IEEE single
    precision, rounded to nearest ([spec_float]); casting one that is no [int] is
    a trap. *)

From Stdlib Require Import SpecFloat.
From stdpp Require Import gmap sorting.
From S2P Require Import Prelude Utf8 WidthTables RuneWidth VtBuf Decimal VtState Render Tile TileComposite Theme.

(** ** Single precision *)

Definition f32_add : spec_float → spec_float → spec_float := SFadd 24 128.
Definition f32_sub : spec_float → spec_float → spec_float := SFsub 24 128.
Definition f32_mul : spec_float → spec_float → spec_float := SFmul 24 128.
Definition f32_div : spec_float → spec_float → spec_float := SFdiv 24 128.
(** [(float)i] *)
Definition f32_of_int (i : Z) : spec_float := binary_normalize 24 128 i 0 false.
Definition f32_zero : spec_float := S754_zero false.
Definition f32_half : spec_float := S754_finite false 8388608 (-24).
Definition f32_one : spec_float := S754_finite false 8388608 (-23).

(** [(int)f]: towards zero; undefined for what is no [int]. *)
Definition f32_to_int (f : spec_float) : option Z :=
  match f with
  | S754_zero _ => Some 0
  | S754_finite s m e =>
      let v := if 0 <=? e then Z.pos m * 2 ^ e else Z.pos m / 2 ^ (- e) in
      let v := if s : bool then - v else v in
      if (- 2 ^ 31 <=? v) && (v <=? INT_MAX) then Some v else None
  | _ => None
  end.

(** [if (f < 0.0f) f = 0.0f; if (f > 1.0f) f = 1.0f;] *)
Definition f32_clamp (f : spec_float) : spec_float :=
  let f := if SFltb f f32_zero then f32_zero else f in
  if SFltb f32_one f then f32_one else f.

(** ** Data *)

Definition WM_MAX_WINDOWS : Z := 32.
Definition WM_TITLE_MAX : Z := 128.
Definition WM_MIN_WIDTH : Z := 4.
Definition WM_MIN_HEIGHT : Z := 2.

Inductive wm_hit :=
  | WM_HIT_NONE | WM_HIT_CONTENT | WM_HIT_TITLE | WM_HIT_BORDER
  | WM_HIT_CLOSE | WM_HIT_MINIMIZE | WM_HIT_MAXIMIZE | WM_HIT_SCROLLBAR.

#[export] Instance wm_hit_eq_dec : EqDecision wm_hit.
Proof. solve_decision. Defined.

Inductive wm_drag := WM_DRAG_IDLE | WM_DRAG_MOVING | WM_DRAG_RESIZING | WM_DRAG_SCROLLING.

#[export] Instance wm_drag_eq_dec : EqDecision wm_drag.
Proof. solve_decision. Defined.

Definition WM_WIN_SCROLL_LOCK : Z := 1.
Definition WM_WIN_INPUT_LOCK : Z := 2.
Definition WM_WIN_DEAD : Z := 4.

(** [wn_title] is the array; the string in it ends with a NUL. *)
Record wm_window := mk_win {
  wn_id : Z;
  wn_x : Z; wn_y : Z; wn_w : Z; wn_h : Z; wn_z : Z;
  wn_focused : bool; wn_minimized : bool; wn_maximized : bool;
  wn_saved_x : Z; wn_saved_y : Z; wn_saved_w : Z; wn_saved_h : Z;
  wn_flags : Z;
  scroll_pos : spec_float; scroll_len : spec_float;
  win_theme : option tui_theme;
  win_vt : ptr;
  wn_title : list Z;
}.

(** [windows] holds the first [count] entries of the array.  The arrays may be
    NULL when [calloc] has failed. *)
Record wm := mk_wm {
  windows : list wm_window;
  wm_rows : Z; wm_cols : Z;
  wm_screen : list vt_cell;
  prev_screen : option (list vt_cell);
  wm_row_dirty : option (list Z);
  next_z : Z;
  composite_needed : bool;
  wm_drag_state : wm_drag;
  wm_drag_id : Z;
  anchor_row : Z; anchor_col : Z;
  orig_x : Z; orig_y : Z; orig_w : Z; orig_h : Z;
  edge_left : bool; edge_top : bool;
}.

Definition wm_count (t : wm) : Z := zlen (windows t).
Definition needs (t : wm) : wm := {| t with composite_needed := true |}.
Definition with_windows (ws : list wm_window) (t : wm) : wm := {| t with windows := ws |}.
Definition place (x y w h : Z) (v : wm_window) : wm_window := {| v with wn_x := x; wn_y := y; wn_w := w; wn_h := h |}.

(** ** Lifecycle *)

(** What the allocations answer: a screen, the previous one, the dirty rows. *)
Record allocs := mk_allocs { got_screen : bool; got_prev : bool; got_dirty : bool }.

Definition calloc {A} (got : bool) (n : Z) (a : A) : option (option (list A)) :=
  if n <? 0 then Some None else Some (if got then Some (replicate (Z.to_nat n) a) else None).

(** [None] inside is the NULL it answers. *)
Definition wm_new (got_wm : bool) (al : allocs) (rows cols : Z) : option (option wm) :=
  if negb got_wm then Some None else
  s ← calloc (got_screen al) (rows * cols) zero_cell;
  match s with
  | None => Some None
  | Some s =>
      p ← calloc (got_prev al) (rows * cols) zero_cell;
      match p with
      | None => Some None
      | Some p =>
          d ← calloc (got_dirty al) rows 0;
          match d with
          | None => Some None
          | Some d => Some (Some (mk_wm [] rows cols s (Some p) (Some d) 0 true WM_DRAG_IDLE 0 0 0 0 0 0 0 false false))
          end
      end
  end.

Definition wm_resize (al : allocs) (rows cols : Z) (t : wm) : option wm :=
  s ← calloc (got_screen al) (rows * cols) zero_cell;
  match s with
  | None => Some t
  | Some s =>
      p ← calloc (got_prev al) (rows * cols) zero_cell;
      d ← calloc (got_dirty al) rows 0;
      Some {| t with wm_screen := s; prev_screen := p; wm_row_dirty := d; wm_rows := rows; wm_cols := cols; composite_needed := true |}
  end.

(** ** Windows *)

Fixpoint find_from (ws : list wm_window) (i : nat) (k : Z) : option nat :=
  match ws with
  | [] => None
  | v :: ws => if wn_id v =? k then Some i else find_from ws (S i) k
  end.

(** The index of the window, [None] for NULL. *)
Definition wm_find (t : wm) (k : Z) : option nat := find_from (windows t) 0 k.

Definition wm_window_at (t : wm) (index : Z) : option nat :=
  if (index <? 0) || (wm_count t <=? index) then None else Some (Z.to_nat index).

(** [struct wm_window *win = wm_find(wm, id); if (win) { ... }] *)
Definition with_win (t : wm) (k : Z) (f : wm_window → wm_window) : wm :=
  match wm_find t k with None => t | Some i => needs (with_windows (alter f i (windows t)) t) end.

Definition wm_add (t : wm) (k : Z) (vt : ptr) (x y w h : Z) : Z * wm :=
  if WM_MAX_WINDOWS <=? wm_count t then (-1, t) else
  if wm_find t k is Some _ then (-1, t) else
  let v := mk_win k x y w h (next_z t) false false false 0 0 0 0 0 f32_zero f32_zero None vt
             (replicate (Z.to_nat WM_TITLE_MAX) 0) in
  (0, needs {| t with windows := windows t ++ [v]; next_z := next_z t + 1 |}).

(** [windows[i] = windows[--count]] *)
Definition drop_win (i : nat) (ws : list wm_window) : list wm_window :=
  match list.last ws with
  | Some v => take (length ws - 1) (<[i := v]> ws)
  | None => ws
  end.

Definition wm_remove (t : wm) (k : Z) : wm :=
  match wm_find t k with None => t | Some i => needs (with_windows (drop_win i (windows t)) t) end.

Definition shows (vt : addr) (v : wm_window) : bool := bool_decide (win_vt v = Some vt).

Definition wm_forget_vt (t : wm) (vt : ptr) : wm :=
  match vt with
  | None => t
  | Some p =>
      let t' := with_windows (map (λ v, if shows p v then {| v with win_vt := None |} else v) (windows t)) t in
      if existsb (shows p) (windows t) then needs t' else t
  end.

Definition wm_raise (t : wm) (k : Z) : wm :=
  match wm_find t k with
  | None => t
  | Some i => needs {| t with windows := alter (λ v, {| v with wn_z := next_z t |}) i (windows t); next_z := next_z t + 1 |}
  end.

Definition wm_focus (t : wm) (k : Z) : wm :=
  let t := with_windows (map (λ v, {| v with wn_focused := wn_id v =? k |}) (windows t)) t in
  needs (wm_raise t k).

Definition wm_move (t : wm) (k x y : Z) : wm := with_win t k (λ v, {| v with wn_x := x; wn_y := y |}).

(** [memcpy(win->title, title, len); win->title[len] = '\0';] *)
Definition wm_set_title (t : wm) (k : Z) (s : list Z) : option wm :=
  match wm_find t k with
  | None => Some t
  | Some i =>
      v ← windows t !! i;
      len ← utf8_trunc s WM_TITLE_MAX;
      src ← aslice s 0 len;
      _ ← aslice (wn_title v) 0 len;
      arr ← aset (src ++ drop (Z.to_nat len) (wn_title v)) len 0;
      Some (needs (with_windows (<[i := {| v with wn_title := arr |}]> (windows t)) t))
  end.

Definition wm_set_flags (t : wm) (k fl : Z) : wm := with_win t k (λ v, {| v with wn_flags := fl |}).
Definition wm_set_theme (t : wm) (k : Z) (th : option tui_theme) : wm := with_win t k (λ v, {| v with win_theme := th |}).
Definition wm_get_theme (t : wm) (k : Z) : option tui_theme := i ← wm_find t k; v ← windows t !! i; win_theme v.
Definition wm_set_scroll (t : wm) (k : Z) (pos len : spec_float) : wm :=
  with_win t k (λ v, {| v with scroll_pos := f32_clamp pos; scroll_len := f32_clamp len |}).

(** The rows of the scrollbar between its arrows, if it has any: the first, and
    how many. *)
Definition track (v : wm_window) : Z * Z := if 4 <=? wn_h v then (wn_y v + 1, wn_h v - 2) else (wn_y v, wn_h v).

Definition wm_scroll_pos_from_row (t : wm) (k row : Z) : option spec_float :=
  match wm_find t k with
  | None => Some f32_zero
  | Some i =>
      v ← windows t !! i;
      let '(track_top, track_inner) := track v in
      Some (if track_inner <=? 0 then f32_zero
            else f32_div (f32_of_int (row - track_top)) (f32_of_int (track_inner - 1)))
  end.

Definition wm_minimize (t : wm) (k : Z) : wm := with_win t k (λ v, {| v with wn_minimized := true |}).
Definition wm_unminimize (t : wm) (k : Z) : wm := with_win t k (λ v, {| v with wn_minimized := false |}).

Definition toggled (rows cols : Z) (v : wm_window) : wm_window :=
  if wn_maximized v then {| v with wn_x := wn_saved_x v; wn_y := wn_saved_y v; wn_w := wn_saved_w v; wn_h := wn_saved_h v; wn_maximized := false |}
  else {| v with wn_saved_x := wn_x v; wn_saved_y := wn_y v; wn_saved_w := wn_w v; wn_saved_h := wn_h v;
                 wn_x := 1; wn_y := 1; wn_w := cols - 2; wn_h := rows - 2; wn_maximized := true |}.

Definition wm_toggle_maximize (t : wm) (k : Z) : option (Z * wm) :=
  match wm_find t k with
  | None => Some (0, t)
  | Some i => v ← windows t !! i; Some (b2z (negb (wn_maximized v)), with_win t k (toggled (wm_rows t) (wm_cols t)))
  end.

(** ** Drawing *)

Section Draw.
Context (tbl : rune_width_table).

(** [w = rune_width(cp); if (w < 1) w = 1;] *)
Definition glyph_width (cp : Z) : option Z := w ← rune_width_in tbl cp; Some (if w <? 1 then 1 else w).

(** [screen_cell] of wm.c is that of tile_composite.c. *)
Definition screen_put (rows cols row col cp : Z) (fg bg : vt_color) (attrs : Z) (s : list vt_cell) : option (list vt_cell) :=
  match screen_cell rows cols row col with
  | None => Some s
  | Some i =>
      w ← glyph_width cp;
      s ← aset s i (mk_cell cp fg bg attrs (u8 w));
      if w =? 2 then
        match screen_cell rows cols row (col + 1) with
        | None => Some s
        | Some j => aset s j (mk_cell 0 fg bg attrs 0)
        end
      else Some s
  end.

(** The rest of the string, from column [c]; every turn drops a byte at least. *)
Fixpoint screen_puts_loop (fuel : nat) (rows cols row c end_ : Z) (str : list Z) (fg bg : vt_color) (attrs : Z)
    (s : list vt_cell) : option (list vt_cell) :=
  b ← aget str 0;
  if (b =? 0) || (end_ <=? c) then Some s else
  match fuel with
  | O => None
  | S fuel =>
      '(cp, len) ← utf8_decode str 4;
      if len <=? 0 then screen_puts_loop fuel rows cols row c end_ (drop 1 str) fg bg attrs s else
      w ← glyph_width cp;
      if end_ <? c + w then Some s else
      s ← screen_put rows cols row c cp fg bg attrs s;
      screen_puts_loop fuel rows cols row (c + w) end_ (drop (Z.to_nat len) str) fg bg attrs s
  end.

Definition screen_puts (rows cols row col : Z) (str : list Z) (fg bg : vt_color) (attrs maxw : Z) (s : list vt_cell)
  : option (list vt_cell) :=
  screen_puts_loop (length str) rows cols row col (col + maxw) str fg bg attrs s.

Fixpoint str_display_loop (fuel : nat) (str : list Z) (maxcols cols : Z) : option Z :=
  b ← aget str 0;
  if (b =? 0) || (maxcols <=? cols) then Some cols else
  match fuel with
  | O => None
  | S fuel =>
      '(cp, len) ← utf8_decode str 4;
      if len <=? 0 then str_display_loop fuel (drop 1 str) maxcols cols else
      w ← glyph_width cp;
      if maxcols <? cols + w then Some cols else
      str_display_loop fuel (drop (Z.to_nat len) str) maxcols (cols + w)
  end.

Definition str_display_width (str : list Z) (maxcols : Z) : option Z := str_display_loop (length str) str maxcols 0.

Definition screen_fill (rows cols row col n cp : Z) (fg bg : vt_color) (attrs : Z) : list vt_cell → option (list vt_cell) :=
  for_up 0 n (λ i, screen_put rows cols row (col + i) cp fg bg attrs).

Definition screen_clear (rows cols : Z) (s : list vt_cell) : option (list vt_cell) :=
  for_up 0 (rows * cols) (λ i s, aset s i vt_cell_clear) s.

Context (rows cols : Z).

(** The frame of a window: its content and a border around it. *)
Definition fx (v : wm_window) : Z := wn_x v - 1.
Definition fy (v : wm_window) : Z := wn_y v - 1.
Definition fw (v : wm_window) : Z := wn_w v + 2.
Definition fh (v : wm_window) : Z := wn_h v + 2.

Definition put := screen_put rows cols.
Definition puts := screen_puts rows cols.

Definition shadow_glyphs (st : tui_shadow_style) : option (Z * Z) :=
  match st with
  | TUI_SHADOW_NONE => None
  | TUI_SHADOW_HALF => Some (0x2584, 0x2580)
  | TUI_SHADOW_SHADE => Some (0x2591, 0x2591)
  end.

Definition draw_shadow (v : wm_window) (th : tui_theme) (s : list vt_cell) : option (list vt_cell) :=
  match shadow_glyphs (shadow th) with
  | None => Some s
  | Some (rg, below) =>
      s ← for_up (fy v + 1) (fy v + fh v) (λ r, put r (fx v + fw v) rg (shadow_fg th) (shadow_bg th) 0) s;
      for_up (fx v + 1) (fx v + fw v + 1) (λ c, put (fy v + fh v) c below (shadow_fg th) (shadow_bg th) 0) s
  end.

(** *** The frame *)

Definition bfg (v : wm_window) (th : tui_theme) : vt_color := if wn_focused v then focus_fg th else unfocus_fg th.
Definition bbg (v : wm_window) (th : tui_theme) : vt_color := if wn_focused v then focus_bg th else unfocus_bg th.
Definition tfg (v : wm_window) (th : tui_theme) : vt_color := if wn_focused v then title_focus_fg th else title_idle_fg th.
Definition sfg (v : wm_window) (th : tui_theme) : vt_color := if wn_focused v then status_focus_fg th else status_idle_fg th.

(** A border row: a corner, a line, a corner. *)
Definition draw_edge (row : Z) (l m r : list Z) (v : wm_window) (th : tui_theme) (s : list vt_cell) : option (list vt_cell) :=
  s ← puts row (fx v) l (bfg v th) (bbg v th) 0 1 s;
  s ← for_up (fx v + 1) (fx v + fw v - 1) (λ c, puts row c m (bfg v th) (bbg v th) 0 1) s;
  puts row (fx v + fw v - 1) r (bfg v th) (bbg v th) 0 1 s.

Definition nicons (v : wm_window) : Z :=
  b2z (has_bits (wn_flags v) WM_WIN_DEAD) + b2z (has_bits (wn_flags v) WM_WIN_SCROLL_LOCK) + b2z (has_bits (wn_flags v) WM_WIN_INPUT_LOCK).

Definition nbtns (v : wm_window) : Z := if 12 <=? fw v then 9 else 3.

(** The focus indicator and the title in its brackets. *)
Definition draw_title (v : wm_window) (th : tui_theme) (s : list vt_cell) : option (list vt_cell) :=
  let start := fx v + 1 in
  s ← put (fy v) start (if wn_focused v then 0x263C else ch " ") (indicator_fg th) (bbg v th) VT_ATTR_BOLD s;
  let start := start + 1 in
  t0 ← aget (wn_title v) 0;
  if t0 =? 0 then Some s else
  let avail := fw v - nbtns v - 2 - nicons v in
  let avail := if avail <? 0 then 0 else avail in
  twidth ← str_display_width (wn_title v) avail;
  s ← puts (fy v) start (title_l th) (tfg v th) (bbg v th) VT_ATTR_BOLD 1 s;
  s ← puts (fy v) (start + 1) (wn_title v) (tfg v th) (bbg v th) VT_ATTR_BOLD twidth s;
  puts (fy v) (start + 1 + twidth) (title_r th) (tfg v th) (bbg v th) VT_ATTR_BOLD 1 s.

(** A button: its symbol in brackets. *)
Definition draw_button (v : wm_window) (th : tui_theme) (col cp : Z) (fg : vt_color) (s : list vt_cell) : option (list vt_cell) :=
  s ← put (fy v) col (ch "[") (bfg v th) (bbg v th) VT_ATTR_BOLD s;
  s ← put (fy v) (col + 1) cp fg (bbg v th) VT_ATTR_BOLD s;
  put (fy v) (col + 2) (ch "]") (bfg v th) (bbg v th) VT_ATTR_BOLD s.

Definition draw_buttons (v : wm_window) (th : tui_theme) (s : list vt_cell) : option (list vt_cell) :=
  if 12 <=? fw v then
    let mx := fx v + fw v - 10 in
    s ← draw_button v th mx (ch "_") (tool_fg th) s;
    s ← draw_button v th (mx + 3) (if wn_maximized v then ch "=" else ch "+") (tool_fg th) s;
    draw_button v th (mx + 6) (ch "x") (close_fg th) s
  else if 6 <=? fw v then draw_button v th (fx v + fw v - 4) (ch "x") (close_fg th) s
  else Some s.

(** The column of the next icon, and the screen. *)
Definition draw_icon (v : wm_window) (th : tui_theme) (flag : Z) (icon : list Z) (k : Z * list vt_cell) : option (Z * list vt_cell) :=
  let '(icol, s) := k in
  if has_bits (wn_flags v) flag
  then s ← puts (fy v) icol icon (sfg v th) (bbg v th) VT_ATTR_BOLD 1 s; Some (icol + 1, s)
  else Some (icol, s).

Definition draw_icons (v : wm_window) (th : tui_theme) (s : list vt_cell) : option (list vt_cell) :=
  let icol := fx v + fw v - nbtns v - 1 - nicons v in
  let icol := if icol <? fx v + 1 then fx v + 1 else icol in
  k ← draw_icon v th WM_WIN_DEAD (icon_dead th) (icol, s);
  k ← draw_icon v th WM_WIN_SCROLL_LOCK (icon_scroll_lock th) k;
  k ← draw_icon v th WM_WIN_INPUT_LOCK (icon_input_lock th) k;
  Some k.2.

Definition draw_sides (v : wm_window) (th : tui_theme) : list vt_cell → option (list vt_cell) :=
  for_up (fy v + 1) (fy v + fh v - 1) (λ r s,
    s ← puts r (fx v) (border_l th) (bfg v th) (bbg v th) 0 1 s;
    puts r (fx v + fw v - 1) (border_r th) (bfg v th) (bbg v th) 0 1 s).

(** Where the thumb starts on a track of [inner] rows, and how many it takes. *)
Definition thumb (v : wm_window) (inner : Z) : option (Z * Z) :=
  n ← f32_to_int (f32_add (f32_mul (scroll_len v) (f32_of_int inner)) f32_half);
  let n := if n <? 1 then 1 else n in
  let n := if inner <? n then inner else n in
  k ← f32_to_int (f32_add (f32_mul (scroll_pos v) (f32_of_int (inner - n))) f32_half);
  let k := if k <? 0 then 0 else k in
  Some (if inner <? k + n then inner - n else k, n).

Definition scrolls (v : wm_window) (th : tui_theme) : bool :=
  SFltb f32_zero (scroll_len v) && (0 <? wn_h v) &&
  (if scroll_track th is Some (b :: _) then negb (b =? 0) else false).

Definition draw_scrollbar (v : wm_window) (th : tui_theme) (s : list vt_cell) : option (list vt_cell) :=
  match scroll_track th with
  | Some bar =>
      if scrolls v th then
        let sb_col := fx v + fw v - 1 in
        let track_top := fy v + 1 in
        s ← (if 4 <=? wn_h v then
               s ← puts track_top sb_col (scroll_up th) (tfg v th) (bbg v th) 0 1 s;
               puts (track_top + wn_h v - 1) sb_col (scroll_down th) (tfg v th) (bbg v th) 0 1 s
             else Some s);
        let '(inner_top, inner_h) := track v in
        if inner_h <=? 0 then Some s else
        '(start, n) ← thumb v inner_h;
        for_up 0 inner_h (λ r,
          if (start <=? r) && (r <? start + n)
          then puts (inner_top + r) sb_col (scroll_thumb th) (sel_fg th) (bbg v th) VT_ATTR_BOLD 1
          else puts (inner_top + r) sb_col bar (bfg v th) (bbg v th) 0 1) s
      else Some s
  | None => Some s
  end.

Definition draw_frame (v : wm_window) (th : tui_theme) (s : list vt_cell) : option (list vt_cell) :=
  s ← draw_edge (fy v) (border_tl th) (border_t th) (border_tr th) v th s;
  s ← draw_title v th s;
  s ← draw_buttons v th s;
  s ← draw_icons v th s;
  s ← draw_sides v th s;
  s ← draw_scrollbar v th s;
  draw_edge (fy v + fh v - 1) (border_bl th) (border_b th) (border_br th) v th s.

(** *** The content *)

Definition unpredicted (c : vt_cell) : vt_cell := {| c with cell_attrs := clear_bits (cell_attrs c) VT_ATTR_PREDICTED |}.

Definition draw_content_row (v : wm_window) (r : Z) (k : list vt_cell * vt_state) : option (list vt_cell * vt_state) :=
  let '(s, st) := k in
  vr ← screen_row st r;
  match vr with
  | None => Some k
  | Some vr =>
      s ← for_up 0 (wn_w v) (λ c s,
            match screen_cell rows cols (wn_y v + r) (wn_x v + c) with
            | None => Some s
            | Some i => src ← aget (VtBuf.cells vr) c; aset s i (unpredicted src)
            end) s;
      st ← with_row st r clear_dirty;
      Some (s, st)
  end.

Definition draw_content (v : wm_window) (s : list vt_cell) (m : vts) : option (list vt_cell * vts) :=
  match win_vt v with
  | None => Some (s, m)
  | Some p =>
      st ← m !! p;
      match cur_buf st with
      | None => Some (s, m)
      | Some _ =>
          '(s, st) ← for_up 0 (wn_h v) (draw_content_row v) (s, st);
          Some (s, <[p := st]> m)
      end
  end.

Definition reversed (c : vt_cell) : vt_cell := {| c with cell_attrs := Z.lxor (cell_attrs c) VT_ATTR_REVERSE |}.

(** The cursor of a window that has not the focus. *)
Definition draw_cursor (v : wm_window) (s : list vt_cell) (m : vts) : option (list vt_cell) :=
  match win_vt v with
  | None => Some s
  | Some p =>
      if wn_focused v then Some s else
      st ← m !! p;
      if negb (has_bits (modes st) VT_MODE_CURSOR_VIS) then Some s else
      match screen_cell rows cols (wn_y v + cursor_row st) (wn_x v + cursor_col st) with
      | None => Some s
      | Some i => c ← aget s i; aset s i (reversed c)
      end
  end.

Definition theme_of (th : tui_theme) (v : wm_window) : tui_theme := default th (win_theme v).

Definition draw_window (th : tui_theme) (v : wm_window) (k : list vt_cell * vts) : option (list vt_cell * vts) :=
  let '(s, m) := k in
  let wt := theme_of th v in
  s ← draw_shadow v wt s;
  s ← draw_frame v wt s;
  '(s, m) ← draw_content v s m;
  s ← draw_cursor v s m;
  Some (s, m).

Fixpoint draw_windows (th : tui_theme) (ws : list wm_window) (k : list vt_cell * vts) : option (list vt_cell * vts) :=
  match ws with
  | [] => Some k
  | v :: ws => k ← draw_window th v k; draw_windows th ws k
  end.

(** [snprintf(label, sizeof(label), "%dx%d", dw->w, dw->h)] in 32 bytes. *)
Definition size_label (v : wm_window) : list Z := take 31 (fmt_d (wn_w v) ++ str "x" ++ fmt_d (wn_h v)) ++ [0].

Definition label_fg : vt_color := VT_COLOR_INDEXED 15.
Definition label_bg : vt_color := VT_COLOR_INDEXED 0.

Definition draw_label (v : wm_window) (s : list vt_cell) : option (list vt_cell) :=
  if (wn_w v <? 5) || (wn_h v <? 1) then Some s else
  let len := zlen (fmt_d (wn_w v) ++ str "x" ++ fmt_d (wn_h v)) in
  let len := if wn_w v <? len then wn_w v else len in
  puts (wn_y v + Z.quot (wn_h v) 2) (wn_x v + Z.quot (wn_w v - len) 2) (size_label v) label_fg label_bg VT_ATTR_BOLD len s.
End Draw.

(** ** Compositing *)

Fixpoint any_vt_dirty (ws : list wm_window) (m : vts) : option bool :=
  match ws with
  | [] => Some false
  | v :: ws =>
      match win_vt v with
      | Some p =>
          if wn_minimized v then any_vt_dirty ws m else
          st ← m !! p;
          match cur_buf st with
          | None => any_vt_dirty ws m
          | Some _ =>
              d ← for_up 0 (wn_h v) (λ r (d : bool),
                    if d then Some d else
                    vr ← screen_row st r;
                    Some (if vr is Some vr then has_bits (row_flags vr) VT_ROW_DIRTY else false)) false;
              if (d : bool) then Some true else any_vt_dirty ws m
          end
      | None => any_vt_dirty ws m
      end
  end.

Definition wm_invalidate (t : wm) : wm := needs t.

(** What is painted, lowest first.  The keys of [qsort] are distinct. *)
Definition lower (v v' : wm_window) : Prop := wn_z v <= wn_z v'.

#[export] Instance lower_dec : RelDecision lower.
Proof. unfold lower. intros v v'. apply _. Defined.

Definition visible (t : wm) : list wm_window := List.filter (λ v, negb (wn_minimized v)) (windows t).
Definition paint_order (t : wm) : list wm_window := merge_sort lower (visible t).

Definition wm_composite (tbl : rune_width_table) (t : wm) (th : tui_theme) (m : vts) : option (wm * vts) :=
  d ← wm_row_dirty t;
  d ← for_up 0 (wm_rows t) (λ i d, aset d i 0) d;
  let t := {| t with wm_row_dirty := Some d |} in
  dirty ← (if composite_needed t then Some true else any_vt_dirty (windows t) m);
  if negb dirty then Some (t, m) else
  s ← screen_clear (wm_rows t) (wm_cols t) (wm_screen t);
  '(s, m) ← draw_windows tbl (wm_rows t) (wm_cols t) th (paint_order t) (s, m);
  s ← (if bool_decide (wm_drag_state t = WM_DRAG_RESIZING) then
         match wm_find t (wm_drag_id t) with
         | Some i => v ← windows t !! i; draw_label tbl (wm_rows t) (wm_cols t) v s
         | None => Some s
         end
       else Some s);
  Some ({| t with wm_screen := s; composite_needed := false |}, m).

Definition color_eq (a b : vt_color) : bool :=
  match a, b with
  | VT_COLOR_DEFAULT, VT_COLOR_DEFAULT => true
  | VT_COLOR_INDEXED i, VT_COLOR_INDEXED j => i =? j
  | VT_COLOR_RGB r g b, VT_COLOR_RGB r' g' b' => (r =? r') && (g =? g') && (b =? b')
  | _, _ => false
  end.

Definition cell_eq (a b : vt_cell) : bool :=
  (codepoint a =? codepoint b) && (cell_attrs a =? cell_attrs b) && (cell_width a =? cell_width b)
  && color_eq (cell_fg a) (cell_fg b) && color_eq (cell_bg a) (cell_bg b).

Definition row_changed (a b : list vt_cell) (cols : Z) : option bool :=
  for_up 0 cols (λ c (d : bool), if d then Some d else a ← aget a c; b ← aget b c; Some (negb (cell_eq a b))) false.

Section UpdateDirty.
Context (cells_differ : list vt_cell → list vt_cell → bool).

Definition wm_update_dirty (t : wm) : option wm :=
  match prev_screen t with
  | None => Some t
  | Some p =>
      d ← for_up 0 (wm_rows t) (λ r d,
            a ← aslice (wm_screen t) (r * wm_cols t) (wm_cols t);
            b ← aslice p (r * wm_cols t) (wm_cols t);
            changed ← (if cells_differ a b then row_changed a b (wm_cols t) else Some false);
            if (changed : bool) then dr ← d; dr ← aset dr r 1; Some (Some dr) else Some d) (wm_row_dirty t);
      a ← aslice (wm_screen t) 0 (wm_rows t * wm_cols t);
      _ ← aslice p 0 (wm_rows t * wm_cols t);
      Some {| t with prev_screen := Some (a ++ drop (length a) p); wm_row_dirty := d |}
  end.
End UpdateDirty.

(** ** The mouse *)

Definition in_frame (v : wm_window) (row col : Z) : bool :=
  (fy v <=? row) && (row <? fy v + fh v) && (fx v <=? col) && (col <? fx v + fw v).

(** The highest window around the point so far. *)
Definition higher (row col : Z) (best : option wm_window * Z) (v : wm_window) : option wm_window * Z :=
  if wn_minimized v then best else
  if in_frame v row col && (best.2 <? wn_z v) then (Some v, wn_z v) else best.

Definition hit_area (v : wm_window) (row col : Z) : wm_hit :=
  let mx := fx v + fw v - 10 in
  if (row =? fy v) && (12 <=? fw v) && (mx <=? col) && (col <=? mx + 2) then WM_HIT_MINIMIZE
  else if (row =? fy v) && (12 <=? fw v) && (mx + 3 <=? col) && (col <=? mx + 5) then WM_HIT_MAXIMIZE
  else if (row =? fy v) && (12 <=? fw v) && (mx + 6 <=? col) && (col <=? mx + 8) then WM_HIT_CLOSE
  else if (row =? fy v) && (fw v <? 12) && (6 <=? fw v) && (fx v + fw v - 4 <=? col) && (col <=? fx v + fw v - 2) then WM_HIT_CLOSE
  else if row =? fy v then WM_HIT_TITLE
  else if SFltb f32_zero (scroll_len v) && (col =? fx v + fw v - 1) && (fy v <? row) && (row <? fy v + fh v - 1) then WM_HIT_SCROLLBAR
  else if (wn_y v <=? row) && (row <? wn_y v + wn_h v) && (wn_x v <=? col) && (col <? wn_x v + wn_w v) then WM_HIT_CONTENT
  else WM_HIT_BORDER.

(** The window and the area, when there is one; 0 and [WM_HIT_NONE] are [None]. *)
Definition wm_hit_test (t : wm) (row col : Z) : option (Z * wm_hit) :=
  v ← (foldl (higher row col) (None, -1) (windows t)).1;
  Some (wn_id v, hit_area v row col).

(** The drag that started, and what was hit. *)
Definition wm_mouse_press (t : wm) (row col : Z) : option (wm_drag * option (Z * wm_hit) * wm) :=
  match wm_hit_test t row col with
  | None => Some (WM_DRAG_IDLE, None, t)
  | Some (k, area) =>
      let t := wm_focus t k in
      let v := (i ← wm_find t k; windows t !! i) in
      let hit := Some (k, area) in
      let grab (g : wm_drag) :=
        {| t with wm_drag_state := g; wm_drag_id := k; anchor_row := row; anchor_col := col |} in
      match area, v with
      | WM_HIT_TITLE, Some v =>
          Some (WM_DRAG_MOVING, hit, {| (grab WM_DRAG_MOVING) with orig_x := wn_x v; orig_y := wn_y v |})
      | WM_HIT_BORDER, Some v =>
          Some (WM_DRAG_RESIZING, hit,
            {| (grab WM_DRAG_RESIZING) with orig_x := wn_x v; orig_y := wn_y v; orig_w := wn_w v; orig_h := wn_h v;
                                            edge_left := col <? wn_x v; edge_top := row <? wn_y v |})
      | WM_HIT_SCROLLBAR, Some _ => Some (WM_DRAG_SCROLLING, hit, grab WM_DRAG_SCROLLING)
      | _, _ => Some (WM_DRAG_IDLE, hit, t)
      end
  end.

(** The geometry a resize to here asks for: one coordinate and its extent.  [near]
    is whether the left (or top) edge is dragged. *)
Definition dragged (near : bool) (min pos0 len0 pos d : Z) : Z * Z :=
  let '(len, pos) := if near then (len0 - d, pos0 + d) else (len0 + d, pos) in
  if len <? min then (if near then pos - (min - len) else pos, min) else (pos, len).

Definition wm_mouse_drag (t : wm) (row col : Z) : option (Z * wm) :=
  match wm_drag_state t with
  | WM_DRAG_IDLE => Some (0, t)
  | g =>
      match wm_find t (wm_drag_id t) with
      | None => Some (0, {| t with wm_drag_state := WM_DRAG_IDLE |})
      | Some i =>
          v ← windows t !! i;
          let dr := row - anchor_row t in
          let dc := col - anchor_col t in
          let set v' := Some (1, needs (with_windows (<[i := v']> (windows t)) t)) in
          match g with
          | WM_DRAG_MOVING =>
              let new_x := orig_x t + dc in
              let new_y := orig_y t + dr in
              if (new_x =? wn_x v) && (new_y =? wn_y v) then Some (0, t) else set (place new_x new_y (wn_w v) (wn_h v) v)
          | WM_DRAG_RESIZING =>
              let '(new_x, new_w) := dragged (edge_left t) WM_MIN_WIDTH (orig_x t) (orig_w t) (wn_x v) dc in
              let '(new_y, new_h) := dragged (edge_top t) WM_MIN_HEIGHT (orig_y t) (orig_h t) (wn_y v) dr in
              if (new_w =? wn_w v) && (new_h =? wn_h v) && (new_x =? wn_x v) && (new_y =? wn_y v) then Some (0, t)
              else set (place new_x new_y new_w new_h v)
          | _ =>
              new_pos ← wm_scroll_pos_from_row t (wm_drag_id t) row;
              let new_pos := f32_clamp new_pos in
              if SFeqb new_pos (scroll_pos v) then Some (0, t) else set {| v with scroll_pos := new_pos |}
          end
      end
  end.

(** The window that was dragged, 0 for none, and whether it was resized. *)
Definition wm_mouse_release (t : wm) : Z * bool * wm :=
  match wm_drag_state t with
  | WM_DRAG_IDLE => (0, false, t)
  | g => (wm_drag_id t, bool_decide (g = WM_DRAG_RESIZING), {| t with wm_drag_state := WM_DRAG_IDLE |})
  end.

(** ** The grid *)

(** [gcols = 1; while (gcols * gcols < n) gcols++;] *)
Fixpoint grid_cols (fuel : nat) (gcols n : Z) : option Z :=
  if n <=? gcols * gcols then Some gcols else
  match fuel with O => None | S fuel => grid_cols fuel (gcols + 1) n end.

(** Cell [i] of [n] along one side of length [len]: where its content starts, and
    how long it is. *)
Definition grid_cell (len n min i : Z) : Z * Z :=
  let cell := Z.quot len n in
  let extra := len - cell * n in
  let size := cell + (if i <? extra then 1 else 0) - 2 in
  (i * cell + (if i <? extra then i else extra) + 1, if size <? min then min else size).

Definition grid_place (rows cols gcols grows i : Z) (v : wm_window) : wm_window :=
  let '(x, w) := grid_cell cols gcols WM_MIN_WIDTH (Z.rem i gcols) in
  let '(y, h) := grid_cell rows grows WM_MIN_HEIGHT (Z.quot i gcols) in
  {| (place x y w h v) with wn_maximized := false |}.

(** The windows that are not minimized, placed in order; [i] is the next place. *)
Fixpoint arrange (rows cols gcols grows i : Z) (ws : list wm_window) : list wm_window :=
  match ws with
  | [] => []
  | v :: ws =>
      if wn_minimized v then v :: arrange rows cols gcols grows i ws
      else grid_place rows cols gcols grows i v :: arrange rows cols gcols grows (i + 1) ws
  end.

Definition wm_arrange_grid (t : wm) : option (Z * wm) :=
  let n := zlen (visible t) in
  if n =? 0 then Some (-1, t) else
  gcols ← grid_cols (Z.to_nat n) 1 n;
  let grows := Z.quot (n + gcols - 1) gcols in
  Some (0, with_windows (arrange (wm_rows t) (wm_cols t) gcols grows 0 (windows t)) t).
