(* ===== verification/WmText.v ===== *)
(** * Overlays: what a drawing routine puts on the screen

    A routine of wm.c is described by its overlay, the cells it puts where it
    draws: [draws P o].  Overlays are stacked ([over]).  Here this calculus, and the
    overlays of glyphs and strings; WmPicture.v describes a window by them. *)

From Stdlib Require Import SpecFloat.
From stdpp Require Import gmap.
From S2P Require Import Prelude Utf8 WidthTables RuneWidth VtBuf VtState Render Tile TileComposite TileScreen Wm.

(** ** Overlays *)

Abbreviation overlay := (Z → Z → option vt_cell).

Definition bare : overlay := λ _ _, None.
(** [o2] on top of [o1]. *)
Definition over (o1 o2 : overlay) : overlay := λ r c, match o2 r c with Some x => Some x | None => o1 r c end.
Definition shown (f : Z → Z → vt_cell) (o : overlay) : Z → Z → vt_cell := λ r c, default (f r c) (o r c).

Lemma shown_over f o1 o2 r c : shown (shown f o1) o2 r c = shown f (over o1 o2) r c.
Proof. unfold shown, over. by destruct (o2 r c). Qed.

Section Overlays.
Context {R C : Z}.

(** [P] never traps, and draws [o]. *)
Definition draws (P : list vt_cell → option (list vt_cell)) (o : overlay) : Prop :=
  ∀ s f, paints R C s f → yields (P s) (λ s', paints R C s' (shown f o)).

Lemma draws_ext P o o' : draws P o → (∀ r c, 0 <= r < R → 0 <= c < C → o r c = o' r c) → draws P o'.
Proof.
  intros HP He s f Hs. eapply yields_mono; [by apply HP |]. intros s' H. apply (paints_ext _ _ _ H).
  intros. unfold shown. by rewrite He.
Qed.

Lemma draws_nothing : draws Some bare.
Proof. intros s f Hs. cbn. by apply (paints_ext _ _ _ Hs). Qed.

Lemma draws_seq P Q o1 o2 : draws P o1 → draws Q o2 → draws (λ s, s ← P s; Q s) (over o1 o2).
Proof.
  intros HP HQ s f Hs. eapply yields_seq; [by apply HP |]. intros s1 H1. eapply yields_mono; [exact (HQ _ _ H1) |].
  intros s2 H2. apply (paints_ext _ _ _ H2). intros. apply shown_over.
Qed.

Lemma draws_if (b : bool) P o : (b = true → draws P o) → draws (if b then P else Some) (if b then o else bare).
Proof. intros H. destruct b; [by apply H | apply draws_nothing]. Qed.

(** A loop whose turns draw apart: the turn a cell belongs to is its key. *)
Lemma draws_for (key : Z → Z → Z) (g : overlay) lo hi body :
  (∀ i, lo <= i < hi → draws (body i) (λ r c, if key r c =? i then g r c else None)) →
  draws (for_up lo hi body) (λ r c, if (lo <=? key r c) && (key r c <? hi) then g r c else None).
Proof.
  intros Hb s f Hs. destruct (Z.le_gt_cases lo hi) as [Hle|Hgt].
  - eapply yields_mono; [apply (for_up_inv (λ i s', paints R C s' (shown f (λ r c,
      if (lo <=? key r c) && (key r c <? i) then g r c else None)))); [lia | |] |].
    + apply (paints_ext _ _ _ Hs). intros. unfold shown. zbool.
    + intros i s' Hi Hs'. eapply yields_mono; [by apply Hb |]. intros s2 H2. apply (paints_ext _ _ _ H2).
      intros r c _ _. unfold shown. destruct (Z.eqb_spec (key r c) i) as [E|Hne]; [| by zbool].
      rewrite E. replace (i <? i) with false by (symmetry; apply Z.ltb_irrefl). zbool.
    + done.
  - rewrite for_up_nop by lia. cbn. apply (paints_ext _ _ _ Hs). intros. unfold shown. zbool.
Qed.

(** One cell. *)
Definition at_cell (row col : Z) (x : vt_cell) : overlay := λ r c, if (r =? row) && (c =? col) then Some x else None.

Lemma draws_cell row col x : draws (λ s, match screen_cell R C row col with None => Some s | Some i => aset s i x end) (at_cell row col x).
Proof.
  intros s f Hs. eapply yields_mono; [by apply put_ok |]. intros s' H. apply (paints_ext _ _ _ H).
  intros. unfold shown, at_cell. by destruct (_ && _).
Qed.

(** ** Glyphs *)

Context (tbl : rune_width_table) `{!WidthTable tbl}.

Definition gwidth (cp : Z) : Z := Z.max 1 (width_spec tbl cp).

Lemma gwidth_range cp : 1 <= gwidth cp <= 2.
Proof. pose proof (width_spec_range tbl cp). unfold gwidth. lia. Qed.

Lemma glyph_width_ok cp : glyph_width tbl cp = Some (gwidth cp).
Proof. unfold glyph_width, gwidth. rewrite rune_width_in_spec by done. cbn. zbool; f_equal; lia. Qed.

Definition on_screen_cell (row col : Z) : bool := (0 <=? row) && (row <? R) && (0 <=? col) && (col <? C).

(** A glyph; a wide one starting off the screen is not drawn at all. *)
Definition glyph_at (row col cp : Z) (fg bg : vt_color) (attrs : Z) : overlay := λ r c,
  if negb (on_screen_cell row col) || negb (r =? row) then None
  else if c =? col then Some (mk_cell cp fg bg attrs (gwidth cp))
  else if (gwidth cp =? 2) && (c =? col + 1) then Some (mk_cell 0 fg bg attrs 0) else None.

Lemma draws_put row col cp fg bg attrs : draws (screen_put tbl R C row col cp fg bg attrs) (glyph_at row col cp fg bg attrs).
Proof.
  intros s f Hs. unfold screen_put. rewrite screen_cell_spec. pose proof (gwidth_range cp) as Hw.
  case_bool_decide as Hon.
  - rewrite glyph_width_ok. cbn [mbind option_bind]. rewrite u8_small by lia.
    destruct Hon as [Hr Hc]. eapply yields_seq; [exact (paints_set s f row col _ Hs Hr Hc) |]. intros s1 H1. cbn beta in H1. destruct (Z.eqb_spec (gwidth cp) 2) as [E2|].
    + eapply yields_mono; [by eapply put_ok |]. intros s2 H2. cbn beta in H2. apply (paints_ext _ _ _ H2).
      intros r c _ _. unfold shown, glyph_at, on_screen_cell. rewrite E2. zbool.
    + cbn. apply (paints_ext _ _ _ H1). intros r c _ _. unfold shown, glyph_at, on_screen_cell. zbool.
  - cbn. apply (paints_ext _ _ _ Hs). intros r c _ _. unfold shown, glyph_at.
    replace (on_screen_cell row col) with false; [done |]. unfold on_screen_cell. zbool.
Qed.

Lemma glyph_at_narrow row col cp fg bg attrs r c : gwidth cp = 1 → on_screen_cell r c = true →
  glyph_at row col cp fg bg attrs r c = at_cell row col (mk_cell cp fg bg attrs 1) r c.
Proof.
  intros E Hon. unfold glyph_at, at_cell. rewrite E. cbn [Z.eqb andb Pos.eqb].
  destruct (Z.eqb_spec r row) as [->|]; [| by rewrite orb_true_r]. destruct (Z.eqb_spec c col) as [->|]; [by rewrite Hon |].
  by destruct (negb _ || _).
Qed.

(** ** Strings *)

(** A C string: bytes, one of them the NUL that ends it. *)
Definition c_str (s : list Z) : Prop := Forall is_byte s ∧ 0 ∈ s.

Lemma c_str_head s : c_str s → ∃ b s', s = b :: s' ∧ is_byte b ∧ (b = 0 ∨ c_str s').
Proof.
  intros [Hb H0]. destruct s as [|b s']; [by apply not_elem_of_nil in H0 |]. apply Forall_cons in Hb as [Hb Hs'].
  exists b, s'. split_and!; [done | done |]. apply elem_of_cons in H0 as [<-|H0]; [by left | by right].
Qed.

Lemma c_str_drop s n : (∀ j, 0 <= j < n → aget s j ≠ Some 0) → c_str s → c_str (drop (Z.to_nat n) s).
Proof.
  intros Hn [Hb H0]. split; [by apply Forall_drop |].
  rewrite <- (take_drop (Z.to_nat n) s) in H0. apply elem_of_app in H0 as [H0|]; [| done].
  apply list_elem_of_lookup in H0 as [i Hi]. apply lookup_take_Some in Hi as [Hi Hlt].
  destruct (Hn (Z.of_nat i)); [lia |]. by rewrite aget_nat.
Qed.

(** Decoding stays before the NUL. *)
Lemma utf8_cont_c_str s n i v :
  c_str s → 0 <= i → (∀ j, 0 <= j < i → aget s j ≠ Some 0) →
  yields (utf8_cont s n i v) (λ o, if o is Some _ then ∀ j, 0 <= j < i + Z.of_nat n → aget s j ≠ Some 0 else True).
Proof.
  intros Hs. revert i v. induction n as [|n IH]; intros i v Hi Hj; cbn [utf8_cont].
  - cbn. intros j Hlt. apply Hj. lia.
  - pose proof (c_str_drop s i Hj Hs) as (b & s' & Ed & Hb & _)%c_str_head.
    assert (aget s i = Some b) as Eb.
    { rewrite aget_lookup by lia. pose proof (lookup_drop s (Z.to_nat i) 0) as E. rewrite Ed, Nat.add_0_r in E. by rewrite <- E. }
    rewrite Eb. cbn [mbind option_bind]. destruct (Z.eqb_spec (Z.land b 192) 128) as [El|]; [| done].
    eapply yields_mono; [apply IH; [lia |] |].
    + intros j Hlt. destruct (decide (j = i)) as [->|]; [| apply Hj; lia]. rewrite Eb. intros [= ->]. done.
    + intros [v'|]; [| done]. intros H j Hlt. apply H. lia.
Qed.

Lemma utf8_decode_c_str s n :
  c_str s → 1 <= n → aget s 0 ≠ Some 0 → yields (utf8_decode s n) (λ x, 1 <= x.2 <= n ∧ c_str (drop (Z.to_nat x.2) s)).
Proof.
  intros Hs Hlen Hne. destruct (c_str_head s Hs) as (b & s' & -> & Hb & _).
  assert (∀ j, 0 <= j < 1 → aget (b :: s') j ≠ Some 0) as H1 by (intros j Hj; by replace j with 0 by lia).
  unfold utf8_decode. rewrite (proj2 (Z.eqb_neq n 0)) by lia. change (aget (b :: s') 0) with (Some b). cbn [mbind option_bind].
  assert (∀ r : Z, yields (Some (r, 1)) (λ x : Z * Z, 1 <= x.2 <= n ∧ c_str (drop (Z.to_nat x.2) (b :: s')))) as Hone.
  { intros r. cbn [yields snd]. split; [lia |]. by apply c_str_drop. }
  destruct (b <? 128); [apply Hone |]. unfold utf8_lead. set (o := if Z.land b 224 =? 192 then _ else _).
  assert (match o with Some (_, need) => 2 <= need <= 4 | None => True end) as Ho by (unfold o; repeat case_match; simplify_eq; lia).
  destruct o as [[v need]|]; [| apply Hone]. destruct (Z.ltb_spec n need); [apply Hone |].
  eapply yields_seq; [apply utf8_cont_c_str; [done | lia | done] |]. intros [v'|] H'; [| apply Hone].
  destruct (utf8_bad need v'); [apply Hone |]. cbn [yields snd]. split; [lia |]. apply c_str_drop; [| done].
  intros j Hj. apply H'. lia.
Qed.

Lemma aget_head_c_str s : c_str s → ∃ b, aget s 0 = Some b ∧ is_byte b.
Proof. intros (b & s' & -> & Hb & _)%c_str_head. by exists b. Qed.

(** Truncation does too. *)
Lemma utf8_trunc_loop_c_str fuel s m safe :
  c_str (drop (Z.to_nat safe) s) → 0 <= safe <= m → m - safe <= Z.of_nat fuel →
  yields (utf8_trunc_loop fuel s m safe) (λ n, safe <= n <= m ∧ c_str (drop (Z.to_nat n) s)).
Proof.
  revert safe. induction fuel as [|fuel IH]; intros safe Hs Hsafe Hf; cbn [utf8_trunc_loop];
    (destruct (Z.ltb_spec safe m); [| cbn; split; [lia | done]]); [lia |].
  destruct (aget_head_c_str _ Hs) as (b & Eb & _). pose proof Eb as Eh. rewrite aget_drop in Eb by lia. rewrite Z.add_0_r in Eb. rewrite Eb. cbn [mbind option_bind].
  destruct (Z.eqb_spec b 0) as [->|Hne]; [cbn; split; [lia | done] |].
  pose proof (utf8_decode_c_str _ (m - safe) Hs ltac:(lia) ltac:(congruence)) as ([cp n] & -> & Hn & Hrest)%yields_Some.
  cbn [fst snd mbind option_bind] in *. destruct (_ || _); [cbn; split; [lia | done] |].
  rewrite drop_drop in Hrest. replace (Z.to_nat safe + Z.to_nat n)%nat with (Z.to_nat (safe + n)) in Hrest by lia.
  eapply yields_mono; [apply IH; (done || lia) |]. cbn beta. intros k [Hk Hk']. split; [lia | done].
Qed.

Lemma utf8_trunc_c_str s maxb : c_str s → 1 <= maxb →
  yields (utf8_trunc s maxb) (λ n, 0 <= n < maxb ∧ c_str (drop (Z.to_nat n) s)).
Proof.
  intros Hs Hm. unfold utf8_trunc. rewrite (proj2 (Z.eqb_neq maxb 0)) by lia.
  eapply yields_mono; [apply utf8_trunc_loop_c_str; [by rewrite drop_0 | lia | lia] |]. cbn beta. intros n [Hn Hd]. split; [lia | done].
Qed.

(** The glyphs of a string from column [c] to [end_]: column and code point. *)
Fixpoint layout (fuel : nat) (str : list Z) (c end_ : Z) : list (Z * Z) :=
  match fuel, utf8_decode str 4 with
  | S fuel, Some (cp, len) =>
      if bool_decide (aget str 0 = Some 0) || (end_ <=? c) || (end_ <? c + gwidth cp) then []
      else (c, cp) :: layout fuel (drop (Z.to_nat len) str) (c + gwidth cp) end_
  | _, _ => []
  end.

Definition layout_end (c : Z) (gs : list (Z * Z)) : Z := foldl (λ c g, c + gwidth g.2) c gs.

(** Glyph by glyph. *)
Fixpoint glyphs_at (row : Z) (gs : list (Z * Z)) (fg bg : vt_color) (attrs : Z) : overlay :=
  match gs with
  | [] => bare
  | (c, cp) :: gs => over (glyph_at row c cp fg bg attrs) (glyphs_at row gs fg bg attrs)
  end.

Lemma drop_shorter (s : list Z) n k : (length s <= S k)%nat → 1 <= n → (length (drop (Z.to_nat n) s) <= k)%nat.
Proof. intros. rewrite length_drop. lia. Qed.

Lemma draws_puts_loop row str fg bg attrs end_ fuel c :
  c_str str → (length str <= fuel)%nat →
  draws (λ s, screen_puts_loop tbl fuel R C row c end_ str fg bg attrs s) (glyphs_at row (layout fuel str c end_) fg bg attrs).
Proof.
  revert str c. induction fuel as [|fuel IH]; intros str c Hs Hf; [by destruct Hs as [_ H0]; destruct str; [apply not_elem_of_nil in H0 | cbn in Hf; lia] |].
  cbn [screen_puts_loop layout]. destruct (aget_head_c_str str Hs) as (b & Eb & Hb). rewrite Eb.
  destruct (decide (b = 0)) as [->|Hne].
  { rewrite bool_decide_eq_true_2 by done. cbn [mbind option_bind Z.eqb orb]. by destruct (utf8_decode str 4) as [[? ?]|]; apply draws_nothing. }
  rewrite bool_decide_eq_false_2 by congruence.
  pose proof (utf8_decode_c_str str 4 Hs ltac:(lia) ltac:(congruence)) as ([cp len] & -> & Hlen & Hrest)%yields_Some. cbn [fst snd] in *.
  cbn [mbind option_bind]. rewrite (proj2 (Z.eqb_neq b 0)) by done. cbn [orb].
  destruct (end_ <=? c); cbn [orb]; [apply draws_nothing |]. rewrite (proj2 (Z.leb_gt _ _)) by lia.
  rewrite glyph_width_ok. cbn [mbind option_bind]. destruct (end_ <? c + gwidth cp); [apply draws_nothing |].
  apply draws_seq; [apply draws_put |]. apply IH; [done |]. apply drop_shorter; lia.
Qed.

Lemma draws_puts row col str fg bg attrs maxw : c_str str →
  draws (screen_puts tbl R C row col str fg bg attrs maxw) (glyphs_at row (layout (length str) str col (col + maxw)) fg bg attrs).
Proof. intros Hs. by apply draws_puts_loop. Qed.

Lemma str_display_ok fuel str maxcols cols c :
  c_str str → (length str <= fuel)%nat →
  str_display_loop tbl fuel str maxcols cols = Some (layout_end cols (layout fuel str (c + cols) (c + maxcols))).
Proof.
  revert str cols. induction fuel as [|fuel IH]; intros str cols Hs Hf; [by destruct Hs as [_ H0]; destruct str; [apply not_elem_of_nil in H0 | cbn in Hf; lia] |].
  cbn [str_display_loop layout]. destruct (aget_head_c_str str Hs) as (b & Eb & Hb). rewrite Eb. cbn [mbind option_bind].
  destruct (decide (b = 0)) as [->|Hne].
  { rewrite bool_decide_eq_true_2 by done. cbn [Z.eqb orb]. by destruct (utf8_decode str 4) as [[? ?]|]. }
  rewrite bool_decide_eq_false_2 by congruence. rewrite (proj2 (Z.eqb_neq b 0)) by done. cbn [orb].
  pose proof (utf8_decode_c_str str 4 Hs ltac:(lia) ltac:(congruence)) as ([cp len] & -> & Hlen & Hrest)%yields_Some. cbn [fst snd] in *.
  cbn [mbind option_bind].
  replace (c + maxcols <=? c + cols) with (maxcols <=? cols) by zbool.
  destruct (maxcols <=? cols); cbn [orb]; [done |]. rewrite (proj2 (Z.leb_gt _ _)) by lia.
  rewrite glyph_width_ok. cbn [mbind option_bind].
  replace (c + maxcols <? c + cols + gwidth cp) with (maxcols <? cols + gwidth cp) by zbool.
  destruct (maxcols <? cols + gwidth cp); [done |]. rewrite IH; [| done | apply drop_shorter; lia].
  cbn [layout_end foldl snd]. by rewrite Z.add_assoc.
Qed.

(** A string keeps to its columns. *)
Lemma layout_inside fuel str c end_ :
  Forall (λ g, c <= g.1 ∧ g.1 + gwidth g.2 <= end_) (layout fuel str c end_) ∧
  c <= layout_end c (layout fuel str c end_) <= Z.max c end_.
Proof.
  revert str c. induction fuel as [|fuel IH]; intros str c; cbn [layout]; [split; [done | cbn; lia] |].
  destruct (utf8_decode str 4) as [[cp len]|]; [| split; [done | cbn; lia]].
  destruct (bool_decide _); cbn [orb]; [split; [done | cbn; lia] |].
  destruct (Z.leb_spec end_ c); cbn [orb]; [split; [done | cbn; lia] |].
  destruct (Z.ltb_spec end_ (c + gwidth cp)); [split; [done | cbn; lia] |].
  pose proof (gwidth_range cp). destruct (IH (drop (Z.to_nat len) str) (c + gwidth cp)) as [Hf He].
  split; [| match goal with |- context [layout_end c (_ :: ?l)] => change (layout_end c ((c, cp) :: l)) with (layout_end (c + gwidth cp) l) end; lia].
  constructor; [cbn [fst snd]; lia |]. eapply Forall_impl; [exact Hf |]. cbn beta. intros g. lia.
Qed.

Lemma glyphs_at_out row gs fg bg attrs lo hi r c :
  Forall (λ g, lo <= g.1 ∧ g.1 + gwidth g.2 <= hi) gs → ¬ (r = row ∧ lo <= c < hi) → glyphs_at row gs fg bg attrs r c = None.
Proof.
  intros Hg Hout. induction Hg as [|[k cp] gs Hk Hg IH]; [done |]. cbn [glyphs_at]. unfold over. rewrite IH.
  unfold glyph_at. pose proof (gwidth_range cp). cbn [fst snd] in Hk.
  destruct (negb (on_screen_cell row k)); [done |]. cbn [orb]. destruct (Z.eqb_spec r row); [| done]. cbn [negb].
  destruct (Z.eqb_spec c k); [lia |]. destruct (Z.eqb_spec (gwidth cp) 2); [| done]. cbn [andb].
  destruct (Z.eqb_spec c (k + 1)); [lia | done].
Qed.

(** A string that is one narrow glyph, as the glyphs of themes are. *)
Definition one_glyph (str : list Z) (cp : Z) : Prop :=
  c_str str ∧ gwidth cp = 1 ∧ ∀ c, layout (length str) str c (c + 1) = [(c, cp)].

Lemma one_glyph_intro cp : text_rune cp → gwidth cp = 1 → one_glyph (utf8_encode cp ++ [0]) cp.
Proof.
  intros (Hv & Hne & Hner) Hw. split_and!; [| done |].
  - split; [| apply elem_of_app; right; by left]. apply Forall_app. split; [apply utf8_encode_bytes |]. by repeat constructor.
  - intros c. rewrite length_app. cbn [length]. rewrite Nat.add_1_r. cbn [layout].
    pose proof (utf8_encode_nonempty cp Hv) as Hlen. 
    rewrite (utf8_decode_encode cp [0] 4) by (done || lia). rewrite Hw.
    rewrite bool_decide_eq_false_2.
    2: { destruct (utf8_encode_first cp Hv) as (b & bs & -> & H1 & H2). cbn. intros [= ->]. destruct (decide (cp < 128)); [destruct (H1 ltac:(lia)); lia | specialize (H2 ltac:(lia)); lia]. }
    replace (c + 1 <=? c) with false by zbool. replace (c + 1 <? c + 1) with false by zbool. cbn [orb]. f_equal.
    destruct (length (utf8_encode cp)) as [|k]; [done |]. cbn [layout]. destruct (utf8_decode _ 4) as [[? ?]|]; [| done].
    replace (c + 1 <=? c + 1) with true by zbool. by rewrite orb_true_r.
Qed.

Lemma draws_one_glyph row col str cp fg bg attrs : one_glyph str cp →
  draws (screen_puts tbl R C row col str fg bg attrs 1) (at_cell row col (mk_cell cp fg bg attrs 1)).
Proof.
  intros (Hs & Hw & Hl). eapply draws_ext; [by apply draws_puts |]. intros r c Hr Hc. rewrite Hl. cbn [glyphs_at]. unfold over, bare.
  apply glyph_at_narrow; [done |]. unfold on_screen_cell. zbool.
Qed.
End Overlays.

Arguments draws : clear implicits.
