(* ===== verification/WmPicture.v ===== *)
(** * What a window puts on the screen

    Each part of a window as an overlay: its shadow, the parts of its frame, its
    content and its cursor; and that the drawing routines of wm.c draw exactly
    these, whatever was on the screen. *)

From Stdlib Require Import SpecFloat.
From stdpp Require Import gmap.
From S2P Require Import Prelude Utf8 WidthTables RuneWidth VtBuf Decimal VtState VtClient Render Tile TileComposite TileScreen Theme Wm WmText.

Section Picture.
Context (tbl : rune_width_table) `{!WidthTable tbl} {R C : Z}.
Implicit Types (v : wm_window) (th : tui_theme) (m : vts).

(** ** What a theme and a window need *)

Definition glyph_of (str : list Z) : Z := from_option fst 0 (utf8_decode str 4).

(** A theme's string is one narrow glyph. *)
Definition theme_glyph (str : list Z) : Prop := one_glyph tbl str (glyph_of str).

Definition theme_strings th : list (list Z) :=
  [border_tl th; border_t th; border_tr th; border_l th; border_r th; border_bl th; border_b th; border_br th;
   title_l th; title_r th; icon_scroll_lock th; icon_input_lock th; icon_dead th; scroll_up th; scroll_down th; scroll_thumb th]
  ++ option_list (scroll_track th).

(** The glyphs drawn by their code points. *)
Definition fixed_glyphs : list Z := [0x2584; 0x2580; 0x2591; 0x263C].

Record theme_ok th : Prop := {
  tk_strings : Forall theme_glyph (theme_strings th);
  tk_fixed : Forall (λ cp, gwidth tbl cp = 1) fixed_glyphs;
}.

(** A terminal a window can show: it fills the content, its cursor in it or just
    past the end of a row. *)
Definition fills m v : Prop := ∀ q, win_vt v = Some q → ∃ st R' C', m !! q = Some st ∧ wf_state R' C' st ∧
  wn_h v <= R' ∧ wn_w v <= C' ∧ 0 <= cursor_row st < wn_h v ∧ 0 <= cursor_col st <= wn_w v.

Record window_ready m th v : Prop := {
  wy_w : WM_MIN_WIDTH <= wn_w v;
  wy_h : WM_MIN_HEIGHT <= wn_h v;
  wy_title : c_str (wn_title v);
  wy_thumb : scrolls v th = true → is_Some (thumb v (track v).2);
  wy_fills : fills m v;
}.

(** ** Shadow *)

Definition shadow_ov v th : overlay := λ r c,
  match shadow_glyphs (shadow th) with
  | None => None
  | Some (rg, below) =>
      if (r =? fy v + fh v) && (fx v + 1 <=? c) && (c <=? fx v + fw v) then Some (mk_cell below (shadow_fg th) (shadow_bg th) 0 1)
      else if (c =? fx v + fw v) && (fy v + 1 <=? r) && (r <? fy v + fh v) then Some (mk_cell rg (shadow_fg th) (shadow_bg th) 0 1)
      else None
  end.

Lemma draws_narrow_put row col cp fg bg attrs : gwidth tbl cp = 1 →
  draws R C (put tbl R C row col cp fg bg attrs) (at_cell row col (mk_cell cp fg bg attrs 1)).
Proof.
  intros E. eapply draws_ext; [by apply draws_put |]. intros r c Hr Hc. apply glyph_at_narrow; [done |]. unfold on_screen_cell. zbool.
Qed.

Lemma ascii_narrow cp : 0x20 <= cp < 0x7F → gwidth tbl cp = 1.
Proof. intros. unfold gwidth. by rewrite width_ascii. Qed.

Lemma shadow_narrow th rg below : theme_ok th → shadow_glyphs (shadow th) = Some (rg, below) → gwidth tbl rg = 1 ∧ gwidth tbl below = 1.
Proof.
  intros [_ Hf] E. unfold fixed_glyphs in Hf. rewrite !Forall_cons in Hf. destruct Hf as (H1 & H2 & H3 & _).
  by destruct (shadow th); [| injection E as <- <- ..].
Qed.

(** The keys of the loops: the row, the column. *)
Definition row_key : Z → Z → Z := λ r _, r.
Definition col_key : Z → Z → Z := λ _ c, c.

Lemma draws_rows lo hi body col (g : Z → vt_cell) :
  (∀ i, draws R C (body i) (at_cell i col (g i))) →
  draws R C (for_up lo hi body) (λ r c, if (c =? col) && (lo <=? r) && (r <? hi) then Some (g r) else None).
Proof.
  intros Hb. eapply draws_ext; [apply (draws_for row_key (λ r c, if c =? col then Some (g r) else None)); intros i _;
    eapply draws_ext; [apply Hb |] |]; intros r c _ _; unfold row_key, at_cell; zbool; congruence.
Qed.

Lemma draws_cols lo hi body row (g : Z → vt_cell) :
  (∀ i, draws R C (body i) (at_cell row i (g i))) →
  draws R C (for_up lo hi body) (λ r c, if (r =? row) && (lo <=? c) && (c <? hi) then Some (g c) else None).
Proof.
  intros Hb. eapply draws_ext; [apply (draws_for col_key (λ r c, if r =? row then Some (g c) else None)); intros i _;
    eapply draws_ext; [apply Hb |] |]; intros r c _ _; unfold col_key, at_cell; zbool; congruence.
Qed.

Lemma draws_shadow v th : theme_ok th → draws R C (draw_shadow tbl R C v th) (shadow_ov v th).
Proof.
  intros Hth. unfold draw_shadow, shadow_ov. destruct (shadow_glyphs (shadow th)) as [[rg below]|] eqn:E.
  - destruct (shadow_narrow _ _ _ Hth E) as [Hr Hb]. eapply draws_ext.
    + apply draws_seq; [apply (draws_rows _ _ _ (fx v + fw v) (λ _, mk_cell rg (shadow_fg th) (shadow_bg th) 0 1)) |
        apply (draws_cols _ _ _ (fy v + fh v) (λ _, mk_cell below (shadow_fg th) (shadow_bg th) 0 1))];
        intros i; by apply draws_narrow_put.
    + intros r c _ _. unfold over. zbool.
  - eapply draws_ext; [apply draws_nothing | done].
Qed.

(** ** The frame *)

Definition glyph_cell (str : list Z) (fg bg : vt_color) (attrs : Z) : vt_cell := mk_cell (glyph_of str) fg bg attrs 1.

Lemma draws_theme_glyph row col str fg bg attrs : theme_glyph str →
  draws R C (puts tbl R C row col str fg bg attrs 1) (at_cell row col (glyph_cell str fg bg attrs)).
Proof. intros H. by apply draws_one_glyph. Qed.

Definition edge_ov (row : Z) (l mid rt : list Z) v th : overlay := λ r c,
  if (r =? row) && (fx v <=? c) && (c <? fx v + fw v) then
    Some (glyph_cell (if c =? fx v + fw v - 1 then rt else if c =? fx v then l else mid) (bfg v th) (bbg v th) 0)
  else None.

Lemma draws_edge row l mid rt v th : 2 <= fw v → theme_glyph l → theme_glyph mid → theme_glyph rt →
  draws R C (draw_edge tbl R C row l mid rt v th) (edge_ov row l mid rt v th).
Proof.
  intros Hw Hl Hm Hr. unfold draw_edge. eapply draws_ext.
  - apply draws_seq; [by apply draws_theme_glyph |]. apply draws_seq; [| by apply draws_theme_glyph].
    apply (draws_cols _ _ _ row (λ _, glyph_cell mid (bfg v th) (bbg v th) 0)). intros i. by apply draws_theme_glyph.
  - intros r c _ _. unfold over, at_cell, edge_ov. zbool.
Qed.

(** The indicator and the title. *)
Definition indicator_cell v th : vt_cell :=
  mk_cell (if wn_focused v then 0x263C else ch " ") (indicator_fg th) (bbg v th) VT_ATTR_BOLD 1.

Definition title_room v : Z := Z.max 0 (fw v - nbtns v - 2 - nicons v).

(** The glyphs of the title, from the column after its bracket. *)
Definition title_glyphs v : list (Z * Z) := layout tbl (length (wn_title v)) (wn_title v) (fx v + 3) (fx v + 3 + title_room v).

Definition title_width v : Z := layout_end tbl 0 (layout tbl (length (wn_title v)) (wn_title v) 0 (title_room v)).

Definition title_text v th : overlay :=
  glyphs_at (R := R) (C := C) tbl (fy v)
    (layout tbl (length (wn_title v)) (wn_title v) (fx v + 3) (fx v + 3 + title_width v)) (tfg v th) (bbg v th) VT_ATTR_BOLD.

Definition title_ov v th : overlay :=
  over (at_cell (fy v) (fx v + 1) (indicator_cell v th))
    (if bool_decide (aget (wn_title v) 0 = Some 0) then bare else
     over (at_cell (fy v) (fx v + 2) (glyph_cell (title_l th) (tfg v th) (bbg v th) VT_ATTR_BOLD))
       (over (title_text v th)
         (at_cell (fy v) (fx v + 3 + title_width v) (glyph_cell (title_r th) (tfg v th) (bbg v th) VT_ATTR_BOLD)))).

Lemma draws_title v th : theme_ok th → c_str (wn_title v) → draws R C (draw_title tbl R C v th) (title_ov v th).
Proof.
  intros Hth Ht. unfold draw_title, title_ov.
  assert (Forall theme_glyph (theme_strings th)) as Hs by apply Hth. unfold theme_strings in Hs. cbn [app] in Hs. rewrite !Forall_cons in Hs.
  apply draws_seq.
  { apply draws_narrow_put. destruct (wn_focused v); [| apply ascii_narrow; vm_compute; intuition discriminate].
    destruct Hth as [_ Hf]. unfold fixed_glyphs in Hf. rewrite !Forall_cons in Hf. tauto. }
  destruct (aget_head_c_str _ Ht) as (b & Eb & Hb). rewrite Eb. cbn [mbind option_bind].
  destruct (decide (b = 0)) as [->|Hne]; [rewrite bool_decide_eq_true_2 by done; apply draws_nothing |].
  rewrite bool_decide_eq_false_2, (proj2 (Z.eqb_neq b 0)) by congruence.
  replace (if fw v - nbtns v - 2 - nicons v <? 0 then 0 else fw v - nbtns v - 2 - nicons v) with (title_room v) by (unfold title_room; zbool; lia).
  unfold str_display_width. rewrite (str_display_ok tbl _ _ _ 0 0) by done. cbn [mbind option_bind]. rewrite !Z.add_0_l. fold (title_width v).
  replace (fx v + 1 + 1 + 1) with (fx v + 3) by lia. replace (fx v + 1 + 1) with (fx v + 2) by lia.
  apply draws_seq; [apply draws_theme_glyph; tauto |]. apply draws_seq; [by apply draws_puts | apply draws_theme_glyph; tauto].
Qed.

Definition bold (cp : Z) (fg : vt_color) v th : vt_cell := mk_cell cp fg (bbg v th) VT_ATTR_BOLD 1.

Definition button_ov v th (col cp : Z) (fg : vt_color) : overlay := λ r c,
  if (r =? fy v) && (col <=? c) && (c <=? col + 2) then
    Some (if c =? col then bold (ch "[") (bfg v th) v th else if c =? col + 1 then bold cp fg v th else bold (ch "]") (bfg v th) v th)
  else None.

Lemma draws_button v th col cp fg : 0x20 <= cp < 0x7F → draws R C (draw_button tbl R C v th col cp fg) (button_ov v th col cp fg).
Proof.
  intros Hcp. assert (0x20 <= ch "[" < 0x7F ∧ 0x20 <= ch "]" < 0x7F) as [H1 H2] by (vm_compute; intuition discriminate).
  unfold draw_button. eapply draws_ext; [apply draws_seq; [| apply draws_seq]; apply draws_narrow_put; by apply ascii_narrow |].
  intros r c _ _. unfold over, at_cell, button_ov, bold. zbool.
Qed.

Definition buttons_ov v th : overlay :=
  if 12 <=? fw v then
    let mx := fx v + fw v - 10 in
    over (button_ov v th mx (ch "_") (tool_fg th))
      (over (button_ov v th (mx + 3) (if wn_maximized v then ch "=" else ch "+") (tool_fg th))
        (button_ov v th (mx + 6) (ch "x") (close_fg th)))
  else if 6 <=? fw v then button_ov v th (fx v + fw v - 4) (ch "x") (close_fg th) else bare.

Lemma draws_buttons v th : draws R C (draw_buttons tbl R C v th) (buttons_ov v th).
Proof.
  unfold draw_buttons, buttons_ov. destruct (12 <=? fw v); [| destruct (6 <=? fw v); [| apply draws_nothing]];
    repeat apply draws_seq; apply draws_button; try (destruct (wn_maximized v)); vm_compute; intuition discriminate.
Qed.

(** The status icons, from column [icol]. *)
Definition icons v th : list (list Z) :=
  (if has_bits (wn_flags v) WM_WIN_DEAD then [icon_dead th] else []) ++
  (if has_bits (wn_flags v) WM_WIN_SCROLL_LOCK then [icon_scroll_lock th] else []) ++
  (if has_bits (wn_flags v) WM_WIN_INPUT_LOCK then [icon_input_lock th] else []).

Definition icon_col v : Z := Z.max (fx v + 1) (fx v + fw v - nbtns v - 1 - nicons v).

Fixpoint icons_from (k : Z) (l : list (list Z)) v th : overlay :=
  match l with
  | [] => bare
  | s :: l => over (at_cell (fy v) k (glyph_cell s (sfg v th) (bbg v th) VT_ATTR_BOLD)) (icons_from (k + 1) l v th)
  end.

Definition icons_ov v th : overlay := icons_from (icon_col v) (icons v th) v th.

Lemma icons_length v th : zlen (icons v th) = nicons v.
Proof. unfold icons, nicons, b2z. by repeat destruct (has_bits _ _). Qed.

Lemma icons_from_app k l1 l2 v th r c : icons_from k (l1 ++ l2) v th r c = over (icons_from k l1 v th) (icons_from (k + zlen l1) l2 v th) r c.
Proof.
  revert k. induction l1 as [|s l1 IH]; intros k; cbn [app icons_from].
  - rewrite zlen_nil, Z.add_0_r. unfold over, bare. by destruct (icons_from _ _ _ _ _ _).
  - unfold over at 1. rewrite IH, zlen_cons. unfold over. by replace (k + 1 + zlen l1) with (k + (zlen l1 + 1)) by lia; repeat case_match.
Qed.

Lemma draw_icon_ok v th flag icon k s f : theme_glyph icon → paints R C s f →
  let l := if has_bits (wn_flags v) flag then [icon] else [] in
  yields (draw_icon tbl R C v th flag icon (k, s)) (λ x, x.1 = k + zlen l ∧ paints R C x.2 (shown f (icons_from k l v th))).
Proof.
  intros Hi Hs l. unfold draw_icon, l. destruct (has_bits _ _).
  - eapply yields_seq; [by apply draws_theme_glyph |]. intros s' H. cbn. split; [done |]. apply (paints_ext _ _ _ H).
    intros. unfold shown, over, bare. done.
  - cbn. rewrite zlen_nil, Z.add_0_r. split; [done |]. by apply (paints_ext _ _ _ Hs).
Qed.

Lemma draws_icons v th : theme_ok th → draws R C (draw_icons tbl R C v th) (icons_ov v th).
Proof.
  intros [Hg _] s f Hs. unfold theme_strings in Hg. cbn [app] in Hg. rewrite !Forall_cons in Hg. unfold draw_icons, icons_ov.
  replace (if fx v + fw v - nbtns v - 1 - nicons v <? fx v + 1 then fx v + 1 else fx v + fw v - nbtns v - 1 - nicons v)
    with (icon_col v) by (unfold icon_col; zbool; lia).
  eapply yields_seq; [apply draw_icon_ok; [tauto | exact Hs] |]. intros [k1 s1] [E1 H1]. cbn [fst snd] in E1, H1. subst k1.
  eapply yields_seq; [apply draw_icon_ok; [tauto | exact H1] |]. intros [k2 s2] [E2 H2]. cbn [fst snd] in E2, H2. subst k2.
  eapply yields_seq; [apply draw_icon_ok; [tauto | exact H2] |]. intros [k3 s3] [_ H3]. cbn [snd yields] in *.
  apply (paints_ext _ _ _ H3). intros r c _ _. rewrite !shown_over. unfold shown. f_equal. unfold icons.
  rewrite icons_from_app. unfold over at 3. rewrite icons_from_app. unfold over. by repeat case_match.
Qed.

Lemma icons_from_out k l v th r c : ¬ (r = fy v ∧ k <= c < k + zlen l) → icons_from k l v th r c = None.
Proof.
  revert k. induction l as [|s l IH]; intros k Ho; [done |]. cbn [icons_from]. rewrite zlen_cons in Ho. pose proof (zlen_nonneg l).
  unfold over. rewrite IH by lia. unfold at_cell. zbool.
Qed.

(** The sides, and the scrollbar over the right one. *)
Definition sides_ov v th : overlay := λ r c,
  if (fy v + 1 <=? r) && (r <? fy v + fh v - 1) then
    if c =? fx v + fw v - 1 then Some (glyph_cell (border_r th) (bfg v th) (bbg v th) 0)
    else if c =? fx v then Some (glyph_cell (border_l th) (bfg v th) (bbg v th) 0) else None
  else None.

Lemma draws_sides v th : theme_ok th → draws R C (draw_sides tbl R C v th) (sides_ov v th).
Proof.
  intros [Hg _]. unfold theme_strings in Hg. cbn [app] in Hg. rewrite !Forall_cons in Hg. unfold draw_sides. eapply draws_ext.
  - apply (draws_for row_key (λ r c, if c =? fx v + fw v - 1 then Some (glyph_cell (border_r th) (bfg v th) (bbg v th) 0)
      else if c =? fx v then Some (glyph_cell (border_l th) (bfg v th) (bbg v th) 0) else None)). intros i _.
    eapply draws_ext; [apply draws_seq; apply draws_theme_glyph; tauto |].
    intros r c _ _. unfold over, at_cell, row_key. zbool.
  - done.
Qed.

Definition bar_cell v th (start n r : Z) (bar : list Z) : vt_cell :=
  if (start <=? r) && (r <? start + n) then glyph_cell (scroll_thumb th) (sel_fg th) (bbg v th) VT_ATTR_BOLD
  else glyph_cell bar (bfg v th) (bbg v th) 0.

Definition scrollbar_ov v th : overlay := λ r c,
  if negb (scrolls v th && (c =? fx v + fw v - 1)) then None else
  let '(top, inner) := track v in
  if (top <=? r) && (r <? top + inner) then
    '(start, n) ← thumb v inner; bar ← scroll_track th; Some (bar_cell v th start n (r - top) bar)
  else if (4 <=? wn_h v) && (r =? fy v + wn_h v) then Some (glyph_cell (scroll_down th) (tfg v th) (bbg v th) 0)
  else if (4 <=? wn_h v) && (r =? fy v + 1) then Some (glyph_cell (scroll_up th) (tfg v th) (bbg v th) 0)
  else None.

Lemma draws_bar v th bar top inner start n : theme_glyph bar → theme_glyph (scroll_thumb th) →
  draws R C (for_up 0 inner (λ r,
      if (start <=? r) && (r <? start + n)
      then puts tbl R C (top + r) (fx v + fw v - 1) (scroll_thumb th) (sel_fg th) (bbg v th) VT_ATTR_BOLD 1
      else puts tbl R C (top + r) (fx v + fw v - 1) bar (bfg v th) (bbg v th) 0 1))
    (λ r c, if (0 <=? r - top) && (r - top <? inner) then if c =? fx v + fw v - 1 then Some (bar_cell v th start n (r - top) bar) else None else None).
Proof.
  intros Hb Ht. apply (draws_for (λ r _, r - top) (λ r c, if c =? fx v + fw v - 1 then Some (bar_cell v th start n (r - top) bar) else None)).
  intros i _. unfold bar_cell. destruct ((start <=? i) && (i <? start + n)) eqn:Ei;
    (eapply draws_ext; [by apply draws_theme_glyph |]; intros r c _ _; unfold at_cell;
     destruct (Z.eqb_spec r (top + i)) as [->|]; cbn [andb];
       [replace (top + i - top) with i by lia; by rewrite Ei, Z.eqb_refl | by rewrite (proj2 (Z.eqb_neq _ _)) by lia]).
Qed.

Lemma draws_scrollbar v th : theme_ok th → 1 <= wn_h v → (scrolls v th = true → is_Some (thumb v (track v).2)) →
  draws R C (draw_scrollbar tbl R C v th) (scrollbar_ov v th).
Proof.
  intros [Hg _] Hh Hthumb. unfold theme_strings in Hg. unfold draw_scrollbar, scrollbar_ov.
  destruct (scroll_track th) as [bar|] eqn:Eb.
  2: { unfold scrolls. rewrite Eb, andb_false_r. apply draws_nothing. }
  change (option_list (Some bar)) with [bar] in Hg. cbn [app] in Hg. rewrite !Forall_cons in Hg.
  destruct (scrolls v th) eqn:Es; [| apply draws_nothing]. cbn [andb].
  destruct (Hthumb eq_refl) as [[start n] Et]. unfold track in *. destruct (4 <=? wn_h v) eqn:E4; cbn [snd] in *; rewrite Et;
    (eapply draws_ext; [eapply draws_seq; [| rewrite (proj2 (Z.leb_gt _ _)) by zbool; cbn [mbind option_bind]; apply draws_bar; tauto] |]).
  - apply draws_seq; apply draws_theme_glyph; tauto.
  - intros r c _ _. unfold over, at_cell, fy. cbn [mbind option_bind]. zbool.
  - apply draws_nothing.
  - intros r c _ _. unfold over, bare. cbn [mbind option_bind]. zbool.
Qed.

Definition frame_ov v th : overlay :=
  over (edge_ov (fy v) (border_tl th) (border_t th) (border_tr th) v th)
    (over (title_ov v th) (over (buttons_ov v th) (over (icons_ov v th) (over (sides_ov v th) (over (scrollbar_ov v th)
      (edge_ov (fy v + fh v - 1) (border_bl th) (border_b th) (border_br th) v th)))))).

Lemma draws_frame m v th : theme_ok th → window_ready m th v → draws R C (draw_frame tbl R C v th) (frame_ov v th).
Proof.
  intros Hth [Hw Hh Ht Hb _]. unfold WM_MIN_WIDTH, WM_MIN_HEIGHT in *.
  assert (Forall theme_glyph (theme_strings th)) as Hg by apply Hth.
  unfold theme_strings in Hg. cbn [app] in Hg. rewrite !Forall_cons in Hg.
  unfold draw_frame, frame_ov.
  apply draws_seq; [apply draws_edge; (unfold fw; lia) || tauto |].
  apply draws_seq; [by apply draws_title |]. apply draws_seq; [apply draws_buttons |].
  apply draws_seq; [by apply draws_icons |]. apply draws_seq; [by apply draws_sides |].
  apply draws_seq; [apply draws_scrollbar; (done || lia) |]. apply draws_edge; (unfold fw; lia) || tauto.
Qed.

(** *** Where the parts are *)

Definition in_content v (row col : Z) : bool :=
  (wn_y v <=? row) && (row <? wn_y v + wn_h v) && (wn_x v <=? col) && (col <? wn_x v + wn_w v).

Lemma title_text_out m v th r c : window_ready m th v → title_text v th r c ≠ None →
  r = fy v ∧ fx v + 3 <= c < fx v + 3 + title_room v.
Proof.
  intros Hv Hne. destruct (decide (r = fy v ∧ fx v + 3 <= c < fx v + 3 + title_room v)) as [|Ho]; [done |].
  destruct Hne. unfold title_text.
  pose proof (layout_inside tbl (length (wn_title v)) (wn_title v) 0 (title_room v)) as [_ He].
  pose proof (layout_inside tbl (length (wn_title v)) (wn_title v) (fx v + 3) (fx v + 3 + title_width v)) as [Hl _].
  apply (glyphs_at_out tbl _ _ _ _ _ (fx v + 3) (fx v + 3 + title_width v)); [exact Hl |]. fold (title_width v) in He. unfold title_room in *. lia.
Qed.

Lemma nicons_range v : 0 <= nicons v <= 3.
Proof. unfold nicons, b2z. repeat case_match; lia. Qed.

Lemma nbtns_range v : 3 <= nbtns v <= 9.
Proof. unfold nbtns. case_match; lia. Qed.

Lemma title_room_range m v th : window_ready m th v → 0 <= title_width v <= title_room v ∧ 0 <= title_room v <= fw v - 4.
Proof.
  intros [Hw _ _ _ _]. unfold WM_MIN_WIDTH in Hw.
  pose proof (layout_inside tbl (length (wn_title v)) (wn_title v) 0 (title_room v)) as [_ He]. fold (title_width v) in He.
  pose proof (nicons_range v). pose proof (nbtns_range v). unfold title_room, fw in *. lia.
Qed.

(** The title bar's parts stay on it, between the corners. *)
Lemma title_inside m v th r c : window_ready m th v → title_ov v th r c ≠ None → r = fy v ∧ fx v + 1 <= c <= fx v + fw v - 1.
Proof.
  intros Hv Hne. pose proof (title_text_out m v th r c Hv) as Ht. pose proof (title_room_range m v th Hv) as [Hw Hr].
  revert Hne. unfold title_ov, over, at_cell.
  assert (∀ (k : Z) (x : vt_cell) (o : option vt_cell), fx v + 1 <= k <= fx v + fw v - 1 →
    (o ≠ None → r = fy v ∧ fx v + 1 <= c <= fx v + fw v - 1) →
    match o with Some y => Some y | None => if (r =? fy v) && (c =? k) then Some x else None end ≠ None →
    r = fy v ∧ fx v + 1 <= c <= fx v + fw v - 1) as Hk.
  { intros k x [y|] Hk Ho; [intros _; by apply Ho |]. destruct ((r =? fy v) && (c =? k)) eqn:E; [intros _; zbool; lia | done]. }
  apply Hk; [lia |]. destruct (bool_decide _); [done |]. intros Hne.
  destruct ((r =? fy v) && (c =? fx v + 3 + title_width v)) eqn:E1; [zbool; lia |].
  destruct (title_text v th r c) as [x|]; [destruct Ht; [done | lia] |]. revert Hne. apply (Hk (fx v + 2) _ None); [lia | done].
Qed.

Lemma over_some o1 o2 r c : over o1 o2 r c ≠ None ↔ o1 r c ≠ None ∨ o2 r c ≠ None.
Proof. unfold over. destruct (o2 r c); [intuition congruence | tauto]. Qed.

Lemma button_inside v th col cp fg r c : button_ov v th col cp fg r c ≠ None → r = fy v ∧ col <= c <= col + 2.
Proof. unfold button_ov. zbool. Qed.

Lemma buttons_inside v th r c : buttons_ov v th r c ≠ None → r = fy v ∧ fx v + 1 <= c <= fx v + fw v - 2.
Proof.
  unfold buttons_ov. destruct (Z.leb_spec 12 (fw v)); [| destruct (Z.leb_spec 6 (fw v)); [| done]].
  - rewrite !over_some. intros [H1%button_inside|[H1%button_inside|H1%button_inside]]; lia.
  - intros H1%button_inside. lia.
Qed.

Lemma icons_inside m v th r c : window_ready m th v → icons_ov v th r c ≠ None → r = fy v ∧ fx v + 1 <= c <= fx v + fw v - 2.
Proof.
  intros [Hw _ _ _ _] Hne. unfold WM_MIN_WIDTH in Hw.
  destruct (decide (r = fy v ∧ icon_col v <= c < icon_col v + zlen (icons v th))) as [[-> Hc]|Ho]; [| destruct Hne; by apply icons_from_out].
  rewrite icons_length in Hc. pose proof (nicons_range v). pose proof (nbtns_range v). unfold icon_col, fw in *. lia.
Qed.

Lemma scrollbar_inside v th r c : 1 <= wn_h v → scrollbar_ov v th r c ≠ None → c = fx v + fw v - 1 ∧ fy v + 1 <= r < fy v + fh v - 1.
Proof.
  intros Hh. unfold scrollbar_ov, track, fy, fh. destruct (scrolls v th && _) eqn:Es; [| done]. cbn [negb].
  apply andb_true_iff in Es as [_ ->%Z.eqb_eq]. intros Hne. split; [done |]. revert Hne. zbool.
Qed.

Lemma in_frame_spec v r c : in_frame v r c = true ↔ wn_y v - 1 <= r <= wn_y v + wn_h v ∧ wn_x v - 1 <= c <= wn_x v + wn_w v.
Proof. unfold in_frame, fx, fy, fw, fh. rewrite !andb_true_iff, !Z.leb_le, !Z.ltb_lt. lia. Qed.

Lemma in_content_spec v r c : in_content v r c = true ↔ wn_y v <= r < wn_y v + wn_h v ∧ wn_x v <= c < wn_x v + wn_w v.
Proof. unfold in_content. rewrite !andb_true_iff, !Z.leb_le, !Z.ltb_lt. lia. Qed.

Lemma edge_inside row l mid rt v th r c : edge_ov row l mid rt v th r c ≠ None ↔ r = row ∧ wn_x v - 1 <= c <= wn_x v + wn_w v.
Proof.
  unfold edge_ov, fx, fw. destruct (_ && _) eqn:E; rewrite ?andb_true_iff, ?andb_false_iff, ?Z.eqb_eq, ?Z.eqb_neq, ?Z.leb_le, ?Z.leb_gt, ?Z.ltb_lt, ?Z.ltb_ge in E.
  - split; [lia | done].
  - split; [done | lia].
Qed.

Lemma sides_inside v th r c : 0 <= wn_w v →
  (sides_ov v th r c ≠ None ↔ wn_y v <= r < wn_y v + wn_h v ∧ (c = wn_x v - 1 ∨ c = wn_x v + wn_w v)).
Proof. intros Hw. unfold sides_ov, fx, fy, fw, fh. zbool; (split; [intros _; lia | done]) || (split; [done | lia]). Qed.

(** The frame is the border around the content, and opaque there. *)
Lemma frame_inside m v th r c : window_ready m th v →
  (frame_ov v th r c ≠ None ↔ in_frame v r c = true ∧ in_content v r c = false).
Proof.
  intros Hv. pose proof (title_inside m v th r c Hv) as Ht. pose proof (buttons_inside v th r c) as Hb.
  pose proof (icons_inside m v th r c Hv) as Hi. destruct Hv as [Hw Hh _ _ _]. unfold WM_MIN_WIDTH, WM_MIN_HEIGHT in *.
  pose proof (scrollbar_inside v th r c ltac:(lia)) as Hs.
  rewrite <- not_true_iff_false, in_frame_spec, in_content_spec.
  unfold frame_ov. rewrite !over_some, !edge_inside, sides_inside by lia. unfold fx, fy, fw, fh in *.
  split.
  - intros [H|[H%Ht|[H%Hb|[H%Hi|[H|[H%Hs|H]]]]]]; lia.
  - intros H. assert (r = wn_y v - 1 ∨ r = wn_y v - 1 + (wn_h v + 2) - 1 ∨ wn_y v <= r < wn_y v + wn_h v) as [?|[?|?]] by lia.
    + left. lia.
    + do 6 right. lia.
    + do 4 right. left. lia.
Qed.

(** ** The content *)

Definition content_ov m v : overlay := λ r c,
  if in_content v r c then q ← win_vt v; st ← m !! q; unpredicted <$> vt_at st (r - wn_y v) (c - wn_x v) else None.

(** The first [n] rows of the content. *)
Definition content_rows (st : vt_state) v (n : Z) : overlay := λ r c,
  if (wn_y v <=? r) && (r <? wn_y v + n) && (wn_x v <=? c) && (c <? wn_x v + wn_w v)
  then unpredicted <$> vt_at st (r - wn_y v) (c - wn_x v) else None.

(** One row, of cells that are all there. *)
Lemma draws_cells row col n (src : list vt_cell) : n <= zlen src →
  draws R C (for_up 0 n (λ c s, match screen_cell R C row (col + c) with None => Some s | Some i => x ← aget src c; aset s i (unpredicted x) end))
    (λ r c, if (r =? row) && (col <=? c) && (c <? col + n) then unpredicted <$> aget src (c - col) else None).
Proof.
  intros Hn. eapply draws_ext.
  - apply (draws_for (λ _ c, c - col) (λ r c, if r =? row then unpredicted <$> aget src (c - col) else None)).
    intros i Hi. destruct (aget_in src i) as [x Ex]; [lia |].
    assert (draws R C (λ s, match screen_cell R C row (col + i) with None => Some s | Some j => aset s j (unpredicted x) end)
      (at_cell row (col + i) (unpredicted x))) as Hd by apply draws_cell.
    intros s f Hs. rewrite Ex. cbn [mbind option_bind]. eapply yields_mono; [by apply Hd |]. intros s' H'.
    apply (paints_ext _ _ _ H'). intros r c _ _. unfold shown, at_cell.
    destruct (Z.eqb_spec c (col + i)) as [->|]; rewrite ?andb_false_r, ?andb_true_r.
    + replace (col + i - col) with i by lia. rewrite Z.eqb_refl, Ex. by destruct (r =? row).
    + by rewrite (proj2 (Z.eqb_neq _ _)) by lia.
  - intros r c _ _. zbool.
Qed.

Lemma draw_content_row_ok R' C' st0 f v n s st :
  wf_state R' C' st0 → wn_w v <= C' → 0 <= n < R' → paints R C s (shown f (content_rows st0 v n)) → cleaned st0 st →
  yields (draw_content_row R C v n (s, st)) (λ k, paints R C k.1 (shown f (content_rows st0 v (n + 1))) ∧ cleaned st0 k.2).
Proof.
  intros Hwf Hw Hn Hs Hst. unfold draw_content_row. assert (wf_state R' C' st) as Hwf' by (by apply Hst).
  eapply yields_seq; [by apply (screen_row_ok R' C') |]. intros [vr|] Ho; [| lia]. destruct Ho as (_ & Ecs & Hz).
  eapply yields_seq; [apply (draws_cells (wn_y v + n) (wn_x v) (wn_w v) (VtBuf.cells vr)); [lia | exact Hs] |]. intros s' H'.
  eapply yields_seq; [by apply (clear_dirty_row_ok R' C') |]. intros st' Hst'. cbn [yields fst snd].
  split; [| by transitivity st]. apply (paints_ext _ _ _ H'). intros r c _ _. rewrite shown_over. unfold shown. f_equal.
  assert (row_cells st0 n = Some (cells vr)) as Ecs0 by (rewrite <- Ecs; symmetry; apply Hst).
  unfold over, content_rows. destruct (Z.eqb_spec r (wn_y v + n)) as [->|Hne].
  - replace (wn_y v + n - wn_y v) with n by lia. unfold vt_at. rewrite Ecs0. cbn [mbind option_bind].
    rewrite (proj2 (Z.leb_le (wn_y v) _)), (proj2 (Z.ltb_lt _ (wn_y v + (n + 1)))), (proj2 (Z.ltb_ge _ (wn_y v + n))) by lia. cbn [andb].
    destruct ((wn_x v <=? c) && (c <? wn_x v + wn_w v)) eqn:Ec; [| done]. by destruct (aget _ _).
  - cbn [andb]. replace (r <? wn_y v + (n + 1)) with (r <? wn_y v + n) by zbool. done.
Qed.

Lemma draw_content_ok m m' f v s : fills m v → 0 <= wn_h v → vts_cleaned m m' → paints R C s f →
  yields (draw_content R C v s m') (λ k, paints R C k.1 (shown f (content_ov m v)) ∧ vts_cleaned m k.2).
Proof.
  intros Hf Hh Hm Hs. unfold draw_content, content_ov, fills in *. destruct (win_vt v) as [q|].
  2: { cbn. split; [| done]. apply (paints_ext _ _ _ Hs). intros. unfold shown. by destruct (in_content _ _ _). }
  destruct (Hf q eq_refl) as (st0 & R' & C' & Eq & Hwf & Hr & Hc & _).
  pose proof (Hm q) as Hq. rewrite Eq in Hq. destruct (m' !! q) as [st|] eqn:Ek; inversion Hq as [? ? Hst|]; subst.
  cbn [mbind option_bind]. destruct (cur_buf_ok R' C' st) as (b & -> & _); [by apply Hst |].
  eapply (yields_seq _ _ (λ k, paints R C k.1 (shown f (content_rows st0 v (wn_h v))) ∧ cleaned st0 k.2)).
  - apply (for_up_inv (λ n k, paints R C k.1 (shown f (content_rows st0 v n)) ∧ cleaned st0 k.2)); [done | |].
    + cbn [fst snd]. split; [| done]. apply (paints_ext _ _ _ Hs). intros. unfold shown, content_rows. zbool.
    + intros n [s' st'] Hn [Hs' Hst']. apply (draw_content_row_ok R' C'); (done || lia).
  - intros [s' st'] [Hs' Hst']. cbn [yields fst snd] in *. split.
    + apply (paints_ext _ _ _ Hs'). intros r c _ _. unfold shown, content_rows, in_content. rewrite Eq. done.
    + intros i. destruct (decide (i = q)) as [->|]; [rewrite lookup_insert_eq, Eq; by constructor |]. by rewrite lookup_insert_ne.
Qed.

(** A terminal that fills the window leaves no hole. *)
Lemma content_there m v r c : fills m v → win_vt v ≠ None → in_content v r c = true → content_ov m v r c ≠ None.
Proof.
  intros Hf Hv Hin. unfold content_ov, fills in *. rewrite Hin. destruct (win_vt v) as [q|]; [| done].
  destruct (Hf q eq_refl) as (st & R' & C' & Eq & Hwf & Hr & Hc & _). cbn [mbind option_bind]. rewrite Eq. cbn [mbind option_bind].
  apply in_content_spec in Hin.
  pose proof (screen_row_ok R' C' st (r - wn_y v) Hwf) as ([vr|] & _ & Ho)%yields_Some; [| lia].
  destruct Ho as (_ & Ecs & Hz). unfold vt_at. rewrite Ecs. cbn [mbind option_bind].
  destruct (aget_in (cells vr) (c - wn_x v)) as [x ->]; [lia | done].
Qed.

(** ** The cursor *)

(** Is the cell the cursor of a window that has not the focus? *)
Definition marked m v (r c : Z) : bool :=
  match win_vt v with
  | None => false
  | Some q =>
      match m !! q with
      | None => false
      | Some st => negb (wn_focused v) && has_bits (modes st) VT_MODE_CURSOR_VIS &&
                   (r =? wn_y v + cursor_row st) && (c =? wn_x v + cursor_col st)
      end
  end.

Lemma draw_cursor_ok m m' f v s : fills m v → vts_cleaned m m' → paints R C s f →
  yields (draw_cursor R C v s m') (λ s', paints R C s' (λ r c, if marked m v r c then reversed (f r c) else f r c)).
Proof.
  intros Hf Hm Hs. unfold draw_cursor, marked, fills in *. destruct (win_vt v) as [q|]; [| done].
  destruct (Hf q eq_refl) as (st0 & R' & C' & Eq & Hwf & _). rewrite Eq. pose proof (Hm q) as Hq. rewrite Eq in Hq.
  destruct (m' !! q) as [st|] eqn:Ek; inversion Hq as [? ? (_ & _ & E1 & E2 & E3)|]; subst. cbn [mbind option_bind].
  destruct (wn_focused v); [done |]. rewrite E3. destruct (has_bits _ _); [| done]. cbn [negb andb].
  rewrite screen_cell_spec, E1, E2. case_bool_decide as Hin.
  - destruct Hin as [Hr Hc]. destruct Hs as [Hz Hs]. rewrite Hs by done. cbn [mbind option_bind].
    eapply yields_mono; [exact (paints_set s f _ _ _ (conj Hz Hs) Hr Hc) |]. intros s' H'. apply (paints_ext _ _ _ H').
    intros r c _ _. cbn beta. destruct ((r =? _) && (c =? _)) eqn:E; [| done].
    apply andb_true_iff in E as [->%Z.eqb_eq ->%Z.eqb_eq]. done.
  - cbn. apply (paints_ext _ _ _ Hs). intros r c Hr Hc. zbool.
Qed.

(** ** A window *)

Definition body_ov m v th : overlay := over (shadow_ov v th) (over (frame_ov v th) (content_ov m v)).

Definition window_ov m th v : overlay := λ r c,
  let th := theme_of th v in
  if marked m v r c then reversed <$> body_ov m v th r c else body_ov m v th r c.

(** The cursor of a window is on it. *)
Lemma marked_inside m th v r c : window_ready m th v → marked m v r c = true → in_frame v r c = true ∧ body_ov m v th r c ≠ None.
Proof.
  intros Hv Hm. pose proof (wy_fills _ _ _ Hv) as Hf. pose proof (frame_inside m v th r c Hv) as Hfr.
  unfold marked in Hm. destruct (win_vt v) as [q|] eqn:Eq; [| done].
  destruct (Hf q Eq) as (st & R' & C' & Em & Hwf & _ & _ & Hr & Hc). rewrite Em in Hm.
  rewrite !andb_true_iff, !Z.eqb_eq in Hm. destruct Hm as [[_ ->] ->].
  assert (in_frame v (wn_y v + cursor_row st) (wn_x v + cursor_col st) = true) as Hin by (apply in_frame_spec; lia).
  split; [done |]. unfold body_ov. rewrite !over_some. right.
  destruct (in_content v (wn_y v + cursor_row st) (wn_x v + cursor_col st)) eqn:Ec.
  - right. apply content_there; [exact Hf | congruence | exact Ec].
  - left. by apply Hfr.
Qed.

Lemma draw_window_ok m m' f th v s : theme_ok (theme_of th v) → window_ready m (theme_of th v) v → vts_cleaned m m' → paints R C s f →
  yields (draw_window tbl R C th v (s, m')) (λ k, paints R C k.1 (shown f (window_ov m th v)) ∧ vts_cleaned m k.2).
Proof.
  intros Hth Hv Hm Hs. pose proof Hv as [Hw Hh _ _ Hf]. unfold WM_MIN_HEIGHT in Hh. unfold draw_window.
  eapply yields_seq; [by apply draws_shadow |]. intros s1 H1. cbn beta in H1.
  eapply yields_seq; [by apply (draws_frame m) |]. intros s2 H2. cbn beta in H2.
  eapply yields_seq; [apply (draw_content_ok m m'); [done | lia | done | exact H2] |]. intros [s3 m3] [H3 Hm3]. cbn [fst snd] in *.
  eapply yields_seq; [by apply (draw_cursor_ok m m3) |]. intros s4 H4. cbn [yields fst snd]. split; [| done].
  apply (paints_ext _ _ _ H4). intros r c _ _. cbn beta. rewrite !shown_over. unfold window_ov, shown.
  fold (body_ov m v (theme_of th v)). destruct (marked m v r c) eqn:Em; [| done].
  destruct (marked_inside m (theme_of th v) v r c Hv Em) as [_ Hne]. by destruct (body_ov _ _ _ _ _).
Qed.

(** Windows on top of each other, the last on top. *)
Fixpoint stack m th (ws : list wm_window) : overlay :=
  match ws with [] => bare | v :: ws => over (window_ov m th v) (stack m th ws) end.

Definition drawable m th v : Prop := theme_ok (theme_of th v) ∧ window_ready m (theme_of th v) v.

Lemma draw_windows_ok m m' f th ws s : Forall (drawable m th) ws → vts_cleaned m m' → paints R C s f →
  yields (draw_windows tbl R C th ws (s, m')) (λ k, paints R C k.1 (shown f (stack m th ws)) ∧ vts_cleaned m k.2).
Proof.
  intros Hws. revert s f m'. induction Hws as [|v ws [Hth Hv] Hws IH]; intros s f m' Hm Hs; cbn [draw_windows stack].
  - cbn. split; [| done]. by apply (paints_ext _ _ _ Hs).
  - eapply yields_seq; [by apply (draw_window_ok m m' f) |]. intros [s1 m1] [H1 Hm1].
    eapply yields_mono; [by apply IH |]. intros k [H2 Hm2]. split; [| done]. apply (paints_ext _ _ _ H2).
    intros. apply shown_over.
Qed.
End Picture.
