(* ===== verification/WmSession.v ===== *)
(** * Sessions of the window manager

    What stays true of the windows whatever is asked of the manager, which window
    is hit, where a drag ends, and where the windows of a grid are. *)

From Stdlib Require Import SpecFloat.
From stdpp Require Import gmap.
From S2P Require Import Prelude Utf8 VtBuf VtState Tile TileComposite TileFrame Theme Wm WmText WmPicture.

(** ** The invariant *)

(** A window is large enough, and stays so when it is restored. *)
Record sized (v : wm_window) : Prop := {
  sz_w : WM_MIN_WIDTH <= wn_w v;
  sz_h : WM_MIN_HEIGHT <= wn_h v;
  sz_saved : wn_maximized v = true → WM_MIN_WIDTH <= wn_saved_w v ∧ WM_MIN_HEIGHT <= wn_saved_h v;
}.

Definition title_buf (s : list Z) : Prop := c_str s ∧ zlen s = WM_TITLE_MAX.

Record wm_ok (t : wm) : Prop := {
  wk_ids : NoDup (wn_id <$> windows t);
  wk_zs : NoDup (wn_z <$> windows t);
  wk_below : Forall (λ v, 0 <= wn_z v < next_z t) (windows t);
  wk_next : 0 <= next_z t;
  wk_count : wm_count t <= WM_MAX_WINDOWS;
  wk_focus : ∀ v v', v ∈ windows t → v' ∈ windows t → wn_focused v = true → wn_focused v' = true → wn_id v = wn_id v';
  wk_titles : Forall (λ v, title_buf (wn_title v)) (windows t);
  wk_sized : Forall sized (windows t);
  wk_edge : edge_top t = false;
  wk_rows : WM_MIN_HEIGHT + 2 <= wm_rows t;
  wk_cols : WM_MIN_WIDTH + 2 <= wm_cols t;
  wk_screen : zlen (wm_screen t) = wm_rows t * wm_cols t;
  wk_prev : ∃ p, prev_screen t = Some p ∧ zlen p = wm_rows t * wm_cols t;
  wk_dirty : ∃ d, wm_row_dirty t = Some d ∧ zlen d = wm_rows t;
}.

(** Only the windows of [t] and [t'] differ, and the flag. *)
Definition same_frame (t t' : wm) : Prop :=
  next_z t <= next_z t' ∧ edge_top t' = edge_top t ∧ wm_rows t' = wm_rows t ∧ wm_cols t' = wm_cols t ∧
  wm_screen t' = wm_screen t ∧ prev_screen t' = prev_screen t ∧ wm_row_dirty t' = wm_row_dirty t.

(** What the windows must promise. *)
Record wins_ok (nz : Z) (ws : list wm_window) : Prop := {
  ws_ids : NoDup (wn_id <$> ws);
  ws_zs : NoDup (wn_z <$> ws);
  ws_below : Forall (λ v, 0 <= wn_z v < nz) ws;
  ws_count : zlen ws <= WM_MAX_WINDOWS;
  ws_focus : ∀ v v', v ∈ ws → v' ∈ ws → wn_focused v = true → wn_focused v' = true → wn_id v = wn_id v';
  ws_titles : Forall (λ v, title_buf (wn_title v)) ws;
  ws_sized : Forall sized ws;
}.

Lemma wm_ok_wins t : wm_ok t → wins_ok (next_z t) (windows t).
Proof. by intros []. Qed.

Lemma wm_ok_change t t' : wm_ok t → same_frame t t' → wins_ok (next_z t') (windows t') → wm_ok t'.
Proof.
  intros [] (Hz & He & Hr & Hc & Hs & Hp & Hd) []. constructor; try done; try lia; try congruence;
    rewrite ?He, ?Hr, ?Hc, ?Hs, ?Hp, ?Hd; done || lia.
Qed.

(** A change of one window that is neither its id nor its place in the stack. *)
Definition keeps_place (f : wm_window → wm_window) : Prop :=
  ∀ v, wn_id (f v) = wn_id v ∧ wn_z (f v) = wn_z v ∧ wn_focused (f v) = wn_focused v ∧ wn_title (f v) = wn_title v.

Lemma fmap_alter_same {A B} (g : A → B) f i (l : list A) : (∀ a, g (f a) = g a) → g <$> alter f i l = g <$> l.
Proof.
  intros Hg. apply list_eq. intros j. rewrite !list_lookup_fmap. destruct (decide (i = j)) as [->|].
  - rewrite list_lookup_alter_eq. destruct (l !! j); cbn; [by rewrite Hg | done].
  - by rewrite list_lookup_alter_ne.
Qed.

Lemma elem_of_alter f i (l : list wm_window) v : v ∈ alter f i l → ∃ v0, v0 ∈ l ∧ (v = v0 ∨ v = f v0).
Proof.
  intros [j Hj]%list_elem_of_lookup. destruct (decide (i = j)) as [->|].
  - rewrite list_lookup_alter_eq in Hj. destruct (l !! j) as [v0|] eqn:E; [| done]. injection Hj as <-.
    exists v0. split; [by eapply list_elem_of_lookup_2 | by right].
  - rewrite list_lookup_alter_ne in Hj by done. exists v. split; [by eapply list_elem_of_lookup_2 | by left].
Qed.

Lemma Forall2_fmap_eq {A B} (g : A → B) l l' : Forall2 (λ a b, g b = g a) l l' → g <$> l' = g <$> l.
Proof. induction 1 as [|a b l l' E H IH]; [done |]. rewrite !fmap_cons. by rewrite E, IH. Qed.

Lemma wins_ok_map nz ws ws' (P : wm_window → wm_window → Prop) :
  wins_ok nz ws → Forall2 P ws ws' → (∀ v v', v ∈ ws → P v v' → wn_id v' = wn_id v ∧ wn_z v' = wn_z v ∧
    (wn_focused v' = true → wn_focused v = true) ∧ title_buf (wn_title v') ∧ sized v') → wins_ok nz ws'.
Proof.
  intros [Hid Hz Hb Hc Hf Ht Hs] H2 HP.
  assert (Forall2 (λ v v', v ∈ ws ∧ wn_id v' = wn_id v ∧ wn_z v' = wn_z v ∧
    (wn_focused v' = true → wn_focused v = true) ∧ title_buf (wn_title v') ∧ sized v') ws ws') as H.
  { apply Forall2_same_length_lookup. pose proof (Forall2_length _ _ _ H2). split; [done |]. intros i v v' Hv Hv'.
    assert (v ∈ ws) as Hin by (by eapply list_elem_of_lookup_2). split; [done |].
    apply HP; [done |]. by eapply Forall2_lookup_lr. }
  assert (wn_id <$> ws' = wn_id <$> ws ∧ wn_z <$> ws' = wn_z <$> ws) as [Eid Ez].
  { split; apply Forall2_fmap_eq; (eapply Forall2_impl; [exact H |]); by intros v v' (_ & E1 & E2 & _). }
  assert (∀ v', v' ∈ ws' → ∃ v, v ∈ ws ∧ wn_id v' = wn_id v ∧ wn_z v' = wn_z v ∧
    (wn_focused v' = true → wn_focused v = true) ∧ title_buf (wn_title v') ∧ sized v') as Hback.
  { intros v' [i Hi]%list_elem_of_lookup. destruct (Forall2_lookup_r _ _ _ _ _ H Hi) as (v & _ & Hv). by exists v. }
  constructor.
  - by rewrite Eid.
  - by rewrite Ez.
  - apply Forall_forall. intros v' (v & Hv & _ & -> & _)%Hback. by eapply Forall_forall in Hb.
  - unfold zlen in *. by rewrite <- (Forall2_length _ _ _ H2).
  - intros v1 v2 (u1 & H1 & -> & _ & F1 & _)%Hback (u2 & Hu2 & -> & _ & F2 & _)%Hback Hf1 Hf2. apply Hf; auto.
  - apply Forall_forall. intros v' (v & _ & _ & _ & _ & H' & _)%Hback. done.
  - apply Forall_forall. intros v' (v & _ & _ & _ & _ & _ & H')%Hback. done.
Qed.

Lemma Forall2_alter_self f i (ws : list wm_window) : Forall2 (λ v v', v' = v ∨ v' = f v) ws (alter f i ws).
Proof.
  apply Forall2_same_length_lookup. split; [by rewrite length_alter |]. intros j v v' Hv Hv'.
  destruct (decide (i = j)) as [->|].
  - rewrite list_lookup_alter_eq, Hv in Hv'. injection Hv' as <-. by right.
  - rewrite list_lookup_alter_ne, Hv in Hv' by done. injection Hv' as <-. by left.
Qed.

Lemma with_win_ok t k f : wm_ok t → (∀ v, v ∈ windows t → sized (f v)) → keeps_place f → wm_ok (with_win t k f).
Proof.
  intros Ht Hf Hk. unfold with_win. destruct (wm_find t k) as [i|]; [| done].
  apply (wm_ok_change t); [done | by split_and! |]. cbn. apply wm_ok_wins in Ht as Hw.
  apply (wins_ok_map _ _ _ _ Hw (Forall2_alter_self f i (windows t))). intros v v' Hv [->| ->].
  - split_and!; [done | done | done | |]; destruct Hw as [_ _ _ _ _ Hti Hsz]; rewrite Forall_forall in Hti, Hsz; auto.
  - destruct (Hk v) as (-> & -> & -> & ->). split_and!; [done | done | done | | by apply Hf].
    destruct Hw as [_ _ _ _ _ Hti _]. rewrite Forall_forall in Hti; auto.
Qed.

(** ** Finding *)

Lemma find_from_spec ws j k :
  match find_from ws j k with
  | Some i => (j <= i)%nat ∧ ∃ v, ws !! (i - j)%nat = Some v ∧ wn_id v = k
  | None => Forall (λ v, wn_id v ≠ k) ws
  end.
Proof.
  revert j. induction ws as [|v ws IH]; intros j; cbn [find_from]; [done |]. destruct (Z.eqb_spec (wn_id v) k).
  - split; [done |]. exists v. by rewrite Nat.sub_diag.
  - specialize (IH (S j)). destruct (find_from ws (S j) k) as [i|]; [| by constructor].
    destruct IH as [Hj (u & Hu & E)]. split; [lia |]. exists u. by replace (i - j)%nat with (S (i - S j))%nat by lia.
Qed.

Lemma wm_find_Some t k i : wm_find t k = Some i → ∃ v, windows t !! i = Some v ∧ wn_id v = k.
Proof.
  unfold wm_find. pose proof (find_from_spec (windows t) 0 k) as H. intros E. rewrite E in H.
  destruct H as [_ H]. by rewrite Nat.sub_0_r in H.
Qed.

Lemma wm_find_None t k : wm_find t k = None → k ∉ wn_id <$> windows t.
Proof.
  unfold wm_find. pose proof (find_from_spec (windows t) 0 k) as H. intros E. rewrite E in H.
  intros (v & -> & Hv)%list_elem_of_fmap. by rewrite Forall_forall in H; apply (H v).
Qed.

(** Ids are unique, so a window is found by its id. *)
Lemma wm_find_id t i v : NoDup (wn_id <$> windows t) → windows t !! i = Some v → wm_find t (wn_id v) = Some i.
Proof.
  intros Hnd Hv. destruct (wm_find t (wn_id v)) as [j|] eqn:E.
  - apply wm_find_Some in E as (u & Hu & Eu). f_equal. eapply NoDup_lookup; [exact Hnd | |]; rewrite list_lookup_fmap.
    + rewrite Hu. cbn. by rewrite Eu.
    + by rewrite Hv.
  - apply wm_find_None in E. destruct E. apply list_elem_of_fmap. exists v. split; [done |]. by eapply list_elem_of_lookup_2.
Qed.

(** ** Each operation *)

Lemma zero_title_ok : title_buf (replicate (Z.to_nat WM_TITLE_MAX) 0).
Proof.
  split; [| by rewrite zlen_replicate]. split; [by apply Forall_replicate |]. apply elem_of_replicate. split; [done |]. by vm_compute.
Qed.

Lemma wm_add_ok t k vt x y w h : wm_ok t → WM_MIN_WIDTH <= w → WM_MIN_HEIGHT <= h → wm_ok (wm_add t k vt x y w h).2.
Proof.
  intros Ht Hw Hh. unfold wm_add. destruct (Z.leb_spec WM_MAX_WINDOWS (wm_count t)); [done |].
  destruct (wm_find t k) as [i|] eqn:E; [done |]. apply wm_find_None in E. pose proof (wm_ok_wins t Ht) as [Hid Hz Hb Hc Hf Hti Hs].
  apply (wm_ok_change t); [done | split_and!; (done || cbn; lia) |]. cbn [windows needs snd next_z].
  set (v := mk_win _ _ _ _ _ _ _ _ _ _ _ _ _ _ _ _ _ _ _). pose proof (wk_next _ Ht).
  constructor; rewrite ?fmap_app, ?Forall_app, ?zlen_app.
  - apply NoDup_app. split; [done |]. split; [| by apply NoDup_singleton]. intros a Ha [->|[]%elem_of_nil]%elem_of_cons. done.
  - apply NoDup_app. split; [done |]. split; [| by apply NoDup_singleton]. intros a Ha [->|[]%elem_of_nil]%elem_of_cons.
    apply list_elem_of_fmap in Ha as (u & Eu & Hu). rewrite Forall_forall in Hb. specialize (Hb u Hu). cbn in Eu. lia.
  - split; [eapply Forall_impl; [exact Hb |]; cbn; lia |]. apply Forall_singleton. cbn. lia.
  - unfold wm_count in *. change (zlen [v]) with 1. lia.
  - assert (∀ u, u ∈ windows t ++ [v] → wn_focused u = true → u ∈ windows t) as Hold.
    { intros u [?|[->|[]%elem_of_nil]%elem_of_cons]%elem_of_app Hu; [done | done]. }
    intros v1 v2 H1 H2 F1 F2. apply Hf; auto.
  - split; [done |]. apply Forall_singleton. apply zero_title_ok.
  - split; [done |]. apply Forall_singleton. by constructor.
Qed.

(** Removing swaps the last window into the hole. *)
Lemma drop_win_perm i ws v : ws !! i = Some v → ws ≡ₚ v :: drop_win i ws.
Proof.
  intros Hi. unfold drop_win. destruct (list.last ws) as [u|] eqn:El.
  2: { apply last_None in El. by subst. }
  apply last_Some in El as [l ->]. rewrite length_app. cbn [length]. replace (length l + 1 - 1)%nat with (length l) by lia.
  destruct (decide (i < length l)%nat) as [Hlt|Hge].
  - rewrite lookup_app_l in Hi by done. rewrite insert_app_l, take_app_le, take_ge by (rewrite ?length_insert; lia).
    rewrite <- (take_drop_middle l i v Hi) at 1. rewrite insert_take_drop by done. solve_Permutation.
  - assert (i = length l) as ->.
    { apply lookup_lt_Some in Hi. rewrite length_app in Hi. cbn in Hi. lia. }
    rewrite list_lookup_middle in Hi by done. injection Hi as ->. rewrite insert_app_r_alt, take_app_length by done. solve_Permutation.
Qed.

Lemma wins_ok_perm nz ws ws' : ws ≡ₚ ws' → wins_ok nz ws → wins_ok nz ws'.
Proof.
  intros HP [Hid Hz Hb Hc Hf Hti Hs]. constructor.
  - by rewrite <- HP.
  - by rewrite <- HP.
  - by rewrite <- HP.
  - unfold zlen in *. by rewrite <- HP.
  - intros v v'. rewrite <- HP. apply Hf.
  - by rewrite <- HP.
  - by rewrite <- HP.
Qed.

Lemma wins_ok_tail nz v ws : wins_ok nz (v :: ws) → wins_ok nz ws.
Proof.
  intros [Hid Hz Hb Hc Hf Hti Hs]. rewrite fmap_cons in Hid, Hz. apply NoDup_cons in Hid as [_ Hid]. apply NoDup_cons in Hz as [_ Hz].
  apply Forall_cons in Hb as [_ Hb]. apply Forall_cons in Hti as [_ Hti]. apply Forall_cons in Hs as [_ Hs]. rewrite zlen_cons in Hc.
  constructor; try done; [lia |]. intros u u' Hu Hu'. apply Hf; by right.
Qed.

Lemma wm_remove_ok t k : wm_ok t → wm_ok (wm_remove t k).
Proof.
  intros Ht. unfold wm_remove. destruct (wm_find t k) as [i|] eqn:E; [| done]. apply wm_find_Some in E as (v & Hv & _).
  apply (wm_ok_change t); [done | by split_and! |]. cbn. apply (wins_ok_tail _ v).
  eapply wins_ok_perm; [by apply drop_win_perm | by apply wm_ok_wins].
Qed.

(** Bringing to the front. *)
Lemma wm_raise_ok t k : wm_ok t → wm_ok (wm_raise t k).
Proof.
  intros Ht. unfold wm_raise. destruct (wm_find t k) as [i|] eqn:E; [| done]. apply wm_find_Some in E as (v & Hv & _).
  pose proof (wk_next _ Ht). pose proof (wm_ok_wins _ Ht) as [Hid Hz Hb Hc Hf Hti Hs].
  apply (wm_ok_change t); [done | split_and!; (done || cbn; lia) |]. cbn [windows needs next_z].
  set (f := λ v, {| v with wn_z := next_z t |}). assert (∀ j u, alter f i (windows t) !! j = Some u →
    ∃ u0, windows t !! j = Some u0 ∧ u = if decide (i = j) then f u0 else u0) as Hat.
  { intros j u Hu. destruct (decide (i = j)) as [->|].
    - rewrite list_lookup_alter_eq in Hu. destruct (windows t !! j) as [u0|]; [| done]. injection Hu as <-. by exists u0.
    - rewrite list_lookup_alter_ne in Hu by done. by exists u. }
  assert (∀ u, u ∈ alter f i (windows t) → ∃ u0, u0 ∈ windows t ∧ wn_id u = wn_id u0 ∧ wn_focused u = wn_focused u0 ∧ wn_title u = wn_title u0 ∧
    (sized u0 → sized u) ∧ (wn_z u = wn_z u0 ∨ wn_z u = next_z t)) as Hold.
  { intros u (u0 & Hu0 & [->| ->])%elem_of_alter; (exists u0; split_and!; [done | done | done | done | | ]); auto. by intros []. }
  constructor.
  - rewrite fmap_alter_same; done.
  - apply NoDup_alt. intros j j' a Hj Hj'. rewrite list_lookup_fmap in Hj, Hj'. apply fmap_Some in Hj as (u & Hu & ->), Hj' as (u' & Hu' & Ez).
    apply Hat in Hu as (u0 & Hu & ->), Hu' as (u0' & Hu' & ->). rewrite Forall_forall in Hb.
    pose proof (Hb u0 ltac:(by eapply list_elem_of_lookup_2)). pose proof (Hb u0' ltac:(by eapply list_elem_of_lookup_2)).
    destruct (decide (i = j)), (decide (i = j')); cbn in Ez; [congruence | lia | lia |].
    apply (NoDup_lookup (wn_z <$> windows t) j j' (wn_z u0)); [exact Hz | by rewrite list_lookup_fmap, Hu | rewrite list_lookup_fmap, Hu'; cbn; by rewrite Ez].
  - apply Forall_forall. intros u (u0 & Hu0 & _ & _ & _ & _ & Ez)%Hold. rewrite Forall_forall in Hb. specialize (Hb u0 Hu0). lia.
  - unfold zlen in *. by rewrite length_alter.
  - intros u u' (u0 & Hu0 & -> & -> & _)%Hold (u0' & Hu0' & -> & -> & _)%Hold. by apply Hf.
  - apply Forall_forall. intros u (u0 & Hu0 & _ & _ & -> & _)%Hold. rewrite Forall_forall in Hti. by apply Hti.
  - apply Forall_forall. intros u (u0 & Hu0 & _ & _ & _ & Hu & _)%Hold. rewrite Forall_forall in Hs. by apply Hu, Hs.
Qed.

Definition refocused (k : Z) (v : wm_window) : wm_window := {| v with wn_focused := wn_id v =? k |}.

Lemma Forall2_map_self {A} (f : A → A) l : Forall2 (λ a b, b = f a) l (map f l).
Proof. induction l; by constructor. Qed.

Lemma wm_focus_ok t k : wm_ok t → wm_ok (wm_focus t k).
Proof.
  intros Ht. unfold wm_focus. cbn zeta. fold (refocused k). set (t1 := with_windows _ t).
  assert (wm_ok t1) as Ht1.
  { pose proof (wm_ok_wins _ Ht) as [Hid Hz Hb Hc Hf Hti Hs]. apply (wm_ok_change t); [done | by split_and! |].
    pose proof (Forall2_map_self (refocused k) (windows t)) as H2. change (windows t1) with (map (refocused k) (windows t)).
    assert (∀ {B} (g : wm_window → B), (∀ v, g (refocused k v) = g v) → g <$> map (refocused k) (windows t) = g <$> windows t) as Hg.
    { intros B g Hg. apply Forall2_fmap_eq. eapply Forall2_impl; [exact H2 |]. intros v v' ->. by rewrite Hg. }
    constructor.
    - by rewrite Hg.
    - by rewrite Hg.
    - by apply Forall_map.
    - by rewrite zlen_map.
    - intros u u' (v & -> & Hv)%list_elem_of_fmap (v' & -> & Hv')%list_elem_of_fmap. cbn. rewrite !Z.eqb_eq. congruence.
    - by apply Forall_map.
    - apply Forall_map. eapply Forall_impl; [exact Hs |]. by intros v []. }
  assert (wm_ok (wm_raise t1 k)) as Hr by (by apply wm_raise_ok).
  apply (wm_ok_change (wm_raise t1 k)); [done | by split_and! | by apply (wm_ok_wins (wm_raise t1 k))].
Qed.

Lemma wm_forget_ok t vt : wm_ok t → wm_ok (wm_forget_vt t vt).
Proof.
  intros Ht. unfold wm_forget_vt. destruct vt as [p|]; [| done]. cbn zeta. set (f := λ v, if shows p v then _ else _).
  assert (wins_ok (next_z t) (map f (windows t))) as Hw.
  { apply (wins_ok_map _ _ _ _ (wm_ok_wins _ Ht) (Forall2_map_self f (windows t))). intros v v' Hv ->.
    pose proof (wk_titles _ Ht) as Hti. pose proof (wk_sized _ Ht) as Hsz. rewrite Forall_forall in Hti, Hsz.
    destruct (Hsz v Hv). specialize (Hti v Hv). unfold f. destruct (shows p v); split_and!; try done; by auto. }
  destruct (existsb _ _); [| done]. by apply (wm_ok_change t); [| split_and! | exact Hw].
Qed.

(** Another window at the place of one, with its id and its height in the stack. *)
Lemma set_win_ok t i v v' : wm_ok t → windows t !! i = Some v → wn_id v' = wn_id v → wn_z v' = wn_z v → wn_focused v' = wn_focused v →
  title_buf (wn_title v') → sized v' → wm_ok (needs (with_windows (<[i := v']> (windows t)) t)).
Proof.
  intros Ht Hv Eid Ez Ef Hti' Hs'. apply (wm_ok_change t); [done | by split_and! |]. cbn [needs windows with_windows next_z].
  apply (wins_ok_map _ _ _ (λ u u', u' = u ∨ (u = v ∧ u' = v')) (wm_ok_wins _ Ht)).
  - apply Forall2_same_length_lookup. split; [by rewrite length_insert |]. intros j u u' Hu Hu'.
    destruct (decide (i = j)) as [->|]; [right | left]; [| rewrite list_lookup_insert_ne in Hu' by done; congruence].
    rewrite list_lookup_insert_eq in Hu' by (by eapply lookup_lt_Some). split; congruence.
  - pose proof (wk_sized _ Ht) as Hsz. pose proof (wk_titles _ Ht) as Hti. rewrite Forall_forall in Hsz, Hti.
    intros u u' Hu [->|[-> ->]]; [by split_and!; auto |]. split_and!; (done || congruence).
Qed.

(** The string cut to fit, with its NUL. *)
Lemma wm_set_title_ok t k s : wm_ok t → c_str s → yields (wm_set_title t k s) wm_ok.
Proof.
  intros Ht Hs. unfold wm_set_title. destruct (wm_find t k) as [i|] eqn:E; [| done].
  apply wm_find_Some in E as (v & Hv & _). rewrite Hv. cbn [mbind option_bind].
  assert (v ∈ windows t) as Hin by (by eapply list_elem_of_lookup_2).
  pose proof (wk_titles _ Ht) as Hti. pose proof (wk_sized _ Ht) as Hsz. rewrite Forall_forall in Hti, Hsz.
  destruct (Hti v Hin) as [[Hb H0] Hz]. destruct (Hsz v Hin).
  eapply yields_seq; [by apply utf8_trunc_c_str |]. intros n [Hn [Hbd H0d]].
  assert (n <= zlen s) as Hns.
  { destruct (decide (n <= zlen s)); [done |]. rewrite drop_ge in H0d by (unfold zlen in *; lia). by apply not_elem_of_nil in H0d. }
  rewrite !aslice_ok by lia. cbn [mbind option_bind]. change (Z.to_nat 0) with 0%nat. rewrite drop_0.
  set (arr := take (Z.to_nat n) s ++ drop (Z.to_nat n) (wn_title v)).
  assert (zlen arr = WM_TITLE_MAX) as Ha by (unfold arr; rewrite zlen_app, zlen_take, zlen_drop by lia; unfold zlen in *; lia).
  rewrite aset_in by (unfold WM_TITLE_MAX in *; lia). cbn [mbind option_bind yields].
  apply (set_win_ok t i v); [done.. | | by constructor]. split; [| by cbn; rewrite zlen_insert]. split; cbn [wn_title].
  - apply Forall_insert; [| done]. apply Forall_app. split; [by apply Forall_take, Hs | by apply Forall_drop].
  - apply list_elem_of_lookup. exists (Z.to_nat n). apply list_lookup_insert_eq. unfold zlen, WM_TITLE_MAX in *. lia.
Qed.

Lemma wm_toggle_ok t k : wm_ok t → yields (wm_toggle_maximize t k) (λ x, wm_ok x.2).
Proof.
  intros Ht. unfold wm_toggle_maximize. destruct (wm_find t k) as [i|] eqn:E; [| done].
  apply wm_find_Some in E as (v & Hv & _). rewrite Hv. cbn [mbind option_bind yields snd].
  pose proof (wk_sized _ Ht) as Hsz. pose proof (wk_rows _ Ht). pose proof (wk_cols _ Ht). rewrite Forall_forall in Hsz.
  apply with_win_ok; [done | |].
  - intros u [Hw Hh Hsv]%Hsz. unfold toggled. destruct (wn_maximized u).
    + destruct (Hsv eq_refl). by constructor.
    + constructor; cbn; [lia | lia | done].
  - intros u. unfold toggled. by destruct (wn_maximized u).
Qed.

Lemma wm_resize_ok al rows cols t :
  wm_ok t → (got_screen al = true → got_prev al = true ∧ got_dirty al = true) →
  WM_MIN_HEIGHT + 2 <= rows → WM_MIN_WIDTH + 2 <= cols → yields (wm_resize al rows cols t) wm_ok.
Proof.
  intros Ht Hal Hr Hc. unfold wm_resize, calloc. unfold WM_MIN_HEIGHT, WM_MIN_WIDTH in *.
  rewrite !(proj2 (Z.ltb_ge (rows * cols) 0)), (proj2 (Z.ltb_ge rows 0)) by nia. cbn [mbind option_bind].
  destruct (got_screen al); [| done]. destruct (Hal eq_refl) as [-> ->]. cbn [yields].
  destruct Ht. constructor; try done; cbn [wm_screen prev_screen wm_row_dirty wm_rows wm_cols];
    try (eexists; split; [reflexivity |]); rewrite ?zlen_replicate, ?Z2Nat.id by nia; unfold WM_MIN_HEIGHT, WM_MIN_WIDTH; lia.
Qed.

(** ** What is hit *)

Definition under (row col : Z) (v : wm_window) : Prop := wn_minimized v = false ∧ in_frame v row col = true.

(** The highest window there. *)
Definition topmost (t : wm) (row col : Z) (v : wm_window) : Prop :=
  v ∈ windows t ∧ under row col v ∧ ∀ u, u ∈ windows t → under row col u → wn_z u <= wn_z v.

Lemma higher_fold row col ws b :
  let z b := from_option wn_z (-1) b in
  let x := foldl (higher row col) (b, z b) ws in
  x.2 = z x.1 ∧ z b <= x.2 ∧ (x.1 = b ∨ ∃ v, x.1 = Some v ∧ v ∈ ws ∧ under row col v) ∧
  ∀ u, u ∈ ws → under row col u → wn_z u <= x.2.
Proof.
  cbn zeta. revert b. induction ws as [|v ws IH]; intros b; cbn [foldl].
  { split_and!; [done | done | by left |]. by intros u ?%elem_of_nil. }
  destruct (decide (under row col v ∧ from_option wn_z (-1) b < wn_z v)) as [[[E1 E2] Hlt]|Hno].
  - assert (higher row col (b, from_option wn_z (-1) b) v = (Some v, from_option wn_z (-1) (Some v))) as ->.
    { unfold higher. rewrite E1, E2. cbn [snd andb]. by rewrite (proj2 (Z.ltb_lt _ _)). }
    destruct (IH (Some v)) as (H1 & H2 & H3 & H4). split_and!; [done | cbn in *; lia | right |].
    + destruct H3 as [->|(u & -> & Hu & Hun)]; [exists v | exists u]; split_and!; (done || by constructor).
    + intros u [->|Hu]%elem_of_cons Hun; [done | by apply H4].
  - assert (higher row col (b, from_option wn_z (-1) b) v = (b, from_option wn_z (-1) b)) as ->.
    { unfold higher, under in *. destruct (wn_minimized v); [done |]. destruct (in_frame v row col); [| done]. cbn [snd andb].
      rewrite (proj2 (Z.ltb_ge _ _)); [done |]. destruct (decide (from_option wn_z (-1) b < wn_z v)); [by destruct Hno | lia]. }
    destruct (IH b) as (H1 & H2 & H3 & H4). split_and!; [done | done | |].
    + destruct H3 as [->|(u & -> & Hu & Hun)]; [by left | right; exists u; split_and!; (done || by constructor)].
    + intros u [->|Hu]%elem_of_cons Hun; [| by apply H4].
      destruct (decide (from_option wn_z (-1) b < wn_z v)); [by destruct Hno | lia].
Qed.

Lemma wm_hit_spec t row col : wm_ok t →
  match wm_hit_test t row col with
  | Some (k, area) => ∃ v, topmost t row col v ∧ k = wn_id v ∧ area = hit_area v row col
  | None => ∀ v, v ∈ windows t → ¬ under row col v
  end.
Proof.
  intros Ht. unfold wm_hit_test. pose proof (higher_fold row col (windows t) None) as H. cbn zeta in H.
  change (from_option wn_z (-1) None) with (-1) in H. destruct (foldl _ _ _) as [[v|] z]; cbn [fst snd] in *; destruct H as (Hz & _ & Hin & Htop).
  - cbn [mbind option_bind]. exists v. split; [| done]. destruct Hin as [|(u & [= <-] & Hv & Hu)]; [done |].
    split_and!; try done. intros u Hu' Hun. subst z. by apply Htop.
  - cbn [mbind option_bind]. intros v Hv Hu. pose proof (Htop v Hv Hu). pose proof (wk_below _ Ht) as Hb. rewrite Forall_forall in Hb.
    specialize (Hb v Hv). cbn in Hz. lia.
Qed.

Lemma hit_area_border v row col : in_frame v row col = true → hit_area v row col = WM_HIT_BORDER → wn_y v <= row.
Proof.
  intros Hin%in_frame_spec H. destruct (decide (wn_y v <= row)); [done |]. exfalso. revert H.
  unfold hit_area, fy. replace (row =? wn_y v - 1) with true by (symmetry; apply Z.eqb_eq; lia). by repeat case_match.
Qed.

(** The clicked window comes to the front. *)
Lemma wm_focus_lookup t i v : wm_ok t → windows t !! i = Some v →
  wm_find (wm_focus t (wn_id v)) (wn_id v) = Some i ∧
  windows (wm_focus t (wn_id v)) !! i = Some {| v with wn_focused := true; wn_z := next_z t |} ∧
  ∀ j u, j ≠ i → windows (wm_focus t (wn_id v)) !! j = Some u ↔ ∃ u0, windows t !! j = Some u0 ∧ u = {| u0 with wn_focused := false |}.
Proof.
  intros Ht Hv. pose proof (wm_focus_ok t (wn_id v) Ht) as Hok. pose proof (wk_ids _ Ht) as Hnd.
  set (t1 := with_windows (map (refocused (wn_id v)) (windows t)) t).
  assert (∀ j, windows t1 !! j = refocused (wn_id v) <$> windows t !! j) as Hj by (intros j; apply list_lookup_fmap).
  assert (wn_id <$> windows t1 = wn_id <$> windows t) as Eid by (cbn; rewrite <- list_fmap_compose; by apply list_fmap_ext).
  assert (wm_find t1 (wn_id v) = Some i) as Ef.
  { apply (wm_find_id t1 i (refocused (wn_id v) v)); [by rewrite Eid | by rewrite Hj, Hv]. }
  assert (windows (wm_focus t (wn_id v)) = alter (λ u, {| u with wn_z := next_z t |}) i (windows t1)) as Ew.
  { unfold wm_focus. fold (refocused (wn_id v)). fold t1. cbn zeta. unfold wm_raise. by rewrite Ef. }
  assert (windows (wm_focus t (wn_id v)) !! i = Some {| v with wn_focused := true; wn_z := next_z t |}) as Hi.
  { rewrite Ew, list_lookup_alter_eq, Hj, Hv. cbn. unfold refocused. by rewrite Z.eqb_refl. }
  split; [| split; [done |]].
  - apply (wm_find_id _ i {| v with wn_focused := true; wn_z := next_z t |}); [by apply Hok | done].
  - intros j u Hne. rewrite Ew, list_lookup_alter_ne, Hj by done.
    assert (∀ u0, windows t !! j = Some u0 → refocused (wn_id v) u0 = {| u0 with wn_focused := false |}) as Hr.
    { intros u0 Hu0. unfold refocused. rewrite (proj2 (Z.eqb_neq _ _)); [done |]. intros E. destruct Hne.
      eapply NoDup_lookup; [exact Hnd | |]; rewrite list_lookup_fmap; [rewrite Hu0; cbn; by rewrite E | by rewrite Hv]. }
    split.
    + intros (u0 & Hu0 & ->)%fmap_Some. exists u0. by rewrite Hr.
    + intros (u0 & Hu0 & ->). rewrite Hu0. cbn. by rewrite Hr.
Qed.

(** What a press leaves: the window hit focused, and the drag that starts. *)
Definition grabs (area : wm_hit) : wm_drag :=
  match area with
  | WM_HIT_TITLE => WM_DRAG_MOVING
  | WM_HIT_BORDER => WM_DRAG_RESIZING
  | WM_HIT_SCROLLBAR => WM_DRAG_SCROLLING
  | _ => WM_DRAG_IDLE
  end.

Definition pressed (t : wm) (v : wm_window) (row col : Z) (t1 : wm) : Prop :=
  let g := grabs (hit_area v row col) in
  windows t1 = windows (wm_focus t (wn_id v)) ∧
  match g with
  | WM_DRAG_IDLE => t1 = wm_focus t (wn_id v)
  | _ => wm_drag_state t1 = g ∧ wm_drag_id t1 = wn_id v ∧ anchor_row t1 = row ∧ anchor_col t1 = col ∧
         (g ≠ WM_DRAG_SCROLLING → orig_x t1 = wn_x v ∧ orig_y t1 = wn_y v) ∧
         (g = WM_DRAG_RESIZING → orig_w t1 = wn_w v ∧ orig_h t1 = wn_h v ∧ edge_left t1 = (col <? wn_x v))
  end.

Lemma press_ok t row col : wm_ok t → yields (wm_mouse_press t row col) (λ '(g, hit, t1),
  wm_ok t1 ∧ hit = wm_hit_test t row col ∧
  match hit with
  | None => g = WM_DRAG_IDLE ∧ t1 = t
  | Some (k, area) => ∃ v, topmost t row col v ∧ k = wn_id v ∧ area = hit_area v row col ∧ g = grabs area ∧ pressed t v row col t1
  end).
Proof.
  intros Ht. unfold wm_mouse_press. pose proof (wm_hit_spec t row col Ht) as H. destruct (wm_hit_test t row col) as [[k area]|]; [| done].
  destruct H as (v & Htop & -> & ->). pose proof Htop as (Hin & (_ & Hfr) & _). apply list_elem_of_lookup in Hin as [i Hv].
  destruct (wm_focus_lookup t i v Ht Hv) as (Ef & Ei & _). pose proof (wm_focus_ok t (wn_id v) Ht) as Hok.
  pose proof (hit_area_border v row col Hfr) as Hb. cbn zeta. rewrite Ef. cbn [mbind option_bind]. rewrite Ei.
  remember (wm_focus t (wn_id v)) as t1 eqn:Et1.
  assert (∀ t2, same_frame t1 t2 → windows t2 = windows t1 → wm_ok t2) as Hsame.
  { intros t2 Hs Ew. apply (wm_ok_change t1); [done | done |]. rewrite Ew. destruct (wm_ok_wins _ Hok) as [H1 H2 H3 H4 H5 H6 H7].
    constructor; try done. eapply Forall_impl; [exact H3 |]. destruct Hs. cbn. lia. }
  unfold pressed. destruct (hit_area v row col) eqn:Ea; cbn [yields];
    (split; [| split; [done | exists v; rewrite Ea, <- Et1; cbn [grabs]; by split_and!]]); try exact Hok; apply Hsame; try done.
  split_and!; try done. cbn. rewrite (wk_edge _ Hok). apply Z.ltb_ge. by apply Hb.
Qed.

(** ** Where a drag ends *)

Definition dragged_to (t : wm) (v : wm_window) (row col : Z) : wm_window :=
  let dr := row - anchor_row t in
  let dc := col - anchor_col t in
  match wm_drag_state t with
  | WM_DRAG_MOVING => place (orig_x t + dc) (orig_y t + dr) (wn_w v) (wn_h v) v
  | WM_DRAG_RESIZING =>
      let x := dragged (edge_left t) WM_MIN_WIDTH (orig_x t) (orig_w t) (wn_x v) dc in
      let y := dragged (edge_top t) WM_MIN_HEIGHT (orig_y t) (orig_h t) (wn_y v) dr in
      place x.1 y.1 x.2 y.2 v
  | _ => v
  end.

Definition scrolled_to (v : wm_window) (row : Z) : spec_float :=
  let '(top, inner) := track v in
  f32_clamp (if inner <=? 0 then f32_zero else f32_div (f32_of_int (row - top)) (f32_of_int (inner - 1))).

(** The window after a drag to a point.  A position equal to the old one is not
    stored. *)
Definition aimed (t : wm) (v : wm_window) (row col : Z) (u : wm_window) : Prop :=
  match wm_drag_state t with
  | WM_DRAG_SCROLLING => ∃ p, u = {| v with scroll_pos := p |} ∧ (p = scrolled_to v row ∨ SFeqb (scrolled_to v row) p = true)
  | _ => u = dragged_to t v row col
  end.

Definition with_win_at (t : wm) (i : nat) (u : wm_window) (b : bool) : wm :=
  {| t with windows := <[i := u]> (windows t); composite_needed := b |}.

Lemma dragged_keeps pos0 len0 pos d min : (dragged false min pos0 len0 pos d).1 = pos.
Proof. unfold dragged. by case_match. Qed.

Lemma dragged_len near min pos0 len0 pos d :
  (dragged near min pos0 len0 pos d).2 = Z.max min (if near then len0 - d else len0 + d).
Proof. unfold dragged. destruct near; cbn; case_match; cbn; lia. Qed.

(** The far edge stays where it was. *)
Lemma dragged_far min pos0 len0 pos d :
  let x := dragged true min pos0 len0 pos d in x.1 + x.2 = pos0 + len0.
Proof. cbn zeta. unfold dragged. case_match; cbn; lia. Qed.

Section Dragging.
Context (t1 : wm) (i : nat) (v : wm_window).
Context (Hnd : NoDup (wn_id <$> windows t1)) (Hv : windows t1 !! i = Some v) (Hid : wn_id v = wm_drag_id t1).
Context (Htop : edge_top t1 = false).

(** The window during the drag. *)
Definition during (u : wm_window) : Prop := u = v ∨ ∃ row col, aimed t1 v row col u.

(** A move keeps the size; a resize does not move the top edge, nor the left one
    when the right is dragged. *)
Lemma during_shape u : during u →
  match wm_drag_state t1 with
  | WM_DRAG_SCROLLING => ∃ p, u = {| v with scroll_pos := p |}
  | g => ∃ x y w h, u = place x y w h v ∧ (g = WM_DRAG_MOVING → w = wn_w v ∧ h = wn_h v) ∧
           (g = WM_DRAG_RESIZING → y = wn_y v ∧ (edge_left t1 = false → x = wn_x v))
  end.
Proof.
  unfold during, aimed, dragged_to. rewrite Htop. intros H.
  assert (u = v → u = place (wn_x v) (wn_y v) (wn_w v) (wn_h v) v) as Hself by (intros ->; by destruct v).
  destruct (wm_drag_state t1); (destruct H as [H|(row & col & H)]).
  1,3,5: (do 4 eexists; split; [by apply Hself | done]).
  1-3: (do 4 eexists; split; [first [exact H | exact (Hself H)] |]).
  - done.
  - done.
  - split; [done |]. intros _. split; [apply dragged_keeps |]. intros ->. apply dragged_keeps.
  - exists (scroll_pos v). subst u. by destruct v.
  - destruct H as (p & -> & _). by exists p.
Qed.

Lemma drag_step u b row col : wm_drag_state t1 ≠ WM_DRAG_IDLE → during u →
  yields (wm_mouse_drag (with_win_at t1 i u b) row col) (λ x, ∃ u' b', x.2 = with_win_at t1 i u' b' ∧ aimed t1 v row col u').
Proof.
  intros Hg Hu. pose proof (during_shape u Hu) as Hsh.
  set (t := with_win_at t1 i u b). assert (windows t !! i = Some u) as Hi by (apply list_lookup_insert_eq; by eapply lookup_lt_Some).
  assert (wn_id u = wn_id v) as Eid.
  { destruct (wm_drag_state t1); [destruct Hsh as (? & ? & ? & ? & -> & _).. | destruct Hsh as (? & ->)]; done. }
  assert (wm_find t (wm_drag_id t) = Some i) as Ef.
  { change (wm_drag_id t) with (wm_drag_id t1). rewrite <- Hid, <- Eid. apply wm_find_id; [| done]. cbn.
    rewrite list_fmap_insert, Eid, list_insert_id; [done |]. by rewrite list_lookup_fmap, Hv. }
  assert (∀ u', <[i := u']> (windows t) = <[i := u']> (windows t1)) as Hins by (intros u'; apply list_insert_insert_eq).
  assert (∀ n u', aimed t1 v row col u' → yields (Some (n, needs (with_windows (<[i := u']> (windows t)) t)) : option (Z * wm))
    (λ x, ∃ u' b', x.2 = with_win_at t1 i u' b' ∧ aimed t1 v row col u')) as Hset.
  { intros n u' Ha. exists u', true. split; [| done]. cbn [snd]. unfold needs, with_windows. by rewrite Hins. }
  assert (∀ n, aimed t1 v row col u → yields (Some (n, t) : option (Z * wm))
    (λ x, ∃ u' b', x.2 = with_win_at t1 i u' b' ∧ aimed t1 v row col u')) as Hkeep by (intros n Ha; by exists u, b).
  unfold wm_mouse_drag. rewrite Ef, Hi. cbn [mbind option_bind].
  change (wm_drag_state t) with (wm_drag_state t1). change (edge_left t) with (edge_left t1). change (edge_top t) with (edge_top t1).
  change (anchor_row t) with (anchor_row t1). change (anchor_col t) with (anchor_col t1). change (orig_x t) with (orig_x t1).
  change (orig_y t) with (orig_y t1). change (orig_w t) with (orig_w t1). change (orig_h t) with (orig_h t1).
  unfold aimed, dragged_to in *. rewrite Htop in *. destruct (wm_drag_state t1); [done | | |]; cbn zeta.
  - destruct Hsh as (x & y & w & h & -> & Hm & _). destruct (Hm eq_refl) as [-> ->]. cbn [wn_x wn_y wn_w wn_h place].
    destruct (_ && _) eqn:E; [apply Hkeep | by apply Hset]. by apply andb_true_iff in E as [->%Z.eqb_eq ->%Z.eqb_eq].
  - destruct Hsh as (x & y & w & h & -> & _ & Hr). destruct (Hr eq_refl) as [-> Hx]. cbn [wn_x wn_y wn_w wn_h place].
    assert (dragged (edge_left t1) WM_MIN_WIDTH (orig_x t1) (orig_w t1) x (col - anchor_col t1) =
      dragged (edge_left t1) WM_MIN_WIDTH (orig_x t1) (orig_w t1) (wn_x v) (col - anchor_col t1)) as ->.
    { destruct (edge_left t1); [done | by rewrite Hx]. }
    destruct (dragged (edge_left t1) _ _ _ _ _) as [nx nw]. destruct (dragged false _ _ _ _ _) as [ny nh]. cbn [fst snd] in *.
    destruct (_ && _) eqn:E; [apply Hkeep | by apply Hset].
    rewrite !andb_true_iff, !Z.eqb_eq in E. by destruct E as [[[-> ->] ->] ->].
  - destruct Hsh as (p & ->). unfold wm_scroll_pos_from_row. rewrite Ef, Hi. cbn [mbind option_bind].
    change (track {| v with scroll_pos := p |}) with (track v). unfold scrolled_to in *. destruct (track v) as [top inner].
    cbn [mbind option_bind scroll_pos]. set (q := f32_clamp _) in *. destruct (SFeqb q p) eqn:E.
    + apply Hkeep. exists p. split; [done | by right].
    + apply Hset. exists q. split; [done | by left].
Qed.

Fixpoint drags (t : wm) (pts : list (Z * Z)) : option wm :=
  match pts with [] => Some t | (row, col) :: pts => x ← wm_mouse_drag t row col; drags x.2 pts end.

Lemma drags_ok pts row col u b : wm_drag_state t1 ≠ WM_DRAG_IDLE → during u →
  yields (drags (with_win_at t1 i u b) (pts ++ [(row, col)])) (λ t, ∃ u' b', t = with_win_at t1 i u' b' ∧ aimed t1 v row col u').
Proof.
  intros Hg. revert u b. induction pts as [|[r c] pts IH]; intros u b Hu; cbn [app drags].
  - eapply yields_seq; [by apply drag_step |]. intros x (u' & b' & -> & Ha). by exists u', b'.
  - eapply yields_seq; [by apply drag_step |]. intros x (u' & b' & -> & Ha). apply IH. right. by exists r, c.
Qed.
End Dragging.

Lemma drag_ok t row col : wm_ok t → yields (wm_mouse_drag t row col) (λ x, wm_ok x.2).
Proof.
  intros Ht. assert (wm_ok {| t with wm_drag_state := WM_DRAG_IDLE |}) as Hidle.
  { apply (wm_ok_change t); [done | by split_and! | by apply (wm_ok_wins t)]. }
  unfold wm_mouse_drag. destruct (wm_find t (wm_drag_id t)) as [i|] eqn:Ef; [| by destruct (wm_drag_state t)].
  pose proof Ef as (v & Hv & _)%wm_find_Some. rewrite Hv. cbn [mbind option_bind].
  assert (v ∈ windows t) as Hin by (by eapply list_elem_of_lookup_2).
  pose proof (wk_titles _ Ht) as Hti. pose proof (wk_sized _ Ht) as Hsz. rewrite Forall_forall in Hti, Hsz.
  destruct (Hsz v Hin). specialize (Hti v Hin).
  destruct (wm_drag_state t); [done | | |].
  - cbn zeta. destruct (_ && _); [done |]. cbn [yields snd]. by apply (set_win_ok t i v).
  - pose proof (dragged_len (edge_left t) WM_MIN_WIDTH (orig_x t) (orig_w t) (wn_x v) (col - anchor_col t)) as Hw.
    pose proof (dragged_len (edge_top t) WM_MIN_HEIGHT (orig_y t) (orig_h t) (wn_y v) (row - anchor_row t)) as Hh.
    destruct (dragged (edge_left t) _ _ _ _ _) as [nx nw]. destruct (dragged (edge_top t) _ _ _ _ _) as [ny nh]. cbn [snd] in Hw, Hh.
    destruct (_ && _); [done |]. cbn [yields snd]. apply (set_win_ok t i v); try done. constructor; cbn; [lia | lia | done].
  - unfold wm_scroll_pos_from_row. rewrite Ef, Hv. cbn [mbind option_bind]. destruct (track v). cbn [mbind option_bind].
    case_match; [done |]. cbn [yields snd]. by apply (set_win_ok t i v).
Qed.

Lemma drags_wm_ok pts t : wm_ok t → yields (drags t pts) wm_ok.
Proof.
  revert t. induction pts as [|[r c] pts IH]; intros t Ht; cbn [drags]; [done |].
  eapply yields_seq; [by apply drag_ok |]. intros x Hx. by apply IH.
Qed.

(** The window of an id. *)
Definition win_of (t : wm) (k : Z) : option wm_window := i ← wm_find t k; windows t !! i.

Lemma find_from_ids ws ws' i k : wn_id <$> ws = wn_id <$> ws' → find_from ws i k = find_from ws' i k.
Proof.
  revert ws' i. induction ws as [|v ws IH]; intros [|v' ws'] i E; try done. rewrite !fmap_cons in E. injection E as E1 E2.
  cbn [find_from]. rewrite E1. case_match; [done | by apply IH].
Qed.

Lemma win_of_Some t k v : win_of t k = Some v → v ∈ windows t ∧ wn_id v = k.
Proof.
  unfold win_of. intros (i & (u & Hu & Eu)%wm_find_Some & Hv)%bind_Some. assert (u = v) as -> by congruence.
  split; [by eapply list_elem_of_lookup_2 | done].
Qed.

Lemma win_of_id t v : wm_ok t → v ∈ windows t → win_of t (wn_id v) = Some v.
Proof. intros Ht [i Hi]%list_elem_of_lookup. unfold win_of. rewrite (wm_find_id t i v); [done | apply Ht | done]. Qed.

Lemma focus_ids t k : wn_id <$> windows (wm_focus t k) = wn_id <$> windows t.
Proof.
  assert (∀ t', wn_id <$> windows (wm_raise t' k) = wn_id <$> windows t') as Hr.
  { intros t'. unfold wm_raise. destruct (wm_find t' k); [| done]. by apply fmap_alter_same. }
  unfold wm_focus. cbn zeta. cbn [needs windows]. rewrite Hr. cbn. rewrite <- list_fmap_compose. by apply list_fmap_ext.
Qed.

(** What a press and a drag do to the other windows: they lose the focus. *)
Lemma others_unfocused t v i t2 u b : wm_ok t → windows t !! i = Some v → wn_id u = wn_id v →
  windows t2 = windows (with_win_at (wm_focus t (wn_id v)) i u b) →
  win_of t2 (wn_id v) = Some u ∧ ∀ k, k ≠ wn_id v → win_of t2 k = (λ w, {| w with wn_focused := false |}) <$> win_of t k.
Proof.
  intros Ht Hv Eu Ew. destruct (wm_focus_lookup t i v Ht Hv) as (Ef & Ei & Eo). cbn [with_win_at windows] in Ew.
  assert (wn_id <$> windows t2 = wn_id <$> windows t) as Eid.
  { rewrite Ew, list_fmap_insert, focus_ids, list_insert_id; [done |]. rewrite list_lookup_fmap, Hv. cbn. by rewrite Eu. }
  assert (∀ k, wm_find t2 k = wm_find t k) as Hf by (intros k; by apply find_from_ids).
  unfold win_of. split.
  - rewrite Hf, (wm_find_id t i v) by (done || apply Ht). cbn [mbind option_bind]. rewrite Ew. apply list_lookup_insert_eq. by eapply lookup_lt_Some.
  - intros k Hk. rewrite Hf. destruct (wm_find t k) as [j|] eqn:Ej; [| done]. cbn [mbind option_bind].
    apply wm_find_Some in Ej as (w & Hw & Ekw). assert (j ≠ i) as Hne by congruence.
    rewrite Ew, list_lookup_insert_ne, Hw by done. cbn. apply Eo; [done |]. by exists w.
Qed.

(** ** A new manager, and a demonstration: two windows, the second over the first *)

Definition wm_fresh (rows cols : Z) : wm :=
  let cells := replicate (Z.to_nat (rows * cols)) zero_cell in
  mk_wm [] rows cols cells (Some cells) (Some (replicate (Z.to_nat rows) 0)) 0 true WM_DRAG_IDLE 0 0 0 0 0 0 0 false false.

(** A manager or NULL, never a trap. *)
Lemma wm_new_cases got al rows cols : 0 <= rows → 0 <= cols →
  wm_new got al rows cols = Some (if got && got_screen al && got_prev al && got_dirty al then Some (wm_fresh rows cols) else None).
Proof.
  intros Hr Hc. unfold wm_new, calloc. rewrite (proj2 (Z.ltb_ge (rows * cols) 0)), (proj2 (Z.ltb_ge rows 0)) by nia.
  destruct got; [| done]. destruct al as [[|] [|] [|]]; done.
Qed.

Lemma wm_fresh_ok rows cols : WM_MIN_HEIGHT + 2 <= rows → WM_MIN_WIDTH + 2 <= cols → wm_ok (wm_fresh rows cols).
Proof.
  intros Hr Hc. unfold WM_MIN_HEIGHT, WM_MIN_WIDTH in *.
  constructor; try (by constructor); try done; cbn; try (rewrite zlen_replicate; nia).
  - intros v v' H. by apply not_elem_of_nil in H.
  - eexists. split; [done |]. rewrite zlen_replicate; nia.
  - eexists. split; [done |]. rewrite zlen_replicate; nia.
Qed.

Definition demo_wm (a b : ptr) : wm := (wm_add (wm_add (wm_fresh 10 30) 1 a 2 2 12 4).2 2 b 6 3 12 4).2.

Lemma demo_wm_ok a b : wm_ok (demo_wm a b).
Proof. by do 2 (apply wm_add_ok; [| done..]); apply wm_fresh_ok. Qed.

(** C11: a window follows the pointer.  Press the mouse on a window and drag it
    about, along any points, to [row'] [col']: none of it traps, and the window
    ends where the last point says, wherever it was taken before.  Grabbed by its
    title it has moved by as much as the pointer and kept its size; grabbed by
    its border it has grown by as much, but is no smaller than the minimum, its
    top edge and the edge opposite the one grabbed staying where they were; by
    its scrollbar its position is that of the row, within 0 and 1.  It is the
    highest window at the point pressed, has the focus and is on top; the others
    have lost the focus and nothing else; and the release tells what was dragged. *)
Theorem drag_follows_pointer t row col pts row' col' : wm_ok t →
  yields (wm_mouse_press t row col) (λ '(g, _, t1), yields (drags t1 (pts ++ [(row', col')])) (λ t2,
    g ≠ WM_DRAG_IDLE → ∃ v u, topmost t row col v ∧ win_of t2 (wn_id v) = Some u ∧
      (match g with
       | WM_DRAG_MOVING => wn_x u = wn_x v + (col' - col) ∧ wn_y u = wn_y v + (row' - row) ∧ wn_w u = wn_w v ∧ wn_h u = wn_h v
       | WM_DRAG_RESIZING =>
           wn_y u = wn_y v ∧ wn_h u = Z.max WM_MIN_HEIGHT (wn_h v + (row' - row)) ∧
           (if col <? wn_x v
            then wn_w u = Z.max WM_MIN_WIDTH (wn_w v - (col' - col)) ∧ wn_x u + wn_w u = wn_x v + wn_w v
            else wn_w u = Z.max WM_MIN_WIDTH (wn_w v + (col' - col)) ∧ wn_x u = wn_x v)
       | _ => scroll_pos u = scrolled_to v row' ∨ SFeqb (scrolled_to v row') (scroll_pos u) = true
       end) ∧
      wn_focused u = true ∧ (∀ k w, win_of t2 k = Some w → k ≠ wn_id v → wn_z w < wn_z u) ∧
      (∀ k, k ≠ wn_id v → win_of t2 k = (λ w, {| w with wn_focused := false |}) <$> win_of t k) ∧
      wm_mouse_release t2 = (wn_id v, bool_decide (g = WM_DRAG_RESIZING), {| t2 with wm_drag_state := WM_DRAG_IDLE |}))).
Proof.
  intros Ht. eapply yields_mono; [by apply press_ok |]. intros [[g hit] t1] (Hok1 & Ehit & H).
  destruct hit as [[k area]|]; [| destruct H as [-> _]; eapply yields_mono; [by apply drags_wm_ok | done]].
  destruct H as (v & Htop & -> & -> & Eg & Hp). pose proof Htop as (Hin & _ & _). apply list_elem_of_lookup in Hin as [i Hv].
  destruct (wm_focus_lookup t i v Ht Hv) as (_ & Ei & _). destruct Hp as [Ew Hgrab]. rewrite <- Eg in Hgrab.
  set (v1 := {| v with wn_focused := true; wn_z := next_z t |}) in *.
  destruct (decide (g = WM_DRAG_IDLE)) as [->|Hne]; [eapply yields_mono; [by apply drags_wm_ok | done] |].
  assert (wm_drag_state t1 = g ∧ wm_drag_id t1 = wn_id v ∧ anchor_row t1 = row ∧ anchor_col t1 = col ∧
         (g ≠ WM_DRAG_SCROLLING → orig_x t1 = wn_x v ∧ orig_y t1 = wn_y v) ∧
         (g = WM_DRAG_RESIZING → orig_w t1 = wn_w v ∧ orig_h t1 = wn_h v ∧ edge_left t1 = (col <? wn_x v)))
    as (Eg1 & Eid & Er & Ec & Eo & Ee) by (by destruct g).
  rewrite <- Ew in Ei. assert (t1 = with_win_at t1 i v1 (composite_needed t1)) as Et1.
  { unfold with_win_at. rewrite list_insert_id by done. by destruct t1. }
  pose proof (drags_ok t1 i v1 (wk_ids _ Hok1) Ei (eq_sym Eid) (wk_edge _ Hok1) pts row' col' v1 (composite_needed t1)
    ltac:(congruence) (or_introl eq_refl)) as Hd. rewrite <- Et1 in Hd.
  eapply yields_mono; [exact Hd |]. intros t2 (u & b & -> & Ha) _. exists v, u.
  assert (wn_id u = wn_id v ∧ wn_z u = next_z t ∧ wn_focused u = true) as (Eu & Euz & Euf).
  { unfold aimed, dragged_to in Ha. destruct (wm_drag_state t1); [subst u; done.. | by destruct Ha as (p & -> & _)]. }
  destruct (others_unfocused t v i (with_win_at t1 i u b) u b Ht Hv Eu) as [H1 H2]; [cbn; by rewrite Ew |].
  split_and!; try done.
  - unfold aimed, dragged_to in Ha. rewrite Eg1 in Ha. rewrite Er, Ec in *. destruct g; [done | | |].
    + destruct (Eo ltac:(done)) as [Ex Ey]. subst u. cbn. by rewrite Ex, Ey.
    + destruct (Eo ltac:(done)) as [Ex Ey]. destruct (Ee eq_refl) as (Ewd & Eh & El). subst u. cbn [place wn_x wn_y wn_w wn_h].
      rewrite (wk_edge _ Hok1), !dragged_len, Ex, Ewd, Eh, El, dragged_keeps. change (wn_x v1) with (wn_x v).
      split_and!; [done | done |]. destruct (col <? wn_x v); (split; [done |]); [| apply dragged_keeps].
      pose proof (dragged_far WM_MIN_WIDTH (wn_x v) (wn_w v) (wn_x v) (col' - col)) as Hf. cbn zeta in Hf.
      by rewrite dragged_len in Hf.
    + by destruct Ha as (p & -> & [->|]); [left | right].
  - intros k w Hk Hne'. rewrite H2 in Hk by done. apply fmap_Some in Hk as (w0 & [Hw0 _]%win_of_Some & ->).
    pose proof (wk_below _ Ht) as Hb. rewrite Forall_forall in Hb. specialize (Hb w0 Hw0). cbn. lia.
  - unfold wm_mouse_release. cbn [with_win_at wm_drag_state wm_drag_id]. rewrite Eg1, Eid. by destruct g.
Qed.

Lemma drag_follows_pointer_witness :
  (λ x, x.1.1) <$> wm_mouse_press (demo_wm None None) 2 6 = Some WM_DRAG_MOVING ∧
  yields (wm_mouse_press (demo_wm None None) 2 6) (λ '(g, _, t1), yields (drags t1 ([(4, 20)] ++ [(3, 4)])) (λ t2,
    g ≠ WM_DRAG_IDLE → ∃ v u, topmost (demo_wm None None) 2 6 v ∧ win_of t2 (wn_id v) = Some u)).
Proof.
  split; [vm_compute; reflexivity |].
  eapply yields_mono; [exact (drag_follows_pointer (demo_wm None None) 2 6 [(4, 20)] 3 4 (demo_wm_ok None None)) |].
  intros [[g hit] t1] H. eapply yields_mono; [exact H |]. intros t2 Hg Hne. destruct (Hg Hne) as (v & u & Ht & Hu & _).
  exists v, u. split; assumption.
Defined.

(** Maximizing fills the screen, its frame along the edges, and the next time
    puts the window back where it was; what is done to the others meanwhile is
    theirs. *)
Theorem maximize_restores t k v : wm_ok t → win_of t k = Some v → wn_maximized v = false →
  ∃ t1 v1 t2 v2,
    wm_toggle_maximize t k = Some (1, t1) ∧ win_of t1 k = Some v1 ∧ wn_maximized v1 = true ∧
    fx v1 = 0 ∧ fy v1 = 0 ∧ fw v1 = wm_cols t ∧ fh v1 = wm_rows t ∧
    wm_toggle_maximize t1 k = Some (0, t2) ∧ win_of t2 k = Some v2 ∧
    v2 = {| v with wn_saved_x := wn_x v; wn_saved_y := wn_y v; wn_saved_w := wn_w v; wn_saved_h := wn_h v |} ∧
    (∀ k', k' ≠ k → win_of t1 k' = win_of t k' ∧ win_of t2 k' = win_of t k').
Proof.
  intros Ht Hv Hm.
  assert (∀ t u, wm_ok t → win_of t k = Some u → let t' := with_win t k (toggled (wm_rows t) (wm_cols t)) in
    wm_toggle_maximize t k = Some (b2z (negb (wn_maximized u)), t') ∧ win_of t' k = Some (toggled (wm_rows t) (wm_cols t) u) ∧
    ∀ k', k' ≠ k → win_of t' k' = win_of t k') as Hstep.
  { clear. intros t u Ht Hu. pose proof (win_of_Some _ _ _ Hu) as [_ Ek]. unfold win_of in Hu. apply bind_Some in Hu as (i & Ef & Hi).
    unfold wm_toggle_maximize, with_win. rewrite Ef. cbn [mbind option_bind]. rewrite Hi. cbn [mbind option_bind]. split; [done |].
    set (f := toggled _ _). set (t' := needs _).
    assert (wn_id <$> windows t' = wn_id <$> windows t) as Eid.
    { cbn. apply fmap_alter_same. intros w. unfold f, toggled. by destruct (wn_maximized w). }
    assert (∀ k', wm_find t' k' = wm_find t k') as Hf by (intros k'; by apply find_from_ids).
    unfold win_of. split.
    - rewrite Hf, Ef. cbn [mbind option_bind]. cbn. by rewrite list_lookup_alter_eq, Hi.
    - intros k' Hk. rewrite Hf. destruct (wm_find t k') as [j|] eqn:Ej; [| done]. cbn [mbind option_bind].
      apply wm_find_Some in Ej as (w & Hw & Ekw). cbn. apply list_lookup_alter_ne. congruence. }
  destruct (Hstep t v Ht Hv) as (E1 & H1 & Ho1). cbn zeta in *. set (t1 := with_win t k _) in *.
  assert (wm_ok t1) as Hok1.
  { pose proof (wm_toggle_ok t k Ht) as H. by rewrite E1 in H. }
  destruct (Hstep t1 _ Hok1 H1) as (E2 & H2 & Ho2). cbn zeta in *. set (t2 := with_win t1 k _) in *.
  assert (toggled (wm_rows t) (wm_cols t) v = {| v with wn_saved_x := wn_x v; wn_saved_y := wn_y v; wn_saved_w := wn_w v; wn_saved_h := wn_h v;
                 wn_x := 1; wn_y := 1; wn_w := wm_cols t - 2; wn_h := wm_rows t - 2; wn_maximized := true |}) as Et by (unfold toggled; by rewrite Hm).
  rewrite Hm in E1. rewrite Et in H1, H2, E2. do 4 eexists. split; [exact E1 |]. split; [exact H1 |].
  split_and!; try done; try (unfold fx, fy, fw, fh; cbn; lia).
  - unfold toggled. cbn. destruct v. cbn in *. by subst.
  - intros k' Hk. rewrite Ho2 by done. by rewrite Ho1.
Qed.

Lemma maximize_restores_witness :
  ∃ v, win_of (demo_wm None None) 1 = Some v ∧ wn_maximized v = false ∧
    ∃ t1 v1 t2 v2, wm_toggle_maximize (demo_wm None None) 1 = Some (1, t1) ∧ win_of t1 1 = Some v1 ∧ fw v1 = 30 ∧
      wm_toggle_maximize t1 1 = Some (0, t2) ∧ win_of t2 1 = Some v2 ∧ wn_w v2 = wn_w v.
Proof.
  eexists. split; [reflexivity |]. split; [reflexivity |].
  destruct (maximize_restores (demo_wm None None) 1 _ (demo_wm_ok None None) eq_refl eq_refl)
    as (t1 & v1 & t2 & v2 & E1 & H1 & _ & _ & _ & Hw & _ & E2 & H2 & -> & _).
  exists t1, v1, t2. eexists. split; [exact E1 |]. split; [exact H1 |]. split; [exact Hw |]. split; [exact E2 |].
  split; [exact H2 | reflexivity].
Defined.

(** The thumb is on its track. *)
Lemma thumb_on_track v inner k n : 0 < inner → thumb v inner = Some (k, n) → 0 <= k ∧ 1 <= n ∧ k + n <= inner.
Proof.
  intros Hi. unfold thumb. intros (a & _ & (b & _ & [= <- <-])%bind_Some)%bind_Some. repeat case_match; lia.
Qed.
