(* ===== verification/WmGrid.v ===== *)
(** * The grid

    [wm_arrange_grid] puts the windows in the cells of a grid that covers the
    screen. *)

From stdpp Require Import gmap.
From S2P Require Import Prelude VtBuf VtState Tile Wm WmText WmPicture WmSession.

(** ** One side of the grid *)

Section Side.
Context (len n min : Z).

(** Where cell [i] starts. *)
Definition edge (i : Z) : Z := i * (len `quot` n) + Z.min i (len - len `quot` n * n).

Lemma side_cell : 0 < n → 0 <= len → 0 <= len `quot` n ∧ 0 <= len - len `quot` n * n < n.
Proof.
  intros Hn Hl. rewrite Z.quot_div_nonneg by lia. pose proof (Z.div_mod len n ltac:(lia)). pose proof (Z.mod_pos_bound len n Hn).
  pose proof (Z.div_pos len n Hl Hn). nia.
Qed.

Context (Hn : 0 < n) (Hroom : (min + 2) * n <= len) (Hmin : 0 <= min).

Lemma side_room : min + 2 <= len `quot` n.
Proof. rewrite Z.quot_div_nonneg by nia. apply Z.div_le_lower_bound; lia. Qed.

Lemma edge_step i : edge i + (min + 2) <= edge (i + 1).
Proof. pose proof side_room. unfold edge. nia. Qed.

Lemma edge_mono i j : i <= j → edge i <= edge j.
Proof. pose proof side_room. intros. unfold edge. nia. Qed.

Lemma edge_0 : edge 0 = 0.
Proof. destruct side_cell; [lia | nia |]. unfold edge. lia. Qed.

Lemma edge_n : edge n = len.
Proof. destruct side_cell; [lia | nia |]. unfold edge. lia. Qed.

Lemma edge_range i : 0 <= i < n → 0 <= edge i ∧ edge (i + 1) <= len.
Proof.
  intros Hi. pose proof (edge_mono 0 i ltac:(lia)). pose proof (edge_mono (i + 1) n ltac:(lia)). rewrite edge_0 in *. rewrite edge_n in *. lia.
Qed.

Lemma grid_cell_edges i : 0 <= i → grid_cell len n min i = (edge i + 1, edge (i + 1) - edge i - 2).
Proof.
  intros Hi. pose proof side_room. unfold grid_cell, edge. set (q := len `quot` n) in *. clearbody q.
  f_equal; repeat case_match; lia.
Qed.

(** Each place is in one cell. *)
Lemma edge_find p : 0 <= p < len → ∃ i, 0 <= i < n ∧ edge i <= p < edge (i + 1).
Proof.
  intros [Hp Hlt]. rewrite <- edge_n in Hlt.
  assert (∀ k : nat, p < edge (Z.of_nat k) → ∃ i, 0 <= i < Z.of_nat k ∧ edge i <= p < edge (i + 1)) as H.
  { induction k as [|k IH]; intros Hk; [change (Z.of_nat 0) with 0 in Hk; rewrite edge_0 in Hk; lia |].
    destruct (decide (p < edge (Z.of_nat k))) as [(i & ? & ?)%IH|]; [exists i; lia |].
    exists (Z.of_nat k). rewrite Nat2Z.inj_succ in Hk. unfold Z.succ in Hk. lia. }
  destruct (H (Z.to_nat n)) as (i & ? & ?); [by rewrite Z2Nat.id by lia |]. exists i. lia.
Qed.

Lemma edge_unique p i j : edge i <= p < edge (i + 1) → edge j <= p < edge (j + 1) → i = j.
Proof.
  intros H1 H2. destruct (Z.lt_trichotomy i j) as [Hlt|[|Hgt]]; [| done |].
  - pose proof (edge_mono (i + 1) j ltac:(lia)). lia.
  - pose proof (edge_mono (j + 1) i ltac:(lia)). lia.
Qed.
End Side.

(** ** The columns *)

Lemma grid_cols_ok fuel g n : 1 <= g → (g - 1) * (g - 1) < n → n <= (g + Z.of_nat fuel) * (g + Z.of_nat fuel) →
  yields (grid_cols fuel g n) (λ c, 1 <= c ∧ (c - 1) * (c - 1) < n ∧ n <= c * c).
Proof.
  revert g. induction fuel as [|fuel IH]; intros g Hg Hlo Hhi; cbn [grid_cols]; (destruct (Z.leb_spec n (g * g)); [done |]).
  - lia.
  - apply IH; [lia | lia |]. nia.
Qed.

(** ** The windows *)

Definition unhidden (ws : list wm_window) : list wm_window := List.filter (λ v, negb (wn_minimized v)) ws.

Lemma grid_place_keeps rows cols g h i v :
  let v' := grid_place rows cols g h i v in
  wn_id v' = wn_id v ∧ wn_z v' = wn_z v ∧ wn_focused v' = wn_focused v ∧ wn_title v' = wn_title v ∧
  wn_minimized v' = wn_minimized v ∧ wn_maximized v' = false.
Proof. cbn zeta. unfold grid_place. do 2 destruct (grid_cell _ _ _ _). done. Qed.

Lemma arrange_unhidden rows cols g h i ws :
  unhidden (arrange rows cols g h i ws) = imap (λ j v, grid_place rows cols g h (i + Z.of_nat j) v) (unhidden ws).
Proof.
  revert i. induction ws as [|v ws IH]; intros i; [done |]. cbn [arrange]. destruct (wn_minimized v) eqn:Em.
  - cbn [unhidden List.filter]. rewrite Em. cbn [negb]. apply IH.
  - destruct (grid_place_keeps rows cols g h i v) as (_ & _ & _ & _ & E & _).
    cbn [unhidden List.filter]. rewrite E, Em. cbn [negb imap]. rewrite Z.add_0_r. f_equal. fold (unhidden (arrange rows cols g h (i + 1) ws)).
    rewrite IH. apply imap_ext. intros j u _. unfold compose. by replace (i + 1 + Z.of_nat j) with (i + Z.of_nat (S j)) by lia.
Qed.

Lemma grid_cell_min len n min i : min <= (grid_cell len n min i).2.
Proof. unfold grid_cell. cbn [snd]. repeat case_match; lia. Qed.

Lemma Forall2_arrange rows cols g h i ws :
  Forall2 (λ v v', v' = v ∨ ∃ j, v' = grid_place rows cols g h j v) ws (arrange rows cols g h i ws).
Proof.
  revert i. induction ws as [|v ws IH]; intros i; cbn [arrange]; [constructor |].
  destruct (wn_minimized v); constructor; try apply IH; [by left | right; by exists i].
Qed.

Lemma arrange_ok t g h : wm_ok t → wm_ok (with_windows (arrange (wm_rows t) (wm_cols t) g h 0 (windows t)) t).
Proof.
  intros Ht. apply (wm_ok_change t); [done | by split_and! |]. cbn [windows with_windows next_z].
  apply (wins_ok_map _ _ _ _ (wm_ok_wins _ Ht) (Forall2_arrange _ _ g h 0 (windows t))).
  pose proof (wk_titles _ Ht) as Hti. pose proof (wk_sized _ Ht) as Hsz. rewrite Forall_forall in Hti, Hsz.
  intros v v' Hv [->|[j ->]]; [by split_and!; auto |].
  destruct (grid_place_keeps (wm_rows t) (wm_cols t) g h j v) as (E1 & E2 & E3 & E4 & _ & E5).
  rewrite E1, E2, E3, E4. split_and!; try done; [by apply Hti |]. unfold grid_place in *.
  pose proof (grid_cell_min (wm_cols t) g WM_MIN_WIDTH (Z.rem j g)) as Hw.
  pose proof (grid_cell_min (wm_rows t) h WM_MIN_HEIGHT (Z.quot j g)) as Hh.
  destruct (grid_cell (wm_cols t) _ _ _), (grid_cell (wm_rows t) _ _ _). by constructor.
Qed.

Lemma arrange_minimized rows cols g h i ws v : v ∈ ws → wn_minimized v = true → v ∈ arrange rows cols g h i ws.
Proof.
  intros Hv Hm. revert i. induction ws as [|w ws IH]; intros i; [by apply not_elem_of_nil in Hv |]. cbn [arrange].
  apply elem_of_cons in Hv as [<-|Hv]; [rewrite Hm; by left |]. destruct (wn_minimized w); right; by apply IH.
Qed.

(** The frame of the window in a place of the grid. *)
Lemma grid_place_frame rows cols g h i v row col : 0 < g → 0 < h → 0 <= i →
  (WM_MIN_WIDTH + 2) * g <= cols → (WM_MIN_HEIGHT + 2) * h <= rows →
  let v' := grid_place rows cols g h i v in
  fx v' = edge cols g (Z.rem i g) ∧ fx v' + fw v' = edge cols g (Z.rem i g + 1) ∧
  fy v' = edge rows h (Z.quot i g) ∧ fy v' + fh v' = edge rows h (Z.quot i g + 1) ∧
  (in_frame v' row col = true ↔ edge rows h (Z.quot i g) <= row < edge rows h (Z.quot i g + 1) ∧
    edge cols g (Z.rem i g) <= col < edge cols g (Z.rem i g + 1)).
Proof.
  intros Hg Hh Hi Hc Hr. cbn zeta. unfold WM_MIN_WIDTH, WM_MIN_HEIGHT in *.
  pose proof (Z.rem_bound_pos i g ltac:(lia) ltac:(lia)). pose proof (Z.quot_pos i g ltac:(lia) ltac:(lia)).
  unfold grid_place, WM_MIN_WIDTH, WM_MIN_HEIGHT. rewrite !grid_cell_edges by lia. rewrite in_frame_spec.
  unfold fx, fw, fy, fh. cbn [place wn_x wn_y wn_w wn_h]. split_and!; lia.
Qed.

Lemma rem_quot_inj i g a b : 0 < g → 0 <= i → 0 <= a < g → (Z.rem i g = a ∧ Z.quot i g = b) ↔ i = b * g + a.
Proof.
  intros Hg Hi Ha. pose proof (Z.rem_bound_pos i g ltac:(lia) ltac:(lia)). pose proof (Z.quot_rem' i g). split; [intros [<- <-]; lia |].
  intros ->. set (q := Z.quot (b * g + a) g) in *. assert (q = b) as E by nia. rewrite E in *. split; [lia | done].
Qed.

(** C29: the grid covers the screen.  With a window that is not minimized,
    [wm_arrange_grid] succeeds, with the fewest columns whose square is enough and
    as few rows as then are needed.  If there is room for so many windows of the
    minimal size, their frames are on the screen, and each cell of the screen is in
    one place of the grid: it is in the frame of the window there, if there is one,
    and in no other's.  The minimized windows are not touched. *)
Theorem grid_covers_screen t : wm_ok t → visible t ≠ [] → ∃ g h t',
  let n := zlen (visible t) in
  wm_arrange_grid t = Some (0, t') ∧ wm_ok t' ∧
  (g - 1) * (g - 1) < n <= g * g ∧ (h - 1) * g < n <= h * g ∧
  length (visible t') = length (visible t) ∧ (∀ v, v ∈ windows t → wn_minimized v = true → v ∈ windows t') ∧
  ((WM_MIN_WIDTH + 2) * g <= wm_cols t → (WM_MIN_HEIGHT + 2) * h <= wm_rows t →
   (∀ v, v ∈ visible t' → 0 <= fx v ∧ fx v + fw v <= wm_cols t ∧ 0 <= fy v ∧ fy v + fh v <= wm_rows t) ∧
   ∀ row col, 0 <= row < wm_rows t → 0 <= col < wm_cols t →
     ∃ p, 0 <= p < h * g ∧ ∀ i v, visible t' !! i = Some v → (in_frame v row col = true ↔ Z.of_nat i = p)).
Proof.
  intros Ht Hne. set (n := zlen (visible t)).
  assert (0 < n) as Hn by (unfold n; destruct (visible t); [done | rewrite zlen_cons; pose proof (zlen_nonneg l); lia]).
  pose proof (grid_cols_ok (Z.to_nat n) 1 n ltac:(lia) ltac:(lia) ltac:(rewrite Z2Nat.id by lia; nia)) as (g & Eg & Hg & Hlo & Hhi)%yields_Some.
  set (h := Z.quot (n + g - 1) g).
  assert ((h - 1) * g < n <= h * g) as Hh.
  { unfold h. rewrite Z.quot_div_nonneg by lia. pose proof (Z.div_mod (n + g - 1) g ltac:(lia)). pose proof (Z.mod_pos_bound (n + g - 1) g ltac:(lia)). nia. }
  assert (0 < h) as Hh0 by nia.
  set (t' := with_windows (arrange (wm_rows t) (wm_cols t) g h 0 (windows t)) t). exists g, h, t'. cbn zeta.
  assert (visible t' = imap (λ j v, grid_place (wm_rows t) (wm_cols t) g h (Z.of_nat j) v) (visible t)) as Evis.
  { etrans; [apply (arrange_unhidden (wm_rows t) (wm_cols t) g h 0 (windows t)) |]. apply imap_ext. intros j u _. done. }
  assert (∀ i v, visible t' !! i = Some v → 0 <= Z.of_nat i < h * g ∧ ∃ u, v = grid_place (wm_rows t) (wm_cols t) g h (Z.of_nat i) u) as Hat.
  { intros i v. rewrite Evis, list_lookup_imap. intros (u & Hu & ->)%fmap_Some. split; [| by exists u].
    apply lookup_lt_Some in Hu. unfold n, zlen in *. lia. }
  split_and!; try done; try lia.
  - unfold wm_arrange_grid. fold n. rewrite (proj2 (Z.eqb_neq n 0)) by lia. rewrite Eg. cbn [mbind option_bind]. done.
  - by apply arrange_ok.
  - by rewrite Evis, length_imap.
  - intros v Hv Hm. by apply arrange_minimized.
  - intros Hc Hr. split.
    + intros v [i Hi]%list_elem_of_lookup. destruct (Hat i v Hi) as [Hib [u ->]].
      destruct (grid_place_frame (wm_rows t) (wm_cols t) g h (Z.of_nat i) u 0 0) as (-> & -> & -> & -> & _); try (done || lia).
      pose proof (Z.rem_bound_pos (Z.of_nat i) g ltac:(lia) ltac:(lia)).
      assert (0 <= Z.quot (Z.of_nat i) g < h).
      { split; [by apply Z.quot_pos; lia |]. apply Z.quot_lt_upper_bound; lia. }
      unfold WM_MIN_WIDTH, WM_MIN_HEIGHT in *.
      pose proof (edge_range (wm_cols t) g 4 ltac:(lia) ltac:(lia) ltac:(lia) (Z.rem (Z.of_nat i) g) ltac:(lia)).
      pose proof (edge_range (wm_rows t) h 2 ltac:(lia) ltac:(lia) ltac:(lia) (Z.quot (Z.of_nat i) g) ltac:(lia)). lia.
    + intros row col Hrow Hcol. unfold WM_MIN_WIDTH, WM_MIN_HEIGHT in *.
      destruct (edge_find (wm_cols t) g 4 ltac:(lia) ltac:(lia) ltac:(lia) col Hcol) as (a & Ha & Hac).
      destruct (edge_find (wm_rows t) h 2 ltac:(lia) ltac:(lia) ltac:(lia) row Hrow) as (b & Hb & Hbr).
      exists (b * g + a). split; [nia |]. intros i v Hi. destruct (Hat i v Hi) as [Hib [u ->]].
      destruct (grid_place_frame (wm_rows t) (wm_cols t) g h (Z.of_nat i) u row col) as (_ & _ & _ & _ & Hf); try (done || (unfold WM_MIN_WIDTH, WM_MIN_HEIGHT; lia)).
      rewrite Hf, <- rem_quot_inj by lia. split.
      * intros [H1 H2]. split; [by eapply (edge_unique (wm_cols t) g 4); eauto; lia | by eapply (edge_unique (wm_rows t) h 2); eauto; lia].
      * by intros [-> ->].
Qed.

Lemma grid_covers_screen_witness :
  visible (demo_wm None None) ≠ [] ∧ ∃ g h t', wm_arrange_grid (demo_wm None None) = Some (0, t') ∧ wm_ok t' ∧
    (g - 1) * (g - 1) < 2 <= g * g ∧ (h - 1) * g < 2 <= h * g.
Proof.
  split; [vm_compute; discriminate |].
  destruct (grid_covers_screen (demo_wm None None) (demo_wm_ok None None)) as (g & h & t' & E & Hok & Hg & Hh & _).
  { vm_compute. discriminate. }
  exists g, h, t'. split; [exact E |]. split; [exact Hok |]. split; [exact Hg | exact Hh].
Defined.
