(* ===== verification/WmDisplay.v ===== *)
(** * The screen of the window manager

    Compositing draws the windows in the order of their heights; what the mouse
    hits is what is seen there; and sessions of all operations are safe. *)

From Stdlib Require Import SpecFloat.
From stdpp Require Import gmap sorting.
From S2P Require Import Prelude Utf8 WidthTables RuneWidth VtBuf Decimal VtState VtClient Tile TileComposite TileScreen TileFrame.
From S2P Require Import Theme Wm WmText WmPicture WmSession WmGrid.

(** ** The order of painting *)

Lemma visible_elem t v : v ∈ visible t ↔ v ∈ windows t ∧ wn_minimized v = false.
Proof. unfold visible. rewrite !list_elem_of_In, filter_In, negb_true_iff. done. Qed.

#[export] Instance lower_trans : Transitive lower.
Proof. intros a b c. unfold lower. lia. Qed.

#[export] Instance lower_total : Total lower.
Proof. intros a b. unfold lower. lia. Qed.

Lemma paint_order_perm t : paint_order t ≡ₚ visible t.
Proof. apply merge_sort_Permutation. Qed.

Lemma paint_order_sorted t : StronglySorted lower (paint_order t).
Proof. apply StronglySorted_merge_sort; apply _. Qed.

Lemma sublist_filter_fmap {B} (g : wm_window → B) (p : wm_window → bool) l : NoDup (g <$> l) → NoDup (g <$> List.filter p l).
Proof.
  induction l as [|a l IH]; [done |]. rewrite fmap_cons, NoDup_cons. intros [Hn Hl]. cbn [List.filter]. destruct (p a); [| by apply IH].
  rewrite fmap_cons. apply NoDup_cons. split; [| by apply IH]. intros (b & E & Hb)%list_elem_of_fmap. destruct Hn.
  apply list_elem_of_fmap. exists b. split; [done |]. apply list_elem_of_In in Hb. apply filter_In in Hb as [Hb _]. by apply list_elem_of_In.
Qed.

(** The windows above one are higher. *)
Lemma paint_order_split t v : wm_ok t → v ∈ visible t → ∃ l1 l2, paint_order t = l1 ++ v :: l2 ∧ Forall (λ u, wn_z v < wn_z u) l2.
Proof.
  intros Ht Hv. assert (v ∈ paint_order t) as Hp by (by rewrite paint_order_perm).
  apply list_elem_of_split in Hp as (l1 & l2 & E). exists l1, l2. split; [done |].
  pose proof (paint_order_sorted t) as Hs. assert (NoDup (wn_z <$> paint_order t)) as Hnd.
  { rewrite paint_order_perm. apply sublist_filter_fmap, Ht. }
  rewrite E in Hs, Hnd. apply StronglySorted_app_1_r in Hs. apply StronglySorted_inv in Hs as [_ Hs].
  rewrite fmap_app, fmap_cons in Hnd. apply NoDup_app in Hnd as (_ & _ & Hnd). apply NoDup_cons in Hnd as [Hnd _].
  rewrite Forall_forall in Hs |- *. intros u Hu. specialize (Hs u Hu). unfold lower in Hs.
  assert (wn_z u ≠ wn_z v); [| lia]. intros Ez. destruct Hnd. apply list_elem_of_fmap. by exists u.
Qed.

Section Display.
Context (tbl : rune_width_table) `{!WidthTable tbl}.
Implicit Types (v : wm_window) (th : tui_theme) (m : vts).

(** ** The picture *)

(** The size of the window being resized, over everything. *)
Definition label_ov t : overlay :=
  if bool_decide (wm_drag_state t = WM_DRAG_RESIZING) then
    match win_of t (wm_drag_id t) with
    | Some v =>
        if (wn_w v <? 5) || (wn_h v <? 1) then bare else
        let len := Z.min (wn_w v) (zlen (fmt_d (wn_w v) ++ str "x" ++ fmt_d (wn_h v))) in
        let col := wn_x v + Z.quot (wn_w v - len) 2 in
        glyphs_at (R := wm_rows t) (C := wm_cols t) tbl (wn_y v + Z.quot (wn_h v) 2)
          (layout tbl (length (size_label v)) (size_label v) col (col + len)) label_fg label_bg VT_ATTR_BOLD
    | None => bare
    end
  else bare.

Definition wm_stack t th m : overlay := stack tbl (R := wm_rows t) (C := wm_cols t) m th (paint_order t).

Definition scene t th m : Z → Z → vt_cell := shown (λ _ _, vt_cell_clear) (over (wm_stack t th m) (label_ov t)).

Lemma screen_clear_ok R C s : 0 <= R * C → zlen s = R * C → yields (screen_clear R C s) (λ s', paints R C s' (λ _ _, vt_cell_clear)).
Proof.
  intros Hn Hs. unfold screen_clear. rewrite for_up_fill by lia. cbn [yields]. split; [by rewrite zlen_fill |].
  intros r c Hr Hc. assert (0 <= r * C + c < R * C) by nia. rewrite aget_fill.
  replace ((0 <=? r * C + c) && (r * C + c <? R * C)) with true by zbool. by destruct (aget_in s (r * C + c)) as [x ->]; [lia |].
Qed.

Lemma fmt_d_bytes n : Forall is_byte (fmt_d n).
Proof.
  assert (∀ k, 0 <= k → Forall is_byte (dump_fmt_int k)) as H.
  { intros k Hk. destruct (dump_fmt_int_spec k Hk) as (Hd & _). eapply Forall_impl; [exact Hd |]. unfold is_digit, is_byte. cbn. lia. }
  unfold fmt_d. destruct (Z.ltb_spec n 0); [constructor; [by unfold is_byte |] |]; apply H; lia.
Qed.

Lemma size_label_c_str v : c_str (size_label v).
Proof.
  unfold size_label. split.
  - apply Forall_app. split; [| by repeat constructor]. apply Forall_take. rewrite !Forall_app. split_and!; try apply fmt_d_bytes.
    by apply bytes_ok; vm_compute.
  - apply elem_of_app. right. by left.
Qed.

Lemma label_ok t s f : paints (wm_rows t) (wm_cols t) s f →
  yields (if bool_decide (wm_drag_state t = WM_DRAG_RESIZING) then
         match wm_find t (wm_drag_id t) with
         | Some i => v ← windows t !! i; draw_label tbl (wm_rows t) (wm_cols t) v s
         | None => Some s
         end
       else Some s) (λ s', paints (wm_rows t) (wm_cols t) s' (shown f (label_ov t))).
Proof.
  intros Hs. unfold label_ov, win_of. assert (∀ s, paints (wm_rows t) (wm_cols t) s f → paints (wm_rows t) (wm_cols t) s (shown f bare)) as Hbare.
  { intros s' H. by apply (paints_ext _ _ _ H). }
  case_bool_decide; [| by apply Hbare]. destruct (wm_find t (wm_drag_id t)) as [i|] eqn:E; [| by apply Hbare].
  apply wm_find_Some in E as (v & Hv & _). cbn [mbind option_bind]. rewrite Hv. cbn [mbind option_bind]. unfold draw_label.
  destruct (_ || _); [by apply Hbare |]. set (n := zlen _).
  replace (if wn_w v <? n then wn_w v else n) with (Z.min (wn_w v) n) by zbool. cbn zeta.
  apply (draws_puts tbl); [apply size_label_c_str | done].
Qed.
(** ** Compositing *)

Lemma any_dirty_ok m m' ws : Forall (λ v, wn_minimized v = false → fills m v) ws → vts_cleaned m m' →
  yields (any_vt_dirty ws m') (λ _, True).
Proof.
  intros Hws Hm. induction Hws as [|v ws Hv Hws IH]; cbn [any_vt_dirty]; [done |].
  destruct (win_vt v) as [q|] eqn:Eq; [| done]. destruct (wn_minimized v); [done |].
  destruct (Hv eq_refl q Eq) as (st0 & R' & C' & Em & Hwf & _).
  pose proof (Hm q) as Hq. rewrite Em in Hq. destruct (m' !! q) as [st|]; inversion Hq as [? ? Hst|]; subst. cbn [mbind option_bind].
  assert (wf_state R' C' st) as Hwf' by (by apply Hst). destruct (cur_buf_ok R' C' st Hwf') as (b & -> & _).
  eapply yields_seq; [apply (for_up_keep (λ _, True)); [done |] |].
  - intros r [|] _ _; [done |]. eapply yields_seq; [by apply (screen_row_ok R' C') |]. by intros [vr|] _.
  - by intros [|] _.
Qed.

Lemma vts_cleaned_refl m : vts_cleaned m m.
Proof. intros q. destruct (m !! q); by constructor. Qed.

(** What compositing changes. *)
Definition composed t th m (t' : wm) (m' : vts) : Prop :=
  wm_ok t' ∧ vts_cleaned m m' ∧
  (∃ d, wm_row_dirty t' = Some d ∧ Forall (eq 0) d) ∧
  (composite_needed t' = false) ∧
  (t' = {| t with wm_row_dirty := wm_row_dirty t'; wm_screen := wm_screen t'; composite_needed := false |}).

Lemma composite_ok t th m : wm_ok t → Forall (drawable tbl m th) (visible t) →
  yields (wm_composite tbl t th m) (λ '(t', m'), composed t th m t' m' ∧
    ((composite_needed t = false ∧ any_vt_dirty (windows t) m = Some false ∧ wm_screen t' = wm_screen t ∧ m' = m) ∨
     ((composite_needed t = true ∨ any_vt_dirty (windows t) m = Some true) ∧
      paints (wm_rows t) (wm_cols t) (wm_screen t') (scene t th m)))).
Proof.
  intros Ht Hd. unfold wm_composite. destruct (wk_dirty _ Ht) as (d0 & E0 & Hd0). destruct (wk_prev _ Ht) as (p & Ep & Hp).
  pose proof (wk_rows _ Ht) as HR. pose proof (wk_cols _ Ht) as HC. unfold WM_MIN_HEIGHT, WM_MIN_WIDTH in HR, HC.
  rewrite E0. cbn [mbind option_bind]. rewrite for_up_fill by lia. cbn [mbind option_bind]. cbn zeta.
  set (d := fill 0 (wm_rows t) 0 d0). set (t1 := {| t with wm_row_dirty := Some d |}).
  assert (zlen d = wm_rows t) as Hdz by (unfold d; by rewrite zlen_fill).
  assert (Forall (eq 0) d) as Hdz0.
  { apply Forall_lookup. intros i x Hi. pose proof (lookup_lt_Some _ _ _ Hi) as Hlt.
    assert (aget d (Z.of_nat i) = Some x) as Ex by (rewrite aget_lookup, Nat2Z.id by lia; done).
    unfold d in Ex, Hdz, Hlt. rewrite aget_fill in Ex. unfold zlen in *.
    replace ((0 <=? Z.of_nat i) && (Z.of_nat i <? wm_rows t)) with true in Ex by zbool. by destruct (aget d0 _); [injection Ex |]. }
  assert (wm_ok t1) as Ht1 by (destruct Ht; constructor; try done; by exists d).
  assert (Forall (λ v, wn_minimized v = false → fills m v) (windows t)) as Hf.
  { apply Forall_forall. intros v Hv Hm. rewrite Forall_forall in Hd. apply (Hd v). by apply visible_elem. }
  assert (yields (if composite_needed t1 then Some true else any_vt_dirty (windows t1) m) (λ b,
    b = false ∧ composite_needed t = false ∧ any_vt_dirty (windows t) m = Some false ∨
    b = true ∧ (composite_needed t = true ∨ any_vt_dirty (windows t) m = Some true))) as Hdirty.
  { change (composite_needed t1) with (composite_needed t). change (windows t1) with (windows t). destruct (composite_needed t); [right; by split; [| left] |].
    pose proof (any_dirty_ok m m (windows t) Hf (vts_cleaned_refl m)) as Hy.
    destruct (any_vt_dirty (windows t) m) as [[|]|]; [right; by split; [| right] | by left | done]. }
  eapply yields_seq; [exact Hdirty |]. intros b Hb. cbn beta in Hb. destruct b; cbn [negb].
  2: { destruct Hb as [(_ & En & Ed)|[? _]]; [| done]. cbn [yields]. split; [| by left]. unfold composed. split_and!; try done; [apply vts_cleaned_refl | by exists d |].
       unfold t1. destruct t; cbn in *. by subst. }
  destruct Hb as [[? _]|[_ Hb]]; [done |].
  eapply yields_seq; [apply screen_clear_ok; [cbn; nia | apply Ht1] |]. intros s1 H1. cbn beta in H1.
  eapply yields_seq.
  { apply (draw_windows_ok tbl m m (λ _ _, vt_cell_clear) th (paint_order t1)); [| apply vts_cleaned_refl | exact H1].
    by rewrite (paint_order_perm t1). }
  intros [s2 m2] [H2 Hm2]. cbn [fst snd] in H2, Hm2.
  eapply yields_seq; [apply (label_ok t1 s2); exact H2 |]. intros s3 H3. cbn [yields].
  assert (paints (wm_rows t) (wm_cols t) s3 (scene t th m)) as H4.
  { apply (paints_ext _ _ _ H3). intros r c _ _. rewrite shown_over. done. }
  split; [| by right]. unfold composed. split_and!; try done; [| by exists d].
  destruct Ht1. constructor; try done. by destruct H4.
Qed.
(** ** The rows that changed *)

Lemma wm_color_eq_spec a b : color_eq a b = true ↔ a = b.
Proof.
  destruct a, b; cbn [color_eq]; rewrite ?andb_true_iff, ?Z.eqb_eq; split; try done; try congruence.
  - intros [[-> ->] ->]. done.
  - by intros [= -> -> ->].
Qed.

Lemma cell_eq_spec a b : cell_eq a b = true ↔ a = b.
Proof.
  unfold cell_eq. rewrite !andb_true_iff, !Z.eqb_eq, !wm_color_eq_spec. destruct a, b; cbn. split; [by intros [[[[-> ->] ->] ->] ->] | by intros [= -> -> -> -> ->]].
Qed.

Lemma row_changed_ok a b n : 0 <= n <= zlen a → n <= zlen b →
  yields (row_changed a b n) (λ d, d = true ↔ ∃ c, 0 <= c < n ∧ aget a c ≠ aget b c).
Proof.
  intros Ha Hb. unfold row_changed. apply (for_up_inv (λ i d, d = true ↔ ∃ c, 0 <= c < i ∧ aget a c ≠ aget b c)); [lia | |].
  - split; [done |]. intros (c & ? & _). lia.
  - intros i [|] Hi Hd.
    + cbn. split; [| done]. intros _. destruct (proj1 Hd eq_refl) as (c & ? & ?). exists c. split; [lia | done].
    + destruct (aget_in a i) as [x Ex]; [lia |]. destruct (aget_in b i) as [y Ey]; [lia |]. rewrite Ex, Ey. cbn [mbind option_bind yields].
      rewrite negb_true_iff, <- not_true_iff_false, cell_eq_spec. split.
      * intros Hne. exists i. split; [lia |]. rewrite Ex, Ey. congruence.
      * intros (c & Hc & Hne) ->. destruct (decide (c = i)) as [->|]; [congruence |].
        assert (false = true) as [=]. apply Hd. exists c. split; [lia | done].
Qed.

Section Rows.
Context (cells_differ : list vt_cell → list vt_cell → bool).
Hypothesis memcmp_zero : ∀ a b, cells_differ a b = false → a = b.

Lemma screen_row_cell {A} (l : list A) R C r c : 0 <= r < R → 0 <= c < C → zlen l = R * C →
  aget (take (Z.to_nat C) (drop (Z.to_nat (r * C)) l)) c = aget l (r * C + c).
Proof. intros Hr Hc Hl. rewrite aget_take, aget_drop by nia. by rewrite (proj2 (Z.ltb_lt c C)) by lia. Qed.

Lemma update_dirty_ok t p d0 : wm_ok t → prev_screen t = Some p → wm_row_dirty t = Some d0 →
  let changed r := ∃ c, 0 <= c < wm_cols t ∧ aget (wm_screen t) (r * wm_cols t + c) ≠ aget p (r * wm_cols t + c) in
  yields (wm_update_dirty cells_differ t) (λ t', ∃ d,
    t' = {| t with prev_screen := Some (wm_screen t); wm_row_dirty := Some d |} ∧ zlen d = wm_rows t ∧
    ∀ r, 0 <= r < wm_rows t → aget d r = Some 1 ∧ changed r ∨ aget d r = aget d0 r ∧ ¬ changed r).
Proof.
  intros Ht Ep Ed changed. destruct (wk_prev _ Ht) as (p' & Ep' & Hp). rewrite Ep in Ep'. injection Ep' as <-.
  destruct (wk_dirty _ Ht) as (d' & Ed' & Hd). rewrite Ed in Ed'. injection Ed' as <-.
  pose proof (wk_screen _ Ht) as Hs. pose proof (wk_rows _ Ht) as HR. pose proof (wk_cols _ Ht) as HC. unfold WM_MIN_HEIGHT, WM_MIN_WIDTH in HR, HC.
  unfold wm_update_dirty. rewrite Ep, Ed. set (R := wm_rows t) in *. set (C := wm_cols t) in *.
  eapply (yields_seq _ _ (λ d, ∃ d1, d = Some d1 ∧ zlen d1 = R ∧ ∀ r, 0 <= r < R → aget d1 r = Some 1 ∧ changed r ∨ aget d1 r = aget d0 r ∧ ¬ changed r)).
  - eapply yields_mono; [apply (for_up_inv (λ i d, ∃ d1, d = Some d1 ∧ zlen d1 = R ∧
      ∀ r, 0 <= r < R → (i <= r ∧ aget d1 r = aget d0 r) ∨ (r < i ∧ (aget d1 r = Some 1 ∧ changed r ∨ aget d1 r = aget d0 r ∧ ¬ changed r)))) |];
      [lia | | |].
    + exists d0. split_and!; [done | done |]. intros r Hr. left. split; [lia | done].
    + intros i d Hi (d1 & -> & Hz1 & H1). rewrite !aslice_ok by nia. cbn [mbind option_bind]. set (a := take _ _). set (b := take _ _).
      assert (∀ c, 0 <= c < C → aget a c = aget (wm_screen t) (i * C + c) ∧ aget b c = aget p (i * C + c)) as Hab.
      { intros c Hc. split; apply (screen_row_cell _ R); (done || lia). }
      assert (zlen a = C ∧ zlen b = C) as [Hza Hzb] by (assert (i * C + C <= R * C) by nia; unfold a, b, zlen in *; rewrite !length_take, !length_drop; lia).
      assert (yields (if cells_differ a b then row_changed a b C else Some false) (λ d, d = true ↔ changed i)) as Hy.
      { assert ((∃ c, 0 <= c < C ∧ aget a c ≠ aget b c) ↔ changed i) as Hch.
        { split; intros (c & Hc & Hne); exists c; (split; [done |]); destruct (Hab c Hc) as [E1 E2]; congruence. }
        destruct (cells_differ a b) eqn:E.
        - eapply yields_mono; [apply row_changed_ok; lia |]. cbn. intros x Hx. by rewrite Hx.
        - cbn. split; [done |]. rewrite <- Hch. apply memcmp_zero in E. rewrite E. by intros (c & _ & []). }
      eapply yields_seq; [exact Hy |]. intros x Hx. cbn beta in Hx. destruct x; cbn [mbind option_bind].
      * rewrite aset_in by lia. cbn [mbind option_bind yields]. eexists. split; [done |]. rewrite zlen_insert. split; [done |].
        intros r Hr. rewrite aget_insert by lia. destruct (decide (i = r)) as [->|]; [right; split; [lia |]; left; by split; [| apply Hx] |].
        destruct (H1 r Hr) as [[? ?]|[? ?]]; [left | right]; (split; [lia | done]).
      * cbn [yields]. exists d1. split_and!; try done. intros r Hr. destruct (H1 r Hr) as [[Hir E0]|[? ?]]; [| right; split; [lia | done]].
        destruct (decide (i = r)) as [->|]; [right; split; [lia |]; right; split; [done |]; intros H; by apply Hx in H | left; split; [lia | done]].
    + intros d (d1 & -> & Hz & H1). exists d1. split_and!; try done. intros r Hr. by destruct (H1 r Hr) as [[? _]|[_ ?]]; [lia |].
  - intros d (d1 & -> & Hz & H1). rewrite !aslice_ok by nia. cbn [mbind option_bind yields]. exists d1. split; [| done].
    f_equal. f_equal. change (Z.to_nat 0) with 0%nat. rewrite drop_0. unfold zlen in *. rewrite take_ge by lia. rewrite drop_ge by lia. by rewrite app_nil_r.
Qed.
End Rows.

(** ** What is hit is what is seen *)

Lemma stack_app {R C} m th l1 l2 r c :
  stack tbl (R := R) (C := C) m th (l1 ++ l2) r c = over (stack tbl (R := R) (C := C) m th l1) (stack tbl (R := R) (C := C) m th l2) r c.
Proof.
  induction l1 as [|v l1 IH]; cbn [app stack]; [unfold over, bare; by destruct (stack _ _ _ _ _ _) |].
  unfold over at 1. rewrite IH. unfold over. by destruct (stack _ _ _ l2 r c).
Qed.

(** Outside its frame a window shows nothing but its shadow. *)
Lemma outside_window {R C} m th v r c : drawable tbl m th v → in_frame v r c = false →
  window_ov tbl (R := R) (C := C) m th v r c = shadow_ov v (theme_of th v) r c.
Proof.
  intros [Hth Hv] Hout. unfold window_ov. cbn zeta.
  destruct (marked m v r c) eqn:Em; [apply (marked_inside tbl (R := R) (C := C) m _ v r c Hv) in Em as [Em _]; congruence |].
  unfold body_ov, over. pose proof (frame_inside tbl (R := R) (C := C) m v _ r c Hv) as Hf. destruct Hv as [Hw Hh _ _ _]. unfold WM_MIN_WIDTH, WM_MIN_HEIGHT in *.
  assert (content_ov m v r c = None) as ->.
  { unfold content_ov. destruct (in_content v r c) eqn:E; [| done]. apply in_content_spec in E.
    rewrite <- not_true_iff_false, in_frame_spec in Hout. lia. }
  destruct (frame_ov _ _ _ _ _) eqn:E; [| done]. destruct (proj1 Hf) as [? _]; [congruence | congruence].
Qed.

Lemma stack_outside {R C} m th ws r c : Forall (drawable tbl m th) ws → (∀ v, v ∈ ws → in_frame v r c = false) →
  match stack tbl (R := R) (C := C) m th ws r c with
  | Some x => ∃ v, v ∈ ws ∧ shadow_ov v (theme_of th v) r c = Some x
  | None => True
  end.
Proof.
  intros Hd Hout. induction Hd as [|v ws Hv Hd IH]; cbn [stack]; [done |]. unfold over.
  assert (∀ u, u ∈ ws → in_frame u r c = false) as Hout' by (intros u Hu; apply Hout; by right). specialize (IH Hout').
  destruct (stack _ _ _ ws r c) as [x|].
  - destruct IH as (u & Hu & E). exists u. split; [by right | done].
  - rewrite outside_window by (done || apply Hout; by left). destruct (shadow_ov _ _ _ _) as [x|] eqn:E; [| done]. exists v. split; [by left | done].
Qed.

(** The cell of the highest window there, unless a higher one's shadow is on it. *)
Lemma stack_topmost t th m v r c x : wm_ok t → Forall (drawable tbl m th) (visible t) → topmost t r c v →
  window_ov tbl (R := wm_rows t) (C := wm_cols t) m th v r c = Some x →
  wm_stack t th m r c = Some x ∨
  ∃ u y, u ∈ visible t ∧ wn_z v < wn_z u ∧ shadow_ov u (theme_of th u) r c = Some y ∧ wm_stack t th m r c = Some y.
Proof.
  intros Ht Hd (Hin & [Hm Hf] & Htop) Hx. assert (v ∈ visible t) as Hv by (by apply visible_elem).
  destruct (paint_order_split t v Ht Hv) as (l1 & l2 & E & Hab). rewrite Forall_forall in Hab.
  rewrite <- (paint_order_perm t), E in Hd. apply Forall_app in Hd as [_ Hd]. apply Forall_cons in Hd as [_ Hd].
  assert (∀ u, u ∈ l2 → u ∈ visible t) as Hl2.
  { intros u Hu. rewrite <- (paint_order_perm t), E. apply elem_of_app. right. by right. }
  assert (∀ u, u ∈ l2 → in_frame u r c = false) as Hout.
  { intros u Hu. destruct (in_frame u r c) eqn:Eu; [| done]. specialize (Hab u Hu).
    apply Hl2, visible_elem in Hu as [Hu Hum]. specialize (Htop u Hu (conj Hum Eu)). lia. }
  pose proof (stack_outside (R := wm_rows t) (C := wm_cols t) m th l2 r c Hd Hout) as Ho.
  assert (wm_stack t th m r c = match stack tbl (R := wm_rows t) (C := wm_cols t) m th l2 r c with Some y => Some y | None => Some x end) as ->.
  { unfold wm_stack. rewrite E, stack_app. unfold over. cbn [stack]. unfold over. rewrite Hx. by destruct (stack _ _ _ l2 r c). }
  destruct (stack _ _ _ l2 r c) as [y|]; [right | by left].
  destruct Ho as (u & Hu & Es). exists u, y. split_and!; [by apply Hl2 | by apply Hab | done | done].
Qed.

(** *** The buttons *)

(** The column a button starts at, and its symbol. *)
Definition button_face v (area : wm_hit) : option (Z * Z) :=
  match area with
  | WM_HIT_MINIMIZE => Some (fx v + fw v - 10, ch "_")
  | WM_HIT_MAXIMIZE => Some (fx v + fw v - 7, if wn_maximized v then ch "=" else ch "+")
  | WM_HIT_CLOSE => Some (fx v + fw v - 4, ch "x")
  | _ => None
  end.

Definition button_glyph (start sym col : Z) : Z := if col =? start then ch "[" else if col =? start + 1 then sym else ch "]".

(** The window is wide enough for its status icons. *)
Definition icons_fit v : Prop := nicons v + 1 + nbtns v < fw v.

Local Ltac on_button E := intros [= <- _]; rewrite !andb_true_iff, !Z.leb_le, Z.eqb_eq in E; split_and!; (tauto || lia).

Lemma hit_button v r c start sym : button_face v (hit_area v r c) = Some (start, sym) →
  r = fy v ∧ start <= c <= start + 2 ∧ 6 <= fw v ∧ (hit_area v r c = WM_HIT_CLOSE ∨ 12 <= fw v).
Proof.
  unfold hit_area. cbn zeta.
  destruct ((r =? fy v) && (12 <=? fw v) && (fx v + fw v - 10 <=? c) && (c <=? fx v + fw v - 10 + 2)) eqn:E1;
    [on_button E1 |].
  destruct ((r =? fy v) && (12 <=? fw v) && (fx v + fw v - 10 + 3 <=? c) && (c <=? fx v + fw v - 10 + 5)) eqn:E2;
    [on_button E2 |].
  destruct ((r =? fy v) && (12 <=? fw v) && (fx v + fw v - 10 + 6 <=? c) && (c <=? fx v + fw v - 10 + 8)) eqn:E3;
    [on_button E3 |].
  destruct ((r =? fy v) && (fw v <? 12) && (6 <=? fw v) && (fx v + fw v - 4 <=? c) && (c <=? fx v + fw v - 2)) eqn:E4;
    [on_button E4 |].
  destruct (r =? fy v); [done |]. destruct (SFltb _ _ && _ && _ && _); [done |].
  by destruct (_ && (c <? wn_x v + wn_w v)).
Qed.

Lemma button_on v th col cp fg c : col <= c <= col + 2 →
  ∃ x, button_ov v th col cp fg (fy v) c = Some x ∧ codepoint x = button_glyph col cp c.
Proof.
  intros Hc. unfold button_ov. rewrite Z.eqb_refl, !(proj2 (Z.leb_le _ _)) by lia. eexists. split; [done |].
  unfold button_glyph, bold. by destruct (c =? col); [| destruct (c =? col + 1)].
Qed.

Lemma button_off v th col cp fg r c : c < col ∨ col + 2 < c → button_ov v th col cp fg r c = None.
Proof. intros Hc. unfold button_ov. zbool. Qed.

Lemma buttons_glyph v th r c start sym : button_face v (hit_area v r c) = Some (start, sym) →
  codepoint <$> buttons_ov v th r c = Some (button_glyph start sym c).
Proof.
  intros H. pose proof (hit_button v r c start sym H) as (-> & Hc & Hw & Ha). unfold buttons_ov.
  replace (fx v + fw v - 10 + 3) with (fx v + fw v - 7) by lia. replace (fx v + fw v - 10 + 6) with (fx v + fw v - 4) by lia.
  unfold over. destruct (Z.leb_spec 12 (fw v)) as [H12|H12].
  - destruct (hit_area v (fy v) c); try done; injection H as <- <-.
    + by destruct (button_on v th _ (ch "x") (close_fg th) c Hc) as (x & -> & <-).
    + rewrite (button_off v th (fx v + fw v - 4)), (button_off v th (fx v + fw v - 7)) by lia.
      by destruct (button_on v th _ (ch "_") (tool_fg th) c Hc) as (x & -> & <-).
    + rewrite (button_off v th (fx v + fw v - 4)) by lia.
      by destruct (button_on v th _ (if wn_maximized v then ch "=" else ch "+") (tool_fg th) c Hc) as (x & -> & <-).
  - rewrite (proj2 (Z.leb_le 6 _) Hw). destruct Ha as [Ha|]; [| lia]. rewrite Ha in H. injection H as <- <-.
    by destruct (button_on v th _ (ch "x") (close_fg th) c Hc) as (x & -> & <-).
Qed.

Lemma frame_button {R C} m th v r c start sym : window_ready m th v → icons_fit v → button_face v (hit_area v r c) = Some (start, sym) →
  codepoint <$> frame_ov tbl (R := R) (C := C) v th r c = Some (button_glyph start sym c).
Proof.
  intros Hv Hfit Hb. pose proof (buttons_glyph v th r c start sym Hb) as Hg. pose proof (hit_button v r c start sym Hb) as (-> & Hc & Hw & Ha).
  assert (fx v + fw v - 1 - nbtns v <= start) as Hs.
  { unfold nbtns in *. destruct (hit_area v (fy v) c); try done; injection Hb as <- _; destruct (Z.leb_spec 12 (fw v)); (lia || (destruct Ha; [done | lia])). }
  destruct Hv as [_ Hh _ _ _]. unfold WM_MIN_HEIGHT in Hh.
  assert (icons_ov v th (fy v) c = None) as Ei.
  { unfold icons_ov. apply icons_from_out. rewrite icons_length. intros [_ Hcc]. unfold icons_fit, icon_col in *. lia. }
  assert (sides_ov v th (fy v) c = None) as Es by (unfold sides_ov; zbool).
  assert (scrollbar_ov v th (fy v) c = None) as Eb.
  { destruct (scrollbar_ov v th (fy v) c) eqn:E; [| done]. destruct (scrollbar_inside v th (fy v) c ltac:(lia)) as [_ ?]; [by rewrite E | lia]. }
  assert (∀ l mid rt, edge_ov (fy v + fh v - 1) l mid rt v th (fy v) c = None) as Ee.
  { intros. unfold edge_ov. rewrite (proj2 (Z.eqb_neq _ _)); [done |]. unfold fh. lia. }
  unfold frame_ov. unfold over. rewrite Ee, Eb, Es, Ei. by destruct (buttons_ov v th (fy v) c).
Qed.

Lemma hit_area_content v r c : hit_area v r c = if in_content v r c then WM_HIT_CONTENT else hit_area v r c.
Proof.
  destruct (in_content v r c) eqn:E; [| done]. pose proof (proj1 (in_content_spec v r c) E) as H. unfold hit_area, in_content in *. rewrite E. cbn zeta.
  rewrite (proj2 (Z.eqb_neq r (fy v))), (proj2 (Z.eqb_neq c (fx v + fw v - 1))) by (unfold fy, fx, fw; lia). cbn [andb].
  by rewrite andb_false_r.
Qed.

Lemma hit_area_other v r c : in_content v r c = false → hit_area v r c ≠ WM_HIT_CONTENT ∧ hit_area v r c ≠ WM_HIT_NONE.
Proof. intros E. unfold hit_area, in_content in *. rewrite E. cbn zeta. by repeat case_match. Qed.

(** What is at a cell of the screen that the mouse hits. *)
Definition seen_at (R C : Z) m th v (area : wm_hit) (r c : Z) (x : vt_cell) : Prop :=
  let cursor y := if marked m v r c then reversed y else y in
  match area with
  | WM_HIT_NONE => False
  | WM_HIT_CONTENT => ∀ q, win_vt v = Some q →
      ∃ st y, m !! q = Some st ∧ vt_at st (r - wn_y v) (c - wn_x v) = Some y ∧ x = cursor (unpredicted y)
  | _ => ∃ y, frame_ov tbl (R := R) (C := C) v (theme_of th v) r c = Some y ∧ x = cursor y ∧
      ∀ start sym, button_face v area = Some (start, sym) → icons_fit v → codepoint x = button_glyph start sym c
  end.

Lemma marked_frame m v r c x : codepoint (if marked m v r c then reversed x else x) = codepoint x.
Proof. by destruct (marked _ _ _ _). Qed.

Lemma window_seen {R C} m th v r c : drawable tbl m th v → in_frame v r c = true →
  (in_content v r c = true → win_vt v ≠ None) →
  ∃ x, window_ov tbl (R := R) (C := C) m th v r c = Some x ∧ seen_at R C m th v (hit_area v r c) r c x.
Proof.
  intros [Hth Hv] Hin Hvt. pose proof (frame_inside tbl (R := R) (C := C) m v (theme_of th v) r c Hv) as Hf.
  pose proof (wy_fills _ _ _ Hv) as Hfill. unfold window_ov, body_ov. cbn zeta.
  destruct (in_content v r c) eqn:Ec.
  - rewrite hit_area_content, Ec. destruct (content_ov m v r c) as [x|] eqn:Ex; [| by destruct (content_there m v r c Hfill (Hvt eq_refl) Ec)].
    unfold over. rewrite Ex. exists (if marked m v r c then reversed x else x). split; [by destruct (marked _ _ _ _) |].
    intros q Eq. unfold content_ov in Ex. rewrite Ec, Eq in Ex. cbn [mbind option_bind] in Ex. apply bind_Some in Ex as (st & Em & (y & Ey & ->)%fmap_Some).
    exists st, y. split_and!; done.
  - assert (content_ov m v r c = None) as En by (unfold content_ov; by rewrite Ec).
    destruct (frame_ov tbl v (theme_of th v) r c) as [x|] eqn:Ex; [| by destruct (proj2 Hf (conj Hin eq_refl))].
    unfold over at 1 3. unfold over. rewrite En, Ex. exists (if marked m v r c then reversed x else x). split; [by destruct (marked _ _ _ _) |].
    assert (∃ y, frame_ov tbl (R := R) (C := C) v (theme_of th v) r c = Some y ∧ (if marked m v r c then reversed x else x) = (if marked m v r c then reversed y else y) ∧
      ∀ start sym, button_face v (hit_area v r c) = Some (start, sym) → icons_fit v → codepoint (if marked m v r c then reversed x else x) = button_glyph start sym c) as Hfr.
    { exists x. split_and!; [done | done |]. intros start sym Hb Hfit. rewrite marked_frame.
      pose proof (frame_button (R := R) (C := C) m _ v r c start sym Hv Hfit Hb) as E. rewrite Ex in E. by injection E. }
    destruct (hit_area_other v r c Ec) as [H1 H2]. unfold seen_at. by destruct (hit_area v r c).
Qed.

(** C10: what the mouse hits is what is seen there.  Compose the screen of a window
    manager whose windows can be drawn, and take any cell of it.  If nothing is hit
    there the cell is blank, or the shadow of a window.  If a window is hit, it is
    visible, no visible window's frame around the cell is higher, and the cell is
    the shadow of a higher one or shows that window: in the content area the cell
    of its terminal, with the cursor marked if the window has not the focus;
    elsewhere a cell of its frame; and on the buttons that are hit to close,
    minimize and maximize it, if its status icons leave room for them, the glyphs
    of that button. *)
Theorem hit_is_seen t th m row col :
  wm_ok t → Forall (drawable tbl m th) (visible t) → Forall (λ v, win_vt v ≠ None) (visible t) →
  composite_needed t = true → wm_drag_state t ≠ WM_DRAG_RESIZING →
  0 <= row < wm_rows t → 0 <= col < wm_cols t →
  ∃ t' m' x, wm_composite tbl t th m = Some (t', m') ∧ aget (wm_screen t') (row * wm_cols t + col) = Some x ∧
    match wm_hit_test t row col with
    | None => x = vt_cell_clear ∨ ∃ u, u ∈ visible t ∧ shadow_ov u (theme_of th u) row col = Some x
    | Some (k, area) => ∃ v, win_of t k = Some v ∧ topmost t row col v ∧
        (seen_at (wm_rows t) (wm_cols t) m th v area row col x ∨ ∃ u, u ∈ visible t ∧ wn_z v < wn_z u ∧ shadow_ov u (theme_of th u) row col = Some x)
    end.
Proof.
  intros Ht Hd Hvt Hn Hdr Hr Hc. pose proof (composite_ok t th m Ht Hd) as ([t' m'] & E & _ & Hp)%yields_Some.
  destruct Hp as [(? & _)|[_ [_ Hp]]]; [congruence |]. exists t', m', (scene t th m row col). split; [done |]. split; [by apply Hp |].
  assert (label_ov t = bare) as Hl by (unfold label_ov; by rewrite bool_decide_eq_false_2).
  unfold scene, shown, over. rewrite Hl. unfold bare. pose proof (wm_hit_spec t row col Ht) as Hhit.
  destruct (wm_hit_test t row col) as [[k area]|].
  - destruct Hhit as (v & Htop & -> & ->). pose proof Htop as (Hin & [Hm Hfr] & _). assert (v ∈ visible t) as Hv by (by apply visible_elem).
    exists v. split; [by apply win_of_id |]. split; [done |]. rewrite Forall_forall in Hd, Hvt.
    destruct (window_seen (R := wm_rows t) (C := wm_cols t) m th v row col (Hd v Hv) Hfr (λ _, Hvt v Hv)) as (x & Ex & Hs).
    destruct (stack_topmost t th m v row col x Ht ltac:(by apply Forall_forall) Htop Ex) as [-> | (u & y & Hu & Hz & Es & ->)].
    + by left.
    + right. by exists u.
  - pose proof (stack_outside (R := wm_rows t) (C := wm_cols t) m th (paint_order t) row col) as Ho.
    unfold wm_stack. destruct (stack _ _ _ (paint_order t) row col) as [x|]; [right | by left].
    destruct Ho as (u & Hu & Es).
    + by rewrite (paint_order_perm t).
    + intros u Hu. rewrite (paint_order_perm t), visible_elem in Hu. destruct Hu as [Hu Hm]. destruct (in_frame u row col) eqn:Ef; [| done].
      by destruct (Hhit u Hu).
    + rewrite (paint_order_perm t) in Hu. exists u. done.
Qed.

(** Compositing, then comparing with the last frame. *)
Lemma frame_shows_windows' cells_differ t th m p :
  (∀ a b, cells_differ a b = false → a = b) → wm_ok t → Forall (drawable tbl m th) (visible t) → prev_screen t = Some p →
  ∃ t1 m' t' d, wm_composite tbl t th m = Some (t1, m') ∧ wm_update_dirty cells_differ t1 = Some t' ∧
    wm_ok t' ∧ vts_cleaned m m' ∧ windows t' = windows t ∧ composite_needed t' = false ∧ wm_rows t' = wm_rows t ∧ wm_cols t' = wm_cols t ∧
    prev_screen t' = Some (wm_screen t') ∧ wm_row_dirty t' = Some d ∧
    (if composite_needed t || bool_decide (any_vt_dirty (windows t) m = Some true)
     then ∀ row col, 0 <= row < wm_rows t → 0 <= col < wm_cols t →
       aget (wm_screen t') (row * wm_cols t + col) = Some (scene t th m row col)
     else wm_screen t' = wm_screen t) ∧
    ∀ row, 0 <= row < wm_rows t → (aget d row = Some 1 ↔
      ∃ col, 0 <= col < wm_cols t ∧ aget (wm_screen t') (row * wm_cols t + col) ≠ aget p (row * wm_cols t + col)).
Proof.
  intros Hcmp Ht Hd Ep. pose proof (composite_ok t th m Ht Hd) as ([t1 m1] & E & Hc & Hp)%yields_Some.
  destruct Hc as (Hok1 & Hm & (d0 & Ed & Hd0) & Hn & Et1).
  assert (prev_screen t1 = Some p ∧ windows t1 = windows t ∧ wm_rows t1 = wm_rows t ∧ wm_cols t1 = wm_cols t) as (Ep1 & Ew & ER & EC) by (rewrite Et1; done).
  pose proof (update_dirty_ok cells_differ Hcmp t1 p d0 Hok1 Ep1 Ed) as (t2 & E2 & (d & -> & Hz & Hrows))%yields_Some.
  rewrite ER in Hz, Hrows. rewrite EC in Hrows. exists t1, m1, {| t1 with prev_screen := Some (wm_screen t1); wm_row_dirty := Some d |}, d.
  split; [exact E |]. split; [exact E2 |]. split.
  { destruct Hok1. constructor; try done; [exists (wm_screen t1); by split |]. exists d. split; [done |]. cbn. by rewrite ER. }
  split_and!; try done.
  - destruct Hp as [(-> & -> & Es & _)|[Hdue [_ Hp]]]; cbn [orb]; [by rewrite bool_decide_eq_false_2 |].
    replace (composite_needed t || _) with true; [done |]. destruct Hdue as [-> | ->]; [done |]. by rewrite bool_decide_eq_true_2, orb_true_r.
  - intros row Hr. destruct (Hrows row Hr) as [[E1 Hch]|[E0 Hch]]; [done |]. split; [| done]. intros E1. rewrite E1 in E0.
    symmetry in E0. pose proof (aget_Some _ _ _ E0). rewrite aget_lookup in E0 by lia. rewrite Forall_lookup in Hd0. by specialize (Hd0 _ _ E0).
Qed.

(** C28: a frame shows the windows, and marks the rows that changed.  Composing a
    window manager whose windows can be drawn and comparing with the last frame
    [p] never traps, and keeps the invariant and the windows.  If anything asked
    for it, or a terminal has a dirty row, each cell of the screen then is that of
    the picture: the windows that are not minimized, in the order of their heights,
    over a blank screen, and the size of a window being resized over all; otherwise
    the screen is as it was.  Exactly the rows with a cell that differs from the
    last frame are marked, and the last frame is now this one. *)
Theorem frame_shows_windows cells_differ t th m p :
  (∀ a b, cells_differ a b = false → a = b) → wm_ok t → Forall (drawable tbl m th) (visible t) → prev_screen t = Some p →
  ∃ t' m' d, ('(t1, m1) ← wm_composite tbl t th m; t1 ← wm_update_dirty cells_differ t1; Some (t1, m1)) = Some (t', m') ∧
    wm_ok t' ∧ vts_cleaned m m' ∧ windows t' = windows t ∧ composite_needed t' = false ∧
    prev_screen t' = Some (wm_screen t') ∧ wm_row_dirty t' = Some d ∧
    (if composite_needed t || bool_decide (any_vt_dirty (windows t) m = Some true)
     then ∀ row col, 0 <= row < wm_rows t → 0 <= col < wm_cols t →
       aget (wm_screen t') (row * wm_cols t + col) = Some (scene t th m row col)
     else wm_screen t' = wm_screen t) ∧
    ∀ row, 0 <= row < wm_rows t → (aget d row = Some 1 ↔
      ∃ col, 0 <= col < wm_cols t ∧ aget (wm_screen t') (row * wm_cols t + col) ≠ aget p (row * wm_cols t + col)).
Proof.
  intros Hcmp Ht Hd Ep.
  destruct (frame_shows_windows' cells_differ t th m p Hcmp Ht Hd Ep) as (t1 & m' & t' & d & E1 & E2 & Hok & Hm & Ew & En & _ & _ & Ep' & Ed & Hpic & Hrows).
  exists t', m', d. split; [rewrite E1; cbn [mbind option_bind]; by rewrite E2 | by split_and!].
Qed.
End Display.
