(* ===== verification/WmSafe.v ===== *)
(** * Compositing does not trap

    What compositing needs to run, as opposed to what it needs to show a picture
    (WmDisplay.v): strings that end, terminals at least as wide as their windows,
    and a scroll thumb whose position is a number.  Any glyphs, any cursor and
    any height will do. *)

From Stdlib Require Import SpecFloat.
From stdpp Require Import gmap.
From S2P Require Import Prelude Utf8 WidthTables RuneWidth VtBuf VtState Render Tile TileComposite TileScreen Theme Wm WmText WmPicture WmSession WmDisplay.

Section Safe.
Context (tbl : rune_width_table) `{!WidthTable tbl} {R C : Z}.
Implicit Types (v : wm_window) (th : tui_theme) (m : vts).

(** Drawing on a screen of the right size gives one. *)
Definition safe (P : list vt_cell → option (list vt_cell)) : Prop :=
  ∀ s, zlen s = R * C → yields (P s) (λ s', zlen s' = R * C).

Lemma painted s : zlen s = R * C → paints R C s (λ r c, default vt_cell_clear (aget s (r * C + c))).
Proof. intros Hs. split; [done |]. intros r c Hr Hc. by destruct (aget_in s (r * C + c)) as [x ->]; [nia |]. Qed.

Lemma draws_safe P o : draws R C P o → safe P.
Proof. intros H s Hs. eapply yields_mono; [apply H; by apply painted |]. by intros s' []. Qed.

Lemma safe_nothing : safe Some.
Proof. by intros s Hs. Qed.

Lemma safe_seq P Q : safe P → safe Q → safe (λ s, s ← P s; Q s).
Proof. intros HP HQ s Hs. eapply yields_seq; [by apply HP |]. exact HQ. Qed.

Lemma safe_for lo hi body : (∀ i, lo <= i < hi → safe (body i)) → safe (for_up lo hi body).
Proof. intros Hb s Hs. apply for_up_keep; [done |]. intros i s' Hi. by apply Hb. Qed.

Lemma safe_put row col cp fg bg attrs : safe (put tbl R C row col cp fg bg attrs).
Proof. by eapply draws_safe, draws_put. Qed.

Lemma safe_puts row col str fg bg attrs maxw : c_str str → safe (puts tbl R C row col str fg bg attrs maxw).
Proof. intros Hs. by eapply draws_safe, draws_puts. Qed.

Lemma safe_cell row col x : safe (λ s, match screen_cell R C row col with None => Some s | Some i => aset s i x end).
Proof. by eapply draws_safe, draws_cell. Qed.

(** ** The frame *)

Definition theme_ends th : Prop := Forall c_str (theme_strings th).

Ltac ended := match goal with H : theme_ends _ |- c_str _ =>
  let H' := fresh in pose proof H as H'; unfold theme_ends, theme_strings in H'; rewrite !Forall_app, !Forall_cons in H'; tauto end.

Lemma safe_shadow v th : safe (draw_shadow tbl R C v th).
Proof.
  unfold draw_shadow. destruct (shadow_glyphs _) as [[rg below]|]; [| apply safe_nothing].
  apply safe_seq; apply safe_for; intros; apply safe_put.
Qed.

Lemma safe_edge row l mid r v th : c_str l → c_str mid → c_str r → safe (draw_edge tbl R C row l mid r v th).
Proof.
  intros. unfold draw_edge. apply safe_seq; [by apply safe_puts |]. apply safe_seq; [| by apply safe_puts].
  apply safe_for. intros. by apply safe_puts.
Qed.

Lemma safe_title v th : theme_ends th → c_str (wn_title v) → safe (draw_title tbl R C v th).
Proof.
  intros Hth Ht. unfold draw_title. cbv zeta. apply safe_seq; [apply safe_put |]. intros s Hs.
  destruct (aget_head_c_str _ Ht) as (b & -> & _). cbn [mbind option_bind]. destruct (b =? 0); [done |].
  set (avail := if _ <? 0 then 0 else _). unfold str_display_width.
  rewrite (str_display_ok tbl _ _ avail 0 0) by done. cbn [mbind option_bind]. revert s Hs.
  repeat (apply safe_seq; [apply safe_puts; (done || ended) |]). apply safe_puts. ended.
Qed.

Lemma safe_button v th col cp fg : safe (draw_button tbl R C v th col cp fg).
Proof. unfold draw_button. repeat (apply safe_seq; [apply safe_put |]). apply safe_put. Qed.

Lemma safe_buttons v th : safe (draw_buttons tbl R C v th).
Proof.
  unfold draw_buttons. destruct (12 <=? fw v); [| destruct (6 <=? fw v); [apply safe_button | apply safe_nothing]].
  cbv zeta. repeat (apply safe_seq; [apply safe_button |]). apply safe_button.
Qed.

Lemma icon_safe v th flag icon k : c_str icon → zlen k.2 = R * C →
  yields (draw_icon tbl R C v th flag icon k) (λ k', zlen k'.2 = R * C).
Proof.
  intros Hi Hk. unfold draw_icon. destruct k as [icol s]. cbn [snd] in Hk. destruct (has_bits _ _); [| done].
  eapply yields_seq; [by apply safe_puts |]. done.
Qed.

Lemma safe_icons v th : theme_ends th → safe (draw_icons tbl R C v th).
Proof.
  intros Hth s Hs. unfold draw_icons. cbv zeta.
  do 3 (eapply yields_seq; [apply icon_safe; [ended | done] |]; intros ? ?). done.
Qed.

Lemma safe_sides v th : theme_ends th → safe (draw_sides tbl R C v th).
Proof. intros Hth. unfold draw_sides. apply safe_for. intros. apply safe_seq; apply safe_puts; ended. Qed.

(** The thumb is computed with floating point numbers, and cast to [int]. *)
Definition thumb_ok v th : Prop := scrolls v th = true → is_Some (thumb v (track v).2).

Lemma safe_scrollbar v th : theme_ends th → thumb_ok v th → safe (draw_scrollbar tbl R C v th).
Proof.
  intros Hth Hthumb. unfold draw_scrollbar, thumb_ok in *. destruct (scroll_track th) as [bar|] eqn:Eb; [| apply safe_nothing].
  assert (c_str bar) as Hbar.
  { unfold theme_ends, theme_strings in Hth. rewrite Eb in Hth. apply Forall_app in Hth as [_ Hth]. by apply Forall_cons in Hth as [? _]. }
  destruct (scrolls v th); [| apply safe_nothing]. destruct (Hthumb eq_refl) as [[start n] Et]. destruct (track v) as [top inner]. cbn [snd] in Et.
  cbv zeta. apply safe_seq.
  - destruct (4 <=? wn_h v); [| apply safe_nothing]. apply safe_seq; apply safe_puts; ended.
  - destruct (inner <=? 0); [apply safe_nothing |]. rewrite Et. cbn [mbind option_bind]. apply safe_for. intros i Hi.
    destruct (_ && _); apply safe_puts; [ended | done].
Qed.

Lemma safe_frame v th : theme_ends th → c_str (wn_title v) → thumb_ok v th → safe (draw_frame tbl R C v th).
Proof.
  intros Hth Ht Hthumb. unfold draw_frame. apply safe_seq; [apply safe_edge; ended |]. apply safe_seq; [by apply safe_title |].
  apply safe_seq; [apply safe_buttons |]. apply safe_seq; [by apply safe_icons |]. apply safe_seq; [by apply safe_sides |].
  apply safe_seq; [by apply safe_scrollbar |]. apply safe_edge; ended.
Qed.

(** ** The content *)

(** The terminal of a window is there, and at least as wide. *)
Definition hosted m v : Prop := ∀ q, win_vt v = Some q → ∃ st R' C', m !! q = Some st ∧ wf_state R' C' st ∧ wn_w v <= C'.

Lemma hosted_cleaned m m' v : vts_cleaned m m' → hosted m v → hosted m' v.
Proof.
  intros Hm H q Hq. destruct (H q Hq) as (st & R' & C' & E & Hwf & Hw). pose proof (Hm q) as Hc. rewrite E in Hc.
  destruct (m' !! q) as [st'|]; inversion Hc as [? ? Hst|]; subst. exists st', R', C'. split_and!; [done | by apply Hst | done].
Qed.

Lemma vts_cleaned_trans m1 m2 m3 : vts_cleaned m1 m2 → vts_cleaned m2 m3 → vts_cleaned m1 m3.
Proof. intros H1 H2 q. specialize (H1 q). specialize (H2 q). destruct H1; inversion H2; subst; constructor. by etransitivity. Qed.

Lemma content_row_safe R' C' v r s st : wf_state R' C' st → wn_w v <= C' → zlen s = R * C →
  yields (draw_content_row R C v r (s, st)) (λ k, zlen k.1 = R * C ∧ cleaned st k.2).
Proof.
  intros Hwf Hw Hs. unfold draw_content_row. eapply yields_seq; [by apply (screen_row_ok R' C') |]. intros [vr|] Ho; [| done].
  destruct Ho as (Hr & _ & Hz). eapply yields_seq.
  - apply (safe_for 0 (wn_w v) (λ c s, match screen_cell R C (wn_y v + r) (wn_x v + c) with None => Some s | Some i => src ← aget (VtBuf.cells vr) c; aset s i (unpredicted src) end)); [| done].
    intros c Hc. destruct (aget_in (VtBuf.cells vr) c) as [x ->]; [lia |]. cbn [mbind option_bind]. apply safe_cell.
  - intros s' Hs'. eapply yields_seq; [by apply (clear_dirty_row_ok R' C') |]. intros st' Hst. done.
Qed.

Lemma content_safe v s m : hosted m v → zlen s = R * C →
  yields (draw_content R C v s m) (λ k, zlen k.1 = R * C ∧ vts_cleaned m k.2).
Proof.
  intros Hh Hs. unfold draw_content, hosted in *. destruct (win_vt v) as [q|]; [| cbn; split; [done | apply vts_cleaned_refl]].
  destruct (Hh q eq_refl) as (st & R' & C' & Eq & Hwf & Hw). rewrite Eq. cbn [mbind option_bind].
  destruct (cur_buf_ok R' C' st Hwf) as (b & -> & _).
  eapply (yields_seq _ _ (λ k, zlen k.1 = R * C ∧ cleaned st k.2)).
  - apply (for_up_keep (λ k, zlen k.1 = R * C ∧ cleaned st k.2)); [done |]. intros r [s' st'] _ [Hs' Hst']. cbn [fst snd] in *.
    eapply yields_mono; [by apply (content_row_safe R' C'); [apply Hst' | |] |]. intros k [H1 H2]. split; [done |]. by transitivity st'.
  - intros [s' st'] [Hs' Hst']. cbn [yields fst snd] in *. split; [done |]. intros i.
    destruct (decide (i = q)) as [->|]; [rewrite lookup_insert_eq, Eq; by constructor |]. rewrite lookup_insert_ne by done. apply vts_cleaned_refl.
Qed.

Lemma cursor_safe v m s : hosted m v → zlen s = R * C → yields (draw_cursor R C v s m) (λ s', zlen s' = R * C).
Proof.
  intros Hh Hs. unfold draw_cursor, hosted in *. destruct (win_vt v) as [q|]; [| done]. destruct (wn_focused v); [done |].
  destruct (Hh q eq_refl) as (st & R' & C' & -> & _). cbn [mbind option_bind]. destruct (negb _); [done |].
  rewrite screen_cell_spec. case_bool_decide as Hin; [| done].
  destruct (aget_in s ((wn_y v + cursor_row st) * C + (wn_x v + cursor_col st))) as [x E]; [nia |]. rewrite E. cbn [mbind option_bind].
  rewrite aset_in by (apply aget_Some in E; done). cbn. by rewrite zlen_insert.
Qed.

(** ** Windows *)

(** What a window needs to be drawn without a trap. *)
Record composable m th v : Prop := {
  cb_theme : theme_ends (theme_of th v);
  cb_thumb : thumb_ok v (theme_of th v);
  cb_hosted : hosted m v;
}.

(** What can be pictured can be drawn. *)
Lemma drawable_composable m th v : drawable tbl m th v → composable m th v.
Proof.
  intros [[Hg _] [_ _ _ Hthumb Hf]]. constructor; [| done |].
  - eapply Forall_impl; [exact Hg |]. by intros s [? _].
  - intros q Hq. destruct (Hf q Hq) as (st & R' & C' & E & Hwf & _ & Hw & _). by exists st, R', C'.
Qed.

Lemma windows_safe th ws : ∀ m s, Forall (composable m th) ws → Forall (λ v, c_str (wn_title v)) ws → zlen s = R * C →
  yields (draw_windows tbl R C th ws (s, m)) (λ k, zlen k.1 = R * C).
Proof.
  induction ws as [|v ws IH]; intros m s Hc Ht Hs; [done |]. apply Forall_cons in Hc as [[Hth Hthumb Hh] Hc]. apply Forall_cons in Ht as [Hv Ht].
  cbn [draw_windows]. unfold draw_window. eapply (yields_seq _ _ (λ k, zlen k.1 = R * C ∧ vts_cleaned m k.2)).
  - eapply yields_seq; [by apply safe_shadow |]. intros s1 H1. eapply yields_seq; [by apply safe_frame |]. intros s2 H2.
    eapply yields_seq; [by apply content_safe |]. intros [s3 m3] [H3 Hm3]. cbn [fst snd] in *.
    eapply yields_seq; [apply cursor_safe; [by eapply hosted_cleaned | done] |]. intros s4 H4. done.
  - intros [s1 m1] [H1 Hm1]. cbn [fst snd] in *. apply IH; [| done | done]. eapply Forall_impl; [exact Hc |].
    intros x []. constructor; [done | done | by eapply hosted_cleaned].
Qed.

Lemma label_safe v : safe (draw_label tbl R C v).
Proof. unfold draw_label. destruct (_ || _); [apply safe_nothing |]. apply safe_puts, size_label_c_str. Qed.
End Safe.

Section Composite.
Context (tbl : rune_width_table) `{!WidthTable tbl}.

Lemma dirty_safe m ws : Forall (λ v, wn_minimized v = false → hosted m v) ws → yields (any_vt_dirty ws m) (λ _, True).
Proof.
  induction 1 as [|v ws Hv Hws IH]; cbn [any_vt_dirty]; [done |]. destruct (win_vt v) as [q|] eqn:Eq; [| done].
  destruct (wn_minimized v); [done |]. destruct (Hv eq_refl q Eq) as (st & R' & C' & -> & Hwf & _). cbn [mbind option_bind].
  destruct (cur_buf_ok R' C' st Hwf) as (b & -> & _). eapply yields_seq; [apply (for_up_keep (λ _, True)); [done |] |].
  - intros r [|] _ _; [done |]. eapply yields_seq; [by apply (screen_row_ok R' C') |]. by intros [vr|] _.
  - by intros [|] _.
Qed.

(** Compositing runs, and changes the screen's cells and flags only. *)
Lemma composite_safe t th m : wm_ok t → Forall (composable m th) (visible t) → yields (wm_composite tbl t th m) (λ k, wm_ok k.1).
Proof.
  intros Ht Hd. unfold wm_composite. destruct (wk_dirty _ Ht) as (d0 & E0 & Hd0). pose proof (wk_rows _ Ht) as HR. pose proof (wk_cols _ Ht) as HC.
  unfold WM_MIN_HEIGHT, WM_MIN_WIDTH in HR, HC. rewrite E0. cbn [mbind option_bind]. rewrite for_up_fill by lia. cbn [mbind option_bind]. cbv zeta.
  set (t1 := {| t with wm_row_dirty := Some _ |}).
  assert (wm_ok t1) as Ht1 by (destruct Ht; constructor; try done; eexists; split; [reflexivity | by rewrite zlen_fill]).
  apply (yields_seq _ _ (λ _, True)).
  { destruct (composite_needed t1); [done |]. apply dirty_safe, Forall_forall. intros v Hv Hmin. rewrite Forall_forall in Hd. apply Hd. by apply visible_elem. }
  intros [|] _; cbn [negb]; [| done].
  eapply yields_seq; [apply screen_clear_ok; [cbn; nia | apply Ht1] |]. intros s1 [H1 _].
  eapply yields_seq.
  { apply (windows_safe tbl th (paint_order t1)); [by rewrite (paint_order_perm t1) | | exact H1]. rewrite (paint_order_perm t1). apply Forall_forall. intros v Hv%visible_elem.
    pose proof (wk_titles _ Ht) as Hti. rewrite Forall_forall in Hti. by destruct (Hti v (proj1 Hv)). }
  intros [s2 m2] H2. cbn [fst] in H2. apply (yields_seq _ _ (λ s, zlen s = wm_rows t * wm_cols t)).
  { case_bool_decide; [| done]. destruct (wm_find t1 (wm_drag_id t1)) as [i|] eqn:E; [| done]. apply wm_find_Some in E as (v & Hv & _).
    rewrite Hv. cbn [mbind option_bind]. by apply label_safe. }
  intros s3 H3. cbn [yields fst]. destruct Ht1; constructor; done.
Qed.
End Composite.
