(* ===== verification/WmRun.v ===== *)
(** * Sessions of the window manager, and its themes

    Every operation of the manager in one type, and that no session of them traps;
    that the themes built in can be drawn; a demonstration; and what the manager
    does not prevent. *)

From Stdlib Require Import SpecFloat.
From stdpp Require Import gmap.
From S2P Require Import Prelude Utf8 WidthTables RuneWidth VtBuf VtParse VtState VtOps VtSeq VtClient Tile TileComposite TileScreen TileFrame TileDisplay.
From S2P Require Import Theme Wm WmText WmPicture WmSession WmGrid WmDisplay WmSafe.

(** ** Themes *)

Section Glyphs.
Context (tbl : rune_width_table).

Definition glyph_okb (s : list Z) : bool :=
  let cp := glyph_of s in
  bool_decide (s = utf8_encode cp ++ [0]) && (1 <=? cp) && (cp <? 0xD800) && (width_spec tbl cp =? 1).

Lemma glyph_okb_sound s : glyph_okb s = true → theme_glyph tbl s.
Proof.
  unfold glyph_okb, theme_glyph. cbn zeta. generalize (glyph_of s). intros cp.
  rewrite !andb_true_iff, Z.leb_le, Z.ltb_lt, Z.eqb_eq, bool_decide_eq_true. intros [[[-> H1] H2] Hw].
  apply one_glyph_intro; [| unfold gwidth; lia]. unfold text_rune, valid_rune, UTF8_RUNE_MAX, UTF8_RUNE_ERROR. lia.
Qed.

Definition theme_okb (th : tui_theme) : bool :=
  forallb glyph_okb (theme_strings th) && forallb (λ cp, width_spec tbl cp =? 1) fixed_glyphs.

Lemma theme_okb_sound th : theme_okb th = true → theme_ok tbl th.
Proof.
  unfold theme_okb. rewrite andb_true_iff, !forallb_forall. intros [Hs Hf]. constructor; apply Forall_forall; intros x Hx%list_elem_of_In.
  - by apply glyph_okb_sound, Hs.
  - specialize (Hf x Hx). apply Z.eqb_eq in Hf. unfold gwidth. lia.
Qed.

Lemma themes_ok_check : forallb theme_okb themes = true → ∀ th, th ∈ themes → theme_ok tbl th.
Proof. rewrite forallb_forall. intros H th Hth%list_elem_of_In. by apply theme_okb_sound, H. Qed.
End Glyphs.

(** Every theme built in can be drawn with every table of widths built in:
    each glyph of it that the window manager draws is one character of one column,
    as are the characters it draws by their code points; [tui_theme_by_name] finds
    each by its name and [tui_theme_at] by its index; and the default one, whatever
    the environment, is one of them. *)
Theorem builtin_themes_drawable tbl : tbl ∈ rune_width_builtin →
  (∀ i th, tui_theme_at i = Some th → theme_ok tbl th ∧ tui_theme_by_name (theme_name th) = Some th) ∧
  (∀ i, is_Some (tui_theme_at i) ↔ 0 <= i < tui_theme_count) ∧
  ∀ getenv, ∃ th i, tui_theme_default getenv = Some th ∧ tui_theme_at i = Some th.
Proof.
  intros Ht.
  assert (forallb (theme_okb tbl) themes = true) as Hok.
  { unfold rune_width_builtin in Ht. rewrite !elem_of_cons, elem_of_nil in Ht. destruct Ht as [->|[->|[->|[]]]]; vm_compute; reflexivity. }
  assert (forallb (λ th, match tui_theme_by_name (theme_name th) with Some th' => bool_decide (theme_name th = theme_name th') | None => false end) themes = true
    ∧ NoDup (theme_name <$> themes)) as [Hn Hnd].
  { split; [vm_compute; reflexivity |]. apply (bool_decide_unpack _). vm_compute. exact I. }
  assert (∀ i th, tui_theme_at i = Some th → th ∈ themes) as Hin.
  { unfold tui_theme_at. intros i th. destruct (_ || _) eqn:E; [done |]. rewrite orb_false_iff, Z.ltb_ge in E. intros H.
    rewrite aget_lookup in H by lia. by eapply list_elem_of_lookup_2. }
  split_and!.
  - intros i th Hth%Hin. split; [by apply (themes_ok_check tbl) |]. rewrite forallb_forall in Hn. specialize (Hn th (proj1 (list_elem_of_In _ _) Hth)).
    destruct (tui_theme_by_name (theme_name th)) as [th'|] eqn:E; [| done]. apply bool_decide_eq_true in Hn. f_equal.
    apply find_some in E as [E _]. apply list_elem_of_In in E. apply list_elem_of_lookup in E as [j Hj], Hth as [k Hk].
    assert (j = k) as ->; [| congruence]. eapply NoDup_lookup; [exact Hnd | |]; rewrite list_lookup_fmap; [by rewrite Hj | rewrite Hk; cbn; by rewrite Hn].
  - intros i. unfold tui_theme_at, tui_theme_count. destruct (Z.ltb_spec i 0); cbn [orb]; [split; [by intros [] | lia] |].
    destruct (Z.leb_spec (zlen themes) i); [split; [by intros [] | lia] |]. split; [lia |]. intros _.
    destruct (aget_in themes i) as [x ->]; [lia | done].
  - intros getenv. unfold tui_theme_default. destruct (utf8_locale _); [| destruct (utf8_locale _)].
    + exists theme_thin, 1. vm_compute. done.
    + exists theme_thin, 1. vm_compute. done.
    + exists theme_ascii, 0. vm_compute. done.
Qed.

Lemma builtin_themes_drawable_witness : table_15_1_0 ∈ rune_width_builtin ∧
  ∀ i th, tui_theme_at i = Some th → theme_ok table_15_1_0 th ∧ tui_theme_by_name (theme_name th) = Some th.
Proof.
  assert (table_15_1_0 ∈ rune_width_builtin) as H by (apply list_elem_of_In; simpl; auto).
  split; [exact H |]. apply (builtin_themes_drawable table_15_1_0 H).
Defined.

(** ** Sessions *)

Inductive wm_op :=
  | OpAdd (k : Z) (vt : ptr) (x y w h : Z) | OpRemove (k : Z) | OpForget (vt : ptr)
  | OpRaise (k : Z) | OpFocus (k : Z) | OpMove (k x y : Z) | OpTitle (k : Z) (s : list Z) | OpFlags (k fl : Z)
  | OpTheme (k : Z) (th : option tui_theme) | OpScroll (k : Z) (pos len : spec_float)
  | OpMinimize (k : Z) | OpUnminimize (k : Z) | OpMaximize (k : Z) | OpInvalidate
  | OpPress (row col : Z) | OpDrag (row col : Z) | OpRelease | OpGrid
  | OpResize (al : allocs) (rows cols : Z) | OpComposite (th : tui_theme) (m : vts) | OpUpdate.

Section Sessions.
Context (tbl : rune_width_table) `{!WidthTable tbl}.
Context (cells_differ : list vt_cell → list vt_cell → bool).
Hypothesis memcmp_zero : ∀ a b, cells_differ a b = false → a = b.

Definition run_wm_op (t : wm) (o : wm_op) : option wm :=
  match o with
  | OpAdd k vt x y w h => Some (wm_add t k vt x y w h).2
  | OpRemove k => Some (wm_remove t k)
  | OpForget vt => Some (wm_forget_vt t vt)
  | OpRaise k => Some (wm_raise t k)
  | OpFocus k => Some (wm_focus t k)
  | OpMove k x y => Some (wm_move t k x y)
  | OpTitle k s => wm_set_title t k s
  | OpFlags k fl => Some (wm_set_flags t k fl)
  | OpTheme k th => Some (wm_set_theme t k th)
  | OpScroll k pos len => Some (wm_set_scroll t k pos len)
  | OpMinimize k => Some (wm_minimize t k)
  | OpUnminimize k => Some (wm_unminimize t k)
  | OpMaximize k => x ← wm_toggle_maximize t k; Some x.2
  | OpInvalidate => Some (wm_invalidate t)
  | OpPress row col => x ← wm_mouse_press t row col; Some x.2
  | OpDrag row col => x ← wm_mouse_drag t row col; Some x.2
  | OpRelease => Some (wm_mouse_release t).2
  | OpGrid => x ← wm_arrange_grid t; Some x.2
  | OpResize al rows cols => wm_resize al rows cols t
  | OpComposite th m => x ← wm_composite tbl t th m; Some x.1
  | OpUpdate => wm_update_dirty cells_differ t
  end.

(** What an operation needs: windows and screens of the minimal size, titles that
    are strings, a resize whose later allocations succeed if its first does, and
    for compositing, of each window that is not minimised, a theme whose strings
    end, a terminal at least as wide as the window, if it has one, and a scrollbar
    whose casts to [int] are defined. *)
Definition wm_op_ok (t : wm) (o : wm_op) : Prop :=
  match o with
  | OpAdd _ _ _ _ w h => WM_MIN_WIDTH <= w ∧ WM_MIN_HEIGHT <= h
  | OpTitle _ s => c_str s
  | OpResize al rows cols => WM_MIN_HEIGHT + 2 <= rows ∧ WM_MIN_WIDTH + 2 <= cols ∧ (got_screen al = true → got_prev al = true ∧ got_dirty al = true)
  | OpComposite th m => Forall (composable m th) (visible t)
  | _ => True
  end.

Lemma needs_ok t : wm_ok t → wm_ok (needs t).
Proof. intros Ht. apply (wm_ok_change t); [done | by split_and! | by apply (wm_ok_wins t)]. Qed.

Lemma with_win_sized_ok t k f : wm_ok t → keeps_place f →
  (∀ v, wn_w (f v) = wn_w v ∧ wn_h (f v) = wn_h v ∧ wn_maximized (f v) = wn_maximized v ∧ wn_saved_w (f v) = wn_saved_w v ∧ wn_saved_h (f v) = wn_saved_h v) →
  wm_ok (with_win t k f).
Proof.
  intros Ht Hk Hf. apply with_win_ok; [done | | done]. pose proof (wk_sized _ Ht) as Hsz. rewrite Forall_forall in Hsz.
  intros v [Hw Hh Hs]%Hsz. destruct (Hf v) as (E1 & E2 & E3 & E4 & E5). constructor; by rewrite ?E1, ?E2, ?E3, ?E4, ?E5.
Qed.

Lemma grid_ok t : wm_ok t → yields (wm_arrange_grid t) (λ x, wm_ok x.2).
Proof.
  intros Ht. unfold wm_arrange_grid. destruct (Z.eqb_spec (zlen (visible t)) 0); [done |].
  pose proof (zlen_nonneg (visible t)). eapply yields_seq; [apply grid_cols_ok; [lia | lia |]; rewrite Z2Nat.id by lia; nia |].
  intros g _. by apply arrange_ok.
Qed.

Lemma update_ok t : wm_ok t → yields (wm_update_dirty cells_differ t) wm_ok.
Proof.
  intros Ht. destruct (wk_prev _ Ht) as (p & Ep & _). destruct (wk_dirty _ Ht) as (d0 & Ed & _).
  eapply yields_mono; [by apply (update_dirty_ok cells_differ memcmp_zero t p d0) |]. intros t' (d & -> & Hz & _).
  destruct Ht. constructor; try done; [by exists (wm_screen t) | by exists d].
Qed.

Lemma run_wm_op_ok t o : wm_ok t → wm_op_ok t o → yields (run_wm_op t o) wm_ok.
Proof.
  intros Ht Ho. assert (∀ k f, keeps_place f → (∀ v, wn_w (f v) = wn_w v ∧ wn_h (f v) = wn_h v ∧ wn_maximized (f v) = wn_maximized v ∧
    wn_saved_w (f v) = wn_saved_w v ∧ wn_saved_h (f v) = wn_saved_h v) → yields (Some (with_win t k f)) wm_ok) as Hw
    by (intros; by apply with_win_sized_ok).
  destruct o; cbn [run_wm_op wm_op_ok] in *; try (by apply Hw).
  - destruct Ho. by apply wm_add_ok.
  - by apply wm_remove_ok.
  - by apply wm_forget_ok.
  - by apply wm_raise_ok.
  - by apply wm_focus_ok.
  - by apply wm_set_title_ok.
  - eapply yields_seq; [by apply wm_toggle_ok | done].
  - by apply needs_ok.
  - eapply yields_seq; [by apply press_ok |]. intros [[g hit] t1] (Hok & _). done.
  - eapply yields_seq; [by apply drag_ok | done].
  - cbn. unfold wm_mouse_release. destruct (wm_drag_state t); [done | ..]; (apply (wm_ok_change t); [done | by split_and! | by apply (wm_ok_wins t)]).
  - eapply yields_seq; [by apply grid_ok | done].
  - destruct Ho as (H1 & H2 & H3). by apply wm_resize_ok.
  - eapply yields_seq; [by apply (composite_safe tbl) |]. intros [t' m'] Hok. done.
  - by apply update_ok.
Qed.

Fixpoint run_wm (t : wm) (ops : list wm_op) : option wm :=
  match ops with [] => Some t | o :: ops => t ← run_wm_op t o; run_wm t ops end.

Fixpoint wm_ready (t : wm) (ops : list wm_op) : Prop :=
  match ops with [] => True | o :: ops => wm_op_ok t o ∧ ∀ t', run_wm_op t o = Some t' → wm_ready t' ops end.

(** C9: no session of the window manager traps, and its invariant holds throughout,
    as long as each operation is given what it needs.  Any operations may come in
    any order, pressing and dragging anywhere included; windows are added with the
    minimal size at least, titles are strings, a resize is to a screen of the
    minimal size and all its allocations succeed if the first does, and when the
    screen is composed each window shown has a theme whose strings end, a terminal
    (if any) no narrower than itself, of any height and with its cursor anywhere,
    and scroll numbers whose casts to [int] are defined.  [wm_limits] shows what
    happens without: the scrollbar of a window of one row, a resize that runs out
    of memory half way.
    [wm_new] answers NULL or a manager for which it holds, and so does every
    manager that any operations lead to: the windows' ids are distinct, and so are
    their heights, which the next one is above; at most one has the focus; there
    are no more of them than the array holds; each title is a string in its array;
    each window, now and when it is restored, is of the minimal size at least; and
    the screens and the map of dirty rows have the size of the screen. *)
Theorem wm_session_safe got al rows cols ops :
  WM_MIN_HEIGHT + 2 <= rows → WM_MIN_WIDTH + 2 <= cols →
  ∃ o, wm_new got al rows cols = Some o ∧
    ∀ t, o = Some t → wm_ready t ops → ∃ t', run_wm t ops = Some t' ∧ wm_ok t'.
Proof using Type*.
  intros Hr Hc. unfold WM_MIN_HEIGHT, WM_MIN_WIDTH in *. rewrite wm_new_cases by lia. eexists. split; [done |].
  intros t Et. destruct (_ && _); [| done]. injection Et as <-. pose proof (wm_fresh_ok rows cols ltac:(done) ltac:(done)) as Ht.
  generalize dependent (wm_fresh rows cols). clear Hr Hc. intros t Ht. revert t Ht.
  induction ops as [|o ops IH]; intros t Ht; cbn [run_wm wm_ready]; [by exists t |]. intros [Ho Hops].
  pose proof (run_wm_op_ok t o Ht Ho) as (t1 & E & Ht1)%yields_Some. rewrite E. cbn [mbind option_bind]. apply IH; [done | by apply Hops].
Qed.
End Sessions.

(** ** A demonstration *)

Definition demo_win_vts : vts := {[ 1%positive := fed_term 4 12 (str "hello"); 2%positive := fed_term 4 12 (str "world") ]}.
Definition demo_shown_wm : wm := demo_wm (Some 1%positive) (Some 2%positive).

Lemma str_bytes (s : string) : Forall is_byte (str s).
Proof.
  induction s as [|a s IH]; constructor; [| exact IH]. unfold is_byte. pose proof (Ascii.N_ascii_bounded a). lia.
Qed.

Lemma demo_drawable : Forall (drawable table_15_1_0 demo_win_vts theme_thin) (visible demo_shown_wm).
Proof.
  assert (theme_ok table_15_1_0 theme_thin) as Hth by (apply theme_okb_sound; vm_compute; reflexivity).
  assert (cursor_row (fed_term 4 12 (str "hello")) = 0 ∧ cursor_col (fed_term 4 12 (str "hello")) = 5) as [E1 E2] by (split; vm_compute; reflexivity).
  assert (cursor_row (fed_term 4 12 (str "world")) = 0 ∧ cursor_col (fed_term 4 12 (str "world")) = 5) as [E3 E4] by (split; vm_compute; reflexivity).
  assert (∀ s, wf_state 4 12 (fed_term 4 12 (str s))) as Hwf by (intros s; apply fed_term_wf; [unfold DIM_MAX; lia.. | apply str_bytes]).
  assert (∀ v, v ∈ visible demo_shown_wm → wn_w v = 12 ∧ wn_h v = 4 ∧ wn_title v = replicate (Z.to_nat WM_TITLE_MAX) 0 ∧
    scroll_len v = f32_zero ∧ theme_of theme_thin v = theme_thin ∧ (win_vt v = Some 1%positive ∨ win_vt v = Some 2%positive)) as Hv.
  { change (visible demo_shown_wm) with (windows demo_shown_wm). cbn. intros v [->|[->|[]%elem_of_nil]%elem_of_cons]%elem_of_cons; split_and!; auto. }
  apply Forall_forall. intros v (Ew & Eh & Et & Es & Eth & Evt)%Hv. unfold drawable. rewrite Eth. split; [exact Hth |]. constructor.
  - by rewrite Ew.
  - by rewrite Eh.
  - rewrite Et. apply zero_title_ok.
  - unfold scrolls. by rewrite Es.
  - intros q Eq. rewrite Ew, Eh. destruct Evt as [E|E]; rewrite E in Eq; injection Eq as <-; do 3 eexists; (split; [reflexivity |]);
      (split; [apply Hwf |]); rewrite ?E1, ?E2, ?E3, ?E4; lia.
Qed.

(** The code points of a row of the screen. *)
Definition row_points (t : wm) (row : Z) : list Z :=
  map (λ c, from_option codepoint 0 (aget (wm_screen t) (row * wm_cols t + c))) (map Z.of_nat (seq 0 (Z.to_nat (wm_cols t)))).

Lemma hit_is_seen_witness :
  wm_hit_test demo_shown_wm 2 16 = Some (2, WM_HIT_CLOSE) ∧
  ∃ t' m' x, wm_composite table_15_1_0 demo_shown_wm theme_thin demo_win_vts = Some (t', m') ∧
    aget (wm_screen t') (2 * wm_cols demo_shown_wm + 16) = Some x.
Proof.
  split; [vm_compute; reflexivity |].
  destruct (hit_is_seen table_15_1_0 demo_shown_wm theme_thin demo_win_vts 2 16) as (t' & m' & x & E & Ex & _).
  - apply demo_wm_ok.
  - exact demo_drawable.
  - repeat constructor; discriminate.
  - reflexivity.
  - discriminate.
  - vm_compute. split; [discriminate | reflexivity].
  - vm_compute. split; [discriminate | reflexivity].
  - exists t', m', x. split; assumption.
Defined.

Definition cells_compare (a b : list vt_cell) : bool := negb (bool_decide (a = b)).

Lemma cells_compare_zero a b : cells_compare a b = false → a = b.
Proof. unfold cells_compare. by rewrite negb_false_iff, bool_decide_eq_true. Qed.

Lemma frame_shows_windows_witness :
  (∀ a b, cells_compare a b = false → a = b) ∧ ∃ p, prev_screen demo_shown_wm = Some p ∧
  ∃ t' m' d, ('(t1, m1) ← wm_composite table_15_1_0 demo_shown_wm theme_thin demo_win_vts; t1 ← wm_update_dirty cells_compare t1; Some (t1, m1)) = Some (t', m') ∧
    wm_row_dirty t' = Some d.
Proof.
  split; [exact cells_compare_zero |]. eexists. split; [reflexivity |].
  destruct (frame_shows_windows table_15_1_0 cells_compare demo_shown_wm theme_thin demo_win_vts _ cells_compare_zero
    (demo_wm_ok _ _) demo_drawable eq_refl) as (t' & m' & d & E & _ & _ & _ & _ & _ & Ed & _).
  exists t', m', d. split; [exact E | exact Ed].
Defined.

Lemma wm_session_safe_witness :
  (∀ a b, cells_compare a b = false → a = b) ∧
  wm_new true (mk_allocs true true true) 10 30 = Some (Some (wm_fresh 10 30)) ∧
  ∃ t', run_wm table_15_1_0 cells_compare (wm_fresh 10 30)
    [OpAdd 1 (Some 1%positive) 2 2 12 4; OpAdd 2 (Some 2%positive) 6 3 12 4; OpComposite theme_thin demo_win_vts; OpUpdate;
     OpPress 2 6; OpDrag 4 4; OpRelease; OpMaximize 1; OpGrid; OpRemove 2; OpUpdate] = Some t' ∧ wm_ok t'.
Proof.
  split; [exact cells_compare_zero |]. split; [reflexivity |].
  destruct (wm_session_safe table_15_1_0 cells_compare cells_compare_zero true (mk_allocs true true true) 10 30
    [OpAdd 1 (Some 1%positive) 2 2 12 4; OpAdd 2 (Some 2%positive) 6 3 12 4; OpComposite theme_thin demo_win_vts; OpUpdate;
     OpPress 2 6; OpDrag 4 4; OpRelease; OpMaximize 1; OpGrid; OpRemove 2; OpUpdate]) as (o & E & H).
  - vm_compute. discriminate.
  - vm_compute. discriminate.
  - rewrite wm_new_cases in E by lia. injection E as <-. apply (H _ eq_refl).
    split; [vm_compute; split; discriminate |]. intros t1 [= <-].
    split; [vm_compute; split; discriminate |]. intros t2 [= <-].
    split; [eapply Forall_impl; [exact demo_drawable |]; apply drawable_composable |]. intros t3 _.
    split; [exact I |]. intros t4 _. split; [exact I |]. intros t5 _. split; [exact I |]. intros t6 _.
    split; [exact I |]. intros t7 _. split; [exact I |]. intros t8 _. split; [exact I |]. intros t9 _.
    split; [exact I |]. intros t10 _. split; [exact I |]. intros t11 _. exact I.
Defined.

(** ** What the manager does not prevent *)

Definition composed_row (t : wm) (th : tui_theme) (row : Z) : option (list Z) :=
  x ← wm_composite table_15_1_0 t th ∅; Some (row_points x.1 row).

Definition one_window (w h fl : Z) (title : list Z) : wm :=
  let t := wm_set_flags (wm_add (wm_fresh 8 24) 1 None 2 2 w h).2 1 fl in default t (wm_set_title t 1 title).

(** A second window, in front of a first. *)
Definition over_window : wm := (wm_add (one_window 16 5 0 (lit "")) 2 None 3 3 10 2).2.

(** A window with one row and a scrollbar, which is pressed and dragged. *)
Definition one_row_scrolled : option wm :=
  x ← wm_mouse_press (wm_set_scroll (wm_add (wm_fresh 8 24) 1 None 2 2 8 1).2 1 f32_one f32_half) 2 10;
  y ← wm_mouse_drag x.2 2 10; Some y.2.

(** A title in the brackets of the theme, U+2561 and U+255E. *)
Definition bracketed_title : list Z := default [] (composed_row (one_window 16 3 0 (lit "short")) theme_crimson 1).

(** C40: limits of the window manager.  The status icons of a small window cover
    its close button, which still closes there.  The room for the title is
    computed too large: the buttons cover the end of a long title and its closing
    bracket, which a title of five columns loses already in a window that is 16
    wide.  A window without a terminal shows what is behind it, the side of
    another window here, and is hit there all the same.  The scrollbar of a
    window of one row divides by zero: its position is then no number, and
    compositing casts it to an [int].  And compositing after a resize whose last
    allocation failed writes to NULL. *)
Theorem wm_limits :
  (composed_row (one_window 4 3 7 (lit "")) theme_ascii 1 = Some (str " +XSI]+                 ") ∧
   wm_hit_test (one_window 4 3 7 (lit "")) 1 3 = Some (1, WM_HIT_CLOSE)) ∧
  (composed_row (one_window 16 3 0 (lit "a rather long title")) theme_ascii 1 = Some (str " +  a rat[_][+][x]+     ") ∧
   aget bracketed_title 3 = Some 0x2561 ∧ existsb (Z.eqb 0x255E) bracketed_title = false) ∧
  (composed_row over_window theme_ascii 4 = Some (str " ||          |    |     ") ∧
   composed_row (one_window 16 5 0 (lit "")) theme_ascii 4 = Some (str " |                |     ") ∧
   wm_hit_test over_window 4 6 = Some (2, WM_HIT_CONTENT)) ∧
  (scroll_pos <$> (t ← one_row_scrolled; win_of t 1) = Some S754_nan ∧
   (t ← one_row_scrolled; Some (wm_composite table_15_1_0 t theme_ascii ∅)) = Some None) ∧
  (t ← wm_resize (mk_allocs true true false) 10 30 (wm_fresh 8 24); Some (wm_composite table_15_1_0 t theme_ascii ∅)) = Some None.
Proof. split_and!; vm_compute; reflexivity. Qed.
