(* ===== verification/TurboDisplay.v ===== *)
(** * The floating windows on the client's terminal

    [turbo_render] and [turbo_cursor] of src/cmd/attach/attach.c with no selection:
    the window manager's screen, compared with the last one and handed to the
    renderer; and that a session of the display leaves the client's terminal
    showing the windows. *)

From Stdlib Require Import SpecFloat.
From stdpp Require Import gmap.
From S2P Require Import Prelude Utf8 WidthTables RuneWidth VtBuf VtParse Decimal VtState VtOps VtSeq VtClient VtDump Txl Render RenderCorrect.
From S2P Require Import Tile TileComposite TileScreen TileFrame TileDisplay.
From S2P Require Import Theme Wm WmText WmPicture WmSession WmGrid WmDisplay WmRun.

(** ** A frame *)

(** Where the cursor is, and whether it is visible. *)
Fixpoint turbo_cursor (ws : list wm_window) (m : vts) : option (Z * Z * Z) :=
  match ws with
  | [] => Some (0, 0, 0)
  | v :: ws =>
      match win_vt v with
      | Some q =>
          if wn_focused v then
            st ← m !! q;
            Some (wn_y v + cursor_row st, wn_x v + cursor_col st, b2z (has_bits (modes st) VT_MODE_CURSOR_VIS))
          else turbo_cursor ws m
      | None => turbo_cursor ws m
      end
  end.

Section Frames.
Context (tbl : rune_width_table) `{!WidthTable tbl}.
Context (cells_differ : list vt_cell → list vt_cell → bool).
Hypothesis memcmp_zero : ∀ a b, cells_differ a b = false → a = b.

Definition turbo_frame (t : wm) (th : tui_theme) (m : vts) (full : bool) : option (wm * vts * frame) :=
  '(t, m) ← wm_composite tbl t th m;
  t ← wm_update_dirty cells_differ t;
  '(crow, ccol, cvis) ← turbo_cursor (windows t) m;
  Some (t, m, mk_frame (wm_screen t) crow ccol cvis (wm_row_dirty t) full).

(** ** Cells that can be sent *)

(** A character of one column that is no control. *)
Definition good_rune (cp : Z) : Prop := plain_rune cp ∧ print_width tbl cp = 1.

(** Such a cell, and one in reverse video. *)
Definition sendable (x : vt_cell) : Prop := frame_cell tbl x ∧ frame_cell tbl (reversed x).

Definition sendable_ov (o : overlay) : Prop := ∀ r c x, o r c = Some x → sendable x.

Lemma good_ascii cp : 0x20 <= cp < 0x7F → good_rune cp.
Proof.
  intros H. split; [unfold plain_rune, print_rune, valid_rune, UTF8_RUNE_MAX; lia |]. unfold print_width. by rewrite width_ascii.
Qed.

Lemma color_params_len a b e x : zlen (color_params a b e x) <= 5.
Proof. unfold color_params. repeat case_match; by vm_compute. Qed.

Lemma sendable_cell cp fg bg attrs : good_rune cp → color_typed fg → color_typed bg → attrs = 0 ∨ attrs = VT_ATTR_BOLD →
  sendable (mk_cell cp fg bg attrs 1).
Proof.
  intros [Hp Hw] Hf Hb Ha.
  assert (∀ a, a ∈ [0; VT_ATTR_BOLD; VT_ATTR_REVERSE; Z.lxor VT_ATTR_BOLD VT_ATTR_REVERSE] → frame_cell tbl (mk_cell cp fg bg a 1)) as H.
  { intros a Hin. split; [| done]. split; [done |]. split; [done |].
    assert (0 <= a < 512 ∧ Z.land a VT_ATTR_UNDERCURL = 0 ∧ zlen (attr_params a) <= 2) as (H1 & H2 & H3).
    { rewrite !elem_of_cons, elem_of_nil in Hin. destruct Hin as [->|[->|[->|[->|[]]]]]; vm_compute; intuition discriminate. }
    constructor; try done. unfold sgr_params. cbn [cell_attrs cell_fg cell_bg]. rewrite zlen_cons, !zlen_app.
    pose proof (color_params_len 30 90 38 fg). pose proof (color_params_len 40 100 48 bg). unfold VT_MAX_PARAMS. lia. }
  destruct Ha as [-> | ->]; (split; apply H; vm_compute; set_solver).
Qed.

Lemma sendable_over o1 o2 : sendable_ov o1 → sendable_ov o2 → sendable_ov (over o1 o2).
Proof. intros H1 H2 r c x. unfold over. destruct (o2 r c) eqn:E; [intros [= <-]; by eapply H2 | apply H1]. Qed.

Lemma sendable_bare : sendable_ov bare.
Proof. done. Qed.

Lemma sendable_at row col x : sendable x → sendable_ov (at_cell row col x).
Proof. intros Hx r c y. unfold at_cell. by destruct (_ && _); [intros [= <-] |]. Qed.

(** ** Themes and windows *)

Definition theme_colors (th : tui_theme) : list vt_color :=
  [sel_fg th; focus_fg th; focus_bg th; unfocus_fg th; unfocus_bg th; title_focus_fg th; title_idle_fg th; close_fg th; tool_fg th;
   status_focus_fg th; status_idle_fg th; indicator_fg th; shadow_fg th; shadow_bg th].

Record theme_plain (th : tui_theme) : Prop := {
  tp_strings : Forall (λ s, good_rune (glyph_of s)) (theme_strings th);
  tp_fixed : Forall good_rune fixed_glyphs;
  tp_colors : Forall color_typed (theme_colors th);
}.

(** The title's glyphs are narrow, wherever it is cut. *)
Definition title_plain (v : wm_window) : Prop :=
  ∀ fuel c end_, Forall (λ g, good_rune g.2) (layout tbl fuel (wn_title v) c end_).

Section Theme.
Context (th : tui_theme) (Hth : theme_plain th).

Lemma plain_colors v : color_typed (bfg v th) ∧ color_typed (bbg v th) ∧ color_typed (tfg v th) ∧ color_typed (sfg v th) ∧
  color_typed (sel_fg th) ∧ color_typed (close_fg th) ∧ color_typed (tool_fg th) ∧ color_typed (indicator_fg th) ∧
  color_typed (shadow_fg th) ∧ color_typed (shadow_bg th).
Proof.
  pose proof (tp_colors _ Hth) as H. unfold theme_colors in H. rewrite !Forall_cons in H.
  unfold bfg, bbg, tfg, sfg. destruct (wn_focused v); tauto.
Qed.

Lemma plain_strings : Forall (λ s, good_rune (glyph_of s)) (theme_strings th).
Proof. apply Hth. Qed.

Ltac theme_facts v :=
  pose proof plain_strings as Hs; unfold theme_strings in Hs; cbn [app] in Hs; rewrite !Forall_cons in Hs;
  pose proof (plain_colors v) as Hc.

Lemma sendable_glyph s fg bg attrs : good_rune (glyph_of s) → color_typed fg → color_typed bg → attrs = 0 ∨ attrs = VT_ATTR_BOLD →
  sendable (glyph_cell s fg bg attrs).
Proof. apply sendable_cell. Qed.

Lemma sendable_edge row l mid rt v : good_rune (glyph_of l) → good_rune (glyph_of mid) → good_rune (glyph_of rt) →
  sendable_ov (edge_ov row l mid rt v th).
Proof.
  intros Hl Hm Hr r c x. unfold edge_ov. theme_facts v. destruct (_ && _ && _); [| done]. intros [= <-].
  apply sendable_glyph; try tauto. by repeat case_match.
Qed.

Lemma sendable_shadow v : sendable_ov (shadow_ov v th).
Proof.
  theme_facts v. pose proof (tp_fixed _ Hth) as Hf. unfold fixed_glyphs in Hf. rewrite !Forall_cons in Hf.
  intros r c x. unfold shadow_ov. destruct (shadow th); cbn [shadow_glyphs]; [done | |];
    repeat (destruct (_ && _ && _); [intros [= <-]; apply sendable_cell; tauto |]); done.
Qed.

Lemma sendable_glyphs_at {R C} row gs fg bg attrs : Forall (λ g, good_rune g.2) gs → color_typed fg → color_typed bg →
  attrs = 0 ∨ attrs = VT_ATTR_BOLD → sendable_ov (glyphs_at (R := R) (C := C) tbl row gs fg bg attrs).
Proof.
  intros Hg Hf Hb Ha. induction Hg as [|[k cp] gs Hcp Hg IH]; cbn [glyphs_at]; [done |]. apply sendable_over; [| done].
  intros r c x. unfold glyph_at. cbn [snd] in Hcp. assert (gwidth tbl cp = 1) as ->.
  { destruct Hcp as [_ Hw]. unfold print_width, gwidth in *. destruct (Z.ltb_spec (width_spec tbl cp) 0); lia. }
  destruct (_ || _); [done |]. destruct (c =? k); [intros [= <-]; by apply sendable_cell | done].
Qed.

Lemma sendable_title {R C} v : title_plain v → sendable_ov (title_ov tbl (R := R) (C := C) v th).
Proof.
  intros Ht. theme_facts v. pose proof (tp_fixed _ Hth) as Hf. unfold fixed_glyphs in Hf. rewrite !Forall_cons in Hf.
  unfold title_ov. apply sendable_over.
  { apply sendable_at. unfold indicator_cell. apply sendable_cell; try tauto. destruct (wn_focused v); [tauto | by apply good_ascii; vm_compute]. }
  destruct (bool_decide _); [done |]. repeat apply sendable_over; try (apply sendable_at, sendable_glyph; tauto).
  apply sendable_glyphs_at; [apply Ht | tauto | tauto | tauto].
Qed.

Lemma sendable_button v col cp fg : 0x20 <= cp < 0x7F → color_typed fg → sendable_ov (button_ov v th col cp fg).
Proof.
  intros Hcp Hfg r c x. theme_facts v. unfold button_ov. destruct (_ && _ && _); [| done]. intros [= <-].
  unfold bold. repeat case_match; apply sendable_cell; try tauto; by apply good_ascii; [vm_compute | ..].
Qed.

Lemma sendable_buttons v : sendable_ov (buttons_ov v th).
Proof.
  theme_facts v. unfold buttons_ov. destruct (12 <=? fw v); [| destruct (6 <=? fw v); [| done]]; cbn zeta;
    repeat apply sendable_over; apply sendable_button; try tauto; try (destruct (wn_maximized v)); vm_compute; intuition discriminate.
Qed.

Lemma sendable_icons v : sendable_ov (icons_ov v th).
Proof.
  theme_facts v. unfold icons_ov. assert (Forall (λ s, good_rune (glyph_of s)) (icons v th)) as Hi.
  { unfold icons. rewrite !Forall_app. split_and!; case_match; try done; apply Forall_singleton; tauto. }
  generalize (icon_col v). induction Hi as [|s l Hsl Hi IH]; intros k; cbn [icons_from]; [done |].
  apply sendable_over; [| apply IH]. apply sendable_at, sendable_glyph; tauto.
Qed.

Lemma sendable_sides v : sendable_ov (sides_ov v th).
Proof.
  theme_facts v. intros r c x. unfold sides_ov. destruct (_ && _); [| done].
  destruct (_ =? _); [intros [= <-]; apply sendable_glyph; tauto |]. destruct (_ =? _); [intros [= <-]; apply sendable_glyph; tauto | done].
Qed.

Lemma sendable_scrollbar v : sendable_ov (scrollbar_ov v th).
Proof.
  theme_facts v. intros r c x. unfold scrollbar_ov. destruct (negb _); [done |]. destruct (track v) as [top inner].
  destruct (_ && _).
  - intros ([start n] & _ & (bar & Eb & [= <-])%bind_Some)%bind_Some. unfold theme_strings in Hs. rewrite Eb in Hs. change (option_list (Some bar)) with [bar] in Hs.
    rewrite Forall_cons in Hs. unfold bar_cell. destruct (_ && _); apply sendable_glyph; tauto.
  - destruct (_ && _); [intros [= <-]; apply sendable_glyph; tauto |]. destruct (_ && _); [intros [= <-]; apply sendable_glyph; tauto | done].
Qed.

Lemma sendable_frame {R C} v : title_plain v → sendable_ov (frame_ov tbl (R := R) (C := C) v th).
Proof.
  intros Ht. theme_facts v. unfold frame_ov.
  apply sendable_over; [apply sendable_edge; tauto |]. apply sendable_over; [by apply sendable_title |].
  apply sendable_over; [apply sendable_buttons |]. apply sendable_over; [apply sendable_icons |].
  apply sendable_over; [apply sendable_sides |]. apply sendable_over; [apply sendable_scrollbar |].
  apply sendable_edge; tauto.
Qed.
End Theme.

(** ** The picture can be sent *)

(** The terminals' cells are narrow, as they are and in reverse video. *)
Definition vts_sendable (m : vts) : Prop :=
  ∀ q st row col x, m !! q = Some st → vt_at st row col = Some x → sendable (unpredicted x).

Definition win_plain th v : Prop := theme_plain (theme_of th v) ∧ title_plain v.

Lemma window_sendable {R C} m th v r c x : win_plain th v → vts_sendable m →
  window_ov tbl (R := R) (C := C) m th v r c = Some x → frame_cell tbl x.
Proof.
  intros [Hth Ht] Hm. unfold window_ov. cbn zeta.
  assert (sendable_ov (body_ov tbl (R := R) (C := C) m v (theme_of th v))) as Hb.
  { unfold body_ov. apply sendable_over; [by apply sendable_shadow |]. apply sendable_over; [by apply sendable_frame |].
    intros r' c' y. unfold content_ov. destruct (in_content v r' c'); [| done].
    intros (q & Eq & (st & Em & (z & Ez & ->)%fmap_Some)%bind_Some)%bind_Some. by eapply Hm. }
  destruct (marked m v r c); [intros (y & Ey & ->)%fmap_Some; by eapply Hb | intros E; by eapply Hb].
Qed.

Lemma stack_sendable {R C} m th ws r c x : Forall (win_plain th) ws → vts_sendable m →
  stack tbl (R := R) (C := C) m th ws r c = Some x → frame_cell tbl x.
Proof.
  intros Hws Hm. induction Hws as [|v ws Hv Hws IH]; cbn [stack]; [done |]. unfold over.
  destruct (stack _ _ _ ws r c); [intros [= <-]; by apply IH | by apply window_sendable].
Qed.

(** Printable text stays what it is. *)
Lemma layout_ascii fuel s c end_ : Forall (λ b, b = 0 ∨ 0x20 <= b < 0x7F) s → Forall (λ g, good_rune g.2) (layout tbl fuel s c end_).
Proof.
  revert s c. induction fuel as [|fuel IH]; intros s c Hs; cbn [layout]; [done |].
  destruct s as [|b s]; [done |]. unfold utf8_decode at 1. change (aget (b :: s) 0) with (Some b). cbn [mbind option_bind Z.eqb].
  apply Forall_cons in Hs as [Hb Hs]. rewrite (proj2 (Z.ltb_lt b 0x80)) by lia.
  destruct (decide (b = 0)) as [->|Hne]; [by rewrite bool_decide_eq_true_2 |]. rewrite bool_decide_eq_false_2 by congruence. cbn [orb].
  destruct (_ || _); [done |]. constructor; [cbn [snd]; apply good_ascii; lia |]. apply IH. exact Hs.
Qed.

Lemma fmt_d_ascii n : Forall (λ b, b = 0 ∨ 0x20 <= b < 0x7F) (fmt_d n).
Proof.
  assert (∀ k, 0 <= k → Forall (λ b, b = 0 ∨ 0x20 <= b < 0x7F) (dump_fmt_int k)) as H.
  { intros k Hk. destruct (dump_fmt_int_spec k Hk) as (Hd & _). eapply Forall_impl; [exact Hd |]. unfold is_digit. cbn. lia. }
  unfold fmt_d. destruct (Z.ltb_spec n 0); [constructor; [lia |] |]; apply H; lia.
Qed.

Lemma label_sendable t : sendable_ov (label_ov tbl t).
Proof.
  unfold label_ov. case_bool_decide; [| done]. destruct (win_of t (wm_drag_id t)) as [v|]; [| done]. destruct (_ || _); [done |]. cbn zeta.
  apply sendable_glyphs_at; [| vm_compute; intuition discriminate.. | by right].
  apply layout_ascii. unfold size_label. rewrite Forall_app. split; [apply Forall_take; rewrite !Forall_app; split_and!; try apply fmt_d_ascii |].
  - apply Forall_singleton. right. by vm_compute.
  - apply Forall_singleton. by left.
Qed.

Lemma scene_sendable t th m r c : Forall (win_plain th) (visible t) → vts_sendable m → frame_cell tbl (scene tbl t th m r c).
Proof.
  intros Hws Hm. unfold scene, shown, over. destruct (label_ov tbl t r c) eqn:El; [by eapply label_sendable |].
  destruct (wm_stack tbl t th m r c) eqn:Es; cbn [default from_option id].
  - eapply stack_sendable; [| done | exact Es]. by rewrite (paint_order_perm t).
  - by apply (blank_frame_cell tbl VT_COLOR_DEFAULT).
Qed.

(** ** Frames of a session *)

Context (R C : Z).

(** What a frame needs: the windows can be drawn and sent, and the cursor of the
    focused one is on the screen. *)
Record turbo_ready (t : wm) (th : tui_theme) (m : vts) : Prop := {
  tu_ok : wm_ok t;
  tu_drawable : Forall (drawable tbl m th) (visible t);
  tu_plain : Forall (win_plain th) (visible t);
  tu_cells : vts_sendable m;
  tu_cursor : yields (turbo_cursor (windows t) m) (λ x, 0 <= x.1.1 < R ∧ 0 <= x.1.2 < C);
}.

(** Did anything ask for the screen to be composed? *)
Definition asked (t : wm) (m : vts) : bool := composite_needed t || bool_decide (any_vt_dirty (windows t) m = Some true).

(** The screen holds what can be sent, or will be composed. *)
Definition screen_ready (t : wm) : Prop := composite_needed t = true ∨ Forall (frame_cell tbl) (wm_screen t).

Lemma turbo_cursor_cleaned m m' ws : vts_cleaned m m' → turbo_cursor ws m' = turbo_cursor ws m.
Proof.
  intros Hm. induction ws as [|v ws IH]; cbn [turbo_cursor]; [done |]. destruct (win_vt v) as [q|]; [| done]. destruct (wn_focused v); [| done].
  specialize (Hm q). destruct Hm as [st st' (_ & _ & E1 & E2 & E3)|]; cbn [mbind option_bind]; [by rewrite E1, E2, E3 | done].
Qed.

Lemma turbo_cursor_vis ws m x : turbo_cursor ws m = Some x → 0 <= x.2.
Proof.
  induction ws as [|v ws IH]; cbn [turbo_cursor]; [by intros [= <-] |]. destruct (win_vt v) as [q|]; [| done]. destruct (wn_focused v); [| done].
  intros (st & _ & [= <-])%bind_Some. cbn. unfold b2z. case_match; lia.
Qed.

(** The frame [f] drawn of [t] and [m]. *)
Definition turbo_drawn (x : wm * tui_theme * vts * frame) : Prop :=
  let '(t, th, m, f) := x in turbo_ready t th m ∧ turbo_cursor (windows t) m = Some (fr_row f, fr_col f, fr_vis f) ∧
    (asked t m = true → paints R C (fr_cells f) (scene tbl t th m)).

Lemma turbo_frame_ok t th m full f0 : turbo_ready t th m → wm_rows t = R → wm_cols t = C → screen_ready t →
  Some (fr_cells f0) = prev_screen t →
  yields (turbo_frame t th m full) (λ x, let '(t1, _, f) := x in
    wm_ok t1 ∧ wm_rows t1 = R ∧ wm_cols t1 = C ∧ screen_ready t1 ∧ Some (fr_cells f) = prev_screen t1 ∧ fr_full f = full ∧
    wm_screen t1 = fr_cells f ∧ (asked t m = false → composite_needed t = false ∧ fr_cells f = wm_screen t) ∧
    turbo_drawn (t, th, m, f) ∧ frame_ok tbl R C f ∧ dirty_sound R C f0 f).
Proof using Type*.
  intros Hr ER EC Hs Ep. pose proof Hr as [Hok Hdraw Hplain Hcells Hcur]. unfold turbo_frame.
  destruct (frame_shows_windows' tbl cells_differ t th m (fr_cells f0) memcmp_zero Hok Hdraw (eq_sym Ep))
    as (t1 & m1 & t2 & d & E1 & E2 & Hok2 & Hm & Ew & _ & ER2 & EC2 & Ep2 & Ed & Hpic & Hrows).
  rewrite E1. cbn [mbind option_bind]. rewrite E2. cbn [mbind option_bind]. rewrite Ew, (turbo_cursor_cleaned m m1) by done.
  pose proof Hcur as ([[crow ccol] cvis] & Ecur & Hcr & Hcc)%yields_Some. rewrite Ecur. cbn [mbind option_bind yields fst snd] in *.
  rewrite ER, EC in *.
  assert (asked t m = true → paints R C (wm_screen t2) (scene tbl t th m)) as Hp.
  { intros Ha. unfold asked in Ha. rewrite Ha in Hpic. split; [by rewrite (wk_screen _ Hok2), ER2, EC2 | exact Hpic]. }
  assert (Forall (frame_cell tbl) (wm_screen t2)) as Hfc.
  { destruct (asked t m) eqn:Ea.
    - destruct (Hp eq_refl) as [Hz Hc]. apply Forall_aget. intros i c Ei. pose proof (aget_Some _ _ _ Ei) as Hi.
      pose proof (wk_cols _ Hok2) as HC2. unfold WM_MIN_WIDTH in HC2. rewrite EC2 in HC2.
      destruct (row_index (R := R) (C := C) i ltac:(lia)) as (row & col & Hrow & Hcol & ->); [lia |].
      rewrite Hc in Ei by done. injection Ei as <-. by apply scene_sendable.
    - unfold asked in Ea. rewrite Ea in Hpic. rewrite Hpic. destruct Hs as [Hn|]; [| done]. by rewrite Hn in Ea. }
  split_and!; try done.
  - by right.
  - intros Ha. unfold asked in Ha. rewrite Ha in Hpic. by apply orb_false_iff in Ha as [-> _].
  - constructor; cbn [fr_cells fr_row fr_col fr_vis]; [by rewrite (wk_screen _ Hok2), ER2, EC2 | done | done |].
    by apply (turbo_cursor_vis _ _ _ Ecur).
  - unfold dirty_sound. cbn [fr_dirty fr_cells]. rewrite Ed. destruct (wk_dirty _ Hok2) as (d' & Ed' & Hz). rewrite Ed in Ed'. injection Ed' as <-.
    split; [by rewrite Hz |]. intros row col Hrow Hcol E0. f_equal.
    destruct (decide (aget (wm_screen t2) (row * C + col) = aget (fr_cells f0) (row * C + col))) as [|Hne]; [done |].
    assert (aget d row = Some 1) as E; [| congruence]. apply Hrows; [done |]. by exists col.
Qed.

(** ** A session of the display *)

Inductive turbo_event := EvWm (o : wm_op) | EvShow (th : tui_theme) (m : vts) (full : bool).

(** The frames, each with the manager, the theme and the terminals it was drawn of. *)
Fixpoint turbo_run (t : wm) (evs : list turbo_event) : option (list (wm * tui_theme * vts * frame)) :=
  match evs with
  | [] => Some []
  | EvWm o :: evs => t ← run_wm_op tbl cells_differ t o; turbo_run t evs
  | EvShow th m full :: evs =>
      '(t1, _, f) ← turbo_frame t th m full; xs ← turbo_run t1 evs; Some ((t, th, m, f) :: xs)
  end.

Definition keeps_screen (o : wm_op) : Prop :=
  match o with OpResize _ _ _ | OpComposite _ _ | OpUpdate => False | _ => True end.

(** An operation leaves the screen to the next frame. *)
Definition screen_kept (t t' : wm) : Prop :=
  wm_screen t' = wm_screen t ∧ prev_screen t' = prev_screen t ∧ wm_rows t' = wm_rows t ∧ wm_cols t' = wm_cols t ∧
  (composite_needed t = true → composite_needed t' = true).

Lemma with_win_kept t k f : screen_kept t (with_win t k f).
Proof. unfold with_win. by destruct (wm_find t k). Qed.

Lemma focus_kept t k : screen_kept t (wm_focus t k).
Proof. unfold wm_focus, wm_raise. cbn zeta. by destruct (wm_find _ k). Qed.

Lemma press_kept t row col x : wm_mouse_press t row col = Some x → screen_kept t x.2.
Proof.
  unfold wm_mouse_press. destruct (wm_hit_test t row col) as [[k area]|]; [| by intros [= <-]]. cbn zeta.
  destruct (focus_kept t k) as (H1 & H2 & H3 & H4 & H5). generalize dependent (wm_focus t k). intros t1 H1 H2 H3 H4 H5.
  by destruct area; try (destruct (_ ≫= _)); intros [= <-].
Qed.

Lemma drag_kept t row col x : wm_mouse_drag t row col = Some x → screen_kept t x.2.
Proof.
  unfold wm_mouse_drag. destruct (wm_drag_state t); [by intros [= <-] | ..];
    (destruct (wm_find t (wm_drag_id t)) as [i|]; [| by intros [= <-]]); intros (v & _ & H)%bind_Some; cbn zeta in H.
  - destruct (_ && _); by injection H as <-.
  - destruct (dragged (edge_left t) _ _ _ _ _), (dragged (edge_top t) _ _ _ _ _). destruct (_ && _); by injection H as <-.
  - apply bind_Some in H as (p & _ & H). destruct (SFeqb _ _); by injection H as <-.
Qed.

Lemma run_wm_op_kept t o t' : keeps_screen o → run_wm_op tbl cells_differ t o = Some t' → screen_kept t t'.
Proof.
  intros Hk H. destruct o; cbn [run_wm_op keeps_screen] in *; try done; try (injection H as <-; apply with_win_kept).
  - injection H as <-. unfold wm_add. destruct (_ <=? _); [done |]. by destruct (wm_find t k).
  - injection H as <-. unfold wm_remove. by destruct (wm_find t k).
  - injection H as <-. unfold wm_forget_vt. destruct vt; [| done]. cbn zeta. by destruct (existsb _ _).
  - injection H as <-. unfold wm_raise. by destruct (wm_find t k).
  - injection H as <-. apply focus_kept.
  - unfold wm_set_title in H. destruct (wm_find t k) as [i|]; [| by injection H as <-].
    apply bind_Some in H as (v & _ & (len & _ & (src & _ & (old & _ & (arr & _ & [= <-])%bind_Some)%bind_Some)%bind_Some)%bind_Some). done.
  - unfold wm_toggle_maximize in H. destruct (wm_find t k) as [i|]; [| by injection H as <-].
    apply bind_Some in H as (x & (v & _ & [= <-])%bind_Some & [= <-]). apply with_win_kept.
  - by injection H as <-.
  - apply bind_Some in H as (x & Hx & [= <-]). by eapply press_kept.
  - apply bind_Some in H as (x & Hx & [= <-]). by eapply drag_kept.
  - injection H as <-. unfold wm_mouse_release. by destruct (wm_drag_state t).
  - apply bind_Some in H as (x & Hx & [= <-]). unfold wm_arrange_grid in Hx. destruct (_ =? 0); [by injection Hx as <- |].
    by apply bind_Some in Hx as (g & _ & [= <-]).
Qed.

(** What a session needs. *)
Fixpoint turbo_run_ready (t : wm) (evs : list turbo_event) : Prop :=
  match evs with
  | [] => True
  | EvWm o :: evs => wm_op_ok t o ∧ keeps_screen o ∧ ∀ t', run_wm_op tbl cells_differ t o = Some t' → turbo_run_ready t' evs
  | EvShow th m full :: evs => turbo_ready t th m ∧ ∀ t' m' f, turbo_frame t th m full = Some (t', m', f) → turbo_run_ready t' evs
  end.

(** The last state that the screen was composed of. *)
Definition shown_of (d : wm * tui_theme * vts) (xs : list (wm * tui_theme * vts * frame)) : wm * tui_theme * vts :=
  foldl (λ d x, if asked x.1.1.1 x.1.2 then x.1 else d) d xs.

Definition scene_of (d : wm * tui_theme * vts) : Z → Z → vt_cell := scene tbl d.1.1 d.1.2 d.2.

Lemma turbo_run_ok evs t f0 d : wm_ok t → wm_rows t = R → wm_cols t = C → screen_ready t → Some (fr_cells f0) = prev_screen t →
  (composite_needed t = false → paints R C (wm_screen t) (scene_of d)) → turbo_run_ready t evs →
  yields (turbo_run t evs) (λ xs, frames_ok tbl R C f0 xs.*2 ∧ Forall turbo_drawn xs ∧
    (xs ≠ [] → paints R C (fr_cells (last_frame f0 xs.*2)) (scene_of (shown_of d xs)))).
Proof using Type*.
  revert t f0 d. induction evs as [|[o|th m full] evs IH]; intros t f0 d Ht ER EC Hs Ep Hd; cbn [turbo_run turbo_run_ready].
  - intros _. cbn. split_and!; [constructor | done | done].
  - intros (Hok & Hk & Hnext). pose proof (run_wm_op_ok tbl cells_differ memcmp_zero t o Ht Hok) as (t' & E & Ht')%yields_Some.
    destruct (run_wm_op_kept t o t' Hk E) as (E1 & E2 & E3 & E4 & E5). rewrite E. cbn [mbind option_bind].
    apply (IH t' f0 d); try congruence; [| | by apply Hnext].
    + destruct Hs as [Hn|Hs]; [left; auto | right; by rewrite E1].
    + intros Hn. rewrite E1. apply Hd. destruct (composite_needed t); [by rewrite E5 in Hn | done].
  - intros (Hr & Hnext).
    pose proof (turbo_frame_ok t th m full f0 Hr ER EC Hs Ep)
      as ([[t1 m1] f] & E & Ht1 & ER1 & EC1 & Hs1 & Ep1 & Efull & Escr & Hna & Hdr & Hfo & Hds)%yields_Some.
    rewrite E. cbn [mbind option_bind]. set (d1 := if asked t m then (t, th, m) else d).
    assert (paints R C (fr_cells f) (scene_of d1)) as Hd1.
    { unfold d1. destruct (asked t m) eqn:Ea; [by apply Hdr |]. destruct (Hna eq_refl) as [Hn ->]. by apply Hd. }
    eapply yields_seq; [apply (IH t1 f d1); try done; [intros _; by rewrite Escr | by eapply Hnext] |].
    intros xs (Hfs & Hxs & Hlast). cbn [yields]. cbn [fmap list_fmap snd]. split_and!.
    + apply fs_cons; [done | by intros _ | done].
    + by constructor.
    + intros _. destruct xs as [|x xs]; [exact Hd1 | by apply Hlast].
Qed.
End Frames.

Lemma turbo_run_first tbl cells_differ t th m full evs xs :
  turbo_run tbl cells_differ t (EvShow th m full :: evs) = Some xs → ∃ x xs', xs = x :: xs' ∧ fr_full x.2 = full.
Proof.
  cbn [turbo_run]. unfold turbo_frame. intros ([[t1 m1] f] & Ef & (xs' & _ & [= <-])%bind_Some)%bind_Some.
  apply bind_Some in Ef as ([t2 m2] & _ & (t3 & _ & ([[crow ccol] vis] & _ & [= <- <- <-])%bind_Some)%bind_Some).
  by eexists _, xs'.
Qed.

(** C8: the client's terminal shows the last picture that was asked for.  Take any
    window manager whose screen is to be composed, and any session of it on a screen
    whose size stays the same: operations of all other kinds on the windows, each
    given what it needs ([wm_op_ok]), and frames, the first in full and each other in
    full or by its differences, with whatever terminals the windows have when a frame
    is drawn.  When a frame is drawn ([turbo_ready]) the windows that are not
    minimised can be drawn ([drawable]: of the minimal size, with a terminal, if any,
    that fills the content and has its cursor there or just past the end of a row,
    scroll numbers whose casts are defined, and a theme whose glyphs are one column
    wide), titles, theme and terminals hold narrow characters that can be sent (in
    styles of at most sixteen SGR parameters, reversed or not), and the focused
    window's cursor is on the screen.  The strings of the terminal description do what they are named for, as
    the built-in ANSI ones do (a description with a cup string is out, since
    [txl_cup] reads past its arguments); the row comparison misses nothing.
    Then every frame is composed if anything asked for it (an operation that sets
    [composite_needed], or a dirty row of a terminal in a window), compared with the
    last and rendered, without an out-of-range access, and the bytes written, played
    to the client's terminal, leave it showing the picture of the windows as they
    were the last time anything asked for one, cell for cell (up to the invisible
    foreground of an unstyled blank), with the cursor of the focused window as it is
    now.  Arranging the windows in a grid, and moving the cursor of a window without
    the focus, ask for no picture, so the terminal may then show an older one. *)
Theorem turbo_display_correct tbl on_dcs R C ti_expand txl junk st cells_differ t th m evs :
  WidthTable tbl → Capabilities tbl on_dcs R C ti_expand txl → client R C st → zlen junk = R * C →
  (∀ a b, cells_differ a b = false → a = b) →
  wm_ok t → wm_rows t = R → wm_cols t = C → composite_needed t = true →
  turbo_run_ready tbl cells_differ R C t (EvShow th m true :: evs) →
  ∃ xs u thl ml f r r' out st',
    turbo_run tbl cells_differ t (EvShow th m true :: evs) = Some (xs ++ [(u, thl, ml, f)]) ∧
    render_new R C txl junk = Some r ∧
    render_frames ti_expand R C (xs ++ [(u, thl, ml, f)]).*2 (r, []) = Some (r', out) ∧
    plays tbl on_dcs st out st' ∧
    (∀ row, 0 <= row < R → ∃ cs, row_cells st' row = Some cs ∧ zlen cs = C ∧
       ∀ col, 0 <= col < C → norm <$> aget cs col =
         Some (norm (scene_of tbl (shown_of (t, th, m) (xs ++ [(u, thl, ml, f)])) row col))) ∧
    ∃ vis, turbo_cursor (windows u) ml = Some (cursor_row st', cursor_col st', vis) ∧
      has_bits (modes st') VT_MODE_CURSOR_VIS = negb (vis =? 0).
Proof.
  intros Ht Hcap Hcl Hz Hd Hok Er Ec Hn Hrun.
  destruct (wk_prev _ Hok) as (p & Ep & _). set (f0 := mk_frame p 0 0 0 None true).
  pose proof (turbo_run_ok tbl cells_differ Hd R C (EvShow th m true :: evs) t f0 (t, th, m) Hok Er Ec (or_introl Hn) (eq_sym Ep)
    ltac:(congruence) Hrun) as (xs & E & Hfs & Hxs & Hlast)%yields_Some.
  destruct (turbo_run_first _ _ _ _ _ _ _ _ E) as (x & xs' & -> & Hfull). specialize (Hlast ltac:(done)).
  apply frames_ok_cons in Hfs as [Hf Hfs'].
  pose proof (session_shown tbl on_dcs R C ti_expand txl junk st x.2 xs'.*2 Hcl Hz Hfull Hf Hfs')
    as (r & Enew & [r' out] & Eout & st' & Hp & Htk & Hshow)%session_runs.
  destruct (exists_last (l := x :: xs') ltac:(done)) as (ys & [[[u thl] ml] f] & Eys).
  assert (last_frame x.2 xs'.*2 = f) as Elast.
  { change (last_frame x.2 xs'.*2) with (last_frame f0 (x :: xs').*2). rewrite Eys, fmap_app. apply last_frame_snoc. }
  change (last_frame f0 (x :: xs').*2) with (last_frame x.2 xs'.*2) in Hlast.
  rewrite Elast in Hshow, Hlast. destruct Hshow as (Hrows & Hcr & Hcc & Hvis).
  rewrite Eys in Hxs. apply Forall_app in Hxs as [_ (_ & Hcur & _)%Forall_singleton].
  exists ys, u, thl, ml, f, r, r', out, st'. rewrite <- Eys. split_and!; try done.
  - intros row Hrow. destruct (Hrows row Hrow) as (cs & Ecs & Hzcs & Hcs). exists cs. split_and!; [done | done |].
    intros col Hcol. rewrite (Hcs col Hcol). destruct Hlast as [_ ->]; done.
  - exists (fr_vis f). by rewrite Hcr, Hcc, Hcur.
Qed.

(** ** The demonstration *)

Definition good_runeb (tbl : rune_width_table) (cp : Z) : bool := plain_runeb cp && (print_width tbl cp =? 1).

Lemma good_runeb_sound tbl cp : good_runeb tbl cp = true → good_rune tbl cp.
Proof.
  unfold good_runeb, plain_runeb, good_rune, plain_rune, print_rune, valid_rune.
  rewrite !andb_true_iff, !negb_true_iff, Z.leb_le, Z.leb_le, andb_false_iff, !Z.leb_gt, Z.eqb_neq, Z.eqb_eq. lia.
Qed.

Definition theme_plainb (tbl : rune_width_table) (th : tui_theme) : bool :=
  forallb (λ s, good_runeb tbl (glyph_of s)) (theme_strings th) && forallb (good_runeb tbl) fixed_glyphs && forallb color_typedb (theme_colors th).

Lemma theme_plainb_sound tbl th : theme_plainb tbl th = true → theme_plain tbl th.
Proof.
  unfold theme_plainb. rewrite !andb_true_iff, !forallb_forall. intros [[Hs Hf] Hc].
  constructor; apply Forall_forall; intros x Hx%list_elem_of_In.
  - by apply good_runeb_sound, Hs.
  - by apply good_runeb_sound, Hf.
  - by apply color_typedb_sound, Hc.
Qed.

(** The themes built in can be sent. *)
Lemma builtin_themes_plain : forallb (λ tbl, forallb (theme_plainb tbl) themes) rune_width_builtin = true.
Proof. vm_compute. reflexivity. Qed.

Definition frame_cellb (tbl : rune_width_table) (x : vt_cell) : bool := cell_okb tbl x && (cell_width x =? 1).

Definition sendable_termb (tbl : rune_width_table) (st : vt_state) : bool :=
  match cur_buf st with
  | Some b => forallb (λ r, forallb (λ x, frame_cellb tbl (unpredicted x) && frame_cellb tbl (reversed (unpredicted x))) (VtBuf.cells r)) (grid b)
  | None => true
  end.

Lemma sendable_termb_sound tbl st row col x : sendable_termb tbl st = true → vt_at st row col = Some x → sendable tbl (unpredicted x).
Proof.
  unfold sendable_termb, vt_at, row_cells. destruct (cur_buf st) as [b|]; [| done]. cbn [mbind option_bind].
  destruct (aget (grid b) row) as [r|] eqn:Er; [| done]. cbn [mbind option_bind]. intros H Ec.
  assert (∀ {A} (l : list A) i y, aget l i = Some y → In y l) as Hin.
  { intros A l i y E. pose proof (aget_Some _ _ _ E). rewrite aget_lookup in E by lia.
    apply list_elem_of_In. by eapply list_elem_of_lookup_2. }
  rewrite forallb_forall in H. specialize (H r (Hin _ _ _ _ Er)). rewrite forallb_forall in H. specialize (H x (Hin _ _ _ _ Ec)).
  unfold frame_cellb in H. rewrite !andb_true_iff, !Z.eqb_eq in H. destruct H as [[H1 H2] [H3 H4]].
  by split; (split; [apply cell_okb_sound |]).
Qed.

Lemma demo_turbo_ready t : wm_ok t → windows t = windows demo_shown_wm → turbo_ready table_15_1_0 10 30 t theme_thin demo_win_vts.
Proof.
  intros Ht Ew. assert (visible t = visible demo_shown_wm) as Ev by (unfold visible; by rewrite Ew). constructor.
  - done.
  - rewrite Ev. exact demo_drawable.
  - rewrite Ev. assert (theme_plain table_15_1_0 theme_thin) as Hth by (apply theme_plainb_sound; vm_compute; reflexivity).
    assert (∀ v, v ∈ visible demo_shown_wm → wn_title v = replicate (Z.to_nat WM_TITLE_MAX) 0 ∧ theme_of theme_thin v = theme_thin) as Hv.
    { change (visible demo_shown_wm) with (windows demo_shown_wm). cbn. by intros v [->|[->|[]%elem_of_nil]%elem_of_cons]%elem_of_cons. }
    apply Forall_forall. intros v [Et Eth]%Hv. unfold win_plain. rewrite Eth. split; [exact Hth |].
    intros fuel c end_. rewrite Et. apply layout_ascii; [builtin_table |]. apply Forall_replicate. by left.
  - assert (sendable_termb table_15_1_0 (fed_term 4 12 (str "hello")) = true) as H1 by (vm_compute; reflexivity).
    assert (sendable_termb table_15_1_0 (fed_term 4 12 (str "world")) = true) as H2 by (vm_compute; reflexivity).
    intros q st row col x Eq. unfold demo_win_vts in Eq.
    apply lookup_insert_Some in Eq as [[_ <-]|[_ Eq]]; [by apply sendable_termb_sound |].
    apply lookup_singleton_Some in Eq as [_ <-]. by apply sendable_termb_sound.
  - rewrite Ew. vm_compute. intuition discriminate.
Qed.

Definition demo_turbo : list turbo_event := [EvShow theme_thin demo_win_vts true; EvWm OpInvalidate; EvShow theme_thin demo_win_vts false].

Lemma demo_turbo_run_ready : turbo_run_ready table_15_1_0 cells_compare 10 30 demo_shown_wm demo_turbo.
Proof.
  assert (WidthTable table_15_1_0) as Htbl by builtin_table.
  cbn [turbo_run_ready demo_turbo]. split; [apply demo_turbo_ready; [apply demo_wm_ok | reflexivity] |].
  intros t1 m1 f1 E1. split_and!; [exact I | exact I |]. intros t2 E2. injection E2 as <-.
  unfold turbo_frame in E1. apply bind_Some in E1 as ([t3 m3] & E3 & (t4 & E4 & (x & _ & E1)%bind_Some)%bind_Some).
  destruct (frame_shows_windows' table_15_1_0 cells_compare demo_shown_wm theme_thin demo_win_vts _ cells_compare_zero
    (demo_wm_ok _ _) demo_drawable eq_refl) as (t5 & m5 & t6 & d & E5 & E6 & Hok & _ & Ew & _).
  rewrite E3 in E5. injection E5 as <- <-. rewrite E4 in E6. injection E6 as <-. destruct x as [[? ?] ?]. injection E1 as <- _ _.
  split; [| done]. apply demo_turbo_ready; [by apply needs_ok | exact Ew].
Qed.

Lemma demo_turbo_client : client 10 30 (default zero_state (vt_state_new 10 30 0)).
Proof.
  pose proof (vt_state_new_ok 10 30 0) as H. unfold DIM_MAX in *.
  constructor; [| vm_compute; reflexivity | vm_compute; reflexivity | vm_compute; discriminate].
  destruct (vt_state_new 10 30 0) as [st|]; [apply H; lia | by destruct H; lia].
Qed.

Lemma turbo_display_correct_witness :
  ∃ xs u thl ml f r r' out st',
    turbo_run table_15_1_0 cells_compare demo_shown_wm demo_turbo = Some (xs ++ [(u, thl, ml, f)]) ∧
    render_new 10 30 None (replicate 300 cont_cell) = Some r ∧
    render_frames (λ s _, s) 10 30 (xs ++ [(u, thl, ml, f)]).*2 (r, []) = Some (r', out) ∧
    plays table_15_1_0 no_dcs (default zero_state (vt_state_new 10 30 0)) out st'.
Proof.
  assert (WidthTable table_15_1_0) as Ht by builtin_table.
  destruct (turbo_display_correct table_15_1_0 no_dcs 10 30 (λ s _, s) None (replicate 300 cont_cell)
    (default zero_state (vt_state_new 10 30 0)) cells_compare demo_shown_wm theme_thin demo_win_vts (tail demo_turbo))
    as (xs & u & thl & ml & f & r & r' & out & st' & E & Er & Eout & Hp & _).
  - exact Ht.
  - apply ansi_capabilities; [exact Ht | vm_compute; discriminate | reflexivity].
  - exact demo_turbo_client.
  - reflexivity.
  - exact cells_compare_zero.
  - apply demo_wm_ok.
  - reflexivity.
  - reflexivity.
  - reflexivity.
  - exact demo_turbo_run_ready.
  - exists xs, u, thl, ml, f, r, r', out, st'. split; [exact E | split; [exact Er | split; [exact Eout | exact Hp]]].
Defined.
