(* ===== verification/Text.v ===== *)
(** * The text buffer: src/libtext/text.c

    An editor's lines, with undo and redo.  A line's buffer is the array it is, its
    capacity the array's length; every allocation answers from a schedule, and
    bytes just allocated are [junk].  [None] is a trap; an operation's result is
    [true] for OK and [false] for ERR. *)

From S2P Require Import Prelude Tile TileFrame.

Definition NEWLINE : Z := 10.

Record line := mk_line { l_buf : list Z; l_len : Z }.

Inductive eop := OP_INSERT | OP_DELETE | OP_SPLIT | OP_JOIN.

#[export] Instance eop_eq_dec : EqDecision eop.
Proof. solve_decision. Defined.

Record erec := mk_erec { op : eop; e_line : Z; e_col : Z; e_bytes : option (list Z); e_n : Z; group : Z }.

(** The records, the top of the stack first. *)
Record estack := mk_estack { es_v : list erec; es_cap : Z }.

(** [t_mem] says which of the next allocations succeed; all after it do. *)
Record text := mk_text {
  t_lines : list line; t_cap : Z;
  final_newline : bool; t_dirty : bool; rev : Z;
  undo : estack; redo : estack; can_coalesce : bool;
  cur_group : Z; group_depth : Z; group_seq : Z;
  t_mem : list bool;
}.

Definition nlines (t : text) : Z := zlen (t_lines t).

(** Does the next allocation succeed? *)
Definition ask (t : text) : bool * text :=
  match t_mem t with [] => (true, t) | b :: mem => (b, {| t with t_mem := mem |}) end.

Definition with_lines (ls : list line) (t : text) : text := {| t with t_lines := ls |}.
Definition set_line (i : Z) (l : line) (t : text) : text := with_lines (<[Z.to_nat i := l]> (t_lines t)) t.

(** [memcpy] and [memmove] of [src] to [dst + off]. *)
Definition blit (dst : list Z) (off : Z) (src : list Z) : option (list Z) :=
  if (off <? 0) || (zlen dst <? off + zlen src) then None
  else Some (take (Z.to_nat off) dst ++ src ++ drop (Z.to_nat (off + zlen src)) dst).

(** ** Growable storage *)

(** [while (cap < need) cap *= 2;] *)
Fixpoint grow (fuel : nat) (cap need : Z) : option Z :=
  if cap <? need then match fuel with O => None | S fuel => grow fuel (u64 (cap * 2)) need end else Some cap.

Section Text.
Context (junk : Z).

(** The line with room for [need] bytes and a NUL, unless there is no memory. *)
Definition line_reserve (l : line) (need : Z) (t : text) : option (option line * text) :=
  let cap := zlen (l_buf l) in
  if cap <? u64 (need + 1) then
    cap' ← grow 64 (if cap =? 0 then 16 else cap) (u64 (need + 1));
    let '(ok, t) := ask t in
    Some (if ok then Some {| l with l_buf := l_buf l ++ replicate (Z.to_nat (cap' - cap)) junk |} else None, t)
  else Some (Some l, t).

Definition line_init (s : list Z) (n : Z) (t : text) : option (option line * text) :=
  '(r, t) ← line_reserve (mk_line [] 0) n t;
  match r with
  | None => Some (None, t)
  | Some l =>
      b ← (if n =? 0 then Some (l_buf l) else src ← aslice s 0 n; blit (l_buf l) 0 src);
      b ← aset b n 0;
      Some (Some (mk_line b n), t)
  end.

Definition lines_reserve (need : Z) (t : text) : option (bool * text) :=
  if t_cap t <? need then
    cap ← grow 64 (if t_cap t =? 0 then 32 else t_cap t) need;
    let '(ok, t) := ask t in
    Some (if ok then (true, {| t with t_cap := cap |}) else (false, t))
  else Some (true, t).

Definition lines_insert_at (idx : Z) (s : list Z) (n : Z) (t : text) : option (bool * text) :=
  if nlines t <? idx then Some (false, t) else
  '(ok, t) ← lines_reserve (nlines t + 1) t;
  if negb ok then Some (false, t) else
  '(r, t) ← line_init s n t;
  match r with
  | None => Some (false, t)
  | Some l =>
      if t_cap t <? nlines t + 1 then None else
      Some (true, with_lines (take (Z.to_nat idx) (t_lines t) ++ l :: drop (Z.to_nat idx) (t_lines t)) t)
  end.

Definition lines_remove_at (idx : Z) (t : text) : text :=
  if nlines t <=? idx then t else with_lines (delete (Z.to_nat idx) (t_lines t)) t.

Definition text_clear (t : text) : text := with_lines [] t.

(** ** Lifecycle *)

Definition empty_stack : estack := mk_estack [] 0.

(** [mem] is what the allocations will answer; the result is NULL without memory. *)
Definition text_new (mem : list bool) : option (option text) :=
  let t := mk_text [] 0 false false 0 empty_stack empty_stack false 0 0 0 mem in
  let '(ok, t) := ask t in
  if negb ok then Some None else
  '(ok, t) ← lines_insert_at 0 [] 0 t;
  Some (if (ok : bool) then Some {| t with final_newline := false; t_dirty := false |} else None).

(** ** Undo primitives *)

Definition with_records (v : list erec) (s : estack) : estack := {| s with es_v := v |}.
Definition estack_clear (s : estack) : estack := with_records [] s.

Definition estack_push (s : estack) (r : erec) (t : text) : option (option estack * text) :=
  let n := zlen (es_v s) in
  if es_cap s <=? n then
    let '(ok, t) := ask t in
    Some (if ok then Some (mk_estack (r :: es_v s) (if es_cap s =? 0 then 32 else es_cap s * 2)) else None, t)
  else Some (Some (with_records (r :: es_v s) s), t).

(** The change is counted. *)
Definition changed (t : text) : text := {| t with t_dirty := true; rev := u64 (rev t + 1) |}.

(** What a primitive does, and the primitive that reverses it; none for ERR. *)
Definition apply_op (i : erec) (t : text) : option (option erec * text) :=
  let err (t : text) := Some (None : option erec, t) in
  match op i with
  | OP_INSERT =>
      if nlines t <=? e_line i then err t else
      l ← aget (t_lines t) (e_line i);
      if l_len l <? e_col i then err t else
      '(r, t) ← line_reserve l (u64 (l_len l + e_n i)) t;
      match r with
      | None => err t
      | Some l =>
          tail ← aslice (l_buf l) (e_col i) (l_len l - e_col i);
          b ← blit (l_buf l) (e_col i + e_n i) tail;
          bytes ← e_bytes i;
          src ← aslice bytes 0 (e_n i);
          b ← blit b (e_col i) src;
          let len := l_len l + e_n i in
          b ← aset b len 0;
          Some (Some (mk_erec OP_DELETE (e_line i) (e_col i) None (e_n i) 0), changed (set_line (e_line i) (mk_line b len) t))
      end
  | OP_DELETE =>
      if nlines t <=? e_line i then err t else
      l ← aget (t_lines t) (e_line i);
      if l_len l <? e_col i then err t else
      let nn := if l_len l - e_col i <? e_n i then l_len l - e_col i else e_n i in
      let '(ok, t) := ask t in
      if negb ok then err t else
      cut ← aslice (l_buf l) (e_col i) nn;
      tail ← aslice (l_buf l) (e_col i + nn) (l_len l - e_col i - nn);
      b ← blit (l_buf l) (e_col i) tail;
      let len := l_len l - nn in
      b ← aset b len 0;
      Some (Some (mk_erec OP_INSERT (e_line i) (e_col i) (Some cut) nn 0), changed (set_line (e_line i) (mk_line b len) t))
  | OP_SPLIT =>
      if nlines t <=? e_line i then err t else
      l ← aget (t_lines t) (e_line i);
      if l_len l <? e_col i then err t else
      s ← aslice (l_buf l) (e_col i) (l_len l - e_col i);
      '(ok, t) ← lines_insert_at (e_line i + 1) s (l_len l - e_col i) t;
      if negb ok then err t else
      l ← aget (t_lines t) (e_line i);
      b ← aset (l_buf l) (e_col i) 0;
      Some (Some (mk_erec OP_JOIN (e_line i) 0 None 0 0), changed (set_line (e_line i) (mk_line b (e_col i)) t))
  | OP_JOIN =>
      if nlines t <=? u64 (e_line i + 1) then err t else
      l ← aget (t_lines t) (e_line i);
      next ← aget (t_lines t) (e_line i + 1);
      let done t := Some (Some (mk_erec OP_SPLIT (e_line i) (l_len l) None 0 0), changed (lines_remove_at (e_line i + 1) t)) in
      if l_len next =? 0 then done t else
      '(r, t) ← line_reserve l (l_len l + l_len next) t;
      match r with
      | None => err t
      | Some l' =>
          src ← aslice (l_buf next) 0 (l_len next);
          b ← blit (l_buf l') (l_len l') src;
          let len := l_len l' + l_len next in
          b ← aset b len 0;
          done (set_line (e_line i) (mk_line b len) t)
      end
  end.

(** The top record takes the change too, when a run of typing goes on. *)
Definition coalesces (t : text) (inv : erec) : option (erec * list erec) :=
  match es_v (undo t) with
  | top :: v =>
      if can_coalesce t && bool_decide (op inv = OP_DELETE) && bool_decide (op top = OP_DELETE) && (group top =? group inv)
         && (e_line top =? e_line inv) && (e_col top + e_n top =? e_col inv)
      then Some ({| top with e_n := e_n top + e_n inv |}, v) else None
  | [] => None
  end.

Definition record_undo (inv : erec) (t : text) : option text :=
  let t := {| t with redo := estack_clear (redo t) |} in
  let inv := {| inv with group := cur_group t |} in
  match coalesces t inv with
  | Some (top, v) => Some {| t with undo := with_records (top :: v) (undo t) |}
  | None =>
      '(r, t) ← estack_push (undo t) inv t;
      Some (match r with Some s => {| t with undo := s |} | None => t end)
  end.

(** Where the cursor goes after a change. *)
Definition cursor_after (applied inv : erec) : Z * Z :=
  match op applied with
  | OP_INSERT => (e_line applied, e_col applied + e_n applied)
  | OP_DELETE => (e_line applied, e_col applied)
  | OP_SPLIT => (e_line applied + 1, 0)
  | OP_JOIN => (e_line applied, e_col inv)
  end.

(** ** Editing *)

(** Apply a change and record its inverse. *)
Definition edit (i : erec) (t : text) : option (bool * text) :=
  '(r, t) ← apply_op i t;
  match r with
  | None => Some (false, t)
  | Some inv => t ← record_undo inv t; Some (true, t)
  end.

(** Is there such a place? *)
Definition place_ok (line col : Z) (t : text) : option bool :=
  if nlines t <=? line then Some false else l ← aget (t_lines t) line; Some (col <=? l_len l).

Definition text_insert (line col : Z) (s : list Z) (n : Z) (t : text) : option (bool * text) :=
  ok ← place_ok line col t;
  if negb ok then Some (false, t) else
  if n =? 0 then Some (true, t) else
  '(ok, t) ← edit (mk_erec OP_INSERT line col (Some s) n 0) t;
  Some (ok, if (ok : bool) then {| t with can_coalesce := true |} else t).

Definition text_delete (line col n : Z) (t : text) : option (bool * text) :=
  ok ← place_ok line col t;
  if negb ok then Some (false, t) else
  l ← aget (t_lines t) line;
  if (n =? 0) || (col =? l_len l) then Some (true, t) else
  edit (mk_erec OP_DELETE line col None n 0) {| t with can_coalesce := false |}.

Definition text_split (line col : Z) (t : text) : option (bool * text) :=
  ok ← place_ok line col t;
  if negb ok then Some (false, t) else
  edit (mk_erec OP_SPLIT line col None 0 0) {| t with can_coalesce := false |}.

Definition text_join (line : Z) (t : text) : option (bool * text) :=
  if nlines t <=? u64 (line + 1) then Some (false, t) else
  edit (mk_erec OP_JOIN line 0 None 0 0) {| t with can_coalesce := false |}.

(** ** Undo and redo *)

Definition text_can_undo (t : text) : bool := 0 <? zlen (es_v (undo t)).
Definition text_can_redo (t : text) : bool := 0 <? zlen (es_v (redo t)).

Definition text_undo_boundary (t : text) : text := {| t with can_coalesce := false |}.

Definition text_undo_group_begin (t : text) : text :=
  let t := if group_depth t =? 0 then {| t with group_seq := u32 (group_seq t + 1); cur_group := u32 (group_seq t + 1) |} else t in
  {| t with group_depth := u32 (group_depth t + 1); can_coalesce := false |}.

Definition text_undo_group_end (t : text) : text :=
  let d := if 0 <? group_depth t then group_depth t - 1 else group_depth t in
  {| t with group_depth := d; cur_group := if d =? 0 then 0 else cur_group t; can_coalesce := false |}.

(** The stack undone from, and the one its inverses go to. *)
Definition from_stack (back : bool) (t : text) : estack := if back then undo t else redo t.
Definition with_stacks (back : bool) (from to : estack) (t : text) : text :=
  if back then {| t with undo := from; redo := to |} else {| t with undo := to; redo := from |}.

(** One record; the place of the cursor, none for ERR. *)
Definition undo_apply_one (back : bool) (t : text) : option (option (Z * Z) * text) :=
  match es_v (from_stack back t) with
  | [] => None
  | r :: v =>
      let from := with_records v (from_stack back t) in
      let to := from_stack (negb back) t in
      '(i, t) ← apply_op r t;
      match i with
      | None => Some (None, with_stacks back from to t)
      | Some inv =>
          let inv := {| inv with group := group r |} in
          '(s, t) ← estack_push to inv t;
          Some (Some (cursor_after r inv), with_stacks back from (default to s) t)
      end
  end.

(** The records that follow with the same group; each turn takes one. *)
Fixpoint undo_rest (fuel : nat) (back : bool) (g : Z) (cur : Z * Z) (t : text) : option ((Z * Z) * text) :=
  match es_v (from_stack back t) with
  | r :: _ =>
      if negb (g =? 0) && (group r =? g) then
        match fuel with
        | O => None
        | S fuel =>
            '(c, t) ← undo_apply_one back t;
            match c with None => Some (cur, t) | Some c => undo_rest fuel back g c t end
        end
      else Some (cur, t)
  | [] => Some (cur, t)
  end.

(** The place of the cursor, none for ERR. *)
Definition undo_step (back : bool) (t : text) : option (option (Z * Z) * text) :=
  let t := {| t with can_coalesce := false |} in
  match es_v (from_stack back t) with
  | [] => Some (None, t)
  | r :: v =>
      '(c, t) ← undo_apply_one back t;
      match c with
      | None => Some (None, t)
      | Some c => '(c, t) ← undo_rest (length v) back (group r) c t; Some (Some c, t)
      end
  end.

Definition text_undo : text → option (option (Z * Z) * text) := undo_step true.
Definition text_redo : text → option (option (Z * Z) * text) := undo_step false.

(** ** Load and save *)

(** What reading the file gives: its bytes up to an error, if any. *)
Record source := mk_source { opens : bool; data : list Z; read_error : bool }.

(** The buffer grows with the bytes; [false] when there is no memory for one. *)
Fixpoint read_all (bytes : list Z) (len cap : Z) (t : text) : bool * text :=
  match bytes with
  | [] => (true, t)
  | _ :: bytes =>
      if cap <? len + 1 then
        let '(ok, t) := ask t in
        if ok then read_all bytes (len + 1) (if cap =? 0 then 4096 else cap * 2) t else (false, t)
      else read_all bytes (len + 1) cap t
  end.

(** The lines of [data] from [start], looking at [i] next. *)
Fixpoint load_lines (rest : list Z) (data : list Z) (start i : Z) (t : text) : option (bool * Z * text) :=
  match rest with
  | [] => Some (true, start, t)
  | c :: rest =>
      if c =? NEWLINE then
        s ← aslice data start (i - start);
        '(ok, t) ← lines_insert_at (nlines t) s (i - start) t;
        if negb ok then Some (false, start, t) else load_lines rest data (i + 1) (i + 1) t
      else load_lines rest data start (i + 1) t
  end.

Definition text_load (f : source) (t : text) : option (bool * text) :=
  if negb (opens f) then Some (false, t) else
  let '(ok, t) := read_all (data f) 0 0 t in
  if negb ok || read_error f then Some (false, t) else
  let len := zlen (data f) in
  let t := {| (text_clear t) with undo := estack_clear (undo t); redo := estack_clear (redo t); can_coalesce := false;
              group_depth := 0; cur_group := 0; final_newline := bool_decide (last (data f) = Some NEWLINE) |} in
  '(ok, start, t) ← load_lines (data f) (data f) 0 0 t;
  if negb ok then Some (false, t) else
  '(ok, t) ← (if start <? len then s ← aslice (data f) start (len - start); lines_insert_at (nlines t) s (len - start) t else Some (true, t));
  if negb ok then Some (false, t) else
  t ← (if nlines t =? 0 then '(_, t) ← lines_insert_at 0 [] 0 t; Some t else Some t);
  Some (true, {| t with t_dirty := false |}).

(** The file written to: whether it opens, how many bytes it takes, whether
    closing it reports that they are there. *)
Record sink := mk_sink { creates : bool; room : Z; closes : bool }.

(** [false] after a write that fails; [out] is what is in the file. *)
Fixpoint save_lines (ls : list line) (fin : bool) (room : Z) (out : list Z) : option (bool * list Z) :=
  match ls with
  | [] => Some (true, out)
  | l :: ls =>
      s ← aslice (l_buf l) 0 (l_len l);
      let fits := take (Z.to_nat (room - zlen out)) s in
      let out := out ++ fits in
      if zlen fits <? l_len l then Some (false, out) else
      if negb (bool_decide (ls = [])) || fin then
        if room <? zlen out + 1 then Some (false, out) else save_lines ls fin room (out ++ [NEWLINE])
      else save_lines ls fin room out
  end.

(** The result and the file; none if it was not created. *)
Definition text_save (f : sink) (t : text) : option (bool * option (list Z) * text) :=
  if negb (creates f) then Some (false, None, t) else
  '(ok, out) ← save_lines (t_lines t) (final_newline t) (room f) [];
  if negb ok || negb (closes f) then Some (false, Some out, t) else
  Some (true, Some out, {| t with t_dirty := false |}).

(** ** Queries *)

Definition text_lines (t : text) : Z := nlines t.

(** The line's buffer and length, none for NULL. *)
Definition text_line (i : Z) (t : text) : option (option (list Z * Z)) :=
  if nlines t <=? i then Some None else l ← aget (t_lines t) i; Some (Some (l_buf l, l_len l)).

Definition text_line_len (i : Z) (t : text) : option Z :=
  if nlines t <=? i then Some 0 else l ← aget (t_lines t) i; Some (l_len l).

Definition text_dirty (t : text) : bool := t_dirty t.
Definition text_final_newline (t : text) : bool := final_newline t.
Definition text_revision (t : text) : Z := rev t.
End Text.
