(* ===== verification/TextEdit.v ===== *)
(** * The primitives on the lines of a text

    A text's lines hold byte strings; on those, each primitive of [Text] replaces one
    or two lines.  [apply_op] does that or, without memory, nothing; and what it
    gives back reverses it. *)

From S2P Require Import Prelude Tile TileFrame Text.

(** The line's bytes are [s], with a NUL after them. *)
Definition holds (l : line) (s : list Z) : Prop := ∃ rest, l_buf l = s ++ 0 :: rest ∧ l_len l = zlen s.

(** The bytes, and one for each line. *)
Definition weight (L : list (list Z)) : Z := foldr (λ s w, zlen s + 1 + w) 0 L.

(** [new] in place of [k] lines from [i]. *)
Definition put (i k : Z) (new L : list (list Z)) : list (list Z) := take (Z.to_nat i) L ++ new ++ drop (Z.to_nat (i + k)) L.

Definition ins (i col : Z) (s : list Z) (L : list (list Z)) : option (list (list Z)) :=
  l ← aget L i;
  if zlen l <? col then None else Some (put i 1 [take (Z.to_nat col) l ++ s ++ drop (Z.to_nat col) l] L).

Definition del (i col n : Z) (L : list (list Z)) : option (list (list Z)) :=
  l ← aget L i;
  if zlen l <? col then None else Some (put i 1 [take (Z.to_nat col) l ++ drop (Z.to_nat (col + n)) l] L).

Definition spl (i col : Z) (L : list (list Z)) : option (list (list Z)) :=
  l ← aget L i;
  if zlen l <? col then None else Some (put i 1 [take (Z.to_nat col) l; drop (Z.to_nat col) l] L).

Definition joi (i : Z) (L : list (list Z)) : option (list (list Z)) :=
  a ← aget L i; b ← aget L (i + 1); Some (put i 2 [a ++ b] L).

(** The record's change of the lines, and the record that reverses it. *)
Definition p_apply (r : erec) (L : list (list Z)) : option (erec * list (list Z)) :=
  match op r with
  | OP_INSERT =>
      s ← e_bytes r; L' ← ins (e_line r) (e_col r) (take (Z.to_nat (e_n r)) s) L;
      Some (mk_erec OP_DELETE (e_line r) (e_col r) None (e_n r) 0, L')
  | OP_DELETE =>
      l ← aget L (e_line r); L' ← del (e_line r) (e_col r) (e_n r) L;
      let cut := take (Z.to_nat (e_n r)) (drop (Z.to_nat (e_col r)) l) in
      Some (mk_erec OP_INSERT (e_line r) (e_col r) (Some cut) (zlen cut) 0, L')
  | OP_SPLIT => L' ← spl (e_line r) (e_col r) L; Some (mk_erec OP_JOIN (e_line r) 0 None 0 0, L')
  | OP_JOIN => l ← aget L (e_line r); L' ← joi (e_line r) L; Some (mk_erec OP_SPLIT (e_line r) (zlen l) None 0 0, L')
  end.

(** The record's numbers are sizes and its bytes are there. *)
Definition rec_ok (r : erec) : Prop :=
  0 <= e_line r < 2 ^ 64 - 1 ∧ 0 <= e_col r ∧ 0 <= e_n r ∧
  (op r = OP_INSERT → ∃ s, e_bytes r = Some s ∧ e_n r <= zlen s).

(** What applying the record adds to the weight. *)
Definition cost (r : erec) : Z := match op r with OP_INSERT => e_n r | OP_SPLIT => 1 | _ => 0 end.

(** ** Strings cut in pieces *)

Section Pieces.
Context {A : Type}.
Implicit Types a b c : list A.

Lemma ztake_app a b n : zlen a = n → take (Z.to_nat n) (a ++ b) = a.
Proof. intros <-. unfold zlen. rewrite Nat2Z.id. apply take_app_length. Qed.

Lemma zdrop_app a b n : zlen a = n → drop (Z.to_nat n) (a ++ b) = b.
Proof. intros <-. unfold zlen. rewrite Nat2Z.id. apply drop_app_length. Qed.

Lemma cut_at a n : 0 <= n <= zlen a → ∃ b c, a = b ++ c ∧ zlen b = n.
Proof.
  intros H. exists (take (Z.to_nat n) a), (drop (Z.to_nat n) a).
  split; [by rewrite take_drop | apply zlen_take; lia].
Qed.

Lemma cut_elem a n x : aget a n = Some x → ∃ b c, a = b ++ x :: c ∧ zlen b = n.
Proof.
  intros H. pose proof (aget_Some _ _ _ H) as [? _]. rewrite aget_lookup in H by lia.
  exists (take (Z.to_nat n) a), (drop (S (Z.to_nat n)) a).
  split; [by rewrite take_drop_middle |]. unfold zlen. rewrite length_take. apply lookup_lt_Some in H. lia.
Qed.

Lemma aget_mid a x b n : zlen a = n → aget (a ++ x :: b) n = Some x.
Proof.
  intros <-. unfold aget, zlen. replace (0 <=? _) with true by (symmetry; apply Z.leb_le; lia).
  rewrite Nat2Z.id. by apply list_lookup_middle.
Qed.

Lemma aset_mid a x b n y : zlen a = n → aset (a ++ x :: b) n y = Some (a ++ y :: b).
Proof.
  intros <-. rewrite aset_in by (rewrite zlen_app, zlen_cons; pose proof (zlen_nonneg a); pose proof (zlen_nonneg b); lia).
  unfold zlen. rewrite Nat2Z.id. by rewrite insert_app_r_alt, Nat.sub_diag by lia.
Qed.

Lemma aslice_mid a b c i n : zlen a = i → zlen b = n → aslice (a ++ b ++ c) i n = Some b.
Proof.
  intros <- <-. pose proof (zlen_nonneg a). pose proof (zlen_nonneg b). pose proof (zlen_nonneg c).
  rewrite aslice_ok by (rewrite ?zlen_app; lia). by rewrite zdrop_app, ztake_app.
Qed.
Lemma aslice_head a b n : zlen a = n → aslice (a ++ b) 0 n = Some a.
Proof. intros. by apply (aslice_mid [] a b). Qed.
End Pieces.

Lemma blit_mid (a x b y : list Z) n : zlen a = n → zlen x = zlen y → blit (a ++ x ++ b) n y = Some (a ++ y ++ b).
Proof.
  intros <- E. pose proof (zlen_nonneg a). pose proof (zlen_nonneg x). pose proof (zlen_nonneg b).
  unfold blit. replace (_ || _) with false by (rewrite !zlen_app; zbool). f_equal.
  rewrite ztake_app by done. by rewrite (app_assoc a x b), zdrop_app by (rewrite zlen_app; lia).
Qed.

(** ** Lines *)

Lemma put_mid A o B new n k : zlen A = n → zlen o = k → put n k new (A ++ o ++ B) = A ++ new ++ B.
Proof.
  intros. unfold put. rewrite ztake_app by done. by rewrite (app_assoc A o B), zdrop_app by (rewrite zlen_app; lia).
Qed.

Lemma put_one A o B new n : zlen A = n → put n 1 new (A ++ o :: B) = A ++ new ++ B.
Proof. intros. by apply (put_mid A [o] B). Qed.

Lemma put_two A o p B new n : zlen A = n → put n 2 new (A ++ o :: p :: B) = A ++ new ++ B.
Proof. intros. by apply (put_mid A [o; p] B). Qed.

Lemma weight_nonneg L : 0 <= weight L.
Proof. induction L as [| s L IH]; simpl; [lia |]. pose proof (zlen_nonneg s). lia. Qed.

Lemma weight_app L L' : weight (L ++ L') = weight L + weight L'.
Proof. induction L as [| s L IH]; simpl; lia. Qed.

Lemma weight_len L : zlen L <= weight L.
Proof. induction L as [| s L IH]; [done |]. rewrite zlen_cons. simpl. pose proof (zlen_nonneg s). lia. Qed.

Lemma weight_get L i s : aget L i = Some s → zlen s + 1 <= weight L.
Proof.
  intros (A & B & -> & _)%cut_elem. rewrite weight_app. simpl.
  pose proof (weight_nonneg A). pose proof (weight_nonneg B). lia.
Qed.

Lemma holds_bytes l s : holds l s → take (Z.to_nat (l_len l)) (l_buf l) = s.
Proof. intros (rest & -> & ->). by apply ztake_app. Qed.

Lemma holds_len l s : holds l s → l_len l = zlen s.
Proof. by intros (rest & _ & ->). Qed.

Lemma holds_mk a x b n : zlen a = n → x = 0 → holds (mk_line (a ++ x :: b) n) a.
Proof. intros <- ->. by exists b. Qed.

(** The line at [i], among those before it and those after. *)
Lemma lines_get ls L i s :
  Forall2 holds ls L → aget L i = Some s →
  ∃ l lA lB A B, aget ls i = Some l ∧ holds l s ∧ ls = lA ++ l :: lB ∧ L = A ++ s :: B ∧ zlen lA = i ∧ zlen A = i ∧
    Forall2 holds lA A ∧ Forall2 holds lB B.
Proof.
  intros H (A & B & -> & HA)%cut_elem.
  apply Forall2_app_inv_r in H as (lA & l2 & FA & F2 & ->).
  apply Forall2_cons_inv_r in F2 as (l & lB & Hl & FB & ->).
  assert (HlA : zlen lA = i) by (unfold zlen in *; rewrite (Forall2_length _ _ _ FA); done).
  exists l, lA, lB, A, B. split; [by apply aget_mid | done].
Qed.

Lemma lines_len ls L : Forall2 holds ls L → zlen ls = zlen L.
Proof. intros H. unfold zlen. by rewrite (Forall2_length _ _ _ H). Qed.

Lemma lines_out ls L i : Forall2 holds ls L → 0 <= i → (zlen ls <=? i) = true ↔ aget L i = None.
Proof. intros H ?. rewrite (lines_len _ _ H), Z.leb_le, aget_None. lia. Qed.

Lemma set_mid {A} (a : list A) x b n y : zlen a = n → <[Z.to_nat n := y]> (a ++ x :: b) = a ++ y :: b.
Proof. intros <-. unfold zlen. rewrite Nat2Z.id. by rewrite insert_app_r_alt, Nat.sub_diag by lia. Qed.

(** ** Allocations *)

Definition relines (ls : list line) (cap : Z) (mem : list bool) (t : text) : text :=
  {| t with t_lines := ls; t_cap := cap; t_mem := mem |}.

(** With no failures to come there are none, and [ok]. *)
Definition answers (t : text) (mem : list bool) (ok : Prop) : Prop := t_mem t = [] → mem = [] ∧ ok.

Lemma answers_mono t mem (P Q : Prop) : answers t mem P → (P → Q) → answers t mem Q.
Proof. unfold answers. tauto. Qed.

Lemma ask_ok t : ∃ b mem, ask t = (b, relines (t_lines t) (t_cap t) mem t) ∧ answers t mem (b = true).
Proof.
  unfold ask. destruct t as [? ? ? ? ? ? ? ? ? ? ? [| b mem]]; simpl.
  - by exists true, [].
  - by exists b, mem.
Qed.

Lemma grow_ok fuel : ∀ cap need,
  0 < cap → need <= 2 ^ 59 → need <= cap * 2 ^ Z.of_nat fuel → ∃ c, grow fuel cap need = Some c ∧ need <= c ∧ cap <= c.
Proof.
  induction fuel as [| fuel IH]; intros cap need Hc Hn Hf; simpl; destruct (Z.ltb_spec cap need).
  - rewrite Z.mul_1_r in Hf. lia.
  - by exists cap.
  - assert (E : u64 (cap * 2) = cap * 2) by (unfold u64; apply Z.mod_small; lia).
    rewrite E. destruct (IH (cap * 2) need) as (c & ? & ? & ?); [lia | lia | |].
    + rewrite Nat2Z.inj_succ, Z.pow_succ_r in Hf by lia. lia.
    + exists c. split; [done | lia].
  - by exists cap.
Qed.

Lemma grow_64 cap need : 0 < cap → need <= 2 ^ 59 → ∃ c, grow 64 cap need = Some c ∧ need <= c ∧ cap <= c.
Proof. intros. apply grow_ok; [done | done |]. change (2 ^ Z.of_nat 64) with (2 ^ 64). lia. Qed.

Lemma u64_small x : 0 <= x < 2 ^ 64 → u64 x = x.
Proof. apply Z.mod_small. Qed.

Section Alloc.
Context (junk : Z).

Lemma line_reserve_ok l need t :
  0 <= need <= 2 ^ 58 →
  ∃ r mem, line_reserve junk l need t = Some (r, relines (t_lines t) (t_cap t) mem t) ∧ answers t mem (is_Some r) ∧
    ∀ l', r = Some l' → ∃ ext, l' = mk_line (l_buf l ++ ext) (l_len l) ∧ need + 1 <= zlen (l_buf l ++ ext).
Proof.
  intros Hn. unfold line_reserve. rewrite u64_small by lia. pose proof (zlen_nonneg (l_buf l)).
  destruct (Z.ltb_spec (zlen (l_buf l)) (need + 1)).
  - destruct (grow_64 (if zlen (l_buf l) =? 0 then 16 else zlen (l_buf l)) (need + 1)) as (c & -> & ? & ?); [| lia |].
    { destruct (Z.eqb_spec (zlen (l_buf l)) 0); lia. }
    cbn [mbind option_bind].
    destruct (ask_ok t) as (b & mem & -> & Hm). eexists _, mem. split; [done |]. split.
    + intros E. destruct (Hm E) as [-> ->]. done.
    + intros l' E. destruct b; [| done]. injection E as <-. eexists. split; [done |].
      rewrite zlen_app, zlen_replicate by (destruct (Z.eqb_spec (zlen (l_buf l)) 0); lia). lia.
  - exists (Some l), (t_mem t). split; [by destruct t |]. split; [done |].
    intros l' [= <-]. exists []. rewrite app_nil_r. split; [by destruct l | done].
Qed.

Lemma line_init_ok s n t :
  0 <= n <= 2 ^ 58 → n <= zlen s →
  ∃ r mem, line_init junk s n t = Some (r, relines (t_lines t) (t_cap t) mem t) ∧ answers t mem (is_Some r) ∧
    ∀ l', r = Some l' → holds l' (take (Z.to_nat n) s).
Proof.
  intros Hn Hs. unfold line_init.
  destruct (line_reserve_ok (mk_line [] 0) n t Hn) as (r & mem & -> & Hm & Hr). cbn [mbind option_bind].
  destruct r as [l |]; [| exists None, mem; done].
  destruct (Hr l eq_refl) as (ext & -> & Hext). cbn [l_buf l_len app] in *.
  destruct (cut_at ext n) as (x & z & -> & Hx); [lia |].
  assert (∃ y z', z = y :: z') as (y & z' & ->).
  { destruct z; [| eauto]. rewrite zlen_app, zlen_nil in Hext. lia. }
  assert (Ht : zlen (take (Z.to_nat n) s) = n) by (apply zlen_take; lia).
  assert (E : (if n =? 0 then Some (x ++ y :: z')
               else src ← aslice s 0 n; blit (x ++ y :: z') 0 src) = Some (take (Z.to_nat n) s ++ y :: z')).
  { destruct (Z.eqb_spec n 0) as [-> | ?].
    - destruct x; [done | rewrite zlen_cons in Hx; pose proof (zlen_nonneg x); lia].
    - rewrite aslice_ok by lia. cbn [mbind option_bind]. change (Z.to_nat 0) with O. rewrite drop_0.
      by apply (blit_mid []); [| lia]. }
  rewrite E. cbn [mbind option_bind]. rewrite aset_mid by done. cbn [mbind option_bind].
  eexists _, mem. split; [done |].
  split; [by apply (answers_mono _ _ _ _ Hm) |]. intros l' [= <-]. by apply holds_mk.
Qed.

Lemma lines_reserve_ok need t :
  need <= 2 ^ 58 → zlen (t_lines t) <= t_cap t →
  ∃ b cap mem, lines_reserve need t = Some (b, relines (t_lines t) cap mem t) ∧ answers t mem (b = true) ∧
    zlen (t_lines t) <= cap ∧ (b = true → need <= cap).
Proof.
  intros Hn Hc. unfold lines_reserve. pose proof (zlen_nonneg (t_lines t)).
  destruct (Z.ltb_spec (t_cap t) need).
  - destruct (grow_64 (if t_cap t =? 0 then 32 else t_cap t) need) as (c & -> & ? & ?); [| lia |].
    { destruct (Z.eqb_spec (t_cap t) 0); lia. }
    cbn [mbind option_bind]. destruct (ask_ok t) as (b & mem & -> & Hm).
    exists b. destruct b; eexists _, mem; (split; [done |]); split_and!; try done; try lia; try (intros; lia).
  - exists true, (t_cap t), (t_mem t). split; [by destruct t |]. done.
Qed.

(** A line from [s] at [idx], or the lines as they were. *)
Lemma lines_insert_at_ok idx s n t L :
  Forall2 holds (t_lines t) L → zlen (t_lines t) <= t_cap t → weight L < 2 ^ 58 →
  0 <= n <= 2 ^ 58 → n <= zlen s → 0 <= idx <= zlen L →
  ∃ b ls cap mem, lines_insert_at junk idx s n t = Some (b, relines ls cap mem t) ∧ answers t mem (b = true) ∧ zlen ls <= cap ∧
    if b then ∃ A B lA lB l, L = A ++ B ∧ t_lines t = lA ++ lB ∧ zlen A = idx ∧ zlen lA = idx ∧ ls = lA ++ l :: lB ∧
              Forall2 holds lA A ∧ Forall2 holds lB B ∧ holds l (take (Z.to_nat n) s)
    else ls = t_lines t.
Proof.
  intros HL Hc HW Hn Hs Hi. unfold lines_insert_at, nlines. pose proof (lines_len _ _ HL) as El. pose proof (weight_len L).
  replace (_ <? idx) with false by zbool.
  destruct (lines_reserve_ok (zlen (t_lines t) + 1) t) as (b & cap & mem & -> & Hm & Hcap & Hb); [lia | done |].
  cbn [mbind option_bind]. destruct b; cbn [negb]; [| by exists false, (t_lines t), cap, mem].
  destruct (line_init_ok s n (relines (t_lines t) cap mem t) Hn Hs) as (r & mem' & -> & Hm' & Hr).
  cbn [mbind option_bind].
  assert (Ha : answers t mem' (is_Some r)) by (intros E; destruct (Hm E) as [-> _]; by apply Hm').
  destruct r as [l |].
  - specialize (Hr l eq_refl). specialize (Hb eq_refl). cbn.
    replace (cap <? _) with false by zbool.
    destruct (cut_at (t_lines t) idx) as (lA & lB & E & HlA); [lia |].
    rewrite E in HL. apply Forall2_app_inv_l in HL as (A & B & FA & FB & ->).
    exists true. eexists _, cap, mem'. split; [reflexivity |].
    split; [by apply (answers_mono _ _ _ _ Ha) |]. rewrite E, (ztake_app lA lB), (zdrop_app lA lB) by done.
    split; [rewrite E, !zlen_app in *; rewrite zlen_cons; lia |].
    assert (zlen A = idx) by (rewrite <- HlA; symmetry; by apply lines_len).
    by exists A, B, lA, lB, l.
  - exists false, (t_lines t), cap, mem'. split; [done |]. split; [| done]. intros E. destruct (Ha E) as [_ [? ?]]. done.
Qed.
End Alloc.

(** ** Applying a record *)

(** The record changed the lines as it says and gave back its inverse, or nothing
    changed; which, only memory decides. *)
Definition applies (junk : Z) (r : erec) (t : text) (L : list (list Z)) : Prop :=
  ∃ i ls cap mem, zlen ls <= cap ∧ answers t mem (i = fst <$> p_apply r L) ∧
    match i with
    | Some inv => apply_op junk r t = Some (i, changed (relines ls cap mem t)) ∧ ∃ L', p_apply r L = Some (inv, L') ∧ Forall2 holds ls L'
    | None => apply_op junk r t = Some (None, relines ls cap mem t) ∧ Forall2 holds ls L
    end.

Lemma applies_err junk r t L mem :
  apply_op junk r t = Some (None, relines (t_lines t) (t_cap t) mem t) → answers t mem (p_apply r L = None) →
  Forall2 holds (t_lines t) L → zlen (t_lines t) <= t_cap t → applies junk r t L.
Proof.
  intros E Ha ? ?. exists None, (t_lines t), (t_cap t), mem. split; [done |]. split; [| done].
  apply (answers_mono _ _ _ _ Ha). by intros ->.
Qed.

(** No such line. *)
Lemma applies_out junk r t L :
  apply_op junk r t = Some (None, t) → p_apply r L = None → Forall2 holds (t_lines t) L → zlen (t_lines t) <= t_cap t → applies junk r t L.
Proof.
  intros E ? ? ?. apply (applies_err junk r t L (t_mem t)); [| | done | done].
  - rewrite E. by destruct t.
  - done.
Qed.

Lemma take_none {A} (a : list A) n : n <= 0 → take (Z.to_nat n) a = [].
Proof. intros. by replace (Z.to_nat n) with O by lia. Qed.

Section Apply.
Context (junk : Z) (t : text) (L : list (list Z)).
Context (HL : Forall2 holds (t_lines t) L) (Hcap : zlen (t_lines t) <= t_cap t).

Lemma line_case i :
  0 <= i →
  ((nlines t <=? i) = true ∧ aget L i = None) ∨
  ((nlines t <=? i) = false ∧ ∃ s l lA lB A B, aget L i = Some s ∧ aget (t_lines t) i = Some l ∧ holds l s ∧
    t_lines t = lA ++ l :: lB ∧ L = A ++ s :: B ∧ zlen lA = i ∧ zlen A = i ∧ Forall2 holds lA A ∧ Forall2 holds lB B).
Proof.
  intros Hi. unfold nlines. destruct (zlen (t_lines t) <=? i) eqn:Eo; [left | right]; split; try done.
  - by apply (lines_out _ _ _ HL Hi).
  - destruct (aget L i) as [s |] eqn:E; [| by rewrite (proj2 (lines_out _ _ _ HL Hi) E) in Eo].
    destruct (lines_get _ _ _ _ HL E) as (l & lA & lB & A & B & ?). exists s, l, lA, lB, A, B. done.
Qed.

Lemma apply_insert i col bs n g :
  0 <= i → 0 <= col → 0 <= n <= zlen bs → weight L + n < 2 ^ 58 → applies junk (mk_erec OP_INSERT i col (Some bs) n g) t L.
Proof.
  intros Hi Hc Hn HW.
  destruct (line_case i Hi) as [[Eo En] | (Eo & s & l & lA & lB & A & B & Es & El & Hl & EA & EL & HlA & HA & FA & FB)].
  { apply applies_out; [unfold apply_op; cbn; by rewrite Eo | | done | done]. unfold p_apply, ins. cbn. by rewrite En. }
  pose proof (weight_get _ _ _ Es) as Hw. pose proof (holds_len _ _ Hl) as Hln.
  destruct (zlen s <? col) eqn:Ecol.
  { apply applies_out; [| | done | done].
    - unfold apply_op. cbn. by rewrite Eo, El; cbn; rewrite Hln, Ecol.
    - unfold p_apply, ins. cbn. rewrite Es. cbn. by rewrite Ecol. }
  destruct Hl as (rest & Hbuf & _).
  destruct (line_reserve_ok junk l (zlen s + n) t) as (r & mem & Er & Hm & Hr).
  { pose proof (zlen_nonneg s). lia. }
  assert (Hop : apply_op junk (mk_erec OP_INSERT i col (Some bs) n g) t =
    '(r, t) ← Some (r, relines (t_lines t) (t_cap t) mem t);
    match r with None => Some (None, t) | Some l =>
      tail ← aslice (l_buf l) col (l_len l - col); b ← blit (l_buf l) (col + n) tail;
      src ← aslice bs 0 n; b ← blit b col src;
      let len := l_len l + n in b ← aset b len 0;
      Some (Some (mk_erec OP_DELETE i col None n 0), changed (set_line i (mk_line b len) t)) end).
  { unfold apply_op. cbn. rewrite Eo, El. cbn. rewrite Hln, Ecol, u64_small by (pose proof (zlen_nonneg s); lia). by rewrite Er. }
  destruct r as [l' |]; [| apply (applies_err _ _ _ _ mem); [done | | done | done]].
  2: { apply (answers_mono _ _ _ _ Hm). by intros [? ?]. }
  destruct (Hr l' eq_refl) as (ext & -> & Hroom). rewrite Hbuf, Hln in *. cbn [mbind option_bind l_buf l_len] in Hop.
  destruct (cut_at s col) as (a & b & -> & Ha); [lia |].
  assert (Hroom' : n + zlen b < zlen (b ++ 0 :: rest ++ ext)).
  { rewrite ?zlen_app, ?zlen_cons, ?zlen_app in *. lia. }
  destruct (cut_at (b ++ 0 :: rest ++ ext) n) as (x & y & E1 & Hx); [pose proof (zlen_nonneg b); lia |].
  rewrite E1, zlen_app in Hroom'.
  destruct (cut_at y (zlen b)) as (y1 & y2 & -> & Hy1); [pose proof (zlen_nonneg b); lia |].
  rewrite zlen_app in Hroom'. destruct y2 as [| z y2]; [rewrite zlen_nil in Hroom'; lia |].
  assert (E2 : ((a ++ b) ++ 0 :: rest) ++ ext = a ++ b ++ 0 :: rest ++ ext) by (by rewrite <- !app_assoc).
  rewrite E2 in Hop. rewrite zlen_app, Ha in Hop.
  replace (col + zlen b - col) with (zlen b) in Hop by lia.
  rewrite (aslice_mid a b _ col (zlen b)) in Hop by done. cbn [mbind option_bind] in Hop.
  rewrite E1 in Hop. replace (a ++ x ++ y1 ++ z :: y2) with ((a ++ x) ++ y1 ++ z :: y2) in Hop by (by rewrite <- !app_assoc).
  rewrite (blit_mid (a ++ x) y1) in Hop by (rewrite ?zlen_app; lia). cbn [mbind option_bind] in Hop.
  rewrite (aslice_ok bs 0 n) in Hop by lia. change (Z.to_nat 0) with O in Hop. rewrite drop_0 in Hop. cbn [mbind option_bind] in Hop.
  assert (Hbs : zlen (take (Z.to_nat n) bs) = n) by (apply zlen_take; lia).
  rewrite <- (app_assoc a x) in Hop. rewrite (blit_mid a x) in Hop by lia. cbn [mbind option_bind] in Hop.
  replace (a ++ take (Z.to_nat n) bs ++ b ++ z :: y2) with ((a ++ take (Z.to_nat n) bs ++ b) ++ z :: y2) in Hop by (by rewrite <- !app_assoc).
  rewrite aset_mid in Hop by (rewrite !zlen_app; lia). cbn [mbind option_bind] in Hop.
  assert (Ep : p_apply (mk_erec OP_INSERT i col (Some bs) n g) L =
    Some (mk_erec OP_DELETE i col None n 0, A ++ (a ++ take (Z.to_nat n) bs ++ b) :: B)).
  { unfold p_apply, ins. cbn. rewrite Es, EL. cbn. rewrite Ecol, (ztake_app a b), (zdrop_app a b) by done. cbn.
    do 2 f_equal. by apply (put_mid A [a ++ b] B). }
  unfold set_line, with_lines in Hop. cbn [t_lines relines] in Hop. rewrite EA in Hop.
  rewrite (set_mid lA l lB) in Hop by done. eexists (Some _), _, (t_cap t), mem.
  split; [| split; [| split; [exact Hop | eexists; split; [exact Ep |]]]].
  - rewrite EA, zlen_app, zlen_cons in Hcap. by rewrite zlen_app, zlen_cons.
  - apply (answers_mono _ _ _ _ Hm). by rewrite Ep.
  - apply Forall2_app; [done |]. constructor; [| done]. apply holds_mk; [rewrite !zlen_app; lia | done].
Qed.
Lemma apply_delete i col bs n g :
  0 <= i → 0 <= col → 0 <= n → applies junk (mk_erec OP_DELETE i col bs n g) t L.
Proof.
  intros Hi Hc Hn.
  destruct (line_case i Hi) as [[Eo En] | (Eo & s & l & lA & lB & A & B & Es & El & Hl & EA & EL & HlA & HA & FA & FB)].
  { apply applies_out; [unfold apply_op; cbn; by rewrite Eo | | done | done]. unfold p_apply. cbn. by rewrite En. }
  pose proof (holds_len _ _ Hl) as Hln.
  destruct (zlen s <? col) eqn:Ecol.
  { apply applies_out; [| | done | done].
    - unfold apply_op. cbn. by rewrite Eo, El; cbn; rewrite Hln, Ecol.
    - unfold p_apply, del. cbn. rewrite Es. cbn. by rewrite Ecol. }
  destruct Hl as (rest & Hbuf & _). destruct (ask_ok t) as (ok & mem & Ea & Hm).
  destruct (cut_at s col) as (a & b & -> & Ha); [lia |].
  set (nn := if zlen b <? n then zlen b else n).
  assert (Hop : apply_op junk (mk_erec OP_DELETE i col bs n g) t =
    let t := relines (t_lines t) (t_cap t) mem t in
    if negb ok then Some (None, t) else
    cut ← aslice ((a ++ b) ++ 0 :: rest) col nn; tail ← aslice ((a ++ b) ++ 0 :: rest) (col + nn) (zlen b - nn);
    b' ← blit ((a ++ b) ++ 0 :: rest) col tail; let len := zlen (a ++ b) - nn in b' ← aset b' len 0;
    Some (Some (mk_erec OP_INSERT i col (Some cut) nn 0), changed (set_line i (mk_line b' len) t))).
  { unfold apply_op. cbn. rewrite Eo, El. cbn. rewrite Hln, Ecol, Hbuf, Ea.
    replace (zlen (a ++ b) - col) with (zlen b) by (rewrite zlen_app; lia). done. }
  destruct ok; [| apply (applies_err _ _ _ _ mem); [done | | done | done]].
  2: { by apply (answers_mono _ _ _ _ Hm). }
  assert (Hnn : 0 <= nn <= zlen b) by (subst nn; pose proof (zlen_nonneg b); destruct (Z.ltb_spec (zlen b) n); lia).
  assert (Ecut : take (Z.to_nat n) b = take (Z.to_nat nn) b).
  { subst nn. destruct (Z.ltb_spec (zlen b) n); [| done]. unfold zlen in *. rewrite !take_ge by lia. done. }
  assert (Edrop : drop (Z.to_nat n) b = drop (Z.to_nat nn) b).
  { subst nn. destruct (Z.ltb_spec (zlen b) n); [| done]. unfold zlen in *. rewrite !drop_ge by lia. done. }
  clearbody nn. destruct (cut_at b nn) as (x & y & -> & Hx); [lia |].
  assert (Ep : p_apply (mk_erec OP_DELETE i col bs n g) L =
    Some (mk_erec OP_INSERT i col (Some x) nn 0, A ++ (a ++ y) :: B)).
  { unfold p_apply, del. cbn. rewrite Es, EL. cbn. rewrite Ecol, (ztake_app a (x ++ y)), (zdrop_app a (x ++ y)) by done. cbn.
    rewrite Ecut, (ztake_app x y), Hx by done. rewrite Z2Nat.inj_add, <- drop_drop, (zdrop_app a), Edrop, (zdrop_app x) by lia.
    do 2 f_equal. by apply (put_mid A [a ++ x ++ y] B). }
  cbn [negb] in Hop. cbv zeta in Hop.
  replace ((a ++ x ++ y) ++ 0 :: rest) with (a ++ x ++ y ++ 0 :: rest) in Hop by (by rewrite <- !app_assoc).
  rewrite (aslice_mid a x _ col nn) in Hop by done. cbn [mbind option_bind] in Hop.
  replace (a ++ x ++ y ++ 0 :: rest) with ((a ++ x) ++ y ++ 0 :: rest) in Hop by (by rewrite <- !app_assoc).
  rewrite (aslice_mid (a ++ x) y) in Hop by (rewrite ?zlen_app; lia). cbn [mbind option_bind] in Hop.
  destruct (cut_at (x ++ y) (zlen y)) as (p & q & Epq & Hp); [rewrite zlen_app; pose proof (zlen_nonneg y); lia |].
  assert (Hq : zlen q = nn) by (apply (f_equal zlen) in Epq; rewrite !zlen_app in Epq; lia).
  replace ((a ++ x) ++ y ++ 0 :: rest) with (a ++ p ++ q ++ 0 :: rest) in Hop
    by (rewrite (app_assoc p q), <- Epq, <- !app_assoc; done).
  rewrite (blit_mid a p) in Hop by lia. cbn [mbind option_bind] in Hop.
  assert (∃ z zs, q ++ 0 :: rest = z :: zs) as (z & zs & Ez) by (destruct q; cbn; eauto).
  rewrite Ez in Hop. replace (a ++ y ++ z :: zs) with ((a ++ y) ++ z :: zs) in Hop by (by rewrite <- !app_assoc).
  rewrite aset_mid in Hop by (rewrite !zlen_app; lia). cbn [mbind option_bind] in Hop.
  unfold set_line, with_lines in Hop. cbn [t_lines relines] in Hop. rewrite EA in Hop.
  rewrite (set_mid lA l lB) in Hop by done. eexists (Some _), _, (t_cap t), mem.
  split; [| split; [| split; [exact Hop | eexists; split; [exact Ep |]]]].
  - rewrite EA, zlen_app, zlen_cons in Hcap. by rewrite zlen_app, zlen_cons.
  - apply (answers_mono _ _ _ _ Hm). by rewrite Ep.
  - apply Forall2_app; [done |]. constructor; [| done]. apply holds_mk; [rewrite !zlen_app; lia | done].
Qed.

Lemma apply_split i col bs n g :
  0 <= i → 0 <= col → weight L < 2 ^ 58 → applies junk (mk_erec OP_SPLIT i col bs n g) t L.
Proof.
  intros Hi Hc HW.
  destruct (line_case i Hi) as [[Eo En] | (Eo & s & l & lA & lB & A & B & Es & El & Hl & EA & EL & HlA & HA & FA & FB)].
  { apply applies_out; [unfold apply_op; cbn; by rewrite Eo | | done | done]. unfold p_apply, spl. cbn. by rewrite En. }
  pose proof (weight_get _ _ _ Es) as Hw. pose proof (holds_len _ _ Hl) as Hln.
  destruct (zlen s <? col) eqn:Ecol.
  { apply applies_out; [| | done | done].
    - unfold apply_op. cbn. by rewrite Eo, El; cbn; rewrite Hln, Ecol.
    - unfold p_apply, spl. cbn. rewrite Es. cbn. by rewrite Ecol. }
  destruct Hl as (rest & Hbuf & _). destruct (cut_at s col) as (a & b & -> & Ha); [lia |].
  assert (Eb : zlen (a ++ b) - col = zlen b) by (rewrite zlen_app; lia).
  destruct (lines_insert_at_ok junk (i + 1) b (zlen b) t L HL Hcap HW) as (ok & ls & cap & mem & Ei & Hm & Hlc & Hls).
  { rewrite zlen_app in Hw. pose proof (zlen_nonneg a). pose proof (zlen_nonneg b). lia. }
  { lia. }
  { rewrite EL, zlen_app, zlen_cons. pose proof (zlen_nonneg B). lia. }
  assert (Hop : apply_op junk (mk_erec OP_SPLIT i col bs n g) t =
    let t := relines ls cap mem t in
    if negb ok then Some (None, t) else
    l ← aget (t_lines t) i; b ← aset (l_buf l) col 0;
    Some (Some (mk_erec OP_JOIN i 0 None 0 0), changed (set_line i (mk_line b col) t))).
  { unfold apply_op. cbn. rewrite Eo, El. cbn. rewrite Hln, Ecol, Hbuf, Eb.
    replace ((a ++ b) ++ 0 :: rest) with (a ++ b ++ 0 :: rest) by (by rewrite <- !app_assoc).
    rewrite (aslice_mid a b) by done. cbn. by rewrite Ei. }
  assert (Ep : p_apply (mk_erec OP_SPLIT i col bs n g) L = Some (mk_erec OP_JOIN i 0 None 0 0, A ++ a :: b :: B)).
  { unfold p_apply, spl. cbn. rewrite Es, EL. cbn. rewrite Ecol, (ztake_app a b), (zdrop_app a b) by done. cbn.
    do 2 f_equal. by apply (put_mid A [a ++ b] B). }
  destruct ok; cbn [negb] in Hop.
  2: { subst ls. exists None, (t_lines t), cap, mem. split; [done |]. split; [| done].
       by apply (answers_mono _ _ _ _ Hm). }
  destruct Hls as (A' & B' & lA' & lB' & l' & EL' & EA' & HA' & HlA' & -> & FA' & FB' & Hl').
  assert (lA' = lA ++ [l] ∧ lB' = lB) as [-> ->].
  { rewrite EA in EA'. replace (lA ++ l :: lB) with ((lA ++ [l]) ++ lB) in EA' by (by rewrite <- app_assoc).
    apply app_inj_1 in EA' as [-> ->]; [done |]. unfold zlen in *. rewrite length_app. simpl. lia. }
  cbv zeta in Hop. cbn [t_lines relines] in Hop. rewrite <- app_assoc in Hop. cbn [app] in Hop.
  rewrite (aget_mid lA l) in Hop by done. cbn [mbind option_bind] in Hop. rewrite Hbuf in Hop.
  assert (∃ z zs, b ++ 0 :: rest = z :: zs) as (z & zs & Ez) by (destruct b; cbn; eauto).
  rewrite <- app_assoc, Ez, (aset_mid a z) in Hop by done. cbn [mbind option_bind] in Hop.
  unfold set_line, with_lines in Hop. cbn [t_lines relines] in Hop.
  rewrite (set_mid lA l) in Hop by done. eexists (Some _), _, cap, mem.
  split; [| split; [| split; [exact Hop | eexists; split; [exact Ep |]]]].
  - rewrite !zlen_app, !zlen_cons, zlen_nil in Hlc. rewrite zlen_app, !zlen_cons. lia.
  - apply (answers_mono _ _ _ _ Hm). by rewrite Ep.
  - apply Forall2_app; [done |]. constructor; [by apply holds_mk |]. constructor; [| done].
    rewrite <- (ztake_app b [] (zlen b)), app_nil_r by done. done.
Qed.

Lemma apply_join i col bs n g :
  0 <= i < 2 ^ 64 - 1 → weight L < 2 ^ 58 → applies junk (mk_erec OP_JOIN i col bs n g) t L.
Proof.
  intros Hi HW.
  destruct (line_case (i + 1)) as [[Eo En] | (Eo & s2 & l2 & lA2 & lB & A2 & B & Es2 & El2 & Hl2 & EA2 & EL2 & HlA2 & HA2 & FA2 & FB)]; [lia | |].
  { apply applies_out; [unfold apply_op; cbn; by rewrite u64_small, Eo by lia | | done | done].
    unfold p_apply, joi. cbn. destruct (aget L i); [cbn; by rewrite En | done]. }
  destruct (line_case i) as [[Eo' En'] | (_ & s & l & lA & lB1 & A & B1 & Es & El & Hl & EA & EL & HlA & HA & FA & FB1)]; [lia | exfalso; lia |].
  pose proof (weight_get _ _ _ Es) as Hw. pose proof (holds_len _ _ Hl) as Hln. pose proof (holds_len _ _ Hl2) as Hln2.
  assert (Ed : lA2 = lA ++ [l] ∧ lB1 = l2 :: lB).
  { rewrite EA in EA2. replace (lA ++ l :: lB1) with ((lA ++ [l]) ++ lB1) in EA2 by (by rewrite <- app_assoc).
    apply app_inj_1 in EA2 as [-> ->]; [done |]. unfold zlen in *. rewrite length_app. simpl. lia. }
  destruct Ed as [-> ->]. clear EA2 HlA2 FA2.
  assert (Ed : A2 = A ++ [s] ∧ B1 = s2 :: B).
  { rewrite EL in EL2. replace (A ++ s :: B1) with ((A ++ [s]) ++ B1) in EL2 by (by rewrite <- app_assoc).
    apply app_inj_1 in EL2 as [-> ->]; [done |]. unfold zlen in *. rewrite length_app. simpl. lia. }
  destruct Ed as [-> ->]. clear EL2 HA2.
  assert (Hws : zlen s + zlen s2 <= 2 ^ 58).
  { rewrite EL, weight_app in HW. simpl in HW. pose proof (weight_nonneg A). pose proof (weight_nonneg B). lia. }
  assert (Ep : p_apply (mk_erec OP_JOIN i col bs n g) L = Some (mk_erec OP_SPLIT i (zlen s) None 0 0, A ++ (s ++ s2) :: B)).
  { unfold p_apply, joi. cbn. rewrite Es, Es2, EL. cbn. do 2 f_equal. by apply (put_mid A [s; s2] B). }
  assert (Hdel : ∀ l', delete (Z.to_nat (i + 1)) (lA ++ l' :: l2 :: lB) = lA ++ l' :: lB).
  { intros l'. replace (lA ++ l' :: l2 :: lB) with ((lA ++ [l']) ++ l2 :: lB) by (by rewrite <- app_assoc).
    replace (Z.to_nat (i + 1)) with (length (lA ++ [l'])) by (unfold zlen in *; rewrite length_app; simpl; lia).
    by rewrite delete_middle, <- app_assoc. }
  assert (Hlen : ∀ l', zlen (lA ++ l' :: lB) <= t_cap t).
  { intros l'. rewrite EA, zlen_app, !zlen_cons in Hcap. rewrite zlen_app, zlen_cons. lia. }
  assert (Hdone : ∀ l' mem, holds l' (s ++ s2) → answers t mem True →
    apply_op junk (mk_erec OP_JOIN i col bs n g) t =
      Some (Some (mk_erec OP_SPLIT i (zlen s) None 0 0), changed (lines_remove_at (i + 1) (relines (lA ++ l' :: l2 :: lB) (t_cap t) mem t))) →
    applies junk (mk_erec OP_JOIN i col bs n g) t L).
  { intros l' mem Hl' Hm Hop. unfold lines_remove_at, nlines in Hop. cbn [t_lines relines] in Hop.
    replace (zlen _ <=? i + 1) with false in Hop
      by (unfold nlines in Eo; rewrite EA in Eo; rewrite !zlen_app, !zlen_cons in *; done).
    unfold with_lines in Hop. cbn [t_lines relines] in Hop. rewrite Hdel in Hop.
    eexists (Some _), _, (t_cap t), mem. split; [apply (Hlen l') |].
    split; [by apply (answers_mono _ _ _ _ Hm); rewrite Ep | split; [exact Hop | eexists; split; [exact Ep |]]].
    apply Forall2_app; [done |]. by constructor. }
  destruct Hl as (rest & Hbuf & _), Hl2 as (rest2 & Hbuf2 & _).
  destruct (Z.eqb_spec (zlen s2) 0) as [E0 | Hne].
  { destruct s2; [| rewrite zlen_cons in E0; pose proof (zlen_nonneg s2); lia].
    apply (Hdone l (t_mem t)); [exists rest; by rewrite app_nil_r | done |].
    unfold apply_op. cbn. rewrite u64_small, Eo, El, El2 by lia. cbn. rewrite Hln2, Hln. cbn.
    do 2 f_equal. f_equal. rewrite <- EA. by destruct t. }
  destruct (line_reserve_ok junk l (zlen s + zlen s2) t) as (r & mem & Er & Hm & Hr).
  { pose proof (zlen_nonneg s). pose proof (zlen_nonneg s2). lia. }
  assert (Hop : apply_op junk (mk_erec OP_JOIN i col bs n g) t =
    let t := relines (t_lines t) (t_cap t) mem t in
    match r with None => Some (None, t) | Some l' =>
      b ← blit (l_buf l') (l_len l') s2; b ← aset b (l_len l' + zlen s2) 0;
      Some (Some (mk_erec OP_SPLIT i (zlen s) None 0 0), changed (lines_remove_at (i + 1) (set_line i (mk_line b (l_len l' + zlen s2)) t))) end).
  { unfold apply_op. cbn. rewrite u64_small, Eo, El, El2 by lia. cbn.
    rewrite Hln2, Hln. replace (zlen s2 =? 0) with false by (symmetry; by apply Z.eqb_neq). rewrite Er. cbn.
    destruct r; [| done]. by rewrite Hbuf2, aslice_head. }
  destruct r as [l' |]; [| apply (applies_err _ _ _ _ mem); [done | | done | done]].
  2: { apply (answers_mono _ _ _ _ Hm). by intros [? ?]. }
  destruct (Hr l' eq_refl) as (ext & -> & Hroom). cbv zeta in Hop. cbn [l_buf l_len] in Hop. rewrite Hln, Hbuf in Hop.
  rewrite Hbuf, <- app_assoc, zlen_app in Hroom. rewrite <- app_assoc in Hop.
  destruct (cut_at ((0 :: rest) ++ ext) (zlen s2)) as (x & y & Exy & Hx); [pose proof (zlen_nonneg s2); lia |].
  rewrite Exy in Hop, Hroom. rewrite zlen_app in Hroom.
  destruct y as [| z y]; [rewrite zlen_nil in Hroom; lia |].
  rewrite (blit_mid s x) in Hop by done. cbn [mbind option_bind] in Hop.
  rewrite app_assoc, aset_mid in Hop by (by rewrite zlen_app). cbn [mbind option_bind] in Hop.
  unfold set_line, with_lines in Hop. cbn [t_lines relines] in Hop. rewrite EA, (set_mid lA l) in Hop by done.
  eapply (Hdone _ mem); [| by apply (answers_mono _ _ _ _ Hm) | exact Hop].
  apply holds_mk; [by rewrite zlen_app | done].
Qed.
End Apply.

(** Any record. *)
Lemma apply_op_ok junk r t L :
  rec_ok r → Forall2 holds (t_lines t) L → zlen (t_lines t) <= t_cap t → weight L + cost r < 2 ^ 58 → applies junk r t L.
Proof.
  intros (Hi & Hc & Hn & Hs) HL Hcap HW. pose proof (weight_nonneg L). destruct r as [o i col bs n g].
  unfold cost in HW. cbn in *. destruct o.
  - destruct Hs as (s & -> & Hs); [done |]. apply apply_insert; (done || lia).
  - apply apply_delete; (done || lia).
  - apply apply_split; (done || lia).
  - apply apply_join; (done || lia).
Qed.

(** ** A record and its inverse *)

(** The record [r] takes the first lines to the second, [inv] the second back. *)
Inductive changes (A B : list (list Z)) : erec → erec → list (list Z) → list (list Z) → Prop :=
  | ch_insert a x b bs n g :
      zlen x = n → take (Z.to_nat n) bs = x →
      changes A B (mk_erec OP_INSERT (zlen A) (zlen a) (Some bs) n g) (mk_erec OP_DELETE (zlen A) (zlen a) None n 0)
        (A ++ (a ++ b) :: B) (A ++ (a ++ x ++ b) :: B)
  | ch_delete a x b bs n g :
      0 <= n → take (Z.to_nat n) (x ++ b) = x → drop (Z.to_nat n) (x ++ b) = b →
      changes A B (mk_erec OP_DELETE (zlen A) (zlen a) bs n g) (mk_erec OP_INSERT (zlen A) (zlen a) (Some x) (zlen x) 0)
        (A ++ (a ++ x ++ b) :: B) (A ++ (a ++ b) :: B)
  | ch_split a b bs n g :
      changes A B (mk_erec OP_SPLIT (zlen A) (zlen a) bs n g) (mk_erec OP_JOIN (zlen A) 0 None 0 0)
        (A ++ (a ++ b) :: B) (A ++ a :: b :: B)
  | ch_join a b col bs n g :
      changes A B (mk_erec OP_JOIN (zlen A) col bs n g) (mk_erec OP_SPLIT (zlen A) (zlen a) None 0 0)
        (A ++ a :: b :: B) (A ++ (a ++ b) :: B).

Lemma zlen_short {A} (a b : list A) : (zlen (a ++ b) <? zlen a) = false.
Proof. rewrite zlen_app. pose proof (zlen_nonneg b). zbool. Qed.

Lemma aget_next {A} (L : list A) a b B : aget (L ++ a :: b :: B) (zlen L + 1) = Some b.
Proof.
  replace (L ++ a :: b :: B) with ((L ++ [a]) ++ b :: B) by (by rewrite <- app_assoc).
  apply aget_mid. by rewrite zlen_app.
Qed.

Lemma changes_apply A B r inv L L' : changes A B r inv L L' → p_apply r L = Some (inv, L').
Proof.
  destruct 1 as [a x b bs n g Hx Ex | a x b bs n g Hn Ex Eb | a b bs n g | a b col bs n g]; unfold p_apply, ins, del, spl, joi; cbn.
  - rewrite aget_mid by done. cbn. rewrite zlen_short. cbn. by rewrite put_one, ztake_app, zdrop_app, Ex.
  - rewrite aget_mid by done. cbn. rewrite zlen_short. cbn. rewrite put_one, ztake_app by done.
    pose proof (zlen_nonneg a). rewrite Z2Nat.inj_add, <- drop_drop, (zdrop_app a) by (done || lia). by rewrite Ex, Eb.
  - rewrite aget_mid by done. cbn. rewrite zlen_short. cbn. by rewrite put_one, ztake_app, zdrop_app.
  - rewrite (aget_mid A a _ (zlen A)), aget_next by done. cbn. by rewrite put_two.
Qed.

Lemma apply_changes r L inv L' : rec_ok r → p_apply r L = Some (inv, L') → ∃ A B, changes A B r inv L L'.
Proof.
  intros (Hi & Hc & Hn & Hs) E. destruct r as [o i col bs n g]. cbn in *.
  destruct (aget L i) as [l |] eqn:El.
  2: { exfalso. revert E. unfold p_apply, ins, del, spl, joi. cbn. rewrite El. destruct o; [| done..].
       by destruct bs. }
  apply cut_elem in El as (A & B & -> & <-).
  destruct (decide (o = OP_JOIN)) as [-> |].
  { destruct B as [| b B].
    - exfalso. revert E. unfold p_apply, joi. cbn. rewrite (aget_mid A l _ (zlen A)) by done. cbn.
      replace (aget (A ++ [l]) (zlen A + 1)) with (@None (list Z)); [done |].
      symmetry. apply aget_None. unfold zlen. rewrite length_app. simpl. lia.
    - exists A, B. pose proof (ch_join A B l b col bs n g) as Hch. pose proof (changes_apply _ _ _ _ _ _ Hch) as E'.
      rewrite E' in E. by injection E as <- <-. }
  destruct (decide (col <= zlen l)) as [Hcol |].
  2: { exfalso. revert E. unfold p_apply, ins, del, spl. cbn. rewrite aget_mid by done. cbn.
       replace (zlen l <? col) with true by zbool. destruct o; [by destruct bs | done..]. }
  destruct (cut_at l col) as (a & b & -> & <-); [lia |]. exists A, B.
  assert (∃ inv' L'', changes A B (mk_erec o (zlen A) (zlen a) bs n g) inv' (A ++ (a ++ b) :: B) L'') as (inv' & L'' & Hch).
  { destruct o; [| | | done].
    - destruct Hs as (s & -> & Hs); [done |]. eexists _, _. apply ch_insert; [| done]. apply zlen_take. lia.
    - rewrite <- (take_drop (Z.to_nat n) b). eexists _, _. by apply ch_delete; [| rewrite take_drop..].
    - eexists _, _. apply ch_split. }
  rewrite (changes_apply _ _ _ _ _ _ Hch) in E. by injection E as <- <-.
Qed.

Lemma changes_back A B r inv L L' :
  changes A B r inv L L' →
  ∃ r', changes A B inv r' L' L ∧ group r' = 0 ∧ changes A B r' inv L L' ∧ cursor_after r' inv = cursor_after r inv.
Proof.
  intros [a x b bs n g <- Ex | a x b bs n g Hn Ex Eb | a b bs n g | a b col bs n g].
  - exists (mk_erec OP_INSERT (zlen A) (zlen a) (Some x) (zlen x) 0). split_and!; try done.
    + apply ch_delete; [apply zlen_nonneg | by apply ztake_app | by apply zdrop_app].
    + apply ch_insert; [done |]. rewrite <- (app_nil_r x) at 2. by apply ztake_app.
  - exists (mk_erec OP_DELETE (zlen A) (zlen a) None (zlen x) 0). split_and!; try done.
    + apply ch_insert; [done |]. rewrite <- (app_nil_r x) at 2. by apply ztake_app.
    + apply ch_delete; [apply zlen_nonneg | by apply ztake_app | by apply zdrop_app].
  - exists (mk_erec OP_SPLIT (zlen A) (zlen a) None 0 0). split_and!; [apply ch_join | done | apply ch_split | done].
  - exists (mk_erec OP_JOIN (zlen A) 0 None 0 0). split_and!; [apply ch_split | done | apply ch_join | done].
Qed.

Lemma changes_ok A B r inv L L' :
  rec_ok r → changes A B r inv L L' → zlen L < 2 ^ 58 →
  rec_ok inv ∧ group inv = 0 ∧ weight L' + cost inv <= weight L + cost r.
Proof.
  intros Hr Hch HL. pose proof (zlen_nonneg A).
  assert (zlen A < 2 ^ 64 - 1).
  { destruct Hch; rewrite zlen_app, !zlen_cons in HL; pose proof (zlen_nonneg B); lia. }
  unfold rec_ok. destruct Hch as [a x b bs n g <- Ex | a x b bs n g Hn Ex Eb | a b bs n g | a b col bs n g];
    pose proof (zlen_nonneg a); try pose proof (zlen_nonneg x); unfold cost; rewrite !weight_app; cbn; rewrite ?zlen_app;
    split_and!; try done; try lia.
  intros _. by exists x.
Qed.

Lemma p_apply_inverse r L inv L' :
  rec_ok r → p_apply r L = Some (inv, L') → zlen L < 2 ^ 58 →
  (rec_ok inv ∧ group inv = 0 ∧ weight L' + cost inv <= weight L + cost r) ∧
  ∃ r', p_apply inv L' = Some (r', L) ∧ group r' = 0 ∧ p_apply r' L = Some (inv, L') ∧ cursor_after r' inv = cursor_after r inv.
Proof.
  intros Hr (A & B & Hch)%apply_changes HL; [| done]. split; [by apply (changes_ok A B) |].
  destruct (changes_back A B r inv L L' Hch) as (r' & H1 & ? & H2 & ?).
  exists r'. split_and!; try done; by apply changes_apply with A B.
Qed.
