(* ===== verification/TextSpec.v ===== *)
(** * What an editor's text is

    The lines it has now, the versions before them and those undone, each with the
    places the cursor goes to; and what every operation of [Text] does to these. *)

From S2P Require Import Prelude Tile Text TextEdit.

(** A version to go to: its step's group, its lines, the place of the cursor there,
    and its place after coming back. *)
Record version := mk_version { v_group : Z; v_lines : list (list Z); v_to : Z * Z; v_from : Z * Z }.

(** [typing] is where the insertion that a next one may go on with ended. *)
Record edoc := mk_edoc {
  cur : list (list Z); past : list version; future : list version; typing : option (Z * Z);
  d_final : bool; d_dirty : bool; d_group : Z; d_depth : Z; d_seq : Z;
}.

Inductive ecmd :=
  | EInsert (line col : Z) (s : list Z) (n : Z) | EDelete (line col n : Z) | ESplit (line col : Z) | EJoin (line : Z)
  | EUndo | ERedo | EBoundary | EBegin | EEnd | ELoad (f : source) | ESave (f : sink).

(** OK or ERR; the place of the cursor, none for ERR; what is in the file saved to. *)
Inductive eres := RDone (ok : bool) | RMoved (c : option (Z * Z)) | RSaved (ok : bool) (out : option (list Z)).

(** ** Edits *)

Definition recorded (to from : Z * Z) (L : list (list Z)) (d : edoc) : edoc :=
  {| d with cur := L; past := mk_version (d_group d) (cur d) to from :: past d; future := []; typing := None; d_dirty := true |}.

Definition doc_insert (line col : Z) (s : list Z) (n : Z) (d : edoc) : eres * edoc :=
  match ins line col (take (Z.to_nat n) s) (cur d) with
  | None => (RDone false, d)
  | Some L =>
      if n =? 0 then (RDone true, d) else
      let stop := (line, col + n) in
      let d' :=
        match past d with
        | v :: p =>
            if bool_decide (typing d = Some (line, col))
            then {| d with cur := L; past := {| v with v_from := stop |} :: p; future := []; d_dirty := true |}
            else recorded (line, col) stop L d
        | [] => recorded (line, col) stop L d
        end in
      (RDone true, {| d' with typing := Some stop |})
  end.

Definition doc_delete (line col n : Z) (d : edoc) : eres * edoc :=
  match aget (cur d) line with
  | Some l =>
      if zlen l <? col then (RDone false, d) else
      if (n =? 0) || (col =? zlen l) then (RDone true, d) else
      (RDone true, recorded (line, Z.min (col + n) (zlen l)) (line, col) (default [] (del line col n (cur d))) d)
  | None => (RDone false, d)
  end.

Definition doc_split (line col : Z) (d : edoc) : eres * edoc :=
  match spl line col (cur d) with
  | Some L => (RDone true, recorded (line, col) (line + 1, 0) L d)
  | None => (RDone false, d)
  end.

Definition doc_join (line : Z) (d : edoc) : eres * edoc :=
  match aget (cur d) line, joi line (cur d) with
  | Some l, Some L => (RDone true, recorded (line + 1, 0) (line, zlen l) L d)
  | _, _ => (RDone false, d)
  end.

(** ** History *)

(** The way back, once at [v] from [L]. *)
Definition turned (v : version) (L : list (list Z)) : version := mk_version (v_group v) L (v_from v) (v_to v).

(** On to the versions of the same group. *)
Fixpoint walk (g : Z) (c : Z * Z) (from : list version) (L : list (list Z)) (to : list version) :
    (Z * Z) * list version * list (list Z) * list version :=
  match from with
  | v :: from' =>
      if negb (g =? 0) && (v_group v =? g) then walk g (v_to v) from' (v_lines v) (turned v L :: to) else (c, from, L, to)
  | [] => (c, from, L, to)
  end.

Definition doc_undo (d : edoc) : eres * edoc :=
  match past d with
  | [] => (RMoved None, {| d with typing := None |})
  | v :: p =>
      let '(c, p, L, f) := walk (v_group v) (v_to v) p (v_lines v) (turned v (cur d) :: future d) in
      (RMoved (Some c), {| d with cur := L; past := p; future := f; typing := None; d_dirty := true |})
  end.

Definition doc_redo (d : edoc) : eres * edoc :=
  match future d with
  | [] => (RMoved None, {| d with typing := None |})
  | v :: f =>
      let '(c, f, L, p) := walk (v_group v) (v_to v) f (v_lines v) (turned v (cur d) :: past d) in
      (RMoved (Some c), {| d with cur := L; past := p; future := f; typing := None; d_dirty := true |})
  end.

(** Between the outermost begin and its end, edits have a group of their own. *)
Definition doc_begin (d : edoc) : edoc :=
  let d := if d_depth d =? 0 then {| d with d_seq := u32 (d_seq d + 1); d_group := u32 (d_seq d + 1) |} else d in
  {| d with d_depth := u32 (d_depth d + 1); typing := None |}.

Definition doc_end (d : edoc) : edoc :=
  let n := if 0 <? d_depth d then d_depth d - 1 else d_depth d in
  {| d with d_depth := n; d_group := if n =? 0 then 0 else d_group d; typing := None |}.

(** ** Files *)

(** A newline between the lines, and after the last if [fin]. *)
Fixpoint print_lines (fin : bool) (L : list (list Z)) : list Z :=
  match L with
  | [] => []
  | l :: L => l ++ (if negb (bool_decide (L = [])) || fin then [NEWLINE] else []) ++ print_lines fin L
  end.

(** The lines [acc ++ data] has, and what is after the last newline. *)
Fixpoint cut_lines (acc data : list Z) : list (list Z) * list Z :=
  match data with
  | [] => ([], acc)
  | c :: data =>
      if c =? NEWLINE then let '(L, rest) := cut_lines [] data in (acc :: L, rest) else cut_lines (acc ++ [c]) data
  end.

Definition parse_lines (data : list Z) : list (list Z) :=
  let '(L, rest) := cut_lines [] data in
  match L ++ (if bool_decide (rest = []) then [] else [rest]) with [] => [[]] | L => L end.

Definition ends_line (data : list Z) : bool := bool_decide (last data = Some NEWLINE).

Definition doc_load (f : source) (d : edoc) : eres * edoc :=
  if opens f && negb (read_error f) then
    (RDone true, mk_edoc (parse_lines (data f)) [] [] None (ends_line (data f)) false 0 0 (d_seq d))
  else (RDone false, d).

Definition doc_save (f : sink) (d : edoc) : eres * edoc :=
  let out := print_lines (d_final d) (cur d) in
  let ok := creates f && (zlen out <=? room f) && closes f in
  (RSaved ok (if creates f then Some (take (Z.to_nat (room f)) out) else None), if ok then {| d with d_dirty := false |} else d).

Definition doc_new : edoc := mk_edoc [[]] [] [] None false false 0 0 0.

Definition doc_step (c : ecmd) (d : edoc) : eres * edoc :=
  match c with
  | EInsert line col s n => doc_insert line col s n d
  | EDelete line col n => doc_delete line col n d
  | ESplit line col => doc_split line col d
  | EJoin line => doc_join line d
  | EUndo => doc_undo d
  | ERedo => doc_redo d
  | EBoundary => (RDone true, {| d with typing := None |})
  | EBegin => (RDone true, doc_begin d)
  | EEnd => (RDone true, doc_end d)
  | ELoad f => doc_load f d
  | ESave f => doc_save f d
  end.

Fixpoint doc_run (cs : list ecmd) (d : edoc) : list eres * edoc :=
  match cs with
  | [] => ([], d)
  | c :: cs => let '(r, d) := doc_step c d in let '(rs, d) := doc_run cs d in (r :: rs, d)
  end.

(** ** The same commands to the code *)

Section Run.
Context (junk : Z).

Definition text_step (c : ecmd) (t : text) : option (eres * text) :=
  match c with
  | EInsert line col s n => '(ok, t) ← text_insert junk line col s n t; Some (RDone ok, t)
  | EDelete line col n => '(ok, t) ← text_delete junk line col n t; Some (RDone ok, t)
  | ESplit line col => '(ok, t) ← text_split junk line col t; Some (RDone ok, t)
  | EJoin line => '(ok, t) ← text_join junk line t; Some (RDone ok, t)
  | EUndo => '(c, t) ← text_undo junk t; Some (RMoved c, t)
  | ERedo => '(c, t) ← text_redo junk t; Some (RMoved c, t)
  | EBoundary => Some (RDone true, text_undo_boundary t)
  | EBegin => Some (RDone true, text_undo_group_begin t)
  | EEnd => Some (RDone true, text_undo_group_end t)
  | ELoad f => '(ok, t) ← text_load junk f t; Some (RDone ok, t)
  | ESave f => '(ok, out, t) ← text_save f t; Some (RSaved ok out, t)
  end.

Fixpoint text_run (cs : list ecmd) (t : text) : option (list eres * text) :=
  match cs with
  | [] => Some ([], t)
  | c :: cs => '(r, t) ← text_step c t; '(rs, t) ← text_run cs t; Some (r :: rs, t)
  end.
End Run.

(** ** The numbers *)

(** The arguments are sizes, and the bytes are there; no line is [SIZE_MAX]. *)
Definition cmd_ok (c : ecmd) : Prop :=
  match c with
  | EInsert line col s n => 0 <= line < 2 ^ 64 - 1 ∧ 0 <= col ∧ 0 <= n <= zlen s
  | EDelete line col n => 0 <= line < 2 ^ 64 - 1 ∧ 0 <= col ∧ 0 <= n
  | ESplit line col => 0 <= line < 2 ^ 64 - 1 ∧ 0 <= col
  | EJoin line => 0 <= line < 2 ^ 64 - 1
  | ESave f => 0 <= room f
  | _ => True
  end.

(** The bytes the command brings, and its lines. *)
Definition cmd_cost (c : ecmd) : Z :=
  match c with EInsert _ _ _ n => n | ESplit _ _ => 1 | ELoad f => zlen (data f) + 1 | _ => 0 end.

Definition run_cost (cs : list ecmd) : Z := foldr (λ c n, cmd_cost c + n) 1 cs.
