(* ===== verification/TextHistory.v ===== *)
(** * Records and versions

    The records of a text's stacks lead, one after another, to the versions of
    [TextSpec]; recording an edit puts its version first, undoing a record takes it. *)

From S2P Require Import Prelude Tile Text TextEdit TextSpec.

(** The records lead from the lines to the versions. *)
Inductive traces : list erec → list (list Z) → list version → Prop :=
  | tr_nil L : traces [] L []
  | tr_cons r rs L inv L' r' vs :
      p_apply r L = Some (inv, L') → p_apply inv L' = Some (r', L) → traces rs L' vs →
      traces (r :: rs) L (mk_version (group r) L' (cursor_after r inv) (cursor_after inv r') :: vs).

Definition costs (rs : list erec) : Z := foldr (λ r n, cost r + n) 0 rs.

(** The text holds the lines, its records are in order, and all of it takes at most [B]. *)
Record fits (B : Z) (t : text) (L : list (list Z)) : Prop := mk_fits {
  f_lines : Forall2 holds (t_lines t) L;
  f_cap : zlen (t_lines t) <= t_cap t;
  f_undo : Forall rec_ok (es_v (undo t));
  f_redo : Forall rec_ok (es_v (redo t));
  f_cost : weight L + costs (es_v (undo t)) + costs (es_v (redo t)) <= B;
}.

Lemma cost_nonneg r : rec_ok r → 0 <= cost r.
Proof. intros (_ & _ & ? & _). unfold cost. destruct (op r); lia. Qed.

Lemma costs_nonneg rs : Forall rec_ok rs → 0 <= costs rs.
Proof. induction 1 as [| r rs ? _ IH]; simpl; [lia |]. pose proof (cost_nonneg r ltac:(done)). lia. Qed.

Lemma fits_weight B t L : fits B t L → weight L <= B.
Proof. intros [_ _ Hu%costs_nonneg Hr%costs_nonneg ?]. lia. Qed.

Lemma fits_mono B B' t L : fits B t L → B <= B' → fits B' t L.
Proof. intros [] ?. split; (done || lia). Qed.

(** Only these fields matter. *)
Lemma fits_ext B t t' L :
  t_lines t' = t_lines t → t_cap t' = t_cap t → es_v (undo t') = es_v (undo t) → es_v (redo t') = es_v (redo t) →
  fits B t L → fits B t' L.
Proof. intros E1 E2 E3 E4 []. split; by rewrite ?E1, ?E2, ?E3, ?E4. Qed.

Definition with_group (g : Z) (r : erec) : erec := {| r with group := g |}.

Lemma rec_ok_group g r : rec_ok (with_group g r) ↔ rec_ok r.
Proof. done. Qed.

Lemma p_apply_group g r L : p_apply (with_group g r) L = p_apply r L.
Proof. done. Qed.

Lemma estack_push_ok s r t :
  ∃ o mem, estack_push s r t = Some (o, relines (t_lines t) (t_cap t) mem t) ∧ answers t mem (is_Some o) ∧
    ∀ s', o = Some s' → es_v s' = r :: es_v s.
Proof.
  unfold estack_push. destruct (es_cap s <=? _).
  - destruct (ask_ok t) as (b & mem & -> & Hm). eexists _, mem. split; [done |]. split.
    + apply (answers_mono _ _ _ _ Hm). by intros ->.
    + by destruct b; intros s' [= <-].
  - exists (Some (with_records (r :: es_v s) s)), (t_mem t). split; [by destruct t |]. split; [done |]. by intros s' [= <-].
Qed.

(** The edit's inverse leads back to the lines before. *)
Lemma traces_push i L inv L' g rs vs :
  rec_ok i → zlen L < 2 ^ 58 → p_apply i L = Some (inv, L') → traces rs L vs →
  ∃ r', p_apply inv L' = Some (r', L) ∧
    traces (with_group g inv :: rs) L' (mk_version g L (cursor_after inv r') (cursor_after i inv) :: vs).
Proof.
  intros Hi HL E Hvs. destruct (p_apply_inverse _ _ _ _ Hi E HL) as (_ & r' & E1 & _ & E2 & Ec).
  exists r'. split; [done |]. rewrite <- Ec.
  exact (tr_cons (with_group g inv) rs L' r' L inv vs E1 E2 Hvs).
Qed.

(** ** Edits *)

Section Edit.
Context (junk : Z).

(** The record of an edit with inverse [inv]. *)
Definition recording (inv : erec) (t : text) : list erec :=
  let inv := with_group (cur_group t) inv in
  match coalesces t inv with Some (top, v) => top :: v | None => inv :: es_v (undo t) end.

Lemma coalesces_ok t inv top v :
  coalesces t inv = Some (top, v) → rec_ok inv → Forall rec_ok (es_v (undo t)) →
  Forall rec_ok (top :: v) ∧ costs (top :: v) = costs (es_v (undo t)).
Proof.
  unfold coalesces. intros E (Hi & Hc & Hn & _) Hu. destruct (es_v (undo t)) as [| r rs]; [done |].
  destruct (_ && _) eqn:Eg in E; [| done]. injection E as <- <-.
  repeat apply andb_true_iff in Eg as [Eg ?]. apply Forall_cons in Hu as [(? & ? & ? & ?) ?].
  destruct (bool_decide_reflect (op r = OP_DELETE)) as [Er |]; [| done].
  split; [constructor; [| done] |].
  - unfold rec_ok. cbn. rewrite Er. split_and!; (done || lia).
  - simpl. unfold cost. cbn. by rewrite Er.
Qed.

Lemma record_undo_ok inv t :
  ∃ mem u, record_undo inv t = Some {| (relines (t_lines t) (t_cap t) mem t) with undo := u; redo := estack_clear (redo t) |} ∧
    (es_v u = recording inv t ∨ es_v u = es_v (undo t)) ∧ answers t mem (es_v u = recording inv t).
Proof.
  unfold record_undo, recording. fold (with_group (cur_group t) inv).
  set (i := with_group (cur_group t) inv). set (t0 := {| t with redo := estack_clear (redo t) |}).
  change (cur_group t0) with (cur_group t). change (coalesces t0 ?x) with (coalesces t x). fold i.
  change {| inv with group := cur_group t |} with i.
  destruct (coalesces t i) as [[top v] |].
  - exists (t_mem t), (with_records (top :: v) (undo t)). split; [by destruct t |]. split; [by left |]. done.
  - destruct (estack_push_ok (undo t0) i t0) as (o & mem & -> & Hm & Ho). cbn [mbind option_bind].
    destruct o as [s |].
    + exists mem, s. split; [by destruct t |]. rewrite (Ho s eq_refl). split; [by left |]. by apply (answers_mono _ _ _ _ Hm).
    + exists mem, (undo t). split; [by destruct t |]. split; [by right |].
      apply (answers_mono _ _ _ _ Hm). by intros [? ?].
Qed.

Lemma edit_ok i t L inv L0 B :
  rec_ok i → fits B t L → B + cost i < 2 ^ 58 → p_apply i L = Some (inv, L0) →
  ∃ ok t' L', edit junk i t = Some (ok, t') ∧ fits (B + cost i) t' L' ∧
    ((ok = false ∧ L' = L ∧ t_mem t ≠ []) ∨
     (ok = true ∧ L' = L0 ∧ ∃ ls cap mem u, t' = {| (changed (relines ls cap mem t)) with undo := u; redo := estack_clear (redo t) |} ∧
        answers t mem (es_v u = recording inv t))).
Proof.
  intros Hi Hf HB Ep. pose proof (fits_weight _ _ _ Hf) as HW. destruct Hf as [HL Hcap Hu Hr HC].
  pose proof (cost_nonneg i Hi). pose proof (weight_len L).
  destruct (p_apply_inverse _ _ _ _ Hi Ep) as ((Hok & _ & Hw) & _); [lia |].
  destruct (apply_op_ok junk i t L Hi HL Hcap) as (o & ls & cap & mem & Hlc & Hm & Ho); [lia |].
  unfold edit. destruct o as [inv' |].
  - destruct Ho as (-> & L' & E & HL'). rewrite Ep in E. injection E as <- <-. cbn [mbind option_bind].
    destruct (record_undo_ok inv (changed (relines ls cap mem t))) as (mem' & u & -> & Hu' & Ha). cbn [mbind option_bind].
    assert (Hrec : Forall rec_ok (recording inv t) ∧ costs (recording inv t) <= costs (es_v (undo t)) + cost inv).
    { unfold recording. pose proof (cost_nonneg inv Hok). destruct (coalesces t _) as [[top v] |] eqn:Ec.
      - apply coalesces_ok in Ec as [? ->]; [split; [done | lia] | done | done].
      - split; [by constructor |]. simpl. unfold cost, with_group in *. simpl. lia. }
    destruct Hrec as [Hrec1 Hrec2]. eexists true, _, L0. split; [reflexivity |].
    pose proof (cost_nonneg inv Hok). pose proof (costs_nonneg _ Hr). split.
    + split; cbn; [done | done | by destruct Hu' as [-> | ->] | done |].
      destruct Hu' as [-> | ->]; change (recording inv (changed _)) with (recording inv t); cbn; lia.
    + right. split; [done |]. split; [done |]. exists ls, cap, mem', u. split; [done |].
      intros E. destruct (Hm E) as [-> _]. by destruct (Ha eq_refl).
  - destruct Ho as (-> & HL'). cbn [mbind option_bind]. eexists false, _, L. split; [reflexivity |]. split.
    + split; cbn; (done || lia).
    + left. split; [done |]. split; [done |]. intros E. destruct (Hm E) as [_ E']. by rewrite Ep in E'.
Qed.
End Edit.

(** ** The text and its description *)

(** The run of typing is the record on top. *)
Definition typing_ok (t : text) (d : edoc) : Prop :=
  match typing d with
  | None => can_coalesce t = false
  | Some (l, c) => can_coalesce t = true ∧ ∃ r v, es_v (undo t) = r :: v ∧
      op r = OP_DELETE ∧ group r = cur_group t ∧ e_line r = l ∧ e_col r + e_n r = c
  end.

Record rel (t : text) (d : edoc) : Prop := mk_rel {
  r_mem : t_mem t = [];
  r_past : traces (es_v (undo t)) (cur d) (past d);
  r_future : traces (es_v (redo t)) (cur d) (future d);
  r_final : final_newline t = d_final d;
  r_dirty : t_dirty t = d_dirty d;
  r_group : cur_group t = d_group d;
  r_depth : group_depth t = d_depth d;
  r_seq : group_seq t = d_seq d;
  r_typing : typing_ok t d;
}.

Definition failed (r : eres) : bool :=
  match r with RDone ok => negb ok | RMoved c => bool_decide (c = None) | RSaved ok _ => negb ok end.

Definition is_load (c : ecmd) : bool := match c with ELoad _ => true | _ => false end.

(** The command does no harm, whatever memory there is; with enough it does as
    described. *)
Definition simulates (junk : Z) (B : Z) (c : ecmd) (t : text) (L : list (list Z)) : Prop :=
  ∃ r t' L', text_step junk c t = Some (r, t') ∧ fits (B + cmd_cost c) t' L' ∧
    (failed r = true → is_load c = false → L' = L) ∧
    ∀ d, rel t d → cur d = L → r = (doc_step c d).1 ∧ rel t' (doc_step c d).2 ∧ L' = cur (doc_step c d).2.

(** Nothing happens. *)
Lemma simulates_idle junk B c t L r :
  text_step junk c t = Some (r, t) → fits B t L → 0 <= cmd_cost c →
  (∀ d, rel t d → cur d = L → doc_step c d = (r, d)) → simulates junk B c t L.
Proof.
  intros E Hf Hc Hd. exists r, t, L. split; [done |]. split; [apply (fits_mono B); [done | lia] |]. split; [done |].
  intros d Hr Hcur. rewrite (Hd d Hr Hcur). done.
Qed.

Section Steps.
Context (junk : Z) (B : Z) (t : text) (L : list (list Z)).
Context (Hf : fits B t L).

(** An edit that is no typing. *)
Lemma edit_plain i inv L0 :
  rec_ok i → B + cost i < 2 ^ 58 → p_apply i L = Some (inv, L0) →
  ∃ ok t' L', edit junk i {| t with can_coalesce := false |} = Some (ok, t') ∧ fits (B + cost i) t' L' ∧ (ok = false → L' = L) ∧
    ∀ d, rel t d → cur d = L → ∃ r', p_apply inv L0 = Some (r', L) ∧ ok = true ∧ L' = L0 ∧
      rel t' (recorded (cursor_after inv r') (cursor_after i inv) L0 d).
Proof.
  intros Hi HB Ep. set (t0 := {| t with can_coalesce := false |}).
  assert (Hf0 : fits B t0 L) by (by apply (fits_ext B t)).
  destruct (edit_ok junk i t0 L inv L0 B Hi Hf0 HB Ep) as (ok & t' & L' & E & Hf' & Hcase).
  exists ok, t', L'. split; [done |]. split; [done |]. split.
  { intros ->. destruct Hcase as [(_ & ? & _) | (? & _)]; done. }
  intros d Hr Hcur. pose proof (fits_weight _ _ _ Hf). pose proof (weight_len L). pose proof (cost_nonneg i Hi).
  destruct (traces_push i L inv L0 (cur_group t) (es_v (undo t)) (past d) Hi) as (r' & Er' & Htr); [lia | done | |].
  { rewrite <- Hcur. by apply r_past. }
  exists r'. split; [done |]. destruct Hcase as [(_ & _ & Hm) | (-> & -> & ls & cap & mem & u & -> & Ha)].
  { exfalso. apply Hm. exact (r_mem t d Hr). }
  split; [done |]. split; [done |]. destruct (Ha (r_mem t d Hr)) as [-> Hu]. unfold recording in Hu.
  assert (coalesces t0 (with_group (cur_group t0) inv) = None) as Ec.
  { unfold coalesces. change (es_v (undo t0)) with (es_v (undo t)). by destruct (es_v (undo t)). }
  rewrite Ec in Hu. destruct Hr. split; cbn; try done.
  - rewrite Hu, <- r_group0, Hcur. exact Htr.
  - constructor.
Qed.

Lemma place_None line col :
  0 <= line → aget L line = None → place_ok line col t = Some false.
Proof.
  intros Hl E. unfold place_ok, nlines. by rewrite (proj2 (lines_out _ _ _ (f_lines _ _ _ Hf) Hl) E).
Qed.

Lemma place_Some line col s :
  aget L line = Some s → place_ok line col t = Some (col <=? zlen s) ∧ ∃ l, aget (t_lines t) line = Some l ∧ l_len l = zlen s.
Proof.
  intros E. destruct (lines_get _ _ _ _ (f_lines _ _ _ Hf) E) as (l & ? & ? & ? & ? & El & Hl & _).
  pose proof (aget_Some _ _ _ E). rewrite <- (lines_len _ _ (f_lines _ _ _ Hf)) in *.
  unfold place_ok, nlines. replace (_ <=? line) with false by zbool. rewrite El. cbn.
  rewrite (holds_len _ _ Hl). split; [done |]. exists l. split; [done | by apply holds_len].
Qed.

Lemma sim_delete line col n :
  cmd_ok (EDelete line col n) → B < 2 ^ 58 → simulates junk B (EDelete line col n) t L.
Proof.
  intros (Hl & Hc & Hn) HB. destruct (aget L line) as [s |] eqn:Es.
  2: { apply simulates_idle with (RDone false); [| done | done |].
       - cbn. unfold text_delete. by rewrite place_None by (done || lia).
       - intros d _ <-. cbn. unfold doc_delete. by rewrite Es. }
  destruct (place_Some line col s Es) as [Hp (l & El & Hln)].
  destruct (Z.leb_spec col (zlen s)).
  2: { apply simulates_idle with (RDone false); [| done | done |].
       - cbn. unfold text_delete. by rewrite Hp.
       - intros d _ <-. cbn. unfold doc_delete. rewrite Es. by replace (_ <? _) with true by zbool. }
  destruct ((n =? 0) || (col =? zlen s)) eqn:Eq.
  { apply simulates_idle with (RDone true); [| done | done |].
    - cbn. unfold text_delete. rewrite Hp. cbn. rewrite El. cbn. by rewrite Hln, Eq.
    - intros d _ <-. cbn. unfold doc_delete. rewrite Es. replace (_ <? _) with false by zbool. by rewrite Eq. }
  destruct (del line col n L) as [L0 |] eqn:Ed.
  2: { unfold del in Ed. rewrite Es in Ed. cbn in Ed. by replace (_ <? _) with false in Ed by zbool. }
  set (cut := take (Z.to_nat n) (drop (Z.to_nat col) s)).
  assert (Ep : p_apply (mk_erec OP_DELETE line col None n 0) L = Some (mk_erec OP_INSERT line col (Some cut) (zlen cut) 0, L0)).
  { unfold p_apply. cbn. by rewrite Es; cbn; rewrite Ed. }
  destruct (edit_plain (mk_erec OP_DELETE line col None n 0) _ _ ltac:(done) ltac:(cbn; lia) Ep) as (ok & t' & L' & E & Hf' & Hk & Hd).
  exists (RDone ok), t', L'. split_and!.
  - unfold text_step, text_delete. rewrite Hp. cbn [mbind option_bind]. replace (col <=? zlen s) with true by zbool.
    rewrite El. cbn [mbind option_bind negb]. by rewrite Hln, Eq, E.
  - done.
  - intros Hno _. apply Hk. by destruct ok.
  - intros d Hr Hcur. destruct (Hd d Hr Hcur) as (r' & _ & -> & -> & Hr').
    assert (Hst : doc_step (EDelete line col n) d = (RDone true, recorded (line, col + zlen cut) (line, col) L0 d)).
    { cbn. unfold doc_delete. rewrite Hcur, Es. replace (_ <? _) with false by zbool. rewrite Eq, Ed. cbn.
      do 3 f_equal. subst cut. unfold zlen in *. rewrite length_take, length_drop. lia. }
    rewrite Hst. done.
Qed.

Lemma sim_split line col :
  cmd_ok (ESplit line col) → B + 1 < 2 ^ 58 → simulates junk B (ESplit line col) t L.
Proof.
  intros (Hl & Hc) HB. destruct (aget L line) as [s |] eqn:Es.
  2: { apply simulates_idle with (RDone false); [| done | done |].
       - cbn. unfold text_split. by rewrite place_None by (done || lia).
       - intros d _ <-. cbn. unfold doc_split, spl. by rewrite Es. }
  destruct (place_Some line col s Es) as [Hp _].
  destruct (Z.leb_spec col (zlen s)).
  2: { apply simulates_idle with (RDone false); [| done | done |].
       - cbn. unfold text_split. by rewrite Hp.
       - intros d _ <-. cbn. unfold doc_split, spl. rewrite Es. cbn. by replace (_ <? _) with true by zbool. }
  set (i := mk_erec OP_SPLIT line col None 0 0).
  destruct (spl line col L) as [L0 |] eqn:Ed.
  2: { unfold spl in Ed. rewrite Es in Ed. cbn in Ed. by replace (_ <? _) with false in Ed by zbool. }
  assert (Ep : p_apply i L = Some (mk_erec OP_JOIN line 0 None 0 0, L0)) by (unfold p_apply; cbn; by rewrite Ed).
  destruct (edit_plain i _ _ ltac:(done) HB Ep) as (ok & t' & L' & E & Hf' & Hk & Hd).
  exists (RDone ok), t', L'. split_and!.
  - unfold text_step, text_split. rewrite Hp. cbn [mbind option_bind]. replace (col <=? zlen s) with true by zbool.
    cbn [negb]. fold i. by rewrite E.
  - done.
  - intros Hno _. apply Hk. by destruct ok.
  - intros d Hr Hcur. destruct (Hd d Hr Hcur) as (r' & Er' & -> & -> & Hr').
    assert (Hst : doc_step (ESplit line col) d = (RDone true, recorded (line, col) (line + 1, 0) L0 d)).
    { cbn. unfold doc_split. by rewrite Hcur, Ed. }
    assert (e_col r' = col) as Ecol.
    { destruct (apply_changes i L _ _ ltac:(done) Ep) as (A & B0 & Hch). inversion Hch; subst.
      pose proof (changes_apply _ _ _ _ _ _ (ch_join A B0 a b 0 None 0 0)) as E1. rewrite E1 in Er'. by injection Er' as <-. }
    rewrite Hst. cbn in Hr'. rewrite Ecol in Hr'. done.
Qed.
Lemma sim_join line :
  cmd_ok (EJoin line) → B < 2 ^ 58 → simulates junk B (EJoin line) t L.
Proof.
  intros Hl HB. cbn in Hl. set (i := mk_erec OP_JOIN line 0 None 0 0). pose proof (f_lines _ _ _ Hf) as HL.
  destruct (joi line L) as [L0 |] eqn:Ed.
  2: { apply simulates_idle with (RDone false); [| done | done |].
       - cbn. unfold text_join, nlines. rewrite u64_small by lia.
         rewrite (proj2 (lines_out _ _ (line + 1) HL ltac:(lia))); [done |].
         unfold joi in Ed. destruct (aget L line) as [l |] eqn:El; [by destruct (aget L (line + 1)) |].
         apply aget_None. apply aget_None in El. lia.
       - intros d _ <-. cbn. unfold doc_join. rewrite Ed. by destruct (aget _ _). }
  pose proof Ed as Ed'. unfold joi in Ed'. destruct (aget L line) as [l |] eqn:El; [| done].
  destruct (aget L (line + 1)) as [l2 |] eqn:El2; [| done]. clear Ed'.
  assert (Ep : p_apply i L = Some (mk_erec OP_SPLIT line (zlen l) None 0 0, L0)).
  { unfold p_apply. cbn. by rewrite El; cbn; rewrite Ed. }
  assert (Hi : rec_ok i) by (unfold rec_ok; cbn; split_and!; (done || lia)).
  destruct (edit_plain i _ _ Hi ltac:(cbn; lia) Ep) as (ok & t' & L' & E & Hf' & Hk & Hd).
  exists (RDone ok), t', L'. split_and!.
  - unfold text_step, text_join, nlines. rewrite u64_small by lia. rewrite (lines_len _ _ HL).
    pose proof (aget_Some _ _ _ El2). replace (_ <=? line + 1) with false by zbool. fold i. by rewrite E.
  - done.
  - intros Hno _. apply Hk. by destruct ok.
  - intros d Hr Hcur. destruct (Hd d Hr Hcur) as (r' & _ & -> & -> & Hr').
    assert (Hst : doc_step (EJoin line) d = (RDone true, recorded (line + 1, 0) (line, zlen l) L0 d)).
    { cbn. unfold doc_join. by rewrite Hcur, El, Ed. }
    rewrite Hst. done.
Qed.

(** The run on top of the stack takes the insertion at its end. *)
Lemma coalesce_traces top v vs line col s n L0 :
  traces (top :: v) L vs → op top = OP_DELETE → rec_ok top → e_line top = line → e_col top + e_n top = col →
  ins line col (take (Z.to_nat n) s) L = Some L0 → 0 <= n <= zlen s →
  ∃ w p, vs = w :: p ∧ traces ({| top with e_n := e_n top + n |} :: v) L0 ({| w with v_from := (line, col + n) |} :: p).
Proof.
  intros Htr Ho Hok Hl Hc Hi Hn. inversion Htr as [| r rs ? inv L1 r' p E1 E2 Hvs]; subst.
  eexists _, p. split; [reflexivity |].
  destruct (apply_changes _ _ _ _ Hok E1) as (A & B0 & Hch). destruct Hok as (_ & _ & Hn0 & _).
  destruct top as [o tl tc tb tn tg]. cbn in *. subst o.
  inversion Hch as [| a x b bs n0 g Hx Ex Eb | |]; subst. cbn in *.
  unfold ins in Hi. rewrite aget_mid in Hi by done. cbn in Hi.
  destruct (Z.ltb_spec (zlen (a ++ x ++ b)) (zlen a + tn)) as [| Hcol]; [done |]. rewrite zlen_app in Hcol.
  assert (zlen x = tn) as <-.
  { apply (f_equal zlen) in Ex. rewrite zlen_take in Ex; lia. }
  injection Hi as <-. rewrite put_one by done. set (y := take (Z.to_nat n) s).
  assert (Hy : zlen y = n) by (apply zlen_take; lia).
  rewrite (app_assoc a x b), (ztake_app (a ++ x) b), (zdrop_app (a ++ x) b) by (rewrite zlen_app; lia).
  set (top' := mk_erec OP_DELETE (zlen A) (zlen a) tb (zlen x + n) tg).
  assert (Hch' : changes A B0 top' (mk_erec OP_INSERT (zlen A) (zlen a) (Some (x ++ y)) (zlen (x ++ y)) 0)
    (A ++ (a ++ (x ++ y) ++ b) :: B0) (A ++ (a ++ b) :: B0)).
  { apply ch_delete; [lia | apply ztake_app | apply zdrop_app]; rewrite zlen_app; lia. }
  replace (A ++ [(a ++ x) ++ y ++ b] ++ B0) with (A ++ (a ++ (x ++ y) ++ b) :: B0) by (by rewrite <- !app_assoc).
  destruct (changes_back _ _ _ _ _ _ Hch') as (r2 & H2 & _). apply changes_apply in Hch', H2.
  pose proof (tr_cons top' v _ _ _ r2 p Hch' H2 Hvs) as Htr'. cbn in Htr'. rewrite zlen_app, Hy in Htr'.
  replace (zlen a + zlen x + n) with (zlen a + (zlen x + n)) by lia. exact Htr'.
Qed.

(** Otherwise the insertion is a record of its own. *)
Lemma no_coalesce d line col n :
  rel t d → typing d ≠ Some (line, col) → coalesces t (mk_erec OP_DELETE line col None n (cur_group t)) = None.
Proof.
  intros Hr Hty. pose proof (r_typing t d Hr) as Hto. unfold typing_ok in Hto. unfold coalesces.
  destruct (es_v (undo t)) as [| top v]; [done |]. cbn.
  destruct (typing d) as [[l c] |].
  - destruct Hto as (_ & r & v' & [= <- <-] & _ & _ & El & Ec).
    replace (_ && _) with false; [done |]. symmetry.
    destruct (Z.eqb_spec (e_line top) line); [| by rewrite !andb_false_r].
    destruct (Z.eqb_spec (e_col top + e_n top) col); [| by rewrite !andb_false_r].
    exfalso. apply Hty. congruence.
  - by rewrite Hto.
Qed.

(** What an insertion leaves is what is said of it. *)
Lemma insert_rel line col s n L0 d ls cap u :
  let i := mk_erec OP_INSERT line col (Some s) n 0 in
  let inv := mk_erec OP_DELETE line col None n 0 in
  rel t d → cur d = L → rec_ok i → 0 <= n <= zlen s → zlen L < 2 ^ 58 → p_apply i L = Some (inv, L0) →
  ins line col (take (Z.to_nat n) s) L = Some L0 → es_v u = recording inv t →
  let t' := {| (changed (relines ls cap [] t)) with undo := u; redo := estack_clear (redo t) |} in
  let d' := match past d with
    | v :: p =>
        if bool_decide (typing d = Some (line, col))
        then {| d with cur := L0; past := {| v with v_from := (line, col + n) |} :: p; future := []; d_dirty := true |}
        else recorded (line, col) (line, col + n) L0 d
    | [] => recorded (line, col) (line, col + n) L0 d
    end in
  rel {| t' with can_coalesce := true |} {| d' with typing := Some (line, col + n) |}.
Proof.
  intros i inv Hr Hcur Hi Hn HL Ep Ed Hu t' d'. unfold recording in Hu. unfold with_group in Hu. cbn in Hu.
  destruct (decide (typing d = Some (line, col))) as [Ety | Ety].
  - pose proof (r_typing t d Hr) as Hto. unfold typing_ok in Hto. rewrite Ety in Hto.
    destruct Hto as (Hc & top & v & Ev & Ho & Hg & Hl & Hcol).
    assert (Hok : rec_ok top). { pose proof (f_undo _ _ _ Hf) as Hfu. rewrite Ev in Hfu. by inversion Hfu. }
    pose proof (r_past t d Hr) as Htr. rewrite Ev, Hcur in Htr.
    destruct (coalesce_traces top v _ line col s n L0 Htr Ho Hok Hl Hcol Ed Hn) as (w & p & Ew & Htr').
    unfold coalesces in Hu. cbn in Hu. rewrite Ev, Hc, Ho, Hg, Hl, Hcol, !Z.eqb_refl, bool_decide_true in Hu by done.
    cbn in Hu. rewrite Ho, Hl, Hg in Htr'. subst d'. rewrite Ew, bool_decide_true by done. destruct Hr. split; cbn; try done.
    + by rewrite Hu.
    + constructor.
    + split; [done |]. eexists _, v. split; [exact Hu |]. cbn. split_and!; (done || lia).
  - rewrite (no_coalesce d line col n Hr Ety) in Hu.
    assert (Ed' : d' = recorded (line, col) (line, col + n) L0 d).
    { subst d'. destruct (past d); [done |]. by rewrite bool_decide_false. }
    rewrite Ed'. clear d' Ed'. pose proof (r_past t d Hr) as Htr. rewrite Hcur in Htr.
    destruct (traces_push i L inv L0 (cur_group t) _ _ Hi HL Ep Htr) as (r' & _ & Htr').
    destruct Hr. split; cbn; try done.
    + rewrite Hu, <- r_group0, Hcur. exact Htr'.
    + constructor.
    + split; [done |]. eexists _, _. split; [exact Hu |]. done.
Qed.

Lemma sim_insert line col s n :
  cmd_ok (EInsert line col s n) → B + n < 2 ^ 58 → simulates junk B (EInsert line col s n) t L.
Proof.
  intros (Hl & Hc & Hn) HB. set (i := mk_erec OP_INSERT line col (Some s) n 0).
  destruct (aget L line) as [l |] eqn:Es.
  2: { apply simulates_idle with (RDone false); [| done | cbn; lia |].
       - cbn. unfold text_insert. by rewrite place_None by (done || lia).
       - intros d _ <-. cbn. unfold doc_insert, ins. by rewrite Es. }
  destruct (place_Some line col l Es) as [Hp _].
  destruct (Z.leb_spec col (zlen l)).
  2: { apply simulates_idle with (RDone false); [| done | cbn; lia |].
       - cbn. unfold text_insert. by rewrite Hp.
       - intros d _ <-. cbn. unfold doc_insert, ins. rewrite Es. cbn. by replace (_ <? _) with true by zbool. }
  destruct (ins line col (take (Z.to_nat n) s) L) as [L0 |] eqn:Ed.
  2: { unfold ins in Ed. rewrite Es in Ed. cbn in Ed. by replace (_ <? _) with false in Ed by zbool. }
  destruct (n =? 0) eqn:Eq.
  { apply simulates_idle with (RDone true); [| done | cbn; lia |].
    - cbn. unfold text_insert. rewrite Hp. cbn. by rewrite Eq.
    - intros d _ <-. cbn. unfold doc_insert. by rewrite Ed, Eq. }
  assert (Hi : rec_ok i) by (unfold rec_ok; cbn; split_and!; try done; try lia; intros _; exists s; split; [done | lia]).
  assert (Ep : p_apply i L = Some (mk_erec OP_DELETE line col None n 0, L0)) by (unfold p_apply; cbn; by rewrite Ed).
  destruct (edit_ok junk i t L _ L0 B Hi Hf HB Ep) as (ok & t' & L' & E & Hf' & Hcase).
  exists (RDone ok), (if ok then {| t' with can_coalesce := true |} else t'), L'. split_and!.
  - unfold text_step, text_insert. rewrite Hp. cbn [mbind option_bind]. replace (col <=? zlen l) with true by zbool.
    cbn [negb]. rewrite Eq. fold i. by rewrite E.
  - destruct ok; [by apply (fits_ext _ t') | done].
  - intros Hno _. destruct Hcase as [(-> & -> & _) | (-> & _)]; done.
  - intros d Hr Hcur. destruct Hcase as [(_ & _ & Hm) | (-> & -> & ls & cap & mem & u & -> & Ha)].
    { exfalso. apply Hm. exact (r_mem t d Hr). }
    destruct (Ha (r_mem t d Hr)) as [-> Hu]. cbn [doc_step]. unfold doc_insert. rewrite Hcur, Ed, Eq. cbn [fst snd].
    split; [done |]. split.
    + pose proof (fits_weight _ _ _ Hf). pose proof (weight_len L).
      exact (insert_rel line col s n L0 d ls cap u Hr Hcur Hi Hn ltac:(lia) Ep Ed Hu).
    + destruct (past d) as [| w p]; [done |]. by destruct (bool_decide _).
Qed.
End Steps.
