(* ===== verification/TextUndo.v ===== *)
(** * Undo and redo

    Both take records from one stack, apply them, and put what reverses them on the
    other; the versions go across the same way. *)

From S2P Require Import Prelude Tile Text TextEdit TextSpec TextHistory.

(** The stacks, from the one undone from. *)
Record two_sided (back : bool) (t : text) (L : list (list Z)) (from to : list version) : Prop := mk_two {
  two_mem : t_mem t = [];
  two_from : traces (es_v (from_stack back t)) L from;
  two_to : traces (es_v (from_stack (negb back) t)) L to;
}.

(** Undoing leaves these alone. *)
Definition same_frame (t t' : text) : Prop :=
  final_newline t' = final_newline t ∧ cur_group t' = cur_group t ∧ group_depth t' = group_depth t ∧
  group_seq t' = group_seq t ∧ can_coalesce t' = can_coalesce t.

Lemma fits_sides back B t L :
  fits B t L ↔
  Forall2 holds (t_lines t) L ∧ zlen (t_lines t) <= t_cap t ∧ Forall rec_ok (es_v (from_stack back t)) ∧
  Forall rec_ok (es_v (from_stack (negb back) t)) ∧
  weight L + costs (es_v (from_stack back t)) + costs (es_v (from_stack (negb back) t)) <= B.
Proof.
  destruct back; cbn; (split; [intros []; split_and!; (done || lia) | intros (? & ? & ? & ? & ?); split; (done || lia)]).
Qed.

Lemma from_with back f g t : from_stack back (with_stacks back f g t) = f.
Proof. by destruct back. Qed.

Lemma to_with back f g t : from_stack (negb back) (with_stacks back f g t) = g.
Proof. by destruct back. Qed.

Section Undo.
Context (junk : Z) (B : Z) (HB : B < 2 ^ 58).

Lemma undo_apply_one_ok back t L r v :
  fits B t L → es_v (from_stack back t) = r :: v →
  ∃ c t' L', undo_apply_one junk back t = Some (c, t') ∧ fits B t' L' ∧ es_v (from_stack back t') = v ∧ same_frame t t' ∧
    (c = None → L' = L) ∧ (is_Some c ∨ t_dirty t = true → t_dirty t' = true) ∧
    ∀ from to, two_sided back t L from to → ∃ w p, from = w :: p ∧ c = Some (v_to w) ∧ L' = v_lines w ∧ v_group w = group r ∧
      two_sided back t' L' p (turned w L :: to).
Proof.
  intros Hf Ev. pose proof (fits_weight _ _ _ Hf) as HW. apply (fits_sides back) in Hf as (HL & Hcap & Hfr & Hto & HC).
  rewrite Ev in Hfr, HC. apply Forall_cons in Hfr as [Hr Hv]. cbn [costs foldr] in HC. fold (costs v) in HC.
  pose proof (costs_nonneg _ Hv). pose proof (costs_nonneg _ Hto). pose proof (cost_nonneg _ Hr). pose proof (weight_len L).
  destruct (apply_op_ok junk r t L Hr HL Hcap) as (o & ls & cap & mem & Hlc & Hm & Ho); [lia |].
  unfold undo_apply_one. rewrite Ev. destruct o as [inv |].
  - destruct Ho as (-> & L' & Ep & HL'). cbn [mbind option_bind].
    destruct (p_apply_inverse _ _ _ _ Hr Ep) as ((Hok & _ & Hw) & r' & E1 & _ & E2 & Ec); [lia |].
    set (to := from_stack (negb back) t). set (t1 := changed (relines ls cap mem t)).
    fold (with_group (group r) inv). change {| inv with group := group r |} with (with_group (group r) inv).
    destruct (estack_push_ok to (with_group (group r) inv) t1) as (s & mem' & -> & Hm' & Hs). cbn [mbind option_bind].
    eexists _, _, L'. split; [reflexivity |]. split; [| split; [| split; [by destruct back | split; [done | split]]]].
    + apply (fits_sides back). rewrite from_with, to_with. pose proof (cost_nonneg _ Hok).
      assert (Hdef : Forall rec_ok (es_v (default to s)) ∧ costs (es_v (default to s)) <= cost inv + costs (es_v to)).
      { destruct s as [s |]; [change (default to (Some s)) with s; rewrite (Hs s eq_refl) | split; [done | simpl; lia]].
        split; [by constructor |]. simpl. unfold cost at 1. cbn. fold (cost inv). lia. }
      destruct Hdef. split_and!; try done.
      * by destruct back.
      * by destruct back.
      * cbn [es_v with_records]. subst to. lia.
    + rewrite from_with. done.
    + intros _. by destruct back.
    + intros from vs [Hmem Hfrom Hvs]. rewrite Ev in Hfrom. inversion Hfrom as [| ? ? ? inv0 L0 r0 p E3 E4 Hp]; subst.
      rewrite Ep in E3. injection E3 as <- <-. rewrite E1 in E4. injection E4 as <-.
      eexists _, p. split; [done |]. split; [done |]. split; [done |]. split; [done |].
      destruct (Hm Hmem) as [-> _]. destruct (Hm' eq_refl) as [-> [s' ->]]. split.
      * by destruct back.
      * rewrite from_with. done.
      * rewrite to_with. change (default to (Some s')) with s'. rewrite (Hs s' eq_refl). unfold turned. cbn [v_group v_to v_from]. rewrite <- Ec.
        exact (tr_cons (with_group (group r) inv) (es_v to) L' r' L inv vs E1 E2 Hvs).
  - destruct Ho as (-> & HL'). cbn [mbind option_bind]. eexists None, _, L. split; [reflexivity |].
    split; [| split; [by rewrite from_with | split; [by destruct back | split; [done | split; [intros [[? ?] | ?]; [done | by destruct back] |]]]]].
    + apply (fits_sides back). rewrite from_with, to_with. split_and!; try done; try by destruct back.
      cbn [es_v with_records]. lia.
    + intros from vs [Hmem Hfrom Hvs]. exfalso. rewrite Ev in Hfrom. inversion Hfrom as [| ? ? ? inv0 L0 r0 p E3 E4 Hp]; subst.
      destruct (Hm Hmem) as [_ E]. by rewrite E3 in E.
Qed.

Lemma same_frame_trans t1 t2 t3 : same_frame t1 t2 → same_frame t2 t3 → same_frame t1 t3.
Proof. unfold same_frame. intros (-> & -> & -> & -> & ->). done. Qed.

Lemma undo_rest_ok back g v : ∀ fuel t L,
  fits B t L → es_v (from_stack back t) = v → (length v <= fuel)%nat → t_dirty t = true →
  ∀ c, ∃ c' t' L', undo_rest junk fuel back g c t = Some (c', t') ∧ fits B t' L' ∧ same_frame t t' ∧ t_dirty t' = true ∧
    ∀ from to, two_sided back t L from to → ∃ p q, walk g c from L to = (c', p, L', q) ∧ two_sided back t' L' p q.
Proof.
  induction v as [| r v IH]; intros fuel t L Hf Ev Hfu Hd c.
  - exists c, t, L. split; [by destruct fuel; cbn; rewrite Ev |]. split; [done |]. split; [done |]. split; [done |].
    intros from to H2. pose proof (two_from _ _ _ _ _ H2) as Hfrom. rewrite Ev in Hfrom. inversion Hfrom; subst. by exists [], to.
  - destruct fuel as [| fuel]; [simpl in Hfu; lia |]. cbn [undo_rest]. rewrite Ev.
    destruct (negb (g =? 0) && (group r =? g)) eqn:Eg.
    + destruct (undo_apply_one_ok back t L r v Hf Ev) as (o & t1 & L1 & -> & Hf1 & Ev1 & Hs1 & Hn1 & Hd1 & H1).
      cbn [mbind option_bind]. destruct o as [c1 |].
      * destruct (IH fuel t1 L1 Hf1 Ev1 ltac:(simpl in Hfu; lia) (Hd1 (or_introl (mk_is_Some _ _ eq_refl))) c1)
          as (c' & t' & L' & E' & Hf' & Hs' & Hd' & H').
        exists c', t', L'. split; [done |]. split; [done |]. split; [by eapply same_frame_trans |]. split; [done |].
        intros from to H2. destruct (H1 from to H2) as (w & p & -> & [= ->] & -> & Hg & H3).
        destruct (H' p (turned w L :: to) H3) as (p' & q & Ew & H4). exists p', q. split; [| done].
        cbn [walk]. by rewrite Hg, Eg.
      * exists c, t1, L1. split; [done |]. split; [done |]. split; [done |].
        split; [by apply Hd1; right |]. intros from to H2. by destruct (H1 from to H2) as (w & p & -> & ? & _).
    + exists c, t, L. split; [done |]. split; [done |]. split; [done |]. split; [done |].
      intros from to H2. pose proof (two_from _ _ _ _ _ H2) as Hfrom. rewrite Ev in Hfrom. inversion Hfrom; subst.
      eexists _, to. split; [| exact H2]. cbn [walk v_group]. by rewrite Eg.
Qed.
(** A step back or on. *)
Lemma undo_step_ok back t L :
  fits B t L →
  ∃ c t' L', undo_step junk back t = Some (c, t') ∧ fits B t' L' ∧ (c = None → L' = L) ∧
    final_newline t' = final_newline t ∧ cur_group t' = cur_group t ∧ group_depth t' = group_depth t ∧
    group_seq t' = group_seq t ∧ can_coalesce t' = false ∧ (is_Some c → t_dirty t' = true) ∧
    ∀ from to, two_sided back t L from to →
      match from with
      | [] => c = None ∧ t' = {| t with can_coalesce := false |}
      | v :: p => ∃ p' q, c = Some (walk (v_group v) (v_to v) p (v_lines v) (turned v L :: to)).1.1.1 ∧
          walk (v_group v) (v_to v) p (v_lines v) (turned v L :: to) = (default (0, 0) c, p', L', q) ∧ two_sided back t' L' p' q
      end.
Proof.
  intros Hf. unfold undo_step. set (t0 := {| t with can_coalesce := false |}).
  assert (Hf0 : fits B t0 L) by (by apply (fits_ext B t)).
  assert (Es : from_stack back t0 = from_stack back t) by (by destruct back). rewrite Es.
  destruct (es_v (from_stack back t)) as [| r v] eqn:Ev.
  - exists None, t0, L. split_and!; try done.
    intros from to H2. pose proof (two_from _ _ _ _ _ H2) as Hfrom. rewrite Ev in Hfrom. by inversion Hfrom; subst.
  - destruct (undo_apply_one_ok back t0 L r v Hf0) as (o & t1 & L1 & -> & Hf1 & Ev1 & Hs1 & Hn1 & Hd1 & H1); [by rewrite Es |].
    cbn [mbind option_bind].
    assert (H2s : ∀ from to, two_sided back t L from to → two_sided back t0 L from to).
    { intros from to [? ? ?]. split; [done | by rewrite Es |]. by destruct back. }
    destruct o as [c |].
    + destruct (undo_rest_ok back (group r) v (length v) t1 L1 Hf1 Ev1 ltac:(lia) (Hd1 (or_introl (mk_is_Some _ _ eq_refl))) c)
        as (c' & t' & L' & -> & Hf' & Hs' & Hd' & H').
      cbn [mbind option_bind]. exists (Some c'), t', L'. destruct (same_frame_trans _ _ _ Hs1 Hs') as (? & ? & ? & ? & ?).
      split_and!; try done. intros from to Hside. destruct (H1 from to (H2s _ _ Hside)) as (w & p & -> & [= ->] & -> & Hg & Hside').
      destruct (H' p (turned w L :: to) Hside') as (p' & q & Ew & Hs2). exists p', q. rewrite Hg, Ew. done.
    + destruct Hs1 as (? & ? & ? & ? & ?). exists None, t1, L1. split_and!; try done.
      intros from to Hside. by destruct (H1 from to (H2s _ _ Hside)) as (w & p & -> & ? & _).
Qed.

Lemma sim_undo t L : fits B t L → simulates junk B EUndo t L.
Proof.
  intros Hf. destruct (undo_step_ok true t L Hf) as (c & t' & L' & E & Hf' & Hn & Efin & Eg & Ed & Es & Ec & Edi & H).
  exists (RMoved c), t', L'. split; [unfold text_step, text_undo; by rewrite E |].
  split; [by apply (fits_mono B); [| cbn; lia] |]. split; [intros Hfa _; apply Hn; by destruct c |].
  intros d Hr Hcur. specialize (H (past d) (future d)). cbn [doc_step]. unfold doc_undo.
  destruct Hr as [Hmem Hpast Hfut Hfin Hdir Hg Hde Hse Hty]. rewrite Hcur in *.
  destruct (past d) as [| v p] eqn:Ep.
  - destruct H as [-> ->]; [by split |]. cbn [fst snd]. split; [done |]. split; [| by rewrite Hn].
    split; try done; cbn; rewrite ?Hcur, ?Ep; done.
  - destruct H as (p' & q & E1 & E2 & [? ? ?]); [by split |]. rewrite E2. cbn [fst snd].
    rewrite E2 in E1. cbn in E1. split; [by rewrite E1 |]. split; [| done].
    split; cbn; try congruence; try done. apply Edi. by rewrite E1.
Qed.

Lemma sim_redo t L : fits B t L → simulates junk B ERedo t L.
Proof.
  intros Hf. destruct (undo_step_ok false t L Hf) as (c & t' & L' & E & Hf' & Hn & Efin & Eg & Ed & Es & Ec & Edi & H).
  exists (RMoved c), t', L'. split; [unfold text_step, text_redo; by rewrite E |].
  split; [by apply (fits_mono B); [| cbn; lia] |]. split; [intros Hfa _; apply Hn; by destruct c |].
  intros d Hr Hcur. specialize (H (future d) (past d)). cbn [doc_step]. unfold doc_redo.
  destruct Hr as [Hmem Hpast Hfut Hfin Hdir Hg Hde Hse Hty]. rewrite Hcur in *.
  destruct (future d) as [| v p] eqn:Ep.
  - destruct H as [-> ->]; [by split |]. cbn [fst snd]. split; [done |]. split; [| by rewrite Hn].
    split; try done; cbn; rewrite ?Hcur, ?Ep; done.
  - destruct H as (p' & q & E1 & E2 & [? ? ?]); [by split |]. rewrite E2. cbn [fst snd].
    rewrite E2 in E1. cbn in E1. split; [by rewrite E1 |]. split; [| done].
    split; cbn; try congruence; try done. apply Edi. by rewrite E1.
Qed.
End Undo.
