(* ===== verification/TextFile.v ===== *)
(** * Loading and saving a text

    Loading cuts the file's bytes at the newlines; saving writes the lines with
    newlines between them. *)

From S2P Require Import Prelude Tile TileFrame Text TextEdit TextSpec TextHistory.

(** ** Saving *)

Lemma room_take {A} (out s tl : list A) n :
  0 <= n → zlen out <= n → n < zlen out + zlen s →
  out ++ take (Z.to_nat (n - zlen out)) s = take (Z.to_nat n) (out ++ s ++ tl).
Proof.
  intros. unfold zlen in *. rewrite take_app_ge by lia. f_equal. rewrite take_app_le by lia. f_equal. lia.
Qed.

Lemma save_lines_ok fin n ls L : Forall2 holds ls L → ∀ out,
  0 <= n → zlen out <= n →
  save_lines ls fin n out =
    Some (zlen (out ++ print_lines fin L) <=? n, take (Z.to_nat n) (out ++ print_lines fin L)).
Proof.
  induction 1 as [| l s ls L Hl HF IH]; intros out Hn Ho; cbn [save_lines print_lines].
  - rewrite app_nil_r. replace (_ <=? n) with true by zbool. unfold zlen in *. rewrite take_ge by lia. done.
  - destruct Hl as (rest & -> & ->). rewrite aslice_head by done. cbn [mbind option_bind].
    assert (Hnil : bool_decide (ls = []) = bool_decide (L = [])).
    { apply bool_decide_ext. destruct HF; by split. }
    rewrite Hnil. set (nl := if negb (bool_decide (L = [])) || fin then [NEWLINE] else []).
    pose proof (zlen_nonneg s). pose proof (zlen_nonneg out).
    destruct (Z.ltb_spec (zlen (take (Z.to_nat (n - zlen out)) s)) (zlen s)) as [Hlt | Hge].
    + assert (n < zlen out + zlen s) by (unfold zlen in *; rewrite length_take in Hlt; lia).
      rewrite (room_take _ _ (nl ++ print_lines fin L)) by lia. f_equal. f_equal.
      symmetry. apply Z.leb_gt. rewrite !zlen_app. pose proof (zlen_nonneg nl). pose proof (zlen_nonneg (print_lines fin L)). lia.
    + assert (Hs : zlen out + zlen s <= n) by (unfold zlen in *; rewrite length_take in Hge; lia).
      replace (take (Z.to_nat (n - zlen out)) s) with s by (unfold zlen in *; rewrite take_ge by lia; done).
      rewrite zlen_app. destruct (negb (bool_decide (L = [])) || fin); subst nl.
      * destruct (Z.ltb_spec n (zlen out + zlen s + 1)).
        -- f_equal. f_equal.
           ++ symmetry. apply Z.leb_gt. rewrite !zlen_app, zlen_cons, zlen_nil. pose proof (zlen_nonneg (print_lines fin L)). lia.
           ++ rewrite app_assoc. symmetry. apply (ztake_app (out ++ s)). rewrite zlen_app. lia.
        -- rewrite IH; [| done | rewrite !zlen_app, zlen_cons, zlen_nil; lia]. by rewrite <- !app_assoc.
      * rewrite IH; [| done | rewrite zlen_app; lia]. by rewrite <- !app_assoc.
Qed.

Section File.
Context (junk : Z) (B : Z) (t : text) (L : list (list Z)).
Context (Hf : fits B t L).

Lemma sim_save f : cmd_ok (ESave f) → simulates junk B (ESave f) t L.
Proof.
  intros Hroom. cbn in Hroom.
  set (out := print_lines (final_newline t) L). set (ok := creates f && (zlen out <=? room f) && closes f).
  exists (RSaved ok (if creates f then Some (take (Z.to_nat (room f)) out) else None)), (if ok then {| t with t_dirty := false |} else t), L.
  split_and!.
  - unfold text_step, text_save. subst ok. destruct (creates f); cbn [negb andb]; [| done].
    rewrite (save_lines_ok _ _ _ _ (f_lines _ _ _ Hf)) by done. cbn [app mbind option_bind]. fold out.
    by destruct (zlen out <=? room f), (closes f).
  - apply (fits_mono B); [| cbn; lia]. destruct ok; [by apply (fits_ext B t) | done].
  - done.
  - intros d Hr Hcur. cbn [doc_step]. unfold doc_save. rewrite Hcur, <- (r_final t d Hr). fold out. fold ok. cbn [fst snd].
    split; [done |]. split; [| by destruct ok]. destruct ok; [| done]. destruct Hr. split; cbn; rewrite <- ?Hcur; done.
Qed.

(** ** Loading *)

Lemma read_all_ok bytes : ∀ len cap t0,
  ∃ ok mem, read_all bytes len cap t0 = (ok, relines (t_lines t0) (t_cap t0) mem t0) ∧ answers t0 mem (ok = true).
Proof.
  induction bytes as [| c bytes IH]; intros len cap t0; cbn.
  - exists true, (t_mem t0). split; [by destruct t0 | done].
  - destruct (cap <? len + 1); [| apply IH]. destruct (ask_ok t0) as (b & mem & -> & Hm). destruct b.
    + destruct (IH (len + 1) (if cap =? 0 then 4096 else cap * 2) (relines (t_lines t0) (t_cap t0) mem t0)) as (ok & mem' & -> & Hm').
      exists ok, mem'. split; [by destruct t0 |]. intros E. destruct (Hm E) as [-> _]. by apply Hm'.
    + exists false, mem. done.
Qed.

(** A line at the end. *)
Lemma lines_add_ok s n t0 L0 :
  Forall2 holds (t_lines t0) L0 → zlen (t_lines t0) <= t_cap t0 → weight L0 < 2 ^ 58 → 0 <= n <= 2 ^ 58 → zlen s = n →
  ∃ ok ls cap mem, lines_insert_at junk (nlines t0) s n t0 = Some (ok, relines ls cap mem t0) ∧ answers t0 mem (ok = true) ∧
    zlen ls <= cap ∧ Forall2 holds ls (if ok then L0 ++ [s] else L0).
Proof.
  intros HL Hc HW Hn Hs. unfold nlines. pose proof (lines_len _ _ HL) as El. pose proof (zlen_nonneg L0).
  destruct (lines_insert_at_ok junk (zlen (t_lines t0)) s n t0 L0 HL Hc HW Hn ltac:(lia) ltac:(lia))
    as (b & ls & cap & mem & -> & Hm & Hcap & Hls).
  exists b, ls, cap, mem. split_and!; try done. destruct b; [| by subst].
  destruct Hls as (A & B0 & lA & lB & l & -> & E & HA & HlA & -> & FA & FB & Hl).
  rewrite zlen_app in El. assert (B0 = []) as ->.
  { destruct B0 as [| x B0]; [done |]. rewrite zlen_cons in El. pose proof (zlen_nonneg B0). lia. }
  inversion FB; subst. rewrite app_nil_r. apply Forall2_app; [done |]. constructor; [| done].
  rewrite <- (ztake_app s [] (zlen s)), app_nil_r by done. done.
Qed.

Lemma load_bytes_ok rest : ∀ data pre acc t0 L0,
  data = pre ++ acc ++ rest → Forall2 holds (t_lines t0) L0 → zlen (t_lines t0) <= t_cap t0 →
  weight L0 + zlen acc + zlen rest < 2 ^ 58 →
  ∃ ok start ls cap mem L', load_lines junk rest data (zlen pre) (zlen pre + zlen acc) t0 = Some (ok, start, relines ls cap mem t0) ∧
    answers t0 mem (ok = true) ∧ Forall2 holds ls L' ∧ zlen ls <= cap ∧
    if (ok : bool) then L' = L0 ++ (cut_lines acc rest).1 ∧ weight L' + zlen (cut_lines acc rest).2 = weight L0 + zlen acc + zlen rest ∧
      ∃ pre', data = pre' ++ (cut_lines acc rest).2 ∧ zlen pre' = start
    else weight L' <= weight L0 + zlen acc + zlen rest.
Proof.
  induction rest as [| c rest IH]; intros data pre acc t0 L0 Ed HL Hc HW; cbn [load_lines cut_lines].
  - exists true, (zlen pre), (t_lines t0), (t_cap t0), (t_mem t0), L0. split_and!; try done; [by destruct t0 | | | exists pre].
    + by rewrite app_nil_r.
    + rewrite zlen_nil. cbn. lia.
    + by rewrite app_nil_r in Ed.
  - rewrite zlen_cons in HW. pose proof (zlen_nonneg rest). pose proof (zlen_nonneg acc). pose proof (weight_nonneg L0).
    destruct (Z.eqb_spec c NEWLINE) as [-> |].
    + replace (zlen pre + zlen acc - zlen pre) with (zlen acc) by lia.
      rewrite Ed, (aslice_mid pre acc) by done. rewrite <- Ed. cbn [mbind option_bind].
      destruct (lines_add_ok acc (zlen acc) t0 L0 HL Hc ltac:(lia) ltac:(lia) eq_refl) as (ok & ls & cap & mem & -> & Hm & Hcap & Hls).
      cbn [mbind option_bind]. destruct ok; cbn [negb].
      * destruct (IH data (pre ++ acc ++ [NEWLINE]) [] (relines ls cap mem t0) (L0 ++ [acc])) as (ok & start & ls' & cap' & mem' & L' & E & Hm' & ? & ? & Hok).
        { rewrite Ed. by rewrite <- !app_assoc. }
        { done. }
        { done. }
        { rewrite weight_app, zlen_nil. cbn. lia. }
        replace (zlen (pre ++ acc ++ [NEWLINE]) + zlen []) with (zlen pre + zlen acc + 1) in E by (rewrite !zlen_app, zlen_cons, zlen_nil; lia).
        replace (zlen (pre ++ acc ++ [NEWLINE])) with (zlen pre + zlen acc + 1) in E by (rewrite !zlen_app, zlen_cons, zlen_nil; lia).
        rewrite E. exists ok, start, ls', cap', mem', L'. split; [done |].
        split; [intros E0; destruct (Hm E0) as [-> _]; by apply Hm' |]. split; [done |]. split; [done |].
        rewrite weight_app, zlen_nil in Hok. cbn in Hok. rewrite zlen_cons.
        destruct (cut_lines [] rest) as [C rst]. cbn in *. destruct ok; [| lia].
        destruct Hok as (-> & HW' & Hpre). split; [by rewrite <- app_assoc |]. split; [lia | done].
      * eexists false, (zlen pre), ls, cap, mem, L0. split_and!; try done. rewrite zlen_cons. lia.
    + destruct (IH data pre (acc ++ [c]) t0 L0) as (ok & start & ls & cap & mem & L' & E & Hm & ? & ? & Hok); [| done | done | |].
      { rewrite Ed. by rewrite <- app_assoc. }
      { rewrite zlen_app, zlen_cons, zlen_nil. lia. }
      rewrite zlen_app, zlen_cons, zlen_nil, Z.add_assoc, Z.add_0_l in E. rewrite E.
      exists ok, start, ls, cap, mem, L'. split_and!; try done. rewrite zlen_app, zlen_cons, zlen_nil in Hok. rewrite zlen_cons.
      destruct ok; [| lia]. destruct Hok as (? & ? & ?). split; [done |]. split; [lia | done].
Qed.
(** The bytes after the last newline are a line, if there are any. *)
Lemma load_tail_ok data pre C R start t0 :
  Forall2 holds (t_lines t0) C → zlen (t_lines t0) <= t_cap t0 → weight C + zlen R < 2 ^ 58 → data = pre ++ R → zlen pre = start →
  ∃ ok ls cap mem, (if start <? zlen data then
      s ← aslice data start (zlen data - start); lines_insert_at junk (nlines t0) s (zlen data - start) t0
      else Some (true, t0)) = Some (ok, relines ls cap mem t0) ∧ answers t0 mem (ok = true) ∧ zlen ls <= cap ∧
    Forall2 holds ls (if (ok : bool) then C ++ (if bool_decide (R = []) then [] else [R]) else C).
Proof.
  intros HL1 Hc1 HW -> <-. rewrite zlen_app. replace (zlen pre + zlen R - zlen pre) with (zlen R) by lia.
  pose proof (zlen_nonneg R). pose proof (weight_nonneg C). destruct (Z.ltb_spec (zlen pre) (zlen pre + zlen R)).
  - rewrite bool_decide_false by (intros ->; rewrite zlen_nil in *; lia).
    pose proof (aslice_mid pre R [] (zlen pre) (zlen R) eq_refl eq_refl) as Ea. rewrite app_nil_r in Ea. rewrite Ea. cbn [mbind option_bind].
    destruct (lines_add_ok R (zlen R) t0 C HL1 Hc1 ltac:(lia) ltac:(lia) eq_refl) as (ok & ls & cap & mem & -> & ? & ? & ?).
    by exists ok, ls, cap, mem.
  - assert (R = []) as -> by (destruct R as [| x R]; [done |]; rewrite zlen_cons in *; pose proof (zlen_nonneg R); lia).
    rewrite bool_decide_true, app_nil_r by done. exists true, (t_lines t0), (t_cap t0), (t_mem t0). split_and!; try done. by destruct t0.
Qed.

(** What [text_load] starts from, and what it leaves. *)
Lemma text_load_ok f :
  zlen (data f) + 1 < 2 ^ 58 →
  ∃ ok t' L', text_load junk f t = Some (ok, t') ∧ fits (B + (zlen (data f) + 1)) t' L' ∧
    (t_mem t = [] → t_mem t' = [] ∧ ok = (opens f && negb (read_error f))) ∧
    if (ok : bool) then (L' = parse_lines (data f) ∨ (L' = [] ∧ data f = [] ∧ t_mem t ≠ [])) ∧ opens f && negb (read_error f) = true ∧
       es_v (undo t') = [] ∧ es_v (redo t') = [] ∧ can_coalesce t' = false ∧ final_newline t' = ends_line (data f) ∧
       t_dirty t' = false ∧ cur_group t' = 0 ∧ group_depth t' = 0 ∧ group_seq t' = group_seq t
    else opens f && negb (read_error f) = false → L' = L ∧ ∃ mem, t' = relines (t_lines t) (t_cap t) mem t.
Proof.
  intros HW. pose proof (fits_weight _ _ _ Hf) as HB. pose proof (weight_nonneg L). pose proof (zlen_nonneg (data f)).
  assert (Hkeep : ∀ mem, fits (B + (zlen (data f) + 1)) (relines (t_lines t) (t_cap t) mem t) L).
  { intros mem. apply (fits_mono B); [by apply (fits_ext B t) | lia]. }
  assert (Hsame : relines (t_lines t) (t_cap t) (t_mem t) t = t) by (by destruct t).
  unfold text_load. destruct (opens f); cbn [negb andb].
  2: { exists false, t, L. split_and!; try done; [rewrite <- Hsame; apply Hkeep |]. intros _. split; [done |]. by exists (t_mem t). }
  destruct (read_all_ok (data f) 0 0 t) as (ok & mem & -> & Hm).
  destruct ok; cbn [negb orb].
  2: { exists false, (relines (t_lines t) (t_cap t) mem t), L. split_and!; try done.
       - intros E. by destruct (Hm E).
       - intros _. split; [done |]. by exists mem. }
  destruct (read_error f); cbn [negb].
  { exists false, (relines (t_lines t) (t_cap t) mem t), L. split_and!; try done.
    - intros E. by destruct (Hm E).
    - intros _. split; [done |]. by exists mem. }
  match goal with |- context [load_lines _ _ _ _ _ ?x] => set (t0 := x) end.
  destruct (load_bytes_ok (data f) (data f) [] [] t0 []) as (ok & start & ls & cap & mem1 & L1 & E & Hm1 & HL1 & Hc1 & Hok1);
    [done | exact (List.Forall2_nil holds) | change (0 <= t_cap t); pose proof (zlen_nonneg (t_lines t)); pose proof (f_cap _ _ _ Hf); lia | change (0 + 0 + zlen (data f) < 2 ^ 58); lia |].
  change (zlen (@nil Z)) with 0 in E. change (0 + 0) with 0 in E. rewrite E. cbn [mbind option_bind].
  assert (Hmem : answers t mem1 (ok = true)).
  { intros E0. destruct (Hm E0) as [-> _]. by apply Hm1. }
  change (weight [] + zlen [] + zlen (data f)) with (zlen (data f)) in Hok1.
  assert (Hfit : ∀ L' ls cap mem, Forall2 holds ls L' → zlen ls <= cap → weight L' <= zlen (data f) + 1 →
    fits (B + (zlen (data f) + 1)) (relines ls cap mem t0) L').
  { intros. split; cbn; try done; lia. }
  destruct ok; cbn [negb].
  2: { eexists false, _, L1. split; [done |]. split; [apply Hfit; (done || lia) |]. split; [| done].
       intros E0. by destruct (Hmem E0). }
  destruct Hok1 as (-> & HW1 & pre & Hpre & Hstart). cbn [app] in *.
  unfold parse_lines. destruct (cut_lines [] (data f)) as [C R]. cbn [fst snd] in *.
  destruct (load_tail_ok (data f) pre C R start (relines ls cap mem1 t0) HL1 Hc1 ltac:(lia) Hpre Hstart)
    as (ok & ls2 & cap2 & mem2 & E2 & Hm2' & Hc2 & HL2).
  rewrite E2. cbn [mbind option_bind]. change (relines ls2 cap2 mem2 (relines _ _ _ t0)) with (relines ls2 cap2 mem2 t0).
  assert (Hm2 : answers t mem2 (ok = true)) by (intros E0; destruct (Hmem E0) as [-> _]; by apply Hm2').
  destruct ok; cbn [negb].
  2: { eexists false, _, _. split; [done |]. split; [apply Hfit; [exact HL2 | done |] |].
       - pose proof (zlen_nonneg R). lia.
       - split; [| done]. intros E0. by destruct (Hm2 E0). }
  remember (C ++ (if bool_decide (R = []) then [] else [R])) as L2 eqn:EL2.
  assert (HW2 : weight L2 <= zlen (data f) + 1).
  { rewrite EL2, weight_app. clear Hpre. destruct (bool_decide_reflect (R = [])) as [-> |]; cbn; [rewrite zlen_nil in HW1 |]; lia. }
  unfold nlines. cbn [t_lines relines]. rewrite (lines_len _ _ HL2). destruct L2 as [| s2 L3].
  - cbn [zlen length Z.of_nat Z.eqb].
    destruct (lines_insert_at_ok junk 0 [] 0 (relines ls2 cap2 mem2 t0) [] HL2 Hc2) as (b & ls3 & cap3 & mem3 & -> & Hm3 & Hc3 & Hls3); [cbn; lia | lia | done | done |].
    cbn [mbind option_bind]. assert (HmR : answers t mem3 (b = true)) by (intros E0; destruct (Hm2 E0) as [-> _]; by apply Hm3).
    eexists true, _, (if b then [[]] else []). split; [reflexivity |]. split; [| split; [intros E0; by destruct (HmR E0) |]].
    + apply (fits_ext _ (relines ls3 cap3 mem3 t0)); try done. apply Hfit; [| done | destruct b; [change (weight [[]]) with 1 | change (weight []) with 0]; lia].
      destruct b; [| by subst ls3]. destruct Hls3 as (A & B0 & lA & lB & l & EA & El & _ & _ & -> & FA & FB & Hl).
      destruct A; [| done]. destruct B0; [| done]. inversion FA; inversion FB; subst. by repeat constructor.
    + split_and!; try done. destruct b; [by left | right]. split; [done |]. split.
      * symmetry in EL2. apply app_eq_nil in EL2 as [-> ER]. destruct (bool_decide_reflect (R = [])) as [-> |]; [| done].
        destruct (data f); [done |]. rewrite zlen_cons in HW1. change (0 + 0 = zlen l + 1) in HW1. pose proof (zlen_nonneg l). lia.
      * intros E0. by destruct (HmR E0).
  - replace (zlen (s2 :: L3) =? 0) with false by (rewrite zlen_cons; pose proof (zlen_nonneg L3); zbool).
    cbn [mbind option_bind]. eexists true, _, (s2 :: L3). split; [reflexivity |].
    split; [by apply (fits_ext _ (relines ls2 cap2 mem2 t0)); [.. | apply Hfit] |].
    split; [intros E0; by destruct (Hm2 E0) |]. by split_and!; [left | ..].
Qed.

Lemma sim_load f : B + (zlen (data f) + 1) < 2 ^ 58 → simulates junk B (ELoad f) t L.
Proof.
  intros HW. pose proof (fits_weight _ _ _ Hf). pose proof (weight_nonneg L).
  destruct (text_load_ok f) as (ok & t' & L' & E & Hf' & Hm & Hok); [lia |].
  exists (RDone ok), t', L'. split_and!; [cbn [text_step]; by rewrite E | done | done |].
  intros d Hr Hcur. cbn [doc_step]. unfold doc_load. destruct (Hm (r_mem t d Hr)) as [Hm' Eok]. rewrite <- Eok. destruct ok.
  - destruct Hok as ([-> | (_ & _ & Hno)] & _ & Hu & Hre & Hc & Hfin & Hd & Hg & Hde & Hs); [| by destruct (Hno (r_mem t d Hr))]. cbn [fst snd].
    split; [done |]. split; [| done]. split; cbn; rewrite ?Hu, ?Hre; try done; [constructor.. |]. rewrite Hs. by destruct Hr.
  - destruct Hok as (-> & mem & ->); [done |]. cbn [fst snd]. split; [done |]. split; [| done]. cbn in Hm'. subst mem.
    destruct Hr. by split.
Qed.
End File.
