(* ===== verification/TextCorrect.v ===== *)
(** * The text buffer: what is promised

    Any session of edits, undos, groups, loads and saves does what [TextSpec] says;
    without memory it does less, but nothing worse.  Undo and redo are inverse,
    undoing everything gives the text loaded, and files keep their contents. *)

From S2P Require Import Prelude Tile Text TextEdit TextSpec TextHistory TextUndo TextFile TextSession.

Definition is_nil {A} (l : list A) : bool := match l with [] => true | _ => false end.

(** The text's lines are [L]. *)
Definition shows (t : text) (L : list (list Z)) : Prop := Forall2 holds (t_lines t) L.

Lemma traces_len rs L vs : traces rs L vs → is_nil rs = is_nil vs.
Proof. by destruct 1. Qed.

Lemma can_undo_ok t d : rel t d → text_can_undo t = negb (is_nil (past d)) ∧ text_can_redo t = negb (is_nil (future d)).
Proof.
  intros Hr. rewrite <- (traces_len _ _ _ (r_past t d Hr)), <- (traces_len _ _ _ (r_future t d Hr)).
  unfold text_can_undo, text_can_redo.
  split; [destruct (es_v (undo t)) as [| r l] | destruct (es_v (redo t)) as [| r l]]; try done;
    rewrite zlen_cons; cbn [is_nil negb]; pose proof (zlen_nonneg l); zbool.
Qed.

(** The queries see the lines, each with a NUL after it. *)
Definition answers_queries (t : text) (L : list (list Z)) : Prop :=
  text_lines t = zlen L ∧
  ∀ i, 0 <= i →
    match aget L i with
    | Some s => ∃ rest, text_line i t = Some (Some (s ++ 0 :: rest, zlen s)) ∧ text_line_len i t = Some (zlen s)
    | None => text_line i t = Some None ∧ text_line_len i t = Some 0
    end.

Lemma queries_ok t L : shows t L → answers_queries t L.
Proof.
  intros H. split; [by apply lines_len |]. intros i Hi. unfold text_line, text_line_len, nlines.
  destruct (aget L i) as [s |] eqn:E.
  - destruct (lines_get _ _ _ _ H E) as (l & ? & ? & ? & ? & El & (rest & Hb & Hl) & _).
    pose proof (aget_Some _ _ _ E). rewrite (lines_len _ _ H). replace (_ <=? i) with false by zbool.
    rewrite El. cbn [mbind option_bind]. exists rest. by rewrite Hb, Hl.
  - by rewrite (proj2 (lines_out _ _ _ H Hi) E).
Qed.

(** C12: With memory, any session is the one described: every result, every place of
    the cursor and every file written is as [doc_run] says, and the lines, the dirty
    flag, the final newline and what can be undone and redone are those it leaves, for
    every query; there is always a line. *)
Theorem text_session_correct junk cs :
  Forall cmd_ok cs → run_cost cs < 2 ^ 58 →
  let d := (doc_run cs doc_new).2 in
  ∃ t0 t, text_new junk [] = Some (Some t0) ∧ text_run junk cs t0 = Some ((doc_run cs doc_new).1, t) ∧
    shows t (cur d) ∧ answers_queries t (cur d) ∧ cur d ≠ [] ∧ text_dirty t = d_dirty d ∧ text_final_newline t = d_final d ∧
    text_can_undo t = negb (is_nil (past d)) ∧ text_can_redo t = negb (is_nil (future d)).
Proof.
  intros Hok HB d. destruct (session_ok junk cs Hok HB) as (t0 & t & E0 & E & Hf & Hr).
  exists t0, t. split; [done |]. split; [done |]. apply f_lines in Hf. split; [done |]. split; [by apply queries_ok |].
  split; [by apply (i_cur _ _ _ (doc_run_inv cs _ _ _ doc_new_inv)) |].
  split; [by apply r_dirty |]. split; [by apply r_final |]. by apply can_undo_ok.
Qed.

(** C15: Whatever memory there is, no session traps: the lines are always well formed,
    and an operation that fails, loading apart, leaves them as they were. *)
Theorem text_session_safe junk mem cs c :
  Forall cmd_ok (cs ++ [c]) → run_cost (cs ++ [c]) < 2 ^ 58 →
  ∃ o, text_new junk mem = Some o ∧ ∀ t0, o = Some t0 →
    ∃ rs t L r t' L', text_run junk cs t0 = Some (rs, t) ∧ shows t L ∧ text_step junk c t = Some (r, t') ∧ shows t' L' ∧
      (failed r = true → is_load c = false → L' = L).
Proof.
  intros [Hok [Hc _]%Forall_cons]%Forall_app HB. destruct (text_new_ok junk mem) as (o & E & _ & Ho).
  exists o. split; [done |]. intros t0 ->. destruct (Ho t0 eq_refl) as [Hf _].
  assert (Hcost : run_cost (cs ++ [c]) = run_cost cs + cmd_cost c).
  { unfold run_cost. rewrite foldr_app. cbn. generalize (cmd_cost c). clear. intros n.
    induction cs as [| c cs IH]; cbn; lia. }
  pose proof (cmd_cost_nonneg c Hc).
  destruct (text_run_ok junk cs 1 t0 _ Hf Hok ltac:(lia)) as (rs & t & L & E1 & Hf1 & _).
  destruct (step_ok junk _ c t L Hf1 Hc ltac:(lia)) as (r & t' & L' & E2 & Hf2 & Hfail & _).
  exists rs, t, L, r, t', L'. split_and!; try done; [by apply f_lines in Hf1 | by apply f_lines in Hf2].
Qed.

(** ** Undo and redo *)

Definition done_all (rs : list eres) : Prop := Forall (λ r, failed r = false) rs.

Definition same_history (d d' : edoc) : Prop := cur d' = cur d ∧ past d' = past d ∧ future d' = future d.

Lemma redo_undo base n d :
  doc_inv base n d → failed (doc_undo d).1 = false →
  ∀ d1, same_history (doc_undo d).2 d1 → failed (doc_redo d1).1 = false ∧ same_history d (doc_redo d1).2.
Proof.
  intros Hi Hdone d1 (Ec & Ep1 & Ef). unfold doc_undo in *. destruct (past d) as [| v p] eqn:Ep; [done |].
  destruct (walk (v_group v) (v_to v) p (v_lines v) _) as [[[c p'] L'] f'] eqn:Ew. cbn [snd cur past future] in *.
  pose proof (walk_keeps _ _ _ _ _ _ _ _ _ Ew) as (_ & _ & _ & _ & _ & _ & w & f1 & -> & Hg).
  { by exists (turned v (cur d)), (future d). }
  unfold doc_redo. rewrite Ef, Ep1, Ec, Hg.
  assert (Hstop : ∀ y, walk (v_group v) y (future d) (cur d) (v :: p) = (y, future d, cur d, v :: p)).
  { intros y. destruct (future d) as [| u f] eqn:Efut; [done |]. cbn [walk].
    pose proof (i_apart _ _ _ Hi) as Ha. rewrite Ep, Efut in Ha. cbn in Ha.
    destruct (Z.eqb_spec (v_group v) 0); [done |]. destruct (Z.eqb_spec (v_group u) (v_group v)); [| done]. exfalso. auto. }
  assert (Hback : ∃ y, walk (v_group v) (v_to w) f1 (v_lines w) (turned w L' :: p') = (y, future d, cur d, v :: p)).
  { destruct (Z.eqb_spec (v_group v) 0) as [E0 | Hne].
    - assert (Hw0 : walk (v_group v) (v_to v) p (v_lines v) (turned v (cur d) :: future d) =
        (v_to v, p, v_lines v, turned v (cur d) :: future d)) by (destruct p; cbn [walk]; rewrite ?E0; done).
      rewrite Hw0 in Ew. injection Ew as <- <- <- <- <-. rewrite turned_turned. eexists. apply Hstop.
    - assert (Ew' : walk (v_group v) (v_to v) (v :: p) (cur d) (future d) = (c, p', L', w :: f1)).
      { cbn [walk]. rewrite Z.eqb_refl. apply Z.eqb_neq in Hne. rewrite Hne. exact Ew. }
      destruct (walk_back _ _ _ _ _ _ _ _ _ Ew' (0, 0)) as [y Hy]. cbn [walk] in Hy. rewrite Hg, Z.eqb_refl in Hy.
      apply Z.eqb_neq in Hne. rewrite Hne in Hy. cbn [negb andb] in Hy. exists y. rewrite Hy. apply Hstop. }
  destruct Hback as [y ->]. unfold same_history. rewrite Ep. done.
Qed.

Lemma doc_run_app cs cs' d :
  doc_run (cs ++ cs') d = ((doc_run cs d).1 ++ (doc_run cs' (doc_run cs d).2).1, (doc_run cs' (doc_run cs d).2).2).
Proof.
  revert d. induction cs as [| c cs IH]; intros d; cbn [app doc_run].
  - cbn. by destruct (doc_run cs' d).
  - destruct (doc_step c d) as [r d1]. rewrite IH. by destruct (doc_run cs d1) as [rs d2].
Qed.

Lemma undo_redo_all k : ∀ base n d,
  doc_inv base n d → done_all (doc_run (replicate k EUndo) d).1 →
  let d1 := (doc_run (replicate k EUndo) d).2 in
  done_all (doc_run (replicate k ERedo) d1).1 ∧ same_history d (doc_run (replicate k ERedo) d1).2.
Proof.
  induction k as [| k IH]; intros base n d Hi Hd d0; [by split; [constructor |] |].
  rewrite replicate_S_end, doc_run_app. subst d0. cbn [replicate doc_run doc_step] in Hd |- *. pose proof (doc_undo_inv base n d Hi) as Hi1.
  pose proof (redo_undo base n d Hi) as Hback. destruct (doc_undo d) as [r d1]. cbn [fst snd] in *.
  specialize (IH base n d1 Hi1). destruct (doc_run (replicate k EUndo) d1) as [rs d2]. cbn [fst snd] in *.
  apply Forall_cons in Hd as [Hr Hrs]. destruct (IH Hrs) as [Hd2 Hs2]. destruct (Hback Hr _ Hs2) as [Hd3 Hs3].
  destruct (doc_redo (doc_run (replicate k ERedo) d2).2) as [r3 d3]. cbn [fst snd] in *.
  split; [| done]. apply Forall_app. split; [done |]. by apply Forall_cons.
Qed.

Lemma moves_cost k c : cmd_cost c = 0 → run_cost (replicate k c) = 1.
Proof. intros E. unfold run_cost. induction k as [| k IH]; cbn; [done |]. rewrite E, IH. done. Qed.

Lemma moves_ok k c : cmd_ok c → Forall cmd_ok (replicate k c).
Proof. intros ?. by apply Forall_replicate. Qed.

(** C13: After any session, undoing a number of times and redoing as often gives the
    same lines: each redo is there to do, groups and runs of typing included. *)
Theorem text_undo_redo junk cs k :
  Forall cmd_ok cs → run_cost cs < 2 ^ 58 →
  ∃ t0 rs t rs1 t1 rs2 t2, text_new junk [] = Some (Some t0) ∧ text_run junk cs t0 = Some (rs, t) ∧
    text_run junk (replicate k EUndo) t = Some (rs1, t1) ∧ text_run junk (replicate k ERedo) t1 = Some (rs2, t2) ∧
    (done_all rs1 → done_all rs2 ∧ ∃ L, shows t L ∧ shows t2 L).
Proof.
  intros Hok HB. destruct (session_ok junk cs Hok HB) as (t0 & t & E0 & E & Hf & Hr).
  pose proof (doc_run_inv cs _ _ _ doc_new_inv) as Hi. set (d := (doc_run cs doc_new).2) in *. clearbody d.
  destruct (text_run_ok junk (replicate k EUndo) _ t _ Hf (moves_ok k EUndo I)) as (rs1 & t1 & L1 & E1 & Hf1 & Hd1); [rewrite moves_cost; (done || lia) |].
  destruct (Hd1 d Hr eq_refl) as (-> & Hr1 & ->). rewrite moves_cost in Hf1 by done.
  destruct (text_run_ok junk (replicate k ERedo) _ t1 _ Hf1 (moves_ok k ERedo I)) as (rs2 & t2 & L2 & E2 & Hf2 & Hd2); [rewrite moves_cost; (done || lia) |].
  destruct (Hd2 _ Hr1 eq_refl) as (-> & Hr2 & ->).
  eexists _, _, _, _, _, _, _. split_and!; [exact E0 | exact E | exact E1 | exact E2 |].
  intros Hd. destruct (undo_redo_all k _ _ d Hi Hd) as [Hd' (Ec & _)]. split; [done |].
  exists (cur d). split; [by apply f_lines in Hf |]. rewrite <- Ec. by apply f_lines in Hf2.
Qed.

Lemma undo_count k : ∀ base d n, doc_inv base n d → (length (past d) <= k)%nat →
  past (doc_run (replicate k EUndo) d).2 = [] ∧ oldest (past d) (cur d) = cur (doc_run (replicate k EUndo) d).2.
Proof.
  induction k as [| k IH]; intros base d n Hi Hk.
  - cbn. destruct (past d) eqn:Ep; [done | simpl in Hk; lia].
  - cbn [replicate doc_run doc_step]. pose proof (doc_undo_inv base n d Hi) as Hi1.
    assert (Hlt : (length (past (doc_undo d).2) <= k)%nat).
    { unfold doc_undo. destruct (past d) as [| v p] eqn:Ep; cbn [snd]; [cbn; lia |].
      destruct (walk _ _ _ _ _) as [[[c p'] L'] f'] eqn:Ew. cbn [snd past].
      assert (length p' <= length p)%nat; [| simpl in Hk; lia].
      clear -Ew. revert Ew. generalize (turned v (cur d) :: future d), (v_to v), (v_lines v).
      induction p as [| u p IH]; intros to c0 L0 E; cbn [walk] in E; [by injection E as <- <- <- <- |].
      destruct (_ && _); [apply IH in E; simpl; lia | by injection E as <- <- <- <-]. }
    destruct (doc_undo d) as [r d1]. cbn [snd] in *. destruct (IH base d1 n Hi1 Hlt) as [Hp Hb].
    destruct (doc_run (replicate k EUndo) d1) as [rs d2]. cbn [snd] in *. split; [done |].
    rewrite <- Hb. by rewrite (i_base _ _ _ Hi), (i_base _ _ _ Hi1).
Qed.

(** C27: Undoing as often as there were commands gives back the lines of the last
    file loaded, or the empty text if none was; then nothing can be undone. *)
Theorem text_undo_all junk cs :
  Forall cmd_ok cs → run_cost cs < 2 ^ 58 →
  ∃ t0 rs t, text_new junk [] = Some (Some t0) ∧ text_run junk (cs ++ replicate (length cs) EUndo) t0 = Some (rs, t) ∧
    shows t (foldl new_base [[]] cs) ∧ text_can_undo t = false.
Proof.
  intros Hok HB. set (k := length cs).
  assert (Hall : Forall cmd_ok (cs ++ replicate k EUndo)) by (apply Forall_app; split; [done | by apply moves_ok]).
  assert (Hcost : run_cost (cs ++ replicate k EUndo) = run_cost cs).
  { unfold run_cost. rewrite foldr_app. f_equal. by apply (moves_cost k EUndo). }
  destruct (session_ok junk _ Hall ltac:(lia)) as (t0 & t & E0 & E & Hf & Hr).
  exists t0. eexists _, t. split; [done |]. split; [exact E |].
  rewrite doc_run_app in Hf, Hr. cbn [snd] in Hf, Hr. pose proof (doc_run_inv cs _ _ _ doc_new_inv) as Hi.
  set (d := (doc_run cs doc_new).2) in *. clearbody d.
  destruct (undo_count k _ d _ Hi) as [Hp Hb]; [pose proof (i_count _ _ _ Hi); lia |].
  rewrite (i_base _ _ _ Hi) in Hb. split; [rewrite Hb; by apply f_lines in Hf |].
  destruct (can_undo_ok t _ Hr) as [-> _]. by rewrite Hp.
Qed.

(** ** Files *)

Definition plain (s : list Z) : Prop := Forall (λ c, c ≠ NEWLINE) s.

Lemma cut_plain s : ∀ acc d, plain s → cut_lines acc (s ++ d) = cut_lines (acc ++ s) d.
Proof.
  induction s as [| c s IH]; intros acc d Hs; [by rewrite app_nil_r |].
  apply Forall_cons in Hs as [Hc Hs]. cbn [app cut_lines]. apply Z.eqb_neq in Hc. rewrite Hc, IH by done. by rewrite <- app_assoc.
Qed.

Lemma cut_print fin L :
  L ≠ [] → Forall plain L → cut_lines [] (print_lines fin L) = if fin then (L, []) else (removelast L, List.last L []).
Proof.
  intros Hne. induction L as [| s L IH]; [done |]. intros [Hs HL]%Forall_cons. cbn [print_lines].
  rewrite cut_plain by done. cbn [app]. destruct L as [| s' L].
  - rewrite bool_decide_true by done. cbn [negb orb print_lines app]. rewrite app_nil_r. by destruct fin.
  - rewrite bool_decide_false by done. cbn [negb orb app]. cbn [cut_lines]. rewrite Z.eqb_refl.
    rewrite IH by done. by destruct fin.
Qed.

(** What is saved is what is loaded, unless the last of several lines is empty and
    has no newline to be after. *)
Lemma parse_print fin L :
  L ≠ [] → Forall plain L → fin = true ∨ List.last L [] ≠ [] ∨ L = [[]] → parse_lines (print_lines fin L) = L.
Proof.
  intros Hne Hp Hcase. unfold parse_lines. rewrite cut_print by done. destruct fin.
  - rewrite bool_decide_true, app_nil_r by done. by destruct L.
  - pose proof (app_removelast_last [] Hne) as E. destruct Hcase as [? | [Hl | ->]]; [done | | done].
    rewrite bool_decide_false by done. rewrite <- E. by destruct L.
Qed.

(** The lines with their newlines. *)
Definition joined (L : list (list Z)) : list Z := concat (map (λ s, s ++ [NEWLINE]) L).

Lemma cut_joined d : ∀ acc, acc ++ d = joined (cut_lines acc d).1 ++ (cut_lines acc d).2.
Proof.
  induction d as [| c d IH]; intros acc; cbn [cut_lines]; [by rewrite app_nil_r |].
  destruct (Z.eqb_spec c NEWLINE) as [-> |].
  - specialize (IH []). destruct (cut_lines [] d) as [C R]. cbn [fst snd app] in *. rewrite IH.
    unfold joined. cbn. by rewrite <- !app_assoc.
  - rewrite <- IH. by rewrite <- app_assoc.
Qed.

Lemma cut_rest_plain d : ∀ acc, plain acc → plain (cut_lines acc d).2.
Proof.
  induction d as [| c d IH]; intros acc Ha; cbn [cut_lines]; [done |].
  destruct (Z.eqb_spec c NEWLINE) as [-> |].
  - specialize (IH [] (List.Forall_nil _)). by destruct (cut_lines [] d).
  - apply IH. apply Forall_app. split; [done |]. by apply Forall_cons.
Qed.

Lemma print_joined L : print_lines true L = joined L.
Proof. induction L as [| s L IH]; [done |]. cbn [print_lines]. rewrite orb_true_r, IH. unfold joined. cbn. by rewrite <- app_assoc. Qed.

Lemma print_last L s : print_lines false (L ++ [s]) = joined L ++ s.
Proof.
  induction L as [| s' L IH]; [cbn; by rewrite app_nil_r |]. cbn [app print_lines]. rewrite IH.
  rewrite bool_decide_false by (by destruct L). unfold joined. cbn. by rewrite <- !app_assoc.
Qed.

(** What is loaded is saved. *)
Lemma print_parse d : print_lines (ends_line d) (parse_lines d) = d.
Proof.
  unfold parse_lines. pose proof (cut_joined d []) as E. pose proof (cut_rest_plain d [] (List.Forall_nil _)) as HR.
  destruct (cut_lines [] d) as [C R]. cbn [fst snd app] in *. unfold ends_line.
  destruct (bool_decide_reflect (R = [])) as [-> | Hne].
  - rewrite !app_nil_r in *. destruct C as [| s C]; [by subst d |].
    assert (Hl : last d = Some NEWLINE).
    { subst d. pose proof (app_removelast_last [] (l := s :: C) ltac:(done)) as Es. rewrite Es. unfold joined.
      rewrite map_app, concat_app. cbn. by rewrite app_nil_r, app_assoc, last_snoc. }
    rewrite Hl, bool_decide_true, print_joined by done. done.
  - assert (Hl : last d ≠ Some NEWLINE).
    { subst d. rewrite last_app. destruct (last R) as [c |] eqn:El; [| by apply last_None in El].
      intros [= ->]. apply last_Some in El as [R' ->]. by apply Forall_app in HR as [_ [? _]%Forall_cons]. }
    rewrite (bool_decide_false _ Hl). destruct (C ++ [R]) as [| s L] eqn:EL; [by destruct C |]. rewrite <- EL.
    by rewrite print_last.
Qed.

Lemma print_len fin L : zlen (print_lines fin L) <= weight L.
Proof.
  induction L as [| s L IH]; [done |]. cbn. rewrite !zlen_app.
  assert (zlen (if negb (bool_decide (L = [])) || fin then [NEWLINE] else []) <= 1) by (by case_match).
  unfold weight in IH. lia.
Qed.

(** C14: A file loaded in any session is saved byte for byte.  And what a session
    saves is loaded again as the same lines, as long as no line has a newline, and
    the last one is not empty where there are others and no final newline. *)
Theorem text_file_roundtrip junk cs f g :
  Forall cmd_ok cs → run_cost cs + zlen (data f) + 1 < 2 ^ 57 →
  opens f = true → read_error f = false → creates g = true → closes g = true → zlen (data f) <= room g →
  ∃ t0 rs t L, text_new junk [] = Some (Some t0) ∧ text_run junk cs t0 = Some (rs, t) ∧ shows t L ∧
    (∃ t1, text_run junk [ELoad f; ESave g] t = Some ([RDone true; RSaved true (Some (data f))], t1)) ∧
    (Forall plain L → final_newline t = true ∨ List.last L [] ≠ [] ∨ L = [[]] → run_cost cs <= room g →
     ∃ out t1 t2, text_step junk (ESave g) t = Some (RSaved true (Some out), t1) ∧
       text_step junk (ELoad (mk_source true out false)) t1 = Some (RDone true, t2) ∧ shows t2 L).
Proof.
  intros Hok HB Ho He Hc Hcl Hroom. pose proof (zlen_nonneg (data f)).
  destruct (session_ok junk cs Hok ltac:(lia)) as (t0 & t & E0 & E & Hf & Hr).
  pose proof (i_cur _ _ _ (doc_run_inv cs _ _ _ doc_new_inv)) as Hne. set (d := (doc_run cs doc_new).2) in *. clearbody d.
  exists t0. eexists _, t, (cur d). split; [done |]. split; [exact E |]. split; [by apply f_lines in Hf |]. split.
  - destruct (text_run_ok junk [ELoad f; ESave g] _ t _ Hf) as (rs & t1 & L1 & E1 & _ & Hd1).
    { repeat constructor. cbn. lia. }
    { cbn. lia. }
    exists t1. rewrite E1. destruct (Hd1 d Hr eq_refl) as (-> & _). f_equal. f_equal.
    cbn [doc_run doc_step]. unfold doc_load. rewrite Ho, He. cbn [andb negb doc_run fst snd].
    unfold doc_save. cbn [d_final cur]. rewrite print_parse, Hc, Hcl. replace (_ <=? room g) with true by zbool. cbn [andb fst].
    do 4 f_equal. unfold zlen in *. apply take_ge. lia.
  - intros Hp Hlast Hroom'. set (out := print_lines (d_final d) (cur d)).
    pose proof (print_len (d_final d) (cur d)) as Hout. fold out in Hout. pose proof (fits_weight _ _ _ Hf).
    destruct (step_ok junk _ (ESave g) t _ Hf ltac:(cbn; lia) ltac:(cbn; lia)) as (r1 & t1 & L1 & E1 & Hf1 & _ & Hd1).
    destruct (Hd1 d Hr eq_refl) as (-> & Hr1 & ->).
    assert (Es : doc_step (ESave g) d = (RSaved true (Some out), {| d with d_dirty := false |})).
    { cbn [doc_step]. unfold doc_save. fold out. rewrite Hc, Hcl. replace (_ <=? room g) with true by zbool. cbn [andb].
      do 3 f_equal. unfold zlen in *. apply take_ge. lia. }
    rewrite Es in *. cbn [fst snd cur] in *.
    destruct (step_ok junk _ (ELoad (mk_source true out false)) t1 _ Hf1 I) as (r2 & t2 & L2 & E2 & Hf2 & _ & Hd2); [cbn; lia |].
    destruct (Hd2 _ Hr1 eq_refl) as (-> & Hr2 & ->). exists out, t1, t2. split; [done |]. split; [exact E2 |].
    apply f_lines in Hf2. cbn [doc_step] in Hf2. unfold doc_load in Hf2. cbn in Hf2. subst out.
    rewrite parse_print in Hf2; [done | done | done |]. by rewrite <- (r_final t d Hr).
Qed.

(** ** Where the promises end *)

(** What a session gives: its results, the lines, whether anything can be undone,
    and the count of changes. *)
Definition outcome (mem : list bool) (cs : list ecmd) : option (list eres * list (list Z) * bool * Z) :=
  o ← text_new 0 mem; t ← o; '(rs, t) ← text_run 0 cs t;
  Some (rs, map (λ l, take (Z.to_nat (l_len l)) (l_buf l)) (t_lines t), text_can_undo t, rev t).

(** The line after the greatest number is the first one, which is there. *)
Lemma join_size_max junk t : 1 <= zlen (t_lines t) < 2 ^ 63 → text_join junk (2 ^ 64 - 1) t = None.
Proof.
  intros H. unfold text_join, nlines. change (u64 (2 ^ 64 - 1 + 1)) with 0. replace (_ <=? 0) with false by zbool.
  unfold edit, apply_op. cbn [op e_line]. change (u64 (2 ^ 64 - 1 + 1)) with 0.
  unfold nlines. cbn [t_lines]. replace (_ <=? 0) with false by zbool.
  assert (E : aget (t_lines t) (2 ^ 64 - 1) = None) by (apply aget_None; lia). rewrite E. done.
Qed.

Lemma join_traps : outcome [] [EJoin (2 ^ 64 - 1)] = None.
Proof.
  unfold outcome. destruct (text_new_ok 0 []) as (o & -> & _ & Ho). cbn [mbind option_bind].
  destruct o as [t |]; [| done]. cbn [mbind option_bind]. destruct (Ho t eq_refl) as [Hf _].
  pose proof (lines_len _ _ (f_lines _ _ _ Hf)) as Hl. cbn [text_run text_step].
  rewrite join_size_max; [done |]. rewrite Hl. vm_compute. split; [discriminate | reflexivity].
Qed.

(** C38: What the header promises and the code does not keep.  Joining at the greatest
    line number is no error but an access out of bounds.  Without memory, a load that
    fails has dropped the lines; an empty file loads with none; an edit is not there
    to undo; and an undo that fails loses its record.  Loading does not count as a
    change; and an empty last line is not there after saving and loading. *)
Theorem text_limits :
  let ok := RDone true in
  outcome [] [EJoin (2 ^ 64 - 1)] = None ∧
  outcome [true; true; true; true; false] [ELoad (mk_source true [97; 10; 98] false)] = Some ([RDone false], [], false, 0) ∧
  outcome [true; true; true; false] [ELoad (mk_source true [] false)] = Some ([ok], [], false, 0) ∧
  outcome [true; true; true; false] [EInsert 0 0 [97] 1] = Some ([ok], [[97]], false, 1) ∧
  outcome [true; true; true; true; false] [EInsert 0 0 [97] 1; EUndo] = Some ([ok; RMoved None], [[97]], false, 1) ∧
  outcome [] [EInsert 0 0 [98] 1; ELoad (mk_source true [97] false)] = Some ([ok; ok], [[97]], false, 1) ∧
  outcome [] [EInsert 0 0 [97] 1; ESplit 0 1; ESave (mk_sink true 9 true)] =
    Some ([ok; ok; RSaved true (Some [97; 10])], [[97]; []], true, 2) ∧
  outcome [] [ELoad (mk_source true [97; 10] false)] = Some ([ok], [[97]], false, 0).
Proof. cbv zeta. split; [exact join_traps |]. split_and!; vm_compute; reflexivity. Qed.

(** Typing, a new line, a group, and most of it undone. *)
Definition demo_text : list ecmd :=
  [EInsert 0 0 [104] 1; EInsert 0 1 [105; 33] 2; EBoundary; ESplit 0 2; EBegin; EDelete 1 0 1; EInsert 1 0 [111; 107] 2; EEnd;
   EUndo; EUndo; EUndo; ERedo].

Lemma demo_text_ok : Forall cmd_ok demo_text.
Proof. repeat constructor; cbn; done. Qed.

Lemma demo_text_cost : run_cost demo_text = 7.
Proof. reflexivity. Qed.

Example demo_text_outcome :
  outcome [] demo_text =
  Some ([RDone true; RDone true; RDone true; RDone true; RDone true; RDone true; RDone true; RDone true;
         RMoved (Some (1, 1)); RMoved (Some (0, 2)); RMoved (Some (0, 0)); RMoved (Some (0, 3))], [[104; 105; 33]], true, 10).
Proof. vm_compute. reflexivity. Qed.

Lemma text_session_correct_witness : run_cost demo_text < 2 ^ 58 ∧
  ∃ t0 t, text_new 0 [] = Some (Some t0) ∧ text_run 0 demo_text t0 = Some ((doc_run demo_text doc_new).1, t) ∧
    shows t [[104; 105; 33]].
Proof.
  assert (H : run_cost demo_text < 2 ^ 58) by (rewrite demo_text_cost; done). split; [exact H |].
  destruct (text_session_correct 0 demo_text demo_text_ok H) as (t0 & t & H0 & H1 & H2 & _). exists t0, t. split; [exact H0 |]. split; [exact H1 | exact H2].
Defined.

Lemma text_session_safe_witness : ∃ t0 rs t r t' L', text_new 0 [true; true; true] = Some (Some t0) ∧
  text_run 0 demo_text t0 = Some (rs, t) ∧ text_step 0 (ESplit 0 1) t = Some (r, t') ∧ shows t' L'.
Proof.
  assert (Hok : Forall cmd_ok (demo_text ++ [ESplit 0 1])) by (apply Forall_app; split; [apply demo_text_ok | repeat constructor; cbn; lia]).
  assert (H : run_cost (demo_text ++ [ESplit 0 1]) < 2 ^ 58) by (vm_compute; reflexivity).
  destruct (text_session_safe 0 [true; true; true] demo_text (ESplit 0 1) Hok H) as (o & E & Ho).
  destruct o as [t0 |]; [| vm_compute in E; discriminate E].
  destruct (Ho t0 eq_refl) as (rs & t & L & r & t' & L' & E1 & _ & E2 & H2 & _).
  exists t0, rs, t, r, t', L'. split; [exact E |]. split; [exact E1 |]. split; [exact E2 | exact H2].
Defined.

Lemma text_undo_redo_witness : ∃ t0 rs t rs1 t1 rs2 t2, text_new 0 [] = Some (Some t0) ∧ text_run 0 (take 8 demo_text) t0 = Some (rs, t) ∧
  text_run 0 (replicate 3 EUndo) t = Some (rs1, t1) ∧ text_run 0 (replicate 3 ERedo) t1 = Some (rs2, t2) ∧
  (done_all rs1 → done_all rs2 ∧ ∃ L, shows t L ∧ shows t2 L).
Proof.
  assert (Hok : Forall cmd_ok (take 8 demo_text)) by (apply Forall_take, demo_text_ok).
  assert (H : run_cost (take 8 demo_text) < 2 ^ 58) by (vm_compute; reflexivity).
  exact (text_undo_redo 0 (take 8 demo_text) 3 Hok H).
Defined.

Lemma text_undo_all_witness : ∃ t0 rs t, text_new 0 [] = Some (Some t0) ∧
  text_run 0 (demo_text ++ replicate (length demo_text) EUndo) t0 = Some (rs, t) ∧ shows t [[]] ∧ text_can_undo t = false.
Proof.
  assert (H : run_cost demo_text < 2 ^ 58) by (rewrite demo_text_cost; done).
  exact (text_undo_all 0 demo_text demo_text_ok H).
Defined.

Lemma text_file_roundtrip_witness : ∃ t0 rs t L, text_new 0 [] = Some (Some t0) ∧ text_run 0 demo_text t0 = Some (rs, t) ∧ shows t L ∧
  ∃ t1, text_run 0 [ELoad (mk_source true [97; 10; 10; 98] false); ESave (mk_sink true 100 true)] t =
    Some ([RDone true; RSaved true (Some [97; 10; 10; 98])], t1).
Proof.
  assert (H : run_cost demo_text + zlen [97; 10; 10; 98] + 1 < 2 ^ 57) by (vm_compute; reflexivity).
  assert (Hr : zlen [97; 10; 10; 98] <= room (mk_sink true 100 true)) by (vm_compute; discriminate).
  destruct (text_file_roundtrip 0 demo_text (mk_source true [97; 10; 10; 98] false) (mk_sink true 100 true)
    demo_text_ok H eq_refl eq_refl eq_refl eq_refl Hr) as (t0 & rs & t & L & H0 & H1 & H2 & H3 & _).
  exists t0, rs, t, L. split; [exact H0 |]. split; [exact H1 |]. split; [exact H2 | exact H3].
Defined.
